(* ===== verification/_CoqProject ===== *)
-Q . S2P
Prelude.v
CppString.v
Want.v
Uri.v
Skills.v
MissionData.v
MissionInfo.v
CallContainer.v
AbilityRecord.v
StoreShape.v
MissionList.v
MissionMoves.v
MissionPlaces.v
MissionTargets.v
InfosInterface.v
MissionListManager.v
ManagerFrames.v
ManagerSafety.v
ManagerEvents.v
ManagerRun.v
ManagerDemo.v
ManagerClaims.v
ServiceRecord.v
ConnectManager.v
ConnectShape.v
ConnectSafety.v
ConnectRun.v
ConnectFlow.v
ConnectSession.v
ConnectClaims.v
DataAbility.v
DataAbilityRun.v
DataAbilityClaims.v
PendingWant.v
PendingWantRun.v
PendingWantClaims.v
UserTables.v
UserService.v
UserPause.v
UserServiceRun.v
UserSwitch.v
UserSession.v
UserClaims.v
StdMap.v
DataObs.v
AppRecords.v
AppManager.v
AppService.v
AppShape.v
AppReads.v
AppFrames.v
AppModules.v
AppStates.v
AppRun.v
AppStarts.v
AppSpares.v
AppSession.v
AppLoad.v
AppDeath.v
AppClip.v
AppClaims.v
FormLimiter.v
FormTimer.v
FormTimerRun.v
FormTimerClaims.v
FormInfos.v
FormRecords.v
FormData.v
FormStore.v
FormProvider.v
FormAdapter.v
FormEvents.v
FormDataRun.v
FormRun.v
FormClaims.v
FormReturns.v
FormHosts.v
FormLife.v
FormRefusals.v
FormStored.v
