(* ===== verification/Prelude.v ===== *)
(** * The ability framework services of OpenHarmony, modelled and verified

    The ability manager service starts, shows, connects and ends the abilities
    (pages, services, extensions, data providers) of applications. Its entry points
    (services/abilitymgr/src/ability_manager_service.cpp) check a caller and hand
    the request to the managers of the caller's user: [MissionListManager] for
    abilities with a window, [AbilityConnectManager] for services and extensions,
    [DataAbilityManager] for data providers, [PendingWantManager] for requests that
    are kept for later; [UserController] switches the users. The managers keep
    records, ask the application manager to load and show abilities, drive their
    life cycle through their schedulers, and learn of the results by reports,
    timeouts and deaths. The application manager service (services/appmgr) keeps the
    processes: it spawns, launches, kills and restarts them and reports their
    states. The form manager (form_runtime/services) shows forms, small pages of
    one application (the provider) inside another (the host): it keeps the forms,
    who shows them, their data, the timers that refresh them, and the database of
    those that outlive a restart. The data observer service (services/dataobsmgr)
    tells who watches a uri that its data has changed. A handler runs under the lock of its manager, so a handler is one step,
    and what it posts runs as a later one.

    ** Parts

    - [Prelude], [CppString], [StdMap]: C++ lists, strings, integers and ordered
      maps; the state and error monad [ST] with its total specification [wp] and the
      framing [keeps] and [leaves].
    - [Want] (ability_base/.../want.cpp, operation.cpp, element_name.cpp): the
      object every request carries, its escaping, printer and parser; [Uri]
      (uri.cpp): the parts of a uri; [Skills] (skills.cpp, patterns_matcher.cpp): what
      an ability says it can do, and which wants ask for it.
    - [MissionData] (mission_data_storage.cpp, task_data_persistence_mgr.cpp,
      inner_mission_info.cpp) and [MissionInfo] (mission_info_mgr.cpp): the
      persistent descriptions of missions, their files, ids, order and queries.
    - [CallContainer] (call_container.cpp, call_record.cpp): callers of an ability
      that wait for, or hold, its remote stub.
    - [AbilityRecord] (ability_record.cpp, lifecycle_deal.cpp, mission.cpp): the
      heap of records, missions and lists, behind references; [StoreShape]: what
      operations on one record leave alone.
    - [MissionList], [MissionMoves], [MissionPlaces], [MissionTargets]
      (mission_list.cpp and the moves of mission_list_manager.cpp): the stacks of
      missions, the moves between them, the invariant [places] on where a mission
      may be, and the choice of the list a start goes to.
    - [InfosInterface]: the class [MissionInfos] with its laws, which is all the
      manager knows of [MissionInfo]; [MissionInfoMgr_infos] discharges it.
    - [MissionListManager] (mission_list_manager.cpp): the handlers; [ManagerFrames],
      [ManagerSafety], [ManagerEvents]: what each keeps; [ManagerRun]: the
      transition system; [ManagerDemo]: concrete runs; [ManagerClaims]: theorems.
    - [ServiceRecord] (connection_record.cpp and the service side of
      ability_record.cpp), [ConnectManager] (ability_connect_manager.cpp): services,
      their connections and the handlers; [ConnectShape], [ConnectSafety],
      [ConnectRun]: frames, invariant and transition system; [ConnectFlow],
      [ConnectSession]: what handlers do step by step;
      [ConnectClaims]: theorems.
    - [DataAbility] (data_ability_manager.cpp, data_ability_record.cpp): data
      providers, who waits for one, and its clients; [DataAbilityRun],
      [DataAbilityClaims]: invariant, transition system, theorems.
    - [PendingWant] (pending_want_manager.cpp, pending_want_record.cpp): keys,
      senders and their flags; [PendingWantRun], [PendingWantClaims].
    - [UserTables], [UserService], [UserPause] (user_controller.cpp,
      user_event_handler.cpp and the part of ability_manager_service.cpp that keeps
      a manager of each kind per user): users, the queue of their events, the switch
      from one to another; it calls the mission lists and the connections through
      the models above. [UserServiceRun], [UserSwitch], [UserSession]: transition
      system, the switch step by step, a small device; [UserClaims]: theorems.
    - [AppRecords] (app_running_record.cpp, module_running_record.cpp,
      ability_running_record.cpp, app_lifecycle_deal.cpp), [AppManager]
      (app_running_manager.cpp, app_process_manager.cpp) and [AppService]
      (app_mgr_service_inner.cpp): processes, their modules and abilities, the
      tables of processes and the entry points of the service. [AppShape]: the
      invariant; [AppReads]: searches as pure functions; [AppFrames], [AppModules],
      [AppStates], [AppRun], [AppStarts], [AppSession]: what each
      operation keeps, and the transition system; [AppSpares],
      [AppLoad], [AppDeath], [AppClip]: what single requests do; [AppClaims]:
      theorems.
    - [DataObs] (dataobs_mgr_inner.cpp, dataobs_mgr_service.cpp): who watches a uri,
      the tasks that are posted and run, and the theorems on them.
    - [FormLimiter] (form_refresh_limiter.cpp) and [FormTimer] (form_timer_mgr.cpp):
      how often a form may be refreshed, and its timers: of an interval, of a time
      of the day, and those asked for by the provider; [FormTimerRun],
      [FormTimerClaims]: invariant, transition system, theorems.
    - [FormInfos] (form_info_mgr.cpp, form_info_storage_mgr.cpp): the forms that
      bundles offer, in memory and in the store.
    - [FormRecords] (form_record.h, form_item_info.cpp, form_db_info.h,
      form_host_record.cpp, form_provider_data.cpp): what is kept of a form and of a
      host, and the state [Forms] of the whole form manager; [FormData]
      (form_data_mgr.cpp, form_cache_mgr.cpp): the tables; [FormStore]
      (form_db_cache.cpp, form_storage_mgr.cpp): the database; [FormProvider]
      (form_provider_mgr.cpp): what goes to providers and comes back; [FormAdapter]
      (form_mgr_adapter.cpp): the requests of hosts and providers; [FormEvents]
      (form_sys_event_receiver.cpp): bundles and users that come and go, and the
      steps of the form manager. It runs the timers and the offered forms, whose
      states are fields of its own, through the models above ([on_timers],
      [on_infos]).
    - [FormDataRun], [FormRun]: the invariant [forms_ok], what keeps it, the
      transition system, and a concrete environment and run;
      [FormClaims], [FormReturns], [FormHosts], [FormLife], [FormRefusals],
      [FormStored]: theorems on the tables, on what returns, on who shows what, on
      the life of a form, on limits, refusals and data, and on what is stored.

    The mission lists and the connections share the records' data and pure
    operations ([AbilityRecord]); each has a heap of its own, as no record is in
    both. [UserService] has a manager of each kind per user behind one type, and
    calls the handlers of the mission lists and connections.

    ** How the code is translated

    A definition has the name of its C++ function, with a prefix where two classes
    use one name. A pointer is a reference into the heap of the state; a null
    dereference is [Thrown]; a weak pointer is locked by looking whether anything
    that lives still holds its object. Calls that leave the component (the
    application manager, schedulers, callbacks, posted tasks) are recorded in order
    in a trace; what they answer is a parameter ([app_load], [callee],
    [GenerateAbilityRequest], [JudgeAbilityVisibleControl], the answers of the
    bundle manager and the account service, the spawner's pids, which processes are
    left after a kill) that the theorems quantify over. Hypotheses on parameters are
    [good_request] (the bundle manager is consistent about launchers), the
    [MissionInfosLaws], which are proved of the implementation, and in the
    theorems on the application manager what the bundle manager answers for the one
    bundle they are about. [MissionInfoMgr_refines] asks for what file operations and
    the JSON library do ([FileUtil_laws], [reads_written]) and starts on files that a
    manager has saved; [service_consistent] asks that loading the infos of a user brings
    no mission of a launcher ([load_keeps]). The form manager takes its environment as two classes,
    [BundleEnv] (the bundle manager, profiles of extensions, the caller and the
    active account) and [FormEnv] (whether connections start, the key-value store
    answers and the screen is on, as functions of what was done before; the hash of
    the time, JSON texts, the wake-up agents); its clock is an argument of a step.
    It is modelled as built with SUPPORT_POWER. An int32_t counter wraps around; theorems that need fresh
    ids say how far it has counted.

    ** Fuel

    [pop_above] gets the length of the list it empties and one more, [free_id] the
    number of ids in use and one more; that this is enough is part of the theorems
    that these functions return ([MoveNoneTop_pops], [GenerateMissionId_fresh]).
    [ParseUri] is shown to end for every fuel from the length of its text on if there
    is no "PICK;" in it and the wrappers' parsers end, and, on the text of a want with a picker, for none. The removal of a
    timer ends in the first round of its loop or never, so [REMOVE_FUEL] is one;
    [RemoveFormTimer_hangs] shows that no fuel is enough in the other case, and
    [requests_return] says when it ends. [split_colons] and [replace_all] get the
    length of their text and one more: each round shortens it; so does [glob_loop],
    which is shown to return ([GlobPattern_spec]). Every other loop of
    the code runs over a list and is structural; the queue of the user events is run
    for a number of steps that the theorem gives.

    ** What is shown

    - Invariants of all reachable states: [reachable_lists_ordered],
      [connect_tables_agree], [CallContainer_reachable_wf], [data_tables_agree],
      [service_consistent], [apps_consistent], [timers_consistent],
      [forms_consistent]; and return of the handlers: of all of them
      ([reachable_handlers_return], [connect_tables_agree]), unless a pointer that is
      not looked at is missing ([apps_consistent] says when), if the infos of the
      users can be loaded and the bundle manager answers in time
      ([service_consistent]), and of the requests that [may_return] names
      ([requests_return]).
    - Refinement of an abstract specification: [MissionInfoMgr_refines],
      [queries_refine], [MoveMissionToTargetList_refines],
      [GetWantSender_refines], [limiter_refines], [hosts_refine], [observers_refine];
      equivalence with what a pattern means: [ClipStringContent_regex],
      [GlobPattern_spec]; of memory and store: [infos_agree].
    - What handlers do: [StartAbility_front], [MoveMissionToFront_front],
      [TerminateAbility_once], [singleton_reused], [ConnectAbility_spec],
      [disconnect_last], [CallRequestDone_connects], [Resolve_spec],
      [Release_once], [Acquire_spec], [release_undoes_acquire],
      [one_time_sends_once], [StartUser_switches], [StopUser_clears],
      [OnRemoteDied_forgets], [ending_process_left_alone],
      [UpdateAtTimerAlarm_next], [OnIntervalTimeOut_refreshes],
      [enabled_form_timed], [update_replaces], [Match_spec]; what they refuse: [AddForm_limits],
      [AddForm_foreign]; that they get somewhere:
      [waiting_start_served], [connect_session], [waiters_served],
      [screen_released], [first_ability_launched]; how often:
      [root_launcher_restarts].
    - Round trips: [ParseUri_ToUri], [Encode_Decode_safe], [FromJson_ToJson],
      [save_then_load], [dynamic_time_roundtrip], [AddForm_DeleteForm],
      [Uri_parts].
    - Where the code does not do what it means to: [second_singleton],
      [specified_response_mismatch], [StartAbility_loses_caller],
      [CompleteForegroundNew_overwrites], [services_never_removed],
      [two_disconnects_leak], [connect_while_starting],
      [ParseUri_picker_diverges], [GenerateMissionId_gives_up],
      [UpdateMissionInfo_lost], [SaveCachedSnapshot_overwrite],
      [update_never_replaces], [stale_timeout], [user_starts_again],
      [StartUser_snapshots_cross], [specified_before_attach],
      [foregrounded_after_terminate], [unspawned_process_blocks],
      [RemoveFormTimer_hangs], [at_alarm_not_renewed], [early_refresh_waits],
      [GetNoHostDBForms_spec], the two exceptions of [infos_agree],
      [speed_seven_rejects], [duplicates_block], [glob_examples],
      [relative_fragment_lost], [hyphen_refused].

    ** Not modelled

    Marshalling, proxies and stubs, the JavaScript bindings, the client libraries,
    the command line tools and the code generator only carry data. Clocks, snapshots
    (images) and starting windows are parameters or left out. Of the ability manager
    service itself only what keeps the managers of the users is modelled; its other
    entry points check permissions and forward. Of the application manager the
    permission checks are arguments; queries that fill lists for clients, updates of
    the configuration and memory levels, user tests, the spawner's socket, event
    reports and the observers of states are left out. Of the form manager the
    connections that wait for a provider and the tasks they post, the dumps, the
    stub with its permission checks, the routing of events to abilities, the JSON
    text of stored forms and the opening and recovery of the key-value store are
    left out: they carry data or belong to the libraries they call. Of the data
    observers the stop of the service is left out. The listener controller and
    installation on demand keep some state of their own and are not modelled: no
    part above calls them but to tell them what happened.

    ** This file

    The C++ standard-library operations on lists that the components use
    ([std::find_if], [std::list::remove], [erase] at the first match, [insert]
    before an iterator), fixed-width integers, the monad for code that may run into
    undefined behaviour, and the tactics and hint databases of the components. *)

From stdpp Require Export base tactics option list sorting gmap fin_maps strings.
From Stdlib Require Export ZArith Lia.

#[export] Set Default Goal Selector "!".

Declare Scope aafwk_scope.
Delimit Scope aafwk_scope with aafwk.
#[global] Open Scope Z_scope.

(** * Tactics *)

(** Split every conjunction of the context and solve by hypotheses. *)
Ltac split_hyps := repeat match goal with
  | H : _ ∧ _ |- _ => destruct H
  | H : ∃ _, _ |- _ => destruct H
  end.

(** Turn boolean tests of the code into propositions. *)
Ltac bool_to_prop := repeat match goal with
  | H : (_ && _)%bool = true |- _ => apply andb_true_iff in H; destruct H
  | H : (_ || _)%bool = false |- _ => apply orb_false_iff in H; destruct H
  | H : negb _ = true |- _ => apply negb_true_iff in H
  | H : negb _ = false |- _ => apply negb_false_iff in H
  | H : (_ =? _)%Z = true |- _ => apply Z.eqb_eq in H
  | H : (_ =? _)%Z = false |- _ => apply Z.eqb_neq in H
  | H : (_ <? _)%Z = true |- _ => apply Z.ltb_lt in H
  | H : (_ <? _)%Z = false |- _ => apply Z.ltb_ge in H
  | H : (_ <=? _)%Z = true |- _ => apply Z.leb_le in H
  | H : (_ <=? _)%Z = false |- _ => apply Z.leb_gt in H
  | H : bool_decide _ = true |- _ => apply bool_decide_eq_true in H
  | H : bool_decide _ = false |- _ => apply bool_decide_eq_false in H
  | H : String.eqb _ _ = true |- _ => apply String.eqb_eq in H
  | H : String.eqb _ _ = false |- _ => apply String.eqb_neq in H
  end.

(** Case on every [match] and [if] of the goal, cleaning up as it goes. *)
Ltac crush_cases :=
  repeat (case_match; simplify_eq/=; try done).

(** * Fixed-width integers *)

Definition INT_MAX : Z := 2147483647.
Definition UINT32_MOD : Z := 4294967296.

(** Reduction of a value to the range of [int32_t] (two's complement). *)
Definition wrap_i32 (z : Z) : Z :=
  (z + 2147483648) `mod` 4294967296 - 2147483648.

Lemma wrap_i32_id z : -2147483648 ≤ z ≤ INT_MAX → wrap_i32 z = z.
Proof. unfold wrap_i32, INT_MAX. intros. rewrite Z.mod_small; lia. Qed.

Lemma wrap_i32_range z : -2147483648 ≤ wrap_i32 z ≤ INT_MAX.
Proof.
  unfold wrap_i32, INT_MAX.
  pose proof (Z.mod_pos_bound (z + 2147483648) 4294967296). lia.
Qed.

(** * Code that may throw or loop

    Where the code can hit undefined behaviour (a null dereference, an
    invalidated iterator) a model returns [option], with [None] for it. Where
    it can throw or loop it returns an [outcome]: [Returned] is a normal
    return, [Thrown] an uncaught C++ exception and [OutOfFuel] a loop that has used up the fuel it was given: a theorem that
    the code returns shows the first, a theorem that it never does shows the
    last at every fuel. *)

Inductive outcome (A : Type) : Type :=
  | Returned (a : A)
  | Thrown
  | OutOfFuel.
Arguments Returned {_} _.
Arguments Thrown {_}.
Arguments OutOfFuel {_}.

#[export] Instance outcome_ret : MRet outcome := λ A a, Returned a.
#[export] Instance outcome_bind : MBind outcome := λ A B f m,
  match m with
  | Returned a => f a
  | Thrown => Thrown
  | OutOfFuel => OutOfFuel
  end.

Lemma outcome_bind_Returned {A B} (f : A → outcome B) (a : A) :
  (Returned a ≫= f) = f a.
Proof. done. Qed.

(** * Record update

    [x <| f := v |>] is the record [x] with field [f] set to [v], and
    [x <| f ::= g |>] the one with [g] applied to it. A record type takes part
    through an instance of [Eta], its constructor applied to its own fields. *)

Class Eta (R : Type) := eta : R → R.
Class Update {R T : Type} (proj : R → T) := update : (T → T) → R → R.

Ltac solve_update :=
  match goal with |- @Update ?R ?T ?proj =>
    let u := constr:(λ (g : T) (x : R), ltac:(
      let b := eval cbv beta delta [eta] in (eta x) in
      let b := eval hnf in b in
      match eval pattern (proj x) in b with ?F _ => exact (F g) end)) in
    let u := eval cbv beta in (λ (g : T → T) (x : R), u (g (proj x)) x) in
    exact u
  end.

#[export] Hint Extern 1 (Update _) => solve_update : typeclass_instances.
#[global] Arguments update {_ _} _ {_} _ !_ /.

Notation "x <| f := v |>" := (update f (λ _, v) x)
  (at level 1, f at level 0, left associativity) : stdpp_scope.
Notation "x <| f ::= g |>" := (update f g x)
  (at level 1, f at level 0, left associativity) : stdpp_scope.

(** * Stateful code

    [ST S A] is code that reads and writes a state [S]. [Thrown] is an
    uncaught exception or a null dereference. *)

Definition ST (S A : Type) : Type := S → outcome (A * S).

#[export] Instance ST_ret S : MRet (ST S) := λ A a s, Returned (a, s).
#[export] Instance ST_bind S : MBind (ST S) := λ A B f m s,
  match m s with
  | Returned (a, s') => f a s'
  | Thrown => Thrown
  | OutOfFuel => OutOfFuel
  end.

Section stateful.
Context {S : Type}.

Definition gets {A} (f : S → A) : ST S A := λ s, Returned (f s, s).
Definition modify (f : S → S) : ST S unit := λ s, Returned (tt, f s).

(** A dereference: the code goes on only when the pointer is not null. *)
Definition deref {A} (x : option A) : ST S A := λ s,
  match x with Some a => Returned (a, s) | None => Thrown end.

Fixpoint for_each {A} (f : A → ST S unit) (l : list A) : ST S unit :=
  match l with
  | [] => mret tt
  | x :: l' => f x ;; for_each f l'
  end.

(** [std::find_if] with a test that may dereference. *)
Fixpoint find_m {A} (f : A → ST S bool) (l : list A) : ST S (option A) :=
  match l with
  | [] => mret None
  | x :: l' => b ← f x; if b : bool then mret (Some x) else find_m f l'
  end.

(** The first answer of a search over several lists. *)
Fixpoint first_m {A B} (f : A → ST S (option B)) (l : list A) : ST S (option B) :=
  match l with
  | [] => mret None
  | x :: l' => b ← f x; match b with Some y => mret (Some y) | None => first_m f l' end
  end.

Lemma ST_bind_Returned {A B} (m : ST S A) (f : A → ST S B) s b s' :
  (m ≫= f) s = Returned (b, s') ↔ ∃ a s1, m s = Returned (a, s1) ∧ f a s1 = Returned (b, s').
Proof.
  unfold mbind, ST_bind. destruct (m s) as [[a s1]| |].
  - split; [by eauto|]. intros (a' & s1' & ? & ?). by simplify_eq.
  - split; [done|]. by intros (? & ? & ? & _).
  - split; [done|]. by intros (? & ? & ? & _).
Qed.

(** [wp m Q s]: run from [s], code [m] returns, in a state that satisfies [Q]
    with its result. It is a total specification: [m] neither throws nor runs
    out of fuel. *)
Definition wp {A} (m : ST S A) (Q : A → S → Prop) (s : S) : Prop :=
  match m s with Returned (a, s') => Q a s' | _ => False end.

Lemma wp_ret {A} (a : A) Q s : Q a s → wp (mret a) Q s.
Proof. done. Qed.

Lemma ret_inv {A} (a b : A) (s s' : S) : (Returned (a, s) : outcome (A * S)) = Returned (b, s') → b = a ∧ s' = s.
Proof. by intros [= <- <-]. Qed.

Lemma wp_bind {A B} (m : ST S A) (f : A → ST S B) Q s :
  wp m (λ a s', wp (f a) Q s') s → wp (m ≫= f) Q s.
Proof. unfold wp, mbind, ST_bind. by destruct (m s) as [[a s']| |]. Qed.

Lemma wp_gets {A} (f : S → A) Q s : Q (f s) s → wp (gets f) Q s.
Proof. done. Qed.

Lemma wp_modify (f : S → S) Q s : Q tt (f s) → wp (modify f) Q s.
Proof. done. Qed.

Lemma wp_deref {A} (x : option A) a Q s : x = Some a → Q a s → wp (deref x) Q s.
Proof. by intros ->. Qed.

Lemma wp_mono {A} (m : ST S A) (P Q : A → S → Prop) s :
  wp m P s → (∀ a s', P a s' → Q a s') → wp m Q s.
Proof. unfold wp. destruct (m s) as [[a s']| |]; auto. Qed.

Lemma wp_and {A} (m : ST S A) (P Q : A → S → Prop) s :
  wp m P s → wp m Q s → wp m (λ a s', P a s' ∧ Q a s') s.
Proof. unfold wp. by destruct (m s) as [[a s']| |]. Qed.

Lemma wp_returns {A} (m : ST S A) Q s :
  wp m Q s ↔ ∃ a s', m s = Returned (a, s') ∧ Q a s'.
Proof. unfold wp. destruct (m s) as [[a s']| |]; naive_solver. Qed.

Lemma wp_run {A} (m : ST S A) Q s : wp m Q s → ∃ a s', m s = Returned (a, s') ∧ Q a s'.
Proof. apply wp_returns. Qed.

Lemma wp_for_each {A} (I : S → Prop) (f : A → ST S unit) l s :
  I s → (∀ x s', x ∈ l → I s' → wp (f x) (λ _, I) s') → wp (for_each f l) (λ _, I) s.
Proof.
  revert s. induction l as [|x l IH]; intros s Hs H; simpl; [done|].
  apply wp_bind. eapply wp_mono; [apply H; [left|done]|].
  intros [] s' Hs'. apply IH; [done|]. intros y s'' Hy. apply H. by right.
Qed.

(** Code that keeps to a preorder on states, whatever it does within it. *)
Definition keeps {A} (R : relation S) (m : ST S A) (s : S) : Prop := wp m (λ _ s', R s s') s.

Section keeps.
Context (R : relation S) `{!PreOrder R}.

Lemma keeps_ret {A} (a : A) s : keeps R (mret a) s.
Proof. unfold keeps, wp, mret, ST_ret. reflexivity. Qed.

Lemma keeps_bind {A B} (m : ST S A) (f : A → ST S B) s :
  keeps R m s → (∀ a s', m s = Returned (a, s') → R s s' → keeps R (f a) s') → keeps R (m ≫= f) s.
Proof.
  unfold keeps, wp, mbind, ST_bind. destruct (m s) as [[a s']| |]; [|done..].
  intros Hs Hf. specialize (Hf a s' eq_refl Hs). destruct (f a s') as [[b s'']| |]; [|done..].
  by etransitivity.
Qed.

Lemma keeps_for_each {A} (P : S → Prop) (f : A → ST S unit) l s :
  P s → (∀ s1 s2, P s1 → R s1 s2 → P s2) → (∀ x s', x ∈ l → P s' → keeps R (f x) s') →
  keeps R (for_each f l) s.
Proof.
  intros Hs HP Hf. unfold keeps. eapply wp_mono; [apply (wp_for_each (λ s', P s' ∧ R s s'))|].
  - by split.
  - intros x s' Hx [Hs' HR]. eapply wp_mono; [by apply (Hf x s')|].
    intros [] s'' HR'. split; [by eapply HP|]. by etransitivity.
  - naive_solver.
Qed.

(** The iterations start from states related to the first one. *)
Lemma keeps_for_each_from {A} (f : A → ST S unit) l s :
  (∀ x s', x ∈ l → R s s' → keeps R (f x) s') → keeps R (for_each f l) s.
Proof.
  intros Hf. apply (keeps_for_each (R s)); [done| |done]. intros s1 s2 ? ?. by etransitivity.
Qed.

Lemma keeps_wp {A} (m : ST S A) Q s :
  keeps R m s → (∀ a s', m s = Returned (a, s') → R s s' → Q a s') → wp m Q s.
Proof. unfold keeps, wp. destruct (m s) as [[a s']| |]; [|done..]. auto. Qed.
End keeps.

Lemma keeps_gets {A B} (R : relation S) (f : S → A) (k : A → ST S B) s :
  keeps R (k (f s)) s → keeps R (gets f ≫= k) s.
Proof. done. Qed.

(** Following a pointer that is known to be there. *)
Lemma wp_read {A B} (f : S → option A) a (k : A → ST S B) Q s :
  f s = Some a → wp (k a) Q s → wp ((x ← gets f; deref x) ≫= k) Q s.
Proof. intros Ha H. apply wp_bind, wp_bind, wp_gets. by eapply wp_deref. Qed.

Lemma keeps_read {A B} (R : relation S) (f : S → option A) (k : A → ST S B) s :
  is_Some (f s) → (∀ a, f s = Some a → keeps R (k a) s) → keeps R ((x ← gets f; deref x) ≫= k) s.
Proof. intros [a Ha] H. eapply wp_read; [done|]. by apply H. Qed.

(** Searches with a test that only reads. *)
Lemma wp_find_pure {A} (f : A → ST S bool) (g : A → bool) l Q s :
  (∀ x, x ∈ l → f x s = Returned (g x, s)) → Q (List.find g l) s → wp (find_m f l) Q s.
Proof.
  revert Q. induction l as [|x l IH]; intros Q Hf HQ; [done|]. cbn [find_m List.find] in *.
  apply wp_bind. unfold wp at 1. rewrite Hf by (by left). destruct (g x); [done|].
  apply IH; [|done]. intros y Hy. apply Hf. by right.
Qed.

Lemma wp_first_pure {A B} (f : A → ST S (option B)) (g : A → option B) l Q s :
  (∀ x, x ∈ l → f x s = Returned (g x, s)) → Q (head (omap g l)) s → wp (first_m f l) Q s.
Proof.
  revert Q. induction l as [|x l IH]; intros Q Hf HQ; [done|]. cbn [first_m] in *.
  apply wp_bind. unfold wp at 1. rewrite Hf by (by left). csimpl in HQ. destruct (g x); [done|].
  apply IH; [|done]. intros y Hy. apply Hf. by right.
Qed.
End stateful.

(** What code leaves when it returns, whatever it needs to return: [wp] without the
    promise that it does. *)
Section leaves.
Context {S : Type} (R : relation S) `{!PreOrder R}.

Definition leaves {A} (m : ST S A) (s : S) : Prop := ∀ a s', m s = Returned (a, s') → R s s'.

Lemma leaves_ret {A} (a : A) s : leaves (mret a) s.
Proof. intros b s' [= _ <-]. reflexivity. Qed.
Lemma leaves_gets {A} (f : S → A) s : leaves (gets f) s.
Proof. intros b s' [= _ <-]. reflexivity. Qed.
Lemma leaves_deref {A} (x : option A) s : leaves (deref x) s.
Proof. intros b s'. unfold deref. destruct x; [|done]. intros [= _ <-]. reflexivity. Qed.
Lemma leaves_modify f s : R s (f s) → leaves (modify f) s.
Proof. intros H b s' [= _ <-]. exact H. Qed.

Lemma leaves_bind {A B} (m : ST S A) (f : A → ST S B) s :
  leaves m s → (∀ a s', m s = Returned (a, s') → leaves (f a) s') → leaves (m ≫= f) s.
Proof.
  intros Hm Hf b s'. unfold mbind, ST_bind. destruct (m s) as [[a s1]| |] eqn:E; [|done..].
  intros Hr. transitivity s1; [by eapply Hm|by eapply Hf].
Qed.

Lemma leaves_for_each {A} (f : A → ST S unit) l s : (∀ x s', x ∈ l → leaves (f x) s') → leaves (for_each f l) s.
Proof.
  revert s. induction l as [|x l IH]; intros s Hf; [apply leaves_ret|]. cbn [for_each].
  apply leaves_bind; [apply Hf; by left|]. intros [] s' _. apply IH. intros y s'' Hy. apply Hf. by right.
Qed.
Lemma leaves_find {A} (f : A → ST S bool) l s : (∀ x s', leaves (f x) s') → leaves (find_m f l) s.
Proof.
  intros Hf. revert s. induction l as [|x l IH]; intros s; [apply leaves_ret|]. cbn [find_m].
  apply leaves_bind; [apply Hf|]. intros [] s' _; [apply leaves_ret|apply IH].
Qed.
Lemma leaves_first {A B} (f : A → ST S (option B)) l s : (∀ x s', leaves (f x) s') → leaves (first_m f l) s.
Proof.
  intros Hf. revert s. induction l as [|x l IH]; intros s; [apply leaves_ret|]. cbn [first_m].
  apply leaves_bind; [apply Hf|]. intros [y|] s' _; [apply leaves_ret|apply IH].
Qed.
Lemma wp_leaves {A} (m : ST S A) Q s : leaves m s → wp m Q s → wp m (λ a s', R s s' ∧ Q a s') s.
Proof. intros Hl (a & s' & E & HQ)%wp_run. unfold wp. rewrite E. split; [by eapply Hl|done]. Qed.
End leaves.

(** * Transition systems

    The operations of a component as events on its state, each one step; [ok]
    says which events can happen in a state. *)

Section transitions.
Context {S E : Type} (run : E → ST S unit) (ok : S → E → Prop) `{Hdec : !∀ s e, Decision (ok s e)}.

Inductive event_step : relation S :=
  | event_happens e s s' : ok s e → run e s = Returned (tt, s') → event_step s s'.

(** The state after some events, if all of them can happen. *)
Fixpoint run_events (es : list E) (s : S) : option S :=
  match es with
  | [] => Some s
  | e :: es' =>
      if decide (ok s e) then
        match run e s with Returned (_, s') => run_events es' s' | _ => None end
      else None
  end.

Lemma run_events_steps es s s' : run_events es s = Some s' → rtc event_step s s'.
Proof.
  revert s. induction es as [|e es IH]; intros s Hes; cbn in Hes; [by simplify_eq|].
  destruct (decide (ok s e)); [|done]. destruct (run e s) as [[[] s1]| |] eqn:E1; [|done..].
  eapply rtc_l; [by eapply event_happens|]. by apply IH.
Qed.

(** The state after events of which it is known that they can all happen. *)
Definition after_events (es : list E) (s : S) : S := default s (run_events es s).

Lemma after_events_steps es s :
  bool_decide (is_Some (run_events es s)) = true → rtc event_step s (after_events es s).
Proof.
  intros [s1 Hes]%bool_decide_eq_true. unfold after_events. rewrite Hes. by eapply run_events_steps.
Qed.

(** Steps keep what every event keeps. *)
Lemma rtc_keeps (P : S → Prop) (R : relation S) `{!PreOrder R} s s' :
  (∀ e s, P s → ok s e → keeps (λ s s', R s s' ∧ P s') (run e) s) →
  P s → rtc event_step s s' → R s s' ∧ P s'.
Proof.
  intros Hk HP H. induction H as [s|s1 s2 s3 H1 _ IH]; [by split|].
  destruct H1 as [e s1 s2 He Hrun]. specialize (Hk e s1 HP He). unfold keeps, wp in Hk. rewrite Hrun in Hk.
  destruct Hk as [HR1 HP2]. destruct (IH HP2) as [HR2 HP3]. split; [by transitivity s2|done].
Qed.
End transitions.

(** * Lists *)

Section lists.
Context {A : Type}.
Implicit Types (P Q : A → bool) (l : list A) (x y : A).

(** [l.erase(std::find_if(l.begin(), l.end(), P))], nothing when no
    element satisfies [P]. *)
Fixpoint erase_first P l : list A :=
  match l with
  | [] => []
  | x :: l' => if P x then l' else x :: erase_first P l'
  end.

(** [*std::find_if(...) = y]. *)
Fixpoint replace_first P y l : list A :=
  match l with
  | [] => []
  | x :: l' => if P x then y :: l' else x :: replace_first P y l'
  end.

(** [l.insert(it, y)] where [it] is the first position satisfying [P], or
    [l.end()]. *)
Fixpoint insert_before P y l : list A :=
  match l with
  | [] => [y]
  | x :: l' => if P x then y :: x :: l' else x :: insert_before P y l'
  end.

Lemma find_Some_elem P l x : List.find P l = Some x → x ∈ l ∧ P x = true.
Proof.
  intros H. apply List.find_some in H as [? ?].
  split; [by apply list_elem_of_In | done].
Qed.

Lemma find_None_elem P l x : List.find P l = None → x ∈ l → P x = false.
Proof.
  intros H Hx. apply list_elem_of_In in Hx. by eapply List.find_none.
Qed.

Lemma find_None_iff P l : List.find P l = None ↔ ∀ x, x ∈ l → P x = false.
Proof.
  split; [intros H x; by apply find_None_elem |].
  induction l as [|x l IH]; [done|]. intros H. simpl.
  rewrite (H x) by set_solver. apply IH. set_solver.
Qed.

Lemma find_is_Some_iff P l : is_Some (List.find P l) ↔ ∃ x, x ∈ l ∧ P x = true.
Proof.
  split.
  - intros [x Hx]. exists x. by apply find_Some_elem.
  - intros (x & Hin & HP). destruct (List.find P l) eqn:E; [by eexists|].
    rewrite (find_None_elem _ _ _ E Hin) in HP. done.
Qed.

Lemma erase_first_sublist P l : erase_first P l `sublist_of` l.
Proof.
  induction l as [|x l IH]; simpl; [done|].
  destruct (P x); [by apply sublist_cons | by apply sublist_skip].
Qed.

Lemma elem_of_erase_first P l x : x ∈ erase_first P l → x ∈ l.
Proof.
  intros H. eapply elem_of_submseteq; [exact H|].
  apply sublist_submseteq, erase_first_sublist.
Qed.

Lemma erase_first_id P l : List.find P l = None → erase_first P l = l.
Proof.
  induction l as [|x l IH]; simpl; [done|]. destruct (P x); [done|].
  intros. by rewrite IH.
Qed.

Lemma erase_first_perm P l x :
  List.find P l = Some x → l ≡ₚ x :: erase_first P l.
Proof.
  induction l as [|y l IH]; simpl; [done|].
  destruct (P y); intros; simplify_eq; [done|].
  etransitivity; [apply perm_skip, IH; done|]. apply Permutation_swap.
Qed.

Lemma erase_first_length P l :
  is_Some (List.find P l) → length l = S (length (erase_first P l)).
Proof. intros [x Hx]. by rewrite (Permutation_length (erase_first_perm _ _ _ Hx)). Qed.

Lemma insert_before_perm P y l : insert_before P y l ≡ₚ y :: l.
Proof.
  induction l as [|x l IH]; simpl; [done|]. destruct (P x); [done|].
  rewrite IH. apply Permutation_swap.
Qed.

Lemma elem_of_insert_before P y l x : x ∈ insert_before P y l ↔ x = y ∨ x ∈ l.
Proof. rewrite insert_before_perm. apply elem_of_cons. Qed.

(** [std::list::sort(cmp)], which is stable. *)
Definition list_sort (cmp : A → A → bool) l : list A :=
  foldr (λ x acc, insert_before (λ y, negb (cmp y x)) x acc) [] l.

Lemma insert_before_sorted (R : relation A) P y l :
  Transitive R → (∀ x, x ∈ l → P x = false → R x y) →
  (∀ x, x ∈ l → P x = true → R y x) →
  StronglySorted R l → StronglySorted R (insert_before P y l).
Proof.
  intros Htrans Hf Ht Hs.
  induction Hs as [|x l Hs IH HR]; simpl; [repeat constructor|].
  destruct (P x) eqn:E.
  - assert (R y x) by (apply Ht; set_solver). constructor; [by constructor|].
    constructor; [done|]. eapply Forall_impl; [exact HR|]. intros z. by apply Htrans.
  - constructor; [apply IH; set_solver|]. rewrite insert_before_perm.
    constructor; [apply Hf; set_solver|done].
Qed.

Lemma list_sort_perm cmp l : list_sort cmp l ≡ₚ l.
Proof. induction l as [|x l IH]; simpl; [done|]. by rewrite insert_before_perm, IH. Qed.

Lemma list_sort_sorted (R : relation A) (cmp : A → A → bool) l :
  Transitive R → (∀ x y, cmp x y = true → R x y) → (∀ x y, cmp x y = false → R y x) →
  StronglySorted R (list_sort cmp l).
Proof.
  intros Htrans Ht Hf. induction l as [|x l IH]; simpl; [constructor|].
  apply insert_before_sorted; [done| | |done]; intros y _ Hy.
  - apply Ht. by destruct (cmp y x).
  - apply Hf. by destruct (cmp y x).
Qed.

Lemma StronglySorted_sublist (R : relation A) l1 l2 :
  l1 `sublist_of` l2 → StronglySorted R l2 → StronglySorted R l1.
Proof.
  induction 1 as [|x l1 l2 Hs IH|x l1 l2 Hs IH]; [done|..];
    intros [Hs2 HF]%StronglySorted_inv; [|by apply IH].
  constructor; [by apply IH|]. rewrite Forall_forall in HF |- *.
  intros y Hy. apply HF. by eapply elem_of_submseteq, sublist_submseteq.
Qed.

Lemma replace_first_length P y l : length (replace_first P y l) = length l.
Proof. induction l as [|x l IH]; simpl; [done|]. destruct (P x); simpl; lia. Qed.

Lemma fmap_replace_first {B} (f : A → B) P y l :
  (∀ x, List.find P l = Some x → f x = f y) →
  f <$> replace_first P y l = f <$> l.
Proof.
  induction l as [|x l IH]; intros H; simpl in *; [done|].
  destruct (P x) eqn:E; csimpl; [by rewrite (H x) | by rewrite IH].
Qed.

Lemma elem_of_replace_first P y l x : x ∈ replace_first P y l → x = y ∨ x ∈ l.
Proof.
  induction l as [|z l IH]; simpl; [by intros ?%not_elem_of_nil|].
  destruct (P z); rewrite !elem_of_cons; [tauto|]. intros [->|?%IH]; tauto.
Qed.

Lemma find_sublist_None P l1 l2 :
  l1 `sublist_of` l2 → List.find P l2 = None → List.find P l1 = None.
Proof.
  rewrite !find_None_iff. intros Hs H x Hx.
  apply H. by eapply elem_of_submseteq, sublist_submseteq.
Qed.
End lists.

Section lists_eq.
Context {A : Type} `{EqDecision A}.
Implicit Types (l : list A) (x y : A).

(** [std::list::remove(x)]: every element equal to [x] goes. *)
Definition list_remove_all (x : A) (l : list A) : list A := filter (.≠ x) l.

Lemma elem_of_list_remove_all x y l : y ∈ list_remove_all x l ↔ y ≠ x ∧ y ∈ l.
Proof. unfold list_remove_all. apply (list_elem_of_filter (.≠ x)). Qed.

Lemma list_remove_all_not_in x l : x ∉ l → list_remove_all x l = l.
Proof.
  unfold list_remove_all. induction l as [|y l IH]; intros H; [done|].
  rewrite filter_cons_True by set_solver. f_equal. apply IH. set_solver.
Qed.

Lemma NoDup_list_remove_all x l : NoDup l → NoDup (list_remove_all x l).
Proof. apply NoDup_filter. Qed.

Lemma list_remove_all_perm x l :
  NoDup l → x ∈ l → l ≡ₚ x :: list_remove_all x l.
Proof.
  unfold list_remove_all. induction l as [|y l IH]; intros Hnd Hin; [set_solver|].
  apply NoDup_cons in Hnd as [Hy Hnd]. rewrite filter_cons.
  destruct (decide (y ≠ x)) as [Hne|Heq%dec_stable].
  - etransitivity; [apply perm_skip, IH; set_solver|]. apply Permutation_swap.
  - subst. f_equiv. symmetry. rewrite <- (list_remove_all_not_in x l) at 2 by done. done.
Qed.

(** [erase] of the first element equal to [x]. *)
Definition list_erase_val (x : A) (l : list A) : list A :=
  erase_first (λ y, bool_decide (y = x)) l.

Lemma find_bool_decide_eq x l :
  List.find (λ y, bool_decide (y = x)) l = if decide (x ∈ l) then Some x else None.
Proof.
  induction l as [|y l IH]; cbn [List.find].
  - by rewrite decide_False by apply not_elem_of_nil.
  - case_bool_decide as Hy; [by subst; rewrite decide_True by apply list_elem_of_here|].
    rewrite IH. destruct (decide (x ∈ l)) as [Hx|Hx].
    + by rewrite decide_True by (by apply list_elem_of_further).
    + rewrite decide_False; [done|]. intros [->|?]%elem_of_cons; done.
Qed.

Lemma list_erase_val_perm x l : x ∈ l → l ≡ₚ x :: list_erase_val x l.
Proof.
  intros. apply erase_first_perm. rewrite find_bool_decide_eq.
  by rewrite decide_True.
Qed.

Lemma list_erase_val_not_in x l : x ∉ l → list_erase_val x l = l.
Proof.
  intros. apply erase_first_id. rewrite find_bool_decide_eq.
  by rewrite decide_False.
Qed.

Lemma list_erase_val_nodup x l :
  NoDup l → list_erase_val x l = list_remove_all x l.
Proof.
  unfold list_erase_val, list_remove_all.
  induction l as [|y l IH]; intros Hnd; [done|].
  apply NoDup_cons in Hnd as [Hy Hnd]. rewrite filter_cons. simpl.
  case_bool_decide; subst.
  - rewrite decide_False by tauto. symmetry. by apply list_remove_all_not_in.
  - rewrite decide_True by done. by rewrite IH.
Qed.
End lists_eq.

(** Fields of what a lookup gives, read off the lookup. *)
Lemma lookup_is_some {A} (o : option A) : bool_decide (is_Some o) = true → ∃ a, o = Some a.
Proof. intros [a Ha]%bool_decide_eq_true. by exists a. Qed.

Lemma lookup_field {A B} (f : A → B) (o : option A) a b : o = Some a → f <$> o = Some b → f a = b.
Proof. intros ->. cbn. congruence. Qed.

(** * Maps *)

(** The entries of a [std::map] in the order of an iteration. *)
Definition in_order {K A} `{Countable K} (ltb : K → K → bool) (m : gmap K A) : list (K * A) :=
  list_sort (λ x y, ltb x.1 y.1) (map_to_list m).

(** [std::map::emplace]: nothing when the key is there. *)
Definition emplace {K A} `{Countable K} (k : K) (x : A) (m : gmap K A) : gmap K A :=
  match m !! k with Some _ => m | None => <[k := x]> m end.

Lemma elem_of_in_order {K A} `{Countable K} (ltb : K → K → bool) (m : gmap K A) (i : K) (a : A) :
  (i, a) ∈ in_order ltb m ↔ m !! i = Some a.
Proof. unfold in_order. by rewrite list_sort_perm, elem_of_map_to_list. Qed.

Lemma fmap_eq_lookup {K A B} (f : A → B) `{Countable K} (m m' : gmap K A) p a' :
  f <$> m' = f <$> m → m' !! p = Some a' → ∃ a, m !! p = Some a ∧ f a' = f a.
Proof.
  intros Heq Hp. pose proof (f_equal (lookup p) Heq) as E. rewrite !lookup_fmap, Hp in E.
  destruct (m !! p) as [a|]; [|done]. exists a. by simplify_eq/=.
Qed.

Lemma alter_known {K A} `{Countable K} (f : A → A) (k : K) x (m : gmap K A) :
  m !! k = Some x → alter f k m = <[k := f x]> m.
Proof.
  intros Hk. apply map_eq. intros j. rewrite lookup_alter, lookup_insert. case_decide; [subst j|done].
  by rewrite Hk.
Qed.

(** * Strings *)

(** [std::string::operator<] compares as unsigned bytes, lexicographically;
    the facts below are those its users need. *)
Definition str_ltb (s1 s2 : string) : bool := String.ltb s1 s2.

Lemma ascii_compare_eq a b : Ascii.compare a b = Eq ↔ a = b.
Proof.
  split; [apply Ascii.compare_eq_iff|].
  intros ->. unfold Ascii.compare. by rewrite N.compare_refl.
Qed.

Lemma ascii_compare_lt_trans a b c :
  Ascii.compare a b = Lt → Ascii.compare b c = Lt → Ascii.compare a c = Lt.
Proof. unfold Ascii.compare. rewrite !N.compare_lt_iff. lia. Qed.

Lemma str_compare_refl s : String.compare s s = Eq.
Proof.
  induction s as [|a s IH]; simpl; [done|].
  by rewrite (proj2 (ascii_compare_eq a a)).
Qed.

Lemma str_compare_lt_trans s1 s2 s3 :
  String.compare s1 s2 = Lt → String.compare s2 s3 = Lt →
  String.compare s1 s3 = Lt.
Proof.
  revert s2 s3. induction s1 as [|a s1 IH]; intros [|b s2] [|c s3]; simpl; try done.
  destruct (Ascii.compare a b) eqn:E1; destruct (Ascii.compare b c) eqn:E2; try done.
  - apply ascii_compare_eq in E1 as ->. rewrite E2. apply IH.
  - apply ascii_compare_eq in E1 as ->. by rewrite E2.
  - apply ascii_compare_eq in E2 as ->. by rewrite E1.
  - by rewrite (ascii_compare_lt_trans _ _ _ E1 E2).
Qed.

Lemma str_ltb_spec s1 s2 : str_ltb s1 s2 = true ↔ String.compare s1 s2 = Lt.
Proof. unfold str_ltb, String.ltb. destruct (String.compare s1 s2); done. Qed.

Lemma str_ltb_irrefl s : str_ltb s s = false.
Proof. unfold str_ltb, String.ltb. by rewrite str_compare_refl. Qed.

Lemma str_ltb_trans s1 s2 s3 :
  str_ltb s1 s2 = true → str_ltb s2 s3 = true → str_ltb s1 s3 = true.
Proof. rewrite !str_ltb_spec. apply str_compare_lt_trans. Qed.

Lemma str_ltb_asym s1 s2 : str_ltb s1 s2 = true → str_ltb s2 s1 = false.
Proof.
  intros H. destruct (str_ltb s2 s1) eqn:E; [|done].
  pose proof (str_ltb_trans _ _ _ H E). by rewrite str_ltb_irrefl in H0.
Qed.

(** Negative transitivity: [>=] on strings is transitive. *)
Lemma str_geb_trans s1 s2 s3 :
  str_ltb s1 s2 = false → str_ltb s2 s3 = false → str_ltb s1 s3 = false.
Proof.
  intros H1 H2. destruct (str_ltb s1 s3) eqn:E; [|done].
  apply str_ltb_spec in E. exfalso.
  destruct (String.compare s1 s2) eqn:E1.
  - apply String.compare_eq_iff in E1 as ->. by rewrite (proj2 (str_ltb_spec _ _) E) in H2.
  - by rewrite (proj2 (str_ltb_spec _ _) E1) in H1.
  - rewrite String.compare_antisym in E1.
    destruct (String.compare s2 s1) eqn:E2; try done.
    pose proof (str_compare_lt_trans _ _ _ E2 E) as E3.
    by rewrite (proj2 (str_ltb_spec _ _) E3) in H2.
Qed.

(** * Hint databases *)

Create HintDb aafwk.
Create Rewrite HintDb aafwk.
#[export] Hint Resolve str_ltb_asym str_ltb_irrefl : aafwk.
#[export] Hint Resolve elem_of_erase_first erase_first_sublist : aafwk.
#[export] Hint Resolve NoDup_list_remove_all : aafwk.
#[export] Hint Rewrite @list_remove_all_not_in @list_erase_val_not_in using done : aafwk.
