(* ===== verification/CppString.v ===== *)
(** The operations of [std::string] that the components use, on Coq's byte
    strings, with the lemmas the parsers need: prefix and suffix tests (the
    code's [find(p) == 0] and [rfind(p) == length - p.length()]), splitting
    at the first occurrence of a character ([find] followed by two
    [substr]s), [std::to_string] and [std::stoi]/[std::stoul]. *)

From S2P Require Import Prelude.
From stdpp Require Export pretty.
From Stdlib Require Import Ascii.

#[local] Open Scope stdpp_scope.
#[local] Open Scope Z_scope.

(** Concatenation of a list of strings ([operator+=] in a loop). *)
Definition str_concat (l : list string) : string := foldr String.app "" l.

Fixpoint str_elem (c : ascii) (s : string) : bool :=
  match s with
  | "" => false
  | String d s' => bool_decide (c = d) || str_elem c s'
  end.

(** [s.find(p) == 0]. *)
Definition str_starts_with (p s : string) : bool := String.prefix p s.

Fixpoint str_drop (n : nat) (s : string) : string :=
  match n, s with
  | O, _ => s
  | S n', String _ s' => str_drop n' s'
  | S _, "" => ""
  end.

(** [s.rfind(p) == s.length() - p.length()] for [p.length() <= s.length()]. *)
Definition str_ends_with (p s : string) : bool :=
  (String.length p <=? String.length s)%nat &&
  bool_decide (str_drop (String.length s - String.length p) s = p).

Fixpoint str_take (n : nat) (s : string) : string :=
  match n, s with
  | O, _ => ""
  | S n', String c s' => String c (str_take n' s')
  | S _, "" => ""
  end.

(** [size_t] positions: [s.find(p)], with [npos] for no occurrence, and the
    wrapping subtraction of lengths. *)
Definition SIZE_MOD : Z := 18446744073709551616.
Definition NPOS : Z := SIZE_MOD - 1.
Definition size_sub (a b : Z) : Z := (a - b) mod SIZE_MOD.

Fixpoint str_index (p s : string) : option nat :=
  if str_starts_with p s then Some O
  else match s with
       | "" => None
       | String _ s' => S <$> str_index p s'
       end.

Definition str_find (p s : string) : Z :=
  match str_index p s with Some n => Z.of_nat n | None => NPOS end.

(** [s.find(p) != npos]. *)
Fixpoint str_contains (p s : string) : bool :=
  str_starts_with p s ||
  match s with
  | "" => false
  | String _ s' => str_contains p s'
  end.

(** [pos = s.find(c)] with [substr(0, pos)] and [substr(pos + 1)]. *)
Fixpoint str_break (c : ascii) (s : string) : option (string * string) :=
  match s with
  | "" => None
  | String d s' =>
      if decide (c = d) then Some ("", s')
      else match str_break c s' with
           | Some (l, r) => Some (String d l, r)
           | None => None
           end
  end.

(** * Lemmas *)

Lemma size_sub_small a b : 0 ≤ b ≤ a → a < SIZE_MOD → size_sub a b = a - b.
Proof. intros. unfold size_sub. apply Z.mod_small. lia. Qed.

Lemma app_nil_l_str s : "" +:+ s = s.
Proof. done. Qed.

Lemma app_cons_str a s1 s2 : String a s1 +:+ s2 = String a (s1 +:+ s2).
Proof. done. Qed.

Lemma app_assoc_str s1 s2 s3 : (s1 +:+ s2) +:+ s3 = s1 +:+ (s2 +:+ s3).
Proof. induction s1 as [|a s1 IH]; [done|]. rewrite !app_cons_str. by rewrite IH. Qed.

Lemma app_nil_r_str s : s +:+ "" = s.
Proof. induction s as [|a s IH]; [done|]. rewrite app_cons_str. by rewrite IH. Qed.

Lemma length_app_str s1 s2 :
  String.length (s1 +:+ s2) = (String.length s1 + String.length s2)%nat.
Proof. induction s1 as [|a s1 IH]; [done|]. rewrite app_cons_str. simpl. by rewrite IH. Qed.

Lemma str_elem_app c s1 s2 : str_elem c (s1 +:+ s2) = str_elem c s1 || str_elem c s2.
Proof.
  induction s1 as [|a s1 IH]; [done|]. rewrite app_cons_str. simpl.
  by rewrite IH, orb_assoc.
Qed.

Lemma str_starts_with_app p s : str_starts_with p (p +:+ s) = true.
Proof.
  unfold str_starts_with. induction p as [|a p IH]; [by destruct s|].
  rewrite app_cons_str. simpl. by destruct (ascii_dec a a).
Qed.

Lemma str_starts_with_spec p s :
  str_starts_with p s = true ↔ ∃ s', s = p +:+ s'.
Proof.
  split.
  - unfold str_starts_with. revert s. induction p as [|a p IH]; intros s H.
    + by exists s.
    + destruct s as [|b s]; [done|]. simpl in H.
      destruct (ascii_dec a b) as [->|]; [|done].
      destruct (IH _ H) as [s' ->]. by exists s'.
  - intros [s' ->]. apply str_starts_with_app.
Qed.

Lemma str_contains_false p s l r : str_contains p s = false → s ≠ l +:+ p +:+ r.
Proof.
  revert l. induction s as [|a s IH]; intros l H Heq; cbn [str_contains] in H; bool_to_prop.
  - destruct l as [|b l]; [|done]. rewrite app_nil_l_str in Heq.
    pose proof (str_starts_with_app p r) as Hp. rewrite <- Heq in Hp. congruence.
  - destruct l as [|b l].
    + rewrite app_nil_l_str in Heq. pose proof (str_starts_with_app p r) as Hp.
      rewrite <- Heq in Hp. congruence.
    + rewrite app_cons_str in Heq. injection Heq as _ Heq. by eapply IH.
Qed.

Lemma str_drop_app p s : str_drop (String.length p) (p +:+ s) = s.
Proof. induction p as [|a p IH]; [done|]. rewrite app_cons_str. done. Qed.

Lemma str_ends_with_app p s : str_ends_with p (s +:+ p) = true.
Proof.
  unfold str_ends_with. rewrite length_app_str. apply andb_true_iff. split.
  - apply Nat.leb_le. lia.
  - apply bool_decide_eq_true.
    replace (String.length s + String.length p - String.length p)%nat
      with (String.length s) by lia.
    apply str_drop_app.
Qed.

Lemma str_break_app c l r :
  str_elem c l = false → str_break c (l +:+ String c r) = Some (l, r).
Proof.
  induction l as [|a l IH]; intros H.
  - rewrite app_nil_l_str. simpl. by rewrite decide_True.
  - simpl in H. bool_to_prop. rewrite app_cons_str. simpl.
    rewrite decide_False by done. by rewrite IH.
Qed.

Lemma str_break_None c s : str_break c s = None ↔ str_elem c s = false.
Proof.
  induction s as [|a s IH]; [done|]. simpl.
  destruct (decide (c = a)) as [->|Hne].
  - rewrite bool_decide_true by done. done.
  - rewrite bool_decide_false by done. simpl. rewrite <- IH.
    by destruct (str_break c s) as [[??]|].
Qed.

Lemma str_break_Some c s l r :
  str_break c s = Some (l, r) → s = l +:+ String c r ∧ str_elem c l = false.
Proof.
  revert l r. induction s as [|a s IH]; intros l r H; [done|]. simpl in H.
  destruct (decide (c = a)) as [->|Hne]; simplify_eq; [done|].
  destruct (str_break c s) as [[l' r']|]; simplify_eq.
  destruct (IH _ _ eq_refl) as [-> Hl]. rewrite app_cons_str. split; [done|].
  simpl. by rewrite bool_decide_false.
Qed.

(** The first occurrence of a string whose first character is not in what
    precedes it. *)
Lemma str_index_app c p l r :
  str_elem c l = false → str_index (String c p) (l +:+ String c p +:+ r) = Some (String.length l).
Proof.
  induction l as [|a l IH]; intros H.
  - rewrite app_nil_l_str. change (String c p +:+ r) with (String c (p +:+ r)).
    cbn [str_index]. unfold str_starts_with. cbn [String.prefix].
    destruct (ascii_dec c c); [|done].
    pose proof (str_starts_with_app p r) as Hp. unfold str_starts_with in Hp. by rewrite Hp.
  - cbn [str_elem] in H. bool_to_prop. rewrite app_cons_str. cbn [str_index String.length].
    unfold str_starts_with. cbn [String.prefix].
    destruct (ascii_dec c a); [done|]. by rewrite IH.
Qed.

Lemma str_find_app c p l r :
  str_elem c l = false → str_find (String c p) (l +:+ String c p +:+ r) = Z.of_nat (String.length l).
Proof. intros. unfold str_find. by rewrite str_index_app. Qed.

Lemma str_take_app p s : str_take (String.length p) (p +:+ s) = p.
Proof. induction p as [|a p IH]; [done|]. rewrite app_cons_str. simpl. by rewrite IH. Qed.

(** * Decimal and hexadecimal numbers *)

Definition digit_val (c : ascii) : option Z :=
  let n := Z.of_nat (nat_of_ascii c) in
  if (48 <=? n) && (n <=? 57) then Some (n - 48) else None.

Definition is_digit (c : ascii) : bool :=
  match digit_val c with Some _ => true | None => false end.

(** Leading decimal digits of [s], accumulated into [acc]; the flag says that
    at least one digit was read. *)
Fixpoint read_digits (acc : Z) (seen : bool) (s : string) : Z * bool :=
  match s with
  | "" => (acc, seen)
  | String c s' =>
      match digit_val c with
      | Some d => read_digits (acc * 10 + d) true s'
      | None => (acc, seen)
      end
  end.

(** The optional sign of a number. *)
Definition split_sign (s : string) : bool * string :=
  match s with
  | String c r =>
      if decide (c = "-"%char) then (true, r)
      else if decide (c = "+"%char) then (false, r) else (false, s)
  | "" => (false, s)
  end.

(** [std::stoi]: [None] where it throws [invalid_argument] or
    [out_of_range]. *)
Definition stoi (s : string) : option Z :=
  let '(neg, s') := split_sign s in
  let '(v, seen) := read_digits 0 false s' in
  if seen : bool then
    let z := if neg : bool then - v else v in
    if (-2147483648 <=? z) && (z <=? INT_MAX) then Some z else None
  else None.

Lemma read_digits_pretty_char acc seen (x : N) s :
  (x < 10)%N →
  read_digits acc seen (String (pretty_N_char x) s) =
  read_digits (acc * 10 + Z.of_N x) true s.
Proof.
  intros H. assert (x = 0 ∨ x = 1 ∨ x = 2 ∨ x = 3 ∨ x = 4 ∨ x = 5 ∨ x = 6
    ∨ x = 7 ∨ x = 8 ∨ x = 9)%N as Hx by lia.
  by destruct_or! Hx; subst.
Qed.

Lemma read_digits_pretty_go (x : N) s :
  (0 < x)%N →
  read_digits 0 false (pretty_N_go x s) = read_digits (Z.of_N x) true s.
Proof.
  revert s. induction (N.lt_wf_0 x) as [x _ IH]. intros s Hx.
  rewrite pretty_N_go_step by done.
  destruct (decide (x < 10)%N) as [Hlt|Hge].
  - rewrite N.div_small by done. rewrite pretty_N_go_0.
    rewrite N.mod_small by done. by rewrite read_digits_pretty_char.
  - rewrite IH; [|by apply N.div_lt|apply N.div_str_pos; lia].
    rewrite read_digits_pretty_char by (apply N.mod_lt; lia).
    f_equal. pose proof (N.div_mod x 10 ltac:(lia)). lia.
Qed.

Lemma read_digits_pretty_N (x : N) : read_digits 0 false (pretty x) = (Z.of_N x, true).
Proof.
  unfold pretty, pretty_N. case_decide; [by subst|].
  by rewrite read_digits_pretty_go by lia.
Qed.

(** A decimal rendering starts with a digit, hence not with a sign. *)
Lemma pretty_N_go_head (x : N) s :
  (0 < x)%N → ∃ c r, pretty_N_go x s = String c r ∧ is_digit c = true.
Proof.
  revert s. induction (N.lt_wf_0 x) as [x _ IH]. intros s Hx.
  rewrite pretty_N_go_step by done.
  destruct (decide (x < 10)%N) as [Hlt|Hge].
  - rewrite N.div_small by done. rewrite pretty_N_go_0.
    eexists _, _. split; [done|]. by unfold pretty_N_char; repeat case_match.
  - apply IH; [by apply N.div_lt|apply N.div_str_pos; lia].
Qed.

Lemma pretty_N_head (x : N) : ∃ c r, pretty x = String c r ∧ is_digit c = true.
Proof.
  unfold pretty, pretty_N. case_decide.
  - by eexists _, _.
  - apply pretty_N_go_head. lia.
Qed.

Lemma split_sign_pretty (z : Z) :
  split_sign (pretty z) = (bool_decide (z < 0), pretty (Z.abs z)).
Proof.
  assert (∀ p, split_sign (pretty (Npos p)) = (false, pretty (Npos p))) as Hpos.
  { intros p. destruct (pretty_N_head (Npos p)) as (c & r & -> & Hd). simpl.
    rewrite !decide_False; [done|by intros ->..]. }
  destruct z as [|p|p]; [done| |done].
  change (pretty (Z.pos p)) with (pretty (Npos p)). by rewrite Hpos.
Qed.

Lemma read_digits_pretty_abs (z : Z) : read_digits 0 false (pretty (Z.abs z)) = (Z.abs z, true).
Proof.
  destruct z as [|p|p]; [done|..];
    exact (read_digits_pretty_N (Npos p)).
Qed.

Lemma stoi_pretty (z : Z) :
  -2147483648 ≤ z ≤ INT_MAX → stoi (pretty z) = Some z.
Proof.
  intros Hz. unfold stoi. rewrite split_sign_pretty, read_digits_pretty_abs.
  assert ((if bool_decide (z < 0) then - Z.abs z else Z.abs z) = z) as ->
    by (case_bool_decide; lia).
  by rewrite (proj2 (Z.leb_le _ _)), (proj2 (Z.leb_le _ _)) by lia.
Qed.

#[export] Hint Rewrite app_assoc_str app_nil_r_str app_cons_str app_nil_l_str
  str_elem_app str_starts_with_app str_drop_app : aafwk.
