(* ===== verification/Want.v ===== *)
(** [ElementName], [Operation] and [Want] of ability_base
    (ability_base/frameworks/native/want/src/{element_name,operation,want}.cpp):
    the request object that every start, connect and mission carries.  The
    file models the accessors, the escaping of [Want::Encode]/[Want::Decode],
    the printer [Want::ToUri] and the parser [Want::ParseUri] with its loop,
    and proves that escaping and printing are undone by the parser, and where
    the parser does not return.

    A value of [WantParams] is a string, a boolean or an int, or an object of
    another wrapper class with its rendering; the parsers of those other
    classes are the parameter [OtherParse].  [LowerStr] is code of the c_utils
    library. [picker_] has no setter in the code; [ToUri] takes it as an
    argument. *)

From S2P Require Import Prelude CppString.
From stdpp Require Import sorting.
From Stdlib Require Import Ascii.

#[local] Open Scope stdpp_scope.
#[local] Open Scope Z_scope.

(** * ElementName *)

Record ElementName := mkElement {
  el_deviceId : string;
  el_bundleName : string;
  el_abilityName : string;
  el_moduleName : string;
}.

#[export] Instance ElementName_eq_dec : EqDecision ElementName.
Proof. solve_decision. Defined.

Definition emptyElement : ElementName := mkElement "" "" "" "".

Definition SetDeviceID (d : string) (e : ElementName) : ElementName :=
  mkElement d (el_bundleName e) (el_abilityName e) (el_moduleName e).
Definition SetBundleName (b : string) (e : ElementName) : ElementName :=
  mkElement (el_deviceId e) b (el_abilityName e) (el_moduleName e).
Definition SetAbilityName (a : string) (e : ElementName) : ElementName :=
  mkElement (el_deviceId e) (el_bundleName e) a (el_moduleName e).
Definition SetModuleName (m : string) (e : ElementName) : ElementName :=
  mkElement (el_deviceId e) (el_bundleName e) (el_abilityName e) m.

Definition GetURI (e : ElementName) : string :=
  el_deviceId e +:+ "/" +:+ el_bundleName e +:+ "/" +:+ el_moduleName e
  +:+ "/" +:+ el_abilityName e.

(** [ElementName::operator==]. *)
Definition element_eqb (e1 e2 : ElementName) : bool :=
  bool_decide (el_deviceId e1 = el_deviceId e2) &&
  bool_decide (el_bundleName e1 = el_bundleName e2) &&
  bool_decide (el_abilityName e1 = el_abilityName e2) &&
  bool_decide (el_moduleName e1 = el_moduleName e2).

(** * Operation *)

Record Operation := mkOperation {
  op_abilityName : string;
  op_action : string;
  op_bundleName : string;
  op_deviceId : string;
  op_moduleName : string;
  op_entities : list string;
  op_flags : Z;
  op_uri : string;
}.

Definition emptyOperation : Operation := mkOperation "" "" "" "" "" [] 0 "".

(** The copy constructor, which ends with [entities_.clear()]. *)
Definition Operation_copy (o : Operation) : Operation :=
  mkOperation (op_abilityName o) (op_action o) (op_bundleName o) (op_deviceId o)
    (op_moduleName o) [] (op_flags o) (op_uri o).

Definition HasEntity (e : string) (o : Operation) : bool :=
  bool_decide (e ∈ op_entities o).

Definition AddEntity (e : string) (o : Operation) : Operation :=
  if HasEntity e o then o
  else mkOperation (op_abilityName o) (op_action o) (op_bundleName o)
         (op_deviceId o) (op_moduleName o) (op_entities o ++ [e]) (op_flags o)
         (op_uri o).

Definition RemoveEntity (e : string) (o : Operation) : Operation :=
  mkOperation (op_abilityName o) (op_action o) (op_bundleName o) (op_deviceId o)
    (op_moduleName o) (list_erase_val e (op_entities o)) (op_flags o) (op_uri o).

Definition set_op_flags (f : Z) (o : Operation) : Operation :=
  mkOperation (op_abilityName o) (op_action o) (op_bundleName o) (op_deviceId o)
    (op_moduleName o) (op_entities o) f (op_uri o).

(** [flags_] is an [unsigned int]. *)
Definition AddFlags (f : Z) (o : Operation) : Operation :=
  set_op_flags (Z.lor (op_flags o) f) o.

Definition RemoveFlags (f : Z) (o : Operation) : Operation :=
  set_op_flags (Z.land (op_flags o) (Z.lxor f (UINT32_MOD - 1))) o.

Definition set_op_action (a : string) (o : Operation) : Operation :=
  mkOperation (op_abilityName o) a (op_bundleName o) (op_deviceId o)
    (op_moduleName o) (op_entities o) (op_flags o) (op_uri o).

Definition set_op_bundle (b : string) (o : Operation) : Operation :=
  mkOperation (op_abilityName o) (op_action o) b (op_deviceId o)
    (op_moduleName o) (op_entities o) (op_flags o) (op_uri o).

Definition set_op_module (m : string) (o : Operation) : Operation :=
  mkOperation (op_abilityName o) (op_action o) (op_bundleName o) (op_deviceId o)
    m (op_entities o) (op_flags o) (op_uri o).

Definition set_op_element (e : ElementName) (o : Operation) : Operation :=
  mkOperation (el_abilityName e) (op_action o) (el_bundleName e)
    (el_deviceId e) (el_moduleName e) (op_entities o) (op_flags o) (op_uri o).

(** * Want *)

Inductive WantValue :=
  | VString (s : string)
  | VBoolean (b : bool)
  | VInteger (z : Z)
  | VOther (sig : ascii) (text : string).

#[export] Instance WantValue_eq_dec : EqDecision WantValue.
Proof. solve_decision. Defined.

Record Want := mkWant {
  operation_ : Operation;
  parameters_ : gmap string WantValue;
}.

Definition emptyWant : Want := mkWant emptyOperation ∅.

Definition PARAM_MODULE_NAME : string := "moduleName".
Definition PARAM_RESV_WINDOW_MODE : string := "ohos.aafwk.param.windowMode".
Definition FLAG_ABILITY_CONTINUATION : Z := 8.

Definition GetElement (w : Want) : ElementName :=
  mkElement (op_deviceId (operation_ w)) (op_bundleName (operation_ w))
    (op_abilityName (operation_ w)) (op_moduleName (operation_ w)).

Definition GetFlags (w : Want) : Z := op_flags (operation_ w).

Definition GetBoolParam (key : string) (dflt : bool) (w : Want) : bool :=
  match parameters_ w !! key with Some (VBoolean b) => b | _ => dflt end.

Definition GetIntParam (key : string) (dflt : Z) (w : Want) : Z :=
  match parameters_ w !! key with Some (VInteger z) => z | _ => dflt end.

Definition GetStringParam (key : string) (w : Want) : string :=
  match parameters_ w !! key with Some (VString s) => s | _ => "" end.

Definition SetParam (key : string) (v : WantValue) (w : Want) : Want :=
  mkWant (operation_ w) (<[key := v]> (parameters_ w)).

Definition RemoveParam (key : string) (w : Want) : Want :=
  mkWant (operation_ w) (delete key (parameters_ w)).

Definition SetAction (a : string) (w : Want) : Want :=
  mkWant (set_op_action a (operation_ w)) (parameters_ w).

Definition SetFlags (f : Z) (w : Want) : Want :=
  mkWant (set_op_flags f (operation_ w)) (parameters_ w).

Definition SetBundle (b : string) (w : Want) : Want :=
  mkWant (set_op_bundle b (operation_ w)) (parameters_ w).

Definition WantAddEntity (e : string) (w : Want) : Want :=
  mkWant (AddEntity e (operation_ w)) (parameters_ w).

Definition WantSetModuleName (m : string) (w : Want) : Want :=
  SetParam PARAM_MODULE_NAME (VString m)
    (mkWant (set_op_module m (operation_ w)) (parameters_ w)).

Definition SetElement (e : ElementName) (w : Want) : Want :=
  SetParam PARAM_MODULE_NAME (VString (el_moduleName e))
    (mkWant (set_op_element e (operation_ w)) (parameters_ w)).

(** * Escaping *)

Definition backslash : ascii := "\"%char.

Fixpoint Encode (s : string) : string :=
  match s with
  | "" => ""
  | String c s' =>
      (if decide (c = backslash) then "\\"
       else if decide (c = "="%char) then "\075"
       else if decide (c = ";"%char) then "\073"
       else String c "") +:+ Encode s'
  end.

(** The loop of [Want::Decode], one clause per branch of the source. *)
Fixpoint Decode (s : string) : string :=
  match s with
  | "" => ""
  | String c s1 =>
      if decide (c = backslash) then
        match s1 with
        | "" => "\"
        | String d s2 =>
            if decide (d = backslash) then "\" +:+ Decode s2
            else if decide (d = "0"%char) then
              match s2 with
              | String e (String f s4) =>
                  if decide (e = "7"%char ∧ f = "5"%char) then "=" +:+ Decode s4
                  else if decide (e = "7"%char ∧ f = "3"%char) then ";" +:+ Decode s4
                  else "\" +:+ String d (Decode s2)
              | _ => "\" +:+ String d (Decode s2)
              end
            else "\" +:+ String d (Decode s2)
        end
      else String c (Decode s1)
  end.

(** * The URI printer *)

Definition WANT_HEADER : string := "#Intent;".

Definition hex_char (d : Z) : ascii :=
  ascii_of_nat (Z.to_nat (if d <? 10 then 48 + d else 87 + d)).

(** [k] hexadecimal digits of [z], most significant first. *)
Fixpoint hex_digits (k : nat) (z : Z) : string :=
  match k with
  | O => ""
  | S k' => hex_digits k' (z / 16) +:+ String (hex_char (z mod 16)) ""
  end.

(** [snprintf(buf, "0x%08x", flags)]: always ten characters for a 32-bit
    value, so the length test of the source succeeds. *)
Definition flag_text (f : Z) : string := "0x" +:+ hex_digits 8 f.

Definition value_signature (v : WantValue) : ascii :=
  match v with
  | VString _ => "T"
  | VBoolean _ => "Z"
  | VInteger _ => "I"
  | VOther sig _ => sig
  end%char.

(** [Object::ToString]. *)
Definition value_text (v : WantValue) : string :=
  match v with
  | VString s => s
  | VBoolean b => if b then "true" else "false"
  | VInteger z => pretty z
  | VOther _ text => text
  end.

Definition attr (prop value : string) : string :=
  prop +:+ "=" +:+ Encode value +:+ ";".

(** [if (value.length() > 0) uriString += prop + "=" + Encode(value) + ";"]. *)
Definition attr_nonempty (prop value : string) : string :=
  if decide (value = "") then "" else attr prop value.

Definition param_text (kv : string * WantValue) : string :=
  String (value_signature kv.2) "." +:+ Encode kv.1 +:+ "="
  +:+ Encode (value_text kv.2) +:+ ";".

Definition key_le (kv1 kv2 : string * WantValue) : Prop := String.le kv1.1 kv2.1.

#[export] Instance key_le_dec kv1 kv2 : Decision (key_le kv1 kv2).
Proof. unfold key_le. apply _. Defined.

(** [params_] is a [std::map]: iteration is by increasing key. *)
Definition GetParams (w : Want) : list (string * WantValue) :=
  merge_sort key_le (map_to_list (parameters_ w)).

Definition ToUriStringInner (w : Want) : string :=
  let o := operation_ w in
  attr_nonempty "action" (op_action o)
  +:+ attr_nonempty "uri" (op_uri o)
  +:+ str_concat (attr_nonempty "entity" <$> op_entities o)
  +:+ attr_nonempty "device" (op_deviceId o)
  +:+ attr_nonempty "bundle" (op_bundleName o)
  +:+ attr_nonempty "ability" (op_abilityName o)
  +:+ (if decide (op_flags o = 0) then "" else attr "flag" (flag_text (op_flags o)))
  +:+ attr_nonempty "package" (op_bundleName o)
  +:+ str_concat (param_text <$> GetParams w).

Definition ToUri (picker : option Want) (w : Want) : string :=
  WANT_HEADER +:+ ToUriStringInner w
  +:+ match picker with
      | Some p => "PICK;" +:+ ToUriStringInner p
      | None => ""
      end
  +:+ "end".

(** * The URI parser *)

Definition xdigit_val (c : ascii) : option Z :=
  let n := Z.of_nat (nat_of_ascii c) in
  if (48 <=? n) && (n <=? 57) then Some (n - 48)
  else if (97 <=? n) && (n <=? 102) then Some (n - 87)
  else if (65 <=? n) && (n <=? 70) then Some (n - 55)
  else None.

(** All characters are [isxdigit]; the value read by [std::stoul(_, 16)]. *)
Fixpoint read_hex (acc : Z) (s : string) : option Z :=
  match s with
  | "" => Some acc
  | String c s' =>
      match xdigit_val c with
      | Some d => read_hex (acc * 16 + d) s'
      | None => None
      end
  end.

Definition boolean_parse (s : string) : option bool :=
  if decide (s = "true") then Some true
  else if decide (s = "false") then Some false else None.

Section parser.
(** [LowerStr] of c_utils and the [Parse] functions of the wrapper classes
    that [WantValue] does not spell out (signature and text to object). *)
Context (LowerStr : string → string).
Context (OtherParse : ascii → string → outcome (option WantValue)).

Record ParseState := mkPS {
  ps_element : ElementName;
  ps_want : Want;
  ps_base : option Want;  (* the base want, once a PICK has been seen *)
}.

Definition ParseContent (content : string) : option (string * string) :=
  match str_break "="%char content with
  | Some (l, r) => Some (Decode l, Decode r)
  | None => None
  end.

(** On a 64-bit [unsigned long], [std::stoul] throws from [2^64] on, and the
    conversion to [unsigned int] wraps. *)
Definition ParseFlag (content : string) (w : Want) : outcome (bool * Want) :=
  let contentLower := LowerStr content in
  if decide (contentLower = "") then Returned (true, w)
  else if negb (str_starts_with "0x" contentLower) then Returned (false, w)
  else match read_hex 0 (str_drop 2 contentLower) with
       | None => Returned (false, w)
       | Some v =>
           if v <? 18446744073709551616
           then Returned (true, SetFlags (v mod UINT32_MOD) w)
           else Thrown
       end.

Definition CheckAndSetParameters (key prop value : string) (w : Want)
    : outcome (bool * Want) :=
  match prop with
  | String sig (String dot _) =>
      if decide (dot = "."%char) then
        if decide (sig = "T"%char) then
          Returned (true, SetParam key (VString value) w)
        else if decide (sig = "Z"%char) then
          match boolean_parse value with
          | Some b => Returned (true, SetParam key (VBoolean b) w)
          | None => Returned (false, w)
          end
        else if decide (sig = "I"%char) then
          match stoi value with
          | Some z => Returned (true, SetParam key (VInteger z) w)
          | None => Thrown
          end
        else
          o ← OtherParse sig value;
          match o with
          | Some v => Returned (true, SetParam key v w)
          | None => Returned (false, w)
          end
      else Returned (true, w)
  | _ => Returned (true, w)
  end.

Definition ParseUriInternal (content : string) (e : ElementName) (w : Want)
    : outcome (bool * ElementName * Want) :=
  if decide (content = "") then Returned (true, e, w)
  else if str_starts_with "=" content then Returned (true, e, w)
  else match ParseContent content with
  | None => Returned (false, e, w)
  | Some (prop, value) =>
    if decide (value = "") then Returned (true, e, w)
    else if decide (prop = "action") then Returned (true, e, SetAction value w)
    else if decide (prop = "entity") then Returned (true, e, WantAddEntity value w)
    else if decide (prop = "flag") then
      r ← ParseFlag value w;
      Returned (fst r, e, snd r)
    else if decide (prop = "device") then Returned (true, SetDeviceID value e, w)
    else if decide (prop = "bundle") then Returned (true, SetBundleName value e, w)
    else if decide (prop = "ability") then Returned (true, SetAbilityName value e, w)
    else if decide (prop = "package") then Returned (true, e, SetBundle (Decode value) w)
    else if decide (2 < String.length prop)%nat then
      r ← (CheckAndSetParameters (str_drop 2 prop) prop value w : outcome (bool * Want));
      if (r : bool * Want).1 then
        let moduleName := GetStringParam PARAM_MODULE_NAME r.2 in
        Returned (true, SetModuleName moduleName e, WantSetModuleName moduleName r.2)
      else Returned (false, e, r.2)
    else Returned (true, e, w)
  end.

(** The [do ... while (true)] loop; [rest] is [uri.substr(begin)] and the
    semicolon at [pos] is found by [str_break].  [continue] after PICK
    leaves [begin] and [pos] as they are. *)
Fixpoint ParseUri_loop (fuel : nat) (rest : string) (st : ParseState)
    : outcome (bool * ParseState) :=
  match fuel with
  | O => OutOfFuel
  | S fuel' =>
      match str_break ";"%char rest with
      | None => Returned (true, st)
      | Some (content, rest') =>
          if decide (content = "PICK") then
            ParseUri_loop fuel' rest
              (mkPS (ps_element st) emptyWant
                 (Some (default (ps_want st) (ps_base st))))
          else
            r ← ParseUriInternal content (ps_element st) (ps_want st);
            let '(ok, e, w) := (r : bool * ElementName * Want) in
            if ok : bool then
              match str_break ";"%char rest' with
              | None => Returned (true, mkPS e w (ps_base st))
              | Some _ => ParseUri_loop fuel' rest' (mkPS e w (ps_base st))
              end
            else Returned (false, mkPS e w (ps_base st))
      end
  end.

(** The null pointer is [None]. *)
Definition ParseUri (fuel : nat) (uri : string) : outcome (option Want) :=
  if decide (uri = "") then Returned None
  else if negb (str_starts_with WANT_HEADER uri) then Returned None
  else if negb (str_ends_with ";end" uri) then Returned None
  else
    r ← ParseUri_loop fuel (str_drop (String.length WANT_HEADER) uri)
          (mkPS emptyElement emptyWant None);
    let '(ok, st) := (r : bool * ParseState) in
    if ok : bool then
      Returned (Some (SetElement (ps_element st) (default (ps_want st) (ps_base st))))
    else Returned None.
End parser.

(** * Escaping is undone by unescaping *)

Lemma Encode_cons c s : Encode (String c s) =
  (if decide (c = backslash) then "\\"
   else if decide (c = "="%char) then "\075"
   else if decide (c = ";"%char) then "\073"
   else String c "") +:+ Encode s.
Proof. done. Qed.

Lemma Decode_plain c s : c ≠ backslash → Decode (String c s) = String c (Decode s).
Proof. intros. simpl. by rewrite decide_False. Qed.

Lemma Decode_Encode_id s : Decode (Encode s) = s.
Proof.
  induction s as [|c s IH]; [done|]. rewrite Encode_cons.
  repeat case_decide; subst; autorewrite with aafwk.
  - trans (String backslash (Decode (Encode s))); [done|by rewrite IH].
  - trans (String "=" (Decode (Encode s))); [done|by rewrite IH].
  - trans (String ";" (Decode (Encode s))); [done|by rewrite IH].
  - by rewrite Decode_plain, IH.
Qed.

Lemma Encode_no_char d s :
  d = "="%char ∨ d = ";"%char → str_elem d (Encode s) = false.
Proof.
  intros Hd. induction s as [|c s IH]; [done|]. rewrite Encode_cons.
  rewrite str_elem_app, IH, orb_false_r.
  repeat case_decide; subst; try (by destruct Hd as [-> | ->]).
  simpl. rewrite bool_decide_false; [done|]. naive_solver.
Qed.

Lemma Decode_param_key c s : c ≠ backslash →
  Decode (String c (String "." (Encode s))) = String c (String "." s).
Proof. intros. by rewrite !Decode_plain, Decode_Encode_id. Qed.

(** * The hexadecimal flags *)

Lemma xdigit_hex_char d : 0 ≤ d < 16 → xdigit_val (hex_char d) = Some d.
Proof.
  intros H. assert (d = 0 ∨ d = 1 ∨ d = 2 ∨ d = 3 ∨ d = 4 ∨ d = 5 ∨ d = 6 ∨ d = 7 ∨
    d = 8 ∨ d = 9 ∨ d = 10 ∨ d = 11 ∨ d = 12 ∨ d = 13 ∨ d = 14 ∨ d = 15) as Hd by lia.
  by destruct_or! Hd; subst.
Qed.

Lemma read_hex_digits k z acc s :
  0 ≤ z < 16 ^ Z.of_nat k →
  read_hex acc (hex_digits k z +:+ s) = read_hex (acc * 16 ^ Z.of_nat k + z) s.
Proof.
  revert z acc s. induction k as [|k IH]; intros z acc s Hz.
  - simpl in *. autorewrite with aafwk. f_equal. lia.
  - rewrite Nat2Z.inj_succ, Z.pow_succ_r in * by lia.
    cbn [hex_digits]. autorewrite with aafwk.
    rewrite IH by (split; [apply Z.div_pos; lia|apply Z.div_lt_upper_bound; lia]).
    cbn [read_hex]. rewrite xdigit_hex_char by (apply Z.mod_pos_bound; lia).
    f_equal. pose proof (Z.div_mod z 16 ltac:(lia)). lia.
Qed.

Definition is_upper (c : ascii) : bool :=
  let n := nat_of_ascii c in (65 <=? n)%nat && (n <=? 90)%nat.

Fixpoint no_upper (s : string) : bool :=
  match s with "" => true | String c s' => negb (is_upper c) && no_upper s' end.

Lemma no_upper_hex_digits k z s : no_upper s = true → no_upper (hex_digits k z +:+ s) = true.
Proof.
  revert z s. induction k as [|k IH]; intros z s Hs; [done|].
  cbn [hex_digits]. autorewrite with aafwk. apply IH. cbn [no_upper]. rewrite Hs, andb_true_r.
  pose proof (Z.mod_pos_bound z 16 ltac:(lia)) as Hb. revert Hb.
  generalize (z mod 16) as d. intros d Hb.
  assert (d = 0 ∨ d = 1 ∨ d = 2 ∨ d = 3 ∨ d = 4 ∨ d = 5 ∨ d = 6 ∨ d = 7 ∨
    d = 8 ∨ d = 9 ∨ d = 10 ∨ d = 11 ∨ d = 12 ∨ d = 13 ∨ d = 14 ∨ d = 15) as Hd by lia.
  by destruct_or! Hd; subst.
Qed.

Lemma flag_text_no_upper f : no_upper (flag_text f) = true.
Proof.
  unfold flag_text. autorewrite with aafwk. cbn [no_upper].
  rewrite <- (app_nil_r_str (hex_digits 8 f)). by apply no_upper_hex_digits.
Qed.

Lemma read_hex_flag f :
  0 ≤ f < UINT32_MOD → read_hex 0 (str_drop 2 (flag_text f)) = Some f.
Proof.
  intros Hf. change (str_drop 2 (flag_text f)) with (hex_digits 8 f).
  rewrite <- (app_nil_r_str (hex_digits 8 f)).
  rewrite read_hex_digits by (unfold UINT32_MOD in Hf; lia). done.
Qed.

(** * Printing as a list of segments *)

Definition seg (prop value : string) : string := prop +:+ "=" +:+ Encode value.

Definition seg_nonempty (prop value : string) : list string :=
  if decide (value = "") then [] else [seg prop value].

Definition param_seg (kv : string * WantValue) : string :=
  String (value_signature kv.2) "." +:+ Encode kv.1 +:+ "="
  +:+ Encode (value_text kv.2).

(** The segments of [ToUriStringInner], without their closing semicolons. *)
Definition uri_segments (w : Want) : list string :=
  let o := operation_ w in
  seg_nonempty "action" (op_action o)
  ++ seg_nonempty "uri" (op_uri o)
  ++ (op_entities o ≫= seg_nonempty "entity")
  ++ seg_nonempty "device" (op_deviceId o)
  ++ seg_nonempty "bundle" (op_bundleName o)
  ++ seg_nonempty "ability" (op_abilityName o)
  ++ (if decide (op_flags o = 0) then [] else [seg "flag" (flag_text (op_flags o))])
  ++ seg_nonempty "package" (op_bundleName o)
  ++ (param_seg <$> GetParams w).

Definition close_segments (l : list string) : string :=
  str_concat ((λ s, s +:+ ";") <$> l).

Lemma close_segments_app l1 l2 :
  close_segments (l1 ++ l2) = close_segments l1 +:+ close_segments l2.
Proof.
  unfold close_segments, str_concat. induction l1 as [|s l1 IH]; [done|]. csimpl.
  rewrite IH. by autorewrite with aafwk.
Qed.

Lemma close_seg prop value : close_segments [seg prop value] = attr prop value.
Proof.
  unfold close_segments, str_concat, seg, attr. csimpl.
  by autorewrite with aafwk.
Qed.

Lemma close_seg_nonempty prop value :
  close_segments (seg_nonempty prop value) = attr_nonempty prop value.
Proof. unfold seg_nonempty, attr_nonempty. case_decide; [done|]. apply close_seg. Qed.

Lemma close_segments_bind {A} (f : A → list string) (g : A → string) l :
  (∀ x, close_segments (f x) = g x) →
  close_segments (l ≫= f) = str_concat (g <$> l).
Proof.
  intros H. induction l as [|x l IH]; [done|]. csimpl.
  by rewrite close_segments_app, IH, H.
Qed.

Lemma ToUriStringInner_segments w :
  ToUriStringInner w = close_segments (uri_segments w).
Proof.
  unfold ToUriStringInner, uri_segments. rewrite !close_segments_app.
  rewrite !close_seg_nonempty, (close_segments_bind _ (attr_nonempty "entity"))
    by (intros; apply close_seg_nonempty).
  do 7 f_equal; [by case_decide; [|rewrite close_seg]|].
  f_equal. unfold close_segments. rewrite <- list_fmap_compose. f_equal.
  apply list_fmap_ext. intros i kv _. simpl. unfold param_text, param_seg.
  by autorewrite with aafwk.
Qed.

(** A segment neither contains the separator nor is the PICK keyword. *)
Definition plain_segment (s : string) : Prop :=
  str_elem ";" s = false ∧ s ≠ "PICK".

Lemma no_sep_seg_char prop value :
  str_elem ";" prop = false → str_elem ";" (seg prop value) = false.
Proof.
  intros H. unfold seg. autorewrite with aafwk. rewrite H. simpl.
  rewrite Encode_no_char; auto.
Qed.

Lemma seg_not_pick prop value : str_elem "=" (seg prop value) = true.
Proof. unfold seg. autorewrite with aafwk. simpl. apply orb_true_r. Qed.

Lemma plain_seg prop value : str_elem ";" prop = false → plain_segment (seg prop value).
Proof.
  intros. split; [by apply no_sep_seg_char|].
  intros Heq. pose proof (seg_not_pick prop value) as H'. by rewrite Heq in H'.
Qed.

Section roundtrip.
Context (LowerStr : string → string).
Context (OtherParse : ascii → string → outcome (option WantValue)).
(** [LowerStr] changes nothing in a string without upper-case letters. *)
Hypothesis LowerStr_lower : ∀ s, no_upper s = true → LowerStr s = s.

#[local] Abbreviation internal := (ParseUriInternal LowerStr OtherParse).
#[local] Abbreviation loop := (ParseUri_loop LowerStr OtherParse).

(** A run over segments, every one of which is parsed successfully. *)
Inductive parses : list string → ElementName → Want → ElementName → Want → Prop :=
  | parses_nil e w : parses [] e w e w
  | parses_cons s l e w e1 w1 e2 w2 :
      plain_segment s → internal s e w = Returned (true, e1, w1) →
      parses l e1 w1 e2 w2 → parses (s :: l) e w e2 w2.

Lemma parses_app l1 l2 e w e1 w1 e2 w2 :
  parses l1 e w e1 w1 → parses l2 e1 w1 e2 w2 → parses (l1 ++ l2) e w e2 w2.
Proof. induction 1; [done|]. intros. econstructor; eauto. Qed.

Lemma parses_one s e w e1 w1 :
  plain_segment s → internal s e w = Returned (true, e1, w1) → parses [s] e w e1 w1.
Proof. intros. econstructor; [done..|constructor]. Qed.

Lemma loop_parses l e w e' w' b fuel :
  parses l e w e' w' → (length l < fuel)%nat →
  loop fuel (close_segments l +:+ "end") (mkPS e w b) = Returned (true, mkPS e' w' b).
Proof.
  intros Hp. revert fuel. induction Hp as [e w|s l e w e1 w1 e2 w2 [Hs Hne] Hi Hp IH];
    intros fuel Hfuel; (destruct fuel as [|fuel]; [simpl in Hfuel; lia|]); [done|].
  assert (close_segments (s :: l) +:+ "end" = s +:+ String ";" (close_segments l +:+ "end"))
    as -> by (unfold close_segments, str_concat; csimpl; by autorewrite with aafwk).
  cbn [ParseUri_loop]. rewrite str_break_app by done.
  rewrite decide_False by done. cbn [ps_element ps_want ps_base]. rewrite Hi. cbn.
  destruct l as [|s2 l].
  { inversion Hp; subst. done. }
  inversion Hp as [|????????[Hs2 _]]; subst.
  assert (close_segments (s2 :: l) +:+ "end" = s2 +:+ String ";" (close_segments l +:+ "end"))
    as Heq by (unfold close_segments, str_concat; csimpl; by autorewrite with aafwk).
  rewrite Heq at 1. rewrite str_break_app by done.
  apply IH. simpl in *. lia.
Qed.

(** ** One segment *)

Lemma ParseContent_seg p v :
  str_elem "=" p = false → ParseContent (seg p v) = Some (Decode p, v).
Proof.
  intros H. unfold ParseContent, seg.
  change ("=" +:+ Encode v) with (String "=" (Encode v)).
  by rewrite str_break_app, Decode_Encode_id.
Qed.

(** The segment is dispatched on its decoded property name. *)
Definition dispatch (prop value : string) (e : ElementName) (w : Want) :=
  if decide (prop = "action") then Returned (true, e, SetAction value w)
  else if decide (prop = "entity") then Returned (true, e, WantAddEntity value w)
  else if decide (prop = "flag") then
    r ← ParseFlag LowerStr value w; Returned (fst r, e, snd r)
  else if decide (prop = "device") then Returned (true, SetDeviceID value e, w)
  else if decide (prop = "bundle") then Returned (true, SetBundleName value e, w)
  else if decide (prop = "ability") then Returned (true, SetAbilityName value e, w)
  else if decide (prop = "package") then Returned (true, e, SetBundle (Decode value) w)
  else if decide (2 < String.length prop)%nat then
    r ← (CheckAndSetParameters OtherParse (str_drop 2 prop) prop value w : outcome (bool * Want));
    if (r : bool * Want).1 then
      let moduleName := GetStringParam PARAM_MODULE_NAME r.2 in
      Returned (true, SetModuleName moduleName e, WantSetModuleName moduleName r.2)
    else Returned (false, e, r.2)
  else Returned (true, e, w).

Lemma internal_seg c p v e w :
  c ≠ "="%char → str_elem "=" p = false →
  internal (seg (String c p) v) e w =
  if decide (v = "") then Returned (true, e, w) else dispatch (Decode (String c p)) v e w.
Proof.
  intros Hc Hp. unfold ParseUriInternal.
  rewrite ParseContent_seg
    by (cbn [str_elem]; by rewrite bool_decide_false, Hp by congruence).
  unfold seg. autorewrite with aafwk. rewrite decide_False by done.
  unfold str_starts_with. cbn [String.prefix].
  destruct (ascii_dec "=" c); [congruence|]. done.
Qed.

Lemma parses_seg_nonempty c p v e w e' w' :
  c ≠ "="%char → str_elem "=" p = false → str_elem ";" (String c p) = false →
  (v = "" → e' = e ∧ w' = w) →
  (v ≠ "" → dispatch (Decode (String c p)) v e w = Returned (true, e', w')) →
  parses (seg_nonempty (String c p) v) e w e' w'.
Proof.
  intros Hc Hp Hs Hempty Hd. unfold seg_nonempty. case_decide as Hv.
  - destruct (Hempty Hv) as [-> ->]. constructor.
  - apply parses_one; [by apply plain_seg|].
    rewrite internal_seg by done. rewrite decide_False by done. by apply Hd.
Qed.

(** ** The parameters *)

Definition value_ok (kv : string * WantValue) : Prop :=
  kv.1 ≠ "" ∧
  match kv.2 with
  | VString s => s ≠ "" ∨ kv.1 = PARAM_MODULE_NAME
  | VBoolean _ => kv.1 ≠ PARAM_MODULE_NAME
  | VInteger z => kv.1 ≠ PARAM_MODULE_NAME ∧ -2147483648 ≤ z ≤ INT_MAX
  | VOther sig text =>
      kv.1 ≠ PARAM_MODULE_NAME ∧ text ≠ "" ∧
      (sig ∉ ["T"; "Z"; "I"; backslash; "="; ";"]%char) ∧
      OtherParse sig text = Returned (Some (VOther sig text))
  end.

Definition set_and_sync (kv : string * WantValue) (e : ElementName) (w : Want)
    : ElementName * Want :=
  let w1 := SetParam kv.1 kv.2 w in
  let m := GetStringParam PARAM_MODULE_NAME w1 in
  (SetModuleName m e, WantSetModuleName m w1).

Lemma value_text_nonempty kv :
  value_ok kv → value_text kv.2 = "" → kv = (PARAM_MODULE_NAME, VString "").
Proof.
  destruct kv as [k [s|b|z|sig t]]; unfold value_ok; simpl; intros [Hk H] Ht.
  - naive_solver.
  - by destruct b.
  - exfalso. destruct z as [|p|p]; [done| |done].
    change (pretty (Npos p) = "") in Ht.
    destruct (pretty_N_head (Npos p)) as (c & r & Hc & _). by rewrite Hc in Ht.
  - naive_solver.
Qed.

Lemma param_dispatch kv e w :
  value_ok kv →
  dispatch (String (value_signature kv.2) (String "." kv.1)) (value_text kv.2) e w
  = let '(e', w') := set_and_sync kv e w in Returned (true, e', w').
Proof.
  intros [Hk Hv]. unfold dispatch.
  rewrite !(decide_False (P := (_ = _ :> string))) by congruence.
  destruct (decide (2 < _)%nat) as [_|Hlen];
    [|destruct kv as [[|??] ?]; simpl in Hk, Hlen; [done|lia]].
  unfold CheckAndSetParameters, set_and_sync. rewrite decide_True by done.
  cbn [str_drop]. destruct kv as [k [s|b|z|sig t]]; simpl in Hv |- *; [done|..].
  - by destruct b.
  - by rewrite stoi_pretty by tauto.
  - destruct Hv as (_ & _ & Hsig & Ho).
    rewrite !decide_False by set_solver. by rewrite Ho.
Qed.

Lemma value_signature_ok kv :
  value_ok kv → (value_signature kv.2 ∉ [backslash; "="; ";"]%char).
Proof.
  destruct kv as [k [s|b|z|sig t]]; unfold value_ok; simpl; intros [_ H];
    [by apply (bool_decide_unpack _)..|]. set_solver.
Qed.

Lemma parses_param kv e w :
  value_ok kv →
  ∃ e' w', parses [param_seg kv] e w e' w' ∧
    ((value_text kv.2 = "" ∧ e' = e ∧ w' = w) ∨
     (value_text kv.2 ≠ "" ∧ (e', w') = set_and_sync kv e w)).
Proof.
  intros Hok. pose proof (value_signature_ok _ Hok) as Hsig.
  assert (param_seg kv = seg (String (value_signature kv.2) (String "." (Encode kv.1)))
    (value_text kv.2)) as -> by done.
  set (p := String "." (Encode kv.1)).
  assert (str_elem "=" p = false) as Hp
    by (unfold p; cbn [str_elem]; rewrite Encode_no_char by auto; done).
  assert (plain_segment (seg (String (value_signature kv.2) p) (value_text kv.2))) as Hplain.
  { apply plain_seg. cbn [str_elem]. rewrite bool_decide_false by set_solver.
    unfold p. cbn [str_elem]. rewrite Encode_no_char by auto. done. }
  assert (value_signature kv.2 ≠ "="%char) as Hsig2 by set_solver.
  pose proof (internal_seg _ p (value_text kv.2) e w Hsig2 Hp) as Hi.
  case_decide as Hv.
  - exists e, w. split; [by apply parses_one|]. by left.
  - unfold p in Hi at 2. rewrite Decode_param_key in Hi by set_solver.
    rewrite param_dispatch in Hi by done.
    destruct (set_and_sync kv e w) as [e' w']. exists e', w'.
    split; [by apply parses_one|]. by right.
Qed.

(** Everything but the module name of an element and of an operation. *)
Definition same_frame (e e' : ElementName) (w w' : Want) : Prop :=
  e' = SetModuleName (el_moduleName e') e ∧
  operation_ w' = set_op_module (op_moduleName (operation_ w')) (operation_ w).

Lemma same_frame_refl e w : same_frame e e w w.
Proof. unfold same_frame. destruct e, w as [[]]. done. Qed.

Lemma same_frame_trans e1 e2 e3 w1 w2 w3 :
  same_frame e1 e2 w1 w2 → same_frame e2 e3 w2 w3 → same_frame e1 e3 w1 w3.
Proof.
  intros [He1 Ho1] [He2 Ho2].
  split; (etrans; [eassumption|]); [by rewrite He1 | by rewrite Ho1].
Qed.

(** The element's module name is the one the want's parameters hold. *)
Definition module_synced (e : ElementName) (w : Want) : Prop :=
  GetStringParam PARAM_MODULE_NAME w = el_moduleName e ∧
  (parameters_ w !! PARAM_MODULE_NAME = None ∨
   parameters_ w !! PARAM_MODULE_NAME = Some (VString (el_moduleName e))).

Definition module_after (m : gmap string WantValue) (prev : string) : string :=
  match m !! PARAM_MODULE_NAME with
  | Some (VString s) => if decide (s = "") then prev else s
  | _ => prev
  end.

Lemma set_and_sync_module kv e w e' w' :
  value_ok kv → module_synced e w → (e', w') = set_and_sync kv e w →
  value_text kv.2 ≠ "" →
  el_moduleName e' = module_after {[kv.1 := kv.2]} (el_moduleName e) ∧
  module_synced e' w' ∧ same_frame e e' w w' ∧
  ∀ k, k ≠ PARAM_MODULE_NAME →
    parameters_ w' !! k = if decide (k = kv.1) then Some kv.2 else parameters_ w !! k.
Proof.
  intros [Hk Hv] [Hm _] [= -> ->] Ht. unfold module_after, module_synced.
  set (w1 := SetParam kv.1 kv.2 w).
  assert (GetStringParam PARAM_MODULE_NAME w1 =
    match ({[kv.1 := kv.2]} : gmap string WantValue) !! PARAM_MODULE_NAME with
    | Some (VString s) => if decide (s = "") then el_moduleName e else s
    | _ => el_moduleName e end) as Heq.
  { unfold GetStringParam, w1, SetParam. simpl.
    destruct (decide (kv.1 = PARAM_MODULE_NAME)) as [Hkm|Hkm].
    - rewrite Hkm, lookup_insert_eq, lookup_singleton_eq.
      destruct kv as [k v]. simpl in *. destruct v; try (exfalso; tauto).
      simpl in Ht. by rewrite decide_False.
    - by rewrite lookup_insert_ne, lookup_singleton_ne. }
  split_and!; simpl; [done| | | |].
  - unfold GetStringParam, WantSetModuleName, SetParam. simpl. by rewrite lookup_insert_eq.
  - right. by rewrite lookup_insert_eq.
  - by split.
  - intros k Hne. rewrite lookup_insert_ne by done. case_decide as Hc.
    + by rewrite Hc, lookup_insert_eq.
    + by rewrite lookup_insert_ne.
Qed.

Lemma parses_params l e w :
  NoDup l.*1 → Forall value_ok l → module_synced e w →
  ∃ e' w', parses (param_seg <$> l) e w e' w' ∧
    el_moduleName e' = module_after (list_to_map l) (el_moduleName e) ∧
    module_synced e' w' ∧ same_frame e e' w w' ∧
    ∀ k, k ≠ PARAM_MODULE_NAME →
      parameters_ w' !! k =
      match (list_to_map l : gmap string WantValue) !! k with
      | Some v => Some v
      | None => parameters_ w !! k
      end.
Proof.
  revert e w. induction l as [|kv l IH]; intros e w Hnd Hok Hsync.
  - exists e, w. split_and!; [constructor|done|done|apply same_frame_refl|].
    intros k _. simpl. by rewrite lookup_empty.
  - apply Forall_cons in Hok as [Hkv Hok].
    csimpl in Hnd. apply NoDup_cons in Hnd as [Hnin Hnd].
    assert ((list_to_map l : gmap string WantValue) !! kv.1 = None) as Hnone
      by by apply not_elem_of_list_to_map_1.
    destruct (parses_param kv e w Hkv) as (e1 & w1 & Hp1 & [(Ht & -> & ->)|[Ht Hss]]).
    + pose proof (value_text_nonempty kv Hkv Ht) as ->. simpl in Hnone.
      destruct (IH e w Hnd Hok Hsync) as (e' & w' & Hp & Hm & Hs & Hf & Hl).
      exists e', w'. split_and!; [|..|intros k Hk]; try done.
      * exact (parses_app [_] _ _ _ _ _ _ _ Hp1 Hp).
      * rewrite Hm. unfold module_after. simpl. by rewrite lookup_insert_eq, Hnone.
      * rewrite Hl by done. simpl. by rewrite lookup_insert_ne.
    + destruct (set_and_sync_module kv e w e1 w1 Hkv Hsync Hss Ht) as (Hm1 & Hs1 & Hf1 & Hl1).
      destruct (IH e1 w1 Hnd Hok Hs1) as (e' & w' & Hp & Hm & Hs & Hf & Hl).
      exists e', w'. split_and!; [|..|intros k Hk]; try done.
      * exact (parses_app [_] _ _ _ _ _ _ _ Hp1 Hp).
      * rewrite Hm, Hm1. unfold module_after. destruct kv as [k0 v0]. simpl in *.
        destruct (decide (k0 = PARAM_MODULE_NAME)) as [->|Hne].
        -- by rewrite Hnone, lookup_insert_eq, lookup_singleton_eq.
        -- by rewrite lookup_insert_ne, lookup_singleton_ne.
      * by eapply same_frame_trans.
      * rewrite Hl, Hl1 by done. destruct kv as [k0 v0]. simpl in *.
        destruct (decide (k = k0)) as [->|Hne].
        -- by rewrite Hnone, lookup_insert_eq.
        -- by rewrite lookup_insert_ne.
Qed.

(** ** The fixed attributes *)

Lemma entities_dispatch l e w :
  NoDup (op_entities (operation_ w) ++ l) → "" ∉ l →
  parses (l ≫= seg_nonempty "entity") e w e
    (mkWant (mkOperation (op_abilityName (operation_ w)) (op_action (operation_ w))
      (op_bundleName (operation_ w)) (op_deviceId (operation_ w))
      (op_moduleName (operation_ w)) (op_entities (operation_ w) ++ l)
      (op_flags (operation_ w)) (op_uri (operation_ w))) (parameters_ w)).
Proof.
  revert w. induction l as [|x l IH]; intros w Hnd Hne.
  - rewrite app_nil_r. destruct w as [[]]. constructor.
  - csimpl. eapply parses_app.
    + apply parses_seg_nonempty with (e' := e) (w' := WantAddEntity x w); try done.
      set_solver.
    + unfold WantAddEntity, AddEntity, HasEntity.
      rewrite bool_decide_false by (apply NoDup_app in Hnd; set_solver).
      assert (NoDup ((op_entities (operation_ w) ++ [x]) ++ l)) as Hnd'
        by by rewrite <- app_assoc.
      eapply (IH (mkWant (mkOperation _ _ _ _ _ (op_entities (operation_ w) ++ [x]) _ _) _))
        in Hnd'; [|set_solver].
      cbn [operation_ op_entities op_abilityName op_action op_bundleName op_deviceId
        op_moduleName op_flags op_uri parameters_] in Hnd'.
      rewrite <- app_assoc in Hnd'. exact Hnd'.
Qed.

Lemma flag_dispatch f e w :
  0 ≤ f < UINT32_MOD →
  parses [seg "flag" (flag_text f)] e w e (SetFlags f w).
Proof.
  intros Hf. apply parses_one; [by apply plain_seg|].
  rewrite internal_seg by done. rewrite decide_False by done.
  change (Decode "flag") with "flag". unfold dispatch, ParseFlag.
  rewrite !(decide_False (P := ("flag" = _))) by done. rewrite decide_True by done.
  rewrite LowerStr_lower by apply flag_text_no_upper.
  rewrite decide_False by done.
  assert (str_starts_with "0x" (flag_text f) = true) as ->
    by (unfold flag_text; apply str_starts_with_app). cbn [negb].
  rewrite read_hex_flag by done. unfold UINT32_MOD in *.
  rewrite (proj2 (Z.ltb_lt _ _)) by lia. cbn. by rewrite Z.mod_small.
Qed.

(** ** The round trip *)

(** A want that the printed form can carry: the invariant of [Operation]'s
    entities, a 32-bit flag word, printable parameters, and a module name
    that agrees with its copy in the parameters (as [SetElement] and
    [SetModuleName] establish it). *)
Record printable (w : Want) : Prop := {
  pr_entities : NoDup (op_entities (operation_ w));
  pr_entity_nonempty : "" ∉ op_entities (operation_ w);
  pr_flags : 0 ≤ op_flags (operation_ w) < UINT32_MOD;
  pr_module : parameters_ w !! PARAM_MODULE_NAME
              = Some (VString (op_moduleName (operation_ w)));
  pr_params : ∀ k v, parameters_ w !! k = Some v → value_ok (k, v);
}.

(** The uri is the one attribute the parser has no case for. *)
Definition drop_uri (w : Want) : Want :=
  let o := operation_ w in
  mkWant (mkOperation (op_abilityName o) (op_action o) (op_bundleName o)
    (op_deviceId o) (op_moduleName o) (op_entities o) (op_flags o) "")
    (parameters_ w).

Lemma GetParams_perm w : GetParams w ≡ₚ map_to_list (parameters_ w).
Proof. apply merge_sort_Permutation. Qed.

Lemma GetParams_nodup w : NoDup (GetParams w).*1.
Proof. rewrite GetParams_perm. apply NoDup_fst_map_to_list. Qed.

Lemma GetParams_list_to_map w : list_to_map (GetParams w) = parameters_ w.
Proof.
  rewrite <- (list_to_map_to_list (parameters_ w)).
  apply list_to_map_proper; [apply GetParams_nodup|apply GetParams_perm].
Qed.

Definition uri_params (uri : string) : gmap string WantValue :=
  if decide (uri = "") then ∅ else {[PARAM_MODULE_NAME := VString ""]}.

Lemma parses_attributes w :
  printable w →
  let o := operation_ w in
  parses
    (seg_nonempty "action" (op_action o) ++ seg_nonempty "uri" (op_uri o)
     ++ (op_entities o ≫= seg_nonempty "entity")
     ++ seg_nonempty "device" (op_deviceId o) ++ seg_nonempty "bundle" (op_bundleName o)
     ++ seg_nonempty "ability" (op_abilityName o)
     ++ (if decide (op_flags o = 0) then [] else [seg "flag" (flag_text (op_flags o))])
     ++ seg_nonempty "package" (op_bundleName o))
    emptyElement emptyWant
    (mkElement (op_deviceId o) (op_bundleName o) (op_abilityName o) "")
    (mkWant (mkOperation "" (op_action o) (Decode (op_bundleName o)) "" ""
      (op_entities o) (op_flags o) "") (uri_params (op_uri o))).
Proof.
  intros Hw o. unfold o.
  eapply parses_app.
  { apply parses_seg_nonempty with (e' := emptyElement)
      (w' := SetAction (op_action (operation_ w)) emptyWant); try done. by intros ->. }
  eapply parses_app.
  { apply parses_seg_nonempty with (e' := emptyElement)
      (w' := mkWant (set_op_action (op_action (operation_ w)) emptyOperation)
               (uri_params (op_uri (operation_ w)))); try done.
    - by intros ->.
    - intros Hu. unfold uri_params. by rewrite decide_False. }
  eapply parses_app.
  { apply entities_dispatch; simpl; [apply Hw|apply Hw]. }
  eapply parses_app.
  { apply parses_seg_nonempty with (e' := mkElement (op_deviceId (operation_ w)) "" "" "")
      (w' := mkWant (mkOperation "" (op_action (operation_ w)) "" "" ""
         (op_entities (operation_ w)) 0 "") (uri_params (op_uri (operation_ w)))); try done.
    by intros ->. }
  eapply parses_app.
  { apply parses_seg_nonempty with (e' := mkElement (op_deviceId (operation_ w))
      (op_bundleName (operation_ w)) "" "")
      (w' := mkWant (mkOperation "" (op_action (operation_ w)) "" "" ""
         (op_entities (operation_ w)) 0 "") (uri_params (op_uri (operation_ w)))); try done.
    by intros ->. }
  eapply parses_app.
  { apply parses_seg_nonempty with (e' := mkElement (op_deviceId (operation_ w))
      (op_bundleName (operation_ w)) (op_abilityName (operation_ w)) "")
      (w' := mkWant (mkOperation "" (op_action (operation_ w)) "" "" ""
         (op_entities (operation_ w)) 0 "") (uri_params (op_uri (operation_ w)))); try done.
    by intros ->. }
  eapply parses_app.
  { instantiate (1 := mkWant (mkOperation "" (op_action (operation_ w)) "" "" ""
      (op_entities (operation_ w)) (op_flags (operation_ w)) "")
      (uri_params (op_uri (operation_ w)))).
    case_decide as Hf; [rewrite Hf; constructor|].
    exact (flag_dispatch _ _ _ (pr_flags _ Hw)). }
  apply parses_seg_nonempty; try done. by intros ->.
Qed.

Lemma parses_uri_segments w :
  printable w →
  ∃ e' w', parses (uri_segments w) emptyElement emptyWant e' w' ∧
    SetElement e' w' = drop_uri w.
Proof.
  intros Hw. pose proof (parses_attributes w Hw) as Hattr. simpl in Hattr.
  set (o := operation_ w) in *.
  set (e1 := mkElement _ _ _ _) in Hattr. set (w1 := mkWant _ _) in Hattr.
  assert (Forall value_ok (GetParams w)) as Hok.
  { apply Forall_forall. intros [k v] Hin. rewrite GetParams_perm in Hin.
    apply elem_of_map_to_list in Hin. by apply (pr_params _ Hw). }
  assert (module_synced e1 w1) as Hsync.
  { unfold module_synced, GetStringParam, w1, e1, uri_params.
    cbn [parameters_ el_moduleName].
    destruct (decide (op_uri o = "")).
    - split; [done|by left].
    - split; [done|by right]. }
  destruct (parses_params (GetParams w) e1 w1 (GetParams_nodup w) Hok Hsync)
    as (e' & w' & Hp & Hm & _ & [He Ho] & Hl).
  exists e', w'. split.
  { unfold uri_segments. fold o. rewrite !app_assoc.
    rewrite !app_assoc in Hattr. by eapply parses_app. }
  rewrite GetParams_list_to_map in Hm, Hl.
  assert (el_moduleName e' = op_moduleName o) as Hmod.
  { rewrite Hm. unfold module_after. rewrite (pr_module _ Hw).
    fold o. by destruct (decide (op_moduleName o = "")) as [->|]. }
  unfold SetElement, drop_uri, SetParam. fold o. f_equal.
  - simpl. unfold set_op_element. rewrite Ho, He, Hmod. done.
  - apply map_eq. intros k. cbn [parameters_].
    destruct (decide (k = PARAM_MODULE_NAME)) as [->|Hne].
    + by rewrite lookup_insert_eq, Hmod, (pr_module _ Hw).
    + rewrite lookup_insert_ne, Hl by done.
      destruct (parameters_ w !! k) eqn:E; [done|].
      unfold w1, uri_params. cbn [parameters_].
      destruct (decide (op_uri o = "")); [done|].
      by rewrite lookup_singleton_ne.
Qed.

Lemma length_close_segments l : (length l ≤ String.length (close_segments l))%nat.
Proof.
  unfold close_segments, str_concat. induction l as [|s l IH]; csimpl; [lia|].
  rewrite !length_app_str. simpl. lia.
Qed.

Lemma want_uri_roundtrip w fuel :
  printable w → (String.length (ToUri None w) ≤ fuel)%nat →
  ParseUri LowerStr OtherParse fuel (ToUri None w) = Returned (Some (drop_uri w)).
Proof.
  intros Hw Hfuel.
  destruct (parses_uri_segments w Hw) as (e' & w' & Hp & <-).
  assert (ToUri None w = WANT_HEADER +:+ (close_segments (uri_segments w) +:+ "end")) as Heq.
  { unfold ToUri. by rewrite ToUriStringInner_segments, app_nil_l_str. }
  assert (str_ends_with ";end" (ToUri None w) = true) as Hend.
  { rewrite Heq. destruct (uri_segments w) as [|s l _] using rev_ind; [done|].
    rewrite close_segments_app.
    assert (close_segments [s] = s +:+ ";") as ->
      by (unfold close_segments, str_concat; csimpl; apply app_nil_r_str).
    rewrite !app_assoc_str. rewrite <- 2!app_assoc_str. apply str_ends_with_app. }
  unfold ParseUri. rewrite Hend, Heq in *. rewrite decide_False by done.
  rewrite str_starts_with_app, str_drop_app. cbn [negb].
  erewrite (loop_parses _ _ _ _ _ _ _ Hp); [done|].
  rewrite !length_app_str in Hfuel.
  pose proof (length_close_segments (uri_segments w)). simpl in Hfuel. lia.
Qed.
End roundtrip.

(** * Runs of the parser that do not end, and those that do *)

Section looping.
Context (LowerStr : string → string).
Context (OtherParse : ascii → string → outcome (option WantValue)).
#[local] Abbreviation loop := (ParseUri_loop LowerStr OtherParse).

Lemma loop_at_PICK fuel r st : loop fuel ("PICK;" +:+ r) st = OutOfFuel.
Proof.
  revert st. induction fuel as [|fuel IH]; intros st; [done|].
  cbn [ParseUri_loop]. change ("PICK;" +:+ r) with ("PICK" +:+ String ";" r).
  rewrite str_break_app by done. rewrite decide_True by done. apply IH.
Qed.

Lemma loop_before_PICK l e w e' w' b fuel r :
  parses LowerStr OtherParse l e w e' w' →
  loop fuel (close_segments l +:+ "PICK;" +:+ r) (mkPS e w b) = OutOfFuel.
Proof.
  intros Hp. revert fuel. induction Hp as [e w|s l e w e1 w1 e2 w2 [Hs Hne] Hi Hp IH];
    intros fuel; [apply loop_at_PICK|].
  destruct fuel as [|fuel]; [done|].
  assert (close_segments (s :: l) +:+ "PICK;" +:+ r
    = s +:+ String ";" (close_segments l +:+ "PICK;" +:+ r)) as ->
    by (unfold close_segments, str_concat; csimpl; by autorewrite with aafwk).
  cbn [ParseUri_loop]. rewrite str_break_app by done.
  rewrite decide_False by done. cbn [ps_element ps_want ps_base]. rewrite Hi. cbn.
  destruct (str_break ";" (close_segments l +:+ "PICK;" +:+ r)) eqn:Hb; [apply IH|].
  apply str_break_None in Hb. rewrite !str_elem_app in Hb. bool_to_prop. done.
Qed.

Lemma ParseFlag_terminates content w : ParseFlag LowerStr content w ≠ OutOfFuel.
Proof. unfold ParseFlag. by repeat case_match. Qed.

Lemma CheckAndSetParameters_terminates key prop value w :
  (∀ sig t, OtherParse sig t ≠ OutOfFuel) →
  CheckAndSetParameters OtherParse key prop value w ≠ OutOfFuel.
Proof.
  intros Ho. unfold CheckAndSetParameters.
  destruct prop as [|sig [|dot prop]]; [done..|].
  specialize (Ho sig value). repeat case_decide; try done; [by repeat case_match..|].
  destruct (OtherParse sig value) as [[v|]| |]; done.
Qed.

Lemma internal_terminates content e w :
  (∀ sig t, OtherParse sig t ≠ OutOfFuel) →
  ParseUriInternal LowerStr OtherParse content e w ≠ OutOfFuel.
Proof.
  intros Ho. unfold ParseUriInternal.
  case_decide; [done|]. destruct (str_starts_with _ _); [done|].
  destruct (ParseContent content) as [[prop value]|]; [|done].
  repeat case_decide; try done.
  - pose proof (ParseFlag_terminates value w). by destruct (ParseFlag _ _ _).
  - pose proof (CheckAndSetParameters_terminates (str_drop 2 prop) prop value w Ho).
    destruct (CheckAndSetParameters _ _ _ _ _) as [[[] ?]| |]; done.
Qed.

Lemma loop_terminates fuel rest st :
  (∀ sig t, OtherParse sig t ≠ OutOfFuel) →
  (∀ l r, rest ≠ l +:+ "PICK;" +:+ r) →
  (String.length rest < fuel)%nat → loop fuel rest st ≠ OutOfFuel.
Proof.
  intros Ho. revert rest st. induction fuel as [|fuel IH]; intros rest st Hpick Hlen; [lia|].
  cbn [ParseUri_loop]. destruct (str_break ";" rest) as [[content rest']|] eqn:Hb; [|done].
  apply str_break_Some in Hb as [-> _].
  case_decide as Hc; [subst; by destruct (Hpick "" rest')|].
  pose proof (internal_terminates content (ps_element st) (ps_want st) Ho) as Hi.
  destruct (ParseUriInternal _ _ _ _ _) as [[[ok e] w]| |]; [|done..].
  cbn. destruct ok; [|done]. destruct (str_break ";" rest'); [|done].
  apply IH.
  - intros l r ->. apply (Hpick (content +:+ String ";" l) r). by autorewrite with aafwk.
  - rewrite length_app_str in Hlen. simpl in Hlen. lia.
Qed.
End looping.

(** * Claims *)

(** [std::tolower] on every byte, the behaviour of [LowerStr]. *)
Definition lower_ascii (c : ascii) : ascii :=
  if is_upper c then ascii_of_nat (nat_of_ascii c + 32) else c.
Fixpoint lower_string (s : string) : string :=
  match s with "" => "" | String c s' => String (lower_ascii c) (lower_string s') end.

Lemma lower_string_id s : no_upper s = true → lower_string s = s.
Proof.
  induction s as [|c s IH]; [done|]. cbn. intros H. bool_to_prop.
  rewrite IH by done. unfold lower_ascii. by rewrite H.
Qed.

Definition sample_want : Want :=
  mkWant
    (mkOperation "MainAbility" "action.system.home" "com.ohos;launcher" "" "entry"
       ["entity.system.home"; "a=b"] 2147483656 "")
    (<[PARAM_MODULE_NAME := VString "entry"]>
       (<["coldStart" := VBoolean true]> {["window=mode" := VInteger (-102)]})).

Lemma sample_want_printable :
  printable (λ _ _, Returned None) sample_want.
Proof.
  split.
  - repeat constructor; set_solver.
  - set_solver.
  - simpl. unfold UINT32_MOD. lia.
  - done.
  - intros k v H. simpl in H.
    repeat (apply lookup_insert_Some in H as [[<- <-]|[_ H]]);
      [..|apply lookup_singleton_Some in H as [<- <-]]; (split; [done|]); simpl.
    + by left.
    + done.
    + unfold INT_MAX. split; [done|lia].
Defined.

(** C38: printing a want as a URI and parsing it back gives the want it was,
    except for its uri, which [ParseUriInternal] has no case for: for a want
    whose entities, flags, module name and parameters are consistent, one
    loop iteration per character is enough fuel and the parser returns. *)
Theorem ParseUri_ToUri LowerStr OtherParse w fuel :
  (∀ s, no_upper s = true → LowerStr s = s) → printable OtherParse w →
  (String.length (ToUri None w) ≤ fuel)%nat →
  ParseUri LowerStr OtherParse fuel (ToUri None w) = Returned (Some (drop_uri w)).
Proof. intros HL. exact (want_uri_roundtrip LowerStr OtherParse HL w fuel). Qed.

Lemma ParseUri_ToUri_witness :
  ParseUri lower_string (λ _ _, Returned None) 400 (ToUri None sample_want)
  = Returned (Some (drop_uri sample_want)).
Proof.
  apply ParseUri_ToUri; [exact lower_string_id|exact sample_want_printable|].
  vm_compute. lia.
Defined.

(** Escaping is safe: whatever the attribute, its escaped form contains
    neither of the characters that structure the URI, and unescaping it gives
    the attribute back. *)
Theorem Encode_Decode_safe s :
  Decode (Encode s) = s ∧ str_elem "=" (Encode s) = false ∧ str_elem ";" (Encode s) = false.
Proof. auto using Decode_Encode_id, Encode_no_char. Qed.

(** The parser never returns on the URI that [ToUri] prints for a want
    with a picker: at the PICK segment the [continue] leaves both positions
    where they were, whatever the fuel. *)
Theorem ParseUri_picker_diverges LowerStr OtherParse w p fuel :
  (∀ s, no_upper s = true → LowerStr s = s) → printable OtherParse w →
  ParseUri LowerStr OtherParse fuel (ToUri (Some p) w) = OutOfFuel.
Proof.
  intros HL Hw. destruct (parses_uri_segments LowerStr OtherParse HL w Hw) as (e' & w' & Hp & _).
  set (tail := ToUriStringInner p +:+ "end").
  assert (ToUri (Some p) w
    = WANT_HEADER +:+ (close_segments (uri_segments w) +:+ "PICK;" +:+ tail)) as Heq
    by (unfold ToUri, tail; by rewrite ToUriStringInner_segments, !app_assoc_str).
  assert (∃ s, ToUri (Some p) w = s +:+ ";end") as [s Hs].
  { rewrite Heq. unfold tail. rewrite ToUriStringInner_segments.
    destruct (uri_segments p) as [|x l _] using rev_ind.
    - exists (WANT_HEADER +:+ close_segments (uri_segments w) +:+ "PICK").
      by rewrite !app_assoc_str.
    - exists (WANT_HEADER +:+ close_segments (uri_segments w) +:+ "PICK;"
              +:+ close_segments l +:+ x).
      rewrite close_segments_app.
      assert (close_segments [x] = x +:+ ";") as ->
        by (unfold close_segments, str_concat; csimpl; apply app_nil_r_str).
      by rewrite !app_assoc_str. }
  assert (str_ends_with ";end" (ToUri (Some p) w) = true) as Hend
    by (rewrite Hs; apply str_ends_with_app).
  unfold ParseUri. rewrite Hend, Heq. rewrite decide_False by done.
  rewrite str_starts_with_app, str_drop_app. cbn [negb].
  by rewrite (loop_before_PICK _ _ _ _ _ _ _ _ _ _ Hp).
Qed.

Lemma ParseUri_picker_diverges_witness :
  ParseUri lower_string (λ _ _, Returned None) 1000 (ToUri (Some emptyWant) sample_want)
  = OutOfFuel.
Proof.
  apply ParseUri_picker_diverges; [exact lower_string_id|exact sample_want_printable].
Defined.

(** C39: the parser ends, with a want, with nothing or with an exception ([std::stoi] and
    [std::stoul] throw where a number is none or is too long): when the text has no "PICK;" in it
    and the parsers of the wrapper classes end, one iteration per character is enough
    fuel. *)
Theorem ParseUri_terminates LowerStr OtherParse uri fuel :
  (∀ sig t, OtherParse sig t ≠ OutOfFuel) →
  str_contains "PICK;" uri = false →
  (String.length uri ≤ fuel)%nat →
  ParseUri LowerStr OtherParse fuel uri ≠ OutOfFuel.
Proof.
  intros Ho Hpick Hfuel. unfold ParseUri.
  case_decide; [done|].
  destruct (str_starts_with WANT_HEADER uri) eqn:Hhead; [|done]. cbn [negb].
  destruct (str_ends_with ";end" uri); [|done]. cbn [negb].
  apply str_starts_with_spec in Hhead as [s' ->]. rewrite str_drop_app.
  assert (ParseUri_loop LowerStr OtherParse fuel s' (mkPS emptyElement emptyWant None)
          ≠ OutOfFuel) as Hl.
  { apply loop_terminates; [done| |].
    - intros l r ->. apply (str_contains_false _ _ (WANT_HEADER +:+ l) r Hpick).
      by rewrite !app_assoc_str.
    - rewrite length_app_str in Hfuel. simpl in Hfuel. lia. }
  destruct (ParseUri_loop _ _ _ _ _) as [[[] ?]| |]; done.
Qed.

Lemma ParseUri_terminates_witness :
  ParseUri lower_string (λ _ _, Returned None) 20 "#Intent;I.x=y;end" ≠ OutOfFuel.
Proof.
  apply ParseUri_terminates; [done|done|vm_compute; lia].
Defined.
