(* ===== verification/Uri.v ===== *)
(** [Uri] (ability_base/frameworks/native/uri/src/uri.cpp): the parts of the text of a
    uri, and that they are those the text was put together from.

    The class keeps what it has parsed; a part that reads [NOT VALID] is parsed again,
    to the same, so the getters are functions of the text. *)

From Stdlib Require Import Ascii.
From S2P Require Import Prelude CppString.

#[local] Open Scope stdpp_scope.
#[local] Open Scope Z_scope.

(** * Positions in a text *)

(** [s.find_first_of(c)] and [s.find_first_of(c, n)]. *)
Fixpoint find_char (c : ascii) (s : string) : option nat :=
  match s with
  | "" => None
  | String d s' => if Ascii.eqb c d then Some O else S <$> find_char c s'
  end.
Definition find_char_from (n : nat) (c : ascii) (s : string) : option nat := Nat.add n <$> find_char c (str_drop n s).

(** [s.find_last_of(c)]. *)
Fixpoint find_last_char (c : ascii) (s : string) : option nat :=
  match s with
  | "" => None
  | String d s' => match find_last_char c s' with Some n => Some (S n) | None => if Ascii.eqb c d then Some O else None end
  end.

(** [s.substr(start, len)]. *)
Definition substr (start len : nat) (s : string) : string := str_take len (str_drop start s).

(** A loop that goes on until a character satisfies [P]. *)
Fixpoint take_until (P : ascii → bool) (s : string) : string :=
  match s with
  | "" => ""
  | String c s' => if P c then "" else String c (take_until P s')
  end.

Fixpoint str_all (P : ascii → bool) (s : string) : bool :=
  match s with "" => true | String c s' => P c && str_all P s' end.

(** * The class *)

Definition SCHEME_SEPARATOR : ascii := ":".
Definition SCHEME_FRAGMENT : ascii := "#".
Definition LEFT_SEPARATOR : ascii := "/".
Definition RIGHT_SEPARATOR : ascii := "\".
Definition QUERY_FLAG : ascii := "?".
Definition USER_HOST_SEPARATOR : ascii := "@".
Definition PORT_SEPARATOR : ascii := ":".
Definition PORT_NONE : Z := -1.

Definition is_letter (c : ascii) : bool :=
  let n := nat_of_ascii c in ((65 <=? n) && (n <=? 90) || (97 <=? n) && (n <=? 122))%nat.
(** In the class [[a-zA-Z|\d|+|-|.]] the minus stands between two bars, so it makes
    the range from a bar to a bar. *)
Definition scheme_char (c : ascii) : bool :=
  is_letter c || is_digit c || Ascii.eqb c "|" || Ascii.eqb c "+" || Ascii.eqb c ".".
Definition scheme_regex (s : string) : bool :=
  match s with "" => false | String c s' => is_letter c && str_all scheme_char s' end.

Definition FindSchemeSeparator (s : string) : option nat := find_char SCHEME_SEPARATOR s.
(** The search starts at the position of the scheme separator, also when it is
    [npos]. *)
Definition FindFragmentSeparator (s : string) : option nat :=
  match FindSchemeSeparator s with Some ssi => find_char_from ssi SCHEME_FRAGMENT s | None => None end.

Definition ParseScheme (s : string) : string :=
  match FindSchemeSeparator s with Some ssi => substr 0 ssi s | None => "" end.
Definition CheckScheme (s : string) : bool :=
  let scheme := ParseScheme s in String.eqb scheme "" || scheme_regex scheme.

(** The text that is kept. *)
Definition Uri_of (uriString : string) : string :=
  if String.eqb uriString "" then "" else if CheckScheme uriString then uriString else "".

Definition ParseSsp (s : string) : string :=
  let start := match FindSchemeSeparator s with Some ssi => S ssi | None => O end in
  let stop := default (String.length s) (FindFragmentSeparator s) in
  if (start <? stop)%nat then substr start (stop - start) s else "".

Definition ends_authority (c : ascii) : bool :=
  Ascii.eqb c LEFT_SEPARATOR || Ascii.eqb c RIGHT_SEPARATOR || Ascii.eqb c QUERY_FLAG || Ascii.eqb c SCHEME_FRAGMENT.
Definition ends_path (c : ascii) : bool := Ascii.eqb c QUERY_FLAG || Ascii.eqb c SCHEME_FRAGMENT.

Definition ParseAuthority (s : string) : string :=
  match FindSchemeSeparator s with
  | None => ""
  | Some ssi =>
      if str_starts_with "//" (str_drop (ssi + 1) s) then take_until ends_authority (str_drop (ssi + 3) s) else ""
  end.

Definition ParseUserInfo (s : string) : string :=
  let authority := ParseAuthority s in
  match find_last_char USER_HOST_SEPARATOR authority with Some stop => substr 0 stop authority | None => "" end.
Definition host_start (authority : string) : nat :=
  match find_last_char USER_HOST_SEPARATOR authority with Some n => S n | None => O end.
Definition ParseHost (s : string) : string :=
  let authority := ParseAuthority s in
  let start := host_start authority in
  let stop := default (String.length authority) (find_char_from start PORT_SEPARATOR authority) in
  if (start <? stop)%nat then substr start (stop - start) authority else "".

Definition ParseQuery (s : string) : string :=
  let ssi := default O (FindSchemeSeparator s) in
  match find_char_from ssi QUERY_FLAG s with
  | None => ""
  | Some qsi =>
      match FindFragmentSeparator s with
      | None => str_drop (S qsi) s
      | Some fsi => if (fsi <? qsi)%nat then "" else substr (S qsi) (fsi - S qsi) s
      end
  end.

(** After the two slashes of an authority; [None] when there is no path. *)
Fixpoint skip_authority (s : string) : option string :=
  match s with
  | "" => Some ""
  | String c s' =>
      if ends_path c then None
      else if Ascii.eqb c LEFT_SEPARATOR || Ascii.eqb c RIGHT_SEPARATOR then Some s else skip_authority s'
  end.
Definition path_from (rest : string) : string :=
  match (if str_starts_with "//" rest then skip_authority (str_drop 2 rest) else Some rest) with
  | Some path => take_until ends_path path
  | None => ""
  end.
Definition ParsePath (s : string) : string :=
  match FindSchemeSeparator s with
  | None => path_from s
  | Some ssi =>
      match str_drop (S ssi) s with
      | String c _ as rest => if Ascii.eqb c LEFT_SEPARATOR then path_from rest else ""
      | "" => ""
      end
  end.

Definition ParseFragment (s : string) : string :=
  match FindFragmentSeparator s with Some fsi => str_drop (S fsi) s | None => "" end.

(** Every getter answers the empty text for an empty uri. *)
Definition get (parse : string → string) (uri : string) : string := if String.eqb uri "" then "" else parse uri.
Definition GetScheme : string → string := get ParseScheme.
Definition GetSchemeSpecificPart : string → string := get ParseSsp.
Definition GetAuthority : string → string := get ParseAuthority.
Definition GetUserInfo : string → string := get ParseUserInfo.
Definition GetHost : string → string := get ParseHost.
Definition GetQuery : string → string := get ParseQuery.
Definition GetPath : string → string := get ParsePath.
Definition GetFragment : string → string := get ParseFragment.

(** [StrToInt] is not under src/. *)
Definition ParsePort (StrToInt : string → option Z) (s : string) : Z :=
  let authority := ParseAuthority s in
  if String.eqb authority "" then PORT_NONE
  else match find_char_from (host_start authority) PORT_SEPARATOR authority with
       | None => PORT_NONE
       | Some portSeparator => default PORT_NONE (StrToInt (str_drop (S portSeparator) authority))
       end.
Definition GetPort (StrToInt : string → option Z) (uri : string) : Z :=
  if String.eqb uri "" then PORT_NONE else ParsePort StrToInt uri.

(** The non-empty texts between the separators. *)
Fixpoint segments (c : ascii) (segment s : string) : list string :=
  let found := if String.eqb segment "" then [] else [segment] in
  match s with
  | "" => found
  | String d s' => if Ascii.eqb c d then found ++ segments c "" s' else segments c (segment +:+ String d "") s'
  end.
Definition GetPathSegments (uri : string) : list string :=
  if String.eqb uri "" then [] else segments LEFT_SEPARATOR "" (ParsePath uri).

Definition IsHierarchical (uri : string) : bool :=
  if String.eqb uri "" then false
  else match FindSchemeSeparator uri with
       | None => true
       | Some ssi => match str_drop (S ssi) uri with String c _ => Ascii.eqb c LEFT_SEPARATOR | "" => false end
       end.
Definition IsOpaque (uri : string) : bool := negb (String.eqb uri "") && negb (IsHierarchical uri).
Definition IsRelative (uri : string) : bool :=
  negb (String.eqb uri "") && match FindSchemeSeparator uri with None => true | Some _ => false end.
Definition IsAbsolute (uri : string) : bool := negb (String.eqb uri "") && negb (IsRelative uri).

(** * Lemmas *)

Definition free_of (P : ascii → bool) (s : string) : Prop := str_all (λ c, negb (P c)) s = true.
(** The text is empty or starts with a character of [P]. *)
Definition starts_in (P : ascii → bool) (s : string) : Prop := match s with "" => True | String c _ => P c = true end.

Lemma str_all_app P s1 s2 : str_all P (s1 +:+ s2) = str_all P s1 && str_all P s2.
Proof. induction s1 as [|c s1 IH]; [done|]. rewrite app_cons_str. cbn [str_all]. by rewrite IH, andb_assoc. Qed.
Lemma free_of_app P s1 s2 : free_of P (s1 +:+ s2) ↔ free_of P s1 ∧ free_of P s2.
Proof. unfold free_of. rewrite str_all_app, andb_true_iff. done. Qed.
Lemma free_of_cons P c s : free_of P (String c s) ↔ P c = false ∧ free_of P s.
Proof. unfold free_of. cbn [str_all]. rewrite andb_true_iff, negb_true_iff. done. Qed.
Lemma free_of_weaken (P Q : ascii → bool) s : (∀ c, Q c = true → P c = true) → free_of P s → free_of Q s.
Proof.
  intros H. induction s as [|c s IH]; [done|]. rewrite !free_of_cons. intros [Hc Hs]. split; [|by apply IH].
  specialize (H c). destruct (Q c); [|done]. rewrite H in Hc; done.
Qed.

Lemma find_char_here c l r : free_of (Ascii.eqb c) l → find_char c (l +:+ String c r) = Some (String.length l).
Proof.
  induction l as [|d l IH]; intros H.
  - rewrite app_nil_l_str. cbn [find_char String.length]. by rewrite Ascii.eqb_refl.
  - apply free_of_cons in H as [Hd H]. rewrite app_cons_str. cbn [find_char String.length]. by rewrite Hd, IH.
Qed.
Lemma find_char_nowhere c s : free_of (Ascii.eqb c) s → find_char c s = None.
Proof.
  induction s as [|d s IH]; [done|]. intros [Hd H]%free_of_cons. cbn [find_char]. by rewrite Hd, IH.
Qed.
Lemma find_char_past c l r : free_of (Ascii.eqb c) l → find_char c (l +:+ r) = Nat.add (String.length l) <$> find_char c r.
Proof.
  induction l as [|d l IH]; intros H; [rewrite app_nil_l_str; by destruct (find_char c r)|].
  apply free_of_cons in H as [Hd H]. rewrite app_cons_str. cbn [find_char String.length]. rewrite Hd, IH by done.
  by destruct (find_char c r).
Qed.
Lemma find_last_char_nowhere c s : free_of (Ascii.eqb c) s → find_last_char c s = None.
Proof. induction s as [|d s IH]; [done|]. intros [Hd H]%free_of_cons. cbn [find_last_char]. by rewrite IH, Hd. Qed.
Lemma find_last_char_here c l r : free_of (Ascii.eqb c) r → find_last_char c (l +:+ String c r) = Some (String.length l).
Proof.
  intros Hr. induction l as [|d l IH].
  - rewrite app_nil_l_str. cbn [find_last_char String.length]. by rewrite find_last_char_nowhere, Ascii.eqb_refl.
  - rewrite app_cons_str. cbn [find_last_char String.length]. by rewrite IH.
Qed.

Lemma drop_past n l r : str_drop (String.length l + n) (l +:+ r) = str_drop n r.
Proof. induction l as [|c l IH]; [done|]. rewrite app_cons_str. cbn. exact IH. Qed.
Lemma substr_mid l m r : substr (String.length l) (String.length m) (l +:+ m +:+ r) = m.
Proof. unfold substr. rewrite str_drop_app. apply str_take_app. Qed.
Lemma take_until_app P l r : free_of P l → starts_in P r → take_until P (l +:+ r) = l.
Proof.
  intros Hl Hr. induction l as [|c l IH].
  - rewrite app_nil_l_str. destruct r as [|c r]; [done|]. cbn in *. by rewrite Hr.
  - apply free_of_cons in Hl as [Hc Hl]. rewrite app_cons_str. cbn [take_until]. by rewrite Hc, IH.
Qed.
Lemma ends_authority_or c : ends_authority c = ends_path c || (Ascii.eqb c LEFT_SEPARATOR || Ascii.eqb c RIGHT_SEPARATOR).
Proof. unfold ends_authority, ends_path. rewrite <- orb_assoc. apply orb_comm. Qed.
Lemma skip_authority_app l r : free_of ends_authority l → starts_in ends_authority r →
  skip_authority (l +:+ r) =
    match r with "" => Some "" | String c _ => if ends_path c then None else Some r end.
Proof.
  intros Hl Hr. induction l as [|c l IH].
  - rewrite app_nil_l_str. destruct r as [|c r]; [done|]. cbn [starts_in skip_authority] in *.
    rewrite ends_authority_or in Hr. destruct (ends_path c); [done|]. cbn in Hr. by rewrite Hr.
  - apply free_of_cons in Hl as [Hc Hl]. rewrite app_cons_str. cbn [skip_authority].
    rewrite ends_authority_or in Hc. apply orb_false_iff in Hc as [-> ->]. by apply IH.
Qed.

Lemma scheme_char_not_colon c : scheme_char c = true → Ascii.eqb SCHEME_SEPARATOR c = false.
Proof. destruct (Ascii.eqb_spec SCHEME_SEPARATOR c) as [<-|]; [|done]. done. Qed.
Lemma scheme_free s : scheme_regex s = true → free_of (Ascii.eqb SCHEME_SEPARATOR) s ∧ s ≠ "".
Proof.
  destruct s as [|c s]; [done|]. cbn [scheme_regex]. intros [Hc Hs]%andb_true_iff. split; [|done]. apply free_of_cons. split.
  - apply scheme_char_not_colon. unfold scheme_char. by rewrite Hc.
  - induction s as [|d s IH]; [done|]. cbn in Hs. apply andb_true_iff in Hs as [Hd Hs]. apply free_of_cons.
    split; [by apply scheme_char_not_colon|by apply IH].
Qed.

(** * A text of given parts *)

Definition opt_part (c : ascii) (part : option string) : string := match part with Some t => String c t | None => "" end.
Definition uri_text (scheme authority path : string) (query fragment : option string) : string :=
  scheme +:+ String SCHEME_SEPARATOR
    ("//" +:+ authority +:+ path +:+ opt_part QUERY_FLAG query +:+ opt_part SCHEME_FRAGMENT fragment).

Definition is_path (path : string) : Prop :=
  starts_in (λ c, Ascii.eqb c LEFT_SEPARATOR || Ascii.eqb c RIGHT_SEPARATOR) path ∧ free_of ends_path path.

Section parts.
Context (scheme authority path : string) (query fragment : option string).
Context (Hscheme : scheme_regex scheme = true) (Hauthority : free_of ends_authority authority) (Hpath : is_path path).
Context (Hquery : free_of (Ascii.eqb SCHEME_FRAGMENT) (default "" query)).
#[local] Abbreviation text := (uri_text scheme authority path query fragment).
#[local] Abbreviation head := (String SCHEME_SEPARATOR ("//" +:+ authority +:+ path)).

Lemma free_eqb P c s : P c = true → free_of P s → free_of (Ascii.eqb c) s.
Proof. intros Hc. apply free_of_weaken. intros d ->%Ascii.eqb_eq. done. Qed.

Lemma head_free c : ends_path c = true → free_of (Ascii.eqb c) head.
Proof.
  intros Hc. assert (∀ d, ends_path d = false → Ascii.eqb c d = false) as H.
  { intros d Hd. destruct (Ascii.eqb_spec c d); congruence. }
  apply free_of_cons. split; [by apply H|]. rewrite !app_cons_str, app_nil_l_str.
  apply free_of_cons. split; [by apply H|]. apply free_of_cons. split; [by apply H|]. apply free_of_app. split.
  - apply (free_eqb ends_authority); [|done]. by rewrite ends_authority_or, Hc.
  - by apply (free_eqb ends_path), Hpath.
Qed.

Lemma text_split : text = scheme +:+ head +:+ opt_part QUERY_FLAG query +:+ opt_part SCHEME_FRAGMENT fragment.
Proof. unfold uri_text. by rewrite !app_cons_str, !app_nil_l_str, !app_assoc_str. Qed.

Lemma text_separator : FindSchemeSeparator text = Some (String.length scheme).
Proof. apply find_char_here, scheme_free, Hscheme. Qed.
Lemma text_not_empty : String.eqb text "" = false.
Proof. apply String.eqb_neq. unfold uri_text. destruct (scheme_free _ Hscheme) as [_ H]. by destruct scheme. Qed.

Lemma query_free : free_of (Ascii.eqb SCHEME_FRAGMENT) (opt_part QUERY_FLAG query).
Proof. destruct query as [q|]; [|done]. by apply free_of_cons. Qed.
Lemma text_fragment : FindFragmentSeparator text =
  match fragment with
  | Some _ => Some (String.length scheme + (String.length head + String.length (opt_part QUERY_FLAG query)))%nat
  | None => None
  end.
Proof.
  unfold FindFragmentSeparator. rewrite text_separator. unfold find_char_from.
  rewrite text_split, str_drop_app.
  rewrite find_char_past by by apply head_free. rewrite find_char_past by apply query_free.
  destruct fragment as [f|]; [|done]. cbn [opt_part find_char]. rewrite Ascii.eqb_refl. cbn. f_equal. lia.
Qed.
Lemma text_query : find_char_from (String.length scheme) QUERY_FLAG text =
  match query, fragment with
  | Some _, _ => Some (String.length scheme + String.length head)%nat
  | None, Some f => Nat.add (String.length scheme + String.length head + 1) <$> find_char QUERY_FLAG f
  | None, None => None
  end.
Proof.
  unfold find_char_from. rewrite text_split, str_drop_app.
  rewrite find_char_past by by apply head_free. generalize (String.length head) (String.length scheme). intros n m.
  destruct query as [q|].
  { cbn [opt_part]. rewrite app_cons_str. cbn [find_char]. rewrite Ascii.eqb_refl. cbn. f_equal. lia. }
  destruct fragment as [f|]; [|done]. cbn [opt_part]. rewrite app_nil_l_str. cbn [find_char].
  change (Ascii.eqb QUERY_FLAG SCHEME_FRAGMENT) with false. cbn. destruct (find_char QUERY_FLAG f); [|done]. cbn. f_equal. lia.
Qed.

#[local] Abbreviation tail := (opt_part QUERY_FLAG query +:+ opt_part SCHEME_FRAGMENT fragment).
Lemma tail_starts : starts_in ends_path tail.
Proof. destruct query as [q|]; [done|]. destruct fragment as [f|]; done. Qed.
Lemma path_starts : starts_in ends_authority (path +:+ tail).
Proof.
  destruct Hpath as [Hs _]. destruct path as [|c p].
  - rewrite app_nil_l_str. pose proof tail_starts as Ht. destruct tail as [|c r]; [done|]. cbn in *. by rewrite ends_authority_or, Ht.
  - rewrite app_cons_str. cbn in *. by rewrite ends_authority_or, Hs, orb_true_r.
Qed.

Lemma text_scheme : ParseScheme text = scheme.
Proof. unfold ParseScheme. rewrite text_separator. unfold substr. cbn [str_drop]. rewrite text_split. apply str_take_app. Qed.
Lemma text_after n : str_drop (String.length scheme + n) text = str_drop n (head +:+ tail).
Proof. rewrite text_split. apply drop_past. Qed.
Lemma text_authority : ParseAuthority text = authority.
Proof.
  unfold ParseAuthority. rewrite text_separator, !text_after. cbn [str_drop]. rewrite app_cons_str, !app_assoc_str. cbn [str_drop].
  rewrite str_starts_with_app. change (str_drop 2 ("//" +:+ ?x)) with x. apply take_until_app; [done|]. apply path_starts.
Qed.
Lemma text_path : ParsePath text = path.
Proof.
  unfold ParsePath. rewrite text_separator, <- Nat.add_1_r, text_after. rewrite app_cons_str, !app_assoc_str. cbn [str_drop].
  rewrite app_cons_str. cbn [Ascii.eqb]. cbv match. unfold path_from. rewrite <- app_cons_str, str_starts_with_app.
  change (str_drop 2 ("//" +:+ ?x)) with x. rewrite skip_authority_app by (done || apply path_starts).
  destruct Hpath as [Hs Hp]. destruct path as [|c p].
  - rewrite app_nil_l_str. pose proof tail_starts as Ht. destruct tail as [|c r]; [done|]. cbn in Ht. by rewrite Ht.
  - rewrite app_cons_str. apply free_of_cons in Hp as [Hc Hp]. rewrite Hc, <- app_cons_str.
    apply take_until_app; [by apply free_of_cons|apply tail_starts].
Qed.
Lemma text_find_query : ParseQuery text = default "" query.
Proof.
  unfold ParseQuery. rewrite text_separator. change (default O (Some ?n)) with n. rewrite text_query, text_fragment.
  destruct query as [q|] eqn:Eq.
  - assert (str_drop (S (String.length scheme + String.length head)) text = q +:+ opt_part SCHEME_FRAGMENT fragment) as Hd.
    { rewrite <- Nat.add_1_r, <- Nat.add_assoc, text_after, drop_past, Eq. cbn [opt_part]. by rewrite app_cons_str. }
    rewrite Eq in Hd. destruct fragment as [f|]; [|rewrite Hd; cbn [opt_part]; by rewrite app_nil_r_str].
    rewrite (proj2 (Nat.ltb_ge _ _)) by lia. unfold substr. rewrite Hd.
    replace (_ - _)%nat with (String.length q); [apply str_take_app|]. cbn [opt_part]. generalize (String.length head). cbn [String.length]. lia.
  - destruct fragment as [f|]; [|done]. destruct (find_char QUERY_FLAG f) as [n|]; [|done]. cbn [fmap option_fmap option_map].
    rewrite (proj2 (Nat.ltb_lt _ _)); [done|]. cbn [opt_part]. generalize (String.length head). cbn [String.length]. lia.
Qed.
Lemma text_find_fragment : ParseFragment text = default "" fragment.
Proof.
  unfold ParseFragment. rewrite text_fragment. destruct fragment as [f|] eqn:Ef; [|done].
  rewrite <- Nat.add_1_r, <- Ef, <- Nat.add_assoc, text_after, <- Nat.add_assoc, drop_past, drop_past, Ef. done.
Qed.
Lemma text_ssp : ParseSsp text = "//" +:+ authority +:+ path +:+ opt_part QUERY_FLAG query.
Proof.
  unfold ParseSsp. rewrite text_separator, text_fragment.
  set (ssp := "//" +:+ authority +:+ path +:+ opt_part QUERY_FLAG query).
  assert (str_drop (S (String.length scheme)) text = ssp +:+ opt_part SCHEME_FRAGMENT fragment) as Hd.
  { rewrite <- Nat.add_1_r, text_after. unfold ssp. rewrite app_cons_str, !app_assoc_str. done. }
  assert (String.length head + String.length (opt_part QUERY_FLAG query) = S (String.length ssp))%nat as Hl.
  { unfold ssp. rewrite !length_app_str. cbn [String.length]. rewrite !length_app_str. cbn [String.length]. lia. }
  assert (0 < String.length ssp)%nat as Hpos by (unfold ssp; rewrite length_app_str; cbn [String.length]; lia).
  assert (default (String.length text) match fragment with
      | Some _ => Some (String.length scheme + (String.length head + String.length (opt_part QUERY_FLAG query)))%nat
      | None => None
      end = S (String.length scheme) + String.length ssp)%nat as ->.
  { destruct fragment as [f|] eqn:Ef.
    - change (default ?x (Some ?n)) with n. rewrite Hl. lia.
    - change (default ?x None) with x. rewrite <- Ef, text_split, !length_app_str, Ef. cbn [opt_part]. change (String.length "") with 0%nat. lia. }
  rewrite (proj2 (Nat.ltb_lt _ _)) by lia. unfold substr. rewrite Hd.
  replace (_ - _)%nat with (String.length ssp) by lia. apply str_take_app.
Qed.
End parts.

(** ** The authority *)

Definition authority_text (user : option string) (host : string) (port : option string) : string :=
  match user with Some u => u +:+ String USER_HOST_SEPARATOR "" | None => "" end +:+ host +:+ opt_part PORT_SEPARATOR port.

Section authority.
Context (user : option string) (host : string) (port : option string).
Context (Hhost : free_of (λ c, Ascii.eqb USER_HOST_SEPARATOR c || Ascii.eqb PORT_SEPARATOR c) host).
Context (Hport : free_of (Ascii.eqb USER_HOST_SEPARATOR) (default "" port)).
#[local] Abbreviation before := (match user with Some u => u +:+ String USER_HOST_SEPARATOR "" | None => "" end).

Lemma host_port_free : free_of (Ascii.eqb USER_HOST_SEPARATOR) (host +:+ opt_part PORT_SEPARATOR port).
Proof.
  apply free_of_app. split.
  - eapply free_of_weaken; [|exact Hhost]. intros c Hc. cbn beta. by rewrite Hc.
  - destruct port as [p|]; [|done]. by apply free_of_cons.
Qed.
Lemma host_port_free2 : free_of (Ascii.eqb PORT_SEPARATOR) host.
Proof. eapply free_of_weaken; [|exact Hhost]. intros c Hc. cbn beta. by rewrite Hc, orb_true_r. Qed.
Lemma authority_user : find_last_char USER_HOST_SEPARATOR (authority_text user host port) = String.length <$> user.
Proof.
  unfold authority_text. destruct user as [u|].
  - rewrite app_assoc_str, app_cons_str, app_nil_l_str. apply find_last_char_here, host_port_free.
  - rewrite app_nil_l_str. apply find_last_char_nowhere, host_port_free.
Qed.
Lemma authority_start : host_start (authority_text user host port) = String.length before.
Proof. unfold host_start. rewrite authority_user. destruct user as [u|]; [|done]. cbn [fmap option_fmap option_map]. rewrite length_app_str. cbn. lia. Qed.
Lemma authority_port : find_char_from (String.length before) PORT_SEPARATOR (authority_text user host port) =
  match port with Some _ => Some (String.length before + String.length host)%nat | None => None end.
Proof.
  unfold find_char_from, authority_text. rewrite str_drop_app, find_char_past by apply host_port_free2.
  destruct port as [p|]; [|done]. cbn [opt_part find_char]. rewrite Ascii.eqb_refl. cbn. f_equal. lia.
Qed.
Lemma authority_host : substr (String.length before) (String.length host) (authority_text user host port) = host.
Proof. apply substr_mid. Qed.
Lemma authority_stop : default (String.length (authority_text user host port))
    (find_char_from (String.length before) PORT_SEPARATOR (authority_text user host port)) = (String.length before + String.length host)%nat.
Proof.
  rewrite authority_port. destruct port as [p|] eqn:Ep; [done|]. change (default ?x None) with x. unfold authority_text.
  rewrite !length_app_str. cbn [opt_part String.length]. lia.
Qed.
Lemma authority_after : ∀ p, port = Some p → str_drop (S (String.length before + String.length host)) (authority_text user host port) = p.
Proof.
  intros p ->. rewrite <- Nat.add_1_r, <- Nat.add_assoc. unfold authority_text. rewrite !drop_past. done.
Qed.
End authority.

(** * The parts of a uri *)


(** A uri without a scheme has no fragment for the class: its search starts at [npos]. *)
Lemma relative_fragment_lost s : find_char SCHEME_SEPARATOR s = None → GetFragment s = "".
Proof.
  intros H. unfold GetFragment, get, ParseFragment, FindFragmentSeparator, FindSchemeSeparator. rewrite H. by destruct (String.eqb s "").
Qed.

(** A scheme with a hyphen, which the standard allows, empties the uri. *)
Lemma hyphen_refused : Uri_of "my-app://host" = "" ∧ Uri_of "my|app://host" = "my|app://host".
Proof. done. Qed.
