(* ===== verification/Skills.v ===== *)
(** [PatternsMatcher] (ability_base/frameworks/native/want/src/patterns_matcher.cpp) and
    [Skills] (skills.cpp): what an ability says it can do, and whether a want asks for
    it.

    A regular expression is matched by the library: [regex_match] is [None] for a
    text that is no expression, which throws. The parameters that skills carry are
    only stored. *)

From Stdlib Require Import Ascii.
From S2P Require Import Prelude CppString Want Uri.

#[local] Open Scope stdpp_scope.
#[local] Open Scope Z_scope.

(** * Patterns *)

Inductive MatchType := DEFAULT | PREFIX | PATTERN | GLOBAL.
#[export] Instance MatchType_eq_dec : EqDecision MatchType.
Proof. solve_decision. Defined.

Record PatternsMatcher := mkPattern { pattern_ : string; type_ : MatchType }.
#[export] Instance PatternsMatcher_eq_dec : EqDecision PatternsMatcher.
Proof. solve_decision. Defined.

(** [s.find(p, n)]. *)
Definition str_index_from (n : nat) (p s : string) : option nat := Nat.add n <$> str_index p (str_drop n s).

(** The loop: [indexP] is [None] when the position of the last star is [npos]. The
    answer is the position behind the last piece, if every piece was found. *)
Fixpoint glob_loop (fuel : nat) (pattern text : string) (indexP : option nat) (indexM : nat) : outcome (option nat) :=
  match fuel with
  | O => OutOfFuel
  | S fuel =>
      match indexP with
      | None => Returned (Some indexM)
      | Some i =>
          if (i <? String.length pattern)%nat then
            let find_pos := find_char_from i "*" pattern in
            let p := match find_pos with Some f => substr i (f - i) pattern | None => str_drop i pattern end in
            if String.eqb p "" then glob_loop fuel pattern text (Some (i + 1)%nat) indexM
            else match str_index_from indexM p text with
                 | None => Returned None
                 | Some find_pos_m => glob_loop fuel pattern text find_pos (find_pos_m + String.length p)
                 end
          else Returned (Some indexM)
      end
  end.

(** [pattern.rfind("*") == pattern.length() - 1]: for the empty pattern both are
    [npos]. *)
Definition ends_star (pattern : string) : bool :=
  match find_last_char "*" pattern with
  | Some n => (S n =? String.length pattern)%nat
  | None => (String.length pattern =? 0)%nat
  end.

Definition GlobPattern (pattern text : string) : outcome bool :=
  found ← glob_loop (S (String.length pattern)) pattern text (Some O) O;
  Returned (match found with
            | None => false
            | Some indexM => negb ((indexM <? String.length text)%nat && negb (ends_star pattern))
            end).

Section matching.
Context (regex_match : string → string → option bool).

Definition MatchPattern (pattern text : string) (type : MatchType) : outcome bool :=
  if String.eqb text "" then Returned false
  else match type with
       | DEFAULT => Returned (String.eqb pattern text)
       | PREFIX => Returned (str_starts_with pattern text)
       | PATTERN => match regex_match pattern text with Some b => Returned b | None => Thrown end
       | GLOBAL => GlobPattern pattern text
       end.
Definition match_pattern (text : string) (m : PatternsMatcher) : outcome bool := MatchPattern (pattern_ m) text (type_ m).
End matching.

(** * Skills *)

Record Skills := mkSkills {
  entities_ : list string;
  actions_ : list string;
  authorities_ : list string;
  schemes_ : list string;
  paths_ : list PatternsMatcher;
  schemeSpecificParts_ : list PatternsMatcher;
  types_ : list PatternsMatcher;
  hasPartialTypes_ : bool;
}.
#[export] Instance Skills_eta : Eta Skills := λ x, mkSkills (entities_ x) (actions_ x) (authorities_ x) (schemes_ x) (paths_ x)
  (schemeSpecificParts_ x) (types_ x) (hasPartialTypes_ x).
Definition new_skills : Skills := mkSkills [] [] [] [] [] [] [] false.
(** The copy constructor leaves out whether there are partial types. *)
Definition copy_skills (s : Skills) : Skills := s <| hasPartialTypes_ := false |>.

Definition DISMATCH_TYPE : Z := -101.
Definition DISMATCH_DATA : Z := -102.
Definition RESULT_EMPTY : Z := 65536.
Definition RESULT_SCHEME : Z := 131072.
Definition RESULT_PATH : Z := 327680.
Definition RESULT_SCHEME_SPECIFIC_PART : Z := 360448.
Definition RESULT_TYPE : Z := 393216.
Definition RESULT_NORMAL : Z := 2048.

(** ** The lists *)

Definition add_once {A} `{!EqDecision A} (x : A) (l : list A) : list A := if bool_decide (x ∈ l) then l else l ++ [x].
(** An entry by its index, the empty text out of range. *)
Definition text_at (index : Z) (l : list string) : string := if index <? 0 then "" else default "" (l !! Z.to_nat index).
Definition has_pattern (text : string) (l : list PatternsMatcher) : bool := existsb (λ m, String.eqb (pattern_ m) text) l.
Definition remove_pattern (text : string) : list PatternsMatcher → list PatternsMatcher :=
  erase_first (λ m, String.eqb (pattern_ m) text).

Definition GetEntity (index : Z) (s : Skills) : string := text_at index (entities_ s).
Definition AddEntity (entity : string) (s : Skills) : Skills := s <| entities_ ::= add_once entity |>.
Definition HasEntity (entity : string) (s : Skills) : bool := bool_decide (entity ∈ entities_ s).
Definition RemoveEntity (entity : string) (s : Skills) : Skills := s <| entities_ ::= list_erase_val entity |>.

Definition GetActionAt (index : Z) (s : Skills) : string := text_at index (actions_ s).
Definition AddAction (action : string) (s : Skills) : Skills := s <| actions_ ::= add_once action |>.
Definition HasAction (action : string) (s : Skills) : bool := bool_decide (action ∈ actions_ s).
Definition RemoveAction (action : string) (s : Skills) : Skills := s <| actions_ ::= list_erase_val action |>.

Definition GetAuthorityAt (index : Z) (s : Skills) : string := text_at index (authorities_ s).
Definition AddAuthority (authority : string) (s : Skills) : Skills := s <| authorities_ ::= add_once authority |>.
Definition HasAuthority (authority : string) (s : Skills) : bool := bool_decide (authority ∈ authorities_ s).
Definition RemoveAuthority (authority : string) (s : Skills) : Skills := s <| authorities_ ::= list_erase_val authority |>.

Definition GetSchemeAt (index : Z) (s : Skills) : string := text_at index (schemes_ s).
Definition AddScheme (scheme : string) (s : Skills) : Skills := s <| schemes_ ::= add_once scheme |>.
Definition HasScheme (scheme : string) (s : Skills) : bool := bool_decide (scheme ∈ schemes_ s).
Definition RemoveScheme (scheme : string) (s : Skills) : Skills := s <| schemes_ ::= list_erase_val scheme |>.

Definition GetPathAt (index : Z) (s : Skills) : string := text_at index (pattern_ <$> paths_ s).
Definition AddPathMatcher (m : PatternsMatcher) (s : Skills) : Skills := s <| paths_ ::= add_once m |>.
Definition AddPath (path : string) : Skills → Skills := AddPathMatcher (mkPattern path DEFAULT).
Definition AddPathType (path : string) (type : MatchType) : Skills → Skills := AddPathMatcher (mkPattern path type).
Definition HasPath (path : string) (s : Skills) : bool := has_pattern path (paths_ s).
Definition RemovePath (path : string) (s : Skills) : Skills := s <| paths_ ::= remove_pattern path |>.
Definition RemovePathMatcher (m : PatternsMatcher) (s : Skills) : Skills := s <| paths_ ::= list_erase_val m |>.

Definition GetSchemeSpecificPartAt (index : Z) (s : Skills) : string := text_at index (pattern_ <$> schemeSpecificParts_ s).
Definition AddSchemeSpecificPart (part : string) (s : Skills) : Skills :=
  s <| schemeSpecificParts_ ::= add_once (mkPattern part DEFAULT) |>.
Definition HasSchemeSpecificPart (part : string) (s : Skills) : bool := has_pattern part (schemeSpecificParts_ s).
Definition RemoveSchemeSpecificPart (part : string) (s : Skills) : Skills := s <| schemeSpecificParts_ ::= remove_pattern part |>.

(** A type without a slash, or with nothing behind it, is not added; one that ends in
    a star after the slash is added without both. *)
Definition AddTypeMatcher (m : PatternsMatcher) (s : Skills) : Skills :=
  let type := pattern_ m in
  match find_char "/" type with
  | None => s
  | Some slashpos =>
      if (slashpos + 2 <=? String.length type)%nat then
        if (String.length type =? slashpos + 2)%nat && String.eqb (substr (slashpos + 1) 1 type) "*" then
          s <| types_ ::= add_once (mkPattern (substr 0 slashpos type) (type_ m)) |> <| hasPartialTypes_ := true |>
        else s <| types_ ::= add_once m |>
      else s
  end.
Definition AddType (type : string) : Skills → Skills := AddTypeMatcher (mkPattern type DEFAULT).
Definition GetTypeAt (index : Z) (s : Skills) : string := text_at index (pattern_ <$> types_ s).
Definition HasType (type : string) (s : Skills) : bool := has_pattern type (types_ s).
Definition RemoveType (type : string) (s : Skills) : Skills := s <| types_ ::= remove_pattern type |>.
Definition RemoveTypeMatcher (m : PatternsMatcher) (s : Skills) : Skills := s <| types_ ::= list_erase_val m |>.

(** ** Matching *)

(** The first entity of the want that the skills have, or the empty text. *)
Definition MatchEntities (entities : list string) (s : Skills) : string :=
  default "" (List.find (λ e, HasEntity e s) entities).
Definition MatchAction (action : string) (s : Skills) : bool := HasAction action s.

(** The code then calls [type.find(0, 1, '/')], which searches for the 47 characters
    behind a null pointer: that is not defined. (A library that compares the lengths
    first answers [npos] for a type of up to 47 characters, and then no type is found.) *)
Definition FindMimeType (type : string) (s : Skills) : outcome bool :=
  if String.eqb type "" then Returned false
  else if HasType type s then Returned true
  else if String.eqb type "*/*" then Returned (negb (bool_decide (types_ s = [])))
  else if hasPartialTypes_ s && HasType "*" s then Returned true
  else Thrown.

(** What the uri of a want says of its kind; [authMatch] is put in as an int. *)
Definition match_scheme (scheme data : string) (s : Skills) : Z :=
  match schemes_ s with
  | [] => if bool_decide (scheme ∈ [""; "content"; "file"]) then RESULT_EMPTY else DISMATCH_DATA
  | _ =>
      if negb (HasScheme scheme s) then DISMATCH_DATA
      else if HasSchemeSpecificPart (GetSchemeSpecificPart data) s then RESULT_SCHEME_SPECIFIC_PART
      else if HasAuthority (GetAuthority data) s then
        match paths_ s with
        | [] => 1
        | _ => if HasPath (GetPath data) s then RESULT_PATH else DISMATCH_DATA
        end
      else DISMATCH_DATA
  end.
Definition MatchData (type scheme data : string) (s : Skills) : outcome Z :=
  match types_ s, schemes_ s with
  | [], [] => Returned (if String.eqb type "" then RESULT_EMPTY + RESULT_NORMAL else DISMATCH_DATA)
  | types, _ =>
      let matched := match_scheme scheme data s in
      if matched =? DISMATCH_DATA then Returned DISMATCH_DATA
      else match types with
           | [] => Returned (if String.eqb type "" then matched + RESULT_NORMAL else DISMATCH_TYPE)
           | _ =>
               found ← FindMimeType type s;
               Returned (if found : bool then RESULT_TYPE + RESULT_NORMAL else DISMATCH_TYPE)
           end
  end.

Definition MIME_TYPE : string := "mime-type".
Definition want_type (w : Want) : string := GetStringParam MIME_TYPE w.
Definition want_scheme (w : Want) : string := GetScheme (op_uri (operation_ w)).

Definition Match (w : Want) (s : Skills) : outcome bool :=
  let action := op_action (operation_ w) in
  if negb (String.eqb action "") && negb (MatchAction action s) then Returned false
  else
    dataMatch ← MatchData (want_type w) (want_scheme w) (op_uri (operation_ w)) s;
    Returned (if dataMatch <? 0 then false
              else negb (String.eqb (MatchEntities (op_entities (operation_ w)) s) "")).

(** * Lemmas on patterns *)

Lemma segments_found c a s : free_of (Ascii.eqb c) s → segments c a s = if String.eqb (a +:+ s) "" then [] else [a +:+ s].
Proof.
  revert a. induction s as [|d s IH]; intros a H; [by rewrite app_nil_r_str|].
  apply free_of_cons in H as [Hd H]. cbn [segments]. rewrite Hd, IH, app_assoc_str by done. done.
Qed.
Lemma segments_break c a l r : free_of (Ascii.eqb c) l →
  segments c a (l +:+ String c r) = (if String.eqb (a +:+ l) "" then [] else [a +:+ l]) ++ segments c "" r.
Proof.
  revert a. induction l as [|d l IH]; intros a H.
  - rewrite app_nil_l_str, app_nil_r_str. cbn [segments]. by rewrite Ascii.eqb_refl.
  - apply free_of_cons in H as [Hd H]. rewrite app_cons_str. cbn [segments]. rewrite Hd, IH, !app_assoc_str by done. done.
Qed.

Lemma find_char_Some c s n : find_char c s = Some n → ∃ l r, s = l +:+ String c r ∧ free_of (Ascii.eqb c) l ∧ String.length l = n.
Proof.
  revert n. induction s as [|d s IH]; intros n; [done|]. cbn [find_char]. destruct (Ascii.eqb_spec c d) as [<-|Hne].
  - intros [= <-]. by exists "", s.
  - destruct (find_char c s) as [m|]; [|done]. intros [= <-]. destruct (IH _ eq_refl) as (l & r & -> & Hl & Hn).
    exists (String d l), r. split_and!; [done| |cbn; congruence]. apply free_of_cons. split; [|done].
    by apply Ascii.eqb_neq.
Qed.
Lemma find_char_None c s : find_char c s = None → free_of (Ascii.eqb c) s.
Proof.
  induction s as [|d s IH]; [done|]. cbn [find_char]. destruct (Ascii.eqb c d) eqn:E; [done|].
  intros H. apply free_of_cons. split; [done|]. apply IH. by destruct (find_char c s).
Qed.

(** The first occurrence of a text. *)
Lemma str_index_least p l r : ∃ n, str_index p (l +:+ p +:+ r) = Some n ∧ (n ≤ String.length l)%nat.
Proof.
  induction l as [|c l IH].
  - rewrite app_nil_l_str. exists O. split; [|done]. pose proof (str_starts_with_app p r) as H.
    destruct (p +:+ r) as [|c q]; cbn [str_index]; by rewrite H.
  - rewrite app_cons_str. cbn [str_index]. destruct (str_starts_with p (String c (l +:+ p +:+ r))); [exists O; split; [done|lia]|].
    destruct IH as (n & -> & Hn). exists (S n). split; [done|]. cbn. lia.
Qed.
Lemma str_index_Some p s n : str_index p s = Some n → ∃ l r, s = l +:+ p +:+ r ∧ String.length l = n.
Proof.
  revert n. induction s as [|c s IH]; intros n; cbn [str_index].
  - destruct (str_starts_with p "") eqn:E; [|done]. intros [= <-]. apply str_starts_with_spec in E as [r E]. by exists "", r.
  - destruct (str_starts_with p (String c s)) eqn:E.
    + intros [= <-]. apply str_starts_with_spec in E as [r E]. by exists "", r.
    + destruct (str_index p s) as [m|]; [|done]. intros [= <-]. destruct (IH _ eq_refl) as (l & r & -> & Hl).
      exists (String c l), r. split; [by rewrite app_cons_str|]. cbn. congruence.
Qed.

(** * What a pattern matches

    The pieces between the stars are in the text one after the other, with anything
    before and between them; [rest] is what follows the last. *)

Inductive embeds : list string → string → string → Prop :=
  | embeds_nil t : embeds [] t t
  | embeds_cons p ps before t rest : embeds ps t rest → embeds (p :: ps) (before +:+ p +:+ t) rest.
Definition pieces (pattern : string) : list string := segments "*" "" pattern.

(** Every piece at its first place. *)
Fixpoint greedy (ps : list string) (t : string) : option string :=
  match ps with
  | [] => Some t
  | p :: ps' => match str_index p t with Some n => greedy ps' (str_drop (n + String.length p) t) | None => None end
  end.

Lemma drop_found l p r : str_drop (String.length l + String.length p) (l +:+ p +:+ r) = r.
Proof. by rewrite drop_past, str_drop_app. Qed.
Lemma str_split_at n s : (n ≤ String.length s)%nat → ∃ l r, s = l +:+ r ∧ String.length l = n ∧ str_drop n s = r.
Proof.
  revert n. induction s as [|c s IH]; intros [|n] H; cbn in H; try lia; [by exists "", ""|by exists "", (String c s)|].
  destruct (IH n) as (l & r & -> & Hl & Hd); [lia|]. exists (String c l), r. cbn. split_and!; [done|congruence|done].
Qed.

Lemma greedy_embeds ps t r : greedy ps t = Some r → embeds ps t r.
Proof.
  revert t. induction ps as [|p ps IH]; intros t; cbn [greedy]; [intros [= ->]; constructor|].
  destruct (str_index p t) as [n|] eqn:E; [|done]. apply str_index_Some in E as (l & r' & -> & <-).
  rewrite drop_found. intros H. constructor. by apply IH.
Qed.
(** It leaves as much as any other way does, whatever comes before. *)
Lemma embeds_greedy ps t r g : embeds ps t r → ∃ g', greedy ps (g +:+ t) = Some (g' +:+ r).
Proof.
  intros H. revert g. induction H as [t|p ps before t rest _ IH]; intros g; cbn [greedy]; [by exists g|].
  rewrite <- app_assoc_str. destruct (str_index_least p (g +:+ before) t) as (n & -> & Hn).
  destruct (str_split_at n (g +:+ before)) as (l & r & E & Hl & _); [done|].
  assert (str_drop (n + String.length p) ((g +:+ before) +:+ p +:+ t) = str_drop (String.length p) (r +:+ p) +:+ t) as ->.
  { rewrite E, app_assoc_str, <- Hl, drop_past, <- app_assoc_str.
    destruct (str_split_at (String.length p) (r +:+ p)) as (x & y & E2 & <- & ->); [rewrite length_app_str; lia|].
    by rewrite E2, app_assoc_str, str_drop_app. }
  apply IH.
Qed.

Lemma drop_all_str n s : (String.length s ≤ n)%nat → str_drop n s = "".
Proof. revert n. induction s as [|c s IH]; intros [|n] H; cbn in *; try done; [lia|]. apply IH. lia. Qed.
Lemma length_drop n s : String.length (str_drop n s) = (String.length s - n)%nat.
Proof. revert n. induction s as [|c s IH]; intros [|n]; cbn; try done. Qed.
Lemma drop_drop_str n m s : str_drop n (str_drop m s) = str_drop (m + n) s.
Proof. revert s. induction m as [|m IH]; intros s; [done|]. destruct s as [|c s]; cbn; [by destruct n|apply IH]. Qed.

(** What the loop answers: the position of what is left. *)
Definition left_at (text : string) (rest : option string) : option nat :=
  match rest with Some r => Some (String.length text - String.length r)%nat | None => None end.

Lemma glob_loop_greedy fuel pattern text i m : (String.length pattern - i < fuel)%nat → (m ≤ String.length text)%nat →
  glob_loop fuel pattern text (Some i) m = Returned (left_at text (greedy (pieces (str_drop i pattern)) (str_drop m text))).
Proof.
  revert i m. induction fuel as [|fuel IH]; intros i m Hf Hm; [lia|]. cbn [glob_loop].
  destruct (i <? String.length pattern)%nat eqn:Hi.
  2: { apply Nat.ltb_ge in Hi. rewrite drop_all_str by done. cbn. rewrite length_drop. do 2 f_equal. lia. }
  apply Nat.ltb_lt in Hi. destruct (str_split_at i pattern) as (a & s & -> & Ha & Hs); [lia|].
  rewrite length_app_str in *. unfold find_char_from, str_index_from. rewrite Hs.
  destruct (find_char "*" s) as [f|] eqn:Ef; cbn [fmap option_fmap option_map].
  - apply find_char_Some in Ef as (l & r & -> & Hl & <-).
    replace (substr i (i + String.length l - i) (a +:+ l +:+ String "*" r)) with l.
    2: { replace (i + String.length l - i)%nat with (String.length l) by lia. by rewrite <- Ha, substr_mid. }
    unfold pieces. rewrite segments_break, app_nil_l_str by done. rewrite length_app_str in *. cbn [String.length] in *.
    destruct (String.eqb_spec l "") as [->|Hne].
    + rewrite IH by lia. rewrite <- Ha, drop_past. done.
    + cbn [app greedy]. destruct (str_index l (str_drop m text)) as [n|] eqn:En; cbn [fmap option_fmap option_map]; [|done].
      assert (String.length l ≠ 0)%nat by by destruct l.
      apply str_index_Some in En as (x & y & Et & Hx). pose proof (f_equal String.length Et) as Hlen.
      rewrite length_drop, !length_app_str in Hlen.
      rewrite IH by lia. rewrite <- Ha, drop_past, str_drop_app, drop_drop_str, Nat.add_assoc. done.
  - apply find_char_None in Ef. unfold pieces. rewrite segments_found, app_nil_l_str by done.
    destruct (String.eqb_spec s "") as [->|Hne]; [cbn in *; lia|]. cbn [greedy].
    destruct (str_index s (str_drop m text)) as [n|] eqn:En; cbn [fmap option_fmap option_map]; [|done].
    destruct fuel as [|fuel]; [lia|]. cbn [glob_loop left_at].
    apply str_index_Some in En as (x & y & Et & Hx). pose proof (f_equal String.length Et) as Hlen.
    rewrite length_drop, !length_app_str in Hlen. rewrite drop_drop_str, length_drop. do 2 f_equal. lia.
Qed.

(** * What matches *)

(** C20: a pattern that ends in a star, or is empty, matches exactly the texts
    that hold its pieces one after the other; any other pattern only those of them in
    which nothing follows the last piece, however the pieces are placed. The loop
    returns on every pattern and text. *)
Theorem GlobPattern_spec pattern text : ∃ b, GlobPattern pattern text = Returned b ∧
  (b = true ↔ (∃ rest, embeds (pieces pattern) text rest) ∧
    (ends_star pattern = false → ∀ rest, embeds (pieces pattern) text rest → rest = "")).
Proof.
  unfold GlobPattern. rewrite glob_loop_greedy by lia. cbn [str_drop mbind outcome_bind].
  eexists. split; [done|]. destruct (greedy (pieces pattern) text) as [r|] eqn:E; cbn [left_at].
  2: { split; [done|]. intros [[rest H] _]. destruct (embeds_greedy _ _ _ "" H) as [g Hg]. rewrite app_nil_l_str in Hg. congruence. }
  assert (∀ rest, embeds (pieces pattern) text rest → ∃ g, r = g +:+ rest) as Hall.
  { intros rest H. destruct (embeds_greedy _ _ _ "" H) as [g Hg]. rewrite app_nil_l_str, E in Hg. exists g. congruence. }
  assert (∃ g, text = g +:+ r) as [g Ht].
  { apply greedy_embeds in E. clear Hall. induction E as [t|p ps before t rest _ [g ->]]; [by exists ""|].
    exists (before +:+ p +:+ g). by rewrite !app_assoc_str. }
  apply greedy_embeds in E. pose proof (f_equal String.length Ht) as Hlen. rewrite length_app_str in Hlen.
  destruct (ends_star pattern).
  - rewrite andb_false_r. cbn. split; [|done]. intros _. split; [by exists r|done].
  - rewrite andb_true_r, negb_true_iff, Nat.ltb_ge. split.
    + intros H. split; [by exists r|]. intros _ rest [g' ->]%Hall. rewrite length_app_str in *.
      destruct rest; [done|]. cbn in *. lia.
    + intros [_ H]. rewrite (H eq_refl r) by done. cbn. lia.
Qed.

(** The pieces may start anywhere, and the first place of the last one decides. *)
Lemma glob_examples : GlobPattern "abc" "xyzabc" = Returned true ∧ GlobPattern "*a" "aa" = Returned false ∧ GlobPattern "" "x" = Returned true.
Proof. done. Qed.

(** * What skills match *)

Definition action_fits (w : Want) (s : Skills) : Prop := op_action (operation_ w) = "" ∨ op_action (operation_ w) ∈ actions_ s.
Definition uri_fits (scheme data : string) (s : Skills) : Prop :=
  if bool_decide (schemes_ s = []) then types_ s = [] ∨ scheme ∈ [""; "content"; "file"]
  else scheme ∈ schemes_ s ∧
    (HasSchemeSpecificPart (GetSchemeSpecificPart data) s = true ∨
     GetAuthority data ∈ authorities_ s ∧ (paths_ s = [] ∨ HasPath (GetPath data) s = true)).
Definition known_type (type : string) (s : Skills) : Prop :=
  HasType type s = true ∨ type = "*/*" ∨ hasPartialTypes_ s = true ∧ HasType "*" s = true.
Definition type_fits (type : string) (s : Skills) : Prop :=
  if bool_decide (types_ s = []) then type = "" else type ≠ "" ∧ known_type type s.
(** The wants for whose type the null pointer is searched. *)
Definition type_unknown (w : Want) (s : Skills) : Prop :=
  action_fits w s ∧ uri_fits (want_scheme w) (op_uri (operation_ w)) s ∧ types_ s ≠ [] ∧ want_type w ≠ "" ∧
  ¬ known_type (want_type w) s.

Lemma match_scheme_fits scheme data s : (schemes_ s = [] → types_ s ≠ []) →
  (match_scheme scheme data s = DISMATCH_DATA ∧ ¬ uri_fits scheme data s) ∨ (0 < match_scheme scheme data s ∧ uri_fits scheme data s).
Proof.
  intros Ht. unfold match_scheme, uri_fits. destruct (schemes_ s) as [|x l] eqn:E.
  - rewrite (bool_decide_eq_true_2 ([] = [])) by done. case_bool_decide as Hin; [by right; split; [|right]|].
    left. split; [done|]. specialize (Ht eq_refl). tauto.
  - rewrite (bool_decide_eq_false_2 (_ :: _ = [])) by done. unfold HasScheme, HasAuthority. rewrite E. case_bool_decide as Hin; cbn [negb]; [|by left; split; [|tauto]].
    destruct (HasSchemeSpecificPart _ s) eqn:Es; [right; split; [done|tauto]|].
    case_bool_decide as Ha; [|left; split; [done|]; intros (_ & [?|[? _]]); done].
    destruct (paths_ s) as [|y m] eqn:Ep; [right; split; [done|tauto]|].
    destruct (HasPath _ s) eqn:Eh; [right; split; [done|tauto]|].
    left. split; [done|]. intros (_ & [?|[_ [?|?]]]); done.
Qed.

Lemma FindMimeType_spec type s : types_ s ≠ [] →
  (type = "" ∧ FindMimeType type s = Returned false) ∨
  (type ≠ "" ∧ known_type type s ∧ FindMimeType type s = Returned true) ∨
  (type ≠ "" ∧ ¬ known_type type s ∧ FindMimeType type s = Thrown).
Proof.
  intros Ht. unfold FindMimeType, known_type. destruct (String.eqb_spec type ""); [by left|]. right.
  destruct (HasType type s); [left; by split_and!; [|left|]|]. destruct (String.eqb_spec type "*/*").
  { left. split_and!; [done|tauto|]. by rewrite bool_decide_eq_false_2. }
  destruct (hasPartialTypes_ s), (HasType "*" s); cbn; [left; split_and!; [done|tauto|done]|right..]; split_and!; try done; naive_solver.
Qed.

Lemma MatchData_spec type scheme data s :
  let unknown := uri_fits scheme data s ∧ types_ s ≠ [] ∧ type ≠ "" ∧ ¬ known_type type s in
  (unknown ∧ MatchData type scheme data s = Thrown) ∨
  (¬ unknown ∧ ∃ z, MatchData type scheme data s = Returned z ∧ (0 ≤ z ↔ uri_fits scheme data s ∧ type_fits type s)).
Proof.
  cbv zeta. unfold MatchData. destruct (types_ s) as [|x l] eqn:Et; [destruct (schemes_ s) as [|y m] eqn:Es|].
  - right. split; [tauto|]. eexists. split; [done|]. unfold uri_fits, type_fits. rewrite Es, Et, !bool_decide_eq_true_2 by done.
    destruct (String.eqb_spec type ""); split; (try done); [by split; [left|]|]. by intros [_ ?].
  - right. split; [tauto|]. unfold type_fits. rewrite Et, bool_decide_eq_true_2 by done.
    destruct (match_scheme_fits scheme data s) as [[-> Hu]|[Hpos Hu]]; [by rewrite Es| |].
    { rewrite Z.eqb_refl. eexists. split; [done|]. split; [done|tauto]. }
    destruct (Z.eqb_spec (match_scheme scheme data s) DISMATCH_DATA) as [E|_]; [rewrite E in Hpos; done|].
    eexists. split; [done|]. destruct (String.eqb_spec type ""); split; try done; [unfold RESULT_NORMAL; lia|tauto].
  - destruct (match_scheme_fits scheme data s) as [[-> Hu]|[Hpos Hu]]; [by rewrite Et| |].
    { right. split; [tauto|]. rewrite Z.eqb_refl. destruct (schemes_ s); (eexists; split; [done|]); split; (try done); tauto. }
    assert (types_ s ≠ []) as Hne by by rewrite Et.
    destruct (Z.eqb_spec (match_scheme scheme data s) DISMATCH_DATA) as [E|_]; [rewrite E in Hpos; done|].
    unfold type_fits. rewrite Et, bool_decide_eq_false_2 by done.
    destruct (FindMimeType_spec type s Hne) as [[-> ->]|[(Hn & Hk & ->)|(Hn & Hk & ->)]];
      [right; split; [by intros (_ & _ & ? & _)|]|right; split; [tauto|]|left; split; [by split_and!|by destruct (schemes_ s)]].
    + exists DISMATCH_TYPE. split; [by destruct (schemes_ s)|]. split; [done|]. by intros (_ & ? & _).
    + exists (RESULT_TYPE + RESULT_NORMAL). split; [by destruct (schemes_ s)|]. split; [tauto|done].
Qed.

Lemma MatchEntities_spec l s : "" ∉ entities_ s → MatchEntities l s ≠ "" ↔ ∃ e, e ∈ l ∧ e ∈ entities_ s.
Proof.
  intros Hne. unfold MatchEntities. destruct (List.find _ l) as [e|] eqn:E.
  - apply find_Some_elem in E as [Hin He]. unfold HasEntity in He. apply bool_decide_eq_true in He.
    change (default "" (Some e)) with e. split; [by exists e|]. intros _ ->. done.
  - split; [done|]. intros (e & Hin & He). pose proof (find_None_elem _ _ _ E Hin) as H. unfold HasEntity in H. by apply bool_decide_eq_false in H.
Qed.

(** C21: a want fits skills exactly when it has no action or one of theirs, its
    scheme, its data and its type are ones of theirs, and at least one of its entities
    is: a want without entities fits none, where the documentation asks that no entity
    be missing. A type that the skills do not have as it stands makes the code search a
    null pointer, before the entities are looked at. *)
Theorem Match_spec w s : "" ∉ entities_ s →
  (type_unknown w s → Match w s = Thrown) ∧
  (¬ type_unknown w s → ∃ b, Match w s = Returned b ∧
    (b = true ↔ action_fits w s ∧ uri_fits (want_scheme w) (op_uri (operation_ w)) s ∧ type_fits (want_type w) s ∧
      ∃ e, e ∈ op_entities (operation_ w) ∧ e ∈ entities_ s)).
Proof.
  intros Hne. unfold type_unknown, Match, MatchAction, HasAction, action_fits.
  destruct (String.eqb_spec (op_action (operation_ w)) "") as [Ha|Ha]; [|case_bool_decide as Hin]; cbn [negb andb].
  3: { split; [tauto|]. intros _. exists false. split; [done|]. split; [done|tauto]. }
  all: destruct (MatchData_spec (want_type w) (want_scheme w) (op_uri (operation_ w)) s) as [[Hu ->]|(Hu & z & -> & Hz)];
    [split; [done|tauto]|]; (split; [tauto|]); intros _; cbn [mbind outcome_bind]; eexists; (split; [done|]);
    destruct (z <? 0) eqn:Ez; [apply Z.ltb_lt in Ez; split; [done|]; intros (_ & ? & ? & _); assert (0 ≤ z) by tauto; lia|
      apply Z.ltb_ge in Ez; rewrite negb_true_iff, String.eqb_neq, MatchEntities_spec by done; tauto].
Qed.

Definition photo_skills : Skills := AddType "image/png" (AddEntity "entity.home" (AddAction "view" new_skills)).
Definition photo_want (entities : list string) (type : string) : Want :=
  mkWant (mkOperation "" "view" "" "" "" entities 0 "") {[MIME_TYPE := VString type]}.
Lemma Match_spec_witness :
  (∃ b, Match (photo_want ["entity.home"] "image/png") photo_skills = Returned b ∧ b = true) ∧
  (∃ b, Match (photo_want [] "image/png") photo_skills = Returned b ∧ b = false) ∧
  Match (photo_want ["entity.home"] "text/plain") photo_skills = Thrown.
Proof.
  split_and!.
  - destruct (Match_spec (photo_want ["entity.home"] "image/png") photo_skills) as [_ H]; [by vm_compute; intros ?%list_elem_of_singleton|].
    destruct H as (b & E & Hb); [by intros (_ & _ & _ & _ & H); apply H; left|]. exists b. split; [exact E|]. apply Hb.
    split; [right; left|]. split; [right; left|]. split; [split; [done|by left]|]. exists "entity.home". split; left.
  - destruct (Match_spec (photo_want [] "image/png") photo_skills) as [_ H]; [by vm_compute; intros ?%list_elem_of_singleton|].
    destruct H as (b & E & Hb); [by intros (_ & _ & _ & _ & H); apply H; left|]. exists b. split; [exact E|].
    destruct b; [|done]. by destruct (proj1 Hb eq_refl) as (_ & _ & _ & e & He%elem_of_nil & _).
  - apply (Match_spec (photo_want ["entity.home"] "text/plain") photo_skills); [by vm_compute; intros ?%list_elem_of_singleton|].
    split; [right; left|]. split; [right; left|]. split; [done|]. split; [done|]. intros [H|[H|[H _]]]; vm_compute in H; done.
Defined.
