(* ===== verification/MissionData.v ===== *)
(** The persistent form of a mission
    (services/abilitymgr/src/inner_mission_info.cpp,
    mission_data_storage.cpp, task_data_persistence_mgr.cpp):
    [InnerMissionInfo] with its JSON conversion, [MissionDataStorage] with its
    file names and file operations, and [TaskDataPersistenceMgr], which posts
    the storage operations to an event handler.

    [nlohmann::json] text ([dump]/[parse]), HiviewDFX [FileUtil], the event
    handler and the pixel maps are code outside the repository: the class
    [FileUtil] and the arguments of the definitions stand for them.  The class
    [MissionStore] is what the mission info manager needs from the
    persistence manager; its instance is at the end of the file. *)

From S2P Require Import Prelude CppString Want.
From Stdlib Require Import Ascii.

#[local] Open Scope stdpp_scope.
#[local] Open Scope Z_scope.

(** * Data *)

Record MissionInfo := mkMissionInfo {
  mi_id : Z;
  mi_runningState : Z;
  mi_lockedState : bool;
  mi_continuable : bool;
  mi_time : string;
  mi_label : string;
  mi_iconPath : string;
  mi_want : Want;
}.

(** [enum class StartMethod]. *)
Definition START_NORMAL : Z := 0.
Definition START_CALL : Z := 1.

Record InnerMissionInfo := mkInner {
  missionInfo : MissionInfo;
  missionName : string;
  isSingletonMode : bool;
  startMethod : Z;
  im_bundleName : string;
  im_uid : Z;
}.

Definition info_id (i : InnerMissionInfo) : Z := mi_id (missionInfo i).
Definition info_time (i : InnerMissionInfo) : string := mi_time (missionInfo i).

Definition update_info (f : MissionInfo → MissionInfo) (i : InnerMissionInfo) : InnerMissionInfo :=
  mkInner (f (missionInfo i)) (missionName i) (isSingletonMode i) (startMethod i)
    (im_bundleName i) (im_uid i).

Definition set_time (t : string) (i : InnerMissionInfo) : InnerMissionInfo :=
  update_info (λ m, mkMissionInfo (mi_id m) (mi_runningState m) (mi_lockedState m)
    (mi_continuable m) t (mi_label m) (mi_iconPath m) (mi_want m)) i.

Definition set_label (l : string) (i : InnerMissionInfo) : InnerMissionInfo :=
  update_info (λ m, mkMissionInfo (mi_id m) (mi_runningState m) (mi_lockedState m)
    (mi_continuable m) (mi_time m) l (mi_iconPath m) (mi_want m)) i.

Definition set_runningState (r : Z) (i : InnerMissionInfo) : InnerMissionInfo :=
  update_info (λ m, mkMissionInfo (mi_id m) r (mi_lockedState m)
    (mi_continuable m) (mi_time m) (mi_label m) (mi_iconPath m) (mi_want m)) i.

Definition set_lockedState (b : bool) (i : InnerMissionInfo) : InnerMissionInfo :=
  update_info (λ m, mkMissionInfo (mi_id m) (mi_runningState m) b
    (mi_continuable m) (mi_time m) (mi_label m) (mi_iconPath m) (mi_want m)) i.

(** * JSON *)

(** The JSON values of the files the code writes (it writes integral numbers
    only). *)
Inductive JsonVal := JString (s : string) | JBool (b : bool) | JNumber (z : Z).

Definition ToJson (i : InnerMissionInfo) : gmap string JsonVal :=
  let m := missionInfo i in
  <["MissionName" := JString (missionName i)]>
  (<["IsSingleton" := JBool (isSingletonMode i)]>
  (<["BundleName" := JString (im_bundleName i)]>
  (<["StartMethod" := JNumber (startMethod i)]>
  (<["Uid" := JNumber (im_uid i)]>
  (<["MissionId" := JNumber (mi_id m)]>
  (<["RunningState" := JNumber (mi_runningState m)]>
  (<["LockedState" := JBool (mi_lockedState m)]>
  (<["Continuable" := JBool (mi_continuable m)]>
  (<["Time" := JString (mi_time m)]>
  (<["Label" := JString (mi_label m)]>
  (<["IconPath" := JString (mi_iconPath m)]>
  {["Want" := JString (ToUri None (mi_want m))]}))))))))))).

(** [CheckJsonNode] and the [get<T>()] that follows it. *)
Definition json_string (v : gmap string JsonVal) (node : string) : option string :=
  match v !! node with Some (JString s) => Some s | _ => None end.
Definition json_bool (v : gmap string JsonVal) (node : string) : option bool :=
  match v !! node with Some (JBool b) => Some b | _ => None end.
Definition json_int32 (v : gmap string JsonVal) (node : string) : option Z :=
  match v !! node with Some (JNumber z) => Some (wrap_i32 z) | _ => None end.

Definition defaultMissionInfo : MissionInfo :=
  mkMissionInfo (-1) (-1) false false "" "" "" emptyWant.

Section json.
(** [Want::ParseUri] with the fuel and the parameters of its model. *)
Context (parse_uri : string → outcome (option Want)).

(** [InnerMissionInfo::FromJsonStr] on a freshly constructed object; [None]
    where it returns false.  A want that does not parse leaves the default
    want in place. *)
Definition FromJson (value : gmap string JsonVal) : outcome (option InnerMissionInfo) :=
  match json_string value "MissionName", json_bool value "IsSingleton",
        json_int32 value "StartMethod", json_string value "BundleName",
        json_int32 value "Uid", json_int32 value "MissionId",
        json_int32 value "RunningState", json_bool value "LockedState",
        json_bool value "Continuable", json_string value "Time",
        json_string value "Label", json_string value "IconPath",
        json_string value "Want" with
  | Some name, Some single, Some start, Some bundle, Some uid, Some id,
    Some running, Some locked, Some continuable, Some time, Some label,
    Some icon, Some uri =>
      want ← parse_uri uri;
      Returned (Some (mkInner
        (mkMissionInfo id running locked continuable time label icon
           (default emptyWant want))
        name single start bundle uid))
  | _, _, _, _, _, _, _, _, _, _, _, _, _ => Returned None
  end.
End json.

(** A 32-bit value. *)
Definition is_i32 (z : Z) : Prop := -2147483648 ≤ z ≤ INT_MAX.

(** * File names *)

Definition TASK_DATA_FILE_BASE_PATH : string := "/data/service/el1/public/AbilityManagerService".
Definition MISSION_DATA_FILE_PATH : string := "MissionInfo".
Definition MISSION_JSON_FILE_PREFIX : string := "mission".
Definition JSON_FILE_SUFFIX : string := ".json".
Definition PNG_FILE_SUFFIX : string := ".png".

Definition GetMissionDataDirPath (userId : Z) : string :=
  TASK_DATA_FILE_BASE_PATH +:+ "/" +:+ pretty userId +:+ "/" +:+ MISSION_DATA_FILE_PATH.

(** [std::to_string] of an [int]. *)
Definition mission_file_name (missionId : Z) (suffix : string) : string :=
  MISSION_JSON_FILE_PREFIX +:+ "_" +:+ pretty (wrap_i32 missionId) +:+ suffix.

Definition GetMissionDataFilePath (userId missionId : Z) : string :=
  GetMissionDataDirPath userId +:+ "/" +:+ mission_file_name missionId JSON_FILE_SUFFIX.

Definition GetMissionSnapshotPath (userId missionId : Z) : string :=
  GetMissionDataDirPath userId +:+ "/" +:+ mission_file_name missionId PNG_FILE_SUFFIX.

Fixpoint all_digits (s : string) : bool :=
  match s with "" => true | String c s' => is_digit c && all_digits s' end.

(** [CheckFileNameValid] after [ExtractFileName]; positions and lengths are
    [size_t]. *)
Definition CheckFileNameValid (name : string) : bool :=
  if negb (str_find MISSION_JSON_FILE_PREFIX name =? 0) then false
  else if negb (str_find "_" name =? Z.of_nat (String.length MISSION_JSON_FILE_PREFIX)) then false
  else if negb (str_find JSON_FILE_SUFFIX name =?
                size_sub (Z.of_nat (String.length name)) (Z.of_nat (String.length JSON_FILE_SUFFIX)))
  then false
  else
    let missionIdLength :=
      size_sub (size_sub (str_find JSON_FILE_SUFFIX name) (str_find "_" name)) 1 in
    all_digits (str_take (Z.to_nat missionIdLength)
                  (str_drop (Z.to_nat (str_find "_" name + 1)) name)).

(** * The file system and the storage of one user *)

(** HiviewDFX [FileUtil] and libpng's writer on a state [FS] of the file
    system. *)
Class FileUtil (FS PixelMap : Type) := {
  GetDirFiles : string → FS → list string;
  LoadStringFromFile : string → FS → option string;
  FileExists : string → FS → bool;
  ForceCreateDirectory : string → FS → FS * bool;
  SaveStringToFile : string → string → FS → FS * bool;
  RemoveFile : string → FS → FS * bool;
  ForceRemoveDirectory : string → FS → FS * bool;
  ExtractFilePath : string → string;
  ExtractFileName : string → string;
  WritePng : string → bool → PixelMap → FS → FS;
  ReadPng : string → FS → option PixelMap;
}.

Record MissionSnapshot (PixelMap : Type) := mkSnapshot {
  topAbility : ElementName;
  snapshot : option PixelMap;
  isPrivate : bool;
}.
Arguments mkSnapshot {_} _ _ _.
Arguments topAbility {_} _.
Arguments snapshot {_} _.
Arguments isPrivate {_} _.

Record MissionDataStorage (PixelMap : Type) := mkStorage {
  st_userId : Z;
  cachedPixelMap_ : gmap Z (option PixelMap);
}.
Arguments mkStorage {_} _ _.
Arguments st_userId {_} _.
Arguments cachedPixelMap_ {_} _.

Section storage.
Context {FS PixelMap : Type} `{!FileUtil FS PixelMap}.
Context (json_dump : gmap string JsonVal → string).
Context (json_parse : string → option (gmap string JsonVal)).
Context (parse_uri : string → outcome (option Want)).

#[local] Abbreviation storage := (MissionDataStorage PixelMap).

Definition FromJsonStr (s : string) : outcome (option InnerMissionInfo) :=
  match json_parse s with
  | None => Returned None
  | Some v => FromJson parse_uri v
  end.

Definition ToJsonStr (i : InnerMissionInfo) : string := json_dump (ToJson i).

(** One iteration of the loop of [LoadAllMissionInfo]. *)
Definition load_file (fs : FS) (fileName : string) : outcome (option InnerMissionInfo) :=
  if CheckFileNameValid (ExtractFileName fileName) then
    match LoadStringFromFile fileName fs with
    | None => Returned None
    | Some content => FromJsonStr content
    end
  else Returned None.

Fixpoint load_files (fs : FS) (files : list string) (acc : list InnerMissionInfo)
    : outcome (list InnerMissionInfo) :=
  match files with
  | [] => Returned acc
  | f :: files' =>
      r ← load_file fs f;
      load_files fs files' (match r with Some i => acc ++ [i] | None => acc end)
  end.

(** [LoadAllMissionInfo]: always true, the infos pushed at the end of the
    list it is given. *)
Definition Storage_LoadAllMissionInfo (st : storage) (fs : FS) (acc : list InnerMissionInfo)
    : outcome (list InnerMissionInfo) :=
  load_files fs (GetDirFiles (GetMissionDataDirPath (st_userId st)) fs) acc.

Definition Storage_SaveMissionInfo (st : storage) (i : InnerMissionInfo) (fs : FS) : FS :=
  let filePath := GetMissionDataFilePath (st_userId st) (info_id i) in
  let dirPath := ExtractFilePath filePath in
  let '(fs1, ok) :=
    if FileExists dirPath fs then (fs, true) else ForceCreateDirectory dirPath fs in
  if ok : bool then fst (SaveStringToFile filePath (ToJsonStr i) fs1) else fs1.

Definition DeleteMissionSnapshot (st : storage) (missionId : Z) (fs : FS) : FS :=
  let filePath := GetMissionSnapshotPath (st_userId st) missionId in
  if FileExists filePath fs then fst (RemoveFile filePath fs) else fs.

Definition Storage_DeleteMissionInfo (st : storage) (missionId : Z) (fs : FS) : FS :=
  let '(fs1, ok) := RemoveFile (GetMissionDataFilePath (st_userId st) missionId) fs in
  if ok : bool then DeleteMissionSnapshot st missionId fs1 else fs1.

Definition GetCachedSnapshot (st : storage) (missionId : Z) (s : MissionSnapshot PixelMap)
    : bool * MissionSnapshot PixelMap :=
  match cachedPixelMap_ st !! missionId with
  | Some p => (true, mkSnapshot (topAbility s) p (isPrivate s))
  | None => (false, s)
  end.

(** [insert_or_assign], whose [second] is true for an insertion only. *)
Definition SaveCachedSnapshot (st : storage) (missionId : Z) (s : MissionSnapshot PixelMap)
    : bool * storage :=
  (bool_decide (cachedPixelMap_ st !! missionId = None),
   mkStorage (st_userId st) (<[missionId := snapshot s]> (cachedPixelMap_ st))).

Definition DeleteCachedSnapshot (st : storage) (missionId : Z) : bool * storage :=
  (bool_decide (is_Some (cachedPixelMap_ st !! missionId)),
   mkStorage (st_userId st) (delete missionId (cachedPixelMap_ st))).

(** [SaveSnapshotFile] dereferences the pixel map: [None] for a null one. *)
Definition SaveSnapshotFile (st : storage) (missionId : Z) (s : MissionSnapshot PixelMap)
    (fs : FS) : option FS :=
  let filePath := GetMissionSnapshotPath (st_userId st) missionId in
  let dirPath := ExtractFilePath filePath in
  let '(fs1, ok) :=
    if FileExists dirPath fs then (fs, true) else ForceCreateDirectory dirPath fs in
  if ok : bool then
    p ← snapshot s;
    Some (WritePng filePath (isPrivate s) p fs1)
  else Some fs1.

Definition Storage_SaveMissionSnapshot (st : storage) (missionId : Z)
    (s : MissionSnapshot PixelMap) (fs : FS) : option (storage * FS) :=
  let st1 := snd (SaveCachedSnapshot st missionId s) in
  fs1 ← SaveSnapshotFile st1 missionId s fs;
  Some (snd (DeleteCachedSnapshot st1 missionId), fs1).

Definition GetPixelMap (st : storage) (missionId : Z) (fs : FS) : option PixelMap :=
  let filePath := GetMissionSnapshotPath (st_userId st) missionId in
  if FileExists filePath fs then ReadPng filePath fs else None.

Definition Storage_GetMissionSnapshot (st : storage) (missionId : Z)
    (s : MissionSnapshot PixelMap) (fs : FS) : bool * MissionSnapshot PixelMap :=
  match GetCachedSnapshot st missionId s with
  | (true, s') => (true, s')
  | (false, _) =>
      match GetPixelMap st missionId fs with
      | None => (false, s)
      | Some p => (true, mkSnapshot (topAbility s) (Some p) (isPrivate s))
      end
  end.
End storage.

(** * The persistence manager *)

(** The closures posted to the handler of [TaskDataPersistenceMgr], with the
    user whose storage they captured. *)
Inductive StorageTask (PixelMap : Type) :=
  | TSave (userId : Z) (i : InnerMissionInfo)
  | TDelete (userId missionId : Z)
  | TSaveSnapshot (userId missionId : Z) (s : MissionSnapshot PixelMap).
Arguments TSave {_} _ _.
Arguments TDelete {_} _ _.
Arguments TSaveSnapshot {_} _ _ _.

Record TaskDataPersistenceMgr (FS PixelMap : Type) := mkTDPM {
  tdpm_eventLoop : bool;
  tdpm_handler : bool;
  missionDataStorageMgr_ : gmap Z (MissionDataStorage PixelMap);
  currentMissionDataStorage_ : option Z;  (* the user of the current storage *)
  currentUserId_ : Z;
  tdpm_posted : list (StorageTask PixelMap);
  tdpm_fs : FS;
}.
Arguments mkTDPM {_ _} _ _ _ _ _ _ _.
Arguments tdpm_eventLoop {_ _} _.
Arguments tdpm_handler {_ _} _.
Arguments missionDataStorageMgr_ {_ _} _.
Arguments currentMissionDataStorage_ {_ _} _.
Arguments currentUserId_ {_ _} _.
Arguments tdpm_posted {_ _} _.
Arguments tdpm_fs {_ _} _.

Section persistence.
Context {FS PixelMap : Type} `{!FileUtil FS PixelMap}.
Context (json_dump : gmap string JsonVal → string).
Context (json_parse : string → option (gmap string JsonVal)).
Context (parse_uri : string → outcome (option Want)).
(** [EventRunner::Create] and [EventHandler::PostTask]. *)
Context (runner_create : bool).
Context (post_task : list (StorageTask PixelMap) → StorageTask PixelMap → bool).

#[local] Abbreviation mgr := (TaskDataPersistenceMgr FS PixelMap).

Definition TDPM_new (fs : FS) : mgr := mkTDPM false false ∅ None (-1) [] fs.

Definition TDPM_Init (userId : Z) (m : mgr) : bool * mgr :=
  if negb (tdpm_eventLoop m) && negb runner_create then (false, m)
  else
    let storages :=
      match missionDataStorageMgr_ m !! userId with
      | None => <[userId := mkStorage userId ∅]> (missionDataStorageMgr_ m)
      | Some _ => missionDataStorageMgr_ m
      end in
    (true, mkTDPM true true storages (Some userId) userId (tdpm_posted m) (tdpm_fs m)).

Definition TDPM_post (t : StorageTask PixelMap) (m : mgr) : bool * mgr :=
  (post_task (tdpm_posted m) t,
   mkTDPM (tdpm_eventLoop m) (tdpm_handler m) (missionDataStorageMgr_ m)
     (currentMissionDataStorage_ m) (currentUserId_ m)
     (if post_task (tdpm_posted m) t then tdpm_posted m ++ [t] else tdpm_posted m)
     (tdpm_fs m)).

Definition TDPM_SaveMissionInfo (i : InnerMissionInfo) (m : mgr) : bool * mgr :=
  match tdpm_handler m, currentMissionDataStorage_ m with
  | true, Some u => TDPM_post (TSave u i) m
  | _, _ => (false, m)
  end.

Definition TDPM_DeleteMissionInfo (missionId : Z) (m : mgr) : bool * mgr :=
  match tdpm_handler m, currentMissionDataStorage_ m with
  | true, Some u => TDPM_post (TDelete u missionId) m
  | _, _ => (false, m)
  end.

Definition TDPM_SaveMissionSnapshot (missionId : Z) (s : MissionSnapshot PixelMap) (m : mgr)
    : bool * mgr :=
  match tdpm_handler m, currentMissionDataStorage_ m with
  | true, Some u => TDPM_post (TSaveSnapshot u missionId s) m
  | _, _ => (false, m)
  end.

Definition current_storage (m : mgr) : option (MissionDataStorage PixelMap) :=
  u ← currentMissionDataStorage_ m; missionDataStorageMgr_ m !! u.

Definition TDPM_LoadAllMissionInfo (acc : list InnerMissionInfo) (m : mgr)
    : outcome (option (list InnerMissionInfo)) :=
  match current_storage m with
  | None => Returned None
  | Some st =>
      l ← Storage_LoadAllMissionInfo json_parse parse_uri st (tdpm_fs m) acc;
      Returned (Some l)
  end.

Definition TDPM_GetMissionSnapshot (missionId : Z) (s : MissionSnapshot PixelMap) (m : mgr)
    : bool * MissionSnapshot PixelMap :=
  match current_storage m with
  | None => (false, s)
  | Some st => Storage_GetMissionSnapshot st missionId s (tdpm_fs m)
  end.

Definition TDPM_RemoveUserDir (userId : Z) (m : mgr) : bool * mgr :=
  if currentUserId_ m =? userId then (false, m)
  else
    let '(fs, ok) := ForceRemoveDirectory
      (TASK_DATA_FILE_BASE_PATH +:+ "/" +:+ pretty userId) (tdpm_fs m) in
    (ok, mkTDPM (tdpm_eventLoop m) (tdpm_handler m) (missionDataStorageMgr_ m)
           (currentMissionDataStorage_ m) (currentUserId_ m) (tdpm_posted m) fs).

(** A posted closure runs on the handler's thread: [None] where it
    dereferences a null pixel map. *)
Definition run_task (t : StorageTask PixelMap) (m : mgr) : option mgr :=
  let set_fs fs := mkTDPM (tdpm_eventLoop m) (tdpm_handler m) (missionDataStorageMgr_ m)
    (currentMissionDataStorage_ m) (currentUserId_ m) (tdpm_posted m) fs in
  match t with
  | TSave u i =>
      Some match missionDataStorageMgr_ m !! u with
           | Some st => set_fs (Storage_SaveMissionInfo json_dump st i (tdpm_fs m))
           | None => m
           end
  | TDelete u id =>
      Some match missionDataStorageMgr_ m !! u with
           | Some st => set_fs (Storage_DeleteMissionInfo st id (tdpm_fs m))
           | None => m
           end
  | TSaveSnapshot u id s =>
      match missionDataStorageMgr_ m !! u with
      | Some st =>
          r ← Storage_SaveMissionSnapshot st id s (tdpm_fs m);
          Some (mkTDPM (tdpm_eventLoop m) (tdpm_handler m)
            (<[u := fst r]> (missionDataStorageMgr_ m)) (currentMissionDataStorage_ m)
            (currentUserId_ m) (tdpm_posted m) (snd r))
      | None => Some m
      end
  end.

(** What happens to the manager beside the calls of the mission info manager: the
    handler runs the oldest posted closure, and the directory of a user is removed. *)
Definition set_posted (q : list (StorageTask PixelMap)) (m : mgr) : mgr :=
  mkTDPM (tdpm_eventLoop m) (tdpm_handler m) (missionDataStorageMgr_ m)
    (currentMissionDataStorage_ m) (currentUserId_ m) q (tdpm_fs m).

Inductive TDPM_background : mgr → mgr → Prop :=
  | background_task t q m m' :
      tdpm_posted m = t :: q → run_task t (set_posted q m) = Some m' → TDPM_background m m'
  | background_remove u m : TDPM_background m (snd (TDPM_RemoveUserDir u m)).
End persistence.

(** * The interface of the mission info manager *)

Class MissionStore (S PixelMap : Type) := {
  store_init : Z → S → bool * S;
  store_load : list InnerMissionInfo → S → outcome (option (list InnerMissionInfo));
  store_save : InnerMissionInfo → S → bool * S;
  store_delete : Z → S → bool * S;
  store_save_snapshot : Z → MissionSnapshot PixelMap → S → bool * S;
  store_get_snapshot : Z → MissionSnapshot PixelMap → S → bool * MissionSnapshot PixelMap;
}.

Definition TaskData_store {FS PixelMap} `{!FileUtil FS PixelMap}
    (json_parse : string → option (gmap string JsonVal))
    (parse_uri : string → outcome (option Want)) (runner_create : bool)
    (post_task : list (StorageTask PixelMap) → StorageTask PixelMap → bool)
    : MissionStore (TaskDataPersistenceMgr FS PixelMap) PixelMap := {|
  store_init := TDPM_Init runner_create;
  store_load := TDPM_LoadAllMissionInfo json_parse parse_uri;
  store_save := TDPM_SaveMissionInfo post_task;
  store_delete := TDPM_DeleteMissionInfo post_task;
  store_save_snapshot := TDPM_SaveMissionSnapshot post_task;
  store_get_snapshot := TDPM_GetMissionSnapshot;
|}.

(** * Lemmas on file names *)

Lemma all_digits_elem c s : all_digits s = true → is_digit c = false → str_elem c s = false.
Proof.
  induction s as [|d s IH]; [done|]. cbn. intros H Hc. bool_to_prop.
  rewrite IH, orb_false_r by done. apply bool_decide_eq_false. intros ->. congruence.
Qed.

Lemma all_digits_app s1 s2 : all_digits (s1 +:+ s2) = all_digits s1 && all_digits s2.
Proof.
  induction s1 as [|a s1 IH]; [done|]. rewrite app_cons_str. cbn. by rewrite IH, andb_assoc.
Qed.

Lemma pretty_N_char_digit x : is_digit (pretty_N_char x) = true.
Proof. unfold pretty_N_char. by repeat case_match. Qed.

Lemma all_digits_pretty_go x s :
  all_digits s = true → all_digits (pretty_N_go x s) = true.
Proof.
  revert s. induction (N.lt_wf_0 x) as [x _ IH]. intros s Hs.
  destruct (decide (0 < x)%N) as [Hx|Hx].
  - rewrite pretty_N_go_step by done. apply IH; [by apply N.div_lt|].
    cbn. by rewrite pretty_N_char_digit.
  - replace x with 0%N by lia. by rewrite pretty_N_go_0.
Qed.

Lemma all_digits_pretty (z : Z) : 0 ≤ z → all_digits (pretty z) = true.
Proof.
  destruct z as [|p|p]; [done| |done]. intros _.
  change (pretty (Z.pos p)) with (pretty (Npos p)). unfold pretty, pretty_N.
  destruct (decide _); [done|]. by apply all_digits_pretty_go.
Qed.

Lemma pretty_neg z : z < 0 → ∃ s, pretty z = String "-" s.
Proof. destruct z; try done. by eexists. Qed.

Lemma no_char_pretty c (z : Z) :
  is_digit c = false → c ≠ "-"%char → str_elem c (pretty z) = false.
Proof.
  intros Hc Hne. destruct (decide (0 ≤ z)) as [Hz|Hz].
  - apply all_digits_elem; [|done]. by apply all_digits_pretty.
  - destruct z as [|p|p]; [lia|lia|].
    change (pretty (Z.neg p)) with (String "-" (pretty (Npos p))).
    cbn [str_elem]. rewrite bool_decide_false by done.
    apply all_digits_elem; [|done]. by apply (all_digits_pretty (Z.pos p)).
Qed.

Lemma mission_file_name_split id suffix :
  mission_file_name id suffix = "mission" +:+ String "_" (pretty (wrap_i32 id) +:+ suffix).
Proof. unfold mission_file_name, MISSION_JSON_FILE_PREFIX. by autorewrite with aafwk. Qed.

Lemma length_pretty_go k x s :
  (x < 10 ^ N.of_nat k)%N → (String.length (pretty_N_go x s) ≤ k + String.length s)%nat.
Proof.
  revert x s. induction k as [|k IH]; intros x s Hx.
  - replace x with 0%N by (simpl in Hx; lia). by rewrite pretty_N_go_0.
  - destruct (decide (0 < x)%N) as [Hp|Hp].
    + rewrite pretty_N_go_step by done. etransitivity; [apply IH|simpl; lia].
      rewrite Nat2N.inj_succ, N.pow_succ_r' in Hx. apply N.Div0.div_lt_upper_bound. lia.
    + replace x with 0%N by lia. rewrite pretty_N_go_0. lia.
Qed.

Lemma length_pretty_i32 z : is_i32 z → (String.length (pretty z) ≤ 11)%nat.
Proof.
  unfold is_i32, INT_MAX. intros Hz.
  assert (∀ p, Z.pos p < 10 ^ 10 → (String.length (pretty (N.pos p)) ≤ 10)%nat) as Hp.
  { intros p Hp. unfold pretty, pretty_N. destruct (decide _); [simpl; lia|].
    etransitivity; [apply (length_pretty_go 10)|simpl; lia]. simpl. lia. }
  destruct z as [|p|p]; [simpl; lia|..].
  - etransitivity; [apply (Hp p); simpl; lia|lia].
  - change (pretty (Z.neg p)) with (String "-" (pretty (N.pos p))). cbn [String.length].
    specialize (Hp p ltac:(simpl; lia)). lia.
Qed.

Lemma check_mission_file_name id :
  CheckFileNameValid (mission_file_name id JSON_FILE_SUFFIX) = all_digits (pretty (wrap_i32 id)).
Proof.
  pose proof (length_pretty_i32 _ (wrap_i32_range id)) as Hlen. rewrite mission_file_name_split. unfold CheckFileNameValid, JSON_FILE_SUFFIX.
  set (p := pretty (wrap_i32 id)) in *.
  set (name := "mission" +:+ String "_" (p +:+ ".json")).
  assert (str_find MISSION_JSON_FILE_PREFIX name = 0) as ->.
  { change 0 with (Z.of_nat (String.length "")).
    exact (str_find_app "m" "ission" "" (String "_" (p +:+ ".json")) eq_refl). }
  assert (str_find "_" name = 7) as ->
    by exact (str_find_app "_" "" "mission" (p +:+ ".json") eq_refl).
  assert (str_find ".json" name = 8 + Z.of_nat (String.length p)) as Hdot.
  { pose proof (str_find_app "." "json" ("mission_" +:+ p) "") as Hf.
    rewrite str_elem_app, app_nil_r_str, length_app_str in Hf.
    replace (("mission_" +:+ p) +:+ ".json") with name in Hf by by rewrite app_assoc_str.
    rewrite Hf; [simpl; lia|]. apply no_char_pretty; done. }
  assert (String.length name = (13 + String.length p)%nat) as Hn.
  { unfold name. change (String.length ("mission" +:+ String "_" (p +:+ ".json")))
      with (8 + String.length (p +:+ ".json"))%nat. rewrite length_app_str. simpl. lia. }
  assert (2000 < SIZE_MOD) by done.
  change (String.length ".json") with 5%nat.
  rewrite Hdot, Hn. rewrite (size_sub_small (8 + _) 7) by lia.
  rewrite !size_sub_small by lia.
  assert ((8 + Z.of_nat (String.length p) =? Z.of_nat (13 + String.length p) - Z.of_nat 5) = true)
    as -> by (apply Z.eqb_eq; lia).
  change (String.length MISSION_JSON_FILE_PREFIX) with 7%nat.
  rewrite (proj2 (Z.eqb_eq 7 _)) by lia. cbn [negb Z.eqb].
  replace (8 + Z.of_nat (String.length p) - 7 - 1) with (Z.of_nat (String.length p)) by lia.
  rewrite Nat2Z.id. change (Z.to_nat (7 + 1)) with 8%nat.
  change (str_drop 8 name) with (p +:+ ".json"). by rewrite str_take_app.
Qed.

Lemma FromJson_fields parse_uri i want :
  is_i32 (info_id i) → is_i32 (mi_runningState (missionInfo i)) →
  is_i32 (startMethod i) → is_i32 (im_uid i) →
  parse_uri (ToUri None (mi_want (missionInfo i))) = Returned (Some want) →
  FromJson parse_uri (ToJson i) = Returned (Some
    (update_info (λ m, mkMissionInfo (mi_id m) (mi_runningState m) (mi_lockedState m)
      (mi_continuable m) (mi_time m) (mi_label m) (mi_iconPath m) want) i)).
Proof.
  intros Hid Hrun Hstart Huid Hp.
  unfold FromJson, ToJson, json_string, json_bool, json_int32. destruct i as [mi name single st bn uid].
  destruct mi. cbn [missionInfo missionName isSingletonMode startMethod im_bundleName im_uid
    mi_id mi_runningState mi_lockedState mi_continuable mi_time mi_label mi_iconPath mi_want] in *.
  simplify_map_eq.
  rewrite !wrap_i32_id by done. by rewrite Hp.
Qed.

(** * A JSON library: objects written as numerals *)

#[export] Instance JsonVal_eq_dec : EqDecision JsonVal.
Proof. solve_decision. Defined.

#[export] Instance JsonVal_countable : Countable JsonVal :=
  inj_countable' (λ v, match v with JString s => inl s | JBool b => inr (inl b) | JNumber z => inr (inr z) end)
    (λ v, match v with inl s => JString s | inr (inl b) => JBool b | inr (inr z) => JNumber z end)
    (λ v, match v with JString _ | JBool _ | JNumber _ => eq_refl end).

Fixpoint numeral (p : positive) : string :=
  match p with
  | xH => "}"
  | xO p' => String "0" (numeral p')
  | xI p' => String "1" (numeral p')
  end.

Fixpoint read_numeral (s : string) : option positive :=
  match s with
  | "" => None
  | String c s' =>
      if decide (c = "}"%char) then Some xH
      else if decide (c = "0"%char) then xO <$> read_numeral s' else xI <$> read_numeral s'
  end.

Lemma read_numeral_prefix p s q : String.prefix s (numeral p) = true → read_numeral s = Some q → q = p.
Proof.
  revert s q. induction p as [p IH|p IH|]; intros [|c s] q Hp Hq; try done; simpl in Hp, Hq;
    destruct (ascii_dec c _) as [->|]; try done; cbn in Hq.
  - destruct (read_numeral s) as [q'|] eqn:E; simplify_eq/=. by rewrite (IH _ _ Hp E).
  - destruct (read_numeral s) as [q'|] eqn:E; simplify_eq/=. by rewrite (IH _ _ Hp E).
  - by injection Hq as <-.
Qed.

Lemma read_numeral_numeral p : read_numeral (numeral p) = Some p.
Proof. induction p as [p IH|p IH|]; cbn; [by rewrite IH..|done]. Qed.

Definition demo_dump (v : gmap string JsonVal) : string := numeral (encode v).
Definition demo_parse (s : string) : option (gmap string JsonVal) := p ← read_numeral s; decode p.

Lemma demo_parse_dump v : demo_parse (demo_dump v) = Some v.
Proof. unfold demo_parse, demo_dump. rewrite read_numeral_numeral. cbn. by rewrite decode_encode. Qed.

(** * Claims *)

(** The file names the storage writes are the ones it accepts when it
    loads: the name of a mission's file passes the check exactly when the
    mission id is not negative. *)
Theorem CheckFileNameValid_own id :
  is_i32 id → CheckFileNameValid (mission_file_name id JSON_FILE_SUFFIX) = true ↔ 0 ≤ id.
Proof.
  intros Hid. rewrite check_mission_file_name, wrap_i32_id by done. split; [|apply all_digits_pretty].
  intros Hd. destruct (decide (0 ≤ id)) as [|Hn]; [done|].
  destruct (pretty_neg id) as [s Hs]; [lia|]. by rewrite Hs in Hd.
Qed.

Lemma CheckFileNameValid_own_witness :
  CheckFileNameValid "mission_42.json" = true ↔ 0 ≤ 42.
Proof. apply (CheckFileNameValid_own 42). by unfold is_i32, INT_MAX. Defined.

(** C40: a mission info survives its JSON text: when its numbers are 32-bit
    numbers, its want is one that the printed URI can carry, the URI is parsed with
    fuel for its length and the JSON library reads the object back that it has written,
    [FromJsonStr] gives back every field that [ToJsonStr] writes, the want without the
    uri that [ParseUri] drops. *)
Theorem FromJson_ToJson json_dump json_parse LowerStr OtherParse fuel i :
  json_parse (json_dump (ToJson i)) = Some (ToJson i) →
  (∀ s, no_upper s = true → LowerStr s = s) →
  is_i32 (info_id i) → is_i32 (mi_runningState (missionInfo i)) →
  is_i32 (startMethod i) → is_i32 (im_uid i) →
  printable OtherParse (mi_want (missionInfo i)) →
  (String.length (ToUri None (mi_want (missionInfo i))) ≤ fuel)%nat →
  FromJsonStr json_parse (ParseUri LowerStr OtherParse fuel) (ToJsonStr json_dump i) = Returned (Some
    (update_info (λ m, mkMissionInfo (mi_id m) (mi_runningState m) (mi_lockedState m)
      (mi_continuable m) (mi_time m) (mi_label m) (mi_iconPath m) (drop_uri (mi_want m))) i)).
Proof.
  intros HJ HL Hid Hrun Hstart Huid Hw Hfuel. unfold FromJsonStr, ToJsonStr. rewrite HJ.
  rewrite (FromJson_fields _ _ (drop_uri (mi_want (missionInfo i)))) by
    (done || by apply want_uri_roundtrip). done.
Qed.

Definition sample_info : InnerMissionInfo :=
  mkInner (mkMissionInfo 7 0 true false "2022-01-01" "label" "icon" sample_want)
    "#com.ohos:Main" true START_NORMAL "com.ohos" 10001.

Lemma FromJson_ToJson_witness :
  FromJsonStr demo_parse (ParseUri lower_string (λ _ _, Returned None) 400) (ToJsonStr demo_dump sample_info)
  = Returned (Some (update_info (λ m, mkMissionInfo (mi_id m) (mi_runningState m)
      (mi_lockedState m) (mi_continuable m) (mi_time m) (mi_label m) (mi_iconPath m)
      (drop_uri (mi_want m))) sample_info)).
Proof.
  apply FromJson_ToJson; [apply demo_parse_dump|..]; try by (unfold is_i32, INT_MAX).
  - exact lower_string_id.
  - exact sample_want_printable.
  - vm_compute. lia.
Defined.

(** The documented behaviour of [FileUtil] that the storage relies on. *)
Record FileUtil_laws (FS PixelMap : Type) `{!FileUtil FS PixelMap} : Prop := {
  law_save_load path content fs fs' :
    SaveStringToFile path content fs = (fs', true) → LoadStringFromFile path fs' = Some content;
  law_save_listed dir name content fs fs' :
    str_elem "/" name = false →
    SaveStringToFile (dir +:+ "/" +:+ name) content fs = (fs', true) →
    dir +:+ "/" +:+ name ∈ GetDirFiles dir fs';
  law_file_name dir name :
    str_elem "/" name = false → ExtractFileName (dir +:+ "/" +:+ name) = name;
  law_listed_once dir fs : NoDup (GetDirFiles dir fs);
  law_listed_below dir fs f : f ∈ GetDirFiles dir fs → ∃ name, f = dir +:+ "/" +:+ name;
  (** A write that fails may leave the beginning of the text. *)
  law_save path content fs p c :
    LoadStringFromFile p (fst (SaveStringToFile path content fs)) = Some c →
    LoadStringFromFile p fs = Some c ∨ (p = path ∧ String.prefix c content = true);
  law_create dir fs p c :
    LoadStringFromFile p (fst (ForceCreateDirectory dir fs)) = Some c → LoadStringFromFile p fs = Some c;
  law_remove path fs p c :
    LoadStringFromFile p (fst (RemoveFile path fs)) = Some c → LoadStringFromFile p fs = Some c;
  law_remove_dir dir fs p c :
    LoadStringFromFile p (fst (ForceRemoveDirectory dir fs)) = Some c → LoadStringFromFile p fs = Some c;
  law_png path private pixels fs p c :
    LoadStringFromFile p (WritePng path private pixels fs) = Some c →
    LoadStringFromFile p fs = Some c ∨ p = path;
}.

Lemma mission_file_name_no_slash id suffix :
  str_elem "/" suffix = false → str_elem "/" (mission_file_name id suffix) = false.
Proof.
  intros Hs. rewrite mission_file_name_split. rewrite str_elem_app. cbn [str_elem].
  rewrite str_elem_app, Hs, no_char_pretty by done. done.
Qed.

Lemma load_files_elem {FS PixelMap} `{!FileUtil FS PixelMap} json_parse parse_uri fs files acc l f i :
  load_files json_parse parse_uri fs files acc = Returned l → f ∈ files →
  load_file json_parse parse_uri fs f = Returned (Some i) → i ∈ l.
Proof.
  assert (∀ files acc l, load_files json_parse parse_uri fs files acc = Returned l →
    ∀ j, j ∈ acc → j ∈ l) as Hacc.
  { clear. intros files. induction files as [|g files IH]; intros acc l Hl j Hj; simpl in Hl.
    - by simplify_eq.
    - destruct (load_file _ _ _ g) as [r| |]; cbn in Hl; try done.
      apply (IH _ _ Hl). destruct r; [|done]. apply elem_of_app. by left. }
  revert acc. induction files as [|g files IH]; intros acc Hl Hf Hi; [by apply not_elem_of_nil in Hf|].
  simpl in Hl. apply elem_of_cons in Hf as [->|Hf].
  - rewrite Hi in Hl. cbn in Hl. eapply Hacc; [exact Hl|]. apply elem_of_app. right. by left.
  - destruct (load_file _ _ _ g); cbn in Hl; try done. by eapply IH.
Qed.

(** What is saved is loaded: when the directory is there and the file is
    written, the next load of the user's directory returns a list with the
    saved info in it (as [FromJson] reads it back), for every mission id that
    is not negative. *)
Theorem save_then_load {FS PixelMap} `{!FileUtil FS PixelMap} json_dump json_parse parse_uri
    (st : MissionDataStorage PixelMap) i i' fs fs1 l :
  FileUtil_laws FS PixelMap →
  json_parse (json_dump (ToJson i)) = Some (ToJson i) →
  is_i32 (info_id i) → 0 ≤ info_id i →
  FromJson parse_uri (ToJson i) = Returned (Some i') →
  FileExists (ExtractFilePath (GetMissionDataFilePath (st_userId st) (info_id i))) fs = true →
  SaveStringToFile (GetMissionDataFilePath (st_userId st) (info_id i)) (json_dump (ToJson i)) fs
    = (fs1, true) →
  Storage_LoadAllMissionInfo json_parse parse_uri st (Storage_SaveMissionInfo json_dump st i fs) []
    = Returned l →
  i' ∈ l.
Proof.
  intros [Hsl Hlist Hname] Hjson Hid Hpos Hfrom Hdir Hsave.
  unfold Storage_SaveMissionInfo. rewrite Hdir. unfold ToJsonStr. rewrite Hsave. cbn [fst].
  unfold Storage_LoadAllMissionInfo. intros Hl. eapply load_files_elem; [exact Hl| |].
  - eapply Hlist; [|exact Hsave]. by apply mission_file_name_no_slash.
  - pose proof (Hsl _ _ _ _ Hsave) as Hload. unfold load_file, GetMissionDataFilePath in *.
    rewrite Hname by by apply mission_file_name_no_slash.
    rewrite check_mission_file_name, wrap_i32_id, all_digits_pretty by done.
    rewrite Hload. unfold FromJsonStr. by rewrite Hjson.
Qed.

Fixpoint last_segment (s acc : string) : string :=
  match s with
  | "" => acc
  | String c s' => if decide (c = "/"%char) then last_segment s' "" else last_segment s' (acc +:+ String c "")
  end.

Lemma last_segment_no_slash s acc : str_elem "/" s = false → last_segment s acc = acc +:+ s.
Proof.
  revert acc. induction s as [|c s IH]; intros acc; cbn [str_elem last_segment];
    [by rewrite app_nil_r_str|]. intros H. bool_to_prop.
  destruct (decide _) as [->|]; [done|]. rewrite IH by done. by rewrite app_assoc_str.
Qed.

Lemma last_segment_app d n acc :
  str_elem "/" n = false → last_segment (d +:+ "/" +:+ n) acc = n.
Proof.
  intros Hn. revert acc. induction d as [|c d IH]; intros acc.
  - change (last_segment (String "/" n) acc = n). cbn [last_segment].
    rewrite decide_True by done. by rewrite last_segment_no_slash.
  - rewrite app_cons_str. cbn [last_segment]. destruct (decide _); apply IH.
Qed.

(** A file system that is a map from paths to contents. *)
#[local] Abbreviation file_map := (gmap string string).

#[export] Instance mapped_files : FileUtil file_map unit := {|
  GetDirFiles := λ dir fs, filter (λ p, String.prefix (dir +:+ "/") p = true) (map_to_list fs).*1;
  LoadStringFromFile := λ p fs, fs !! p;
  FileExists := λ _ _, true;
  ForceCreateDirectory := λ _ fs, (fs, true);
  SaveStringToFile := λ p s fs, (<[p := s]> fs, true);
  RemoveFile := λ p fs, (delete p fs, bool_decide (is_Some (fs !! p)));
  ForceRemoveDirectory := λ dir fs, (filter (λ ps, String.prefix (dir +:+ "/") ps.1 = false) fs, true);
  ExtractFilePath := λ p, p;
  ExtractFileName := λ p, last_segment p "";
  WritePng := λ p _ _ fs, <[p := "png"]> fs;
  ReadPng := λ p fs, (λ _, ()) <$> fs !! p;
|}.

Lemma mapped_files_laws : FileUtil_laws file_map unit.
Proof.
  constructor; simpl.
  - intros p s fs fs' [= <-]. by rewrite lookup_insert_eq.
  - intros dir name s fs fs' _ [= <-]. apply list_elem_of_filter. split.
    + rewrite <- app_assoc_str. apply str_starts_with_app.
    + apply list_elem_of_fmap. exists (dir +:+ "/" +:+ name, s). split; [done|].
      apply elem_of_map_to_list. by rewrite lookup_insert_eq.
  - intros. by apply last_segment_app.
  - intros. apply NoDup_filter, NoDup_fst_map_to_list.
  - intros dir fs f [Hf _]%list_elem_of_filter. apply (str_starts_with_spec (dir +:+ "/")) in Hf as [name ->].
    exists name. by rewrite app_assoc_str.
  - intros p s fs q c. destruct (decide (p = q)) as [->|Hn]; [rewrite lookup_insert_eq|rewrite lookup_insert_ne by done; auto].
    intros [= ->]. right. split; [done|]. pose proof (str_starts_with_app c "") as Hc. by rewrite app_nil_r_str in Hc.
  - done.
  - intros p fs q c. by intros [_ ?]%lookup_delete_Some.
  - intros dir fs q c. by intros [? _]%map_lookup_filter_Some.
  - intros p _ _ fs q c. destruct (decide (p = q)) as [->|Hn]; [by right|]. rewrite lookup_insert_ne by done. by left.
Qed.

Definition plain_info : InnerMissionInfo :=
  mkInner (mkMissionInfo 7 0 true false "2022-01-01" "label" "icon" emptyWant)
    "#com.ohos:Main" true START_NORMAL "com.ohos" 10001.

Lemma save_then_load_witness : plain_info ∈ [plain_info].
Proof.
  apply (save_then_load (FS := file_map) (PixelMap := unit) demo_dump demo_parse
    (λ _, Returned None) (mkStorage 100 ∅) plain_info plain_info ∅
    {[GetMissionDataFilePath 100 7 := demo_dump (ToJson plain_info)]}).
  - exact mapped_files_laws.
  - apply demo_parse_dump.
  - done.
  - done.
  - done.
  - done.
  - done.
  - vm_compute. reflexivity.
Defined.

(** * The files of the storage are those it saved *)

Lemma str_app_inv_head (p s1 s2 : string) : p +:+ s1 = p +:+ s2 → s1 = s2.
Proof. induction p as [|c p IH]; [done|]. rewrite !app_cons_str. intros [= E]. by apply IH. Qed.

Lemma dir_path_user u u' s s' :
  GetMissionDataDirPath u +:+ "/" +:+ s = GetMissionDataDirPath u' +:+ "/" +:+ s' → u = u'.
Proof.
  unfold GetMissionDataDirPath. rewrite !app_assoc_str. intros E%str_app_inv_head.
  apply (str_app_inv_head "/") in E.
  assert (∀ (z : Z) r, str_break "/" (pretty z +:+ "/" +:+ r) = Some (pretty z, r)) as Hb.
  { intros z r. apply str_break_app. by apply no_char_pretty. }
  pose proof (f_equal (str_break "/") E) as E'. rewrite !Hb in E'.
  injection E' as E' _. by apply (inj pretty) in E'.
Qed.

Lemma str_index_elem c p s n : str_elem c p = true → str_index p s = Some n → str_elem c s = true.
Proof.
  intros Hc. revert n. induction s as [|a s IH]; intros n; cbn [str_index].
  - destruct p; done.
  - destruct (str_starts_with p _) eqn:E.
    + apply str_starts_with_spec in E as [r ->]. intros _. by rewrite str_elem_app, Hc.
    + destruct (str_index p s) as [k|]; [|done]. intros _. cbn [str_elem]. by rewrite (IH k eq_refl), orb_true_r.
Qed.

(** The name of a snapshot is not the name of an info. *)
Lemma png_name_invalid id : CheckFileNameValid (mission_file_name id PNG_FILE_SUFFIX) = false.
Proof.
  pose proof (length_pretty_i32 _ (wrap_i32_range id)) as Hlen.
  unfold CheckFileNameValid. destruct (negb _); [done|]. destruct (negb _); [done|].
  assert (str_find JSON_FILE_SUFFIX (mission_file_name id PNG_FILE_SUFFIX) = NPOS) as ->.
  { unfold str_find. destruct (str_index _ _) as [n|] eqn:E; [|done].
    apply (str_index_elem "j") in E; [|done]. rewrite mission_file_name_split in E.
    rewrite str_elem_app in E. cbn [str_elem] in E. rewrite str_elem_app, no_char_pretty in E by done. done. }
  rewrite mission_file_name_split, length_app_str. cbn [String.length]. rewrite length_app_str.
  assert (2000 < SIZE_MOD) by done. unfold NPOS. rewrite size_sub_small by (cbn; lia).
  rewrite (proj2 (Z.eqb_neq _ _)); [done|]. cbn. lia.
Qed.

Section saved.
Context {FS PixelMap : Type} `{!FileUtil FS PixelMap}.
Context (json_dump : gmap string JsonVal → string).
Context (json_parse : string → option (gmap string JsonVal)).
Context (parse_uri : string → outcome (option Want)).
#[local] Abbreviation load := (load_file json_parse parse_uri).

(** What the JSON library makes of a text it has written, or of a beginning of it, is
    the object that was written, or nothing. *)
Definition reads_written : Prop := ∀ i s v,
  String.prefix s (json_dump (ToJson i)) = true → json_parse s = Some v → v = ToJson i.

(** A file in the directory of a user that is read as an info is the file of that info. *)
Definition saved_files (fs : FS) : Prop := ∀ u name i,
  load fs (GetMissionDataDirPath u +:+ "/" +:+ name) = Returned (Some i) →
  GetMissionDataDirPath u +:+ "/" +:+ name = GetMissionDataFilePath u (info_id i).

Hypothesis files : FileUtil_laws FS PixelMap.
Hypothesis json : reads_written.
Implicit Types fs : FS.

Lemma saved_subset fs fs' : saved_files fs →
  (∀ p c, LoadStringFromFile p fs' = Some c → LoadStringFromFile p fs = Some c) → saved_files fs'.
Proof.
  intros Hs Hsub u name i. unfold load_file. intros E. apply Hs. unfold load_file.
  destruct (CheckFileNameValid _); [|done]. destruct (LoadStringFromFile _ fs') as [c|] eqn:Ec; [|done].
  by rewrite (Hsub _ _ Ec).
Qed.

Lemma FromJson_id v i : FromJson parse_uri (ToJson v) = Returned (Some i) → info_id i = wrap_i32 (info_id v).
Proof.
  unfold FromJson, ToJson, json_string, json_bool, json_int32. simplify_map_eq.
  destruct (parse_uri _) as [w| |]; intros E; by simplify_eq/=.
Qed.

Lemma saved_save (st : MissionDataStorage PixelMap) v fs :
  saved_files fs → saved_files (Storage_SaveMissionInfo json_dump st v fs).
Proof.
  intros Hs. unfold Storage_SaveMissionInfo.
  destruct (if FileExists _ fs then _ else _) as [fs1 ok] eqn:Ed.
  assert (saved_files fs1) as Hs1.
  { destruct (FileExists _ fs); simplify_eq; [done|]. eapply saved_subset; [exact Hs|]. intros p c Hp.
    eapply (law_create _ _ files). by rewrite Ed. }
  destruct ok; [|done]. intros u name i. unfold load_file.
  destruct (CheckFileNameValid _) eqn:Ev; [|done]. destruct (LoadStringFromFile _ _) as [c|] eqn:Ec; [|done].
  apply (law_save _ _ files) in Ec as [Ec|[Ep Ec]].
  - intros E. apply Hs1. unfold load_file. by rewrite Ev, Ec.
  - unfold FromJsonStr. destruct (json_parse c) as [o|] eqn:Eo; [|done]. rewrite (json _ _ _ Ec Eo).
    intros E%FromJson_id. unfold GetMissionDataFilePath in *. apply dir_path_user in Ep as Eu. subst u. rewrite Ep, E.
    unfold mission_file_name. by rewrite (wrap_i32_id (wrap_i32 _)) by apply wrap_i32_range.
Qed.

Lemma saved_delete (st : MissionDataStorage PixelMap) id fs :
  saved_files fs → saved_files (Storage_DeleteMissionInfo st id fs).
Proof.
  intros Hs. assert (∀ p fs, saved_files fs → saved_files (fst (RemoveFile p fs))) as Hr.
  { intros p fs0 H0. eapply saved_subset; [exact H0|]. intros q c. apply (law_remove _ _ files). }
  unfold Storage_DeleteMissionInfo, DeleteMissionSnapshot. specialize (Hr (GetMissionDataFilePath (st_userId st) id)) as H1.
  specialize (H1 fs Hs). destruct (RemoveFile _ fs) as [fs1 []]; [|done]. cbn in H1. destruct (FileExists _ fs1); [|done]. by apply Hr.
Qed.

Lemma saved_snapshot (st st' : MissionDataStorage PixelMap) id s fs fs' :
  Storage_SaveMissionSnapshot st id s fs = Some (st', fs') → saved_files fs → saved_files fs'.
Proof.
  unfold Storage_SaveMissionSnapshot, SaveSnapshotFile. cbn [snd SaveCachedSnapshot st_userId].
  destruct (if FileExists _ fs then _ else _) as [fs1 ok] eqn:Ed. intros E Hs.
  assert (saved_files fs1) as Hs1.
  { destruct (FileExists _ fs); simplify_eq; [done|]. eapply saved_subset; [exact Hs|]. intros p c Hp.
    eapply (law_create _ _ files). by rewrite Ed. }
  destruct ok; [|by simplify_eq/=]. destruct (snapshot s) as [p|]; [|done]. injection E as _ <-.
  intros u name i. unfold load_file. destruct (CheckFileNameValid _) eqn:Ev; [|done].
  destruct (LoadStringFromFile _ _) as [c|] eqn:Ec; [|done]. apply (law_png _ _ files) in Ec as [Ec|Ec].
  - intros E. apply Hs1. unfold load_file. by rewrite Ev, Ec.
  - rewrite Ec in Ev. unfold GetMissionSnapshotPath in Ev.
    rewrite (law_file_name _ _ files), png_name_invalid in Ev; [done|]. by apply mission_file_name_no_slash.
Qed.

(** What the manager does beside its calls keeps the files. *)
Lemma saved_background (m m' : TaskDataPersistenceMgr FS PixelMap) :
  TDPM_background json_dump m m' → saved_files (tdpm_fs m) → saved_files (tdpm_fs m').
Proof.
  intros [t q m0 m1 _ E|u m0] Hs.
  - unfold run_task in E. destruct t as [u i|u id|u id s]; cbn [set_posted missionDataStorageMgr_ tdpm_fs] in E;
      destruct (missionDataStorageMgr_ m0 !! u) as [st|]; try by simplify_eq/=.
    + injection E as <-. by apply saved_save.
    + injection E as <-. by apply saved_delete.
    + destruct (Storage_SaveMissionSnapshot st id s _) as [[st' fs']|] eqn:Es; [|done]. injection E as <-.
      by eapply saved_snapshot.
  - unfold TDPM_RemoveUserDir. destruct (_ =? _); [done|]. destruct (ForceRemoveDirectory _ _) as [fs' ok] eqn:Ed. cbn.
    eapply saved_subset; [exact Hs|]. intros p c Hp. eapply (law_remove_dir _ _ files). by rewrite Ed.
Qed.

Lemma load_files_ids u fs infos l acc :
  saved_files fs → NoDup l → (∀ f, f ∈ l → ∃ name, f = GetMissionDataDirPath u +:+ "/" +:+ name) →
  load_files json_parse parse_uri fs l acc = Returned infos →
  NoDup (info_id <$> acc) → (∀ i, i ∈ acc → GetMissionDataFilePath u (info_id i) ∉ l) → NoDup (info_id <$> infos).
Proof.
  clear files json. intros Hs. revert acc. induction l as [|f l IH]; intros acc Hl Hd; cbn [load_files]; [by intros [= <-]|].
  apply NoDup_cons in Hl as [Hf Hl]. destruct (load fs f) as [r| |] eqn:E; cbn; [|done..]. intros El Ha Hn.
  assert (∀ i, r = Some i → f = GetMissionDataFilePath u (info_id i)) as Hi.
  { intros i ->. destruct (Hd f) as [name ->]; [left|]. by apply Hs. }
  eapply IH; [exact Hl|intros g Hg; apply Hd; by right|exact El|..]; destruct r as [i|]; try done.
  - rewrite fmap_app. apply NoDup_app. split; [done|]. split; [|apply NoDup_singleton].
    intros id (j & -> & Hj)%list_elem_of_fmap Ej%list_elem_of_singleton. apply (Hn j Hj). rewrite Ej, <- (Hi i eq_refl). left.
  - intros j [Hj| ->%list_elem_of_singleton]%elem_of_app Hin; [apply (Hn j Hj); by right|].
    by rewrite <- (Hi i eq_refl) in Hin.
  - intros j Hj Hin. apply (Hn j Hj). by right.
Qed.

(** The infos that are loaded from such files have distinct ids. *)
Lemma loaded_distinct (m : TaskDataPersistenceMgr FS PixelMap) l :
  saved_files (tdpm_fs m) → TDPM_LoadAllMissionInfo json_parse parse_uri [] m = Returned (Some l) → NoDup (info_id <$> l).
Proof.
  intros Hs. unfold TDPM_LoadAllMissionInfo. destruct (current_storage m) as [st|]; [|done].
  destruct (Storage_LoadAllMissionInfo _ _ _ _ _) as [l'| |] eqn:E; cbn; try done. intros [= <-].
  eapply load_files_ids; [exact Hs| | |exact E|constructor|by intros i ?%not_elem_of_nil].
  - apply (law_listed_once _ _ files).
  - intros f. apply (law_listed_below _ _ files).
Qed.
End saved.

Lemma demo_reads_written : reads_written demo_dump demo_parse.
Proof.
  intros i s v Hs Hv. unfold demo_parse in Hv. destruct (read_numeral s) as [p|] eqn:E; [|done].
  rewrite (read_numeral_prefix _ _ _ Hs E) in Hv. cbn in Hv. rewrite decode_encode in Hv. by injection Hv as <-.
Qed.

Lemma no_files_saved parse_uri : saved_files demo_parse parse_uri ∅.
Proof.
  intros u name i. unfold load_file. cbn. rewrite lookup_empty. by destruct (CheckFileNameValid _).
Qed.

(** Saving a snapshot over a cached one stores it but answers false: the
    answer is whether a new entry was inserted, although the new snapshot is
    in the cache either way. *)
Theorem SaveCachedSnapshot_overwrite {PixelMap} (st : MissionDataStorage PixelMap) id s s0 :
  let '(ok, st') := SaveCachedSnapshot st id s in
  GetCachedSnapshot st' id s0 = (true, mkSnapshot (topAbility s0) (snapshot s) (isPrivate s0)) ∧
  ok = negb (fst (GetCachedSnapshot st id s0)).
Proof.
  unfold SaveCachedSnapshot, GetCachedSnapshot. cbn. rewrite lookup_insert_eq. split; [done|].
  by destruct (cachedPixelMap_ st !! id).
Qed.
