(* ===== verification/MissionInfo.v ===== *)
(** [MissionInfoMgr] (services/abilitymgr/src/mission_info_mgr.cpp): the
    manager of the persistent mission infos of the current user.  It hands out
    mission ids, keeps the list of infos sorted by time stamp with the newest
    first, and mirrors every change in the persistence manager, which is known
    here through the class [MissionStore] only.

    [None] is a null dereference. The recursive mutex makes every public
    operation atomic, so an execution is a sequence of operations. *)

From S2P Require Import Prelude CppString Want MissionData.
From Stdlib Require Import Ascii.

#[local] Open Scope stdpp_scope.
#[local] Open Scope Z_scope.

Definition MIN_MISSION_ID : Z := 1.
Definition MAX_MISSION_ID : Z := INT_MAX.

Record MissionInfoMgr (S H : Type) := mkMIM {
  currentMisionId_ : Z;
  missionIdMap_ : gmap Z bool;
  missionInfoList_ : list InnerMissionInfo;
  taskDataPersistenceMgr_ : option S;
  snapshotHandler_ : option H;
}.
Arguments mkMIM {_ _} _ _ _ _ _.
Arguments currentMisionId_ {_ _} _.
Arguments missionIdMap_ {_ _} _.
Arguments missionInfoList_ {_ _} _.
Arguments taskDataPersistenceMgr_ {_ _} _.
Arguments snapshotHandler_ {_ _} _.

Definition has_id (id : Z) (i : InnerMissionInfo) : bool := info_id i =? id.
Definition older_than (t : string) (i : InnerMissionInfo) : bool := str_ltb (info_time i) t.

Definition DoesNotShowInTheMissionList (startMethod : Z) : bool := startMethod =? START_CALL.

Section manager.
Context {S PixelMap H Token : Type} `{!MissionStore S PixelMap}.
(** [ISnapshotHandler::GetSnapshot], of the window manager. *)
Context (GetSnapshot : H → Token → Z * option PixelMap).

#[local] Abbreviation mgr := (MissionInfoMgr S H).

Definition MIM_new : mgr := mkMIM MIN_MISSION_ID ∅ [] None None.

Definition set_infos (idMap : gmap Z bool) (l : list InnerMissionInfo) (s : option S)
    (m : mgr) : mgr :=
  mkMIM (currentMisionId_ m) idMap l s (snapshotHandler_ m).

(** The loop of [GenerateMissionId]. *)
Fixpoint free_id (fuel : nat) (index : Z) (idMap : gmap Z bool) : outcome (option Z) :=
  match fuel with
  | O => OutOfFuel
  | Datatypes.S fuel' =>
      if index <? MAX_MISSION_ID then
        match idMap !! index with
        | None => Returned (Some index)
        | Some _ => free_id fuel' (index + 1) idMap
        end
      else Returned None
  end.

Definition GenerateMissionId (fuel : nat) (m : mgr) : outcome (option Z * mgr) :=
  let cur :=
    if currentMisionId_ m =? MAX_MISSION_ID then MIN_MISSION_ID else currentMisionId_ m in
  r ← free_id fuel cur (missionIdMap_ m);
  match r with
  | Some index =>
      Returned (Some index,
        mkMIM (index + 1) (<[index := false]> (missionIdMap_ m)) (missionInfoList_ m)
          (taskDataPersistenceMgr_ m) (snapshotHandler_ m))
  | None =>
      Returned (None,
        mkMIM cur (missionIdMap_ m) (missionInfoList_ m)
          (taskDataPersistenceMgr_ m) (snapshotHandler_ m))
  end.

Definition LoadAllMissionInfo (m : mgr) : outcome (bool * mgr) :=
  match taskDataPersistenceMgr_ m with
  | None => Returned (false, m)
  | Some s =>
      r ← store_load (missionInfoList_ m) s;
      match r with
      | None => Returned (false, m)
      | Some l =>
          let l' := list_sort (λ a b, str_ltb (info_time b) (info_time a)) l in
          Returned (true,
            set_infos (foldl (λ mp i, <[info_id i := true]> mp) (missionIdMap_ m) l') l'
              (Some s) m)
      end
  end.

(** [instance] is the result of [DelayedSingleton::GetInstance]. *)
Definition Init (instance : option S) (userId : Z) (m : mgr) : outcome (bool * mgr) :=
  match (match taskDataPersistenceMgr_ m with Some s => Some s | None => instance end) with
  | None => Returned (false, m)
  | Some s =>
      let '(ok, s') := store_init userId s in
      if ok : bool then LoadAllMissionInfo (set_infos ∅ [] (Some s') m)
      else Returned (false, set_infos (missionIdMap_ m) (missionInfoList_ m) (Some s') m)
  end.

Definition AddMissionInfo (i : InnerMissionInfo) (m : mgr) : option (bool * mgr) :=
  let id := info_id i in
  if default false (missionIdMap_ m !! id) then Some (false, m)
  else
    s ← taskDataPersistenceMgr_ m;
    let '(ok, s') := store_save i s in
    if ok : bool then
      Some (true,
        set_infos (<[id := true]> (missionIdMap_ m))
          (insert_before (older_than (info_time i)) i (missionInfoList_ m)) (Some s') m)
    else Some (false, set_infos (missionIdMap_ m) (missionInfoList_ m) (Some s') m).

Definition erase_info (id : Z) (m : mgr) : mgr :=
  set_infos (delete id (missionIdMap_ m)) (erase_first (has_id id) (missionInfoList_ m))
    (taskDataPersistenceMgr_ m) m.

Definition UpdateMissionInfo (i : InnerMissionInfo) (m : mgr) : option (bool * mgr) :=
  let id := info_id i in
  if negb (default false (missionIdMap_ m !! id)) then Some (false, m)
  else
    match List.find (has_id id) (missionInfoList_ m) with
    | None => Some (false, m)
    | Some old =>
        if decide (info_time i = info_time old) then
          let l := replace_first (has_id id) i (missionInfoList_ m) in
          s ← taskDataPersistenceMgr_ m;
          let '(ok, s') := store_save i s in
          Some (ok, set_infos (missionIdMap_ m) l (Some s') m)
        else AddMissionInfo i (erase_info id m)
    end.

Definition DeleteMissionInfo (missionId : Z) (m : mgr) : bool * mgr :=
  match missionIdMap_ m !! missionId with
  | None => (true, m)
  | Some false =>
      (true, set_infos (delete missionId (missionIdMap_ m)) (missionInfoList_ m)
               (taskDataPersistenceMgr_ m) m)
  | Some true =>
      match taskDataPersistenceMgr_ m with
      | None => (false, m)
      | Some s =>
          let '(ok, s') := store_delete missionId s in
          let m' := set_infos (missionIdMap_ m) (missionInfoList_ m) (Some s') m in
          if ok : bool then (true, erase_info missionId m') else (false, m')
      end
  end.

(** The loop of [DeleteAllMissionInfos] on the rest of the list: the infos
    kept, the id map, the store and the ids the listeners are told of. *)
Fixpoint delete_unlocked (l : list InnerMissionInfo) (idMap : gmap Z bool) (s : S)
    : list InnerMissionInfo * gmap Z bool * S * list Z :=
  match l with
  | [] => ([], idMap, s, [])
  | i :: l' =>
      if negb (mi_lockedState (missionInfo i)) then
        let '(kept, mp, s', notified) :=
          delete_unlocked l' (delete (info_id i) idMap) (snd (store_delete (info_id i) s)) in
        (kept, mp, s', info_id i :: notified)
      else
        let '(kept, mp, s', notified) := delete_unlocked l' idMap s in
        (i :: kept, mp, s', notified)
  end.

Definition DeleteAllMissionInfos (listenerController : bool) (m : mgr) : bool * mgr * list Z :=
  match taskDataPersistenceMgr_ m with
  | None => (false, m, [])
  | Some s =>
      let '(kept, mp, s', notified) :=
        delete_unlocked (missionInfoList_ m) (missionIdMap_ m) s in
      (true, set_infos mp kept (Some s') m, if listenerController then notified else [])
  end.

(** The loop of [GetMissionInfos]; [acc] is the caller's vector. *)
Fixpoint collect_infos (numMax : Z) (l : list InnerMissionInfo) (acc : list MissionInfo)
    : list MissionInfo :=
  match l with
  | [] => acc
  | i :: l' =>
      if numMax <=? Z.of_nat (length acc) then acc
      else if DoesNotShowInTheMissionList (startMethod i) then collect_infos numMax l' acc
      else collect_infos numMax l' (acc ++ [missionInfo i])
  end.

Definition GetMissionInfos (numMax : Z) (acc : list MissionInfo) (m : mgr)
    : Z * list MissionInfo :=
  if numMax <? 0 then (-1, acc) else (0, collect_infos numMax (missionInfoList_ m) acc).

Definition GetMissionInfoById (missionId : Z) (m : mgr) : option MissionInfo :=
  match missionIdMap_ m !! missionId, List.find (has_id missionId) (missionInfoList_ m) with
  | Some _, Some i =>
      if DoesNotShowInTheMissionList (startMethod i) then None else Some (missionInfo i)
  | _, _ => None
  end.

Definition GetInnerMissionInfoById (missionId : Z) (m : mgr) : option InnerMissionInfo :=
  match missionIdMap_ m !! missionId with
  | Some _ => List.find (has_id missionId) (missionInfoList_ m)
  | None => None
  end.

Definition FindReusedSingletonMission (name : string) (m : mgr) : option InnerMissionInfo :=
  if decide (name = "") then None
  else List.find (λ i, bool_decide (name = missionName i) && isSingletonMode i)
         (missionInfoList_ m).

Definition UpdateMissionTimeStamp (missionId : Z) (timestamp : string) (m : mgr) : option mgr :=
  match List.find (has_id missionId) (missionInfoList_ m) with
  | None => Some m
  | Some i =>
      if decide (timestamp = info_time i) then Some m
      else snd <$> AddMissionInfo (set_time timestamp i) (erase_info missionId m)
  end.

Definition UpdateMissionLabel (missionId : Z) (label : string) (m : mgr) : Z * mgr :=
  match taskDataPersistenceMgr_ m with
  | None => (-1, m)
  | Some s =>
      match List.find (has_id missionId) (missionInfoList_ m) with
      | None => (-1, m)
      | Some i =>
          let i' := set_label label i in
          let '(ok, s') := store_save i' s in
          (if ok : bool then 0 else -1,
           set_infos (missionIdMap_ m) (replace_first (has_id missionId) i' (missionInfoList_ m))
             (Some s') m)
      end
  end.

Definition GetMatchedMission (bundleName : string) (uid : Z) (missions : list Z) (m : mgr)
    : list Z :=
  missions ++ (info_id <$> filter (λ i, im_bundleName i = bundleName ∧ im_uid i = uid)
                             (missionInfoList_ m)).

Definition HandleUnInstallApp (bundleName : string) (uid : Z) (missions : list Z) (m : mgr)
    : list Z * mgr :=
  let missions' := GetMatchedMission bundleName uid missions m in
  (missions', foldl (λ m' id, snd (DeleteMissionInfo id m')) m missions').

Definition RegisterSnapshotHandler (h : option H) (m : mgr) : mgr :=
  mkMIM (currentMisionId_ m) (missionIdMap_ m) (missionInfoList_ m)
    (taskDataPersistenceMgr_ m) h.

Definition UpdateMissionSnapshot (missionId : Z) (abilityToken : Token)
    (s : MissionSnapshot PixelMap) (m : mgr) : bool * MissionSnapshot PixelMap * mgr :=
  match List.find (has_id missionId) (missionInfoList_ m), snapshotHandler_ m with
  | Some i, Some h =>
      let '(result, pixelMap) := GetSnapshot h abilityToken in
      if negb (result =? 0) then (false, s, m)
      else
        match taskDataPersistenceMgr_ m with
        | None => (false, s, m)
        | Some st =>
            let s' := mkSnapshot (GetElement (mi_want (missionInfo i))) pixelMap (isPrivate s) in
            let '(ok, st') := store_save_snapshot missionId s' st in
            (ok, s', set_infos (missionIdMap_ m) (missionInfoList_ m) (Some st') m)
        end
  | _, _ => (false, s, m)
  end.

Definition GetMissionSnapshot (missionId : Z) (abilityToken : Token)
    (s : MissionSnapshot PixelMap) (force : bool) (m : mgr)
    : bool * MissionSnapshot PixelMap * mgr :=
  match List.find (has_id missionId) (missionInfoList_ m), taskDataPersistenceMgr_ m with
  | Some i, Some st =>
      if force then UpdateMissionSnapshot missionId abilityToken s m
      else
        let '(found, s') := store_get_snapshot missionId s st in
        if found : bool then
          (true, mkSnapshot (GetElement (mi_want (missionInfo i))) (snapshot s') (isPrivate s'), m)
        else UpdateMissionSnapshot missionId abilityToken s' m
  | _, _ => (false, s, m)
  end.
End manager.

(** * The invariant *)

Definition newer_eq (a b : InnerMissionInfo) : Prop := str_ltb (info_time a) (info_time b) = false.

#[export] Instance newer_eq_trans : Transitive newer_eq.
Proof. intros a b c. apply str_geb_trans. Qed.

(** Ids are unique, [missionIdMap_] maps exactly the saved ids to true, the
    list is newest first, and the next id is in range. *)
Record wf {S H} (m : MissionInfoMgr S H) : Prop := {
  wf_nodup : NoDup (info_id <$> missionInfoList_ m);
  wf_saved id : missionIdMap_ m !! id = Some true ↔ id ∈ info_id <$> missionInfoList_ m;
  wf_sorted : StronglySorted newer_eq (missionInfoList_ m);
  wf_current : MIN_MISSION_ID ≤ currentMisionId_ m ≤ MAX_MISSION_ID;
}.

(** The infos as a finite map, the ids handed out but not saved as a set. *)
Definition infos_of (l : list InnerMissionInfo) : gmap Z InnerMissionInfo :=
  list_to_map ((λ i, (info_id i, i)) <$> l).

Definition reserved_of (idMap : gmap Z bool) : gset Z :=
  dom (filter (λ kv, kv.2 = false) idMap).

Section list_facts.
Implicit Types (i : InnerMissionInfo) (l : list InnerMissionInfo).

Lemma fst_keyed l : (λ i, (info_id i, i)) <$> l = [] ++ ((λ i, (info_id i, i)) <$> l) ∧
  fst <$> ((λ i, (info_id i, i)) <$> l) = info_id <$> l.
Proof. split; [done|]. rewrite <- list_fmap_compose. by apply list_fmap_ext. Qed.

Lemma infos_of_perm l1 l2 :
  NoDup (info_id <$> l1) → l1 ≡ₚ l2 → infos_of l1 = infos_of l2.
Proof.
  intros Hnd Hp. apply list_to_map_proper; [by rewrite (proj2 (fst_keyed l1))|].
  by rewrite Hp.
Qed.

Lemma lookup_infos_of l id i :
  NoDup (info_id <$> l) → infos_of l !! id = Some i ↔ i ∈ l ∧ info_id i = id.
Proof.
  intros Hnd. unfold infos_of. rewrite <- elem_of_list_to_map by
    (by rewrite (proj2 (fst_keyed l))).
  rewrite list_elem_of_fmap. split; [intros (j & ? & ?)|intros [? <-]]; simplify_eq; eauto.
Qed.

Lemma lookup_infos_of_None l id : infos_of l !! id = None ↔ id ∉ info_id <$> l.
Proof. unfold infos_of. by rewrite <- not_elem_of_list_to_map, (proj2 (fst_keyed l)). Qed.

Lemma find_has_id l id i :
  NoDup (info_id <$> l) → List.find (has_id id) l = Some i ↔ i ∈ l ∧ info_id i = id.
Proof.
  induction l as [|j l IH]; csimpl.
  - intros _. split; [done|]. intros [?%not_elem_of_nil _]. done.
  - intros [Hj Hnd]%NoDup_cons. unfold has_id at 1. destruct (info_id j =? id) eqn:E; bool_to_prop.
    + split; [intros; simplify_eq; split; [left|done]|]. intros [[->|Hi]%elem_of_cons <-]; [done|].
      destruct Hj. rewrite E. by apply list_elem_of_fmap_2.
    + rewrite IH by done. rewrite elem_of_cons. naive_solver.
Qed.

Lemma find_has_id_lookup l id :
  NoDup (info_id <$> l) → List.find (has_id id) l = infos_of l !! id.
Proof.
  intros Hnd. apply option_eq. intros i. by rewrite find_has_id, lookup_infos_of.
Qed.

Lemma find_has_id_None l id : List.find (has_id id) l = None ↔ id ∉ info_id <$> l.
Proof.
  rewrite find_None_iff, list_elem_of_fmap. unfold has_id. split.
  - intros Hf (i & -> & Hi). specialize (Hf i Hi). by rewrite Z.eqb_refl in Hf.
  - intros Hf i Hi. apply Z.eqb_neq. intros <-. eauto.
Qed.

Lemma fmap_erase_first_id id l i :
  List.find (has_id id) l = Some i → info_id <$> l ≡ₚ id :: (info_id <$> erase_first (has_id id) l).
Proof.
  intros Hf. pose proof (find_Some_elem _ _ _ Hf) as [_ Hi]. unfold has_id in Hi. bool_to_prop.
  rewrite (erase_first_perm _ _ _ Hf) at 1. csimpl. by rewrite Hi.
Qed.

Lemma infos_of_insert P i l :
  NoDup (info_id <$> l) → info_id i ∉ info_id <$> l →
  infos_of (insert_before P i l) = <[info_id i := i]> (infos_of l).
Proof.
  intros Hnd Hi. rewrite (infos_of_perm _ (i :: l)); [done| |apply insert_before_perm].
  rewrite insert_before_perm. csimpl. by constructor.
Qed.

Lemma infos_of_erase id l :
  NoDup (info_id <$> l) → infos_of (erase_first (has_id id) l) = delete id (infos_of l).
Proof.
  intros Hnd. destruct (List.find (has_id id) l) as [i|] eqn:Hf.
  - rewrite (infos_of_perm l _ Hnd (erase_first_perm _ _ _ Hf)).
    pose proof (fmap_erase_first_id _ _ _ Hf) as Hp. rewrite Hp in Hnd.
    apply NoDup_cons in Hnd as [Hid _].
    pose proof (find_Some_elem _ _ _ Hf) as [_ Hi]. unfold has_id in Hi. bool_to_prop.
    unfold infos_of. csimpl. rewrite Hi, delete_insert_eq.
    symmetry. apply delete_id. by apply lookup_infos_of_None.
  - rewrite erase_first_id by done. symmetry. apply delete_id, lookup_infos_of_None.
    by apply find_has_id_None.
Qed.

Lemma infos_of_replace i l :
  NoDup (info_id <$> l) → info_id i ∈ info_id <$> l →
  infos_of (replace_first (has_id (info_id i)) i l) = <[info_id i := i]> (infos_of l).
Proof.
  induction l as [|j l IH]; csimpl; [intros _ []%not_elem_of_nil|].
  intros [Hj Hnd]%NoDup_cons. unfold has_id at 1, infos_of.
  destruct (info_id j =? info_id i) eqn:E; bool_to_prop; csimpl.
  - intros _. by rewrite E, insert_insert_eq.
  - intros [?|Hin]%elem_of_cons; [congruence|].
    rewrite insert_insert_ne by congruence. f_equal. by apply IH.
Qed.

Lemma replace_first_ids i l :
  info_id <$> replace_first (has_id (info_id i)) i l = info_id <$> l.
Proof.
  apply fmap_replace_first. intros x [_ Hx]%find_Some_elem. unfold has_id in Hx.
  by bool_to_prop.
Qed.

Lemma replace_first_times P i l x :
  (∀ y, List.find P l = Some y → info_time y = info_time i) →
  x ∈ replace_first P i l → ∃ y, y ∈ l ∧ info_time x = info_time y.
Proof.
  induction l as [|j l IH]; simpl in *; [set_solver|]. intros Hy.
  destruct (P j); [|set_solver]. intros [->|?]%elem_of_cons.
  - exists j. split; [left|by symmetry; apply Hy].
  - exists x. split; [by right|done].
Qed.

Lemma replace_first_sorted P i l :
  (∀ x, List.find P l = Some x → info_time x = info_time i) →
  StronglySorted newer_eq l → StronglySorted newer_eq (replace_first P i l).
Proof.
  intros Hx Hs. induction Hs as [|j l Hs IH HR]; simpl in *; [constructor|].
  rewrite Forall_forall in HR. destruct (P j) eqn:E; (constructor; [auto|]);
    apply Forall_forall; intros z Hz; unfold newer_eq.
  - rewrite <- (Hx j) by done. by apply HR.
  - destruct (replace_first_times _ _ _ _ Hx Hz) as (y & Hy & Ht). rewrite Ht. by apply HR.
Qed.

Lemma lookup_true_default (mp : gmap Z bool) id : default false (mp !! id) = true ↔ mp !! id = Some true.
Proof. destruct (mp !! id) as [[]|]; naive_solver. Qed.
End list_facts.

(** * Operations preserve the invariant *)

Section preservation.
Context {S PixelMap H Token : Type} `{!MissionStore S PixelMap}.
Context (GetSnapshot : H → Token → Z * option PixelMap).
#[local] Abbreviation mgr := (MissionInfoMgr S H).
Implicit Types (m : mgr) (i : InnerMissionInfo).

Lemma wf_set_store m idMap l s :
  idMap = missionIdMap_ m → l = missionInfoList_ m → wf m → wf (set_infos idMap l s m).
Proof. intros -> -> []. by constructor. Qed.

Lemma wf_new : wf (MIM_new : mgr).
Proof.
  constructor; simpl; [by constructor| |constructor|by unfold MIN_MISSION_ID, MAX_MISSION_ID, INT_MAX].
  intros id. rewrite lookup_empty. split; [done|]. by intros ?%not_elem_of_nil.
Qed.

Lemma wf_insert m i s :
  wf m → missionIdMap_ m !! info_id i ≠ Some true →
  wf (set_infos (<[info_id i := true]> (missionIdMap_ m))
        (insert_before (older_than (info_time i)) i (missionInfoList_ m)) s m).
Proof.
  intros [Hnd Hsaved Hsort Hcur] Hi. constructor; simpl; [| | |done].
  - rewrite insert_before_perm. csimpl. constructor; [|done]. by rewrite <- Hsaved.
  - intros id. rewrite insert_before_perm. csimpl. rewrite elem_of_cons, <- Hsaved.
    destruct (decide (id = info_id i)) as [->|]; [rewrite lookup_insert_eq; naive_solver|].
    rewrite lookup_insert_ne by done. naive_solver.
  - apply insert_before_sorted; [apply _| | |done]; unfold newer_eq, older_than; intros x _ Hx;
      auto with aafwk.
Qed.

Lemma wf_erase m id : wf m → wf (erase_info id m).
Proof.
  intros [Hnd Hsaved Hsort Hcur]. constructor; simpl; [| | |done].
  - eapply sublist_NoDup; [exact Hnd|]. apply fmap_sublist, erase_first_sublist.
  - intros id'. destruct (List.find (has_id id) (missionInfoList_ m)) as [i|] eqn:Hf.
    + pose proof (fmap_erase_first_id _ _ _ Hf) as Hp. rewrite Hp in Hnd.
      apply NoDup_cons in Hnd as [Hid _]. specialize (Hsaved id'). rewrite Hp, elem_of_cons in Hsaved.
      destruct (decide (id' = id)) as [->|].
      * rewrite lookup_delete_eq. naive_solver.
      * rewrite lookup_delete_ne by done. naive_solver.
    + rewrite erase_first_id by done. apply find_has_id_None in Hf.
      rewrite <- Hsaved. destruct (decide (id' = id)) as [->|].
      * rewrite lookup_delete_eq, Hsaved. naive_solver.
      * by rewrite lookup_delete_ne.
  - eapply StronglySorted_sublist; [apply erase_first_sublist|done].
Qed.

Lemma erase_info_free m id : missionIdMap_ (erase_info id m) !! id ≠ Some true.
Proof. simpl. by rewrite lookup_delete_eq. Qed.

Lemma wf_replace m i old s :
  wf m → List.find (has_id (info_id i)) (missionInfoList_ m) = Some old →
  info_time i = info_time old →
  wf (set_infos (missionIdMap_ m) (replace_first (has_id (info_id i)) i (missionInfoList_ m)) s m).
Proof.
  intros [Hnd Hsaved Hsort Hcur] Hf Ht. constructor; simpl; [| | |done].
  - by rewrite replace_first_ids.
  - intros id. by rewrite replace_first_ids.
  - apply replace_first_sorted; [|done]. intros x Hx. by simplify_eq.
Qed.

Lemma wf_add m i b m' : wf m → AddMissionInfo i m = Some (b, m') → wf m'.
Proof.
  intros Hwf. unfold AddMissionInfo.
  destruct (default _ _) eqn:Hd; [by intros; simplify_eq|].
  destruct (taskDataPersistenceMgr_ m) as [s|]; simpl; [|done].
  destruct (store_save i s) as [[] s']; intros; simplify_eq; [|by apply wf_set_store].
  apply wf_insert; [done|]. rewrite <- lookup_true_default. congruence.
Qed.

Lemma wf_update m i b m' : wf m → UpdateMissionInfo i m = Some (b, m') → wf m'.
Proof.
  intros Hwf. unfold UpdateMissionInfo.
  destruct (negb _); [by intros; simplify_eq|].
  destruct (List.find _ _) as [old|] eqn:Hf; [|by intros; simplify_eq].
  destruct (decide _) as [Ht|Ht].
  - destruct (taskDataPersistenceMgr_ m) as [s|]; simpl; [|done].
    destruct (store_save i s); intros; simplify_eq. by eapply wf_replace.
  - intros Ha. eapply wf_add; [|exact Ha]. by apply wf_erase.
Qed.

Lemma wf_delete m id b m' : wf m → DeleteMissionInfo id m = (b, m') → wf m'.
Proof.
  intros Hwf. unfold DeleteMissionInfo.
  destruct (missionIdMap_ m !! id) as [[]|] eqn:Hid; [| |by intros; simplify_eq].
  - destruct (taskDataPersistenceMgr_ m) as [s|]; [|by intros; simplify_eq].
    destruct (store_delete id s) as [[] s']; intros; simplify_eq; [|by apply wf_set_store].
    apply wf_erase. by apply wf_set_store.
  - intros; simplify_eq. destruct Hwf as [Hnd Hsaved Hsort Hcur].
    constructor; simpl; [done| |done..]. intros id'. rewrite <- Hsaved.
    destruct (decide (id' = id)) as [->|]; [rewrite lookup_delete_eq; naive_solver|].
    by rewrite lookup_delete_ne.
Qed.

Lemma delete_unlocked_spec l idMap (s : S) :
  let '(kept, mp, s', notified) := delete_unlocked l idMap s in
  kept = filter (λ i, mi_lockedState (missionInfo i) = true) l ∧
  notified = info_id <$> filter (λ i, mi_lockedState (missionInfo i) = false) l ∧
  mp = foldl (λ mp' id, delete id mp') idMap notified.
Proof.
  revert idMap s. induction l as [|i l IH]; intros idMap s; simpl; [done|].
  rewrite !filter_cons. destruct (mi_lockedState (missionInfo i)) eqn:Hl; simpl.
  - specialize (IH idMap s). destruct (delete_unlocked l _ _) as [[[kept mp] s'] notified].
    destruct IH as (-> & -> & ->). done.
  - specialize (IH (delete (info_id i) idMap) (snd (store_delete (info_id i) s))).
    destruct (delete_unlocked l _ _) as [[[kept mp] s'] notified].
    destruct IH as (-> & -> & ->). done.
Qed.

Lemma lookup_foldl_delete {V} (ids : list Z) (mp : gmap Z V) id :
  foldl (λ mp' id', delete id' mp') mp ids !! id = if decide (id ∈ ids) then None else mp !! id.
Proof.
  revert mp. induction ids as [|x ids IH]; intros mp; cbn [foldl].
  - by rewrite decide_False by apply not_elem_of_nil.
  - rewrite IH. destruct (decide (id ∈ ids)) as [Hin|Hin].
    + destruct (decide (id ∈ x :: ids)); [done|set_solver].
    + destruct (decide (id ∈ x :: ids)) as [?|Hn]; (destruct (decide (id = x)) as [->|Hne];
        [rewrite lookup_delete_eq|rewrite lookup_delete_ne by done]); set_solver.
Qed.

Lemma wf_delete_all m lc b m' ids :
  wf m → DeleteAllMissionInfos lc m = (b, m', ids) → wf m'.
Proof.
  intros [Hnd Hsaved Hsort Hcur]. unfold DeleteAllMissionInfos.
  destruct (taskDataPersistenceMgr_ m) as [s|]; [|by intros; simplify_eq].
  pose proof (delete_unlocked_spec (missionInfoList_ m) (missionIdMap_ m) s) as Hspec.
  destruct (delete_unlocked _ _ _) as [[[kept mp] s'] notified].
  destruct Hspec as (-> & -> & ->). intros; simplify_eq. constructor; simpl; [| | |done].
  - eapply sublist_NoDup; [exact Hnd|]. apply fmap_sublist, sublist_filter.
  - intros id. rewrite lookup_foldl_delete.
    assert (id ∈ info_id <$> missionInfoList_ m ↔
      id ∈ info_id <$> filter (λ i, mi_lockedState (missionInfo i) = true) (missionInfoList_ m) ∨
      id ∈ info_id <$> filter (λ i, mi_lockedState (missionInfo i) = false) (missionInfoList_ m))
      as Hsplit.
    { rewrite !list_elem_of_fmap. setoid_rewrite list_elem_of_filter.
      split; [|naive_solver]. intros (i & -> & Hi).
      destruct (mi_lockedState (missionInfo i)) eqn:E; [left|right]; by exists i. }
    destruct (decide _) as [Hin|Hin].
    + split; [done|]. intros Hk. exfalso. apply list_elem_of_fmap in Hin as (i & -> & Hi).
      apply list_elem_of_fmap in Hk as (j & Hij & Hj). apply list_elem_of_filter in Hi, Hj.
      destruct Hi as [Hli Hi], Hj as [Hlj Hj].
      assert (infos_of (missionInfoList_ m) !! info_id i = Some i) as E1
        by (by apply lookup_infos_of).
      assert (infos_of (missionInfoList_ m) !! info_id i = Some j) as E2
        by (apply lookup_infos_of; [done|]; by split).
      congruence.
    + rewrite Hsaved. tauto.
  - eapply StronglySorted_sublist; [apply sublist_filter|done].
Qed.

Lemma wf_timestamp m id t m' : wf m → UpdateMissionTimeStamp id t m = Some m' → wf m'.
Proof.
  intros Hwf. unfold UpdateMissionTimeStamp.
  destruct (List.find _ _) as [i|]; [|by intros; simplify_eq].
  destruct (decide _); [by intros; simplify_eq|].
  destruct (AddMissionInfo _ _) as [[b m1]|] eqn:Ha; simpl; intros; simplify_eq.
  eapply wf_add; [|exact Ha]. by apply wf_erase.
Qed.

Lemma wf_label m id lbl r m' : wf m → UpdateMissionLabel id lbl m = (r, m') → wf m'.
Proof.
  intros Hwf. unfold UpdateMissionLabel.
  destruct (taskDataPersistenceMgr_ m) as [s|]; [|by intros; simplify_eq].
  destruct (List.find _ _) as [i|] eqn:Hf; [|by intros; simplify_eq].
  pose proof (find_Some_elem _ _ _ Hf) as [_ Hi]. unfold has_id in Hi. bool_to_prop. subst id.
  destruct (store_save _ _); intros; simplify_eq.
  exact (wf_replace m (set_label lbl i) i _ Hwf Hf eq_refl).
Qed.

Lemma wf_uninstall m bundle uid l l' m' :
  wf m → HandleUnInstallApp bundle uid l m = (l', m') → wf m'.
Proof.
  intros Hwf. unfold HandleUnInstallApp. intros; simplify_eq.
  generalize (GetMatchedMission bundle uid l m). intros ids. revert m Hwf.
  induction ids as [|id ids IH]; intros m Hwf; simpl; [done|].
  apply IH. destruct (DeleteMissionInfo id m) eqn:Hd. by eapply wf_delete.
Qed.

Lemma wf_register m h : wf m → wf (RegisterSnapshotHandler h m).
Proof. intros []. by constructor. Qed.

Lemma wf_snapshot m id tok s b s' m' :
  wf m → UpdateMissionSnapshot GetSnapshot id tok s m = (b, s', m') → wf m'.
Proof.
  intros Hwf. unfold UpdateMissionSnapshot.
  destruct (List.find _ _), (snapshotHandler_ m) as [h|]; try by intros; simplify_eq.
  destruct (GetSnapshot h tok) as [r p]. destruct (negb _); [by intros; simplify_eq|].
  destruct (taskDataPersistenceMgr_ m); [|by intros; simplify_eq].
  destruct (store_save_snapshot _ _ _); intros; simplify_eq. by apply wf_set_store.
Qed.

Lemma wf_get_snapshot m id tok s force b s' m' :
  wf m → GetMissionSnapshot GetSnapshot id tok s force m = (b, s', m') → wf m'.
Proof.
  intros Hwf. unfold GetMissionSnapshot.
  destruct (List.find _ _), (taskDataPersistenceMgr_ m) as [st|]; try by intros; simplify_eq.
  destruct force; [by apply wf_snapshot|].
  destruct (store_get_snapshot _ _ _) as [[] ?]; [by intros; simplify_eq|by apply wf_snapshot].
Qed.
End preservation.

(** * Mission ids *)

Section ids.
Context {S H : Type}.
#[local] Abbreviation mgr := (MissionInfoMgr S H).

Lemma free_id_sound fuel index idMap r :
  free_id fuel index idMap = Returned r →
  match r with
  | Some k => index ≤ k < MAX_MISSION_ID ∧ idMap !! k = None ∧
              ∀ j, index ≤ j < k → is_Some (idMap !! j)
  | None => ∀ j, index ≤ j < MAX_MISSION_ID → is_Some (idMap !! j)
  end.
Proof.
  revert index. induction fuel as [|fuel IH]; intros index; simpl; [done|].
  destruct (index <? MAX_MISSION_ID) eqn:E; bool_to_prop.
  - destruct (idMap !! index) as [b|] eqn:Hi; intros Hr; simplify_eq.
    + apply IH in Hr. destruct r as [k|].
      * destruct Hr as (? & ? & Hj). split; [lia|]. split; [done|]. intros j ?.
        destruct (decide (j = index)) as [->|]; [by eexists|]. apply Hj. lia.
      * intros j ?. destruct (decide (j = index)) as [->|]; [by eexists|]. apply Hr. lia.
    + split; [lia|]. split; [done|]. lia.
  - intros; simplify_eq. lia.
Qed.

Lemma free_id_returns fuel index idMap :
  (size (filter (λ j, index ≤ j)%Z (dom (D := gset Z) idMap)) < fuel)%nat →
  ∃ r, free_id fuel index idMap = Returned r.
Proof.
  revert index. induction fuel as [|fuel IH]; intros index Hf; [lia|]. simpl.
  destruct (index <? MAX_MISSION_ID); [|by eexists].
  destruct (idMap !! index) as [b|] eqn:Hi; [|by eexists].
  apply IH.
  set (X := filter _ _) in Hf. set (Y := filter _ _).
  assert (X = {[index]} ∪ Y) as HX.
  { apply leibniz_equiv. intros j. unfold X, Y. rewrite elem_of_union, elem_of_singleton,
      !elem_of_filter. split.
    - intros [? ?]. destruct (decide (j = index)); [by left|right]. split; [lia|done].
    - intros [->|[? ?]]; [|split; [lia|done]]. split; [lia|]. apply elem_of_dom. by eexists. }
  rewrite HX, size_union, size_singleton in Hf; [lia|].
  apply disjoint_singleton_l. unfold Y. rewrite elem_of_filter. lia.
Qed.

Lemma GenerateMissionId_cases fuel (m : mgr) r m' :
  GenerateMissionId fuel m = Returned (r, m') →
  let cur := if currentMisionId_ m =? MAX_MISSION_ID then MIN_MISSION_ID
             else currentMisionId_ m in
  missionInfoList_ m' = missionInfoList_ m ∧
  match r with
  | Some k => cur ≤ k < MAX_MISSION_ID ∧ missionIdMap_ m !! k = None ∧
      (∀ j, cur ≤ j < k → is_Some (missionIdMap_ m !! j)) ∧
      missionIdMap_ m' = <[k := false]> (missionIdMap_ m) ∧ currentMisionId_ m' = k + 1
  | None => (∀ j, cur ≤ j < MAX_MISSION_ID → is_Some (missionIdMap_ m !! j)) ∧
      missionIdMap_ m' = missionIdMap_ m ∧ currentMisionId_ m' = cur
  end.
Proof.
  unfold GenerateMissionId. cbv zeta. generalize (if currentMisionId_ m =? MAX_MISSION_ID then MIN_MISSION_ID
    else currentMisionId_ m). intros cur.
  destruct (free_id fuel cur (missionIdMap_ m)) as [[k|]| |] eqn:Hf; cbn; intros; simplify_eq;
    apply free_id_sound in Hf; simpl; naive_solver.
Qed.

Lemma wf_generate fuel (m : mgr) r m' :
  wf m → GenerateMissionId fuel m = Returned (r, m') → wf m'.
Proof.
  intros [Hnd Hsaved Hsort Hcur] Hg. apply GenerateMissionId_cases in Hg as [Hl Hg].
  assert (MIN_MISSION_ID ≤ (if currentMisionId_ m =? MAX_MISSION_ID then MIN_MISSION_ID
             else currentMisionId_ m) ≤ MAX_MISSION_ID) as Hc
    by (unfold MIN_MISSION_ID, MAX_MISSION_ID, INT_MAX in *; destruct (_ =? _); lia).
  destruct r as [k|].
  - destruct Hg as (Hk & Hfree & _ & Hmp & Hcur'). constructor.
    + by rewrite Hl.
    + intros id. rewrite Hmp, Hl, <- Hsaved. destruct (decide (id = k)) as [->|].
      * rewrite lookup_insert_eq, Hfree. naive_solver.
      * by rewrite lookup_insert_ne.
    + by rewrite Hl.
    + rewrite Hcur'. lia.
  - destruct Hg as (_ & Hmp & Hcur'). constructor; rewrite ?Hl, ?Hmp, ?Hcur'; done.
Qed.
End ids.

(** * The contract: a catalogue of infos and reserved ids *)

Record catalogue := mkCat {
  cat_infos : gmap Z InnerMissionInfo;
  cat_reserved : gset Z;
}.

Definition cat_of {S H} (m : MissionInfoMgr S H) : catalogue :=
  mkCat (infos_of (missionInfoList_ m)) (reserved_of (missionIdMap_ m)).

Inductive mi_op :=
  | OpInit (userId : Z)
  | OpGenerate
  | OpAdd (i : InnerMissionInfo)
  | OpUpdate (i : InnerMissionInfo)
  | OpDelete (id : Z)
  | OpDeleteAll
  | OpTimeStamp (id : Z) (t : string)
  | OpLabel (id : Z) (label : string)
  | OpUninstall (bundle : string) (uid : Z) (missions : list Z)
  | OpRegister
  | OpSnapshot (id : Z)
  | OpGetSnapshot (id : Z) (force : bool).

Inductive mi_reply :=
  | RVoid
  | RBool (b : bool)
  | RInt (z : Z)
  | RId (id : option Z)
  | RIds (ids : list Z).

Section spec.
Definition cat_with (id : Z) (i : InnerMissionInfo) (c : catalogue) : catalogue :=
  mkCat (<[id := i]> (cat_infos c)) (cat_reserved c ∖ {[id]}).
Definition cat_without (id : Z) (c : catalogue) : catalogue :=
  mkCat (delete id (cat_infos c)) (cat_reserved c ∖ {[id]}).

Inductive cat_delete (id : Z) (c : catalogue) : bool → catalogue → Prop :=
  | cat_delete_ok : cat_delete id c true (cat_without id c)
  | cat_delete_fail : is_Some (cat_infos c !! id) → cat_delete id c false c.

Inductive cat_deletes : list Z → catalogue → catalogue → Prop :=
  | cat_deletes_nil c : cat_deletes [] c c
  | cat_deletes_cons id ids c b c1 c2 :
      cat_delete id c b c1 → cat_deletes ids c1 c2 → cat_deletes (id :: ids) c c2.

(** What each operation may do to the catalogue, and what it answers. An
    update whose save fails leaves the new info behind, or no info at all
    when its time stamp changed. *)
Inductive cat_step (c : catalogue) : mi_op → mi_reply → catalogue → Prop :=
  | cat_init_ok userId infos : cat_step c (OpInit userId) (RBool true) (mkCat infos ∅)
  | cat_init_fail userId c' :
      c' = c ∨ c' = mkCat ∅ ∅ → cat_step c (OpInit userId) (RBool false) c'
  | cat_generate id :
      MIN_MISSION_ID ≤ id < MAX_MISSION_ID →
      id ∉ dom (cat_infos c) → id ∉ cat_reserved c →
      cat_step c OpGenerate (RId (Some id)) (mkCat (cat_infos c) ({[id]} ∪ cat_reserved c))
  | cat_generate_none : cat_step c OpGenerate (RId None) c
  | cat_add i :
      cat_infos c !! info_id i = None →
      cat_step c (OpAdd i) (RBool true) (cat_with (info_id i) i c)
  | cat_add_fail i : cat_step c (OpAdd i) (RBool false) c
  | cat_update i :
      is_Some (cat_infos c !! info_id i) →
      cat_step c (OpUpdate i) (RBool true) (cat_with (info_id i) i c)
  | cat_update_missing i :
      cat_infos c !! info_id i = None → cat_step c (OpUpdate i) (RBool false) c
  | cat_update_unsaved i old :
      cat_infos c !! info_id i = Some old → info_time i = info_time old →
      cat_step c (OpUpdate i) (RBool false) (cat_with (info_id i) i c)
  | cat_update_lost i old :
      cat_infos c !! info_id i = Some old → info_time i ≠ info_time old →
      cat_step c (OpUpdate i) (RBool false) (cat_without (info_id i) c)
  | cat_step_delete id b c' : cat_delete id c b c' → cat_step c (OpDelete id) (RBool b) c'
  | cat_delete_all :
      cat_step c OpDeleteAll (RBool true)
        (mkCat (filter (λ ki, mi_lockedState (missionInfo ki.2) = true) (cat_infos c))
           (cat_reserved c))
  | cat_delete_all_fail : cat_step c OpDeleteAll (RBool false) c
  | cat_time_same id t :
      (∀ i, cat_infos c !! id = Some i → info_time i = t) → cat_step c (OpTimeStamp id t) RVoid c
  | cat_time id t i :
      cat_infos c !! id = Some i →
      cat_step c (OpTimeStamp id t) RVoid (cat_with id (set_time t i) c)
  | cat_time_lost id t i :
      cat_infos c !! id = Some i → info_time i ≠ t →
      cat_step c (OpTimeStamp id t) RVoid (cat_without id c)
  | cat_label id l i b :
      cat_infos c !! id = Some i →
      cat_step c (OpLabel id l) (RInt (if b : bool then 0 else -1)) (cat_with id (set_label l i) c)
  | cat_label_fail id l : cat_step c (OpLabel id l) (RInt (-1)) c
  | cat_uninstall bundle uid missions ids c' :
      (∀ id i, cat_infos c !! id = Some i → im_bundleName i = bundle → im_uid i = uid → id ∈ ids) →
      (∀ id, id ∈ ids → id ∈ missions ∨
        ∃ i, cat_infos c !! id = Some i ∧ im_bundleName i = bundle ∧ im_uid i = uid) →
      cat_deletes ids c c' →
      cat_step c (OpUninstall bundle uid missions) (RIds ids) c'
  | cat_register : cat_step c OpRegister RVoid c
  | cat_snapshot id b : cat_step c (OpSnapshot id) (RBool b) c
  | cat_get_snapshot id force b : cat_step c (OpGetSnapshot id force) (RBool b) c.
End spec.

Inductive cat_run : catalogue → list (mi_op * mi_reply) → catalogue → Prop :=
  | cat_run_nil c : cat_run c [] c
  | cat_run_snoc c tr o r c1 c2 :
      cat_run c tr c1 → cat_step c1 o r c2 → cat_run c (tr ++ [(o, r)]) c2.

Section execution.
Context {S PixelMap H Token : Type} `{!MissionStore S PixelMap}.
Context (GetSnapshot : H → Token → Z * option PixelMap).
(** What happens to the storage beside the calls of the manager, and the singleton that
    [DelayedSingleton::GetInstance] returns. *)
Context (background : S → S → Prop) (instance : option S).
#[local] Abbreviation mgr := (MissionInfoMgr S H).

(** One operation of the manager with the answer its caller sees. *)
Inductive mi_step (m : mgr) : mi_op → mi_reply → mgr → Prop :=
  | do_init userId b m' :
      Init instance userId m = Returned (b, m') → mi_step m (OpInit userId) (RBool b) m'
  | do_generate fuel r m' :
      GenerateMissionId fuel m = Returned (r, m') → mi_step m OpGenerate (RId r) m'
  | do_add i b m' : AddMissionInfo i m = Some (b, m') → mi_step m (OpAdd i) (RBool b) m'
  | do_update i b m' : UpdateMissionInfo i m = Some (b, m') → mi_step m (OpUpdate i) (RBool b) m'
  | do_delete id b m' : DeleteMissionInfo id m = (b, m') → mi_step m (OpDelete id) (RBool b) m'
  | do_delete_all lc b m' ids :
      DeleteAllMissionInfos lc m = (b, m', ids) → mi_step m OpDeleteAll (RBool b) m'
  | do_time id t m' :
      UpdateMissionTimeStamp id t m = Some m' → mi_step m (OpTimeStamp id t) RVoid m'
  | do_label id l z m' :
      UpdateMissionLabel id l m = (z, m') → mi_step m (OpLabel id l) (RInt z) m'
  | do_uninstall bundle uid missions ids m' :
      HandleUnInstallApp bundle uid missions m = (ids, m') →
      mi_step m (OpUninstall bundle uid missions) (RIds ids) m'
  | do_register h : mi_step m OpRegister RVoid (RegisterSnapshotHandler h m)
  | do_snapshot id tok s b s' m' :
      UpdateMissionSnapshot GetSnapshot id tok s m = (b, s', m') →
      mi_step m (OpSnapshot id) (RBool b) m'
  | do_get_snapshot id tok s force b s' m' :
      GetMissionSnapshot GetSnapshot id tok s force m = (b, s', m') →
      mi_step m (OpGetSnapshot id force) (RBool b) m'.

Inductive mi_run : mgr → list (mi_op * mi_reply) → mgr → Prop :=
  | mi_run_nil m : mi_run m [] m
  | mi_run_snoc m tr o r m1 m2 :
      mi_run m tr m1 → mi_step m1 o r m2 → mi_run m (tr ++ [(o, r)]) m2
  | mi_run_background m tr m1 s s' :
      mi_run m tr m1 → taskDataPersistenceMgr_ m1 = Some s → background s s' →
      mi_run m tr (set_infos (missionIdMap_ m1) (missionInfoList_ m1) (Some s') m1).

(** What the manager relies on: states of the storage that its operations keep, in
    which the infos that are loaded have distinct ids. *)
Record store_keeps (I : S → Prop) : Prop := {
  keeps_init u s : I s → I (snd (store_init u s));
  keeps_save i s : I s → I (snd (store_save i s));
  keeps_delete id s : I s → I (snd (store_delete id s));
  keeps_snapshot id sn s : I s → I (snd (store_save_snapshot id sn s));
  loads_distinct s l : I s → store_load [] s = Returned (Some l) → NoDup (info_id <$> l);
}.

Definition held (I : S → Prop) (m : mgr) : Prop := ∀ s, taskDataPersistenceMgr_ m = Some s → I s.
End execution.

(** * Refinement, operation by operation *)

Lemma elem_of_reserved mp id : id ∈ reserved_of mp ↔ mp !! id = Some false.
Proof.
  unfold reserved_of. rewrite elem_of_dom. split.
  - intros [b Hb]. apply map_lookup_filter_Some in Hb as [? Hb]. by simpl in Hb; subst.
  - intros Hid. exists false. by apply map_lookup_filter_Some.
Qed.

Lemma reserved_of_insert_true mp id : reserved_of (<[id := true]> mp) = reserved_of mp ∖ {[id]}.
Proof.
  apply set_eq. intros j. rewrite elem_of_difference, elem_of_singleton, !elem_of_reserved.
  destruct (decide (j = id)) as [->|]; [rewrite lookup_insert_eq|rewrite lookup_insert_ne by done];
    naive_solver.
Qed.

Lemma reserved_of_insert_false mp id : reserved_of (<[id := false]> mp) = {[id]} ∪ reserved_of mp.
Proof.
  apply set_eq. intros j. rewrite elem_of_union, elem_of_singleton, !elem_of_reserved.
  destruct (decide (j = id)) as [->|]; [rewrite lookup_insert_eq|rewrite lookup_insert_ne by done];
    naive_solver.
Qed.

Lemma reserved_of_delete mp id : reserved_of (delete id mp) = reserved_of mp ∖ {[id]}.
Proof.
  apply set_eq. intros j. rewrite elem_of_difference, elem_of_singleton, !elem_of_reserved.
  destruct (decide (j = id)) as [->|]; [rewrite lookup_delete_eq|rewrite lookup_delete_ne by done];
    naive_solver.
Qed.

Lemma cat_eq i1 r1 i2 r2 : i1 = i2 → r1 = r2 → mkCat i1 r1 = mkCat i2 r2.
Proof. by intros -> ->. Qed.

Lemma reserved_of_empty : reserved_of ∅ = ∅.
Proof.
  apply set_eq. intros j. rewrite elem_of_reserved, lookup_empty. split; [done|].
  by intros ?%not_elem_of_empty.
Qed.

Section refinement.
Context {S PixelMap H Token : Type} `{!MissionStore S PixelMap}.
Context (GetSnapshot : H → Token → Z * option PixelMap).
#[local] Abbreviation mgr := (MissionInfoMgr S H).
Implicit Types (m : mgr) (i : InnerMissionInfo).

Lemma wf_cat_dom m id :
  wf m → missionIdMap_ m !! id = Some true ↔ is_Some (cat_infos (cat_of m) !! id).
Proof.
  intros Hwf. rewrite (wf_saved _ Hwf). simpl. rewrite <- not_eq_None_Some, lookup_infos_of_None.
  split; [tauto|]. intros ?. by apply dec_stable.
Qed.

Lemma wf_cat_find m id :
  wf m → List.find (has_id id) (missionInfoList_ m) = cat_infos (cat_of m) !! id.
Proof. intros Hwf. apply find_has_id_lookup, Hwf. Qed.

Lemma cat_of_erase m id : wf m → cat_of (erase_info id m) = cat_without id (cat_of m).
Proof.
  intros Hwf. apply cat_eq; simpl; [|apply reserved_of_delete].
  by apply infos_of_erase, Hwf.
Qed.

(** The only two outcomes of an add that passes the id check. *)
Lemma add_cases m i b m' :
  wf m → AddMissionInfo i m = Some (b, m') →
  (b = true ∧ cat_infos (cat_of m) !! info_id i = None ∧
     cat_of m' = cat_with (info_id i) i (cat_of m)) ∨
  (b = false ∧ cat_of m' = cat_of m).
Proof.
  intros Hwf. unfold AddMissionInfo.
  destruct (default _ _) eqn:Hd; [intros; simplify_eq; by right|].
  destruct (taskDataPersistenceMgr_ m) as [s|]; simpl; [|done].
  destruct (store_save i s) as [[] s']; intros; simplify_eq; [left|by right].
  assert (cat_infos (cat_of m) !! info_id i = None) as Hnone.
  { apply eq_None_not_Some. rewrite <- wf_cat_dom by done. rewrite <- lookup_true_default. congruence. }
  split_and!; [done|done|]. apply cat_eq; simpl; [|apply reserved_of_insert_true].
  apply infos_of_insert; [apply Hwf|]. by apply lookup_infos_of_None.
Qed.

Lemma cat_with_without id i c : cat_with id i (cat_without id c) = cat_with id i c.
Proof. apply cat_eq; simpl; [apply insert_delete_eq|set_solver]. Qed.

Lemma cat_of_replace m i old s :
  wf m → List.find (has_id (info_id i)) (missionInfoList_ m) = Some old →
  cat_of (set_infos (missionIdMap_ m)
    (replace_first (has_id (info_id i)) i (missionInfoList_ m)) s m)
  = cat_with (info_id i) i (cat_of m).
Proof.
  intros Hwf Hf. pose proof Hf as Hf'. rewrite wf_cat_find in Hf' by done.
  assert (missionIdMap_ m !! info_id i = Some true) as Ht
    by (apply wf_cat_dom; [done|by eexists]).
  apply cat_eq; simpl.
  - apply infos_of_replace; [apply Hwf|]. by rewrite <- (wf_saved _ Hwf).
  - apply set_eq. intros j. rewrite elem_of_difference, elem_of_singleton, elem_of_reserved.
    naive_solver congruence.
Qed.

Lemma update_refines m i b m' :
  wf m → UpdateMissionInfo i m = Some (b, m') →
  cat_step (cat_of m) (OpUpdate i) (RBool b) (cat_of m').
Proof.
  intros Hwf. unfold UpdateMissionInfo. destruct (negb _) eqn:Hn.
  { intros; simplify_eq. apply cat_update_missing, eq_None_not_Some.
    rewrite <- wf_cat_dom by done. rewrite <- lookup_true_default. bool_to_prop. congruence. }
  destruct (List.find _ _) as [old|] eqn:Hf; rewrite wf_cat_find in Hf by done;
    [|intros; simplify_eq; by apply cat_update_missing].
  destruct (decide _) as [Ht|Ht].
  - destruct (taskDataPersistenceMgr_ m) as [s|]; simpl; [|done].
    destruct (store_save i s) as [[] s']; intros; simplify_eq;
      erewrite cat_of_replace by (done || by rewrite wf_cat_find).
    + apply cat_update. by eexists.
    + by eapply cat_update_unsaved.
  - intros Ha. apply add_cases in Ha; [|by apply wf_erase].
    rewrite cat_of_erase in Ha by done.
    destruct Ha as [(-> & _ & ->)|(-> & ->)].
    + rewrite cat_with_without. apply cat_update. by eexists.
    + by eapply cat_update_lost.
Qed.

Lemma delete_refines m id b m' :
  wf m → DeleteMissionInfo id m = (b, m') → cat_delete id (cat_of m) b (cat_of m').
Proof.
  intros Hwf. unfold DeleteMissionInfo.
  destruct (missionIdMap_ m !! id) as [[]|] eqn:Hid.
  - assert (is_Some (cat_infos (cat_of m) !! id)) as Hs by (by apply wf_cat_dom).
    destruct (taskDataPersistenceMgr_ m) as [s|];
      [|intros; simplify_eq; by apply cat_delete_fail].
    destruct (store_delete id s) as [[] s']; intros; simplify_eq; [|by apply cat_delete_fail].
    rewrite (cat_of_erase (set_infos _ _ _ m)) by (by apply wf_set_store). apply cat_delete_ok.
  - intros; simplify_eq.
    assert (cat_of (set_infos (delete id (missionIdMap_ m)) (missionInfoList_ m)
      (taskDataPersistenceMgr_ m) m) = cat_without id (cat_of m)) as ->; [|constructor].
    apply cat_eq; simpl; [|apply reserved_of_delete]. symmetry. apply delete_id.
    apply lookup_infos_of_None. rewrite <- (wf_saved _ Hwf). congruence.
  - intros; simplify_eq.
    assert (cat_of m' = cat_without id (cat_of m')) as Heq; [|rewrite Heq at 2; constructor].
    apply cat_eq; simpl.
    + symmetry. apply delete_id. apply lookup_infos_of_None. rewrite <- (wf_saved _ Hwf). congruence.
    + apply set_eq. intros j. rewrite elem_of_difference, elem_of_singleton, elem_of_reserved.
      naive_solver congruence.
Qed.

Lemma infos_of_filter P `{!∀ i, Decision (P i)} l :
  NoDup (info_id <$> l) → infos_of (filter P l) = filter (λ ki, P ki.2) (infos_of l).
Proof.
  intros Hnd. apply map_eq. intros id. apply option_eq. intros i.
  assert (NoDup (info_id <$> filter P l)).
  { eapply sublist_NoDup; [exact Hnd|]. apply fmap_sublist, sublist_filter. }
  rewrite map_lookup_filter_Some, !lookup_infos_of, list_elem_of_filter by done. naive_solver.
Qed.

Lemma delete_all_refines m lc b m' ids :
  wf m → DeleteAllMissionInfos lc m = (b, m', ids) →
  cat_step (cat_of m) OpDeleteAll (RBool b) (cat_of m').
Proof.
  intros Hwf. unfold DeleteAllMissionInfos.
  destruct (taskDataPersistenceMgr_ m) as [s|];
    [|intros; simplify_eq; by apply cat_delete_all_fail].
  pose proof (delete_unlocked_spec (missionInfoList_ m) (missionIdMap_ m) s) as Hspec.
  destruct (delete_unlocked _ _ _) as [[[kept mp] s'] notified].
  destruct Hspec as (-> & -> & ->). intros; simplify_eq.
  match goal with |- cat_step _ _ _ ?c => assert (c = mkCat
    (filter (λ ki, mi_lockedState (missionInfo ki.2) = true) (cat_infos (cat_of m)))
    (cat_reserved (cat_of m))) as -> end; [|constructor].
  apply cat_eq; simpl; [by apply infos_of_filter, Hwf|].
  apply set_eq. intros j. rewrite !elem_of_reserved, lookup_foldl_delete.
  destruct (decide _) as [Hin|]; [|done]. split; [done|]. intros Hj. exfalso.
  assert (missionIdMap_ m !! j = Some true); [|congruence].
  apply (wf_saved _ Hwf). apply list_elem_of_fmap in Hin as (i & -> & Hi).
  apply list_elem_of_filter in Hi as [_ Hi]. by apply list_elem_of_fmap_2.
Qed.

Lemma time_refines m id t m' :
  wf m → UpdateMissionTimeStamp id t m = Some m' →
  cat_step (cat_of m) (OpTimeStamp id t) RVoid (cat_of m').
Proof.
  intros Hwf. unfold UpdateMissionTimeStamp.
  destruct (List.find _ _) as [i|] eqn:Hf; pose proof Hf as Hf'; rewrite wf_cat_find in Hf' by done;
    [|intros; simplify_eq; apply cat_time_same; naive_solver].
  destruct (decide _); [intros; simplify_eq; apply cat_time_same; naive_solver|].
  destruct (AddMissionInfo _ _) as [[b m1]|] eqn:Ha; simpl; intros; simplify_eq.
  apply find_Some_elem in Hf as [_ Hi]. unfold has_id in Hi. bool_to_prop. subst id.
  apply add_cases in Ha; [|by apply wf_erase]. rewrite cat_of_erase in Ha by done.
  destruct Ha as [(_ & _ & ->)|(_ & ->)].
  - change (info_id (set_time t i)) with (info_id i). rewrite cat_with_without. by constructor.
  - by eapply cat_time_lost.
Qed.

Lemma label_refines m id l z m' :
  wf m → UpdateMissionLabel id l m = (z, m') →
  cat_step (cat_of m) (OpLabel id l) (RInt z) (cat_of m').
Proof.
  intros Hwf. unfold UpdateMissionLabel.
  destruct (taskDataPersistenceMgr_ m) as [s|];
    [|intros; simplify_eq; apply cat_label_fail].
  destruct (List.find _ _) as [i|] eqn:Hf; [|intros; simplify_eq; apply cat_label_fail].
  pose proof Hf as Hf'. rewrite wf_cat_find in Hf' by done.
  pose proof (find_Some_elem _ _ _ Hf) as [_ Hi]. unfold has_id in Hi. bool_to_prop. subst id.
  destruct (store_save _ s) as [ok s']; intros; simplify_eq.
  pose proof (cat_of_replace m (set_label l i) i (Some s') Hwf Hf) as Hr.
  change (info_id (set_label l i)) with (info_id i) in Hr. rewrite Hr. by constructor.
Qed.

Lemma deletes_refine ids m :
  wf m → cat_deletes ids (cat_of m)
    (cat_of (foldl (λ m' id, snd (DeleteMissionInfo id m')) m ids)).
Proof.
  revert m. induction ids as [|id ids IH]; intros m Hwf; simpl; [constructor|].
  destruct (DeleteMissionInfo id m) as [b m1] eqn:Hd. econstructor.
  - by eapply delete_refines.
  - apply IH. by eapply wf_delete.
Qed.

Lemma uninstall_refines m bundle uid missions ids m' :
  wf m → HandleUnInstallApp bundle uid missions m = (ids, m') →
  cat_step (cat_of m) (OpUninstall bundle uid missions) (RIds ids) (cat_of m').
Proof.
  intros Hwf. unfold HandleUnInstallApp. intros; simplify_eq.
  pose proof (wf_nodup _ Hwf) as Hnd.
  apply cat_uninstall; [| |by apply deletes_refine]; unfold GetMatchedMission.
  - intros id i [Hi <-]%lookup_infos_of Hb Hu; [|done]. rewrite elem_of_app. right.
    apply list_elem_of_fmap_2, list_elem_of_filter. by repeat split.
  - intros id [?|Hin]%elem_of_app; [by left|right].
    apply list_elem_of_fmap in Hin as (i & -> & [[? ?] Hi]%list_elem_of_filter).
    exists i. split; [by apply lookup_infos_of|done].
Qed.

Lemma init_cases I m instance userId b m' :
  store_keeps I → (∀ s, instance = Some s → I s) → held I m → wf m → Init instance userId m = Returned (b, m') →
  wf m' ∧ cat_step (cat_of m) (OpInit userId) (RBool b) (cat_of m').
Proof.
  intros Hload Hin Hheld Hwf. unfold Init.
  destruct (match _ with Some s => Some s | None => instance end) as [s|] eqn:Es;
    [|intros; simplify_eq; split; [done|]; apply cat_init_fail; by left].
  assert (I s) as HI by (destruct (taskDataPersistenceMgr_ m) eqn:Em; [simplify_eq; by apply Hheld|by apply Hin]).
  apply (keeps_init _ Hload userId) in HI.
  destruct (store_init userId s) as [[] s']; intros Hi; simplify_eq;
    [|split; [by apply wf_set_store|]; apply cat_init_fail; by left].
  unfold LoadAllMissionInfo in Hi. simpl in Hi.
  assert (wf (set_infos ∅ [] (Some s') m)) as Hwf0.
  { destruct Hwf. constructor; simpl; [by constructor| |constructor|done].
    intros id. rewrite lookup_empty. split; [done|]. by intros ?%not_elem_of_nil. }
  destruct (store_load [] s') as [[l|]| |] eqn:Hl; cbn in Hi; simplify_eq;
    [|split; [done|]; apply cat_init_fail; right; apply cat_eq; [done|];
      apply reserved_of_empty].
  pose proof (loads_distinct _ Hload _ _ HI Hl) as Hnd.
  set (l' := list_sort _ l). assert (l' ≡ₚ l) as Hp by apply list_sort_perm.
  assert (∀ (mp : gmap Z bool) id, foldl (λ mp i, <[info_id i := true]> mp) mp l' !! id
    = if decide (id ∈ info_id <$> l') then Some true else mp !! id) as Hmp.
  { clear. induction l' as [|i l' IH]; intros mp id; cbn [foldl].
    - by rewrite decide_False by apply not_elem_of_nil.
    - rewrite IH. csimpl. repeat destruct (decide _); try done; [set_solver| |].
      + assert (id = info_id i) as -> by set_solver. by rewrite lookup_insert_eq.
      + rewrite lookup_insert_ne; [done|set_solver]. }
  split; [|match goal with |- cat_step _ _ _ ?c =>
             replace c with (mkCat (infos_of l') ∅); [constructor|] end].
  - destruct Hwf. constructor; simpl; [by rewrite Hp| | |done].
    + intros id. rewrite Hmp, lookup_empty. destruct (decide _); naive_solver.
    + apply list_sort_sorted; [apply _|..]; unfold newer_eq; intros x y; auto with aafwk.
  - apply cat_eq; [done|]. apply set_eq. intros j. rewrite elem_of_reserved. simpl.
    rewrite Hmp, lookup_empty. destruct (decide _); set_solver.
Qed.

(** Every operation keeps what is known of the storage. *)
Lemma delete_held I m id : store_keeps I → held I m → held I (snd (DeleteMissionInfo id m)).
Proof.
  intros Hk Hh. unfold DeleteMissionInfo. destruct (missionIdMap_ m !! id) as [[]|]; [|by intros s [= E]; apply Hh|done].
  destruct (taskDataPersistenceMgr_ m) as [s|] eqn:Es; [|done]. pose proof (keeps_delete _ Hk id s (Hh _ Es)) as HI.
  destruct (store_delete id s) as [[] s']; intros s1 [= <-]; exact HI.
Qed.

Lemma save_held I i s ok s' : store_keeps I → I s → store_save i s = (ok, s') → I s'.
Proof. intros Hk HI E. pose proof (keeps_save _ Hk i s HI) as H'. by rewrite E in H'. Qed.

Lemma add_held I m i b m' : store_keeps I → held I m → AddMissionInfo i m = Some (b, m') → held I m'.
Proof.
  intros Hk Hh. unfold AddMissionInfo. destruct (default _ _); [by intros [= _ <-]|].
  destruct (taskDataPersistenceMgr_ m) as [s|] eqn:Es; [|done]. cbn.
  destruct (store_save i s) as [[] s'] eqn:E; intros [= _ <-] s1 [= <-]; eapply save_held; eauto.
Qed.

Lemma unlocked_held I l mp s : store_keeps I → I s → I (delete_unlocked l mp s).1.2.
Proof.
  intros Hk. revert mp s. induction l as [|i l IH]; intros mp s HI; cbn [delete_unlocked]; [done|].
  destruct (negb _).
  - specialize (IH (delete (info_id i) mp) _ (keeps_delete _ Hk (info_id i) s HI)).
    by destruct (delete_unlocked _ _ _) as [[[? ?] ?] ?].
  - specialize (IH mp s HI). by destruct (delete_unlocked _ _ _) as [[[? ?] ?] ?].
Qed.

Lemma snapshot_held I id tok sn m : store_keeps I → held I m → held I (UpdateMissionSnapshot GetSnapshot id tok sn m).2.
Proof.
  intros Hk Hh. unfold UpdateMissionSnapshot. destruct (List.find _ _) as [i|]; [|done].
  destruct (snapshotHandler_ m) as [h|]; [|done]. destruct (GetSnapshot _ _) as [result p].
  destruct (negb _); [done|]. destruct (taskDataPersistenceMgr_ m) as [s|] eqn:Es; [|done].
  pose proof (λ sn, keeps_snapshot _ Hk id sn s (Hh _ Es)) as HI. cbv zeta.
  match goal with |- context [store_save_snapshot id ?x s] => specialize (HI x); destruct (store_save_snapshot id x s) as [ok s'] end.
  by intros s1 [= <-].
Qed.

Lemma mi_step_held I instance m o r m' :
  store_keeps I → (∀ s, instance = Some s → I s) → held I m → mi_step GetSnapshot instance m o r m' → held I m'.
Proof.
  intros Hk Hin Hh Hstep. destruct Hstep as [u b m' Hs|fuel r m' Hs|i b m' Hs|i b m' Hs|id b m' Hs|lc b m' ids Hs|id t m' Hs
    |id l z m' Hs|bundle uid missions ids m' Hs|h|id tok sn b sn' m' Hs|id tok sn force b sn' m' Hs].
  - unfold Init in Hs. destruct (match _ with Some s => Some s | None => instance end) as [s|] eqn:Es; [|by injection Hs as <- <-].
    assert (I s) as HI by (destruct (taskDataPersistenceMgr_ m) eqn:Em; [simplify_eq; by apply Hh|by apply Hin]).
    apply (keeps_init _ Hk u) in HI. destruct (store_init u s) as [[] s'].
    + unfold LoadAllMissionInfo in Hs. cbn [set_infos taskDataPersistenceMgr_ missionInfoList_] in Hs.
      destruct (store_load [] s') as [[l|]| |]; try done; injection Hs as <- <-; by intros s1 [= <-].
    + injection Hs as <- <-. by intros s1 [= <-].
  - unfold GenerateMissionId in Hs. destruct (free_id _ _ _) as [[k|]| |]; try done; injection Hs as <- <-; exact Hh.
  - by eapply add_held.
  - unfold UpdateMissionInfo in Hs. destruct (negb _); [by injection Hs as <- <-|].
    destruct (List.find _ _) as [old|]; [|by injection Hs as <- <-]. destruct (decide _).
    + destruct (taskDataPersistenceMgr_ m) as [s|] eqn:Es; [|done]. cbn in Hs.
      destruct (store_save i s) as [ok s'] eqn:E. injection Hs as <- <-. intros s1 [= <-]. eapply save_held; eauto.
    + eapply add_held; [exact Hk| |exact Hs]. exact Hh.
  - pose proof (delete_held I m id Hk Hh) as HI. by rewrite Hs in HI.
  - unfold DeleteAllMissionInfos in Hs. destruct (taskDataPersistenceMgr_ m) as [s|] eqn:Es; [|by injection Hs as <- <- <-].
    pose proof (unlocked_held I (missionInfoList_ m) (missionIdMap_ m) s Hk (Hh _ Es)) as HI.
    destruct (delete_unlocked _ _ _) as [[[? ?] s'] ?]. injection Hs as <- <- _. by intros s1 [= <-].
  - unfold UpdateMissionTimeStamp in Hs. destruct (List.find _ _) as [i|]; [|by injection Hs as <-].
    destruct (decide _); [by injection Hs as <-|]. destruct (AddMissionInfo _ _) as [[b m1]|] eqn:E; [|done].
    injection Hs as <-. eapply add_held; [exact Hk| |exact E]. exact Hh.
  - unfold UpdateMissionLabel in Hs. destruct (taskDataPersistenceMgr_ m) as [s|] eqn:Es; [|by injection Hs as <- <-].
    destruct (List.find _ _) as [i|]; [|by injection Hs as <- <-]. destruct (store_save _ s) as [ok s'] eqn:E.
    injection Hs as <- <-. intros s1 [= <-]. eapply save_held; eauto.
  - unfold HandleUnInstallApp in Hs. injection Hs as _ <-. generalize (GetMatchedMission bundle uid missions m). intros l. revert m Hh.
    induction l as [|id l IH]; intros m Hh; [done|]. cbn [foldl]. by apply IH, delete_held.
  - exact Hh.
  - pose proof (snapshot_held I id tok sn m Hk Hh) as HI. by rewrite Hs in HI.
  - unfold GetMissionSnapshot in Hs. destruct (List.find _ _) as [i|]; [|by injection Hs as <- <- <-].
    destruct (taskDataPersistenceMgr_ m) as [s|] eqn:Es; [|by injection Hs as <- <- <-]. destruct force.
    + pose proof (snapshot_held I id tok sn m Hk Hh) as HI. by rewrite Hs in HI.
    + destruct (store_get_snapshot id sn s) as [[] sn1]; [by injection Hs as <- <- <-|].
      pose proof (snapshot_held I id tok sn1 m Hk Hh) as HI. by rewrite Hs in HI.
Qed.

(** Every operation keeps the invariant and does what the contract allows. *)
Lemma mi_step_refines I instance m o r m' :
  store_keeps I → (∀ s, instance = Some s → I s) → held I m → wf m → mi_step GetSnapshot instance m o r m' →
  wf m' ∧ cat_step (cat_of m) o r (cat_of m').
Proof.
  intros Hload Hin Hheld Hwf Hstep.
  destruct Hstep as [? ? ? Hs|? ? ? Hs|? ? ? Hs|? ? ? Hs|? ? ? Hs|? ? ? ? Hs|? ? ? Hs
    |? ? ? ? Hs|? ? ? ? ? Hs|h|? ? ? ? ? ? Hs|? ? ? ? ? ? ? Hs].
  - exact (init_cases I m instance _ _ _ Hload Hin Hheld Hwf Hs).
  - split; [by eapply wf_generate|]. pose proof (wf_current _ Hwf) as Hcur.
    apply GenerateMissionId_cases in Hs as [Hl Hr].
    destruct r as [k|].
    + destruct Hr as (Hk & Hfree & _ & Hmp & _).
      replace (cat_of m') with (mkCat (cat_infos (cat_of m)) ({[k]} ∪ cat_reserved (cat_of m)))
        by (unfold cat_of; by rewrite Hl, Hmp, reserved_of_insert_false).
      apply cat_generate.
      * destruct (currentMisionId_ m =? MAX_MISSION_ID); lia.
      * rewrite not_elem_of_dom. simpl. apply lookup_infos_of_None.
        rewrite <- (wf_saved _ Hwf). congruence.
      * simpl. rewrite elem_of_reserved. congruence.
    + destruct Hr as (_ & Hmp & _).
      replace (cat_of m') with (cat_of m) by (unfold cat_of; by rewrite Hl, Hmp). constructor.
  - split; [by eapply wf_add|].
    destruct (add_cases _ _ _ _ Hwf Hs) as [(-> & ? & ->)|(-> & ->)]; by constructor.
  - split; [by eapply wf_update|by eapply update_refines].
  - split; [by eapply wf_delete|]. apply cat_step_delete. by eapply delete_refines.
  - split; [by eapply wf_delete_all|by eapply delete_all_refines].
  - split; [by eapply wf_timestamp|by eapply time_refines].
  - split; [by eapply wf_label|by eapply label_refines].
  - split; [by eapply wf_uninstall|by eapply uninstall_refines].
  - split; [by apply wf_register|constructor].
  - split; [by eapply wf_snapshot|]. replace (cat_of m') with (cat_of m); [constructor|].
    unfold UpdateMissionSnapshot in Hs. repeat case_match; by simplify_eq.
  - split; [by eapply wf_get_snapshot|]. replace (cat_of m') with (cat_of m); [constructor|].
    unfold GetMissionSnapshot, UpdateMissionSnapshot in Hs. repeat case_match; by simplify_eq.
Qed.
End refinement.

(** * Queries *)

Definition visible (i : InnerMissionInfo) : Prop := startMethod i ≠ START_CALL.

#[export] Instance visible_dec i : Decision (visible i).
Proof. unfold visible. apply _. Defined.

Lemma not_shown_visible i : DoesNotShowInTheMissionList (startMethod i) = negb (bool_decide (visible i)).
Proof.
  unfold DoesNotShowInTheMissionList. case_bool_decide as Hv; unfold visible in Hv;
    destruct (Z.eqb_spec (startMethod i) START_CALL); done.
Qed.

Lemma collect_infos_spec numMax l acc :
  collect_infos numMax l acc
  = acc ++ take (Z.to_nat numMax - length acc) (missionInfo <$> filter visible l).
Proof.
  revert acc. induction l as [|i l IH]; intros acc; simpl; [by rewrite take_nil, app_nil_r|].
  rewrite not_shown_visible, filter_cons.
  destruct (numMax <=? _) eqn:E; bool_to_prop.
  - replace (Z.to_nat numMax - length acc)%nat with 0%nat by lia. by rewrite take_0, app_nil_r.
  - destruct (decide (visible i)) as [Hv|Hv].
    + rewrite bool_decide_true by done. simpl. rewrite IH, length_app, <- app_assoc. f_equal.
      csimpl. destruct (Z.to_nat numMax - length acc)%nat as [|n] eqn:En; [lia|].
      simpl. by replace (Z.to_nat numMax - (length acc + 1))%nat with n by lia.
    + rewrite bool_decide_false by done. simpl. apply IH.
Qed.

(** Every execution over a storage that keeps what the manager relies on. *)
Lemma mi_run_refines {S PixelMap H Token} `{!MissionStore S PixelMap} (GetSnapshot : H → Token → Z * option PixelMap)
    background instance (I : S → Prop) tr (m : MissionInfoMgr S H) :
  store_keeps I → (∀ s, instance = Some s → I s) → (∀ s s', background s s' → I s → I s') →
  mi_run GetSnapshot background instance MIM_new tr m →
  held I m ∧ wf m ∧ cat_run (mkCat ∅ ∅) tr (cat_of m).
Proof.
  intros Hk Hin Hb Hrun.
  assert (∀ m0 : MissionInfoMgr S H, mi_run GetSnapshot background instance m0 tr m → held I m0 → wf m0 →
    held I m ∧ wf m ∧ cat_run (cat_of m0) tr (cat_of m)) as Hsim.
  { clear Hrun. intros m0. induction 1 as [m0|m0 tr o r m1 m2 _ IH Hs|m0 tr m1 s s' _ IH Es Hs]; intros Hh Hwf.
    - split; [done|]. split; [done|constructor].
    - destruct (IH Hh Hwf) as (Hh1 & Hwf1 & Hc). split; [exact (mi_step_held _ I instance m1 o r m2 Hk Hin Hh1 Hs)|].
      destruct (mi_step_refines _ _ _ _ _ _ _ Hk Hin Hh1 Hwf1 Hs) as [? ?]. split; [done|]. by econstructor.
    - destruct (IH Hh Hwf) as (Hh1 & Hwf1 & Hc). split; [intros s1 [= <-]; by eapply Hb, Hh1|].
      split; [by apply wf_set_store|done]. }
  destruct (Hsim _ Hrun) as (? & ? & Hc); [done|apply wf_new|]. split; [done|]. split; [done|].
  unfold cat_of in Hc. simpl in Hc. by rewrite reserved_of_empty in Hc.
Qed.

(** The persistence manager is such a storage while its files are those it saved. *)
Lemma TaskData_keeps {FS PixelMap} `{!FileUtil FS PixelMap} json_parse parse_uri runner_create post_task :
  FileUtil_laws FS PixelMap →
  store_keeps (MissionStore0 := TaskData_store json_parse parse_uri runner_create post_task)
    (λ m : TaskDataPersistenceMgr FS PixelMap, saved_files json_parse parse_uri (tdpm_fs m)).
Proof.
  intros Hf. constructor; cbn.
  - intros u m. unfold TDPM_Init. by destruct (negb _ && _).
  - intros i m. unfold TDPM_SaveMissionInfo. by repeat case_match.
  - intros id m. unfold TDPM_DeleteMissionInfo. by repeat case_match.
  - intros id sn m. unfold TDPM_SaveMissionSnapshot. by repeat case_match.
  - intros m l. by apply loaded_distinct.
Qed.

(** * Claims *)

(** C24: every execution of the manager over the persistence manager is one of the
    catalogue of infos and reserved ids: whatever sequence of operations runs, with the
    handler saving and deleting files in between, whatever saves fail and whatever users
    are removed, the state stays well formed (unique ids, the id map true exactly at the
    saved ids, the list newest first) and every answer and every change is one the
    catalogue allows. At the start the files of the infos are those that a manager has
    saved, each under its own id, and so they are afterwards. *)
Theorem MissionInfoMgr_refines {FS PixelMap H Token} `{!FileUtil FS PixelMap} json_dump json_parse parse_uri
    runner_create post_task (GetSnapshot : H → Token → Z * option PixelMap) fs tr
    (m : MissionInfoMgr (TaskDataPersistenceMgr FS PixelMap) H) :
  FileUtil_laws FS PixelMap → reads_written json_dump json_parse → saved_files json_parse parse_uri fs →
  mi_run (MissionStore0 := TaskData_store json_parse parse_uri runner_create post_task) GetSnapshot
    (TDPM_background json_dump) (Some (TDPM_new fs)) MIM_new tr m →
  wf m ∧ cat_run (mkCat ∅ ∅) tr (cat_of m) ∧
    ∀ s, taskDataPersistenceMgr_ m = Some s → saved_files json_parse parse_uri (tdpm_fs s).
Proof.
  intros Hf Hj Hs Hrun.
  assert (∀ s : TaskDataPersistenceMgr FS PixelMap, Some (TDPM_new fs) = Some s → saved_files json_parse parse_uri (tdpm_fs s)) as Hin
    by (intros s [= <-]; exact Hs).
  destruct (mi_run_refines _ _ _ _ _ _ (TaskData_keeps json_parse parse_uri runner_create post_task Hf) Hin
    (λ s s' Hb, saved_background json_dump json_parse parse_uri Hf Hj s s' Hb) Hrun) as (Hh & Hwf & Hc).
  split; [done|]. split; [done|]. exact Hh.
Qed.

Section claims.
Context {S PixelMap H Token : Type} `{!MissionStore S PixelMap}.
#[local] Abbreviation mgr := (MissionInfoMgr S H).

(** Mission ids: the search always returns, within one iteration more
    than there are ids taken, with the smallest free id at or after the
    current one; that id belongs to no mission, is marked as handed out and
    the search goes on behind it. It fails only when every id from the
    current one to the end of the range is taken. *)
Theorem GenerateMissionId_fresh (m : mgr) :
  wf m →
  let cur := if currentMisionId_ m =? MAX_MISSION_ID then MIN_MISSION_ID
             else currentMisionId_ m in
  ∃ r m', GenerateMissionId (Datatypes.S (size (missionIdMap_ m))) m = Returned (r, m') ∧
    match r with
    | Some k => MIN_MISSION_ID ≤ k < MAX_MISSION_ID ∧
        missionIdMap_ m !! k = None ∧ (k ∉ info_id <$> missionInfoList_ m) ∧
        (∀ j, cur ≤ j < k → is_Some (missionIdMap_ m !! j)) ∧
        missionIdMap_ m' !! k = Some false ∧ currentMisionId_ m' = k + 1
    | None => ∀ j, cur ≤ j < MAX_MISSION_ID → is_Some (missionIdMap_ m !! j)
    end.
Proof.
  intros Hwf cur. pose proof (wf_current _ Hwf) as Hcur.
  destruct (free_id_returns (Datatypes.S (size (missionIdMap_ m))) cur (missionIdMap_ m))
    as [r Hr].
  { rewrite <- (size_dom (D := gset Z) (missionIdMap_ m)).
    apply Nat.lt_succ_r, subseteq_size. set_solver. }
  assert (∃ m', GenerateMissionId (Datatypes.S (size (missionIdMap_ m))) m = Returned (r, m'))
    as [m' Hg].
  { unfold GenerateMissionId. fold cur. rewrite Hr. cbn. destruct r; by eexists. }
  exists r, m'. split; [done|]. apply GenerateMissionId_cases in Hg as [_ Hg].
  fold cur in Hg. destruct r as [k|]; [|apply Hg].
  destruct Hg as (Hk & Hfree & Hleast & Hmp & Hcur').
  split_and!; [|lia|done| |done| |done].
  - unfold cur in Hk. destruct (_ =? _); lia.
  - rewrite <- (wf_saved _ Hwf). congruence.
  - by rewrite Hmp, lookup_insert_eq.
Qed.

(** Once every id from the current one to the end of the range is
    taken, no call hands out an id again, however many smaller ids are
    free: the search does not wrap and the state does not change. *)
Theorem GenerateMissionId_gives_up (m : mgr) fuel r m' :
  currentMisionId_ m ≠ MAX_MISSION_ID →
  (∀ j, currentMisionId_ m ≤ j < MAX_MISSION_ID → is_Some (missionIdMap_ m !! j)) →
  GenerateMissionId fuel m = Returned (r, m') → r = None ∧ m' = m.
Proof.
  intros Hmax Hfull. unfold GenerateMissionId.
  rewrite (proj2 (Z.eqb_neq _ _)) by done.
  destruct (free_id fuel _ _) as [[k|]| |] eqn:Hf; cbn; intros; simplify_eq.
  - apply free_id_sound in Hf as (Hk & Hn & _). destruct (Hfull k Hk) as [b Hb]. congruence.
  - split; [done|]. by destruct m.
Qed.

(** [GetMissionInfos] appends the newest visible infos, up to the
    requested number in all, and they come newest first; missions started
    by a call never show. *)
Theorem GetMissionInfos_newest (m : mgr) numMax acc :
  wf m → 0 ≤ numMax →
  ∃ l, GetMissionInfos numMax acc m = (0, acc ++ (missionInfo <$> l)) ∧
    l = take (Z.to_nat numMax - length acc) (filter visible (missionInfoList_ m)) ∧
    StronglySorted newer_eq l ∧ Forall visible l ∧
    (∀ i j, i ∈ l → j ∈ missionInfoList_ m → visible j → j ∉ l → newer_eq i j).
Proof.
  intros Hwf Hmax. unfold GetMissionInfos.
  rewrite (proj2 (Z.ltb_ge _ _)) by done.
  eexists. rewrite collect_infos_spec, <- fmap_take. split; [done|]. split; [done|].
  set (n := (Z.to_nat numMax - length acc)%nat).
  assert (StronglySorted newer_eq (filter visible (missionInfoList_ m))) as Hs
    by (eapply StronglySorted_sublist; [apply sublist_filter|apply Hwf]).
  split_and!.
  - eapply StronglySorted_sublist; [apply sublist_take|done].
  - apply Forall_forall. intros i Hi. apply elem_of_take in Hi as (? & Hi & _).
    apply list_elem_of_lookup_2, list_elem_of_filter in Hi. tauto.
  - intros i j Hi Hj Hv Hnj.
    assert (j ∈ drop n (filter visible (missionInfoList_ m))) as Hd.
    { assert (j ∈ filter visible (missionInfoList_ m)) as Hf by (by apply list_elem_of_filter).
      rewrite <- (take_drop n), elem_of_app in Hf. tauto. }
    rewrite <- (take_drop n (filter visible _)) in Hs.
    revert Hs Hi. generalize (take n (filter visible (missionInfoList_ m))). intros l Hs Hi.
    induction l as [|x l IH]; [by apply not_elem_of_nil in Hi|].
    apply StronglySorted_inv in Hs as [Hs HF]. apply elem_of_cons in Hi as [->|Hi]; [|by apply IH].
    rewrite Forall_forall in HF. apply HF. apply elem_of_app. by right.
Qed.

(** The queries by id and by name read the catalogue: an inner info is
    returned exactly when its id is in it, the public query hides missions
    started by a call, and the reused singleton is an info of that name and
    mode that no newer one of the list precedes. *)
Theorem queries_refine (m : mgr) id name :
  wf m → name ≠ "" →
  GetInnerMissionInfoById id m = cat_infos (cat_of m) !! id ∧
  GetMissionInfoById id m
    = (i ← cat_infos (cat_of m) !! id;
       if decide (visible i) then Some (missionInfo i) else None) ∧
  match FindReusedSingletonMission name m with
  | Some i => cat_infos (cat_of m) !! info_id i = Some i ∧ missionName i = name ∧
      isSingletonMode i = true ∧
      (∃ l1 l2, missionInfoList_ m = l1 ++ i :: l2 ∧
         Forall (λ j, ¬ (missionName j = name ∧ isSingletonMode j = true)) l1)
  | None => ∀ id' i, cat_infos (cat_of m) !! id' = Some i →
      ¬ (missionName i = name ∧ isSingletonMode i = true)
  end.
Proof.
  intros Hwf Hname. pose proof (wf_nodup _ Hwf) as Hnd.
  assert (∀ i, cat_infos (cat_of m) !! id = Some i → missionIdMap_ m !! id = Some true) as Hmap
    by (intros i Hi; apply wf_cat_dom; [done|by eexists]).
  split_and!.
  - unfold GetInnerMissionInfoById. rewrite wf_cat_find by done.
    destruct (cat_infos (cat_of m) !! id) as [i|]; [by rewrite (Hmap i)|by case_match].
  - unfold GetMissionInfoById. rewrite wf_cat_find by done.
    destruct (cat_infos (cat_of m) !! id) as [i|]; [rewrite (Hmap i) by done|by case_match].
    simpl. rewrite not_shown_visible.
    destruct (decide (visible i)); [by rewrite bool_decide_true|by rewrite bool_decide_false].
  - unfold FindReusedSingletonMission. rewrite decide_False by done.
    assert (∀ j, bool_decide (name = missionName j) && isSingletonMode j = true ↔
      missionName j = name ∧ isSingletonMode j = true) as Hp.
    { intros j. rewrite andb_true_iff, bool_decide_eq_true. naive_solver. }
    destruct (List.find _ _) as [i|] eqn:Hf.
    + pose proof (find_Some_elem _ _ _ Hf) as [Hi [? ?]%Hp].
      split_and!; [by apply lookup_infos_of|done|done|].
      clear -Hf Hp. induction (missionInfoList_ m) as [|j l IH]; [done|]. cbn [List.find] in Hf.
      destruct (bool_decide _ && _) eqn:E; simplify_eq.
      * exists [], l. by split.
      * destruct (IH Hf) as (l1 & l2 & -> & HF). exists (j :: l1), l2. split; [done|].
        constructor; [|done]. rewrite <- Hp. congruence.
    + intros id' i [Hi _]%lookup_infos_of; [|done].
      pose proof (find_None_elem _ _ _ Hf Hi) as Hn. rewrite <- Hp. simpl in Hn. congruence.
Qed.

(** [DeleteAllMissionInfos] removes exactly the unlocked missions,
    tells the listeners of each of them once and in list order, and leaves
    the locked ones in place. *)
Theorem DeleteAllMissionInfos_unlocked (m : mgr) s :
  wf m → taskDataPersistenceMgr_ m = Some s →
  ∃ m', DeleteAllMissionInfos true m
      = (true, m', info_id <$> filter (λ i, mi_lockedState (missionInfo i) = false)
                                 (missionInfoList_ m)) ∧
    missionInfoList_ m' = filter (λ i, mi_lockedState (missionInfo i) = true) (missionInfoList_ m) ∧
    ∀ id, missionIdMap_ m' !! id =
      match cat_infos (cat_of m) !! id with
      | Some i => if mi_lockedState (missionInfo i) then Some true else None
      | None => missionIdMap_ m !! id
      end.
Proof.
  intros Hwf Hs. unfold DeleteAllMissionInfos. rewrite Hs.
  pose proof (delete_unlocked_spec (missionInfoList_ m) (missionIdMap_ m) s) as Hspec.
  destruct (delete_unlocked _ _ _) as [[[kept mp] s'] notified].
  destruct Hspec as (-> & -> & ->). eexists. split_and!; [done|done|].
  intros id. simpl. rewrite lookup_foldl_delete. pose proof (wf_nodup _ Hwf) as Hnd.
  destruct (infos_of (missionInfoList_ m) !! id) as [i|] eqn:Hid.
  - assert (missionIdMap_ m !! id = Some true) as -> by (apply wf_cat_dom; [done|by eexists]).
    assert (id ∈ info_id <$> filter (λ i, mi_lockedState (missionInfo i) = false)
      (missionInfoList_ m) ↔ mi_lockedState (missionInfo i) = false) as Hiff.
    { rewrite list_elem_of_fmap. setoid_rewrite list_elem_of_filter. split.
      - intros (j & -> & Hl & Hj). assert (infos_of (missionInfoList_ m) !! info_id j = Some j)
          by (by apply lookup_infos_of). congruence.
      - intros Hl. apply lookup_infos_of in Hid as [Hi <-]; [|done]. by exists i. }
    destruct (decide _) as [Hin|Hin]; rewrite Hiff in Hin.
    + by rewrite Hin.
    + by apply not_false_is_true in Hin as ->.
  - rewrite decide_False; [done|]. intros Hin. apply lookup_infos_of_None in Hid. apply Hid.
    apply list_elem_of_fmap in Hin as (j & -> & [_ Hj]%list_elem_of_filter).
    by apply list_elem_of_fmap_2.
Qed.

(** An update whose time stamp changed and whose save fails answers
    false and leaves no info for that mission: it is gone from the list and
    from the id map, although the caller asked for a change of it. *)
Theorem UpdateMissionInfo_lost (m : mgr) i s old :
  wf m → taskDataPersistenceMgr_ m = Some s → fst (store_save i s) = false →
  cat_infos (cat_of m) !! info_id i = Some old → info_time i ≠ info_time old →
  ∃ m', UpdateMissionInfo i m = Some (false, m') ∧
    missionIdMap_ m' !! info_id i = None ∧ cat_infos (cat_of m') !! info_id i = None.
Proof.
  intros Hwf Hs Hsave Hold Ht. unfold UpdateMissionInfo.
  assert (missionIdMap_ m !! info_id i = Some true) as Htrue
    by (apply wf_cat_dom; [done|by eexists]).
  rewrite Htrue, wf_cat_find, Hold by done. simpl. rewrite decide_False by done.
  unfold AddMissionInfo. cbn [erase_info set_infos missionIdMap_ taskDataPersistenceMgr_].
  rewrite lookup_delete_eq, Hs. simpl.
  destruct (store_save i s) as [ok s'] eqn:E. simpl in Hsave. subst ok.
  eexists. split_and!; [done|by apply lookup_delete_eq|].
  simpl. rewrite infos_of_erase by apply Hwf. apply lookup_delete_eq.
Qed.
End claims.

(** * Instances of the claims *)

(** A store that loads one saved mission and saves as its state says. *)
Definition demo_info (id : Z) (t : string) (locked : bool) : InnerMissionInfo :=
  mkInner (mkMissionInfo id 0 locked false t "label" "icon" emptyWant)
    "#com.ohos:Main" true START_NORMAL "com.ohos" 10001.

#[local] Instance demo_store : MissionStore bool unit := {|
  store_init := λ _ s, (true, s);
  store_load := λ l s, Returned (Some (l ++ [demo_info 7 "2022-01-01" true]));
  store_save := λ _ s, (s, s);
  store_delete := λ _ s, (true, s);
  store_save_snapshot := λ _ _ s, (true, s);
  store_get_snapshot := λ _ sn _, (false, sn);
|}.

#[local] Abbreviation demo_mgr := (MissionInfoMgr bool unit).

Definition demo_base (saves : bool) : demo_mgr := mkMIM 3 ∅ [] (Some saves) None.

Definition demo (saves : bool) : demo_mgr :=
  mkMIM 3 (<[2 := true]> {[1 := true]})
    [demo_info 2 "2022-02-02" true; demo_info 1 "2022-01-01" false] (Some saves) None.

Lemma demo_wf saves : wf (demo saves).
Proof.
  assert (wf (mkMIM 3 {[1 := true]} [demo_info 1 "2022-01-01" false] (Some true) None : demo_mgr))
    as H1.
  { refine (wf_add (demo_base true) (demo_info 1 "2022-01-01" false) true _ _ eq_refl).
    constructor; simpl; [by constructor| |constructor|unfold MIN_MISSION_ID, MAX_MISSION_ID, INT_MAX; lia].
    intros id. rewrite lookup_empty. split; [done|]. by intros ?%not_elem_of_nil. }
  assert (wf (demo true)) as [? ? ? ?]
    by exact (wf_add _ (demo_info 2 "2022-02-02" true) true _ H1 eq_refl).
  by constructor.
Qed.

(** A mission is added, its file is written, and the user is loaded again. *)
#[local] Abbreviation demo_want := (ParseUri lower_string (λ _ _, Returned None) 100).

#[local] Abbreviation demo_TaskData :=
  (TaskData_store demo_parse demo_want true (λ _ _, true)
    : MissionStore (TaskDataPersistenceMgr (gmap string string) unit) unit).

Definition demo_saved : TaskDataPersistenceMgr (gmap string string) unit := TDPM_new ∅.

Definition loaded_mgr (m : MissionInfoMgr (TaskDataPersistenceMgr (gmap string string) unit) unit) :=
  match Init (MissionStore0 := demo_TaskData) (Some demo_saved) 100 m with Returned (_, m') => m' | _ => m end.

Definition added_mgr : MissionInfoMgr (TaskDataPersistenceMgr (gmap string string) unit) unit :=
  let m := loaded_mgr MIM_new in
  default m (snd <$> AddMissionInfo (MissionStore0 := demo_TaskData) (demo_info 7 "2022-01-01" true) m).

Definition added_store : TaskDataPersistenceMgr (gmap string string) unit :=
  default demo_saved (taskDataPersistenceMgr_ added_mgr).

Definition written_store : TaskDataPersistenceMgr (gmap string string) unit :=
  default demo_saved (t ← head (tdpm_posted added_store);
    run_task demo_dump t (set_posted (tail (tdpm_posted added_store)) added_store)).

Definition written_mgr : MissionInfoMgr (TaskDataPersistenceMgr (gmap string string) unit) unit :=
  set_infos (missionIdMap_ added_mgr) (missionInfoList_ added_mgr) (Some written_store) added_mgr.

Lemma written_in_background : TDPM_background demo_dump added_store written_store.
Proof.
  apply (background_task _ (TSave 100 (demo_info 7 "2022-01-01" true)) []); [vm_compute; reflexivity|].
  unfold written_store. assert (head (tdpm_posted added_store) = Some (TSave 100 (demo_info 7 "2022-01-01" true))) as -> by (vm_compute; reflexivity).
  assert (tail (tdpm_posted added_store) = []) as -> by (vm_compute; reflexivity). reflexivity.
Qed.

Lemma MissionInfoMgr_refines_witness :
  let m := loaded_mgr written_mgr in
  info_id <$> missionInfoList_ m = [7] ∧ wf m ∧
    cat_run (mkCat ∅ ∅)
      [(OpInit 100, RBool true); (OpAdd (demo_info 7 "2022-01-01" true), RBool true); (OpInit 100, RBool true)] (cat_of m).
Proof.
  cbv zeta. split; [vm_compute; reflexivity|].
  destruct (MissionInfoMgr_refines (Token := unit) demo_dump demo_parse demo_want true (λ _ _, true) (λ _ _, (0, None)) ∅
    [(OpInit 100, RBool true); (OpAdd (demo_info 7 "2022-01-01" true), RBool true); (OpInit 100, RBool true)]
    (loaded_mgr written_mgr) mapped_files_laws) as (Hw & Hc & _).
  - exact demo_reads_written.
  - apply no_files_saved.
  - eapply (mi_run_snoc _ _ _ _ [_; _]).
    { apply (mi_run_background _ _ _ _ _ added_mgr added_store written_store).
      - eapply (mi_run_snoc _ _ _ _ [_]).
        + eapply (mi_run_snoc _ _ _ _ []); [constructor|]. apply (do_init _ _ _ 100 true (loaded_mgr MIM_new)). vm_compute. reflexivity.
        + apply (do_add _ _ _ _ true added_mgr). vm_compute. reflexivity.
      - vm_compute. reflexivity.
      - exact written_in_background. }
    apply (do_init _ _ _ 100 true (loaded_mgr written_mgr)). vm_compute. reflexivity.
  - split; [exact Hw|exact Hc].
Defined.

Lemma GenerateMissionId_fresh_witness :
  ∃ r m', GenerateMissionId 3 (demo true) = Returned (r, m').
Proof.
  destruct (GenerateMissionId_fresh (demo true) (demo_wf true)) as (r & m' & Hg & _).
  by exists r, m'.
Defined.

Lemma GenerateMissionId_gives_up_witness :
  let m : demo_mgr := mkMIM (INT_MAX - 1) {[INT_MAX - 1 := true]} [] (Some true) None in
  GenerateMissionId 5 m = Returned (None, m) ∧ missionIdMap_ m !! 1 = None ∧
  (None : option Z) = None ∧ m = m.
Proof.
  split; [done|]. split; [done|].
  apply (GenerateMissionId_gives_up _ 5%nat).
  - done.
  - intros j Hj. cbn in Hj. unfold MAX_MISSION_ID, INT_MAX in Hj.
    replace j with (INT_MAX - 1) by (unfold INT_MAX; lia). by eexists.
  - done.
Defined.

Lemma GetMissionInfos_newest_witness :
  ∃ l, GetMissionInfos 1 [] (demo true) = (0, [] ++ (missionInfo <$> l)) ∧
    StronglySorted newer_eq l.
Proof.
  destruct (GetMissionInfos_newest (demo true) 1 [] (demo_wf true) ltac:(lia))
    as (l & ? & _ & ? & _). by exists l.
Defined.

Lemma queries_refine_witness :
  GetInnerMissionInfoById 2 (demo true) = cat_infos (cat_of (demo true)) !! 2.
Proof. by apply (queries_refine (demo true) 2 "#com.ohos:Main" (demo_wf true)). Defined.

Lemma DeleteAllMissionInfos_unlocked_witness :
  ∃ m', DeleteAllMissionInfos true (demo true) = (true, m', [1]).
Proof.
  destruct (DeleteAllMissionInfos_unlocked (demo true) true (demo_wf true) eq_refl)
    as (m' & Hd & _). by exists m'.
Defined.

Lemma UpdateMissionInfo_lost_witness :
  ∃ m', UpdateMissionInfo (demo_info 1 "2022-03-03" false) (demo false) = Some (false, m') ∧
    missionIdMap_ m' !! 1 = None.
Proof.
  destruct (UpdateMissionInfo_lost (PixelMap := unit) (demo false)
    (demo_info 1 "2022-03-03" false) false (demo_info 1 "2022-01-01" false) (demo_wf false))
    as (m' & ? & ? & _); [done..|]. by exists m'.
Defined.
