(* ===== verification/CallContainer.v ===== *)
(** [CallRecord] and [CallContainer] (services/abilitymgr/src/call_record.cpp,
    call_container.cpp) with [AbilityRecord::Resolve], [CallRequest] and
    [Release]: the callers that reach an ability through its callee stub.  A
    call record goes from REQUESTING to REQUESTED when the stub arrives, and
    its caller is told once.

    A connection callback is identified by its remote object, a number; the
    target ability is given by its element, [None] once it is destroyed. *)

From S2P Require Import Prelude CppString Want.
From Stdlib Require Import Ascii.

#[local] Open Scope stdpp_scope.
#[local] Open Scope Z_scope.

(** [enum class CallState]. *)
Inductive CallState := CALL_INIT | CALL_REQUESTING | CALL_REQUESTED.

#[export] Instance CallState_eq_dec : EqDecision CallState.
Proof. solve_decision. Defined.

Record CallRecord := mkCall {
  cr_callerUid : Z;
  cr_state : CallState;
  cr_callRemoteObject : option Z;
  cr_connCallback : option Z;
  cr_callerToken : option positive;
}.

#[export] Instance CallRecord_eta : Eta CallRecord := λ r,
  mkCall (cr_callerUid r) (cr_state r) (cr_callRemoteObject r) (cr_connCallback r) (cr_callerToken r).

Record CallContainer := mkCC {
  callRecordMap_ : gmap Z CallRecord;
  deathRecipientMap_ : gset Z;
}.

Definition emptyContainer : CallContainer := mkCC ∅ ∅.

(** What a connection callback is told. *)
Inductive CallEvent :=
  | OnAbilityConnectDone (conn : Z) (e : ElementName) (stub : Z)
  | OnAbilityDisconnectDone (conn : Z) (e : ElementName).

(** * CallRecord *)

Definition CreateCallRecord (callerUid : Z) (connCallback : option Z) (callToken : option positive)
    : CallRecord :=
  mkCall callerUid CALL_INIT None connCallback callToken.

Definition SetCallStub (stub : option Z) (r : CallRecord) : CallRecord :=
  match stub with Some s => r <| cr_callRemoteObject := Some s |> | None => r end.

Definition IsCallState (s : CallState) (r : CallRecord) : bool := bool_decide (cr_state r = s).

Definition SchedulerConnectDone (service : option ElementName) (r : CallRecord)
    : bool * CallRecord * list CallEvent :=
  match cr_callRemoteObject r, cr_connCallback r, service with
  | Some stub, Some conn, Some e =>
      (true, r <| cr_state := CALL_REQUESTED |>, [OnAbilityConnectDone conn e stub])
  | _, _, _ => (false, r, [])
  end.

Definition SchedulerDisConnectDone (service : option ElementName) (r : CallRecord)
    : bool * list CallEvent :=
  match cr_connCallback r, service with
  | Some conn, Some e => (true, [OnAbilityDisconnectDone conn e])
  | _, _ => (false, [])
  end.

(** * CallContainer *)

Definition RemoveConnectDeathRecipient (conn : Z) (c : CallContainer) : CallContainer :=
  mkCC (callRecordMap_ c) (deathRecipientMap_ c ∖ {[conn]}).

Definition AddConnectDeathRecipient (conn : Z) (c : CallContainer) : CallContainer :=
  if decide (conn ∈ deathRecipientMap_ c) then c
  else mkCC (callRecordMap_ c) ({[conn]} ∪ deathRecipientMap_ c).

Definition AddCallRecord (connect : option Z) (r : CallRecord) (c : CallContainer) : CallContainer :=
  match connect with
  | None => c
  | Some conn =>
      let c1 := match callRecordMap_ c !! conn with
                | Some _ => let c' := RemoveConnectDeathRecipient conn c in
                            mkCC (delete conn (callRecordMap_ c')) (deathRecipientMap_ c')
                | None => c
                end in
      let c2 := AddConnectDeathRecipient conn c1 in
      mkCC (<[conn := r <| cr_connCallback := Some conn |>]> (callRecordMap_ c2))
        (deathRecipientMap_ c2)
  end.

Definition GetCallRecord (connect : option Z) (c : CallContainer) : option CallRecord :=
  conn ← connect; callRecordMap_ c !! conn.

Definition RemoveCallRecord (service : option ElementName) (connect : option Z) (c : CallContainer)
    : bool * CallContainer * list CallEvent :=
  match connect with
  | None => (false, c, [])
  | Some conn =>
      match callRecordMap_ c !! conn with
      | Some r =>
          let c' := RemoveConnectDeathRecipient conn c in
          (true, mkCC (delete conn (callRecordMap_ c')) (deathRecipientMap_ c'),
           snd (SchedulerDisConnectDone service r))
      | None => (false, c, [])
      end
  end.

(** The lambda of [CallRequestDone] on one record. *)
Definition call_request_done (service : option ElementName) (stub : Z) (r : CallRecord)
    : CallRecord * list CallEvent :=
  if IsCallState CALL_REQUESTING r then
    let '(_, r', ev) := SchedulerConnectDone service (SetCallStub (Some stub) r) in (r', ev)
  else (r, []).

Definition CallRequestDone (service : option ElementName) (callStub : option Z) (c : CallContainer)
    : bool * CallContainer * list CallEvent :=
  match callStub with
  | None => (false, c, [])
  | Some stub =>
      (true,
       mkCC ((λ r, fst (call_request_done service stub r)) <$> callRecordMap_ c)
         (deathRecipientMap_ c),
       (map_to_list (callRecordMap_ c)) ≫= (λ kr, snd (call_request_done service stub kr.2)))
  end.

Definition CC_IsNeedToCallRequest (c : CallContainer) : bool :=
  existsb (λ kr, negb (IsCallState CALL_REQUESTED kr.2)) (map_to_list (callRecordMap_ c)).

(** * The part of AbilityRecord that uses it *)

(** [enum ResolveResultType]. *)
Inductive ResolveResultType := OK_NO_REMOTE_OBJ | OK_HAS_REMOTE_OBJ | NG_INNER_ERROR.

Definition Resolve (isCallRequest : bool) (connect : option Z) (callerUid : Z)
    (callerToken : option positive) (service : option ElementName) (cc : option CallContainer)
    : ResolveResultType * option CallContainer * list CallEvent :=
  match isCallRequest, connect with
  | true, Some conn =>
      let c := default emptyContainer cc in
      let r := match GetCallRecord (Some conn) c with
               | Some r => r
               | None => CreateCallRecord callerUid (Some conn) callerToken
               end in
      let c1 := AddCallRecord (Some conn) r c in
      let r1 := r <| cr_connCallback := Some conn |> in
      if IsCallState CALL_REQUESTED r1 && bool_decide (is_Some (cr_callRemoteObject r1)) then
        let '(ok, r2, ev) := SchedulerConnectDone service r1 in
        (if ok : bool then OK_HAS_REMOTE_OBJ else NG_INNER_ERROR,
         Some (mkCC (<[conn := r2]> (callRecordMap_ c1)) (deathRecipientMap_ c1)), ev)
      else
        (OK_NO_REMOTE_OBJ,
         Some (mkCC (<[conn := r1 <| cr_state := CALL_REQUESTING |>]> (callRecordMap_ c1))
                 (deathRecipientMap_ c1)), [])
  | _, _ => (NG_INNER_ERROR, cc, [])
  end.

(** [callStub] is the answer of [scheduler_->CallRequest()]. *)
Definition CallRequest (hasScheduler : bool) (callStub : option Z) (service : option ElementName)
    (cc : option CallContainer) : bool * option CallContainer * list CallEvent :=
  match hasScheduler, cc, callStub with
  | true, Some c, Some stub =>
      let '(ok, c', ev) := CallRequestDone service (Some stub) c in (ok, Some c', ev)
  | _, _, _ => (false, cc, [])
  end.

Definition Release (service : option ElementName) (connect : option Z) (cc : option CallContainer)
    : bool * option CallContainer * list CallEvent :=
  match cc with
  | None => (false, None, [])
  | Some c => let '(ok, c', ev) := RemoveCallRecord service connect c in (ok, Some c', ev)
  end.

Definition IsNeedToCallRequest (cc : option CallContainer) : bool :=
  match cc with None => false | Some c => CC_IsNeedToCallRequest c end.

(** * The invariant *)

(** Every record is filed under its callback and watched for its death; a
    record is waiting for the stub, or has it. *)
Record cc_wf (c : CallContainer) : Prop := {
  ccw_recipients : deathRecipientMap_ c = dom (callRecordMap_ c);
  ccw_callback conn r : callRecordMap_ c !! conn = Some r → cr_connCallback r = Some conn;
  ccw_state conn r : callRecordMap_ c !! conn = Some r →
    cr_state r = CALL_REQUESTING ∨ cr_state r = CALL_REQUESTED ∧ is_Some (cr_callRemoteObject r);
}.

Lemma emptyContainer_wf : cc_wf emptyContainer.
Proof. constructor; simpl; [done|..]; intros ??; by rewrite lookup_empty. Qed.

Lemma AddCallRecord_maps conn r c :
  deathRecipientMap_ c = dom (callRecordMap_ c) →
  callRecordMap_ (AddCallRecord (Some conn) r c)
    = <[conn := r <| cr_connCallback := Some conn |>]> (callRecordMap_ c) ∧
  deathRecipientMap_ (AddCallRecord (Some conn) r c) = {[conn]} ∪ deathRecipientMap_ c.
Proof.
  intros Hd. unfold AddCallRecord, AddConnectDeathRecipient.
  destruct (callRecordMap_ c !! conn) as [r0|] eqn:Hc; simpl.
  - rewrite decide_False by set_solver. simpl. rewrite insert_delete_eq. split; [done|].
    apply set_eq. intros x. rewrite !elem_of_union, elem_of_difference, elem_of_singleton.
    destruct (decide (x = conn)); set_solver.
  - rewrite decide_False; [done|]. rewrite Hd, elem_of_dom, Hc. by intros [].
Qed.

(** A container with one record replaced. *)
Lemma cc_wf_insert c conn r :
  cc_wf c → cr_connCallback r = Some conn →
  (cr_state r = CALL_REQUESTING ∨ cr_state r = CALL_REQUESTED ∧ is_Some (cr_callRemoteObject r)) →
  cc_wf (mkCC (<[conn := r]> (callRecordMap_ c)) ({[conn]} ∪ deathRecipientMap_ c)).
Proof.
  intros [Hd Hcb Hst] Hr Hs. constructor; simpl.
  - by rewrite dom_insert_L, Hd.
  - intros conn' r' [[<- <-]|[_ Hl]]%lookup_insert_Some; [done|by eapply Hcb].
  - intros conn' r' [[<- <-]|[_ Hl]]%lookup_insert_Some; [done|by eapply Hst].
Qed.

Lemma SchedulerConnectDone_cases service r ok r' ev :
  SchedulerConnectDone service r = (ok, r', ev) →
  (ok = true ∧ r' = r <| cr_state := CALL_REQUESTED |> ∧ is_Some (cr_callRemoteObject r)) ∨
  (ok = false ∧ r' = r ∧ ev = []).
Proof. unfold SchedulerConnectDone. crush_cases; naive_solver. Qed.

Lemma Resolve_wf isCall connect uid token service cc res cc' ev :
  cc_wf (default emptyContainer cc) →
  Resolve isCall connect uid token service cc = (res, cc', ev) →
  cc_wf (default emptyContainer cc').
Proof.
  intros Hwf. unfold Resolve. cbv zeta.
  destruct isCall, connect as [conn|]; try by intros; simplify_eq.
  set (c := default emptyContainer cc) in *. set (r := match GetCallRecord _ _ with Some _ => _ | None => _ end).
  destruct (AddCallRecord_maps conn r c (ccw_recipients _ Hwf)) as [Hm Hd].
  generalize dependent (AddCallRecord (Some conn) r c). intros c1 Hm Hd.
  destruct (IsCallState _ _ && _) eqn:Hreq.
  - destruct (SchedulerConnectDone _ _) as [[ok r2] ev'] eqn:Hs. intros; simplify_eq. simpl.
    rewrite Hm, Hd, insert_insert_eq. apply cc_wf_insert; [done|..];
      destruct (SchedulerConnectDone_cases _ _ _ _ _ Hs) as [(_ & -> & ?)|(_ & -> & _)]; try done.
    + by right.
    + right. bool_to_prop. unfold IsCallState in *. by bool_to_prop.
  - intros; simplify_eq. simpl. rewrite Hm, Hd, insert_insert_eq.
    apply cc_wf_insert; [done|done|by left].
Qed.

Lemma call_request_done_state service stub r :
  let r' := fst (call_request_done service stub r) in
  cr_connCallback r' = cr_connCallback r ∧
  (cr_state r = CALL_REQUESTING ∨ cr_state r = CALL_REQUESTED ∧ is_Some (cr_callRemoteObject r) →
   cr_state r' = CALL_REQUESTING ∨ cr_state r' = CALL_REQUESTED ∧ is_Some (cr_callRemoteObject r')).
Proof.
  unfold call_request_done, IsCallState. case_bool_decide as Hs; [|done].
  destruct (SchedulerConnectDone _ _) as [[ok r2] ev] eqn:E. simpl.
  destruct (SchedulerConnectDone_cases _ _ _ _ _ E) as [(_ & -> & Hstub)|(_ & -> & _)]; simpl.
  - split; [done|]. by right.
  - split; [done|]. by left.
Qed.

Lemma CallRequestDone_wf service stub c ok c' ev :
  cc_wf c → CallRequestDone service stub c = (ok, c', ev) → cc_wf c'.
Proof.
  intros [Hd Hcb Hst]. unfold CallRequestDone.
  destruct stub as [stub|]; intros; simplify_eq; [|by constructor].
  constructor; simpl; [by rewrite dom_fmap_L| |];
    intros conn r; rewrite lookup_fmap_Some; intros (r0 & <- & Hr0);
    destruct (call_request_done_state service stub r0) as [Hc Hs]; simpl in *.
  - rewrite Hc. by apply Hcb.
  - by apply Hs, (Hst conn).
Qed.

Lemma RemoveCallRecord_wf service connect c ok c' ev :
  cc_wf c → RemoveCallRecord service connect c = (ok, c', ev) → cc_wf c'.
Proof.
  intros [Hd Hcb Hst]. unfold RemoveCallRecord.
  destruct connect as [conn|]; [|by intros; simplify_eq].
  destruct (callRecordMap_ c !! conn); intros; simplify_eq; [|by constructor].
  constructor; simpl; [by rewrite dom_delete_L, Hd| |];
    intros conn' r [_ Hr]%lookup_delete_Some; eauto.
Qed.

(** * Executions *)

Inductive cc_step (cc : option CallContainer) : option CallContainer → Prop :=
  | cc_resolve isCall connect uid token e res cc' ev :
      Resolve isCall connect uid token e cc = (res, cc', ev) → cc_step cc cc'
  | cc_call_request sched stub e ok cc' ev :
      CallRequest sched stub e cc = (ok, cc', ev) → cc_step cc cc'
  | cc_release e connect ok cc' ev :
      Release e connect cc = (ok, cc', ev) → cc_step cc cc'.

Lemma cc_step_wf cc cc' :
  cc_wf (default emptyContainer cc) → cc_step cc cc' → cc_wf (default emptyContainer cc').
Proof.
  intros Hwf Hstep.
  destruct Hstep as [isCall connect uid token e res cc' ev H|sched stub e ok cc' ev H
    |e connect ok cc' ev H].
  - by eapply Resolve_wf.
  - unfold CallRequest in H. destruct sched, cc as [c|], stub as [stub|]; simplify_eq; try done.
    simpl in H. injection H as <- <- <-. by eapply CallRequestDone_wf with (c := c) (stub := Some stub).
  - unfold Release in H. destruct cc as [c|]; simplify_eq; [|done].
    destruct (RemoveCallRecord e connect c) as [[? ?] ?] eqn:E; simplify_eq.
    by eapply RemoveCallRecord_wf.
Qed.

(** * Claims *)

Definition waiting (c : CallContainer) : list Z :=
  (filter (λ kr, cr_state kr.2 = CALL_REQUESTING) (map_to_list (callRecordMap_ c))).*1.

(** Whatever sequence of resolves, stub arrivals and releases runs, every
    call record stays filed under its own callback, has a death recipient, and
    is either waiting for the stub or has it. *)
Theorem CallContainer_reachable_wf cc :
  rtc cc_step None cc → cc_wf (default emptyContainer cc).
Proof.
  intros Hr. assert (cc_wf (default emptyContainer None)) as Hwf by exact emptyContainer_wf.
  revert Hwf. induction Hr as [|cc cc1 cc2 Hs _ IH]; [done|].
  intros Hwf. by eapply IH, cc_step_wf.
Qed.

(** One caller waiting for the stub. *)
Definition one_waiting : CallContainer :=
  mkCC {[7 := mkCall 20 CALL_REQUESTING None (Some 7) None]} {[7]}.

Lemma one_waiting_wf : cc_wf one_waiting.
Proof.
  constructor; [done|..]; intros conn r Hr; cbn [one_waiting callRecordMap_] in Hr;
    apply lookup_singleton_Some in Hr as [<- <-]; [done|by left].
Qed.

Lemma CallContainer_reachable_wf_witness : cc_wf (default emptyContainer (Some one_waiting)).
Proof.
  apply CallContainer_reachable_wf, rtc_once.
  by apply (cc_resolve None true (Some 7) 20 None (Some emptyElement) OK_NO_REMOTE_OBJ _ []).
Defined.

(** When the callee stub arrives, every caller that was waiting is told of
    it exactly once, no other caller is told anything, and no caller is left
    waiting. *)
Theorem CallRequestDone_connects c e stub :
  cc_wf c →
  ∃ c' ev, CallRequestDone (Some e) (Some stub) c = (true, c', ev) ∧
    ev = (λ conn, OnAbilityConnectDone conn e stub) <$> waiting c ∧
    CC_IsNeedToCallRequest c' = false ∧ waiting c' = [].
Proof.
  intros Hwf. eexists _, _. split; [done|].
  assert (∀ conn r, callRecordMap_ c !! conn = Some r →
    cr_state (fst (call_request_done (Some e) stub r)) = CALL_REQUESTED ∧
    snd (call_request_done (Some e) stub r) =
      if decide (cr_state r = CALL_REQUESTING) then [OnAbilityConnectDone conn e stub] else [])
    as Hdone.
  { intros conn r Hr. unfold call_request_done, IsCallState, SchedulerConnectDone, SetCallStub.
    pose proof (ccw_callback _ Hwf _ _ Hr) as Hcb. pose proof (ccw_state _ Hwf _ _ Hr) as Hst.
    destruct (decide (cr_state r = CALL_REQUESTING)) as [Hq|Hq].
    - rewrite bool_decide_true by done. unfold update. cbn. by rewrite Hcb.
    - rewrite bool_decide_false by done. cbn. split; [tauto|done]. }
  assert (∀ conn r, ((λ r, fst (call_request_done (Some e) stub r)) <$> callRecordMap_ c) !! conn = Some r →
    cr_state r = CALL_REQUESTED) as Hreq.
  { intros conn r. rewrite lookup_fmap_Some. intros (r0 & <- & Hr0). by eapply Hdone. }
  split_and!.
  - unfold waiting. generalize (λ conn r, proj1 (elem_of_map_to_list (callRecordMap_ c) conn r)).
    generalize (map_to_list (callRecordMap_ c)). intros l Hl.
    induction l as [|[conn r] l IH]; [done|]. rewrite filter_cons. cbn [mbind list_bind snd].
    destruct (Hdone conn r) as [_ ->]; [apply Hl; left|].
    rewrite IH by (intros ???; apply Hl; by right). cbn.
    by destruct (decide (cr_state r = CALL_REQUESTING)).
  - unfold CC_IsNeedToCallRequest. simpl. apply not_true_is_false. rewrite existsb_exists.
    intros ([conn r] & Hin%list_elem_of_In & Hn). apply elem_of_map_to_list, Hreq in Hin.
    unfold IsCallState in Hn. simpl in Hn. by rewrite bool_decide_true in Hn.
  - apply elem_of_nil_inv. intros conn ([conn' r] & -> & Hin)%list_elem_of_fmap.
    apply list_elem_of_filter in Hin as [Hq Hin]. simpl in Hq.
    apply elem_of_map_to_list, Hreq in Hin. congruence.
Qed.

Lemma CallRequestDone_connects_witness :
  ∃ c' ev, CallRequestDone (Some emptyElement) (Some 99) one_waiting = (true, c', ev) ∧
    ev = [OnAbilityConnectDone 7 emptyElement 99].
Proof.
  destruct (CallRequestDone_connects one_waiting emptyElement 99 one_waiting_wf)
    as (c' & ev & H & -> & _).
  by exists c', [OnAbilityConnectDone 7 emptyElement 99].
Defined.

(** A caller that resolves is filed under its callback: if the callee stub
    is already known to its record it is told at once and keeps it, otherwise
    its record waits for the stub; no other record changes. *)
Theorem Resolve_spec cc conn uid token e :
  cc_wf (default emptyContainer cc) →
  ∃ res c' ev, Resolve true (Some conn) uid token (Some e) cc = (res, Some c', ev) ∧
    (∀ conn', conn' ≠ conn →
       callRecordMap_ c' !! conn' = callRecordMap_ (default emptyContainer cc) !! conn') ∧
    match callRecordMap_ (default emptyContainer cc) !! conn with
    | Some r =>
        if decide (cr_state r = CALL_REQUESTED) then
          ∃ stub, cr_callRemoteObject r = Some stub ∧ res = OK_HAS_REMOTE_OBJ ∧
            ev = [OnAbilityConnectDone conn e stub] ∧ callRecordMap_ c' !! conn = Some r
        else res = OK_NO_REMOTE_OBJ ∧ ev = [] ∧ callRecordMap_ c' !! conn = Some r
    | None => res = OK_NO_REMOTE_OBJ ∧ ev = [] ∧
        callRecordMap_ c' !! conn = Some (mkCall uid CALL_REQUESTING None (Some conn) token)
    end.
Proof.
  intros Hwf. unfold Resolve. cbv zeta. set (c := default emptyContainer cc) in *.
  cbn [GetCallRecord mbind option_bind].
  destruct (callRecordMap_ c !! conn) as [r|] eqn:Hr.
  - pose proof (ccw_callback _ Hwf _ _ Hr) as Hcb. pose proof (ccw_state _ Hwf _ _ Hr) as Hst.
    destruct (AddCallRecord_maps conn r c (ccw_recipients _ Hwf)) as [Hm _].
    assert (r <| cr_connCallback := Some conn |> = r) as Hr' by (destruct r; cbn in *; by subst).
    rewrite Hr' in *. unfold IsCallState.
    destruct (decide (cr_state r = CALL_REQUESTED)) as [Hq|Hq].
    + destruct Hst as [?|[_ [stub Hstub]]]; [congruence|].
      rewrite bool_decide_true by done. rewrite bool_decide_true by by eexists. cbn [andb].
      unfold SchedulerConnectDone. rewrite Hstub, Hcb. eexists _, _, _. split; [done|].
      cbn [callRecordMap_]. rewrite Hm, insert_insert_eq. split.
      * intros conn' ?. by rewrite lookup_insert_ne.
      * exists stub. split_and!; [done..|]. rewrite lookup_insert_eq. f_equal.
        destruct r; cbn in *. by subst.
    + rewrite bool_decide_false by done. cbn [andb]. eexists _, _, _. split; [done|].
      cbn [callRecordMap_]. rewrite Hm, insert_insert_eq. split.
      * intros conn' ?. by rewrite lookup_insert_ne.
      * split_and!; [done..|]. rewrite lookup_insert_eq. f_equal.
        destruct Hst as [Hst|[Hst _]]; [|done]. destruct r; cbn in *. by subst.
  - destruct (AddCallRecord_maps conn (CreateCallRecord uid (Some conn) token) c
      (ccw_recipients _ Hwf)) as [Hm _].
    eexists _, _, _. split; [done|]. cbn [callRecordMap_]. rewrite Hm, insert_insert_eq. split.
    + intros conn' ?. by rewrite lookup_insert_ne.
    + split_and!; [done..|]. by rewrite lookup_insert_eq.
Qed.

Lemma Resolve_spec_witness :
  ∃ res c' ev, Resolve true (Some 7) 20 None (Some emptyElement) None = (res, Some c', ev).
Proof.
  destruct (Resolve_spec None 7 20 None emptyElement emptyContainer_wf)
    as (res & c' & ev & H & _). by exists res, c', ev.
Defined.

(** A release tells the caller of the disconnection once and forgets it:
    the next release of the same callback answers false and tells nobody. *)
Theorem Release_once c conn e r :
  cc_wf c → callRecordMap_ c !! conn = Some r →
  ∃ c', Release (Some e) (Some conn) (Some c)
      = (true, Some c', [OnAbilityDisconnectDone conn e]) ∧
    cc_wf c' ∧ callRecordMap_ c' = delete conn (callRecordMap_ c) ∧
    Release (Some e) (Some conn) (Some c') = (false, Some c', []).
Proof.
  intros Hwf Hr. pose proof (ccw_callback _ Hwf _ _ Hr) as Hcb.
  unfold Release, RemoveCallRecord. rewrite Hr. unfold SchedulerDisConnectDone. rewrite Hcb.
  eexists. split_and!; [done| |done|].
  - eapply (RemoveCallRecord_wf (Some e) (Some conn) c); [done|].
    unfold RemoveCallRecord. by rewrite Hr.
  - cbn [callRecordMap_ RemoveConnectDeathRecipient]. by rewrite lookup_delete_eq.
Qed.

Lemma Release_once_witness :
  ∃ c', Release (Some emptyElement) (Some 7)
    (Some one_waiting) = (true, Some c', [OnAbilityDisconnectDone 7 emptyElement]).
Proof.
  destruct (Release_once one_waiting 7 emptyElement
    (mkCall 20 CALL_REQUESTING None (Some 7) None) one_waiting_wf eq_refl) as (c' & H & _).
  by exists c'.
Defined.
