(* ===== verification/AbilityRecord.v ===== *)
(** [AbilityRecord], [Mission] and [MissionList] objects and the heap they live
    in (services/abilitymgr/src/ability_record.cpp, lifecycle_deal.cpp,
    mission.cpp).  The code keeps these objects behind shared and weak
    pointers; here a pointer is a reference into [Store].  A list object lives
    as long as the manager reaches it, a mission as long as a living list
    holds it, so locking a weak pointer is a lookup followed by that test.

    Calls that leave the process (the application manager, the ability's
    scheduler, posted tasks) are recorded in order in [st_trace]; what they
    answer is a parameter. *)

From S2P Require Import Prelude CppString Want CallContainer.
From Stdlib Require Import Ascii.

#[local] Open Scope stdpp_scope.
#[local] Open Scope Z_scope.

(** * Data *)

#[global] Abbreviation RRef := positive (only parsing).  (* an AbilityRecord, and its token *)
#[global] Abbreviation MRef := positive (only parsing).  (* a Mission *)
#[global] Abbreviation LRef := positive (only parsing).  (* a MissionList *)

Inductive LaunchMode := SINGLETON | STANDARD | SPECIFIED.
Inductive AbilityType := PAGE | SERVICE | DATA | EXTENSION | UNKNOWN_TYPE.
Inductive AbilityState :=
  | INITIAL | INACTIVE | ACTIVE | INACTIVATING | ACTIVATING | TERMINATING
  | FOREGROUND | BACKGROUND | FOREGROUNDING | BACKGROUNDING.
Inductive LaunchReason :=
  | LAUNCHREASON_UNKNOWN | LAUNCHREASON_START_ABILITY | LAUNCHREASON_CALL
  | LAUNCHREASON_CONTINUATION.
Inductive AppState :=
  | APP_BEGIN | APP_READY | APP_FOREGROUND | APP_BACKGROUND | APP_SUSPENDED
  | APP_TERMINATED | APP_END.
Inductive MissionListType := LAUNCHER | CURRENT | DEFAULT_STANDARD | DEFAULT_SINGLE.
Inductive AbilityCallType := INVALID_TYPE | CALL_REQUEST_TYPE.

(** The results the manager returns; [AppResult z] is an answer of the
    application manager passed on. *)
Inductive ErrCode :=
  | ERR_OK | ERR_INVALID_VALUE | INNER_ERR | START_ABILITY_WAITING | MOVE_MISSION_FAILED
  | CREATE_MISSION_STACK_FAILED | REMOVE_MISSION_FAILED | MISSION_NOT_FOUND
  | NO_FOUND_ABILITY_BY_CALLER | RESOLVE_CALL_ABILITY_INNER_ERR
  | RELEASE_CALL_ABILITY_INNER_ERR | CONNECTION_NOT_EXIST | INVALID_CONNECTION_STATE
  | LOAD_ABILITY_TIMEOUT | CONNECTION_TIMEOUT | START_SERVICE_ABILITY_ACTIVING
  | TERMINATE_ABILITY_RESULT_FAILED | ABILITY_VISIBLE_FALSE_DENY_REQUEST | ERR_NULL_OBJECT
  | ERR_UNKNOWN_OBJECT | ERR_ALREADY_EXISTS | ERR_INVALID_STATE | ERR_INVALID_DATA | ERR_TIMED_OUT
  | START_CANCELED | CHECK_PERMISSION_FAILED | AppResult (z : Z).

#[export] Instance LaunchMode_eq_dec : EqDecision LaunchMode.
Proof. solve_decision. Defined.
#[export] Instance AbilityType_eq_dec : EqDecision AbilityType.
Proof. solve_decision. Defined.
#[export] Instance AbilityState_eq_dec : EqDecision AbilityState.
Proof. solve_decision. Defined.
#[export] Instance AppState_eq_dec : EqDecision AppState.
Proof. solve_decision. Defined.
#[export] Instance MissionListType_eq_dec : EqDecision MissionListType.
Proof. solve_decision. Defined.
#[export] Instance AbilityCallType_eq_dec : EqDecision AbilityCallType.
Proof. solve_decision. Defined.
#[export] Instance ErrCode_eq_dec : EqDecision ErrCode.
Proof. solve_decision. Defined.

(** The fields of [AbilityInfo] the manager reads; [ai_isLauncherApp] is the
    one of the [applicationInfo] inside it. *)
Record AbilityInfo := mkAbilityInfo {
  ai_deviceId : string;
  ai_bundleName : string;
  ai_name : string;
  ai_moduleName : string;
  ai_process : string;
  ai_type : AbilityType;
  ai_launchMode : LaunchMode;
  ai_isLauncherApp : bool;
  ai_continuable : bool;
  ai_removeMissionAfterTerminate : bool;
}.

Record ApplicationInfo := mkAppInfo {
  app_name : string;
  app_bundleName : string;
  app_isLauncherApp : bool;
  app_label : string;
  app_iconPath : string;
}.

Record AbilityRequest := mkRequest {
  rq_want : Want;
  rq_info : AbilityInfo;
  rq_app : ApplicationInfo;
  rq_uid : Z;
  rq_requestCode : Z;
  rq_callerUid : Z;
  rq_callType : AbilityCallType;
  rq_callerToken : option RRef;
  rq_connect : option Z;
  rq_specifiedFlag : string;
}.

#[export] Instance AbilityRequest_eta : Eta AbilityRequest := λ q,
  mkRequest (rq_want q) (rq_info q) (rq_app q) (rq_uid q) (rq_requestCode q) (rq_callerUid q)
    (rq_callType q) (rq_callerToken q) (rq_connect q) (rq_specifiedFlag q).

(** [AbilityRequest::IsContinuation]. *)
Definition IsContinuation (q : AbilityRequest) : bool :=
  Z.land (GetFlags (rq_want q)) FLAG_ABILITY_CONTINUATION =? FLAG_ABILITY_CONTINUATION.

Record AbilityRecord := mkRecord {
  r_want : Want;
  r_info : AbilityInfo;
  r_app : ApplicationInfo;
  r_uid : Z;
  r_requestCode : Z;
  r_state : AbilityState;
  r_eventId : Z;
  r_preAbility : option RRef;
  r_nextAbility : option RRef;
  r_isReady : bool;
  r_isLauncherAbility : bool;
  r_scheduler : bool;             (* scheduler_ is not null *)
  r_dealScheduler : bool;         (* lifecycleDeal_'s scheduler is not null *)
  r_isTerminating : bool;
  r_result : option (Z * Z * Want);
  r_callerList : list (Z * RRef);
  r_isUninstall : bool;
  r_isLauncherRoot : bool;
  r_isRestarting : bool;
  r_appState : AppState;
  r_missionList : option LRef;
  r_mission : option MRef;
  r_missionId : Z;
  r_ownerMissionUserId : Z;
  r_isSwitchingPause : bool;
  r_callContainer : option CallContainer;
  r_isStartedByCall : bool;
  r_isStartToBackground : bool;
  r_isDlp : bool;
  r_minimizeReason : bool;
  r_restartCount : Z;
  r_restartMax : Z;
  r_specifiedFlag : string;
  r_isNewWant : bool;
  r_sceneFlagBak : Z;
  r_launchReason : LaunchReason;
}.

#[export] Instance AbilityRecord_eta : Eta AbilityRecord := λ r,
  mkRecord (r_want r) (r_info r) (r_app r) (r_uid r) (r_requestCode r) (r_state r) (r_eventId r)
    (r_preAbility r) (r_nextAbility r) (r_isReady r) (r_isLauncherAbility r) (r_scheduler r)
    (r_dealScheduler r) (r_isTerminating r) (r_result r) (r_callerList r) (r_isUninstall r)
    (r_isLauncherRoot r) (r_isRestarting r) (r_appState r) (r_missionList r) (r_mission r)
    (r_missionId r) (r_ownerMissionUserId r) (r_isSwitchingPause r) (r_callContainer r)
    (r_isStartedByCall r) (r_isStartToBackground r) (r_isDlp r) (r_minimizeReason r)
    (r_restartCount r) (r_restartMax r) (r_specifiedFlag r) (r_isNewWant r) (r_sceneFlagBak r)
    (r_launchReason r).

Record Mission := mkMission {
  m_missionId : Z;
  m_startMethod : Z;
  m_abilityRecord : option RRef;
  m_missionName : string;
  m_ownerMissionList : option LRef;
  m_lockedState : bool;
  m_isMovingToFront : bool;
}.

#[export] Instance Mission_eta : Eta Mission := λ m,
  mkMission (m_missionId m) (m_startMethod m) (m_abilityRecord m) (m_missionName m)
    (m_ownerMissionList m) (m_lockedState m) (m_isMovingToFront m).

Record MissionList := mkList {
  l_type : MissionListType;
  l_missions : list MRef;
}.

#[export] Instance MissionList_eta : Eta MissionList := λ l, mkList (l_type l) (l_missions l).

(** The closures the code posts to the event handler. *)
Inductive Task :=
  | TaskCompleteForegroundNew (r : RRef)
  | TaskCompleteBackground (r : RRef)
  | TaskCompleteTerminate (r : RRef)
  | TaskStartWaittingAbility
  | TaskBackToCaller (r : RRef)
  | TaskBackToLauncher
  | TaskAddUninstallTags (bundleName : string) (uid : Z).

Inductive TimeoutMsg :=
  | LOAD_TIMEOUT_MSG | ACTIVE_TIMEOUT_MSG | INACTIVE_TIMEOUT_MSG | FOREGROUNDNEW_TIMEOUT_MSG
  | OTHER_TIMEOUT_MSG.

(** Calls that leave the component. *)
Inductive Effect :=
  | AppLoadAbility (r : RRef) (caller : option RRef) (w : Want)
  | AppMoveToForeground (r : RRef)
  | AppMoveToBackground (r : RRef)
  | AppTerminateAbility (r : RRef)
  | AppPrepareTerminate (r : RRef)
  | AppAttachTimeOut (r : RRef)
  | AppStartSpecifiedAbility (w : Want) (info : AbilityInfo)
  | AppBehaviorAnalysis (r : RRef) (pre : option RRef)
  | ScheduleAbilityTransaction (r : RRef) (target : AbilityState) (w : Want)
  | ScheduleSaveAbilityState (r : RRef)
  | SchedulerSendResult (r : RRef) (requestCode resultCode : Z) (w : Want)
  | GrantUri (r : RRef) (w : Want)
  | CallConnection (ev : CallEvent)
  | SendTimeoutEvent (msg : TimeoutMsg) (eventId : Z)
  | RemoveTimeoutEvent (msg : TimeoutMsg) (eventId : Z)
  | PostTask (t : Task) (name : option Z)
  | RemoveTask (name : Z)
  | NotifyBmsAbilityLifeStatus (bundle name : string)
  | NotifyMissionCreated (missionId : Z)
  | NotifyMissionDestroyed (missionId : Z)
  | NotifyMissionSnapshotChanged (missionId : Z)
  | NotifyMissionMovedToFront (missionId : Z)
  | NotifyUninstalled (missions : list Z).

(** * The heap *)

Record Store := mkStore {
  st_records : gmap RRef AbilityRecord;
  st_missions : gmap MRef Mission;
  st_lists : gmap LRef MissionList;
  st_launcherList : LRef;
  st_defaultStandardList : LRef;
  st_defaultSingleList : LRef;
  st_currentMissionLists : list LRef;
  st_terminateAbilityList : list RRef;
  st_heldRecords : list RRef;       (* records that posted tasks and other services hold *)
  st_next : positive;               (* the next reference *)
  st_lastEventId : Z;               (* g_abilityRecordEventId_ *)
  st_trace : list Effect;
}.

#[export] Instance Store_eta : Eta Store := λ s,
  mkStore (st_records s) (st_missions s) (st_lists s) (st_launcherList s)
    (st_defaultStandardList s) (st_defaultSingleList s) (st_currentMissionLists s)
    (st_terminateAbilityList s) (st_heldRecords s) (st_next s) (st_lastEventId s) (st_trace s).

(** The lists the manager reaches. *)
Definition live_lists (s : Store) : list LRef :=
  st_launcherList s :: st_defaultStandardList s :: st_defaultSingleList s
    :: st_currentMissionLists s.

Definition missions_of (s : Store) (l : LRef) : list MRef :=
  match st_lists s !! l with Some ml => l_missions ml | None => [] end.

Definition live_missions (s : Store) : list MRef := live_lists s ≫= missions_of s.

Definition record_of (s : Store) (m : MRef) : option RRef :=
  ms ← st_missions s !! m; m_abilityRecord ms.

Definition live_records (s : Store) : list RRef :=
  st_terminateAbilityList s ++ st_heldRecords s ++ omap (record_of s) (live_missions s).

(** [weak_ptr::lock]. *)
Definition lock_list (s : Store) (l : option LRef) : option LRef :=
  l ← l; if decide (l ∈ live_lists s) then Some l else None.
Definition lock_mission (s : Store) (m : option MRef) : option MRef :=
  m ← m; if decide (m ∈ live_missions s) then Some m else None.
Definition lock_record (s : Store) (r : option RRef) : option RRef :=
  r ← r; if decide (r ∈ live_records s) then Some r else None.

Definition the_record (r : RRef) : ST Store AbilityRecord :=
  x ← gets (λ s, st_records s !! r); deref x.
Definition the_mission (m : MRef) : ST Store Mission :=
  x ← gets (λ s, st_missions s !! m); deref x.
Definition the_list (l : LRef) : ST Store MissionList :=
  x ← gets (λ s, st_lists s !! l); deref x.

Definition upd_record (r : RRef) (f : AbilityRecord → AbilityRecord) : ST Store unit :=
  modify (λ s, s <| st_records ::= alter f r |>).
Definition upd_mission (m : MRef) (f : Mission → Mission) : ST Store unit :=
  modify (λ s, s <| st_missions ::= alter f m |>).
Definition upd_list (l : LRef) (f : MissionList → MissionList) : ST Store unit :=
  modify (λ s, s <| st_lists ::= alter f l |>).

Definition fresh_ref : ST Store positive :=
  p ← gets st_next; _ ← modify (λ s, s <| st_next ::= Pos.succ |>); mret p.

(** [std::make_shared<MissionList>(type)]. *)
Definition new_list (type : MissionListType) : ST Store LRef :=
  p ← fresh_ref; _ ← modify (λ s, s <| st_lists ::= insert p (mkList type []) |>); mret p.

(** A record and its mission, tied to each other by [SetMission]. *)
Definition new_record (a : AbilityRecord) : ST Store RRef :=
  p ← fresh_ref; _ ← modify (λ s, s <| st_records ::= insert p a |>); mret p.
Definition new_mission (ms : Mission) : ST Store MRef :=
  p ← fresh_ref; _ ← modify (λ s, s <| st_missions ::= insert p ms |>); mret p.

Definition emit (e : Effect) : ST Store unit := modify (λ s, s <| st_trace ::= λ t, t ++ [e] |>).

(** * Operations of AbilityRecord *)

Definition DEBUG_APP : string := "debugApp".
Definition ABILITY_OWNER_USERID : string := "AbilityMS_Owner_UserId".

Definition IsAbilityState (st : AbilityState) (a : AbilityRecord) : bool :=
  bool_decide (r_state a = st).
Definition IsForeground (a : AbilityRecord) : bool :=
  IsAbilityState FOREGROUND a || IsAbilityState FOREGROUNDING a.
Definition IsActiveState (a : AbilityRecord) : bool :=
  IsAbilityState ACTIVE a || IsAbilityState ACTIVATING a || IsAbilityState INITIAL a
  || IsAbilityState FOREGROUND a || IsAbilityState FOREGROUNDING a.

Definition SetRestarting (isRestart : bool) (a : AbilityRecord) : AbilityRecord :=
  let a := a <| r_isRestarting := isRestart |> in
  if r_isLauncherRoot a && r_isLauncherAbility a then
    a <| r_restartCount := if isRestart then r_restartCount a - 1 else r_restartMax a |>
  else a.

Definition SetAbilityState (st : AbilityState) (a : AbilityRecord) : AbilityRecord :=
  let a := a <| r_state := st |> in
  if bool_decide (st = FOREGROUND) || bool_decide (st = ACTIVE) then SetRestarting false a else a.

Definition CanRestartRootLauncher (a : AbilityRecord) : bool :=
  negb (r_isLauncherRoot a && r_isRestarting a && r_isLauncherAbility a && (r_restartCount a <=? 0)).

Definition SetWindowMode (mode : Z) (a : AbilityRecord) : AbilityRecord :=
  a <| r_want ::= SetParam PARAM_RESV_WINDOW_MODE (VInteger mode) |>.
Definition RemoveWindowMode (a : AbilityRecord) : AbilityRecord :=
  a <| r_want ::= RemoveParam PARAM_RESV_WINDOW_MODE |>.

(** [SetScheduler]; a null scheduler leaves the one of [lifecycleDeal_]. *)
Definition SetScheduler (notNull : bool) (a : AbilityRecord) : AbilityRecord :=
  if notNull then a <| r_isReady := true |> <| r_scheduler := true |> <| r_dealScheduler := true |>
  else a <| r_isReady := false |> <| r_isNewWant := false |> <| r_scheduler := false |>.

(** [CreateAbilityRecord] with [Init]; [restartMax] is what
    [GetMaxRestartNum] gave. *)
Definition CreateAbilityRecord (restartMax : Z) (q : AbilityRequest) : AbilityRecord :=
  mkRecord (rq_want q) (rq_info q) (rq_app q) (rq_uid q) (rq_requestCode q) INITIAL 0 None None
    false (app_isLauncherApp (rq_app q)) false false false None [] false false false APP_BEGIN
    None None (-1) (-1) false None (bool_decide (rq_callType q = CALL_REQUEST_TYPE)) false false
    false restartMax restartMax "" false 0 LAUNCHREASON_UNKNOWN.

Section record_operations.
(** The answers of the application manager, by record. *)
Context (app_load app_terminate : RRef → Z).

(** The event id is a process-wide counter. *)
Definition next_event (r : RRef) : ST Store Z :=
  _ ← modify (λ s, s <| st_lastEventId ::= Z.succ |>);
  id ← gets st_lastEventId;
  _ ← upd_record r (λ a, a <| r_eventId := id |>);
  mret id.

Definition is_debug (a : AbilityRecord) : bool := GetBoolParam DEBUG_APP false (r_want a).

Definition SendEvent (msg : TimeoutMsg) (r : RRef) : ST Store unit :=
  a ← the_record r;
  if is_debug a then mret tt
  else id ← next_event r; emit (SendTimeoutEvent msg id).

Definition LoadAbility (r : RRef) : ST Store ErrCode :=
  a ← the_record r;
  _ ← (if decide (ai_type (r_info a) = DATA) then mret tt else SendEvent LOAD_TIMEOUT_MSG r);
  if decide (app_name (r_app a) = "") then mret ERR_INVALID_VALUE
  else if negb (CanRestartRootLauncher a) then mret ERR_INVALID_VALUE
  else
    s ← gets id;
    let caller := c ← last (r_callerList a); lock_record s (Some c.2) in
    _ ← upd_record r (λ a, a <| r_want ::= SetParam ABILITY_OWNER_USERID
                                   (VInteger (r_ownerMissionUserId a)) |>);
    a' ← the_record r;
    _ ← emit (AppLoadAbility r caller (r_want a'));
    _ ← upd_record r (λ a, a <| r_want ::= RemoveParam ABILITY_OWNER_USERID |>);
    mret (if app_load r =? 0 then ERR_OK else AppResult (app_load r)).

(** [LifecycleDeal]: the transaction reaches a scheduler that is there. *)
Definition deal_transaction (r : RRef) (target : AbilityState) : ST Store unit :=
  a ← the_record r;
  if r_dealScheduler a then emit (ScheduleAbilityTransaction r target (r_want a)) else mret tt.

Definition SaveAbilityState (r : RRef) : ST Store unit :=
  a ← the_record r;
  if r_dealScheduler a then emit (ScheduleSaveAbilityState r) else mret tt.

Definition ForegroundAbility (r : RRef) : ST Store unit :=
  _ ← SendEvent FOREGROUNDNEW_TIMEOUT_MSG r;
  _ ← upd_record r (λ a, a <| r_state := FOREGROUNDING |>);
  _ ← deal_transaction r FOREGROUND;
  _ ← upd_record r (λ a, a <| r_sceneFlagBak := 0 |>);
  a ← the_record r;
  if r_isNewWant a then
    s ← gets id;
    emit (AppBehaviorAnalysis r (lock_record s (r_preAbility a)))
  else mret tt.

Definition ProcessForegroundAbility (r : RRef) (sceneFlag : Z) : ST Store unit :=
  a ← the_record r;
  if r_isReady a then
    if IsAbilityState BACKGROUND a then
      _ ← upd_record r (λ a, a <| r_sceneFlagBak := sceneFlag |>);
      emit (AppMoveToForeground r)
    else ForegroundAbility r
  else
    _ ← upd_record r (λ a, a <| r_sceneFlagBak := sceneFlag |>);
    _ ← LoadAbility r; mret tt.

(** The posted timeout task of [BackgroundAbility] and [Terminate]. *)
Definition post_timeout (r : RRef) (task : Task) : ST Store unit :=
  a ← the_record r;
  if is_debug a then mret tt
  else id ← next_event r; emit (PostTask task (Some id)).

Definition BackgroundAbility (r : RRef) : ST Store unit :=
  _ ← post_timeout r (TaskCompleteBackground r);
  a ← the_record r;
  _ ← (if negb (r_isTerminating a) || r_isRestarting a then SaveAbilityState r else mret tt);
  _ ← upd_record r (λ a, a <| r_state := BACKGROUNDING |>);
  deal_transaction r BACKGROUND.

Definition Terminate (r : RRef) : ST Store unit :=
  _ ← post_timeout r (TaskCompleteTerminate r);
  _ ← upd_record r (λ a, a <| r_state := TERMINATING |>);
  deal_transaction r INITIAL.

Definition RecordTerminateAbility (r : RRef) : ST Store Z :=
  _ ← emit (AppTerminateAbility r); mret (app_terminate r).

(** Callers: a caller already in the list is moved to its end. *)
Definition AddCallerRecord (r : RRef) (callerToken : option RRef) (requestCode : Z) : ST Store unit :=
  s ← gets id;
  match lock_record s callerToken with
  | None => mret tt
  | Some caller =>
      upd_record r (λ a, a <| r_callerList ::= λ l,
        erase_first (λ c, bool_decide (lock_record s (Some c.2) = Some caller)) l
        ++ [(requestCode, caller)] |>)
  end.

Definition GetCallerRecord (s : Store) (a : AbilityRecord) : option RRef :=
  c ← last (r_callerList a); lock_record s (Some c.2).

Definition SendResult (r : RRef) : ST Store unit :=
  a ← the_record r;
  match r_scheduler a, r_result a with
  | true, Some (requestCode, resultCode, w) =>
      _ ← emit (SchedulerSendResult r requestCode resultCode w);
      _ ← (if Z.land (GetFlags w) 3 =? 0 then mret tt else emit (GrantUri r w));
      upd_record r (λ a, a <| r_result := None |>)
  | _, _ => mret tt
  end.

Definition SendResultToCallers (r : RRef) : ST Store unit :=
  a ← the_record r;
  for_each (λ c,
    s ← gets id;
    match lock_record s (Some c.2) with
    | None => mret tt
    | Some caller =>
        ca ← the_record caller;
        match r_result ca with Some _ => SendResult caller | None => mret tt end
    end) (r_callerList a).

Definition SaveResultToCallers (r : RRef) (resultCode : Z) (resultWant : Want) : ST Store unit :=
  a ← the_record r;
  for_each (λ c,
    s ← gets id;
    match lock_record s (Some c.2) with
    | None => mret tt
    | Some caller => upd_record caller (λ ca, ca <| r_result := Some (c.1, resultCode, resultWant) |>)
    end) (r_callerList a).

(** The record's element, [None] once it is destroyed. *)
Definition record_element (a : AbilityRecord) : ElementName :=
  mkElement (ai_deviceId (r_info a)) (ai_bundleName (r_info a)) (ai_name (r_info a))
    (ai_moduleName (r_info a)).

Definition RecordResolve (r : RRef) (q : AbilityRequest) : ST Store ResolveResultType :=
  a ← the_record r;
  let '(res, cc, ev) := Resolve (bool_decide (rq_callType q = CALL_REQUEST_TYPE)) (rq_connect q)
    (rq_callerUid q) (rq_callerToken q) (Some (record_element a)) (r_callContainer a) in
  _ ← upd_record r (λ a, a <| r_callContainer := cc |>);
  _ ← for_each (λ e, emit (CallConnection e)) ev;
  mret res.

(** [callee r] is what the ability's scheduler answers to [CallRequest]. *)
Definition RecordCallRequest (callee : RRef → option Z) (r : RRef) : ST Store bool :=
  a ← the_record r;
  let '(ok, cc, ev) := CallRequest (r_scheduler a) (callee r) (Some (record_element a))
    (r_callContainer a) in
  _ ← upd_record r (λ a, a <| r_callContainer := cc |>);
  _ ← for_each (λ e, emit (CallConnection e)) ev;
  mret ok.

Definition RecordRelease (r : RRef) (connect : option Z) : ST Store bool :=
  a ← the_record r;
  let '(ok, cc, ev) := Release (Some (record_element a)) connect (r_callContainer a) in
  _ ← upd_record r (λ a, a <| r_callContainer := cc |>);
  _ ← for_each (λ e, emit (CallConnection e)) ev;
  mret ok.
End record_operations.

(** * Operations of Mission *)

Definition IsSingletonAbility (s : Store) (m : MRef) : bool :=
  match (r ← record_of s m; st_records s !! r) with
  | Some a => bool_decide (ai_launchMode (r_info a) = SINGLETON)
  | None => false
  end.

Definition GetMissionList (s : Store) (m : MRef) : option LRef :=
  ms ← st_missions s !! m; lock_list s (m_ownerMissionList ms).

Definition SetMissionList (m : MRef) (l : LRef) : ST Store unit :=
  _ ← upd_mission m (λ ms, ms <| m_ownerMissionList := Some l |>);
  ms ← the_mission m;
  match m_abilityRecord ms with
  | Some r => upd_record r (λ a, a <| r_missionList := Some l |>)
  | None => mret tt
  end.

Definition START_CALL_METHOD : Z := 1.

Definition IsStartByCall (ms : Mission) : bool := START_CALL_METHOD =? m_startMethod ms.

Definition UpdateMissionId (id method : Z) (ms : Mission) : bool * Mission :=
  if (method =? m_startMethod ms) && (0 <? id) then (false, ms)
  else (true, ms <| m_startMethod := method |> <| m_missionId := id |>).

(** [AbilityRecord::SetMission], which copies the mission id. *)
Definition SetMission (r : RRef) (m : MRef) : ST Store unit :=
  ms ← the_mission m;
  upd_record r (λ a, a <| r_missionId := m_missionId ms |> <| r_mission := Some m |>).

(** * What changes of state leave alone *)

Lemma info_SetRestarting b a : r_info (SetRestarting b a) = r_info a.
Proof. unfold SetRestarting. cbn. by destruct (_ && _). Qed.
Lemma info_SetScheduler b a : r_info (SetScheduler b a) = r_info a.
Proof. by destruct b. Qed.
Lemma info_SetAbilityState st a : r_info (SetAbilityState st a) = r_info a.
Proof. unfold SetAbilityState. cbn. destruct (_ || _); [by rewrite info_SetRestarting|done]. Qed.
Lemma state_SetAbilityState st a : r_state (SetAbilityState st a) = st.
Proof. unfold SetAbilityState, SetRestarting, update. destruct (_ || _); [cbn; by destruct (_ && _)|done]. Qed.
Lemma sched_SetAbilityState st a : r_dealScheduler (SetAbilityState st a) = r_dealScheduler a.
Proof. unfold SetAbilityState, SetRestarting, update. destruct (_ || _); [cbn; by destruct (_ && _)|done]. Qed.
