(* ===== verification/StoreShape.v ===== *)
(** What the operations of [AbilityRecord] leave alone: the lists, the links
    between missions, records and lists, and the terminate list.  Every
    operation of [AbilityRecord] returns on a record that exists and keeps the
    shape of the heap; the tactic [keep] proves this for code composed of such
    operations. *)

From S2P Require Import Prelude CppString Want CallContainer AbilityRecord.
From Stdlib Require Import Ascii.

#[local] Open Scope stdpp_scope.
#[local] Open Scope Z_scope.

Implicit Types (s : Store) (l : LRef) (m : MRef) (r : RRef).

(** * The shape *)

Definition record_shape (a : AbilityRecord) : option LRef * option MRef * AbilityInfo * bool :=
  (r_missionList a, r_mission a, r_info a, r_isLauncherAbility a).
Definition mission_shape (ms : Mission) : option RRef * string * option LRef :=
  (m_abilityRecord ms, m_missionName ms, m_ownerMissionList ms).

(** Updates of a record that the shape does not see. *)
Definition shape_keeping (f : AbilityRecord → AbilityRecord) : Prop :=
  ∀ a, record_shape (f a) = record_shape a ∧ (r_isTerminating a = true → r_isTerminating (f a) = true).

Record same_shape s s' : Prop := {
  ss_lists : st_lists s' = st_lists s;
  ss_launcher : st_launcherList s' = st_launcherList s;
  ss_standard : st_defaultStandardList s' = st_defaultStandardList s;
  ss_single : st_defaultSingleList s' = st_defaultSingleList s;
  ss_current : st_currentMissionLists s' = st_currentMissionLists s;
  ss_terminate : st_terminateAbilityList s' = st_terminateAbilityList s;
  ss_held : st_heldRecords s' = st_heldRecords s;
  ss_next : st_next s' = st_next s;
  ss_missions : mission_shape <$> st_missions s' = mission_shape <$> st_missions s;
  ss_records : record_shape <$> st_records s' = record_shape <$> st_records s;
  ss_terminating r a : st_records s !! r = Some a → r_isTerminating a = true →
    ∃ a', st_records s' !! r = Some a' ∧ r_isTerminating a' = true;
}.

#[export] Instance same_shape_preorder : PreOrder same_shape.
Proof.
  split.
  - intros s. by constructor; eauto.
  - intros s1 s2 s3 [] []. constructor; try congruence.
    intros r a Hr Ht. destruct (ss_terminating0 r a Hr Ht) as (a' & ? & ?). eauto.
Qed.

Definition known_record s r : Prop := is_Some (st_records s !! r).
Definition known_mission s m : Prop := is_Some (st_missions s !! m).

(** Records that weak pointers may lead to exist. *)
Definition live_known s : Prop := ∀ r, r ∈ live_records s → known_record s r.

Lemma lookup_shape {A B} (f : A → B) (m1 m2 : gmap positive A) k x :
  f <$> m2 = f <$> m1 → m1 !! k = Some x → ∃ y, m2 !! k = Some y ∧ f y = f x.
Proof.
  intros Hm Hk. assert ((f <$> m2) !! k = Some (f x)) as Hf by (by rewrite Hm, lookup_fmap, Hk).
  rewrite lookup_fmap_Some in Hf. naive_solver.
Qed.

Lemma known_record_shape s s' r : same_shape s s' → known_record s r → known_record s' r.
Proof. intros [] [a Ha]. destruct (lookup_shape _ _ _ _ _ ss_records0 Ha) as (b & ? & _). by exists b. Qed.

Lemma known_mission_shape s s' m : same_shape s s' → known_mission s m → known_mission s' m.
Proof. intros [] [a Ha]. destruct (lookup_shape _ _ _ _ _ ss_missions0 Ha) as (b & ? & _). by exists b. Qed.

Lemma same_shape_live_lists s s' : same_shape s s' → live_lists s' = live_lists s.
Proof. intros []. unfold live_lists. congruence. Qed.

Lemma same_shape_missions_of s s' l : same_shape s s' → missions_of s' l = missions_of s l.
Proof. intros []. unfold missions_of. by rewrite ss_lists0. Qed.

Lemma same_shape_live_missions s s' : same_shape s s' → live_missions s' = live_missions s.
Proof.
  intros H. unfold live_missions. rewrite (same_shape_live_lists _ _ H).
  apply list_bind_ext; [|done]. intros l. by apply same_shape_missions_of.
Qed.

Lemma same_shape_record_of s s' m : same_shape s s' → record_of s' m = record_of s m.
Proof.
  intros []. unfold record_of.
  assert (((λ x, fst (fst x)) ∘ mission_shape <$> st_missions s') !! m
        = ((λ x, fst (fst x)) ∘ mission_shape <$> st_missions s) !! m) as H.
  { by rewrite !map_fmap_compose, ss_missions0. }
  rewrite !lookup_fmap in H. destruct (st_missions s' !! m), (st_missions s !! m); by simplify_eq/=.
Qed.

Lemma same_shape_live_records s s' : same_shape s s' → live_records s' = live_records s.
Proof.
  intros H. unfold live_records. rewrite (ss_terminate _ _ H), (ss_held _ _ H).
  do 2 f_equal. rewrite (same_shape_live_missions _ _ H).
  apply list_omap_ext. induction (live_missions s); constructor; [|done].
  by apply same_shape_record_of.
Qed.

Lemma live_known_shape s s' : same_shape s s' → live_known s → live_known s'.
Proof.
  intros H Hk r. rewrite (same_shape_live_records _ _ H).
  intros Hr. by eapply known_record_shape, Hk.
Qed.

Lemma lock_record_known s o r : live_known s → lock_record s o = Some r → known_record s r.
Proof.
  unfold lock_record. destruct o as [r'|]; simpl; [|done]. case_decide; [|done].
  intros Hk ?. simplify_eq. by apply Hk.
Qed.

Create HintDb shape.
#[export] Hint Resolve known_record_shape known_mission_shape live_known_shape lock_record_known : shape.

(** * Elementary steps *)

Lemma same_shape_upd_record s r f :
  shape_keeping f → same_shape s (s <| st_records ::= alter f r |>).
Proof.
  intros Hf. constructor; try done; simpl.
  - apply map_eq. intros r'. rewrite !lookup_fmap. destruct (decide (r' = r)) as [->|].
    + rewrite lookup_alter_eq. destruct (st_records s !! r); simpl; [|done]. by rewrite (proj1 (Hf _)).
    + by rewrite lookup_alter_ne.
  - intros r' a Ha Ht. destruct (decide (r' = r)) as [->|].
    + rewrite lookup_alter_eq, Ha. eexists. split; [done|]. by apply Hf.
    + rewrite lookup_alter_ne by done. eauto.
Qed.

Lemma same_shape_upd_mission s m f :
  (∀ ms, mission_shape (f ms) = mission_shape ms) → same_shape s (s <| st_missions ::= alter f m |>).
Proof.
  intros Hf. constructor; try done; simpl; [|by eauto].
  apply map_eq. intros m'. rewrite !lookup_fmap. destruct (decide (m' = m)) as [->|].
  - rewrite lookup_alter_eq. destruct (st_missions s !! m); simpl; [|done]. by rewrite Hf.
  - by rewrite lookup_alter_ne.
Qed.

Lemma keeps_upd_record s r f : shape_keeping f → keeps same_shape (upd_record r f) s.
Proof. apply same_shape_upd_record. Qed.

Lemma keeps_upd_mission s m f :
  (∀ ms, mission_shape (f ms) = mission_shape ms) → keeps same_shape (upd_mission m f) s.
Proof. apply same_shape_upd_mission. Qed.

Lemma keeps_emit s e : keeps same_shape (emit e) s.
Proof. by constructor; eauto. Qed.

Lemma keeps_next_event s r : keeps same_shape (next_event r) s.
Proof.
  unfold next_event. apply (keeps_bind _); [by constructor; eauto|]. intros _ s1 _ _.
  apply keeps_gets. apply (keeps_bind _); [by apply keeps_upd_record|].
  intros _ s3 _ _. by apply (keeps_ret _).
Qed.

Lemma keeps_the_record {B} s r (k : AbilityRecord → ST Store B) :
  known_record s r → (∀ a, st_records s !! r = Some a → keeps same_shape (k a) s) →
  keeps same_shape (the_record r ≫= k) s.
Proof.
  intros [a Ha] H. specialize (H a Ha). unfold keeps, wp, the_record, deref, gets, mbind, ST_bind in *.
  by rewrite Ha.
Qed.

Lemma keeps_the_mission {B} s m (k : Mission → ST Store B) :
  known_mission s m → (∀ a, st_missions s !! m = Some a → keeps same_shape (k a) s) →
  keeps same_shape (the_mission m ≫= k) s.
Proof.
  intros [a Ha] H. specialize (H a Ha). unfold keeps, wp, the_mission, deref, gets, mbind, ST_bind in *.
  by rewrite Ha.
Qed.

Lemma shape_SetRestarting b : shape_keeping (SetRestarting b).
Proof. intros a. unfold SetRestarting. cbv zeta. by destruct (_ && _). Qed.

Lemma shape_SetAbilityState st : shape_keeping (SetAbilityState st).
Proof.
  intros a. unfold SetAbilityState. cbv zeta. destruct (_ || _); [|done].
  by destruct (shape_SetRestarting false (a <| r_state := st |>)).
Qed.

Lemma shape_RemoveWindowMode : shape_keeping RemoveWindowMode.
Proof. done. Qed.

Lemma shape_SetScheduler b : shape_keeping (SetScheduler b).
Proof. by destruct b. Qed.

Lemma shape_SetRestarting_Initial b st : shape_keeping (λ a, SetRestarting b (SetAbilityState st a)).
Proof.
  intros a. destruct (shape_SetRestarting b (SetAbilityState st a)), (shape_SetAbilityState st a).
  split; [congruence|by auto].
Qed.

#[export] Hint Resolve shape_SetRestarting_Initial shape_SetRestarting shape_SetAbilityState shape_RemoveWindowMode
  shape_SetScheduler : shape.
#[export] Hint Resolve keeps_emit keeps_next_event : shape.

(** One step of a proof that code keeps the shape. *)
Ltac keep_known := first [eassumption | solve [eauto 8 with shape]].
Ltac keep_side := first [solve [eauto 8 with shape] | done | intros ?; done].
Ltac keep_step := cbv beta; lazymatch goal with
  | |- keeps _ (mret _) _ => apply (keeps_ret _)
  | |- keeps _ (upd_record _ _) _ => apply keeps_upd_record; keep_side
  | |- keeps _ (upd_mission _ _) _ => apply keeps_upd_mission; keep_side
  | |- keeps _ (if ?b then _ else _) _ => destruct b eqn:?
  | |- keeps _ (match ?x with _ => _ end) _ => destruct x eqn:?
  | |- keeps _ (gets _ ≫= _) _ => apply keeps_gets
  | |- keeps _ (the_record _ ≫= _) _ => apply keeps_the_record; [keep_known|intros ? ?]
  | |- keeps _ (the_mission _ ≫= _) _ => apply keeps_the_mission; [keep_known|intros ? ?]
  | |- keeps _ (_ ≫= _) _ => apply (keeps_bind _); [|intros ? ? _ ?]
  | |- keeps _ (let _ := _ in _) _ => cbv zeta
  | |- keeps _ _ _ => solve [eauto 8 with shape]
  end.
Ltac keep := repeat keep_step.

(** * The operations of AbilityRecord *)

Section operations.
Context (app_load app_terminate : RRef → Z).

Lemma keeps_SendEvent s msg r : known_record s r → keeps same_shape (SendEvent msg r) s.
Proof. intros. unfold SendEvent. keep. Qed.

Lemma keeps_LoadAbility s r : known_record s r → keeps same_shape (LoadAbility app_load r) s.
Proof.
  intros. unfold LoadAbility. keep_step. keep_step; [|keep].
  keep_step; [keep_step|]. by apply keeps_SendEvent.
Qed.

Lemma keeps_deal_transaction s r t : known_record s r → keeps same_shape (deal_transaction r t) s.
Proof. intros. unfold deal_transaction. keep. Qed.

Lemma keeps_SaveAbilityState s r : known_record s r → keeps same_shape (SaveAbilityState r) s.
Proof. intros. unfold SaveAbilityState. keep. Qed.

Lemma keeps_post_timeout s r t : known_record s r → keeps same_shape (post_timeout r t) s.
Proof. intros. unfold post_timeout. keep. Qed.

Hint Resolve keeps_SendEvent keeps_LoadAbility keeps_deal_transaction keeps_SaveAbilityState
  keeps_post_timeout : shape.

Lemma keeps_ForegroundAbility s r : known_record s r → keeps same_shape (ForegroundAbility r) s.
Proof. intros. unfold ForegroundAbility. keep. Qed.

Hint Resolve keeps_ForegroundAbility : shape.

Lemma keeps_ProcessForegroundAbility s r flag :
  known_record s r → keeps same_shape (ProcessForegroundAbility app_load r flag) s.
Proof. intros. unfold ProcessForegroundAbility. keep. Qed.

Lemma keeps_BackgroundAbility s r : known_record s r → keeps same_shape (BackgroundAbility r) s.
Proof. intros. unfold BackgroundAbility. keep. Qed.

Lemma keeps_Terminate s r : known_record s r → keeps same_shape (Terminate r) s.
Proof. intros. unfold Terminate. keep. Qed.

Lemma keeps_RecordTerminateAbility s r : keeps same_shape (RecordTerminateAbility app_terminate r) s.
Proof. unfold RecordTerminateAbility. keep. Qed.

Lemma keeps_AddCallerRecord s r token code : keeps same_shape (AddCallerRecord r token code) s.
Proof. unfold AddCallerRecord. keep. Qed.

Lemma keeps_SendResult s r : known_record s r → keeps same_shape (SendResult r) s.
Proof. intros. unfold SendResult. keep. Qed.

Hint Resolve keeps_SendResult : shape.

Lemma keeps_SendResultToCallers s r :
  live_known s → known_record s r → keeps same_shape (SendResultToCallers r) s.
Proof.
  intros. unfold SendResultToCallers. keep_step.
  apply (keeps_for_each _ live_known); [done|by eauto with shape|].
  intros c s' _ Hs'. keep.
Qed.

Lemma keeps_SaveResultToCallers s r code w :
  known_record s r → keeps same_shape (SaveResultToCallers r code w) s.
Proof.
  intros. unfold SaveResultToCallers. keep_step.
  apply (keeps_for_each _ (λ _, True)); [done|done|]. intros c s' _ _. keep.
Qed.

Lemma keeps_events s ev : keeps same_shape (for_each (λ e, emit (CallConnection e)) ev) s.
Proof. apply (keeps_for_each _ (λ _, True)); [done|done|]. intros c s' _ _. keep. Qed.

Hint Resolve keeps_events : shape.

Lemma keeps_RecordResolve s r q : known_record s r → keeps same_shape (RecordResolve r q) s.
Proof. intros. unfold RecordResolve. keep. Qed.

Lemma keeps_RecordCallRequest callee s r :
  known_record s r → keeps same_shape (RecordCallRequest callee r) s.
Proof. intros. unfold RecordCallRequest. keep. Qed.

Lemma keeps_RecordRelease s r conn : known_record s r → keeps same_shape (RecordRelease r conn) s.
Proof. intros. unfold RecordRelease. keep. Qed.
End operations.

#[export] Hint Resolve keeps_SendEvent keeps_LoadAbility keeps_ForegroundAbility
  keeps_ProcessForegroundAbility keeps_BackgroundAbility keeps_Terminate
  keeps_RecordTerminateAbility keeps_AddCallerRecord keeps_SendResult keeps_SendResultToCallers
  keeps_SaveResultToCallers keeps_RecordResolve keeps_RecordCallRequest keeps_RecordRelease : shape.
