(* ===== verification/MissionList.v ===== *)
(** [MissionList] (services/abilitymgr/src/mission_list.cpp): the operations of
    a list of missions, on the heap of [AbilityRecord].  Searches that
    dereference a mission's record without a test are stateful and throw when
    it is null. *)

From S2P Require Import Prelude CppString Want CallContainer AbilityRecord.
From Stdlib Require Import Ascii.

#[local] Open Scope stdpp_scope.
#[local] Open Scope Z_scope.

Implicit Types (s : Store) (l : LRef) (m : MRef) (r : RRef).

Definition IsEmpty (s : Store) (l : LRef) : bool := bool_decide (missions_of s l = []).

Definition GetType (s : Store) (l : LRef) : MissionListType :=
  match st_lists s !! l with Some ml => l_type ml | None => CURRENT end.

(** The record of a mission that is there. *)
Definition mission_record (s : Store) (m : MRef) : option AbilityRecord :=
  r ← record_of s m; st_records s !! r.

Definition AddMissionToTop (l : LRef) (m : MRef) : ST Store unit :=
  s ← gets id;
  if decide (head (missions_of s l) = Some m) then mret tt
  else
    _ ← upd_list l (λ ml, ml <| l_missions ::= λ ms, m :: list_remove_all m ms |>);
    SetMissionList m l.

Definition RemoveMission (l : LRef) (m : MRef) : ST Store unit :=
  upd_list l (λ ml, ml <| l_missions ::= list_erase_val m |>).

Definition GetTopMission (s : Store) (l : LRef) : option MRef := head (missions_of s l).

Definition GetSingletonMissionByName (missionName : string) (s : Store) (l : LRef) : option MRef :=
  if decide (missionName = "") then None
  else List.find (λ m, IsSingletonAbility s m &&
         match st_missions s !! m with
         | Some ms => bool_decide (m_missionName ms = missionName)
         | None => false
         end) (missions_of s l).

Definition ListGetAbilityRecordByToken (token : RRef) (s : Store) (l : LRef) : option RRef :=
  m ← List.find (λ m, bool_decide (record_of s m = Some token)) (missions_of s l);
  record_of s m.

Definition RemoveMissionByAbilityRecord (l : LRef) (r : RRef) : ST Store unit :=
  s ← gets id;
  upd_list l (λ ml, ml <| l_missions ::= erase_first (λ m, bool_decide (record_of s m = Some r)) |>).

Definition ListGetMissionById (missionId : Z) (s : Store) (l : LRef) : option MRef :=
  List.find (λ m, match st_missions s !! m with
                  | Some ms => m_missionId ms =? missionId
                  | None => false
                  end) (missions_of s l).

(** The search stops with nothing at a mission without a record. *)
Fixpoint find_specified (s : Store) (w : Want) (flag : string) (ms : list MRef) : option MRef :=
  match ms with
  | [] => None
  | m :: ms' =>
      match mission_record s m with
      | None => None
      | Some a =>
          if bool_decide (app_bundleName (r_app a) = el_bundleName (GetElement w)) &&
             bool_decide (ai_name (r_info a) = el_abilityName (GetElement w)) &&
             bool_decide (r_specifiedFlag a = flag)
          then Some m else find_specified s w flag ms'
      end
  end.

Definition ListGetMissionBySpecifiedFlag (w : Want) (flag : string) (s : Store) (l : LRef)
    : option MRef := find_specified s w flag (missions_of s l).

Definition GetTopAbility (s : Store) (l : LRef) : option RRef :=
  m ← GetTopMission s l; record_of s m.

Definition ListGetLauncherRoot (s : Store) (l : LRef) : option RRef :=
  m ← List.find (λ m, match mission_record s m with
                      | Some a => r_isLauncherRoot a
                      | None => false
                      end) (missions_of s l);
  record_of s m.

(** Runs a test on the record of a mission, which must be there. *)
Definition test_record (f : Store → RRef → AbilityRecord → bool) (m : MRef) : ST Store bool :=
  s ← gets id; r ← deref (record_of s m); a ← the_record r; mret (f s r a).

Definition find_record (f : Store → RRef → AbilityRecord → bool) (l : LRef)
    : ST Store (option RRef) :=
  s ← gets id;
  m ← find_m (test_record f) (missions_of s l);
  mret (m ← m; record_of s m).

Definition ListGetAbilityRecordById (eventId : Z) (l : LRef) : ST Store (option RRef) :=
  find_record (λ _ _ a, r_eventId a =? eventId) l.

Definition ListGetAbilityRecordByCaller (caller : RRef) (requestCode : Z) (l : LRef)
    : ST Store (option RRef) :=
  find_record (λ s _ a, existsb (λ c, bool_decide (lock_record s (Some c.2) = Some caller)
                                      && (c.1 =? requestCode)) (r_callerList a)) l.

Definition ListGetAbilityRecordByName (e : ElementName) (l : LRef) : ST Store (option RRef) :=
  find_record (λ _ _ a, element_eqb (record_element a) e) l.

Definition ListGetAbilityTokenByMissionId (missionId : Z) (s : Store) (l : LRef) : option RRef :=
  m ← List.find (λ m, match st_missions s !! m with
                      | Some ms => (m_missionId ms =? missionId)
                                   && bool_decide (is_Some (record_of s m))
                      | None => false
                      end) (missions_of s l);
  record_of s m.

(** [MatchedInitialMission]: tags the record of an uninstalled ability and says
    whether its mission can go at once. *)
Definition MatchedInitialMission (m : MRef) (bundleName : string) (uid : Z) : ST Store bool :=
  s ← gets id;
  match record_of s m with
  | None => mret false
  | Some r =>
      a ← the_record r;
      if bool_decide (ai_bundleName (r_info a) = bundleName) && (r_uid a =? uid) then
        _ ← upd_record r (λ a, a <| r_isUninstall := true |>);
        mret (IsAbilityState INITIAL a)
      else mret false
  end.

(** The loop of [HandleUnInstallApp] over the missions of the list. *)
Fixpoint uninstall_missions (l : LRef) (bundleName : string) (uid : Z) (ms : list MRef)
    : ST Store unit :=
  match ms with
  | [] => mret tt
  | m :: ms' =>
      matched ← MatchedInitialMission m bundleName uid;
      _ ← (if matched : bool then RemoveMission l m else mret tt);
      uninstall_missions l bundleName uid ms'
  end.

Definition ListHandleUnInstallApp (l : LRef) (bundleName : string) (uid : Z) : ST Store unit :=
  s ← gets id; uninstall_missions l bundleName uid (missions_of s l).
