(* ===== verification/MissionMoves.v ===== *)
(** The mission lists of [MissionListManager]
    (services/abilitymgr/src/mission_list_manager.cpp): how it finds missions
    and records in its lists, how it chooses the list a start goes to, and how
    it moves missions between lists.  These operations touch only the heap of
    [AbilityRecord]; [MissionListManager] composes them. *)

From S2P Require Import Prelude CppString Want CallContainer AbilityRecord MissionList.
From Stdlib Require Import Ascii.

#[local] Open Scope stdpp_scope.
#[local] Open Scope Z_scope.

Implicit Types (s : Store) (l : LRef) (m : MRef) (r : RRef).

Definition out_of_fuel {S A} : ST S A := λ _, OutOfFuel.

(** The first result of a pure search over several lists. *)
Fixpoint first_some {A B} (f : A → option B) (l : list A) : option B :=
  match l with
  | [] => None
  | x :: l' => match f x with Some y => Some y | None => first_some f l' end
  end.

(** [AbilityUtil::ConvertBundleNameSingleton]. *)
Definition ConvertBundleNameSingleton (bundleName name moduleName : string) : string :=
  "#" +:+ bundleName +:+ ":" +:+ moduleName +:+ ":" +:+ name.

(** [MissionListManager::Init]: the three lists of a manager; the launcher list
    is a current list from the start. *)
Definition init_store : Store :=
  mkStore ∅ ∅ {[ 1%positive := mkList LAUNCHER []; 2%positive := mkList DEFAULT_STANDARD [];
                 3%positive := mkList DEFAULT_SINGLE [] ]} 1 2 3 [1%positive] [] [] 4 0 [].

(** * Lookups *)

Definition GetCurrentTopAbility (s : Store) : option RRef :=
  l ← head (st_currentMissionLists s); GetTopAbility s l.

(** The order in which most lookups visit the lists. *)
Definition current_then (s : Store) (more : list LRef) : list LRef :=
  st_currentMissionLists s ++ more.

Definition GetAbilityFromTerminateList (s : Store) (token : option RRef) : option RRef :=
  r ← token; if decide (r ∈ st_terminateAbilityList s) then Some r else None.

Definition GetAbilityRecordByToken (s : Store) (token : option RRef) : option RRef :=
  r ← token;
  if decide (r ∈ st_terminateAbilityList s) then Some r
  else first_some (ListGetAbilityRecordByToken r s)
         (current_then s [st_defaultSingleList s; st_defaultStandardList s]).

Definition GetMissionById (s : Store) (missionId : Z) : option MRef :=
  first_some (ListGetMissionById missionId s)
    (current_then s [st_defaultSingleList s; st_launcherList s; st_defaultStandardList s]).

Definition GetMissionBySpecifiedFlag (s : Store) (w : Want) (flag : string) : option MRef :=
  first_some (ListGetMissionBySpecifiedFlag w flag s)
    (current_then s [st_defaultSingleList s; st_launcherList s; st_defaultStandardList s]).

Definition GetAbilityTokenByMissionId (s : Store) (missionId : Z) : option RRef :=
  first_some (ListGetAbilityTokenByMissionId missionId s)
    (current_then s [st_defaultSingleList s; st_defaultStandardList s]).

Definition GetAbilityRecordByEventId (eventId : Z) : ST Store (option RRef) :=
  s ← gets id;
  first_m (ListGetAbilityRecordById eventId)
    (current_then s [st_defaultSingleList s; st_defaultStandardList s]).

Definition GetAbilityRecordByCaller (caller : option RRef) (requestCode : Z)
    : ST Store (option RRef) :=
  match caller with
  | None => mret None
  | Some c =>
      s ← gets id;
      first_m (ListGetAbilityRecordByCaller c requestCode)
        (current_then s [st_defaultSingleList s; st_defaultStandardList s])
  end.

Definition GetAbilityRecordByName (e : ElementName) : ST Store (option RRef) :=
  s ← gets id;
  first_m (ListGetAbilityRecordByName e)
    (current_then s [st_launcherList s; st_defaultSingleList s]).

Definition GetReusedMission (s : Store) (q : AbilityRequest) : option MRef :=
  if decide (ai_launchMode (rq_info q) = SINGLETON) then
    let missionName := ConvertBundleNameSingleton (ai_bundleName (rq_info q)) (ai_name (rq_info q))
                         (ai_moduleName (rq_info q)) in
    first_some (GetSingletonMissionByName missionName s)
      ((if ai_isLauncherApp (rq_info q) then [st_launcherList s] else [])
       ++ current_then s [st_defaultSingleList s])
  else None.

(** A record for a request with a mission of its own; [restartMax] is what
    [GetMaxRestartNum] gave. *)
Definition make_mission (restartMax userId : Z) (q : AbilityRequest) (missionId method : Z)
    (missionName : string) : ST Store (MRef * RRef) :=
  r ← new_record (CreateAbilityRecord restartMax q);
  m ← new_mission (mkMission missionId method (Some r) missionName None false false);
  _ ← SetMission r m;
  _ ← upd_record r (λ a, a <| r_ownerMissionUserId := userId |>);
  mret (m, r).

(** * The target list of a start *)

Definition is_default_list (s : Store) (l : LRef) : bool :=
  bool_decide (l = st_defaultSingleList s) || bool_decide (l = st_defaultStandardList s).

Definition GetTargetMissionListByLauncher (q : AbilityRequest) : ST Store (option LRef) :=
  s ← gets id;
  match (m ← GetReusedMission s q; GetMissionList s m) with
  | Some l => if is_default_list s l then l' ← new_list CURRENT; mret (Some l') else mret (Some l)
  | None => l' ← new_list CURRENT; mret (Some l')
  end.

Definition GetTargetMissionListByDefault (caller : option RRef) (q : AbilityRequest)
    : ST Store (option LRef) :=
  match caller with
  | None => mret None
  | Some c =>
      s ← gets id;
      a ← the_record c;
      match lock_mission s (r_mission a), lock_list s (r_missionList a) with
      | Some callerMission, Some callerList =>
          if is_default_list s callerList then
            l' ← new_list CURRENT;
            _ ← RemoveMission callerList callerMission;
            _ ← AddMissionToTop l' callerMission;
            mret (Some l')
          else mret (Some callerList)
      | _, _ => mret None
      end
  end.

Definition GetTargetMissionListForStart (caller : option RRef) (q : AbilityRequest)
    : ST Store (option LRef) :=
  s ← gets id;
  if ai_isLauncherApp (rq_info q) then mret (Some (st_launcherList s))
  else
    match caller with
    | None => l' ← new_list CURRENT; mret (Some l')
    | Some c =>
        a ← the_record c;
        if r_isLauncherAbility a then GetTargetMissionListByLauncher q
        else GetTargetMissionListByDefault caller q
    end.

(** * Moves *)

Definition RemoveMissionList (l : LRef) : ST Store unit :=
  modify (λ s, s <| st_currentMissionLists ::= list_erase_val l |>).

Definition MoveMissionListToTop (l : LRef) : ST Store unit :=
  s ← gets id;
  if decide (head (st_currentMissionLists s) = Some l) then mret tt
  else modify (λ s, s <| st_currentMissionLists ::= λ ls, l :: list_remove_all l ls |>).

(** The loop of [MoveNoneTopMissionToDefaultList]. *)
Fixpoint pop_above (fuel : nat) (l : LRef) (m : MRef) : ST Store unit :=
  match fuel with
  | O => out_of_fuel
  | S fuel' =>
      s ← gets id;
      match GetTopMission s l with
      | None => mret tt
      | Some item =>
          if decide (item = m) then mret tt
          else
            _ ← RemoveMission l item;
            s ← gets id;
            _ ← AddMissionToTop
                  (if IsSingletonAbility s item then st_defaultSingleList s
                   else st_defaultStandardList s) item;
            pop_above fuel' l m
      end
  end.

Definition MoveNoneTopMissionToDefaultList (m : MRef) : ST Store unit :=
  s ← gets id;
  match GetMissionList s m with
  | None => mret tt
  | Some l => pop_above (S (length (missions_of s l))) l m
  end.

Definition MoveMissionToTargetList (isCallFromLauncher : bool) (target : LRef) (m : MRef)
    : ST Store unit :=
  s ← gets id;
  match GetMissionList s m with
  | None => AddMissionToTop target m
  | Some l =>
      if isCallFromLauncher && bool_decide (target = st_launcherList s) then
        AddMissionToTop target m
      else if is_default_list s l then
        _ ← RemoveMission l m; AddMissionToTop target m
      else
        _ ← (if negb (bool_decide (target = l)) then
               _ ← MoveNoneTopMissionToDefaultList m; RemoveMission l m
             else if isCallFromLauncher then MoveNoneTopMissionToDefaultList m
             else mret tt);
        _ ← AddMissionToTop target m;
        s' ← gets id;
        if IsEmpty s' l then
          modify (λ s, s <| st_currentMissionLists ::= list_remove_all l |>)
        else mret tt
  end.

(** * Foreground abilities *)

Definition GetForegroundAbilities (s : Store) (l : LRef) : list RRef :=
  omap (λ m, r ← record_of s m; a ← st_records s !! r;
             if IsActiveState a then Some r else None) (missions_of s l).

Definition GetAllForegroundAbilities (s : Store) : list RRef :=
  current_then s [st_defaultSingleList s; st_defaultStandardList s] ≫= GetForegroundAbilities s.
