(* ===== verification/MissionPlaces.v ===== *)
(** Where missions are.  The invariant [places] of the mission lists: the lists
    have their kinds, a mission lies in at most one list, which it and its
    ability's record both name, the launcher's missions and only those lie in the
    launcher list, singletons and only those in the default list of singletons,
    and an ability that terminates is in no list.  Every list operation of
    [MissionList] and [MissionMoves] is shown to return, to keep the invariant, and
    to change the lists in a way that is written out.

    [launcher_name] tells the mission names of launcher applications from the
    others: the bundle manager gives one [isLauncherApp] per application. *)

From stdpp Require Import functions.
From S2P Require Import Prelude CppString Want CallContainer AbilityRecord.
From S2P Require Import StoreShape MissionList MissionMoves.
From Stdlib Require Import Ascii.

#[local] Open Scope stdpp_scope.
#[local] Open Scope Z_scope.

Implicit Types (s : Store) (l : LRef) (m : MRef) (r : RRef).

(** Computes the fields of an updated store. *)
Ltac store_cbn := unfold update;
  cbn [st_records st_missions st_lists st_launcherList st_defaultStandardList st_defaultSingleList
       st_currentMissionLists st_terminateAbilityList st_heldRecords st_next st_lastEventId st_trace].

(** * What list operations leave alone *)

Record same_frame s s' : Prop := {
  sf_types : l_type <$> st_lists s' = l_type <$> st_lists s;
  sf_launcher : st_launcherList s' = st_launcherList s;
  sf_standard : st_defaultStandardList s' = st_defaultStandardList s;
  sf_single : st_defaultSingleList s' = st_defaultSingleList s;
  sf_current : st_currentMissionLists s' = st_currentMissionLists s;
  sf_terminate : st_terminateAbilityList s' = st_terminateAbilityList s;
  sf_held : st_heldRecords s' = st_heldRecords s;
  sf_next : st_next s' = st_next s;
  sf_trace : st_trace s' = st_trace s;
  sf_missions : (λ ms, ms <| m_ownerMissionList := None |>) <$> st_missions s'
              = (λ ms, ms <| m_ownerMissionList := None |>) <$> st_missions s;
  sf_records : (λ a, a <| r_missionList := None |>) <$> st_records s'
             = (λ a, a <| r_missionList := None |>) <$> st_records s;
}.

#[export] Instance same_frame_preorder : PreOrder same_frame.
Proof.
  split.
  - intros s. by constructor.
  - intros s1 s2 s3 [] []. constructor; congruence.
Qed.

(** [m] is a mission with record [r]. *)
Definition mission_ok s m ms r a : Prop :=
  st_missions s !! m = Some ms ∧ m_abilityRecord ms = Some r ∧ st_records s !! r = Some a
  ∧ r_mission a = Some m.

Lemma mission_ok_frame s s' m ms r a :
  same_frame s s' → mission_ok s m ms r a →
  ∃ ms' a', mission_ok s' m ms' r a' ∧ m_missionName ms' = m_missionName ms ∧ r_info a' = r_info a
    ∧ r_isLauncherAbility a' = r_isLauncherAbility a.
Proof.
  intros [] (Hm & Hr & Ha & Ham).
  destruct (lookup_shape _ _ _ _ _ sf_missions0 Hm) as (ms' & Hm' & Hms).
  destruct (lookup_shape _ _ _ _ _ sf_records0 Ha) as (a' & Ha' & Haa).
  assert (m_abilityRecord ms' = m_abilityRecord ms) by exact (f_equal m_abilityRecord Hms).
  assert (m_missionName ms' = m_missionName ms) by exact (f_equal m_missionName Hms).
  assert (r_mission a' = r_mission a) by exact (f_equal r_mission Haa).
  assert (r_info a' = r_info a) by exact (f_equal r_info Haa).
  assert (r_isLauncherAbility a' = r_isLauncherAbility a) by exact (f_equal r_isLauncherAbility Haa).
  exists ms', a'. unfold mission_ok. split_and!; try done; congruence.
Qed.

Lemma same_frame_live_lists s s' : same_frame s s' → live_lists s' = live_lists s.
Proof. intros []. unfold live_lists. congruence. Qed.

Lemma same_frame_known_record s s' r : same_frame s s' → known_record s r → known_record s' r.
Proof. intros [] [a Ha]. destruct (lookup_shape _ _ _ _ _ sf_records0 Ha) as (b & ? & _). by exists b. Qed.

Lemma same_frame_known_mission s s' m : same_frame s s' → known_mission s m → known_mission s' m.
Proof. intros [] [a Ha]. destruct (lookup_shape _ _ _ _ _ sf_missions0 Ha) as (b & ? & _). by exists b. Qed.

Lemma same_frame_record_of s s' m : same_frame s s' → record_of s' m = record_of s m.
Proof.
  intros []. unfold record_of.
  assert ((m_abilityRecord <$> ((λ ms, ms <| m_ownerMissionList := None |>) <$> st_missions s')) !! m
        = (m_abilityRecord <$> ((λ ms, ms <| m_ownerMissionList := None |>) <$> st_missions s)) !! m)
    as H by (by rewrite sf_missions0).
  rewrite !lookup_fmap in H. destruct (st_missions s' !! m), (st_missions s !! m); by simplify_eq/=.
Qed.

Lemma same_frame_IsSingletonAbility s s' m :
  same_frame s s' → IsSingletonAbility s' m = IsSingletonAbility s m.
Proof.
  intros H. unfold IsSingletonAbility. rewrite (same_frame_record_of _ _ m H).
  destruct (record_of s m) as [r|]; [|done]. cbn [mbind option_bind].
  assert ((r_info <$> ((λ a, a <| r_missionList := None |>) <$> st_records s')) !! r
        = (r_info <$> ((λ a, a <| r_missionList := None |>) <$> st_records s)) !! r)
    as Hr by (by rewrite (sf_records _ _ H)).
  rewrite !lookup_fmap in Hr.
  destruct (st_records s' !! r) as [a'|], (st_records s !! r) as [a|]; try done.
  cbn [fmap option_fmap option_map mbind option_bind] in *. change (Some (r_info a') = Some (r_info a)) in Hr.
  assert (r_info a' = r_info a) as E by congruence. by rewrite E.
Qed.

Definition list_type s l : option MissionListType := l_type <$> (st_lists s !! l).

Lemma same_frame_list_type s s' l : same_frame s s' → list_type s' l = list_type s l.
Proof. intros H. unfold list_type. by rewrite <- !lookup_fmap, (sf_types _ _ H). Qed.

(** * The invariant *)

(** As [same_frame], with the current lists free. *)
Definition relisted s s' : Prop :=
  same_frame s (s' <| st_currentMissionLists := st_currentMissionLists s |>).

#[export] Instance relisted_preorder : PreOrder relisted.
Proof.
  split.
  - intros s. by constructor.
  - intros s1 s2 s3 H1 H2. unfold relisted in *. etransitivity; [exact H1|].
    destruct H2. by constructor.
Qed.

Lemma same_frame_relisted s s' : same_frame s s' → relisted s s'.
Proof. intros []. by constructor. Qed.

Lemma relisted_relist s ls : relisted s (s <| st_currentMissionLists := ls |>).
Proof. by constructor. Qed.

(** The parts of a list before and after its first [m]. *)
Fixpoint before m (ms : list MRef) : list MRef :=
  match ms with [] => [] | x :: ms' => if decide (x = m) then [] else x :: before m ms' end.
Fixpoint after m (ms : list MRef) : list MRef :=
  match ms with [] => [] | x :: ms' => if decide (x = m) then ms' else after m ms' end.

Lemma before_after m ms : m ∈ ms → ms = before m ms ++ m :: after m ms.
Proof.
  induction ms as [|x ms IH]; [by intros ?%not_elem_of_nil|]. intros Hm. simpl.
  destruct (decide (x = m)) as [->|Hn]; [done|]. simpl. f_equal. apply IH. set_solver.
Qed.

Section places.
Context (launcher_name : string → bool).

Definition fits s l ms a : Prop :=
  launcher_name (m_missionName ms) = bool_decide (l = st_launcherList s) ∧
  r_isLauncherAbility a = bool_decide (l = st_launcherList s) ∧
  (l = st_defaultSingleList s → ai_launchMode (r_info a) = SINGLETON) ∧
  (l = st_defaultStandardList s → ai_launchMode (r_info a) ≠ SINGLETON).

Definition placed s l m : Prop := ∃ ms r a,
  mission_ok s m ms r a ∧ m_ownerMissionList ms = Some l ∧ r_missionList a = Some l ∧
  (r ∉ st_terminateAbilityList s) ∧ fits s l ms a.

Lemma fits_frame s s' l m ms r a :
  same_frame s s' → mission_ok s m ms r a → fits s l ms a →
  ∃ ms' a', mission_ok s' m ms' r a' ∧ fits s' l ms' a'.
Proof.
  intros F Hok Hf. destruct (mission_ok_frame _ _ _ _ _ _ F Hok) as (ms' & a' & Hok' & Hn & Hi & Hla).
  exists ms', a'. split; [done|]. unfold fits in *.
  by rewrite Hn, Hi, Hla, (sf_launcher _ _ F), (sf_single _ _ F), (sf_standard _ _ F).
Qed.

(** [xs] are lists that the code holds but the manager does not list yet. *)
Record places (xs : list LRef) s : Prop := {
  pl_owner m ms : st_missions s !! m = Some ms →
    ∃ r, m_abilityRecord ms = Some r ∧ known_record s r;
  pl_record r a m : st_records s !! r = Some a → r_mission a = Some m →
    ∃ ms, st_missions s !! m = Some ms ∧ m_abilityRecord ms = Some r;
  pl_listed l m : m ∈ missions_of s l → known_mission s m;
  pl_placed l m : l ∈ live_lists s ++ xs → m ∈ missions_of s l → placed s l m;
  pl_nodup l : l ∈ live_lists s ++ xs → NoDup (missions_of s l);
  pl_launcher : list_type s (st_launcherList s) = Some LAUNCHER;
  pl_standard : list_type s (st_defaultStandardList s) = Some DEFAULT_STANDARD;
  pl_single : list_type s (st_defaultSingleList s) = Some DEFAULT_SINGLE;
  pl_current l : l ∈ st_currentMissionLists s ++ xs →
    l = st_launcherList s ∨ list_type s l = Some CURRENT;
  pl_current_nodup : NoDup (st_currentMissionLists s);
  pl_fresh p : (st_next s ≤ p)%positive →
    st_lists s !! p = None ∧ st_missions s !! p = None ∧ st_records s !! p = None;
  pl_terminating r : r ∈ st_terminateAbilityList s →
    ∃ a, st_records s !! r = Some a ∧ r_isTerminating a = true;
  pl_terminate_nodup : NoDup (st_terminateAbilityList s);
  pl_held r : r ∈ st_heldRecords s → known_record s r;
}.

(** No empty list among the current ones, but perhaps the launcher list. *)
Definition no_empty s : Prop :=
  ∀ l, l ∈ st_currentMissionLists s → l = st_launcherList s ∨ missions_of s l ≠ [].

Definition tidy s : Prop := places [] s ∧ no_empty s.

(** ** Consequences *)

Lemma places_kinds xs s : places xs s →
  st_launcherList s ≠ st_defaultStandardList s ∧ st_launcherList s ≠ st_defaultSingleList s ∧
  st_defaultStandardList s ≠ st_defaultSingleList s.
Proof.
  intros H. pose proof (pl_launcher _ _ H). pose proof (pl_standard _ _ H).
  pose proof (pl_single _ _ H). split_and!; congruence.
Qed.

Lemma places_current_default xs s l :
  places xs s → l ∈ st_currentMissionLists s ++ xs → is_default_list s l = false.
Proof.
  intros H Hl. pose proof (places_kinds _ _ H) as (H1 & H2 & H3).
  unfold is_default_list. rewrite !bool_decide_false; [done|..];
    destruct (pl_current _ _ H l Hl) as [->|Ht]; try congruence; intros ->;
    pose proof (pl_standard _ _ H); pose proof (pl_single _ _ H); congruence.
Qed.

Lemma places_known_list xs s l :
  places xs s → l ∈ live_lists s ++ xs → ∃ ml, st_lists s !! l = Some ml.
Proof.
  intros H. unfold live_lists. intros Hl.
  assert (is_Some (list_type s l)) as [t Ht]; [|unfold list_type in Ht; destruct (st_lists s !! l); by eauto].
  cbn in Hl. rewrite !elem_of_cons in Hl. destruct Hl as [->|[->|[->|Hl]]].
  - rewrite (pl_launcher _ _ H). by eexists.
  - rewrite (pl_standard _ _ H). by eexists.
  - rewrite (pl_single _ _ H). by eexists.
  - destruct (pl_current _ _ H l Hl) as [->|Ht]; [rewrite (pl_launcher _ _ H)|rewrite Ht]; by eexists.
Qed.

(** A mission is in at most one list. *)
Lemma places_unique xs s l l' m :
  places xs s → l ∈ live_lists s ++ xs → l' ∈ live_lists s ++ xs →
  m ∈ missions_of s l → m ∈ missions_of s l' → l = l'.
Proof.
  intros H Hl Hl' Hm Hm'.
  destruct (pl_placed _ _ H l m Hl Hm) as (ms & r & a & (Hms & _) & Ho & _).
  destruct (pl_placed _ _ H l' m Hl' Hm') as (ms' & r' & a' & (Hms' & _) & Ho' & _). congruence.
Qed.

Lemma placed_record_of s l m : placed s l m → is_Some (record_of s m).
Proof. intros (ms & r & a & (Hm & Hr & _) & _). unfold record_of. rewrite Hm. simpl. by rewrite Hr. Qed.

Lemma elem_of_live_missions s m : m ∈ live_missions s ↔ ∃ l, l ∈ live_lists s ∧ m ∈ missions_of s l.
Proof. unfold live_missions. rewrite list_elem_of_bind. naive_solver. Qed.

Lemma places_live_known xs s : places xs s → live_known s.
Proof.
  intros H r. unfold live_records. rewrite !elem_of_app. intros [Hr|[Hr|Hr]].
  - destruct (pl_terminating _ _ H r Hr) as (a & Ha & _). by exists a.
  - by apply (pl_held _ _ H).
  - apply list_elem_of_omap in Hr as (m & Hm & Hr). apply elem_of_live_missions in Hm as (l & Hl & Hm).
    destruct (pl_placed _ _ H l m) as (ms & r' & a & (Hms & Hr' & Ha & _) & _);
      [by rewrite elem_of_app; left|done|].
    unfold record_of in Hr. rewrite Hms in Hr. simpl in Hr. exists a. congruence.
Qed.

Lemma places_GetMissionList xs s l m :
  places xs s → l ∈ live_lists s → m ∈ missions_of s l → GetMissionList s m = Some l.
Proof.
  intros H Hl Hm.
  destruct (pl_placed _ _ H l m) as (ms & r & a & (Hms & _) & Ho & _); [by rewrite elem_of_app; left|done|].
  unfold GetMissionList, lock_list. rewrite Hms. simpl. rewrite Ho. simpl. by rewrite decide_True.
Qed.

(** A record belongs to one mission, so that of a placed mission is not among the
    records of the others. *)
Lemma placed_record_inj s l l' m m' r :
  placed s l m → placed s l' m' → record_of s m = Some r → record_of s m' = Some r → m = m'.
Proof.
  intros (ms & r1 & a & (Hm & Hr & Ha & Hx) & _) (ms' & r1' & a' & (Hm' & Hr' & Ha' & Hx') & _).
  unfold record_of. rewrite Hm, Hm'. simpl. congruence.
Qed.

(** ** Frames *)

Lemma places_shape xs s s' : same_shape s s' → places xs s → places xs s'.
Proof.
  intros Hs H. assert (∀ l, missions_of s' l = missions_of s l) as Hmo
    by (intros l; by apply same_shape_missions_of).
  pose proof (same_shape_live_lists _ _ Hs) as Hll.
  constructor; rewrite ?Hll; destruct Hs as [H1 H2 H3 H4 H5 H6 H7 H8 H9 H10 H11].
  - intros m ms Hm. symmetry in H9. destruct (lookup_shape _ _ _ _ _ H9 Hm) as (ms0 & Hm0 & He).
    destruct (pl_owner _ _ H m ms0 Hm0) as (r & Hr & [a Ha]). injection He as E1 E2 E3.
    exists r. split; [congruence|]. destruct (lookup_shape _ _ _ _ _ H10 Ha) as (b & Hb & _). by exists b.
  - intros r a m Ha Ham. symmetry in H10. destruct (lookup_shape _ _ _ _ _ H10 Ha) as (a0 & Ha0 & He).
    injection He as E1 E2 E3 E4. destruct (pl_record _ _ H r a0 m Ha0) as (ms & Hms & Hr); [congruence|].
    destruct (lookup_shape _ _ _ _ _ H9 Hms) as (ms' & Hms' & He). injection He as E5 E6 E7.
    exists ms'. split; [done|congruence].
  - intros l m. rewrite Hmo. intros [ms Hms]%(pl_listed _ _ H).
    destruct (lookup_shape _ _ _ _ _ H9 Hms) as (ms' & ? & _). by exists ms'.
  - intros l m Hl Hm. rewrite Hmo in Hm.
    destruct (pl_placed _ _ H l m Hl Hm) as (ms & r & a & (Hms & Hr & Ha & Hx) & Ho & Hrl & Hnt & Hf).
    destruct (lookup_shape _ _ _ _ _ H9 Hms) as (ms' & Hm' & He).
    destruct (lookup_shape _ _ _ _ _ H10 Ha) as (a' & Ha' & Hae).
    injection He as E1 E2 E3. injection Hae as E4 E5 E6 E7.
    exists ms', r, a'. unfold mission_ok, fits in *. rewrite H2, H3, H4, H6, E2, E6, E7.
    split_and!; try done; try congruence; apply Hf.
  - intros l Hl. rewrite Hmo. by apply (pl_nodup _ _ H).
  - unfold list_type. rewrite H1, H2. apply H.
  - unfold list_type. rewrite H1, H3. apply H.
  - unfold list_type. rewrite H1, H4. apply H.
  - unfold list_type. rewrite H1, H2, H5. apply H.
  - rewrite H5. apply H.
  - intros p. rewrite H8, H1. intros Hp. destruct (pl_fresh _ _ H p Hp) as (F1 & F2 & F3).
    split_and!; [done|..].
    + apply (f_equal (.!! p)) in H9. rewrite !lookup_fmap, F2 in H9. by destruct (st_missions s' !! p).
    + apply (f_equal (.!! p)) in H10. rewrite !lookup_fmap, F3 in H10. by destruct (st_records s' !! p).
  - intros r. rewrite H6. intros Hr. destruct (pl_terminating _ _ H r Hr) as (a & Ha & Ht). by eapply H11.
  - rewrite H6. apply H.
  - intros r. rewrite H7. intros Hr%(pl_held _ _ H). destruct Hr as [a Ha].
    destruct (lookup_shape _ _ _ _ _ H10 Ha) as (b & Hb & _). by exists b.
Qed.

Lemma no_empty_shape s s' : same_shape s s' → no_empty s → no_empty s'.
Proof.
  intros Hs H l. rewrite (ss_current _ _ Hs), (ss_launcher _ _ Hs), (same_shape_missions_of _ _ l Hs). apply H.
Qed.

Lemma tidy_shape s s' : same_shape s s' → tidy s → tidy s'.
Proof. intros Hs [H1 H2]. split; [by eapply places_shape|by eapply no_empty_shape]. Qed.

(** ** Edits of one list *)

Definition edit_list (g : list MRef → list MRef) l s : Store :=
  s <| st_lists ::= alter (λ ml, ml <| l_missions ::= g |>) l |>.

Lemma missions_of_edit g l s l' :
  g [] = [] ∨ is_Some (st_lists s !! l) →
  missions_of (edit_list g l s) l' = (<[l := g (missions_of s l)]> (missions_of s)) l'.
Proof.
  intros Hg. unfold missions_of at 1, edit_list. store_cbn. destruct (decide (l' = l)) as [->|].
  - rewrite fn_lookup_insert, lookup_alter_eq. unfold missions_of.
    destruct (st_lists s !! l) eqn:E; [done|]. simpl. destruct Hg as [->|[? ?]]; [done|congruence].
  - rewrite fn_lookup_insert_ne, lookup_alter_ne by done. done.
Qed.

Lemma same_frame_edit g l s : same_frame s (edit_list g l s).
Proof.
  constructor; try done. unfold edit_list. store_cbn. apply map_eq. intros l'. rewrite !lookup_fmap.
  destruct (decide (l' = l)) as [->|]; [|by rewrite lookup_alter_ne].
  rewrite lookup_alter_eq. by destruct (st_lists s !! l).
Qed.

Lemma edit_list_type g l s l' : list_type (edit_list g l s) l' = list_type s l'.
Proof. apply same_frame_list_type, same_frame_edit. Qed.

Lemma missions_of_shrink g l s l' :
  (∀ ms, g ms `sublist_of` ms) → missions_of (edit_list g l s) l' `sublist_of` missions_of s l'.
Proof.
  intros Hg. rewrite missions_of_edit by (left; by apply sublist_nil_r).
  destruct (decide (l' = l)) as [->|]; [by rewrite fn_lookup_insert|by rewrite fn_lookup_insert_ne].
Qed.

Lemma places_shrink xs g l s :
  (∀ ms, g ms `sublist_of` ms) → places xs s → places xs (edit_list g l s).
Proof.
  intros Hg H. constructor; rewrite ?edit_list_type; try apply H.
  - intros l' m Hm. apply (pl_listed _ _ H l').
    eapply elem_of_submseteq; [exact Hm|]. by apply sublist_submseteq, missions_of_shrink.
  - intros l' m Hl Hm. assert (m ∈ missions_of s l') as Hm'.
    { eapply elem_of_submseteq; [exact Hm|]. by apply sublist_submseteq, missions_of_shrink. }
    destruct (pl_placed _ _ H l' m Hl Hm') as (ms & r & a & ?). by exists ms, r, a.
  - intros l' Hl. eapply sublist_NoDup; [by apply (pl_nodup _ _ H l')|]. by apply missions_of_shrink.
  - intros l' Hl. rewrite edit_list_type. by apply (pl_current _ _ H).
  - intros p Hp. destruct (pl_fresh _ _ H p Hp) as (H1 & H2 & H3). split_and!; [|done..].
    unfold edit_list. store_cbn. destruct (decide (p = l)) as [->|]; [by rewrite lookup_alter_eq, H1|by rewrite lookup_alter_ne].
Qed.

Lemma RemoveMission_eq l m s : RemoveMission l m s = Returned (tt, edit_list (list_erase_val m) l s).
Proof. done. Qed.

Lemma wp_RemoveMission xs l m s Q :
  places xs s → l ∈ live_lists s ++ xs →
  (∀ s', same_frame s s' → places xs s' →
     (∀ l', missions_of s' l' = (<[l := list_remove_all m (missions_of s l)]> (missions_of s)) l') →
     Q tt s') →
  wp (RemoveMission l m) Q s.
Proof.
  intros H Hl HQ. change (Q tt (edit_list (list_erase_val m) l s)). apply HQ.
  - apply same_frame_edit.
  - apply places_shrink; [|done]. intros ms. apply erase_first_sublist.
  - intros l'. rewrite missions_of_edit by by left.
    by rewrite list_erase_val_nodup by (by eapply pl_nodup).
Qed.

(** ** A mission put on top of a list *)

Definition put_top l m r s : Store :=
  edit_list (λ ms, m :: list_remove_all m ms) l s
    <| st_missions ::= alter (λ ms, ms <| m_ownerMissionList := Some l |>) m |>
    <| st_records ::= alter (λ a, a <| r_missionList := Some l |>) r |>.

Ltac put_cbn := unfold put_top, edit_list; store_cbn.

Lemma fmap_alter_id {A B} (f : A → B) (g : A → A) (mp : gmap positive A) k :
  (∀ x, f (g x) = f x) → f <$> alter g k mp = f <$> mp.
Proof.
  intros Hg. apply map_eq. intros k'. rewrite !lookup_fmap. destruct (decide (k' = k)) as [->|].
  - rewrite lookup_alter_eq. destruct (mp !! k); simpl; [by rewrite Hg|done].
  - by rewrite lookup_alter_ne.
Qed.

Lemma same_frame_put_top l m r s : same_frame s (put_top l m r s).
Proof.
  etransitivity; [apply (same_frame_edit (λ ms, m :: list_remove_all m ms) l)|].
  constructor; try done; cbn; by apply fmap_alter_id.
Qed.

Lemma missions_of_put_top l m r s l' :
  is_Some (st_lists s !! l) →
  missions_of (put_top l m r s) l'
  = (<[l := m :: list_remove_all m (missions_of s l)]> (missions_of s)) l'.
Proof.
  intros Hl. change (missions_of (edit_list (λ ms, m :: list_remove_all m ms) l s) l' =
    (<[l := m :: list_remove_all m (missions_of s l)]> (missions_of s)) l').
  apply (missions_of_edit (λ ms, m :: list_remove_all m ms)). by right.
Qed.

Lemma placed_put_top_other l m r s l' m' :
  m' ≠ m → record_of s m = Some r → (∃ a, st_records s !! r = Some a ∧ r_mission a = Some m) →
  placed s l' m' → placed (put_top l m r s) l' m'.
Proof.
  intros Hne Hr (a & Ha & Ham) (ms' & r' & a' & (Hm' & Hr' & Ha' & Hx') & Hrest).
  assert (r' ≠ r) by congruence.
  exists ms', r', a'. split; [|done]. unfold mission_ok. put_cbn.
  by rewrite !lookup_alter_ne by done.
Qed.

Lemma places_put_top xs l m ms r a s :
  places xs s → l ∈ live_lists s ++ xs → mission_ok s m ms r a →
  r ∉ st_terminateAbilityList s → fits s l ms a →
  (∀ l', l' ∈ live_lists s ++ xs → l' ≠ l → m ∉ missions_of s l') →
  places xs (put_top l m r s).
Proof.
  intros H Hl Hok Hnt Hf Hout. destruct (places_known_list _ _ _ H Hl) as [ml Hml].
  pose proof Hok as (Hms & Hr & Ha & Ham).
  assert (record_of s m = Some r) as Hrec by (unfold record_of; by rewrite Hms).
  pose proof (same_frame_put_top l m r s) as HF.
  assert (∀ l', missions_of (put_top l m r s) l'
    = (<[l := m :: list_remove_all m (missions_of s l)]> (missions_of s)) l') as Hmo
    by (intros l'; apply missions_of_put_top; by eexists).
  constructor; try (apply H; fail).
  - intros m' ms' Hm'. unfold put_top, edit_list, update in Hm'; cbn [st_missions] in Hm'. apply lookup_alter_Some in Hm' as [(-> & ms0 & Hms0 & ->)|[_ Hm']].
    + exists r. split; [by simplify_eq|]. eapply same_frame_known_record; [done|]. by exists a.
    + destruct (pl_owner _ _ H m' ms' Hm') as (r' & ? & ?). exists r'. split; [done|].
      by eapply same_frame_known_record.
  - intros r' a' m' Ha' Ham'. unfold put_top, edit_list, update in Ha'; cbn [st_records] in Ha'.
    assert (∃ a0, st_records s !! r' = Some a0 ∧ r_mission a0 = Some m') as (a0 & Ha0 & Ham0).
    { apply lookup_alter_Some in Ha' as [(-> & a0 & Ha0 & ->)|[_ Ha0]]; by exists a0 || by exists a'. }
    destruct (pl_record _ _ H r' a0 m' Ha0 Ham0) as (ms' & Hms' & Hr').
    put_cbn. destruct (decide (m' = m)) as [->|Hne].
    + rewrite lookup_alter_eq, Hms'. eexists. split; [done|]. done.
    + exists ms'. by rewrite lookup_alter_ne.
  - intros l' m'. rewrite Hmo. intros Hm'. apply (same_frame_known_mission _ _ _ HF).
    destruct (decide (l' = l)) as [->|Hn].
    + rewrite fn_lookup_insert in Hm'. apply elem_of_cons in Hm' as [->|Hm']; [by exists ms|].
      apply elem_of_list_remove_all in Hm' as [_ Hm']. by apply (pl_listed _ _ H l).
    + rewrite fn_lookup_insert_ne in Hm' by done. by apply (pl_listed _ _ H l').
  - intros l' m' Hl'. rewrite Hmo. destruct (decide (m' = m)) as [->|Hne].
    + intros Hm. assert (l' = l) as ->.
      { destruct (decide (l' = l)) as [|Hn]; [done|]. rewrite fn_lookup_insert_ne in Hm by done.
        by destruct (Hout l' Hl' Hn). }
      exists (ms <| m_ownerMissionList := Some l |>), r, (a <| r_missionList := Some l |>).
      unfold mission_ok. put_cbn. rewrite !lookup_alter_eq, Hms, Ha. split_and!; try done; apply Hf.
    + intros Hm. apply placed_put_top_other; [done..|by eauto|].
      apply (pl_placed _ _ H l' m' Hl'). destruct (decide (l' = l)) as [->|Hn].
      * rewrite fn_lookup_insert in Hm. apply elem_of_cons in Hm as [?|Hm]; [done|].
        by apply elem_of_list_remove_all in Hm as [_ ?].
      * by rewrite fn_lookup_insert_ne in Hm.
  - intros l' Hl'. rewrite Hmo. destruct (decide (l' = l)) as [->|Hn].
    + rewrite fn_lookup_insert. constructor; [by rewrite elem_of_list_remove_all; intros [? _]|].
      apply NoDup_list_remove_all. by apply (pl_nodup _ _ H).
    + rewrite fn_lookup_insert_ne by done. by apply (pl_nodup _ _ H).
  - rewrite (same_frame_list_type _ _ _ HF). apply H.
  - rewrite (same_frame_list_type _ _ _ HF). apply H.
  - rewrite (same_frame_list_type _ _ _ HF). apply H.
  - intros l' Hl'. rewrite (same_frame_list_type _ _ _ HF). by apply (pl_current _ _ H).
  - intros p Hp. destruct (pl_fresh _ _ H p Hp) as (F1 & F2 & F3). put_cbn.
    rewrite !lookup_alter_ne by congruence. done.
  - intros r' Hr'. destruct (pl_terminating _ _ H r' Hr') as (a' & Ha' & Ht).
    destruct (decide (r' = r)) as [->|]; [done|]. exists a'. put_cbn. by rewrite lookup_alter_ne.
  - intros r' Hr'. eapply same_frame_known_record; [done|]. by apply (pl_held _ _ H).
Qed.

Lemma AddMissionToTop_eq l m ms r s :
  st_missions s !! m = Some ms → m_abilityRecord ms = Some r →
  AddMissionToTop l m s
  = Returned (tt, if decide (head (missions_of s l) = Some m) then s else put_top l m r s).
Proof.
  intros Hm Hr. unfold AddMissionToTop, gets, mbind, ST_bind. cbv beta iota delta [id].
  destruct (decide _); [done|].
  unfold upd_list, modify, SetMissionList, upd_mission, the_mission, gets, deref, mbind, ST_bind.
  unfold modify, gets, deref. store_cbn. rewrite lookup_alter_eq, Hm. cbn [fmap option_map option_fmap].
  cbn [m_abilityRecord]. by rewrite Hr.
Qed.

Lemma wp_AddMissionToTop xs l m ms r a s Q :
  places xs s → l ∈ live_lists s ++ xs → mission_ok s m ms r a →
  r ∉ st_terminateAbilityList s → fits s l ms a →
  (∀ l', l' ∈ live_lists s ++ xs → l' ≠ l → m ∉ missions_of s l') →
  (∀ s', same_frame s s' → places xs s' →
     (∀ l', missions_of s' l' = (<[l := m :: list_remove_all m (missions_of s l)]> (missions_of s)) l') →
     Q tt s') →
  wp (AddMissionToTop l m) Q s.
Proof.
  intros H Hl Hok Hnt Hf Hout HQ. unfold wp. erewrite AddMissionToTop_eq; [|apply Hok..].
  destruct (decide _) as [Hh|Hh].
  - apply HQ; [done|done|]. intros l'. destruct (decide (l' = l)) as [->|Hn].
    + rewrite fn_lookup_insert. pose proof (pl_nodup _ _ H l Hl) as Hnd.
      destruct (missions_of s l) as [|m0 rest]; [done|]. simpl in Hh. simplify_eq.
      apply NoDup_cons in Hnd as [Hm _]. unfold list_remove_all.
      rewrite filter_cons_False by (by intros Hne; destruct Hne). f_equal.
      symmetry. by apply list_remove_all_not_in.
    + by rewrite fn_lookup_insert_ne.
  - apply HQ; [apply same_frame_put_top|by eapply places_put_top|].
    intros l'. apply missions_of_put_top. destruct (places_known_list _ _ _ H Hl) as [ml ?]. by exists ml.
Qed.

(** ** The missions above one go to the default lists *)

(** The arrangement after the missions [above] have left [l] one by one. *)
Definition popped s l (above rest : list MRef) : LRef → list MRef :=
  <[l := rest]>
  (<[st_defaultSingleList s :=
      reverse (filter (λ m, IsSingletonAbility s m = true) above) ++ missions_of s (st_defaultSingleList s)]>
  (<[st_defaultStandardList s :=
      reverse (filter (λ m, IsSingletonAbility s m = false) above)
        ++ missions_of s (st_defaultStandardList s)]> (missions_of s))).

Lemma IsSingletonAbility_info s m ms r a :
  mission_ok s m ms r a → IsSingletonAbility s m = bool_decide (ai_launchMode (r_info a) = SINGLETON).
Proof.
  intros (Hm & Hr & Ha & _). unfold IsSingletonAbility, record_of. rewrite Hm. simpl. rewrite Hr. simpl.
  by rewrite Ha.
Qed.

(** One mission goes from a list that is not a default list to its default list. *)
Lemma wp_to_default xs l m s rest Q :
  places xs s → l ∈ live_lists s ++ xs → l ≠ st_launcherList s → is_default_list s l = false →
  missions_of s l = m :: rest →
  (∀ s', same_frame s s' → places xs s' →
     (∀ l', missions_of s' l' = popped s l [m] rest l') → Q tt s') →
  wp (_ ← RemoveMission l m; s1 ← gets id;
      AddMissionToTop (if IsSingletonAbility s1 m then st_defaultSingleList s1
                       else st_defaultStandardList s1) m) Q s.
Proof.
  intros H Hl Hnl Hnd Hm HQ. unfold is_default_list in Hnd. bool_to_prop.
  destruct (places_kinds _ _ H) as (K1 & K2 & K3).
  assert (m ∈ missions_of s l) as Hin by (rewrite Hm; left).
  destruct (pl_placed _ _ H l m Hl Hin) as (ms & r & a & Hok & Ho & Hrl & Hnt & Hf).
  assert (NoDup (m :: rest)) as Hdup by (rewrite <- Hm; by apply (pl_nodup _ _ H)).
  apply NoDup_cons in Hdup as [Hmr Hdup].
  apply wp_bind. apply (wp_RemoveMission xs); [done..|]. intros s1 F1 P1 M1.
  apply wp_bind, wp_gets. cbv beta delta [id].
  rewrite (same_frame_IsSingletonAbility _ _ m F1), (sf_single _ _ F1), (sf_standard _ _ F1).
  destruct (mission_ok_frame _ _ _ _ _ _ F1 Hok) as (ms1 & a1 & Hok1 & Hn1 & Hi1 & Hla1).
  assert (∀ l', l' ∈ live_lists s ++ xs → m ∉ missions_of s1 l') as Hout.
  { intros l' Hl'. rewrite M1. destruct (decide (l' = l)) as [->|Hn].
    - rewrite fn_lookup_insert, elem_of_list_remove_all. by intros [? _].
    - rewrite fn_lookup_insert_ne by done. intros Hm'. destruct Hn.
      by apply (places_unique xs s l' l m). }
  set (d := if IsSingletonAbility s m then st_defaultSingleList s else st_defaultStandardList s).
  assert (d ∈ live_lists s) as Hd by (unfold d, live_lists; destruct (IsSingletonAbility s m); set_solver).
  assert (d ≠ l) as Hdl by (unfold d; destruct (IsSingletonAbility s m); congruence).
  apply (wp_AddMissionToTop xs _ _ ms1 r a1); [done| | |by rewrite (sf_terminate _ _ F1)| | |].
  - rewrite (same_frame_live_lists _ _ F1), elem_of_app. by left.
  - done.
  - destruct Hf as (Hf1 & Hf2 & _). rewrite bool_decide_false in Hf1, Hf2 by done.
    unfold fits.
    rewrite (sf_launcher _ _ F1), (sf_single _ _ F1), (sf_standard _ _ F1), Hn1, Hi1, Hla1, Hf1, Hf2.
    unfold d. rewrite (IsSingletonAbility_info _ _ _ _ _ Hok).
    destruct (bool_decide (ai_launchMode (r_info a) = SINGLETON)) eqn:E; bool_to_prop;
      (rewrite bool_decide_false by congruence; split_and!; [done|done|congruence..]).
  - rewrite (same_frame_live_lists _ _ F1). intros l' Hl' _. by apply Hout.
  - intros s2 F2 P2 M2. apply HQ; [by etransitivity|done|]. intros l'. rewrite M2.
    rewrite list_remove_all_not_in by (apply Hout; apply elem_of_app; left; exact Hd).
    assert (list_remove_all m (missions_of s l) = rest) as Hrest.
    { rewrite Hm. unfold list_remove_all. rewrite filter_cons_False by (by intros Hne; destruct Hne).
      by apply list_remove_all_not_in. }
    rewrite Hrest in M1. unfold popped.
    assert (missions_of s1 d = missions_of s d) as -> by (rewrite M1; by apply fn_lookup_insert_ne).
    destruct (decide (l' = d)) as [->|Hn1'].
    + rewrite fn_lookup_insert, fn_lookup_insert_ne by done. unfold d.
      destruct (IsSingletonAbility s m) eqn:E.
      * rewrite fn_lookup_insert. rewrite filter_cons_True by done. done.
      * rewrite fn_lookup_insert_ne, fn_lookup_insert by done. by rewrite filter_cons_True by done.
    + rewrite fn_lookup_insert_ne by done. rewrite M1. destruct (decide (l' = l)) as [->|Hn2].
      * by rewrite !fn_lookup_insert.
      * rewrite !(fn_lookup_insert_ne _ l) by done. unfold d in Hn1'.
        destruct (decide (l' = st_defaultSingleList s)) as [->|Hn3].
        { rewrite fn_lookup_insert. destruct (IsSingletonAbility s m) eqn:E; [done|].
          by rewrite filter_cons_False by congruence. }
        rewrite fn_lookup_insert_ne by done.
        destruct (decide (l' = st_defaultStandardList s)) as [->|Hn4].
        { rewrite fn_lookup_insert. destruct (IsSingletonAbility s m) eqn:E; [|done].
          by rewrite filter_cons_False by congruence. }
        by rewrite fn_lookup_insert_ne.
Qed.

Lemma popped_cons s s2 l x above rest l' :
  l ≠ st_defaultSingleList s → l ≠ st_defaultStandardList s →
  st_defaultStandardList s ≠ st_defaultSingleList s → same_frame s s2 →
  (∀ l', missions_of s2 l' = popped s l [x] rest l') →
  ∀ rest', popped s2 l above rest' l' = popped s l (x :: above) rest' l'.
Proof.
  intros H1 H2 H3 F M rest'. unfold popped. rewrite (sf_single _ _ F), (sf_standard _ _ F).
  assert (∀ b, filter (λ m, IsSingletonAbility s2 m = b) above
             = filter (λ m, IsSingletonAbility s m = b) above) as Hfl.
  { intros b. apply list_filter_iff. intros m. by rewrite (same_frame_IsSingletonAbility _ _ m F). }
  rewrite !Hfl, !M. unfold popped.
  destruct (decide (l' = l)) as [->|N1]; [by rewrite !fn_lookup_insert|].
  rewrite !(fn_lookup_insert_ne _ l l') by done.
  destruct (decide (l' = st_defaultSingleList s)) as [->|N2].
  { rewrite fn_lookup_insert, (fn_lookup_insert_ne _ l), !fn_lookup_insert by done.
    rewrite !filter_cons. destruct (decide _); [|done]. by rewrite !reverse_cons, <- !(assoc_L (++)). }
  rewrite !(fn_lookup_insert_ne _ (st_defaultSingleList s) l') by done.
  destruct (decide (l' = st_defaultStandardList s)) as [->|N3].
  { rewrite fn_lookup_insert, (fn_lookup_insert_ne _ l), (fn_lookup_insert_ne _ (st_defaultSingleList s)),
      !fn_lookup_insert by done.
    rewrite !filter_cons. destruct (decide _); [|done]. by rewrite !reverse_cons, <- !(assoc_L (++)). }
  rewrite !(fn_lookup_insert_ne _ (st_defaultStandardList s) l') by done.
  rewrite M. unfold popped. by rewrite !fn_lookup_insert_ne.
Qed.

(** The loop leaves [m] on top, after as many rounds as missions were above. *)
Lemma wp_pop_above xs l m below above fuel s :
  places xs s → l ∈ live_lists s ++ xs → l ≠ st_launcherList s → is_default_list s l = false →
  missions_of s l = above ++ m :: below → (length above < fuel)%nat →
  wp (pop_above fuel l m) (λ _ s', same_frame s s' ∧ places xs s' ∧
    ∀ l', missions_of s' l' = popped s l above (m :: below) l') s.
Proof.
  revert fuel s. induction above as [|x above IH]; intros fuel s H Hl Hnl Hnd Hm Hfuel;
    (destruct fuel as [|fuel]; [simpl in Hfuel; lia|]); cbn [pop_above];
    apply wp_bind, wp_gets; cbv beta delta [id]; unfold GetTopMission; rewrite Hm; cbn [head app].
  - rewrite decide_True by done. split_and!; [done|done|]. intros l'. unfold popped.
    cbn [filter list_filter reverse rev_append app].
    unfold is_default_list in Hnd. bool_to_prop.
    destruct (decide (l' = l)) as [->|N1]; [by rewrite fn_lookup_insert|].
    rewrite fn_lookup_insert_ne by done.
    destruct (decide (l' = st_defaultSingleList s)) as [->|N2]; [by rewrite fn_lookup_insert|].
    rewrite fn_lookup_insert_ne by done.
    destruct (decide (l' = st_defaultStandardList s)) as [->|N3]; [by rewrite fn_lookup_insert|].
    by rewrite fn_lookup_insert_ne.
  - pose proof (pl_nodup _ _ H l Hl) as Hdup. rewrite Hm in Hdup. cbn [app] in Hdup.
    apply NoDup_cons in Hdup as [Hx _]. rewrite decide_False by set_solver.
    pose proof (places_kinds _ _ H) as (K1 & K2 & K3).
    pose proof Hnd as Hnd'. unfold is_default_list in Hnd'. bool_to_prop.
    pose proof (wp_to_default xs l x s (above ++ m :: below) (λ _ s', same_frame s s' ∧ places xs s' ∧
      ∀ l', missions_of s' l' = popped s l [x] (above ++ m :: below) l') H Hl Hnl Hnd Hm
      (λ s' F P M, conj F (conj P M))) as Hstep.
    unfold wp, mbind, ST_bind in Hstep |- *.
    destruct (RemoveMission l x s) as [[[] s1]| |]; [|done..]. unfold gets in *. cbv beta iota delta [id] in *.
    destruct (AddMissionToTop _ x s1) as [[[] s2]| |]; [|done..]. destruct Hstep as (F & P & M).
    eapply wp_mono; [apply (IH fuel s2)|].
    + done.
    + by rewrite (same_frame_live_lists _ _ F).
    + by rewrite (sf_launcher _ _ F).
    + unfold is_default_list. rewrite (sf_single _ _ F), (sf_standard _ _ F).
      by rewrite !bool_decide_false.
    + rewrite M. unfold popped. by rewrite fn_lookup_insert.
    + simpl in Hfuel. lia.
    + intros [] s3 (F3 & P3 & M3). split_and!; [by etransitivity|done|].
      intros l'. rewrite M3. by eapply popped_cons.
Qed.

(** ** Changes of the current lists *)

Lemma places_relist xs xs' ls s :
  places xs s → NoDup ls → (∀ l, l ∈ ls ++ xs' → l = st_launcherList s ∨ l ∈ st_currentMissionLists s ++ xs) →
  places xs' (s <| st_currentMissionLists := ls |>).
Proof.
  intros H Hnd Hsub.
  assert (∀ l, l ∈ live_lists (s <| st_currentMissionLists := ls |>) ++ xs' → l ∈ live_lists s ++ xs) as Hlive.
  { intros l. unfold live_lists. store_cbn. rewrite <- !app_comm_cons, !elem_of_cons.
    intros [->|[->|[->|Hl]]]; [tauto..|]. destruct (Hsub l Hl); tauto. }
  constructor; try apply H; try done.
  - intros l m Hl Hm. destruct (pl_placed _ _ H l m (Hlive l Hl) Hm) as (ms & r & a & ?). by exists ms, r, a.
  - intros l Hl. apply (pl_nodup _ _ H l), Hlive, Hl.
  - intros l Hl. destruct (Hsub l Hl) as [?|Hl']; [by left|]. by apply (pl_current _ _ H).
Qed.

Lemma places_forget xs s : places xs s → places [] s.
Proof.
  intros H. apply (places_relist xs [] (st_currentMissionLists s)) in H.
  - by destruct s.
  - apply H.
  - intros l. rewrite app_nil_r, elem_of_app. tauto.
Qed.

(** ** The moves *)

(** Removed from its list and everything above it sent to the default lists. *)
Lemma wp_MoveNoneTop xs l m s :
  places xs s → l ∈ live_lists s → l ≠ st_launcherList s → is_default_list s l = false →
  m ∈ missions_of s l →
  wp (MoveNoneTopMissionToDefaultList m) (λ _ s', same_frame s s' ∧ places xs s' ∧
    ∀ l', missions_of s' l' = popped s l (before m (missions_of s l)) (m :: after m (missions_of s l)) l') s.
Proof.
  intros H Hl Hnl Hnd Hm. unfold MoveNoneTopMissionToDefaultList. apply wp_bind, wp_gets.
  cbv beta delta [id]. rewrite (places_GetMissionList _ _ _ _ H Hl Hm).
  apply wp_pop_above; [done|rewrite elem_of_app; by left|done|done|by apply before_after|].
  rewrite (before_after m (missions_of s l)) at 2 by done. rewrite length_app. simpl. lia.
Qed.

(** The arrangement of the lists after [MoveMissionToTargetList]: what the
    operation is to do, without the order in which it does it. *)
Definition moved (isCallFromLauncher : bool) target m s : LRef → list MRef :=
  match GetMissionList s m with
  | None => <[target := m :: missions_of s target]> (missions_of s)
  | Some l =>
      let above := before m (missions_of s l) in
      let below := after m (missions_of s l) in
      if decide (target = l) then
        if isCallFromLauncher && negb (bool_decide (l = st_launcherList s))
        then popped s l above (m :: below)
        else <[l := m :: list_remove_all m (missions_of s l)]> (missions_of s)
      else if is_default_list s l then
        <[target := m :: missions_of s target]>
          (<[l := list_remove_all m (missions_of s l)]> (missions_of s))
      else <[target := m :: missions_of s target]> (popped s l above below)
  end.

(** The list a mission leaves goes when nothing is left in it. *)
Definition moved_current target m s : list LRef :=
  match GetMissionList s m with
  | Some l =>
      if bool_decide (target = l) || is_default_list s l
         || negb (bool_decide (after m (missions_of s l) = []))
      then st_currentMissionLists s else list_remove_all l (st_currentMissionLists s)
  | None => st_currentMissionLists s
  end.

(** Where a mission may be when it is moved. *)
Definition movable xs s m : Prop :=
  (∃ l, l ∈ live_lists s ∧ m ∈ missions_of s l) ∨
  (GetMissionList s m = None ∧ ∀ l, l ∈ live_lists s ++ xs → m ∉ missions_of s l).

Lemma removed_out xs s s' l m :
  places xs s → l ∈ live_lists s ++ xs → m ∈ missions_of s l →
  (∀ l', missions_of s' l' = (<[l := list_remove_all m (missions_of s l)]> (missions_of s)) l') →
  ∀ l', l' ∈ live_lists s ++ xs → m ∉ missions_of s' l'.
Proof.
  intros H Hl Hm M l' Hl'. rewrite M. destruct (decide (l' = l)) as [->|Hn].
  - rewrite fn_lookup_insert, elem_of_list_remove_all. by intros [? _].
  - rewrite fn_lookup_insert_ne by done. intros Hm'. destruct Hn. by apply (places_unique xs s l' l m).
Qed.

(** Put on top from nowhere. *)
Lemma wp_add_new xs target m ms r a s :
  places xs s → target ∈ live_lists s ++ xs → mission_ok s m ms r a →
  (r ∉ st_terminateAbilityList s) → fits s target ms a →
  (∀ l, l ∈ live_lists s ++ xs → m ∉ missions_of s l) →
  wp (AddMissionToTop target m) (λ _ s', same_frame s s' ∧ places xs s' ∧
    ∀ l', missions_of s' l' = (<[target := m :: missions_of s target]> (missions_of s)) l') s.
Proof.
  intros H Ht Hok Hnt Hf Hout. eapply wp_AddMissionToTop; try done.
  { intros l' Hl' _. by apply Hout. }
  intros s' F P M. split_and!; [done..|]. intros l'. rewrite M.
  by rewrite list_remove_all_not_in by by apply Hout.
Qed.

(** Taken out of its list and put on top of another. *)
Lemma wp_transfer xs l target m ms r a s :
  places xs s → l ∈ live_lists s → target ∈ live_lists s ++ xs → target ≠ l → m ∈ missions_of s l →
  mission_ok s m ms r a → (r ∉ st_terminateAbilityList s) → fits s target ms a →
  wp (_ ← RemoveMission l m; AddMissionToTop target m) (λ _ s', same_frame s s' ∧ places xs s' ∧
    ∀ l', missions_of s' l' = (<[target := m :: missions_of s target]>
      (<[l := list_remove_all m (missions_of s l)]> (missions_of s))) l') s.
Proof.
  intros H Hl Ht Hne Hm Hok Hnt Hf.
  assert (l ∈ live_lists s ++ xs) as Hl' by (rewrite elem_of_app; by left).
  apply wp_bind. apply (wp_RemoveMission xs); [done..|]. intros s1 F1 P1 M1.
  destruct (fits_frame _ _ _ _ _ _ _ F1 Hok Hf) as (ms1 & a1 & Hok1 & Hf1).
  pose proof (removed_out _ _ _ _ _ H Hl' Hm M1) as Hout.
  eapply wp_mono; [apply (wp_add_new xs target m ms1 r a1)|].
  - done.
  - by rewrite (same_frame_live_lists _ _ F1).
  - done.
  - by rewrite (sf_terminate _ _ F1).
  - done.
  - by rewrite (same_frame_live_lists _ _ F1).
  - intros [] s2 (F2 & P2 & M2). split_and!; [by etransitivity|done|]. intros l'. rewrite M2.
    assert (missions_of s1 target = missions_of s target) as -> by (rewrite M1; by apply fn_lookup_insert_ne).
    destruct (decide (l' = target)) as [->|Hn]; [by rewrite !fn_lookup_insert|].
    by rewrite !(fn_lookup_insert_ne _ target) by done.
Qed.

Lemma list_remove_all_top m (ms : list MRef) : NoDup (m :: ms) → list_remove_all m (m :: ms) = ms.
Proof.
  intros [Hm _]%NoDup_cons. unfold list_remove_all. rewrite filter_cons_False by (by intros Hn; destruct Hn).
  by apply list_remove_all_not_in.
Qed.

(** Everything above it sent to the default lists, then itself moved. *)
Lemma wp_transfer_current xs l target m ms r a s :
  places xs s → l ∈ live_lists s → l ≠ st_launcherList s → is_default_list s l = false →
  target ∈ live_lists s ++ xs → is_default_list s target = false → target ≠ l → m ∈ missions_of s l →
  mission_ok s m ms r a → (r ∉ st_terminateAbilityList s) → fits s target ms a →
  wp (_ ← (_ ← MoveNoneTopMissionToDefaultList m; RemoveMission l m); AddMissionToTop target m)
    (λ _ s', same_frame s s' ∧ places xs s' ∧
    ∀ l', missions_of s' l' = (<[target := m :: missions_of s target]>
      (popped s l (before m (missions_of s l)) (after m (missions_of s l)))) l') s.
Proof.
  intros H Hl Hnl Hnd Ht Htd Hne Hm Hok Hnt Hf.
  pose proof Hnd as Hnd'. pose proof Htd as Htd'. unfold is_default_list in Hnd', Htd'. bool_to_prop.
  pose proof (wp_MoveNoneTop xs l m s H Hl Hnl Hnd Hm) as Hw1. unfold wp, mbind, ST_bind in Hw1 |- *.
  destruct (MoveNoneTopMissionToDefaultList m s) as [[[] s1]| |]; [|done..]. destruct Hw1 as (F1 & P1 & M1).
  assert (missions_of s1 l = m :: after m (missions_of s l)) as Hl1
    by (rewrite M1; unfold popped; by rewrite fn_lookup_insert).
  assert (missions_of s1 target = missions_of s target) as Ht1
    by (rewrite M1; unfold popped; by rewrite !fn_lookup_insert_ne).
  destruct (fits_frame _ _ _ _ _ _ _ F1 Hok Hf) as (ms1 & a1 & Hok1 & Hf1).
  pose proof (same_frame_live_lists _ _ F1) as HL1.
  assert (wp (_ ← RemoveMission l m; AddMissionToTop target m) (λ _ s', same_frame s1 s' ∧ places xs s' ∧
    ∀ l', missions_of s' l' = (<[target := m :: missions_of s1 target]>
      (<[l := list_remove_all m (missions_of s1 l)]> (missions_of s1))) l') s1) as Hw2.
  { apply (wp_transfer xs l target m ms1 r a1); rewrite ?HL1, ?(sf_terminate _ _ F1); try done.
    rewrite Hl1. left. }
  unfold wp, mbind, ST_bind in Hw2. destruct (RemoveMission l m s1) as [[[] s2]| |]; [|done..].
  destruct (AddMissionToTop target m s2) as [[[] s3]| |]; [|done..]. destruct Hw2 as (F3 & P3 & M3).
  split_and!; [by etransitivity|done|]. intros l'. rewrite M3, Ht1, Hl1.
  rewrite list_remove_all_top by (rewrite <- Hl1; apply (pl_nodup _ _ P1); rewrite HL1, elem_of_app; by left).
  destruct (decide (l' = target)) as [->|Nt]; [by rewrite !fn_lookup_insert|].
  rewrite !(fn_lookup_insert_ne _ target) by done. unfold popped.
  destruct (decide (l' = l)) as [->|N1]; [by rewrite !fn_lookup_insert|].
  rewrite !(fn_lookup_insert_ne _ l) by done. rewrite M1. unfold popped.
  by rewrite (fn_lookup_insert_ne _ l) by done.
Qed.

(** Lists a mission may be moved to. *)
Definition target_list xs s target : Prop :=
  target = st_launcherList s ∨ target ∈ st_currentMissionLists s ++ xs.

Lemma target_list_live xs s target : target_list xs s target → target ∈ live_lists s ++ xs.
Proof. unfold target_list, live_lists. rewrite <- !app_comm_cons, !elem_of_cons. tauto. Qed.

Lemma target_list_default xs s target :
  places xs s → target_list xs s target → is_default_list s target = false.
Proof.
  intros H [->|Ht]; [|by eapply places_current_default].
  destruct (places_kinds _ _ H) as (K1 & K2 & K3).
  unfold is_default_list. by rewrite !bool_decide_false by congruence.
Qed.

Lemma IsEmpty_nil s l : IsEmpty s l = bool_decide (missions_of s l = []).
Proof. done. Qed.

Lemma MoveMissionToTargetList_moves xs b target m ms r a s :
  places xs s → target_list xs s target → mission_ok s m ms r a →
  (r ∉ st_terminateAbilityList s) → fits s target ms a → movable xs s m →
  wp (MoveMissionToTargetList b target m) (λ _ s', relisted s s' ∧ places xs s' ∧
    (∀ l', missions_of s' l' = moved b target m s l') ∧
    st_currentMissionLists s' = moved_current target m s) s.
Proof.
  intros H Ht Hok Hnt Hf Hm. pose proof (target_list_live _ _ _ Ht) as Htl.
  pose proof (target_list_default _ _ _ H Ht) as Htd.
  unfold MoveMissionToTargetList. apply wp_bind, wp_gets. cbv beta delta [id].
  unfold moved, moved_current. destruct Hm as [(l & Hl & Hm)|[Hno Hout]].
  2: { rewrite Hno. eapply wp_mono; [by eapply wp_add_new|]. intros [] s' (F & P & M).
       split_and!; [by apply same_frame_relisted|done|done|apply F]. }
  rewrite (places_GetMissionList _ _ _ _ H Hl Hm). cbv zeta.
  assert (l ∈ live_lists s ++ xs) as Hl' by (rewrite elem_of_app; by left).
  destruct (pl_placed _ _ H l m Hl' Hm) as (ms0 & r0 & a0 & (Hms0 & Hr0 & Ha0 & _) & _ & _ & _ & Hf0).
  assert (ms0 = ms) as -> by (destruct Hok; congruence).
  assert (bool_decide (l = st_launcherList s) = bool_decide (target = st_launcherList s)) as Hlt
    by (destruct Hf as [<- _], Hf0 as [<- _]; done).
  assert (target = l → wp (AddMissionToTop target m) (λ _ s', same_frame s s' ∧ places xs s' ∧
    ∀ l', missions_of s' l' = (<[l := m :: list_remove_all m (missions_of s l)]> (missions_of s)) l') s)
    as Hstay.
  { intros ->. eapply wp_AddMissionToTop; try done.
    intros l' Hl1 Hn Hm'. destruct Hn. by apply (places_unique xs s l' l m). }
  destruct (b && bool_decide (target = st_launcherList s)) eqn:Hb.
  { apply andb_true_iff in Hb as [-> Hb]. rewrite Hb in Hlt. bool_to_prop.
    rewrite decide_True by congruence. rewrite (bool_decide_true (l = _)) by done.
    rewrite (bool_decide_true (target = l)) by congruence. cbn [andb orb negb].
    eapply wp_mono; [apply Hstay; congruence|]. intros [] s' (F & P & M).
    split_and!; [by apply same_frame_relisted|done|done|apply F]. }
  destruct (is_default_list s l) eqn:Hd.
  { assert (target ≠ l) as Hne by (intros ->; congruence).
    rewrite decide_False by done. rewrite orb_true_r. cbn [orb].
    eapply wp_mono; [by eapply wp_transfer|]. intros [] s' (F & P & M).
    split_and!; [by apply same_frame_relisted|done|done|apply F]. }
  rewrite orb_false_r. destruct (decide (target = l)) as [->|Hne].
  - rewrite (bool_decide_true (l = l)) by done. cbn [negb orb].
    assert (st_launcherList s = l → b = false) as Hbl.
    { intros E. destruct b; [|done]. cbn [andb] in Hb. bool_to_prop. congruence. }
    apply wp_bind. destruct b.
    + assert (l ≠ st_launcherList s) as Hnl by (intros E; by discriminate Hbl).
      rewrite (bool_decide_false (l = _)) by done. cbn [andb negb].
      eapply wp_mono; [by apply (wp_MoveNoneTop xs l)|]. intros [] s1 (F1 & P1 & M1).
      assert (missions_of s1 l = m :: after m (missions_of s l)) as Hl1
        by (rewrite M1; unfold popped; by rewrite fn_lookup_insert).
      destruct (mission_ok_frame _ _ _ _ _ _ F1 Hok) as (ms1 & a1 & (Hms1 & Hr1 & _) & _).
      apply wp_bind. unfold wp. rewrite (AddMissionToTop_eq l m ms1 r s1 Hms1 Hr1).
      rewrite decide_True by (by rewrite Hl1). apply wp_bind, wp_gets. cbv beta delta [id].
      rewrite IsEmpty_nil, bool_decide_false by (by rewrite Hl1).
      split_and!; [by apply same_frame_relisted|done|done|apply F1].
    + cbn [andb]. apply wp_ret, wp_bind. eapply wp_mono; [by apply Hstay|]. intros [] s1 (F1 & P1 & M1).
      apply wp_bind, wp_gets. cbv beta delta [id].
      rewrite IsEmpty_nil, bool_decide_false by (by rewrite M1, fn_lookup_insert).
      split_and!; [by apply same_frame_relisted|done|done|apply F1].
  - assert (l ≠ st_launcherList s) as Hnl.
    { intros E. rewrite bool_decide_true in Hlt by done. symmetry in Hlt. bool_to_prop. congruence. }
    rewrite (bool_decide_false (target = l)) by done. cbn [negb orb].
    assert (wp (_ ← (_ ← MoveNoneTopMissionToDefaultList m; RemoveMission l m); AddMissionToTop target m)
      (λ _ s', same_frame s s' ∧ places xs s' ∧ ∀ l', missions_of s' l' = (<[target := m :: missions_of s target]>
      (popped s l (before m (missions_of s l)) (after m (missions_of s l)))) l') s) as Hw
      by (by eapply wp_transfer_current).
    apply wp_bind. unfold wp in Hw |- *. unfold mbind at 1, ST_bind at 1 in Hw.
    destruct ((MoveNoneTopMissionToDefaultList m ≫= _) s) as [[[] s1]| |]; [|done..].
    apply wp_bind. unfold wp. destruct (AddMissionToTop target m s1) as [[[] s2]| |]; [|done..].
    destruct Hw as (F2 & P2 & M2). apply wp_bind, wp_gets. cbv beta delta [id].
    assert (missions_of s2 l = after m (missions_of s l)) as Hl2.
    { rewrite M2, fn_lookup_insert_ne by done. unfold popped. by rewrite fn_lookup_insert. }
    rewrite IsEmpty_nil, Hl2. destruct (bool_decide (after m (missions_of s l) = [])) eqn:He; cbn [negb].
    + apply wp_modify. split_and!.
      * etransitivity; [by apply same_frame_relisted|].
        apply (relisted_relist s2 (list_remove_all l (st_currentMissionLists s2))).
      * apply (places_relist xs xs (list_remove_all l (st_currentMissionLists s2)));
          [done|apply NoDup_list_remove_all, P2|].
        intros l'. rewrite (sf_launcher _ _ F2), (sf_current _ _ F2), !elem_of_app, elem_of_list_remove_all. tauto.
      * done.
      * store_cbn. by rewrite (sf_current _ _ F2).
    + apply wp_ret. split_and!; [by apply same_frame_relisted|done|done|apply F2].
Qed.

End places.
