(* ===== verification/MissionTargets.v ===== *)
(** Finding missions and records, and choosing the list a start goes to: what
    the lookups of [MissionMoves] answer on tidy lists, the creation of lists,
    records and missions, the three target list functions, and the move of a
    mission to the front of the front list. *)

From stdpp Require Import functions.
From S2P Require Import Prelude CppString Want CallContainer AbilityRecord.
From S2P Require Import StoreShape MissionList MissionMoves MissionPlaces.
From Stdlib Require Import Ascii.

#[local] Open Scope stdpp_scope.
#[local] Open Scope Z_scope.

Implicit Types (s : Store) (l : LRef) (m : MRef) (r : RRef).

(** * States that grow *)

(** Lists alone, records and missions may be added, and a record may get its
    mission. *)
Record extends s s' : Prop := {
  ex_lists : st_lists s' = st_lists s;
  ex_launcher : st_launcherList s' = st_launcherList s;
  ex_standard : st_defaultStandardList s' = st_defaultStandardList s;
  ex_single : st_defaultSingleList s' = st_defaultSingleList s;
  ex_current : st_currentMissionLists s' = st_currentMissionLists s;
  ex_terminate : st_terminateAbilityList s' = st_terminateAbilityList s;
  ex_held : st_heldRecords s' = st_heldRecords s;
  ex_missions m ms : st_missions s !! m = Some ms →
    ∃ ms', st_missions s' !! m = Some ms' ∧ mission_shape ms' = mission_shape ms;
  ex_records r a : st_records s !! r = Some a →
    ∃ a', st_records s' !! r = Some a' ∧ r_missionList a' = r_missionList a ∧ r_info a' = r_info a ∧
      r_isLauncherAbility a' = r_isLauncherAbility a ∧
      (is_Some (r_mission a) → r_mission a' = r_mission a) ∧
      (r_isTerminating a = true → r_isTerminating a' = true);
}.

#[export] Instance extends_preorder : PreOrder extends.
Proof.
  split.
  - intros s. constructor; try done; [by eauto|]. intros r a Ha. exists a. by split_and!.
  - intros s1 s2 s3 [] []. constructor; try congruence.
    + intros m ms Hm. destruct (ex_missions0 _ _ Hm) as (ms2 & Hm2 & <-). by apply ex_missions1.
    + intros r a Ha. destruct (ex_records0 _ _ Ha) as (a2 & Ha2 & E1 & E2 & E3 & E4 & E5).
      destruct (ex_records1 _ _ Ha2) as (a3 & Ha3 & E6 & E7 & E8 & E9 & E10).
      exists a3. split_and!; try congruence; [|by auto].
      intros Hs. rewrite E9; [by apply E4|by rewrite E4].
Qed.

Lemma same_shape_extends s s' : same_shape s s' → extends s s'.
Proof.
  intros H. pose proof H as [H1 H2 H3 H4 H5 H6 H7 H8 H9 H10 H11]. constructor; try done.
  - intros m ms Hm. by apply (lookup_shape _ _ _ _ _ H9).
  - intros r a Ha. destruct (lookup_shape _ _ _ _ _ H10 Ha) as (a' & Ha' & He).
    injection He as E1 E2 E3 E4. exists a'. split_and!; try done.
    intros Ht. destruct (H11 r a Ha Ht) as (a2 & Ha2 & Ht2). congruence.
Qed.

Lemma known_record_extends s s' r : extends s s' → known_record s r → known_record s' r.
Proof. intros H [a Ha]. destruct (ex_records _ _ H r a Ha) as (a' & ? & _). by exists a'. Qed.

Lemma known_mission_extends s s' m : extends s s' → known_mission s m → known_mission s' m.
Proof. intros H [ms Hm]. destruct (ex_missions _ _ H m ms Hm) as (ms' & ? & _). by exists ms'. Qed.

Lemma mission_ok_extends s s' m ms r a :
  extends s s' → mission_ok s m ms r a →
  ∃ ms' a', mission_ok s' m ms' r a' ∧ mission_shape ms' = mission_shape ms ∧ r_info a' = r_info a ∧
    r_isLauncherAbility a' = r_isLauncherAbility a.
Proof.
  intros H (Hm & Hr & Ha & Ham).
  destruct (ex_missions _ _ H m ms Hm) as (ms' & Hm' & He).
  destruct (ex_records _ _ H r a Ha) as (a' & Ha' & _ & Hi & Hla & Hrm & _).
  exists ms', a'. split_and!; try done. unfold mission_ok. split_and!; try done.
  - injection He as E1 _ _. congruence.
  - rewrite Hrm by (by rewrite Ham; eexists). done.
Qed.

Lemma extends_missions_of s s' l : extends s s' → missions_of s' l = missions_of s l.
Proof. intros H. unfold missions_of. by rewrite (ex_lists _ _ H). Qed.

Lemma extends_live_lists s s' : extends s s' → live_lists s' = live_lists s.
Proof.
  intros H. unfold live_lists.
  by rewrite (ex_launcher _ _ H), (ex_standard _ _ H), (ex_single _ _ H), (ex_current _ _ H).
Qed.

Lemma extends_GetMissionList s s' m :
  extends s s' → known_mission s m → GetMissionList s' m = GetMissionList s m.
Proof.
  intros H [ms Hm]. destruct (ex_missions _ _ H m ms Hm) as (ms' & Hm' & He). injection He as _ _ E.
  unfold GetMissionList, lock_list. rewrite Hm, Hm'. simpl. by rewrite E, (extends_live_lists _ _ H).
Qed.

Lemma extends_movable xs s s' m :
  extends s s' → known_mission s m → movable xs s m → movable xs s' m.
Proof.
  intros H Hk. unfold movable. rewrite (extends_live_lists _ _ H), (extends_GetMissionList _ _ _ H Hk).
  intros [(l & Hl & Hm)|[Hn Hout]].
  - left. exists l. by rewrite (extends_missions_of _ _ _ H).
  - right. split; [done|]. intros l. rewrite (extends_missions_of _ _ _ H). apply Hout.
Qed.

Lemma extends_no_empty s s' : extends s s' → no_empty s → no_empty s'.
Proof.
  intros H Hn l. rewrite (ex_current _ _ H), (ex_launcher _ _ H), (extends_missions_of _ _ _ H). apply Hn.
Qed.

Lemma extends_target_list xs s s' l : extends s s' → target_list xs s l → target_list xs s' l.
Proof. intros H. unfold target_list. by rewrite (ex_current _ _ H), (ex_launcher _ _ H). Qed.

(** * Lookups *)

Lemma first_some_Some {A B} (f : A → option B) (l : list A) y :
  first_some f l = Some y → ∃ x, x ∈ l ∧ f x = Some y.
Proof.
  induction l as [|x l IH]; simpl; [done|]. destruct (f x) eqn:E.
  - intros; simplify_eq. exists x. split; [left|done].
  - intros (z & ? & ?)%IH. exists z. split; [by right|done].
Qed.

Lemma current_then_live s more l :
  (∀ l, l ∈ more → l ∈ live_lists s) → l ∈ current_then s more → l ∈ live_lists s.
Proof.
  intros Hm. unfold current_then. rewrite elem_of_app. intros [Hl|Hl]; [|by apply Hm].
  unfold live_lists. by do 3 right.
Qed.

Ltac solve_live := intros ? ?; unfold live_lists in *; set_solver.

Section lookups.
Context (launcher_name : string → bool).
#[local] Abbreviation places := (places launcher_name).
#[local] Abbreviation tidy := (tidy launcher_name).
#[local] Abbreviation placed := (placed launcher_name).
#[local] Abbreviation fits := (fits launcher_name).

Lemma places_record_of xs s l m :
  places xs s → l ∈ live_lists s → m ∈ missions_of s l →
  ∃ r, record_of s m = Some r ∧ known_record s r.
Proof.
  intros H Hl Hm. destruct (pl_placed _ _ _ H l m) as (ms & r & a & (Hms & Hr & Ha & _) & _);
    [rewrite elem_of_app; by left|done|].
  exists r. split; [unfold record_of; by rewrite Hms|by exists a].
Qed.

Lemma GetCurrentTopAbility_known xs s r :
  places xs s → GetCurrentTopAbility s = Some r → known_record s r.
Proof.
  intros H. unfold GetCurrentTopAbility, GetTopAbility, GetTopMission.
  destruct (st_currentMissionLists s) as [|l ls] eqn:Hc; [done|]. simpl.
  destruct (missions_of s l) as [|m ms] eqn:Hm; [done|]. simpl. intros Hr.
  destruct (places_record_of xs s l m) as (r' & Hr' & ?); [done| |by rewrite Hm; left|congruence].
  unfold live_lists. rewrite Hc. do 3 right. left.
Qed.

Lemma ListGetAbilityRecordByToken_known xs s l t r :
  places xs s → l ∈ live_lists s → ListGetAbilityRecordByToken t s l = Some r →
  known_record s r ∧ ∃ m, m ∈ missions_of s l ∧ record_of s m = Some r ∧ r = t.
Proof.
  intros H Hl. unfold ListGetAbilityRecordByToken.
  destruct (List.find _ _) as [m|] eqn:Hf; [|done]. simpl. intros Hr.
  apply find_Some_elem in Hf as [Hm Ht]. bool_to_prop.
  destruct (places_record_of xs s l m H Hl Hm) as (r' & Hr' & ?).
  split; [congruence|]. exists m. split_and!; [done..|congruence].
Qed.

Lemma GetAbilityRecordByToken_known xs s t r :
  places xs s → GetAbilityRecordByToken s t = Some r → known_record s r.
Proof.
  intros H. unfold GetAbilityRecordByToken. destruct t as [t|]; [|done]. simpl. case_decide as Ht.
  - intros; simplify_eq. destruct (pl_terminating _ _ _ H r Ht) as (a & Ha & _). by exists a.
  - intros (l & Hl & Hr)%first_some_Some. eapply ListGetAbilityRecordByToken_known; [done| |done].
    eapply current_then_live; [|done]. solve_live.
Qed.

Lemma GetMissionById_placed s id m :
  GetMissionById s id = Some m → ∃ l, l ∈ live_lists s ∧ m ∈ missions_of s l.
Proof.
  intros (l & Hl & Hf)%first_some_Some. exists l. split.
  - eapply current_then_live; [|done]. solve_live.
  - unfold ListGetMissionById in Hf. by apply find_Some_elem in Hf as [? _].
Qed.

Lemma find_specified_elem s w flag ms m : find_specified s w flag ms = Some m → m ∈ ms.
Proof.
  induction ms as [|x ms IH]; simpl; [done|]. destruct (mission_record s x); [|done].
  case_match; intros; simplify_eq; [left|right; by apply IH].
Qed.

Lemma GetMissionBySpecifiedFlag_placed s w flag m :
  GetMissionBySpecifiedFlag s w flag = Some m → ∃ l, l ∈ live_lists s ∧ m ∈ missions_of s l.
Proof.
  intros (l & Hl & Hf)%first_some_Some. exists l. split.
  - eapply current_then_live; [|done]. solve_live.
  - by eapply find_specified_elem.
Qed.

Lemma ListGetLauncherRoot_placed s l r :
  ListGetLauncherRoot s l = Some r →
  ∃ m a, m ∈ missions_of s l ∧ record_of s m = Some r ∧ st_records s !! r = Some a ∧ r_isLauncherRoot a = true.
Proof.
  unfold ListGetLauncherRoot. destruct (List.find _ _) as [m|] eqn:Hf; [|done]. simpl. intros Hr.
  apply find_Some_elem in Hf as [Hm Ht]. unfold mission_record in Ht. rewrite Hr in Ht. simpl in Ht.
  destruct (st_records s !! r) as [a|] eqn:Ha; [|done]. by exists m, a.
Qed.

(** The mission name of a request. *)
Definition request_name (q : AbilityRequest) : string :=
  if bool_decide (ai_launchMode (rq_info q) = SINGLETON)
  then ConvertBundleNameSingleton (ai_bundleName (rq_info q)) (ai_name (rq_info q)) (ai_moduleName (rq_info q))
  else ai_bundleName (rq_info q).

Lemma GetReusedMission_placed s q m :
  GetReusedMission s q = Some m →
  ai_launchMode (rq_info q) = SINGLETON ∧ IsSingletonAbility s m = true ∧
  (∃ ms, st_missions s !! m = Some ms ∧ m_missionName ms = request_name q) ∧
  ∃ l, l ∈ live_lists s ∧ m ∈ missions_of s l.
Proof.
  unfold GetReusedMission, request_name. destruct (decide _) as [Hs|]; [|done].
  rewrite bool_decide_true by done.
  intros (l & Hl & Hf)%first_some_Some. unfold GetSingletonMissionByName in Hf.
  destruct (decide _); [done|]. apply find_Some_elem in Hf as [Hm Ht]. bool_to_prop.
  destruct (st_missions s !! m) as [ms|] eqn:Hms; [|done]. bool_to_prop.
  split_and!; [done|done|by exists ms|]. exists l. split; [|done].
  apply elem_of_app in Hl as [Hl|Hl].
  - destruct (ai_isLauncherApp _); [|by apply not_elem_of_nil in Hl].
    apply list_elem_of_singleton in Hl as ->. unfold live_lists. left.
  - eapply current_then_live; [|done]. solve_live.
Qed.

(** Searches over the records of a list. *)
Lemma wp_find_m_record xs s l f ms :
  places xs s → l ∈ live_lists s → (∀ m, m ∈ ms → m ∈ missions_of s l) →
  wp (find_m (test_record f) ms) (λ o s', s' = s ∧ ∀ m, o = Some m → m ∈ ms ∧
    ∃ r a, record_of s m = Some r ∧ st_records s !! r = Some a ∧ f s r a = true) s.
Proof.
  intros H Hl. induction ms as [|m ms IH]; intros Hms; cbn [find_m]; [by apply wp_ret|].
  destruct (places_record_of xs s l m H Hl) as (r & Hr & [a Ha]); [apply Hms; left|].
  apply wp_bind. unfold test_record at 1. apply wp_bind, wp_gets, wp_bind.
  eapply wp_deref; [done|]. apply wp_bind. unfold the_record. apply wp_bind, wp_gets.
  eapply wp_deref; [done|]. apply wp_ret. cbv beta delta [id]. destruct (f s r a) eqn:E.
  - apply wp_ret. split; [done|]. intros; simplify_eq. split; [left|]. by exists r, a.
  - eapply wp_mono; [apply IH; intros; apply Hms; by right|]. intros o s' (-> & Ho). split; [done|].
    intros m' Hm'. destruct (Ho m' Hm') as [? ?]. split; [by right|done].
Qed.

Lemma wp_find_record xs s l f :
  places xs s → l ∈ live_lists s →
  wp (find_record f l) (λ o s', s' = s ∧ ∀ r, o = Some r → known_record s r ∧
    ∃ m a, m ∈ missions_of s l ∧ record_of s m = Some r ∧ st_records s !! r = Some a ∧ f s r a = true) s.
Proof.
  intros H Hl. unfold find_record. apply wp_bind, wp_gets, wp_bind.
  eapply wp_mono; [by apply (wp_find_m_record xs s l)|]. intros o s' (-> & Ho).
  apply wp_ret. split; [done|]. intros r Hr. destruct o as [m|]; [|done]. simpl in Hr.
  destruct (Ho m eq_refl) as (Hm & r' & a & Hr' & Ha & Hf).
  assert (r' = r) as -> by congruence. split; [by exists a|]. by exists m, a.
Qed.

Lemma wp_first_record xs s ls (g : LRef → ST Store (option RRef)) (P : RRef → Prop) :
  places xs s → (∀ l, l ∈ ls → wp (g l) (λ o s', s' = s ∧ ∀ r, o = Some r → known_record s r ∧ P r) s) →
  wp (first_m g ls) (λ o s', s' = s ∧ ∀ r, o = Some r → known_record s r ∧ P r) s.
Proof.
  intros H. induction ls as [|l ls IH]; intros Hg; cbn [first_m]; [by apply wp_ret|].
  apply wp_bind. eapply wp_mono; [apply Hg; left|]. intros [r|] s' (-> & Ho).
  - by apply wp_ret.
  - apply IH. intros l' Hl'. apply Hg. by right.
Qed.

(** The record is that of a mission in one of the lists. *)
Definition in_lists s r : Prop := ∃ l m, l ∈ live_lists s ∧ m ∈ missions_of s l ∧ record_of s m = Some r.

Lemma wp_search xs s more f :
  places xs s → (∀ l, l ∈ more → l ∈ live_lists s) →
  wp (first_m (find_record f) (current_then s more))
    (λ o s', s' = s ∧ ∀ r, o = Some r → known_record s r ∧ in_lists s r) s.
Proof.
  intros H Hm. apply (wp_first_record xs); [done|]. intros l Hl%current_then_live; [|done].
  eapply wp_mono; [by apply (wp_find_record xs)|]. intros o s' (-> & Ho). split; [done|].
  intros r Hr. destruct (Ho r Hr) as (? & m & a & ? & ? & ?). split; [done|]. by exists l, m.
Qed.

Lemma wp_GetAbilityRecordByEventId xs s ev :
  places xs s → wp (GetAbilityRecordByEventId ev)
    (λ o s', s' = s ∧ ∀ r, o = Some r → known_record s r ∧ in_lists s r) s.
Proof.
  intros H. unfold GetAbilityRecordByEventId. apply wp_bind, wp_gets.
  apply (wp_search xs); [done|]. cbv beta delta [id]. solve_live.
Qed.

Lemma wp_GetAbilityRecordByCaller xs s c code :
  places xs s → wp (GetAbilityRecordByCaller c code)
    (λ o s', s' = s ∧ ∀ r, o = Some r → known_record s r ∧ in_lists s r) s.
Proof.
  intros H. unfold GetAbilityRecordByCaller. destruct c as [c|]; [|by apply wp_ret].
  apply wp_bind, wp_gets. apply (wp_search xs); [done|]. cbv beta delta [id]. solve_live.
Qed.

Lemma wp_GetAbilityRecordByName xs s e :
  places xs s → wp (GetAbilityRecordByName e)
    (λ o s', s' = s ∧ ∀ r, o = Some r → known_record s r ∧ in_lists s r) s.
Proof.
  intros H. unfold GetAbilityRecordByName. apply wp_bind, wp_gets.
  apply (wp_search xs); [done|]. cbv beta delta [id]. solve_live.
Qed.
End lookups.

Lemma same_shape_top s s' : same_shape s s' → GetCurrentTopAbility s' = GetCurrentTopAbility s.
Proof.
  intros S. unfold GetCurrentTopAbility, GetTopAbility, GetTopMission. rewrite (ss_current _ _ S).
  destruct (head _) as [l|]; [|done]. cbn [mbind option_bind]. rewrite (same_shape_missions_of _ _ _ S).
  destruct (head _) as [m|]; [|done]. cbn [mbind option_bind]. by apply same_shape_record_of.
Qed.

(** * Creation *)

Section creation.
Context (launcher_name : string → bool).
#[local] Abbreviation places := (places launcher_name).
#[local] Abbreviation placed := (placed launcher_name).

Lemma places_add xs l s : places xs s → l ∈ live_lists s → target_list xs s l → places (l :: xs) s.
Proof.
  intros H Hl Ht.
  assert (∀ l', l' ∈ live_lists s ++ l :: xs → l' ∈ live_lists s ++ xs) as Hsub by set_solver.
  constructor; try apply H.
  - intros l' m Hl'. by apply (pl_placed _ _ _ H), Hsub.
  - intros l' Hl'. by apply (pl_nodup _ _ _ H), Hsub.
  - intros l' Hl'. assert (target_list xs s l') as [->|?]; [|by left|by apply (pl_current _ _ _ H)].
    unfold target_list in *. set_solver.
Qed.

Definition with_new_list s : Store :=
  s <| st_next ::= Pos.succ |> <| st_lists ::= insert (st_next s) (mkList CURRENT []) |>.

Lemma new_list_eq s : new_list CURRENT s = Returned (st_next s, with_new_list s).
Proof. done. Qed.

Lemma places_fresh_list xs s : places xs s → st_next s ∉ live_lists s ++ xs.
Proof.
  intros H Hl. destruct (places_known_list _ _ _ _ H Hl) as [ml Hml].
  destruct (pl_fresh _ _ _ H (st_next s)) as (? & _); [lia|congruence].
Qed.

Lemma missions_of_new_list xs s l :
  places xs s → missions_of (with_new_list s) l = missions_of s l.
Proof.
  intros H. unfold missions_of, with_new_list. store_cbn. destruct (decide (l = st_next s)) as [->|Hn].
  - rewrite lookup_insert_eq. destruct (pl_fresh _ _ _ H (st_next s)) as (-> & _); [lia|done].
  - by rewrite lookup_insert_ne.
Qed.

Lemma list_type_new_list s l :
  l ≠ st_next s → list_type (with_new_list s) l = list_type s l.
Proof. intros Hn. unfold list_type, with_new_list. store_cbn. by rewrite lookup_insert_ne. Qed.

Lemma places_new_list xs s : places xs s → places (st_next s :: xs) (with_new_list s).
Proof.
  intros H. pose proof (places_fresh_list _ _ H) as Hfresh.
  assert (∀ l, l ∈ live_lists (with_new_list s) ++ st_next s :: xs → l = st_next s ∨ l ∈ live_lists s ++ xs) as Hsub.
  { intros l. change (live_lists (with_new_list s)) with (live_lists s). set_solver. }
  assert (missions_of s (st_next s) = []) as Hnil.
  { unfold missions_of. by destruct (pl_fresh _ _ _ H (st_next s)) as (-> & _); [lia|]. }
  assert (∀ l, l ∈ live_lists s ++ xs → l ≠ st_next s) as Hne by (intros l Hl ->; done).
  constructor; try apply H.
  - intros l m. rewrite (missions_of_new_list xs) by done. apply (pl_listed _ _ _ H).
  - intros l m Hl. rewrite (missions_of_new_list xs) by done.
    destruct (Hsub l Hl) as [->|Hl']; [rewrite Hnil; by intros ?%not_elem_of_nil|].
    intros Hm. destruct (pl_placed _ _ _ H l m Hl' Hm) as (ms & r & a & ?). by exists ms, r, a.
  - intros l Hl. rewrite (missions_of_new_list xs) by done.
    destruct (Hsub l Hl) as [->|Hl']; [rewrite Hnil; constructor|by apply (pl_nodup _ _ _ H)].
  - rewrite list_type_new_list by (apply Hne; unfold live_lists; set_solver). apply H.
  - rewrite list_type_new_list by (apply Hne; unfold live_lists; set_solver). apply H.
  - rewrite list_type_new_list by (apply Hne; unfold live_lists; set_solver). apply H.
  - intros l Hl. destruct (decide (l = st_next s)) as [->|Hn].
    + right. unfold list_type, with_new_list. store_cbn. by rewrite lookup_insert_eq.
    + rewrite list_type_new_list by done. apply (pl_current _ _ _ H).
      change (st_currentMissionLists (with_new_list s)) with (st_currentMissionLists s) in Hl. set_solver.
  - intros p. unfold with_new_list. store_cbn. intros Hp.
    destruct (pl_fresh _ _ _ H p) as (F1 & F2 & F3); [lia|].
    rewrite lookup_insert_ne by lia. done.
Qed.

Lemma no_empty_new_list xs s : places xs s → no_empty s → no_empty (with_new_list s).
Proof. intros H Hn l Hl. rewrite (missions_of_new_list xs) by done. by apply Hn. Qed.

(** Records and missions. *)
Definition with_new_record a s : Store :=
  s <| st_next ::= Pos.succ |> <| st_records ::= insert (st_next s) a |>.
Definition with_new_mission ms s : Store :=
  s <| st_next ::= Pos.succ |> <| st_missions ::= insert (st_next s) ms |>.

Lemma new_record_eq a s : new_record a s = Returned (st_next s, with_new_record a s).
Proof. done. Qed.
Lemma new_mission_eq ms s : new_mission ms s = Returned (st_next s, with_new_mission ms s).
Proof. done. Qed.

Lemma extends_new_record xs a s : places xs s → extends s (with_new_record a s).
Proof.
  intros H. constructor; try done; unfold with_new_record; store_cbn; [by eauto|].
  intros r a0 Ha0. assert (r ≠ st_next s).
  { intros ->. destruct (pl_fresh _ _ _ H (st_next s)) as (_ & _ & F); [lia|congruence]. }
  exists a0. rewrite lookup_insert_ne by done. by split_and!.
Qed.

Lemma extends_new_mission xs ms s : places xs s → extends s (with_new_mission ms s).
Proof.
  intros H. constructor; try done; unfold with_new_mission; store_cbn.
  - intros m ms0 Hms0. assert (m ≠ st_next s).
    { intros ->. destruct (pl_fresh _ _ _ H (st_next s)) as (_ & F & _); [lia|congruence]. }
    exists ms0. by rewrite lookup_insert_ne by done.
  - intros r a Ha. exists a. by split_and!.
Qed.

(** What [places] needs of a state that extends another. *)
Lemma places_extends xs s s' :
  extends s s' → places xs s →
  (∀ m ms, st_missions s' !! m = Some ms → ∃ r, m_abilityRecord ms = Some r ∧ known_record s' r) →
  (∀ r a m, st_records s' !! r = Some a → r_mission a = Some m →
     ∃ ms, st_missions s' !! m = Some ms ∧ m_abilityRecord ms = Some r) →
  (∀ p, (st_next s' ≤ p)%positive →
     st_lists s' !! p = None ∧ st_missions s' !! p = None ∧ st_records s' !! p = None) →
  places xs s'.
Proof.
  intros E H Hown Hrec Hfresh.
  assert (∀ l, list_type s' l = list_type s l) as Hlt by (intros l; unfold list_type; by rewrite (ex_lists _ _ E)).
  constructor; rewrite ?Hlt, ?(extends_live_lists _ _ E), ?(ex_launcher _ _ E), ?(ex_standard _ _ E),
    ?(ex_single _ _ E), ?(ex_current _ _ E), ?(ex_terminate _ _ E), ?(ex_held _ _ E); try done; try apply H.
  - intros l m. rewrite (extends_missions_of _ _ _ E). intros Hm.
    by eapply known_mission_extends, (pl_listed _ _ _ H).
  - intros l m Hl. rewrite (extends_missions_of _ _ _ E). intros Hm.
    destruct (pl_placed _ _ _ H l m Hl Hm) as (ms & r & a & Hok & Ho & Hrl & Hnt & Hf).
    destruct Hok as (Hm0 & Hr0 & Ha0 & Ham0).
    destruct (ex_missions _ _ E m ms Hm0) as (ms' & Hm' & He). injection He as E1 E2 E3.
    destruct (ex_records _ _ E r a Ha0) as (a' & Ha' & E4 & E5 & E6 & E7 & _).
    exists ms', r, a'. unfold mission_ok, fits in *.
    rewrite (ex_launcher _ _ E), (ex_standard _ _ E), (ex_single _ _ E), (ex_terminate _ _ E), E2, E5, E6.
    split_and!; try done; try congruence; try apply Hf. rewrite E7; [done|by rewrite Ham0; eexists].
  - intros l. rewrite (extends_missions_of _ _ _ E). apply H.
  - intros l. rewrite Hlt. apply H.
  - intros r Hr. destruct (pl_terminating _ _ _ H r Hr) as (a & Ha & Ht).
    destruct (ex_records _ _ E r a Ha) as (a' & Ha' & _ & _ & _ & _ & E7). exists a'. auto.
  - intros r Hr. eapply known_record_extends; [done|]. by apply (pl_held _ _ _ H).
Qed.

Lemma places_new_record xs a s : places xs s → r_mission a = None → places xs (with_new_record a s).
Proof.
  intros H Ha. pose proof (extends_new_record xs a s H) as E. eapply places_extends; [done..| | |].
  - intros m ms Hm. destruct (pl_owner _ _ _ H m ms Hm) as (r & Hr & Hk). exists r. split; [done|].
    by eapply known_record_extends.
  - intros r a0 m. unfold with_new_record. store_cbn.
    intros [[<- <-]|[Hn Hr]]%lookup_insert_Some Hm; [congruence|]. by apply (pl_record _ _ _ H r a0).
  - intros p. unfold with_new_record. store_cbn. intros Hp.
    destruct (pl_fresh _ _ _ H p) as (F1 & F2 & F3); [lia|]. rewrite lookup_insert_ne by lia. done.
Qed.

Lemma places_new_mission xs ms r s :
  places xs s → m_abilityRecord ms = Some r → known_record s r → places xs (with_new_mission ms s).
Proof.
  intros H Hr Hk. pose proof (extends_new_mission xs ms s H) as E. eapply places_extends; [done..| | |].
  - intros m ms0. unfold with_new_mission. store_cbn.
    intros [[<- <-]|[Hn Hm]]%lookup_insert_Some; [by exists r|]. by apply (pl_owner _ _ _ H m).
  - intros r' a m Ha Ham. destruct (pl_record _ _ _ H r' a m Ha Ham) as (ms0 & Hm & Hr0).
    destruct (ex_missions _ _ E m ms0 Hm) as (ms1 & Hm1 & He). injection He as E1 E2 E3.
    exists ms1. split; [done|congruence].
  - intros p. unfold with_new_mission. store_cbn. intros Hp.
    destruct (pl_fresh _ _ _ H p) as (F1 & F2 & F3); [lia|]. rewrite lookup_insert_ne by lia. done.
Qed.

Definition with_mission r m id s : Store :=
  s <| st_records ::= alter (λ a, a <| r_missionId := id |> <| r_mission := Some m |>) r |>.

Lemma SetMission_eq r m ms s :
  st_missions s !! m = Some ms → SetMission r m s = Returned (tt, with_mission r m (m_missionId ms) s).
Proof.
  intros Hm. unfold SetMission, the_mission, upd_record, gets, deref, modify, mbind, ST_bind. by rewrite Hm.
Qed.

Lemma extends_with_mission r m id a s :
  st_records s !! r = Some a → r_mission a = None → extends s (with_mission r m id s).
Proof.
  intros Ha Ham. constructor; try done; unfold with_mission; store_cbn; [by eauto|].
  intros r0 a0 Ha0. destruct (decide (r0 = r)) as [->|Hn].
  - rewrite lookup_alter_eq, Ha0. assert (a0 = a) as -> by congruence.
    eexists. split; [done|]. split_and!; try done. intros [? ?]. congruence.
  - rewrite lookup_alter_ne by done. exists a0. by split_and!.
Qed.

Lemma places_with_mission xs r m ms id a s :
  places xs s → st_records s !! r = Some a → r_mission a = None →
  st_missions s !! m = Some ms → m_abilityRecord ms = Some r → places xs (with_mission r m id s).
Proof.
  intros H Ha Ham Hm Hr. pose proof (extends_with_mission r m id a s Ha Ham) as E.
  eapply places_extends; [done..| | |].
  - intros m0 ms0 Hm0. destruct (pl_owner _ _ _ H m0 ms0 Hm0) as (r0 & ? & ?). exists r0.
    split; [done|]. by eapply known_record_extends.
  - intros r0 a0 m0. unfold with_mission. store_cbn.
    intros [(-> & a1 & Ha1 & ->)|[Hn Ha0]]%lookup_alter_Some.
    + intros Hx. change (Some m = Some m0) in Hx. simplify_eq. by exists ms.
    + intros Hx. by apply (pl_record _ _ _ H r0 a0).
  - intros p Hp. destruct (pl_fresh _ _ _ H p Hp) as (F1 & F2 & F3). unfold with_mission. store_cbn.
    rewrite lookup_alter_ne by congruence. done.
Qed.
End creation.

(** * A mission for a request *)

Section targets.
Context (launcher_name : string → bool).
#[local] Abbreviation places := (places launcher_name).
#[local] Abbreviation tidy := (tidy launcher_name).
#[local] Abbreviation fits := (fits launcher_name).

(** What is known of a mission that is about to be moved. *)
Definition ready xs s m r (name : string) (info : AbilityInfo) (launcher : bool) : Prop :=
  ∃ ms a, mission_ok s m ms r a ∧ m_missionName ms = name ∧ r_info a = info ∧
    r_isLauncherAbility a = launcher ∧ (r ∉ st_terminateAbilityList s) ∧ movable xs s m.

Lemma ready_extends xs s s' m r name info launcher :
  extends s s' → ready xs s m r name info launcher → ready xs s' m r name info launcher.
Proof.
  intros E (ms & a & Hok & Hn & Hi & Hl & Hnt & Hm).
  destruct (mission_ok_extends _ _ _ _ _ _ E Hok) as (ms' & a' & Hok' & He & Hi' & Hl').
  injection He as E1 E2 E3. exists ms', a'. rewrite (ex_terminate _ _ E). split_and!; try congruence; try done.
  apply (extends_movable _ s); [done| |done]. exists ms. apply Hok.
Qed.

Lemma wp_make_mission xs restartMax userId q missionId method name s Q :
  places xs s →
  (∀ m r s', extends s s' → places xs s' →
     ready xs s' m r name (rq_info q) (app_isLauncherApp (rq_app q)) →
     GetMissionList s' m = None → Q (m, r) s') →
  wp (make_mission restartMax userId q missionId method name) Q s.
Proof.
  intros H HQ. unfold make_mission. set (a0 := CreateAbilityRecord restartMax q).
  set (r := st_next s). set (s1 := with_new_record a0 s).
  assert (places xs s1) as P1 by (by apply places_new_record).
  assert (extends s s1) as E1 by (by eapply extends_new_record).
  assert (st_records s1 !! r = Some a0) as Hr1 by (unfold s1, with_new_record; store_cbn; by rewrite lookup_insert_eq).
  apply wp_bind. unfold wp. rewrite new_record_eq. fold s1 r. cbv beta iota.
  set (ms := mkMission missionId method (Some r) name None false false).
  set (m := st_next s1). set (s2 := with_new_mission ms s1).
  assert (places xs s2) as P2 by (eapply places_new_mission; [done|done|by exists a0]).
  assert (extends s1 s2) as E2 by (by eapply extends_new_mission).
  assert (st_missions s2 !! m = Some ms) as Hm2 by (unfold s2, with_new_mission; store_cbn; by rewrite lookup_insert_eq).
  apply wp_bind. unfold wp. rewrite new_mission_eq. fold s2 m. cbv beta iota.
  set (s3 := with_mission r m missionId s2).
  assert (st_records s2 !! r = Some a0) as Hr2 by done.
  assert (places xs s3) as P3 by (by eapply places_with_mission).
  assert (extends s2 s3) as E3 by (by eapply extends_with_mission).
  assert (st_records s3 !! r = Some (a0 <| r_missionId := missionId |> <| r_mission := Some m |>)) as Hr3
    by (unfold s3, with_mission; store_cbn; by rewrite lookup_alter_eq, Hr2).
  apply wp_bind. unfold wp. rewrite (SetMission_eq r m ms s2 Hm2). change (m_missionId ms) with missionId. fold s3.
  apply wp_bind. eapply (keeps_wp same_shape); [by apply keeps_upd_record|]. intros [] s4 _ S4. apply wp_ret.
  pose proof (same_shape_extends _ _ S4) as E4.
  assert (∀ l, l ∈ live_lists s3 ++ xs → m ∉ missions_of s3 l) as Hout.
  { intros l Hl Hm. assert (extends s s3) as E by (by do 2 (etransitivity; [eassumption|])).
    rewrite (extends_live_lists _ _ E) in Hl. rewrite (extends_missions_of _ _ _ E) in Hm.
    destruct (pl_placed _ _ _ H l m Hl Hm) as (ms' & r' & a' & (Hms' & _) & _).
    destruct (pl_fresh _ _ _ P1 m) as (_ & F & _); [unfold m; lia|].
    change (st_missions s1) with (st_missions s) in F. congruence. }
  assert (GetMissionList s3 m = None) as Hnone.
  { unfold GetMissionList. change (st_missions s3) with (st_missions s2). by rewrite Hm2. }
  assert (r ∉ st_terminateAbilityList s3) as Hnt.
  { intros Hr. change (st_terminateAbilityList s3) with (st_terminateAbilityList s) in Hr.
    destruct (pl_terminating _ _ _ H r Hr) as (a & Ha & _).
    destruct (pl_fresh _ _ _ H r) as (_ & _ & F); [unfold r; lia|congruence]. }
  apply HQ.
  - by do 3 (etransitivity; [eassumption|]).
  - by eapply places_shape.
  - eapply ready_extends; [done|]. exists ms, (a0 <| r_missionId := missionId |> <| r_mission := Some m |>).
    split_and!; try done. by right.
  - rewrite (extends_GetMissionList _ _ _ E4); [done|]. by exists ms.
Qed.

(** ** Target lists *)

(** A caller's references stay good. *)
Record grows s s' : Prop := {
  gr_known r : known_record s r → known_record s' r;
  gr_mission m : known_mission s m → known_mission s' m;
}.

#[export] Instance grows_preorder : PreOrder grows.
Proof.
  split; [by constructor|]. intros s1 s2 s3 [] []. constructor; try congruence; auto.
Qed.

Lemma extends_grows s s' : extends s s' → grows s s'.
Proof.
  intros E. constructor.
  - intros r. by apply known_record_extends.
  - intros m. by apply known_mission_extends.
Qed.

Lemma same_frame_grows s s' : same_frame s s' → grows s s'.
Proof.
  intros F. constructor.
  - intros r. by apply same_frame_known_record.
  - intros m. by apply same_frame_known_mission.
Qed.

Lemma relisted_grows s s' : relisted s s' → grows s s'.
Proof.
  intros F. constructor.
  - intros r. by apply (same_frame_known_record _ _ _ F).
  - intros m. by apply (same_frame_known_mission _ _ _ F).
Qed.

Lemma grows_new_list s : grows s (with_new_list s).
Proof. by constructor. Qed.

(** A list a start may go to. *)
Definition start_target s t s' : Prop :=
  places [t] s' ∧ no_empty s' ∧ target_list [t] s' t ∧ grows s s'.

Lemma start_target_new s : tidy s → start_target s (st_next s) (with_new_list s).
Proof.
  intros [H Hn]. split_and!.
  - by apply places_new_list.
  - by eapply no_empty_new_list.
  - right. rewrite elem_of_app. right. left.
  - apply grows_new_list.
Qed.

Lemma start_target_live s t :
  tidy s → t = st_launcherList s ∨ t ∈ st_currentMissionLists s → start_target s t s.
Proof.
  intros [H Hn] Ht. assert (target_list [] s t) as Ht0 by (unfold target_list; by rewrite app_nil_r).
  split_and!; [|done| |done].
  - apply places_add; [done| |done]. apply target_list_live in Ht0. by rewrite app_nil_r in Ht0.
  - destruct Ht; [by left|right]. rewrite elem_of_app. by left.
Qed.

Lemma wp_new_target s Q :
  tidy s → (∀ t s', start_target s t s' → t ≠ st_launcherList s' → Q t s') → wp (new_list CURRENT) Q s.
Proof.
  intros H HQ. unfold wp. rewrite new_list_eq. apply HQ; [by apply start_target_new|].
  intros E. apply (places_fresh_list _ _ _ (proj1 H)). rewrite E, elem_of_app. left. unfold live_lists. left.
Qed.

(** A list that is no default list is the launcher list or a current one. *)
Lemma live_not_default s l :
  l ∈ live_lists s → is_default_list s l = false →
  l = st_launcherList s ∨ l ∈ st_currentMissionLists s.
Proof.
  unfold live_lists, is_default_list. rewrite !elem_of_cons. intros Hl Hd. bool_to_prop. tauto.
Qed.

Lemma wp_GetTargetMissionListByLauncher q s :
  tidy s → launcher_name (request_name q) = false →
  wp (GetTargetMissionListByLauncher q)
    (λ o s', ∃ t, o = Some t ∧ start_target s t s' ∧ t ≠ st_launcherList s') s.
Proof.
  intros H Hq. unfold GetTargetMissionListByLauncher. apply wp_bind, wp_gets. cbv beta delta [id].
  assert (wp (l' ← new_list CURRENT; mret (Some l'))
    (λ o s', ∃ t, o = Some t ∧ start_target s t s' ∧ t ≠ st_launcherList s') s) as Hnew.
  { apply wp_bind, wp_new_target; [done|]. intros t s' Ht Hne. apply wp_ret. by exists t. }
  destruct (GetReusedMission s q) as [m|] eqn:Hr; [|done]. cbn [mbind option_bind].
  destruct (GetReusedMission_placed _ _ _ Hr) as (_ & _ & (ms & Hms & Hname) & l & Hl & Hm).
  rewrite (places_GetMissionList _ _ _ _ _ (proj1 H) Hl Hm).
  destruct (is_default_list s l) eqn:Hd; [done|]. apply wp_ret. exists l. split_and!; [done| |].
  - apply start_target_live; [done|]. by apply live_not_default.
  - destruct (pl_placed _ _ _ (proj1 H) l m) as (ms' & r & a & (Hms' & _) & _ & _ & _ & (Hf & _));
      [rewrite elem_of_app; by left|done|].
    assert (ms' = ms) as -> by congruence. rewrite Hname, Hq in Hf. symmetry in Hf. by bool_to_prop.
Qed.

(** The caller's own list, when it is in one. *)
Lemma lock_caller s c a m l :
  tidy s → st_records s !! c = Some a → lock_mission s (r_mission a) = Some m →
  lock_list s (r_missionList a) = Some l →
  ∃ ms, mission_ok s m ms c a ∧ l ∈ live_lists s ∧ m ∈ missions_of s l ∧
    (c ∉ st_terminateAbilityList s) ∧ fits s l ms a.
Proof.
  intros [H _] Ha. unfold lock_mission, lock_list.
  destruct (r_mission a) as [m'|] eqn:Ham; [|done]. cbn [mbind option_bind].
  destruct (decide _) as [Hm|]; [|done]. intros ?; simplify_eq.
  destruct (r_missionList a) as [l'|] eqn:Hal; [|done]. cbn [mbind option_bind].
  destruct (decide _) as [Hl|]; [|done]. intros ?; simplify_eq.
  apply elem_of_live_missions in Hm as (l0 & Hl0 & Hm).
  destruct (pl_placed _ _ _ H l0 m) as (ms & r & a0 & Hok & Ho & Hrl & Hnt & Hf);
    [rewrite elem_of_app; by left|done|].
  destruct (pl_record _ _ _ H c a m Ha Ham) as (ms' & Hms' & Hr').
  pose proof Hok as (Hms & Hr & Ha0 & _).
  assert (ms' = ms) as -> by congruence. assert (r = c) as -> by congruence.
  assert (a0 = a) as -> by congruence. assert (l = l0) as -> by congruence. by exists ms.
Qed.

(** A caller in a default list gets a list of its own. *)
Lemma wp_caller_to_new_list c a m ms l s :
  tidy s → mission_ok s m ms c a → l ∈ live_lists s → m ∈ missions_of s l →
  (c ∉ st_terminateAbilityList s) → fits s l ms a → l ≠ st_launcherList s →
  let t := st_next s in
  wp (l' ← new_list CURRENT; _ ← RemoveMission l m; _ ← AddMissionToTop l' m; mret (Some l'))
    (λ o s', o = Some t ∧ same_frame (with_new_list s) s' ∧ places [t] s' ∧
      ∀ l', missions_of s' l' = (<[t := m :: missions_of s t]>
        (<[l := list_remove_all m (missions_of s l)]> (missions_of s))) l') s.
Proof.
  intros [H Hn] Hok Hll Hml Hnt Hf Hl t. pose proof Hf as (Hf1 & Hf2 & _).
  apply wp_bind. unfold wp. rewrite new_list_eq. cbv beta iota. set (s1 := with_new_list s).
  assert (places [t] s1) as P1 by (by apply places_new_list).
  assert (t ∉ live_lists s) as Hfr by (pose proof (places_fresh_list _ _ _ H) as F; by rewrite app_nil_r in F).
  assert (∀ l', missions_of s1 l' = missions_of s l') as Hm1
    by (intros l'; by apply (missions_of_new_list launcher_name [])).
  assert (wp (_ ← RemoveMission l m; AddMissionToTop t m) (λ _ s', same_frame s1 s' ∧ places [t] s' ∧
    ∀ l', missions_of s' l' = (<[t := m :: missions_of s1 t]>
      (<[l := list_remove_all m (missions_of s1 l)]> (missions_of s1))) l') s1) as Hw.
  { apply (wp_transfer _ [t] l t m ms c a); try done.
    - rewrite elem_of_app. right. left.
    - by intros ->.
    - by rewrite Hm1.
    - rewrite bool_decide_false in Hf1, Hf2 by done. unfold fits in *. rewrite Hf1, Hf2.
      change (st_launcherList s1) with (st_launcherList s). change (st_defaultSingleList s1) with (st_defaultSingleList s).
      change (st_defaultStandardList s1) with (st_defaultStandardList s). rewrite bool_decide_false.
      + split_and!; try done; intros E; destruct Hfr; rewrite E; unfold live_lists; set_solver.
      + intros E; destruct Hfr; rewrite E; unfold live_lists; set_solver. }
  unfold wp, mbind, ST_bind in Hw |- *. destruct (RemoveMission l m s1) as [[[] s2]| |]; [|done..].
  destruct (AddMissionToTop _ m s2) as [[[] s3]| |]; [|done..]. destruct Hw as (F & P3 & M3).
  unfold mret, ST_ret. split_and!; [done..|]. intros l'. rewrite M3.
  unfold insert, fn_insert. by repeat case_decide; rewrite ?Hm1.
Qed.

Lemma wp_GetTargetMissionListByDefault c a q s :
  tidy s → st_records s !! c = Some a → r_isLauncherAbility a = false →
  wp (GetTargetMissionListByDefault (Some c) q)
    (λ o s', match o with
             | None => s' = s
             | Some t => start_target s t s' ∧ t ≠ st_launcherList s'
             end) s.
Proof.
  intros Ht Ha Hla. unfold GetTargetMissionListByDefault. apply wp_bind, wp_gets. cbv beta delta [id].
  apply wp_bind. unfold the_record. apply wp_bind, wp_gets. eapply wp_deref; [done|].
  destruct (lock_mission s (r_mission a)) as [m|] eqn:Hm; [|by apply wp_ret].
  destruct (lock_list s (r_missionList a)) as [l|] eqn:Hl; [|by apply wp_ret].
  destruct (lock_caller _ _ _ _ _ Ht Ha Hm Hl) as (ms & Hok & Hll & Hml & Hnt & Hf).
  pose proof Ht as [H Hn]. pose proof Hf as (Hf1 & Hf2 & _). rewrite Hla in Hf2. symmetry in Hf2. bool_to_prop.
  destruct (is_default_list s l) eqn:Hd.
  2: { apply wp_ret. split; [|done]. apply start_target_live; [done|]. by apply live_not_default. }
  eapply wp_mono; [by eapply wp_caller_to_new_list|]. set (t := st_next s).
  assert (t ∉ live_lists s) as Hfr by (pose proof (places_fresh_list _ _ _ H) as F; by rewrite app_nil_r in F).
  intros o s3 (-> & F & P3 & M3). split; [split_and!|].
  - done.
  - intros l' Hl'. rewrite (sf_current _ _ F) in Hl'. rewrite (sf_launcher _ _ F).
    change (l' ∈ st_currentMissionLists s) in Hl'.
    destruct (Hn l' Hl') as [?|Hne]; [by left|]. right. rewrite M3.
    assert (is_default_list s l' = false) as Hd'
      by (apply (places_current_default launcher_name [] s l'); [done|by rewrite app_nil_r]).
    rewrite !fn_lookup_insert_ne; [done|congruence|].
    intros ->. apply Hfr. unfold live_lists. by do 3 right.
  - right. rewrite elem_of_app. right. left.
  - etransitivity; [apply grows_new_list|]. by apply same_frame_grows.
  - rewrite (sf_launcher _ _ F). change (st_launcherList (with_new_list s)) with (st_launcherList s).
    intros ->. apply Hfr. unfold live_lists. left.
Qed.

Lemma wp_GetTargetMissionListForStart caller q s :
  tidy s → launcher_name (request_name q) = ai_isLauncherApp (rq_info q) →
  (∀ c, caller = Some c → known_record s c) →
  wp (GetTargetMissionListForStart caller q)
    (λ o s', match o with
             | None => s' = s
             | Some t => start_target s t s' ∧ bool_decide (t = st_launcherList s') = ai_isLauncherApp (rq_info q)
             end) s.
Proof.
  intros Ht Hq Hc. unfold GetTargetMissionListForStart. apply wp_bind, wp_gets. cbv beta delta [id].
  destruct (ai_isLauncherApp (rq_info q)) eqn:Hla.
  { apply wp_ret. split; [|by apply bool_decide_true]. apply start_target_live; [done|by left]. }
  destruct caller as [c|].
  2: { apply wp_bind, wp_new_target; [done|]. intros t s' Hs Hne. apply wp_ret. split; [done|].
       by apply bool_decide_false. }
  destruct (Hc c eq_refl) as [a Ha]. apply wp_bind. unfold the_record.
  apply wp_bind, wp_gets. eapply wp_deref; [done|]. destruct (r_isLauncherAbility a) eqn:Hra.
  - eapply wp_mono; [by apply wp_GetTargetMissionListByLauncher|].
    intros o s' (t & -> & Hs & Hne). split; [done|]. by apply bool_decide_false.
  - eapply wp_mono; [by eapply wp_GetTargetMissionListByDefault|].
    intros [t|] s'; [|done]. intros [Hs Hne]. split; [done|]. by apply bool_decide_false.
Qed.

Lemma ready_new_list xs s m r name info launcher :
  places xs s → ready xs s m r name info launcher →
  ready (st_next s :: xs) (with_new_list s) m r name info launcher.
Proof.
  intros H (ms & a & Hok & Hn & Hi & Hl & Hnt & Hm). exists ms, a. split_and!; try done.
  destruct Hm as [(l & Hll & Hm)|[Hnone Hout]].
  - left. exists l. by rewrite (missions_of_new_list launcher_name xs).
  - right. split; [done|]. intros l. rewrite (missions_of_new_list launcher_name xs) by done.
    change (live_lists (with_new_list s)) with (live_lists s).
    rewrite elem_of_app, elem_of_cons. intros [Hll|[->|Hll]].
    + apply Hout. rewrite elem_of_app. by left.
    + unfold missions_of. destruct (pl_fresh _ _ _ H (st_next s)) as (-> & _); [lia|]. apply not_elem_of_nil.
    + apply Hout. rewrite elem_of_app. by right.
Qed.

(** ** To the front *)

Lemma popped_current s l above rest l' :
  is_default_list s l' = false → popped s l above rest l' = if decide (l' = l) then rest else missions_of s l'.
Proof.
  unfold is_default_list, popped. intros Hd. bool_to_prop.
  destruct (decide (l' = l)) as [->|]; [by rewrite fn_lookup_insert|]. by rewrite !fn_lookup_insert_ne.
Qed.

Lemma moved_no_empty xs b t m s l' :
  places xs s → no_empty s → l' ∈ moved_current t m s → l' ≠ st_launcherList s → moved b t m s l' ≠ [].
Proof.
  intros H Hn Hl' Hnl.
  assert (l' ∈ st_currentMissionLists s) as Hc.
  { revert Hl'. unfold moved_current. repeat case_match; try done. by intros [_ ?]%elem_of_list_remove_all. }
  assert (is_default_list s l' = false) as Hd
    by (apply (places_current_default launcher_name xs); [done|rewrite elem_of_app; by left]).
  destruct (Hn l' Hc) as [?|Hne]; [done|]. revert Hl'. unfold moved, moved_current.
  destruct (GetMissionList s m) as [l|].
  2: { intros _. destruct (decide (l' = t)) as [->|]; [by rewrite fn_lookup_insert|by rewrite fn_lookup_insert_ne]. }
  cbv zeta. destruct (decide (t = l)) as [->|Ht].
  - intros _. destruct (b && _).
    + rewrite popped_current by done. by destruct (decide (l' = l)).
    + destruct (decide (l' = l)) as [->|]; [by rewrite fn_lookup_insert|by rewrite fn_lookup_insert_ne].
  - rewrite (bool_decide_false (t = l)) by done. cbn [orb].
    destruct (decide (l' = t)) as [->|Hn1]; [intros _; destruct (is_default_list s l); by rewrite fn_lookup_insert|].
    destruct (is_default_list s l) eqn:Hdl.
    + intros _. rewrite !fn_lookup_insert_ne by congruence. done.
    + rewrite fn_lookup_insert_ne, popped_current by done. cbn [orb].
      destruct (bool_decide (after m (missions_of s l) = [])) eqn:He; cbn [negb].
      * intros [Hl _]%elem_of_list_remove_all. by rewrite decide_False.
      * intros _. bool_to_prop. by destruct (decide (l' = l)).
Qed.

Lemma moved_target_head xs b t m s :
  places xs s → target_list xs s t → movable xs s m → head (moved b t m s t) = Some m.
Proof.
  intros H Ht Hm. pose proof (target_list_default _ _ _ _ H Ht) as Hd. unfold moved.
  destruct (GetMissionList s m) as [l|]; [|by rewrite fn_lookup_insert].
  cbv zeta. destruct (decide (t = l)) as [<-|Hne].
  - destruct (b && _); [|by rewrite fn_lookup_insert]. rewrite popped_current by done. by rewrite decide_True.
  - by destruct (is_default_list s l); rewrite fn_lookup_insert.
Qed.

Definition at_front s t m : Prop :=
  head (st_currentMissionLists s) = Some t ∧ head (missions_of s t) = Some m.

Lemma wp_MoveMissionListToTop t s Q :
  places [t] s → no_empty s → target_list [t] s t → missions_of s t ≠ [] →
  (∀ s', tidy s' → relisted s s' → head (st_currentMissionLists s') = Some t →
     (∀ l, missions_of s' l = missions_of s l) → Q tt s') →
  wp (MoveMissionListToTop t) Q s.
Proof.
  intros H Hn Ht Hne HQ. unfold MoveMissionListToTop. apply wp_bind, wp_gets. cbv beta delta [id].
  destruct (decide _) as [Hh|Hh].
  - apply wp_ret, HQ; try done. split; [by eapply places_forget|done].
  - apply wp_modify. set (ls := t :: list_remove_all t (st_currentMissionLists s)).
    change (Q tt (s <| st_currentMissionLists := ls |>)). apply HQ; try done. split.
    + apply (places_relist _ [t] []); [done| |].
      * constructor; [by rewrite elem_of_list_remove_all; intros [? _]|apply NoDup_list_remove_all, H].
      * intros l. unfold ls. rewrite app_nil_r, elem_of_cons, elem_of_list_remove_all, elem_of_app.
        intros [->|[_ ?]]; [|tauto]. right. right. left.
    + intros l. change (st_launcherList (s <| st_currentMissionLists := ls |>)) with (st_launcherList s).
      change (missions_of (s <| st_currentMissionLists := ls |>) l) with (missions_of s l).
      unfold ls. store_cbn. rewrite elem_of_cons, elem_of_list_remove_all. intros [->|[_ Hl]]; [by right|by apply Hn].
Qed.

Lemma wp_to_front b t m r name info launcher s Q :
  places [t] s → no_empty s → target_list [t] s t → ready [t] s m r name info launcher →
  launcher_name name = bool_decide (t = st_launcherList s) → launcher = bool_decide (t = st_launcherList s) →
  (∀ s', tidy s' → relisted s s' → at_front s' t m → Q tt s') →
  wp (_ ← MoveMissionToTargetList b t m; MoveMissionListToTop t) Q s.
Proof.
  intros H Hn Ht (ms & a & Hok & Hname & Hinfo & Hla & Hnt & Hm) Hl1 Hl2 HQ.
  pose proof (target_list_default _ _ _ _ H Ht) as Hd. pose proof Hd as Hd'.
  unfold is_default_list in Hd'. bool_to_prop.
  apply wp_bind. eapply wp_mono.
  { eapply (MoveMissionToTargetList_moves launcher_name [t] b t); try done.
    unfold fits. rewrite Hname, Hla. split_and!; try done; congruence. }
  intros [] s1 (R & P1 & M1 & C1).
  assert (st_launcherList s1 = st_launcherList s) as HL by apply R.
  assert (head (missions_of s1 t) = Some m) as Hh by (rewrite M1; by apply (moved_target_head [t])).
  apply wp_MoveMissionListToTop; [done| | |by intros E; rewrite E in Hh|].
  - intros l Hl. rewrite C1 in Hl. rewrite HL. destruct (decide (l = st_launcherList s)) as [->|Hnl]; [by left|].
    right. rewrite M1. by apply (moved_no_empty [t]).
  - right. rewrite elem_of_app. right. left.
  - intros s2 T2 R2 H2 M2. apply HQ; [done|by etransitivity|]. split; [done|]. by rewrite M2.
Qed.
End targets.

(** * Leaving the lists *)

Section leaving.
Context (launcher_name : string → bool).
#[local] Abbreviation places := (places launcher_name).
#[local] Abbreviation tidy := (tidy launcher_name).

(** Everything tidy but for [l], which may be empty. *)
Definition tidy_but l s : Prop :=
  places [] s ∧ ∀ l', l' ∈ st_currentMissionLists s → l' = st_launcherList s ∨ l' = l ∨ missions_of s l' ≠ [].

Lemma tidy_shrink g l s : (∀ ms, g ms `sublist_of` ms) → tidy s → tidy_but l (edit_list g l s).
Proof.
  intros Hg [H Hn]. split; [by apply places_shrink|]. intros l' Hl'.
  destruct (Hn l' Hl') as [?|Hne]; [by left|right]. destruct (decide (l' = l)) as [|Hl]; [by left|right].
  rewrite missions_of_edit by (left; by apply sublist_nil_r). by rewrite fn_lookup_insert_ne.
Qed.

Lemma tidy_but_again g l s : (∀ ms, g ms `sublist_of` ms) → tidy_but l s → tidy_but l (edit_list g l s).
Proof.
  intros Hg [H Hn]. split; [by apply places_shrink|]. intros l' Hl'.
  destruct (Hn l' Hl') as [?|[?|Hne]]; [by left|by right; left|right].
  destruct (decide (l' = l)) as [|Hl]; [by left|right].
  rewrite missions_of_edit by (left; by apply sublist_nil_r). by rewrite fn_lookup_insert_ne.
Qed.

Lemma tidy_but_shape l s s' : same_shape s s' → tidy_but l s → tidy_but l s'.
Proof.
  intros Hs [H Hn]. split; [by eapply places_shape|]. intros l'.
  rewrite (ss_current _ _ Hs), (ss_launcher _ _ Hs), (same_shape_missions_of _ _ l' Hs). apply Hn.
Qed.

(** The list goes when it is empty. *)
Lemma tidy_but_close l s : tidy_but l s → missions_of s l ≠ [] ∨ l ∉ st_currentMissionLists s ∨ l = st_launcherList s → tidy s.
Proof.
  intros [H Hn] Hl. split; [done|]. intros l' Hl'.
  destruct (Hn l' Hl') as [?|[->|?]]; [by left| |by right].
  destruct Hl as [?|[?|?]]; [by right|done|by left].
Qed.

Lemma RemoveMissionList_eq l s :
  NoDup (st_currentMissionLists s) →
  RemoveMissionList l s = Returned (tt, s <| st_currentMissionLists := list_remove_all l (st_currentMissionLists s) |>).
Proof. intros Hnd. unfold RemoveMissionList, modify. rewrite <- list_erase_val_nodup by done. done. Qed.

Lemma tidy_but_remove l s :
  tidy_but l s → tidy (s <| st_currentMissionLists := list_remove_all l (st_currentMissionLists s) |>).
Proof.
  intros [H Hn]. split.
  - apply (places_relist _ []); [done|apply NoDup_list_remove_all, H|].
    intros l'. rewrite !app_nil_r, elem_of_list_remove_all. tauto.
  - intros l'. unfold no_empty. store_cbn. rewrite elem_of_list_remove_all. intros [Hne Hl'].
    destruct (Hn l' Hl') as [?|[?|?]]; [by left|done|by right].
Qed.

Lemma grows_edit g l s : grows s (edit_list g l s).
Proof. apply same_frame_grows, same_frame_edit. Qed.

Lemma grows_relist s ls : grows s (s <| st_currentMissionLists := ls |>).
Proof. by constructor. Qed.

Lemma relist_id s : s <| st_currentMissionLists := st_currentMissionLists s |> = s.
Proof. by destruct s. Qed.

(** [if (missionList->IsEmpty()) RemoveMissionList(missionList)]. *)
Lemma wp_remove_if_empty l s Q :
  tidy_but l s →
  (∀ ls, (∀ l, l ∈ ls → l ∈ st_currentMissionLists s) → tidy (s <| st_currentMissionLists := ls |>) →
     Q tt (s <| st_currentMissionLists := ls |>)) →
  wp (if IsEmpty s l then RemoveMissionList l else mret tt) Q s.
Proof.
  intros H HQ. rewrite IsEmpty_nil. case_bool_decide as He.
  - unfold wp. rewrite RemoveMissionList_eq by apply H. apply HQ; [|by apply tidy_but_remove].
    by intros l' [_ ?]%elem_of_list_remove_all.
  - apply wp_ret. specialize (HQ (st_currentMissionLists s)). rewrite relist_id in HQ.
    apply HQ; [done|]. eapply tidy_but_close; [done|by left].
Qed.

Lemma wp_remove_if_empty_current l s Q :
  l ∈ live_lists s → tidy_but l s →
  (∀ ls, (∀ l, l ∈ ls → l ∈ st_currentMissionLists s) → tidy (s <| st_currentMissionLists := ls |>) →
     Q tt (s <| st_currentMissionLists := ls |>)) →
  wp (if bool_decide (GetType s l = CURRENT) && IsEmpty s l then RemoveMissionList l else mret tt) Q s.
Proof.
  intros Hl H HQ. destruct (bool_decide (GetType s l = CURRENT)) eqn:Ht; cbn [andb].
  - by apply wp_remove_if_empty.
  - apply wp_ret. specialize (HQ (st_currentMissionLists s)). rewrite relist_id in HQ.
    apply HQ; [done|]. eapply tidy_but_close; [done|]. right. bool_to_prop.
    destruct (decide (l ∈ st_currentMissionLists s)) as [Hc|Hc]; [right|by left].
    destruct (pl_current _ _ _ (proj1 H) l) as [?|Hty]; [by rewrite app_nil_r|done|].
    destruct Ht. unfold GetType. unfold list_type in Hty. destruct (st_lists s !! l); [|done].
    cbn in Hty. congruence.
Qed.

(** Into the terminate list. *)
Definition push_terminating r s : Store := s <| st_terminateAbilityList ::= λ t, t ++ [r] |>.

Lemma places_push xs r a s :
  places xs s → st_records s !! r = Some a → r_isTerminating a = true → (r ∉ st_terminateAbilityList s) →
  (∀ l m, l ∈ live_lists s ++ xs → m ∈ missions_of s l → record_of s m ≠ Some r) →
  places xs (push_terminating r s).
Proof.
  intros H Ha Ht Hnt Hout. constructor; try apply H; unfold push_terminating; store_cbn.
  - intros l m Hl Hm. destruct (pl_placed _ _ _ H l m Hl Hm) as (ms & r' & a' & Hok & Ho & Hrl & Hnt' & Hf).
    exists ms, r', a'. split_and!; try done. unfold update; cbn [st_terminateAbilityList].
    rewrite elem_of_app, list_elem_of_singleton. intros [?| ->]; [done|].
    destruct (Hout l m Hl Hm). unfold record_of. destruct Hok as (-> & Hr & _). done.
  - intros r'. rewrite elem_of_app, list_elem_of_singleton. intros [Hr'| ->]; [by apply (pl_terminating _ _ _ H)|eauto].
  - apply NoDup_app. split_and!; [apply H| |repeat constructor; apply not_elem_of_nil].
    intros r' Hr'. rewrite list_elem_of_singleton. by intros ->.
Qed.

Lemma tidy_but_push l r a s :
  tidy_but l s → st_records s !! r = Some a → r_isTerminating a = true → (r ∉ st_terminateAbilityList s) →
  (∀ l m, l ∈ live_lists s → m ∈ missions_of s l → record_of s m ≠ Some r) →
  tidy_but l (push_terminating r s).
Proof.
  intros [H Hn] Ha Ht Hnt Hout. split; [|done]. eapply places_push; [done..|].
  intros l' m. rewrite app_nil_r. apply Hout.
Qed.

(** After a removal by record nobody has the record any more. *)
Lemma removed_by_record l r a s :
  places [] s → st_records s !! r = Some a → lock_list s (r_missionList a) = Some l →
  ∀ l' m, l' ∈ live_lists s →
    m ∈ missions_of (edit_list (erase_first (λ m, bool_decide (record_of s m = Some r))) l s) l' →
    record_of s m ≠ Some r.
Proof.
  intros H Ha Hlk l' m Hl' Hm Hr.
  assert (m ∈ missions_of s l') as Hm'.
  { eapply elem_of_submseteq; [exact Hm|]. apply sublist_submseteq, missions_of_shrink.
    intros ms. apply erase_first_sublist. }
  assert (l' ∈ live_lists s ++ []) as Hl'' by (rewrite elem_of_app; by left).
  destruct (pl_placed _ _ _ H l' m Hl'' Hm') as (ms & r' & a' & Hok & Ho & Hrl & _).
  assert (r' = r) as -> by (destruct Hok as (Hms & Hmr & _); unfold record_of in Hr; rewrite Hms in Hr; cbn in Hr; congruence).
  assert (a' = a) as -> by (destruct Hok as (_ & _ & Ha' & _); congruence).
  rewrite Hrl in Hlk. unfold lock_list in Hlk. cbn in Hlk. rewrite decide_True in Hlk by done. simplify_eq.
  rewrite missions_of_edit, fn_lookup_insert in Hm by by left.
  pose proof (pl_nodup _ _ _ H l Hl'') as Hnd.
  assert (∀ m', m' ∈ missions_of s l → record_of s m' = Some r → m' = m) as Huniq.
  { intros m1 Hm1 Hr1. eapply placed_record_inj; [by eapply (pl_placed _ _ _ H l m1)|
      by eapply (pl_placed _ _ _ H l m)|done|done]. }
  clear Ho Hrl Hok Hl' Hl''. induction (missions_of s l) as [|x rest IH]; [by apply not_elem_of_nil in Hm'|].
  apply NoDup_cons in Hnd as [Hx Hnd]. cbn [erase_first] in Hm.
  case_bool_decide as Hxr.
  - assert (x = m) as -> by (apply Huniq; [left|done]). done.
  - apply elem_of_cons in Hm as [->|Hm]; [done|]. apply IH; try done.
    + by apply elem_of_erase_first in Hm.
    + intros m1 Hm1. apply Huniq. by right.
Qed.

(** Out of the terminate list. *)
Definition drop_terminating r s : Store := s <| st_terminateAbilityList ::= list_remove_all r |>.

Lemma tidy_drop_terminating r s : tidy s → tidy (drop_terminating r s).
Proof.
  intros [H Hn]. split; [|done]. constructor; try apply H.
  - intros l m Hl Hm. destruct (pl_placed _ _ _ H l m Hl Hm) as (ms & r' & a' & Hok & Ho & Hrl & Hnt & Hf).
    exists ms, r', a'. split_and!; try done. unfold drop_terminating. store_cbn.
    rewrite elem_of_list_remove_all. by intros [_ ?].
  - intros r'. unfold drop_terminating. store_cbn. rewrite elem_of_list_remove_all.
    intros [_ Hr']. by apply (pl_terminating _ _ _ H).
  - apply NoDup_list_remove_all, H.
Qed.
End leaving.
