(* ===== verification/InfosInterface.v ===== *)
(** What [MissionListManager] uses of the mission infos, as a class with its
    laws, and the proof that [MissionInfoMgr] keeps them.  The client's theorems
    are proved against the class. *)

From S2P Require Import Prelude CppString Want MissionData MissionInfo CallContainer AbilityRecord.
From Stdlib Require Import Ascii.

#[local] Open Scope stdpp_scope.
#[local] Open Scope Z_scope.

(** * The interface *)

(** [None] is a null dereference of the persistence manager. *)
Class MissionInfos (I : Type) := {
  infos_generate : I → option Z * I;
  infos_add : InnerMissionInfo → I → option I;
  infos_update : InnerMissionInfo → I → option I;
  infos_delete : Z → I → I;
  infos_delete_all : I → I * list Z;
  infos_get : Z → I → option InnerMissionInfo;
  infos_find_singleton : string → I → option InnerMissionInfo;
  infos_timestamp : Z → string → I → option I;
  infos_snapshot : Z → RRef → bool → I → I;
  infos_uninstall : string → Z → I → list Z * I;
}.

(** An operation neither crashes nor makes up infos: names and wants are those
    that were stored. *)
Class MissionInfosLaws (I : Type) `{!MissionInfos I} := {
  infos_ready : I → Prop;
  infos_has : string → Want → I → Prop;
  generate_law i : infos_ready i →
    infos_ready (infos_generate i).2 ∧ ∀ n w, infos_has n w (infos_generate i).2 → infos_has n w i;
  add_law x i : infos_ready i → ∃ i', infos_add x i = Some i' ∧ infos_ready i' ∧
    ∀ n w, infos_has n w i' → infos_has n w i ∨ n = missionName x ∧ w = mi_want (missionInfo x);
  update_law x i : infos_ready i → ∃ i', infos_update x i = Some i' ∧ infos_ready i' ∧
    ∀ n w, infos_has n w i' → infos_has n w i ∨ n = missionName x ∧ w = mi_want (missionInfo x);
  delete_law id i : infos_ready i →
    infos_ready (infos_delete id i) ∧ ∀ n w, infos_has n w (infos_delete id i) → infos_has n w i;
  delete_all_law i : infos_ready i →
    infos_ready (infos_delete_all i).1 ∧ ∀ n w, infos_has n w (infos_delete_all i).1 → infos_has n w i;
  timestamp_law id t i : infos_ready i → ∃ i', infos_timestamp id t i = Some i' ∧ infos_ready i' ∧
    ∀ n w, infos_has n w i' → infos_has n w i;
  snapshot_law id r dlp i : infos_ready i →
    infos_ready (infos_snapshot id r dlp i) ∧
    ∀ n w, infos_has n w (infos_snapshot id r dlp i) → infos_has n w i;
  uninstall_law b u i : infos_ready i →
    infos_ready (infos_uninstall b u i).2 ∧ ∀ n w, infos_has n w (infos_uninstall b u i).2 → infos_has n w i;
  get_law id i x : infos_get id i = Some x → infos_has (missionName x) (mi_want (missionInfo x)) i;
}.

(** * The implementation *)

Section implementation.
Context {S PixelMap H : Type} `{!MissionStore S PixelMap}.
Context (GetSnapshot : H → RRef → Z * option PixelMap).

#[local] Abbreviation mgr := (MissionInfoMgr S H).

(** The loop of [GenerateMissionId] ends before it has gone through the map. *)
Definition generate_id (m : mgr) : option Z * mgr :=
  match GenerateMissionId (Datatypes.S (size (missionIdMap_ m))) m with
  | Returned r => r
  | _ => (None, m)
  end.

Definition private_snapshot (isDlp : bool) : MissionSnapshot PixelMap :=
  mkSnapshot emptyElement None isDlp.

#[export] Instance MissionInfoMgr_infos : MissionInfos mgr := {|
  infos_generate := generate_id;
  infos_add x m := snd <$> AddMissionInfo x m;
  infos_update x m := snd <$> UpdateMissionInfo x m;
  infos_delete id m := snd (DeleteMissionInfo id m);
  infos_delete_all m := let '(_, m', ids) := DeleteAllMissionInfos true m in (m', ids);
  infos_get := GetInnerMissionInfoById;
  infos_find_singleton := FindReusedSingletonMission;
  infos_timestamp := UpdateMissionTimeStamp;
  infos_snapshot id r isDlp m := snd (UpdateMissionSnapshot GetSnapshot id r (private_snapshot isDlp) m);
  infos_uninstall bundleName uid m := HandleUnInstallApp bundleName uid [] m;
|}.

(** The call really returns. *)
Lemma generate_id_returns (m : mgr) :
  GenerateMissionId (Datatypes.S (size (missionIdMap_ m))) m = Returned (generate_id m).
Proof.
  unfold generate_id, GenerateMissionId.
  set (cur := if currentMisionId_ m =? MAX_MISSION_ID then MIN_MISSION_ID else currentMisionId_ m).
  destruct (free_id_returns (Datatypes.S (size (missionIdMap_ m))) cur (missionIdMap_ m)) as [r ->].
  - apply Nat.lt_succ_r. rewrite <- size_dom. apply subseteq_size.
    intros x. by intros [_ ?]%elem_of_filter.
  - cbn. by destruct r.
Qed.

Definition store_ready (m : mgr) : Prop := is_Some (taskDataPersistenceMgr_ m).
Definition list_has (n : string) (w : Want) (l : list InnerMissionInfo) : Prop :=
  ∃ i, i ∈ l ∧ missionName i = n ∧ mi_want (missionInfo i) = w.
Definition stored (n : string) (w : Want) (m : mgr) : Prop := list_has n w (missionInfoList_ m).

Lemma list_has_incl n w l1 l2 : (∀ i, i ∈ l1 → i ∈ l2) → list_has n w l1 → list_has n w l2.
Proof. intros Hi (i & ? & ?). exists i. auto. Qed.

Lemma list_has_new n w x l1 l2 :
  (∀ i, i ∈ l1 → i = x ∨ i ∈ l2) → list_has n w l1 →
  list_has n w l2 ∨ n = missionName x ∧ w = mi_want (missionInfo x).
Proof. intros Hi (i & Hin & <- & <-). destruct (Hi i Hin) as [->|?]; [by right|left]. by exists i. Qed.

Lemma AddMissionInfo_stored x m :
  store_ready m → ∃ b m', AddMissionInfo x m = Some (b, m') ∧ store_ready m' ∧
    ∀ i, i ∈ missionInfoList_ m' → i = x ∨ i ∈ missionInfoList_ m.
Proof.
  intros [s Hs]. unfold AddMissionInfo. destruct (default _ _); [exists false, m; split_and!; [done|by exists s|tauto]|].
  rewrite Hs. cbn [mbind option_bind]. destruct (store_save x s) as [[] s'].
  - eexists _, _. split; [done|]. split; [by exists s'|]. intros i. cbn. by rewrite elem_of_insert_before.
  - eexists _, _. split; [done|]. split; [by exists s'|]. tauto.
Qed.

Lemma UpdateMissionInfo_stored x m :
  store_ready m → ∃ b m', UpdateMissionInfo x m = Some (b, m') ∧ store_ready m' ∧
    ∀ i, i ∈ missionInfoList_ m' → i = x ∨ i ∈ missionInfoList_ m.
Proof.
  intros Hm. pose proof Hm as [s Hs]. unfold UpdateMissionInfo.
  destruct (negb _); [exists false, m; split_and!; [done..|tauto]|].
  destruct (List.find _ _) as [old|]; [|exists false, m; split_and!; [done..|tauto]].
  destruct (decide _).
  - rewrite Hs. cbn [mbind option_bind]. destruct (store_save x s) as [ok s'].
    eexists _, _. split; [done|]. split; [by exists s'|]. intros i. cbn. apply elem_of_replace_first.
  - destruct (AddMissionInfo_stored x (erase_info (info_id x) m)) as (b & m' & -> & Hr & Hin); [by exists s|].
    eexists _, _. split; [done|]. split; [done|]. intros i Hi. destruct (Hin i Hi) as [?|Hi']; [by left|right].
    cbn in Hi'. by eapply elem_of_erase_first.
Qed.

Lemma DeleteMissionInfo_stored id m :
  store_ready m → store_ready (snd (DeleteMissionInfo id m)) ∧
    ∀ i, i ∈ missionInfoList_ (snd (DeleteMissionInfo id m)) → i ∈ missionInfoList_ m.
Proof.
  intros Hm. pose proof Hm as [s Hs]. unfold DeleteMissionInfo.
  destruct (missionIdMap_ m !! id) as [[]|]; [|done|done].
  rewrite Hs. destruct (store_delete id s) as [[] s']; cbn; (split; [by exists s'|]); [|done].
  intros i. apply elem_of_erase_first.
Qed.

Lemma HandleUnInstallApp_stored b u m :
  store_ready m → store_ready (snd (HandleUnInstallApp b u [] m)) ∧
    ∀ i, i ∈ missionInfoList_ (snd (HandleUnInstallApp b u [] m)) → i ∈ missionInfoList_ m.
Proof.
  unfold HandleUnInstallApp. cbn [snd]. generalize (GetMatchedMission b u [] m). intros ids.
  revert m. induction ids as [|id ids IH]; intros m Hm; [done|]. cbn [foldl].
  destruct (DeleteMissionInfo_stored id m Hm) as [Hm' Hin]. destruct (IH _ Hm') as [Hr Hin'].
  split; [done|]. intros i Hi. by apply Hin, Hin'.
Qed.

Lemma DeleteAllMissionInfos_stored m :
  store_ready m → store_ready (infos_delete_all m).1 ∧
    ∀ i, i ∈ missionInfoList_ (infos_delete_all m).1 → i ∈ missionInfoList_ m.
Proof.
  intros Hm. pose proof Hm as [s Hs]. cbn. unfold DeleteAllMissionInfos. rewrite Hs.
  pose proof (delete_unlocked_spec (missionInfoList_ m) (missionIdMap_ m) s) as Hspec.
  destruct (delete_unlocked _ _ _) as [[[kept mp] s'] notified]. destruct Hspec as (-> & _ & _).
  cbn. split; [by exists s'|]. intros i. by intros [_ ?]%list_elem_of_filter.
Qed.

Lemma UpdateMissionSnapshot_stored id r snap m :
  store_ready m → store_ready (snd (UpdateMissionSnapshot GetSnapshot id r snap m)) ∧
    missionInfoList_ (snd (UpdateMissionSnapshot GetSnapshot id r snap m)) = missionInfoList_ m.
Proof.
  intros Hm. pose proof Hm as [s Hs]. unfold UpdateMissionSnapshot.
  destruct (List.find _ _), (snapshotHandler_ m) as [h|]; try done.
  destruct (GetSnapshot h r) as [res p]. destruct (negb _); [done|]. rewrite Hs.
  destruct (store_save_snapshot _ _ _) as [ok s']. cbn. split; [by exists s'|done].
Qed.

Lemma UpdateMissionTimeStamp_stored id t m :
  store_ready m → ∃ m', UpdateMissionTimeStamp id t m = Some m' ∧ store_ready m' ∧
    ∀ n w, stored n w m' → stored n w m.
Proof.
  intros Hm. unfold UpdateMissionTimeStamp. destruct (List.find _ _) as [i|] eqn:Hf; [|by exists m].
  destruct (decide _) as [|Hne]; [by exists m|].
  destruct (AddMissionInfo_stored (set_time t i) (erase_info id m)) as (b & m' & -> & Hr & Hin); [done|].
  exists m'. split_and!; [done|done|]. intros n w Hn.
  destruct (list_has_new n w _ _ _ Hin Hn) as [Hn'|[-> ->]].
  - eapply list_has_incl; [|exact Hn']. intros j. apply elem_of_erase_first.
  - apply find_Some_elem in Hf as [Hf _]. by exists i.
Qed.

#[export] Instance MissionInfoMgr_laws : MissionInfosLaws mgr.
Proof.
  refine {| infos_ready := store_ready; infos_has := stored |}.
  - intros m Hm. pose proof (generate_id_returns m) as Hg. cbn [infos_generate MissionInfoMgr_infos].
    unfold GenerateMissionId in Hg. destruct (free_id _ _ _) as [[k|]| |]; cbn in Hg; try done; injection Hg as <-; done.
  - intros x m Hm. destruct (AddMissionInfo_stored x m Hm) as (b & m' & Ha & Hr & Hin).
    exists m'. cbn. rewrite Ha. split_and!; [done..|]. intros n w. by apply list_has_new.
  - intros x m Hm. destruct (UpdateMissionInfo_stored x m Hm) as (b & m' & Ha & Hr & Hin).
    exists m'. cbn. rewrite Ha. split_and!; [done..|]. intros n w. by apply list_has_new.
  - intros id m Hm. destruct (DeleteMissionInfo_stored id m Hm) as [Hr Hin]. split; [done|].
    intros n w. by apply list_has_incl.
  - intros m Hm. destruct (DeleteAllMissionInfos_stored m Hm) as [Hr Hin]. split; [done|].
    intros n w. by apply list_has_incl.
  - intros id t m Hm. by apply UpdateMissionTimeStamp_stored.
  - intros id r dlp m Hm. destruct (UpdateMissionSnapshot_stored id r (private_snapshot dlp) m Hm) as [Hr Hl].
    split; [done|]. intros n w. cbn. unfold stored. by rewrite Hl.
  - intros b u m Hm. destruct (HandleUnInstallApp_stored b u m Hm) as [Hr Hin]. split; [done|].
    intros n w. by apply list_has_incl.
  - intros id m x. cbn. unfold GetInnerMissionInfoById. destruct (missionIdMap_ m !! id); [|done].
    intros [Hx _]%find_Some_elem. by exists x.
Defined.
End implementation.
