(* ===== verification/MissionListManager.v ===== *)
(** [MissionListManager] (services/abilitymgr/src/mission_list_manager.cpp): the
    manager of one user's missions. Its operations start abilities, bring
    missions to the front, follow the abilities through their life cycle and
    terminate them. The lists themselves are in [MissionMoves]; the persistent
    infos are reached through the class [MissionInfos] of [InfosInterface].

    The recursive mutex makes an operation atomic. Closures posted to the event
    handler are operations of their own that the environment may run at any
    time. The blocks under SUPPORT_GRAPHICS, which show starting windows, and the
    dumps are left out. *)

From S2P Require Import Prelude CppString Want MissionData MissionInfo CallContainer.
From S2P Require Import AbilityRecord MissionList MissionMoves InfosInterface.
From Stdlib Require Import Ascii.

#[local] Open Scope stdpp_scope.
#[local] Open Scope Z_scope.

Implicit Types (s : Store) (l : LRef) (m : MRef) (r : RRef).

(** * State *)

Record MLM (I : Type) := mkMLM {
  mlm_store : Store;
  waittingAbilityQueue_ : list AbilityRequest;
  mlm_infos : I;
  listenerController_ : bool;
  mlm_userId : Z;
  mlm_now : string;          (* what GetCurrentTime answers *)
}.
Arguments mkMLM {_} _ _ _ _ _ _.
Arguments mlm_store {_} _.
Arguments waittingAbilityQueue_ {_} _.
Arguments mlm_infos {_} _.
Arguments listenerController_ {_} _.
Arguments mlm_userId {_} _.
Arguments mlm_now {_} _.

#[export] Instance MLM_eta I : Eta (MLM I) := λ g,
  mkMLM (mlm_store g) (waittingAbilityQueue_ g) (mlm_infos g) (listenerController_ g)
    (mlm_userId g) (mlm_now g).

Definition LAUNCHER_BUNDLE_NAME : string := "com.ohos.launcher".
Definition LAUNCHER_RECENT_ABILITY_NAME : string := "com.ohos.launcher.recents.MainAbility".

Definition CallType2StartMethod (t : AbilityCallType) : Z :=
  match t with INVALID_TYPE => START_NORMAL | CALL_REQUEST_TYPE => START_CALL end.

(** Called with a start method in place of a call type. *)
Definition CallTypeFilter (callType : Z) : bool := callType =? 1.

Section manager.
Context {I : Type} `{!MissionInfos I}.

(** Answers of the application manager by record, of the abilities' schedulers
    to [CallRequest], of the bundle manager about a want, and of
    [JudgeAbilityVisibleControl]; the value left in an uninitialised field. *)
Context (app_load app_terminate : RRef → Z) (callee : RRef → option Z).
Context (GenerateAbilityRequest : Want → option AbilityRequest).
Context (JudgeAbilityVisibleControl : AbilityInfo → ErrCode).
Context (restartMax : Z) (indeterminate_locked : bool).

#[local] Abbreviation M A := (ST (MLM I) A).

Definition st {A} (c : ST Store A) : M A := λ g,
  match c (mlm_store g) with
  | Returned (a, s) => Returned (a, g <| mlm_store := s |>)
  | Thrown => Thrown
  | OutOfFuel => OutOfFuel
  end.

Definition store : M Store := gets mlm_store.
Definition infos : M I := gets mlm_infos.
Definition set_infos (i : I) : M unit := modify (λ g, g <| mlm_infos := i |>).
Definition with_infos (f : I → I) : M unit := modify (λ g, g <| mlm_infos ::= f |>).

(** An operation of the infos that may dereference a null persistence manager. *)
Definition try_infos (f : I → option I) : M unit :=
  i ← infos; i' ← deref (f i); set_infos i'.

(** A notification, when there is a listener controller. *)
Definition notify (e : Effect) : M unit :=
  listener ← gets listenerController_;
  if listener : bool then st (emit e) else mret tt.

Definition post (t : Task) : M unit := st (emit (PostTask t None)).

Definition set_inner (f : MissionInfo → MissionInfo) (i : InnerMissionInfo) : InnerMissionInfo :=
  update_info f i.

(** The common read-modify-write of an inner mission info; nothing when the
    mission has none. *)
Definition update_inner (missionId : Z) (f : InnerMissionInfo → InnerMissionInfo) : M unit :=
  i ← infos;
  match infos_get missionId i with
  | Some info => try_infos (infos_update (f info))
  | None => mret tt
  end.

(** [Init] for a user; [i] are the infos [MissionInfoMgr::Init] loaded. *)
Definition Init (userId : Z) (now : string) (i : I) : MLM I :=
  mkMLM init_store [] i true userId now.

(** * Queue *)

Definition EnqueueWaittingAbility (q : AbilityRequest) : M unit :=
  modify (λ g, g <| waittingAbilityQueue_ ::= λ w, w ++ [q] |>).

(** The loop pushes the old queue behind the request. *)
Fixpoint push_all (from to_ : list AbilityRequest) : list AbilityRequest :=
  match from with [] => to_ | q :: from' => push_all from' (to_ ++ [q]) end.

Definition EnqueueWaittingAbilityToFront (q : AbilityRequest) : M unit :=
  modify (λ g, g <| waittingAbilityQueue_ ::= λ w, push_all w [q] |>).

(** * Starting abilities *)

(** Local shared pointers keep their records alive while code runs. *)
Definition holding {A} (rs : list RRef) (c : M A) : M A :=
  s ← store;
  _ ← st (modify (λ s, s <| st_heldRecords ::= app rs |>));
  a ← c;
  _ ← st (modify (λ s', s' <| st_heldRecords := st_heldRecords s |>));
  mret a.

(** The fields of the mission info that a start sets; [base] is the info found
    for reuse, or a fresh object. *)
Definition fill_info (q : AbilityRequest) (missionName : string) (isSingleton : bool)
    (method : Z) (now : string) (base : InnerMissionInfo) : InnerMissionInfo :=
  let b := missionInfo base in
  mkInner (mkMissionInfo (mi_id b) 0 (mi_lockedState b) (ai_continuable (rq_info q)) now
             (mi_label b) (app_iconPath (rq_app q)) (rq_want q))
    missionName isSingleton method (ai_bundleName (rq_info q)) (rq_uid q).

Definition fresh_info : InnerMissionInfo :=
  mkInner (mkMissionInfo (-1) (-1) indeterminate_locked false "" "" "" emptyWant)
    "" false 0 "" 0.

Definition set_id (id : Z) (i : InnerMissionInfo) : InnerMissionInfo :=
  update_info (λ b, mkMissionInfo id (mi_runningState b) (mi_lockedState b) (mi_continuable b)
    (mi_time b) (mi_label b) (mi_iconPath b) (mi_want b)) i.

(** The second half of [GetTargetMissionAndAbility], from "no reused mission";
    [reused] is the call-started mission to update, if any. *)
Definition create_or_update (q : AbilityRequest) (method : Z) (reused : option MRef)
    : M (option MRef * option RRef * bool) :=
  let isSingleton := bool_decide (ai_launchMode (rq_info q) = SINGLETON) in
  let missionName :=
    if isSingleton then
      ConvertBundleNameSingleton (ai_bundleName (rq_info q)) (ai_name (rq_info q))
        (ai_moduleName (rq_info q))
    else ai_bundleName (rq_info q) in
  i ← infos;
  now ← gets mlm_now;
  userId ← gets mlm_userId;
  s ← store;
  let found :=
    if isSingleton && negb (ai_isLauncherApp (rq_info q)) then infos_find_singleton missionName i
    else None in
  let reusedInfo := info ← found; if 0 <? info_id info then Some info else None in
  let info := fill_info q missionName isSingleton method now (default fresh_info found) in
  idOk ← match reusedInfo with
         | Some _ => mret (Some info)
         | None =>
             let '(id, i') := infos_generate i in
             _ ← set_infos i';
             mret (id ← id; Some (set_id id (set_label (app_label (rq_app q)) info)))
         end;
  match idOk with
  | None => mret (reused, m ← reused; record_of s m, false)
  | Some info =>
      target ← match reused with
        | None =>
            '(m, r) ← st (make_mission restartMax userId q (info_id info) method missionName);
            mret (m, Some r, true)
        | Some m =>
            _ ← st (upd_mission m (λ ms, snd (UpdateMissionId (info_id info) method ms)));
            mret (m, record_of s m, false)
        end;
      let '(m, r, isCold) := (target : MRef * option RRef * bool) in
      _ ← (if decide (ai_launchMode (rq_info q) = SPECIFIED) then
             r' ← deref r;
             st (upd_record r' (λ a, a <| r_specifiedFlag := rq_specifiedFlag q |>))
           else mret tt);
      _ ← (if ai_isLauncherApp (rq_info q) then mret tt
           else match reusedInfo with
                | Some _ => try_infos (infos_update info)
                | None =>
                    _ ← try_infos (infos_add info);
                    notify (NotifyMissionCreated (info_id info))
                end);
      mret (Some m, r, isCold)
  end.

Definition GetTargetMissionAndAbility (q : AbilityRequest) : M (option MRef * option RRef * bool) :=
  let method := CallType2StartMethod (rq_callType q) in
  s ← store;
  match GetReusedMission s q with
  | None => create_or_update q method None
  | Some m =>
      ms ← st (the_mission m);
      _ ← match m_abilityRecord ms with
          | Some r => st (upd_record r (λ a, a <| r_want := rq_want q |> <| r_isNewWant := true |>))
          | None => mret tt
          end;
      if negb (IsStartByCall ms && negb (CallTypeFilter method)) then
        mret (Some m, m_abilityRecord ms, false)
      else create_or_update q method (Some m)
  end.

Definition isLauncherRecord (s : Store) (r : option RRef) : bool :=
  match (r ← r; st_records s !! r) with Some a => r_isLauncherAbility a | None => false end.

Definition StartAbilityLocked (currentTop caller : option RRef) (q : AbilityRequest) : M ErrCode :=
  holding (option_list currentTop ++ option_list caller) (
    target ← st (GetTargetMissionListForStart caller q);
    match target with
    | None => mret CREATE_MISSION_STACK_FAILED
    | Some targetList =>
        t ← GetTargetMissionAndAbility q;
        match t with
        | (Some m, Some r, _) =>
            _ ← st (upd_record r (λ a, a <| r_launchReason :=
                   if IsContinuation q then LAUNCHREASON_CONTINUATION
                   else LAUNCHREASON_START_ABILITY |>));
            _ ← st (AddCallerRecord r (rq_callerToken q) (rq_requestCode q));
            s ← store;
            _ ← st (MoveMissionToTargetList (isLauncherRecord s caller) targetList m);
            _ ← st (MoveMissionListToTop targetList);
            match currentTop with
            | None =>
                a ← st (the_record r);
                _ ← (if ai_isLauncherApp (r_info a)
                     then st (upd_record r (λ a, a <| r_isLauncherRoot := true |>)) else mret tt);
                st (LoadAbility app_load r)
            | Some _ => _ ← st (ProcessForegroundAbility app_load r 0); mret ERR_OK
            end
        | _ => mret ERR_INVALID_VALUE
        end
    end).

(** [StartAbility] of three arguments. *)
Definition StartAbilityFrom (currentTop caller : option RRef) (q : AbilityRequest) : M ErrCode :=
  if decide (ai_launchMode (rq_info q) = SPECIFIED) then
    _ ← EnqueueWaittingAbilityToFront q;
    _ ← st (emit (AppStartSpecifiedAbility (rq_want q) (rq_info q)));
    mret ERR_OK
  else StartAbilityLocked currentTop caller q.

Definition StartAbility (q : AbilityRequest) : M ErrCode :=
  s ← store;
  let currentTop := GetCurrentTopAbility s in
  topState ← match currentTop with
             | Some r => a ← st (the_record r); mret (Some (r_state a))
             | None => mret None
             end;
  if decide (topState = Some FOREGROUNDING) then
    _ ← EnqueueWaittingAbility q; mret START_ABILITY_WAITING
  else StartAbilityFrom currentTop (GetAbilityRecordByToken s (rq_callerToken q)) q.

Definition StartWaittingAbility : M unit :=
  s ← store;
  match GetCurrentTopAbility s with
  | None => mret tt
  | Some top =>
      a ← st (the_record top);
      if negb (IsAbilityState FOREGROUND a) then mret tt
      else
        w ← gets waittingAbilityQueue_;
        match w with
        | [] => mret tt
        | q :: w' =>
            _ ← modify (λ g, g <| waittingAbilityQueue_ := w' |>);
            _ ← StartAbilityFrom (Some top) (GetAbilityRecordByToken s (rq_callerToken q)) q;
            mret tt
        end
  end.

(** * Foreground *)

(** [GetTargetMissionList] by mission id: the list the mission is to go to, the
    mission, and whether it was created for that. *)
Definition GetTargetMissionListById (missionId : Z) : M (option LRef * option MRef * bool) :=
  s ← store;
  match GetMissionById s missionId with
  | Some m =>
      match GetMissionList s m with
      | None => mret (None, Some m, false)
      | Some l =>
          match GetType s l with
          | LAUNCHER => mret (None, Some m, false)
          | CURRENT => mret (Some l, Some m, false)
          | DEFAULT_STANDARD | DEFAULT_SINGLE =>
              l' ← st (new_list CURRENT); mret (Some l', Some m, false)
          end
      end
  | None =>
      i ← infos;
      match infos_get missionId i with
      | None => mret (None, None, false)
      | Some info =>
          match GenerateAbilityRequest (mi_want (missionInfo info)) with
          | None => mret (None, None, false)
          | Some q =>
              userId ← gets mlm_userId;
              '(m, r) ← st (make_mission restartMax userId q (info_id info) START_NORMAL
                              (missionName info));
              l' ← st (new_list CURRENT);
              listener ← gets listenerController_;
              _ ← deref (if listener : bool then Some tt else None);
              _ ← st (emit (NotifyMissionCreated (info_id info)));
              mret (Some l', Some m, true)
          end
      end
  end.

(** [windowMode] is the one of the start options, when there are any. *)
Definition MoveMissionToFront (missionId : Z) (isCallerFromLauncher : bool)
    (windowMode : option Z) : M ErrCode :=
  t ← GetTargetMissionListById missionId;
  match t with
  | (Some target, Some m, _) =>
      _ ← st (MoveMissionToTargetList isCallerFromLauncher target m);
      _ ← st (MoveMissionListToTop target);
      ms ← st (the_mission m);
      match m_abilityRecord ms with
      | None => mret MOVE_MISSION_FAILED
      | Some r =>
          _ ← st (upd_record r (λ a,
                 let a := RemoveWindowMode a in
                 match windowMode with Some w => SetWindowMode w a | None => a end));
          _ ← st (ProcessForegroundAbility app_load r 0);
          _ ← st (upd_mission m (λ ms, ms <| m_isMovingToFront := true |>));
          mret ERR_OK
      end
  | _ => mret MOVE_MISSION_FAILED
  end.

Definition UpdateMissionSnapshot (r : RRef) : M unit :=
  a ← st (the_record r);
  _ ← with_infos (infos_snapshot (r_missionId a) r (r_isDlp a));
  notify (NotifyMissionSnapshotChanged (r_missionId a)).

Definition MoveToBackgroundTask (r : RRef) : M unit :=
  _ ← st (upd_record r (λ a, a <| r_isNewWant := false |>));
  _ ← UpdateMissionSnapshot r;
  st (BackgroundAbility r).

Definition UpdateMissionTimeStamp (r : RRef) : M unit :=
  s ← store;
  a ← st (the_record r);
  match lock_mission s (r_mission a) with
  | None => mret tt
  | Some m =>
      ms ← st (the_mission m);
      now ← gets mlm_now;
      try_infos (infos_timestamp (m_missionId ms) now)
  end.

Definition MinimizeAbility (token : option RRef) (fromUser : bool) : M ErrCode :=
  s ← store;
  match GetAbilityRecordByToken s token with
  | None => mret INNER_ERR
  | Some r =>
      a ← st (the_record r);
      if IsForeground a then
        _ ← st (upd_record r (λ a, a <| r_minimizeReason := fromUser |>));
        _ ← MoveToBackgroundTask r;
        _ ← UpdateMissionTimeStamp r;
        mret ERR_OK
      else mret ERR_OK
  end.

Definition AttachAbilityThread (schedulerNotNull : bool) (token : option RRef) : M ErrCode :=
  s ← store;
  match GetAbilityRecordByToken s token with
  | None => mret ERR_INVALID_VALUE
  | Some r =>
      a ← st (the_record r);
      _ ← st (emit (RemoveTimeoutEvent LOAD_TIMEOUT_MSG (r_eventId a)));
      _ ← st (upd_record r (SetScheduler schedulerNotNull));
      if r_isStartedByCall a then
        _ ← st (upd_record r (λ a, a <| r_isStartToBackground := true |>));
        _ ← MoveToBackgroundTask r;
        mret ERR_OK
      else
        _ ← (if IsNeedToCallRequest (r_callContainer a)
             then _ ← st (RecordCallRequest callee r); mret tt else mret tt);
        _ ← st (emit (AppMoveToForeground r));
        mret ERR_OK
  end.

(** The application manager reports that the ability's process is ready to show it. *)
Definition OnAbilityRequestDone (token : option RRef) (state : AppState) : M unit :=
  if decide (state = APP_FOREGROUND) then
    s ← store;
    match GetAbilityRecordByToken s token with
    | None => mret tt
    | Some r => st (ForegroundAbility r)
    end
  else mret tt.

(** * Life cycle *)

(** [enum AbilityLifeCycleState] and its conversion; [None] is the invalid
    value. *)
Inductive AbilityLifeCycleState :=
  | ABILITY_STATE_INITIAL | ABILITY_STATE_INACTIVE | ABILITY_STATE_ACTIVE
  | ABILITY_STATE_BACKGROUND | ABILITY_STATE_STARTED_NEW | ABILITY_STATE_FOREGROUND_NEW
  | ABILITY_STATE_BACKGROUND_NEW | ABILITY_STATE_STOPED_NEW.

Definition ConvertLifeCycleToAbilityState (x : AbilityLifeCycleState) : option AbilityState :=
  match x with
  | ABILITY_STATE_INITIAL => Some INITIAL
  | ABILITY_STATE_INACTIVE => Some INACTIVE
  | ABILITY_STATE_ACTIVE => Some ACTIVE
  | ABILITY_STATE_FOREGROUND_NEW => Some FOREGROUND
  | ABILITY_STATE_BACKGROUND_NEW => Some BACKGROUND
  | _ => None
  end.

Definition DispatchForegroundNew (r : RRef) : M ErrCode :=
  a ← st (the_record r);
  if negb (IsAbilityState FOREGROUNDING a) then mret ERR_INVALID_VALUE
  else
    _ ← st (emit (RemoveTimeoutEvent FOREGROUNDNEW_TIMEOUT_MSG (r_eventId a)));
    _ ← post (TaskCompleteForegroundNew r);
    mret ERR_OK.

Definition DispatchBackground (r : RRef) : M ErrCode :=
  a ← st (the_record r);
  if negb (IsAbilityState BACKGROUNDING a) then mret ERR_INVALID_VALUE
  else
    _ ← st (emit (RemoveTask (r_eventId a)));
    _ ← post (TaskCompleteBackground r);
    mret ERR_OK.

Definition DispatchTerminate (r : RRef) : M ErrCode :=
  a ← st (the_record r);
  if negb (IsAbilityState TERMINATING a) then mret INNER_ERR
  else
    _ ← st (emit (RemoveTask (r_eventId a)));
    _ ← post (TaskCompleteTerminate r);
    mret ERR_OK.

Definition DispatchState (r : RRef) (state : option AbilityState) : M ErrCode :=
  match state with
  | Some INITIAL => DispatchTerminate r
  | Some BACKGROUND => DispatchBackground r
  | Some FOREGROUND => DispatchForegroundNew r
  | _ => mret ERR_INVALID_VALUE
  end.

(** The ability reports a finished transition; the state data it saves is not
    part of the model. *)
Definition AbilityTransactionDone (token : option RRef) (state : AbilityLifeCycleState) : M ErrCode :=
  s ← store;
  match (match GetAbilityFromTerminateList s token with
         | Some r => Some r
         | None => GetAbilityRecordByToken s token
         end) with
  | None => mret ERR_INVALID_VALUE
  | Some r => DispatchState r (ConvertLifeCycleToAbilityState state)
  end.

Definition CompleteForegroundNew (r : RRef) : M unit :=
  _ ← st (upd_record r RemoveWindowMode);
  _ ← st (upd_record r (SetAbilityState FOREGROUND));
  a ← st (the_record r);
  _ ← st (emit (NotifyBmsAbilityLifeStatus (ai_bundleName (r_info a)) (ai_name (r_info a))));
  s ← store;
  _ ← match lock_mission s (r_mission a) with
      | None => mret tt
      | Some m =>
          ms ← st (the_mission m);
          now ← gets mlm_now;
          _ ← update_inner (m_missionId ms) (λ info, set_time now (set_runningState 0 info));
          if m_isMovingToFront ms then
            _ ← st (upd_mission m (λ ms, ms <| m_isMovingToFront := false |>));
            notify (NotifyMissionMovedToFront (m_missionId ms))
          else mret tt
      end;
  post TaskStartWaittingAbility.

Definition CompleteBackground (r : RRef) : M unit :=
  a ← st (the_record r);
  if negb (IsAbilityState BACKGROUNDING a) then mret tt
  else
    _ ← st (upd_record r (SetAbilityState BACKGROUND));
    _ ← st (emit (AppMoveToBackground r));
    if r_isSwitchingPause a then st (upd_record r (λ a, a <| r_isSwitchingPause := false |>))
    else
      s ← store;
      _ ← for_each (λ t,
            ta ← st (the_record t);
            if IsAbilityState BACKGROUND ta then st (Terminate t) else mret tt)
            (st_terminateAbilityList s);
      a ← st (the_record r);
      if r_isStartedByCall a && r_isStartToBackground a && r_isReady a then
        _ ← st (RecordCallRequest callee r);
        st (upd_record r (λ a, a <| r_isStartToBackground := false |>))
      else mret tt.

(** * Termination *)

(** The record the list would show next: steps 4 and 5 of
    [RemoveTerminatingAbility]. *)
Definition next_top (s : Store) (l : LRef) : option RRef :=
  top ← (if IsEmpty s l then GetCurrentTopAbility s else GetTopAbility s l);
  a ← st_records s !! top;
  if bool_decide (el_bundleName (GetElement (r_want a)) = LAUNCHER_BUNDLE_NAME) &&
     bool_decide (el_abilityName (GetElement (r_want a)) = LAUNCHER_RECENT_ABILITY_NAME)
  then ListGetLauncherRoot s (st_launcherList s) else Some top.

Definition RemoveTerminatingAbility (r : RRef) (flag : bool) : M unit :=
  s ← store;
  match GetAbilityFromTerminateList s (Some r) with
  | Some _ => st (upd_record r (λ a, a <| r_nextAbility := None |>))
  | None =>
      a ← st (the_record r);
      match lock_list s (r_missionList a) with
      | None => mret tt
      | Some l =>
          _ ← st (RemoveMissionByAbilityRecord l r);
          _ ← st (emit (AppPrepareTerminate r));
          _ ← st (modify (λ s, s <| st_terminateAbilityList ::= λ t, t ++ [r] |>));
          s1 ← store;
          _ ← (if IsEmpty s1 l then st (RemoveMissionList l) else mret tt);
          _ ← st (upd_record r (λ a, a <| r_nextAbility := None |>));
          if negb (IsForeground a) || negb flag then mret tt
          else
            s2 ← store;
            match next_top s2 l with
            | None => mret tt
            | Some n =>
                na ← st (the_record n);
                if negb (IsForeground na) && negb (r_minimizeReason na)
                then st (upd_record r (λ a, a <| r_nextAbility := Some n |>)) else mret tt
            end
      end
  end.

Definition TerminateAbilityLocked (r : RRef) (flag : bool) : M ErrCode :=
  _ ← RemoveTerminatingAbility r flag;
  _ ← st (SendResultToCallers r);
  a ← st (the_record r);
  s ← store;
  if IsForeground a then
    _ ← match lock_record s (r_nextAbility a) with
        | Some n => st (ProcessForegroundAbility app_load n 0)
        | None => MoveToBackgroundTask r
        end;
    mret ERR_OK
  else if IsAbilityState BACKGROUND a then
    _ ← st (Terminate r); mret ERR_OK
  else mret ERR_OK.

Definition TerminateAbility (r : RRef) (resultCode : Z) (resultWant : option Want) (flag : bool)
    : M ErrCode :=
  a ← st (the_record r);
  s ← store;
  if r_isTerminating a && negb (IsForeground a) then mret ERR_OK
  else
    let flag := if r_isTerminating a && IsForeground a then false else flag in
    match GetAbilityRecordByToken s (Some r) with
    | None => mret ERR_OK
    | Some _ =>
        _ ← st (upd_record r (λ a, a <| r_isTerminating := true |>));
        _ ← match resultWant with
            | Some w => st (SaveResultToCallers r resultCode w)
            | None => mret tt
            end;
        TerminateAbilityLocked r flag
    end.

Definition TerminateAbilityByCaller (caller : option RRef) (requestCode : Z) : M ErrCode :=
  t ← st (GetAbilityRecordByCaller caller requestCode);
  match t with
  | None => mret NO_FOUND_ABILITY_BY_CALLER
  | Some r =>
      a ← st (the_record r);
      let result := JudgeAbilityVisibleControl (r_info a) in
      if decide (result = ERR_OK) then TerminateAbility r (-1) None true else mret result
  end.

Definition RemoveMissionLocked (missionId : Z) : M unit :=
  if missionId <=? 0 then mret tt
  else
    _ ← with_infos (infos_delete missionId);
    notify (NotifyMissionDestroyed missionId).

Definition CompleteTerminateAndUpdateMission (r : RRef) : M unit :=
  s ← store;
  if decide (r ∈ st_terminateAbilityList s) then
    _ ← st (modify (λ s, s <| st_terminateAbilityList ::= list_remove_all r |>));
    a ← st (the_record r);
    if r_isDlp a || ai_removeMissionAfterTerminate (r_info a) then RemoveMissionLocked (r_missionId a)
    else
      now ← gets mlm_now;
      update_inner (r_missionId a) (λ info, set_time now (set_runningState (-1) info))
  else mret tt.

Definition CompleteTerminate (r : RRef) : M unit :=
  a ← st (the_record r);
  if negb (IsAbilityState TERMINATING a) then mret tt
  else
    _ ← st (RecordTerminateAbility app_terminate r);
    CompleteTerminateAndUpdateMission r.

Definition ClearMissionLocked (missionId : Z) (m : option MRef) : M ErrCode :=
  _ ← (if missionId =? -1 then mret tt
       else
         _ ← with_infos (infos_delete missionId);
         notify (NotifyMissionDestroyed missionId));
  match m with
  | None => mret ERR_OK
  | Some m =>
      ms ← st (the_mission m);
      match m_abilityRecord ms with
      | None => mret ERR_OK
      | Some r =>
          a ← st (the_record r);
          if r_isTerminating a then mret ERR_OK
          else
            _ ← st (upd_record r (λ a, a <| r_isTerminating := true |>));
            ret ← TerminateAbilityLocked r false;
            mret (if decide (ret = ERR_OK) then ERR_OK else REMOVE_MISSION_FAILED)
      end
  end.

Definition ClearMission (missionId : Z) : M ErrCode :=
  if missionId <? 0 then mret ERR_INVALID_VALUE
  else
    s ← store;
    let m := GetMissionById s missionId in
    match (m ← m; GetMissionList s m) with
    | Some l =>
        if decide (GetType s l = LAUNCHER) then mret ERR_INVALID_VALUE
        else ClearMissionLocked missionId m
    | None => ClearMissionLocked missionId m
    end.

(** The loop of [ClearAllMissionsLocked]: it answers the foreground missions it
    put aside, the last one first. *)
Fixpoint clear_missions (searchActive : bool) (ms : list MRef) (aside : list MRef)
    : M (list MRef) :=
  match ms with
  | [] => mret aside
  | m :: ms' =>
      s ← store;
      mission ← st (the_mission m);
      if m_lockedState mission then clear_missions searchActive ms' aside
      else if searchActive && match mission_record s m with
                              | Some a => IsActiveState a
                              | None => false
                              end
      then clear_missions searchActive ms' (m :: aside)
      else _ ← ClearMissionLocked (-1) (Some m); clear_missions searchActive ms' aside
  end.

Fixpoint clear_lists (ls : list LRef) (aside : list MRef) : M (list MRef) :=
  match ls with
  | [] => mret aside
  | l :: ls' =>
      s ← store;
      if decide (GetType s l = LAUNCHER) then clear_lists ls' aside
      else aside' ← clear_missions true (missions_of s l) aside; clear_lists ls' aside'
  end.

Definition ClearAllMissions : M ErrCode :=
  i ← infos;
  let '(i', destroyed) := infos_delete_all i in
  _ ← set_infos i';
  _ ← for_each (λ id, notify (NotifyMissionDestroyed id)) destroyed;
  s ← store;
  aside1 ← clear_missions false (missions_of s (st_defaultStandardList s)) [];
  s ← store;
  aside2 ← clear_missions false (missions_of s (st_defaultSingleList s)) aside1;
  s ← store;
  aside3 ← clear_lists (st_currentMissionLists s) aside2;
  _ ← clear_missions false aside3 [];
  mret ERR_OK.

Definition SetMissionLockedState (missionId : Z) (locked : bool) : M ErrCode :=
  if missionId <? 0 then mret MISSION_NOT_FOUND
  else
    s ← store;
    _ ← match GetMissionById s missionId with
        | Some m => st (upd_mission m (λ ms, ms <| m_lockedState := locked |>))
        | None => mret tt
        end;
    i ← infos;
    match infos_get missionId i with
    | None => mret MISSION_NOT_FOUND
    | Some info => _ ← try_infos (infos_update (set_lockedState locked info)); mret ERR_OK
    end.

(** * Timeouts *)

Definition DelayedStartLauncher : M unit := st (emit (PostTask TaskBackToLauncher None)).
Definition DelayedResumeTimeout (caller : RRef) : M unit := st (emit (PostTask (TaskBackToCaller caller) None)).

Definition MoveToTerminateList (r : RRef) : M unit :=
  s ← store;
  a ← st (the_record r);
  match lock_list s (r_missionList a), lock_mission s (r_mission a) with
  | Some l, Some m =>
      ms ← st (the_mission m);
      _ ← st (RemoveMission l m);
      s1 ← store;
      _ ← (if bool_decide (GetType s1 l = CURRENT) && IsEmpty s1 l then st (RemoveMissionList l)
           else mret tt);
      if IsAbilityState INITIAL a then
        update_inner (m_missionId ms) (set_runningState (-1))
      else
        _ ← st (upd_record r (λ a, a <| r_isTerminating := true |>));
        st (modify (λ s, s <| st_terminateAbilityList ::= λ t, t ++ [r] |>))
  | _, _ => mret tt
  end.

Definition HandleTimeoutAndResumeAbility (r : RRef) : M unit :=
  _ ← MoveToTerminateList r;
  _ ← st (emit (AppAttachTimeOut r));
  s ← store;
  a ← st (the_record r);
  match GetCallerRecord s a with
  | None => DelayedStartLauncher
  | Some c =>
      ca ← st (the_record c);
      if bool_decide (ai_type (r_info ca) = SERVICE) || bool_decide (ai_type (r_info ca) = EXTENSION)
         || r_isLauncherAbility a || r_isLauncherAbility ca
      then DelayedStartLauncher else DelayedResumeTimeout c
  end.

Definition HandleLoadTimeout (r : RRef) : M unit :=
  a ← st (the_record r);
  if r_isLauncherAbility a && r_isLauncherRoot a then
    _ ← st (upd_record r (SetRestarting true));
    _ ← st (emit (AppAttachTimeOut r));
    DelayedStartLauncher
  else HandleTimeoutAndResumeAbility r.

Definition HandleForgroundNewTimeout (r : RRef) : M unit :=
  s ← store;
  a ← st (the_record r);
  _ ← match lock_mission s (r_mission a) with
      | Some m => st (upd_mission m (λ ms, ms <| m_isMovingToFront := false |>))
      | None => mret tt
      end;
  if negb (IsAbilityState FOREGROUNDING a) then mret tt
  else if r_isLauncherAbility a && r_isLauncherRoot a then
    _ ← st (emit (AppAttachTimeOut r)); DelayedStartLauncher
  else HandleTimeoutAndResumeAbility r.

Definition OnTimeOut (msg : TimeoutMsg) (eventId : Z) : M unit :=
  t ← st (GetAbilityRecordByEventId eventId);
  match t, msg with
  | Some r, LOAD_TIMEOUT_MSG => HandleLoadTimeout r
  | Some r, INACTIVE_TIMEOUT_MSG | Some r, FOREGROUNDNEW_TIMEOUT_MSG => HandleForgroundNewTimeout r
  | _, _ => mret tt
  end.

Definition BackToCaller (caller : RRef) : M unit :=
  s ← store;
  a ← st (the_record caller);
  if bool_decide (GetCurrentTopAbility s = Some caller) && IsAbilityState FOREGROUND a then mret tt
  else _ ← MoveMissionToFront (r_missionId a) false None; mret tt.

Definition BackToLauncher : M unit :=
  s ← store;
  match ListGetLauncherRoot s (st_launcherList s) with
  | None => mret tt
  | Some r =>
      a ← st (the_record r);
      if negb (bool_decide (ai_bundleName (r_info a) = LAUNCHER_BUNDLE_NAME)) then mret tt
      else
        match lock_mission s (r_mission a) with
        | None => mret tt
        | Some m =>
            _ ← modify (λ g, g <| waittingAbilityQueue_ := [] |>);
            _ ← st (AddMissionToTop (st_launcherList s) m);
            _ ← st (MoveMissionListToTop (st_launcherList s));
            st (ProcessForegroundAbility app_load r 0)
        end
  end.

(** * Deaths *)

Definition HandleLauncherDied (r : RRef) : M unit :=
  s ← store;
  a ← st (the_record r);
  match lock_mission s (r_mission a) with
  | None => mret tt
  | Some m =>
      if decide (GetMissionList s m = Some (st_launcherList s)) then
        _ ← (if r_isLauncherRoot a then
               st (upd_record r (λ a, SetRestarting true (SetAbilityState INITIAL a)))
             else st (RemoveMission (st_launcherList s) m));
        if IsForeground a then DelayedStartLauncher else mret tt
      else mret tt
  end.

Definition HandleAbilityDiedByDefault (r : RRef) : M unit :=
  s ← store;
  a ← st (the_record r);
  if r_isTerminating a then CompleteTerminateAndUpdateMission r
  else
    match lock_mission s (r_mission a) with
    | None => mret tt
    | Some m =>
        match GetMissionList s m with
        | None => mret tt
        | Some l =>
            ms ← st (the_mission m);
            let isLauncherActive :=
              match (root ← ListGetLauncherRoot s (st_launcherList s); st_records s !! root) with
              | Some ra => IsForeground ra
              | None => false
              end in
            _ ← st (RemoveMission l m);
            s1 ← store;
            _ ← (if bool_decide (GetType s1 l = CURRENT) && IsEmpty s1 l then st (RemoveMissionList l)
                 else mret tt);
            _ ← (if r_isUninstall a then mret tt
                 else if r_isDlp a || ai_removeMissionAfterTerminate (r_info a)
                 then RemoveMissionLocked (m_missionId ms)
                 else update_inner (m_missionId ms) (set_runningState (-1)));
            if IsForeground a && negb isLauncherActive then DelayedStartLauncher else mret tt
        end
    end.

Definition HandleAbilityDied (r : RRef) : M unit :=
  a ← st (the_record r);
  if negb (bool_decide (ai_type (r_info a) = PAGE)) then mret tt
  else if r_isLauncherAbility a then HandleLauncherDied r
  else HandleAbilityDiedByDefault r.

Definition OnAbilityDied (r : RRef) (currentUserId : Z) : M unit :=
  a ← st (the_record r);
  userId ← gets mlm_userId;
  if negb (bool_decide (ai_type (r_info a) = PAGE)) then mret tt
  else if r_isLauncherRoot a && negb (currentUserId =? userId) then
    st (upd_record r (λ a, SetRestarting true (SetAbilityState INITIAL a)))
  else HandleAbilityDied r.

(** [AbilityRecord::OnSchedulerDied] up to the posted [OnAbilityDied]. *)
Definition OnSchedulerDied (r : RRef) : M unit :=
  a ← st (the_record r);
  if r_scheduler a then
    st (upd_record r (λ a, a <| r_scheduler := false |> <| r_dealScheduler := false |>))
  else mret tt.

(** * Calls *)

Definition ResolveAbility (r : RRef) (q : AbilityRequest) : M ResolveResultType :=
  res ← st (RecordResolve r q);
  match res with
  | NG_INNER_ERROR => mret NG_INNER_ERROR
  | OK_HAS_REMOTE_OBJ => mret OK_HAS_REMOTE_OBJ
  | OK_NO_REMOTE_OBJ =>
      a ← st (the_record r);
      if r_isReady a then
        ok ← st (RecordCallRequest callee r);
        mret (if ok : bool then OK_HAS_REMOTE_OBJ else OK_NO_REMOTE_OBJ)
      else mret OK_NO_REMOTE_OBJ
  end.

Definition CallAbilityLocked (q : AbilityRequest) : M ErrCode :=
  if negb (bool_decide (rq_callType q = CALL_REQUEST_TYPE)) then mret ERR_INVALID_VALUE
  else
    t ← GetTargetMissionAndAbility q;
    match t with
    | (Some m, Some r, _) =>
        _ ← st (AddCallerRecord r (rq_callerToken q) (rq_requestCode q));
        _ ← st (upd_record r (λ a, a <| r_launchReason := LAUNCHREASON_CALL |>));
        s ← store;
        _ ← match GetMissionList s m with
            | None => st (AddMissionToTop (st_defaultSingleList s) m)
            | Some _ => mret tt
            end;
        res ← ResolveAbility r q;
        match res with
        | OK_HAS_REMOTE_OBJ => mret ERR_OK
        | NG_INNER_ERROR => mret RESOLVE_CALL_ABILITY_INNER_ERR
        | OK_NO_REMOTE_OBJ =>
            s ← store;
            a ← st (the_record r);
            _ ← (if bool_decide (GetCurrentTopAbility s = None) && ai_isLauncherApp (r_info a)
                 then st (upd_record r (λ a, a <| r_isLauncherRoot := true |>)) else mret tt);
            st (LoadAbility app_load r)
        end
    | _ => mret ERR_INVALID_VALUE
    end.

Definition ResolveLocked (q : AbilityRequest) : M ErrCode :=
  if bool_decide (rq_callType q = CALL_REQUEST_TYPE) then CallAbilityLocked q
  else mret RESOLVE_CALL_ABILITY_INNER_ERR.

Definition ReleaseLocked (connect : option Z) (e : ElementName) : M ErrCode :=
  match connect with
  | None => mret ERR_INVALID_VALUE
  | Some _ =>
      t ← st (GetAbilityRecordByName e);
      match t with
      | None => mret RELEASE_CALL_ABILITY_INNER_ERR
      | Some r =>
          ok ← st (RecordRelease r connect);
          mret (if ok : bool then ERR_OK else RELEASE_CALL_ABILITY_INNER_ERR)
      end
  end.

(** [callRecord] is given by its target's element and its callback. *)
Definition OnCallConnectDied (target : ElementName) (connCallback : option Z) : M unit :=
  t ← st (GetAbilityRecordByName target);
  match t with
  | None => mret tt
  | Some r => _ ← st (RecordRelease r connCallback); mret tt
  end.

(** * Specified abilities *)

Definition OnAcceptWantResponse (w : Want) (flag : string) : M unit :=
  queue ← gets waittingAbilityQueue_;
  match queue with
  | [] => mret tt
  | q :: rest =>
      _ ← modify (λ g, g <| waittingAbilityQueue_ := rest |>);
      s ← store;
      let currentTop := GetCurrentTopAbility s in
      let caller := GetAbilityRecordByToken s (rq_callerToken q) in
      match (if decide (flag = "") then None else GetMissionBySpecifiedFlag s w flag) with
      | Some m =>
          ms ← st (the_mission m);
          match m_abilityRecord ms with
          | None => mret tt
          | Some r =>
              _ ← st (upd_record r (λ a, a <| r_want := rq_want q |> <| r_isNewWant := true |>));
              _ ← MoveMissionToFront (m_missionId ms) (isLauncherRecord s caller) None;
              mret tt
          end
      | None =>
          _ ← StartAbilityLocked currentTop caller (q <| rq_specifiedFlag := flag |>); mret tt
      end
  end.

Definition OnStartSpecifiedAbilityTimeoutResponse (w : Want) : M unit :=
  queue ← gets waittingAbilityQueue_;
  match queue with
  | [] => mret tt
  | _ :: rest =>
      _ ← modify (λ g, g <| waittingAbilityQueue_ := rest |>);
      match rest with
      | [] => mret tt
      | q :: rest' =>
          _ ← modify (λ g, g <| waittingAbilityQueue_ := rest' |>);
          s ← store;
          _ ← StartAbilityFrom (GetCurrentTopAbility s)
                (GetAbilityRecordByToken s (rq_callerToken q)) q;
          mret tt
      end
  end.

(** * Uninstallation, user switches, process states *)

(** The loop of [AddUninstallTags] over the current lists. *)
Fixpoint uninstall_lists (bundleName : string) (uid : Z) (ls : list LRef) : M unit :=
  match ls with
  | [] => mret tt
  | l :: ls' =>
      _ ← st (ListHandleUnInstallApp l bundleName uid);
      s ← store;
      _ ← (if IsEmpty s l then st (RemoveMissionList l) else mret tt);
      uninstall_lists bundleName uid ls'
  end.

Definition AddUninstallTags (bundleName : string) (uid : Z) : M unit :=
  s ← store;
  _ ← uninstall_lists bundleName uid (st_currentMissionLists s);
  s ← store;
  _ ← st (ListHandleUnInstallApp (st_defaultSingleList s) bundleName uid);
  s ← store;
  _ ← st (ListHandleUnInstallApp (st_defaultStandardList s) bundleName uid);
  i ← infos;
  let '(matched, i') := infos_uninstall bundleName uid i in
  _ ← set_infos i';
  notify (NotifyUninstalled matched).

Definition UninstallApp (bundleName : string) (uid : Z) : M unit :=
  post (TaskAddUninstallTags bundleName uid).

Definition PauseManager : M unit :=
  s ← store;
  for_each (λ r,
    _ ← st (upd_record r (λ a, a <| r_isSwitchingPause := true |>));
    MoveToBackgroundTask r) (GetAllForegroundAbilities s).

Definition ResumeManager : M unit := BackToLauncher.

Definition IsStarted : M bool :=
  s ← store; mret (bool_decide (is_Some (ListGetLauncherRoot s (st_launcherList s)))).

Definition set_app_state (processName : string) (state : AppState) (r : RRef) : M unit :=
  a ← st (the_record r);
  if bool_decide (processName = ai_process (r_info a))
     || bool_decide (processName = app_bundleName (r_app a))
  then st (upd_record r (λ a, a <| r_appState := state |>)) else mret tt.

Definition OnAppStateChanged (processName : string) (state : AppState) : M unit :=
  s ← store;
  if bool_decide (state = APP_TERMINATED) || bool_decide (state = APP_END) then
    for_each (set_app_state processName state) (st_terminateAbilityList s)
  else
    for_each (λ m, r ← deref (record_of s m); set_app_state processName state r)
      (current_then s [st_defaultStandardList s; st_defaultSingleList s] ≫= missions_of s).

(** A posted closure runs. *)
Definition run_posted (t : Task) : M unit :=
  match t with
  | TaskCompleteForegroundNew r => CompleteForegroundNew r
  | TaskCompleteBackground r => CompleteBackground r
  | TaskCompleteTerminate r => CompleteTerminate r
  | TaskStartWaittingAbility => StartWaittingAbility
  | TaskBackToCaller r => BackToCaller r
  | TaskBackToLauncher => BackToLauncher
  | TaskAddUninstallTags bundleName uid => AddUninstallTags bundleName uid
  end.
End manager.
