(* ===== verification/ManagerFrames.v ===== *)
(** The handlers of [MissionListManager] that leave the lists alone: they return
    on existing records, keep the shape of the heap, the waiting queue and the
    soundness of the stored infos ([calm]).  [safe] is the relation every handler
    keeps: a good manager stays good, and records and missions stay known. *)

From S2P Require Import Prelude CppString Want MissionData MissionInfo CallContainer AbilityRecord.
From S2P Require Import StoreShape MissionList MissionMoves MissionPlaces MissionTargets.
From S2P Require Import InfosInterface MissionListManager.
From Stdlib Require Import Ascii.

#[local] Open Scope stdpp_scope.
#[local] Open Scope Z_scope.

Implicit Types (s : Store) (l : LRef) (m : MRef) (r : RRef).

(** * Lifting *)

Section lifting.
Context {I : Type}.
Implicit Types (g : MLM I).

Lemma wp_st {A} (c : ST Store A) Q g :
  wp c (λ a s, Q a (g <| mlm_store := s |>)) (mlm_store g) → wp (st c) Q g.
Proof. unfold wp, st. by destruct (c (mlm_store g)) as [[a s]| |]. Qed.

Lemma wp_store {B} (k : Store → ST (MLM I) B) Q g : wp (k (mlm_store g)) Q g → wp (store ≫= k) Q g.
Proof. done. Qed.

Lemma wp_st_record {B} r a (k : AbilityRecord → ST (MLM I) B) Q g :
  st_records (mlm_store g) !! r = Some a → wp (k a) Q g → wp (st (the_record r) ≫= k) Q g.
Proof.
  intros Ha H. apply wp_bind, wp_st. unfold the_record. apply wp_bind, wp_gets. eapply wp_deref; [done|].
  by destruct g.
Qed.

Lemma wp_st_mission {B} m a (k : Mission → ST (MLM I) B) Q g :
  st_missions (mlm_store g) !! m = Some a → wp (k a) Q g → wp (st (the_mission m) ≫= k) Q g.
Proof.
  intros Ha H. apply wp_bind, wp_st. unfold the_mission. apply wp_bind, wp_gets. eapply wp_deref; [done|].
  by destruct g.
Qed.
End lifting.

(** * The environment's promises *)

Section frames.
Context {I : Type} `{!MissionInfos I, !MissionInfosLaws I}.
Context (app_load app_terminate : RRef → Z) (callee : RRef → option Z).
Context (GenerateAbilityRequest : Want → option AbilityRequest).
Context (restartMax : Z) (indeterminate_locked : bool).
Context (launcher_name : string → bool).
Implicit Types (g : MLM I).

(** The bundle manager is consistent about which applications are launchers, for
    a request and for the want of the request asked again later. *)
Record good_request (q : AbilityRequest) : Prop := {
  gq_name : launcher_name (request_name q) = ai_isLauncherApp (rq_info q);
  gq_app : app_isLauncherApp (rq_app q) = ai_isLauncherApp (rq_info q);
  gq_again q' : GenerateAbilityRequest (rq_want q) = Some q' →
    app_isLauncherApp (rq_app q') = ai_isLauncherApp (rq_info q);
}.

(** Stored infos are not those of launchers. *)
Definition infos_ok (i : I) : Prop :=
  infos_ready i ∧ ∀ n w, infos_has n w i →
    launcher_name n = false ∧ ∀ q, GenerateAbilityRequest w = Some q → app_isLauncherApp (rq_app q) = false.

Record good g : Prop := {
  good_tidy : tidy launcher_name (mlm_store g);
  good_infos : infos_ok (mlm_infos g);
  good_listener : listenerController_ g = true;
  good_queue : Forall good_request (waittingAbilityQueue_ g);
}.

(** * Calm handlers *)

Record calm g g' : Prop := {
  calm_shape : same_shape (mlm_store g) (mlm_store g');
  calm_queue : waittingAbilityQueue_ g' = waittingAbilityQueue_ g;
  calm_listener : listenerController_ g' = listenerController_ g;
  calm_infos : infos_ok (mlm_infos g) → infos_ok (mlm_infos g');
}.

#[export] Instance calm_preorder : PreOrder calm.
Proof.
  split; [intros g; by constructor|]. intros g1 g2 g3 [] []. constructor; try congruence; [|by auto].
  by etransitivity.
Qed.

Lemma calm_good g g' : calm g g' → good g → good g'.
Proof.
  intros [] []. constructor; try congruence; [|by auto]. by eapply tidy_shape.
Qed.

Lemma known_record_calm g g' r :
  calm g g' → known_record (mlm_store g) r → known_record (mlm_store g') r.
Proof. intros []. by apply known_record_shape. Qed.
Lemma known_mission_calm g g' m :
  calm g g' → known_mission (mlm_store g) m → known_mission (mlm_store g') m.
Proof. intros []. by apply known_mission_shape. Qed.
Lemma live_known_calm g g' : calm g g' → live_known (mlm_store g) → live_known (mlm_store g').
Proof. intros []. by apply live_known_shape. Qed.
Lemma infos_ok_calm g g' : calm g g' → infos_ok (mlm_infos g) → infos_ok (mlm_infos g').
Proof. by intros []. Qed.
Lemma good_live_known g : good g → live_known (mlm_store g).
Proof. intros []. by eapply places_live_known, good_tidy0. Qed.

Lemma keeps_calm_st {A} (c : ST Store A) g : keeps same_shape c (mlm_store g) → keeps calm (st c) g.
Proof.
  unfold keeps. intros H. apply wp_st. eapply wp_mono; [done|]. intros a s Hs. by constructor.
Qed.

Lemma keeps_store {B} (R : relation (MLM I)) (k : Store → ST (MLM I) B) g :
  keeps R (k (mlm_store g)) g → keeps R (store ≫= k) g.
Proof. done. Qed.

Lemma keeps_infos {B} (R : relation (MLM I)) (k : I → ST (MLM I) B) g :
  keeps R (k (mlm_infos g)) g → keeps R (infos ≫= k) g.
Proof. done. Qed.

Lemma keeps_st_record {B} (R : relation (MLM I)) r (k : AbilityRecord → ST (MLM I) B) g :
  known_record (mlm_store g) r →
  (∀ a, st_records (mlm_store g) !! r = Some a → keeps R (k a) g) →
  keeps R (st (the_record r) ≫= k) g.
Proof. intros [a Ha] H. unfold keeps. eapply wp_st_record; [done|]. by apply H. Qed.

Lemma keeps_st_mission {B} (R : relation (MLM I)) m (k : Mission → ST (MLM I) B) g :
  known_mission (mlm_store g) m →
  (∀ a, st_missions (mlm_store g) !! m = Some a → keeps R (k a) g) →
  keeps R (st (the_mission m) ≫= k) g.
Proof. intros [a Ha] H. unfold keeps. eapply wp_st_mission; [done|]. by apply H. Qed.

(** ** The infos *)

Lemma infos_ok_less i i' :
  infos_ok i → infos_ready i' → (∀ n w, infos_has n w i' → infos_has n w i) → infos_ok i'.
Proof. intros [_ H] Hr Hi. split; [done|]. intros n w Hn. by apply H, Hi. Qed.

Lemma infos_ok_more i i' n0 w0 :
  infos_ok i → infos_ready i' →
  (∀ n w, infos_has n w i' → infos_has n w i ∨ n = n0 ∧ w = w0) →
  launcher_name n0 = false →
  (∀ q, GenerateAbilityRequest w0 = Some q → app_isLauncherApp (rq_app q) = false) → infos_ok i'.
Proof.
  intros [_ H] Hr Hi Hn Hw. split; [done|]. intros n w Hnw.
  destruct (Hi n w Hnw) as [?|[-> ->]]; [by apply H|done].
Qed.

Lemma keeps_with_infos (f : I → I) g :
  (∀ i, infos_ok i → infos_ok (f i)) → keeps calm (with_infos f) g.
Proof. intros Hf. constructor; try done. by apply Hf. Qed.

Lemma keeps_notify e g : keeps calm (notify e) g.
Proof.
  unfold notify. apply keeps_gets. destruct (listenerController_ g).
  - apply keeps_calm_st, keeps_emit.
  - apply (keeps_ret _).
Qed.

Lemma keeps_post t g : keeps calm (post t) g.
Proof. apply keeps_calm_st, keeps_emit. Qed.

Lemma delete_infos_ok id i : infos_ok i → infos_ok (infos_delete id i).
Proof. intros H. destruct (delete_law id i (proj1 H)) as [Hr Hi]. by eapply infos_ok_less. Qed.

Lemma snapshot_infos_ok id r dlp i : infos_ok i → infos_ok (infos_snapshot id r dlp i).
Proof. intros H. destruct (snapshot_law id r dlp i (proj1 H)) as [Hr Hi]. by eapply infos_ok_less. Qed.

(** A stored info with its name and want can be written back. *)
Lemma keeps_update_stored x n w g :
  infos_ok (mlm_infos g) → infos_has n w (mlm_infos g) →
  missionName x = n → mi_want (missionInfo x) = w → keeps calm (try_infos (infos_update x)) g.
Proof.
  intros Hok Hx <- <-. destruct (update_law x (mlm_infos g) (proj1 Hok)) as (i' & Hi' & Hr & Hin).
  unfold try_infos. apply keeps_infos. unfold keeps. apply wp_bind. eapply wp_deref; [done|].
  apply wp_modify. constructor; try done. intros _.
  eapply infos_ok_less; [done..|]. intros n w Hn. destruct (Hin n w Hn) as [?|[-> ->]]; done.
Qed.

(** Fields other than name and want. *)
Definition same_key (f : InnerMissionInfo → InnerMissionInfo) : Prop :=
  ∀ x, missionName (f x) = missionName x ∧ mi_want (missionInfo (f x)) = mi_want (missionInfo x).

Lemma keeps_update_inner id f g :
  same_key f → infos_ok (mlm_infos g) → keeps calm (update_inner id f) g.
Proof.
  intros Hf Hok. unfold update_inner. apply keeps_infos.
  destruct (infos_get id (mlm_infos g)) as [x|] eqn:Hx; [|apply (keeps_ret _)].
  apply get_law in Hx. destruct (Hf x). by eapply keeps_update_stored.
Qed.

Lemma keeps_timestamp id t g :
  infos_ok (mlm_infos g) → keeps calm (try_infos (infos_timestamp id t)) g.
Proof.
  intros Hok. destruct (timestamp_law id t (mlm_infos g) (proj1 Hok)) as (i' & Hi' & Hr & Hin).
  unfold try_infos. apply keeps_infos. unfold keeps. apply wp_bind. eapply wp_deref; [done|].
  apply wp_modify. constructor; try done. intros _. by eapply infos_ok_less.
Qed.

Lemma good_infos_ok g : good g → infos_ok (mlm_infos g).
Proof. by intros []. Qed.

End frames.

Create HintDb calm.
#[export] Hint Resolve calm_good known_record_calm known_mission_calm good_live_known good_infos_ok : calm.
#[export] Hint Resolve keeps_notify keeps_post keeps_with_infos delete_infos_ok snapshot_infos_ok
  keeps_update_inner keeps_timestamp : calm.
#[export] Hint Extern 3 (keeps (calm _ _) (st _) _) => apply keeps_calm_st; solve [eauto 20 with shape calm] : calm.
#[export] Hint Extern 3 (same_key _) => intros ?; split; reflexivity : calm.

Ltac calm_known := first [eassumption | solve [eauto 20 with calm]].
Ltac calm_step := cbv beta; lazymatch goal with
  | |- keeps _ (mret _) _ => apply (keeps_ret _)
  | |- keeps _ (if ?b then _ else _) _ => destruct b eqn:?
  | |- keeps _ (match ?x with _ => _ end) _ => destruct x eqn:?
  | |- keeps _ (store ≫= _) _ => apply keeps_store
  | |- keeps _ (infos ≫= _) _ => apply keeps_infos
  | |- keeps _ (gets _ ≫= _) _ => apply keeps_gets
  | |- keeps _ (st (the_record _) ≫= _) _ => apply keeps_st_record; [calm_known|intros ? ?]
  | |- keeps _ (st (the_mission _) ≫= _) _ => apply keeps_st_mission; [calm_known|intros ? ?]
  | |- keeps _ (st (upd_record _ _)) _ => apply keeps_calm_st, keeps_upd_record; keep_side
  | |- keeps _ (st (upd_mission _ _)) _ => apply keeps_calm_st, keeps_upd_mission; keep_side
  | |- keeps _ (_ ≫= _) _ => apply (keeps_bind _); [|intros ? ? _ ?]
  | |- keeps _ (let _ := _ in _) _ => cbv zeta
  | |- keeps _ _ _ => solve [eauto 20 with calm]
  end.
Ltac solve_calm := repeat calm_step.

Section handlers.
Context {I : Type} `{!MissionInfos I, !MissionInfosLaws I}.
Context (app_load app_terminate : RRef → Z) (callee : RRef → option Z).
Context (GenerateAbilityRequest : Want → option AbilityRequest).
Context (launcher_name : string → bool).
Implicit Types (g : MLM I).

#[local] Abbreviation good := (good GenerateAbilityRequest launcher_name).
#[local] Abbreviation calm := (calm GenerateAbilityRequest launcher_name).
#[local] Abbreviation infos_ok := (infos_ok GenerateAbilityRequest launcher_name).

Lemma lock_mission_known g o m : good g → lock_mission (mlm_store g) o = Some m → known_mission (mlm_store g) m.
Proof.
  intros Hg. unfold lock_mission. destruct o as [m'|]; [|done]. cbn [mbind option_bind].
  destruct (decide _) as [Hm|]; [|done]. intros; simplify_eq.
  apply elem_of_live_missions in Hm as (l & Hl & Hm).
  destruct (pl_placed _ _ _ (proj1 (good_tidy _ _ _ Hg)) l m) as (ms & r & a & (Hms & _) & _);
    [rewrite elem_of_app; by left|done|]. by exists ms.
Qed.

Lemma token_known g t r : good g → GetAbilityRecordByToken (mlm_store g) t = Some r → known_record (mlm_store g) r.
Proof. intros Hg. eapply GetAbilityRecordByToken_known. apply Hg. Qed.

Lemma top_known g r : good g → GetCurrentTopAbility (mlm_store g) = Some r → known_record (mlm_store g) r.
Proof. intros Hg. eapply GetCurrentTopAbility_known. apply Hg. Qed.

Lemma terminate_list_known g r : good g → r ∈ st_terminateAbilityList (mlm_store g) → known_record (mlm_store g) r.
Proof.
  intros Hg Hr. destruct (pl_terminating _ _ _ (proj1 (good_tidy _ _ _ Hg)) r Hr) as (a & ? & _). by exists a.
Qed.

Hint Resolve lock_mission_known token_known top_known terminate_list_known : calm.

(** ** Showing and hiding *)

Lemma calm_UpdateMissionSnapshot r g :
  good g → known_record (mlm_store g) r → keeps calm (UpdateMissionSnapshot r) g.
Proof. intros. unfold UpdateMissionSnapshot. solve_calm. Qed.

Hint Resolve calm_UpdateMissionSnapshot : calm.

Lemma calm_MoveToBackgroundTask r g :
  good g → known_record (mlm_store g) r → keeps calm (MoveToBackgroundTask r) g.
Proof. intros. unfold MoveToBackgroundTask. solve_calm. Qed.

Lemma calm_UpdateMissionTimeStamp r g :
  good g → known_record (mlm_store g) r → keeps calm (UpdateMissionTimeStamp r) g.
Proof. intros. unfold UpdateMissionTimeStamp. solve_calm. Qed.

Hint Resolve calm_MoveToBackgroundTask calm_UpdateMissionTimeStamp : calm.

Lemma calm_MinimizeAbility token fromUser g : good g → keeps calm (MinimizeAbility token fromUser) g.
Proof. intros. unfold MinimizeAbility. solve_calm. Qed.

Lemma calm_AttachAbilityThread b token g : good g → keeps calm (AttachAbilityThread callee b token) g.
Proof. intros. unfold AttachAbilityThread. solve_calm. Qed.

Lemma calm_OnAbilityRequestDone token state g : good g → keeps calm (OnAbilityRequestDone token state) g.
Proof. intros. unfold OnAbilityRequestDone. solve_calm. Qed.

(** ** Life cycle *)

Lemma calm_DispatchForegroundNew r g :
  known_record (mlm_store g) r → keeps calm (DispatchForegroundNew r) g.
Proof. intros. unfold DispatchForegroundNew. solve_calm. Qed.

Lemma calm_DispatchBackground r g : known_record (mlm_store g) r → keeps calm (DispatchBackground r) g.
Proof. intros. unfold DispatchBackground. solve_calm. Qed.

Lemma calm_DispatchTerminate r g : known_record (mlm_store g) r → keeps calm (DispatchTerminate r) g.
Proof. intros. unfold DispatchTerminate. solve_calm. Qed.

Hint Resolve calm_DispatchForegroundNew calm_DispatchBackground calm_DispatchTerminate : calm.

Lemma calm_DispatchState r state g : known_record (mlm_store g) r → keeps calm (DispatchState r state) g.
Proof. intros. unfold DispatchState. solve_calm. Qed.

Hint Resolve calm_DispatchState : calm.

Lemma calm_AbilityTransactionDone token state g :
  good g → keeps calm (AbilityTransactionDone token state) g.
Proof.
  intros Hg. unfold AbilityTransactionDone. calm_step. unfold GetAbilityFromTerminateList.
  destruct token as [t|]; cbn [mbind option_bind]; [|solve_calm].
  destruct (decide _); [apply calm_DispatchState; by eauto with calm|]. solve_calm.
Qed.

Lemma calm_CompleteForegroundNew r g :
  good g → known_record (mlm_store g) r → keeps calm (CompleteForegroundNew r) g.
Proof. intros. unfold CompleteForegroundNew. solve_calm. Qed.

Lemma calm_CompleteBackground r g :
  good g → known_record (mlm_store g) r → keeps calm (CompleteBackground callee r) g.
Proof.
  intros. unfold CompleteBackground. do 6 calm_step; [|solve_calm..]. calm_step; [|solve_calm].
  apply (keeps_for_each_from _). intros t g' Ht Hg'.
  assert (known_record (mlm_store g') t) by eauto 20 with calm. solve_calm.
Qed.

(** ** The rest *)

Lemma calm_RemoveMissionLocked id g : good g → keeps calm (RemoveMissionLocked id) g.
Proof. intros. unfold RemoveMissionLocked. solve_calm. Qed.

Lemma calm_SetMissionLockedState id locked g : good g → keeps calm (SetMissionLockedState id locked) g.
Proof.
  intros Hg. unfold SetMissionLockedState. calm_step; [solve_calm|]. calm_step. calm_step.
  - destruct (GetMissionById _ _) as [m|]; solve_calm.
  - calm_step. calm_step; [|solve_calm]. calm_step; [|solve_calm].
    assert (infos_ok (mlm_infos s')) as Hok by eauto 20 with calm.
    eapply keeps_update_stored; [done|by eapply get_law|done|done].
Qed.

Lemma calm_ResolveAbility r q g :
  known_record (mlm_store g) r → keeps calm (ResolveAbility callee r q) g.
Proof. intros. unfold ResolveAbility. solve_calm. Qed.

Lemma calm_OnSchedulerDied r g : known_record (mlm_store g) r → keeps calm (OnSchedulerDied r) g.
Proof. intros. unfold OnSchedulerDied. solve_calm. Qed.

Lemma keeps_by_name {B} (R : relation (MLM I)) e (k : option RRef → ST (MLM I) B) g :
  good g → (∀ o, (∀ r, o = Some r → known_record (mlm_store g) r) → keeps R (k o) g) →
  keeps R (st (GetAbilityRecordByName e) ≫= k) g.
Proof.
  intros Hg Hk. unfold keeps. apply wp_bind, wp_st.
  eapply wp_mono; [exact (wp_GetAbilityRecordByName _ _ _ _ (proj1 (good_tidy _ _ _ Hg)))|]. intros o s (-> & Ho). cbv beta.
  replace (g <| mlm_store := mlm_store g |>) with g by by destruct g. apply Hk. intros r Hr. by apply Ho.
Qed.

Lemma calm_ReleaseLocked connect e g : good g → keeps calm (ReleaseLocked connect e) g.
Proof.
  intros Hg. unfold ReleaseLocked. calm_step; [|solve_calm]. apply keeps_by_name; [done|].
  intros [r|] Hr; [|solve_calm]. specialize (Hr r eq_refl). solve_calm.
Qed.

Lemma calm_OnCallConnectDied e conn g : good g → keeps calm (OnCallConnectDied e conn) g.
Proof.
  intros Hg. unfold OnCallConnectDied. apply keeps_by_name; [done|].
  intros [r|] Hr; [|solve_calm]. specialize (Hr r eq_refl). solve_calm.
Qed.

Lemma foreground_known g r :
  good g → r ∈ GetAllForegroundAbilities (mlm_store g) → known_record (mlm_store g) r.
Proof.
  intros Hg. unfold GetAllForegroundAbilities, GetForegroundAbilities.
  rewrite list_elem_of_bind. intros (l & Hr & _). apply list_elem_of_omap in Hr as (m & _ & Hr).
  destruct (record_of (mlm_store g) m) as [r'|]; [|done]. cbn [mbind option_bind] in Hr.
  destruct (st_records (mlm_store g) !! r') as [a|] eqn:Ha; [|done]. cbn [mbind option_bind] in Hr.
  destruct (IsActiveState a); [|done]. simplify_eq. by exists a.
Qed.

Lemma calm_PauseManager g : good g → keeps calm PauseManager g.
Proof.
  intros Hg. unfold PauseManager. calm_step. apply (keeps_for_each_from _). intros r g' Hr Hg'.
  assert (known_record (mlm_store g') r) by eauto using foreground_known, known_record_calm. solve_calm.
Qed.

Lemma calm_set_app_state p state r g :
  known_record (mlm_store g) r → keeps calm (set_app_state p state r) g.
Proof. intros. unfold set_app_state. solve_calm. Qed.

Lemma calm_OnAppStateChanged p state g : good g → keeps calm (OnAppStateChanged p state) g.
Proof.
  intros Hg. unfold OnAppStateChanged. calm_step. calm_step; apply (keeps_for_each_from _).
  - intros r g' Hr Hg'. apply calm_set_app_state. by eauto using terminate_list_known, known_record_calm.
  - intros m g' Hm Hg'. apply list_elem_of_bind in Hm as (l & Hm & Hl).
    destruct (places_record_of launcher_name [] (mlm_store g) l m) as (r & Hr & Hk); [apply Hg| |done|].
    { eapply current_then_live; [|done]. solve_live. }
    apply (keeps_bind _).
    + unfold keeps. eapply wp_deref; [done|]. done.
    + intros r' g2 Hr' _. apply calm_set_app_state. rewrite Hr in Hr'. unfold deref in Hr'. simplify_eq.
      by eapply known_record_calm.
Qed.
End handlers.

#[export] Hint Resolve lock_mission_known token_known top_known terminate_list_known
  calm_UpdateMissionSnapshot calm_MoveToBackgroundTask calm_UpdateMissionTimeStamp calm_DispatchState
  calm_RemoveMissionLocked calm_ResolveAbility : calm.
