(* ===== verification/ManagerSafety.v ===== *)
(** Every handler of [MissionListManager] returns from a good manager and leaves
    a good manager: no null pointer is dereferenced, no loop runs on, and the
    mission lists stay in order. *)

From stdpp Require Import functions.
From S2P Require Import Prelude CppString Want MissionData MissionInfo CallContainer AbilityRecord.
From S2P Require Import StoreShape MissionList MissionMoves MissionPlaces MissionTargets.
From S2P Require Import InfosInterface MissionListManager ManagerFrames.
From Stdlib Require Import Ascii.

#[local] Open Scope stdpp_scope.
#[local] Open Scope Z_scope.

Implicit Types (s : Store) (l : LRef) (m : MRef) (r : RRef).

(** The state of the goal, written in another way. *)
Ltac to_state g' := match goal with |- wp ?K ?Q _ => change (wp K Q g') end.

Section safety.
Context {I : Type} `{!MissionInfos I, !MissionInfosLaws I}.
Context (app_load app_terminate : RRef → Z) (callee : RRef → option Z).
Context (GenerateAbilityRequest : Want → option AbilityRequest).
Context (JudgeAbilityVisibleControl : AbilityInfo → ErrCode).
Context (restartMax : Z) (indeterminate_locked : bool).
Context (launcher_name : string → bool).
Implicit Types (g : MLM I).

#[local] Abbreviation places := (places launcher_name).
#[local] Abbreviation tidy := (tidy launcher_name).
#[local] Abbreviation good := (good GenerateAbilityRequest launcher_name).
#[local] Abbreviation calm := (calm GenerateAbilityRequest launcher_name).
#[local] Abbreviation good_request := (good_request GenerateAbilityRequest launcher_name).
#[local] Abbreviation infos_ok := (infos_ok GenerateAbilityRequest launcher_name).

(** * What every handler keeps *)

Record safe g g' : Prop := {
  safe_good : good g → good g';
  safe_record r : known_record (mlm_store g) r → known_record (mlm_store g') r;
  safe_mission m : known_mission (mlm_store g) m → known_mission (mlm_store g') m;
}.

#[export] Instance safe_preorder : PreOrder safe.
Proof. split; [by constructor|]. intros g1 g2 g3 [] []. constructor; auto. Qed.

Lemma calm_safe g g' : calm g g' → safe g g'.
Proof.
  intros H. constructor; intros; [by eapply calm_good|by eapply known_record_calm|by eapply known_mission_calm].
Qed.

Lemma keeps_calm_safe {A} (c : ST (MLM I) A) g : keeps calm c g → keeps safe c g.
Proof. intros H. unfold keeps. eapply wp_mono; [done|]. intros a g' ?. by apply calm_safe. Qed.

Lemma calm_after {A} (c : ST (MLM I) A) g0 g :
  safe g0 g → keeps calm c g → wp c (λ _ g', safe g0 g') g.
Proof.
  intros S H. eapply (wp_mono _ (λ _ g', calm g g')); [exact H|].
  intros a g' C. transitivity g; [done|by apply calm_safe].
Qed.

Lemma safe_after {A} (c : ST (MLM I) A) g0 g :
  safe g0 g → keeps safe c g → wp c (λ _ g', safe g0 g') g.
Proof.
  intros S H. eapply (wp_mono _ (λ _ g', safe g g')); [exact H|].
  intros a g' S'. by transitivity g.
Qed.

(** The manager with a new store. *)
Lemma good_store g s : good g → tidy s → good (g <| mlm_store := s |>).
Proof. intros [] Hs. by constructor. Qed.

Lemma wp_st_seq {A B} (c1 : ST Store A) (c2 : ST Store B) {C} (k : B → ST (MLM I) C) Q g :
  wp (_ ← c1; c2) (λ b s, wp (k b) Q (g <| mlm_store := s |>)) (mlm_store g) →
  wp (_ ← st c1; b ← st c2; k b) Q g.
Proof.
  unfold wp, mbind, ST_bind, st. destruct (c1 (mlm_store g)) as [[a s]| |]; [|done..].
  change (mlm_store (g <| mlm_store := s |>)) with s. by destruct (c2 s) as [[b s']| |].
Qed.

Lemma wp_st_eq {A B} (c : ST Store A) a s (k : A → ST (MLM I) B) Q g :
  c (mlm_store g) = Returned (a, s) → wp (k a) Q (g <| mlm_store := s |>) → wp (st c ≫= k) Q g.
Proof. intros Hc H. apply wp_bind, wp_st. unfold wp at 1. by rewrite Hc. Qed.

Lemma wp_st_if (b : bool) (c : ST Store unit) (Q : unit → MLM I → Prop) g :
  wp (if b then c else mret tt) (λ _ s, Q tt (g <| mlm_store := s |>)) (mlm_store g) →
  wp (if b then st c else mret tt) Q g.
Proof.
  destruct b; intros H; [|by destruct g]. apply wp_st. eapply wp_mono; [exact H|]. by intros [] s ?.
Qed.

(** ** Held references *)

Lemma good_held g rs :
  good g → (∀ r, r ∈ rs → known_record (mlm_store g) r) →
  good (g <| mlm_store := (mlm_store g) <| st_heldRecords := rs |> |>).
Proof.
  intros Hg Hrs. apply good_store; [done|]. destruct (good_tidy _ _ _ Hg) as [H Hn]. split; [|done].
  destruct H. by constructor.
Qed.

Lemma wp_holding {A} (c : ST (MLM I) A) rs (P : A → MLM I → Prop) g :
  good g → (∀ r, r ∈ rs → known_record (mlm_store g) r) →
  (∀ a g' hs, P a g' → P a (g' <| mlm_store := (mlm_store g') <| st_heldRecords := hs |> |>)) →
  (∀ g1, good g1 → (∀ r, known_record (mlm_store g) r → known_record (mlm_store g1) r) →
     waittingAbilityQueue_ g1 = waittingAbilityQueue_ g → wp c (λ a g', safe g1 g' ∧ P a g') g1) →
  wp (holding rs c) (λ a g', safe g g' ∧ P a g') g.
Proof.
  intros Hg Hrs HP Hc. unfold holding. apply wp_store.
  set (g1 := g <| mlm_store := (mlm_store g) <| st_heldRecords := rs ++ st_heldRecords (mlm_store g) |> |>).
  assert (good g1) as Hg1.
  { apply good_held; [done|]. intros r [Hr|Hr]%elem_of_app; [by apply Hrs|].
    by apply (pl_held _ _ _ (proj1 (good_tidy _ _ _ Hg))). }
  assert (wp c (λ a g', safe g1 g' ∧ P a g') g1) as Hk by by apply Hc.
  apply wp_bind, wp_st, wp_modify. change (wp (c ≫= λ a,
    st (modify (λ s', s' <| st_heldRecords := st_heldRecords (mlm_store g) |>)) ≫= λ _, mret a)
    (λ a g', safe g g' ∧ P a g') g1).
  apply wp_bind. eapply wp_mono; [exact Hk|]. intros a g2 [Hs Ha]. apply wp_bind, wp_st, wp_modify, wp_ret.
  split; [|by apply (HP a g2)]. constructor.
  - intros _. apply (good_held g2 (st_heldRecords (mlm_store g))); [by apply Hs|].
    intros r Hr. apply (safe_record _ _ Hs r). by apply (pl_held _ _ _ (proj1 (good_tidy _ _ _ Hg))).
  - intros r Hr. by apply (safe_record _ _ Hs r).
  - intros m Hm. by apply (safe_mission _ _ Hs m).
Qed.

(** * The target of a start *)

(** A mission ready to be moved for a request. *)
Definition ready_for xs s m r (q : AbilityRequest) : Prop :=
  ∃ info, ready xs s m r (request_name q) info (launcher_name (request_name q)) ∧
    ai_launchMode info = ai_launchMode (rq_info q).

Lemma ready_for_extends xs s s' m r q : extends s s' → ready_for xs s m r q → ready_for xs s' m r q.
Proof. intros E (info & Hr & Hi). exists info. split; [by eapply ready_extends|done]. Qed.

(** States along a start, with the target list in hand. *)
Record grown xs g g' : Prop := {
  gw_extends : extends (mlm_store g) (mlm_store g');
  gw_places : places xs (mlm_store g');
  gw_queue : waittingAbilityQueue_ g' = waittingAbilityQueue_ g;
  gw_listener : listenerController_ g' = listenerController_ g;
  gw_infos : infos_ok (mlm_infos g');
}.

Lemma grown_calm xs g g1 g2 : grown xs g g1 → calm g1 g2 → grown xs g g2.
Proof.
  intros [] []. constructor; try congruence; [|by eapply places_shape|by auto].
  etransitivity; [done|]. by apply same_shape_extends.
Qed.

Lemma reused_ready xs q m s :
  places xs s → GetReusedMission s q = Some m →
  ∃ r, record_of s m = Some r ∧ ready_for xs s m r q.
Proof.
  intros H Hm. destruct (GetReusedMission_placed _ _ _ Hm) as (Hq & Hsing & (ms & Hms & Hname) & l & Hl & Hlm).
  destruct (pl_placed _ _ _ H l m) as (ms' & r & a & Hok & _ & _ & Hnt & (Hf1 & Hf2 & _));
    [rewrite elem_of_app; by left|done|].
  assert (ms' = ms) as -> by (destruct Hok; congruence).
  exists r. split; [unfold record_of; rewrite Hms; apply Hok|].
  exists (r_info a). split.
  - exists ms, a. rewrite <- Hname. split_and!; try done; [congruence|]. left. by exists l.
  - rewrite (IsSingletonAbility_info _ _ _ _ _ Hok) in Hsing. bool_to_prop. congruence.
Qed.

(** The first half of [create_or_update]: the info to store, unless no id is left. *)
Lemma wp_choose_info xs q method g (Q : option InnerMissionInfo → MLM I → Prop) (found : option InnerMissionInfo) :
  places xs (mlm_store g) → infos_ok (mlm_infos g) → good_request q →
  let info := fill_info q (request_name q) (bool_decide (ai_launchMode (rq_info q) = SINGLETON)) method
                (mlm_now g) (default (fresh_info indeterminate_locked) found) in
  let reusedInfo := info ← found; if 0 <? info_id info then Some info else None in
  (∀ o g', grown xs g g' → mlm_store g' = mlm_store g →
     (∀ info, o = Some info → missionName info = request_name q ∧ mi_want (missionInfo info) = rq_want q) →
     Q o g') →
  wp (match reusedInfo with
      | Some _ => mret (Some info)
      | None =>
          let '(id, i') := infos_generate (mlm_infos g) in
          _ ← set_infos i';
          mret (id ← id; Some (set_id id (set_label (app_label (rq_app q)) info)))
      end) Q g.
Proof.
  intros H Hi Hq info reusedInfo HQ. destruct reusedInfo as [x|].
  - apply wp_ret, HQ; [by constructor|done|]. intros; simplify_eq. done.
  - destruct (generate_law (mlm_infos g) (proj1 Hi)) as [Hr Hin].
    destruct (infos_generate (mlm_infos g)) as [id i']. apply wp_bind, wp_modify, wp_ret, HQ.
    + constructor; try done. by eapply infos_ok_less.
    + done.
    + intros info' Hinfo. destruct id; [|done]. cbn in Hinfo. by simplify_eq.
Qed.

Lemma wp_store_info xs g0 g x q b (Q : unit → MLM I → Prop) :
  grown xs g0 g → good_request q → ai_isLauncherApp (rq_info q) = false →
  missionName x = request_name q → mi_want (missionInfo x) = rq_want q →
  (∀ g', calm g g' → Q tt g') →
  wp (if b : bool then try_infos (infos_update x)
      else _ ← try_infos (infos_add x); notify (NotifyMissionCreated (info_id x))) Q g.
Proof.
  intros Hg Hq Hl Hn Hw HQ.
  assert (launcher_name (missionName x) = false) as Hname by (rewrite Hn, (gq_name _ _ _ Hq); done).
  assert (∀ q', GenerateAbilityRequest (mi_want (missionInfo x)) = Some q' → app_isLauncherApp (rq_app q') = false)
    as Hwant by (intros q' Hq'; rewrite Hw in Hq'; by rewrite (gq_again _ _ _ Hq q' Hq')).
  assert (keeps calm (try_infos (infos_update x)) g) as Hupd.
  { destruct (update_law x (mlm_infos g) (proj1 (gw_infos _ _ _ Hg))) as (i' & Hi' & Hr & Hin).
    unfold try_infos. apply keeps_infos. unfold keeps. apply wp_bind. eapply wp_deref; [done|].
    apply wp_modify. constructor; try done. intros Hok. by eapply infos_ok_more. }
  assert (keeps calm (try_infos (infos_add x)) g) as Hadd.
  { destruct (add_law x (mlm_infos g) (proj1 (gw_infos _ _ _ Hg))) as (i' & Hi' & Hr & Hin).
    unfold try_infos. apply keeps_infos. unfold keeps. apply wp_bind. eapply wp_deref; [done|].
    apply wp_modify. constructor; try done. intros Hok. by eapply infos_ok_more. }
  destruct b.
  - eapply wp_mono; [exact Hupd|]. intros [] g' ?. by apply HQ.
  - apply wp_bind. eapply wp_mono; [exact Hadd|]. intros [] g' ?.
    eapply wp_mono; [apply keeps_notify|]. intros [] g'' ?. apply HQ. by etransitivity.
Qed.

Lemma wp_create_or_update xs q method reused g Q :
  places xs (mlm_store g) → infos_ok (mlm_infos g) → good_request q →
  (∀ m, reused = Some m → ∃ r, record_of (mlm_store g) m = Some r ∧ ready_for xs (mlm_store g) m r q) →
  (∀ mo ro cold g', grown xs g g' →
     (∀ m, mo = Some m → ∃ r, ro = Some r ∧ ready_for xs (mlm_store g') m r q) → Q (mo, ro, cold) g') →
  wp (create_or_update restartMax indeterminate_locked q method reused) Q g.
Proof.
  intros H Hi Hq Hreused HQ. unfold create_or_update.
  apply wp_bind, wp_gets, wp_bind, wp_gets, wp_bind, wp_gets, wp_bind, wp_gets. cbv zeta.
  match goal with |- context [default (fresh_info _) ?f] => set (found := f) end.
  apply wp_bind. apply (wp_choose_info xs q method g); [done..|].
  intros [x|] g1 Hg1 Hs1 Hx.
  2: { apply wp_ret, HQ; [done|]. intros m Hm. destruct (Hreused m Hm) as (r & Hr & Hready).
       exists r. rewrite Hm. split; [done|]. by rewrite Hs1. }
  destruct (Hx x eq_refl) as [Hxn Hxw]. clear Hx. apply wp_bind.
  match goal with |- wp _ ?P g1 => assert (∀ m r cold g2, grown xs g g2 →
    ready_for xs (mlm_store g2) m r q → P (m, Some r, cold) g2) as Hrest end.
  { intros m r cold g2 Hg2 Hready. apply wp_bind.
    assert (∀ g3, calm g2 g3 → wp (if ai_isLauncherApp (rq_info q) then mret tt
       else match (info ← found; if 0 <? info_id info then Some info else None) with
            | Some _ => try_infos (infos_update x)
            | None => _ ← try_infos (infos_add x); notify (NotifyMissionCreated (info_id x))
            end) (λ _ g4, wp (mret (Some m, Some r, cold)) Q g4) g3) as Hlast.
    { intros g3 H3. pose proof (grown_calm _ _ _ _ Hg2 H3) as Hg3.
      assert (∀ g4, calm g3 g4 → Q (Some m, Some r, cold) g4) as Hend.
      { intros g4 H4. apply HQ; [by eapply grown_calm|]. intros m' ?; simplify_eq. exists r. split; [done|].
        eapply ready_for_extends; [|done]. apply same_shape_extends.
        etransitivity; [apply H3|apply H4]. }
      destruct (ai_isLauncherApp (rq_info q)) eqn:Hl; [apply wp_ret, wp_ret, Hend; by constructor|].
      destruct (info ← found; _) as [y|].
      - apply (wp_store_info xs g g3 x q true); done.
      - apply (wp_store_info xs g g3 x q false); done. }
    destruct (decide _).
    - apply wp_bind. eapply wp_deref; [done|].
      eapply wp_mono; [apply (keeps_calm_st GenerateAbilityRequest launcher_name), keeps_upd_record; done|].
      intros [] g3 H3. apply wp_bind. by apply Hlast.
    - apply wp_ret, wp_bind. apply Hlast. by constructor. }
  destruct reused as [m|].
  - destruct (Hreused m eq_refl) as (r & Hr & Hready). apply wp_bind.
    eapply wp_mono; [apply (keeps_calm_st GenerateAbilityRequest launcher_name), keeps_upd_mission|].
    { intros ms. unfold UpdateMissionId. by destruct ((method =? m_startMethod ms) && (0 <? info_id x)). }
    intros [] g2 H2. apply wp_ret. rewrite Hr. apply Hrest; [by eapply grown_calm|].
    eapply ready_for_extends; [apply same_shape_extends, H2|]. by rewrite Hs1.
  - apply wp_bind, wp_st, (wp_make_mission launcher_name xs).
    { rewrite Hs1. done. }
    intros m r s2 E P Hready _. apply wp_ret. apply Hrest.
    + destruct Hg1. constructor; try done. by etransitivity.
    + exists (rq_info q). split; [|done]. by rewrite (gq_name _ _ _ Hq), <- (gq_app _ _ _ Hq).
Qed.

Lemma wp_GetTargetMissionAndAbility xs q g Q :
  places xs (mlm_store g) → infos_ok (mlm_infos g) → good_request q →
  (∀ mo ro cold g', grown xs g g' →
     (∀ m, mo = Some m → ∃ r, ro = Some r ∧ ready_for xs (mlm_store g') m r q) → Q (mo, ro, cold) g') →
  wp (GetTargetMissionAndAbility restartMax indeterminate_locked q) Q g.
Proof.
  intros H Hi Hq HQ. unfold GetTargetMissionAndAbility. apply wp_bind, wp_gets.
  destruct (GetReusedMission (mlm_store g) q) as [m|] eqn:Hm.
  2: { by apply (wp_create_or_update xs). }
  destruct (reused_ready _ _ _ _ H Hm) as (r & Hr & Hready). pose proof Hready as (info & (ms & a & Hok & _) & _).
  eapply wp_st_mission; [apply Hok|]. destruct Hok as (Hms & Hmr & Ha & Ham). rewrite Hmr.
  apply wp_bind. eapply wp_mono; [apply (keeps_calm_st GenerateAbilityRequest launcher_name), keeps_upd_record; done|].
  intros [] g1 H1. assert (ready_for xs (mlm_store g1) m r q) as Hready1
    by (eapply ready_for_extends; [apply same_shape_extends, H1|done]).
  assert (grown xs g g1) as Hg1 by (eapply grown_calm; [|done]; by constructor).
  destruct (negb _).
  - apply wp_ret, HQ; [done|]. intros m' ?; simplify_eq. by exists r.
  - apply (wp_create_or_update xs); [apply Hg1|apply Hg1|done| |].
    + intros m' ?; simplify_eq. exists r. split; [|done].
      rewrite (same_shape_record_of _ _ _ (calm_shape _ _ _ _ H1)). unfold record_of. by rewrite Hms.
    + intros mo ro cold g2 Hg2 Hmo. apply HQ; [|done]. destruct Hg1, Hg2. constructor; try done; try congruence.
      by etransitivity.
Qed.

(** * Starts *)

(** The started mission is on top of the front list, with the name of the request;
    it is in the launcher list exactly for launcher applications. *)
Definition at_front_for s (q : AbilityRequest) : Prop :=
  ∃ t m ms r a, at_front s t m ∧ mission_ok s m ms r a ∧ m_missionName ms = request_name q ∧
    bool_decide (t = st_launcherList s) = ai_isLauncherApp (rq_info q).

Lemma at_front_for_shape s s' q : same_shape s s' → at_front_for s q → at_front_for s' q.
Proof.
  intros S (t & m & ms & r & a & [H1 H2] & Hok & Hn & Hl).
  destruct (mission_ok_extends _ _ _ _ _ _ (same_shape_extends _ _ S) Hok) as (ms' & a' & Hok' & He & _).
  injection He as E1 E2 E3. exists t, m, ms', r, a'. unfold at_front.
  rewrite (ss_current _ _ S), (same_shape_missions_of _ _ _ S), (ss_launcher _ _ S).
  split_and!; try done. congruence.
Qed.

Lemma good_after_start xs g0 g g' :
  good g0 → places xs (mlm_store g) → no_empty (mlm_store g) → grown xs g g' →
  waittingAbilityQueue_ g = waittingAbilityQueue_ g0 → listenerController_ g = listenerController_ g0 →
  good g'.
Proof.
  intros Hg0 H Hn Hg' Hq Hl. destruct Hg0, Hg'. constructor; [|done|congruence|congruence].
  split; [by eapply places_forget|]. by eapply extends_no_empty.
Qed.

Definition start_body (currentTop caller : option RRef) (q : AbilityRequest) : ST (MLM I) ErrCode :=
  target ← st (GetTargetMissionListForStart caller q);
  match target with
  | None => mret CREATE_MISSION_STACK_FAILED
  | Some targetList =>
      t ← GetTargetMissionAndAbility restartMax indeterminate_locked q;
      match t with
      | (Some m, Some r, _) =>
          _ ← st (upd_record r (λ a, a <| r_launchReason :=
                 if IsContinuation q then LAUNCHREASON_CONTINUATION
                 else LAUNCHREASON_START_ABILITY |>));
          _ ← st (AddCallerRecord r (rq_callerToken q) (rq_requestCode q));
          s ← store;
          _ ← st (MoveMissionToTargetList (isLauncherRecord s caller) targetList m);
          _ ← st (MoveMissionListToTop targetList);
          match currentTop with
          | None =>
              a ← st (the_record r);
              _ ← (if ai_isLauncherApp (r_info a)
                   then st (upd_record r (λ a, a <| r_isLauncherRoot := true |>)) else mret tt);
              st (LoadAbility app_load r)
          | Some _ => _ ← st (ProcessForegroundAbility app_load r 0); mret ERR_OK
          end
      | _ => mret ERR_INVALID_VALUE
      end
  end.

Lemma StartAbilityLocked_eq currentTop caller q :
  StartAbilityLocked app_load restartMax indeterminate_locked currentTop caller q
  = holding (option_list currentTop ++ option_list caller) (start_body currentTop caller q).
Proof. done. Qed.

(** What a failed start answers. *)
Definition start_failed (e : ErrCode) : Prop := e = CREATE_MISSION_STACK_FAILED ∨ e = ERR_INVALID_VALUE.

(** What a start does: the queue stays, and unless the start failed the mission
    is in front. *)
Definition served g (q : AbilityRequest) (e : ErrCode) g' : Prop :=
  waittingAbilityQueue_ g' = waittingAbilityQueue_ g ∧ (start_failed e ∨ at_front_for (mlm_store g') q).

(** The last steps, with the mission on top of the front list. *)
Lemma wp_start_tail (currentTop : option RRef) r q g0 g :
  good g → safe g0 g → known_record (mlm_store g) r → at_front_for (mlm_store g) q →
  waittingAbilityQueue_ g = waittingAbilityQueue_ g0 →
  wp (match currentTop with
      | None =>
          a ← st (the_record r);
          _ ← (if ai_isLauncherApp (r_info a)
               then st (upd_record r (λ a, a <| r_isLauncherRoot := true |>)) else mret tt);
          st (LoadAbility app_load r)
      | Some _ => _ ← st (ProcessForegroundAbility app_load r 0); mret ERR_OK
      end) (λ e g', safe g0 g' ∧ served g0 q e g') g.
Proof.
  intros Hg Hs Hr Hf HQ.
  match goal with |- wp ?c _ _ => assert (keeps calm c g) as Hk by (destruct currentTop; solve_calm) end.
  eapply wp_mono; [exact Hk|]. intros e g' Hg'. split.
  - etransitivity; [done|]. by apply calm_safe.
  - split; [by rewrite (calm_queue _ _ _ _ Hg')|]. right. by eapply at_front_for_shape; [apply Hg'|].
Qed.

(** From the target list on: places of the mission, then the move. *)
Lemma wp_start_move t m r b q s0 g (k : unit → ST (MLM I) ErrCode) Q :
  good_request q → places [t] (mlm_store g) → no_empty (mlm_store g) → target_list [t] (mlm_store g) t →
  bool_decide (t = st_launcherList (mlm_store g)) = ai_isLauncherApp (rq_info q) →
  ready_for [t] (mlm_store g) m r q → infos_ok (mlm_infos g) → listenerController_ g = true →
  Forall good_request (waittingAbilityQueue_ g) → grows s0 (mlm_store g) →
  (∀ g', good g' → grows s0 (mlm_store g') → known_record (mlm_store g') r →
     waittingAbilityQueue_ g' = waittingAbilityQueue_ g → at_front_for (mlm_store g') q → wp (k tt) Q g') →
  wp (_ ← st (MoveMissionToTargetList b t m); x ← st (MoveMissionListToTop t); k x) Q g.
Proof.
  intros Hq P N T L (info & Hready & _) Hi Hl Hw Hgr HQ. apply wp_st_seq.
  pose proof Hready as (ms & a & Hok & Hn & _).
  eapply (wp_to_front launcher_name b t m r); try done.
  { by rewrite L, (gq_name _ _ _ Hq). } { by rewrite L, (gq_name _ _ _ Hq). }
  intros s' Ht R F. destruct (mission_ok_frame _ _ _ _ _ _ R Hok) as (ms' & a' & Hok' & Hn' & _).
  apply HQ.
  - by constructor.
  - etransitivity; [done|]. by apply relisted_grows.
  - exists a'. apply Hok'.
  - done.
  - exists t, m, ms', r, a'. split_and!; [done|done|congruence|].
    change (st_launcherList (mlm_store (g <| mlm_store := s' |>))) with (st_launcherList s').
    assert (st_launcherList s' = st_launcherList (mlm_store g)) as -> by apply R. done.
Qed.

Lemma wp_start_body currentTop caller q g :
  good g → good_request q → (∀ c, caller = Some c → known_record (mlm_store g) c) →
  wp (start_body currentTop caller q)
    (λ e g', safe g g' ∧ served g q e g') g.
Proof.
  intros Hg Hq Hc. unfold start_body. apply wp_bind, wp_st.
  eapply wp_mono; [by apply (wp_GetTargetMissionListForStart launcher_name); [apply Hg|apply Hq|]|].
  intros [t|] s1; [intros [(P1 & N1 & T1 & G1) L1]|intros ->].
  2: { apply wp_ret. split; [|split; [done|by left; left]]. by destruct g. }
  set (g1 := g <| mlm_store := s1 |>). apply wp_bind.
  apply (wp_GetTargetMissionAndAbility [t] q g1); [done|apply Hg|done|].
  intros mo ro cold g2 Hg2 Hmo.
  assert (good g2 ∧ safe g g2) as [Hgood2 Hsafe2].
  { assert (good g2) as Hgood by by eapply (good_after_start [t] g g1). split; [done|].
    constructor; [done|..].
    - intros r Hr. eapply known_record_extends; [apply Hg2|]. by apply G1.
    - intros m Hm. eapply known_mission_extends; [apply Hg2|]. by apply G1. }
  destruct mo as [m|], ro as [r|]; try by (apply wp_ret; split; [done|split; [apply Hg2|by left; right]]).
  destruct (Hmo m eq_refl) as (r' & [= <-] & Hready).
  assert (known_record (mlm_store g2) r) as Hkr
    by (destruct Hready as (info & (ms & a & (_ & _ & Ha & _) & _) & _); by exists a).
  pose proof (gw_places _ _ _ Hg2) as P2. pose proof (gw_extends _ _ _ Hg2) as E2.
  apply wp_bind. eapply wp_mono; [apply (keeps_calm_st GenerateAbilityRequest launcher_name), keeps_upd_record; done|].
  intros [] g3 C3. apply wp_bind.
  eapply wp_mono; [apply (keeps_calm_st GenerateAbilityRequest launcher_name), keeps_AddCallerRecord|].
  intros [] g4 C4. assert (calm g2 g4) as C by (by etransitivity). clear g3 C3 C4.
  apply wp_bind, wp_gets. cbv beta.
  assert (good g4) as Hgood4 by by eapply calm_good.
  pose proof (same_shape_extends _ _ (calm_shape _ _ _ _ C)) as E4.
  assert (extends s1 (mlm_store g4)) as E by (etransitivity; [exact E2|exact E4]).
  apply (wp_start_move t m r _ q (mlm_store g) g4).
  - done.
  - eapply places_shape; [apply C|done].
  - exact (extends_no_empty _ _ E N1).
  - exact (extends_target_list _ _ _ _ E T1).
  - by rewrite (ex_launcher _ _ E).
  - exact (ready_for_extends _ _ _ _ _ _ E4 Hready).
  - apply Hgood4.
  - apply Hgood4.
  - apply Hgood4.
  - etransitivity; [exact G1|]. by apply extends_grows.
  - intros g5 Hgood5 Gr5 Hk5 HQ5 Hf5. apply wp_start_tail; [done| |done|done|].
    + constructor; [done|apply Gr5|apply Gr5].
    + by rewrite HQ5, (calm_queue _ _ _ _ C), (gw_queue _ _ _ Hg2).
Qed.

Lemma wp_StartAbilityLocked_front currentTop caller q g :
  good g → good_request q →
  (∀ r, r ∈ option_list currentTop ++ option_list caller → known_record (mlm_store g) r) →
  wp (StartAbilityLocked app_load restartMax indeterminate_locked currentTop caller q)
    (λ e g', safe g g' ∧ served g q e g') g.
Proof.
  intros Hg Hq Hr. rewrite StartAbilityLocked_eq. apply wp_holding; [done|done|done|].
  intros g1 Hg1 Hk HQ. unfold served. rewrite <- HQ. apply wp_start_body; [done|done|].
  intros c ->. apply Hk, Hr. rewrite elem_of_app. right. left.
Qed.

Lemma wp_StartAbilityLocked currentTop caller q g :
  good g → good_request q →
  (∀ r, r ∈ option_list currentTop ++ option_list caller → known_record (mlm_store g) r) →
  keeps safe (StartAbilityLocked app_load restartMax indeterminate_locked currentTop caller q) g.
Proof.
  intros. unfold keeps. eapply wp_mono; [by apply wp_StartAbilityLocked_front|]. by intros e g' [? _].
Qed.

(** * Termination *)

Lemma good_safe g s :
  good g → tidy s → grows (mlm_store g) s → safe g (g <| mlm_store := s |>).
Proof. intros Hg Hs Hgr. constructor; [by intros _; apply good_store|apply Hgr|apply Hgr]. Qed.

Lemma next_top_known s l n : next_top s l = Some n → known_record s n.
Proof.
  unfold next_top. destruct (if IsEmpty s l then _ else _) as [top|]; [|done]. cbn [mbind option_bind].
  destruct (st_records s !! top) as [a|] eqn:Ha; [|done]. cbn [mbind option_bind].
  destruct (_ && _).
  - intros Hn. destruct (ListGetLauncherRoot_placed _ _ _ Hn) as (m & a' & _ & _ & Ha' & _). by exists a'.
  - intros [= <-]. by exists a.
Qed.

(** Steps 2 to 5 of [RemoveTerminatingAbility]. *)
Lemma calm_choose_next r l a flag g :
  good g → known_record (mlm_store g) r →
  keeps calm (_ ← st (upd_record r (λ a, a <| r_nextAbility := None |>));
    if negb (IsForeground a) || negb flag then mret tt
    else
      s2 ← store;
      match next_top s2 l with
      | None => mret tt
      | Some n =>
          na ← st (the_record n);
          if negb (IsForeground na) && negb (r_minimizeReason na)
          then st (upd_record r (λ a, a <| r_nextAbility := Some n |>)) else mret tt
      end) g.
Proof.
  intros Hg Hr. calm_step; [solve_calm|]. calm_step; [solve_calm|]. calm_step. calm_step; [|solve_calm].
  assert (known_record (mlm_store s') p) by by eapply next_top_known. solve_calm.
Qed.

Definition terminating s r : Prop := ∃ a, st_records s !! r = Some a ∧ r_isTerminating a = true.

Lemma terminating_shape s s' r : same_shape s s' → terminating s r → terminating s' r.
Proof. intros S (a & Ha & Ht). destruct (ss_terminating _ _ S r a Ha Ht) as (a' & ? & ?). by exists a'. Qed.

Lemma terminating_relisted s s' r : relisted s s' → terminating s r → terminating s' r.
Proof.
  intros R (a & Ha & Ht). destruct (lookup_shape _ _ _ _ _ (sf_records _ _ R) Ha) as (a' & Ha' & He).
  exists a'. split; [done|]. rewrite <- Ht. exact (f_equal r_isTerminating He).
Qed.

Lemma emit_shape e s : same_shape s (s <| st_trace ::= λ t, t ++ [e] |>).
Proof. apply (keeps_emit s e). Qed.

Lemma in_lists_lock launcher s r a :
  MissionPlaces.tidy launcher s → in_lists s r → st_records s !! r = Some a → is_Some (lock_list s (r_missionList a)).
Proof.
  intros [H _] (l & m & Hl & Hm & Hr) Ha.
  destruct (pl_placed _ _ _ H l m) as (ms & r' & a' & (Hms & Hr' & Ha' & _) & _ & Hrl & _);
    [rewrite elem_of_app; by left|done|].
  unfold record_of in Hr. rewrite Hms in Hr. cbn in Hr.
  assert (a' = a) as -> by congruence. unfold lock_list. rewrite Hrl. cbn. rewrite decide_True by done. by eexists.
Qed.

Lemma lock_list_live s o l : lock_list s o = Some l → l ∈ live_lists s.
Proof. unfold lock_list. destruct o as [l'|]; [|done]. cbn. case_decide; [|done]. by intros [= <-]. Qed.

Lemma wp_RemoveTerminatingAbility r flag g :
  good g → terminating (mlm_store g) r →
  wp (RemoveTerminatingAbility r flag) (λ _ g', safe g g' ∧ terminating (mlm_store g') r ∧
    (in_lists (mlm_store g) r ∨ r ∈ st_terminateAbilityList (mlm_store g) →
     r ∈ st_terminateAbilityList (mlm_store g'))) g.
Proof.
  intros Hg (a & Ha & Ht). unfold RemoveTerminatingAbility. apply wp_bind, wp_gets.
  unfold GetAbilityFromTerminateList. cbn [mbind option_bind]. destruct (decide _) as [Hin|Hnin].
  { eapply wp_mono; [apply (keeps_calm_st GenerateAbilityRequest launcher_name), keeps_upd_record; done|].
    intros [] g' C. split_and!; [by apply calm_safe| |].
    - eapply terminating_shape; [apply C|by exists a].
    - intros _. by rewrite (ss_terminate _ _ (calm_shape _ _ _ _ C)). }
  eapply wp_st_record; [done|].
  destruct (lock_list (mlm_store g) (r_missionList a)) as [l|] eqn:Hl.
  2: { apply wp_ret. split_and!; [done|by exists a|]. intros [Hin|?]; [|done].
       destruct (in_lists_lock _ _ _ _ (good_tidy _ _ _ Hg) Hin Ha). congruence. }
  pose proof (lock_list_live _ _ _ Hl) as Hll. pose proof (good_tidy _ _ _ Hg) as Htidy.
  set (s := mlm_store g) in *.
  set (s1 := edit_list (erase_first (λ m, bool_decide (record_of s m = Some r))) l s).
  set (s2 := push_terminating r (s1 <| st_trace ::= λ t, t ++ [AppPrepareTerminate r] |>)).
  assert (tidy_but launcher_name l s2) as B2.
  { apply (tidy_but_push _ _ _ a); try done.
    - eapply tidy_but_shape; [apply emit_shape|]. apply tidy_shrink; [|done].
      intros ms. apply erase_first_sublist.
    - intros l' m Hl' Hm. by apply (removed_by_record launcher_name l r a s (proj1 Htidy) Ha Hl l' m). }
  assert (grows s s2) as Gr2.
  { destruct (grows_edit (erase_first (λ m, bool_decide (record_of s m = Some r))) l s). by constructor. }
  eapply (wp_st_eq _ tt s1); [done|]. eapply (wp_st_eq _ tt (s1 <| st_trace ::= λ t, t ++ [AppPrepareTerminate r] |>)); [done|].
  eapply (wp_st_eq _ tt s2); [done|]. to_state (g <| mlm_store := s2 |>).
  apply wp_store. change (mlm_store (g <| mlm_store := s2 |>)) with s2.
  apply wp_bind, wp_st_if. change (mlm_store (g <| mlm_store := s2 |>)) with s2.
  assert (terminating s2 r) as Hterm2 by by exists a.
  assert (r ∈ st_terminateAbilityList s2) as Hin2 by (unfold s2, push_terminating; store_cbn; set_solver).
  apply (wp_remove_if_empty launcher_name); [done|]. intros ls _ T3.
  set (s3 := s2 <| st_currentMissionLists := ls |>) in *.
  assert (relisted s2 s3) as R3 by apply relisted_relist. set (g3 := g <| mlm_store := s3 |>). to_state g3.
  assert (good g3) as Hg3 by by apply good_store.
  assert (safe g g3) as S3
    by (apply good_safe; [done|done|etransitivity; [exact Gr2|by apply relisted_grows]]).
  assert (known_record (mlm_store g3) r) as Hk by (apply (safe_record _ _ S3); by exists a).
  eapply wp_mono; [by apply calm_choose_next|]. intros [] g4 C4. split_and!.
  - etransitivity; [done|]. by apply calm_safe.
  - eapply terminating_shape; [apply C4|]. by eapply terminating_relisted.
  - intros _. rewrite (ss_terminate _ _ (calm_shape _ _ _ _ C4)).
    assert (st_terminateAbilityList s3 = st_terminateAbilityList s2) as E by apply R3.
    change (mlm_store g3) with s3. by rewrite E.
Qed.

Lemma terminating_known s r : terminating s r → known_record s r.
Proof. intros (a & ? & _). by exists a. Qed.

(** Listed, or already put aside to terminate. *)
Definition listed s r : Prop := in_lists s r ∨ r ∈ st_terminateAbilityList s.

Lemma wp_TerminateAbilityLocked r flag g :
  good g → terminating (mlm_store g) r →
  wp (TerminateAbilityLocked app_load r flag) (λ e g', safe g g' ∧ e = ERR_OK ∧
    terminating (mlm_store g') r ∧
    (listed (mlm_store g) r → r ∈ st_terminateAbilityList (mlm_store g'))) g.
Proof.
  intros Hg Hr. unfold TerminateAbilityLocked. apply wp_bind.
  eapply wp_mono; [by apply wp_RemoveTerminatingAbility|]. intros [] g1 (S1 & T1 & L1). cbv beta.
  assert (good g1) as Hg1 by by apply S1. pose proof (terminating_known _ _ T1) as K1.
  match goal with |- wp ?c _ _ => assert (wp c (λ e g', calm g1 g' ∧ e = ERR_OK) g1) as Hk end.
  - apply wp_bind. eapply wp_mono.
    { apply (keeps_calm_st GenerateAbilityRequest launcher_name), keeps_SendResultToCallers; [|done].
      by eapply good_live_known. }
    intros [] g2 C2. assert (known_record (mlm_store g2) r) as [a Ha] by by eapply known_record_calm.
    assert (good g2) as Hg2 by by eapply calm_good.
    eapply wp_st_record; [done|]. apply wp_store.
    assert (∀ c : ST (MLM I) unit, keeps calm c g2 → wp (_ ← c; mret ERR_OK) (λ e g', calm g1 g' ∧ e = ERR_OK) g2) as Hc.
    { intros c Hc. apply wp_bind. eapply wp_mono; [exact Hc|]. intros [] g3 C3. apply wp_ret.
      split; [by etransitivity|done]. }
    destruct (IsForeground a); [apply Hc; solve_calm|]. destruct (IsAbilityState BACKGROUND a).
    + apply Hc. solve_calm.
    + by apply wp_ret.
  - eapply wp_mono; [exact Hk|]. intros e g2 [C2 ->]. split_and!.
    + etransitivity; [done|]. by apply calm_safe.
    + done.
    + eapply terminating_shape; [apply C2|done].
    + intros Hl. rewrite (ss_terminate _ _ (calm_shape _ _ _ _ C2)). by apply L1.
Qed.

Lemma calm_set_terminating r g : keeps calm (st (upd_record r (λ a, a <| r_isTerminating := true |>))) g.
Proof. solve_calm. Qed.

Lemma wp_set_terminating {B} r (k : unit → ST (MLM I) B) Q g :
  known_record (mlm_store g) r →
  (∀ g', calm g g' → terminating (mlm_store g') r → wp (k tt) Q g') →
  wp (st (upd_record r (λ a, a <| r_isTerminating := true |>)) ≫= k) Q g.
Proof.
  intros [a Ha] HQ. apply wp_bind, wp_st.
  set (s := (mlm_store g) <| st_records ::= alter (λ a, a <| r_isTerminating := true |>) r |>).
  assert (calm g (g <| mlm_store := s |>)) as C.
  { constructor; try done. apply same_shape_upd_record. by intros ?. }
  change (wp (k tt) Q (g <| mlm_store := s |>)). apply HQ; [done|].
  change (mlm_store (g <| mlm_store := s |>)) with s. eexists. unfold s. store_cbn.
  rewrite lookup_alter_eq, Ha. done.
Qed.

Lemma listed_shape s s' r : same_shape s s' → listed s r → listed s' r.
Proof.
  intros S [(l & m & Hl & Hm & Hr)|Hr]; [left|right].
  - exists l, m. by rewrite (same_shape_live_lists _ _ S), (same_shape_missions_of _ _ _ S), (same_shape_record_of _ _ _ S).
  - by rewrite (ss_terminate _ _ S).
Qed.

Lemma token_listed s r r' : GetAbilityRecordByToken s (Some r) = Some r' → r' = r ∧ listed s r.
Proof.
  unfold GetAbilityRecordByToken. cbn [mbind option_bind]. destruct (decide _) as [Hr|].
  - intros [= <-]. split; [done|by right].
  - intros (l & Hl & Hf)%first_some_Some. unfold ListGetAbilityRecordByToken in Hf.
    destruct (List.find _ _) as [m|] eqn:Hfind; [|done]. cbn in Hf. apply find_Some_elem in Hfind as [Hm Ht].
    bool_to_prop. split; [congruence|]. left. exists l, m. split_and!; try done.
    eapply current_then_live; [|done]. solve_live.
Qed.

Lemma wp_TerminateAbility r code w flag g :
  good g → known_record (mlm_store g) r →
  wp (TerminateAbility app_load r code w flag) (λ e g', safe g g' ∧ e = ERR_OK ∧
    (∀ a, st_records (mlm_store g) !! r = Some a → r_isTerminating a = false →
      is_Some (GetAbilityRecordByToken (mlm_store g) (Some r)) →
      r ∈ st_terminateAbilityList (mlm_store g'))) g.
Proof.
  intros Hg [a Ha]. unfold TerminateAbility. eapply wp_st_record; [done|]. apply wp_store.
  destruct (r_isTerminating a && negb (IsForeground a)) eqn:Hti.
  { apply wp_ret. split_and!; [done|done|]. intros a0 Ha0 Hf _. bool_to_prop. congruence. }
  cbv zeta. set (flag' := if r_isTerminating a && IsForeground a then false else flag). clearbody flag'.
  destruct (GetAbilityRecordByToken (mlm_store g) (Some r)) as [r'|] eqn:Ht.
  2: { apply wp_ret. split_and!; [done|done|]. by intros a0 _ _ [? ?]. }
  destruct (token_listed _ _ _ Ht) as [-> Hl]. apply wp_set_terminating; [by exists a|].
  intros g1 C1 T1. assert (good g1) as Hg1 by by eapply calm_good. pose proof (terminating_known _ _ T1) as K1.
  apply wp_bind. match goal with |- wp ?c _ _ => assert (keeps calm c g1) as Hk by (destruct w; solve_calm) end.
  eapply wp_mono; [exact Hk|]. intros [] g2 C2.
  eapply wp_mono; [apply wp_TerminateAbilityLocked|].
  - by eapply calm_good.
  - eapply terminating_shape; [apply C2|done].
  - intros e g3 (S3 & He & _ & L3). split_and!; [|done|].
    + do 2 (etransitivity; [apply calm_safe; eassumption|]). done.
    + intros _ _ _ _. apply L3. eapply listed_shape; [apply C2|]. by eapply listed_shape; [apply C1|].
Qed.

Lemma keeps_TerminateAbility r code w flag g :
  good g → known_record (mlm_store g) r → keeps safe (TerminateAbility app_load r code w flag) g.
Proof. intros. unfold keeps. eapply wp_mono; [by apply wp_TerminateAbility|]. by intros e g' (? & _). Qed.

Lemma wp_st_pure {A B} (c : ST Store A) (P : A → Prop) (k : A → ST (MLM I) B) Q g :
  wp c (λ a s, s = mlm_store g ∧ P a) (mlm_store g) →
  (∀ a, P a → wp (k a) Q g) → wp (st c ≫= k) Q g.
Proof.
  intros Hc HQ. apply wp_bind, wp_st. eapply wp_mono; [exact Hc|]. intros a s (-> & Ha). cbv beta.
  replace (g <| mlm_store := mlm_store g |>) with g by by destruct g. by apply HQ.
Qed.

Lemma keeps_TerminateAbilityByCaller caller code g :
  good g → keeps safe (TerminateAbilityByCaller app_load JudgeAbilityVisibleControl caller code) g.
Proof.
  intros Hg. unfold TerminateAbilityByCaller, keeps.
  eapply wp_st_pure; [exact (wp_GetAbilityRecordByCaller _ _ _ _ _ (proj1 (good_tidy _ _ _ Hg)))|].
  intros [r|] Hr; [|by apply wp_ret]. destruct (Hr r eq_refl) as [[a Ha] _].
  eapply wp_st_record; [done|]. cbv zeta. destruct (decide _); [|by apply wp_ret].
  apply keeps_TerminateAbility; [done|by exists a].
Qed.

(** ** The end of an ability *)

Lemma wp_CompleteTerminateAndUpdateMission r g :
  good g → wp (CompleteTerminateAndUpdateMission r) (λ _ g', safe g g' ∧
    st_terminateAbilityList (mlm_store g') = list_remove_all r (st_terminateAbilityList (mlm_store g))) g.
Proof.
  intros Hg. unfold CompleteTerminateAndUpdateMission. apply wp_store. destruct (decide _) as [Hr|Hr].
  2: { apply wp_ret. split; [done|]. by rewrite list_remove_all_not_in. }
  pose proof (terminate_list_known _ _ _ _ Hg Hr) as Hk.
  set (s := drop_terminating r (mlm_store g)).
  eapply (wp_st_eq _ tt s); [done|]. set (g1 := g <| mlm_store := s |>). to_state g1.
  assert (good g1) as Hg1 by (apply good_store; [done|apply tidy_drop_terminating, Hg]).
  assert (safe g g1) as S1 by by constructor.
  assert (known_record (mlm_store g1) r) as K1 by done.
  match goal with |- wp ?c _ _ => assert (keeps calm c g1) as Hkeep by solve_calm end.
  eapply wp_mono; [exact Hkeep|]. intros [] g2 C2. split.
  - etransitivity; [done|]. by apply calm_safe.
  - by rewrite (ss_terminate _ _ (calm_shape _ _ _ _ C2)).
Qed.

Lemma keeps_CompleteTerminateAndUpdateMission r g :
  good g → keeps safe (CompleteTerminateAndUpdateMission r) g.
Proof.
  intros. unfold keeps. eapply wp_mono; [by apply wp_CompleteTerminateAndUpdateMission|]. by intros [] g' [? _].
Qed.

Lemma keeps_CompleteTerminate r g :
  good g → known_record (mlm_store g) r → keeps safe (CompleteTerminate app_terminate r) g.
Proof.
  intros Hg [a Ha]. unfold CompleteTerminate, keeps. eapply wp_st_record; [done|].
  destruct (negb _); [by apply wp_ret|]. apply wp_bind.
  eapply wp_mono; [apply (keeps_calm_st GenerateAbilityRequest launcher_name), keeps_RecordTerminateAbility|].
  intros z g1 C1.
  eapply wp_mono; [exact (keeps_CompleteTerminateAndUpdateMission r g1 (calm_good _ _ _ _ C1 Hg))|].
  intros [] g2 S2. transitivity g1; [by apply calm_safe|done].
Qed.

(** ** Clearing missions *)

Lemma keeps_ClearMissionLocked id (o : option MRef) g :
  good g → (∀ m, o = Some m → known_mission (mlm_store g) m) →
  keeps safe (ClearMissionLocked app_load id o) g.
Proof.
  intros Hg Hm. unfold ClearMissionLocked. apply (keeps_bind _).
  { apply keeps_calm_safe. destruct (id =? -1); solve_calm. }
  intros _ g1 _ S1. destruct o as [m|]; [|by apply (keeps_ret _)].
  assert (good g1) as Hg1 by by apply S1.
  assert (known_mission (mlm_store g1) m) as [ms Hms] by (apply (safe_mission _ _ S1); by apply Hm).
  destruct (pl_owner _ _ _ (proj1 (good_tidy _ _ _ Hg1)) m ms Hms) as (r & Hr & [a Ha]).
  unfold keeps. eapply wp_st_mission; [done|]. rewrite Hr. eapply wp_st_record; [done|].
  destruct (r_isTerminating a); [by apply wp_ret|]. apply wp_set_terminating; [by exists a|].
  intros g2 C2 T2. apply wp_bind. eapply wp_mono; [apply wp_TerminateAbilityLocked; [by eapply calm_good|done]|].
  intros e g3 (S3 & -> & _). apply wp_ret. etransitivity; [by apply calm_safe|done].
Qed.

Lemma GetMissionById_known g id m :
  good g → GetMissionById (mlm_store g) id = Some m → known_mission (mlm_store g) m.
Proof.
  intros Hg (l & Hl & Hm)%GetMissionById_placed.
  destruct (pl_placed _ _ _ (proj1 (good_tidy _ _ _ Hg)) l m) as (ms & r & a & (Hms & _) & _);
    [rewrite elem_of_app; by left|done|]. by exists ms.
Qed.

Lemma keeps_ClearMission id g : good g → keeps safe (ClearMission app_load id) g.
Proof.
  intros Hg. unfold ClearMission. destruct (id <? 0); [by apply (keeps_ret _)|].
  apply keeps_store. cbv zeta.
  assert (keeps safe (ClearMissionLocked app_load id (GetMissionById (mlm_store g) id)) g) as Hk.
  { apply keeps_ClearMissionLocked; [done|]. intros m. by apply GetMissionById_known. }
  destruct (m ← GetMissionById (mlm_store g) id; GetMissionList (mlm_store g) m); [|done].
  destruct (decide _); [by apply (keeps_ret _)|done].
Qed.

Definition all_known g (ms : list MRef) : Prop := ∀ m, m ∈ ms → known_mission (mlm_store g) m.

Lemma all_known_safe g g' ms : safe g g' → all_known g ms → all_known g' ms.
Proof. intros S H m Hm. apply (safe_mission _ _ S), H, Hm. Qed.

Lemma wp_clear_missions b ms aside g :
  good g → all_known g ms → all_known g aside →
  wp (clear_missions app_load b ms aside) (λ aside' g', safe g g' ∧ all_known g' aside') g.
Proof.
  revert aside g. induction ms as [|m ms IH]; intros aside g Hg Hms Ha; cbn [clear_missions].
  { by apply wp_ret. }
  destruct (Hms m) as [ms0 Hms0]; [left|].
  assert (all_known g ms) as Hms' by (intros m' Hm'; apply Hms; by right).
  apply wp_store. eapply wp_st_mission; [done|].
  destruct (m_lockedState ms0); [by apply IH|]. destruct (b && _).
  - apply IH; [done|done|]. intros m' [->|Hm']%elem_of_cons; [by exists ms0|by apply Ha].
  - apply wp_bind. eapply wp_mono.
    { apply keeps_ClearMissionLocked; [done|]. intros m' [= <-]. by exists ms0. }
    intros e g1 S1. eapply wp_mono; [apply IH|].
    + by apply S1.
    + exact (all_known_safe _ _ _ S1 Hms').
    + exact (all_known_safe _ _ _ S1 Ha).
    + intros aside' g2 [S2 H2]. split; [by transitivity g1|done].
Qed.

Lemma missions_known g l : good g → all_known g (missions_of (mlm_store g) l).
Proof. intros Hg m. apply (pl_listed _ _ _ (proj1 (good_tidy _ _ _ Hg))). Qed.

Lemma wp_clear_lists ls aside g :
  good g → all_known g aside →
  wp (clear_lists app_load ls aside) (λ aside' g', safe g g' ∧ all_known g' aside') g.
Proof.
  revert aside g. induction ls as [|l ls IH]; intros aside g Hg Ha; cbn [clear_lists]; [by apply wp_ret|].
  apply wp_store. destruct (decide _); [by apply IH|]. apply wp_bind.
  eapply wp_mono; [apply wp_clear_missions; [done|by apply missions_known|done]|].
  intros aside' g1 [S1 H1]. eapply wp_mono; [apply IH; [by apply S1|done]|].
  intros aside2 g2 [S2 H2]. split; [by transitivity g1|done].
Qed.

Lemma keeps_ClearAllMissions g : good g → keeps safe (ClearAllMissions app_load) g.
Proof.
  intros Hg. unfold ClearAllMissions. apply keeps_infos.
  pose proof (delete_all_law (mlm_infos g) (proj1 (good_infos _ _ _ Hg))) as [Hr Hin].
  destruct (infos_delete_all (mlm_infos g)) as [i' destroyed]. cbn [fst] in *.
  apply (keeps_bind _).
  { apply keeps_calm_safe. unfold keeps. apply wp_modify. constructor; try done. intros Hok. by eapply infos_ok_less. }
  intros _ g1 _ S1. apply (keeps_bind _).
  { apply keeps_calm_safe, (keeps_for_each_from _). intros id g' _ _. apply keeps_notify. }
  intros _ g2 _ S2. assert (good g2) as Hg2 by by apply S2, S1.
  unfold keeps. apply wp_store, wp_bind.
  eapply wp_mono; [apply wp_clear_missions; [done|by apply missions_known|]|].
  { by intros m ?%not_elem_of_nil. }
  intros aside3 g3 [S3 A3]. assert (good g3) as Hg3 by by apply S3. apply wp_store, wp_bind.
  eapply wp_mono; [apply wp_clear_missions; [done|by apply missions_known|done]|].
  intros aside4 g4 [S4 A4]. assert (good g4) as Hg4 by by apply S4. apply wp_store, wp_bind.
  eapply wp_mono; [by apply wp_clear_lists|].
  intros aside5 g5 [S5 A5]. assert (good g5) as Hg5 by by apply S5. apply wp_bind.
  eapply wp_mono; [apply wp_clear_missions; [done|done|]|].
  { by intros m ?%not_elem_of_nil. }
  intros aside6 g6 [S6 _]. apply wp_ret. by do 4 (etransitivity; [eassumption|]).
Qed.

(** * Leaving the lists for good *)

Definition unlisted s r : Prop :=
  ∀ l m, l ∈ live_lists s → m ∈ missions_of s l → record_of s m ≠ Some r.

(** The mission leaves its list, which goes when it was a current one and is empty. *)
Lemma wp_leave_list {B} l m ms r a (k : unit → ST (MLM I) B) Q g :
  good g → l ∈ live_lists (mlm_store g) → m ∈ missions_of (mlm_store g) l →
  mission_ok (mlm_store g) m ms r a →
  (∀ g', good g' → safe g g' → unlisted (mlm_store g') r →
     st_terminateAbilityList (mlm_store g') = st_terminateAbilityList (mlm_store g) → wp (k tt) Q g') →
  wp (_ ← st (RemoveMission l m);
      s1 ← store;
      x ← (if bool_decide (GetType s1 l = CURRENT) && IsEmpty s1 l then st (RemoveMissionList l) else mret tt);
      k x) Q g.
Proof.
  intros Hg Hl Hm Hok HQ. pose proof (good_tidy _ _ _ Hg) as Htidy. set (s := mlm_store g) in *.
  set (s1 := edit_list (list_erase_val m) l s).
  assert (l ∈ live_lists s ++ []) as Hl' by (rewrite elem_of_app; by left).
  assert (unlisted s1 r) as Hun.
  { intros l' m' Hl1 Hm1 Hr1.
    change (record_of s1 m') with (record_of s m') in Hr1. change (live_lists s1) with (live_lists s) in Hl1.
    assert (m' ∈ missions_of s l') as Hm2.
    { eapply elem_of_submseteq; [exact Hm1|]. apply sublist_submseteq, missions_of_shrink.
      intros ?. apply erase_first_sublist. }
    assert (l' ∈ live_lists s ++ []) as Hl1' by (rewrite elem_of_app; by left).
    assert (m' = m) as ->.
    { eapply placed_record_inj; [by eapply (pl_placed _ _ _ (proj1 Htidy) l' m')|
        by eapply (pl_placed _ _ _ (proj1 Htidy) l m)|done|].
      destruct Hok as (Hms & Hr & _). unfold record_of. by rewrite Hms. }
    assert (l' = l) as -> by by eapply (places_unique launcher_name [] s l' l m), Hm; [apply Htidy|..].
    unfold s1 in Hm1. rewrite missions_of_edit, fn_lookup_insert in Hm1 by by left.
    rewrite list_erase_val_nodup in Hm1 by by eapply (pl_nodup _ _ _ (proj1 Htidy)).
    apply elem_of_list_remove_all in Hm1 as [? _]. done. }
  eapply (wp_st_eq _ tt s1); [done|]. to_state (g <| mlm_store := s1 |>). apply wp_store.
  change (mlm_store (g <| mlm_store := s1 |>)) with s1.
  apply wp_bind, wp_st_if. change (mlm_store (g <| mlm_store := s1 |>)) with s1.
  apply (wp_remove_if_empty_current launcher_name); [done| |].
  { apply tidy_shrink; [|done]. intros ?. apply erase_first_sublist. }
  intros ls Hls T2. set (s2 := s1 <| st_currentMissionLists := ls |>) in *.
  set (g2 := g <| mlm_store := s2 |>). to_state g2. apply HQ.
  - by apply good_store.
  - apply good_safe; [done|done|]. etransitivity; [apply (grows_edit (list_erase_val m) l)|apply grows_relist].
  - intros l' m' Hl1. apply Hun. unfold live_lists in *. rewrite !elem_of_cons in *.
    destruct Hl1 as [?|[?|[?|Hl1]]]; [tauto..|]. do 3 right. by apply Hls.
  - done.
Qed.

Lemma keeps_MoveToTerminateList r g :
  good g → known_record (mlm_store g) r → (r ∉ st_terminateAbilityList (mlm_store g)) →
  keeps safe (MoveToTerminateList r) g.
Proof.
  intros Hg [a Ha] Hnt. unfold MoveToTerminateList, keeps. apply wp_store. eapply wp_st_record; [done|].
  destruct (lock_list (mlm_store g) (r_missionList a)) as [l|] eqn:Hl; [|by apply wp_ret].
  destruct (lock_mission (mlm_store g) (r_mission a)) as [m|] eqn:Hm; [|by apply wp_ret].
  destruct (lock_caller _ _ _ _ _ _ (good_tidy _ _ _ Hg) Ha Hm Hl) as (ms & Hok & Hll & Hml & _).
  eapply wp_st_mission; [apply Hok|]. eapply wp_leave_list; [done..|].
  intros g1 Hg1 S1 Hun Hterm. destruct (IsAbilityState INITIAL a).
  - assert (keeps calm (update_inner (m_missionId ms) (set_runningState (-1))) g1) as Hk by solve_calm.
    eapply wp_mono; [exact Hk|]. intros [] g2 C2. transitivity g1; [done|by apply calm_safe].
  - apply wp_set_terminating; [apply (safe_record _ _ S1); by exists a|].
    intros g2 C2 (a2 & Ha2 & Ht2). assert (good g2) as Hg2 by by eapply calm_good.
    apply wp_st, wp_modify. transitivity g2; [transitivity g1; [done|by apply calm_safe]|].
    apply good_safe; [done| |by constructor]. destruct (good_tidy _ _ _ Hg2) as [P2 N2]. split; [|done].
    apply (places_push _ _ r a2); [done|done|done| |].
    + by rewrite (ss_terminate _ _ (calm_shape _ _ _ _ C2)), Hterm.
    + intros l' m'. rewrite app_nil_r. rewrite (same_shape_live_lists _ _ (calm_shape _ _ _ _ C2)).
      rewrite (same_shape_missions_of _ _ _ (calm_shape _ _ _ _ C2)).
      rewrite (same_shape_record_of _ _ _ (calm_shape _ _ _ _ C2)). apply Hun.
Qed.

(** * Timeouts *)

Lemma keeps_HandleTimeoutAndResumeAbility r g :
  good g → known_record (mlm_store g) r → (r ∉ st_terminateAbilityList (mlm_store g)) →
  keeps safe (HandleTimeoutAndResumeAbility r) g.
Proof.
  intros Hg Hr Hnt. unfold HandleTimeoutAndResumeAbility. apply (keeps_bind _); [by apply keeps_MoveToTerminateList|].
  intros [] g1 _ S1. assert (good g1) as Hg1 by by apply S1.
  assert (known_record (mlm_store g1) r) as Hr1 by by apply (safe_record _ _ S1).
  apply keeps_calm_safe. calm_step; [solve_calm|]. do 2 calm_step.
  destruct (GetCallerRecord _ _) as [c|] eqn:Hc; [|unfold DelayedStartLauncher; solve_calm].
  assert (known_record (mlm_store s') c).
  { unfold GetCallerRecord in Hc. destruct (last _) as [[code c']|]; [|done].
    eapply lock_record_known; [|exact Hc]. eapply good_live_known. by eapply calm_good. }
  unfold DelayedStartLauncher, DelayedResumeTimeout. solve_calm.
Qed.

Lemma keeps_HandleLoadTimeout r g :
  good g → known_record (mlm_store g) r → (r ∉ st_terminateAbilityList (mlm_store g)) →
  keeps safe (HandleLoadTimeout r) g.
Proof.
  intros Hg [a Ha] Hnt. unfold HandleLoadTimeout. apply keeps_st_record; [by exists a|]. intros a' _.
  destruct (_ && _); [|apply keeps_HandleTimeoutAndResumeAbility; [done|by exists a|done]].
  apply keeps_calm_safe. unfold DelayedStartLauncher. solve_calm.
Qed.

Lemma keeps_HandleForgroundNewTimeout r g :
  good g → known_record (mlm_store g) r → (r ∉ st_terminateAbilityList (mlm_store g)) →
  keeps safe (HandleForgroundNewTimeout r) g.
Proof.
  intros Hg Hr Hnt. unfold HandleForgroundNewTimeout, keeps. apply wp_store. destruct Hr as [a Ha].
  eapply wp_st_record; [done|]. apply wp_bind.
  match goal with |- wp ?c _ _ => assert (keeps calm c g) as Hk by solve_calm end.
  eapply wp_mono; [exact Hk|]. intros [] g1 C1. assert (good g1) as Hg1 by by eapply calm_good.
  assert (known_record (mlm_store g1) r) as Hr1 by (eapply known_record_calm; [done|by exists a]).
  assert (safe g g1) as S1 by by apply calm_safe.
  destruct (negb _); [by apply wp_ret|]. destruct (_ && _).
  - apply calm_after; [done|]. unfold DelayedStartLauncher. solve_calm.
  - apply safe_after; [done|]. apply keeps_HandleTimeoutAndResumeAbility; [done|done|].
    by rewrite (ss_terminate _ _ (calm_shape _ _ _ _ C1)).
Qed.

Lemma in_lists_not_terminating g r :
  good g → in_lists (mlm_store g) r → r ∉ st_terminateAbilityList (mlm_store g).
Proof.
  intros Hg (l & m & Hl & Hm & Hr).
  destruct (pl_placed _ _ _ (proj1 (good_tidy _ _ _ Hg)) l m) as (ms & r' & a & (Hms & Hr' & _) & _ & _ & Hnt & _);
    [rewrite elem_of_app; by left|done|].
  unfold record_of in Hr. rewrite Hms in Hr. cbn in Hr. by simplify_eq.
Qed.

Lemma keeps_OnTimeOut msg ev g : good g → keeps safe (OnTimeOut msg ev) g.
Proof.
  intros Hg. unfold OnTimeOut, keeps.
  eapply wp_st_pure; [exact (wp_GetAbilityRecordByEventId _ _ _ _ (proj1 (good_tidy _ _ _ Hg)))|].
  intros [r|] Hr; [|by apply wp_ret]. destruct (Hr r eq_refl) as [Hk Hin].
  apply in_lists_not_terminating in Hin; [|done].
  destruct msg; try by apply wp_ret.
  - by apply keeps_HandleLoadTimeout.
  - by apply keeps_HandleForgroundNewTimeout.
  - by apply keeps_HandleForgroundNewTimeout.
Qed.

(** * To the front *)

(** A mission on its way to a list that is not the launcher list. *)
Record pending t m g g' : Prop := {
  pe_places : places [t] (mlm_store g');
  pe_no_empty : no_empty (mlm_store g');
  pe_target : t ≠ st_launcherList (mlm_store g');
  pe_ready : ∃ r name info, ready [t] (mlm_store g') m r name info false ∧ launcher_name name = false;
  pe_grows : grows (mlm_store g) (mlm_store g');
  pe_queue : waittingAbilityQueue_ g' = waittingAbilityQueue_ g;
  pe_listener : listenerController_ g' = listenerController_ g;
  pe_infos : infos_ok (mlm_infos g');
}.

Lemma pending_current g l m :
  good g → l ∈ live_lists (mlm_store g) → m ∈ missions_of (mlm_store g) l →
  GetType (mlm_store g) l = CURRENT → pending l m g g.
Proof.
  intros Hg Hl Hm Ht. pose proof (good_tidy _ _ _ Hg) as Htidy. pose proof Htidy as [P N].
  assert (list_type (mlm_store g) l = Some CURRENT) as Hty.
  { destruct (places_known_list _ _ _ l P) as [ml Hml]; [rewrite elem_of_app; by left|].
    unfold list_type, GetType in *. rewrite Hml in *. cbn. congruence. }
  assert (l ≠ st_launcherList (mlm_store g)) as Hnl
    by (intros ->; pose proof (pl_launcher _ _ _ P); congruence).
  assert (is_default_list (mlm_store g) l = false) as Hd.
  { unfold is_default_list. rewrite !bool_decide_false; [done|..]; intros ->;
      [pose proof (pl_standard _ _ _ P)|pose proof (pl_single _ _ _ P)]; congruence. }
  destruct (start_target_live launcher_name (mlm_store g) l Htidy) as (P1 & N1 & T1 & _).
  { by apply live_not_default. }
  constructor; try done; [|apply Hg].
  destruct (pl_placed _ _ _ P l m) as (ms & r & a & Hok & _ & _ & Hnt & (Hf1 & Hf2 & _));
    [rewrite elem_of_app; by left|done|]. rewrite bool_decide_false in Hf1, Hf2 by done.
  exists r, (m_missionName ms), (r_info a). split; [|done]. exists ms, a. split_and!; try done.
  left. by exists l.
Qed.

Lemma pending_default g l m :
  good g → l ∈ live_lists (mlm_store g) → m ∈ missions_of (mlm_store g) l →
  GetType (mlm_store g) l ≠ LAUNCHER →
  pending (st_next (mlm_store g)) m g (g <| mlm_store := with_new_list (mlm_store g) |>).
Proof.
  intros Hg Hl Hm Ht. pose proof (good_tidy _ _ _ Hg) as Htidy. pose proof Htidy as [P N].
  destruct (start_target_new launcher_name (mlm_store g) Htidy) as (P1 & N1 & T1 & G1).
  assert (l ≠ st_launcherList (mlm_store g)) as Hnl.
  { intros ->. pose proof (pl_launcher _ _ _ P) as Hty. destruct Ht. unfold list_type in Hty. unfold GetType.
    destruct (st_lists (mlm_store g) !! _); [|done]. cbn in Hty. congruence. }
  constructor; try done; [| |apply Hg].
  - intros E. apply (places_fresh_list _ _ _ P). rewrite elem_of_app. left.
    change (st_launcherList (mlm_store (g <| mlm_store := with_new_list (mlm_store g) |>)))
      with (st_launcherList (mlm_store g)) in E. rewrite E. unfold live_lists. left.
  - destruct (pl_placed _ _ _ P l m) as (ms & r & a & Hok & _ & _ & Hnt & (Hf1 & Hf2 & _));
      [rewrite elem_of_app; by left|done|]. rewrite bool_decide_false in Hf1, Hf2 by done.
    exists r, (m_missionName ms), (r_info a). split; [|done].
    apply (ready_new_list launcher_name []); [done|]. exists ms, a. split_and!; try done. left. by exists l.
Qed.

Lemma wp_GetTargetMissionListById id g :
  good g →
  wp (GetTargetMissionListById GenerateAbilityRequest restartMax id)
    (λ x g', match x with
             | (Some t, Some m, _) => pending t m g g' ∧
                 (∀ m', GetMissionById (mlm_store g) id = Some m' → m' = m)
             | _ => safe g g' ∧ ∀ m l, GetMissionById (mlm_store g) id = Some m →
                 GetMissionList (mlm_store g) m = Some l → GetType (mlm_store g) l = LAUNCHER
             end) g.
Proof.
  intros Hg. unfold GetTargetMissionListById. apply wp_store.
  pose proof (good_tidy _ _ _ Hg) as Htidy. pose proof Htidy as [P N].
  destruct (GetMissionById (mlm_store g) id) as [m|] eqn:Hm.
  - destruct (GetMissionById_placed _ _ _ Hm) as (l & Hl & Hlm).
    rewrite (places_GetMissionList _ _ _ _ _ P Hl Hlm).
    destruct (GetType (mlm_store g) l) eqn:Ht.
    + apply wp_ret. split; [done|]. intros m' l' [= <-]. rewrite (places_GetMissionList _ _ _ _ _ P Hl Hlm).
      by intros [= <-].
    + apply wp_ret. split; [by apply pending_current|]. by intros m' [= <-].
    + apply wp_bind, wp_st. unfold wp at 1. rewrite new_list_eq. apply wp_ret. split; [|by intros m' [= <-]].
      by apply (pending_default g l m); [| | |congruence].
    + apply wp_bind, wp_st. unfold wp at 1. rewrite new_list_eq. apply wp_ret. split; [|by intros m' [= <-]].
      by apply (pending_default g l m); [| | |congruence].
  - apply wp_bind, wp_gets. destruct (infos_get id (mlm_infos g)) as [x|] eqn:Hx; [|by apply wp_ret].
    destruct (GenerateAbilityRequest (mi_want (missionInfo x))) as [q|] eqn:Hq; [|by apply wp_ret].
    destruct (good_infos _ _ _ Hg) as [Hready Hkeys].
    destruct (Hkeys _ _ (get_law _ _ _ Hx)) as [Hname Hwant]. specialize (Hwant q Hq).
    apply wp_bind, wp_gets, wp_bind, wp_st, (wp_make_mission launcher_name [] _ _ _ _ _ _ _ _ P).
    intros m r s1 E1 P1 R1 _. cbv beta iota.
    apply wp_bind, wp_st. change (mlm_store (g <| mlm_store := s1 |>)) with s1.
    unfold wp at 1. rewrite new_list_eq. apply wp_bind, wp_gets.
    assert (listenerController_ g = true) as Hlis by apply Hg.
    apply wp_bind. match goal with |- wp (deref (if ?b then _ else _)) _ _ => change b with (listenerController_ g) end.
    rewrite Hlis. eapply wp_deref; [done|].
    apply wp_bind. unfold emit. apply wp_st, wp_modify, wp_ret. split; [|done].
    assert (no_empty s1) as N1 by by eapply extends_no_empty.
    assert (st_next s1 ≠ st_launcherList s1) as Hne.
    { intros E. apply (places_fresh_list _ _ _ P1). rewrite E, elem_of_app. left. unfold live_lists. left. }
    set (s2 := with_new_list s1). set (s3 := s2 <| st_trace ::= λ t, t ++ [NotifyMissionCreated (info_id x)] |>).
    pose proof (emit_shape (NotifyMissionCreated (info_id x)) s2) as Sh.
    change (pending (st_next s1) m g (g <| mlm_store := s3 |>)). constructor; try done.
    + eapply places_shape; [exact Sh|]. by apply places_new_list.
    + exact (no_empty_shape _ _ Sh (no_empty_new_list launcher_name [] _ P1 N1)).
    + exists r, (missionName x), (rq_info q). split; [|done]. rewrite <- Hwant.
      eapply ready_extends; [exact (same_shape_extends _ _ Sh)|]. by apply (ready_new_list launcher_name []).
    + etransitivity; [exact (extends_grows _ _ E1)|]. etransitivity; [apply grows_new_list|].
      exact (extends_grows _ _ (same_shape_extends _ _ Sh)).
Qed.

Lemma wp_pending_front {B} t m b g0 g (k : unit → ST (MLM I) B) Q :
  good g0 → pending t m g0 g →
  (∀ g' ms r a, good g' → safe g0 g' → at_front (mlm_store g') t m →
     mission_ok (mlm_store g') m ms r a → wp (k tt) Q g') →
  wp (_ ← st (MoveMissionToTargetList b t m); x ← st (MoveMissionListToTop t); k x) Q g.
Proof.
  intros Hg0 [P N T (r & name & info & Hready & Hname) Gr Hq Hl Hi] HQ. apply wp_st_seq.
  pose proof Hready as (ms & a & Hok & _).
  eapply (wp_to_front launcher_name b t m r); try done.
  { right. rewrite elem_of_app. right. left. }
  { by rewrite bool_decide_false. } { by rewrite bool_decide_false. }
  intros s' Ht R F. destruct (mission_ok_frame _ _ _ _ _ _ R Hok) as (ms' & a' & Hok' & _).
  set (g' := g <| mlm_store := s' |>).
  assert (good g') as Hg'.
  { constructor; [done|done| |].
    - change (listenerController_ g') with (listenerController_ g). rewrite Hl. apply Hg0.
    - change (waittingAbilityQueue_ g') with (waittingAbilityQueue_ g). rewrite Hq. apply Hg0. }
  assert (grows (mlm_store g0) s') as Gr' by (etransitivity; [exact Gr|by apply relisted_grows]).
  apply (HQ g' ms' r a'); try done. constructor; [done|apply Gr'|apply Gr'].
Qed.

Lemma wp_MoveMissionToFront id b mode g :
  good g →
  wp (MoveMissionToFront app_load GenerateAbilityRequest restartMax id b mode)
    (λ e g', safe g g' ∧ ∀ m l, GetMissionById (mlm_store g) id = Some m →
       GetMissionList (mlm_store g) m = Some l → GetType (mlm_store g) l ≠ LAUNCHER →
       e = ERR_OK ∧ ∃ t, at_front (mlm_store g') t m) g.
Proof.
  intros Hg. unfold MoveMissionToFront. apply wp_bind.
  eapply wp_mono; [by apply wp_GetTargetMissionListById|].
  intros [[[t|] [m|]] cold] g1; try (intros [S Hno]; apply wp_ret; split; [done|]; intros m' l Hm Hl Hty;
    by destruct (Hty (Hno m' l Hm Hl))).
  intros [Hp Hm]. eapply wp_pending_front; [done|done|]. intros g2 ms r a Hg2 S2 F2 Hok.
  eapply wp_st_mission; [apply Hok|]. pose proof Hok as (_ & Hr & Ha & _). rewrite Hr.
  assert (known_record (mlm_store g2) r) by by exists a.
  match goal with |- wp ?c _ _ => assert (wp c (λ e g', calm g2 g' ∧ e = ERR_OK) g2) as Hk end.
  { assert (keeps calm (st (upd_record r (λ a, let a := RemoveWindowMode a in
        match mode with Some w => SetWindowMode w a | None => a end))) g2) as H1
      by (apply keeps_calm_st, keeps_upd_record; intros ?; by destruct mode).
    apply wp_bind. eapply (wp_mono _ (λ _ g', calm g2 g')); [exact H1|]. intros [] g3 C3. apply wp_bind.
    eapply (wp_mono _ (λ _ g', calm g3 g')).
    { apply keeps_calm_st, keeps_ProcessForegroundAbility. by eapply known_record_calm. }
    intros [] g4 C4. apply wp_bind. eapply (wp_mono _ (λ _ g', calm g4 g')).
    { apply keeps_calm_st, keeps_upd_mission. by intros ?. }
    intros [] g5 C5. apply wp_ret. split; [|done]. transitivity g3; [done|]. by transitivity g4. }
  eapply wp_mono; [exact Hk|]. intros e g3 [C3 ->]. split; [transitivity g2; [done|by apply calm_safe]|].
  intros m' l' Hm' _ _. split; [done|]. rewrite (Hm m' Hm'). exists t. destruct F2 as [F1 F2].
  unfold at_front. rewrite (ss_current _ _ (calm_shape _ _ _ _ C3)).
  by rewrite (same_shape_missions_of _ _ _ (calm_shape _ _ _ _ C3)).
Qed.

Lemma keeps_MoveMissionToFront id b mode g :
  good g → keeps safe (MoveMissionToFront app_load GenerateAbilityRequest restartMax id b mode) g.
Proof. intros. unfold keeps. eapply wp_mono; [by apply wp_MoveMissionToFront|]. by intros e g' [? _]. Qed.

Lemma keeps_BackToCaller r g :
  good g → known_record (mlm_store g) r →
  keeps safe (BackToCaller app_load GenerateAbilityRequest restartMax r) g.
Proof.
  intros Hg [a Ha]. unfold BackToCaller, keeps. apply wp_store. eapply wp_st_record; [done|].
  destruct (_ && _); [by apply wp_ret|]. apply wp_bind.
  eapply wp_mono; [by apply keeps_MoveMissionToFront|]. intros e g' S. by apply wp_ret.
Qed.
End safety.
