(* ===== verification/ManagerEvents.v ===== *)
(** The events that reach [MissionListManager] from outside: the return to the
    launcher, deaths, starts that waited, calls, specified abilities,
    uninstallations and user switches.  Each keeps [safe]. *)

From stdpp Require Import functions.
From S2P Require Import Prelude CppString Want MissionData MissionInfo CallContainer AbilityRecord.
From S2P Require Import StoreShape MissionList MissionMoves MissionPlaces MissionTargets.
From S2P Require Import InfosInterface MissionListManager ManagerFrames ManagerSafety.
From Stdlib Require Import Ascii.

#[local] Open Scope stdpp_scope.
#[local] Open Scope Z_scope.

Implicit Types (s : Store) (l : LRef) (m : MRef) (r : RRef).

Section events.
Context {I : Type} `{!MissionInfos I, !MissionInfosLaws I}.
Context (app_load app_terminate : RRef → Z) (callee : RRef → option Z).
Context (GenerateAbilityRequest : Want → option AbilityRequest).
Context (restartMax : Z) (indeterminate_locked : bool).
Context (launcher_name : string → bool).
Implicit Types (g : MLM I).

#[local] Abbreviation places := (places launcher_name).
#[local] Abbreviation tidy := (tidy launcher_name).
#[local] Abbreviation good := (good GenerateAbilityRequest launcher_name).
#[local] Abbreviation calm := (calm GenerateAbilityRequest launcher_name).
#[local] Abbreviation safe := (safe GenerateAbilityRequest launcher_name).
#[local] Abbreviation good_request := (good_request GenerateAbilityRequest launcher_name).

Lemma launcher_live s : st_launcherList s ∈ live_lists s.
Proof. left. Qed.

(** The record of a mission in the launcher list, reached from the record. *)
Lemma launcher_mission s m r a m' :
  tidy s → m ∈ missions_of s (st_launcherList s) → record_of s m = Some r → st_records s !! r = Some a →
  lock_mission s (r_mission a) = Some m' →
  m' = m ∧ ∃ ms, mission_ok s m ms r a ∧ (r ∉ st_terminateAbilityList s) ∧
    fits launcher_name s (st_launcherList s) ms a.
Proof.
  intros [P _] Hm Hmr Ha Hlm.
  destruct (pl_placed _ _ _ P _ m (proj2 (elem_of_app _ _ _) (or_introl (launcher_live s))) Hm)
    as (ms & r' & a' & Hok & _ & _ & Hnt & Hf). pose proof Hok as (Hms & Hr' & Ha' & Ham).
  unfold record_of in Hmr. rewrite Hms in Hmr. cbn in Hmr. simplify_eq.
  unfold lock_mission in Hlm. rewrite Ham in Hlm. cbn in Hlm. case_decide; simplify_eq.
  split; [done|]. by exists ms.
Qed.

Lemma good_clear_queue g : good g → good (g <| waittingAbilityQueue_ := [] |>).
Proof. intros []. by constructor. Qed.

Lemma wp_show_launcher {B} m ms r a g (k : unit → ST (MLM I) B) Q :
  good g → m ∈ missions_of (mlm_store g) (st_launcherList (mlm_store g)) →
  mission_ok (mlm_store g) m ms r a → (r ∉ st_terminateAbilityList (mlm_store g)) →
  fits launcher_name (mlm_store g) (st_launcherList (mlm_store g)) ms a →
  (∀ g', good g' → safe g g' → at_front (mlm_store g') (st_launcherList (mlm_store g')) m →
     wp (k tt) Q g') →
  wp (_ ← st (AddMissionToTop (st_launcherList (mlm_store g)) m);
      x ← st (MoveMissionListToTop (st_launcherList (mlm_store g))); k x) Q g.
Proof.
  intros Hg Hm Hok Hnt Hf HQ. pose proof (good_tidy _ _ _ Hg) as Htidy.
  set (s := mlm_store g) in *. set (l := st_launcherList s).
  destruct (start_target_live launcher_name s l Htidy) as (P & N & T & _); [by left|].
  apply wp_st_seq, wp_bind. eapply (wp_AddMissionToTop launcher_name [l]); try done.
  { apply target_list_live, T. }
  { intros l' Hl' Hne Hm'. destruct Hne. by apply (places_unique launcher_name [l] s l' l m);
      [..|apply target_list_live, T| |]. }
  intros s1 F1 P1 M1. pose proof (sf_launcher _ _ F1) as HL.
  assert (missions_of s1 l = m :: list_remove_all m (missions_of s l)) as Hl1
    by by rewrite M1, fn_lookup_insert.
  apply (wp_MoveMissionListToTop launcher_name); [done| |left; by rewrite HL|by rewrite Hl1|].
  { intros l' Hl'. rewrite (sf_current _ _ F1) in Hl'. rewrite HL. fold l.
    destruct (decide (l' = l)) as [->|Hn]; [by left|]. right.
    rewrite M1, fn_lookup_insert_ne by done. by destruct (N l' Hl'). }
  intros s2 T2 R2 H2 M2. assert (st_launcherList s2 = st_launcherList s1) as HL2 by apply R2.
  apply (HQ (g <| mlm_store := s2 |>)).
  - by apply good_store.
  - apply good_safe; [done|done|]. etransitivity; [by apply same_frame_grows|by apply relisted_grows].
  - unfold at_front. change (mlm_store (g <| mlm_store := s2 |>)) with s2. rewrite HL2, HL, M2. by split; [|change (st_launcherList (mlm_store g)) with l; rewrite Hl1].
Qed.

Lemma keeps_BackToLauncher g : good g → keeps safe (BackToLauncher app_load) g.
Proof.
  intros Hg. unfold BackToLauncher, keeps. apply wp_store.
  destruct (ListGetLauncherRoot _ _) as [r|] eqn:Hr; [|by apply wp_ret].
  destruct (ListGetLauncherRoot_placed _ _ _ Hr) as (m & a & Hm & Hmr & Ha & _).
  eapply wp_st_record; [done|]. destruct (negb _); [by apply wp_ret|].
  destruct (lock_mission (mlm_store g) (r_mission a)) as [m'|] eqn:Hlm; [|by apply wp_ret].
  destruct (launcher_mission _ _ _ _ _ (good_tidy _ _ _ Hg) Hm Hmr Ha Hlm) as (-> & ms & Hok & Hnt & Hf).
  eapply (wp_bind (modify _)), wp_modify. set (g1 := g <| waittingAbilityQueue_ := [] |>). to_state g1.
  assert (good g1) as Hg1 by by apply good_clear_queue.
  apply (wp_show_launcher m ms r a g1); try done. intros g2 Hg2 S2 _.
  apply calm_after; [transitivity g1; [by constructor|done]|].
  apply keeps_calm_st, keeps_ProcessForegroundAbility. apply (safe_record _ _ _ _ S2). by exists a.
Qed.

(** * Shown *)

(** Calm, and no record changes at all. *)
Record quiet g g' : Prop := {
  quiet_calm : calm g g';
  quiet_records : st_records (mlm_store g') = st_records (mlm_store g);
}.

#[export] Instance quiet_preorder : PreOrder quiet.
Proof.
  split; [by intros g; constructor|]. intros g1 g2 g3 [] [].
  constructor; [by transitivity g2|congruence].
Qed.

Lemma quiet_notify e g : keeps quiet (notify e) g.
Proof.
  unfold notify, keeps. apply wp_bind, wp_gets. destruct (listenerController_ g); [|by apply wp_ret].
  apply wp_st, wp_modify. constructor; [|done]. constructor; try done. apply emit_shape.
Qed.

Lemma quiet_upd_mission m f g :
  (∀ ms, mission_shape (f ms) = mission_shape ms) → keeps quiet (st (upd_mission m f)) g.
Proof.
  intros Hf. pose proof (keeps_calm_st GenerateAbilityRequest launcher_name _ g
    (keeps_upd_mission (mlm_store g) m f Hf)) as Hk.
  unfold keeps in *. apply wp_st. unfold wp in *. unfold st in Hk. by constructor.
Qed.

Lemma quiet_update_inner id f g :
  good g → same_key f → keeps quiet (update_inner id f) g.
Proof.
  intros Hg Hf. unfold update_inner, keeps. apply wp_bind, wp_gets.
  destruct (infos_get id (mlm_infos g)) as [x|] eqn:Hx; [|by apply wp_ret].
  pose proof (keeps_update_inner GenerateAbilityRequest launcher_name id f g Hf (good_infos _ _ _ Hg)) as Hk.
  unfold keeps, update_inner in Hk. change (wp (match infos_get id (mlm_infos g) with
     | Some info => try_infos (infos_update (f info)) | None => mret tt end) (λ _ g', calm g g') g) in Hk.
  rewrite Hx in Hk. unfold try_infos in *. change (wp (i' ← deref (infos_update (f x) (mlm_infos g)); set_infos i')
    (λ _ g', calm g g') g) in Hk. change (wp (i' ← deref (infos_update (f x) (mlm_infos g)); set_infos i')
    (λ _ g', quiet g g') g).
  destruct (infos_update (f x) (mlm_infos g)) as [i'|]; [|done]. by constructor.
Qed.

Lemma wp_CompleteForegroundNew r a g :
  good g → st_records (mlm_store g) !! r = Some a →
  wp (CompleteForegroundNew r) (λ _ g', calm g g' ∧
    (∃ a', st_records (mlm_store g') !! r = Some a' ∧ r_state a' = FOREGROUND) ∧
    last (st_trace (mlm_store g')) = Some (PostTask TaskStartWaittingAbility None)) g.
Proof.
  intros Hg Ha. unfold CompleteForegroundNew.
  apply wp_bind. eapply wp_mono; [apply (keeps_calm_st GenerateAbilityRequest launcher_name), keeps_upd_record; keep_side|].
  intros [] g1 C1. destruct (known_record_calm _ _ _ _ _ C1 (mk_is_Some _ _ Ha)) as [a1 Ha1].
  pose proof (keeps_calm_st GenerateAbilityRequest launcher_name _ g1
    (keeps_upd_record (mlm_store g1) r (SetAbilityState FOREGROUND) (shape_SetAbilityState FOREGROUND))) as C2.
  apply wp_bind, wp_st, wp_modify. set (s2 := (mlm_store g1) <| st_records ::= alter (SetAbilityState FOREGROUND) r |>).
  set (g2 := g1 <| mlm_store := s2 |>). to_state g2.
  change (calm g1 g2) in C2. assert (st_records s2 !! r = Some (SetAbilityState FOREGROUND a1)) as Ha2
    by (unfold s2; store_cbn; by rewrite lookup_alter_eq, Ha1).
  eapply wp_st_record; [exact Ha2|]. set (a2 := SetAbilityState FOREGROUND a1) in *.
  assert (r_state a2 = FOREGROUND) as Hst.
  { unfold a2, SetAbilityState, SetRestarting. cbn. by destruct (_ && _). }
  assert (good g2) as Hg2 by (eapply calm_good; [exact C2|]; by eapply calm_good).
  apply wp_bind, wp_st, wp_modify.
  match goal with |- wp _ _ ?g => set (g3 := g) end.
  assert (quiet g2 g3) as Q3 by (constructor; [constructor; try done; apply emit_shape|done]).
  assert (good g3) as Hg3 by (eapply calm_good; [apply Q3|done]). apply wp_store, wp_bind.
  match goal with |- wp ?c _ _ => assert (keeps quiet c g3) as Hk end.
  { destruct (lock_mission _ _) as [m|] eqn:Hm; [|by apply (keeps_ret _)].
    destruct (lock_mission_known _ _ _ _ _ Hg3 Hm) as [ms Hms].
    unfold keeps. eapply wp_st_mission; [exact Hms|]. apply wp_bind, wp_gets, wp_bind.
    eapply wp_mono; [apply quiet_update_inner; [done|by intros x]|]. intros [] g4 Q4.
    destruct (m_isMovingToFront ms); [|by apply wp_ret]. apply wp_bind.
    eapply wp_mono; [by apply quiet_upd_mission|]. intros [] g5 Q5.
    eapply wp_mono; [apply quiet_notify|]. intros [] g6 Q6. do 2 (etransitivity; [eassumption|]). done. }
  eapply wp_mono; [exact Hk|]. intros [] g4 Q4. unfold post. apply wp_st, wp_modify.
  split_and!.
  - do 2 (etransitivity; [eassumption|]). etransitivity; [apply Q3|]. etransitivity; [apply Q4|].
    constructor; try done. apply emit_shape.
  - exists a2. split; [|done]. change (st_records (mlm_store g4) !! r = Some a2).
    rewrite (quiet_records _ _ Q4), (quiet_records _ _ Q3). exact Ha2.
  - change (last (st_trace (mlm_store g4) ++ [PostTask TaskStartWaittingAbility None])
      = Some (PostTask TaskStartWaittingAbility None)). by rewrite last_snoc.
Qed.

(** * Deaths *)

Lemma locked_placed s r a m :
  tidy s → st_records s !! r = Some a → lock_mission s (r_mission a) = Some m →
  ∃ l ms, l ∈ live_lists s ∧ m ∈ missions_of s l ∧ GetMissionList s m = Some l ∧ mission_ok s m ms r a.
Proof.
  intros [P _] Ha Hlm. unfold lock_mission in Hlm. destruct (r_mission a) as [m'|] eqn:Ham; [|done].
  cbn in Hlm. case_decide as Hm; simplify_eq. apply elem_of_live_missions in Hm as (l & Hl & Hm).
  destruct (pl_record _ _ _ P r a m Ha Ham) as (ms & Hms & Hr). exists l, ms.
  split_and!; [done|done|by eapply places_GetMissionList|done].
Qed.

Lemma keeps_HandleLauncherDied r g :
  good g → known_record (mlm_store g) r → keeps safe (HandleLauncherDied r) g.
Proof.
  intros Hg [a Ha]. unfold HandleLauncherDied, keeps. apply wp_store. eapply wp_st_record; [done|].
  destruct (lock_mission (mlm_store g) (r_mission a)) as [m|] eqn:Hm; [|by apply wp_ret].
  destruct (decide _) as [Hl|]; [|by apply wp_ret].
  assert (∀ g1, safe g g1 → wp (if IsForeground a then DelayedStartLauncher else mret tt)
    (λ _ g', safe g g') g1) as Hend.
  { intros g1 S1. apply calm_after; [done|]. unfold DelayedStartLauncher. solve_calm. }
  apply wp_bind. destruct (r_isLauncherRoot a).
  - eapply wp_mono; [apply (keeps_calm_st GenerateAbilityRequest launcher_name), keeps_upd_record; keep_side|].
    intros [] g1 C1. by apply Hend, calm_safe.
  - set (l := st_launcherList (mlm_store g)). set (s1 := edit_list (list_erase_val m) l (mlm_store g)).
    change (wp (if IsForeground a then DelayedStartLauncher else mret tt) (λ _ g', safe g g')
      (g <| mlm_store := s1 |>)). apply Hend, good_safe; [done| |apply grows_edit].
    eapply (tidy_but_close _ l); [|by right; right].
    apply tidy_shrink; [|apply (good_tidy _ _ _ Hg)]. intros ?. apply erase_first_sublist.
Qed.

Lemma keeps_HandleAbilityDiedByDefault r g :
  good g → known_record (mlm_store g) r → keeps safe (HandleAbilityDiedByDefault r) g.
Proof.
  intros Hg [a Ha]. unfold HandleAbilityDiedByDefault, keeps. apply wp_store. eapply wp_st_record; [done|].
  destruct (r_isTerminating a); [by apply keeps_CompleteTerminateAndUpdateMission|].
  destruct (lock_mission (mlm_store g) (r_mission a)) as [m|] eqn:Hm; [|by apply wp_ret].
  destruct (locked_placed _ _ _ _ (good_tidy _ _ _ Hg) Ha Hm) as (l & ms & Hl & Hml & -> & Hok).
  eapply wp_st_mission; [apply Hok|]. cbv zeta. eapply wp_leave_list; [done..|].
  intros g1 Hg1 S1 _ _. apply calm_after; [done|]. unfold DelayedStartLauncher.
  pose proof (calm_RemoveMissionLocked GenerateAbilityRequest launcher_name (m_missionId ms)) as Hrm.
  solve_calm.
Qed.

Lemma keeps_HandleAbilityDied r g :
  good g → known_record (mlm_store g) r → keeps safe (HandleAbilityDied r) g.
Proof.
  intros Hg [a Ha]. unfold HandleAbilityDied, keeps. eapply wp_st_record; [done|].
  destruct (negb _); [by apply wp_ret|]. destruct (r_isLauncherAbility a).
  - apply keeps_HandleLauncherDied; [done|by exists a].
  - apply keeps_HandleAbilityDiedByDefault; [done|by exists a].
Qed.

Lemma keeps_OnAbilityDied r user g :
  good g → known_record (mlm_store g) r → keeps safe (OnAbilityDied r user) g.
Proof.
  intros Hg [a Ha]. unfold OnAbilityDied, keeps. eapply wp_st_record; [done|]. apply wp_bind, wp_gets.
  destruct (negb _); [by apply wp_ret|]. destruct (_ && _).
  - eapply wp_mono; [apply (keeps_calm_st GenerateAbilityRequest launcher_name), keeps_upd_record; keep_side|].
    intros [] g1 C1. by apply calm_safe.
  - apply keeps_HandleAbilityDied; [done|by exists a].
Qed.

(** * Starts *)

Lemma push_all_eq from to_ : push_all from to_ = to_ ++ from.
Proof.
  revert to_. induction from as [|q from IH]; intros to_; cbn [push_all]; [by rewrite app_nil_r|].
  by rewrite IH, <- (assoc_L (++)).
Qed.

Lemma good_with_queue qs g : good g → Forall good_request qs → good (g <| waittingAbilityQueue_ := qs |>).
Proof. intros [] Hqs. by constructor. Qed.

Lemma safe_with_queue qs g : good g → Forall good_request qs → safe g (g <| waittingAbilityQueue_ := qs |>).
Proof. intros Hg Hqs. constructor; [by intros _; apply good_with_queue|done|done]. Qed.

Lemma keeps_EnqueueWaittingAbility q g :
  good g → good_request q → keeps safe (EnqueueWaittingAbility q) g.
Proof.
  intros Hg Hq. unfold EnqueueWaittingAbility, keeps. apply wp_modify.
  apply (safe_with_queue (waittingAbilityQueue_ g ++ [q])); [done|].
  apply Forall_app. split; [apply Hg|by constructor].
Qed.

Lemma keeps_EnqueueWaittingAbilityToFront q g :
  good g → good_request q → keeps safe (EnqueueWaittingAbilityToFront q) g.
Proof.
  intros Hg Hq. unfold EnqueueWaittingAbilityToFront, keeps. apply wp_modify.
  apply (safe_with_queue (push_all (waittingAbilityQueue_ g) [q])); [done|].
  rewrite push_all_eq. constructor; [done|apply Hg].
Qed.

(** The records a start holds while it runs. *)
Definition start_held g (currentTop caller : option RRef) : Prop :=
  ∀ r, r ∈ option_list currentTop ++ option_list caller → known_record (mlm_store g) r.

Lemma start_held_lookups g q :
  good g → start_held g (GetCurrentTopAbility (mlm_store g)) (GetAbilityRecordByToken (mlm_store g) (rq_callerToken q)).
Proof.
  intros Hg r. rewrite elem_of_app. intros [Hr|Hr].
  - destruct (GetCurrentTopAbility _) as [t|] eqn:Ht; [|by apply not_elem_of_nil in Hr].
    apply list_elem_of_singleton in Hr as ->. by eapply top_known.
  - destruct (GetAbilityRecordByToken _ _) as [t|] eqn:Ht; [|by apply not_elem_of_nil in Hr].
    apply list_elem_of_singleton in Hr as ->. by eapply token_known.
Qed.

Lemma keeps_StartAbilityFrom currentTop caller q g :
  good g → good_request q → start_held g currentTop caller →
  keeps safe (StartAbilityFrom app_load restartMax indeterminate_locked currentTop caller q) g.
Proof.
  intros Hg Hq Hh. unfold StartAbilityFrom. destruct (decide _).
  - apply (keeps_bind _); [by apply keeps_EnqueueWaittingAbilityToFront|]. intros _ g1 _ S1.
    apply keeps_calm_safe. solve_calm.
  - by apply wp_StartAbilityLocked.
Qed.

Lemma keeps_StartAbility q g :
  good g → good_request q → keeps safe (StartAbility app_load restartMax indeterminate_locked q) g.
Proof.
  intros Hg Hq. unfold StartAbility. apply keeps_store. cbv zeta.
  pose proof (start_held_lookups g q Hg) as Hh.
  set (top := GetCurrentTopAbility (mlm_store g)) in *.
  assert (keeps safe (StartAbilityFrom app_load restartMax indeterminate_locked top
     (GetAbilityRecordByToken (mlm_store g) (rq_callerToken q)) q) g) as Hs by by apply keeps_StartAbilityFrom.
  assert (keeps safe (_ ← EnqueueWaittingAbility q; mret START_ABILITY_WAITING) g) as He.
  { apply (keeps_bind _); [by apply keeps_EnqueueWaittingAbility|]. intros. by apply (keeps_ret _). }
  destruct top as [t|] eqn:Ht.
  - destruct (top_known GenerateAbilityRequest launcher_name g t Hg Ht) as [a Ha].
    unfold keeps. apply wp_bind. eapply wp_st_record; [done|]. apply wp_ret. by destruct (decide _).
  - unfold keeps. apply wp_bind, wp_ret. by destruct (decide _).
Qed.

Lemma keeps_StartWaittingAbility g :
  good g → keeps safe (StartWaittingAbility app_load restartMax indeterminate_locked) g.
Proof.
  intros Hg. unfold StartWaittingAbility, keeps. apply wp_store.
  destruct (GetCurrentTopAbility (mlm_store g)) as [t|] eqn:Ht; [|by apply wp_ret].
  destruct (top_known GenerateAbilityRequest launcher_name g t Hg Ht) as [a Ha].
  eapply wp_st_record; [done|]. destruct (negb _); [by apply wp_ret|]. apply wp_bind, wp_gets.
  destruct (waittingAbilityQueue_ g) as [|q w] eqn:Hw; [by apply wp_ret|].
  pose proof (good_queue _ _ _ Hg) as HQ. rewrite Hw in HQ. apply Forall_cons in HQ as [Hq HQ].
  apply wp_bind, wp_modify. set (g1 := g <| waittingAbilityQueue_ := w |>). to_state g1.
  assert (good g1) as Hg1 by by apply good_with_queue. assert (safe g g1) as S1 by by apply safe_with_queue.
  apply wp_bind. eapply wp_mono; [apply keeps_StartAbilityFrom; [done|done|]|].
  - pose proof (start_held_lookups g q Hg) as Hh. by rewrite Ht in Hh.
  - intros e g2 S2. apply wp_ret. by transitivity g1.
Qed.

(** * Calls *)

(** Only singletons that are no launchers are called: a called mission goes to
    the default list of singletons. *)
Record call_request (q : AbilityRequest) : Prop := {
  cr_good : good_request q;
  cr_singleton : ai_launchMode (rq_info q) = SINGLETON;
  cr_no_launcher : ai_isLauncherApp (rq_info q) = false;
}.

Lemma wp_add_called m r q g (k : unit → ST (MLM I) ErrCode) Q :
  good g → call_request q → ready_for launcher_name [] (mlm_store g) m r q →
  (∀ g', good g' → safe g g' → wp (k tt) Q g') →
  wp (x ← match GetMissionList (mlm_store g) m with
          | None => st (AddMissionToTop (st_defaultSingleList (mlm_store g)) m)
          | Some _ => mret tt
          end; k x) Q g.
Proof.
  intros Hg [Hq Hs Hl] (info & (ms & a & Hok & Hn & Hi & Hla & Hnt & Hm) & Hlm) HQ.
  pose proof (good_tidy _ _ _ Hg) as [P N]. set (s := mlm_store g) in *.
  destruct (GetMissionList s m) as [l|] eqn:Hgl; [by apply wp_ret, HQ|].
  destruct Hm as [(l & Hll & Hlm')|[_ Hout]].
  { by rewrite (places_GetMissionList _ _ _ _ _ P Hll Hlm') in Hgl. }
  destruct (places_kinds _ _ _ P) as (K1 & K2 & K3).
  apply wp_bind, wp_st. change (mlm_store g) with s.
  eapply wp_mono; [eapply (wp_add_new launcher_name [] _ m ms r a s); try done|].
  - rewrite elem_of_app. left. unfold live_lists. set_solver.
  - unfold fits. rewrite Hn, Hla, (gq_name _ _ _ Hq), Hl, Hi, Hlm.
    by rewrite bool_decide_false by done.
  - intros [] s1 (F1 & P1 & M1). apply HQ.
    + apply good_store; [done|]. split; [done|]. intros l Hlc.
      rewrite (sf_current _ _ F1) in Hlc. rewrite (sf_launcher _ _ F1), M1.
      destruct (decide (l = st_defaultSingleList s)) as [->|Hne]; [right; by rewrite fn_lookup_insert|].
      rewrite fn_lookup_insert_ne by done. by apply N.
    + apply good_safe; [done| |by apply same_frame_grows]. split; [done|]. intros l Hlc.
      rewrite (sf_current _ _ F1) in Hlc. rewrite (sf_launcher _ _ F1), M1.
      destruct (decide (l = st_defaultSingleList s)) as [->|Hne]; [right; by rewrite fn_lookup_insert|].
      rewrite fn_lookup_insert_ne by done. by apply N.
Qed.

Lemma grown_good g g' : good g → grown GenerateAbilityRequest launcher_name [] g g' → good g' ∧ safe g g'.
Proof.
  intros Hg Hw. assert (good g') as Hg'.
  { eapply (good_after_start _ _ [] g g); [done|apply (good_tidy _ _ _ Hg)..|done|done|done]. }
  split; [done|]. constructor; [done|..].
  - intros r Hr. eapply known_record_extends; [apply Hw|done].
  - intros m Hm. eapply known_mission_extends; [apply Hw|done].
Qed.

Lemma keeps_CallAbilityLocked q g :
  good g → call_request q →
  keeps safe (CallAbilityLocked app_load callee restartMax indeterminate_locked q) g.
Proof.
  intros Hg Hc. unfold CallAbilityLocked, keeps. destruct (negb _); [by apply wp_ret|]. apply wp_bind.
  apply (wp_GetTargetMissionAndAbility GenerateAbilityRequest restartMax indeterminate_locked launcher_name [] q g);
    [apply (good_tidy _ _ _ Hg)|apply Hg|apply Hc|].
  intros mo ro cold g1 Hw Hmo. destruct (grown_good _ _ Hg Hw) as [Hg1 S1].
  destruct mo as [m|], ro as [r|]; try by apply wp_ret.
  destruct (Hmo m eq_refl) as (r' & [= <-] & Hready).
  assert (known_record (mlm_store g1) r) as Hk
    by (destruct Hready as (info & (ms & a & (_ & _ & Ha & _) & _) & _); by exists a).
  apply wp_bind. eapply wp_mono; [apply (keeps_calm_st GenerateAbilityRequest launcher_name), keeps_AddCallerRecord|].
  intros [] g2 C2. apply wp_bind.
  eapply wp_mono; [apply (keeps_calm_st GenerateAbilityRequest launcher_name), keeps_upd_record; keep_side|].
  intros [] g3 C3. assert (calm g1 g3) as C by by transitivity g2. apply wp_store.
  eapply (wp_add_called m r q); [by eapply calm_good|done| |].
  { eapply ready_for_extends; [apply same_shape_extends, C|done]. }
  intros g4 Hg4 S4. assert (safe g g4) as S
    by (transitivity g1; [done|]; transitivity g3; [by apply calm_safe|done]).
  apply calm_after; [done|]. assert (known_record (mlm_store g4) r) as Hk4.
  { apply (safe_record _ _ _ _ S4). by eapply known_record_calm. }
  pose proof (calm_ResolveAbility callee GenerateAbilityRequest launcher_name r q) as Hres. solve_calm.
Qed.

Lemma keeps_ResolveLocked q g :
  good g → call_request q →
  keeps safe (ResolveLocked app_load callee restartMax indeterminate_locked q) g.
Proof.
  intros. unfold ResolveLocked. case_bool_decide; [by apply keeps_CallAbilityLocked|by apply (keeps_ret _)].
Qed.

(** * Specified abilities *)

Lemma keeps_OnAcceptWantResponse w flag g :
  good g →
  keeps safe (OnAcceptWantResponse app_load GenerateAbilityRequest restartMax indeterminate_locked w flag) g.
Proof.
  intros Hg. unfold OnAcceptWantResponse, keeps. apply wp_bind, wp_gets.
  destruct (waittingAbilityQueue_ g) as [|q rest] eqn:Hw; [by apply wp_ret|].
  pose proof (good_queue _ _ _ Hg) as HQ. rewrite Hw in HQ. apply Forall_cons in HQ as [Hq HQ].
  apply wp_bind, wp_modify. set (g1 := g <| waittingAbilityQueue_ := rest |>). to_state g1.
  assert (good g1) as Hg1 by by apply good_with_queue. assert (safe g g1) as S1 by by apply safe_with_queue.
  apply wp_store. cbv zeta. change (mlm_store g1) with (mlm_store g).
  destruct (if decide (flag = "") then None else GetMissionBySpecifiedFlag (mlm_store g) w flag) as [m|] eqn:Hm.
  - destruct (decide (flag = "")); [done|]. apply (GetMissionBySpecifiedFlag_placed launcher_name) in Hm as (l & Hl & Hm).
    destruct (pl_placed _ _ _ (proj1 (good_tidy _ _ _ Hg)) l m) as (ms & r & a & (Hms & Hr & Ha & _) & _);
      [rewrite elem_of_app; by left|done|].
    eapply wp_st_mission; [exact Hms|]. rewrite Hr. apply wp_bind.
    eapply wp_mono; [apply (keeps_calm_st GenerateAbilityRequest launcher_name), keeps_upd_record; keep_side|].
    intros [] g2 C2. apply wp_bind. eapply wp_mono; [apply keeps_MoveMissionToFront; by eapply calm_good|].
    intros e g3 S3. apply wp_ret. transitivity g1; [done|]. transitivity g2; [by apply calm_safe|done].
  - apply wp_bind. eapply wp_mono; [apply wp_StartAbilityLocked; [done| |]|].
    + destruct Hq. by constructor.
    + by apply start_held_lookups.
    + intros e g3 S3. apply wp_ret. by transitivity g1.
Qed.

Lemma keeps_OnStartSpecifiedAbilityTimeoutResponse w g :
  good g →
  keeps safe (OnStartSpecifiedAbilityTimeoutResponse app_load restartMax indeterminate_locked w) g.
Proof.
  intros Hg. unfold OnStartSpecifiedAbilityTimeoutResponse, keeps. apply wp_bind, wp_gets.
  destruct (waittingAbilityQueue_ g) as [|q0 rest] eqn:Hw; [by apply wp_ret|].
  pose proof (good_queue _ _ _ Hg) as HQ. rewrite Hw in HQ. apply Forall_cons in HQ as [_ HQ].
  apply wp_bind, wp_modify. set (g1 := g <| waittingAbilityQueue_ := rest |>). to_state g1.
  assert (safe g g1) as S1 by by apply safe_with_queue.
  destruct rest as [|q rest]; [by apply wp_ret|]. apply Forall_cons in HQ as [Hq HQ].
  apply wp_bind, wp_modify. set (g2 := g <| waittingAbilityQueue_ := rest |>). to_state g2.
  assert (good g2) as Hg2 by by apply good_with_queue. assert (safe g g2) as S2 by by apply safe_with_queue.
  apply wp_store, wp_bind. eapply wp_mono; [apply keeps_StartAbilityFrom; [done|done|]|].
  - by apply start_held_lookups.
  - intros e g3 S3. apply wp_ret. by transitivity g2.
Qed.

(** * Uninstallation *)

Lemma wp_MatchedInitialMission m bundle uid s :
  places [] s → wp (MatchedInitialMission m bundle uid) (λ _ s', same_shape s s') s.
Proof.
  intros P. unfold MatchedInitialMission. apply wp_bind, wp_gets. cbv beta delta [id].
  destruct (record_of s m) as [r|] eqn:Hr; [|by apply wp_ret].
  assert (known_record s r) as [a Ha].
  { unfold record_of in Hr. destruct (st_missions s !! m) as [ms|] eqn:Hms; [|done]. cbn in Hr.
    destruct (pl_owner _ _ _ P m ms Hms) as (r' & Hr' & Hk). congruence. }
  match goal with |- wp ?c _ _ => change (keeps same_shape c s) end.
  apply keeps_the_record; [by exists a|]. intros a' _. keep.
Qed.

Lemma wp_uninstall_missions l bundle uid ms s :
  tidy_but launcher_name l s →
  wp (uninstall_missions l bundle uid ms) (λ _ s', tidy_but launcher_name l s' ∧ grows s s' ∧
    st_currentMissionLists s' = st_currentMissionLists s) s.
Proof.
  revert s. induction ms as [|m ms IH]; intros s H; cbn [uninstall_missions]; [by apply wp_ret|].
  apply wp_bind. eapply wp_mono; [apply wp_MatchedInitialMission, H|]. intros matched s1 S1.
  pose proof (tidy_but_shape launcher_name l s s1 S1 H) as H1.
  assert (grows s s1) as G1 by by apply extends_grows, same_shape_extends.
  apply wp_bind. destruct matched.
  - change (wp (uninstall_missions l bundle uid ms) (λ _ s', tidy_but launcher_name l s' ∧ grows s s' ∧
      st_currentMissionLists s' = st_currentMissionLists s) (edit_list (list_erase_val m) l s1)).
    eapply wp_mono; [apply IH, tidy_but_again; [|done]|].
    { intros ?. apply erase_first_sublist. }
    intros [] s2 (H2 & G2 & C2). split_and!; [done| |].
    + etransitivity; [exact G1|]. etransitivity; [apply grows_edit|exact G2].
    + rewrite C2. apply (ss_current _ _ S1).
  - apply wp_ret. eapply wp_mono; [by apply IH|]. intros [] s2 (H2 & G2 & C2).
    split_and!; [done|by etransitivity|]. rewrite C2. apply (ss_current _ _ S1).
Qed.

Lemma wp_ListHandleUnInstallApp l bundle uid s :
  tidy s →
  wp (ListHandleUnInstallApp l bundle uid) (λ _ s', tidy_but launcher_name l s' ∧ grows s s' ∧
    st_currentMissionLists s' = st_currentMissionLists s) s.
Proof.
  intros [P N]. unfold ListHandleUnInstallApp. apply wp_bind, wp_gets, wp_uninstall_missions.
  split; [done|]. intros l' Hl'. destruct (N l' Hl'); [by left|by right; right].
Qed.

Lemma keeps_uninstall_lists bundle uid ls g : good g → keeps safe (uninstall_lists bundle uid ls) g.
Proof.
  revert g. induction ls as [|l ls IH]; intros g Hg; cbn [uninstall_lists]; [by apply (keeps_ret _)|].
  unfold keeps. apply wp_bind, wp_st.
  eapply wp_mono; [apply wp_ListHandleUnInstallApp, (good_tidy _ _ _ Hg)|].
  intros [] s1 (H1 & G1 & C1). cbv beta. apply wp_store, wp_bind, wp_st_if.
  change (mlm_store (g <| mlm_store := s1 |>)) with s1.
  eapply (wp_remove_if_empty launcher_name); [done|]. intros ls' _ T2. cbv beta.
  set (s2 := s1 <| st_currentMissionLists := ls' |>) in *. set (g2 := g <| mlm_store := s2 |>).
  change (wp (uninstall_lists bundle uid ls) (λ _ g', safe g g') g2).
  assert (safe g g2) as S2
    by (apply good_safe; [done|done|]; etransitivity; [exact G1|apply grows_relist]).
  apply safe_after; [done|]. by apply IH, S2.
Qed.

Lemma keeps_uninstall_default l bundle uid g :
  good g → list_type (mlm_store g) l ≠ Some CURRENT → l ≠ st_launcherList (mlm_store g) →
  keeps safe (st (ListHandleUnInstallApp l bundle uid)) g.
Proof.
  intros Hg Ht Hl. unfold keeps. apply wp_st.
  eapply wp_mono; [apply wp_ListHandleUnInstallApp, (good_tidy _ _ _ Hg)|].
  intros [] s1 (H1 & G1 & C1). apply good_safe; [done| |done]. eapply tidy_but_close; [done|].
  right. left. rewrite C1. intros Hc.
  destruct (pl_current _ _ _ (proj1 (good_tidy _ _ _ Hg)) l) as [?|?]; [by rewrite app_nil_r|done|done].
Qed.

Lemma keeps_AddUninstallTags bundle uid g : good g → keeps safe (AddUninstallTags bundle uid) g.
Proof.
  intros Hg. unfold AddUninstallTags. apply keeps_store.
  apply (keeps_bind _); [by apply keeps_uninstall_lists|]. intros _ g1 _ S1.
  assert (good g1) as Hg1 by by apply S1. apply keeps_store. apply (keeps_bind _).
  { pose proof (proj1 (good_tidy _ _ _ Hg1)) as P. destruct (places_kinds _ _ _ P) as (K1 & K2 & K3).
    apply keeps_uninstall_default; [done| |done]. by rewrite (pl_single _ _ _ P). }
  intros _ g2 _ S2. assert (good g2) as Hg2 by by apply S2. apply keeps_store. apply (keeps_bind _).
  { pose proof (proj1 (good_tidy _ _ _ Hg2)) as P. destruct (places_kinds _ _ _ P) as (K1 & K2 & K3).
    apply keeps_uninstall_default; [done| |done]. by rewrite (pl_standard _ _ _ P). }
  intros _ g3 _ S3. apply keeps_infos. assert (good g3) as Hg3 by by apply S3.
  destruct (uninstall_law bundle uid (mlm_infos g3) (proj1 (good_infos _ _ _ Hg3))) as [Hr Hin].
  destruct (infos_uninstall bundle uid (mlm_infos g3)) as [matched i']. cbn [snd] in *.
  apply keeps_calm_safe. apply (keeps_bind _); [|intros _ g4 _ _; apply keeps_notify].
  unfold keeps. apply wp_modify. constructor; try done. intros Hok. by eapply infos_ok_less.
Qed.

(** * Posted closures *)

(** What a posted closure captured is there. *)
Definition task_known s (t : Task) : Prop :=
  match t with
  | TaskCompleteForegroundNew r | TaskCompleteBackground r | TaskCompleteTerminate r | TaskBackToCaller r =>
      known_record s r
  | _ => True
  end.

Lemma keeps_run_posted t g :
  good g → task_known (mlm_store g) t →
  keeps safe (run_posted app_load app_terminate callee GenerateAbilityRequest restartMax indeterminate_locked t) g.
Proof.
  intros Hg Ht. destruct t; cbn [run_posted]; cbn in Ht.
  - by apply keeps_calm_safe, calm_CompleteForegroundNew.
  - by apply keeps_calm_safe, calm_CompleteBackground.
  - by apply keeps_CompleteTerminate.
  - by apply keeps_StartWaittingAbility.
  - by apply keeps_BackToCaller.
  - by apply keeps_BackToLauncher.
  - by apply keeps_AddUninstallTags.
Qed.

Lemma task_known_safe g g' t : safe g g' → task_known (mlm_store g) t → task_known (mlm_store g') t.
Proof. intros S. destruct t; cbn; try done; by apply (safe_record _ _ _ _ S). Qed.
End events.
