(* ===== verification/ManagerRun.v ===== *)
(** [MissionListManager] as a transition system: its handlers as events, the
    states they reach from [Init], and what holds of all of them. *)

From S2P Require Import Prelude CppString Want MissionData MissionInfo CallContainer AbilityRecord.
From S2P Require Import StoreShape MissionList MissionMoves MissionPlaces MissionTargets.
From S2P Require Import InfosInterface MissionListManager ManagerFrames ManagerSafety ManagerEvents.
From Stdlib Require Import Ascii.

#[local] Open Scope stdpp_scope.
#[local] Open Scope Z_scope.

Implicit Types (s : Store) (l : LRef) (m : MRef) (r : RRef).

(** One constructor per handler; [EvPosted] is a closure of the event handler. *)
Inductive Event :=
  | EvStartAbility (q : AbilityRequest)
  | EvMinimizeAbility (token : option RRef) (fromUser : bool)
  | EvMoveMissionToFront (missionId : Z) (fromLauncher : bool) (windowMode : option Z)
  | EvAttachAbilityThread (schedulerNotNull : bool) (token : option RRef)
  | EvAbilityRequestDone (token : option RRef) (state : AppState)
  | EvAbilityTransactionDone (token : option RRef) (state : AbilityLifeCycleState)
  | EvTerminateAbility (r : RRef) (resultCode : Z) (resultWant : option Want) (flag : bool)
  | EvTerminateAbilityByCaller (caller : option RRef) (requestCode : Z)
  | EvClearMission (missionId : Z)
  | EvClearAllMissions
  | EvSetMissionLockedState (missionId : Z) (locked : bool)
  | EvTimeOut (msg : TimeoutMsg) (eventId : Z)
  | EvAbilityDied (r : RRef) (currentUserId : Z)
  | EvSchedulerDied (r : RRef)
  | EvResolve (q : AbilityRequest)
  | EvRelease (connect : option Z) (e : ElementName)
  | EvCallConnectDied (target : ElementName) (connCallback : option Z)
  | EvAcceptWantResponse (w : Want) (flag : string)
  | EvStartSpecifiedAbilityTimeoutResponse (w : Want)
  | EvUninstallApp (bundleName : string) (uid : Z)
  | EvPauseManager
  | EvResumeManager
  | EvAppStateChanged (processName : string) (state : AppState)
  | EvPosted (t : Task).

Section run.
Context {I : Type} `{!MissionInfos I}.
Context (app_load app_terminate : RRef → Z) (callee : RRef → option Z).
Context (GenerateAbilityRequest : Want → option AbilityRequest).
Context (JudgeAbilityVisibleControl : AbilityInfo → ErrCode).
Context (restartMax : Z) (indeterminate_locked : bool).

Definition run (e : Event) : ST (MLM I) unit :=
  match e with
  | EvStartAbility q => _ ← StartAbility app_load restartMax indeterminate_locked q; mret tt
  | EvMinimizeAbility token b => _ ← MinimizeAbility token b; mret tt
  | EvMoveMissionToFront id b mode =>
      _ ← MoveMissionToFront app_load GenerateAbilityRequest restartMax id b mode; mret tt
  | EvAttachAbilityThread b token => _ ← AttachAbilityThread callee b token; mret tt
  | EvAbilityRequestDone token state => OnAbilityRequestDone token state
  | EvAbilityTransactionDone token state => _ ← AbilityTransactionDone token state; mret tt
  | EvTerminateAbility r code w flag => _ ← TerminateAbility app_load r code w flag; mret tt
  | EvTerminateAbilityByCaller c code =>
      _ ← TerminateAbilityByCaller app_load JudgeAbilityVisibleControl c code; mret tt
  | EvClearMission id => _ ← ClearMission app_load id; mret tt
  | EvClearAllMissions => _ ← ClearAllMissions app_load; mret tt
  | EvSetMissionLockedState id b => _ ← SetMissionLockedState id b; mret tt
  | EvTimeOut msg id => OnTimeOut msg id
  | EvAbilityDied r user => OnAbilityDied r user
  | EvSchedulerDied r => OnSchedulerDied r
  | EvResolve q => _ ← ResolveLocked app_load callee restartMax indeterminate_locked q; mret tt
  | EvRelease c e => _ ← ReleaseLocked c e; mret tt
  | EvCallConnectDied e c => OnCallConnectDied e c
  | EvAcceptWantResponse w flag =>
      OnAcceptWantResponse app_load GenerateAbilityRequest restartMax indeterminate_locked w flag
  | EvStartSpecifiedAbilityTimeoutResponse w =>
      OnStartSpecifiedAbilityTimeoutResponse app_load restartMax indeterminate_locked w
  | EvUninstallApp b u => UninstallApp b u
  | EvPauseManager => PauseManager
  | EvResumeManager => ResumeManager app_load
  | EvAppStateChanged p state => OnAppStateChanged p state
  | EvPosted t =>
      run_posted app_load app_terminate callee GenerateAbilityRequest restartMax indeterminate_locked t
  end.
End run.

Section reachability.
Context {I : Type} `{!MissionInfos I, !MissionInfosLaws I}.
Context (app_load app_terminate : RRef → Z) (callee : RRef → option Z).
Context (GenerateAbilityRequest : Want → option AbilityRequest).
Context (JudgeAbilityVisibleControl : AbilityInfo → ErrCode).
Context (restartMax : Z) (indeterminate_locked : bool).
Context (launcher_name : string → bool).
Implicit Types (g : MLM I).

#[local] Abbreviation good := (good GenerateAbilityRequest launcher_name).
#[local] Abbreviation calm := (calm GenerateAbilityRequest launcher_name).
#[local] Abbreviation safe := (safe GenerateAbilityRequest launcher_name).
#[local] Abbreviation run :=
  (run app_load app_terminate callee GenerateAbilityRequest JudgeAbilityVisibleControl restartMax indeterminate_locked).

(** Requests are consistent, and references to records are to records. *)
Definition event_ok g (e : Event) : Prop :=
  match e with
  | EvStartAbility q => good_request GenerateAbilityRequest launcher_name q
  | EvResolve q => call_request GenerateAbilityRequest launcher_name q
  | EvTerminateAbility r _ _ _ | EvAbilityDied r _ | EvSchedulerDied r => known_record (mlm_store g) r
  | EvPosted t => task_known (mlm_store g) t
  | _ => True
  end.

Lemma keeps_ignore {A} (c : ST (MLM I) A) g : keeps safe c g → keeps safe (_ ← c; mret tt) g.
Proof. intros H. apply (keeps_bind _); [done|]. intros. by apply (keeps_ret _). Qed.

Lemma keeps_run e g : good g → event_ok g e → keeps safe (run e) g.
Proof.
  intros Hg He. destruct e; cbn [ManagerRun.run]; cbn in He; try apply keeps_ignore.
  - by apply keeps_StartAbility.
  - by apply keeps_calm_safe, calm_MinimizeAbility.
  - by apply keeps_MoveMissionToFront.
  - by apply keeps_calm_safe, calm_AttachAbilityThread.
  - by apply keeps_calm_safe, calm_OnAbilityRequestDone.
  - by apply keeps_calm_safe, calm_AbilityTransactionDone.
  - by apply keeps_TerminateAbility.
  - by apply keeps_TerminateAbilityByCaller.
  - by apply keeps_ClearMission.
  - by apply keeps_ClearAllMissions.
  - by apply keeps_calm_safe, calm_SetMissionLockedState.
  - by apply keeps_OnTimeOut.
  - by apply keeps_OnAbilityDied.
  - by apply keeps_calm_safe, calm_OnSchedulerDied.
  - by apply keeps_ResolveLocked.
  - by apply keeps_calm_safe, calm_ReleaseLocked.
  - by apply keeps_calm_safe, calm_OnCallConnectDied.
  - by apply keeps_OnAcceptWantResponse.
  - by apply keeps_OnStartSpecifiedAbilityTimeoutResponse.
  - apply keeps_calm_safe. unfold UninstallApp. apply keeps_post.
  - by apply keeps_calm_safe, calm_PauseManager.
  - by apply keeps_BackToLauncher.
  - by apply keeps_calm_safe, calm_OnAppStateChanged.
  - by apply keeps_run_posted.
Qed.

(** ** Reachable states *)

(** Between events time passes, and other services take or drop references to
    records. *)
Inductive step : MLM I → MLM I → Prop :=
  | step_event g e g' : event_ok g e → run e g = Returned (tt, g') → step g g'
  | step_time g now : step g (g <| mlm_now := now |>)
  | step_hold g rs : (∀ r, r ∈ rs → known_record (mlm_store g) r) →
      step g (g <| mlm_store := (mlm_store g) <| st_heldRecords := rs |> |>).

Definition reachable userId now i g : Prop := rtc step (Init userId now i) g.

Lemma places_init : places launcher_name [] init_store.
Proof.
  assert (∀ l, missions_of init_store l = []) as Hm.
  { intros l. unfold missions_of, init_store. cbn [st_lists].
    destruct (_ !! l) as [ml|] eqn:E; [|done]. 
    do 2 (apply lookup_insert_Some in E as [[_ <-]|[_ E]]; [done|]).
    by apply lookup_singleton_Some in E as [_ <-]. }
  constructor; try done.
  - intros l m. rewrite Hm. by intros ?%not_elem_of_nil.
  - intros l m _. rewrite Hm. by intros ?%not_elem_of_nil.
  - intros l _. rewrite Hm. constructor.
  - intros l Hl. left. by apply list_elem_of_singleton in Hl.
  - cbn. repeat constructor. apply not_elem_of_nil.
  - intros p Hp. cbn in Hp |- *. split_and!; [|done|done].
    unfold init_store; cbn [st_lists]. rewrite !lookup_insert_ne by lia. apply lookup_singleton_ne. lia.
  - by intros r ?%not_elem_of_nil.
  - constructor.
  - by intros r ?%not_elem_of_nil.
Qed.

Lemma good_init userId now i :
  infos_ok GenerateAbilityRequest launcher_name i → good (Init userId now i).
Proof.
  intros Hi. constructor; [|done|done|constructor]. split; [apply places_init|].
  intros l Hl. left. by apply list_elem_of_singleton in Hl.
Qed.

Lemma good_step g g' : step g g' → good g → good g'.
Proof.
  intros [g0 e g1 He Hr|g0 now|g0 rs Hrs] Hg.
  - pose proof (keeps_run e g0 Hg He) as Hk. unfold keeps, wp in Hk. rewrite Hr in Hk. by apply Hk.
  - destruct Hg. by constructor.
  - by apply good_held.
Qed.

Lemma good_reachable userId now i g :
  infos_ok GenerateAbilityRequest launcher_name i → reachable userId now i g → good g.
Proof.
  intros Hi. apply (rtc_ind_r good); [by apply good_init|]. intros g1 g2 _ Hs Hg. by eapply good_step.
Qed.
End reachability.
