(* ===== verification/ManagerDemo.v ===== *)
(** A small run of the manager, for the instances of its theorems: the launcher
    starts, it starts an application, which starts another ability of its own. *)

From S2P Require Import Prelude CppString Want MissionData MissionInfo CallContainer AbilityRecord.
From S2P Require Import StoreShape MissionList MissionMoves MissionPlaces MissionTargets.
From S2P Require Import InfosInterface MissionListManager ManagerFrames ManagerSafety ManagerEvents.
From S2P Require Import ManagerRun.
From Stdlib Require Import Ascii.

#[local] Open Scope stdpp_scope.
#[local] Open Scope Z_scope.

#[export] Existing Instance MissionInfo.demo_store.

Definition Infos : Type := MissionInfoMgr bool unit.

(** No snapshots, an application manager and a bundle manager that answer
    nothing bad. *)
Definition demo_snapshot (h : unit) (r : RRef) : Z * option unit := (0, None).

#[export] Instance demo_infos : MissionInfos Infos := MissionInfoMgr_infos demo_snapshot.
#[export] Instance demo_laws : MissionInfosLaws Infos := MissionInfoMgr_laws demo_snapshot.

Definition app_ok (r : RRef) : Z := 0.
Definition no_callee (r : RRef) : option Z := None.
Definition no_request (w : Want) : option AbilityRequest := None.
Definition visible_ok (i : AbilityInfo) : ErrCode := ERR_OK.
Definition LAUNCHER_NAME : string := "#com.ohos.launcher:entry:Main".
Definition is_launcher_name (n : string) : bool := bool_decide (n = LAUNCHER_NAME).

Definition demo_run : Event → ST (MLM Infos) unit :=
  run app_ok app_ok no_callee no_request visible_ok 3 false.

(** Runs the events, or gives up. *)
Fixpoint run_all (es : list Event) (g : MLM Infos) : option (MLM Infos) :=
  match es with
  | [] => Some g
  | e :: es' => match demo_run e g with Returned (_, g') => run_all es' g' | _ => None end
  end.

Definition page (bundle name : string) (mode : LaunchMode) (launcher : bool) : AbilityInfo :=
  mkAbilityInfo "" bundle name "entry" bundle PAGE mode launcher true false.

Definition request (bundle name : string) (mode : LaunchMode) (launcher : bool) (caller : option RRef)
    : AbilityRequest :=
  mkRequest emptyWant (page bundle name mode launcher)
    (mkAppInfo bundle bundle launcher "label" "icon") 1 0 1 INVALID_TYPE caller None "".

Definition start_launcher : AbilityRequest := request "com.ohos.launcher" "Main" SINGLETON true None.
Definition start_main (caller : option RRef) : AbilityRequest := request "com.app" "Main" SINGLETON false caller.
Definition start_page (caller : option RRef) : AbilityRequest := request "com.app" "Page" STANDARD false caller.

(** The infos of a device on which nothing ran yet. *)
Definition no_infos : Infos := mkMIM 1 ∅ [] (Some true) None.

Definition demo_init : MLM Infos := Init 100 "2022-01-01" no_infos.

(** An ability's start, up to the foreground: its thread attaches, it is asked
    to show itself, and reports that it did. *)
Definition shown (q : AbilityRequest) (r : RRef) : list Event :=
  [EvStartAbility q; EvAttachAbilityThread true (Some r); EvAbilityRequestDone (Some r) APP_FOREGROUND;
   EvAbilityTransactionDone (Some r) ABILITY_STATE_FOREGROUND_NEW; EvPosted (TaskCompleteForegroundNew r)].

(** * Its states are reachable *)

#[local] Abbreviation good_request := (good_request no_request is_launcher_name).

Lemma demo_good_request q :
  is_launcher_name (request_name q) = ai_isLauncherApp (rq_info q) →
  app_isLauncherApp (rq_app q) = ai_isLauncherApp (rq_info q) → good_request q.
Proof. intros. by constructor. Qed.

Lemma start_launcher_good : good_request start_launcher.
Proof. by apply demo_good_request. Qed.
Lemma start_main_good caller : good_request (start_main caller).
Proof. by apply demo_good_request. Qed.
Lemma start_page_good caller : good_request (start_page caller).
Proof. by apply demo_good_request. Qed.

Lemma no_infos_ok : infos_ok no_request is_launcher_name no_infos.
Proof.
  split; [by eexists|]. intros n w (x & Hx & _). by apply not_elem_of_nil in Hx.
Qed.

#[local] Abbreviation demo_step :=
  (step app_ok app_ok no_callee no_request visible_ok 3 false is_launcher_name).
Definition demo_reachable : MLM Infos → Prop :=
  reachable app_ok app_ok no_callee no_request visible_ok 3 false is_launcher_name 100 "2022-01-01" no_infos.

(** The requirements on an event, decided. *)
Definition good_requestb (q : AbilityRequest) : bool :=
  bool_decide (is_launcher_name (request_name q) = ai_isLauncherApp (rq_info q)) &&
  bool_decide (app_isLauncherApp (rq_app q) = ai_isLauncherApp (rq_info q)).

Definition event_okb (g : MLM Infos) (e : Event) : bool :=
  let known r := bool_decide (is_Some (st_records (mlm_store g) !! r)) in
  match e with
  | EvStartAbility q => good_requestb q
  | EvResolve q =>
      good_requestb q && bool_decide (ai_launchMode (rq_info q) = SINGLETON) && negb (ai_isLauncherApp (rq_info q))
  | EvTerminateAbility r _ _ _ | EvAbilityDied r _ | EvSchedulerDied r => known r
  | EvPosted t =>
      match t with
      | TaskCompleteForegroundNew r | TaskCompleteBackground r | TaskCompleteTerminate r | TaskBackToCaller r =>
          known r
      | _ => true
      end
  | _ => true
  end.

Lemma event_okb_ok g e : event_okb g e = true → event_ok no_request is_launcher_name g e.
Proof.
  assert (∀ q, good_requestb q = true → good_request q) as Hq.
  { intros q H. unfold good_requestb in H. bool_to_prop. by apply demo_good_request. }
  destruct e; cbn; try done; intros H; bool_to_prop; auto.
  - by constructor; auto.
  - by destruct t; bool_to_prop.
Qed.

Fixpoint oks (es : list Event) (g : MLM Infos) : bool :=
  match es with
  | [] => true
  | e :: es' =>
      event_okb g e && match demo_run e g with Returned (_, g') => oks es' g' | _ => false end
  end.

Lemma run_all_reachable es g g' :
  demo_reachable g → run_all es g = Some g' → oks es g = true → demo_reachable g'.
Proof.
  revert g. induction es as [|e es IH]; intros g Hg; cbn [run_all oks]; [by intros [= <-]|].
  destruct (demo_run e g) as [[[] g1]| |] eqn:He; [|done..]. intros Hr [Hok Hoks]%andb_true_iff.
  apply (IH g1); [|done|done]. eapply rtc_r; [exact Hg|].
  eapply step_event; [by apply event_okb_ok|exact He].
Qed.

Lemma demo_reachable_good g : demo_reachable g → good no_request is_launcher_name g.
Proof. apply good_reachable, no_infos_ok. Qed.

(** The state after some events. *)
Definition after_events (es : list Event) : MLM Infos := default demo_init (run_all es demo_init).

Lemma after_events_reachable es :
  bool_decide (is_Some (run_all es demo_init)) = true → oks es demo_init = true →
  demo_reachable (after_events es).
Proof.
  intros H Hok. bool_to_prop. destruct H as [g Hg]. unfold after_events. rewrite Hg.
  eapply run_all_reachable; [apply rtc_refl|exact Hg|exact Hok].
Qed.

(** The launcher (record 4) shows [Main] of an application (record 7), which
    shows [Page] (record 9). *)
Definition evs_main : list Event := shown start_launcher 4 ++ shown (start_main (Some 4%positive)) 7.
Definition g_main : MLM Infos := after_events evs_main.
Definition g_page : MLM Infos := after_events (evs_main ++ shown (start_page (Some 7%positive)) 9).

Lemma g_main_reachable : demo_reachable g_main.
Proof. apply after_events_reachable; vm_compute; reflexivity. Qed.
Lemma g_page_reachable : demo_reachable g_page.
Proof. apply after_events_reachable; vm_compute; reflexivity. Qed.

(** [Page] (record 7) starts the singleton [Main] (record 9); the launcher brings
    [Page] back, which sends [Main] to the default list; [Main] starts itself. *)
Definition evs_back : list Event :=
  shown start_launcher 4 ++ shown (start_page (Some 4%positive)) 7 ++ shown (start_main (Some 7%positive)) 9
  ++ [EvMoveMissionToFront 2 true None; EvAbilityTransactionDone (Some 7%positive) ABILITY_STATE_FOREGROUND_NEW;
      EvPosted (TaskCompleteForegroundNew 7)].
Definition g_back : MLM Infos := after_events evs_back.
Definition g_twice : MLM Infos := after_events (evs_back ++ [EvStartAbility (start_main (Some 9%positive))]).

Lemma g_back_reachable : demo_reachable g_back.
Proof. apply after_events_reachable; vm_compute; reflexivity. Qed.
Lemma g_twice_reachable : demo_reachable g_twice.
Proof. apply after_events_reachable; vm_compute; reflexivity. Qed.

(** Two SPECIFIED abilities are started, and the first start is answered. *)
Definition start_special (name : string) : AbilityRequest := request "com.special" name SPECIFIED false (Some 7%positive).
Definition evs_special : list Event :=
  evs_main ++ [EvStartAbility (start_special "First"); EvStartAbility (start_special "Second");
               EvAcceptWantResponse (rq_want (start_special "First")) "first"].
Definition g_special : MLM Infos := after_events evs_special.

Lemma g_special_reachable : demo_reachable g_special.
Proof. apply after_events_reachable; vm_compute; reflexivity. Qed.
