(* ===== verification/ManagerClaims.v ===== *)
(** What the mission list manager does for its users: the invariant of the
    reachable states, totality of the handlers, the moves between lists against
    their specification, what starts, moves to the front and terminations
    achieve, and where the code fails. *)

From stdpp Require Import functions.
From S2P Require Import Prelude CppString Want MissionData MissionInfo CallContainer AbilityRecord.
From S2P Require Import StoreShape MissionList MissionMoves MissionPlaces MissionTargets.
From S2P Require Import InfosInterface MissionListManager ManagerFrames ManagerSafety ManagerEvents.
From S2P Require Import ManagerRun ManagerDemo.
From Stdlib Require Import Ascii.

#[local] Open Scope stdpp_scope.
#[local] Open Scope Z_scope.

Implicit Types (s : Store) (l : LRef) (m : MRef) (r : RRef).

(** [wp] as an equation. *)
Lemma wp_returned {S A} (c : ST S A) (Q : A → S → Prop) x :
  wp c Q x ↔ ∃ a y, c x = Returned (a, y) ∧ Q a y.
Proof.
  unfold wp. destruct (c x) as [[a y]| |]; split; try done; intros; destruct_and?; naive_solver.
Qed.

Lemma wp_returned_at {S A} (c : ST S A) a (Q : S → Prop) x :
  wp c (λ b y, b = a ∧ Q y) x → ∃ y, c x = Returned (a, y) ∧ Q y.
Proof. intros (b & y & Hc & -> & HQ)%wp_returned. by exists y. Qed.

Section claims.
Context {I : Type} `{!MissionInfos I, !MissionInfosLaws I}.
Context (app_load app_terminate : RRef → Z) (callee : RRef → option Z).
Context (GenerateAbilityRequest : Want → option AbilityRequest).
Context (JudgeAbilityVisibleControl : AbilityInfo → ErrCode).
Context (restartMax : Z) (indeterminate_locked : bool).
Context (launcher_name : string → bool).
Implicit Types (g : MLM I).

#[local] Abbreviation good := (good GenerateAbilityRequest launcher_name).
#[local] Abbreviation calm := (calm GenerateAbilityRequest launcher_name).
#[local] Abbreviation safe := (safe GenerateAbilityRequest launcher_name).
#[local] Abbreviation good_request := (good_request GenerateAbilityRequest launcher_name).
#[local] Abbreviation infos_ok := (infos_ok GenerateAbilityRequest launcher_name).
#[local] Abbreviation event_ok := (event_ok GenerateAbilityRequest launcher_name).
#[local] Abbreviation run :=
  (run app_load app_terminate callee GenerateAbilityRequest JudgeAbilityVisibleControl restartMax indeterminate_locked).
#[local] Abbreviation reachable :=
  (reachable app_load app_terminate callee GenerateAbilityRequest JudgeAbilityVisibleControl restartMax
     indeterminate_locked launcher_name).
#[local] Abbreviation StartAbility := (StartAbility app_load restartMax indeterminate_locked).
#[local] Abbreviation MoveMissionToFront := (MoveMissionToFront app_load GenerateAbilityRequest restartMax).

(** * Every reachable state *)

(** C1: in every state the handlers reach from Init, whatever the order of the
    events, a mission is in at most one of the manager's lists and knows it, so
    does its ability's record, which is not about to terminate; launchers and
    only they are in the launcher list, singletons and only they in the default
    list of singletons; no list holds a mission twice, no current list but the
    launcher's is empty, and the terminate list holds a record once. *)
Theorem reachable_lists_ordered userId now i g :
  infos_ok i → reachable userId now i g →
  let s := mlm_store g in
  (∀ l m, l ∈ live_lists s → m ∈ missions_of s l →
     GetMissionList s m = Some l ∧
     ∃ ms r a, mission_ok s m ms r a ∧ r_missionList a = Some l ∧ (r ∉ st_terminateAbilityList s) ∧
       launcher_name (m_missionName ms) = bool_decide (l = st_launcherList s) ∧
       r_isLauncherAbility a = bool_decide (l = st_launcherList s) ∧
       (l = st_defaultSingleList s → ai_launchMode (r_info a) = SINGLETON) ∧
       (l = st_defaultStandardList s → ai_launchMode (r_info a) ≠ SINGLETON)) ∧
  (∀ l, l ∈ live_lists s → NoDup (missions_of s l)) ∧
  (∀ l, l ∈ st_currentMissionLists s → l = st_launcherList s ∨ missions_of s l ≠ []) ∧
  NoDup (st_currentMissionLists s) ∧ NoDup (st_terminateAbilityList s).
Proof.
  intros Hi Hr s. destruct (good_tidy _ _ _ (good_reachable _ _ _ _ _ _ _ _ _ _ _ _ Hi Hr)) as [P N].
  split_and!; [|intros l Hl|exact N|apply P|apply P].
  - intros l m Hl Hm. split; [by eapply places_GetMissionList|].
    destruct (pl_placed _ _ _ P l m) as (ms & r & a & Hok & _ & Hrl & Hnt & Hf1 & Hf2 & Hf3 & Hf4);
      [rewrite elem_of_app; by left|done|]. by exists ms, r, a.
  - apply (pl_nodup _ _ _ P). rewrite elem_of_app. by left.
Qed.

(** C5: from a reachable state every handler returns, on every event with
    consistent requests and references to records that exist: no null pointer is
    followed and no loop runs on; the state it leaves is reachable again. *)
Theorem reachable_handlers_return userId now i g e :
  infos_ok i → reachable userId now i g → event_ok g e →
  ∃ g', run e g = Returned (tt, g') ∧ reachable userId now i g' ∧
    (∀ r, known_record (mlm_store g) r → known_record (mlm_store g') r).
Proof.
  intros Hi Hr He. pose proof (good_reachable _ _ _ _ _ _ _ _ _ _ _ _ Hi Hr) as Hg.
  pose proof (keeps_run app_load app_terminate callee _ JudgeAbilityVisibleControl restartMax indeterminate_locked
    _ e g Hg He) as Hk.
  apply wp_returned in Hk as ([] & g' & Hrun & S). exists g'. split_and!; [done| |apply S].
  eapply rtc_r; [exact Hr|]. by eapply step_event.
Qed.

(** * Moves between lists *)

(** C25: MoveMissionToTargetList implements its specification: on ordered lists
    it returns, and the lists and the current lists are those of [moved] and
    [moved_current]: the mission is on top of its target, what lay above it in a
    current list is in the default lists, and a current list left empty is gone. *)
Theorem MoveMissionToTargetList_refines xs b target m ms r a s :
  places launcher_name xs s → target_list xs s target → mission_ok s m ms r a →
  (r ∉ st_terminateAbilityList s) → fits launcher_name s target ms a → movable xs s m →
  ∃ s', MoveMissionToTargetList b target m s = Returned (tt, s') ∧
    (∀ l, missions_of s' l = moved b target m s l) ∧
    st_currentMissionLists s' = moved_current target m s ∧
    places launcher_name xs s' ∧ relisted s s'.
Proof.
  intros P T Hok Hnt Hf Hm.
  pose proof (MoveMissionToTargetList_moves launcher_name xs b target m ms r a s P T Hok Hnt Hf Hm) as Hw.
  apply wp_returned in Hw as ([] & s' & Hr & R & P' & M & C). by exists s'.
Qed.

(** MoveNoneTopMissionToDefaultList ends and leaves its mission on top of
    its list: the missions above it went, one by one, to the top of the default
    list of their launch mode, and nothing else moved. *)
Theorem MoveNoneTop_pops l m s :
  tidy launcher_name s → l ∈ live_lists s → l ≠ st_launcherList s → is_default_list s l = false →
  m ∈ missions_of s l →
  ∃ s', MoveNoneTopMissionToDefaultList m s = Returned (tt, s') ∧
    missions_of s' l = m :: after m (missions_of s l) ∧
    missions_of s' (st_defaultSingleList s) =
      reverse (filter (λ x, IsSingletonAbility s x = true) (before m (missions_of s l)))
        ++ missions_of s (st_defaultSingleList s) ∧
    missions_of s' (st_defaultStandardList s) =
      reverse (filter (λ x, IsSingletonAbility s x = false) (before m (missions_of s l)))
        ++ missions_of s (st_defaultStandardList s) ∧
    (∀ l', l' ≠ l → is_default_list s l' = false → missions_of s' l' = missions_of s l').
Proof.
  intros [P _] Hl Hnl Hd Hm. pose proof (wp_MoveNoneTop launcher_name [] l m s P Hl Hnl Hd Hm) as Hw.
  destruct (places_kinds _ _ _ P) as (K1 & K2 & K3).
  apply wp_returned in Hw as ([] & s' & Hr & _ & _ & M). exists s'. split; [done|].
  pose proof Hd as Hd'. unfold is_default_list in Hd'. bool_to_prop.
  rewrite !M. split_and!.
  - unfold popped. by rewrite fn_lookup_insert.
  - unfold popped. by rewrite fn_lookup_insert_ne, fn_lookup_insert by done.
  - unfold popped. by rewrite !fn_lookup_insert_ne, fn_lookup_insert by done.
  - intros l' Hne Hd'. rewrite M, popped_current by done. by rewrite decide_False.
Qed.

(** * Starts *)


(** C37: a start waits no longer than until the top ability is shown: when the
    report of its foreground transition is handled, the ability is FOREGROUND and
    the task that serves the queue is posted. That task, run next, takes the oldest
    waiting request out of the queue and starts it: what it comes to is exactly what a
    new start of this request comes to once the request is out of the queue, which
    leaves the others there, and fails or has the mission of the request on top of the
    front list. *)
Theorem waiting_start_served g t a q w :
  good g → GetCurrentTopAbility (mlm_store g) = Some t → st_records (mlm_store g) !! t = Some a →
  waittingAbilityQueue_ g = q :: w → ai_launchMode (rq_info q) ≠ SPECIFIED →
  ∃ g1, CompleteForegroundNew t g = Returned (tt, g1) ∧ good g1 ∧
    r_state <$> st_records (mlm_store g1) !! t = Some FOREGROUND ∧
    last (st_trace (mlm_store g1)) = Some (PostTask TaskStartWaittingAbility None) ∧
    ∃ e g2, StartAbility q (g1 <| waittingAbilityQueue_ := w |>) = Returned (e, g2) ∧
      run_posted app_load app_terminate callee GenerateAbilityRequest restartMax indeterminate_locked
        TaskStartWaittingAbility g1 = Returned (tt, g2) ∧ good g2 ∧
      waittingAbilityQueue_ g2 = w ∧ (start_failed e ∨ at_front_for (mlm_store g2) q).
Proof.
  intros Hg Ht Ha Hw Hs. pose proof (wp_CompleteForegroundNew _ _ t a g Hg Ha) as Hc.
  apply wp_returned in Hc as ([] & g1 & Hr1 & C1 & (a1 & Ha1 & Hst1) & Htr). exists g1.
  assert (good g1) as Hg1 by by eapply calm_good. split_and!; [done|done|by rewrite Ha1; csimpl; rewrite Hst1|done|].
  assert (GetCurrentTopAbility (mlm_store g1) = Some t) as Ht1
    by by rewrite (same_shape_top _ _ (calm_shape _ _ _ _ C1)).
  assert (waittingAbilityQueue_ g1 = q :: w) as Hw1 by by rewrite (calm_queue _ _ _ _ C1).
  pose proof (good_queue _ _ _ Hg1) as HQ. rewrite Hw1 in HQ. apply Forall_cons in HQ as [Hq HQ].
  set (g1' := g1 <| waittingAbilityQueue_ := w |>).
  pose proof (wp_StartAbilityLocked_front app_load _ restartMax indeterminate_locked launcher_name (Some t)
      (GetAbilityRecordByToken (mlm_store g1) (rq_callerToken q)) q g1' (good_with_queue _ _ _ _ Hg1 HQ) Hq) as Hs2.
  pose proof (start_held_lookups _ _ g1 q Hg1) as Hh. rewrite Ht1 in Hh. specialize (Hs2 Hh).
  apply wp_returned in Hs2 as (e & g2 & Hr2 & S2 & HQ2 & Hf2). exists e, g2.
  split_and!; [| |by apply S2, good_with_queue|done|done].
  { unfold MissionListManager.StartAbility, mbind, ST_bind, store, gets. fold g1'. change (mlm_store g1') with (mlm_store g1). rewrite Ht1.
    cbv zeta. unfold st, the_record, mbind, ST_bind, gets, deref. change (mlm_store g1') with (mlm_store g1). rewrite Ha1. unfold mret, ST_ret.
    replace (g1' <| mlm_store := mlm_store g1 |>) with g1' by by destruct g1. rewrite Hst1, decide_False by done.
    unfold StartAbilityFrom. rewrite decide_False by done. exact Hr2. }
  cbn [run_posted]. unfold StartWaittingAbility, mbind, ST_bind, store, gets. rewrite Ht1.
  unfold st, the_record, mbind, ST_bind, gets, deref. rewrite Ha1. unfold mret, ST_ret.
  replace (g1 <| mlm_store := mlm_store g1 |>) with g1 by by destruct g1.
  unfold IsAbilityState. rewrite Hst1, bool_decide_true by done. cbn [negb]. rewrite Hw1.
  unfold modify. cbv beta iota. unfold StartAbilityFrom. rewrite decide_False by done.
  fold g1'. by rewrite Hr2.
Qed.

(** A singleton that is already there is reused: its mission and record
    are the target of the start, the record gets the new want, and no mission or
    record is made. *)
Theorem singleton_reused g q m r ms :
  good g → GetReusedMission (mlm_store g) q = Some m → st_missions (mlm_store g) !! m = Some ms →
  m_abilityRecord ms = Some r → IsStartByCall ms && negb (CallTypeFilter (CallType2StartMethod (rq_callType q))) = false →
  ∃ g', GetTargetMissionAndAbility restartMax indeterminate_locked q g = Returned ((Some m, Some r, false), g') ∧
    st_missions (mlm_store g') = st_missions (mlm_store g) ∧
    dom (st_records (mlm_store g')) = dom (st_records (mlm_store g)) ∧
    mlm_infos g' = mlm_infos g ∧
    ∃ a, st_records (mlm_store g') !! r = Some a ∧ r_want a = rq_want q ∧ r_isNewWant a = true.
Proof.
  intros Hg Hm Hms Hr Hcall. apply wp_returned_at. unfold GetTargetMissionAndAbility. apply wp_store.
  rewrite Hm. eapply wp_st_mission; [exact Hms|]. rewrite Hr, Hcall. cbn [negb].
  destruct (pl_owner _ _ _ (proj1 (good_tidy _ _ _ Hg)) m ms Hms) as (r' & Hr' & [a Ha]).
  assert (r' = r) as -> by congruence. apply wp_bind, wp_st, wp_modify, wp_ret.
  set (s' := (mlm_store g) <| st_records ::= alter (λ a, a <| r_want := rq_want q |> <| r_isNewWant := true |>) r |>).
  split_and!; [done|done| |done|].
  - change (dom (alter (λ a, a <| r_want := rq_want q |> <| r_isNewWant := true |>) r (st_records (mlm_store g)))
      = dom (st_records (mlm_store g))). apply dom_alter_L.
  - change (∃ a', st_records s' !! r = Some a' ∧ r_want a' = rq_want q ∧ r_isNewWant a' = true).
    eexists. unfold s'. store_cbn. by rewrite lookup_alter_eq, Ha.
Qed.

(** * To the front, and out *)

(** MoveMissionToFront succeeds for every mission that is in a list of the
    manager but the launcher's: afterwards the mission is on top of the front
    list. *)
Theorem MoveMissionToFront_front g id b mode m l :
  good g → GetMissionById (mlm_store g) id = Some m → GetMissionList (mlm_store g) m = Some l →
  GetType (mlm_store g) l ≠ LAUNCHER →
  ∃ g', MoveMissionToFront id b mode g = Returned (ERR_OK, g') ∧ good g' ∧
    ∃ t, head (st_currentMissionLists (mlm_store g')) = Some t ∧ head (missions_of (mlm_store g') t) = Some m.
Proof.
  intros Hg Hm Hl Ht.
  apply wp_returned_at. eapply wp_mono; [by apply wp_MoveMissionToFront|].
  intros e g' [S Hf]. destruct (Hf m l Hm Hl Ht) as [-> Hfront]. split_and!; [done|by apply S|done].
Qed.

(** An ability that is not yet terminating leaves every list when it is
    terminated and is put aside, once, to await the end of its process; when that
    end is reported it is forgotten. *)
Theorem TerminateAbility_once g r a code w flag :
  good g → st_records (mlm_store g) !! r = Some a → r_isTerminating a = false →
  is_Some (GetAbilityRecordByToken (mlm_store g) (Some r)) →
  ∃ g', TerminateAbility app_load r code w flag g = Returned (ERR_OK, g') ∧ good g' ∧
    r ∈ st_terminateAbilityList (mlm_store g') ∧ NoDup (st_terminateAbilityList (mlm_store g')) ∧
    (∀ l m, l ∈ live_lists (mlm_store g') → m ∈ missions_of (mlm_store g') l →
       record_of (mlm_store g') m ≠ Some r) ∧
    ∃ g'', CompleteTerminateAndUpdateMission r g' = Returned (tt, g'') ∧ good g'' ∧
      r ∉ st_terminateAbilityList (mlm_store g'').
Proof.
  intros Hg Ha Hnt Htok.
  apply wp_returned_at. eapply wp_mono; [apply (wp_TerminateAbility app_load app_terminate callee); [exact Hg|by exists a]|].
  intros e g' (S & -> & Hin). assert (good g') as Hg' by by apply S.
  specialize (Hin a Ha Hnt Htok). pose proof (proj1 (good_tidy _ _ _ Hg')) as P.
  split_and!; [done|done|done|apply P| |].
  - intros l m Hl Hm Hr. destruct (pl_placed _ _ _ P l m) as (ms & r' & a' & (Hms & Hr' & _) & _ & _ & Hno & _);
      [rewrite elem_of_app; by left|done|].
    unfold record_of in Hr. rewrite Hms in Hr. cbn in Hr. by simplify_eq.
  - apply wp_returned_at. eapply wp_mono; [by apply wp_CompleteTerminateAndUpdateMission|].
    intros [] g'' [S' HT]. split_and!; [done|by apply S'|]. rewrite HT, elem_of_list_remove_all. by intros [? _].
Qed.

(** * What goes wrong *)

Lemma wp_no_mission_id g q :
  ai_launchMode (rq_info q) ≠ SINGLETON → fst (infos_generate (mlm_infos g)) = None →
  wp (GetTargetMissionAndAbility restartMax indeterminate_locked q)
    (λ t g', t = (None, None, false) ∧ mlm_store g' = mlm_store g) g.
Proof.
  intros Hq Hno. unfold GetTargetMissionAndAbility, GetReusedMission. apply wp_store.
  rewrite decide_False by done. unfold create_or_update.
  apply wp_bind, wp_gets, wp_bind, wp_gets, wp_bind, wp_gets, wp_bind, wp_gets. cbv zeta.
  rewrite bool_decide_false by done. cbn [andb mbind option_bind]. apply wp_bind.
  destruct (infos_generate (mlm_infos g)) as [id i']. cbn in Hno. subst id.
  by apply wp_bind, wp_modify, wp_ret, wp_ret.
Qed.

(** A start from an ability in a default list takes the caller's mission
    out of it first; when then no mission id is left the start fails and the
    caller's mission stays in no list of the manager. *)
Theorem StartAbility_loses_caller g top c a m l q :
  good g → start_held g top (Some c) → st_records (mlm_store g) !! c = Some a →
  r_isLauncherAbility a = false → lock_mission (mlm_store g) (r_mission a) = Some m →
  lock_list (mlm_store g) (r_missionList a) = Some l → is_default_list (mlm_store g) l = true →
  ai_isLauncherApp (rq_info q) = false → ai_launchMode (rq_info q) ≠ SINGLETON →
  fst (infos_generate (mlm_infos g)) = None →
  m ∈ missions_of (mlm_store g) l ∧
  ∃ g', StartAbilityLocked app_load restartMax indeterminate_locked top (Some c) q g = Returned (ERR_INVALID_VALUE, g') ∧
    ∀ l', l' ∈ live_lists (mlm_store g') → m ∉ missions_of (mlm_store g') l'.
Proof.
  intros Hg Hh Ha Hla Hm Hl Hd Hql Hqs Hno. set (s := mlm_store g) in *.
  pose proof (good_tidy _ _ _ Hg) as Ht. pose proof Ht as [P N].
  destruct (lock_caller _ _ _ _ _ _ Ht Ha Hm Hl) as (ms & Hok & Hll & Hml & Hnt & Hf).
  split; [done|]. apply wp_returned_at. rewrite StartAbilityLocked_eq.
  unfold holding. apply wp_store.
  set (s1 := s <| st_heldRecords := (option_list top ++ option_list (Some c)) ++ st_heldRecords s |>).
  apply wp_bind, wp_st, wp_modify. to_state (g <| mlm_store := s1 |>). set (g1 := g <| mlm_store := s1 |>).
  assert (good g1) as Hg1.
  { apply good_held; [done|]. intros r [Hr|Hr]%elem_of_app; [by apply Hh|by apply (pl_held _ _ _ P)]. }
  apply wp_bind. unfold start_body. apply wp_bind, wp_st. change (mlm_store g1) with s1.
  unfold GetTargetMissionListForStart. apply wp_bind, wp_gets. cbv beta delta [id]. rewrite Hql.
  apply wp_bind. unfold the_record. apply wp_bind, wp_gets. eapply wp_deref; [exact Ha|]. rewrite Hla.
  unfold GetTargetMissionListByDefault. apply wp_bind, wp_gets. cbv beta delta [id].
  apply wp_bind. unfold the_record. apply wp_bind, wp_gets. eapply wp_deref; [exact Ha|].
  change (lock_mission s1) with (lock_mission s). change (lock_list s1) with (lock_list s).
  rewrite Hm, Hl. change (is_default_list s1 l) with (is_default_list s l). rewrite Hd.
  assert (l ≠ st_launcherList s) as Hnl.
  { intros ->. destruct (places_kinds _ _ _ P) as (K1 & K2 & K3). unfold is_default_list in Hd.
    by rewrite !bool_decide_false in Hd. }
  eapply wp_mono; [by eapply (wp_caller_to_new_list launcher_name c a m ms l s1); [apply Hg1|..]|].
  intros o s2 (-> & F & P2 & M). set (g2 := g1 <| mlm_store := s2 |>). apply wp_bind.
  eapply wp_mono; [by apply (wp_no_mission_id g2)|]. intros x g3 [-> Hs3].
  apply wp_ret, wp_bind, wp_st, wp_modify, wp_ret. split; [done|]. rewrite Hs3.
  intros l' Hl'. change (l' ∈ live_lists s2) in Hl'. change (m ∉ missions_of s2 l').
  assert (l' ∈ live_lists s) as Hl1 by by rewrite (same_frame_live_lists _ _ F) in Hl'.
  rewrite M, fn_lookup_insert_ne.
  - change (missions_of s1) with (missions_of s). destruct (decide (l' = l)) as [->|Hne].
    + rewrite fn_lookup_insert, elem_of_list_remove_all. by intros [? _].
    + rewrite fn_lookup_insert_ne by done. intros Hm'. destruct Hne.
      apply (places_unique launcher_name [] s l' l m); rewrite ?app_nil_r; done.
  - intros <-. apply (places_fresh_list _ _ _ P). rewrite elem_of_app. by left.
Qed.

(** The report of a foreground transition is handled by a posted task that
    does not look at the ability again: whatever the ability's state has become
    meanwhile, it is FOREGROUND afterwards, and the report of the transition to
    the background that is under way is refused. *)
Theorem CompleteForegroundNew_overwrites g r a :
  good g → st_records (mlm_store g) !! r = Some a →
  ∃ g', run_posted app_load app_terminate callee GenerateAbilityRequest restartMax indeterminate_locked
      (TaskCompleteForegroundNew r) g = Returned (tt, g') ∧ good g' ∧
    (∃ a', st_records (mlm_store g') !! r = Some a' ∧ r_state a' = FOREGROUND) ∧
    DispatchState r (ConvertLifeCycleToAbilityState ABILITY_STATE_BACKGROUND_NEW) g'
      = Returned (ERR_INVALID_VALUE, g').
Proof.
  intros Hg Ha. apply wp_returned_at. cbn [run_posted].
  eapply wp_mono; [by eapply wp_CompleteForegroundNew|]. intros [] g' (C & (a' & Ha' & Hst) & _).
  split_and!; [done|by eapply calm_good|by exists a'|].
  cbn. unfold DispatchBackground, st, the_record, mbind, ST_bind, gets, deref. rewrite Ha'.
  unfold mret, ST_ret, IsAbilityState. rewrite Hst. by destruct g'.
Qed.
End claims.

(** The ability on top of the front list. *)
Definition top_ability (g : MLM Infos) : option AbilityRecord :=
  r ← GetCurrentTopAbility (mlm_store g); st_records (mlm_store g) !! r.

(** There is a reachable state with two missions of one singleton ability,
    of the same id, in a list of the manager: a singleton in the default list
    that starts itself is taken out of that list before it is looked for. *)
Theorem second_singleton :
  demo_reachable g_twice ∧
  ∃ l m1 m2 ms1 ms2, l ∈ live_lists (mlm_store g_twice) ∧ m1 ≠ m2 ∧
    m1 ∈ missions_of (mlm_store g_twice) l ∧ m2 ∈ missions_of (mlm_store g_twice) l ∧
    st_missions (mlm_store g_twice) !! m1 = Some ms1 ∧ st_missions (mlm_store g_twice) !! m2 = Some ms2 ∧
    m_missionName ms1 = m_missionName ms2 ∧ m_missionId ms1 = m_missionId ms2 ∧
    IsSingletonAbility (mlm_store g_twice) m1 = true ∧ IsSingletonAbility (mlm_store g_twice) m2 = true.
Proof.
  split; [apply g_twice_reachable|]. exists 11%positive, 13%positive, 10%positive.
  do 2 eexists. split_and!; try (vm_compute; reflexivity); try done.
  all: apply (bool_decide_unpack _); vm_compute; exact Logic.I.
Qed.

(** The answer to the first of two pending starts of SPECIFIED abilities is
    taken for the second: the second ability is started with the first one's flag,
    and the first request keeps waiting. *)
Theorem specified_response_mismatch :
  demo_reachable g_special ∧
  (λ a, (ai_name (r_info a), r_specifiedFlag a)) <$> top_ability g_special = Some ("Second", "first") ∧
  waittingAbilityQueue_ g_special = [start_special "First"].
Proof. split; [apply g_special_reachable|]. split; vm_compute; reflexivity. Qed.

(** * Restarts of the launcher *)

(** What a death leaves of a root launcher, as in [HandleLauncherDied]. *)
Definition died (a : AbilityRecord) : AbilityRecord := SetRestarting true (SetAbilityState INITIAL a).

Lemma died_root a :
  r_isLauncherRoot a = true → r_isLauncherAbility a = true →
  died a = a <| r_state := INITIAL |> <| r_isRestarting := true |> <| r_restartCount ::= Z.pred |>.
Proof.
  intros H1 H2. unfold died, SetRestarting. cbv zeta.
  change (r_isLauncherRoot ((SetAbilityState INITIAL a) <| r_isRestarting := true |>)) with (r_isLauncherRoot a).
  change (r_isLauncherAbility ((SetAbilityState INITIAL a) <| r_isRestarting := true |>)) with (r_isLauncherAbility a).
  by rewrite H1, H2.
Qed.

Lemma died_times n a :
  r_isLauncherRoot a = true → r_isLauncherAbility a = true →
  let b := Nat.iter n died a in
  r_isLauncherRoot b = true ∧ r_isLauncherAbility b = true ∧ r_restartMax b = r_restartMax a ∧
  r_restartCount b = r_restartCount a - Z.of_nat n ∧ r_app b = r_app a ∧ r_info b = r_info a ∧
  (n ≠ 0%nat → r_isRestarting b = true).
Proof.
  intros H1 H2. induction n as [|n (I1 & I2 & I3 & I4 & I5 & I6 & I7)]; [cbn; split_and!; try done; lia|].
  cbv zeta. rewrite Nat.iter_succ. set (b := Nat.iter n died a) in *. clearbody b.
  rewrite died_root by done. split_and!; try done.
  change (Z.pred (r_restartCount b) = r_restartCount a - Z.of_nat (S n)). lia.
Qed.

(** A root launcher that keeps dying before it is shown is loaded again
    while it has died fewer times than the maximum of its configuration, and no
    more once it has died that often: the load is refused without a call of the
    application manager.  Reaching FOREGROUND gives it all its restarts back. *)
Theorem root_launcher_restarts app_load n a r s :
  r_isLauncherRoot a = true → r_isLauncherAbility a = true → r_restartCount a = r_restartMax a →
  n ≠ 0%nat → app_name (r_app a) ≠ "" → st_records s !! r = Some (Nat.iter n died a) →
  (∃ e s', LoadAbility app_load r s = Returned (e, s') ∧
     if bool_decide (Z.of_nat n < r_restartMax a) then
       e = (if app_load r =? 0 then ERR_OK else AppResult (app_load r)) ∧
       ∃ c w, last (st_trace s') = Some (AppLoadAbility r c w)
     else e = ERR_INVALID_VALUE ∧ ∀ c w, AppLoadAbility r c w ∈ st_trace s' → AppLoadAbility r c w ∈ st_trace s) ∧
  r_restartCount (SetAbilityState FOREGROUND (Nat.iter n died a)) = r_restartMax a.
Proof.
  intros H1 H2 H3 Hn Happ Hr.
  destruct (died_times n a H1 H2) as (I1 & I2 & I3 & I4 & I5 & I6 & I7). set (b := Nat.iter n died a) in *.
  clearbody b. specialize (I7 Hn). split.
  2: { rewrite <- I3. unfold SetAbilityState, SetRestarting. cbv zeta.
       change (r_isLauncherRoot (b <| r_state := FOREGROUND |> <| r_isRestarting := false |>)) with (r_isLauncherRoot b).
       change (r_isLauncherAbility (b <| r_state := FOREGROUND |> <| r_isRestarting := false |>)) with (r_isLauncherAbility b).
       by rewrite I1, I2. }
  apply wp_returned. unfold LoadAbility, the_record. apply wp_bind, wp_bind, wp_gets.
  eapply wp_deref; [exact Hr|]. apply wp_bind.
  match goal with |- wp ?body _ _ => assert (wp body (λ _ s1, (∃ b1, st_records s1 !! r = Some b1) ∧
    (∀ c w, AppLoadAbility r c w ∈ st_trace s1 → AppLoadAbility r c w ∈ st_trace s)) s) as Hev end.
  { destruct (decide _); [apply wp_ret; split; [by exists b|done]|].
    unfold SendEvent, the_record. apply wp_bind, wp_bind, wp_gets. eapply wp_deref; [exact Hr|].
    destruct (is_debug b); [apply wp_ret; split; [by exists b|done]|]. unfold next_event.
    apply wp_bind, wp_bind, wp_modify, wp_bind, wp_gets, wp_bind, wp_modify, wp_ret, wp_modify. split.
    - eexists. store_cbn. by rewrite lookup_alter_eq, Hr.
    - intros c w. store_cbn. rewrite elem_of_app, list_elem_of_singleton. by intros [?|?]. }
  eapply wp_mono; [exact Hev|]. intros [] s1 [[b1 Hb1] Htr].
  rewrite I5, decide_False by done. unfold CanRestartRootLauncher. rewrite I1, I2, I7. cbn [andb].
  assert ((r_restartCount b <=? 0) = negb (bool_decide (Z.of_nat n < r_restartMax a))) as ->.
  { rewrite I4, H3. case_bool_decide; cbn [negb]; [apply Z.leb_gt|apply Z.leb_le]; lia. }
  rewrite negb_involutive. case_bool_decide as Hlt; cbn [negb]; [|by apply wp_ret].
  apply wp_bind, wp_gets. cbv beta delta [id]. cbv zeta.
  apply wp_bind, wp_modify. eapply wp_bind, wp_bind, wp_gets, wp_deref.
  { store_cbn. rewrite lookup_alter_eq, Hb1. done. }
  apply wp_bind, wp_modify, wp_bind, wp_modify, wp_ret. split; [done|]. store_cbn.
  eexists _, _. by rewrite last_snoc.
Qed.

(** * Instances of the claims *)

#[local] Abbreviation demo_good := (good no_request is_launcher_name).

Lemma g_page_good : demo_good g_page.
Proof. apply demo_reachable_good, g_page_reachable. Qed.
Lemma g_main_good : demo_good g_main.
Proof. apply demo_reachable_good, g_main_reachable. Qed.
Lemma g_back_good : demo_good g_back.
Proof. apply demo_reachable_good, g_back_reachable. Qed.

Lemma reachable_lists_ordered_witness :
  GetMissionList (mlm_store g_page) 10%positive = Some 6%positive.
Proof.
  destruct (reachable_lists_ordered app_ok app_ok no_callee no_request visible_ok 3 false is_launcher_name
    100 "2022-01-01" no_infos g_page no_infos_ok g_page_reachable) as (H & _).
  apply (H 6%positive 10%positive); apply (bool_decide_unpack _); vm_compute; exact Logic.I.
Defined.

Lemma reachable_handlers_return_witness :
  ∃ g', demo_run (EvTerminateAbility 9 0 None true) g_page = Returned (tt, g').
Proof.
  destruct (reachable_handlers_return app_ok app_ok no_callee no_request visible_ok 3 false is_launcher_name
    100 "2022-01-01" no_infos g_page (EvTerminateAbility 9 0 None true) no_infos_ok g_page_reachable)
    as (g' & H & _); [|exists g'; exact H].
  apply (bool_decide_unpack (is_Some _)). vm_compute. exact Logic.I.
Defined.

(** [Main] is brought above [Page] from the bottom of their list. *)
Lemma MoveMissionToTargetList_refines_witness :
  ∃ s', MoveMissionToTargetList true 6 8 (mlm_store g_page) = Returned (tt, s') ∧
    missions_of s' 2 = [10%positive].
Proof.
  destruct (good_tidy _ _ _ g_page_good) as [P _].
  destruct (pl_placed _ _ _ P 6 8) as (ms & r & a & Hok & _ & _ & Hnt & Hf);
    [apply (bool_decide_unpack _); vm_compute; exact Logic.I..|].
  destruct (MoveMissionToTargetList_refines is_launcher_name [] true 6 8 ms r a (mlm_store g_page) P)
    as (s' & Hr & M & _); [|done|done|done| |].
  - right. apply (bool_decide_unpack _). vm_compute. exact Logic.I.
  - left. exists 6%positive. split; apply (bool_decide_unpack _); vm_compute; exact Logic.I.
  - exists s'. split; [done|]. rewrite M. vm_compute. reflexivity.
Defined.

Lemma MoveNoneTop_pops_witness :
  ∃ s', MoveNoneTopMissionToDefaultList 8 (mlm_store g_page) = Returned (tt, s') ∧
    missions_of s' 6 = [8%positive].
Proof.
  destruct (MoveNoneTop_pops is_launcher_name 6 8 (mlm_store g_page) (good_tidy _ _ _ g_page_good))
    as (s' & Hr & H & _).
  - apply (bool_decide_unpack _). vm_compute. exact Logic.I.
  - by vm_compute.
  - vm_compute. reflexivity.
  - apply (bool_decide_unpack _). vm_compute. exact Logic.I.
  - exists s'. split; [exact Hr|]. rewrite H. vm_compute. reflexivity.
Defined.


(** [Page] of the application waits while [Main] is shown. *)
Definition g_waiting : MLM Infos :=
  g_main <| waittingAbilityQueue_ := [start_page (Some 7%positive)] |>.

Lemma g_waiting_good : demo_good g_waiting.
Proof. apply good_with_queue; [apply g_main_good|]. repeat constructor; apply start_page_good. Qed.

Lemma waiting_start_served_witness :
  ∃ g1 e g2, CompleteForegroundNew 7 g_waiting = Returned (tt, g1) ∧ demo_good g1 ∧
    StartAbility app_ok 3 false (start_page (Some 7%positive)) (g1 <| waittingAbilityQueue_ := [] |>) = Returned (e, g2) ∧ demo_good g2.
Proof.
  destruct (lookup_is_some (st_records (mlm_store g_waiting) !! 7%positive)) as [a Ha];
    [vm_compute; reflexivity|].
  destruct (waiting_start_served app_ok app_ok no_callee no_request 3 false is_launcher_name g_waiting 7 a
    (start_page (Some 7%positive)) [] g_waiting_good) as (g1 & H & Hg & _ & _ & e & g2 & H2 & _ & Hg2 & _);
    [vm_compute; reflexivity|exact Ha|reflexivity|discriminate|].
  exists g1, e, g2. split; [exact H|]. split; [exact Hg|]. split; [exact H2|exact Hg2].
Defined.

Lemma singleton_reused_witness :
  ∃ g', GetTargetMissionAndAbility 3 false (start_main (Some 7%positive)) g_main
    = Returned ((Some 8%positive, Some 7%positive, false), g') ∧
    st_missions (mlm_store g') = st_missions (mlm_store g_main).
Proof.
  destruct (lookup_is_some (st_missions (mlm_store g_main) !! 8%positive)) as [ms Hms];
    [vm_compute; reflexivity|].
  destruct (singleton_reused no_request 3 false is_launcher_name g_main (start_main (Some 7%positive)) 8 7 ms g_main_good)
    as (g' & H & Hm & _).
  - vm_compute. reflexivity.
  - exact Hms.
  - assert (record_of (mlm_store g_main) 8 = Some 7%positive) as Hr by (vm_compute; reflexivity).
    unfold record_of in Hr. rewrite Hms in Hr. exact Hr.
  - assert (IsStartByCall <$> st_missions (mlm_store g_main) !! 8%positive = Some false) as Hc
      by (vm_compute; reflexivity).
    rewrite Hms in Hc. injection Hc as ->. reflexivity.
  - exists g'. split; [exact H|exact Hm].
Defined.

Lemma MoveMissionToFront_front_witness :
  ∃ g', MoveMissionToFront app_ok no_request 3 2 true None g_page = Returned (ERR_OK, g') ∧ demo_good g'.
Proof.
  destruct (MoveMissionToFront_front app_ok no_request 3 is_launcher_name g_page 2 true None 8 6 g_page_good)
    as (g' & H & Hg & _).
  - vm_compute. reflexivity.
  - vm_compute. reflexivity.
  - vm_compute. discriminate.
  - exists g'. split; [exact H|exact Hg].
Defined.

Lemma TerminateAbility_once_witness :
  ∃ g', TerminateAbility app_ok 9 0 None true g_page = Returned (ERR_OK, g') ∧
    9%positive ∈ st_terminateAbilityList (mlm_store g').
Proof.
  destruct (lookup_is_some (st_records (mlm_store g_page) !! 9%positive)) as [a Ha];
    [vm_compute; reflexivity|].
  destruct (TerminateAbility_once app_ok app_ok no_callee no_request is_launcher_name g_page 9 a 0 None true g_page_good Ha)
    as (g' & H & _ & Hin & _).
  - assert (r_isTerminating <$> st_records (mlm_store g_page) !! 9%positive = Some false) as Ht
      by (vm_compute; reflexivity).
    rewrite Ha in Ht. injection Ht as ->. reflexivity.
  - apply (bool_decide_unpack _). vm_compute. exact Logic.I.
  - exists g'. split; [exact H|exact Hin].
Defined.

(** [Main] in the default list, when no mission id is left. *)
Definition no_ids : Infos :=
  mkMIM (MissionInfo.MAX_MISSION_ID - 1) {[MissionInfo.MAX_MISSION_ID - 1 := true]} [] (Some true) None.
Definition g_full : MLM Infos := g_back <| mlm_infos := no_ids |>.

Lemma good_with_infos (g : MLM Infos) i :
  demo_good g → infos_ok no_request is_launcher_name i → demo_good (g <| mlm_infos := i |>).
Proof. intros [T _ L Q] Hi. by constructor. Qed.

Lemma g_full_good : demo_good g_full.
Proof.
  apply good_with_infos; [apply g_back_good|]. split; [by eexists|].
  intros n w (x & Hx & _). by apply not_elem_of_nil in Hx.
Qed.

Lemma start_held_two (g : MLM Infos) t c :
  bool_decide (is_Some (st_records (mlm_store g) !! t)) = true →
  bool_decide (is_Some (st_records (mlm_store g) !! c)) = true → start_held g (Some t) (Some c).
Proof.
  intros Ht Hc r Hr. bool_to_prop. apply elem_of_cons in Hr as [->|Hr]; [done|].
  by apply list_elem_of_singleton in Hr as ->.
Qed.

Lemma StartAbility_loses_caller_witness :
  ∃ g', StartAbilityLocked app_ok 3 false (Some 7%positive) (Some 9%positive) (start_page (Some 9%positive)) g_full
      = Returned (ERR_INVALID_VALUE, g') ∧
    ∀ l', l' ∈ live_lists (mlm_store g') → 10%positive ∉ missions_of (mlm_store g') l'.
Proof.
  destruct (lookup_is_some (st_records (mlm_store g_full) !! 9%positive)) as [a Ha];
    [vm_compute; reflexivity|].
  destruct (StartAbility_loses_caller app_ok no_request 3 false is_launcher_name g_full (Some 7%positive) 9 a 10 3
    (start_page (Some 9%positive)) g_full_good) as (_ & g' & H & Hno).
  - apply start_held_two; vm_compute; reflexivity.
  - exact Ha.
  - apply (lookup_field r_isLauncherAbility _ _ _ Ha). vm_compute. reflexivity.
  - apply (lookup_field (λ a, lock_mission (mlm_store g_full) (r_mission a)) _ _ _ Ha). vm_compute. reflexivity.
  - apply (lookup_field (λ a, lock_list (mlm_store g_full) (r_missionList a)) _ _ _ Ha). vm_compute. reflexivity.
  - vm_compute. reflexivity.
  - reflexivity.
  - discriminate.
  - vm_compute. reflexivity.
  - exists g'. split; [exact H|exact Hno].
Defined.

Lemma CompleteForegroundNew_overwrites_witness :
  ∃ g', run_posted app_ok app_ok no_callee no_request 3 false (TaskCompleteForegroundNew 9) g_page
      = Returned (tt, g') ∧
    DispatchState 9 (ConvertLifeCycleToAbilityState ABILITY_STATE_BACKGROUND_NEW) g'
      = Returned (ERR_INVALID_VALUE, g').
Proof.
  destruct (lookup_is_some (st_records (mlm_store g_page) !! 9%positive)) as [a Ha];
    [vm_compute; reflexivity|].
  destruct (CompleteForegroundNew_overwrites app_ok app_ok no_callee no_request 3 false is_launcher_name
    g_page 9 a g_page_good Ha) as (g' & H & _ & _ & Hd).
  exists g'. split; [exact H|exact Hd].
Defined.

(** A root launcher that died three times. *)
Definition demo_root : AbilityRecord :=
  (CreateAbilityRecord 3 start_launcher) <| r_isLauncherRoot := true |>.
Definition demo_dead : Store := init_store <| st_records := {[4%positive := Nat.iter 3 died demo_root]} |>.

Lemma root_launcher_restarts_witness :
  ∃ e s', LoadAbility app_ok 4 demo_dead = Returned (e, s') ∧ e = ERR_INVALID_VALUE.
Proof.
  destruct (root_launcher_restarts app_ok 3 demo_root 4 demo_dead) as [(e & s' & H & He) _].
  - reflexivity.
  - reflexivity.
  - reflexivity.
  - discriminate.
  - vm_compute. discriminate.
  - reflexivity.
  - exists e, s'. split; [exact H|]. exact (proj1 He).
Defined.
