(* ===== verification/ServiceRecord.v ===== *)
(** Service records and connections
    (services/abilitymgr/src/connection_record.cpp, and the parts of
    ability_record.cpp and lifecycle_deal.cpp that only services use), with the
    heap and the tables of one [AbilityConnectManager].

    A service is an [AbilityRecord] with the fields that services use. Pointers
    to services and connections are references into [Connects]; the remote
    object of a callback is its address. A token is the reference of its record,
    and promoting it is a lookup among the records somebody holds. Posted
    closures, calls to the services and to the application manager and calls of
    the clients' callbacks are recorded in order in [cm_trace]. *)

From S2P Require Import Prelude CppString Want CallContainer AbilityRecord.
From Stdlib Require Import Ascii.

#[local] Open Scope stdpp_scope.
#[local] Open Scope Z_scope.

#[global] Abbreviation CnRef := positive (only parsing).  (* a ConnectionRecord *)
#[global] Abbreviation CbRef := positive (only parsing).  (* the remote object of a callback *)

(** * Data *)

Inductive ConnectionState := INIT | CONNECTING | CONNECTED | DISCONNECTING | DISCONNECTED.

#[export] Instance ConnectionState_eq_dec : EqDecision ConnectionState.
Proof. solve_decision. Defined.

Record ConnectionRecord := mkConnection {
  c_recordId : Z;
  c_state : ConnectionState;
  c_callerToken : option RRef;
  c_targetService : RRef;
  c_connCallback : option CbRef;
}.

#[export] Instance ConnectionRecord_eta : Eta ConnectionRecord := λ c,
  mkConnection (c_recordId c) (c_state c) (c_callerToken c) (c_targetService c) (c_connCallback c).

(** [sv_appUid] is [abilityInfo_.applicationInfo.uid]. *)
Record ServiceRecord := mkService {
  sv_record : AbilityRecord;
  sv_appUid : Z;
  sv_recordId : Z;
  sv_startId : Z;
  sv_isCreateByConnect : bool;
  sv_connRecordList : list CnRef;
  sv_connRemoteObject : option Z;
}.

#[export] Instance ServiceRecord_eta : Eta ServiceRecord := λ v,
  mkService (sv_record v) (sv_appUid v) (sv_recordId v) (sv_startId v) (sv_isCreateByConnect v)
    (sv_connRecordList v) (sv_connRemoteObject v).

(** The closures the manager posts, and the names they are posted under. *)
Inductive ConnectTask :=
  | CtStartTimeout (r : RRef) (resultCode : ErrCode)
  | CtStopTimeout (r : RRef)
  | CtCommandTimeout (r : RRef)
  | CtCompleteConnect (c : CnRef)
  | CtDisconnect (cs : list CnRef)
  | CtDisconnectTimeout (c : CnRef)
  | CtCallBackDied (cb : CbRef)
  | CtAbilityDied (r : RRef) (currentUserId : Z).

Inductive TaskName :=
  | NmLoadTimeout (recordId : Z)
  | NmConnectTimeout (recordId : Z)
  | NmDisconnectTimeout (recordId : Z)
  | NmCommandTimeout (recordId startId : Z)
  | NmEventId (eventId : Z)
  | NmOnCallbackDied
  | NmOnAbilityDied.

(** The states [UpdateAbilityState] and [UpdateExtensionState] report. *)
Inductive ReportedState := STATE_CREATE | STATE_CONNECTED | STATE_DISCONNECTED | STATE_TERMINATED.

Inductive ServiceEffect :=
  | SvLoadAbility (r : RRef) (caller : option RRef) (w : Want)
  | SvTerminateAbility (r : RRef)
  | SvAttachTimeOut (r : RRef)
  | SvBehaviorAnalysis (r : RRef) (pre : option RRef)
  | SvUpdateAbilityState (r : option RRef) (state : ReportedState)
  | SvUpdateExtensionState (r : option RRef) (state : ReportedState)
  | SvTransaction (r : RRef) (target : AbilityState) (w : Want)
  | SvScheduleConnect (r : RRef) (w : Want)
  | SvScheduleDisconnect (r : RRef) (w : Want)
  | SvScheduleCommand (r : RRef) (w : Want) (startId : Z)
  | SvSendEvent (msg : TimeoutMsg) (eventId : Z)
  | SvRemoveEvent (msg : TimeoutMsg) (eventId : Z)
  | SvPostTask (t : ConnectTask) (name : option TaskName)
  | SvRemoveTask (name : TaskName)
  | SvAddDeathRecipient (cb : CbRef)
  | SvRemoveDeathRecipient (cb : CbRef)
  | OnAbilityConnectDone (cb : CbRef) (e : ElementName) (remote : option Z) (resultCode : ErrCode)
  | OnAbilityDisconnectDone (cb : CbRef) (e : ElementName) (resultCode : Z).

(** * The heap and the tables of the manager *)

Record Connects := mkConnects {
  cm_services : gmap RRef ServiceRecord;
  cm_connections : gmap CnRef ConnectionRecord;
  serviceMap_ : gmap string RRef;
  connectMap_ : gmap CbRef (list CnRef);
  recipientMap_ : gset CbRef;
  cm_userId : Z;
  cm_eventHandler : bool;          (* eventHandler_ is not null *)
  cm_serviceHandler : bool;        (* AbilityManagerService::GetEventHandler() is not null *)
  cm_held : gset RRef;             (* services that posted tasks hold *)
  cm_callers : gset RRef;          (* records of other managers that are alive *)
  cm_next : positive;
  cm_abilityRecordId : Z;
  cm_connectRecordId : Z;
  cm_lastEventId : Z;
  cm_trace : list ServiceEffect;
}.

#[export] Instance Connects_eta : Eta Connects := λ s,
  mkConnects (cm_services s) (cm_connections s) (serviceMap_ s) (connectMap_ s) (recipientMap_ s)
    (cm_userId s) (cm_eventHandler s) (cm_serviceHandler s) (cm_held s) (cm_callers s) (cm_next s)
    (cm_abilityRecordId s) (cm_connectRecordId s) (cm_lastEventId s) (cm_trace s).

Definition service_list (s : Connects) : list (string * RRef) := in_order str_ltb (serviceMap_ s).
Definition connect_list (s : Connects) : list (CbRef * list CnRef) :=
  in_order Pos.ltb (connectMap_ s).

Definition target_of (s : Connects) (c : CnRef) : option RRef :=
  c_targetService <$> cm_connections s !! c.

(** The services that a shared pointer reaches. *)
Definition live_services (s : Connects) : list RRef :=
  (map_to_list (serviceMap_ s)).*2
  ++ omap (target_of s) (mjoin (map_to_list (connectMap_ s)).*2) ++ elements (cm_held s).

(** [Token::GetAbilityRecordByToken] for the token of a service, and for the
    token of any ability that calls one. *)
Definition GetServiceByToken (s : Connects) (token : option RRef) : option RRef :=
  r ← token; if decide (r ∈ live_services s) then Some r else None.
Definition GetCallerByToken (s : Connects) (token : option RRef) : option RRef :=
  r ← token; if decide (r ∈ live_services s ∨ r ∈ cm_callers s) then Some r else None.

Definition the_service (r : RRef) : ST Connects ServiceRecord :=
  x ← gets (λ s, cm_services s !! r); deref x.
Definition the_connection (c : CnRef) : ST Connects ConnectionRecord :=
  x ← gets (λ s, cm_connections s !! c); deref x.

Definition upd_service (r : RRef) (f : ServiceRecord → ServiceRecord) : ST Connects unit :=
  modify (λ s, s <| cm_services ::= alter f r |>).
Definition upd_ability (r : RRef) (f : AbilityRecord → AbilityRecord) : ST Connects unit :=
  upd_service r (λ v, v <| sv_record ::= f |>).
Definition upd_connection (c : CnRef) (f : ConnectionRecord → ConnectionRecord) : ST Connects unit :=
  modify (λ s, s <| cm_connections ::= alter f c |>).

Definition emit (e : ServiceEffect) : ST Connects unit :=
  modify (λ s, s <| cm_trace ::= λ t, t ++ [e] |>).

Definition take_ref : ST Connects positive :=
  p ← gets cm_next; _ ← modify (λ s, s <| cm_next ::= Pos.succ |>); mret p.

(** * The service side of AbilityRecord *)

(** [AbilityRequest] with the fields that only this manager reads. *)
Record ServiceRequest := mkServiceRequest {
  sq_request : AbilityRequest;
  sq_appUid : Z;
  sq_restart : bool;
  sq_restartCount : Z;
}.

Definition SetRestartingCount (isRestart : bool) (canReStartCount : Z) (a : AbilityRecord) : AbilityRecord :=
  let a := a <| r_isRestarting := isRestart |> in
  if r_isLauncherRoot a && r_isLauncherAbility a then
    a <| r_restartCount := if isRestart then canReStartCount else r_restartMax a |>
  else a.

(** A record takes the next value of a process-wide counter, cut to an [int]. *)
Definition CreateServiceRecord (restartMax : Z) (q : ServiceRequest) : ST Connects RRef :=
  p ← take_ref;
  n ← gets cm_abilityRecordId;
  _ ← modify (λ s, s <| cm_abilityRecordId ::= Z.succ |>);
  _ ← modify (λ s, s <| cm_services ::= insert p
        (mkService (CreateAbilityRecord restartMax (sq_request q)) (sq_appUid q) (wrap_i32 n) 0 false
           [] None) |>);
  mret p.

Definition AddConnectRecordToList (c : CnRef) (v : ServiceRecord) : ServiceRecord :=
  if decide (c ∈ sv_connRecordList v) then v else v <| sv_connRecordList ::= λ l, l ++ [c] |>.
Definition RemoveConnectRecordFromList (c : CnRef) (v : ServiceRecord) : ServiceRecord :=
  v <| sv_connRecordList ::= list_remove_all c |>.
Definition IsConnectListEmpty (v : ServiceRecord) : bool :=
  match sv_connRecordList v with [] => true | _ => false end.

Definition connection_in (s : Connects) (state : ConnectionState) (c : CnRef) : bool :=
  match cm_connections s !! c with Some x => bool_decide (c_state x = state) | None => false end.
Definition GetConnectingRecord (s : Connects) (v : ServiceRecord) : option CnRef :=
  List.find (connection_in s CONNECTING) (sv_connRecordList v).
Definition GetConnectingRecordList (s : Connects) (v : ServiceRecord) : list CnRef :=
  List.filter (connection_in s CONNECTING) (sv_connRecordList v).
Definition GetDisconnectingRecord (s : Connects) (v : ServiceRecord) : option CnRef :=
  List.find (connection_in s DISCONNECTING) (sv_connRecordList v).

Definition AddCallerRecord (r : RRef) (callerToken : option RRef) (requestCode : Z) : ST Connects unit :=
  s ← gets id;
  match GetCallerByToken s callerToken with
  | None => mret tt
  | Some caller =>
      upd_ability r (λ a, a <| r_callerList ::= λ l,
        erase_first (λ c, bool_decide (GetCallerByToken s (Some c.2) = Some caller)) l
        ++ [(requestCode, caller)] |>)
  end.

Definition next_event (r : RRef) : ST Connects Z :=
  _ ← modify (λ s, s <| cm_lastEventId ::= Z.succ |>);
  n ← gets cm_lastEventId;
  _ ← upd_ability r (λ a, a <| r_eventId := n |>);
  mret n.

Definition SendEvent (msg : TimeoutMsg) (r : RRef) : ST Connects unit :=
  v ← the_service r;
  if is_debug (sv_record v) then mret tt
  else
    handler ← gets cm_serviceHandler;
    if handler : bool then n ← next_event r; emit (SvSendEvent msg n) else mret tt.

(** Each call of [LifecycleDeal] needs the scheduler. *)
Definition deal (r : RRef) (call : ServiceRecord → ServiceEffect) : ST Connects unit :=
  v ← the_service r;
  if r_dealScheduler (sv_record v) then emit (call v) else mret tt.

Definition Inactivate (r : RRef) : ST Connects unit :=
  _ ← SendEvent INACTIVE_TIMEOUT_MSG r;
  _ ← upd_ability r (λ a, a <| r_state := INACTIVATING |>);
  deal r (λ v, SvTransaction r INACTIVE (r_want (sv_record v))).

Definition Terminate (r : RRef) (task : ConnectTask) : ST Connects unit :=
  handler ← gets cm_serviceHandler;
  v ← the_service r;
  _ ← (if (handler : bool) && negb (is_debug (sv_record v))
       then n ← next_event r; emit (SvPostTask task (Some (NmEventId n)))
       else mret tt);
  _ ← upd_ability r (λ a, a <| r_state := TERMINATING |>);
  deal r (λ v, SvTransaction r INITIAL (r_want (sv_record v))).

Definition RecordConnectAbility (r : RRef) : ST Connects unit :=
  deal r (λ v, SvScheduleConnect r (r_want (sv_record v))).
Definition RecordDisconnectAbility (r : RRef) : ST Connects unit :=
  deal r (λ v, SvScheduleDisconnect r (r_want (sv_record v))).
Definition RecordCommandAbility (r : RRef) : ST Connects unit :=
  deal r (λ v, SvScheduleCommand r (r_want (sv_record v)) (sv_startId v)).

(** * ConnectionRecord *)

Definition CreateConnectionRecord (callerToken : option RRef) (target : RRef) (cb : CbRef)
    : ST Connects CnRef :=
  p ← take_ref;
  n ← gets cm_connectRecordId;
  _ ← modify (λ s, s <| cm_connectRecordId ::= Z.succ |>);
  _ ← modify (λ s, s <| cm_connections ::= insert p
        (mkConnection (wrap_i32 n) INIT callerToken target (Some cb)) |>);
  mret p.

Definition SetConnectState (c : CnRef) (state : ConnectionState) : ST Connects unit :=
  upd_connection c (λ x, x <| c_state := state |>).

Definition ClearConnCallBack (c : CnRef) : ST Connects unit :=
  upd_connection c (λ x, x <| c_connCallback := None |>).

Definition DisconnectAbility (c : CnRef) : ST Connects ErrCode :=
  x ← the_connection c;
  if negb (bool_decide (c_state x = CONNECTED)) then mret INVALID_CONNECTION_STATE
  else
    _ ← SetConnectState c DISCONNECTING;
    v ← the_service (c_targetService x);
    _ ← (if decide (length (sv_connRecordList v) = 1%nat) then
           handler ← gets cm_serviceHandler;
           _ ← (if handler : bool
                then emit (SvPostTask (CtDisconnectTimeout c) (Some (NmDisconnectTimeout (c_recordId x))))
                else mret tt);
           RecordDisconnectAbility (c_targetService x)
         else SetConnectState c DISCONNECTED);
    mret ERR_OK.

Definition CompleteConnect (c : CnRef) (resultCode : ErrCode) : ST Connects unit :=
  x ← the_connection c;
  _ ← (if decide (resultCode = ERR_OK) then
         _ ← SetConnectState c CONNECTED;
         upd_ability (c_targetService x) (SetAbilityState ACTIVE)
       else mret tt);
  v ← the_service (c_targetService x);
  match c_connCallback x with
  | Some cb => emit (OnAbilityConnectDone cb (record_element (sv_record v)) (sv_connRemoteObject v) resultCode)
  | None => mret tt
  end.

Definition CompleteDisconnect (c : CnRef) (resultCode : Z) (isDied : bool) : ST Connects unit :=
  x ← the_connection c;
  _ ← (if resultCode =? 0 then SetConnectState c DISCONNECTED else mret tt);
  v ← the_service (c_targetService x);
  match c_connCallback x with
  | Some cb => emit (OnAbilityDisconnectDone cb (record_element (sv_record v))
                       (if isDied then resultCode - 1 else resultCode))
  | None => mret tt
  end.

Definition ScheduleDisconnectAbilityDone (c : CnRef) : ST Connects unit :=
  x ← the_connection c;
  if negb (bool_decide (c_state x = DISCONNECTING)) then mret tt
  else
    handler ← gets cm_serviceHandler;
    _ ← (if handler : bool then emit (SvRemoveTask (NmDisconnectTimeout (c_recordId x))) else mret tt);
    CompleteDisconnect c 0 false.

Definition ScheduleConnectAbilityDone (c : CnRef) : ST Connects unit :=
  x ← the_connection c;
  if negb (bool_decide (c_state x = CONNECTING)) then mret tt
  else
    handler ← gets cm_serviceHandler;
    _ ← (if handler : bool then emit (SvRemoveTask (NmConnectTimeout (c_recordId x))) else mret tt);
    CompleteConnect c ERR_OK.
