(* ===== verification/ConnectManager.v ===== *)
(** [AbilityConnectManager]
    (services/abilitymgr/src/ability_connect_manager.cpp): the services of one
    user, the clients connected to them and the handlers that start, connect,
    disconnect, command, stop and lose them.

    Every handler takes the manager's lock for its whole run, so it is one step.
    The answers of the permission check and of the bundle manager are arguments
    of the handlers that ask. A service's token is its reference. *)

From S2P Require Import Prelude CppString Want CallContainer AbilityRecord ServiceRecord.
From Stdlib Require Import Ascii.

#[local] Open Scope stdpp_scope.
#[local] Open Scope Z_scope.

Definition LAUNCHER_ABILITY_NAME : string := "com.ohos.launcher.MainAbility".
Definition SYSTEM_UI_ABILITY_NAME : string := "com.ohos.systemui.ServiceExtAbility".

#[local] Abbreviation M A := (ST Connects A).

(** ** Lookups *)

(** The key of [serviceMap_]. *)
Definition service_key (i : AbilityInfo) : string :=
  GetURI (mkElement (ai_deviceId i) (ai_bundleName i) (ai_name i) (ai_moduleName i)).

Definition GetServiceRecordByElementName (s : Connects) (element : string) : option RRef :=
  serviceMap_ s !! element.

Definition find_service (P : RRef → bool) (s : Connects) : option RRef :=
  snd <$> List.find (λ x, P x.2) (service_list s).

Definition GetServiceRecordByToken (s : Connects) (token : option RRef) : option RRef :=
  find_service (λ r, bool_decide (Some r = token)) s.

Definition has_event (s : Connects) (eventId : Z) (r : RRef) : bool :=
  match cm_services s !! r with
  | Some v => eventId =? r_eventId (sv_record v)
  | None => false
  end.
Definition GetAbilityRecordByEventId (s : Connects) (eventId : Z) : option RRef :=
  find_service (has_event s eventId) s.

Definition GetConnectRecordListFromMap (s : Connects) (cb : CbRef) : list CnRef :=
  default [] (connectMap_ s !! cb).

Definition GetConnectRecordListByCallback (s : Connects) (cb : CbRef) : list CnRef :=
  default [] (connectMap_ s !! cb).

Definition IsAbilityConnected (s : Connects) (r : RRef) (l : list CnRef) : bool :=
  existsb (λ c, bool_decide (target_of s c = Some r)) l.

(** ** Table maintenance *)

Definition AddConnectDeathRecipient (cb : CbRef) : M unit :=
  s ← gets id;
  if decide (cb ∈ recipientMap_ s) then mret tt
  else
    _ ← emit (SvAddDeathRecipient cb);
    modify (λ s, s <| recipientMap_ ::= λ m, {[cb]} ∪ m |>).

Definition RemoveConnectDeathRecipient (cb : CbRef) : M unit :=
  s ← gets id;
  if decide (cb ∈ recipientMap_ s) then
    _ ← emit (SvRemoveDeathRecipient cb);
    modify (λ s, s <| recipientMap_ ::= λ m, m ∖ {[cb]} |>)
  else mret tt.

(** The first entry with the connection loses it, and goes when it is left empty. *)
Definition RemoveConnectionRecordFromMap (c : CnRef) : M unit :=
  s ← gets id;
  match List.find (λ x, bool_decide (c ∈ x.2)) (connect_list s) with
  | None => mret tt
  | Some (cb, l) =>
      let l' := list_remove_all c l in
      _ ← modify (λ s, s <| connectMap_ ::= insert cb l' |>);
      match l' with
      | [] =>
          _ ← RemoveConnectDeathRecipient cb;
          modify (λ s, s <| connectMap_ ::= delete cb |>)
      | _ => mret tt
      end
  end.

Definition RemoveServiceAbility (r : RRef) : M unit :=
  v ← the_service r;
  let i := r_info (sv_record v) in
  let element := ai_deviceId i +:+ "/" +:+ ai_bundleName i +:+ "/" +:+ ai_name i in
  modify (λ s, s <| serviceMap_ ::= delete element |>).

Definition RemoveAll : M unit :=
  modify (λ s, s <| serviceMap_ := ∅ |> <| connectMap_ := ∅ |>).

Section connect_manager.
Context (restartMax : Z).

Definition GetOrCreateServiceRecord (q : ServiceRequest) (isCreatedByConnect : bool) : M (RRef * bool) :=
  let info := rq_info (sq_request q) in
  s ← gets id;
  match serviceMap_ s !! service_key info with
  | None =>
      r ← CreateServiceRecord restartMax q;
      _ ← (if isCreatedByConnect then upd_service r (λ v, v <| sv_isCreateByConnect := true |>) else mret tt);
      _ ← (if decide (ai_name info = LAUNCHER_ABILITY_NAME) then
             _ ← upd_ability r (λ a, a <| r_isLauncherRoot := true |>);
             upd_ability r (SetRestartingCount (sq_restart q) (sq_restartCount q))
           else mret tt);
      _ ← modify (λ s, s <| serviceMap_ ::= emplace (service_key info) r |>);
      mret (r, false)
  | Some r =>
      _ ← upd_ability r (λ a, a <| r_want := rq_want (sq_request q) |>);
      mret (r, true)
  end.

(** ** Scheduling *)

Definition ACM_LOAD_TIMEOUT_MSG : Z := 0.
Definition ACM_CONNECT_TIMEOUT_MSG : Z := 1.

Definition PostTimeOutTask (r : RRef) (messageId : Z) : M unit :=
  handler ← gets cm_eventHandler;
  if negb handler then mret tt
  else if negb (messageId =? ACM_LOAD_TIMEOUT_MSG) && negb (messageId =? ACM_CONNECT_TIMEOUT_MSG) then mret tt
  else
    v ← the_service r;
    if messageId =? ACM_LOAD_TIMEOUT_MSG then
      emit (SvPostTask (CtStartTimeout r LOAD_ABILITY_TIMEOUT) (Some (NmLoadTimeout (sv_recordId v))))
    else
      s ← gets id;
      match GetConnectingRecord s v with
      | None => mret tt
      | Some c =>
          x ← the_connection c;
          emit (SvPostTask (CtStartTimeout r CONNECTION_TIMEOUT) (Some (NmConnectTimeout (c_recordId x))))
      end.

(** The caller the application manager is told about: the client of the
    connection that is being made, or the last caller. *)
Definition load_caller (r : RRef) : M (option RRef) :=
  v ← the_service r;
  s ← gets id;
  if sv_isCreateByConnect v then
    c ← deref (GetConnectingRecord s v);
    x ← the_connection c;
    mret (c_callerToken x)
  else
    mret (c ← last (r_callerList (sv_record v)); GetCallerByToken s (Some c.2)).

Definition LoadAbility (r : RRef) : M unit :=
  v ← the_service r;
  if negb (CanRestartRootLauncher (sv_record v)) then RemoveServiceAbility r
  else
    _ ← PostTimeOutTask r ACM_LOAD_TIMEOUT_MSG;
    caller ← load_caller r;
    emit (SvLoadAbility r caller (r_want (sv_record v))).

Definition ConnectAbility (r : RRef) : M unit :=
  _ ← PostTimeOutTask r ACM_CONNECT_TIMEOUT_MSG;
  RecordConnectAbility r.

Definition CommandAbility (r : RRef) : M unit :=
  handler ← gets cm_eventHandler;
  if handler : bool then
    _ ← upd_service r (λ v, v <| sv_startId ::= λ n, wrap_i32 (n + 1) |>);
    v ← the_service r;
    _ ← emit (SvPostTask (CtCommandTimeout r) (Some (NmCommandTimeout (sv_recordId v) (sv_startId v))));
    RecordCommandAbility r
  else mret tt.

Definition TerminateDone (r : RRef) : M unit :=
  v ← the_service r;
  if negb (IsAbilityState TERMINATING (sv_record v)) then mret tt
  else
    _ ← emit (SvTerminateAbility r);
    RemoveServiceAbility r.

(** The end of a connection without the service's word, for all of a list. *)
Definition drop_connection (isDied : bool) (r : RRef) (c : CnRef) : M unit :=
  _ ← CompleteDisconnect c 0 isDied;
  _ ← upd_service r (RemoveConnectRecordFromList c);
  RemoveConnectionRecordFromMap c.

Definition HandleTerminateDisconnectTask (cs : list CnRef) : M unit :=
  for_each (λ c, x ← the_connection c; drop_connection false (c_targetService x) c) cs.

Definition HandleDisconnectTask (cs : list CnRef) : M unit :=
  for_each (λ c,
    x ← the_connection c;
    v ← the_service (c_targetService x);
    if bool_decide (c_state x = DISCONNECTED) && bool_decide (1 < length (sv_connRecordList v))%nat
    then drop_connection false (c_targetService x) c
    else mret tt) cs.

(** ** Start and stop *)

Definition StartAbilityLocked (q : ServiceRequest) : M ErrCode :=
  '(r, isLoaded) ← GetOrCreateServiceRecord q false;
  _ ← AddCallerRecord r (rq_callerToken (sq_request q)) (rq_requestCode (sq_request q));
  v ← the_service r;
  let answer :=
    s ← gets id;
    v' ← the_service r;
    _ ← emit (SvBehaviorAnalysis r (GetCallerByToken s (r_preAbility (sv_record v'))));
    mret ERR_OK in
  if negb isLoaded then _ ← LoadAbility r; answer
  else if IsAbilityState ACTIVE (sv_record v) then _ ← CommandAbility r; answer
  else mret START_SERVICE_ABILITY_ACTIVING.

(** The common end of the two ways to stop a service. *)
Definition stop_service (r : RRef) : M ErrCode :=
  v ← the_service r;
  if r_isTerminating (sv_record v) then mret ERR_OK
  else
    _ ← (if IsConnectListEmpty v then mret tt else HandleTerminateDisconnectTask (sv_connRecordList v));
    _ ← Terminate r (CtStopTimeout r);
    mret ERR_OK.

Definition TerminateAbilityLocked (token : option RRef) : M ErrCode :=
  s ← gets id;
  match GetServiceRecordByToken s token with
  | None => mret ERR_INVALID_VALUE
  | Some r => stop_service r
  end.

Definition StopServiceAbilityLocked (q : ServiceRequest) : M ErrCode :=
  s ← gets id;
  match GetServiceRecordByElementName s (service_key (rq_info (sq_request q))) with
  | None => mret ERR_INVALID_VALUE
  | Some r => stop_service r
  end.

Definition has_caller (s : Connects) (caller : option RRef) (requestCode : Z) (r : RRef) : bool :=
  match cm_services s !! r with
  | Some v => existsb (λ c, bool_decide (GetCallerByToken s (Some c.2) = caller) && (c.1 =? requestCode))
                (r_callerList (sv_record v))
  | None => false
  end.

(** The services are searched to the end, so the last one that matches counts. *)
Definition TerminateAbilityByCaller (judge : AbilityInfo → ErrCode) (caller : option RRef) (requestCode : Z)
    : M ErrCode :=
  s ← gets id;
  match last (filter (λ r, has_caller s caller requestCode r = true) (service_list s).*2) with
  | None => mret NO_FOUND_ABILITY_BY_CALLER
  | Some r =>
      v ← the_service r;
      if decide (judge (r_info (sv_record v)) = ERR_OK) then TerminateAbilityLocked (Some r)
      else mret (judge (r_info (sv_record v)))
  end.

Definition TerminateAbilityResultLocked (token : option RRef) (startId : Z) : M ErrCode :=
  s ← gets id;
  match GetServiceByToken s token with
  | None => mret ERR_INVALID_VALUE
  | Some r =>
      v ← the_service r;
      if negb (sv_startId v =? startId) then mret TERMINATE_ABILITY_RESULT_FAILED
      else TerminateAbilityLocked token
  end.

Definition StartRootLauncher (r : RRef) : M unit :=
  v ← the_service r;
  let a := sv_record v in
  let q := mkRequest (r_want a) (r_info a) (r_app a) 0 (-1) (-1) INVALID_TYPE None None "" in
  _ ← StartAbilityLocked (mkServiceRequest q (sv_appUid v) true (r_restartCount a - 1));
  mret tt.

(** ** Connect and disconnect *)

Definition ConnectAbilityLocked (q : ServiceRequest) (cb : CbRef) (callerToken : option RRef) : M ErrCode :=
  '(r, isLoaded) ← GetOrCreateServiceRecord q true;
  s ← gets id;
  let l := GetConnectRecordListFromMap s cb in
  let isCallbackConnected := match l with [] => false | _ => true end in
  if isLoaded && isCallbackConnected && IsAbilityConnected s r l then mret ERR_OK
  else
    c ← CreateConnectionRecord callerToken r cb;
    _ ← SetConnectState c CONNECTING;
    _ ← upd_service r (AddConnectRecordToList c);
    _ ← (if isCallbackConnected then
           _ ← RemoveConnectDeathRecipient cb;
           modify (λ s, s <| connectMap_ ::= delete cb |>)
         else mret tt);
    _ ← AddConnectDeathRecipient cb;
    _ ← modify (λ s, s <| connectMap_ ::= emplace cb (l ++ [c]) |>);
    v ← the_service r;
    _ ← (if negb isLoaded then LoadAbility r
         else if IsAbilityState ACTIVE (sv_record v) then
           if decide (1 < length (sv_connRecordList v))%nat then
             handler ← gets cm_eventHandler;
             if handler : bool then emit (SvPostTask (CtCompleteConnect c) None) else mret tt
           else ConnectAbility r
         else mret tt);
    _ ← emit (SvBehaviorAnalysis r callerToken);
    mret ERR_OK.

(** The loop over the connections of a callback ends at the first failure. *)
Fixpoint disconnect_all (judge : AbilityInfo → ErrCode) (cs : list CnRef) : M ErrCode :=
  match cs with
  | [] => mret ERR_OK
  | c :: cs =>
      x ← the_connection c;
      v ← the_service (c_targetService x);
      if decide (judge (r_info (sv_record v)) = ERR_OK) then
        ret ← DisconnectAbility c;
        if decide (ret = ERR_OK) then disconnect_all judge cs else mret ret
      else mret (judge (r_info (sv_record v)))
  end.

Definition DisconnectAbilityLocked (judge : AbilityInfo → ErrCode) (cb : CbRef) : M ErrCode :=
  s ← gets id;
  let l := GetConnectRecordListFromMap s cb in
  match l with
  | [] => mret CONNECTION_NOT_EXIST
  | _ =>
      ret ← disconnect_all judge l;
      if decide (ret = ERR_OK) then
        handler ← gets cm_eventHandler;
        _ ← (if handler : bool then emit (SvPostTask (CtDisconnect l) None) else mret tt);
        mret ERR_OK
      else mret ret
  end.

(** ** Reports of the application manager and of the services *)

Definition AttachAbilityThreadLocked (schedulerNotNull : bool) (token : option RRef) : M ErrCode :=
  s ← gets id;
  match GetServiceRecordByToken s token with
  | None => mret ERR_INVALID_VALUE
  | Some r =>
      v ← the_service r;
      handler ← gets cm_eventHandler;
      _ ← (if handler : bool then
             _ ← emit (SvRemoveTask (NmLoadTimeout (sv_recordId v)));
             emit (SvRemoveEvent LOAD_TIMEOUT_MSG (r_eventId (sv_record v)))
           else mret tt);
      _ ← upd_ability r (SetScheduler schedulerNotNull);
      _ ← Inactivate r;
      mret ERR_OK
  end.

Inductive AppAbilityState :=
  | ABILITY_STATE_UNDEFINED | ABILITY_STATE_FOREGROUND | ABILITY_STATE_BACKGROUND.

Definition OnAbilityRequestDone (token : option RRef) (state : AppAbilityState) : M unit :=
  s ← gets id;
  match GetServiceRecordByToken s token with
  | None => mret tt
  | Some r =>
      match state with
      | ABILITY_STATE_FOREGROUND => Inactivate r
      | ABILITY_STATE_BACKGROUND => _ ← emit (SvTerminateAbility r); RemoveServiceAbility r
      | ABILITY_STATE_UNDEFINED => mret tt
      end
  end.

(** [appData] lists the applications of the process with their uids. *)
Definition OnAppStateChanged (processName : string) (appData : list (string * Z)) (state : AppState) : M unit :=
  s ← gets service_list;
  for_each (λ x,
    v ← the_service x.2;
    let a := sv_record v in
    if (String.eqb processName (ai_process (r_info a)) || String.eqb processName (app_bundleName (r_app a)))
       && existsb (λ d, String.eqb d.1 (app_name (r_app a)) && (d.2 =? sv_appUid v)) appData
    then upd_ability x.2 (λ a, a <| r_appState := state |>)
    else mret tt) s.

Definition DispatchInactive (r : RRef) : M ErrCode :=
  handler ← gets cm_eventHandler;
  if negb handler then mret ERR_INVALID_VALUE
  else
    v ← the_service r;
    if negb (IsAbilityState INACTIVATING (sv_record v)) then mret ERR_INVALID_VALUE
    else
      _ ← emit (SvRemoveEvent INACTIVE_TIMEOUT_MSG (r_eventId (sv_record v)));
      _ ← upd_ability r (SetAbilityState INACTIVE);
      _ ← (if sv_isCreateByConnect v then ConnectAbility r else CommandAbility r);
      mret ERR_OK.

Definition DispatchTerminate (r : RRef) : M ErrCode :=
  handler ← gets cm_eventHandler;
  v ← the_service r;
  _ ← (if handler : bool then emit (SvRemoveTask (NmEventId (r_eventId (sv_record v)))) else mret tt);
  _ ← TerminateDone r;
  mret ERR_OK.

(** The application manager hears of the new state as of an ability or as of an
    extension, by the type of the service. *)
Definition report_state (r : RRef) (token : option RRef) (state : ReportedState) : M unit :=
  v ← the_service r;
  emit (if decide (ai_type (r_info (sv_record v)) = SERVICE) then SvUpdateAbilityState token state
        else SvUpdateExtensionState token state).

Definition AbilityTransitionDone (token : option RRef) (state : Z) : M ErrCode :=
  s ← gets id;
  match GetServiceRecordByToken s token with
  | None => mret ERR_INVALID_VALUE
  | Some r =>
      if state =? 1 then _ ← report_state r token STATE_CREATE; DispatchInactive r
      else if state =? 0 then _ ← report_state r token STATE_TERMINATED; DispatchTerminate r
      else mret ERR_INVALID_VALUE
  end.

Definition ScheduleConnectAbilityDoneLocked (token : option RRef) (remoteObject : option Z) : M ErrCode :=
  s ← gets id;
  match GetServiceByToken s token with
  | None => mret ERR_INVALID_VALUE
  | Some r =>
      v ← the_service r;
      if negb (IsAbilityState INACTIVE (sv_record v)) && negb (IsAbilityState ACTIVE (sv_record v))
      then mret INVALID_CONNECTION_STATE
      else
        _ ← report_state r token STATE_CONNECTED;
        _ ← upd_service r (λ v, v <| sv_connRemoteObject := remoteObject |>);
        _ ← for_each ScheduleConnectAbilityDone (sv_connRecordList v);
        mret ERR_OK
  end.

Definition ScheduleDisconnectAbilityDoneLocked (token : option RRef) : M ErrCode :=
  s ← gets id;
  match GetServiceRecordByToken s token with
  | None => mret CONNECTION_NOT_EXIST
  | Some r =>
      v ← the_service r;
      match GetDisconnectingRecord s v with
      | None => mret CONNECTION_NOT_EXIST
      | Some c =>
          if negb (IsAbilityState ACTIVE (sv_record v)) then mret INVALID_CONNECTION_STATE
          else
            _ ← report_state r token STATE_DISCONNECTED;
            _ ← ScheduleDisconnectAbilityDone c;
            _ ← upd_service r (RemoveConnectRecordFromList c);
            v' ← the_service r;
            _ ← (if IsConnectListEmpty v' && (sv_startId v' =? 0) then Terminate r (CtStopTimeout r)
                 else mret tt);
            _ ← RemoveConnectionRecordFromMap c;
            mret ERR_OK
      end
  end.

Definition CompleteCommandAbility (r : RRef) : M unit :=
  handler ← gets cm_eventHandler;
  v ← the_service r;
  _ ← (if handler : bool then emit (SvRemoveTask (NmCommandTimeout (sv_recordId v) (sv_startId v)))
       else mret tt);
  upd_ability r (SetAbilityState ACTIVE).

Definition ScheduleCommandAbilityDoneLocked (token : option RRef) : M ErrCode :=
  s ← gets id;
  match GetServiceByToken s token with
  | None => mret ERR_INVALID_VALUE
  | Some r =>
      v ← the_service r;
      if negb (IsAbilityState INACTIVE (sv_record v)) && negb (IsAbilityState ACTIVE (sv_record v))
      then mret INVALID_CONNECTION_STATE
      else _ ← CompleteCommandAbility r; mret ERR_OK
  end.

(** ** Timeouts *)

Definition is_launcher (v : ServiceRecord) : bool :=
  bool_decide (ai_name (r_info (sv_record v)) = LAUNCHER_ABILITY_NAME).

Definition HandleStartTimeoutTask (r : RRef) (resultCode : ErrCode) : M unit :=
  v ← the_service r;
  s ← gets id;
  _ ← for_each (λ c,
        _ ← CompleteConnect c resultCode;
        _ ← upd_service r (RemoveConnectRecordFromList c);
        RemoveConnectionRecordFromMap c) (GetConnectingRecordList s v);
  _ ← (if decide (resultCode = LOAD_ABILITY_TIMEOUT) then RemoveServiceAbility r else mret tt);
  if is_launcher v then
    _ ← emit (SvAttachTimeOut r);
    if decide (resultCode = LOAD_ABILITY_TIMEOUT) then StartRootLauncher r else mret tt
  else mret tt.

Definition HandleCommandTimeoutTask (r : RRef) : M unit :=
  v ← the_service r;
  if is_launcher v then emit (SvAttachTimeOut r) else mret tt.

Definition HandleStopTimeoutTask (r : RRef) : M unit := TerminateDone r.

Definition HandleInactiveTimeout (r : RRef) : M unit :=
  v ← the_service r;
  if is_launcher v then emit (SvAttachTimeOut r) else mret tt.

Definition OnTimeOut (msg : TimeoutMsg) (eventId : Z) : M unit :=
  s ← gets id;
  match GetAbilityRecordByEventId s eventId with
  | None => mret tt
  | Some r =>
      match msg with
      | INACTIVE_TIMEOUT_MSG => HandleInactiveTimeout r
      | _ => mret tt
      end
  end.

Definition DisconnectTimeout (c : CnRef) : M unit :=
  x ← the_connection c;
  _ ← ScheduleDisconnectAbilityDoneLocked (Some (c_targetService x));
  mret tt.

(** ** Deaths *)

Definition OnCallBackDied (cb : CbRef) : M unit :=
  handler ← gets cm_eventHandler;
  if handler : bool then emit (SvPostTask (CtCallBackDied cb) (Some NmOnCallbackDied)) else mret tt.

Definition HandleCallBackDiedTask (judge : AbilityInfo → ErrCode) (cb : CbRef) : M unit :=
  s ← gets id;
  match connectMap_ s !! cb with
  | None => mret tt
  | Some l =>
      _ ← for_each ClearConnCallBack l;
      _ ← DisconnectAbilityLocked judge cb;
      mret tt
  end.

Definition OnAbilityDied (r : RRef) (currentUserId : Z) : M unit :=
  v ← the_service r;
  let type := ai_type (r_info (sv_record v)) in
  if negb (bool_decide (type = SERVICE)) && negb (bool_decide (type = EXTENSION)) then mret tt
  else
    handler ← gets cm_eventHandler;
    if handler : bool then emit (SvPostTask (CtAbilityDied r currentUserId) (Some NmOnAbilityDied))
    else mret tt.

(** What the bundle manager says of an installed bundle: whether it is kept
    alive and, per module, whether it is of the new model, its main ability and
    its main element. *)
Record BundleInfo := mkBundleInfo {
  bi_isKeepAlive : bool;
  bi_hapModuleInfos : list (bool * string * string);
}.

Definition GetKeepAliveAbilities (bundles : list BundleInfo) : list string :=
  bundles ≫= λ b,
    if bi_isKeepAlive b then
      filter (.≠ "") ((λ m, if m.1.1 : bool then m.2 else m.1.2) <$> bi_hapModuleInfos b)
    else [].

(** [bundles] is [None] when the bundle manager cannot be asked. *)
Definition IsAbilityNeedRestart (bundles : option (list BundleInfo)) (v : ServiceRecord) : bool :=
  match bundles with
  | None => false
  | Some bs =>
      let name := ai_name (r_info (sv_record v)) in
      existsb (λ mainElement, String.eqb name mainElement || String.eqb name SYSTEM_UI_ABILITY_NAME
                              || String.eqb name LAUNCHER_ABILITY_NAME)
        (GetKeepAliveAbilities bs)
  end.

Definition HandleAbilityDiedTask (bundles : option (list BundleInfo)) (r : RRef) (currentUserId : Z) : M unit :=
  s ← gets id;
  match GetServiceRecordByToken s (Some r) with
  | None => mret tt
  | Some _ =>
      v ← the_service r;
      if IsAbilityNeedRestart bundles v then
        let a := sv_record v in
        let q := mkRequest (r_want a) (r_info a) (r_app a) 0 (-1) (-1) INVALID_TYPE None None "" in
        _ ← RemoveServiceAbility r;
        if negb (currentUserId =? cm_userId s) && is_launcher v then mret tt
        else
          let count := if is_launcher v then r_restartCount a - 1 else -1 in
          _ ← StartAbilityLocked (mkServiceRequest q (sv_appUid v) true count);
          mret tt
      else
        _ ← for_each (drop_connection true r) (sv_connRecordList v);
        RemoveServiceAbility r
  end.

Definition StopAllExtensions : M unit :=
  l ← gets service_list;
  for_each (λ x,
    v ← the_service x.2;
    if decide (ai_type (r_info (sv_record v)) = EXTENSION)
    then _ ← TerminateAbilityLocked (Some x.2); mret tt
    else mret tt) l.

(** ** Posted closures *)

Definition run_connect_task (judge : AbilityInfo → ErrCode) (bundles : option (list BundleInfo)) (t : ConnectTask)
    : M unit :=
  match t with
  | CtStartTimeout r code => HandleStartTimeoutTask r code
  | CtStopTimeout r => HandleStopTimeoutTask r
  | CtCommandTimeout r => HandleCommandTimeoutTask r
  | CtCompleteConnect c => CompleteConnect c ERR_OK
  | CtDisconnect cs => HandleDisconnectTask cs
  | CtDisconnectTimeout c => DisconnectTimeout c
  | CtCallBackDied cb => HandleCallBackDiedTask judge cb
  | CtAbilityDied r user => HandleAbilityDiedTask bundles r user
  end.
End connect_manager.
