(* ===== verification/ConnectShape.v ===== *)
(** What the operations on one service or one connection leave alone: the tables
    of the connect manager, who is connected to what and where the services'
    connections are filed. *)

From S2P Require Import Prelude CppString Want CallContainer AbilityRecord ServiceRecord ConnectManager.
From Stdlib Require Import Ascii.

#[local] Open Scope stdpp_scope.
#[local] Open Scope Z_scope.

Implicit Types (s : Connects) (r : RRef) (c : CnRef) (cb : CbRef) (v : ServiceRecord) (x : ConnectionRecord).

(** Reduce the fields of a changed state. *)
Ltac connects_cbn := unfold update;
  cbn [cm_services cm_connections serviceMap_ connectMap_ recipientMap_ cm_userId cm_eventHandler
       cm_serviceHandler cm_held cm_callers cm_next cm_abilityRecordId cm_connectRecordId cm_lastEventId
       cm_trace].

Definition known_service s r : Prop := is_Some (cm_services s !! r).
Definition known_connection s c : Prop := is_Some (cm_connections s !! c).

(** Every connection is to a service. *)
Definition targets_known s : Prop :=
  ∀ c x, cm_connections s !! c = Some x → known_service s (c_targetService x).

Definition service_shape v : AbilityInfo * list CnRef * bool :=
  (r_info (sv_record v), sv_connRecordList v, sv_isCreateByConnect v).

Record calm s s' : Prop := {
  calm_services : service_shape <$> cm_services s' = service_shape <$> cm_services s;
  calm_targets : c_targetService <$> cm_connections s' = c_targetService <$> cm_connections s;
  calm_callbacks c x' : cm_connections s' !! c = Some x' →
    ∃ x, cm_connections s !! c = Some x ∧
         (c_connCallback x' = c_connCallback x ∨ c_connCallback x' = None);
  calm_serviceMap : serviceMap_ s' = serviceMap_ s;
  calm_connectMap : connectMap_ s' = connectMap_ s;
  calm_recipients : recipientMap_ s' = recipientMap_ s;
  calm_held : cm_held s' = cm_held s;
  calm_next : cm_next s' = cm_next s;
  calm_handler : cm_eventHandler s' = cm_eventHandler s;
}.

#[export] Instance calm_preorder : PreOrder calm.
Proof.
  split; [intros s; constructor; eauto|]. intros s1 s2 s3 [] [].
  constructor; try congruence. intros c x3 H3.
  destruct (calm_callbacks1 c x3 H3) as (x2 & H2 & E2).
  destruct (calm_callbacks0 c x2 H2) as (x1 & H1 & E1). exists x1. split; [done|].
  destruct E2 as [->|]; tauto.
Qed.

(** ** Reading through a calm change *)

Lemma calm_service s s' r v' :
  calm s s' → cm_services s' !! r = Some v' → ∃ v, cm_services s !! r = Some v ∧ service_shape v' = service_shape v.
Proof. intros []. by apply fmap_eq_lookup. Qed.

Lemma calm_service_after s s' r v :
  calm s s' → cm_services s !! r = Some v → ∃ v', cm_services s' !! r = Some v' ∧ service_shape v' = service_shape v.
Proof.
  intros [] H. destruct (fmap_eq_lookup service_shape (cm_services s') (cm_services s) r v) as (v' & ? & E);
    [by symmetry|done|]. by exists v'.
Qed.

Lemma calm_connection s s' c x' :
  calm s s' → cm_connections s' !! c = Some x' →
  ∃ x, cm_connections s !! c = Some x ∧ c_targetService x' = c_targetService x.
Proof. intros []. by apply fmap_eq_lookup. Qed.

Lemma calm_connection_after s s' c x :
  calm s s' → cm_connections s !! c = Some x →
  ∃ x', cm_connections s' !! c = Some x' ∧ c_targetService x' = c_targetService x.
Proof.
  intros [] H. destruct (fmap_eq_lookup c_targetService (cm_connections s') (cm_connections s) c x)
    as (x' & ? & E); [by symmetry|done|]. by exists x'.
Qed.

Lemma calm_target_of s s' c : calm s s' → target_of s' c = target_of s c.
Proof. intros []. unfold target_of. by rewrite <- !lookup_fmap, calm_targets0. Qed.

Lemma known_service_calm s s' r : calm s s' → known_service s r → known_service s' r.
Proof. intros C [v Hv]. destruct (calm_service_after _ _ _ _ C Hv) as (v' & ? & _). by exists v'. Qed.
Lemma known_connection_calm s s' c : calm s s' → known_connection s c → known_connection s' c.
Proof. intros C [v Hv]. destruct (calm_connection_after _ _ _ _ C Hv) as (v' & ? & _). by exists v'. Qed.
Lemma targets_known_calm s s' : calm s s' → targets_known s → targets_known s'.
Proof.
  intros C H c x' Hx'. destruct (calm_connection _ _ _ _ C Hx') as (x & Hx & ->).
  apply (known_service_calm _ _ _ C). by apply (H c).
Qed.

(** ** Single changes *)

Lemma calm_emit e s : keeps calm (emit e) s.
Proof. unfold keeps, emit. apply wp_modify. constructor; try done. eauto. Qed.

Lemma calm_upd_service r f s : (∀ v, service_shape (f v) = service_shape v) → keeps calm (upd_service r f) s.
Proof.
  intros Hf. unfold keeps, upd_service. apply wp_modify. constructor; try done; [|eauto].
  apply map_eq. intros p. connects_cbn. rewrite !lookup_fmap, lookup_alter.
  case_decide; subst; [|done]. destruct (cm_services s !! p); cbn; by rewrite ?Hf.
Qed.

Lemma calm_upd_ability r f s : (∀ a, r_info (f a) = r_info a) → keeps calm (upd_ability r f) s.
Proof. intros Hf. apply calm_upd_service. intros v. unfold service_shape, update. cbn. by rewrite Hf. Qed.

Lemma calm_upd_connection c f s :
  (∀ x, c_targetService (f x) = c_targetService x ∧
        (c_connCallback (f x) = c_connCallback x ∨ c_connCallback (f x) = None)) →
  keeps calm (upd_connection c f) s.
Proof.
  intros Hf. unfold keeps, upd_connection. apply wp_modify. constructor; try done.
  - apply map_eq. intros p. connects_cbn. rewrite !lookup_fmap, lookup_alter.
    case_decide; subst; [|done]. destruct (cm_connections s !! p) as [x|]; cbn; [|done].
    by rewrite (proj1 (Hf x)).
  - intros p x'. connects_cbn. rewrite lookup_alter. case_decide; subst; [|eauto].
    destruct (cm_connections s !! p) as [x|]; cbn; [|done]. intros [= <-]. exists x.
    split; [done|]. apply Hf.
Qed.

Lemma wp_the_service {B} r v (k : ServiceRecord → ST Connects B) Q s :
  cm_services s !! r = Some v → wp (k v) Q s → wp (the_service r ≫= k) Q s.
Proof.
  intros Hv H. unfold the_service. apply wp_bind, wp_bind, wp_gets. by eapply wp_deref.
Qed.

Lemma wp_the_connection {B} c x (k : ConnectionRecord → ST Connects B) Q s :
  cm_connections s !! c = Some x → wp (k x) Q s → wp (the_connection c ≫= k) Q s.
Proof.
  intros Hv H. unfold the_connection. apply wp_bind, wp_bind, wp_gets. by eapply wp_deref.
Qed.

Lemma keeps_the_service {B} (R : relation Connects) r (k : ServiceRecord → ST Connects B) s :
  known_service s r → (∀ v, cm_services s !! r = Some v → keeps R (k v) s) → keeps R (the_service r ≫= k) s.
Proof. intros [v Hv] H. unfold keeps. eapply wp_the_service; [done|]. by apply H. Qed.

Lemma keeps_the_connection {B} (R : relation Connects) c (k : ConnectionRecord → ST Connects B) s :
  known_connection s c → (∀ x, cm_connections s !! c = Some x → keeps R (k x) s) →
  keeps R (the_connection c ≫= k) s.
Proof. intros [v Hv] H. unfold keeps. eapply wp_the_connection; [done|]. by apply H. Qed.

Lemma info_SetRestartingCount b n a : r_info (SetRestartingCount b n a) = r_info a.
Proof. unfold SetRestartingCount. cbn. by destruct (_ && _). Qed.

(** ** Operations *)

Create HintDb connect.
#[export] Hint Resolve known_service_calm known_connection_calm targets_known_calm : connect.
#[export] Hint Resolve calm_emit info_SetRestartingCount info_SetAbilityState info_SetScheduler : connect.
#[export] Hint Extern 2 (known_service _ _) => eexists; eassumption : connect.
#[export] Hint Extern 2 (known_connection _ _) => eexists; eassumption : connect.
#[export] Hint Extern 3 (known_service _ (c_targetService _)) =>
  match goal with H : targets_known ?s, Hx : cm_connections ?s !! _ = Some ?x |- known_service _ (c_targetService ?x) =>
    pose proof (H _ _ Hx); eauto 8 with connect end : connect.

Ltac connect_side := solve [eauto 12 with connect].
Ltac calm_step := cbv beta; lazymatch goal with
  | |- keeps _ (mret _) _ => apply (keeps_ret _)
  | |- keeps _ (upd_ability _ _) _ => apply calm_upd_ability; first [connect_side|done]
  | |- keeps _ (upd_service _ _) _ => apply calm_upd_service; first [connect_side|done]
  | |- keeps _ (upd_connection _ _) _ => apply calm_upd_connection; intros ?; split; [done|auto]
  | |- keeps _ (if ?b then _ else _) _ => destruct b eqn:?
  | |- keeps _ (match ?x with _ => _ end) _ => destruct x eqn:?
  | |- keeps _ (gets _ ≫= _) _ => apply keeps_gets
  | |- keeps _ (the_service _ ≫= _) _ => apply keeps_the_service; [connect_side|intros ? ?]
  | |- keeps _ (the_connection _ ≫= _) _ => apply keeps_the_connection; [connect_side|intros ? ?]
  | |- keeps _ (modify (λ s, s <| cm_lastEventId ::= _ |>)) _ =>
      unfold keeps; apply wp_modify; constructor; solve [done|eauto]
  | |- keeps _ (_ ≫= _) _ => apply (keeps_bind _); [|intros ? ? _ ?]
  | |- keeps _ (let _ := _ in _) _ => cbv zeta
  | |- keeps _ _ _ => connect_side
  end.
Ltac calm_auto := repeat calm_step.

Lemma calm_next_event r s : keeps calm (next_event r) s.
Proof. unfold next_event. calm_auto. Qed.
#[export] Hint Resolve calm_next_event : connect.

Lemma calm_SendEvent msg r s : known_service s r → keeps calm (SendEvent msg r) s.
Proof. intros. unfold SendEvent. calm_auto. Qed.
#[export] Hint Resolve calm_SendEvent : connect.

Lemma calm_deal r call s : known_service s r → keeps calm (deal r call) s.
Proof. intros. unfold deal. calm_auto. Qed.
#[export] Hint Resolve calm_deal : connect.

Lemma calm_Inactivate r s : known_service s r → keeps calm (Inactivate r) s.
Proof. intros. unfold Inactivate. calm_auto. Qed.

Lemma calm_Terminate r t s : known_service s r → keeps calm (Terminate r t) s.
Proof. intros. unfold Terminate. calm_auto. Qed.

Lemma calm_RecordConnectAbility r s : known_service s r → keeps calm (RecordConnectAbility r) s.
Proof. intros. unfold RecordConnectAbility. calm_auto. Qed.
Lemma calm_RecordDisconnectAbility r s : known_service s r → keeps calm (RecordDisconnectAbility r) s.
Proof. intros. unfold RecordDisconnectAbility. calm_auto. Qed.
Lemma calm_RecordCommandAbility r s : known_service s r → keeps calm (RecordCommandAbility r) s.
Proof. intros. unfold RecordCommandAbility. calm_auto. Qed.

Lemma calm_SetConnectState c state s : keeps calm (SetConnectState c state) s.
Proof. unfold SetConnectState. calm_auto. Qed.
Lemma calm_ClearConnCallBack c s : keeps calm (ClearConnCallBack c) s.
Proof. unfold ClearConnCallBack. calm_auto. Qed.
#[export] Hint Resolve calm_Inactivate calm_Terminate calm_RecordConnectAbility : connect.
#[export] Hint Resolve calm_RecordDisconnectAbility calm_RecordCommandAbility : connect.
#[export] Hint Resolve calm_SetConnectState calm_ClearConnCallBack : connect.

Lemma calm_AddCallerRecord r token code s : keeps calm (AddCallerRecord r token code) s.
Proof. unfold AddCallerRecord. calm_auto. Qed.
#[export] Hint Resolve calm_AddCallerRecord : connect.

Lemma calm_DisconnectAbility c s :
  targets_known s → known_connection s c → keeps calm (DisconnectAbility c) s.
Proof. intros. unfold DisconnectAbility. calm_auto. Qed.

Lemma calm_CompleteConnect c code s :
  targets_known s → known_connection s c → keeps calm (CompleteConnect c code) s.
Proof. intros. unfold CompleteConnect. calm_auto. Qed.

Lemma calm_CompleteDisconnect c code died s :
  targets_known s → known_connection s c → keeps calm (CompleteDisconnect c code died) s.
Proof. intros. unfold CompleteDisconnect. calm_auto. Qed.
#[export] Hint Resolve calm_DisconnectAbility calm_CompleteConnect calm_CompleteDisconnect : connect.

Lemma calm_ScheduleDisconnectAbilityDone c s :
  targets_known s → known_connection s c → keeps calm (ScheduleDisconnectAbilityDone c) s.
Proof. intros. unfold ScheduleDisconnectAbilityDone. calm_auto. Qed.

Lemma calm_ScheduleConnectAbilityDone c s :
  targets_known s → known_connection s c → keeps calm (ScheduleConnectAbilityDone c) s.
Proof. intros. unfold ScheduleConnectAbilityDone. calm_auto. Qed.
#[export] Hint Resolve calm_ScheduleDisconnectAbilityDone calm_ScheduleConnectAbilityDone : connect.

(** A loop over known connections. *)
Lemma calm_for_each_connection (f : CnRef → ST Connects unit) cs s :
  targets_known s → Forall (known_connection s) cs →
  (∀ c s', targets_known s' → known_connection s' c → keeps calm (f c) s') →
  keeps calm (for_each f cs) s.
Proof.
  intros HT HK Hf. apply (keeps_for_each_from _). intros c s' Hc HR.
  rewrite Forall_forall in HK. apply Hf; [|specialize (HK c Hc)]; eauto with connect.
Qed.

(** ** Handlers that move nothing *)

Lemma find_connection s state v c :
  List.find (connection_in s state) (sv_connRecordList v) = Some c → known_connection s c ∧ c ∈ sv_connRecordList v.
Proof.
  intros [Hin H]%find_Some_elem. split; [|done]. unfold connection_in in H.
  destruct (cm_connections s !! c) as [x|] eqn:E; [|done]. by exists x.
Qed.

Lemma calm_PostTimeOutTask r msg s : known_service s r → keeps calm (PostTimeOutTask r msg) s.
Proof.
  intros. unfold PostTimeOutTask. do 3 calm_step; [calm_auto|]. calm_step. calm_step; [calm_auto|].
  do 2 calm_step; [|calm_auto]. destruct (find_connection _ _ _ _ Heqo) as [? _]. calm_auto.
Qed.
#[export] Hint Resolve calm_PostTimeOutTask : connect.

Lemma calm_ConnectAbility r s : known_service s r → keeps calm (ConnectAbility r) s.
Proof. intros. unfold ConnectAbility. calm_auto. Qed.
Lemma calm_CommandAbility r s : known_service s r → keeps calm (CommandAbility r) s.
Proof. intros. unfold CommandAbility. calm_auto. Qed.
#[export] Hint Resolve calm_ConnectAbility calm_CommandAbility : connect.

Lemma calm_report_state r token state s : known_service s r → keeps calm (report_state r token state) s.
Proof. intros. unfold report_state. calm_auto. Qed.
#[export] Hint Resolve calm_report_state : connect.

Lemma calm_DispatchInactive r s : known_service s r → keeps calm (DispatchInactive r) s.
Proof. intros. unfold DispatchInactive. calm_auto. Qed.
#[export] Hint Resolve calm_DispatchInactive : connect.

Lemma calm_CompleteCommandAbility r s : known_service s r → keeps calm (CompleteCommandAbility r) s.
Proof. intros. unfold CompleteCommandAbility. calm_auto. Qed.
#[export] Hint Resolve calm_CompleteCommandAbility : connect.
