(* ===== verification/ConnectSafety.v ===== *)
(** The tables of the connect manager agree with each other: the invariant of its
    states, and that every handler keeps it and returns. *)

From S2P Require Import Prelude CppString Want CallContainer AbilityRecord ServiceRecord ConnectManager.
From S2P Require Import ConnectShape.
From Stdlib Require Import Ascii.

#[local] Open Scope stdpp_scope.
#[local] Open Scope Z_scope.

Implicit Types (s : Connects) (r : RRef) (c : CnRef) (cb : CbRef) (v : ServiceRecord) (x : ConnectionRecord).
Implicit Types (k : string) (q : ServiceRequest).

(** * The invariant *)

(** A service is filed under its own key; a connection is in the list of its
    service and in one entry of the connect map, its callback's; entries are
    not empty and exactly their callbacks are watched. [lost] are connections
    that are already out of their service's list. *)
Record consistent (lost : list CnRef) s : Prop := {
  con_key k r : serviceMap_ s !! k = Some r →
    ∃ v, cm_services s !! r = Some v ∧ k = service_key (r_info (sv_record v));
  con_target : targets_known s;
  con_nonempty cb : ¬ connectMap_ s !! cb = Some [];
  con_filed cb l c : connectMap_ s !! cb = Some l → c ∈ l →
    ∃ x, cm_connections s !! c = Some x ∧ (c_connCallback x = Some cb ∨ c_connCallback x = None) ∧
         (c ∉ lost → ∃ v, cm_services s !! c_targetService x = Some v ∧ c ∈ sv_connRecordList v);
  con_nodup cb l : connectMap_ s !! cb = Some l → NoDup l;
  con_once cb1 cb2 l1 l2 c : connectMap_ s !! cb1 = Some l1 → connectMap_ s !! cb2 = Some l2 →
    c ∈ l1 → c ∈ l2 → cb1 = cb2;
  con_listed r v c : cm_services s !! r = Some v → c ∈ sv_connRecordList v →
    target_of s c = Some r ∧ (c ∉ lost) ∧ ∃ cb l, connectMap_ s !! cb = Some l ∧ c ∈ l;
  con_list_nodup r v : cm_services s !! r = Some v → NoDup (sv_connRecordList v);
  con_recipients : recipientMap_ s = dom (connectMap_ s);
  con_held r : r ∈ cm_held s → known_service s r;
  con_fresh p : (cm_next s ≤ p)%positive → cm_services s !! p = None ∧ cm_connections s !! p = None;
}.

#[local] Abbreviation sound := (consistent []).

(** Names without slashes. *)
Fixpoint slashes (w : string) : nat :=
  match w with
  | EmptyString => 0
  | String a w => ((if Ascii.eqb a "/" then 1 else 0) + slashes w)%nat
  end.

Definition plain_info (i : AbilityInfo) : Prop :=
  slashes (ai_deviceId i) = 0%nat ∧ slashes (ai_bundleName i) = 0%nat ∧ slashes (ai_name i) = 0%nat.

#[export] Instance plain_info_dec i : Decision (plain_info i).
Proof. unfold plain_info. apply _. Defined.

Definition plain s : Prop := ∀ r v, cm_services s !! r = Some v → plain_info (r_info (sv_record v)).

(** What only ever grows: the records; and, when names have no slashes, the
    service map. *)
Record grows s s' : Prop := {
  grow_services r v : cm_services s !! r = Some v →
    ∃ v', cm_services s' !! r = Some v' ∧ r_info (sv_record v') = r_info (sv_record v);
  grow_connections c x : cm_connections s !! c = Some x →
    ∃ x', cm_connections s' !! c = Some x' ∧ c_targetService x' = c_targetService x;
  grow_map : plain s' → serviceMap_ s ⊆ serviceMap_ s';
}.

#[export] Instance grows_preorder : PreOrder grows.
Proof.
  split; [intros s; constructor; eauto|]. intros s1 s2 s3 [A1 B1 C1] [A2 B2 C2]. constructor.
  - intros r v Hv. destruct (A1 r v Hv) as (v2 & H2 & E2). destruct (A2 r v2 H2) as (v3 & H3 & E3).
    exists v3. split; [done|congruence].
  - intros c x Hx. destruct (B1 c x Hx) as (v2 & H2 & E2). destruct (B2 c v2 H2) as (v3 & H3 & E3).
    exists v3. split; [done|congruence].
  - intros P. transitivity (serviceMap_ s2); [|by apply C2]. apply C1. intros r v Hv.
    destruct (A2 r v Hv) as (v' & Hv' & <-). by apply (P r).
Qed.

Record advance s s' : Prop := {
  adv_ok : sound s → sound s';
  adv_grows : grows s s';
}.

#[export] Instance advance_preorder : PreOrder advance.
Proof.
  split; [intros s; by constructor|]. intros s1 s2 s3 [] []. constructor; [by auto|]. by etransitivity.
Qed.

Lemma advance_sound s s' : advance s s' → sound s → sound s'.
Proof. by intros []. Qed.
Lemma known_service_grows s s' r : grows s s' → known_service s r → known_service s' r.
Proof. intros [] [v Hv]. destruct (grow_services0 r v Hv) as (v' & ? & _). by exists v'. Qed.
Lemma known_connection_grows s s' c : grows s s' → known_connection s c → known_connection s' c.
Proof. intros [] [x Hx]. destruct (grow_connections0 c x Hx) as (v' & ? & _). by exists v'. Qed.
Lemma target_of_grows s s' c r : grows s s' → target_of s c = Some r → target_of s' c = Some r.
Proof.
  intros [] H. unfold target_of in *. apply fmap_Some in H as (x & Hx & ->).
  destruct (grow_connections0 c x Hx) as (x' & -> & <-). done.
Qed.
Lemma known_service_advance s s' r : advance s s' → known_service s r → known_service s' r.
Proof. intros []. by apply known_service_grows. Qed.
Lemma known_connection_advance s s' c : advance s s' → known_connection s c → known_connection s' c.
Proof. intros []. by apply known_connection_grows. Qed.
Lemma target_of_advance s s' c r : advance s s' → target_of s c = Some r → target_of s' c = Some r.
Proof. intros []. by apply target_of_grows. Qed.
Lemma sound_targets s : sound s → targets_known s.
Proof. by intros []. Qed.

#[export] Hint Resolve advance_sound known_service_advance known_connection_advance target_of_advance : connect.
#[export] Hint Resolve sound_targets : connect.

(** ** Calm changes *)

Lemma calm_consistent lost s s' : calm s s' → consistent lost s → consistent lost s'.
Proof.
  intros C [Hk Ht Hn Hf Hnd Ho Hl Hln Hr Hh Hfr]. pose proof C as [_ _ Hcb Esm Ecm Erm Eh En _].
  constructor.
  - intros k r. rewrite Esm. intros (v & Hv & ->)%Hk.
    destruct (calm_service_after _ _ _ _ C Hv) as (v' & Hv' & [= E _ _]). exists v'. by rewrite E.
  - by eapply targets_known_calm.
  - intros cb. by rewrite Ecm.
  - intros cb l c. rewrite Ecm. intros Hl' Hc. destruct (Hf cb l c Hl' Hc) as (x & Hx & Hxc & Hm).
    destruct (calm_connection_after _ _ _ _ C Hx) as (x' & Hx' & Et). exists x'. split_and!; [done| |].
    + destruct (Hcb c x' Hx') as (x0 & Hx0 & [->| ->]); [|by right]. by simplify_eq.
    + intros Hlost. destruct (Hm Hlost) as (v & Hv & Hcv).
      destruct (calm_service_after _ _ _ _ C Hv) as (v' & Hv' & [= _ E _]). exists v'. by rewrite Et, E.
  - intros cb l. rewrite Ecm. apply Hnd.
  - intros cb1 cb2 l1 l2 c. rewrite Ecm. apply Ho.
  - intros r v' c Hv' Hc. destruct (calm_service _ _ _ _ C Hv') as (v & Hv & [= _ E _]).
    rewrite (calm_target_of _ _ _ C), Ecm. apply (Hl r v); [done|]. by rewrite <- E.
  - intros r v' Hv'. destruct (calm_service _ _ _ _ C Hv') as (v & Hv & [= _ E _]). rewrite E. by eapply Hln.
  - by rewrite Erm, Ecm.
  - intros r. rewrite Eh. intros ?%Hh. by eapply known_service_calm.
  - intros p. rewrite En. intros [Hs Hc]%Hfr. split.
    + destruct (cm_services s' !! p) eqn:E; [|done].
      destruct (calm_service _ _ _ _ C E) as (? & ? & _). congruence.
    + destruct (cm_connections s' !! p) eqn:E; [|done].
      destruct (calm_connection _ _ _ _ C E) as (? & ? & _). congruence.
Qed.

Lemma calm_grows s s' : calm s s' → grows s s'.
Proof.
  intros C. constructor.
  - intros r v Hv. destruct (calm_service_after _ _ _ _ C Hv) as (v' & Hv' & [= E _ _]). by exists v'.
  - intros c x Hx. destruct (calm_connection_after _ _ _ _ C Hx) as (v' & Hv' & E). by exists v'.
  - intros _. by rewrite (calm_serviceMap _ _ C).
Qed.

Lemma calm_advance s s' : calm s s' → advance s s'.
Proof. intros C. constructor; [by apply calm_consistent|by apply calm_grows]. Qed.

Lemma keeps_calm_advance {A} (m : ST Connects A) s : keeps calm m s → keeps advance m s.
Proof. intros H. eapply wp_mono; [exact H|]. intros a s' C. by apply calm_advance. Qed.

(** * Connections leave *)

(** A state with other tables and the same records. *)
Lemma grows_tables s s' :
  cm_services s' = cm_services s → cm_connections s' = cm_connections s → serviceMap_ s' = serviceMap_ s →
  grows s s'.
Proof. intros E1 E2 E3. constructor; rewrite ?E1, ?E2, ?E3; eauto. Qed.

Lemma wp_unlist r c s :
  sound s → target_of s c = Some r →
  wp (upd_service r (RemoveConnectRecordFromList c)) (λ _ s', consistent [c] s' ∧ grows s s') s.
Proof.
  intros [Hk Ht Hn Hf Hnd Ho Hl Hln Hr Hh Hfr] Hc. unfold upd_service. apply wp_modify.
  assert (∀ p v', alter (RemoveConnectRecordFromList c) r (cm_services s) !! p = Some v' → ∃ v,
    cm_services s !! p = Some v ∧ r_info (sv_record v') = r_info (sv_record v) ∧
    (∀ c', c' ∈ sv_connRecordList v' ↔ c' ∈ sv_connRecordList v ∧ (c' ≠ c ∨ p ≠ r)) ∧
    (NoDup (sv_connRecordList v) → NoDup (sv_connRecordList v'))) as Hback.
  { intros p v' Hv'. rewrite lookup_alter in Hv'. case_decide; subst.
    - destruct (cm_services s !! p) as [v|] eqn:E; [|done]. simplify_eq/=. exists v. split_and!; [done|done| |].
      + intros c'. rewrite elem_of_list_remove_all. naive_solver.
      + apply NoDup_list_remove_all.
    - exists v'. naive_solver. }
  assert (∀ p v, cm_services s !! p = Some v →
    ∃ v', alter (RemoveConnectRecordFromList c) r (cm_services s) !! p = Some v' ∧
      r_info (sv_record v') = r_info (sv_record v) ∧
      (∀ c', c' ≠ c → c' ∈ sv_connRecordList v → c' ∈ sv_connRecordList v')) as Hfor.
  { intros p v Hv. rewrite lookup_alter. case_decide; subst; rewrite Hv; eexists; (split; [reflexivity|]); split; try done.
    intros c' Hne Hc'. apply elem_of_list_remove_all. done. }
  split; [constructor|constructor]; connects_cbn; try done.
  - intros k p (v & Hv & ->)%Hk. destruct (Hfor p v Hv) as (v' & Hv' & E & _). exists v'. by rewrite E.
  - intros c' x Hx. destruct (Ht c' x Hx) as [v Hv]. destruct (Hfor _ v Hv) as (v' & Hv' & _). by exists v'.
  - intros cb l c' Hl' Hc'. destruct (Hf cb l c' Hl' Hc') as (x & Hx & Hcb & Hm). exists x. split_and!; [done..|].
    intros Hne. destruct (Hm (not_elem_of_nil _)) as (v & Hv & Hcv). destruct (Hfor _ v Hv) as (v' & Hv' & _ & Hin).
    exists v'. split; [done|]. apply Hin; [|done]. by intros ->; apply Hne, list_elem_of_singleton.
  - intros p v' c' Hv' Hc'. destruct (Hback p v' Hv') as (v & Hv & _ & Hin & _).
    destruct (proj1 (Hin c') Hc') as [Hc1 Hne]. destruct (Hl p v c' Hv Hc1) as (Ht' & _ & Hfl). split_and!; [done| |done].
    intros ->%list_elem_of_singleton. unfold target_of in *. destruct Hne; congruence.
  - intros p v' Hv'. destruct (Hback p v' Hv') as (v & Hv & _ & _ & HN). by eapply HN, Hln.
  - intros p Hp. destruct (Hh p Hp) as [v Hv]. destruct (Hfor p v Hv) as (v' & Hv' & _). by exists v'.
  - intros p [Hs Hcn]%Hfr. split; [|done]. rewrite lookup_alter. case_decide; subst; [|done].
    by rewrite Hs.
  - intros p v Hv. destruct (Hfor p v Hv) as (v' & Hv' & E & _). by exists v'.
  - intros p x Hx. by exists x.
Qed.

Lemma find_entry s c cb l :
  List.find (λ y, bool_decide (c ∈ y.2)) (connect_list s) = Some (cb, l) → connectMap_ s !! cb = Some l ∧ c ∈ l.
Proof.
  intros [Hin Hc]%find_Some_elem. apply elem_of_in_order in Hin. split; [done|]. by apply bool_decide_eq_true in Hc.
Qed.

Lemma find_no_entry s c cb l :
  List.find (λ y, bool_decide (c ∈ y.2)) (connect_list s) = None → connectMap_ s !! cb = Some l → c ∉ l.
Proof.
  intros HN Hcb Hc. eapply (find_None_elem _ _ (cb, l)) in HN; [|by apply elem_of_in_order].
  by apply bool_decide_eq_false in HN.
Qed.

(** The connect map without one lost connection. *)
Lemma unfile_consistent s s' c cb l :
  consistent [c] s → connectMap_ s !! cb = Some l → c ∈ l →
  cm_services s' = cm_services s → cm_connections s' = cm_connections s → serviceMap_ s' = serviceMap_ s →
  cm_held s' = cm_held s → cm_next s' = cm_next s →
  connectMap_ s' = (if decide (list_remove_all c l = []) then delete cb (connectMap_ s)
                    else <[cb := list_remove_all c l]> (connectMap_ s)) →
  recipientMap_ s' = dom (connectMap_ s') → sound s'.
Proof.
  intros [Hk Ht Hn Hf Hnd Ho Hl Hln Hr Hh Hfr] Hcb Hc Es Ec Em Eh En Ecm Erm.
  assert (∀ cb' l', connectMap_ s' !! cb' = Some l' → l' ≠ [] ∧ ∃ l0, connectMap_ s !! cb' = Some l0 ∧
    NoDup l' ∧ (∀ c', c' ∈ l' → c' ≠ c ∧ c' ∈ l0)) as Hback.
  { intros cb' l' H. rewrite Ecm in H. case_decide as Hd.
    - apply lookup_delete_Some in H as [Hne H]. split; [intros ->; by destruct (Hn cb')|]. exists l'.
      split_and!; [done|by eapply Hnd|]. intros c' Hc'. split; [|done]. intros ->. by destruct (Ho cb cb' l l' c).
    - apply lookup_insert_Some in H as [[<- <-]|[Hne H]].
      + split; [done|]. exists l. split_and!; [done|apply NoDup_list_remove_all; by eapply Hnd|].
        intros c'. apply elem_of_list_remove_all.
      + split; [intros ->; by destruct (Hn cb')|]. exists l'. split_and!; [done|by eapply Hnd|].
        intros c' Hc'. split; [|done]. intros ->. by destruct (Ho cb cb' l l' c). }
  assert (∀ cb' l0 c', connectMap_ s !! cb' = Some l0 → c' ∈ l0 → c' ≠ c →
    ∃ cb2 l2, connectMap_ s' !! cb2 = Some l2 ∧ c' ∈ l2) as Hfor.
  { intros cb' l0 c' H Hc' Hne. rewrite Ecm. destruct (decide (cb' = cb)) as [->|Hcbne].
    - simplify_eq. assert (c' ∈ list_remove_all c l) as Hin by by apply elem_of_list_remove_all.
      case_decide as Hd; [rewrite Hd in Hin; by apply not_elem_of_nil in Hin|].
      exists cb, (list_remove_all c l). by rewrite lookup_insert_eq.
    - exists cb', l0. case_decide; by rewrite ?lookup_delete_ne, ?lookup_insert_ne by done. }
  constructor; rewrite ?Es, ?Em, ?Eh, ?En, ?Ec; try done.
  - intros c' x. unfold known_service. rewrite Ec, Es. apply Ht.
  - intros cb' H. by destruct (Hback _ _ H).
  - intros cb' l' c' H Hc'. destruct (Hback _ _ H) as (_ & l0 & H0 & _ & Hin). destruct (Hin c' Hc') as [Hne Hc0].
    destruct (Hf _ _ _ H0 Hc0) as (x & Hx & Hxc & Hm). exists x. rewrite ?Ec, ?Es. split_and!; [done|done|].
    intros _. apply Hm. by rewrite list_elem_of_singleton.
  - intros cb' l' H. destruct (Hback _ _ H) as (_ & l0 & H0 & ? & Hin). done.
  - intros cb1 cb2 l1 l2 c' H1 H2 Hc1 Hc2.
    destruct (Hback _ _ H1) as (_ & k1 & K1 & _ & I1), (Hback _ _ H2) as (_ & k2 & K2 & _ & I2).
    by apply (Ho cb1 cb2 k1 k2 c' K1 K2); [apply I1|apply I2].
  - intros p v c' Hv Hc'. destruct (Hl p v c' Hv Hc') as (Ht' & Hne & cb' & l' & H' & Hc2).
    unfold target_of. rewrite Ec. split_and!; [done|by apply not_elem_of_nil|]. eapply Hfor; [done|done|].
    by rewrite list_elem_of_singleton in Hne.
  - intros p. unfold known_service. rewrite Es. apply Hh.
Qed.

Lemma wp_RemoveConnectionRecordFromMap c s :
  consistent [c] s → wp (RemoveConnectionRecordFromMap c) (λ _ s', sound s' ∧ grows s s') s.
Proof.
  intros Hs. unfold RemoveConnectionRecordFromMap. apply wp_bind, wp_gets. cbv beta delta [id].
  destruct (List.find _ _) as [[cb l]|] eqn:E.
  - apply find_entry in E as [Hcb Hc]. apply wp_bind, wp_modify.
    pose proof (con_recipients _ _ Hs) as HR.
    assert (cb ∈ recipientMap_ s) as Hin by (rewrite HR; by apply elem_of_dom_2 in Hcb).
    destruct (list_remove_all c l) as [|c1 l1] eqn:El.
    + unfold RemoveConnectDeathRecipient. apply wp_bind, wp_bind, wp_gets. cbv beta delta [id].
      connects_cbn. rewrite decide_True by done. apply wp_bind, wp_modify, wp_modify, wp_modify.
      split; [|by apply grows_tables]. eapply (unfile_consistent s _ c cb l); try done; connects_cbn.
      * rewrite decide_True by done. apply map_eq. intros p. rewrite !lookup_delete. case_decide; [done|].
        by rewrite lookup_insert_ne.
      * rewrite dom_delete_L, dom_insert_L, HR. set_solver.
    + apply wp_ret. split; [|by apply grows_tables]. eapply (unfile_consistent s _ c cb l); try done; connects_cbn.
      * by rewrite El, decide_False by done.
      * rewrite dom_insert_L, HR. apply elem_of_dom_2 in Hcb. set_solver.
  - apply wp_ret. split; [|done]. destruct Hs as [Hk Ht Hn Hf Hnd Ho Hl Hln Hr Hh Hfr]. constructor; try done.
    + intros cb l c' Hcb Hc'. destruct (Hf _ _ _ Hcb Hc') as (x & Hx & Hxc & Hm). exists x.
      split_and!; [done..|]. intros _. apply Hm. intros ->%list_elem_of_singleton. by eapply find_no_entry.
    + intros p v c' Hv Hc'. destruct (Hl p v c' Hv Hc') as (? & _ & ?). split_and!; [done| |done].
      apply not_elem_of_nil.
Qed.

Lemma advance_intro s s' : sound s' → grows s s' → advance s s'.
Proof. by constructor. Qed.

(** Out of the service's list, then out of the connect map, with calm code before
    and between. *)
Lemma wp_unlist_unfile {A} r c (between : ST Connects A) s :
  sound s → target_of s c = Some r →
  (∀ s', consistent [c] s' → grows s s' → keeps calm between s') →
  keeps advance (_ ← upd_service r (RemoveConnectRecordFromList c); _ ← between; RemoveConnectionRecordFromMap c) s.
Proof.
  intros Hs Hc Hb. apply wp_bind. eapply wp_mono; [by apply wp_unlist|]. intros [] s1 [H1 G1].
  apply wp_bind. eapply wp_mono; [by apply Hb|]. intros ? s2 C2.
  eapply wp_mono; [apply wp_RemoveConnectionRecordFromMap; by apply (calm_consistent _ s1)|]. intros [] s3 [H3 G3].
  apply advance_intro; [done|]. transitivity s1; [done|]. transitivity s2; [by apply calm_grows|done].
Qed.

Lemma keeps_unlist_unfile r c s :
  sound s → target_of s c = Some r →
  keeps advance (_ ← upd_service r (RemoveConnectRecordFromList c); RemoveConnectionRecordFromMap c) s.
Proof. 
  intros Hs Hc. pose proof (wp_unlist_unfile r c (mret tt) s Hs Hc) as H. apply H.
  intros. apply (keeps_ret _).
Qed.

Lemma keeps_drop_connection died r c s :
  sound s → target_of s c = Some r → keeps advance (drop_connection died r c) s.
Proof.
  intros Hs Hc. unfold drop_connection. apply (keeps_bind _).
  - apply keeps_calm_advance, calm_CompleteDisconnect; [by apply sound_targets|].
    unfold target_of in Hc. by apply fmap_Some in Hc as (x & ? & _); exists x.
  - intros [] s1 _ A1. apply keeps_unlist_unfile; eauto with connect.
Qed.

(** * The service map *)

Lemma slashes_app w1 w2 : slashes (w1 +:+ w2) = (slashes w1 + slashes w2)%nat.
Proof. induction w1 as [|a w1 IH]; [done|]. change (String a w1 +:+ w2) with (String a (w1 +:+ w2)).
  cbn [slashes]. rewrite IH. lia.
Qed.

(** The key a service is removed under has two slashes, the one it is filed
    under has three. *)
Lemma removed_key_differs i i' : plain_info i →
  service_key i' ≠ ai_deviceId i +:+ "/" +:+ ai_bundleName i +:+ "/" +:+ ai_name i.
Proof.
  intros (H1 & H2 & H3) E. apply (f_equal slashes) in E. unfold service_key, GetURI in E.
  rewrite !slashes_app in E. cbn in E. lia.
Qed.

Lemma keeps_RemoveServiceAbility r s :
  sound s → known_service s r → keeps advance (RemoveServiceAbility r) s.
Proof.
  intros [Hk Ht Hn Hf Hnd Ho Hl Hln Hr Hh Hfr] Hknown. unfold RemoveServiceAbility.
  apply keeps_the_service; [done|]. intros v Hv. cbv zeta. unfold keeps. apply wp_modify.
  apply advance_intro.
  - constructor; connects_cbn; try done. intros k p [_ H]%lookup_delete_Some. by apply Hk.
  - constructor; eauto. intros HP. connects_cbn. apply map_subseteq_spec. intros k p H.
    apply lookup_delete_Some. split; [|done]. intros E. destruct (Hk k p H) as (v' & _ & Hkey).
    subst k. apply (removed_key_differs (r_info (sv_record v)) (r_info (sv_record v'))); [|done]. by apply (HP r).
Qed.
