(* ===== verification/ConnectRun.v ===== *)
(** [AbilityConnectManager] as a transition system: its handlers as events, the
    states they reach, and that the invariant of [ConnectSafety] holds in all of
    them; and small runs of it. *)

From Stdlib Require Import Ascii.
From S2P Require Import Prelude CppString Want CallContainer AbilityRecord ServiceRecord ConnectManager ConnectShape.
From S2P Require Import ConnectSafety.

#[local] Open Scope stdpp_scope.
#[local] Open Scope Z_scope.

Implicit Types (s : Connects) (r : RRef) (c : CnRef) (cb : CbRef) (v : ServiceRecord) (x : ConnectionRecord).
Implicit Types (q : ServiceRequest).

#[local] Abbreviation sound := (consistent []).

(** * New services and connections *)

Lemma fresh_not_known s p : sound s → (cm_next s ≤ p)%positive → ¬ known_service s p.
Proof. intros Hs Hp [v Hv]. destruct (con_fresh _ _ Hs p Hp). congruence. Qed.

Lemma new_service_sound s s' v k :
  sound s → serviceMap_ s !! k = None → k = service_key (r_info (sv_record v)) → sv_connRecordList v = [] →
  cm_services s' = <[cm_next s := v]> (cm_services s) → cm_connections s' = cm_connections s →
  serviceMap_ s' = <[k := cm_next s]> (serviceMap_ s) → connectMap_ s' = connectMap_ s →
  recipientMap_ s' = recipientMap_ s → cm_held s' = cm_held s → cm_next s' = Pos.succ (cm_next s) →
  sound s' ∧ grows s s'.
Proof.
  intros Hs Hk Ek Hl Es Ec Em Ecm Er Eh En. pose proof Hs as [Hky Ht Hn Hf Hnd Ho Hli Hln Hr Hh Hfr].
  assert (∀ p, known_service s p → p ≠ cm_next s) as Hne.
  { intros p Hp ->. by eapply fresh_not_known; [exact Hs|done|exact Hp]. }
  assert (∀ p v0, cm_services s !! p = Some v0 → cm_services s' !! p = Some v0) as Hfor.
  { intros p v0 Hp. rewrite Es, lookup_insert_ne; [done|]. intros <-. by eapply Hne; [by eexists|]. }
  assert (∀ p, known_service s p → known_service s' p) as Hks by (intros p [v0 Hv0]; exists v0; by apply Hfor).
  split; constructor; rewrite ?Ecm, ?Er, ?Ec, ?Eh; try done.
  - intros k' p. rewrite Em. intros [[<- <-]|[_ H]]%lookup_insert_Some.
    + exists v. by rewrite Es, lookup_insert_eq.
    + destruct (Hky _ _ H) as (v0 & Hv0 & ?). exists v0. split; [by apply Hfor|done].
  - intros c x. rewrite Ec. intros Hx. eapply Hks, Ht, Hx.
  - intros cb l c Hcb Hc. destruct (Hf _ _ _ Hcb Hc) as (x & ? & ? & Hm). exists x. split_and!; [done..|].
    intros Hlost. destruct (Hm Hlost) as (v0 & Hv0 & ?). exists v0. split; [by apply Hfor|done].
  - intros p v0 c. rewrite Es. intros [[<- <-]|[_ H]]%lookup_insert_Some Hc.
    + rewrite Hl in Hc. by apply not_elem_of_nil in Hc.
    + unfold target_of. rewrite Ec. by apply (Hli p v0).
  - intros p v0. rewrite Es. intros [[<- <-]|[_ H]]%lookup_insert_Some; [rewrite Hl; constructor|by eapply Hln].
  - intros p Hp. by apply Hks, Hh.
  - intros p. rewrite En. intros Hp. rewrite Es, lookup_insert_ne by lia. apply Hfr. lia.
  - intros p v0 Hv0. exists v0. split; [by apply Hfor|done].
  - intros c x Hx. by exists x.
  - intros _. rewrite Em. by apply insert_subseteq.
Qed.

Lemma new_connection_sound s s' r x cb l :
  sound s → known_service s r → l = GetConnectRecordListFromMap s cb →
  c_targetService x = r → c_connCallback x = Some cb →
  cm_services s' = alter (AddConnectRecordToList (cm_next s)) r (cm_services s) →
  cm_connections s' = <[cm_next s := x]> (cm_connections s) → serviceMap_ s' = serviceMap_ s →
  connectMap_ s' = <[cb := l ++ [cm_next s]]> (connectMap_ s) →
  recipientMap_ s' = {[cb]} ∪ recipientMap_ s → cm_held s' = cm_held s →
  cm_next s' = Pos.succ (cm_next s) →
  sound s' ∧ grows s s' ∧ ∃ v, cm_services s' !! r = Some v ∧ cm_next s ∈ sv_connRecordList v.
Proof.
  intros Hs [vr Hvr] El Htx Hcx Es Ec Em Ecm Er Eh En. pose proof Hs as [Hky Ht Hn Hf Hnd Ho Hli Hln Hr Hh Hfr].
  set (c := cm_next s) in *. destruct (Hfr c ltac:(done)) as [_ Hcfresh].
  assert (∀ cb' l' c', connectMap_ s !! cb' = Some l' → c' ∈ l' → c' ≠ c) as Hnew.
  { intros cb' l' c' Hl' Hc' ->. destruct (Hf _ _ _ Hl' Hc') as (y & Hy & _). congruence. }
  assert (∀ p v, cm_services s !! p = Some v → c ∉ sv_connRecordList v) as Hnl.
  { intros p v Hv Hc'. destruct (Hli p v c Hv Hc') as (Hto & _). unfold target_of in Hto. by rewrite Hcfresh in Hto. }
  assert (∀ c', c' ∈ l → ∃ l0, connectMap_ s !! cb = Some l0 ∧ c' ∈ l0) as Hl0.
  { subst l. unfold GetConnectRecordListFromMap. destruct (connectMap_ s !! cb) as [l0|]; [eauto|].
    by intros ? ?%not_elem_of_nil. }
  assert (∀ p v', cm_services s' !! p = Some v' → ∃ v, cm_services s !! p = Some v ∧
    r_info (sv_record v') = r_info (sv_record v) ∧ sv_connRecordList v' =
      if decide (p = r) then sv_connRecordList v ++ [c] else sv_connRecordList v) as Hback.
  { intros p v'. rewrite Es, lookup_alter. case_decide as Hp.
    - subst p. rewrite Hvr. intros [= <-]. exists vr. rewrite decide_True by done. unfold AddConnectRecordToList.
      rewrite decide_False by by eapply Hnl. done.
    - intros Hv. exists v'. by rewrite decide_False by (intros ->; by destruct Hp). }
  assert (∀ p v, cm_services s !! p = Some v → ∃ v', cm_services s' !! p = Some v' ∧
    r_info (sv_record v') = r_info (sv_record v) ∧ ∀ c', c' ∈ sv_connRecordList v → c' ∈ sv_connRecordList v') as Hfor.
  { intros p v Hv. assert (∃ v', cm_services s' !! p = Some v') as [v' Hv'].
    { rewrite Es, lookup_alter. case_decide; subst; rewrite Hv; by eexists. }
    destruct (Hback p v' Hv') as (v0 & Hv0 & E & EL). simplify_eq. exists v'. split_and!; [done|done|].
    rewrite EL. intros c' Hc'. case_decide; [apply elem_of_app; by left|done]. }
  assert (∃ v, cm_services s' !! r = Some v ∧ c ∈ sv_connRecordList v) as Hin.
  { destruct (Hfor r vr Hvr) as (v' & Hv' & _). exists v'. split; [done|].
    destruct (Hback r v' Hv') as (v0 & Hv0 & E & ->). rewrite decide_True by done.
    apply elem_of_app. right. by apply list_elem_of_singleton. }
  assert (∀ c' y, cm_connections s !! c' = Some y → cm_connections s' !! c' = Some y) as Hcon.
  { intros c' y Hy. rewrite Ec, lookup_insert_ne; [done|]. intros <-. congruence. }
  assert (∀ cb' l' c', connectMap_ s' !! cb' = Some l' → c' ∈ l' →
    (c' = c ∧ cb' = cb) ∨ c' ≠ c ∧ ∃ l0, connectMap_ s !! cb' = Some l0 ∧ c' ∈ l0) as Hcase.
  { intros cb' l' c'. rewrite Ecm. intros [[<- <-]|[Hne H]]%lookup_insert_Some Hc'.
    - apply elem_of_app in Hc' as [Hc'| ->%list_elem_of_singleton]; [|by left]. right.
      destruct (Hl0 _ Hc') as (l0 & H0 & Hin0). split; [by eapply Hnew|by exists l0].
    - right. split; [by eapply Hnew|by exists l']. }
  split; [|split; [|done]]; constructor; rewrite ?Em, ?Eh; try done.
  - intros k p H. destruct (Hky k p H) as (v & Hv & ->). destruct (Hfor p v Hv) as (v' & Hv' & E & _).
    exists v'. by rewrite E.
  - intros c' y. rewrite Ec. intros [[<- <-]|[_ H]]%lookup_insert_Some.
    + rewrite Htx. destruct (Hfor r vr Hvr) as (v' & ? & _). by exists v'.
    + destruct (Ht _ _ H) as [v Hv]. destruct (Hfor _ v Hv) as (v' & ? & _). by exists v'.
  - intros cb'. rewrite Ecm. intros [[_ H]|[_ H]]%lookup_insert_Some; [by destruct l|by apply (Hn cb')].
  - intros cb' l' c' H' Hc'. destruct (Hcase _ _ _ H' Hc') as [[-> ->]|(Hne & l0 & H0 & Hin0)].
    + exists x. rewrite Ec, lookup_insert_eq, Htx. split_and!; [done|by left|done].
    + destruct (Hf _ _ _ H0 Hin0) as (y & Hy & Hycb & Hm). exists y. split_and!; [by apply Hcon|done|].
      intros Hlost. destruct (Hm Hlost) as (v & Hv & Hcv). destruct (Hfor _ v Hv) as (v' & Hv' & _ & HH).
      exists v'. by auto.
  - intros cb' l'. rewrite Ecm. intros [[_ <-]|[_ H]]%lookup_insert_Some; [|by eapply Hnd].
    apply NoDup_app. split_and!.
    + subst l. unfold GetConnectRecordListFromMap. destruct (connectMap_ s !! cb) eqn:E; [by eapply Hnd|constructor].
    + intros c' Hc' ->%list_elem_of_singleton. destruct (Hl0 _ Hc') as (l0 & H0 & Hin0). by eapply Hnew.
    + apply NoDup_singleton.
  - intros cb1 cb2 l1 l2 c' H1 H2 Hc1 Hc2.
    destruct (Hcase _ _ _ H1 Hc1) as [[-> ->]|(Hne & k1 & K1 & I1)], (Hcase _ _ _ H2 Hc2) as [[? ->]|(Hne2 & k2 & K2 & I2)];
      try done. by eapply Ho.
  - intros p v' c' Hv' Hc'. destruct (Hback p v' Hv') as (v & Hv & _ & EL).
    assert (c' ∈ sv_connRecordList v ∨ c' = c ∧ p = r) as [Hold|[-> ->]].
    { rewrite EL in Hc'. case_decide; [|by left]. apply elem_of_app in Hc' as [|?%list_elem_of_singleton]; auto. }
    + destruct (Hli p v c' Hv Hold) as (Hto & _ & cb' & l' & H' & Hin').
      split_and!; [|by apply not_elem_of_nil|].
      * unfold target_of in *. apply fmap_Some in Hto as (y & Hy & ->). by rewrite (Hcon _ _ Hy).
      * rewrite Ecm. destruct (decide (cb' = cb)) as [->|Hne].
        -- exists cb, (l ++ [c]). rewrite lookup_insert_eq. split; [done|]. subst l.
           unfold GetConnectRecordListFromMap. rewrite H'. cbn. apply elem_of_app. by left.
        -- exists cb', l'. by rewrite lookup_insert_ne.
    + split_and!; [|by apply not_elem_of_nil|].
      * unfold target_of. rewrite Ec, lookup_insert_eq. cbn. by rewrite Htx.
      * exists cb, (l ++ [c]). rewrite Ecm, lookup_insert_eq. split; [done|]. apply elem_of_app.
        right. by apply list_elem_of_singleton.
  - intros p v' Hv'. destruct (Hback p v' Hv') as (v & Hv & _ & ->). case_decide; [|by eapply Hln].
    apply NoDup_app. split_and!; [by eapply Hln| |apply NoDup_singleton].
    intros c' Hc' ->%list_elem_of_singleton. by eapply Hnl.
  - rewrite Er, Ecm, dom_insert_L, Hr. done.
  - intros p [v Hv]%Hh. destruct (Hfor p v Hv) as (v' & ? & _). by exists v'.
  - intros p. rewrite En. intros Hp. destruct (Hfr p ltac:(lia)) as [Hps Hpc]. split.
    + destruct (cm_services s' !! p) eqn:E; [|done]. destruct (Hback _ _ E) as (? & ? & _). congruence.
    + rewrite Ec, lookup_insert_ne by lia. done.
  - intros p v Hv. destruct (Hfor p v Hv) as (v' & ? & ? & _). by exists v'.
  - intros c' y Hy. exists y. split; [by apply Hcon|done].
Qed.

(** ** Creation and lookup of a service *)

(** What is left when everything but the trace stays. *)
Definition emits s s' : Prop := ∃ t, s' = s <| cm_trace ::= λ t0, t0 ++ t |>.

#[export] Instance emits_preorder : PreOrder emits.
Proof.
  split.
  - intros []. exists []. unfold update. cbn. by rewrite app_nil_r.
  - intros s1 s2 s3 [t1 ->] [t2 ->]. exists (t1 ++ t2). unfold update. cbn. by rewrite (assoc_L (++)).
Qed.

Lemma emits_emit e s : keeps emits (emit e) s.
Proof. unfold keeps, emit. apply wp_modify. by exists [e]. Qed.

Lemma emits_calm s s' : emits s s' → calm s s'.
Proof. intros [t ->]. constructor; try done. eauto. Qed.

Lemma emits_PostTimeOutTask r msg s : known_service s r → keeps emits (PostTimeOutTask r msg) s.
Proof.
  intros. unfold PostTimeOutTask. apply keeps_gets. destruct (negb _); [apply (keeps_ret _)|].
  destruct (_ && _); [apply (keeps_ret _)|]. apply keeps_the_service; [done|]. intros v Hv.
  destruct (_ =? _); [apply emits_emit|]. apply keeps_gets. destruct (GetConnectingRecord _ _) as [c|] eqn:E;
    [|apply (keeps_ret _)]. destruct (find_connection _ _ _ _ E) as [Hc _].
  apply keeps_the_connection; [done|]. intros. apply emits_emit.
Qed.

Lemma alter_insert_id {A} (f : A → A) (m : gmap positive A) p a : alter f p (<[p := a]> m) = <[p := f a]> m.
Proof.
  apply map_eq. intros i. destruct (decide (p = i)) as [->|Hne].
  - by rewrite lookup_alter_eq, !lookup_insert_eq.
  - by rewrite lookup_alter_ne, !lookup_insert_ne by done.
Qed.

(** A record as it is made for a request. *)
Record blank (q : ServiceRequest) (byConnect : bool) v : Prop := {
  bl_byConnect : sv_isCreateByConnect v = byConnect;
  bl_list : sv_connRecordList v = [];
  bl_state : r_state (sv_record v) = INITIAL;
  bl_info : r_info (sv_record v) = rq_info (sq_request q);
  bl_want : r_want (sv_record v) = rq_want (sq_request q);
  bl_startId : sv_startId v = 0;
  bl_root : ai_name (rq_info (sq_request q)) ≠ LAUNCHER_ABILITY_NAME → r_isLauncherRoot (sv_record v) = false;
}.

Lemma blank_ability q b v f :
  ai_name (rq_info (sq_request q)) = LAUNCHER_ABILITY_NAME → (∀ a, r_state (f a) = r_state a ∧ r_info (f a) = r_info a ∧ r_want (f a) = r_want a) →
  blank q b v → blank q b (v <| sv_record ::= f |>).
Proof.
  intros Hn Hf []. destruct (Hf (sv_record v)) as (E1 & E2 & E3).
  constructor; unfold update; cbn; congruence.
Qed.

Lemma SetRestartingCount_blank b n a :
  r_state (SetRestartingCount b n a) = r_state a ∧ r_info (SetRestartingCount b n a) = r_info a ∧
  r_want (SetRestartingCount b n a) = r_want a.
Proof. unfold SetRestartingCount, update. by destruct (_ && _). Qed.

(** What a request finds or gets. *)
Definition got (q : ServiceRequest) (byConnect : bool) s r (isLoaded : bool) s' : Prop :=
  serviceMap_ s' !! service_key (rq_info (sq_request q)) = Some r ∧
  connectMap_ s' = connectMap_ s ∧ cm_connections s' = cm_connections s ∧
  cm_trace s' = cm_trace s ∧ cm_eventHandler s' = cm_eventHandler s ∧
  if isLoaded then
    serviceMap_ s !! service_key (rq_info (sq_request q)) = Some r ∧ calm s s' ∧
    ∀ v, cm_services s !! r = Some v → cm_services s' !! r =
      Some (v <| sv_record ::= λ a, a <| r_want := rq_want (sq_request q) |> |>)
  else
    serviceMap_ s !! service_key (rq_info (sq_request q)) = None ∧
    ∃ v, cm_services s' !! r = Some v ∧ blank q byConnect v.

(** A state with one more service, which no table has yet. *)
Record created s v s' : Prop := {
  cr_services : cm_services s' = <[cm_next s := v]> (cm_services s);
  cr_connections : cm_connections s' = cm_connections s;
  cr_serviceMap : serviceMap_ s' = serviceMap_ s;
  cr_connectMap : connectMap_ s' = connectMap_ s;
  cr_recipients : recipientMap_ s' = recipientMap_ s;
  cr_held : cm_held s' = cm_held s;
  cr_next : cm_next s' = Pos.succ (cm_next s);
  cr_trace : cm_trace s' = cm_trace s;
  cr_handler : cm_eventHandler s' = cm_eventHandler s;
}.

Definition new_service_record restartMax q (n : Z) : ServiceRecord :=
  mkService (CreateAbilityRecord restartMax (sq_request q)) (sq_appUid q) (wrap_i32 n) 0 false [] None.

Lemma wp_CreateServiceRecord restartMax q s :
  wp (CreateServiceRecord restartMax q)
     (λ p s', p = cm_next s ∧ created s (new_service_record restartMax q (cm_abilityRecordId s)) s') s.
Proof.
  unfold CreateServiceRecord, take_ref.
  repeat (first [apply wp_bind | apply wp_gets | apply wp_modify | apply wp_ret]). by split.
Qed.

Lemma wp_upd_created f v s s' :
  created s v s' → wp (upd_service (cm_next s) f) (λ _ s2, created s (f v) s2) s'.
Proof.
  intros []. unfold upd_service. apply wp_modify. constructor; connects_cbn; try done.
  rewrite cr_services0. apply alter_insert_id.
Qed.

(** The record a request without a service gets. *)
Lemma wp_new_service restartMax q b s :
  let info := rq_info (sq_request q) in
  wp (r ← CreateServiceRecord restartMax q;
      _ ← (if b : bool then upd_service r (λ v, v <| sv_isCreateByConnect := true |>) else mret tt);
      _ ← (if decide (ai_name info = LAUNCHER_ABILITY_NAME) then
             _ ← upd_ability r (λ a, a <| r_isLauncherRoot := true |>);
             upd_ability r (SetRestartingCount (sq_restart q) (sq_restartCount q))
           else mret tt);
      mret r)
    (λ r s', r = cm_next s ∧ ∃ v, created s v s' ∧ blank q b v) s.
Proof.
  intros info. apply wp_bind. eapply wp_mono; [apply wp_CreateServiceRecord|]. cbv beta. intros r s1 [-> C1].
  set (v0 := new_service_record restartMax q (cm_abilityRecordId s)) in *.
  assert (blank q false v0) as B0 by by constructor.
  apply wp_bind. apply (wp_mono _ (λ _ s2, ∃ v1, created s v1 s2 ∧ blank q b v1)).
  { destruct b; [|by exists v0]. eapply wp_mono; [exact (wp_upd_created _ v0 s s1 C1)|].
    intros [] s2 C2. eexists. split; [exact C2|]. by destruct B0. }
  intros [] s2 (v1 & C2 & B1). apply wp_bind. apply (wp_mono _ (λ _ s3, ∃ v2, created s v2 s3 ∧ blank q b v2)).
  { destruct (decide (ai_name info = _)); [|by exists v1]. apply wp_bind.
    eapply wp_mono; [exact (wp_upd_created _ v1 s s2 C2)|]. intros [] s3 C3.
    eapply wp_mono; [exact (wp_upd_created _ _ s s3 C3)|]. intros [] s4 C4. eexists. split; [exact C4|].
    apply blank_ability; [done|intros a; apply SetRestartingCount_blank|]. by apply blank_ability. }
  intros [] s3 (v2 & C3 & B2). apply wp_ret. split; [done|]. by exists v2.
Qed.

Lemma wp_GetOrCreateServiceRecord restartMax q b s :
  sound s →
  wp (GetOrCreateServiceRecord restartMax q b) (λ a s', advance s s' ∧ known_service s' a.1 ∧ got q b s a.1 a.2 s') s.
Proof.
  intros Hs. unfold GetOrCreateServiceRecord. cbv zeta. apply wp_bind, wp_gets. cbv beta delta [id].
  set (k := service_key _). destruct (serviceMap_ s !! k) as [r|] eqn:Ek.
  - destruct (con_key _ _ Hs _ _ Ek) as (v & Hv & _).
    set (f := λ v, v <| sv_record ::= λ a, a <| r_want := rq_want (sq_request q) |> |>).
    apply wp_bind. eapply wp_mono; [apply (wp_and _ (λ _ s1, calm s s1)
      (λ _ s1, s1 = s <| cm_services ::= alter f r |>)); [by apply calm_upd_ability|by apply wp_modify]|].
    intros [] s1 [C ->]. apply wp_ret. cbn [fst snd].
    split; [by apply calm_advance|]. split; [eapply known_service_calm; [exact C|by exists v]|].
    split; [exact Ek|]. do 6 (split; [done|]).
    intros v' Hv'. assert (v' = v) as -> by congruence. connects_cbn. by rewrite lookup_alter_eq, Hv.
  - pose proof (wp_new_service restartMax q b s) as H. cbv zeta in H.
    apply wp_returns in H as (r & s1 & E & -> & v & C & B).
    apply ST_bind_Returned in E as (r & s2 & E2 & E). apply ST_bind_Returned in E as ([] & s3 & E3 & E).
    apply ST_bind_Returned in E as ([] & s4 & E4 & [= E5 E6]). subst r s4.
    apply wp_bind, wp_returns. do 2 eexists. split; [exact E2|].
    apply wp_bind, wp_returns. do 2 eexists. split; [exact E3|].
    apply wp_bind, wp_returns. do 2 eexists. split; [exact E4|].
    apply wp_bind, wp_modify, wp_ret. destruct C. set (s' := s1 <| serviceMap_ ::= emplace k (cm_next s) |>).
    assert (serviceMap_ s' = <[k := cm_next s]> (serviceMap_ s)) as Hm.
    { unfold s', emplace. connects_cbn. by rewrite cr_serviceMap0, Ek. }
    destruct (new_service_sound s s' v k) as [S3 G3]; try done; [by rewrite (bl_info _ _ _ B)|apply B|].
    assert (cm_services s' !! cm_next s = Some v) as Hv.
    { unfold s'. connects_cbn. rewrite cr_services0. apply lookup_insert_eq. }
    split; [by apply advance_intro|]. split; [by exists v|]. split; [rewrite Hm; apply lookup_insert_eq|].
    do 5 (split; [done|]). by exists v.
Qed.

(** * Handlers *)

Ltac advance_side := first [assumption | solve [eauto 12 with connect]].
Ltac advance_step := cbv beta; lazymatch goal with
  | |- keeps advance (mret _) _ => apply (keeps_ret _)
  | |- keeps advance (if ?b then _ else _) _ => destruct b eqn:?
  | |- keeps advance (match ?x with _ => _ end) _ => destruct x eqn:?
  | |- keeps advance (gets _ ≫= _) _ => apply keeps_gets; cbv beta delta [id]
  | |- keeps advance (the_service _ ≫= _) _ => apply keeps_the_service; [advance_side|intros ? ?]
  | |- keeps advance (the_connection _ ≫= _) _ => apply keeps_the_connection; [advance_side|intros ? ?]
  | |- keeps advance (let _ := _ in _) _ => cbv zeta
  | |- keeps advance (_ ≫= _) _ => apply (keeps_bind _); [|intros ? ? _ ?]
  | |- keeps advance (RemoveServiceAbility _) _ => apply keeps_RemoveServiceAbility; advance_side
  | |- keeps advance (drop_connection _ _ _) _ => apply keeps_drop_connection; advance_side
  | |- keeps advance _ _ => first [solve [eauto 12 with connect] | apply keeps_calm_advance; solve [calm_auto]]
  end.
Ltac advance_auto := repeat advance_step.

(** A service whose load needs a connection that is being made has one. *)
Definition load_ready s r : Prop :=
  ∀ v, cm_services s !! r = Some v → sv_isCreateByConnect v = true → is_Some (GetConnectingRecord s v).

Lemma keeps_load_caller r s : known_service s r → load_ready s r → keeps emits (load_caller r) s.
Proof.
  intros [v Hv] Hr. unfold load_caller, keeps. eapply wp_the_service; [exact Hv|]. apply wp_bind, wp_gets.
  cbv beta delta [id]. destruct (sv_isCreateByConnect v) eqn:E; [|by apply wp_ret].
  destruct (Hr v Hv E) as [c Hc]. destruct (find_connection _ _ _ _ Hc) as [[x Hx] _].
  apply wp_bind. eapply wp_deref; [done|]. eapply wp_the_connection; [done|]. by apply wp_ret.
Qed.

Lemma advance_LoadAbility r s :
  sound s → known_service s r → load_ready s r → keeps advance (LoadAbility r) s.
Proof.
  intros Hs Hk Hr. unfold LoadAbility. do 2 advance_step; [advance_step|].
  apply keeps_calm_advance. apply (keeps_bind _).
  { eapply wp_mono; [by apply emits_PostTimeOutTask|]. intros. by apply emits_calm. }
  intros [] s1 E1 C1.
  assert (emits s s1) as Em.
  { pose proof (emits_PostTimeOutTask r ACM_LOAD_TIMEOUT_MSG s Hk) as Hem. unfold keeps, wp in Hem. by rewrite E1 in Hem. }
  apply (keeps_bind _); [|intros; calm_auto].
  eapply wp_mono; [apply keeps_load_caller|intros; by apply emits_calm]; [by eapply known_service_calm|].
  destruct Em as [t ->]. exact Hr.
Qed.

Lemma keeps_HandleTerminateDisconnectTask cs s :
  sound s → Forall (known_connection s) cs → keeps advance (HandleTerminateDisconnectTask cs) s.
Proof.
  intros Hs HF. rewrite Forall_forall in HF. unfold HandleTerminateDisconnectTask.
  apply (keeps_for_each_from _). intros c s' Hc A. specialize (HF c Hc).
  apply keeps_the_connection; [advance_side|]. intros x Hx. apply keeps_drop_connection; [advance_side|].
  unfold target_of. by rewrite Hx.
Qed.

Lemma keeps_HandleDisconnectTask cs s :
  sound s → Forall (known_connection s) cs → keeps advance (HandleDisconnectTask cs) s.
Proof.
  intros Hs HF. rewrite Forall_forall in HF. unfold HandleDisconnectTask.
  apply (keeps_for_each_from _). intros c s' Hc A. specialize (HF c Hc).
  apply keeps_the_connection; [advance_side|]. intros x Hx.
  apply keeps_the_service; [eapply con_target; [advance_side|exact Hx]|]. intros v Hv.
  destruct (_ && _); [|apply (keeps_ret _)]. apply keeps_drop_connection; [advance_side|].
  unfold target_of. by rewrite Hx.
Qed.

Lemma listed_known s r v : sound s → cm_services s !! r = Some v → Forall (known_connection s) (sv_connRecordList v).
Proof.
  intros Hs Hv. apply Forall_forall. intros c Hc. destruct (con_listed _ _ Hs r v c Hv Hc) as (Ht & _).
  unfold target_of in Ht. apply fmap_Some in Ht as (x & Hx & _). by exists x.
Qed.

Lemma keeps_stop_service r s : sound s → known_service s r → keeps advance (stop_service r) s.
Proof.
  intros Hs Hk. unfold stop_service. do 2 advance_step; [advance_step|]. advance_step; [|advance_auto].
  destruct (IsConnectListEmpty v); [apply (keeps_ret _)|].
  apply keeps_HandleTerminateDisconnectTask; [done|by eapply listed_known].
Qed.
#[local] Hint Resolve keeps_stop_service : connect.

(** The records that lookups find are there. *)
Lemma find_service_known P s r : sound s → find_service P s = Some r → known_service s r.
Proof.
  intros Hs H. unfold find_service in H. apply fmap_Some in H as ([k r'] & Hf & ->).
  apply find_Some_elem in Hf as [Hin _]. apply elem_of_in_order in Hin.
  destruct (con_key _ _ Hs _ _ Hin) as (v & Hv & _). by exists v.
Qed.

Lemma live_service_known s r : sound s → r ∈ live_services s → known_service s r.
Proof.
  intros Hs. unfold live_services. rewrite !elem_of_app, elem_of_elements. intros [Hr|[Hr|Hr]].
  - apply list_elem_of_fmap in Hr as ([k r'] & -> & Hin). apply elem_of_map_to_list in Hin.
    destruct (con_key _ _ Hs _ _ Hin) as (v & Hv & _). by exists v.
  - apply list_elem_of_omap in Hr as (c & _ & Hc). unfold target_of in Hc.
    apply fmap_Some in Hc as (x & Hx & ->). by eapply con_target.
  - by eapply con_held.
Qed.

Lemma GetServiceRecordByToken_known s token r :
  sound s → GetServiceRecordByToken s token = Some r → known_service s r ∧ token = Some r.
Proof.
  intros Hs H. split; [by eapply find_service_known|]. unfold GetServiceRecordByToken, find_service in H.
  apply fmap_Some in H as ([k r'] & Hf & ->). apply find_Some_elem in Hf as [_ Hr].
  by apply bool_decide_eq_true in Hr.
Qed.

Lemma GetServiceByToken_known s token r :
  sound s → GetServiceByToken s token = Some r → known_service s r ∧ token = Some r.
Proof.
  intros Hs H. unfold GetServiceByToken in H. destruct token as [r'|]; [|done]. cbn in H.
  case_decide; simplify_eq. split; [by apply live_service_known|done].
Qed.

Lemma service_at_known s k r : sound s → serviceMap_ s !! k = Some r → known_service s r.
Proof. intros Hs H. destruct (con_key _ _ Hs _ _ H) as (v & Hv & _). by exists v. Qed.

Ltac by_token H := first [destruct (GetServiceRecordByToken_known _ _ _ ltac:(advance_side) H) as [? ?]
  | destruct (GetServiceByToken_known _ _ _ ltac:(advance_side) H) as [? ?]].

Lemma keeps_TerminateAbilityLocked token s : sound s → keeps advance (TerminateAbilityLocked token) s.
Proof. intros Hs. unfold TerminateAbilityLocked. do 2 advance_step; [|advance_step]. by_token Heqo. advance_auto. Qed.
#[local] Hint Resolve keeps_TerminateAbilityLocked : connect.

Lemma keeps_StopServiceAbilityLocked q s : sound s → keeps advance (StopServiceAbilityLocked q) s.
Proof.
  intros Hs. unfold StopServiceAbilityLocked. do 2 advance_step; [|advance_step].
  assert (known_service s p) by by eapply service_at_known. advance_auto.
Qed.

Lemma advance_TerminateAbilityByCaller judge caller code s :
  sound s → keeps advance (TerminateAbilityByCaller judge caller code) s.
Proof.
  intros Hs. unfold TerminateAbilityByCaller. do 2 advance_step; [|advance_step].
  apply last_Some_elem_of in Heqo. apply list_elem_of_filter in Heqo as [_ H].
  apply list_elem_of_fmap in H as ([k r] & -> & Hin). apply elem_of_in_order in Hin.
  assert (known_service s r) by by eapply service_at_known. cbn [snd]. advance_auto.
Qed.

Lemma keeps_TerminateAbilityResultLocked token id s : sound s → keeps advance (TerminateAbilityResultLocked token id) s.
Proof.
  intros Hs. unfold TerminateAbilityResultLocked. do 2 advance_step; [|advance_step]. by_token Heqo. advance_auto.
Qed.

(** ** Starts *)

Lemma keeps_start_answer r s :
  known_service s r →
  keeps advance (s0 ← gets id; v' ← the_service r;
    _ ← emit (SvBehaviorAnalysis r (GetCallerByToken s0 (r_preAbility (sv_record v')))); mret ERR_OK) s.
Proof. intros. apply keeps_calm_advance. calm_auto. Qed.

Lemma keeps_StartAbilityLocked restartMax q s : sound s → keeps advance (StartAbilityLocked restartMax q) s.
Proof.
  intros Hs. unfold StartAbilityLocked. apply (keeps_bind _).
  { eapply wp_mono; [by apply wp_GetOrCreateServiceRecord|]. by intros ? ? []. }
  intros [r isLoaded] s1 E1 A1. pose proof (wp_GetOrCreateServiceRecord restartMax q false s Hs) as H1.
  unfold wp in H1. rewrite E1 in H1. destruct H1 as (_ & Hk & G). cbn [fst snd] in Hk, G.
  assert (load_ready s1 r ∨ isLoaded = true) as Hready.
  { destruct isLoaded; [by right|]. left. destruct G as (_ & _ & _ & _ & _ & _ & v & Hv & B).
    intros v' Hv'. assert (v' = v) as -> by congruence. by rewrite (bl_byConnect _ _ _ B). }
  apply (keeps_bind _); [apply keeps_calm_advance, calm_AddCallerRecord|]. intros [] s2 E2 A2.
  pose proof (calm_AddCallerRecord r (rq_callerToken (sq_request q)) (rq_requestCode (sq_request q)) s1) as C2.
  unfold keeps, wp in C2. rewrite E2 in C2.
  apply keeps_the_service; [by eapply known_service_calm|]. intros v Hv. cbv zeta.
  destruct (negb isLoaded) eqn:El.
  - apply negb_true_iff in El as ->. destruct Hready as [Hready|]; [|done].
    apply (keeps_bind _); [apply advance_LoadAbility|intros; apply keeps_start_answer]; [advance_side..| |advance_side].
    intros v2 Hv2 Hb. destruct (calm_service _ _ _ _ C2 Hv2) as (v1 & Hv1 & [= _ _ Eb]).
    destruct G as (_ & _ & _ & _ & _ & _ & v' & Hv' & B). assert (v1 = v') as -> by congruence.
    rewrite Hb in Eb. by rewrite (bl_byConnect _ _ _ B) in Eb.
  - destruct (IsAbilityState _ _); [|apply (keeps_ret _)].
    apply (keeps_bind _); [apply keeps_calm_advance, calm_CommandAbility|intros; apply keeps_start_answer]; advance_side.
Qed.
#[local] Hint Resolve keeps_StartAbilityLocked : connect.

Lemma keeps_StartRootLauncher restartMax r s :
  sound s → known_service s r → keeps advance (StartRootLauncher restartMax r) s.
Proof. intros. unfold StartRootLauncher. advance_auto. Qed.
#[local] Hint Resolve keeps_StartRootLauncher : connect.

(** ** Connections *)

Definition is_watch (e : ServiceEffect) : Prop :=
  match e with SvAddDeathRecipient _ | SvRemoveDeathRecipient _ => True | _ => False end.

(** A state in which a new connection is being filed: the services, the connect
    map and the watched callbacks so far. *)
Record filing s (x : ConnectionRecord) (vs : gmap RRef ServiceRecord) (cm : gmap CbRef (list CnRef))
    (rm : gset CbRef) s' : Prop := {
  fi_services : cm_services s' = vs;
  fi_connections : cm_connections s' = <[cm_next s := x]> (cm_connections s);
  fi_serviceMap : serviceMap_ s' = serviceMap_ s;
  fi_connectMap : connectMap_ s' = cm;
  fi_recipients : recipientMap_ s' = rm;
  fi_held : cm_held s' = cm_held s;
  fi_next : cm_next s' = Pos.succ (cm_next s);
  fi_handler : cm_eventHandler s' = cm_eventHandler s;
  fi_trace : ∃ w, cm_trace s' = cm_trace s ++ w ∧ Forall is_watch w;
}.

Lemma wp_CreateConnectionRecord token r cb s :
  wp (CreateConnectionRecord token r cb) (λ c s', c = cm_next s ∧
    filing s (mkConnection (wrap_i32 (cm_connectRecordId s)) INIT token r (Some cb)) (cm_services s)
      (connectMap_ s) (recipientMap_ s) s') s.
Proof.
  unfold CreateConnectionRecord, take_ref.
  repeat (first [apply wp_bind | apply wp_gets | apply wp_modify | apply wp_ret]). split; [done|].
  constructor; try done. exists []. by rewrite app_nil_r.
Qed.

Lemma filing_more s w e :
  (∃ w0, cm_trace s ++ w = cm_trace s ++ w0 ∧ Forall is_watch w0) → is_watch e →
  ∃ w0, (cm_trace s ++ w) ++ [e] = cm_trace s ++ w0 ∧ Forall is_watch w0.
Proof.
  intros (w0 & -> & Hw) He. exists (w0 ++ [e]). rewrite (assoc_L (++)). split; [done|].
  apply Forall_app. split; [done|by constructor].
Qed.

Lemma filing_state s x vs cm rm s1 state :
  filing s x vs cm rm s1 →
  wp (SetConnectState (cm_next s) state) (λ _ s', filing s (x <| c_state := state |>) vs cm rm s') s1.
Proof.
  intros []. apply wp_modify. constructor; connects_cbn; try done. by rewrite fi_connections0, alter_insert_id.
Qed.

Lemma filing_service s x vs cm rm s1 f r :
  filing s x vs cm rm s1 → wp (upd_service r f) (λ _ s', filing s x (alter f r vs) cm rm s') s1.
Proof. intros []. apply wp_modify. constructor; connects_cbn; try done. by rewrite fi_services0. Qed.

Lemma filing_map s x vs cm rm s1 f :
  filing s x vs cm rm s1 →
  wp (modify (λ s, s <| connectMap_ ::= f |>)) (λ _ s', filing s x vs (f cm) rm s') s1.
Proof. intros []. apply wp_modify. constructor; connects_cbn; try done. by rewrite fi_connectMap0. Qed.

Lemma filing_unwatch s x vs cm rm s1 cb :
  filing s x vs cm rm s1 → cb ∈ rm →
  wp (RemoveConnectDeathRecipient cb) (λ _ s', filing s x vs cm (rm ∖ {[cb]}) s') s1.
Proof.
  intros [] Hcb. unfold RemoveConnectDeathRecipient. apply wp_bind, wp_gets. cbv beta delta [id].
  rewrite decide_True by congruence. apply wp_bind, wp_modify, wp_modify.
  constructor; connects_cbn; try done; [by rewrite fi_recipients0|].
  destruct fi_trace0 as (w & E & Hw). rewrite E. apply filing_more; [by exists w|done].
Qed.

Lemma filing_watch s x vs cm rm s1 cb :
  filing s x vs cm rm s1 → cb ∉ rm →
  wp (AddConnectDeathRecipient cb) (λ _ s', filing s x vs cm ({[cb]} ∪ rm) s') s1.
Proof.
  intros [] Hcb. unfold AddConnectDeathRecipient. apply wp_bind, wp_gets. cbv beta delta [id].
  rewrite decide_False by congruence. apply wp_bind, wp_modify, wp_modify.
  constructor; connects_cbn; try done; [by rewrite fi_recipients0|].
  destruct fi_trace0 as (w & E & Hw). rewrite E. apply filing_more; [by exists w|done].
Qed.

(** Filing a new connection, as [ConnectAbilityLocked] does it. *)
Lemma wp_file_connection {B} cb callerToken r s (k : CnRef → ST Connects B) Q :
  sound s →
  let l := GetConnectRecordListFromMap s cb in
  let isCallbackConnected := match l with [] => false | _ => true end in
  (∀ s', filing s (mkConnection (wrap_i32 (cm_connectRecordId s)) CONNECTING callerToken r (Some cb))
      (alter (AddConnectRecordToList (cm_next s)) r (cm_services s)) (<[cb := l ++ [cm_next s]]> (connectMap_ s))
      ({[cb]} ∪ recipientMap_ s) s' → wp (k (cm_next s)) Q s') →
  wp (c ← CreateConnectionRecord callerToken r cb;
      _ ← SetConnectState c CONNECTING;
      _ ← upd_service r (AddConnectRecordToList c);
      _ ← (if isCallbackConnected then
             _ ← RemoveConnectDeathRecipient cb;
             modify (λ s, s <| connectMap_ ::= delete cb |>)
           else mret tt);
      _ ← AddConnectDeathRecipient cb;
      _ ← modify (λ s, s <| connectMap_ ::= emplace cb (l ++ [c]) |>);
      k c) Q s.
Proof.
  intros Hs l isC HQ. pose proof (con_recipients _ _ Hs) as HR. pose proof (con_nonempty _ _ Hs cb) as Hne.
  apply wp_bind. eapply wp_mono; [apply wp_CreateConnectionRecord|]. cbv beta. intros c s1 [-> F1].
  apply wp_bind. eapply wp_mono; [by apply filing_state|]. intros [] s2 F2. cbn in F2. 
  apply wp_bind. eapply wp_mono; [by apply filing_service|]. intros [] s3 F3.
  set (vs := alter _ r _) in *. set (x := mkConnection _ CONNECTING _ _ _) in *. change (filing s x vs (connectMap_ s) (recipientMap_ s) s3) in F3.
  apply wp_bind. apply (wp_mono _ (λ _ s', filing s x vs (delete cb (connectMap_ s)) (recipientMap_ s ∖ {[cb]}) s')).
  { unfold isC, l, GetConnectRecordListFromMap. destruct (connectMap_ s !! cb) as [[|c0 l0]|] eqn:E; cbn [default]; [done|..].
    - apply wp_bind. eapply wp_mono; [apply (filing_unwatch _ _ _ _ _ _ _ F3); rewrite HR; by eapply elem_of_dom_2|].
      intros [] s4 F4. by apply filing_map.
    - apply wp_ret. rewrite delete_id, difference_disjoint_L by (try done; rewrite HR; apply not_elem_of_dom in E; set_solver).
      done. }
  intros [] s4 F4. apply wp_bind. eapply wp_mono; [apply (filing_watch _ _ _ _ _ _ _ F4); set_solver|].
  intros [] s5 F5. apply wp_bind. eapply wp_mono; [by apply filing_map|]. intros [] s6 F6. apply HQ.
  unfold emplace in F6. rewrite lookup_delete_eq, insert_delete_eq in F6.
  replace ({[cb]} ∪ recipientMap_ s) with ({[cb]} ∪ recipientMap_ s ∖ {[cb]}); [done|].
  apply set_eq. intros p. destruct (decide (p = cb)); set_solver.
Qed.

Lemma keeps_ConnectAbilityLocked restartMax q cb token s :
  sound s → keeps advance (ConnectAbilityLocked restartMax q cb token) s.
Proof.
  intros Hs. unfold ConnectAbilityLocked, keeps. apply wp_bind.
  eapply wp_mono; [by apply wp_GetOrCreateServiceRecord|]. intros [r isLoaded] s1 (A1 & Hk & G). cbn [fst snd] in Hk, G.
  apply wp_bind, wp_gets. cbv beta zeta delta [id].
  pose proof (advance_sound _ _ A1 Hs) as Hs1. destruct (_ && _); [by apply wp_ret|].
  apply (wp_file_connection cb token r s1); [done|]. intros s2 F2. pose proof F2 as [].
  set (c := cm_next s1) in *.
  destruct (new_connection_sound s1 s2 r (mkConnection (wrap_i32 (cm_connectRecordId s1)) CONNECTING token r (Some cb))
    cb (GetConnectRecordListFromMap s1 cb) Hs1 Hk eq_refl eq_refl eq_refl
    fi_services0 fi_connections0 fi_serviceMap0 fi_connectMap0 fi_recipients0 fi_held0 fi_next0)
    as (Hs2 & G2 & v2 & Hv2 & Hc2). apply advance_intro in G2 as A2; [|done].
  assert (load_ready s2 r) as Hready.
  { intros v Hv _. assert (v = v2) as -> by congruence. apply find_is_Some_iff. exists c. split; [done|].
    unfold connection_in. by rewrite fi_connections0, lookup_insert_eq. }
  eapply wp_mono; [|intros a s3 A3; transitivity s1; [done|]; transitivity s2; [done|exact A3]].
  apply (keeps_the_service advance); [by exists v2|]. intros v Hv. assert (v = v2) as -> by congruence.
  apply (keeps_bind _); [|intros; advance_auto].
  destruct (negb isLoaded); [apply advance_LoadAbility; [done|by exists v2|done]|].
  apply keeps_calm_advance. calm_auto.
Qed.

Lemma keeps_disconnect_all judge cs s :
  targets_known s → Forall (known_connection s) cs → keeps calm (disconnect_all judge cs) s.
Proof.
  revert s. induction cs as [|c cs IH]; intros s HT HF; cbn [disconnect_all]; [apply (keeps_ret _)|].
  apply Forall_cons in HF as [Hc HF]. do 3 calm_step; [|calm_auto].
  apply (keeps_bind _); [calm_auto|]. intros ret s1 _ C1. calm_step; [|calm_step].
  apply IH; [eauto with connect|]. eapply Forall_impl; [exact HF|]. intros. eauto with connect.
Qed.

Lemma filed_known s cb : sound s → Forall (known_connection s) (GetConnectRecordListFromMap s cb).
Proof.
  intros Hs. unfold GetConnectRecordListFromMap. destruct (connectMap_ s !! cb) as [l|] eqn:E; cbn; [|constructor].
  apply Forall_forall. intros c Hc. destruct (con_filed _ _ Hs _ _ _ E Hc) as (x & Hx & _). by exists x.
Qed.

Lemma calm_DisconnectAbilityLocked judge cb s : sound s → keeps calm (DisconnectAbilityLocked judge cb) s.
Proof.
  intros Hs. unfold DisconnectAbilityLocked. calm_step. cbv zeta beta delta [id].
  destruct (GetConnectRecordListFromMap s cb) as [|c l] eqn:E; [apply (keeps_ret _)|].
  pose proof (filed_known s cb Hs) as HF. rewrite E in HF.
  apply (keeps_bind _); [apply keeps_disconnect_all; [by apply sound_targets|done]|]. intros. calm_auto.
Qed.
#[local] Hint Resolve calm_DisconnectAbilityLocked : connect.

(** ** Reports *)

Lemma keeps_AttachAbilityThreadLocked b token s : sound s → keeps advance (AttachAbilityThreadLocked b token) s.
Proof.
  intros Hs. unfold AttachAbilityThreadLocked. do 2 advance_step; [|advance_step]. by_token Heqo.
  apply keeps_calm_advance. calm_auto.
Qed.

Lemma keeps_OnAbilityRequestDone token state s : sound s → keeps advance (OnAbilityRequestDone token state) s.
Proof.
  intros Hs. unfold OnAbilityRequestDone. do 2 advance_step; [|advance_step]. by_token Heqo. advance_auto.
Qed.

Lemma keeps_over_services (f : string * RRef → ST Connects unit) s :
  sound s → (∀ k r s', sound s' → known_service s' r → keeps advance (f (k, r)) s') →
  keeps advance (for_each f (service_list s)) s.
Proof.
  intros Hs Hf. apply (keeps_for_each_from _). intros [k r] s' Hin A. apply elem_of_in_order in Hin.
  apply Hf; [advance_side|]. eapply known_service_advance; [done|]. by eapply service_at_known.
Qed.

Lemma keeps_OnAppStateChanged p d state s : sound s → keeps advance (OnAppStateChanged p d state) s.
Proof.
  intros Hs. unfold OnAppStateChanged. advance_step. apply keeps_over_services; [done|].
  intros k r s' Hs' Hk. cbn [snd]. advance_auto.
Qed.

Lemma keeps_TerminateDone r s : sound s → known_service s r → keeps advance (TerminateDone r) s.
Proof. intros. unfold TerminateDone. advance_auto. Qed.
#[local] Hint Resolve keeps_TerminateDone : connect.

Lemma keeps_DispatchTerminate r s : sound s → known_service s r → keeps advance (DispatchTerminate r) s.
Proof. intros. unfold DispatchTerminate. advance_auto. Qed.
#[local] Hint Resolve keeps_DispatchTerminate : connect.

Lemma keeps_AbilityTransitionDone token state s : sound s → keeps advance (AbilityTransitionDone token state) s.
Proof.
  intros Hs. unfold AbilityTransitionDone. do 2 advance_step; [|advance_step]. by_token Heqo. advance_auto.
Qed.

Lemma keeps_ScheduleConnectAbilityDoneLocked token remote s :
  sound s → keeps advance (ScheduleConnectAbilityDoneLocked token remote) s.
Proof.
  intros Hs. unfold ScheduleConnectAbilityDoneLocked. do 2 advance_step; [|advance_step]. by_token Heqo.
  apply keeps_calm_advance. calm_step. calm_step; [calm_step|]. do 2 (apply (keeps_bind _); [calm_auto|intros]).
  apply (keeps_bind _); [|intros; calm_auto]. apply calm_for_each_connection.
  - eauto with connect.
  - eapply Forall_impl; [by eapply listed_known|]. intros. eauto 8 with connect.
  - intros. by apply calm_ScheduleConnectAbilityDone.
Qed.

Lemma keeps_ScheduleDisconnectAbilityDoneLocked token s :
  sound s → keeps advance (ScheduleDisconnectAbilityDoneLocked token) s.
Proof.
  intros Hs. unfold ScheduleDisconnectAbilityDoneLocked. do 2 advance_step; [|advance_step]. by_token Heqo.
  apply keeps_the_service; [done|]. intros v Hv.
  destruct (GetDisconnectingRecord s v) as [c|] eqn:Ec; [|advance_step].
  destruct (find_connection _ _ _ _ Ec) as [Hc Hin]. advance_step; [advance_step|].
  assert (target_of s c = Some p) as Ht by (eapply (con_listed _ _ Hs p v); done).
  apply (keeps_bind _); [advance_step|]. intros _ s1 _ A1.
  apply (keeps_bind _); [apply keeps_calm_advance; apply calm_ScheduleDisconnectAbilityDone; advance_side|].
  intros _ s2 _ A2. assert (sound s2) as Hs2 by advance_side.
  pose proof (wp_unlist_unfile p c
    (v' ← the_service p; if IsConnectListEmpty v' && (sv_startId v' =? 0) then Terminate p (CtStopTimeout p) else mret tt)
    s2 Hs2 ltac:(advance_side)) as HU.
  assert (keeps advance
    (_ ← upd_service p (RemoveConnectRecordFromList c);
     _ ← (v' ← the_service p; if IsConnectListEmpty v' && (sv_startId v' =? 0) then Terminate p (CtStopTimeout p) else mret tt);
     RemoveConnectionRecordFromMap c) s2) as HK.
  { apply HU. intros s3 _ G3. assert (known_service s3 p) by (eapply known_service_grows; [exact G3|]; advance_side). calm_auto. }
  unfold keeps in HK |- *. apply wp_returns in HK as ([] & s3 & E & A3).
  apply ST_bind_Returned in E as ([] & s4 & E4 & E). apply ST_bind_Returned in E as ([] & s5 & E5 & E6).
  apply ST_bind_Returned in E5 as (v' & s6 & E7 & E8).
  apply wp_returns. exists ERR_OK, s3. split; [|done].
  apply ST_bind_Returned. exists tt, s4. split; [done|]. apply ST_bind_Returned. exists v', s6. split; [done|].
  apply ST_bind_Returned. exists tt, s5. split; [done|]. apply ST_bind_Returned. by exists tt, s3.
Qed.
#[local] Hint Resolve keeps_ScheduleDisconnectAbilityDoneLocked : connect.

Lemma keeps_ScheduleCommandAbilityDoneLocked token s :
  sound s → keeps advance (ScheduleCommandAbilityDoneLocked token) s.
Proof.
  intros Hs. unfold ScheduleCommandAbilityDoneLocked. do 2 advance_step; [|advance_step]. by_token Heqo.
  apply keeps_calm_advance. calm_auto.
Qed.

(** ** Timeouts and deaths *)

Lemma keeps_HandleStartTimeoutTask restartMax r code s :
  sound s → known_service s r → keeps advance (HandleStartTimeoutTask restartMax r code) s.
Proof.
  intros Hs Hk. unfold HandleStartTimeoutTask. advance_step. advance_step.
  apply (keeps_bind _).
  - apply (keeps_for_each_from _). intros c s' Hc A.
    apply list_elem_of_In, List.filter_In in Hc as [Hc _]. apply list_elem_of_In in Hc.
    destruct (con_listed _ _ Hs r v c H Hc) as (Ht & _). 
    assert (known_connection s c) as Hcn by (unfold target_of in Ht; by apply fmap_Some in Ht as (x & ? & _); exists x).
    apply (keeps_bind _); [apply keeps_calm_advance, calm_CompleteConnect; advance_side|].
    intros [] s2 _ A2. apply keeps_unlist_unfile; advance_side.
  - intros [] s1 _ A1. advance_auto.
Qed.

Lemma advance_OnTimeOut msg id0 s : sound s → keeps advance (OnTimeOut msg id0) s.
Proof.
  intros Hs. unfold OnTimeOut. do 2 advance_step; [|advance_step].
  assert (known_service s p) by by eapply find_service_known.
  destruct msg; try apply (keeps_ret _). apply keeps_calm_advance. unfold HandleInactiveTimeout. calm_auto.
Qed.

Lemma keeps_HandleCallBackDiedTask judge cb s : sound s → keeps advance (HandleCallBackDiedTask judge cb) s.
Proof.
  intros Hs. unfold HandleCallBackDiedTask. do 2 advance_step; [|advance_step].
  apply (keeps_bind _).
  { apply keeps_calm_advance, calm_for_each_connection; [by apply sound_targets| |intros; apply calm_ClearConnCallBack].
    pose proof (filed_known s cb Hs) as HF. unfold GetConnectRecordListFromMap in HF. by rewrite Heqo in HF. }
  intros [] s1 _ A1. apply keeps_calm_advance.
  apply (keeps_bind _); [apply calm_DisconnectAbilityLocked; advance_side|intros; apply (keeps_ret _)].
Qed.

Lemma keeps_HandleAbilityDiedTask restartMax bundles r user s :
  sound s → known_service s r → keeps advance (HandleAbilityDiedTask restartMax bundles r user) s.
Proof.
  intros Hs Hk. unfold HandleAbilityDiedTask. do 2 advance_step; [|advance_step]. advance_step. advance_step.
  - cbv zeta. advance_auto.
  - apply (keeps_bind _); [|intros; advance_auto]. apply (keeps_for_each_from _). intros c s' Hc A.
    destruct (con_listed _ _ Hs r v c H Hc) as (Ht & _). apply keeps_drop_connection; advance_side.
Qed.

Lemma keeps_StopAllExtensions s : sound s → keeps advance StopAllExtensions s.
Proof.
  intros Hs. unfold StopAllExtensions. advance_step. apply keeps_over_services; [done|].
  intros k r s' Hs' Hk. cbn [snd]. advance_auto.
Qed.

(** * The transition system *)

(** One constructor per handler; [CvTask] is a closure of the event handler. *)
Inductive ConnectEvent :=
  | CvStartAbility (q : ServiceRequest)
  | CvTerminateAbility (token : option RRef)
  | CvTerminateAbilityByCaller (judge : AbilityInfo → ErrCode) (caller : option RRef) (requestCode : Z)
  | CvStopServiceAbility (q : ServiceRequest)
  | CvTerminateAbilityResult (token : option RRef) (startId : Z)
  | CvConnectAbility (q : ServiceRequest) (cb : CbRef) (callerToken : option RRef)
  | CvDisconnectAbility (judge : AbilityInfo → ErrCode) (cb : CbRef)
  | CvAttachAbilityThread (schedulerNotNull : bool) (token : option RRef)
  | CvAbilityRequestDone (token : option RRef) (state : AppAbilityState)
  | CvAppStateChanged (processName : string) (appData : list (string * Z)) (state : AppState)
  | CvAbilityTransitionDone (token : option RRef) (state : Z)
  | CvScheduleConnectAbilityDone (token : option RRef) (remoteObject : option Z)
  | CvScheduleDisconnectAbilityDone (token : option RRef)
  | CvScheduleCommandAbilityDone (token : option RRef)
  | CvTimeOut (msg : TimeoutMsg) (eventId : Z)
  | CvCallBackDied (cb : CbRef)
  | CvAbilityDied (r : RRef) (currentUserId : Z)
  | CvStopAllExtensions
  | CvTask (judge : AbilityInfo → ErrCode) (bundles : option (list BundleInfo)) (t : ConnectTask).

Definition ignore {A} (m : ST Connects A) : ST Connects unit := _ ← m; mret tt.

Definition run_connect (restartMax : Z) (e : ConnectEvent) : ST Connects unit :=
  match e with
  | CvStartAbility q => ignore (StartAbilityLocked restartMax q)
  | CvTerminateAbility token => ignore (TerminateAbilityLocked token)
  | CvTerminateAbilityByCaller judge caller code => ignore (TerminateAbilityByCaller judge caller code)
  | CvStopServiceAbility q => ignore (StopServiceAbilityLocked q)
  | CvTerminateAbilityResult token startId => ignore (TerminateAbilityResultLocked token startId)
  | CvConnectAbility q cb token => ignore (ConnectAbilityLocked restartMax q cb token)
  | CvDisconnectAbility judge cb => ignore (DisconnectAbilityLocked judge cb)
  | CvAttachAbilityThread b token => ignore (AttachAbilityThreadLocked b token)
  | CvAbilityRequestDone token state => OnAbilityRequestDone token state
  | CvAppStateChanged p d state => OnAppStateChanged p d state
  | CvAbilityTransitionDone token state => ignore (AbilityTransitionDone token state)
  | CvScheduleConnectAbilityDone token remote => ignore (ScheduleConnectAbilityDoneLocked token remote)
  | CvScheduleDisconnectAbilityDone token => ignore (ScheduleDisconnectAbilityDoneLocked token)
  | CvScheduleCommandAbilityDone token => ignore (ScheduleCommandAbilityDoneLocked token)
  | CvTimeOut msg eventId => OnTimeOut msg eventId
  | CvCallBackDied cb => OnCallBackDied cb
  | CvAbilityDied r user => OnAbilityDied r user
  | CvStopAllExtensions => StopAllExtensions
  | CvTask judge bundles t => run_connect_task restartMax judge bundles t
  end.

Definition connect_task_known s (t : ConnectTask) : Prop :=
  match t with
  | CtStartTimeout r _ | CtStopTimeout r | CtCommandTimeout r | CtAbilityDied r _ => known_service s r
  | CtCompleteConnect c | CtDisconnectTimeout c => known_connection s c
  | CtDisconnect cs => Forall (known_connection s) cs
  | CtCallBackDied _ => True
  end.

(** References to records are to records. *)
Definition connect_event_ok s (e : ConnectEvent) : Prop :=
  match e with
  | CvAbilityDied r _ => known_service s r
  | CvTask _ _ t => connect_task_known s t
  | _ => True
  end.

Lemma keeps_ignored {A} (m : ST Connects A) s : keeps advance m s → keeps advance (ignore m) s.
Proof. intros H. apply (keeps_bind _); [done|]. intros. by apply (keeps_ret _). Qed.

Lemma keeps_run_connect_task restartMax judge bundles t s :
  sound s → connect_task_known s t → keeps advance (run_connect_task restartMax judge bundles t) s.
Proof.
  intros Hs Ht. destruct t; cbn [run_connect_task]; cbn in Ht.
  - by apply keeps_HandleStartTimeoutTask.
  - by apply keeps_TerminateDone.
  - apply keeps_calm_advance. unfold HandleCommandTimeoutTask. calm_auto.
  - apply keeps_calm_advance. calm_auto.
  - by apply keeps_HandleDisconnectTask.
  - unfold DisconnectTimeout. advance_auto.
  - by apply keeps_HandleCallBackDiedTask.
  - by apply keeps_HandleAbilityDiedTask.
Qed.

Lemma keeps_run_connect restartMax e s :
  sound s → connect_event_ok s e → keeps advance (run_connect restartMax e) s.
Proof.
  intros Hs He. destruct e; cbn [run_connect]; cbn in He; try apply keeps_ignored.
  - by apply keeps_StartAbilityLocked.
  - by apply keeps_TerminateAbilityLocked.
  - by apply advance_TerminateAbilityByCaller.
  - by apply keeps_StopServiceAbilityLocked.
  - by apply keeps_TerminateAbilityResultLocked.
  - by apply keeps_ConnectAbilityLocked.
  - by apply keeps_calm_advance, calm_DisconnectAbilityLocked.
  - by apply keeps_AttachAbilityThreadLocked.
  - by apply keeps_OnAbilityRequestDone.
  - by apply keeps_OnAppStateChanged.
  - by apply keeps_AbilityTransitionDone.
  - by apply keeps_ScheduleConnectAbilityDoneLocked.
  - by apply keeps_ScheduleDisconnectAbilityDoneLocked.
  - by apply keeps_ScheduleCommandAbilityDoneLocked.
  - by apply advance_OnTimeOut.
  - apply keeps_calm_advance. unfold OnCallBackDied. calm_auto.
  - apply keeps_calm_advance. unfold OnAbilityDied. calm_auto.
  - by apply keeps_StopAllExtensions.
  - by apply keeps_run_connect_task.
Qed.

(** A manager as its constructor leaves it; the service then gives it the event
    handler that runs its tasks. *)
Definition init_connects (userId : Z) (handler : bool) : Connects :=
  mkConnects ∅ ∅ ∅ ∅ ∅ userId handler handler ∅ ∅ 1 0 0 0 [].

(** Between events, posted tasks take or drop references to services, and
    records of the other managers come and go. *)
Inductive connect_step (restartMax : Z) : Connects → Connects → Prop :=
  | connect_step_event s e s' :
      connect_event_ok s e → run_connect restartMax e s = Returned (tt, s') → connect_step restartMax s s'
  | connect_step_held s hs : (∀ r, r ∈ hs → known_service s r) →
      connect_step restartMax s (s <| cm_held := hs |>)
  | connect_step_callers s rs : connect_step restartMax s (s <| cm_callers := rs |>).

Definition connect_reachable (restartMax userId : Z) (handler : bool) s : Prop :=
  rtc (connect_step restartMax) (init_connects userId handler) s.

Lemma sound_init userId handler : sound (init_connects userId handler).
Proof. by constructor. Qed.

Lemma advance_step_connect restartMax s s' : connect_step restartMax s s' → sound s → advance s s'.
Proof.
  intros [s0 e s1 He Hr|s0 hs Hh|s0 rs] Hs.
  - pose proof (keeps_run_connect restartMax e s0 Hs He) as Hk. unfold keeps, wp in Hk. by rewrite Hr in Hk.
  - apply advance_intro; [|by apply grows_tables]. by destruct Hs.
  - apply advance_intro; [|by apply grows_tables]. by destruct Hs.
Qed.

Lemma sound_reachable restartMax userId handler s : connect_reachable restartMax userId handler s → sound s.
Proof.
  intros H. pattern s. revert H. apply (rtc_ind_r sound); [apply sound_init|].
  intros s1 s2 _ Hst Hs. by eapply advance_step_connect.
Qed.

Lemma advance_steps restartMax s s' : rtc (connect_step restartMax) s s' → sound s → advance s s'.
Proof.
  induction 1 as [s|s1 s2 s3 H _ IH]; intros Hs; [done|]. pose proof (advance_step_connect _ _ _ H Hs) as A.
  transitivity s2; [done|]. apply IH. advance_side.
Qed.

(** * Small runs of the connect manager, for the instances of its theorems. *)

Definition all_visible (i : AbilityInfo) : ErrCode := ERR_OK.

Definition demo_service : AbilityInfo :=
  mkAbilityInfo "" "com.demo" "Service" "entry" "com.demo" SERVICE SINGLETON false false false.

Definition demo_request : ServiceRequest :=
  mkServiceRequest
    (mkRequest emptyWant demo_service (mkAppInfo "com.demo" "com.demo" false "label" "icon") 1 0 1
       INVALID_TYPE None None "") 1 false (-1).

(** The first event, and the state after all of them. *)
Fixpoint run_connects (es : list ConnectEvent) (s : Connects) : option Connects :=
  match es with
  | [] => Some s
  | e :: es' => match run_connect 3 e s with Returned (_, s') => run_connects es' s' | _ => None end
  end.

Definition connect_task_knownb (s : Connects) (t : ConnectTask) : bool :=
  let service r := bool_decide (is_Some (cm_services s !! r)) in
  let connection c := bool_decide (is_Some (cm_connections s !! c)) in
  match t with
  | CtStartTimeout r _ | CtStopTimeout r | CtCommandTimeout r | CtAbilityDied r _ => service r
  | CtCompleteConnect c | CtDisconnectTimeout c => connection c
  | CtDisconnect cs => forallb connection cs
  | CtCallBackDied _ => true
  end.

Definition connect_event_okb (s : Connects) (e : ConnectEvent) : bool :=
  match e with
  | CvAbilityDied r _ => bool_decide (is_Some (cm_services s !! r))
  | CvTask _ _ t => connect_task_knownb s t
  | _ => true
  end.

Fixpoint connects_okb (es : list ConnectEvent) (s : Connects) : bool :=
  match es with
  | [] => true
  | e :: es' =>
      connect_event_okb s e &&
      match run_connect 3 e s with Returned (_, s') => connects_okb es' s' | _ => false end
  end.

Lemma connect_event_okb_ok s e : connect_event_okb s e = true → connect_event_ok s e.
Proof.
  destruct e; cbn; try done; intros H; bool_to_prop; auto. destruct t; cbn in *; bool_to_prop; auto.
  apply Forall_forall. intros c Hc. rewrite forallb_forall in H. apply list_elem_of_In in Hc.
  specialize (H c Hc). by bool_to_prop.
Qed.

Lemma connects_reachable es s s' :
  connect_reachable 3 100 true s → connects_okb es s = true → run_connects es s = Some s' →
  connect_reachable 3 100 true s'.
Proof.
  revert s. induction es as [|e es IH]; intros s Hr Hok H; cbn in *; [by simplify_eq|].
  apply andb_true_iff in Hok as [He Hok]. destruct (run_connect 3 e s) as [[[] s1]| |] eqn:E; [|done..].
  apply (IH s1); [|done|done]. eapply rtc_r; [exact Hr|]. eapply connect_step_event; [by apply connect_event_okb_ok|done].
Qed.

Definition connect_init : Connects := init_connects 100 true.

(** A service that a client connects to: its thread attaches, it is created, and
    it gives its remote object. *)
Definition connected_by (cb : CbRef) : list ConnectEvent :=
  [CvConnectAbility demo_request cb None; CvAttachAbilityThread true (Some 1%positive);
   CvAbilityTransitionDone (Some 1%positive) 1; CvScheduleConnectAbilityDone (Some 1%positive) (Some 7)].

Definition after_connects (es : list ConnectEvent) : Connects :=
  default connect_init (run_connects es connect_init).

Lemma after_connects_reachable es :
  bool_decide (is_Some (run_connects es connect_init)) = true → connects_okb es connect_init = true →
  connect_reachable 3 100 true (after_connects es).
Proof.
  intros H Hok. bool_to_prop. destruct H as [s Hs]. unfold after_connects. rewrite Hs.
  eapply connects_reachable; [apply rtc_refl|exact Hok|exact Hs].
Qed.

(** One client, two clients, and one that connects while the service starts. *)
Definition s_one : Connects := after_connects (connected_by 5).
Definition s_two : Connects := after_connects (connected_by 5 ++
  [CvConnectAbility demo_request 6 None; CvTask all_visible None (CtCompleteConnect 3)]).
Definition s_waiting : Connects := after_connects
  [CvStartAbility demo_request; CvConnectAbility demo_request 5 None; CvAttachAbilityThread true (Some 1%positive);
   CvAbilityTransitionDone (Some 1%positive) 1; CvScheduleCommandAbilityDone (Some 1%positive);
   CvConnectAbility demo_request 6 None; CvTask all_visible None (CtCompleteConnect 3)].
(** The only client leaves, and the service is terminated. *)
Definition s_ended : Connects := after_connects (connected_by 5 ++
  [CvDisconnectAbility all_visible 5; CvScheduleDisconnectAbilityDone (Some 1%positive)]).

Lemma s_one_reachable : connect_reachable 3 100 true s_one.
Proof. apply after_connects_reachable; vm_compute; reflexivity. Qed.
Lemma s_two_reachable : connect_reachable 3 100 true s_two.
Proof. apply after_connects_reachable; vm_compute; reflexivity. Qed.
Lemma s_waiting_reachable : connect_reachable 3 100 true s_waiting.
Proof. apply after_connects_reachable; vm_compute; reflexivity. Qed.
Lemma s_ended_reachable : connect_reachable 3 100 true s_ended.
Proof. apply after_connects_reachable; vm_compute; reflexivity. Qed.

Lemma plain_decided s :
  bool_decide (map_Forall (λ _ v, plain_info (r_info (sv_record v))) (cm_services s)) = true → plain s.
Proof. intros H. bool_to_prop. exact H. Qed.
