(* ===== verification/ConnectFlow.v ===== *)
(** What the handlers of the connect manager do, step by step, to one service and
    its connections. *)

From S2P Require Import Prelude CppString Want CallContainer AbilityRecord ServiceRecord ConnectManager.
From S2P Require Import ConnectShape ConnectSafety ConnectRun.
From Stdlib Require Import Ascii.

#[local] Open Scope stdpp_scope.
#[local] Open Scope Z_scope.

Implicit Types (s : Connects) (r : RRef) (c : CnRef) (cb : CbRef) (v : ServiceRecord) (x : ConnectionRecord).
Implicit Types (q : ServiceRequest) (judge : AbilityInfo → ErrCode).

#[local] Abbreviation sound := (consistent []).

(** ** Lookups that succeed *)

Lemma find_service_unique (P : RRef → bool) s k r :
  serviceMap_ s !! k = Some r → P r = true → (∀ r', P r' = true → r' = r) → find_service P s = Some r.
Proof.
  intros Hk HP Hu. unfold find_service. destruct (List.find _ _) as [[k' r']|] eqn:E.
  - apply find_Some_elem in E as [_ HP']. cbn in *. f_equal. by apply Hu.
  - eapply (find_None_elem _ _ (k, r)) in E; [|by apply elem_of_in_order]. cbn in E. congruence.
Qed.

Lemma GetServiceRecordByToken_filed s k r :
  serviceMap_ s !! k = Some r → GetServiceRecordByToken s (Some r) = Some r.
Proof.
  intros Hk. eapply find_service_unique; [exact Hk|by apply bool_decide_eq_true|].
  intros r' H. apply bool_decide_eq_true in H. congruence.
Qed.

Lemma GetServiceByToken_filed s k r : serviceMap_ s !! k = Some r → GetServiceByToken s (Some r) = Some r.
Proof.
  intros Hk. unfold GetServiceByToken. cbn. rewrite decide_True; [done|]. unfold live_services.
  apply elem_of_app. left. apply list_elem_of_fmap. exists (k, r). split; [done|]. by apply elem_of_map_to_list.
Qed.

Lemma find_entry_filed s c cb l :
  sound s → connectMap_ s !! cb = Some l → c ∈ l →
  List.find (λ y, bool_decide (c ∈ y.2)) (connect_list s) = Some (cb, l).
Proof.
  intros Hs Hcb Hc. destruct (List.find _ _) as [[cb' l']|] eqn:E.
  - apply find_entry in E as [Hcb' Hc']. assert (cb' = cb) as -> by by eapply (con_once _ _ Hs). congruence.
  - destruct (find_no_entry _ _ _ _ E Hcb Hc).
Qed.

(** ** Disconnecting one of several clients *)

Definition leaving (c : CnRef) x s : Connects :=
  s <| cm_connections := <[c := x <| c_state := DISCONNECTED |>]> (cm_connections s) |>
    <| cm_trace := cm_trace s ++ [SvPostTask (CtDisconnect [c]) None] |>.

Lemma DisconnectAbilityLocked_shared judge cb c x v s :
  connectMap_ s !! cb = Some [c] → cm_connections s !! c = Some x → c_state x = CONNECTED →
  cm_services s !! c_targetService x = Some v → length (sv_connRecordList v) ≠ 1%nat →
  judge (r_info (sv_record v)) = ERR_OK → cm_eventHandler s = true →
  DisconnectAbilityLocked judge cb s = Returned (ERR_OK, leaving c x s).
Proof.
  intros Hcb Hx Hst Hv Hlen Hj Hh.
  assert (wp (DisconnectAbilityLocked judge cb) (λ e s', e = ERR_OK ∧ s' = leaving c x s) s) as H.
  { unfold DisconnectAbilityLocked. apply wp_bind, wp_gets. cbv beta zeta delta [id].
    unfold GetConnectRecordListFromMap. rewrite Hcb. cbn [default]. apply wp_bind. cbn [disconnect_all].
    eapply wp_the_connection; [exact Hx|]. eapply wp_the_service; [exact Hv|]. rewrite decide_True by done.
    apply wp_bind. unfold DisconnectAbility. eapply wp_the_connection; [exact Hx|].
    rewrite bool_decide_eq_true_2 by done. cbn [negb]. apply wp_bind, wp_modify.
    eapply wp_the_service; [connects_cbn; exact Hv|]. rewrite decide_False by done.
    apply wp_bind, wp_modify, wp_ret. rewrite decide_True by done. apply wp_ret. rewrite decide_True by done.
    apply wp_bind, wp_gets. connects_cbn. rewrite Hh. apply wp_bind, wp_modify, wp_ret. split; [done|].
    unfold leaving, update. connects_cbn. cbv beta delta [id]. f_equal; [|done].
    apply map_eq. intros i. destruct (decide (c = i)) as [->|Hne];
      [by rewrite !lookup_alter_eq, lookup_insert_eq, Hx|by rewrite !lookup_alter_ne, lookup_insert_ne]. }
  apply wp_returns in H as (e & s' & E & -> & ->). exact E.
Qed.

(** The posted end of a disconnection does nothing for the last connection. *)
Lemma HandleDisconnectTask_last c x v s :
  cm_connections s !! c = Some x → cm_services s !! c_targetService x = Some v →
  (length (sv_connRecordList v) ≤ 1)%nat → HandleDisconnectTask [c] s = Returned (tt, s).
Proof.
  intros Hx Hv Hlen.
  assert (wp (HandleDisconnectTask [c]) (λ _ s', s' = s) s) as H.
  { unfold HandleDisconnectTask. cbn [for_each]. apply wp_bind. eapply wp_the_connection; [exact Hx|].
    eapply wp_the_service; [exact Hv|]. rewrite (bool_decide_eq_false_2 (1 < _)%nat) by lia.
    rewrite andb_false_r. by do 2 apply wp_ret. }
  apply wp_returns in H as ([] & s' & E & ->). exact E.
Qed.

Lemma HandleDisconnectTask_waits c x s :
  cm_connections s !! c = Some x → known_service s (c_targetService x) → c_state x ≠ DISCONNECTED →
  HandleDisconnectTask [c] s = Returned (tt, s).
Proof.
  intros Hx [v Hv] Hst.
  assert (wp (HandleDisconnectTask [c]) (λ _ s', s' = s) s) as H.
  { unfold HandleDisconnectTask. cbn [for_each]. apply wp_bind. eapply wp_the_connection; [exact Hx|].
    eapply wp_the_service; [exact Hv|]. rewrite bool_decide_eq_false_2 by done. by do 2 apply wp_ret. }
  apply wp_returns in H as ([] & s' & E & ->). exact E.
Qed.

(** Out of the connect map, when it is the only connection of its callback. *)
Lemma wp_RemoveConnectionRecordFromMap_only c cb s Q :
  List.find (λ y, bool_decide (c ∈ y.2)) (connect_list s) = Some (cb, [c]) → cb ∈ recipientMap_ s →
  (∀ s', cm_services s' = cm_services s → cm_connections s' = cm_connections s →
     connectMap_ s' = delete cb (connectMap_ s) → cm_eventHandler s' = cm_eventHandler s →
     serviceMap_ s' = serviceMap_ s →
     cm_trace s' = cm_trace s ++ [SvRemoveDeathRecipient cb] → Q tt s') →
  wp (RemoveConnectionRecordFromMap c) Q s.
Proof.
  intros Hf Hcb HQ. unfold RemoveConnectionRecordFromMap. apply wp_bind, wp_gets. cbv beta delta [id].
  rewrite Hf. cbv zeta. assert (list_remove_all c [c] = []) as ->.
  { unfold list_remove_all. rewrite filter_cons_False by tauto. done. }
  apply wp_bind, wp_modify, wp_bind. unfold RemoveConnectDeathRecipient. apply wp_bind, wp_gets.
  cbv beta delta [id]. connects_cbn. rewrite decide_True by done.
  apply wp_bind, wp_modify, wp_modify, wp_modify. apply HQ; try done. connects_cbn. by rewrite delete_insert_eq.
Qed.

(** What a callback hears of the end of its connection. *)
Definition told x v (resultCode : Z) : list ServiceEffect :=
  match c_connCallback x with
  | Some cb => [OnAbilityDisconnectDone cb (record_element (sv_record v)) resultCode]
  | None => []
  end.

Lemma wp_CompleteDisconnect c x v s Q :
  cm_connections s !! c = Some x → cm_services s !! c_targetService x = Some v →
  Q tt (s <| cm_connections ::= alter (λ x, x <| c_state := DISCONNECTED |>) c |>
          <| cm_trace := cm_trace s ++ told x v 0 |>) →
  wp (CompleteDisconnect c 0 false) Q s.
Proof.
  intros Hx Hv HQ. unfold CompleteDisconnect. eapply wp_the_connection; [exact Hx|].
  apply wp_bind, wp_modify. eapply wp_the_service; [exact Hv|]. unfold told in HQ.
  destruct (c_connCallback x) as [cb|]; [by apply wp_modify|]. apply wp_ret. revert HQ.
  unfold update. connects_cbn. by rewrite app_nil_r.
Qed.

Lemma wp_HandleDisconnectTask_more c cb x v s Q :
  sound s → cm_connections s !! c = Some x → c_state x = DISCONNECTED →
  cm_services s !! c_targetService x = Some v → (1 < length (sv_connRecordList v))%nat →
  connectMap_ s !! cb = Some [c] →
  (∀ s', cm_services s' = alter (RemoveConnectRecordFromList c) (c_targetService x) (cm_services s) →
     cm_connections s' = alter (λ x, x <| c_state := DISCONNECTED |>) c (cm_connections s) →
     connectMap_ s' = delete cb (connectMap_ s) → cm_eventHandler s' = cm_eventHandler s →
     serviceMap_ s' = serviceMap_ s →
     cm_trace s' = cm_trace s ++ told x v 0 ++ [SvRemoveDeathRecipient cb] → Q tt s') →
  wp (HandleDisconnectTask [c]) Q s.
Proof.
  intros Hs Hx Hst Hv Hlen Hcb HQ. unfold HandleDisconnectTask. cbn [for_each]. apply wp_bind.
  eapply wp_the_connection; [exact Hx|]. eapply wp_the_service; [exact Hv|].
  rewrite !bool_decide_eq_true_2 by done. unfold drop_connection. cbn [andb].
  apply wp_bind. eapply wp_CompleteDisconnect; [exact Hx|exact Hv|]. apply wp_bind, wp_modify.
  eapply wp_RemoveConnectionRecordFromMap_only.
  - apply (find_entry_filed _ _ _ _ Hs Hcb), list_elem_of_here.
  - connects_cbn. rewrite (con_recipients _ _ Hs). by eapply elem_of_dom_2.
  - intros s' E1 E2 E3 E4 E5 E6. apply wp_ret, HQ; [exact E1|exact E2|exact E3|exact E4|exact E5|].
    rewrite E6. connects_cbn. by rewrite <- (assoc_L (++)).
Qed.

(** ** A service that has terminated *)

Lemma plain_calm s s' : calm s s' → plain s → plain s'.
Proof.
  intros C HP r v' Hv'. destruct (calm_service _ _ _ _ C Hv') as (v & Hv & [= -> _ _]). by eapply HP.
Qed.

(** [RemoveServiceAbility] misses. *)
Lemma wp_RemoveServiceAbility_misses r v s Q :
  sound s → plain s → cm_services s !! r = Some v →
  (∀ s', cm_services s' = cm_services s → cm_trace s' = cm_trace s → serviceMap_ s' = serviceMap_ s → sound s' → Q tt s') →
  wp (RemoveServiceAbility r) Q s.
Proof.
  intros Hs HP Hv HQ. pose proof (keeps_RemoveServiceAbility r s Hs (mk_is_Some _ _ Hv)) as HK.
  unfold RemoveServiceAbility, keeps in *. apply (wp_the_service r v); [done|]. cbv zeta. apply wp_modify.
  unfold wp in HK. unfold the_service, mbind, ST_bind, gets, deref in HK. rewrite Hv in HK.
  apply HQ; [done|done| |by apply (adv_ok _ _ HK)].
  connects_cbn. apply delete_id. destruct (serviceMap_ s !! _) as [r'|] eqn:E; [|done].
  destruct (con_key _ _ Hs _ _ E) as (v' & Hv' & Hkey). symmetry in Hkey. exfalso.
  revert Hkey. apply removed_key_differs. by apply (HP r).
Qed.

Lemma wp_terminated_report s k r v :
  sound s → plain s → serviceMap_ s !! k = Some r → cm_services s !! r = Some v →
  r_state (sv_record v) = TERMINATING →
  ∃ s1, AbilityTransitionDone (Some r) 0 s = Returned (ERR_OK, s1) ∧
    last (cm_trace s1) = Some (SvTerminateAbility r) ∧ sound s1 ∧ serviceMap_ s1 !! k = Some r ∧
    ∃ v1, cm_services s1 !! r = Some v1 ∧ r_state (sv_record v1) = TERMINATING.
Proof.
  intros Hs HP Hk Hv Hst.
  assert (wp (AbilityTransitionDone (Some r) 0) (λ e s1, e = ERR_OK ∧
    last (cm_trace s1) = Some (SvTerminateAbility r) ∧ sound s1 ∧ serviceMap_ s1 !! k = Some r ∧
    ∃ v1, cm_services s1 !! r = Some v1 ∧ r_state (sv_record v1) = TERMINATING) s) as H.
  { unfold AbilityTransitionDone. apply wp_bind, wp_gets. cbv beta delta [id].
    rewrite (GetServiceRecordByToken_filed s k r Hk). cbn [Z.eqb].
    apply wp_bind. unfold report_state. eapply wp_the_service; [exact Hv|].
    eapply wp_mono; [apply emits_emit|]. intros [] s1 [t1 ->].
    unfold DispatchTerminate. apply wp_bind, wp_gets. eapply wp_the_service; [exact Hv|]. apply wp_bind.
    set (s1 := s <| cm_trace ::= _ |>) in *. assert (emits s s1) as M1 by by exists t1.
    apply (wp_mono _ (λ _ s2, emits s1 s2)).
    { destruct (cm_eventHandler s1); [apply emits_emit|by apply wp_ret]. }
    intros [] s2 M2. assert (emits s s2) as [t2 ->] by by transitivity s1. clear M2.
    unfold TerminateDone. apply wp_bind. eapply wp_the_service; [exact Hv|]. unfold IsAbilityState.
    rewrite bool_decide_eq_true_2 by done. cbn [negb]. apply wp_bind, wp_modify.
    set (s3 := _ <| cm_trace ::= _ |> <| cm_trace ::= _ |>).
    assert (calm s s3) as C by (constructor; try done; eauto).
    eapply wp_RemoveServiceAbility_misses; [by eapply calm_consistent|by eapply plain_calm|exact Hv|].
    intros s' E1 E2 E3 Hs'. apply wp_ret. split_and!; [done| |exact Hs'|by rewrite E3|exists v; by rewrite E1].
    rewrite E2. connects_cbn. apply last_snoc. }
  apply wp_returns in H as (e & s1 & E & -> & H). by exists s1.
Qed.

(** A start of a service that is there but not active. *)
Lemma wp_start_refused restartMax q r v s :
  sound s → serviceMap_ s !! service_key (rq_info (sq_request q)) = Some r → cm_services s !! r = Some v →
  r_state (sv_record v) ≠ ACTIVE →
  ∃ s', StartAbilityLocked restartMax q s = Returned (START_SERVICE_ABILITY_ACTIVING, s').
Proof.
  intros Hs Hk Hv Hst.
  assert (wp (StartAbilityLocked restartMax q) (λ e _, e = START_SERVICE_ABILITY_ACTIVING) s) as H.
  { unfold StartAbilityLocked. apply wp_bind. eapply wp_mono; [by apply wp_GetOrCreateServiceRecord|].
    intros [r1 isLoaded] s1 (A & Hk1 & _ & _ & _ & _ & _ & G). cbn [fst snd] in Hk1, G.
    destruct isLoaded; [|destruct G; congruence]. destruct G as (Hr1 & C & Hw).
    assert (r1 = r) as -> by congruence. specialize (Hw v Hv). set (v1 := v <| sv_record ::= _ |>) in Hw.
    assert (r_state (sv_record v1) = r_state (sv_record v)) as Hst1 by done.
    apply wp_bind. unfold AddCallerRecord. apply wp_bind, wp_gets.
    apply (wp_mono _ (λ _ s2, ∃ v2, cm_services s2 !! r = Some v2 ∧ r_state (sv_record v2) = r_state (sv_record v1))).
    - destruct (GetCallerByToken _ _); [|apply wp_ret; by exists v1].
      apply wp_modify. eexists. connects_cbn. split; [by rewrite lookup_alter_eq, Hw|done].
    - intros [] s2 (v2 & Hv2 & Hst2). eapply wp_the_service; [exact Hv2|]. cbn [negb]. cbv zeta.
      unfold IsAbilityState. rewrite bool_decide_eq_false_2 by congruence. by apply wp_ret. }
  apply wp_returns in H as (e & s' & E & ->). by exists s'.
Qed.

(** ** Connecting *)

(** What the manager asks for after filing a new connection: the service is
    loaded, asked to connect, or the connection is completed at once; a service
    that is neither new nor active is asked nothing. [v] is the service with the
    connection, [known] whether it was there. *)
Definition connect_request (known : bool) r v c x : list ServiceEffect :=
  if negb known then
    [SvPostTask (CtStartTimeout r LOAD_ABILITY_TIMEOUT) (Some (NmLoadTimeout (sv_recordId v)));
     SvLoadAbility r (c_callerToken x) (r_want (sv_record v))]
  else if IsAbilityState ACTIVE (sv_record v) then
    if decide (sv_connRecordList v = [c]) then
      SvPostTask (CtStartTimeout r CONNECTION_TIMEOUT) (Some (NmConnectTimeout (c_recordId x)))
      :: (if r_dealScheduler (sv_record v) then [SvScheduleConnect r (r_want (sv_record v))] else [])
    else [SvPostTask (CtCompleteConnect c) None]
  else [].

(** [s'] is [s] with a longer trace. *)
Definition emitted (t : list ServiceEffect) s s' : Prop := s' = s <| cm_trace ::= λ t0, t0 ++ t |>.

Lemma emitted_nil s : emitted [] s s.
Proof. destruct s. unfold emitted, update. cbn. by rewrite app_nil_r. Qed.
Lemma emitted_app t1 t2 s1 s2 s3 : emitted t1 s1 s2 → emitted t2 s2 s3 → emitted (t1 ++ t2) s1 s3.
Proof. intros -> ->. unfold emitted, update. cbn. by rewrite (assoc_L (++)). Qed.
Lemma wp_emitted e s : wp (emit e) (λ _ s', emitted [e] s s') s.
Proof. by apply wp_modify. Qed.

Lemma wp_deal r v call s :
  cm_services s !! r = Some v →
  wp (deal r call) (λ _ s', emitted (if r_dealScheduler (sv_record v) then [call v] else []) s s') s.
Proof.
  intros Hv. unfold deal. eapply wp_the_service; [exact Hv|].
  destruct (r_dealScheduler _); [apply wp_emitted|apply wp_ret, emitted_nil].
Qed.

Lemma wp_post_connect_timeout r v c x s :
  cm_services s !! r = Some v → cm_connections s !! c = Some x → GetConnectingRecord s v = Some c →
  cm_eventHandler s = true →
  wp (PostTimeOutTask r ACM_CONNECT_TIMEOUT_MSG) (λ _ s', emitted
    [SvPostTask (CtStartTimeout r CONNECTION_TIMEOUT) (Some (NmConnectTimeout (c_recordId x)))] s s') s.
Proof.
  intros Hv Hx Hc Hh. unfold PostTimeOutTask. apply wp_bind, wp_gets. rewrite Hh. cbn [negb].
  change (_ && _)%bool with false. cbv iota. eapply wp_the_service; [exact Hv|].
  change (ACM_CONNECT_TIMEOUT_MSG =? ACM_LOAD_TIMEOUT_MSG) with false. cbv iota.
  apply wp_bind, wp_gets. cbv beta delta [id]. rewrite Hc. eapply wp_the_connection; [exact Hx|]. apply wp_emitted.
Qed.

Lemma wp_load_new r v c x s :
  cm_services s !! r = Some v → cm_connections s !! c = Some x → GetConnectingRecord s v = Some c →
  cm_eventHandler s = true → sv_isCreateByConnect v = true → r_isLauncherRoot (sv_record v) = false →
  wp (LoadAbility r) (λ _ s', emitted
    [SvPostTask (CtStartTimeout r LOAD_ABILITY_TIMEOUT) (Some (NmLoadTimeout (sv_recordId v)));
     SvLoadAbility r (c_callerToken x) (r_want (sv_record v))] s s') s.
Proof.
  intros Hv Hx Hc Hh Hb Hroot. unfold LoadAbility. eapply wp_the_service; [exact Hv|].
  unfold CanRestartRootLauncher. rewrite Hroot. cbn [negb andb]. apply wp_bind.
  unfold PostTimeOutTask. apply wp_bind, wp_gets. rewrite Hh. cbn [negb].
  change (_ && _)%bool with false. cbv iota. eapply wp_the_service; [exact Hv|].
  change (ACM_LOAD_TIMEOUT_MSG =? ACM_LOAD_TIMEOUT_MSG) with true. cbv iota.
  eapply wp_mono; [apply wp_emitted|]. intros [] s1 E1. pose proof E1 as ->.
  apply wp_bind. unfold load_caller. eapply wp_the_service; [exact Hv|]. apply wp_bind, wp_gets. cbv beta delta [id].
  rewrite Hb. apply wp_bind. eapply wp_deref; [exact Hc|]. eapply wp_the_connection; [exact Hx|]. apply wp_ret.
  eapply wp_mono; [apply wp_emitted|]. intros [] s2 E2. exact (emitted_app [_] [_] _ _ _ E1 E2).
Qed.

(** The request finds the service [r] or makes it, and [v] is what it is then; no other
    service changes. *)
Definition wants q v : ServiceRecord := v <| sv_record ::= λ a, a <| r_want := rq_want (sq_request q) |> |>.
Definition found_service q s r v s' : Prop :=
  serviceMap_ s' = <[service_key (rq_info (sq_request q)) := r]> (serviceMap_ s) ∧
  cm_services s' = <[r := v]> (cm_services s) ∧ cm_held s' = cm_held s ∧
  match serviceMap_ s !! service_key (rq_info (sq_request q)) with
  | Some r0 => r0 = r ∧ ∃ v0, cm_services s !! r = Some v0 ∧ v <| sv_connRecordList := sv_connRecordList v0 |> = wants q v0
  | None => cm_services s !! r = None ∧ blank q true (v <| sv_connRecordList := [] |>)
  end.

(** The list of a service before. *)
Definition old_list s r (was : option RRef) : list CnRef :=
  match was with Some _ => default [] (sv_connRecordList <$> cm_services s !! r) | None => [] end.

(** The state a connect leaves: either nothing but the want of the service changed, or a
    new connection is filed and the request for it is made. *)
Definition connect_outcome q cb token s s' : Prop :=
  let l := GetConnectRecordListFromMap s cb in
  let was := serviceMap_ s !! service_key (rq_info (sq_request q)) in
  ∃ r v, found_service q s r v s' ∧ r_want (sv_record v) = rq_want (sq_request q) ∧ cm_eventHandler s' = cm_eventHandler s ∧
    let old := old_list s r was in
    if decide (was = Some r ∧ IsAbilityConnected s r l = true) then
      sv_connRecordList v = old ∧
      connectMap_ s' = connectMap_ s ∧ recipientMap_ s' = recipientMap_ s ∧ cm_connections s' = cm_connections s ∧ cm_trace s' = cm_trace s
    else ∃ c x w,
      cm_connections s !! c = None ∧ cm_connections s' = <[c := x]> (cm_connections s) ∧
      c_state x = CONNECTING ∧ c_targetService x = r ∧ c_connCallback x = Some cb ∧ c_callerToken x = token ∧
      connectMap_ s' = <[cb := l ++ [c]]> (connectMap_ s) ∧ recipientMap_ s' = {[cb]} ∪ recipientMap_ s ∧
      sv_connRecordList v = old ++ [c] ∧ Forall is_watch w ∧
      cm_trace s' = cm_trace s ++ w ++ connect_request (bool_decide (is_Some was)) r v c x
                    ++ [SvBehaviorAnalysis r token].

Lemma wp_found_service restartMax q s :
  sound s → wp (GetOrCreateServiceRecord restartMax q true) (λ a s', recipientMap_ s' = recipientMap_ s ∧ ∃ v, found_service q s a.1 v s') s.
Proof.
  intros Hs. unfold GetOrCreateServiceRecord, found_service. cbv zeta. apply wp_bind, wp_gets. cbv beta delta [id].
  set (k := service_key _). destruct (serviceMap_ s !! k) as [r|] eqn:Ek.
  - destruct (con_key _ _ Hs _ _ Ek) as (v & Hv & _). apply wp_bind, wp_modify, wp_ret. split; [done|]. exists (wants q v). cbn [fst].
    split_and!; [by connects_cbn; rewrite insert_id|connects_cbn; by apply alter_known|done|done|exists v; split; [done|by destruct v]].
  - pose proof (wp_new_service restartMax q true s) as H. cbv zeta in H.
    apply wp_returns in H as (r & s1 & E & -> & v & C & B).
    apply ST_bind_Returned in E as (r & s2 & E2 & E). apply ST_bind_Returned in E as ([] & s3 & E3 & E).
    apply ST_bind_Returned in E as ([] & s4 & E4 & [= E5 E6]). subst r s4.
    apply wp_bind, wp_returns. do 2 eexists. split; [exact E2|].
    apply wp_bind, wp_returns. do 2 eexists. split; [exact E3|].
    apply wp_bind, wp_returns. do 2 eexists. split; [exact E4|].
    apply wp_bind, wp_modify, wp_ret. destruct C as [C1 C2 C3 C4 C5 C6 C7 C8 C9]. split; [done|]. exists v. cbn [fst]. connects_cbn. unfold emplace.
    rewrite C3, Ek. split_and!; [done..|by apply (con_fresh _ _ Hs)|]. destruct B. by constructor.
Qed.

(** Which service, and that it lists the new connection. *)
Lemma filed_service s1 s2 r v1 x cb l rm :
  sound s1 → cm_services s1 !! r = Some v1 →
  filing s1 x (alter (AddConnectRecordToList (cm_next s1)) r (cm_services s1)) (<[cb := l]> (connectMap_ s1)) rm s2 →
  cm_services s2 !! r = Some (v1 <| sv_connRecordList := sv_connRecordList v1 ++ [cm_next s1] |>).
Proof.
  intros Hs Hv1 F. rewrite (fi_services _ _ _ _ _ _ F), lookup_alter_eq, Hv1. cbn. f_equal.
  unfold AddConnectRecordToList. rewrite decide_False; [done|]. intros Hin.
  destruct (con_listed _ _ Hs r v1 _ Hv1 Hin) as (Ht & _). unfold target_of in Ht.
  by rewrite (proj2 (con_fresh _ _ Hs (cm_next s1) ltac:(done))) in Ht.
Qed.

(** The request for a connection that has just been filed. *)
Lemma wp_connect_request (known : bool) r v c x s :
  cm_services s !! r = Some v → cm_connections s !! c = Some x → c_state x = CONNECTING →
  cm_eventHandler s = true → c ∈ sv_connRecordList v →
  (known = false → sv_isCreateByConnect v = true ∧ r_isLauncherRoot (sv_record v) = false ∧ sv_connRecordList v = [c]) →
  wp (if negb known then LoadAbility r
      else if IsAbilityState ACTIVE (sv_record v) then
        if decide (1 < length (sv_connRecordList v))%nat then
          handler ← gets cm_eventHandler;
          if handler : bool then emit (SvPostTask (CtCompleteConnect c) None) else mret tt
        else ConnectAbility r
      else mret tt) (λ _ s', emitted (connect_request known r v c x) s s') s.
Proof.
  intros Hv Hx Hst Hh Hin Hnew. unfold connect_request.
  assert (sv_connRecordList v = [c] → GetConnectingRecord s v = Some c) as Hfirst.
  { intros Hl. unfold GetConnectingRecord. rewrite Hl. cbn. unfold connection_in. rewrite Hx.
    by rewrite bool_decide_eq_true_2. }
  destruct known; cbn [negb].
  - destruct (IsAbilityState _ _); [|apply wp_ret, emitted_nil]. case_decide as Hlen.
    + rewrite decide_False by (intros E; rewrite E in Hlen; cbn in Hlen; lia).
      apply wp_bind, wp_gets. rewrite Hh. apply wp_emitted.
    + assert (sv_connRecordList v = [c]) as Hl.
      { destruct (sv_connRecordList v) as [|c0 [|]]; [by apply not_elem_of_nil in Hin| |cbn in Hlen; lia].
        by apply list_elem_of_singleton in Hin as ->. }
      rewrite decide_True by done. unfold ConnectAbility. apply wp_bind.
      eapply wp_mono; [apply (wp_post_connect_timeout r v c x); auto|]. intros [] s1 E1. pose proof E1 as ->.
      eapply wp_mono; [by apply wp_deal|]. intros [] s2 E2. exact (emitted_app [_] _ _ _ _ E1 E2).
  - destruct (Hnew eq_refl) as (Hb & Hroot & Hl). apply (wp_load_new r v c x); auto.
Qed.

Lemma found_list q s r v s' l : found_service q s r v s' →
  sv_connRecordList v = old_list s r (serviceMap_ s !! service_key (rq_info (sq_request q))) →
  found_service q s r (v <| sv_connRecordList := l |>) (s' <| cm_services := <[r := v <| sv_connRecordList := l |>]> (cm_services s') |>).
Proof.
  intros (H1 & H2 & H3 & H4) _. unfold found_service. connects_cbn. split_and!; [done|by rewrite H2, insert_insert_eq|done|].
  destruct (serviceMap_ s !! _); [|done]. destruct H4 as (-> & v0 & Hv0 & E). split; [done|]. by exists v0.
Qed.

Lemma wp_ConnectAbilityLocked restartMax q cb token s :
  sound s → cm_eventHandler s = true → ai_name (rq_info (sq_request q)) ≠ LAUNCHER_ABILITY_NAME →
  wp (ConnectAbilityLocked restartMax q cb token) (λ e s', e = ERR_OK ∧ connect_outcome q cb token s s') s.
Proof.
  intros Hs Hh Hname. unfold ConnectAbilityLocked. apply wp_bind.
  eapply wp_mono; [apply (wp_and _ _ _ _ (wp_GetOrCreateServiceRecord restartMax q true s Hs) (wp_found_service restartMax q s Hs))|].
  intros [r known] s1 [(A1 & [v1 Hv1] & Hmap & Hcm & Hcon & Htr & Hev & G) (Hrm & v1' & F0)]. cbn [fst snd] in Hv1, Hmap, G, F0.
  assert (v1' = v1) as -> by (destruct F0 as (_ & E & _); rewrite E, lookup_insert_eq in Hv1; congruence).
  apply wp_bind, wp_gets. cbv beta zeta delta [id].
  pose proof (advance_sound _ _ A1 Hs) as Hs1.
  assert (GetConnectRecordListFromMap s1 cb = GetConnectRecordListFromMap s cb) as El
    by (unfold GetConnectRecordListFromMap; by rewrite Hcm).
  assert (∀ l, IsAbilityConnected s1 r l = IsAbilityConnected s r l) as Ec
    by (intros l; unfold IsAbilityConnected, target_of; by rewrite Hcon).
  set (l := GetConnectRecordListFromMap s cb) in *. rewrite El, Ec.
  set (was := serviceMap_ s !! service_key (rq_info (sq_request q))).
  assert (was = if known then Some r else None) as Ewas by (destruct known; apply G).
  assert (known && match l with [] => false | _ => true end && IsAbilityConnected s r l
    = bool_decide (was = Some r ∧ IsAbilityConnected s r l = true)) as ->.
  { rewrite Ewas. destruct known, l; cbn [andb]; symmetry; [apply bool_decide_eq_false_2; cbn; naive_solver| |
      by apply bool_decide_eq_false_2; naive_solver..].
    destruct (IsAbilityConnected s r _); [by apply bool_decide_eq_true_2|apply bool_decide_eq_false_2; naive_solver]. }
  assert (r_want (sv_record v1) = rq_want (sq_request q) ∧ sv_connRecordList v1 = old_list s r was) as [Hw1 Hl1].
  { rewrite Ewas. destruct known; [|destruct G as (_ & v & Hv & B); assert (v1 = v) as -> by congruence; split; apply B].
    destruct G as (Hr & _ & Hw). destruct (service_at_known _ _ _ Hs Hr) as [v Hv]. specialize (Hw v Hv).
    rewrite Hv1 in Hw. injection Hw as ->. cbn. by rewrite Hv. }
  destruct (bool_decide _) eqn:Edec.
  - apply bool_decide_eq_true in Edec. apply wp_ret. split; [done|]. exists r, v1. fold was.
    split_and!; [exact F0|exact Hw1|exact Hev|]. rewrite decide_True by done. done.
  - apply bool_decide_eq_false in Edec. rewrite <- El.
    apply (wp_file_connection cb token r s1); [done|]. intros s2 F. set (c := cm_next s1) in *.
    set (x := mkConnection _ CONNECTING token r (Some cb)) in *.
    pose proof (filed_service _ _ _ _ _ _ _ _ Hs1 Hv1 F) as Hv2.
    set (v2 := v1 <| sv_connRecordList := _ |>) in Hv2.
    assert (cm_services s2 = <[r := v2]> (cm_services s1)) as Hsv.
    { apply map_eq. intros p. destruct (decide (p = r)) as [->|Hp]; [by rewrite Hv2, lookup_insert_eq|].
      by rewrite (fi_services _ _ _ _ _ _ F), lookup_alter_ne, lookup_insert_ne. }
    destruct F as [F1 F2 F3 F4 F5 F6 F7 F8 (w & F9 & Hw)].
    assert (cm_connections s2 !! c = Some x) as Hx by by rewrite F2, lookup_insert_eq.
    eapply wp_the_service; [exact Hv2|]. apply wp_bind. eapply wp_mono; [eapply (wp_connect_request known r v2 c x)|];
      [exact Hv2|exact Hx|done|congruence|apply elem_of_app; right; by apply list_elem_of_singleton| |].
    { intros ->. destruct G as (_ & v & Hv & B). assert (v1 = v) as -> by congruence.
      split_and!; [apply B|by apply B|]. change (sv_connRecordList v ++ [c] = [c]). by rewrite (bl_list _ _ _ B). }
    intros [] s3 E3. apply wp_bind. eapply wp_mono; [apply wp_emitted|]. intros [] s4 E4. apply wp_ret.
    pose proof (emitted_app _ _ _ _ _ E3 E4) as ->. split; [done|]. exists r, v2. fold was.
    assert (cm_trace s2 = cm_trace s ++ w) as Et by (rewrite F9; by rewrite Htr).
    split. { destruct (found_list q s r v1 s1 (sv_connRecordList v2) F0 Hl1) as (H1 & H2 & H3 & H4). unfold found_service.
      connects_cbn. split_and!; [rewrite F3; exact H1|rewrite Hsv; exact H2|rewrite F6; exact H3|exact H4]. }
    split; [exact Hw1|]. split; [rewrite <- Hev; exact F8|]. rewrite decide_False by done.
    exists c, x, w. split; [rewrite <- Hcon; by apply (con_fresh _ _ Hs1)|]. split; [rewrite <- Hcon; exact F2|].
    do 4 (split; [done|]). split; [fold l; rewrite <- El, <- Hcm; exact F4|]. split; [rewrite <- Hrm; exact F5|]. split.
    { change (sv_connRecordList v2) with (sv_connRecordList v1 ++ [c]). by rewrite Hl1. }
    split; [done|]. replace (bool_decide (is_Some was)) with known.
    2:{ rewrite Ewas. by destruct known. }
    change (cm_trace s2 ++ (connect_request known r v2 c x ++ [SvBehaviorAnalysis r token])
      = cm_trace s ++ w ++ connect_request known r v2 c x ++ [SvBehaviorAnalysis r token]).
    by rewrite Et, <- (assoc_L (++)).
Qed.
