(* ===== verification/ConnectSession.v ===== *)
(** The life of one connection: a service is loaded, created and connected, and
    its last client disconnects. *)

From S2P Require Import Prelude CppString Want CallContainer AbilityRecord ServiceRecord ConnectManager.
From S2P Require Import ConnectShape ConnectSafety ConnectRun ConnectFlow.
From Stdlib Require Import Ascii.

#[local] Open Scope stdpp_scope.
#[local] Open Scope Z_scope.

Implicit Types (s : Connects) (r : RRef) (c : CnRef) (cb : CbRef) (v : ServiceRecord) (x : ConnectionRecord).
Implicit Types (q : ServiceRequest) (judge : AbilityInfo → ErrCode).

#[local] Abbreviation sound := (consistent []).

(** Two records that differ in event ids and the like only. *)
Record kin v v' : Prop := {
  kin_shape : service_shape v' = service_shape v;
  kin_state : r_state (sv_record v') = r_state (sv_record v);
  kin_sched : r_dealScheduler (sv_record v') = r_dealScheduler (sv_record v);
  kin_remote : sv_connRemoteObject v' = sv_connRemoteObject v;
  kin_start : sv_startId v' = sv_startId v;
}.

#[export] Instance kin_preorder : PreOrder kin.
Proof. split; [by intros v; constructor|]. intros v1 v2 v3 [] []. constructor; congruence. Qed.

(** Service [r] becomes like [v], the other services and all tables stay. *)
Record near r v s s' : Prop := {
  near_service : ∃ v', cm_services s' !! r = Some v' ∧ kin v v';
  near_connections : cm_connections s' = cm_connections s;
  near_serviceMap : serviceMap_ s' = serviceMap_ s;
  near_connectMap : connectMap_ s' = connectMap_ s;
  near_handler : cm_eventHandler s' = cm_eventHandler s;
}.

Lemma near_refl r v s : cm_services s !! r = Some v → near r v s s.
Proof. intros. constructor; try done. by exists v. Qed.

(** Doing [m2] after [m1]; [f] is what [m2] does to the record. *)
Lemma near_trans r v s1 s2 s3 (f : ServiceRecord → ServiceRecord) :
  (∀ v v', kin v v' → kin (f v) (f v')) → near r v s1 s2 →
  (∀ v', cm_services s2 !! r = Some v' → kin v v' → near r (f v') s2 s3) → near r (f v) s1 s3.
Proof.
  intros Hf [(v' & Hv' & K) A B C D] H. destruct (H v' Hv' K) as [(v2 & Hv2 & K2) A2 B2 C2 D2].
  constructor; try congruence. exists v2. split; [done|]. etransitivity; [by apply Hf|done].
Qed.

Lemma wp_near_emit e r v s : cm_services s !! r = Some v → wp (emit e) (λ _ s', near r v s s') s.
Proof. intros Hv. apply wp_modify. constructor; try done. by exists v. Qed.

Lemma wp_near_upd r v f s :
  cm_services s !! r = Some v → wp (upd_service r f) (λ _ s', near r (f v) s s') s.
Proof.
  intros Hv. apply wp_modify. constructor; try done. exists (f v). connects_cbn.
  by rewrite lookup_alter_eq, Hv.
Qed.

Lemma wp_near_next_event r v s : cm_services s !! r = Some v → wp (next_event r) (λ _ s', near r v s s') s.
Proof.
  intros Hv. unfold next_event. apply wp_bind, wp_modify, wp_bind, wp_gets, wp_bind, wp_modify, wp_ret.
  constructor; try done. eexists. connects_cbn. rewrite lookup_alter_eq, Hv. split; [reflexivity|by constructor].
Qed.

(** Sequences of steps that only touch what [kin] ignores. *)
Lemma near_then r v s1 s2 s3 :
  near r v s1 s2 → (∀ v', cm_services s2 !! r = Some v' → kin v v' → near r v' s2 s3) → near r v s1 s3.
Proof. intros. by apply (near_trans r v s1 s2 s3 id). Qed.

Lemma wp_near_bind {A B} r v (m : ST Connects A) (k : A → ST Connects B) s :
  wp m (λ _ s', near r v s s') s →
  (∀ a s' v', cm_services s' !! r = Some v' → kin v v' → near r v s s' → wp (k a) (λ _ s'', near r v' s' s'') s') →
  wp (m ≫= k) (λ _ s', near r v s s') s.
Proof.
  intros Hm Hk. apply wp_bind. eapply wp_mono; [exact Hm|]. intros a s' N.
  destruct (near_service _ _ _ _ N) as (v' & Hv' & K). eapply wp_mono; [by apply (Hk a s' v')|].
  intros b s'' N'. eapply near_then; [exact N|]. intros v0 Hv0 _. congruence.
Qed.

Lemma wp_near_SendEvent msg r v s : cm_services s !! r = Some v → wp (SendEvent msg r) (λ _ s', near r v s s') s.
Proof.
  intros Hv. unfold SendEvent. eapply wp_the_service; [exact Hv|].
  destruct (is_debug _); [by apply wp_ret, near_refl|]. apply wp_bind, wp_gets.
  destruct (cm_serviceHandler s); [|by apply wp_ret, near_refl].
  apply wp_near_bind; [by apply wp_near_next_event|]. intros. by apply wp_near_emit.
Qed.

Lemma wp_near_deal r v call s : cm_services s !! r = Some v → wp (deal r call) (λ _ s', near r v s s') s.
Proof.
  intros Hv. eapply wp_mono; [by apply wp_deal|]. intros [] s' ->. constructor; try done. by exists v.
Qed.

Definition in_state (state : AbilityState) v : ServiceRecord := v <| sv_record ::= λ a, a <| r_state := state |> |>.

Lemma kin_ability (f : AbilityRecord → AbilityRecord) v v' :
  (∀ a a', r_info a' = r_info a → r_info (f a') = r_info (f a)) →
  (∀ a a', r_state a' = r_state a → r_state (f a') = r_state (f a)) →
  (∀ a a', r_dealScheduler a' = r_dealScheduler a → r_dealScheduler (f a') = r_dealScheduler (f a)) →
  kin v v' → kin (v <| sv_record ::= f |>) (v' <| sv_record ::= f |>).
Proof.
  intros H1 H2 H3 [E]. unfold service_shape in E. injection E as E1 E2 E3.
  constructor; unfold service_shape, update; cbn; try done; [|by apply H2|by apply H3].
  rewrite E2, E3. do 2 f_equal. by apply H1.
Qed.

Lemma kin_in_state state v v' : kin v v' → kin (in_state state v) (in_state state v').
Proof. by apply kin_ability. Qed.

(** ** The service attaches and is created *)

Lemma wp_near_Inactivate r v s :
  cm_services s !! r = Some v → wp (Inactivate r) (λ _ s', near r (in_state INACTIVATING v) s s') s.
Proof.
  intros Hv. unfold Inactivate. apply wp_bind. eapply wp_mono; [by apply wp_near_SendEvent|].
  intros [] s1 N1. destruct (near_service _ _ _ _ N1) as (v1 & Hv1 & K1). apply wp_bind.
  eapply wp_mono; [by apply (wp_near_upd r v1)|]. intros [] s2 N2.
  destruct (near_service _ _ _ _ N2) as (v2 & Hv2 & K2).
  eapply wp_mono; [by apply (wp_near_deal r v2)|]. intros [] s3 N3.
  eapply near_trans; [apply kin_in_state|exact N1|]. intros v' Hv' _. assert (v' = v1) as -> by congruence.
  eapply near_then; [exact N2|]. intros v0 Hv0 _. congruence.
Qed.

Definition attached v : ServiceRecord := in_state INACTIVATING (v <| sv_record ::= SetScheduler true |>).

Lemma wp_attach k r v s :
  serviceMap_ s !! k = Some r → cm_services s !! r = Some v →
  wp (AttachAbilityThreadLocked true (Some r)) (λ e s', e = ERR_OK ∧ near r (attached v) s s') s.
Proof.
  intros Hk Hv. unfold AttachAbilityThreadLocked. apply wp_bind, wp_gets. cbv beta delta [id].
  rewrite (GetServiceRecordByToken_filed s k r Hk). eapply wp_the_service; [exact Hv|].
  apply wp_bind, wp_gets. apply wp_bind. apply (wp_mono _ (λ _ s', near r v s s')).
  { destruct (cm_eventHandler s); [|by apply wp_ret, near_refl].
    apply wp_near_bind; [by apply wp_near_emit|]. intros. by apply wp_near_emit. }
  intros [] s1 N1. destruct (near_service _ _ _ _ N1) as (v1 & Hv1 & K1). apply wp_bind.
  eapply wp_mono; [by apply (wp_near_upd r v1)|]. intros [] s2 N2.
  destruct (near_service _ _ _ _ N2) as (v2 & Hv2 & K2). apply wp_bind.
  eapply wp_mono; [by apply (wp_near_Inactivate r v2)|]. intros [] s3 N3. apply wp_ret. split; [done|].
  unfold attached. eapply (near_trans r v s s1 s3 (λ v, in_state INACTIVATING (v <| sv_record ::= SetScheduler true |>))).
  - intros w w' K. apply kin_in_state. by apply kin_ability.
  - exact N1.
  - intros v' Hv' _. assert (v' = v1) as -> by congruence. apply (near_trans r _ s1 s2 s3 (in_state INACTIVATING));
      [apply kin_in_state|exact N2|]. intros v0 Hv0 _. congruence.
Qed.

Definition set_state (state : AbilityState) v : ServiceRecord := v <| sv_record ::= SetAbilityState state |>.

(** The service was made for a connection, so it is asked to connect. *)
Lemma wp_created k r v c x s :
  serviceMap_ s !! k = Some r → cm_services s !! r = Some v → cm_eventHandler s = true →
  r_state (sv_record v) = INACTIVATING → sv_isCreateByConnect v = true →
  sv_connRecordList v = [c] → cm_connections s !! c = Some x → c_state x = CONNECTING →
  wp (AbilityTransitionDone (Some r) 1) (λ e s', e = ERR_OK ∧ near r (set_state INACTIVE v) s s') s.
Proof.
  intros Hk Hv Hh Hst Hb Hl Hx Hcx. unfold AbilityTransitionDone. apply wp_bind, wp_gets. cbv beta delta [id].
  rewrite (GetServiceRecordByToken_filed s k r Hk). cbn [Z.eqb Pos.eqb].
  apply wp_bind. unfold report_state. eapply wp_the_service; [exact Hv|].
  eapply wp_mono; [apply wp_emitted|]. intros [] s1 ->. set (s1 := s <| cm_trace ::= _ |>).
  unfold DispatchInactive. apply wp_bind, wp_gets. change (cm_eventHandler s1) with (cm_eventHandler s). rewrite Hh.
  cbn [negb]. eapply wp_the_service; [exact Hv|]. unfold IsAbilityState. rewrite bool_decide_eq_true_2 by done.
  cbn [negb]. apply wp_bind. eapply wp_mono; [apply wp_emitted|]. intros [] s2 ->. set (s2 := s1 <| cm_trace ::= _ |>).
  apply wp_bind. eapply wp_mono; [apply (wp_near_upd r v); exact Hv|]. intros [] s3 N3.
  assert (near r (set_state INACTIVE v) s s3) as N by (destruct N3; by constructor). clear N3.
  destruct N as [(v3 & Hv3 & K3) A3 B3 C3 D3]. rewrite Hb. apply wp_bind. unfold ConnectAbility. apply wp_bind.
  pose proof (kin_shape _ _ K3) as E. unfold service_shape, set_state, update in E. cbn in E. injection E as _ El _.
  eapply wp_mono; [apply (wp_post_connect_timeout r v3 c x)|].
  - exact Hv3.
  - by rewrite A3.
  - unfold GetConnectingRecord. rewrite El, Hl. cbn. unfold connection_in. rewrite A3, Hx.
    by rewrite bool_decide_eq_true_2.
  - by rewrite D3.
  - intros [] s4 ->. set (s4 := s3 <| cm_trace ::= _ |>).
    eapply wp_mono; [apply (wp_near_deal r v3 _ s4 Hv3)|]. intros [] s5 [(v5 & Hv5 & K5) A5 B5 C5 D5].
    apply wp_ret. split; [done|]. constructor.
    + exists v5. split; [done|]. by transitivity v3.
    + by rewrite A5, <- A3.
    + by rewrite B5, <- B3.
    + by rewrite C5, <- C3.
    + by rewrite D5, <- D3.
Qed.

(** ** The service gives its remote object *)

Lemma wp_CompleteConnect_ok c x v s Q :
  cm_connections s !! c = Some x → cm_services s !! c_targetService x = Some v →
  Q tt (s <| cm_connections ::= alter (λ x, x <| c_state := CONNECTED |>) c |>
          <| cm_services ::= alter (set_state ACTIVE) (c_targetService x) |>
          <| cm_trace ::= λ t, t ++ match c_connCallback x with
               | Some cb => [OnAbilityConnectDone cb (record_element (sv_record v)) (sv_connRemoteObject v) ERR_OK]
               | None => [] end |>) →
  wp (CompleteConnect c ERR_OK) Q s.
Proof.
  intros Hx Hv HQ. unfold CompleteConnect. eapply wp_the_connection; [exact Hx|]. rewrite decide_True by done.
  apply wp_bind, wp_bind, wp_modify, wp_modify.
  eapply (wp_the_service _ (set_state ACTIVE v)).
  { connects_cbn. by rewrite lookup_alter_eq, Hv. }
  assert (record_element (sv_record (set_state ACTIVE v)) = record_element (sv_record v)) as ->.
  { unfold record_element. change (sv_record (set_state ACTIVE v)) with (SetAbilityState ACTIVE (sv_record v)).
    by rewrite info_SetAbilityState. }
  destruct (c_connCallback x) as [cb|]; [by apply wp_modify|]. apply wp_ret. revert HQ.
  unfold update. connects_cbn. by rewrite app_nil_r.
Qed.

Lemma wp_connect_done k r v c cb x remote s :
  serviceMap_ s !! k = Some r → cm_services s !! r = Some v →
  r_state (sv_record v) = INACTIVE ∨ r_state (sv_record v) = ACTIVE →
  sv_connRecordList v = [c] → cm_connections s !! c = Some x → c_state x = CONNECTING →
  c_targetService x = r → c_connCallback x = Some cb →
  wp (ScheduleConnectAbilityDoneLocked (Some r) remote) (λ e s', e = ERR_OK ∧
    (∃ v', cm_services s' !! r = Some v' ∧ r_state (sv_record v') = ACTIVE ∧ sv_connRecordList v' = [c] ∧
       sv_connRemoteObject v' = remote ∧ sv_startId v' = sv_startId v ∧
       r_info (sv_record v') = r_info (sv_record v) ∧ r_dealScheduler (sv_record v') = r_dealScheduler (sv_record v)) ∧
    cm_connections s' !! c = Some (x <| c_state := CONNECTED |>) ∧
    serviceMap_ s' = serviceMap_ s ∧ connectMap_ s' = connectMap_ s ∧ cm_eventHandler s' = cm_eventHandler s ∧
    last (cm_trace s') = Some (OnAbilityConnectDone cb (record_element (sv_record v)) remote ERR_OK)) s.
Proof.
  intros Hk Hv Hst Hl Hx Hcx Ht Hcb. unfold ScheduleConnectAbilityDoneLocked. apply wp_bind, wp_gets.
  cbv beta delta [id]. rewrite (GetServiceByToken_filed s k r Hk). eapply wp_the_service; [exact Hv|].
  assert (negb (IsAbilityState INACTIVE (sv_record v)) && negb (IsAbilityState ACTIVE (sv_record v)) = false) as ->.
  { unfold IsAbilityState. destruct Hst as [-> | ->]; by vm_compute. }
  apply wp_bind. unfold report_state. eapply wp_the_service; [exact Hv|].
  eapply wp_mono; [apply wp_emitted|]. intros [] s1 ->. set (s1 := s <| cm_trace ::= _ |>).
  apply wp_bind. set (v1 := v <| sv_connRemoteObject := remote |>).
  eapply wp_mono; [apply (wp_near_upd r v (λ v, v <| sv_connRemoteObject := remote |>) s1 Hv)|].
  intros [] s2 [(v2 & Hv2 & [E2 K2 S2 R2 I2]) A2 B2 C2 D2]. rewrite Hl. cbn [for_each].
  injection E2 as Ei El _. apply wp_bind, wp_bind. unfold ScheduleConnectAbilityDone.
  eapply (wp_the_connection c x); [by rewrite A2|]. rewrite bool_decide_eq_true_2 by done. cbn [negb].
  apply wp_bind, wp_gets, wp_bind. apply (wp_mono _ (λ _ s3, ∃ t, emitted t s2 s3)).
  { destruct (cm_serviceHandler s2); [eexists; apply wp_emitted|apply wp_ret; exists []; apply emitted_nil]. }
  intros [] s3 [t ->]. set (s3 := s2 <| cm_trace ::= _ |>).
  assert (cm_connections s3 !! c = Some x) as Hx3 by (change (cm_connections s3) with (cm_connections s2); by rewrite A2).
  apply (wp_CompleteConnect_ok c x v2); [done|by rewrite Ht|]. apply wp_ret, wp_ret. split; [done|]. rewrite Ht, Hcb. connects_cbn.
  split; [|split_and!].
  - exists (set_state ACTIVE v2). rewrite lookup_alter_eq. change (cm_services s3) with (cm_services s2). rewrite Hv2. split; [done|].
    change (sv_record (set_state ACTIVE v2)) with (SetAbilityState ACTIVE (sv_record v2)).
    rewrite state_SetAbilityState, info_SetAbilityState, sched_SetAbilityState, Ei, S2.
    split_and!; try done. change (sv_connRecordList (set_state ACTIVE v2)) with (sv_connRecordList v2). by rewrite El.
  - rewrite lookup_alter_eq. by rewrite Hx3.
  - exact B2.
  - exact C2.
  - exact D2.
  - rewrite last_snoc, R2. unfold record_element. by rewrite Ei.
Qed.

(** ** The last client disconnects *)

Lemma wp_disconnect_only judge cb c x r v s :
  connectMap_ s !! cb = Some [c] → cm_connections s !! c = Some x → c_state x = CONNECTED →
  c_targetService x = r → cm_services s !! r = Some v → sv_connRecordList v = [c] →
  r_dealScheduler (sv_record v) = true → judge (r_info (sv_record v)) = ERR_OK →
  wp (DisconnectAbilityLocked judge cb) (λ e s', e = ERR_OK ∧ cm_services s' = cm_services s ∧
    cm_connections s' = <[c := x <| c_state := DISCONNECTING |>]> (cm_connections s) ∧
    serviceMap_ s' = serviceMap_ s ∧ connectMap_ s' = connectMap_ s ∧ cm_eventHandler s' = cm_eventHandler s ∧
    SvScheduleDisconnect r (r_want (sv_record v)) ∈ cm_trace s') s.
Proof.
  intros Hcb Hx Hst Ht Hv Hl Hd Hj. unfold DisconnectAbilityLocked. apply wp_bind, wp_gets.
  cbv beta zeta delta [id]. unfold GetConnectRecordListFromMap. rewrite Hcb. cbn [default]. apply wp_bind.
  cbn [disconnect_all]. eapply wp_the_connection; [exact Hx|]. eapply wp_the_service; [by rewrite Ht|].
  rewrite decide_True by done. apply wp_bind. unfold DisconnectAbility. eapply wp_the_connection; [exact Hx|].
  rewrite bool_decide_eq_true_2 by done. cbn [negb]. apply wp_bind, wp_modify.
  set (s1 := s <| cm_connections ::= _ |>).
  assert (cm_connections s1 = <[c := x <| c_state := DISCONNECTING |>]> (cm_connections s)) as E1.
  { apply map_eq. intros i. unfold s1. connects_cbn. destruct (decide (c = i)) as [->|Hne];
      [by rewrite lookup_alter_eq, lookup_insert_eq, Hx|by rewrite lookup_alter_ne, lookup_insert_ne]. }
  eapply wp_the_service; [rewrite Ht; exact Hv|]. rewrite Hl, decide_True by done.
  apply wp_bind, wp_bind, wp_gets, wp_bind. apply (wp_mono _ (λ _ s2, ∃ t, emitted t s1 s2)).
  { destruct (cm_serviceHandler s1); [eexists; apply wp_emitted|apply wp_ret; exists []; apply emitted_nil]. }
  intros [] s2 [t ->]. rewrite Ht. eapply wp_mono; [apply (wp_deal r v); exact Hv|]. rewrite Hd.
  intros [] s3 ->. apply wp_ret. rewrite decide_True by done. apply wp_ret. rewrite decide_True by done.
  apply wp_bind, wp_gets, wp_bind. set (s3 := _ <| cm_trace ::= _ |> <| cm_trace ::= _ |>).
  apply (wp_mono _ (λ _ s4, ∃ t, emitted t s3 s4)).
  { destruct (cm_eventHandler s3); [eexists; apply wp_emitted|apply wp_ret; exists []; apply emitted_nil]. }
  intros [] s4 [t4 ->]. apply wp_ret. split; [done|]. split; [done|]. split; [exact E1|]. do 3 (split; [done|]).
  unfold s3. connects_cbn. set_solver.
Qed.

Lemma unlist_only c v : sv_connRecordList v = [c] → sv_connRecordList (RemoveConnectRecordFromList c v) = [].
Proof.
  intros Hl. change (list_remove_all c (sv_connRecordList v) = []). rewrite Hl.
  unfold list_remove_all. by rewrite filter_cons_False by tauto.
Qed.

Lemma wp_Terminate r v t s :
  cm_services s !! r = Some v → wp (Terminate r t) (λ _ s', near r (in_state TERMINATING v) s s' ∧
    recipientMap_ s' = recipientMap_ s ∧ ∃ t, cm_trace s' = cm_trace s ++ t) s.
Proof.
  intros Hv. unfold Terminate. apply wp_bind, wp_gets. eapply wp_the_service; [exact Hv|]. apply wp_bind.
  apply (wp_mono _ (λ _ s1, near r v s s1 ∧ recipientMap_ s1 = recipientMap_ s ∧ ∃ t, cm_trace s1 = cm_trace s ++ t)).
  { destruct (_ && _); [|apply wp_ret; split; [by apply near_refl|split; [done|]]; exists []; by rewrite app_nil_r].
    unfold next_event. apply wp_bind, wp_bind, wp_modify, wp_bind, wp_gets, wp_bind, wp_modify, wp_ret, wp_modify.
    split; [|split; [done|by eexists]]. constructor; try done. eexists. connects_cbn.
    rewrite lookup_alter_eq, Hv. split; [reflexivity|by constructor]. }
  intros [] s1 (N1 & R1 & t1 & T1). destruct (near_service _ _ _ _ N1) as (v1 & Hv1 & K1). apply wp_bind.
  eapply wp_mono; [apply (wp_and _ _ (λ _ s2, recipientMap_ s2 = recipientMap_ s1 ∧ cm_trace s2 = cm_trace s1) _
    (wp_near_upd r v1 (in_state TERMINATING) s1 Hv1)); by apply wp_modify|].
  intros [] s2 (N2 & R2 & T2). destruct (near_service _ _ _ _ N2) as (v2 & Hv2 & K2).
  eapply wp_mono; [by apply (wp_deal r v2)|]. intros [] s3 ->. split; [|split].
  - eapply near_trans; [apply kin_in_state|exact N1|]. intros v' Hv' _. assert (v' = v1) as -> by congruence.
    eapply near_then; [exact N2|]. intros v0 Hv0 _. assert (v0 = v2) as -> by congruence.
    constructor; try done. by exists v2.
  - change (recipientMap_ s2 = recipientMap_ s). congruence.
  - exists (t1 ++ (if r_dealScheduler (sv_record v2) then [SvTransaction r INITIAL (r_want (sv_record v2))] else [])).
    connects_cbn. by rewrite T2, T1, <- (assoc_L (++)).
Qed.

(** What is left after the last disconnection: no connection, and a service that
    was never started terminates. *)
Lemma wp_disconnect_done k r v c cb x s :
  sound s → serviceMap_ s !! k = Some r → cm_services s !! r = Some v → r_state (sv_record v) = ACTIVE →
  sv_connRecordList v = [c] → sv_startId v = 0 → cm_connections s !! c = Some x → c_state x = DISCONNECTING →
  c_targetService x = r → c_connCallback x = Some cb → connectMap_ s !! cb = Some [c] →
  wp (ScheduleDisconnectAbilityDoneLocked (Some r)) (λ e s', e = ERR_OK ∧
    (∃ v', cm_services s' !! r = Some v' ∧ r_state (sv_record v') = TERMINATING ∧ sv_connRecordList v' = []) ∧
    connectMap_ s' = delete cb (connectMap_ s) ∧
    OnAbilityDisconnectDone cb (record_element (sv_record v)) 0 ∈ cm_trace s') s.
Proof.
  intros Hs Hk Hv Hst Hl Hid Hx Hcx Ht Hcb Hm. unfold ScheduleDisconnectAbilityDoneLocked.
  apply wp_bind, wp_gets. cbv beta delta [id]. rewrite (GetServiceRecordByToken_filed s k r Hk).
  eapply wp_the_service; [exact Hv|].
  assert (GetDisconnectingRecord s v = Some c) as ->.
  { unfold GetDisconnectingRecord. rewrite Hl. cbn. unfold connection_in. rewrite Hx. by rewrite bool_decide_eq_true_2. }
  unfold IsAbilityState. rewrite bool_decide_eq_true_2 by done. cbn [negb].
  apply wp_bind. unfold report_state. eapply wp_the_service; [exact Hv|].
  eapply wp_mono; [apply wp_emitted|]. intros [] s1 ->. set (s1 := s <| cm_trace ::= _ |>).
  apply wp_bind. unfold ScheduleDisconnectAbilityDone. eapply (wp_the_connection c x); [exact Hx|].
  rewrite bool_decide_eq_true_2 by done. cbn [negb]. apply wp_bind, wp_gets, wp_bind.
  apply (wp_mono _ (λ _ s2, ∃ t, emitted t s1 s2)).
  { destruct (cm_serviceHandler s1); [eexists; apply wp_emitted|apply wp_ret; exists []; apply emitted_nil]. }
  intros [] s2 [t ->]. set (s2 := s1 <| cm_trace ::= _ |>).
  apply (wp_CompleteDisconnect c x v); [exact Hx|rewrite Ht; exact Hv|]. unfold told. rewrite Hcb.
  set (s3 := s2 <| cm_connections ::= _ |> <| cm_trace := _ |>).
  apply wp_bind. eapply wp_mono; [apply (wp_and _ _ (λ _ s4, recipientMap_ s4 = recipientMap_ s ∧ cm_trace s4 = cm_trace s3) _
    (wp_near_upd r v (RemoveConnectRecordFromList c) s3 Hv)); by apply wp_modify|].
  intros [] s4 (N4 & R4 & T4). destruct N4 as [(v4 & Hv4 & K4) A4 B4 C4 D4].
  pose proof (kin_shape _ _ K4) as E4. unfold service_shape in E4. injection E4 as _ El4 _.
  assert (sv_connRecordList v4 = []) as El by (rewrite El4; by apply unlist_only). clear El4. rename El into El4.
  eapply wp_the_service; [exact Hv4|].
  assert (IsConnectListEmpty v4 && (sv_startId v4 =? 0) = true) as ->.
  { unfold IsConnectListEmpty. rewrite El4, (kin_start _ _ K4). change (sv_startId (RemoveConnectRecordFromList c v)) with (sv_startId v).
    by rewrite Hid. }
  apply wp_bind. eapply wp_mono; [by apply (wp_Terminate r v4)|].
  intros [] s5 ([(v5 & Hv5 & [E5 S5 _ _ _]) A5 B5 C5 D5] & R5 & t5 & T5). unfold service_shape, in_state, update in E5. cbn in E5.
  injection E5 as _ El5 _. apply wp_bind. apply (wp_RemoveConnectionRecordFromMap_only c cb).
  - unfold connect_list. rewrite C5, C4. apply (find_entry_filed s c cb [c] Hs Hm), list_elem_of_here.
  - rewrite R5, R4, (con_recipients _ _ Hs). by eapply elem_of_dom_2.
  - intros s' F1 F2 F3 F4 F5 F6. apply wp_ret. split; [done|]. split; [|split].
    + exists v5. rewrite F1. split_and!; [done|exact S5|by rewrite El5].
    + by rewrite F3, C5, C4.
    + rewrite F6, T5, T4. unfold s3. connects_cbn. set_solver.
Qed.
