(* ===== verification/ConnectClaims.v ===== *)
(** What the connect manager guarantees, and where it does not do what it means
    to. *)

From S2P Require Import Prelude CppString Want CallContainer AbilityRecord ServiceRecord ConnectManager.
From S2P Require Import ConnectShape ConnectSafety ConnectRun ConnectFlow ConnectSession.
From Stdlib Require Import Ascii.

#[local] Open Scope stdpp_scope.
#[local] Open Scope Z_scope.

Implicit Types (s : Connects) (r : RRef) (c : CnRef) (cb : CbRef) (v : ServiceRecord) (x : ConnectionRecord).
Implicit Types (q : ServiceRequest) (judge : AbilityInfo → ErrCode).

#[local] Abbreviation sound := (consistent []).

(** ** Helpers *)

Lemma keeps_returns {A} (R : relation Connects) (m : ST Connects A) s :
  keeps R m s → ∃ a s', m s = Returned (a, s') ∧ R s s'.
Proof. apply wp_returns. Qed.

(** ** The invariant *)

(** C6: In every state that the handlers reach, the tables of the connect
    manager agree: a service is filed under the URI of its element; a live
    connection is in the list of its service and in exactly one entry of the
    connect map, that of its callback; no list has duplicates, no entry is empty,
    and exactly the callbacks with an entry are watched for their death. From
    such a state every handler returns on every event: in particular
    [LoadAbility] always finds the connecting record it dereferences. *)
Theorem connect_tables_agree restartMax userId handler s :
  connect_reachable restartMax userId handler s →
  consistent [] s ∧
  ∀ e, connect_event_ok s e → ∃ s', run_connect restartMax e s = Returned (tt, s').
Proof.
  intros H. apply sound_reachable in H as Hs. split; [done|]. intros e He.
  destruct (keeps_returns _ _ _ (keeps_run_connect restartMax e s Hs He)) as ([] & s' & E & _). by exists s'.
Qed.

Lemma connect_tables_agree_witness :
  connect_reachable 3 100 true s_two ∧ consistent [] s_two ∧
  ∃ s', run_connect 3 (CvDisconnectAbility all_visible 5) s_two = Returned (tt, s').
Proof.
  split; [exact s_two_reachable|]. destruct (connect_tables_agree 3 100 true s_two s_two_reachable) as [Hc Hr].
  split; [exact Hc|]. apply Hr. exact Logic.I.
Defined.

(** ** Two clients leave at once *)

(** When the two clients of a service disconnect before the tasks that end
    their disconnections have run (as happens when both live in a process that
    dies), the second connection is never ended: its state is DISCONNECTED, it
    stays in the list of its service and in the connect map, the service is not
    told to disconnect and is not terminated, and the client can neither
    disconnect nor, being "connected", connect again. *)
Theorem two_disconnects_leak judge cba cbb a b xa xb r v s :
  sound s → cm_eventHandler s = true →
  connectMap_ s !! cba = Some [a] → connectMap_ s !! cbb = Some [b] → cba ≠ cbb →
  cm_connections s !! a = Some xa → cm_connections s !! b = Some xb →
  c_state xa = CONNECTED → c_state xb = CONNECTED → c_targetService xa = r → c_targetService xb = r →
  cm_services s !! r = Some v → sv_connRecordList v = [a; b] → judge (r_info (sv_record v)) = ERR_OK →
  ∃ s1 s2 s3,
    DisconnectAbilityLocked judge cba s = Returned (ERR_OK, s1) ∧
    DisconnectAbilityLocked judge cbb s1 = Returned (ERR_OK, s2) ∧
    HandleDisconnectTask [a] s2 = Returned (tt, s3) ∧
    HandleDisconnectTask [b] s3 = Returned (tt, s3) ∧
    cm_trace s3 = cm_trace s ++ [SvPostTask (CtDisconnect [a]) None; SvPostTask (CtDisconnect [b]) None]
                  ++ told xa v 0 ++ [SvRemoveDeathRecipient cba] ∧
    connectMap_ s3 !! cbb = Some [b] ∧
    (∃ x3, cm_connections s3 !! b = Some x3 ∧ c_state x3 = DISCONNECTED) ∧
    (∃ v3, cm_services s3 !! r = Some v3 ∧ sv_connRecordList v3 = [b]) ∧
    DisconnectAbilityLocked judge cbb s3 = Returned (INVALID_CONNECTION_STATE, s3).
Proof.
  intros Hs Hh Hca Hcb Hne Ha Hb Hsa Hsb Hta Htb Hv Hl Hj.
  assert (a ≠ b) as Hab.
  { pose proof (con_list_nodup _ _ Hs r v Hv) as HN. rewrite Hl in HN. apply NoDup_cons in HN as [HN _].
    intros ->. by apply HN, list_elem_of_here. }
  pose proof (DisconnectAbilityLocked_shared judge cba a xa v s Hca Ha Hsa ltac:(by rewrite Hta) ltac:(by rewrite Hl)
    Hj Hh) as E1. set (s1 := leaving a xa s) in *.
  assert (cm_connections s1 !! b = Some xb) as Hb1 by (unfold s1, leaving; connects_cbn; by rewrite lookup_insert_ne).
  pose proof (DisconnectAbilityLocked_shared judge cbb b xb v s1 Hcb Hb1 Hsb ltac:(by rewrite Htb) ltac:(by rewrite Hl)
    Hj Hh) as E2. set (s2 := leaving b xb s1) in *.
  assert (sound s2) as Hs2.
  { assert (∀ cb0 s0 s0', sound s0 → DisconnectAbilityLocked judge cb0 s0 = Returned (ERR_OK, s0') → sound s0') as Hk.
    { intros cb0 s0 s0' H0 E. pose proof (calm_DisconnectAbilityLocked judge cb0 s0 H0) as C. unfold keeps, wp in C.
      rewrite E in C. by eapply calm_consistent. }
    eapply Hk; [|exact E2]. by eapply Hk; [|exact E1]. }
  set (xa' := xa <| c_state := DISCONNECTED |>). set (xb' := xb <| c_state := DISCONNECTED |>).
  assert (cm_connections s2 !! a = Some xa') as Ha2.
  { unfold s2, s1, leaving. connects_cbn. by rewrite lookup_insert_ne, lookup_insert_eq. }
  assert (cm_connections s2 !! b = Some xb') as Hb2.
  { unfold s2, leaving. connects_cbn. by rewrite lookup_insert_eq. }
  assert (wp (HandleDisconnectTask [a]) (λ _ s3, cm_services s3 = alter (RemoveConnectRecordFromList a) r (cm_services s) ∧
    cm_connections s3 !! b = Some xb' ∧ connectMap_ s3 = delete cba (connectMap_ s) ∧
    cm_trace s3 = cm_trace s2 ++ told xa' v 0 ++ [SvRemoveDeathRecipient cba]) s2) as H3.
  { eapply (wp_HandleDisconnectTask_more a cba xa' v s2); try done.
    - change (c_targetService xa') with (c_targetService xa). by rewrite Hta.
    - rewrite Hl. cbn. lia.
    - intros s' S1 S2 S3 S4 S5 S6. rewrite S1, S2, S3, lookup_alter_ne by done.
      change (c_targetService xa') with (c_targetService xa). by rewrite Hta. }
  apply wp_run in H3 as ([] & s3 & E3 & S1 & S2 & S3 & S4).
  set (v3 := RemoveConnectRecordFromList a v).
  assert (cm_services s3 !! r = Some v3) as Hv3 by by rewrite S1, lookup_alter_eq, Hv.
  assert (sv_connRecordList v3 = [b]) as Hl3.
  { change (list_remove_all a (sv_connRecordList v) = [b]). rewrite Hl. unfold list_remove_all.
    rewrite filter_cons_False, filter_cons_True by auto. done. }
  assert (connectMap_ s3 !! cbb = Some [b]) as Hcb3 by by rewrite S3, lookup_delete_ne.
  exists s1, s2, s3. split_and!; [exact E1|exact E2|exact E3| | |exact Hcb3|by exists xb'|by exists v3|].
  - apply (HandleDisconnectTask_last b xb' v3); [done| |by rewrite Hl3].
    change (c_targetService xb') with (c_targetService xb). by rewrite Htb.
  - rewrite S4. unfold s2, s1, leaving. connects_cbn. by rewrite <- !(assoc_L (++)).
  - assert (wp (DisconnectAbilityLocked judge cbb) (λ e s', e = INVALID_CONNECTION_STATE ∧ s' = s3) s3) as H.
    { unfold DisconnectAbilityLocked. apply wp_bind, wp_gets. cbv beta zeta delta [id].
      unfold GetConnectRecordListFromMap. rewrite Hcb3. cbn [default]. apply wp_bind. cbn [disconnect_all].
      eapply wp_the_connection; [exact S2|]. eapply wp_the_service.
      { change (c_targetService xb') with (c_targetService xb). rewrite Htb. exact Hv3. }
      rewrite decide_True by done. apply wp_bind. unfold DisconnectAbility. eapply wp_the_connection; [exact S2|].
      by do 3 apply wp_ret. }
    apply wp_run in H as (e & s' & E & -> & ->). exact E.
Qed.

Lemma two_disconnects_leak_witness :
  ∃ s1 s2 s3,
    DisconnectAbilityLocked all_visible 5 s_two = Returned (ERR_OK, s1) ∧
    DisconnectAbilityLocked all_visible 6 s1 = Returned (ERR_OK, s2) ∧
    HandleDisconnectTask [2%positive] s2 = Returned (tt, s3) ∧
    DisconnectAbilityLocked all_visible 6 s3 = Returned (INVALID_CONNECTION_STATE, s3).
Proof.
  destruct (lookup_is_some (cm_connections s_two !! 2%positive)) as [xa Ha]; [vm_compute; reflexivity|].
  destruct (lookup_is_some (cm_connections s_two !! 3%positive)) as [xb Hb]; [vm_compute; reflexivity|].
  destruct (lookup_is_some (cm_services s_two !! 1%positive)) as [v Hv]; [vm_compute; reflexivity|].
  destruct (two_disconnects_leak all_visible 5 6 2 3 xa xb 1 v s_two) as (s1 & s2 & s3 & H1 & H2 & H3 & _ & _ & _ & _ & _ & H4).
  - exact (sound_reachable _ _ _ _ s_two_reachable).
  - vm_compute; reflexivity.
  - vm_compute; reflexivity.
  - vm_compute; reflexivity.
  - discriminate.
  - exact Ha.
  - exact Hb.
  - apply (lookup_field c_state _ _ _ Ha). vm_compute. reflexivity.
  - apply (lookup_field c_state _ _ _ Hb). vm_compute. reflexivity.
  - apply (lookup_field c_targetService _ _ _ Ha). vm_compute. reflexivity.
  - apply (lookup_field c_targetService _ _ _ Hb). vm_compute. reflexivity.
  - exact Hv.
  - apply (lookup_field sv_connRecordList _ _ _ Hv). vm_compute. reflexivity.
  - reflexivity.
  - exists s1, s2, s3. exact (conj H1 (conj H2 (conj H3 H4))).
Defined.

(** ** Services are never forgotten *)

(** While no device, bundle or ability name has a slash, a service that is
    once in the service map is never taken out of it: [RemoveServiceAbility] looks
    for it under a key without its module name. So a service that has terminated,
    and that the application manager is told to destroy, is still found in state
    TERMINATING by the next start of the same ability, which is refused with
    START_SERVICE_ABILITY_ACTIVING instead of loading a new one. *)
Theorem services_never_removed restartMax userId handler s s' :
  connect_reachable restartMax userId handler s → rtc (connect_step restartMax) s s' → plain s' →
  serviceMap_ s ⊆ serviceMap_ s' ∧
  ∀ q r v, serviceMap_ s !! service_key (rq_info (sq_request q)) = Some r →
    cm_services s' !! r = Some v → r_state (sv_record v) = TERMINATING →
    ∃ s1 s2, AbilityTransitionDone (Some r) 0 s' = Returned (ERR_OK, s1) ∧
      last (cm_trace s1) = Some (SvTerminateAbility r) ∧
      StartAbilityLocked restartMax q s1 = Returned (START_SERVICE_ABILITY_ACTIVING, s2).
Proof.
  intros Hr Hst HP. apply sound_reachable in Hr as Hs. pose proof (advance_steps _ _ _ Hst Hs) as A.
  assert (sound s') as Hs' by by apply (adv_ok _ _ A).
  assert (serviceMap_ s ⊆ serviceMap_ s') as Hsub by (apply (grow_map _ _ (adv_grows _ _ A)), HP).
  split; [done|]. intros q r v Hk Hv Hterm. apply (lookup_weaken _ _ _ _ Hk) in Hsub as Hk'.
  destruct (wp_terminated_report s' (service_key (rq_info (sq_request q))) r v Hs' HP Hk' Hv Hterm)
    as (s1 & E1 & Hlast & Hs1 & Hk1 & v1 & Hv1 & Hst1).
  destruct (wp_start_refused restartMax q r v1 s1 Hs1 Hk1 Hv1) as (s2 & E2); [by rewrite Hst1|].
  exists s1, s2. done.
Qed.

Lemma services_never_removed_witness :
  ∃ s1 s2, AbilityTransitionDone (Some 1%positive) 0 s_ended = Returned (ERR_OK, s1) ∧
    StartAbilityLocked 3 demo_request s1 = Returned (START_SERVICE_ABILITY_ACTIVING, s2).
Proof.
  destruct (lookup_is_some (cm_services s_ended !! 1%positive)) as [v Hv]; [vm_compute; reflexivity|].
  destruct (services_never_removed 3 100 true s_ended s_ended s_ended_reachable (rtc_refl _ _)) as [_ H].
  { apply plain_decided. vm_compute. reflexivity. }
  destruct (H demo_request 1%positive v) as (s1 & s2 & E1 & _ & E2).
  - vm_compute. reflexivity.
  - exact Hv.
  - apply (lookup_field (λ v, r_state (sv_record v)) _ _ _ Hv). vm_compute. reflexivity.
  - exists s1, s2. exact (conj E1 E2).
Defined.

(** ** Connecting and disconnecting *)

(** C34: a connect to a service that is not the root launcher, while the manager has an
    event handler, answers ERR_OK, and no service but the one of the request changes.
    That one is found under its key, and gets the want of the request, or it is made and
    put there, in state INITIAL. When the callback is connected to the service already,
    nothing else changes. Otherwise one new connection in state CONNECTING, of this
    callback, caller and service, is put at the end of the service's list and of the
    callback's entry, the callback is watched, and what follows is [connect_request] and
    nothing more: a service that was not there is loaded, an active service without other
    connections is asked to connect, for one with others a task that completes the
    connection is posted, and a service that is still being started is asked nothing. *)
Theorem ConnectAbility_spec restartMax userId q cb token s :
  connect_reachable restartMax userId true s → cm_eventHandler s = true →
  ai_name (rq_info (sq_request q)) ≠ LAUNCHER_ABILITY_NAME →
  ∃ s', ConnectAbilityLocked restartMax q cb token s = Returned (ERR_OK, s') ∧ connect_outcome q cb token s s'.
Proof.
  intros Hr Hh Hn. apply sound_reachable in Hr as Hs.
  destruct (wp_run _ _ _ (wp_ConnectAbilityLocked restartMax q cb token s Hs Hh Hn)) as (e & s' & E & -> & H).
  by exists s'.
Qed.

Lemma ConnectAbility_spec_witness :
  ∃ s', ConnectAbilityLocked 3 demo_request 9 None s_one = Returned (ERR_OK, s') ∧
    connect_outcome demo_request 9 None s_one s'.
Proof.
  apply (ConnectAbility_spec 3 100 demo_request 9 None s_one).
  - exact s_one_reachable.
  - vm_compute. reflexivity.
  - discriminate.
Defined.

(** C35: a client that connects to a service of which the manager has no record (a
    service that has ended may keep its record, [services_never_removed]; the root
    launcher is left out, and there is an event handler) gets its remote object: the
    connect loads the service, the attach of its thread asks it to be created, the report
    of that asks it to connect, and when it hands over its remote object the callback is
    called with it and ERR_OK, the connection is CONNECTED and the service ACTIVE. *)
Theorem connect_session restartMax q cb token remote s :
  sound s → cm_eventHandler s = true → ai_name (rq_info (sq_request q)) ≠ LAUNCHER_ABILITY_NAME →
  serviceMap_ s !! service_key (rq_info (sq_request q)) = None →
  ∃ r c s1 s2 s3 s4,
    ConnectAbilityLocked restartMax q cb token s = Returned (ERR_OK, s1) ∧
    (∃ w, SvLoadAbility r token w ∈ cm_trace s1) ∧
    AttachAbilityThreadLocked true (Some r) s1 = Returned (ERR_OK, s2) ∧
    AbilityTransitionDone (Some r) 1 s2 = Returned (ERR_OK, s3) ∧
    ScheduleConnectAbilityDoneLocked (Some r) remote s3 = Returned (ERR_OK, s4) ∧
    serviceMap_ s4 !! service_key (rq_info (sq_request q)) = Some r ∧
    (∃ x, cm_connections s4 !! c = Some x ∧ c_state x = CONNECTED ∧ c_connCallback x = Some cb) ∧
    (∃ v, cm_services s4 !! r = Some v ∧ r_state (sv_record v) = ACTIVE ∧ sv_connRecordList v = [c]) ∧
    last (cm_trace s4) = Some (OnAbilityConnectDone cb
      (mkElement (ai_deviceId (rq_info (sq_request q))) (ai_bundleName (rq_info (sq_request q)))
                 (ai_name (rq_info (sq_request q))) (ai_moduleName (rq_info (sq_request q)))) remote ERR_OK).
Proof.
  intros Hs Hh Hn Hk.
  destruct (wp_run _ _ _ (wp_ConnectAbilityLocked restartMax q cb token s Hs Hh Hn)) as (e & s1 & E1 & -> & H).
  unfold connect_outcome in H. rewrite Hk in H. destruct H as (r & v1 & (Hm1 & Hv1 & _ & Hb) & _ & Hh1 & H). rewrite Hk in Hb. destruct Hb as [_ Hb].
  assert (serviceMap_ s1 !! service_key (rq_info (sq_request q)) = Some r) as Hm1' by by rewrite Hm1, lookup_insert_eq.
  clear Hm1. rename Hm1' into Hm1. assert (cm_services s1 !! r = Some v1) as Hv1' by by rewrite Hv1, lookup_insert_eq.
  clear Hv1. rename Hv1' into Hv1.
  rewrite decide_False in H by naive_solver.
  destruct H as (c & x & w & _ & Hcn & Hst & Htg & Hcb & Htok & _ & _ & Hl1 & _ & Htr).
  destruct Hb as [B1 _ B3 B4 _ _ _]. change (sv_isCreateByConnect v1 = true) in B1.
  change (r_state (sv_record v1) = INITIAL) in B3. change (r_info (sv_record v1) = rq_info (sq_request q)) in B4.
  unfold old_list in Hl1. cbn [app] in Hl1.
  destruct (wp_run _ _ _ (wp_attach _ r v1 s1 Hm1 Hv1)) as (e & s2 & E2 & -> & [(v2 & Hv2 & [K2 S2 D2 R2 I2]) A2 B2 C2 H2]).
  unfold service_shape in K2. injection K2 as K2i K2l K2b.
  change (sv_connRecordList (attached v1)) with (sv_connRecordList v1) in K2l.
  change (sv_isCreateByConnect (attached v1)) with (sv_isCreateByConnect v1) in K2b.
  change (r_info (sv_record (attached v1))) with (r_info (sv_record v1)) in K2i.
  change (r_state (sv_record (attached v1))) with INACTIVATING in S2.
  assert (cm_connections s2 !! c = Some x) as Hx2 by by rewrite A2, Hcn, lookup_insert_eq.
  destruct (wp_run _ _ _ (wp_created (service_key (rq_info (sq_request q))) r v2 c x s2 ltac:(by rewrite B2) Hv2
    ltac:(congruence) S2 ltac:(congruence) ltac:(congruence) Hx2 Hst))
    as (e & s3 & E3 & -> & [(v3 & Hv3 & [K3 S3 D3 R3 I3]) A3 B5 C3 H3]).
  unfold service_shape in K3. injection K3 as K3i K3l K3b.
  assert (r_state (sv_record v3) = INACTIVE) as S3j by (rewrite S3; apply state_SetAbilityState).
  destruct (wp_run _ _ _ (wp_connect_done (service_key (rq_info (sq_request q))) r v3 c cb x remote s3
    ltac:(by rewrite B5, B2) Hv3 ltac:(by left) ltac:(congruence) ltac:(by rewrite A3) Hst Htg Hcb))
    as (e & s4 & E4 & -> & (v4 & Hv4 & S4 & L4 & _) & Hx4 & M4 & _ & _ & T4).
  exists r, c, s1, s2, s3, s4. split_and!; [exact E1| |exact E2|exact E3|exact E4|congruence| | |].
  - exists (r_want (sv_record v1)). rewrite Htr, <- Htok. cbn. set_solver.
  - by exists (x <| c_state := CONNECTED |>).
  - by exists v4.
  - rewrite T4. unfold record_element. by rewrite K3i, K2i, B4.
Qed.

Lemma connect_session_witness :
  ∃ r s1, ConnectAbilityLocked 3 demo_request 5 None connect_init = Returned (ERR_OK, s1) ∧
    ∃ s2, AttachAbilityThreadLocked true (Some r) s1 = Returned (ERR_OK, s2).
Proof.
  destruct (connect_session 3 demo_request 5 None (Some 7) connect_init) as (r & c & s1 & s2 & s3 & s4 & E1 & _ & E2 & _).
  - exact (sound_init 100 true).
  - reflexivity.
  - discriminate.
  - reflexivity.
  - exists r, s1. split; [exact E1|]. exists s2. exact E2.
Defined.

(** When the only client of an active service that was never started
    disconnects, the service is asked to disconnect and the connection is
    DISCONNECTING; the task posted with it changes nothing; when the service
    reports that it did, the callback is told once, the connection is in no table
    any more, and the service terminates. *)
Theorem disconnect_last judge k cb c x r v s :
  sound s → serviceMap_ s !! k = Some r → cm_services s !! r = Some v →
  r_state (sv_record v) = ACTIVE → sv_startId v = 0 → r_dealScheduler (sv_record v) = true →
  sv_connRecordList v = [c] → connectMap_ s !! cb = Some [c] → cm_connections s !! c = Some x →
  c_state x = CONNECTED → c_connCallback x = Some cb → judge (r_info (sv_record v)) = ERR_OK →
  ∃ s1 s2,
    DisconnectAbilityLocked judge cb s = Returned (ERR_OK, s1) ∧
    SvScheduleDisconnect r (r_want (sv_record v)) ∈ cm_trace s1 ∧
    (∃ x1, cm_connections s1 !! c = Some x1 ∧ c_state x1 = DISCONNECTING) ∧
    HandleDisconnectTask [c] s1 = Returned (tt, s1) ∧
    ScheduleDisconnectAbilityDoneLocked (Some r) s1 = Returned (ERR_OK, s2) ∧
    OnAbilityDisconnectDone cb (record_element (sv_record v)) 0 ∈ cm_trace s2 ∧
    connectMap_ s2 = delete cb (connectMap_ s) ∧
    ∃ v2, cm_services s2 !! r = Some v2 ∧ r_state (sv_record v2) = TERMINATING ∧ sv_connRecordList v2 = [].
Proof.
  intros Hs Hk Hv Hst Hid Hd Hl Hm Hx Hcx Hcb Hj.
  assert (c_targetService x = r) as Ht.
  { destruct (con_listed _ _ Hs r v c Hv) as (Ht & _); [rewrite Hl; apply list_elem_of_here|].
    unfold target_of in Ht. rewrite Hx in Ht. cbn in Ht. congruence. }
  destruct (wp_run _ _ _ (wp_disconnect_only judge cb c x r v s Hm Hx Hcx Ht Hv Hl Hd Hj))
    as (e & s1 & E1 & -> & V1 & X1 & M1 & C1 & _ & T1).
  assert (sound s1) as Hs1.
  { pose proof (calm_DisconnectAbilityLocked judge cb s Hs) as C. unfold keeps, wp in C. rewrite E1 in C.
    by eapply calm_consistent. }
  set (x1 := x <| c_state := DISCONNECTING |>) in X1.
  assert (cm_connections s1 !! c = Some x1) as Hx1 by by rewrite X1, lookup_insert_eq.
  destruct (wp_run _ _ _ (wp_disconnect_done k r v c cb x1 s1 Hs1 ltac:(by rewrite M1) ltac:(by rewrite V1) Hst Hl Hid
    Hx1 eq_refl Ht Hcb ltac:(by rewrite C1))) as (e & s2 & E2 & -> & Hv2 & C2 & T2).
  exists s1, s2. split_and!; [exact E1|exact T1|by exists x1| |exact E2|exact T2|by rewrite C2, C1|exact Hv2].
  apply (HandleDisconnectTask_waits c x1); [done| |done]. exists v. rewrite V1. by rewrite <- Ht in Hv.
Qed.

Lemma disconnect_last_witness :
  ∃ s1 s2, DisconnectAbilityLocked all_visible 5 s_one = Returned (ERR_OK, s1) ∧
    ScheduleDisconnectAbilityDoneLocked (Some 1%positive) s1 = Returned (ERR_OK, s2).
Proof.
  destruct (lookup_is_some (cm_connections s_one !! 2%positive)) as [x Hx]; [vm_compute; reflexivity|].
  destruct (lookup_is_some (cm_services s_one !! 1%positive)) as [v Hv]; [vm_compute; reflexivity|].
  destruct (disconnect_last all_visible (service_key demo_service) 5 2 x 1 v s_one) as (s1 & s2 & E1 & _ & _ & _ & E2 & _).
  - exact (sound_reachable _ _ _ _ s_one_reachable).
  - vm_compute. reflexivity.
  - exact Hv.
  - apply (lookup_field (λ v, r_state (sv_record v)) _ _ _ Hv). vm_compute. reflexivity.
  - apply (lookup_field sv_startId _ _ _ Hv). vm_compute. reflexivity.
  - apply (lookup_field (λ v, r_dealScheduler (sv_record v)) _ _ _ Hv). vm_compute. reflexivity.
  - apply (lookup_field sv_connRecordList _ _ _ Hv). vm_compute. reflexivity.
  - vm_compute. reflexivity.
  - exact Hx.
  - apply (lookup_field c_state _ _ _ Hx). vm_compute. reflexivity.
  - apply (lookup_field c_connCallback _ _ _ Hx). vm_compute. reflexivity.
  - reflexivity.
  - exists s1, s2. exact (conj E1 E2).
Defined.

(** ** A client that connects while the service starts *)

(** A client that connects while the service is being started by
    [StartAbility] is left waiting: once the service is created it is only
    commanded, never asked to connect, and no connection timeout runs. There is a
    reachable state in which the service is ACTIVE and the connection still
    CONNECTING, while a second client that connected later was told ERR_OK with
    no remote object. *)
Theorem connect_while_starting :
  ∃ s v x1 x2, connect_reachable 3 100 true s ∧
    cm_services s !! 1%positive = Some v ∧ r_state (sv_record v) = ACTIVE ∧
    sv_connRecordList v = [2%positive; 3%positive] ∧
    cm_connections s !! 2%positive = Some x1 ∧ c_state x1 = CONNECTING ∧ c_connCallback x1 = Some 5%positive ∧
    cm_connections s !! 3%positive = Some x2 ∧ c_state x2 = CONNECTED ∧
    OnAbilityConnectDone 6 (record_element (sv_record v)) None ERR_OK ∈ cm_trace s ∧
    (∀ e, e ∈ cm_trace s → match e with
      | SvScheduleConnect _ _ | SvPostTask (CtStartTimeout _ CONNECTION_TIMEOUT) _ | OnAbilityConnectDone 5 _ _ _ => False
      | _ => True end).
Proof.
  destruct (lookup_is_some (cm_connections s_waiting !! 2%positive)) as [x1 H1]; [vm_compute; reflexivity|].
  destruct (lookup_is_some (cm_connections s_waiting !! 3%positive)) as [x2 H2]; [vm_compute; reflexivity|].
  destruct (lookup_is_some (cm_services s_waiting !! 1%positive)) as [v Hv]; [vm_compute; reflexivity|].
  exists s_waiting, v, x1, x2. split; [exact s_waiting_reachable|]. split; [exact Hv|].
  split; [apply (lookup_field (λ v, r_state (sv_record v)) _ _ _ Hv); vm_compute; reflexivity|].
  split; [apply (lookup_field sv_connRecordList _ _ _ Hv); vm_compute; reflexivity|].
  split; [exact H1|]. split; [apply (lookup_field c_state _ _ _ H1); vm_compute; reflexivity|].
  split; [apply (lookup_field c_connCallback _ _ _ H1); vm_compute; reflexivity|].
  split; [exact H2|]. split; [apply (lookup_field c_state _ _ _ H2); vm_compute; reflexivity|].
  rewrite (lookup_field (λ v, record_element (sv_record v)) _ _ (mkElement "" "com.demo" "Service" "entry") Hv);
    [|vm_compute; reflexivity].
  split.
  - apply last_Some_elem_of. vm_compute. reflexivity.
  - intros e He. assert (∀ (P : ServiceEffect → bool) l, forallb P l = true → ∀ e, e ∈ l → P e = true) as HF.
    { intros P l H e0 He0. rewrite forallb_forall in H. apply H. by apply list_elem_of_In. }
    apply (HF (λ e, match e with
      | SvScheduleConnect _ _ | SvPostTask (CtStartTimeout _ CONNECTION_TIMEOUT) _ | OnAbilityConnectDone 5 _ _ _ => false
      | _ => true end)) in He; [|vm_compute; reflexivity].
    revert He. clear. destruct e; try done; [destruct t; try done; by destruct resultCode|].
    by repeat (destruct cb as [cb|cb|]; try done).
Qed.
