(* ===== verification/DataAbility.v ===== *)
(** [DataAbilityManager] and [DataAbilityRecord]
    (services/abilitymgr/src/data_ability_manager.cpp, data_ability_record.cpp):
    the data abilities of one user, which of them are loaded or being loaded,
    and who uses them.

    [Acquire] waits for a data ability to be loaded and gives up the manager's
    lock while it does. So it is two steps here: the one up to the wait, which
    either answers or leaves a [Waiter], and the one that resumes the waiter when
    the ability is loaded or the time is over. All else is one step, under the
    lock. A pointer to a [DataAbilityRecord] is a reference into [Datas]; a token
    is the reference of its ability; a client is the address of its object. *)

From S2P Require Import Prelude CppString Want CallContainer AbilityRecord.
From Stdlib Require Import Ascii.

#[local] Open Scope stdpp_scope.
#[local] Open Scope Z_scope.

#[global] Abbreviation DRef := positive (only parsing).    (* a DataAbilityRecord *)
#[global] Abbreviation Obj := positive (only parsing).     (* a remote object *)
#[global] Abbreviation Thread := positive (only parsing).  (* a caller inside Acquire *)

(** * Data *)

Record ClientInfo := mkClient {
  ci_client : Obj;
  ci_tryBind : bool;
  ci_isSystem : bool;
}.

#[export] Instance ClientInfo_eq_dec : EqDecision ClientInfo.
Proof. solve_decision. Defined.

(** [d_ability] is the token, the record id and the [AbilityRecord] itself;
    [d_appUid] is the request's [abilityInfo.applicationInfo.uid]; [d_recipient]
    tells that [callerDeathRecipient_] has been made. *)
Record DataAbilityRecord := mkData {
  d_request : AbilityRequest;
  d_appUid : Z;
  d_ability : option (RRef * Z * AbilityRecord);
  d_scheduler : option Obj;
  d_clients : list ClientInfo;
  d_recipient : bool;
}.

#[export] Instance DataAbilityRecord_eta : Eta DataAbilityRecord := λ x,
  mkData (d_request x) (d_appUid x) (d_ability x) (d_scheduler x) (d_clients x) (d_recipient x).

(** A call of [Acquire] that waits inside [WaitForLoaded]. *)
Record Waiter := mkWaiter {
  w_name : string;
  w_record : DRef;
  w_client : option Obj;
  w_tryBind : bool;
  w_isSystem : bool;
  w_deadline : Z;
}.

Inductive DataEffect :=
  | DaLoadAbility (token : RRef) (caller : option RRef) (w : Want)
  | DaTransaction (token : RRef) (w : Want)         (* to ABILITY_STATE_ACTIVE *)
  | DaBehaviorAnalysis (token client : RRef) (bound : bool)
  | DaKillProcess (client : RRef)
  | DaAddDeathRecipient (d : DRef) (client : Obj)
  | DaRemoveDeathRecipient (d : DRef) (client : Obj)
  | DaAcquireDataAbility (uri : string).

Record Datas := mkDatas {
  da_records : gmap DRef DataAbilityRecord;
  dataAbilityRecordsLoaded_ : gmap string DRef;
  dataAbilityRecordsLoading_ : gmap string DRef;
  da_waiting : gmap Thread Waiter;
  da_callers : gset RRef;           (* abilities of other managers that are alive *)
  da_now : Z;                       (* the clock, in milliseconds *)
  da_next : positive;
  da_abilityRecordId : Z;
  da_trace : list DataEffect;
}.

#[export] Instance Datas_eta : Eta Datas := λ s,
  mkDatas (da_records s) (dataAbilityRecordsLoaded_ s) (dataAbilityRecordsLoading_ s) (da_waiting s)
    (da_callers s) (da_now s) (da_next s) (da_abilityRecordId s) (da_trace s).

#[local] Abbreviation M A := (ST Datas A).

Definition the_data (d : DRef) : M DataAbilityRecord :=
  x ← gets (λ s, da_records s !! d); deref x.
Definition upd_data (d : DRef) (f : DataAbilityRecord → DataAbilityRecord) : M unit :=
  modify (λ s, s <| da_records ::= alter f d |>).
Definition upd_data_ability (d : DRef) (f : AbilityRecord → AbilityRecord) : M unit :=
  upd_data d (λ x, x <| d_ability ::= fmap (λ a, (a.1, f a.2)) |>).
Definition emit (e : DataEffect) : M unit := modify (λ s, s <| da_trace ::= λ t, t ++ [e] |>).
Definition take_ref : M positive :=
  p ← gets da_next; _ ← modify (λ s, s <| da_next ::= Pos.succ |>); mret p.

Definition data_list (m : gmap string DRef) : list (string * DRef) :=
  in_order str_ltb m.

Definition token_of (x : DataAbilityRecord) : option RRef := (λ a, a.1.1) <$> d_ability x.
Definition ability_state (x : DataAbilityRecord) : option AbilityState :=
  (λ a, r_state a.2) <$> d_ability x.

(** The data abilities somebody holds, by their tokens. *)
Definition held_data (s : Datas) : list DRef :=
  (map_to_list (dataAbilityRecordsLoaded_ s)).*2 ++ (map_to_list (dataAbilityRecordsLoading_ s)).*2
  ++ (w_record <$> (map_to_list (da_waiting s)).*2).
Definition held_tokens (s : Datas) : list RRef :=
  omap (λ d, x ← da_records s !! d; token_of x) (held_data s).

(** [Token::GetAbilityRecordByToken]. *)
Definition GetAbilityRecordOfToken (s : Datas) (token : RRef) : option RRef :=
  if decide (token ∈ da_callers s ∨ token ∈ held_tokens s) then Some token else None.

(** * DataAbilityRecord *)

Section data_record.
Context (restartMax : Z) (app_load : RRef → Z).

(** [AbilityRecord::LoadAbility] of a data ability: without the timeout event. *)
Definition LoadDataAbility (token : RRef) (a : AbilityRecord) : M ErrCode :=
  if decide (app_name (r_app a) = "") then mret ERR_INVALID_VALUE
  else if negb (CanRestartRootLauncher a) then mret ERR_INVALID_VALUE
  else
    s ← gets id;
    let caller := c ← last (r_callerList a); GetAbilityRecordOfToken s c.2 in
    _ ← emit (DaLoadAbility token caller (SetParam ABILITY_OWNER_USERID
                (VInteger (r_ownerMissionUserId a)) (r_want a)));
    mret (if app_load token =? 0 then ERR_OK else INNER_ERR).

Definition StartLoading (d : DRef) : M ErrCode :=
  x ← the_data d;
  if bool_decide (is_Some (d_ability x)) || bool_decide (is_Some (d_scheduler x)) then mret ERR_ALREADY_EXISTS
  else if negb (bool_decide (ai_type (rq_info (d_request x)) = DATA)) then mret ERR_INVALID_VALUE
  else
    token ← take_ref;
    n ← gets da_abilityRecordId;
    _ ← modify (λ s, s <| da_abilityRecordId ::= Z.succ |>);
    let a := CreateAbilityRecord restartMax (d_request x) in
    ret ← LoadDataAbility token a;
    if decide (ret = ERR_OK) then
      _ ← upd_data d (λ x, x <| d_ability := Some (token, wrap_i32 n,
                                  a <| r_want ::= RemoveParam ABILITY_OWNER_USERID |>) |>);
      mret ERR_OK
    else mret ret.
End data_record.

(** [GetScheduler]: null until the ability is loaded. *)
Definition scheduler_of (x : DataAbilityRecord) : option Obj :=
  match ability_state x with
  | Some ACTIVE => d_scheduler x
  | _ => None
  end.

(** [WaitForLoaded] up to its wait, and from the moment it has the lock again;
    [None] is that it (still) waits. *)
Definition WaitForLoaded (d : DRef) : M (option ErrCode) :=
  x ← the_data d;
  mret (match ability_state x with
        | None => Some ERR_INVALID_STATE
        | Some ACTIVE => Some ERR_OK
        | Some _ => None
        end).
Definition WaitForLoaded_resumed (d : DRef) (deadline : Z) : M (option ErrCode) :=
  x ← the_data d;
  a ← deref (d_ability x);
  now ← gets da_now;
  mret (if decide (r_state a.2 = ACTIVE) then
          Some (if decide (d_scheduler x = None) then ERR_INVALID_STATE else ERR_OK)
        else if deadline <=? now then Some ERR_TIMED_OUT else None).

Definition Attach (d : DRef) (scheduler : option Obj) : M ErrCode :=
  x ← the_data d;
  match scheduler, d_ability x, d_scheduler x with
  | None, _, _ => mret ERR_INVALID_DATA
  | _, None, _ => mret ERR_INVALID_STATE
  | _, _, Some _ => mret ERR_INVALID_STATE
  | Some sch, Some (token, _, a), None =>
      if negb (IsAbilityState INITIAL a) then mret ERR_INVALID_STATE
      else
        _ ← upd_data_ability d (SetScheduler true);
        _ ← upd_data d (λ x, x <| d_scheduler := Some sch |>);
        _ ← upd_data_ability d (SetAbilityState ACTIVATING);
        _ ← emit (DaTransaction token (r_want a));
        mret ERR_OK
  end.

Definition ABILITY_STATE_ACTIVE : Z := 2.

Definition OnTransitionDone (d : DRef) (state : Z) : M ErrCode :=
  x ← the_data d;
  match d_ability x, d_scheduler x with
  | Some (_, _, a), Some _ =>
      if negb (IsAbilityState ACTIVATING a) then mret ERR_INVALID_STATE
      else if negb (state =? ABILITY_STATE_ACTIVE) then
        _ ← upd_data_ability d (SetAbilityState INITIAL); mret ERR_INVALID_STATE
      else _ ← upd_data_ability d (SetAbilityState ACTIVE); mret ERR_OK
  | _, _ => mret ERR_INVALID_STATE
  end.

(** The guards that the operations on clients share. *)
Definition loaded_ability (x : DataAbilityRecord) : option RRef :=
  match d_ability x, d_scheduler x with
  | Some (token, _, a), Some _ => if IsAbilityState ACTIVE a then Some token else None
  | _, _ => None
  end.

Definition AddClient (d : DRef) (client : Obj) (tryBind isSystem : bool) : M ErrCode :=
  x ← the_data d;
  match loaded_ability x with
  | None => mret ERR_INVALID_STATE
  | Some token =>
      _ ← (if isSystem then
             _ ← (if d_recipient x then emit (DaRemoveDeathRecipient d client) else mret tt);
             _ ← upd_data d (λ x, x <| d_recipient := true |>);
             emit (DaAddDeathRecipient d client)
           else mret tt);
      _ ← upd_data d (λ x, x <| d_clients ::= λ l, l ++ [mkClient client tryBind isSystem] |>);
      if isSystem then mret ERR_OK
      else
        s ← gets id;
        match GetAbilityRecordOfToken s client with
        | None => mret ERR_UNKNOWN_OBJECT
        | Some c => _ ← emit (DaBehaviorAnalysis token c true); mret ERR_OK
        end
  end.

Definition is_client (client : Obj) (ci : ClientInfo) : bool := bool_decide (ci_client ci = client).

Definition RemoveClient (d : DRef) (client : Obj) (isSystem : bool) : M ErrCode :=
  x ← the_data d;
  match loaded_ability x with
  | None => mret ERR_INVALID_STATE
  | Some token =>
      match List.find (is_client client) (d_clients x) with
      | None => mret ERR_OK
      | Some _ =>
          s ← gets id;
          let erase := upd_data d (λ x, x <| d_clients ::= erase_first (is_client client) |>) in
          if isSystem then _ ← erase; mret ERR_OK
          else
            match GetAbilityRecordOfToken s client with
            | None => mret ERR_UNKNOWN_OBJECT
            | Some c => _ ← emit (DaBehaviorAnalysis token c false); _ ← erase; mret ERR_OK
            end
      end
  end.

(** [RemoveClients] of an ability; the code has no caller that passes null. The
    caller holds the record of the ability, so its token leads to it, in the tables or
    not. *)
Definition is_client_ability (r : RRef) (ci : ClientInfo) : bool :=
  negb (ci_isSystem ci) && bool_decide (ci_client ci = r).

Definition RemoveClients (d : DRef) (r : RRef) : M ErrCode :=
  x ← the_data d;
  match loaded_ability x with
  | None => mret ERR_INVALID_STATE
  | Some token =>
      _ ← for_each (λ ci, if is_client_ability r ci then emit (DaBehaviorAnalysis token r false) else mret tt)
            (d_clients x);
      _ ← upd_data d (λ x, x <| d_clients ::= List.filter (λ ci, negb (is_client_ability r ci)) |>);
      mret ERR_OK
  end.

(** [GetClientCount] of a client that is not null. *)
Definition GetClientCount (x : DataAbilityRecord) (client : Obj) : nat :=
  match loaded_ability x with
  | None => 0
  | Some _ => length (List.filter (is_client client) (d_clients x))
  end.

Definition KillBoundClientProcesses (d : DRef) : M ErrCode :=
  x ← the_data d;
  match loaded_ability x with
  | None => mret ERR_INVALID_STATE
  | Some _ =>
      _ ← for_each (λ ci,
            if ci_tryBind ci && negb (ci_isSystem ci) then
              s ← gets id;
              match GetAbilityRecordOfToken s (ci_client ci) with
              | None => mret tt
              | Some c => emit (DaKillProcess c)
              end
            else mret tt) (d_clients x);
      mret ERR_OK
  end.

(** A system client has died; [object] is null when it cannot be promoted. *)
Definition OnSchedulerDied (d : DRef) (object : option Obj) : M unit :=
  upd_data d (λ x, x <| d_clients ::= List.filter (λ ci,
    negb (match object with Some o => is_client o ci | None => ci_isSystem ci end)) |>).

(** * DataAbilityManager *)

Definition DATA_ABILITY_LOAD_TIMEOUT : Z := 11000.

Definition data_name (i : AbilityInfo) : string := ai_bundleName i +:+ "." +:+ ai_name i.

(** What [Acquire] comes to under the lock: an answer, or a wait. *)
Inductive Acquired :=
  | AcquireReturns (scheduler : option Obj)
  | AcquireWaits (thread : Thread).

Section data_manager.
Context (restartMax : Z) (app_load : RRef → Z).

(** [LoadLocked] up to the wait: the record that is, or is now, being loaded. *)
Definition LoadLocked (name : string) (q : AbilityRequest) (appUid : Z) : M (option DRef) :=
  s ← gets id;
  match dataAbilityRecordsLoading_ s !! name with
  | Some d => mret (Some d)
  | None =>
      d ← take_ref;
      _ ← modify (λ s, s <| da_records ::= insert d (mkData q appUid None None [] false) |>);
      startResult ← StartLoading restartMax app_load d;
      if decide (startResult = ERR_OK) then
        _ ← modify (λ s, s <| dataAbilityRecordsLoading_ ::= insert name d |>);
        mret (Some d)
      else mret None
  end.

(** [LoadLocked] from the end of the wait. *)
Definition LoadLocked_done (name : string) (d : DRef) (ret : ErrCode) : M (option DRef) :=
  if decide (ret = ERR_OK) then mret (Some d)
  else
    _ ← modify (λ s, s <| dataAbilityRecordsLoading_ ::= delete name |>);
    mret None.

(** [Acquire] once it has, or has not, its record. *)
Definition Acquire_done (name : string) (record : option DRef) (client : option Obj) (tryBind isSystem : bool)
    : M (option Obj) :=
  match record with
  | None => mret None
  | Some d =>
      x ← the_data d;
      match scheduler_of x with
      | None =>
          _ ← modify (λ s, s <| dataAbilityRecordsLoaded_ ::= delete name |>);
          mret None
      | Some sch =>
          _ ← (match client with Some c => _ ← AddClient d c tryBind isSystem; mret tt | None => mret tt end);
          mret (Some sch)
      end
  end.

Definition Acquire (q : AbilityRequest) (appUid : Z) (tryBind : bool) (client : option Obj) (isSystem : bool)
    : M Acquired :=
  let info := rq_info q in
  if negb (bool_decide (ai_type info = DATA)) then mret (AcquireReturns None)
  else if String.eqb (ai_bundleName info) "" || String.eqb (ai_name info) "" then mret (AcquireReturns None)
  else
    s ← gets id;
    let unknown := match client with
                   | Some c => negb isSystem && bool_decide (GetAbilityRecordOfToken s c = None)
                   | None => false
                   end in
    if unknown then mret (AcquireReturns None)
    else
      let name := data_name info in
      match dataAbilityRecordsLoaded_ s !! name with
      | Some d => sch ← Acquire_done name (Some d) client tryBind isSystem; mret (AcquireReturns sch)
      | None =>
          loading ← LoadLocked name q appUid;
          match loading with
          | None => mret (AcquireReturns None)
          | Some d =>
              over ← WaitForLoaded d;
              match over with
              | Some ret =>
                  record ← LoadLocked_done name d ret;
                  sch ← Acquire_done name record client tryBind isSystem;
                  mret (AcquireReturns sch)
              | None =>
                  t ← take_ref;
                  _ ← modify (λ s, s <| da_waiting ::= insert t
                        (mkWaiter name d client tryBind isSystem (da_now s + DATA_ABILITY_LOAD_TIMEOUT)) |>);
                  mret (AcquireWaits t)
              end
          end
      end.

(** A waiter has the lock again: what its [Acquire] answers, [None] when it goes
    on waiting. *)
Definition Acquire_resumed (t : Thread) : M (option (option Obj)) :=
  s ← gets id;
  w ← deref (da_waiting s !! t);
  over ← WaitForLoaded_resumed (w_record w) (w_deadline w);
  match over with
  | None => mret None
  | Some ret =>
      record ← LoadLocked_done (w_name w) (w_record w) ret;
      sch ← Acquire_done (w_name w) record (w_client w) (w_tryBind w) (w_isSystem w);
      _ ← modify (λ s, s <| da_waiting ::= delete t |>);
      mret (Some sch)
  end.

(** The first entry of a table whose record passes a test. *)
Definition find_data (P : DataAbilityRecord → bool) (s : Datas) (m : gmap string DRef) : option (string * DRef) :=
  List.find (λ e, match da_records s !! e.2 with Some x => P x | None => false end) (data_list m).

Definition has_scheduler (scheduler : Obj) (x : DataAbilityRecord) : bool :=
  bool_decide (scheduler_of x = Some scheduler).
Definition has_token (token : RRef) (x : DataAbilityRecord) : bool := bool_decide (token_of x = Some token).

Definition Release (judge : AbilityInfo → ErrCode) (scheduler client : option Obj) (isSystem : bool) : M ErrCode :=
  match scheduler, client with
  | Some sch, Some c =>
      s ← gets id;
      match find_data (has_scheduler sch) s (dataAbilityRecordsLoaded_ s) with
      | None => mret ERR_UNKNOWN_OBJECT
      | Some (_, d) =>
          x ← the_data d;
          match d_ability x with
          | None => mret ERR_UNKNOWN_OBJECT
          | Some (_, _, a) =>
              let result := judge (r_info a) in
              if negb (bool_decide (result = ERR_OK)) then mret result
              else if decide (GetClientCount x c = 0%nat) then mret ERR_UNKNOWN_OBJECT
              else _ ← RemoveClient d c isSystem; mret ERR_OK
          end
      end
  | _, _ => mret ERR_NULL_OBJECT
  end.

(** The macro of a null scheduler answers [ERR_NULL_OBJECT], which is [true]. *)
Definition ContainsDataAbility (s : Datas) (scheduler : option Obj) : bool :=
  match scheduler with
  | None => true
  | Some sch => bool_decide (is_Some (find_data (has_scheduler sch) s (dataAbilityRecordsLoaded_ s)))
  end.

Definition AttachAbilityThread (scheduler : option Obj) (token : option RRef) : M ErrCode :=
  match scheduler, token with
  | Some sch, Some tk =>
      s ← gets id;
      match find_data (has_token tk) s (dataAbilityRecordsLoading_ s) with
      | None => mret ERR_UNKNOWN_OBJECT
      | Some (_, d) => Attach d (Some sch)
      end
  | _, _ => mret ERR_NULL_OBJECT
  end.

Definition AbilityTransitionDone (token : option RRef) (state : Z) : M ErrCode :=
  match token with
  | None => mret ERR_NULL_OBJECT
  | Some tk =>
      s ← gets id;
      match find_data (has_token tk) s (dataAbilityRecordsLoading_ s) with
      | None => mret ERR_UNKNOWN_OBJECT
      | Some (name, d) =>
          ret ← OnTransitionDone d state;
          _ ← (if decide (ret = ERR_OK) then
                 _ ← modify (λ s, s <| dataAbilityRecordsLoaded_ ::= insert name d |>);
                 modify (λ s, s <| dataAbilityRecordsLoading_ ::= delete name |>)
               else mret tt);
          mret ret
      end
  end.

(** What the bundle manager knows of a bundle, and [GetDataAbilityUri]. *)
Record HapModuleInfo := mkHap {
  hap_isModuleJson : bool;
  hap_mainAbility : string;
  hap_abilities : list (AbilityType * string * string);   (* type, name and uri *)
}.
Record BundleInfo := mkBundle { bi_isKeepAlive : bool; bi_hapModuleInfos : list HapModuleInfo }.

(** [find_first_of] and [find_last_of] of one character. *)
Fixpoint positions (c : ascii) (w : string) (i : nat) : list nat :=
  match w with
  | EmptyString => []
  | String a w => (if Ascii.eqb a c then [i] else []) ++ positions c w (S i)
  end.

(** The slashes of [dataability://] must be the only ones: a third goes in. *)
Definition GetValidDataAbilityUri (uri : string) : option string :=
  match positions "/" uri 0 with
  | [] => None
  | first :: rest =>
      let lst := List.last rest first in
      if negb (size_sub (Z.of_nat lst) (Z.of_nat first) =? 1) then None
      else Some (str_take lst uri +:+ "/" +:+ str_drop lst uri)
  end.

Definition GetDataAbilityUri (abilities : list (AbilityType * string * string)) (mainAbility : string)
    : option string :=
  match abilities with
  | [] => None
  | _ =>
      if String.eqb mainAbility "" then None
      else
        GetValidDataAbilityUri
          (default "" (snd <$> List.find (λ a, bool_decide (a.1.1 = DATA) && String.eqb a.1.2 mainAbility) abilities))
  end.

(** The first module of a bundle that is kept alive whose main ability has the
    name of the dead one and is a data ability is acquired again. *)
Definition restart_uri (name : string) (bundles : list BundleInfo) : option string :=
  head (omap (λ h,
    if hap_isModuleJson h || negb (String.eqb name (hap_mainAbility h)) then None
    else GetDataAbilityUri (hap_abilities h) (hap_mainAbility h))
    (List.filter bi_isKeepAlive bundles ≫= bi_hapModuleInfos)).

Definition RestartDataAbility (info : AbilityInfo) (bundles : option (list BundleInfo)) : M unit :=
  match b ← bundles; restart_uri (ai_name info) b with
  | Some uri => emit (DaAcquireDataAbility uri)
  | None => mret tt
  end.

(** [info] is the [AbilityInfo] of the ability [r] that died. *)
Definition OnAbilityDied (r : RRef) (info : AbilityInfo) (bundles : option (list BundleInfo)) : M unit :=
  s ← gets id;
  _ ← (if decide (ai_type info = DATA) then
         match find_data (has_token r) s (dataAbilityRecordsLoaded_ s) with
         | None => mret tt
         | Some (name, d) =>
             _ ← KillBoundClientProcesses d;
             modify (λ s, s <| dataAbilityRecordsLoaded_ ::= delete name |>)
         end
       else mret tt);
  s ← gets id;
  _ ← for_each (λ e, _ ← RemoveClients e.2 r; mret tt) (data_list (dataAbilityRecordsLoaded_ s));
  RestartDataAbility info bundles.

Definition app_matches (processName : string) (appData : list (string * Z)) (x : DataAbilityRecord) : bool :=
  match d_ability x with
  | Some (_, _, a) =>
      (String.eqb processName (ai_process (r_info a)) || String.eqb processName (app_bundleName (r_app a)))
      && existsb (λ d, String.eqb d.1 (app_name (r_app a)) && (d.2 =? d_appUid x)) appData
  | None => false
  end.

Definition OnAppStateChanged (processName : string) (appData : list (string * Z)) (state : AppState) : M unit :=
  s ← gets id;
  for_each (λ e,
    x ← the_data e.2;
    if app_matches processName appData x then upd_data_ability e.2 (λ a, a <| r_appState := state |>)
    else mret tt)
    (data_list (dataAbilityRecordsLoaded_ s) ++ data_list (dataAbilityRecordsLoading_ s)).

(** ** Queries *)

Definition GetAbilityRecordById (s : Datas) (id : Z) : option RRef :=
  e ← find_data (λ x, match d_ability x with Some a => a.1.2 =? id | None => false end) s
        (dataAbilityRecordsLoaded_ s);
  x ← da_records s !! e.2; token_of x.

Definition GetAbilityRecordByToken (s : Datas) (token : option RRef) : option RRef :=
  tk ← token;
  r ← GetAbilityRecordOfToken s tk;
  match find_data (has_token r) s (dataAbilityRecordsLoaded_ s) with
  | Some _ => Some r
  | None => _ ← find_data (has_token r) s (dataAbilityRecordsLoading_ s); Some r
  end.

Definition GetAbilityRecordByScheduler (s : Datas) (scheduler : option Obj) : option RRef :=
  sch ← scheduler;
  e ← find_data (has_scheduler sch) s (dataAbilityRecordsLoaded_ s);
  x ← da_records s !! e.2; token_of x.
End data_manager.
