(* ===== verification/DataAbilityRun.v ===== *)
(** [DataAbilityManager] as a transition system: its operations as events, the
    states they reach, and that its invariant, stated first, holds in all of them. *)

From Stdlib Require Import Ascii.
From S2P Require Import Prelude CppString Want CallContainer AbilityRecord DataAbility.

#[local] Open Scope stdpp_scope.
#[local] Open Scope Z_scope.

(** * What the data ability manager keeps true of its tables and records, and the
    ways a step may change them. *)

Implicit Types (s : Datas) (d : DRef) (x : DataAbilityRecord) (a : AbilityRecord) (t : Thread) (w : Waiter).

(** Reduce the fields of a changed state or record. *)
Ltac datas_cbn := unfold update;
  cbn [da_records dataAbilityRecordsLoaded_ dataAbilityRecordsLoading_ da_waiting da_callers da_now da_next
       da_abilityRecordId da_trace d_request d_appUid d_ability d_scheduler d_clients d_recipient].

(** * The invariant *)

(** A record that has not been started has nothing; one that is not loaded has no
    clients; a loaded one has a scheduler. *)
Definition shape x : Prop :=
  match d_ability x with
  | None => d_scheduler x = None ∧ d_clients x = []
  | Some (_, _, a) =>
      ai_type (rq_info (d_request x)) = DATA ∧ r_info a = rq_info (d_request x) ∧
      ((r_state a = INITIAL ∧ d_clients x = []) ∨
       (r_state a = ACTIVATING ∧ is_Some (d_scheduler x) ∧ d_clients x = []) ∨
       (r_state a = ACTIVE ∧ is_Some (d_scheduler x)))
  end.

Definition name_of x : string := data_name (rq_info (d_request x)).

(** A record that is held under a name, with its state. *)
Definition filed s (n : string) d (P : AbilityState → Prop) : Prop :=
  ∃ x st, da_records s !! d = Some x ∧ ability_state x = Some st ∧ P st ∧ name_of x = n.

(** The loaded table holds the loaded records, the loading table the others; no
    name is in both; a waiter waits for a record of the name it asked for. *)
Record data_ok s : Prop := {
  ok_shape d x : da_records s !! d = Some x → shape x;
  ok_loaded n d : dataAbilityRecordsLoaded_ s !! n = Some d → filed s n d (λ st, st = ACTIVE);
  ok_loading n d : dataAbilityRecordsLoading_ s !! n = Some d → filed s n d (λ st, st ≠ ACTIVE);
  ok_apart n d : dataAbilityRecordsLoaded_ s !! n = Some d → dataAbilityRecordsLoading_ s !! n = None;
  ok_waiting t w : da_waiting s !! t = Some w → filed s (w_name w) (w_record w) (λ _, True);
  ok_tokens d1 d2 x1 x2 r : da_records s !! d1 = Some x1 → da_records s !! d2 = Some x2 →
    token_of x1 = Some r → token_of x2 = Some r → d1 = d2;
  ok_fresh p : (da_next s ≤ p)%positive → da_records s !! p = None ∧ da_waiting s !! p = None;
  ok_fresh_token d x r : da_records s !! d = Some x → token_of x = Some r → (r < da_next s)%positive;
}.

(** ** What never goes back *)

(** A record keeps its request and its ability, a loaded one stays loaded, one
    that has a scheduler keeps it, and so one that has a scheduler and is back in
    INITIAL stays there. *)
Record carries x x' : Prop := {
  ca_request : d_request x' = d_request x;
  ca_token r : token_of x = Some r → token_of x' = Some r;
  ca_active : ability_state x = Some ACTIVE → ability_state x' = Some ACTIVE;
  ca_scheduler sch : d_scheduler x = Some sch → d_scheduler x' = Some sch;
  ca_stuck : ability_state x = Some INITIAL → is_Some (d_scheduler x) → ability_state x' = Some INITIAL;
}.

#[export] Instance carries_preorder : PreOrder carries.
Proof.
  split; [constructor; auto|]. intros x y z [] []. constructor; [congruence|auto..|].
  intros H [sch Hs]. apply ca_stuck1; [by apply ca_stuck0|]. exists sch. by apply ca_scheduler0.
Qed.

Definition not_loading s d : Prop := ∀ n, dataAbilityRecordsLoading_ s !! n ≠ Some d.

Record evolved s s' : Prop := {
  ev_ok : data_ok s';
  ev_left d x : da_records s !! d = Some x → not_loading s d →
    ∃ x', da_records s' !! d = Some x' ∧ ability_state x' = ability_state x ∧ not_loading s' d;
  ev_records d x : da_records s !! d = Some x → ∃ x', da_records s' !! d = Some x' ∧ carries x x';
  ev_waiting t w : da_waiting s' !! t = Some w → da_waiting s !! t = Some w ∨ (da_next s ≤ t)%positive;
  ev_next : (da_next s ≤ da_next s')%positive;
}.

(** The relation that every operation keeps. *)
Definition evolves s s' : Prop := data_ok s → evolved s s'.

#[export] Instance evolves_preorder : PreOrder evolves.
Proof.
  split.
  - intros s Hs. constructor; [done| | |auto|reflexivity]; intros d x H; by exists x.
  - intros s1 s2 s3 E1 E2 Hs. destruct (E1 Hs) as [O1 L1 R1 W1 N1]. destruct (E2 O1) as [O2 L2 R2 W2 N2].
    constructor; [done| | | |lia].
    + intros d x H Hn. destruct (L1 d x H Hn) as (y & Hy & Ey & Hn1). destruct (L2 d y Hy Hn1) as (z & Hz & Ez & Hn2).
      exists z. split; [done|]. by rewrite Ez, Ey.
    + intros d x H. destruct (R1 d x H) as (y & Hy & C1). destruct (R2 d y Hy) as (z & Hz & C2).
      exists z. split; [done|]. by transitivity y.
    + intros t w H. destruct (W2 t w H) as [H2|H2]; [|right; lia]. destruct (W1 t w H2); tauto.
Qed.

(** ** Changes that move nothing *)

Definition core x := (d_request x, d_appUid x, (λ y : RRef * Z * AbilityRecord, (y.1, r_state y.2, r_info y.2)) <$> d_ability x, d_scheduler x).

(** The tables stay as they are, and so do the records up to what does not matter
    to the tables: who uses them, while they are loaded. *)
Record quiet s s' : Prop := {
  qu_core : core <$> da_records s' = core <$> da_records s;
  qu_clients d x' : da_records s' !! d = Some x' →
    ∃ x, da_records s !! d = Some x ∧ (d_clients x = [] → ability_state x ≠ Some ACTIVE → d_clients x' = []);
  qu_loaded : dataAbilityRecordsLoaded_ s' = dataAbilityRecordsLoaded_ s;
  qu_loading : dataAbilityRecordsLoading_ s' = dataAbilityRecordsLoading_ s;
  qu_waiting : da_waiting s' = da_waiting s;
  qu_callers : da_callers s' = da_callers s;
  qu_now : da_now s' = da_now s;
  qu_next : da_next s' = da_next s;
}.

Lemma core_fields x x' : core x' = core x →
  d_request x' = d_request x ∧ token_of x' = token_of x ∧ ability_state x' = ability_state x ∧
  d_scheduler x' = d_scheduler x ∧ scheduler_of x' = scheduler_of x ∧ loaded_ability x' = loaded_ability x.
Proof.
  unfold core, token_of, scheduler_of, loaded_ability, ability_state, IsAbilityState. intros [= ? ? Ha Hsch].
  rewrite Hsch. destruct (d_ability x) as [[[? ?] ?]|], (d_ability x') as [[[? ?] ?]|]; simplify_eq/=; [|done].
  match goal with H : r_state _ = r_state _ |- _ => rewrite H end.
  by split_and!.
Qed.

#[export] Instance quiet_preorder : PreOrder quiet.
Proof.
  split; [intros s; constructor; eauto|]. intros s1 s2 s3 Q1 Q2. destruct Q1 as [C1 K1], Q2 as [C2 K2].
  constructor; try congruence. intros d x3 H3.
  destruct (K2 d x3 H3) as (x2 & H2 & E2). destruct (K1 d x2 H2) as (x1 & H1 & E1). exists x1. split; [done|].
  intros Hc Hst. apply E2; [by apply E1|]. destruct (fmap_eq_lookup core _ _ d x2 C1 H2) as (y & Hy & E).
  assert (y = x1) as -> by congruence. by destruct (core_fields _ _ E) as (_ & _ & -> & _).
Qed.

Lemma quiet_record s s' d x' : quiet s s' → da_records s' !! d = Some x' →
  ∃ x, da_records s !! d = Some x ∧ core x' = core x.
Proof. intros []. by apply fmap_eq_lookup. Qed.

Lemma quiet_record_after s s' d x : quiet s s' → da_records s !! d = Some x →
  ∃ x', da_records s' !! d = Some x' ∧ core x' = core x.
Proof.
  intros [] H. destruct (fmap_eq_lookup core (da_records s') (da_records s) d x) as (x' & ? & E);
    [by symmetry|done|]. by exists x'.
Qed.

Lemma carries_core x x' : core x' = core x → carries x x'.
Proof.
  intros (E1 & E2 & E3 & E4 & _)%core_fields. constructor; congruence.
Qed.

Lemma shape_core x x' : core x' = core x → shape x →
  (d_clients x = [] → ability_state x ≠ Some ACTIVE → d_clients x' = []) → shape x'.
Proof.
  unfold core, shape, ability_state. intros [= E1 _ Ha Hsch] Hx Hc. rewrite E1, Hsch.
  destruct (d_ability x) as [[[? ?] a]|], (d_ability x') as [[[? ?] a']|]; simplify_eq/=.
  - destruct Hx as (? & ? & Hx). split; [done|]. split; [congruence|].
    destruct Hx as [[? ?]|[(? & ? & ?)|[? ?]]].
    + left. split; [congruence|]. apply Hc; [done|]. congruence.
    + right; left. split; [congruence|]. split; [done|]. apply Hc; [done|]. congruence.
    + right; right. split; [congruence|done].
  - destruct Hx as [? ?]. split; [done|]. by apply Hc.
Qed.

(** Records that carry on keep what is filed. *)
Lemma filed_carries s s' n d (P Q : AbilityState → Prop) x' :
  (∃ x, da_records s !! d = Some x ∧ carries x x' ∧
        ∀ st, ability_state x = Some st → P st → ∃ st', ability_state x' = Some st' ∧ Q st') →
  da_records s' !! d = Some x' → filed s n d P → filed s' n d Q.
Proof.
  intros (x & Hx & [E _ _ _ _] & HQ) Hx' (y & st & Hy & Hst & HP & Hn). assert (y = x) as -> by congruence.
  destruct (HQ st Hst HP) as (st' & Hst' & HQ'). exists x', st'. split_and!; [done..|].
  unfold name_of in *. by rewrite E.
Qed.

Lemma filed_quiet s s' n d P : quiet s s' → filed s n d P → filed s' n d P.
Proof.
  intros Q H. pose proof H as (x & st & Hx & Hst & HP & Hn).
  destruct (quiet_record_after _ _ _ _ Q Hx) as (x' & Hx' & E). apply core_fields in E as (E1 & _ & E3 & _).
  exists x', st. split_and!; [done|congruence|done|]. unfold name_of in *. by rewrite E1.
Qed.

Lemma quiet_evolves s s' : quiet s s' → evolves s s'.
Proof.
  intros Q Hs. pose proof Q as []. constructor.
  - pose proof Hs as []. constructor; rewrite ?qu_loaded0, ?qu_loading0, ?qu_waiting0, ?qu_next0.
    + intros d x' H. destruct (quiet_record _ _ _ _ Q H) as (x & Hx & E).
      destruct (qu_clients0 _ _ H) as (y & Hy & Hc). assert (y = x) as -> by congruence.
      by eapply shape_core; eauto.
    + intros n d H. eapply filed_quiet; eauto.
    + intros n d H. eapply filed_quiet; eauto.
    + done.
    + intros t w H. eapply filed_quiet; eauto.
    + intros d1 d2 x1' x2' r H1 H2 T1 T2.
      destruct (quiet_record _ _ _ _ Q H1) as (x1 & Hx1 & (_ & E1 & _)%core_fields).
      destruct (quiet_record _ _ _ _ Q H2) as (x2 & Hx2 & (_ & E2 & _)%core_fields).
      eapply (ok_tokens0 d1 d2 x1 x2 r); congruence.
    + intros p Hp. destruct (ok_fresh0 p Hp) as [Hr Hw]. split; [|done].
      destruct (da_records s' !! p) as [x'|] eqn:E; [|done].
      destruct (quiet_record _ _ _ _ Q E) as (x & Hx & _). congruence.
    + intros d x' r H T. destruct (quiet_record _ _ _ _ Q H) as (x & Hx & (_ & E & _)%core_fields).
      eapply ok_fresh_token0; [exact Hx|congruence].
  - intros d x H Hn. destruct (quiet_record_after _ _ _ _ Q H) as (x' & Hx' & E). exists x'. split; [done|].
    apply core_fields in E as (_ & _ & E & _). split; [done|]. unfold not_loading. by rewrite qu_loading0.
  - intros d x H. destruct (quiet_record_after _ _ _ _ Q H) as (x' & Hx' & E). exists x'. split; [done|].
    by apply carries_core.
  - rewrite qu_waiting0. auto.
  - rewrite qu_next0. reflexivity.
Qed.

(** * Quiet operations *)

Lemma quiet_trace s f : quiet s (s <| da_trace ::= f |>).
Proof. constructor; try done. eauto. Qed.

Lemma quiet_emit e s : keeps quiet (emit e) s.
Proof. apply wp_modify, quiet_trace. Qed.

Lemma keeps_the_data {B} (R : relation Datas) d (k : DataAbilityRecord → ST Datas B) s x :
  da_records s !! d = Some x → keeps R (k x) s → keeps R (the_data d ≫= k) s.
Proof. intros Hx H. by apply (wp_read (λ s, da_records s !! d) x). Qed.

(** A record changes where it does not matter. *)
Lemma quiet_upd d f s :
  (∀ x, da_records s !! d = Some x →
    core (f x) = core x ∧ (d_clients x = [] → ability_state x ≠ Some ACTIVE → d_clients (f x) = [])) →
  keeps quiet (upd_data d f) s.
Proof.
  intros Hf. apply wp_modify. constructor; datas_cbn; try done.
  - apply map_eq. intros p. rewrite !lookup_fmap, lookup_alter. case_decide; [subst p|done].
    destruct (da_records s !! d) as [x|]; [|done]. cbn. f_equal. by apply Hf.
  - intros p x'. rewrite lookup_alter. case_decide; [subst p|eauto].
    destruct (da_records s !! d) as [x|]; [|done]. intros [= <-]. exists x. split; [done|]. by apply Hf.
Qed.

Lemma quiet_upd_ability d f s : (∀ a, r_state (f a) = r_state a ∧ r_info (f a) = r_info a) →
  keeps quiet (upd_data_ability d f) s.
Proof.
  intros Hf. apply quiet_upd. intros x _. split; [|done]. unfold core. datas_cbn.
  destruct (d_ability x) as [[? a]|]; [|done]. cbn. by rewrite (proj1 (Hf a)), (proj2 (Hf a)).
Qed.

(** The clients of a loaded record change. *)
Lemma quiet_upd_clients d x token f s :
  da_records s !! d = Some x → loaded_ability x = Some token → keeps quiet (upd_data d (λ x, x <| d_clients ::= f |>)) s.
Proof.
  intros Hx Hl. apply quiet_upd. intros y Hy. assert (y = x) as -> by congruence. split; [done|].
  intros _ Hst. exfalso. revert Hl Hst. unfold loaded_ability, ability_state, IsAbilityState.
  destruct (d_ability x) as [[[? ?] a]|]; [|done]. destruct (d_scheduler x); [|done]. cbn.
  case_bool_decide; [congruence|done].
Qed.

Lemma quiet_AddClient d c tb sys s x : da_records s !! d = Some x → keeps quiet (AddClient d c tb sys) s.
Proof.
  intros Hx. unfold AddClient. apply (keeps_the_data _ _ _ _ x Hx).
  destruct (loaded_ability x) as [token|] eqn:Hl; [|apply (keeps_ret _)].
  apply (keeps_bind _).
  - destruct sys; [|apply (keeps_ret _)].
    apply (keeps_bind _); [destruct (d_recipient x); [apply quiet_emit|apply (keeps_ret _)]|]. intros _ s1 _ _.
    apply (keeps_bind _); [by apply quiet_upd|]. intros _ s2 _ _. apply quiet_emit.
  - intros _ s1 _ Q1. destruct (quiet_record_after _ _ _ _ Q1 Hx) as (x1 & Hx1 & E1).
    apply (keeps_bind _).
    { apply (quiet_upd_clients d x1 token); [done|]. apply core_fields in E1 as (_ & _ & _ & _ & _ & ->). done. }
    intros _ s2 _ _. destruct sys; [apply (keeps_ret _)|]. apply keeps_gets.
    destruct (GetAbilityRecordOfToken _ c); [|apply (keeps_ret _)].
    apply (keeps_bind _); [apply quiet_emit|]. intros. apply (keeps_ret _).
Qed.

Lemma quiet_RemoveClient d c sys s x : da_records s !! d = Some x → keeps quiet (RemoveClient d c sys) s.
Proof.
  intros Hx. unfold RemoveClient. apply (keeps_the_data _ _ _ _ x Hx).
  destruct (loaded_ability x) as [token|] eqn:Hl; [|apply (keeps_ret _)].
  destruct (List.find _ _); [|apply (keeps_ret _)]. apply keeps_gets. cbv zeta.
  destruct sys; [apply (keeps_bind _); [by eapply quiet_upd_clients|intros; apply (keeps_ret _)]|].
  destruct (GetAbilityRecordOfToken _ c); [|apply (keeps_ret _)].
  apply (keeps_bind _); [apply quiet_emit|]. intros _ s1 _ Q1.
  destruct (quiet_record_after _ _ _ _ Q1 Hx) as (x1 & Hx1 & E1).
  apply (keeps_bind _); [|intros; apply (keeps_ret _)]. apply (quiet_upd_clients d x1 token); [done|].
  by apply core_fields in E1 as (_ & _ & _ & _ & _ & ->).
Qed.

Lemma quiet_for_each {A} (f : A → ST Datas unit) l s :
  (∀ y s', y ∈ l → quiet s s' → keeps quiet (f y) s') → keeps quiet (for_each f l) s.
Proof. apply (keeps_for_each_from _). Qed.

Lemma quiet_RemoveClients d r s x : da_records s !! d = Some x → keeps quiet (RemoveClients d r) s.
Proof.
  intros Hx. unfold RemoveClients. apply (keeps_the_data _ _ _ _ x Hx).
  destruct (loaded_ability x) as [token|] eqn:Hl; [|apply (keeps_ret _)].
  apply (keeps_bind _).
  { apply quiet_for_each. intros ci s' _ _. destruct (is_client_ability _ _); [apply quiet_emit|apply (keeps_ret _)]. }
  intros _ s1 _ Q1. destruct (quiet_record_after _ _ _ _ Q1 Hx) as (x1 & Hx1 & E1).
  apply (keeps_bind _); [|intros; apply (keeps_ret _)]. apply (quiet_upd_clients d x1 token); [done|].
  by apply core_fields in E1 as (_ & _ & _ & _ & _ & ->).
Qed.

Lemma quiet_KillBoundClientProcesses d s x : da_records s !! d = Some x → keeps quiet (KillBoundClientProcesses d) s.
Proof.
  intros Hx. unfold KillBoundClientProcesses. apply (keeps_the_data _ _ _ _ x Hx).
  destruct (loaded_ability x); [|apply (keeps_ret _)].
  apply (keeps_bind _); [|intros; apply (keeps_ret _)]. apply quiet_for_each. intros ci s' _ _.
  destruct (_ && _); [|apply (keeps_ret _)]. apply keeps_gets.
  destruct (GetAbilityRecordOfToken _ _); [apply quiet_emit|apply (keeps_ret _)].
Qed.

Lemma quiet_OnSchedulerDied d o s : keeps quiet (OnSchedulerDied d o) s.
Proof.
  apply quiet_upd. intros x _. split; [done|]. datas_cbn. by intros -> _.
Qed.

Lemma quiet_RestartDataAbility info b s : keeps quiet (RestartDataAbility info b) s.
Proof. unfold RestartDataAbility. destruct (_ ≫= _); [apply quiet_emit|apply (keeps_ret _)]. Qed.

Lemma elem_of_data_list m n d : (n, d) ∈ data_list m ↔ m !! n = Some d.
Proof. apply elem_of_in_order. Qed.

Lemma filed_record s n d P : filed s n d P → ∃ x, da_records s !! d = Some x.
Proof. intros (x & _ & Hx & _). by exists x. Qed.

Lemma quiet_OnAppStateChanged p l st s : data_ok s → keeps quiet (OnAppStateChanged p l st) s.
Proof.
  intros Hs. unfold OnAppStateChanged. apply keeps_gets. apply quiet_for_each. intros [n d] s' Hin Q.
  assert (∃ x, da_records s !! d = Some x) as [x Hx].
  { apply elem_of_app in Hin as [Hin|Hin]; apply elem_of_data_list in Hin.
    - eapply filed_record, (ok_loaded _ Hs); exact Hin.
    - eapply filed_record, (ok_loading _ Hs); exact Hin. }
  destruct (quiet_record_after _ _ _ _ Q Hx) as (x' & Hx' & _). cbn [snd]. apply (keeps_the_data _ _ _ _ x' Hx').
  destruct (app_matches _ _ _); [by apply quiet_upd_ability|apply (keeps_ret _)].
Qed.

Lemma find_data_filed P s m n d : find_data P s m = Some (n, d) →
  m !! n = Some d ∧ ∃ x, da_records s !! d = Some x ∧ P x = true.
Proof.
  intros [Hin HP]%find_Some_elem. apply elem_of_data_list in Hin. split; [done|]. cbn in HP.
  destruct (da_records s !! d) as [x|]; [|done]. by exists x.
Qed.

Lemma quiet_Release judge sch c sys s : data_ok s → keeps quiet (Release judge sch c sys) s.
Proof.
  intros Hs. unfold Release. destruct sch as [sch|], c as [c|]; try apply (keeps_ret _). apply keeps_gets.
  destruct (find_data _ _ _) as [[n d]|] eqn:Hf; [|apply (keeps_ret _)].
  destruct (find_data_filed _ _ _ _ _ Hf) as (_ & x & Hx & _). apply (keeps_the_data _ _ _ _ x Hx).
  destruct (d_ability x) as [[[? ?] a]|]; [|apply (keeps_ret _)].
  destruct (negb _); [apply (keeps_ret _)|]. destruct (decide _); [apply (keeps_ret _)|].
  apply (keeps_bind _); [by eapply quiet_RemoveClient|]. intros. apply (keeps_ret _).
Qed.

(** * Changes of the tables *)

(** Entries go, the clock goes on, references are taken. *)
Lemma tables_evolve s s' :
  da_records s' = da_records s → dataAbilityRecordsLoaded_ s' ⊆ dataAbilityRecordsLoaded_ s →
  dataAbilityRecordsLoading_ s' ⊆ dataAbilityRecordsLoading_ s → da_waiting s' ⊆ da_waiting s →
  (da_next s ≤ da_next s')%positive → evolves s s'.
Proof.
  intros Er Hl Hg Hw Hn [Hsh Hlo Hld Hap Hwt Htk Hfr Hft].
  assert (∀ n d P, filed s n d P → filed s' n d P) as Hf.
  { intros n d P (x & st & ?). exists x, st. by rewrite Er. }
  constructor; [| |rewrite Er; intros d x ?; by exists x| |done].
  - constructor; rewrite ?Er; try done.
    + intros n d H. eapply Hf, Hlo, lookup_weaken; [exact H|done].
    + intros n d H. eapply Hf, Hld, lookup_weaken; [exact H|done].
    + intros n d H. eapply lookup_weaken_None; [|exact Hg]. eapply Hap, lookup_weaken; [exact H|done].
    + intros t w H. eapply Hf, Hwt, lookup_weaken; [exact H|done].
    + intros p Hp. destruct (Hfr p ltac:(lia)) as [? H]. split; [done|]. by eapply lookup_weaken_None.
    + intros d x r Hx Ht. eapply Pos.lt_le_trans; [by eapply Hft|done].
  - intros d x Hx Hnl. exists x. rewrite Er. split; [done|]. split; [done|]. intros n H. eapply Hnl, lookup_weaken; [exact H|done].
  - intros t w H. left. by eapply lookup_weaken.
Qed.

Lemma evolves_new_waiter s s' w :
  da_records s' = da_records s → dataAbilityRecordsLoaded_ s' = dataAbilityRecordsLoaded_ s →
  dataAbilityRecordsLoading_ s' = dataAbilityRecordsLoading_ s → da_waiting s' = <[da_next s := w]> (da_waiting s) →
  da_next s' = Pos.succ (da_next s) → filed s (w_name w) (w_record w) (λ _, True) → evolves s s'.
Proof.
  intros Er El Eg Ew En Hf [Hsh Hlo Hld Hap Hwt Htk Hfr Hft].
  assert (∀ n d P, filed s n d P → filed s' n d P) as Hk.
  { intros n d P (x & st & ?). exists x, st. by rewrite Er. }
  constructor; [| |rewrite Er; intros d x ?; by exists x| |lia].
  - constructor; rewrite ?Er, ?El, ?Eg, ?Ew; eauto.
    + intros t' w' [[<- <-]|[_ H]]%lookup_insert_Some; apply Hk; eauto.
    + rewrite En. intros p Hp. destruct (Hfr p ltac:(lia)) as [? ?]. by rewrite lookup_insert_ne by lia.
    + rewrite En. intros d x r Hx Ht. specialize (Hft d x r Hx Ht). lia.
  - intros d x Hx Hn. exists x. rewrite Er. unfold not_loading. by rewrite Eg.
  - intros t' w'. rewrite Ew. intros [[<- <-]|[_ H]]%lookup_insert_Some; [right; lia|by left].
Qed.

(** A record comes in, under a name that is in no table, or under none. *)
Lemma evolves_new_record s s' x (n : option string) :
  da_records s' = <[da_next s := x]> (da_records s) → dataAbilityRecordsLoaded_ s' = dataAbilityRecordsLoaded_ s →
  dataAbilityRecordsLoading_ s' = match n with
    | Some n => <[n := da_next s]> (dataAbilityRecordsLoading_ s) | None => dataAbilityRecordsLoading_ s end →
  da_waiting s' = da_waiting s → (da_next s < da_next s')%positive → shape x →
  (∀ r, token_of x = Some r → (da_next s < r < da_next s')%positive) →
  (∀ m, n = Some m → name_of x = m ∧ (∃ st, ability_state x = Some st ∧ st ≠ ACTIVE) ∧
    dataAbilityRecordsLoaded_ s !! m = None) →
  evolves s s'.
Proof.
  intros Er El Eg Ew En Hx Ht Hn [Hsh Hlo Hld Hap Hwt Htk Hfr Hft].
  assert (∀ d y, da_records s !! d = Some y → da_records s' !! d = Some y) as Hold.
  { intros d y Hy. rewrite Er, lookup_insert_ne; [done|]. intros <-. destruct (Hfr (da_next s) ltac:(lia)). congruence. }
  assert (∀ m d P, filed s m d P → filed s' m d P) as Hf.
  { intros m d P (y & st & Hy & ?). exists y, st. by rewrite (Hold d y Hy). }
  constructor; [| |intros d y Hy; exists y; split; [by apply Hold|done]|rewrite Ew; auto|lia].
  2:{ intros d y Hy Hnl. exists y. split; [by apply Hold|]. split; [done|]. intros m. rewrite Eg. destruct n as [n|]; [|apply Hnl].
      intros [[_ <-]|[_ H]]%lookup_insert_Some; [|by eapply Hnl]. destruct (Hfr (da_next s) ltac:(lia)). congruence. }
  constructor; rewrite ?El, ?Ew; eauto.
  - intros d y. rewrite Er. intros [[<- <-]|[_ H]]%lookup_insert_Some; [done|eauto].
  - intros m d. rewrite Eg. destruct n as [n|]; [|eauto]. intros [[<- <-]|[_ H]]%lookup_insert_Some; [|eauto].
    destruct (Hn n eq_refl) as (? & (st & ? & ?) & _). exists x, st. by rewrite Er, lookup_insert_eq.
  - intros m d Hm. rewrite Eg. destruct n as [n|]; [|eauto]. rewrite lookup_insert_ne; [eauto|].
    intros ->. destruct (Hn m eq_refl) as (_ & _ & ?). congruence.
  - intros d1 d2 x1 x2 r. rewrite Er.
    intros [[<- <-]|[_ H1]]%lookup_insert_Some [[<- <-]|[_ H2]]%lookup_insert_Some T1 T2; eauto.
    + specialize (Hft _ _ _ H2 T2). specialize (Ht _ T1). lia.
    + specialize (Hft _ _ _ H1 T1). specialize (Ht _ T2). lia.
  - intros p Hp. destruct (Hfr p ltac:(lia)) as [? ?]. by rewrite Er, lookup_insert_ne by lia.
  - intros d y r. rewrite Er. intros [[<- <-]|[_ H]]%lookup_insert_Some T; [by apply Ht|].
    specialize (Hft _ _ _ H T). lia.
Qed.

(** A record that is being loaded changes its state, and its table if it is loaded now. *)
Lemma evolves_change s s' n d x y :
  dataAbilityRecordsLoading_ s !! n = Some d → da_records s !! d = Some x →
  da_records s' = <[d := y]> (da_records s) → carries x y → token_of y = token_of x → shape y →
  (∃ st, ability_state y = Some st ∧
    if decide (st = ACTIVE)
    then dataAbilityRecordsLoaded_ s' = <[n := d]> (dataAbilityRecordsLoaded_ s) ∧
         dataAbilityRecordsLoading_ s' = delete n (dataAbilityRecordsLoading_ s)
    else dataAbilityRecordsLoaded_ s' = dataAbilityRecordsLoaded_ s ∧
         dataAbilityRecordsLoading_ s' = dataAbilityRecordsLoading_ s) →
  da_waiting s' = da_waiting s → da_next s' = da_next s → evolves s s'.
Proof.
  intros Hd Hx Er HC Et Hy (st & Est & Htab) Ew En [Hsh Hlo Hld Hap Hwt Htk Hfr Hft].
  destruct (Hld n d Hd) as (x0 & st0 & Hx0 & Hst0 & Hne & Hname). assert (x0 = x) as -> by congruence.
  assert (name_of y = n) as Hny by (unfold name_of in *; by rewrite (ca_request _ _ HC)).
  assert (∀ m, dataAbilityRecordsLoading_ s !! m = Some d → m = n) as Huniq.
  { intros m Hm. destruct (Hld m d Hm) as (? & ? & ? & _ & _ & <-). congruence. }
  assert (∀ m, dataAbilityRecordsLoaded_ s !! m ≠ Some d) as Hnl.
  { intros m Hm. destruct (Hlo m d Hm) as (? & ? & ? & ? & -> & _). congruence. }
  assert (∀ m p P, filed s m p P → p ≠ d → filed s' m p P) as Hf.
  { intros m p P (z & stz & Hz & ?) Hp. exists z, stz. by rewrite Er, lookup_insert_ne. }
  assert (∀ p z, da_records s' !! p = Some z → (p = d ∧ z = y) ∨ da_records s !! p = Some z) as Hback.
  { intros p z. rewrite Er. intros [[<- <-]|[_ H]]%lookup_insert_Some; auto. }
  constructor.
  - constructor.
    + intros p z [[-> ->]|H]%Hback; [done|eauto].
    + intros m p Hm. destruct (decide (p = d)) as [->|Hp].
      * exists y, st. rewrite Er, lookup_insert_eq. destruct (decide (st = ACTIVE)); destruct Htab as [El _]; rewrite El in Hm.
        -- apply lookup_insert_Some in Hm as [[<- _]|[_ Hm]]; [done|]. by destruct (Hnl m).
        -- by destruct (Hnl m).
      * apply Hf; [|done]. apply Hlo. destruct (decide (st = ACTIVE)); destruct Htab as [El _]; rewrite El in Hm; [|done].
        apply lookup_insert_Some in Hm as [[_ ?]|[_ Hm]]; [congruence|done].
    + intros m p Hm. destruct (decide (st = ACTIVE)) as [Ha|Ha]; destruct Htab as [_ Eg]; rewrite Eg in Hm.
      * apply lookup_delete_Some in Hm as [Hmn Hm]. apply Hf; [by apply Hld|]. intros ->. by apply Hmn; rewrite (Huniq m).
      * destruct (decide (p = d)) as [->|Hp]; [|apply Hf; [by apply Hld|done]].
        exists y, st. rewrite Er, lookup_insert_eq. split_and!; [done..|]. by rewrite (Huniq m).
    + intros m p Hm. destruct (decide (st = ACTIVE)); destruct Htab as [El Eg]; rewrite El in Hm; rewrite Eg; [|eauto].
      apply lookup_delete_None. apply lookup_insert_Some in Hm as [[-> _]|[_ Hm]]; [by left|right; eauto].
    + intros t w. rewrite Ew. intros Hw. pose proof (Hwt t w Hw) as Hfw. destruct (decide (w_record w = d)) as [Ed|]; [|by apply Hf].
      destruct Hfw as (z & stz & Hz & _ & _ & Hnz). rewrite Ed in Hz |- *. assert (z = x) as -> by congruence.
      exists y, st. rewrite Er, lookup_insert_eq. split_and!; try done. congruence.
    + intros p1 p2 x1 x2 r [[-> ->]|H1]%Hback [[-> ->]|H2]%Hback T1 T2; eauto; rewrite Et in *; eauto.
    + intros p Hp. rewrite En in Hp. destruct (Hfr p Hp) as [? ?]. rewrite Ew. split; [|done].
      rewrite Er, lookup_insert_ne; [done|]. intros ->. congruence.
    + intros p z r [[-> ->]|H]%Hback T; rewrite En; [|eauto]. rewrite Et in T. eauto.
  - intros p z Hz Hn. destruct (decide (p = d)) as [->|Hp]; [by destruct (Hn n)|]. exists z.
    rewrite Er, lookup_insert_ne by done. split; [done|]. split; [done|]. intros m Hm. apply (Hn m).
    destruct (decide (st = ACTIVE)); destruct Htab as [_ Eg]; rewrite Eg in Hm; [|done].
    by apply lookup_delete_Some in Hm as [_ ?].
  - intros p z Hz. rewrite Er. destruct (decide (p = d)) as [->|Hp].
    + assert (z = x) as -> by congruence. exists y. by rewrite lookup_insert_eq.
    + exists z. by rewrite lookup_insert_ne.
  - rewrite Ew. auto.
  - by rewrite En.
Qed.

(** * Operations *)

Lemma keeps_quiet_evolves {A} (m : ST Datas A) s : keeps quiet m s → keeps evolves m s.
Proof. intros H. eapply wp_mono; [exact H|]. intros. by apply quiet_evolves. Qed.

(** The goal's state is the one of [H], but for an equation between records. *)
Ltac same_state H :=
  lazymatch type of H with ?Q ?r ?s2 => lazymatch goal with |- Q r ?s1 =>
    cut (s1 = s2); [intros ->; exact H|]; unfold update;
    cbn [da_records dataAbilityRecordsLoaded_ dataAbilityRecordsLoading_ da_waiting da_callers da_now da_next
         da_abilityRecordId da_trace]; f_equal end end.

(** [Attach] of a record that takes a scheduler. *)
Definition attached sch x : DataAbilityRecord :=
  x <| d_ability ::= fmap (λ y, (y.1, SetAbilityState ACTIVATING (SetScheduler true y.2))) |>
    <| d_scheduler := Some sch |>.

Lemma wp_Attach d sch token id a s x (Q : ErrCode → Datas → Prop) :
  da_records s !! d = Some x → d_ability x = Some (token, id, a) →
  (d_scheduler x = None → r_state a = INITIAL →
    Q ERR_OK (s <| da_records := <[d := attached sch x]> (da_records s) |>
                <| da_trace ::= λ l, l ++ [DaTransaction token (r_want a)] |>)) →
  (¬ (d_scheduler x = None ∧ r_state a = INITIAL) → Q ERR_INVALID_STATE s) →
  wp (Attach d (Some sch)) Q s.
Proof.
  intros Hx Ha Hok Hno. unfold Attach. apply (wp_read (λ s, da_records s !! d) x); [done|]. rewrite Ha.
  destruct (d_scheduler x) as [sch'|] eqn:Hs; [apply wp_ret, Hno; naive_solver|].
  unfold IsAbilityState. case_bool_decide as Hst; [|apply wp_ret, Hno; naive_solver].
  specialize (Hok eq_refl Hst). cbn [negb]. do 4 (apply wp_bind, wp_modify). apply wp_ret.
  same_state Hok. rewrite (alter_known _ d x (da_records s)) by done. rewrite (alter_known _ d _ (<[d := _]> _)) by apply lookup_insert_eq.
  rewrite insert_insert_eq, (alter_known _ d _ (<[d := _]> _)) by apply lookup_insert_eq. rewrite insert_insert_eq.
  f_equal. unfold attached, update. cbn. by rewrite Ha.
Qed.

Lemma keeps_AttachAbilityThread sch token s : keeps evolves (AttachAbilityThread sch token) s.
Proof.
  unfold AttachAbilityThread. destruct sch as [sch|], token as [tk|]; try apply (keeps_ret _). apply keeps_gets.
  cbv beta delta [id]. destruct (find_data _ _ _) as [[n d]|] eqn:Hf; [|apply (keeps_ret _)].
  apply find_data_filed in Hf as (Hd & x & Hx & Htk). apply bool_decide_eq_true in Htk. unfold token_of in Htk.
  destruct (d_ability x) as [[[r i] a]|] eqn:Ha; [|done].
  unfold keeps. eapply wp_Attach; [exact Hx|exact Ha| |intros _; reflexivity]. intros Hs Hst Hok.
  eapply (evolves_change _ _ n d x (attached sch x)); try done.
  - unfold attached. constructor; datas_cbn; try done.
    + intros r'. unfold token_of. datas_cbn. rewrite Ha. done.
    + unfold ability_state. rewrite Ha. cbn. congruence.
    + congruence.
    + rewrite Hs. by intros _ [].
  - unfold token_of, attached. datas_cbn. by rewrite Ha.
  - pose proof (ok_shape _ Hok _ _ Hx) as Hsh. unfold shape, attached in *. datas_cbn. rewrite Ha in *. cbn [fmap option_fmap option_map fst snd].
    rewrite info_SetAbilityState, state_SetAbilityState. destruct Hsh as (? & ? & Hsh). split; [done|]. split; [done|].
    right; left. split; [done|]. split; [by eexists|]. destruct Hsh as [[_ ?]|[(? & ?)|[? ?]]]; congruence.
  - exists ACTIVATING. unfold ability_state, attached. datas_cbn. rewrite Ha. cbn [fmap option_fmap option_map fst snd].
    rewrite state_SetAbilityState. by split.
Qed.

Definition with_state st x : DataAbilityRecord := x <| d_ability ::= fmap (λ y, (y.1, SetAbilityState st y.2)) |>.

Lemma wp_OnTransitionDone d state s x (Q : ErrCode → Datas → Prop) :
  da_records s !! d = Some x →
  (∀ token id a, d_ability x = Some (token, id, a) → is_Some (d_scheduler x) → r_state a = ACTIVATING →
    let st := if state =? ABILITY_STATE_ACTIVE then ACTIVE else INITIAL in
    Q (if state =? ABILITY_STATE_ACTIVE then ERR_OK else ERR_INVALID_STATE)
      (s <| da_records := <[d := with_state st x]> (da_records s) |>)) →
  (¬ (ability_state x = Some ACTIVATING ∧ is_Some (d_scheduler x)) → Q ERR_INVALID_STATE s) →
  wp (OnTransitionDone d state) Q s.
Proof.
  intros Hx Hok Hno. unfold OnTransitionDone. apply (wp_read (λ s, da_records s !! d) x); [done|].
  assert (∀ st, s <| da_records ::= alter (with_state st) d |> = s <| da_records := <[d := with_state st x]> (da_records s) |>) as E.
  { intros st. unfold update. f_equal. by apply alter_known. }
  unfold ability_state in Hno. destruct (d_ability x) as [[[token i] a]|] eqn:Ha; [|apply wp_ret, Hno; by intros [? ?]].
  destruct (d_scheduler x) as [sch|] eqn:Hs; [|apply wp_ret, Hno; by intros [_ []]].
  unfold IsAbilityState. case_bool_decide as Hst; [|apply wp_ret, Hno; cbn; naive_solver]. cbn [negb].
  specialize (Hok _ _ _ eq_refl ltac:(by eexists) Hst).
  revert Hok. destruct (state =? ABILITY_STATE_ACTIVE); cbv zeta; cbn [negb]; intros Hok; apply wp_bind, wp_modify, wp_ret;
    same_state Hok; apply (f_equal da_records (E _)).
Qed.

Lemma evolves_with_state s s' n d x token i a st :
  dataAbilityRecordsLoading_ s !! n = Some d → da_records s !! d = Some x →
  d_ability x = Some (token, i, a) → is_Some (d_scheduler x) → r_state a = ACTIVATING → (st = ACTIVE ∨ st = INITIAL) →
  da_records s' = <[d := with_state st x]> (da_records s) →
  (if decide (st = ACTIVE)
   then dataAbilityRecordsLoaded_ s' = <[n := d]> (dataAbilityRecordsLoaded_ s) ∧
        dataAbilityRecordsLoading_ s' = delete n (dataAbilityRecordsLoading_ s)
   else dataAbilityRecordsLoaded_ s' = dataAbilityRecordsLoaded_ s ∧
        dataAbilityRecordsLoading_ s' = dataAbilityRecordsLoading_ s) →
  da_waiting s' = da_waiting s → da_next s' = da_next s → evolves s s'.
Proof.
  intros Hd Hx Ha Hsch Hst Hor Er Htab Ew En Hok. pose proof (ok_shape _ Hok _ _ Hx) as Hsh.
  assert (ability_state (with_state st x) = Some st) as Est.
  { unfold ability_state, with_state. datas_cbn. rewrite Ha. cbn [fmap option_fmap option_map fst snd]. by rewrite state_SetAbilityState. }
  assert (token_of (with_state st x) = token_of x) as Et by (unfold token_of, with_state; datas_cbn; by rewrite Ha).
  eapply (evolves_change s s' n d x (with_state st x)); try done.
  - constructor; [done|by rewrite Et| |done|]; unfold ability_state at 1; rewrite Ha; cbn; congruence.
  - unfold shape, with_state in *. datas_cbn. rewrite Ha in *. cbn [fmap option_fmap option_map fst snd].
    rewrite info_SetAbilityState, state_SetAbilityState. destruct Hsh as (? & ? & Hsh). do 2 (split; [done|]).
    destruct Hor as [->| ->]; [by right; right|left]. split; [done|].
    destruct Hsh as [[? ?]|[(_ & _ & ?)|[? ?]]]; congruence.
  - by exists st.
Qed.

Lemma keeps_DataTransitionDone token state s : keeps evolves (AbilityTransitionDone token state) s.
Proof.
  unfold AbilityTransitionDone. destruct token as [tk|]; [|apply (keeps_ret _)]. apply keeps_gets.
  cbv beta delta [id]. destruct (find_data _ _ _) as [[n d]|] eqn:Hf; [|apply (keeps_ret _)].
  apply find_data_filed in Hf as (Hd & x & Hx & _). unfold keeps. apply wp_bind. eapply wp_OnTransitionDone; [exact Hx| |].
  - intros r i a Ha Hs Hst. cbv zeta. destruct (state =? ABILITY_STATE_ACTIVE).
    + rewrite decide_True by done. apply wp_bind, wp_bind, wp_modify, wp_modify, wp_ret.
      eapply (evolves_with_state _ _ n d x r i a ACTIVE); try done. by left.
    + rewrite decide_False by done. apply wp_bind, wp_ret, wp_ret.
      eapply (evolves_with_state _ _ n d x r i a INITIAL); try done. by right.
  - intros _. rewrite decide_False by done. apply wp_bind, wp_ret, wp_ret. reflexivity.
Qed.

Section loading.
Context (restartMax : Z) (app_load : RRef → Z).
Implicit Types (q : AbilityRequest).

(** The record that [LoadLocked] makes when it is named [d] and its ability [token]. *)
Definition new_data q (uid : Z) (token : RRef) (n : Z) : DataAbilityRecord :=
  mkData q uid (Some (token, wrap_i32 n,
    (CreateAbilityRecord restartMax q) <| r_want ::= RemoveParam ABILITY_OWNER_USERID |>)) None [] false.

(** [LoadLocked] has started to load, or has failed to. *)
Record starts (name : string) q uid s s' : Prop := {
  sta_records : da_records s' = <[da_next s := new_data q uid (Pos.succ (da_next s)) (da_abilityRecordId s)]> (da_records s);
  sta_loaded : dataAbilityRecordsLoaded_ s' = dataAbilityRecordsLoaded_ s;
  sta_loading : dataAbilityRecordsLoading_ s' = <[name := da_next s]> (dataAbilityRecordsLoading_ s);
  sta_waiting : da_waiting s' = da_waiting s;
  sta_callers : da_callers s' = da_callers s;
  sta_now : da_now s' = da_now s;
  sta_next : da_next s' = Pos.succ (Pos.succ (da_next s));
  sta_trace : ∃ wt, da_trace s' = da_trace s ++ [DaLoadAbility (Pos.succ (da_next s)) None wt];
  sta_type : ai_type (rq_info q) = DATA;
}.
Record starts_not q uid s s' : Prop := {
  stn_records : da_records s' = <[da_next s := mkData q uid None None [] false]> (da_records s);
  stn_loaded : dataAbilityRecordsLoaded_ s' = dataAbilityRecordsLoaded_ s;
  stn_loading : dataAbilityRecordsLoading_ s' = dataAbilityRecordsLoading_ s;
  stn_waiting : da_waiting s' = da_waiting s;
  stn_callers : da_callers s' = da_callers s;
  stn_next : (da_next s < da_next s')%positive;
}.

Lemma wp_LoadDataAbility token q s (Q : ErrCode → Datas → Prop) :
  (∀ wt, app_name (rq_app q) ≠ "" → Q (if app_load token =? 0 then ERR_OK else INNER_ERR)
          (s <| da_trace ::= λ l, l ++ [DaLoadAbility token None wt] |>)) →
  (app_name (rq_app q) = "" → Q ERR_INVALID_VALUE s) →
  wp (LoadDataAbility app_load token (CreateAbilityRecord restartMax q)) Q s.
Proof.
  intros Hok Hno. unfold LoadDataAbility. destruct (decide _); [by apply wp_ret, Hno|].
  cbn [CanRestartRootLauncher CreateAbilityRecord r_isLauncherRoot r_callerList last andb negb].
  apply wp_bind, wp_gets. cbv zeta. apply wp_bind, wp_modify, wp_ret. by apply Hok.
Qed.

Lemma wp_LoadLocked name q uid s (Q : option DRef → Datas → Prop) :
  (∀ d, dataAbilityRecordsLoading_ s !! name = Some d → Q (Some d) s) →
  (∀ s', dataAbilityRecordsLoading_ s !! name = None → app_name (rq_app q) ≠ "" → app_load (Pos.succ (da_next s)) = 0 →
     starts name q uid s s' → Q (Some (da_next s)) s') →
  (∀ s', dataAbilityRecordsLoading_ s !! name = None →
     ¬ (ai_type (rq_info q) = DATA ∧ app_name (rq_app q) ≠ "" ∧ app_load (Pos.succ (da_next s)) = 0) →
     starts_not q uid s s' → Q None s') →
  wp (LoadLocked restartMax app_load name q uid) Q s.
Proof.
  intros Hold Hnew Hfail. unfold LoadLocked. apply wp_bind, wp_gets. cbv beta delta [id].
  destruct (dataAbilityRecordsLoading_ s !! name) as [d|] eqn:Hl; [by apply wp_ret, Hold|].
  apply wp_bind. unfold take_ref at 1. apply wp_bind, wp_gets, wp_bind, wp_modify, wp_ret.
  apply wp_bind, wp_modify. apply wp_bind. unfold StartLoading.
  eapply wp_read; [datas_cbn; apply lookup_insert_eq|]. cbn [d_ability d_scheduler d_request].
  change (bool_decide (is_Some None) || bool_decide (is_Some None))%bool with false. cbv iota.
  case_bool_decide as Hty; cbn [negb].
  2:{ apply wp_ret. rewrite decide_False by done. apply wp_ret, Hfail; [done|naive_solver|]. constructor; datas_cbn; try done. lia. }
  apply wp_bind. unfold take_ref. apply wp_bind, wp_gets, wp_bind, wp_modify, wp_ret.
  apply wp_bind, wp_gets. apply wp_bind, wp_modify. cbv zeta. apply wp_bind. apply wp_LoadDataAbility.
  - intros w Hne. datas_cbn. destruct (app_load _ =? 0) eqn:Hz; [apply Z.eqb_eq in Hz|apply Z.eqb_neq in Hz].
    + rewrite decide_True by done. apply wp_bind, wp_modify, wp_ret. rewrite decide_True by done. apply wp_bind, wp_modify, wp_ret.
      apply Hnew; [done..|]. constructor; datas_cbn; try done; [|by eexists].
      rewrite (alter_known _ _ (mkData q uid None None [] false)) by apply lookup_insert_eq. by rewrite insert_insert_eq.
    + rewrite decide_False by done. apply wp_ret. rewrite decide_False by done. apply wp_ret, Hfail; [done|naive_solver|].
      constructor; datas_cbn; try done. lia.
  - intros He. rewrite decide_False by done. apply wp_ret. rewrite decide_False by done. apply wp_ret, Hfail; [done|naive_solver|].
    constructor; datas_cbn; try done. lia.
Qed.

Lemma starts_evolves name q uid s s' :
  starts name q uid s s' → name = data_name (rq_info q) → dataAbilityRecordsLoaded_ s !! name = None → evolves s s'.
Proof.
  intros [] -> Hl. eapply (evolves_new_record s s' _ (Some (data_name (rq_info q)))); [done..| | | |].
  - lia.
  - unfold shape, new_data. datas_cbn. split; [done|]. split; [done|]. left. done.
  - intros r [= <-]. lia.
  - intros m [= <-]. split; [done|]. split; [|done]. by exists INITIAL.
Qed.

Lemma starts_not_evolves q uid s s' : starts_not q uid s s' → evolves s s'.
Proof. intros []. by eapply (evolves_new_record s s' _ None). Qed.

Lemma keeps_LoadLocked_done name d ret s : keeps evolves (LoadLocked_done name d ret) s.
Proof.
  unfold LoadLocked_done. destruct (decide _); [apply (keeps_ret _)|]. apply wp_bind, wp_modify, wp_ret.
  apply tables_evolve; datas_cbn; try done. apply delete_subseteq.
Qed.

Lemma keeps_Acquire_done name record client tb sys s :
  (∀ d, record = Some d → ∃ x, da_records s !! d = Some x) → keeps evolves (Acquire_done name record client tb sys) s.
Proof.
  intros Hr. unfold Acquire_done. destruct record as [d|]; [|apply (keeps_ret _)]. destruct (Hr d eq_refl) as [x Hx].
  apply (keeps_the_data _ _ _ _ x Hx). destruct (scheduler_of x).
  - destruct client as [c|]; [|apply (keeps_ret _)]. apply keeps_quiet_evolves.
    apply (keeps_bind _); [|intros; apply (keeps_ret _)]. apply (keeps_bind _); [by eapply quiet_AddClient|].
    intros. apply (keeps_ret _).
  - apply wp_bind, wp_modify, wp_ret. apply tables_evolve; datas_cbn; try done. apply delete_subseteq.
Qed.

Lemma LoadLocked_done_record name d ret s r s' :
  LoadLocked_done name d ret s = Returned (r, s') → da_records s' = da_records s ∧ (r = Some d ∨ r = None).
Proof. unfold LoadLocked_done. destruct (decide _); intros [= <- <-]; auto. Qed.

Lemma keeps_load_end name d ret client tb sys s x :
  da_records s !! d = Some x →
  keeps evolves (record ← LoadLocked_done name d ret; Acquire_done name record client tb sys) s.
Proof.
  intros Hx. apply (keeps_bind _); [apply keeps_LoadLocked_done|].
  intros r s' [Er Hr]%LoadLocked_done_record _. apply keeps_Acquire_done.
  intros d' ->. destruct Hr as [[= ->]|]; [|done]. exists x. by rewrite Er.
Qed.

(** ** The two steps of [Acquire] *)

Lemma keeps_Acquire q uid tb client sys s :
  data_ok s → keeps evolves (Acquire restartMax app_load q uid tb client sys) s.
Proof.
  intros Hs. unfold Acquire. cbv zeta. destruct (negb _); [apply (keeps_ret _)|]. destruct (_ || _); [apply (keeps_ret _)|].
  apply keeps_gets. cbv beta delta [id]. destruct (match client with Some _ => _ | None => _ end); [apply (keeps_ret _)|].
  set (name := data_name (rq_info q)). destruct (dataAbilityRecordsLoaded_ s !! name) as [d|] eqn:Hl.
  { apply (keeps_bind _); [|intros; apply (keeps_ret _)]. apply keeps_Acquire_done.
    intros d' [= <-]. eapply filed_record, (ok_loaded _ Hs); exact Hl. }
  apply (keeps_bind _).
  { apply wp_LoadLocked; [reflexivity|intros s' _ _ _ H; by eapply starts_evolves|intros s' _ _ H; by eapply starts_not_evolves]. }
  intros loading s1 E1 V1. pose proof (ev_ok _ _ (V1 Hs)) as Hs1. destruct loading as [d|]; [|apply (keeps_ret _)].
  assert (filed s1 name d (λ _, True)) as (x & st & Hx & Hst & _ & Hn).
  { assert (wp (LoadLocked restartMax app_load name q uid) (λ r s', ∀ d, r = Some d → filed s' name d (λ _, True)) s) as H.
    { apply wp_LoadLocked; [|intros s' _ _ _ []|done].
      - intros d0 Hd0 ? [= <-]. destruct (ok_loading _ Hs _ _ Hd0) as (x & st & ? & ? & _ & ?). by exists x, st.
      - intros d0 [= <-]. eexists _, INITIAL. rewrite sta_records0, lookup_insert_eq. split_and!; done. }
    unfold wp in H. rewrite E1 in H. by apply H. }
  apply (keeps_bind _); [unfold WaitForLoaded; apply (keeps_the_data _ _ _ _ x Hx); apply (keeps_ret _)|].
  intros over s2 E2 _. assert (s2 = s1) as ->.
  { unfold WaitForLoaded, the_data, mbind, ST_bind in E2. cbn in E2. rewrite Hx in E2. by injection E2. }
  destruct over as [ret|].
  - apply (keeps_bind _); [by eapply keeps_LoadLocked_done|]. intros r s3 [Er Hr]%LoadLocked_done_record _.
    apply (keeps_bind _); [|intros; apply (keeps_ret _)]. apply keeps_Acquire_done.
    intros d' ->. destruct Hr as [[= ->]|]; [|done]. exists x. by rewrite Er.
  - unfold take_ref, keeps. apply wp_bind, wp_bind, wp_gets, wp_bind, wp_modify, wp_ret, wp_bind, wp_modify, wp_ret.
    eapply (evolves_new_waiter s1 _); datas_cbn; try done. by exists x, st.
Qed.

Lemma keeps_Acquire_resumed t s : data_ok s → is_Some (da_waiting s !! t) → keeps evolves (Acquire_resumed t) s.
Proof.
  intros Hs [w Hw]. unfold Acquire_resumed. apply keeps_gets. cbv beta delta [id].
  apply wp_bind. eapply wp_deref; [exact Hw|]. destruct (ok_waiting _ Hs _ _ Hw) as (x & st & Hx & Hst & _ & _).
  unfold ability_state in Hst. destruct (d_ability x) as [y|] eqn:Ha; [|done].
  unfold WaitForLoaded_resumed. apply wp_bind. eapply (wp_read (λ s, da_records s !! _)); [exact Hx|].
  apply wp_bind. eapply wp_deref; [exact Ha|]. apply wp_bind, wp_gets, wp_ret.
  match goal with |- wp (match ?o with Some _ => _ | None => _ end) _ _ => destruct o as [ret|] end; [|apply wp_ret; reflexivity].
  apply (keeps_bind _); [apply keeps_LoadLocked_done|].
  intros r s' [Er Hr]%LoadLocked_done_record _. apply (keeps_bind _).
  { apply keeps_Acquire_done. intros d' ->. destruct Hr as [[= ->]|]; [|done]. exists x. by rewrite Er. }
  intros sch s2 _ _. apply wp_bind, wp_modify, wp_ret. apply tables_evolve; datas_cbn; try done. apply delete_subseteq.
Qed.
End loading.

Lemma keeps_DataAbilityDied r info b s : data_ok s → keeps evolves (OnAbilityDied r info b) s.
Proof.
  intros Hs. unfold OnAbilityDied. apply keeps_gets. cbv beta delta [id]. apply (keeps_bind _).
  - destruct (decide _); [|apply (keeps_ret _)]. destruct (find_data _ _ _) as [[n d]|] eqn:Hf; [|apply (keeps_ret _)].
    apply find_data_filed in Hf as (_ & x & Hx & _).
    apply (keeps_bind _); [by eapply keeps_quiet_evolves, quiet_KillBoundClientProcesses|]. intros _ s1 _ _.
    apply wp_modify, tables_evolve; datas_cbn; try done. apply delete_subseteq.
  - intros _ s1 _ V. pose proof (ev_ok _ _ (V Hs)) as Hs1. apply keeps_quiet_evolves. apply keeps_gets. cbv beta delta [id].
    apply (keeps_bind _); [|intros; apply quiet_RestartDataAbility]. apply quiet_for_each. intros [n d] s2 Hin Q.
    apply elem_of_data_list in Hin. destruct (filed_record _ _ _ _ (ok_loaded _ Hs1 _ _ Hin)) as [x Hx].
    destruct (quiet_record_after _ _ _ _ Q Hx) as (x2 & Hx2 & _). cbn [snd].
    apply (keeps_bind _); [by eapply quiet_RemoveClients|]. intros. apply (keeps_ret _).
Qed.

(** * The transition system *)

Inductive DataEvent :=
  | DvAcquire (q : AbilityRequest) (appUid : Z) (tryBind : bool) (client : option Obj) (isSystem : bool)
  | DvResume (t : Thread)
  | DvRelease (judge : AbilityInfo → ErrCode) (scheduler client : option Obj) (isSystem : bool)
  | DvAttachAbilityThread (scheduler : option Obj) (token : option RRef)
  | DvAbilityTransitionDone (token : option RRef) (state : Z)
  | DvOnAbilityDied (r : RRef) (info : AbilityInfo) (bundles : option (list BundleInfo))
  | DvOnAppStateChanged (processName : string) (appData : list (string * Z)) (state : AppState)
  | DvOnSchedulerDied (d : DRef) (object : option Obj)
  | DvCallerStarted
  | DvCallerGone (r : RRef)
  | DvTick (ms : Z).

(** Only a thread inside [Acquire] resumes it, and time goes forward. *)
Definition data_event_ok s (e : DataEvent) : Prop :=
  match e with
  | DvResume t => is_Some (da_waiting s !! t)
  | DvTick ms => 0 ≤ ms
  | _ => True
  end.

#[export] Instance data_event_ok_dec s e : Decision (data_event_ok s e).
Proof. destruct e; cbn; apply _. Defined.

Section run.
Context (restartMax : Z) (app_load : RRef → Z).

Definition run_data (e : DataEvent) : ST Datas unit :=
  match e with
  | DvAcquire q uid tb client sys => _ ← Acquire restartMax app_load q uid tb client sys; mret tt
  | DvResume t => _ ← Acquire_resumed t; mret tt
  | DvRelease judge sch client sys => _ ← Release judge sch client sys; mret tt
  | DvAttachAbilityThread sch token => _ ← AttachAbilityThread sch token; mret tt
  | DvAbilityTransitionDone token state => _ ← AbilityTransitionDone token state; mret tt
  | DvOnAbilityDied r info b => OnAbilityDied r info b
  | DvOnAppStateChanged p l st => OnAppStateChanged p l st
  | DvOnSchedulerDied d o => OnSchedulerDied d o
  | DvCallerStarted => r ← take_ref; modify (λ s, s <| da_callers ::= λ m, {[r]} ∪ m |>)
  | DvCallerGone r => modify (λ s, s <| da_callers ::= λ m, m ∖ {[r]} |>)
  | DvTick ms => modify (λ s, s <| da_now ::= λ n, n + ms |>)
  end.

Definition data_initial : Datas := mkDatas ∅ ∅ ∅ ∅ ∅ 0 1 0 [].

Definition data_step : relation Datas := event_step run_data data_event_ok.
Definition data_reachable : Datas → Prop := rtc data_step data_initial.

Lemma data_ok_initial : data_ok data_initial.
Proof. constructor; intros *; cbn; rewrite ?lookup_empty; try done. Qed.

Lemma keeps_run_data e s : data_ok s → data_event_ok s e → keeps evolves (run_data e) s.
Proof.
  intros Hs He. destruct e; cbn [run_data data_event_ok] in *.
  - apply (keeps_bind _); [by apply keeps_Acquire|]. intros. apply (keeps_ret _).
  - apply (keeps_bind _); [by apply keeps_Acquire_resumed|]. intros. apply (keeps_ret _).
  - apply (keeps_bind _); [by apply keeps_quiet_evolves, quiet_Release|]. intros. apply (keeps_ret _).
  - apply (keeps_bind _); [apply keeps_AttachAbilityThread|]. intros. apply (keeps_ret _).
  - apply (keeps_bind _); [apply keeps_DataTransitionDone|]. intros. apply (keeps_ret _).
  - by apply keeps_DataAbilityDied.
  - by apply keeps_quiet_evolves, quiet_OnAppStateChanged.
  - apply keeps_quiet_evolves, quiet_OnSchedulerDied.
  - unfold take_ref. apply wp_bind, wp_bind, wp_gets, wp_bind, wp_modify, wp_ret, wp_modify.
    apply tables_evolve; datas_cbn; try done. lia.
  - by apply wp_modify, tables_evolve.
  - by apply wp_modify, tables_evolve.
Qed.

Lemma data_steps_evolve s s' : data_ok s → rtc data_step s s' → evolved s s'.
Proof.
  intros Hs H. destruct (rtc_keeps run_data data_event_ok data_ok evolves s s') as [E _]; [|done..|by apply E].
  intros e s0 H0 He. eapply wp_mono; [by apply keeps_run_data|]. intros [] s1 E1. split; [done|apply (ev_ok _ _ (E1 H0))].
Qed.

Lemma data_reachable_ok s : data_reachable s → data_ok s.
Proof. intros H. exact (ev_ok _ _ (data_steps_evolve _ _ data_ok_initial H)). Qed.
End run.
