(* ===== verification/DataAbilityClaims.v ===== *)
(** What the data ability manager guarantees, and where it does not do what it
    means to. *)

From S2P Require Import Prelude CppString Want CallContainer AbilityRecord DataAbility DataAbilityRun.
From Stdlib Require Import Ascii.

#[local] Open Scope stdpp_scope.
#[local] Open Scope Z_scope.

Implicit Types (s : Datas) (d : DRef) (x : DataAbilityRecord) (a : AbilityRecord) (t : Thread) (w : Waiter).
Implicit Types (q : AbilityRequest).

(** * Small runs, for the instances *)

Definition demo_data (name : string) : AbilityInfo :=
  mkAbilityInfo "" "com.demo" name "entry" "com.demo" DATA STANDARD false false false.
Definition demo_data_request (name : string) : AbilityRequest :=
  mkRequest emptyWant (demo_data name) (mkAppInfo "com.demo" "com.demo" false "label" "icon") 1 0 1
    INVALID_TYPE None None "".
Definition loads (r : RRef) : Z := 0.
Definition grants (i : AbilityInfo) : ErrCode := ERR_OK.

Definition data_after (es : list DataEvent) : Datas := after_events (run_data 3 loads) data_event_ok es data_initial.

Lemma data_after_reachable es :
  bool_decide (is_Some (run_events (run_data 3 loads) data_event_ok es data_initial)) = true →
  data_reachable 3 loads (data_after es).
Proof. apply after_events_steps. Qed.

Definition acquire_notes (client : Obj) : DataEvent :=
  DvAcquire (demo_data_request "Notes") 1 true (Some client) false.

(** An ability (1) acquires [Notes], which is record 2 with token 3; waiter 4. *)
Definition d_waiting : Datas := data_after
  [DvCallerStarted; acquire_notes 1; DvAttachAbilityThread (Some 9%positive) (Some 3%positive)].
Definition d_loaded : Datas := data_after
  [DvCallerStarted; acquire_notes 1; DvAttachAbilityThread (Some 9%positive) (Some 3%positive);
   DvAbilityTransitionDone (Some 3%positive) 2; DvResume 4].
(** Two waiters (4 and 5), the second five seconds after the first, and a third
    (8) that finds the name free when the first has given up. *)
Definition d_stale : Datas := data_after
  [DvCallerStarted; acquire_notes 1; DvTick 5000; acquire_notes 1; DvTick 6000; DvResume 4; DvTick 1000;
   acquire_notes 1; DvTick 4000].

Lemma d_waiting_reachable : data_reachable 3 loads d_waiting.
Proof. apply data_after_reachable. vm_compute. reflexivity. Qed.
Lemma d_loaded_reachable : data_reachable 3 loads d_loaded.
Proof. apply data_after_reachable. vm_compute. reflexivity. Qed.
Lemma d_stale_reachable : data_reachable 3 loads d_stale.
Proof. apply data_after_reachable. vm_compute. reflexivity. Qed.

(** * Helpers *)

(** A record that is being loaded is found by its token. *)
Lemma find_loading s n d x r :
  data_ok s → dataAbilityRecordsLoading_ s !! n = Some d → da_records s !! d = Some x → token_of x = Some r →
  find_data (has_token r) s (dataAbilityRecordsLoading_ s) = Some (n, d).
Proof.
  intros Hs Hd Hx Hr. destruct (find_data (has_token r) s (dataAbilityRecordsLoading_ s)) as [[m p]|] eqn:Hf.
  - apply find_data_filed in Hf as (Hm & y & Hy & Ht). apply bool_decide_eq_true in Ht.
    assert (p = d) as -> by by eapply (ok_tokens _ Hs p d y x r).
    destruct (ok_loading _ Hs _ _ Hd) as (z & _ & Hz & _ & _ & <-).
    destruct (ok_loading _ Hs _ _ Hm) as (z' & _ & Hz' & _ & _ & <-). congruence.
  - exfalso. unfold find_data in Hf. apply (find_None_elem _ _ (n, d)) in Hf; [|by apply elem_of_data_list].
    cbn in Hf. rewrite Hx in Hf. by apply bool_decide_eq_false in Hf.
Qed.

(** A loaded record gives its scheduler to whoever ends his [Acquire]. *)
Definition grown x (client : option Obj) (tb sys : bool) : list ClientInfo :=
  d_clients x ++ match client with Some c => [mkClient c tb sys] | None => [] end.

Record granted d x client tb sys s s' : Prop := {
  gr_record : ∃ x', da_records s' !! d = Some x' ∧ core x' = core x ∧ d_clients x' = grown x client tb sys;
  gr_others p : p ≠ d → da_records s' !! p = da_records s !! p;
  gr_quiet : quiet s s';
}.

Lemma wp_AddClient d c tb sys s x :
  da_records s !! d = Some x → is_Some (loaded_ability x) →
  wp (AddClient d c tb sys) (λ _, granted d x (Some c) tb sys s) s.
Proof.
  intros Hx [token Hl]. pose proof (quiet_AddClient d c tb sys s x Hx) as HQ. unfold keeps in HQ.
  cut (wp (AddClient d c tb sys) (λ _ s', (∃ x', da_records s' !! d = Some x' ∧ core x' = core x ∧
    d_clients x' = grown x (Some c) tb sys) ∧ ∀ p, p ≠ d → da_records s' !! p = da_records s !! p) s).
  { intros HW. eapply wp_mono; [exact (wp_and _ _ _ _ HW HQ)|]. intros _ s' [[? ?] ?]. by constructor. }
  clear HQ. unfold AddClient. eapply (wp_read (λ s, da_records s !! d)); [exact Hx|]. rewrite Hl.
  set (P := λ s1 : Datas, (∃ x1, da_records s1 !! d = Some x1 ∧ core x1 = core x ∧ d_clients x1 = d_clients x) ∧
    ∀ p, p ≠ d → da_records s1 !! p = da_records s !! p).
  apply wp_bind, (wp_mono _ (λ _, P)).
  - assert (P s) as HP by (split; [by exists x|done]).
    destruct sys; [|by apply wp_ret]. apply wp_bind, (wp_mono _ (λ _, P)).
    { destruct (d_recipient x); [by apply wp_modify|by apply wp_ret]. }
    intros _ s1 [(x1 & H1 & E1 & C1) Ho]. apply wp_bind, wp_modify, wp_modify. split; datas_cbn.
    + rewrite lookup_alter_eq, H1. eexists. split; [done|]. by split.
    + intros p Hp. rewrite lookup_alter_ne by done. by apply Ho.
  - intros _ s1 [(x1 & H1 & E1 & C1) Ho]. apply wp_bind, wp_modify.
    assert (∀ s2, da_records s2 = alter (λ x, x <| d_clients ::= λ l, l ++ [mkClient c tb sys] |>) d (da_records s1) →
      (∃ x', da_records s2 !! d = Some x' ∧ core x' = core x ∧ d_clients x' = grown x (Some c) tb sys) ∧
      ∀ p, p ≠ d → da_records s2 !! p = da_records s !! p) as HF.
    { intros s2 ->. split; [|intros p Hp; rewrite lookup_alter_ne by done; by apply Ho].
      rewrite lookup_alter_eq, H1. eexists. split; [done|]. split; [done|]. unfold grown. datas_cbn. by rewrite C1. }
    destruct sys; [by apply wp_ret, HF|]. apply wp_bind, wp_gets.
    destruct (GetAbilityRecordOfToken _ c); [by apply wp_bind, wp_modify, wp_ret, HF|by apply wp_ret, HF].
Qed.

Lemma loaded_of_shape x : shape x → ability_state x = Some ACTIVE →
  ∃ sch token, scheduler_of x = Some sch ∧ loaded_ability x = Some token ∧ d_scheduler x = Some sch ∧ token_of x = Some token.
Proof.
  unfold shape, scheduler_of, loaded_ability, ability_state, token_of, IsAbilityState.
  destruct (d_ability x) as [[[r i] a]|]; [|done]. cbn. intros (_ & _ & H) [= Ha]. rewrite Ha in *.
  destruct H as [[? _]|[(? & _)|[_ [sch Hs]]]]; [done..|]. exists sch, r. by rewrite Hs.
Qed.

Lemma wp_Acquire_done name d client tb sys s x sch :
  da_records s !! d = Some x → scheduler_of x = Some sch → is_Some (loaded_ability x) →
  wp (Acquire_done name (Some d) client tb sys) (λ r s', r = Some sch ∧ granted d x client tb sys s s') s.
Proof.
  intros Hx Hsch Hl. unfold Acquire_done. eapply (wp_read (λ s, da_records s !! d)); [exact Hx|]. rewrite Hsch.
  apply wp_bind. destruct client as [c|].
  - apply wp_bind. eapply wp_mono; [by apply wp_AddClient|]. intros e s' G. apply wp_ret, wp_ret. by split.
  - apply wp_ret, wp_ret. split; [done|]. constructor; [|done|reflexivity]. exists x. unfold grown. by rewrite app_nil_r.
Qed.

(** * The invariant *)

(** C28: In every state that the data ability manager reaches, a data ability is
    in at most one of its two tables, under its own name: in the loaded one
    exactly the tabled abilities in state ACTIVE, which have a scheduler; no
    ability that is not loaded has clients; tokens are unique; and whoever waits
    inside Acquire waits for an ability of the name he asked for. From such a
    state every operation returns. *)
Theorem data_tables_agree restartMax app_load s :
  data_reachable restartMax app_load s →
  data_ok s ∧ ∀ e, data_event_ok s e → ∃ s', run_data restartMax app_load e s = Returned (tt, s').
Proof.
  intros H. apply data_reachable_ok in H as Hs. split; [done|]. intros e He.
  destruct (wp_run _ _ _ (keeps_run_data restartMax app_load e s Hs He)) as ([] & s' & E & _). by exists s'.
Qed.

Lemma data_tables_agree_witness :
  data_reachable 3 loads d_stale ∧ data_ok d_stale ∧ ∃ s', run_data 3 loads (DvResume 5) d_stale = Returned (tt, s').
Proof.
  split; [exact d_stale_reachable|]. destruct (data_tables_agree 3 loads d_stale d_stale_reachable) as [Hok Hr].
  split; [exact Hok|]. apply Hr. apply lookup_is_some. vm_compute. reflexivity.
Defined.

(** * Waiting *)

(** Whoever resumes when his ability is loaded gets it. *)
Lemma wp_resume_loaded t w s x :
  data_ok s → da_waiting s !! t = Some w → da_records s !! w_record w = Some x → ability_state x = Some ACTIVE →
  ∃ sch s1 s', d_scheduler x = Some sch ∧ Acquire_resumed t s = Returned (Some (Some sch), s') ∧
    granted (w_record w) x (w_client w) (w_tryBind w) (w_isSystem w) s s1 ∧
    s' = s1 <| da_waiting ::= delete t |>.
Proof.
  intros Hs Hw Hx Hst. destruct (loaded_of_shape x) as (sch & token & Hsch & Hl & Hd & _); [by apply (ok_shape _ Hs _ _ Hx)|done|].
  exists sch.
  assert (wp (Acquire_resumed t) (λ r s', r = Some (Some sch) ∧ ∃ s1,
    granted (w_record w) x (w_client w) (w_tryBind w) (w_isSystem w) s s1 ∧ s' = s1 <| da_waiting ::= delete t |>) s) as H.
  { unfold Acquire_resumed. apply wp_bind, wp_gets. cbv beta delta [id]. apply wp_bind. eapply wp_deref; [exact Hw|].
    unfold ability_state in Hst. destruct (d_ability x) as [y|] eqn:Ha; [|done]. injection Hst as Hst.
    apply wp_bind. unfold WaitForLoaded_resumed. eapply (wp_read (λ s, da_records s !! _)); [exact Hx|].
    apply wp_bind. eapply wp_deref; [exact Ha|]. apply wp_bind, wp_gets, wp_ret. rewrite decide_True by done.
    rewrite decide_False by congruence. unfold LoadLocked_done. rewrite decide_True by done. apply wp_bind, wp_ret.
    apply wp_bind. eapply wp_mono; [by eapply wp_Acquire_done|]. intros r s1 [-> G]. apply wp_bind, wp_modify, wp_ret.
    split; [done|]. by exists s1. }
  apply wp_run in H as (r & s' & E & -> & s1 & G & E1). by exists s1, s'.
Qed.

(** Whoever resumes when it is not goes on waiting, or gives up. *)
Lemma wp_resume_unloaded t w s x :
  data_ok s → da_waiting s !! t = Some w → da_records s !! w_record w = Some x → ability_state x ≠ Some ACTIVE →
  wp (Acquire_resumed t) (λ r s', r = (if w_deadline w <=? da_now s then Some None else None) ∧
    (w_deadline w ≤ da_now s →
     s' = s <| dataAbilityRecordsLoading_ ::= delete (w_name w) |> <| da_waiting ::= delete t |>)) s.
Proof.
  intros Hs Hw Hx Hst. unfold Acquire_resumed. apply wp_bind, wp_gets. cbv beta delta [id].
  apply wp_bind. eapply wp_deref; [exact Hw|]. destruct (ok_waiting _ Hs _ _ Hw) as (x1 & st & Hx1 & Hst1 & _).
  assert (x1 = x) as -> by congruence. unfold ability_state in *. destruct (d_ability x) as [y|] eqn:Ha; [|done].
  apply wp_bind. unfold WaitForLoaded_resumed. eapply (wp_read (λ s, da_records s !! _)); [exact Hx|].
  apply wp_bind. eapply wp_deref; [exact Ha|]. apply wp_bind, wp_gets, wp_ret. rewrite decide_False by (cbn in Hst; congruence).
  destruct (Z.leb_spec (w_deadline w) (da_now s)) as [Hle|Hlt].
  - unfold LoadLocked_done. rewrite decide_False by done. apply wp_bind, wp_bind, wp_modify, wp_ret.
    apply wp_bind, wp_ret, wp_bind, wp_modify, wp_ret. done.
  - apply wp_ret. split; [done|lia].
Qed.

(** C29: once a data ability that has attached, whose record is in the loading table,
    reports that it has started, the record moves to the loaded table, and from this
    report on nobody who waits for this record misses it: each thread that does,
    whenever it gets the lock again, be it after its time is over and whatever has
    happened in between, returns the scheduler, has its client added to the ability's
    clients and waits no more. (Before the report the record may leave the loading
    table, when the time of an earlier waiter is over: [stale_timeout].) *)
Theorem waiters_served restartMax app_load n d x r sch s :
  data_reachable restartMax app_load s →
  dataAbilityRecordsLoading_ s !! n = Some d → da_records s !! d = Some x →
  token_of x = Some r → ability_state x = Some ACTIVATING → d_scheduler x = Some sch →
  ∃ s1, AbilityTransitionDone (Some r) ABILITY_STATE_ACTIVE s = Returned (ERR_OK, s1) ∧
    dataAbilityRecordsLoaded_ s1 !! n = Some d ∧
    ∀ s2 t w, rtc (data_step restartMax app_load) s1 s2 → da_waiting s2 !! t = Some w → w_record w = d →
      ∃ s3, Acquire_resumed t s2 = Returned (Some (Some sch), s3) ∧ da_waiting s3 !! t = None ∧
        ∃ x2 x3, da_records s2 !! d = Some x2 ∧ da_records s3 !! d = Some x3 ∧
          d_clients x3 = grown x2 (w_client w) (w_tryBind w) (w_isSystem w).
Proof.
  intros Hr Hd Hx Ht Hst Hsch. apply data_reachable_ok in Hr as Hs.
  pose proof (find_loading s n d x r Hs Hd Hx Ht) as Hf.
  assert (wp (AbilityTransitionDone (Some r) ABILITY_STATE_ACTIVE) (λ e s1, e = ERR_OK ∧
    dataAbilityRecordsLoaded_ s1 !! n = Some d ∧ ∃ x1, da_records s1 !! d = Some x1 ∧ ability_state x1 = Some ACTIVE ∧
    d_scheduler x1 = Some sch) s) as H.
  { unfold AbilityTransitionDone. apply wp_bind, wp_gets. cbv beta delta [id]. rewrite Hf. apply wp_bind.
    eapply wp_OnTransitionDone; [exact Hx| |intros []; split; [done|by eexists]].
    intros tk i a Ha _ _. cbv zeta. change (ABILITY_STATE_ACTIVE =? ABILITY_STATE_ACTIVE) with true. cbv iota.
    rewrite decide_True by done. apply wp_bind, wp_bind, wp_modify, wp_modify, wp_ret. datas_cbn.
    split; [done|]. rewrite !lookup_insert_eq. split; [done|]. eexists. split; [done|]. split; [|done].
    unfold ability_state, with_state. datas_cbn. rewrite Ha. cbn [fmap option_fmap option_map fst snd].
    by rewrite state_SetAbilityState. }
  pose proof (keeps_DataTransitionDone (Some r) ABILITY_STATE_ACTIVE s) as HV.
  apply wp_run in H as (e & s1 & E1 & -> & Hl & x1 & Hx1 & Hst1 & Hsch1). unfold keeps, wp in HV. rewrite E1 in HV.
  exists s1. split; [done|]. split; [done|]. intros s2 t w Hsteps Hw2 Hwd.
  pose proof (data_steps_evolve _ _ _ _ (ev_ok _ _ (HV Hs)) Hsteps) as V2.
  destruct (ev_records _ _ V2 _ _ Hx1) as (x2 & Hx2 & C). rewrite <- Hwd in Hx2.
  destruct (wp_resume_loaded t w s2 x2 (ev_ok _ _ V2) Hw2 Hx2 (ca_active _ _ C Hst1)) as (sch' & s3 & s3' & Hd2 & E3 & [(x3 & Hx3 & _ & Hc3) _ _] & ->).
  assert (sch' = sch) as -> by (apply (ca_scheduler _ _ C) in Hsch1; congruence).
  eexists. split; [exact E3|]. datas_cbn. split; [apply lookup_delete_eq|]. rewrite Hwd in Hx2, Hx3. by exists x2, x3.
Qed.

Lemma waiters_served_witness :
  ∃ s1, AbilityTransitionDone (Some 3%positive) ABILITY_STATE_ACTIVE d_waiting = Returned (ERR_OK, s1) ∧
    dataAbilityRecordsLoaded_ s1 !! "com.demo.Notes" = Some 2%positive.
Proof.
  destruct (lookup_is_some (da_records d_waiting !! 2%positive)) as [x Hx]; [vm_compute; reflexivity|].
  destruct (waiters_served 3 loads "com.demo.Notes" 2 x 3 9 d_waiting) as (s1 & E & Hl & _).
  - exact d_waiting_reachable.
  - vm_compute. reflexivity.
  - exact Hx.
  - rewrite (lookup_field token_of _ _ (Some 3%positive) Hx); [reflexivity|]. vm_compute. reflexivity.
  - rewrite (lookup_field ability_state _ _ (Some ACTIVATING) Hx); [reflexivity|]. vm_compute. reflexivity.
  - rewrite (lookup_field d_scheduler _ _ (Some 9%positive) Hx); [reflexivity|]. vm_compute. reflexivity.
  - exists s1. exact (conj E Hl).
Defined.

(** A timeout hits the wrong one: Acquire that has waited in vain erases what
    the loading table holds under the name, not the record it has waited for. So
    when the ability was given up before and is being loaded again for others,
    the new record goes: its ability cannot attach any more, and nobody who
    waits for it ever gets a scheduler, however long his own time still is. *)
Theorem stale_timeout restartMax app_load t w x d' x' r' s :
  data_reachable restartMax app_load s →
  da_waiting s !! t = Some w → w_deadline w ≤ da_now s →
  da_records s !! w_record w = Some x → ability_state x ≠ Some ACTIVE →
  dataAbilityRecordsLoading_ s !! w_name w = Some d' → d' ≠ w_record w →
  da_records s !! d' = Some x' → token_of x' = Some r' →
  ∃ s1, Acquire_resumed t s = Returned (Some None, s1) ∧
    (∀ sch, AttachAbilityThread (Some sch) (Some r') s1 = Returned (ERR_UNKNOWN_OBJECT, s1)) ∧
    ∀ s2 t' w', rtc (data_step restartMax app_load) s1 s2 →
      da_waiting s2 !! t' = Some w' → w_record w' = d' →
      ∃ s3, Acquire_resumed t' s2 = Returned ((if w_deadline w' <=? da_now s2 then Some None else None), s3).
Proof.
  intros Hr Hw Hdl Hx Hst Hld Hne Hx' Hr'. apply data_reachable_ok in Hr as Hs.
  destruct (wp_run _ _ _ (wp_resume_unloaded t w s x Hs Hw Hx Hst)) as (r0 & s1 & E1 & -> & Hs1).
  specialize (Hs1 Hdl). rewrite (proj2 (Z.leb_le _ _) Hdl) in E1.
  pose proof (keeps_Acquire_resumed t s Hs ltac:(by eexists)) as HV. unfold keeps, wp in HV. rewrite E1 in HV.
  destruct (ok_loading _ Hs _ _ Hld) as (y & st' & Hy & Hst' & Hna & Hnm). assert (y = x') as -> by congruence.
  assert (da_records s1 !! d' = Some x') as Hx1 by by rewrite Hs1.
  assert (not_loading s1 d') as Hnl.
  { intros m. rewrite Hs1. datas_cbn. intros [Hm1 Hm2]%lookup_delete_Some.
    destruct (ok_loading _ Hs _ _ Hm2) as (z & _ & Hz & _ & _ & Hzn). apply Hm1.
    assert (z = x') as -> by congruence. rewrite <- Hzn, Hnm. done. }
  exists s1. split; [exact E1|]. pose proof (HV Hs) as V1. split.
  - intros sch. unfold AttachAbilityThread, mbind, ST_bind, gets. cbv beta delta [id].
    destruct (find_data (has_token r') s1 _) as [[m p]|] eqn:Hf; [|done]. exfalso.
    apply find_data_filed in Hf as (Hm & z & Hz & Ht). apply bool_decide_eq_true in Ht.
    assert (p = d') as -> by by eapply (ok_tokens _ (ev_ok _ _ V1) p d' z x' r'). by apply (Hnl m).
  - intros s2 t' w' Hsteps Hw' Hwd. pose proof (data_steps_evolve _ _ _ _ (ev_ok _ _ V1) Hsteps) as V2.
    destruct (ev_left _ _ V2 _ _ Hx1 Hnl) as (x2 & Hx2 & Est2 & _). rewrite <- Hwd in Hx2.
    destruct (wp_run _ _ _ (wp_resume_unloaded t' w' s2 x2 (ev_ok _ _ V2) Hw' Hx2 ltac:(congruence))) as (r2 & s3 & E3 & -> & _).
    by exists s3.
Qed.

Lemma stale_timeout_witness :
  ∃ s1, Acquire_resumed 5 d_stale = Returned (Some None, s1) ∧
    AttachAbilityThread (Some 9%positive) (Some 7%positive) s1 = Returned (ERR_UNKNOWN_OBJECT, s1).
Proof.
  destruct (lookup_is_some (da_waiting d_stale !! 5%positive)) as [w Hw]; [vm_compute; reflexivity|].
  destruct (lookup_is_some (da_records d_stale !! 2%positive)) as [x Hx]; [vm_compute; reflexivity|].
  destruct (lookup_is_some (da_records d_stale !! 6%positive)) as [x' Hx']; [vm_compute; reflexivity|].
  assert (w_record w = 2%positive) as Ew by (apply (lookup_field w_record _ _ _ Hw); vm_compute; reflexivity).
  assert (w_name w = "com.demo.Notes") as En by (apply (lookup_field w_name _ _ _ Hw); vm_compute; reflexivity).
  assert (w_deadline w = 16000) as Edl by (apply (lookup_field w_deadline _ _ _ Hw); vm_compute; reflexivity).
  destruct (stale_timeout 3 loads 5 w x 6 x' 7 d_stale) as (s1 & E1 & Ha & _).
  - exact d_stale_reachable.
  - exact Hw.
  - rewrite Edl. apply Z.leb_le. vm_compute. reflexivity.
  - rewrite Ew. exact Hx.
  - rewrite (lookup_field ability_state _ _ (Some INITIAL) Hx); [discriminate|]. vm_compute. reflexivity.
  - rewrite En. vm_compute. reflexivity.
  - rewrite Ew. discriminate.
  - exact Hx'.
  - rewrite (lookup_field token_of _ _ (Some 7%positive) Hx'); [reflexivity|]. vm_compute. reflexivity.
  - exists s1. exact (conj E1 (Ha 9%positive)).
Defined.

(** * Acquire and Release *)

Definition known_client s (client : option Obj) (sys : bool) : Prop :=
  ∀ c, client = Some c → sys = true ∨ GetAbilityRecordOfToken s c = Some c.

(** What an [Acquire] that passes its checks does, by where the name is. *)
Definition acquire_outcome q uid (tb : bool) (client : option Obj) (sys : bool) (app_load : RRef → Z) s (res : Acquired) s' : Prop :=
  let name := data_name (rq_info q) in
  match dataAbilityRecordsLoaded_ s !! name, dataAbilityRecordsLoading_ s !! name with
  | Some d, _ =>
      ∃ x sch, da_records s !! d = Some x ∧ scheduler_of x = Some sch ∧ res = AcquireReturns (Some sch) ∧
        granted d x client tb sys s s'
  | None, Some d =>
      res = AcquireWaits (da_next s) ∧ da_records s' = da_records s ∧ da_trace s' = da_trace s ∧
      da_waiting s' = <[da_next s := mkWaiter name d client tb sys (da_now s + DATA_ABILITY_LOAD_TIMEOUT)]> (da_waiting s)
  | None, None =>
      if decide (app_name (rq_app q) ≠ "" ∧ app_load (Pos.succ (da_next s)) = 0) then
        ∃ t w x wt, res = AcquireWaits t ∧ da_waiting s' !! t = Some w ∧
          w = mkWaiter name (da_next s) client tb sys (da_now s + DATA_ABILITY_LOAD_TIMEOUT) ∧
          dataAbilityRecordsLoading_ s' !! name = Some (da_next s) ∧
          da_records s' !! da_next s = Some x ∧ d_request x = q ∧ d_appUid x = uid ∧
          ability_state x = Some INITIAL ∧ token_of x = Some (Pos.succ (da_next s)) ∧ d_clients x = [] ∧
          da_trace s' = da_trace s ++ [DaLoadAbility (Pos.succ (da_next s)) None wt]
      else res = AcquireReturns None ∧ dataAbilityRecordsLoading_ s' = dataAbilityRecordsLoading_ s ∧
           dataAbilityRecordsLoaded_ s' = dataAbilityRecordsLoaded_ s ∧ da_waiting s' = da_waiting s
  end.

(** A data ability is loaded once and shared: an Acquire of a loaded one
    returns its scheduler at once and adds the client; of one that is being loaded
    it waits for the same record, up to eleven seconds, and asks the application
    manager for nothing; otherwise it asks the application manager to load a new
    record, which is tabled under the name with its own token, and waits for it,
    or, when the request has no application name or the application manager
    refuses, answers null and leaves the tables as they were. *)
Theorem Acquire_spec restartMax app_load q uid tb client sys s :
  data_reachable restartMax app_load s →
  ai_type (rq_info q) = DATA → ai_bundleName (rq_info q) ≠ "" → ai_name (rq_info q) ≠ "" → known_client s client sys →
  ∃ res s', Acquire restartMax app_load q uid tb client sys s = Returned (res, s') ∧
    acquire_outcome q uid tb client sys app_load s res s'.
Proof.
  intros Hr Hty Hb Hn Hc. apply data_reachable_ok in Hr as Hs. apply wp_run.
  unfold Acquire, acquire_outcome. cbv zeta. rewrite bool_decide_true by done. cbn [negb].
  destruct (String.eqb_spec (ai_bundleName (rq_info q)) ""); [done|]. destruct (String.eqb_spec (ai_name (rq_info q)) ""); [done|].
  cbn [orb]. apply wp_bind, wp_gets. cbv beta delta [id].
  replace (match client with Some c => _ | None => false end) with false.
  2:{ destruct client as [c|]; [|done]. destruct (Hc c eq_refl) as [->|E]; [done|]. rewrite E.
      by destruct sys. }
  set (name := data_name (rq_info q)). destruct (dataAbilityRecordsLoaded_ s !! name) as [d|] eqn:Hl.
  { destruct (ok_loaded _ Hs _ _ Hl) as (x & st & Hx & Hst & -> & _).
    destruct (loaded_of_shape x) as (sch & tk & Hsch & Hla & _); [by apply (ok_shape _ Hs _ _ Hx)|done|].
    apply wp_bind. eapply wp_mono; [by eapply (wp_Acquire_done name d client tb sys s x sch)|].
    intros r s' [-> G]. apply wp_ret. by exists x, sch. }
  apply wp_bind, wp_LoadLocked.
  - intros d Hd. rewrite Hd. destruct (ok_loading _ Hs _ _ Hd) as (x & st & Hx & Hst & Hne & _).
    apply wp_bind. unfold WaitForLoaded. eapply (wp_read (λ s, da_records s !! _)); [exact Hx|]. rewrite Hst.
    destruct st; try done; apply wp_ret, wp_bind; unfold take_ref;
      apply wp_bind, wp_gets, wp_bind, wp_modify, wp_ret, wp_bind, wp_modify, wp_ret; done.
  - intros s1 Hd Happ Hal S. pose proof S as []. rewrite Hd. apply wp_bind. unfold WaitForLoaded.
    eapply (wp_read (λ s, da_records s !! _)); [rewrite sta_records; apply lookup_insert_eq|]. apply wp_ret, wp_bind.
    unfold take_ref. apply wp_bind, wp_gets, wp_bind, wp_modify, wp_ret, wp_bind, wp_modify, wp_ret. datas_cbn.
    rewrite decide_True by done. destruct sta_trace as [wt Hwt]. eexists _, _, _, wt. split; [done|].
    rewrite lookup_insert_eq, sta_loading, sta_records, !lookup_insert_eq, sta_now. split_and!; done.
  - intros s1 Hd Hno []. rewrite Hd. apply wp_ret. by rewrite decide_False by naive_solver.
Qed.

Lemma Acquire_spec_witness :
  ∃ s', Acquire 3 loads (demo_data_request "Notes") 1 false (Some 1%positive) false d_loaded
    = Returned (AcquireReturns (Some 9%positive), s').
Proof.
  destruct (lookup_is_some (da_records d_loaded !! 2%positive)) as [x Hx]; [vm_compute; reflexivity|].
  assert (dataAbilityRecordsLoaded_ d_loaded !! data_name (demo_data "Notes") = Some 2%positive) as Hl by (vm_compute; reflexivity).
  assert (scheduler_of x = Some 9%positive) as Hsch by (apply (lookup_field scheduler_of _ _ _ Hx); vm_compute; reflexivity).
  destruct (Acquire_spec 3 loads (demo_data_request "Notes") 1 false (Some 1%positive) false d_loaded) as (res & s' & E & H).
  - exact d_loaded_reachable.
  - reflexivity.
  - discriminate.
  - discriminate.
  - intros c [= <-]. right. vm_compute. reflexivity.
  - unfold acquire_outcome in H. cbv zeta in H. change (rq_info (demo_data_request "Notes")) with (demo_data "Notes") in H.
    rewrite Hl in H. destruct H as (y & sch & Hy & Hs & Hres & _). exists s'. rewrite E, Hres.
    assert (y = x) as Eyx by congruence. rewrite Eyx, Hsch in Hs. injection Hs as Es. rewrite Es. reflexivity.
Defined.

Lemma quiet_lookup s s' d : quiet s s' → core <$> da_records s' !! d = core <$> da_records s !! d.
Proof. intros [E _ _ _ _ _ _ _]. by rewrite <- !lookup_fmap, E. Qed.

Lemma find_data_quiet P s s' m :
  (∀ x x', core x' = core x → P x' = P x) → quiet s s' → find_data P s' m = find_data P s m.
Proof.
  intros HP Q. unfold find_data. induction (data_list m) as [|[n d] l IH]; [done|]. cbn [List.find snd]. rewrite IH.
  pose proof (quiet_lookup s s' d Q) as E. destruct (da_records s !! d) as [x|], (da_records s' !! d) as [x'|]; try done.
  injection E as E1 E2 E3 E4. rewrite (HP x x'); [done|]. unfold core. congruence.
Qed.

Lemma alive_quiet s s' c : quiet s s' → GetAbilityRecordOfToken s' c = GetAbilityRecordOfToken s c.
Proof.
  intros Q. unfold GetAbilityRecordOfToken. replace (held_tokens s') with (held_tokens s); [by rewrite (qu_callers _ _ Q)|].
  unfold held_tokens, held_data. rewrite (qu_loaded _ _ Q), (qu_loading _ _ Q), (qu_waiting _ _ Q).
  induction (_ ++ _) as [|d l IH]; [done|]. cbn [omap list_omap]. rewrite IH.
  pose proof (quiet_lookup s s' d Q) as E. destruct (da_records s !! d) as [x|], (da_records s' !! d) as [x'|]; try done.
  cbn. assert (core x' = core x) as (_ & -> & _)%core_fields by (cbn in E; congruence). done.
Qed.

Lemma count_app c l1 l2 : length (List.filter (is_client c) (l1 ++ l2)) =
  (length (List.filter (is_client c) l1) + length (List.filter (is_client c) l2))%nat.
Proof. by rewrite List.filter_app, length_app. Qed.

(** [Release] of a client that uses the ability. *)
Lemma wp_Release judge sch c sys n d x i token a s :
  find_data (has_scheduler sch) s (dataAbilityRecordsLoaded_ s) = Some (n, d) →
  da_records s !! d = Some x → d_ability x = Some (token, i, a) → judge (r_info a) = ERR_OK →
  sys = true ∨ GetAbilityRecordOfToken s c = Some c →
  wp (Release judge (Some sch) (Some c) sys) (λ e s',
    if decide (GetClientCount x c = 0%nat) then e = ERR_UNKNOWN_OBJECT ∧ s' = s
    else e = ERR_OK ∧ quiet s s' ∧
         da_records s' = <[d := x <| d_clients ::= erase_first (is_client c) |>]> (da_records s)) s.
Proof.
  intros Hf Hx Ha Hj Hc. unfold Release. apply wp_bind, wp_gets. cbv beta delta [id]. rewrite Hf.
  eapply (wp_read (λ s, da_records s !! d)); [exact Hx|]. rewrite Ha, Hj. cbn [negb bool_decide decide_rel].
  rewrite bool_decide_true by done. cbn [negb].
  destruct (decide (GetClientCount x c = 0%nat)) as [H0|H0]; [by apply wp_ret|].
  pose proof (quiet_RemoveClient d c sys s x Hx) as HQ. apply wp_bind.
  cut (wp (RemoveClient d c sys) (λ _ s', da_records s' = <[d := x <| d_clients ::= erase_first (is_client c) |>]> (da_records s)) s).
  { intros H. eapply wp_mono; [exact (wp_and _ _ _ _ H HQ)|]. intros e s' [E Q]. by apply wp_ret. }
  unfold RemoveClient. eapply (wp_read (λ s, da_records s !! d)); [exact Hx|]. unfold GetClientCount in H0.
  destruct (loaded_ability x) as [tk|]; [|done].
  destruct (List.find (is_client c) (d_clients x)) as [ci|] eqn:Hfind.
  - apply wp_bind, wp_gets. cbv zeta beta delta [id]. destruct sys.
    + apply wp_bind, wp_modify, wp_ret.
      by apply (alter_known (λ x, x <| d_clients ::= erase_first (is_client c) |>)).
    + destruct Hc as [?|Ec]; [done|]. rewrite Ec. apply wp_bind, wp_modify, wp_bind, wp_modify, wp_ret.
      by apply (alter_known (λ x, x <| d_clients ::= erase_first (is_client c) |>)).
  - exfalso. apply H0. rewrite find_None_iff in Hfind. clear -Hfind.
    induction (d_clients x) as [|y l IH]; [done|]. cbn. rewrite Hfind by by apply list_elem_of_here.
    apply IH. intros z Hz. by apply Hfind, list_elem_of_further.
Qed.

Lemma is_client_self c tb sys : is_client c (mkClient c tb sys) = true.
Proof. by apply bool_decide_eq_true. Qed.

(** The first use of a client goes, whichever it is. *)
Lemma erase_count c c' tb sys l :
  length (List.filter (is_client c') (erase_first (is_client c) (l ++ [mkClient c tb sys]))) =
  length (List.filter (is_client c') l).
Proof.
  induction l as [|y l IH]; cbn [app erase_first].
  - by rewrite is_client_self.
  - destruct (is_client c y) eqn:E.
    + rewrite count_app. apply bool_decide_eq_true in E. cbn [List.filter].
      replace (is_client c' (mkClient c tb sys)) with (is_client c' y) by (unfold is_client; by rewrite E).
      destruct (is_client c' y); cbn [length]; lia.
    + cbn [List.filter]. destruct (is_client c' y); cbn [length]; by rewrite IH.
Qed.

Lemma erase_new c tb sys l :
  length (List.filter (is_client c) l) = 0%nat → erase_first (is_client c) (l ++ [mkClient c tb sys]) = l.
Proof.
  induction l as [|y l IH]; cbn [app erase_first List.filter].
  - intros _. by rewrite is_client_self.
  - destruct (is_client c y); [done|]. intros H. by rewrite IH.
Qed.

(** Acquires and Releases of a client balance: after one more Acquire and
    one Release the ability has, for every client, as many uses as before; and a
    client that did not use it before is then refused with ERR_UNKNOWN_OBJECT,
    and nothing changes. *)
Theorem release_undoes_acquire restartMax app_load judge q uid tb c sys n d x sch a s :
  data_reachable restartMax app_load s →
  dataAbilityRecordsLoaded_ s !! n = Some d → da_records s !! d = Some x →
  find_data (has_scheduler sch) s (dataAbilityRecordsLoaded_ s) = Some (n, d) →
  snd <$> d_ability x = Some a → judge (r_info a) = ERR_OK →
  ai_type (rq_info q) = DATA → ai_bundleName (rq_info q) ≠ "" → ai_name (rq_info q) ≠ "" → data_name (rq_info q) = n →
  sys = true ∨ GetAbilityRecordOfToken s c = Some c →
  ∃ s1 s2 x2,
    Acquire restartMax app_load q uid tb (Some c) sys s = Returned (AcquireReturns (Some sch), s1) ∧
    Release judge (Some sch) (Some c) sys s1 = Returned (ERR_OK, s2) ∧
    da_records s2 !! d = Some x2 ∧ (∀ c', GetClientCount x2 c' = GetClientCount x c') ∧
    (GetClientCount x c = 0%nat → d_clients x2 = d_clients x ∧
       Release judge (Some sch) (Some c) sys s2 = Returned (ERR_UNKNOWN_OBJECT, s2)).
Proof.
  intros Hr Hl Hx Hf Ha Hj Hty Hb Hn Hnm Hc. apply data_reachable_ok in Hr as Hs.
  destruct (d_ability x) as [[[token i] a']|] eqn:Hab; [|done]. injection Ha as ->.
  pose proof Hf as (_ & y & Hy & Hsch)%find_data_filed. apply bool_decide_eq_true in Hsch. assert (y = x) as -> by congruence.
  assert (is_Some (loaded_ability x)) as Hla.
  { destruct (ok_loaded _ Hs _ _ Hl) as (x0 & st & Hx0 & Hst & -> & _). assert (x0 = x) as -> by congruence.
    destruct (loaded_of_shape x) as (? & tk & _ & ? & _); [by apply (ok_shape _ Hs _ _ Hx)|done|by exists tk]. }
  assert (wp (Acquire restartMax app_load q uid tb (Some c) sys) (λ r s', r = AcquireReturns (Some sch) ∧
    granted d x (Some c) tb sys s s') s) as H.
  { unfold Acquire. cbv zeta. rewrite bool_decide_true by done. cbn [negb].
    destruct (String.eqb_spec (ai_bundleName (rq_info q)) ""); [done|]. destruct (String.eqb_spec (ai_name (rq_info q)) ""); [done|].
    cbn [orb]. apply wp_bind, wp_gets. cbv beta delta [id].
    replace (negb sys && _)%bool with false by (destruct Hc as [->|E]; [done|rewrite E; by destruct sys]).
    rewrite Hnm, Hl. apply wp_bind. eapply wp_mono; [by eapply (wp_Acquire_done n d (Some c) tb sys s x sch)|].
    intros r s' [-> G]. by apply wp_ret. }
  apply wp_run in H as (r & s1 & E1 & -> & [(x1 & Hx1 & Ec1 & Hc1) _ Q1]).
  assert (∃ a1, d_ability x1 = Some (token, i, a1) ∧ r_info a1 = r_info a) as (a1 & Ha1 & Hi1).
  { unfold core in Ec1. rewrite Hab in Ec1. destruct (d_ability x1) as [[[? ?] a1]|]; [|done].
    exists a1. by simplify_eq/=. }
  pose proof (core_fields _ _ Ec1) as (_ & _ & _ & _ & Esch & Ela).
  assert (∀ y y' sch, core y' = core y → has_scheduler sch y' = has_scheduler sch y) as Hhas.
  { intros y y' sch0 (_ & _ & _ & _ & E & _)%core_fields. unfold has_scheduler. by rewrite E. }
  assert (∀ s2, quiet s s2 → find_data (has_scheduler sch) s2 (dataAbilityRecordsLoaded_ s2) = Some (n, d)) as Hf2.
  { intros s2 Q. rewrite (qu_loaded _ _ Q), (find_data_quiet _ s s2); [done| |done]. intros. by apply Hhas. }
  assert (∀ l y, loaded_ability y = loaded_ability x → d_clients y = l →
    ∀ c', GetClientCount y c' = length (List.filter (is_client c') l)) as Hcnt.
  { intros l y E <- c'. unfold GetClientCount. rewrite E. by destruct Hla as [? ->]. }
  destruct (wp_run _ _ _ (wp_Release judge sch c sys n d x1 i token a1 s1 (Hf2 s1 Q1) Hx1 Ha1 ltac:(congruence)
    ltac:(destruct Hc; [by left|right; by rewrite (alive_quiet s s1)]))) as (e & s2 & E2 & H2).
  unfold grown in Hc1. rewrite (Hcnt _ x1 Ela Hc1), count_app in H2. cbn [List.filter] in H2.
  rewrite is_client_self in H2.
  rewrite decide_False in H2 by (cbn; lia). destruct H2 as (-> & Q2 & Er2).
  set (x2 := x1 <| d_clients ::= erase_first (is_client c) |>) in *.
  assert (da_records s2 !! d = Some x2) as Hx2 by by rewrite Er2, lookup_insert_eq.
  assert (d_clients x2 = erase_first (is_client c) (d_clients x ++ [mkClient c tb sys])) as Hc2 by (unfold x2; datas_cbn; by rewrite Hc1).
  assert (loaded_ability x2 = loaded_ability x) as El2 by exact Ela.
  exists s1, s2, x2. split; [exact E1|]. split; [exact E2|]. split; [exact Hx2|]. split.
  - intros c'. rewrite (Hcnt _ x2 El2 Hc2), (Hcnt _ x eq_refl eq_refl). apply erase_count.
  - intros H0. rewrite (Hcnt _ x eq_refl eq_refl) in H0.
    assert (d_clients x2 = d_clients x) as Ex2 by (rewrite Hc2; by apply erase_new). split; [done|].
    destruct (wp_run _ _ _ (wp_Release judge sch c sys n d x2 i token a1 s2 (Hf2 s2 ltac:(by transitivity s1)) Hx2 Ha1 ltac:(congruence)
      ltac:(destruct Hc; [by left|right; by rewrite (alive_quiet s1 s2), (alive_quiet s s1)]))) as (e & s3 & E3 & H3).
    rewrite (Hcnt _ x2 El2 Ex2), decide_True in H3 by done. by destruct H3 as [-> ->].
Qed.

Lemma release_undoes_acquire_witness :
  ∃ s1 s2, Acquire 3 loads (demo_data_request "Notes") 1 false (Some 1%positive) false d_loaded
             = Returned (AcquireReturns (Some 9%positive), s1) ∧
    Release grants (Some 9%positive) (Some 1%positive) false s1 = Returned (ERR_OK, s2).
Proof.
  destruct (lookup_is_some (da_records d_loaded !! 2%positive)) as [x Hx]; [vm_compute; reflexivity|].
  destruct (lookup_is_some (snd <$> d_ability x)) as [a Ha].
  { apply (lookup_field (λ x, bool_decide (is_Some (snd <$> d_ability x))) _ _ _ Hx). vm_compute. reflexivity. }
  destruct (release_undoes_acquire 3 loads grants (demo_data_request "Notes") 1 false 1 false "com.demo.Notes" 2 x 9 a d_loaded)
    as (s1 & s2 & x2 & E1 & E2 & _).
  - exact d_loaded_reachable.
  - vm_compute. reflexivity.
  - exact Hx.
  - vm_compute. reflexivity.
  - exact Ha.
  - reflexivity.
  - reflexivity.
  - discriminate.
  - discriminate.
  - reflexivity.
  - right. vm_compute. reflexivity.
  - exists s1, s2. exact (conj E1 E2).
Defined.

(** * A start that fails *)

(** A data ability that reports that it has not started is never loaded: its
    record keeps the scheduler, so it can neither attach again nor report again,
    until the last of those that wait for it, and of those that still join them,
    gives up. *)
Theorem failed_start_strands restartMax app_load n d x r sch state s :
  data_reachable restartMax app_load s → state ≠ ABILITY_STATE_ACTIVE →
  dataAbilityRecordsLoading_ s !! n = Some d → da_records s !! d = Some x →
  token_of x = Some r → ability_state x = Some ACTIVATING → d_scheduler x = Some sch →
  ∃ s1, AbilityTransitionDone (Some r) state s = Returned (ERR_INVALID_STATE, s1) ∧
    dataAbilityRecordsLoading_ s1 !! n = Some d ∧
    ∀ s2, rtc (data_step restartMax app_load) s1 s2 →
      (∀ sch', Attach d (Some sch') s2 = Returned (ERR_INVALID_STATE, s2)) ∧
      ∀ t w, da_waiting s2 !! t = Some w → w_record w = d →
        ∃ s3, Acquire_resumed t s2 = Returned ((if w_deadline w <=? da_now s2 then Some None else None), s3).
Proof.
  intros Hr Hne Hd Hx Ht Hst Hsch. apply data_reachable_ok in Hr as Hs.
  pose proof (find_loading s n d x r Hs Hd Hx Ht) as Hf. apply Z.eqb_neq in Hne.
  assert (wp (AbilityTransitionDone (Some r) state) (λ e s1, e = ERR_INVALID_STATE ∧
    dataAbilityRecordsLoading_ s1 !! n = Some d ∧ ∃ x1, da_records s1 !! d = Some x1 ∧ ability_state x1 = Some INITIAL ∧
    d_scheduler x1 = Some sch) s) as H.
  { unfold AbilityTransitionDone. apply wp_bind, wp_gets. cbv beta delta [id]. rewrite Hf. apply wp_bind.
    eapply wp_OnTransitionDone; [exact Hx| |intros []; split; [done|by eexists]].
    intros tk i a Ha _ _. cbv zeta. rewrite Hne, decide_False by done. apply wp_bind, wp_ret, wp_ret. datas_cbn.
    split; [done|]. rewrite !lookup_insert_eq. split; [done|]. eexists. split; [done|]. split; [|done].
    unfold ability_state, with_state. datas_cbn. rewrite Ha. cbn [fmap option_fmap option_map fst snd].
    by rewrite state_SetAbilityState. }
  pose proof (keeps_DataTransitionDone (Some r) state s) as HV.
  apply wp_run in H as (e & s1 & E1 & -> & Hl & x1 & Hx1 & Hst1 & Hsch1). unfold keeps, wp in HV. rewrite E1 in HV.
  exists s1. split; [done|]. split; [done|]. intros s2 Hsteps.
  pose proof (data_steps_evolve _ _ _ _ (ev_ok _ _ (HV Hs)) Hsteps) as V2.
  destruct (ev_records _ _ V2 _ _ Hx1) as (x2 & Hx2 & C).
  assert (ability_state x2 = Some INITIAL) as Hst2 by (apply (ca_stuck _ _ C); [done|by eexists]).
  assert (d_scheduler x2 = Some sch) as Hsch2 by by apply (ca_scheduler _ _ C). split.
  - intros sch'. unfold ability_state in Hst2. destruct (d_ability x2) as [[[tk i] a]|] eqn:Ha; [|done].
    assert (wp (Attach d (Some sch')) (λ e s', e = ERR_INVALID_STATE ∧ s' = s2) s2) as H.
    { eapply wp_Attach; [exact Hx2|exact Ha|by rewrite Hsch2|done]. }
    by apply wp_run in H as (? & ? & ? & -> & ->).
  - intros t w Hw Hwd. rewrite <- Hwd in Hx2.
    destruct (wp_run _ _ _ (wp_resume_unloaded t w s2 x2 (ev_ok _ _ V2) Hw Hx2 ltac:(congruence))) as (r2 & s3 & E3 & -> & _).
    by exists s3.
Qed.

(** [ContainsDataAbility] of a null scheduler. *)
Example ContainsDataAbility_null s : ContainsDataAbility s None = true.
Proof. done. Qed.
