(* ===== verification/PendingWant.v ===== *)
(** Wants that are sent later, on somebody's behalf: [PendingWantKey],
    [PendingWantRecord] and [PendingWantManager]
    (services/abilitymgr/src/pending_want_key.cpp, pending_want_record.cpp,
    pending_want_manager.cpp).

    A client asks for a sender that is to start an ability or a service, or to
    publish an event, later; asking again for the same gives the same sender.
    Records and keys are objects behind pointers, so the state [PendingWants] has
    a heap of each; [wantRecords_] maps the address of a key, not what it says,
    to its record. [before] is the order of the addresses, the order in which the
    map is searched. What the ability manager, the distributed scheduler and the
    event service answer are parameters, and calls that leave the component are
    recorded in order. *)

From S2P Require Import Prelude CppString Want CallContainer AbilityRecord.
From Stdlib Require Import Ascii.

#[local] Open Scope stdpp_scope.
#[local] Open Scope Z_scope.

#[global] Abbreviation PRef := positive (only parsing).   (* a PendingWantRecord *)
#[global] Abbreviation KRef := positive (only parsing).   (* a PendingWantKey *)
#[global] Abbreviation Receiver := Z (only parsing).      (* an IWantReceiver *)

(** * The text of a want *)

(** [WantParams::GetDataType], by the signature of the value's class. *)
Definition GetDataType (v : WantValue) : Z :=
  let c := value_signature v in
  if Ascii.eqb c "Z" then 1 else if Ascii.eqb c "B" then 2 else if Ascii.eqb c "C" then 3
  else if Ascii.eqb c "S" then 4 else if Ascii.eqb c "I" then 5 else if Ascii.eqb c "J" then 6
  else if Ascii.eqb c "F" then 7 else if Ascii.eqb c "D" then 8 else if Ascii.eqb c "T" then 9
  else if Ascii.eqb c "[" then 102 else if Ascii.eqb c "W" then 101 else -1.

Definition quote : string := String (ascii_of_nat 34) "".

(** [WantParamWrapper::ToString]; nested parameters come without quotes. *)
Definition param_entry (kv : string * WantValue) : string :=
  let text := if GetDataType kv.2 =? -1 then "" else value_text kv.2 in
  quote +:+ kv.1 +:+ quote +:+ ":{" +:+ quote +:+ pretty (GetDataType kv.2) +:+ quote +:+ ":"
  +:+ (if Ascii.eqb (value_signature kv.2) "W" then text else quote +:+ text +:+ quote).

Fixpoint param_entries (l : list (string * WantValue)) : string :=
  match l with
  | [] => ""
  | [kv] => param_entry kv +:+ "}"
  | kv :: l' => param_entry kv +:+ "}," +:+ param_entries l'
  end.

Definition WantParams_ToString (w : Want) : string :=
  match GetParams w with
  | [] => "{}"
  | l => "{" +:+ param_entries l +:+ "}"
  end.

Record WantJson := mkWantJson {
  wj_deviceId : string;
  wj_bundleName : string;
  wj_abilityName : string;
  wj_uri : string;
  wj_type : string;
  wj_flags : Z;
  wj_action : string;
  wj_parameters : string;
  wj_entities : list string;
}.

Definition Want_ToJson (w : Want) : WantJson :=
  let o := operation_ w in
  mkWantJson (op_deviceId o) (op_bundleName o) (op_abilityName o) (op_uri o) (GetStringParam "mime-type" w)
    (op_flags o) (op_action o) (WantParams_ToString w) (op_entities o).

(** [Operation::operator==]. *)
Definition operation_eqb (o1 o2 : Operation) : bool :=
  if negb (String.eqb (op_abilityName o1) (op_abilityName o2)) then false
  else if negb (String.eqb (op_action o1) (op_action o2)) then false
  else if negb (String.eqb (op_bundleName o1) (op_bundleName o2)) then false
  else if negb (String.eqb (op_deviceId o1) (op_deviceId o2)) then false
  else if negb (String.eqb (op_moduleName o1) (op_moduleName o2)) then false
  else if negb (bool_decide (op_entities o1 = op_entities o2)) then false
  else if negb (op_flags o1 =? op_flags o2) then false
  else String.eqb (op_uri o1) (op_uri o2).

(** * Data *)

Definition ONE_TIME_FLAG : Z := Z.shiftl 1 30.
Definition NO_BUILD_FLAG : Z := Z.shiftl 1 29.
Definition CANCEL_PRESENT_FLAG : Z := Z.shiftl 1 28.
Definition UPDATE_PRESENT_FLAG : Z := Z.shiftl 1 27.
Definition CONSTANT_FLAG : Z := Z.shiftl 1 26.

(** A flag of an [int32_t] or [uint32_t]. *)
Definition has_flag (flags f : Z) : bool := negb (Z.land (flags mod UINT32_MOD) f =? 0).

Record WantsInfo := mkWantsInfo { wi_want : Want; wi_resolvedTypes : string }.

Record WantSenderInfo := mkSenderInfo {
  ws_type : Z;
  ws_bundleName : string;
  ws_resultWho : string;
  ws_requestCode : Z;
  ws_allWants : list WantsInfo;
  ws_flags : Z;                       (* uint32_t *)
  ws_userId : Z;
}.

Record PendingWantKey := mkKey {
  k_type : Z;
  k_bundleName : string;
  k_requestWho : string;
  k_requestCode : Z;
  k_requestWant : Want;
  k_requestResolvedType : string;
  k_allWantsInfos : list WantsInfo;
  k_flags : Z;                        (* int32_t *)
  k_code : Z;
  k_userId : Z;
}.

#[export] Instance PendingWantKey_eta : Eta PendingWantKey := λ k,
  mkKey (k_type k) (k_bundleName k) (k_requestWho k) (k_requestCode k) (k_requestWant k)
    (k_requestResolvedType k) (k_allWantsInfos k) (k_flags k) (k_code k) (k_userId k).

Record PendingWantRecord := mkPending {
  p_uid : Z;
  p_callerUid : Z;
  p_callerToken : option RRef;
  p_canceled : bool;
  p_key : KRef;
  p_cancelCallbacks : list Receiver;
}.

#[export] Instance PendingWantRecord_eta : Eta PendingWantRecord := λ p,
  mkPending (p_uid p) (p_callerUid p) (p_callerToken p) (p_canceled p) (p_key p) (p_cancelCallbacks p).

Record SenderInfo := mkSender {
  si_code : Z;
  si_finishedReceiver : option Receiver;
  si_requiredPermission : string;
}.

Inductive PendingEffect :=
  | PwStartAbility (w : Want) (callerToken : option RRef) (requestCode callerUid : Z)
  | PwStartRemoteAbility (w : Want) (callerUid requestCode : Z)
  | PwPublishCommonEvent (w : Want) (code : Z) (permission : option string) (ordered : option Receiver) (callerUid : Z)
  | PwPerformReceive (receiver : Receiver) (w : Want) (code : Z)
  | PwSendCancel (receiver : Receiver) (requestCode : Z)
  | PwPostClear (bundleName : string) (uid : Z).

Record PendingWants := mkPendings {
  pw_records : gmap PRef PendingWantRecord;
  pw_keys : gmap KRef PendingWantKey;
  wantRecords_ : gmap KRef PRef;
  pw_next : positive;
  pw_id : Z;                          (* the static counter of PendingRecordIdCreate *)
  pw_trace : list PendingEffect;
}.

#[export] Instance PendingWants_eta : Eta PendingWants := λ s,
  mkPendings (pw_records s) (pw_keys s) (wantRecords_ s) (pw_next s) (pw_id s) (pw_trace s).

#[local] Abbreviation M A := (ST PendingWants A).

Definition the_pending (p : PRef) : M PendingWantRecord :=
  x ← gets (λ s, pw_records s !! p); deref x.
Definition the_key (k : KRef) : M PendingWantKey :=
  x ← gets (λ s, pw_keys s !! k); deref x.
Definition upd_pending (p : PRef) (f : PendingWantRecord → PendingWantRecord) : M unit :=
  modify (λ s, s <| pw_records ::= alter f p |>).
Definition upd_key (k : KRef) (f : PendingWantKey → PendingWantKey) : M unit :=
  modify (λ s, s <| pw_keys ::= alter f k |>).
Definition emit (e : PendingEffect) : M unit := modify (λ s, s <| pw_trace ::= λ t, t ++ [e] |>).
Definition take_ref : M positive :=
  p ← gets pw_next; _ ← modify (λ s, s <| pw_next ::= Pos.succ |>); mret p.

(** * PendingWantManager *)

Section pending_manager.
Context (before : KRef → KRef → bool).
Context (json_dump : WantJson → string).

Definition Want_ToString (w : Want) : string := json_dump (Want_ToJson w).

Definition CheckPendingWantRecordByKey (inputKey key : PendingWantKey) : bool :=
  if negb (String.eqb (k_bundleName inputKey) (k_bundleName key)) then false
  else if negb (k_type inputKey =? k_type key) then false
  else if negb (String.eqb (k_requestWho inputKey) (k_requestWho key)) then false
  else if negb (k_requestCode inputKey =? k_requestCode key) then false
  else if negb (String.eqb (Want_ToString (k_requestWant inputKey)) (Want_ToString (k_requestWant key))) then false
  else if negb (operation_eqb (operation_ (k_requestWant inputKey)) (operation_ (k_requestWant key))) then false
  else if negb (String.eqb (k_requestResolvedType inputKey) (k_requestResolvedType key)) then false
  else if negb (k_flags inputKey =? k_flags key) then false
  else k_userId inputKey =? k_userId key.

Definition record_list (s : PendingWants) : list (KRef * PRef) := in_order before (wantRecords_ s).

Definition key_matches (s : PendingWants) (key : PendingWantKey) (e : KRef * PRef) : bool :=
  match pw_keys s !! e.1 with Some k => CheckPendingWantRecordByKey k key | None => false end.

Definition GetPendingWantRecordByKey (s : PendingWants) (key : PendingWantKey) : option PRef :=
  snd <$> List.find (key_matches s key) (record_list s).

Definition key_of (s : PendingWants) (p : PRef) : option PendingWantKey :=
  x ← pw_records s !! p; pw_keys s !! p_key x.

Definition GetPendingWantRecordByCode (s : PendingWants) (code : Z) : option PRef :=
  snd <$> List.find (λ e, match key_of s e.2 with Some k => k_code k =? code | None => false end) (record_list s).

Definition SetCanceled (p : PRef) : M unit := upd_pending p (λ x, x <| p_canceled := true |>).

Definition MakeWantSenderCanceledLocked (p : PRef) : M unit :=
  _ ← SetCanceled p;
  x ← the_pending p;
  for_each (λ receiver, k ← the_key (p_key x); emit (PwSendCancel receiver (k_requestCode k))) (p_cancelCallbacks x).

Definition CancelWantSenderLocked (p : PRef) (cleanAbility : bool) : M unit :=
  _ ← MakeWantSenderCanceledLocked p;
  if cleanAbility then
    x ← the_pending p; modify (λ s, s <| wantRecords_ ::= delete (p_key x) |>)
  else mret tt.

Definition PendingRecordIdCreate : M Z :=
  _ ← modify (λ s, s <| pw_id ::= λ n, wrap_i32 (n + 1) |>); gets pw_id.

(** The key that [GetWantSenderLocked] builds, its flags without the three that
    say what to do now. *)
Definition ACTION_FLAGS : Z := Z.lor NO_BUILD_FLAG (Z.lor CANCEL_PRESENT_FLAG UPDATE_PRESENT_FLAG).

Definition make_key (info : WantSenderInfo) : PendingWantKey :=
  let flags := Z.ldiff (ws_flags info mod UINT32_MOD) ACTION_FLAGS in
  let key := mkKey (ws_type info) (ws_bundleName info) (ws_resultWho info) (ws_requestCode info) emptyWant ""
               [] (wrap_i32 flags) 0 (ws_userId info) in
  match last (ws_allWants info) with
  | Some i => key <| k_requestWant := wi_want i |> <| k_requestResolvedType := wi_resolvedTypes i |>
                  <| k_allWantsInfos := ws_allWants info |>
  | None => key
  end.

Definition GetWantSenderLocked (callingUid uid : Z) (info : WantSenderInfo) (callerToken : option RRef) : M (option PRef) :=
  let needCreate := negb (has_flag (ws_flags info) NO_BUILD_FLAG) in
  let needCancel := has_flag (ws_flags info) CANCEL_PRESENT_FLAG in
  let needUpdate := has_flag (ws_flags info) UPDATE_PRESENT_FLAG in
  let pendingKey := make_key info in
  s ← gets id;
  match GetPendingWantRecordByKey s pendingKey with
  | Some ref =>
      if negb needCancel then
        x ← the_pending ref;
        _ ← match last (ws_allWants info) with
            | Some i =>
                if needUpdate then
                  _ ← upd_key (p_key x) (λ k, k <| k_requestWant := wi_want i |>
                        <| k_requestResolvedType := wi_resolvedTypes i |> <| k_allWantsInfos := ws_allWants info |>);
                  upd_pending ref (λ x, x <| p_callerUid := callingUid |>)
                else mret tt
            | None => mret tt
            end;
        mret (Some ref)
      else
        _ ← MakeWantSenderCanceledLocked ref;
        x ← the_pending ref;
        _ ← modify (λ s, s <| wantRecords_ ::= delete (p_key x) |>);
        mret None
  | None =>
      if negb needCreate then mret None
      else
        k ← take_ref;
        _ ← modify (λ s, s <| pw_keys ::= insert k pendingKey |>);
        p ← take_ref;
        _ ← modify (λ s, s <| pw_records ::= insert p (mkPending uid 0 callerToken false k []) |>);
        _ ← upd_pending p (λ x, x <| p_callerUid := callingUid |>);
        code ← PendingRecordIdCreate;
        _ ← upd_key k (λ k, k <| k_code := code |>);
        _ ← modify (λ s, s <| wantRecords_ ::= emplace k p |>);
        mret (Some p)
  end.

Definition SYSTEM_BASIC : string := "system_basic".
Definition SYSTEM_CORE : string := "system_core".

Definition is_system (isSaCall : bool) (apl : string) : bool :=
  isSaCall || String.eqb apl SYSTEM_BASIC || String.eqb apl SYSTEM_CORE.

Definition GetWantSender (isSaCall : bool) (callingUid uid : Z) (apl : string) (info : WantSenderInfo)
    (callerToken : option RRef) : M (option PRef) :=
  if negb (is_system isSaCall apl) && negb (callingUid =? uid) then mret None
  else GetWantSenderLocked callingUid uid info callerToken.

Definition CancelWantSender (isSaCall : bool) (apl : string) (sender : option PRef) : M unit :=
  match sender with
  | None => mret tt
  | Some p => if negb (is_system isSaCall apl) then mret tt else CancelWantSenderLocked p true
  end.

(** ** Sending *)

Section sending.
Context (StartAbility : Want → ErrCode).
Context (StartRemoteAbility : Want → option ErrCode).    (* None: there is no distributed scheduler *)
Context (PublishCommonEvent : Want → bool).

Definition DeviceIdDetermine (w : Want) (callerToken : option RRef) (requestCode callerUid : Z) : M ErrCode :=
  if String.eqb (el_deviceId (GetElement w)) "" then
    _ ← emit (PwStartAbility w callerToken requestCode callerUid); mret (StartAbility w)
  else
    match StartRemoteAbility w with
    | None => mret ERR_INVALID_VALUE
    | Some result => _ ← emit (PwStartRemoteAbility w callerUid requestCode); mret result
    end.

Definition PendingWantStartAbility (w : Want) (callerToken : option RRef) (requestCode callerUid : Z) : M ErrCode :=
  DeviceIdDetermine w callerToken requestCode callerUid.

Fixpoint start_all (wants : list WantsInfo) (callerToken : option RRef) (requestCode callerUid : Z) (result : ErrCode)
    : M ErrCode :=
  match wants with
  | [] => mret result
  | i :: wants' =>
      res ← DeviceIdDetermine (wi_want i) callerToken requestCode callerUid;
      start_all wants' callerToken requestCode callerUid
        (if bool_decide (res = ERR_OK) || bool_decide (res = START_ABILITY_WAITING) then result else res)
  end.
Definition PendingWantStartAbilitys (wants : list WantsInfo) (callerToken : option RRef) (requestCode callerUid : Z)
    : M ErrCode := start_all wants callerToken requestCode callerUid ERR_OK.

Definition PendingWantPublishCommonEvent (w : Want) (info : SenderInfo) (callerUid : Z) : M ErrCode :=
  let permission := if String.eqb (si_requiredPermission info) "" then None else Some (si_requiredPermission info) in
  _ ← emit (PwPublishCommonEvent w (si_code info) permission (si_finishedReceiver info) callerUid);
  mret (if PublishCommonEvent w then ERR_OK else AppResult (-1)).

Definition START_ABILITY : Z := 1.
Definition START_ABILITIES : Z := 2.
Definition START_SERVICE : Z := 3.
Definition SEND_COMMON_EVENT : Z := 4.
Definition START_FOREGROUND_SERVICE : Z := 5.

(** The want that a key sends: the requested one when it has any, with the key's
    flags when it may be changed. *)
Definition sent_want (k : PendingWantKey) : Want :=
  let w := match k_allWantsInfos k with [] => emptyWant | _ => k_requestWant k end in
  if has_flag (k_flags k) CONSTANT_FLAG then w
  else mkWant (AddFlags (k_flags k mod UINT32_MOD) (operation_ w)) (parameters_ w).

(** [allWantsInfos.back().want = want], which needs a last one. *)
Definition set_back_want (w : Want) (l : list WantsInfo) : option (list WantsInfo) :=
  match last l with
  | Some i => Some (take (length l - 1) l ++ [mkWantsInfo w (wi_resolvedTypes i)])
  | None => None
  end.

(** What a send does once it has seen to the flags. *)
Definition send_now (x : PendingWantRecord) (k : PendingWantKey) (info : SenderInfo) : M ErrCode :=
  let w := sent_want k in
  let finish := si_finishedReceiver info in
  '(res, sendFinish) ←
    (if (k_type k =? START_ABILITY) || (k_type k =? START_SERVICE) || (k_type k =? START_FOREGROUND_SERVICE) then
       res ← PendingWantStartAbility w (p_callerToken x) (-1) (p_callerUid x); mret (res, finish)
     else if k_type k =? START_ABILITIES then
       wants ← deref (set_back_want w (k_allWantsInfos k));
       res ← PendingWantStartAbilitys wants (p_callerToken x) (-1) (p_callerUid x); mret (res, finish)
     else if k_type k =? SEND_COMMON_EVENT then
       res ← PendingWantPublishCommonEvent w info (p_callerUid x);
       mret (res, if decide (res = ERR_OK) then None else finish)
     else mret (ERR_OK, finish));
  _ ← match sendFinish with
      | Some receiver =>
          if decide (res = START_CANCELED) then mret tt else emit (PwPerformReceive receiver w (si_code info))
      | None => mret tt
      end;
  mret res.

Definition SenderInner (p : PRef) (info : SenderInfo) : M ErrCode :=
  x ← the_pending p;
  if p_canceled x then mret START_CANCELED
  else
    k ← the_key (p_key x);
    _ ← (if has_flag (k_flags k) ONE_TIME_FLAG then CancelWantSenderLocked p true else mret tt);
    send_now x k info.

Definition SendWantSender (target : option PRef) (info : SenderInfo) : M ErrCode :=
  match target with None => mret ERR_INVALID_VALUE | Some p => SenderInner p info end.
End sending.

(** ** Listeners, queries and clearing *)

(** The record that is tabled under the code of a sender's key. *)
Definition tabled_record (target : PRef) : M (option PRef) :=
  x ← the_pending target;
  k ← the_key (p_key x);
  gets (λ s, GetPendingWantRecordByCode s (k_code k)).

Definition pending_query {A} (f : PendingWantRecord → PendingWantKey → A) (dflt : A) (target : option PRef) : M A :=
  match target with
  | None => mret dflt
  | Some t =>
      r ← tabled_record t;
      match r with
      | None => mret dflt
      | Some p => x ← the_pending p; k ← the_key (p_key x); mret (f x k)
      end
  end.

Definition GetPendingWantUid : option PRef → M Z := pending_query (λ x k, p_uid x) (-1).
Definition GetPendingWantUserId : option PRef → M Z := pending_query (λ x k, k_userId k) (-1).
Definition GetPendingWantBundleName : option PRef → M string := pending_query (λ x k, k_bundleName k) "".
Definition GetPendingWantCode : option PRef → M Z := pending_query (λ x k, k_code k) (-1).
Definition GetPendingWantType : option PRef → M Z := pending_query (λ x k, k_type k) (-1).
(** [None] stands for [ERR_INVALID_VALUE]. *)
Definition GetPendingRequestWant : option PRef → M (option Want) := pending_query (λ x k, Some (k_requestWant k)) None.
(** The four fields that it fills in: code, type, flags and wants. *)
Definition GetWantSenderInfo : option PRef → M (option (Z * Z * Z * list WantsInfo)) :=
  pending_query (λ x k, Some (k_requestCode k, k_type k, k_flags k mod UINT32_MOD, k_allWantsInfos k)) None.

Definition RegisterCancelListener (sender : option PRef) (receiver : option Receiver) : M unit :=
  match sender, receiver with
  | Some t, Some rc =>
      r ← tabled_record t;
      match r with
      | None => mret tt
      | Some p =>
          x ← the_pending p;
          if p_canceled x then mret tt else upd_pending p (λ x, x <| p_cancelCallbacks ::= λ l, l ++ [rc] |>)
      end
  | _, _ => mret tt
  end.

Definition UnregisterCancelListener (sender : option PRef) (receiver : option Receiver) : M unit :=
  match sender, receiver with
  | Some t, Some rc =>
      r ← tabled_record t;
      match r with
      | None => mret tt
      | Some p => upd_pending p (λ x, x <| p_cancelCallbacks ::= list_erase_val rc |>)
      end
  | _, _ => mret tt
  end.

Definition ClearPendingWantRecord (bundleName : string) (uid : Z) : M unit := emit (PwPostClear bundleName uid).

Definition has_bundle (s : PendingWants) (bundleName : string) (uid : Z) (p : PRef) : bool :=
  match pw_records s !! p, key_of s p with
  | Some x, Some k =>
      existsb (λ i, String.eqb (op_bundleName (operation_ (wi_want i))) bundleName && (uid =? p_uid x)) (k_allWantsInfos k)
  | _, _ => false
  end.

Definition ClearPendingWantRecordTask (bundleName : string) (uid : Z) : M unit :=
  modify (λ s, s <| wantRecords_ ::= filter (λ e, has_bundle s bundleName uid e.2 = false) |>).
End pending_manager.
