(* ===== verification/PendingWantRun.v ===== *)
(** [PendingWantManager] as a transition system, with the invariant of its
    states: what the map holds is not canceled and no two of its keys ask for the
    same. *)

From S2P Require Import Prelude CppString Want CallContainer AbilityRecord PendingWant.
From Stdlib Require Import Ascii.

#[local] Open Scope stdpp_scope.
#[local] Open Scope Z_scope.

Implicit Types (s : PendingWants) (p : PRef) (k : KRef) (x : PendingWantRecord) (y : PendingWantKey).

Ltac pendings_cbn := unfold update; cbn [pw_records pw_keys wantRecords_ pw_next pw_id pw_trace].

Section pending_run.
Context (before : KRef → KRef → bool) (json_dump : WantJson → string).

(** * What a key asks for *)

(** Everything that [CheckPendingWantRecordByKey] compares. *)
Definition identity y : string * Z * string * Z * string * Operation * string * Z * Z :=
  (k_bundleName y, k_type y, k_requestWho y, k_requestCode y, Want_ToString json_dump (k_requestWant y),
   operation_ (k_requestWant y), k_requestResolvedType y, k_flags y, k_userId y).

Lemma operation_eqb_eq o1 o2 : operation_eqb o1 o2 = true ↔ o1 = o2.
Proof.
  unfold operation_eqb. split.
  - intros H. repeat (case_match; [done|]). bool_to_prop. destruct o1, o2; cbn in *. congruence.
  - intros ->. by rewrite !String.eqb_refl, bool_decide_true, Z.eqb_refl.
Qed.

Lemma CheckPendingWantRecordByKey_identity y1 y2 :
  CheckPendingWantRecordByKey json_dump y1 y2 = true ↔ identity y1 = identity y2.
Proof.
  unfold CheckPendingWantRecordByKey, identity. split.
  - intros H. repeat (case_match; [done|]). bool_to_prop.
    repeat match goal with H : operation_eqb _ _ = true |- _ => apply operation_eqb_eq in H end. congruence.
  - intros [= -> -> -> -> -> -> -> -> ->].
    by rewrite !String.eqb_refl, !Z.eqb_refl, (proj2 (operation_eqb_eq _ _) eq_refl).
Qed.

(** * The invariant *)

(** Keys made so far; the codes are told apart while there are at most [INT_MAX]. *)
Definition few_keys s : Prop := Zpos (pw_next s) ≤ 2 * INT_MAX + 1.

Record pending_ok s : Prop := {
  po_tabled k p : wantRecords_ s !! k = Some p →
    ∃ x, pw_records s !! p = Some x ∧ p_key x = k ∧ p_canceled x = false;
  po_once k1 k2 y1 y2 : is_Some (wantRecords_ s !! k1) → is_Some (wantRecords_ s !! k2) →
    pw_keys s !! k1 = Some y1 → pw_keys s !! k2 = Some y2 → identity y1 = identity y2 → k1 = k2;
  po_key p x : pw_records s !! p = Some x → is_Some (pw_keys s !! p_key x);
  po_own p1 p2 x1 x2 : pw_records s !! p1 = Some x1 → pw_records s !! p2 = Some x2 → p_key x1 = p_key x2 → p1 = p2;
  po_fresh q : (pw_next s ≤ q)%positive → pw_records s !! q = None ∧ pw_keys s !! q = None ∧ wantRecords_ s !! q = None;
  po_codes : few_keys s → Zpos (pw_next s) = 2 * pw_id s + 1 ∧
    (∀ k y, pw_keys s !! k = Some y → k_code y ≤ pw_id s) ∧
    ∀ k1 k2 y1 y2, pw_keys s !! k1 = Some y1 → pw_keys s !! k2 = Some y2 → k_code y1 = k_code y2 → k1 = k2;
}.

(** What never goes back: a record keeps its key and its owner, and stays canceled
    once it is; a key keeps asking for the same under the same code. *)
Record moved s s' : Prop := {
  pm_ok : pending_ok s';
  pm_records p x : pw_records s !! p = Some x → ∃ x', pw_records s' !! p = Some x' ∧
    p_key x' = p_key x ∧ p_uid x' = p_uid x ∧ (p_canceled x = true → p_canceled x' = true);
  pm_keys k y : pw_keys s !! k = Some y →
    ∃ y', pw_keys s' !! k = Some y' ∧ identity y' = identity y ∧ k_code y' = k_code y;
}.

Definition pending_moves s s' : Prop := pending_ok s → moved s s'.

#[export] Instance pending_moves_preorder : PreOrder pending_moves.
Proof.
  split; [intros s Hs; constructor; eauto 10|]. intros s1 s2 s3 M1 M2 Hs.
  destruct (M1 Hs) as [O1 R1 K1]. destruct (M2 O1) as [O2 R2 K2]. constructor; [done|..].
  - intros p x H. destruct (R1 p x H) as (y & Hy & E1 & E2 & C1). destruct (R2 p y Hy) as (z & Hz & E3 & E4 & C2).
    exists z. split_and!; [done|congruence..|auto].
  - intros k y H. destruct (K1 k y H) as (y2 & H2 & E1 & E2). destruct (K2 k y2 H2) as (y3 & H3 & E3 & E4).
    exists y3. split_and!; [done|congruence..].
Qed.

(** Changes of what the invariant does not speak of. *)
Record calm s s' : Prop := {
  cl_records : (λ x, (p_key x, p_canceled x, p_uid x)) <$> pw_records s' = (λ x, (p_key x, p_canceled x, p_uid x)) <$> pw_records s;
  cl_keys : (λ y, (identity y, k_code y)) <$> pw_keys s' = (λ y, (identity y, k_code y)) <$> pw_keys s;
  cl_tabled : wantRecords_ s' = wantRecords_ s;
  cl_next : pw_next s' = pw_next s;
  cl_id : pw_id s' = pw_id s;
}.

#[export] Instance calm_preorder : PreOrder calm.
Proof. split; [done|]. intros s1 s2 s3 [] []. constructor; congruence. Qed.

Lemma calm_record s s' p x' : calm s s' → pw_records s' !! p = Some x' →
  ∃ x, pw_records s !! p = Some x ∧ (p_key x', p_canceled x', p_uid x') = (p_key x, p_canceled x, p_uid x).
Proof. intros []. apply (fmap_eq_lookup (λ x, (p_key x, p_canceled x, p_uid x))). done. Qed.
Lemma calm_key s s' k y' : calm s s' → pw_keys s' !! k = Some y' →
  ∃ y, pw_keys s !! k = Some y ∧ identity y' = identity y ∧ k_code y' = k_code y.
Proof.
  intros [] H. destruct (fmap_eq_lookup (λ y, (identity y, k_code y)) _ _ _ _ cl_keys0 H) as (y & ? & ?%pair_equal_spec).
  by exists y.
Qed.

Lemma calm_sym s s' : calm s s' → calm s' s.
Proof. intros []. by constructor. Qed.

Lemma calm_moves s s' : calm s s' → pending_moves s s'.
Proof.
  intros C [Ht Ho Hk Hw Hf Hc]. pose proof (calm_sym _ _ C) as C'. pose proof C as [_ _ Et En Ei]. constructor.
  - constructor.
    + intros k p. rewrite Et. intros H. destruct (Ht k p H) as (x & Hx & E1 & E2).
      destruct (calm_record _ _ _ _ C' Hx) as (x' & Hx' & [= E3 E4 E5]). exists x'. split_and!; [done|congruence..].
    + intros k1 k2 y1' y2'. rewrite Et. intros H1 H2 Hy1 Hy2 E.
      destruct (calm_key _ _ _ _ C Hy1) as (y1 & ? & ? & ?). destruct (calm_key _ _ _ _ C Hy2) as (y2 & ? & ? & ?).
      eapply (Ho k1 k2 y1 y2); try done. congruence.
    + intros p x' H. destruct (calm_record _ _ _ _ C H) as (x & Hx & [= -> _ _]). destruct (Hk _ _ Hx) as [y Hy].
      destruct (calm_key _ _ _ _ C' Hy) as (y' & ? & _ & _). by exists y'.
    + intros p1 p2 x1' x2' H1 H2. destruct (calm_record _ _ _ _ C H1) as (x1 & ? & [= -> _ _]).
      destruct (calm_record _ _ _ _ C H2) as (x2 & ? & [= -> _ _]). by eapply Hw.
    + intros q. rewrite En, Et. intros Hq. destruct (Hf q Hq) as (H1 & H2 & H3). split_and!; [..|done].
      * destruct (pw_records s' !! q) eqn:E; [|done]. destruct (calm_record _ _ _ _ C E) as (? & ? & _). congruence.
      * destruct (pw_keys s' !! q) eqn:E; [|done]. destruct (calm_key _ _ _ _ C E) as (? & ? & _ & _). congruence.
    + unfold few_keys. rewrite En, Ei. intros Hn. destruct (Hc Hn) as (H1 & H2 & H3). split; [done|]. split.
      * intros k y' H. destruct (calm_key _ _ _ _ C H) as (y & Hy & _ & ->). by eapply H2.
      * intros k1 k2 y1' y2' Hy1 Hy2 E. destruct (calm_key _ _ _ _ C Hy1) as (y1 & ? & _ & E1).
        destruct (calm_key _ _ _ _ C Hy2) as (y2 & ? & _ & E2). eapply (H3 k1 k2 y1 y2); try done. congruence.
  - intros p x H. destruct (calm_record _ _ _ _ C' H) as (x' & Hx' & [= -> -> ->]). by exists x'.
  - intros k y H. destruct (calm_key _ _ _ _ C' H) as (y' & Hy' & ? & ?). by exists y'.
Qed.

(** * Calm operations *)

Lemma calm_pending_emit e s : keeps calm (emit e) s.
Proof. by apply wp_modify. Qed.

Lemma calm_upd_pending p f s :
  (∀ x, (p_key (f x), p_canceled (f x), p_uid (f x)) = (p_key x, p_canceled x, p_uid x)) → keeps calm (upd_pending p f) s.
Proof.
  intros Hf. apply wp_modify. constructor; pendings_cbn; try done. apply map_eq. intros q.
  rewrite !lookup_fmap, lookup_alter. case_decide; [subst q|done]. destruct (pw_records s !! p); [|done]. cbn. by rewrite Hf.
Qed.

Lemma calm_upd_key k f s :
  (∀ y, pw_keys s !! k = Some y → identity (f y) = identity y ∧ k_code (f y) = k_code y) → keeps calm (upd_key k f) s.
Proof.
  intros Hf. apply wp_modify. constructor; pendings_cbn; try done. apply map_eq. intros q.
  rewrite !lookup_fmap, lookup_alter. case_decide; [subst q|done]. destruct (pw_keys s !! k) as [y|]; [|done].
  cbn. destruct (Hf y eq_refl) as [-> ->]. done.
Qed.

Lemma wp_the_pending {B} p x (f : PendingWantRecord → ST PendingWants B) Q s :
  pw_records s !! p = Some x → wp (f x) Q s → wp (the_pending p ≫= f) Q s.
Proof. apply (wp_read (λ s, pw_records s !! p)). Qed.
Lemma wp_the_key {B} k y (f : PendingWantKey → ST PendingWants B) Q s :
  pw_keys s !! k = Some y → wp (f y) Q s → wp (the_key k ≫= f) Q s.
Proof. apply (wp_read (λ s, pw_keys s !! k)). Qed.

Lemma calm_DeviceIdDetermine SA SR w t c u s : keeps calm (DeviceIdDetermine SA SR w t c u) s.
Proof.
  unfold DeviceIdDetermine. destruct (String.eqb _ _); [|destruct (SR w); [|apply (keeps_ret _)]];
    (apply (keeps_bind _); [apply calm_pending_emit|intros; apply (keeps_ret _)]).
Qed.

Lemma calm_start_all SA SR l t c u r s : keeps calm (start_all SA SR l t c u r) s.
Proof.
  revert r s. induction l as [|i l IH]; intros r s; cbn [start_all]; [apply (keeps_ret _)|].
  apply (keeps_bind _); [apply calm_DeviceIdDetermine|]. intros. apply IH.
Qed.

Lemma calm_PendingWantPublishCommonEvent PE w info u s : keeps calm (PendingWantPublishCommonEvent PE w info u) s.
Proof. apply (keeps_bind _); [apply calm_pending_emit|]. intros. apply (keeps_ret _). Qed.

(** ** Looking up *)

Lemma elem_of_record_list s k p : (k, p) ∈ record_list before s ↔ wantRecords_ s !! k = Some p.
Proof. apply elem_of_in_order. Qed.

(** The search by key finds the one record that was asked for in the same way,
    whatever the order of the addresses is. *)
Lemma GetPendingWantRecordByKey_Some s y p :
  pending_ok s →
  GetPendingWantRecordByKey before json_dump s y = Some p ↔
  ∃ k y', wantRecords_ s !! k = Some p ∧ pw_keys s !! k = Some y' ∧ identity y' = identity y.
Proof.
  intros Hs. unfold GetPendingWantRecordByKey. split.
  - destruct (List.find _ _) as [[k p']|] eqn:Hf; [|done]. intros [= ->].
    apply find_Some_elem in Hf as [Hin Hm]. apply elem_of_record_list in Hin. unfold key_matches in Hm. cbn in Hm.
    destruct (pw_keys s !! k) as [y'|] eqn:Hy; [|done]. exists k, y'. split_and!; [done..|].
    by apply CheckPendingWantRecordByKey_identity.
  - intros (k & y' & Hk & Hy & E). destruct (List.find _ _) as [[k2 p2]|] eqn:Hf.
    + apply find_Some_elem in Hf as [Hin Hm]. apply elem_of_record_list in Hin. unfold key_matches in Hm. cbn in Hm.
      destruct (pw_keys s !! k2) as [y2|] eqn:Hy2; [|done]. apply CheckPendingWantRecordByKey_identity in Hm.
      assert (k2 = k) as -> by (eapply (po_once _ Hs k2 k y2 y'); [by eexists|by eexists|done|done|congruence]).
      cbn. congruence.
    + exfalso. eapply (find_None_elem _ _ (k, p)) in Hf; [|by apply elem_of_record_list].
      unfold key_matches in Hf. cbn in Hf. rewrite Hy in Hf.
      apply CheckPendingWantRecordByKey_identity in E. congruence.
Qed.

Lemma GetPendingWantRecordByKey_None s y :
  GetPendingWantRecordByKey before json_dump s y = None →
  ∀ k y', is_Some (wantRecords_ s !! k) → pw_keys s !! k = Some y' → identity y' ≠ identity y.
Proof.
  unfold GetPendingWantRecordByKey. destruct (List.find _ _) eqn:Hf; [done|]. intros _ k y' [p Hk] Hy E.
  eapply (find_None_elem _ _ (k, p)) in Hf; [|by apply elem_of_record_list].
  unfold key_matches in Hf. cbn in Hf. rewrite Hy in Hf. apply CheckPendingWantRecordByKey_identity in E. congruence.
Qed.

Lemma key_of_record s p x : pending_ok s → pw_records s !! p = Some x → ∃ y, pw_keys s !! p_key x = Some y ∧ key_of s p = Some y.
Proof.
  intros Hs Hx. destruct (po_key _ Hs _ _ Hx) as [y Hy]. exists y. split; [done|]. unfold key_of. by rewrite Hx.
Qed.

(** The search by code finds the record itself, while it is tabled. *)
Lemma GetPendingWantRecordByCode_own s k p y :
  pending_ok s → few_keys s → wantRecords_ s !! k = Some p → pw_keys s !! k = Some y →
  GetPendingWantRecordByCode before s (k_code y) = Some p.
Proof.
  intros Hs Hn Hk Hy. destruct (po_codes _ Hs Hn) as (_ & _ & Hc). unfold GetPendingWantRecordByCode.
  destruct (po_tabled _ Hs _ _ Hk) as (x & Hx & Ex & _).
  destruct (List.find _ _) as [[k2 p2]|] eqn:Hf.
  - apply find_Some_elem in Hf as [Hin Hm]. apply elem_of_record_list in Hin. cbn in Hm |- *.
    destruct (po_tabled _ Hs _ _ Hin) as (x2 & Hx2 & Ex2 & _). destruct (key_of_record _ _ _ Hs Hx2) as (y2 & Hy2 & E2).
    rewrite E2 in Hm. apply Z.eqb_eq in Hm. rewrite Ex2 in Hy2. assert (k2 = k) as -> by by eapply (Hc k2 k y2 y). congruence.
  - exfalso. eapply (find_None_elem _ _ (k, p)) in Hf; [|by apply elem_of_record_list]. cbn in Hf.
    unfold key_of in Hf. rewrite Hx in Hf. cbn in Hf. rewrite Ex, Hy in Hf. by rewrite Z.eqb_refl in Hf.
Qed.

Lemma find_code_tabled s c p : GetPendingWantRecordByCode before s c = Some p → ∃ k, wantRecords_ s !! k = Some p.
Proof.
  unfold GetPendingWantRecordByCode. destruct (List.find _ _) as [[k p']|] eqn:Hf; [|done]. intros [= ->].
  apply find_Some_elem in Hf as [Hin _]. apply elem_of_record_list in Hin. by exists k.
Qed.

Lemma wp_tabled_record t s x (Q : option PRef → PendingWants → Prop) :
  pending_ok s → pw_records s !! t = Some x →
  (∀ y, pw_keys s !! p_key x = Some y → Q (GetPendingWantRecordByCode before s (k_code y)) s) → wp (tabled_record before t) Q s.
Proof.
  intros Hs Hx HQ. destruct (po_key _ Hs _ _ Hx) as [y Hy]. unfold tabled_record.
  eapply wp_the_pending; [exact Hx|]. eapply wp_the_key; [exact Hy|]. apply wp_gets. by apply HQ.
Qed.

Lemma calm_query {A} (f : PendingWantRecord → PendingWantKey → A) dflt t s :
  pending_ok s → (∀ p, t = Some p → is_Some (pw_records s !! p)) → keeps calm (pending_query before f dflt t) s.
Proof.
  intros Hs Ht. unfold pending_query. destruct t as [t|]; [|apply (keeps_ret _)]. destruct (Ht t eq_refl) as [x Hx].
  apply wp_bind. eapply wp_tabled_record; [done|exact Hx|]. intros y Hy.
  destruct (GetPendingWantRecordByCode before s (k_code y)) as [p|] eqn:Hf; [|apply wp_ret; reflexivity].
  destruct (find_code_tabled _ _ _ Hf) as [k Hk]. destruct (po_tabled _ Hs _ _ Hk) as (x2 & Hx2 & _).
  destruct (po_key _ Hs _ _ Hx2) as [y2 Hy2]. eapply wp_the_pending; [exact Hx2|]. eapply wp_the_key; [exact Hy2|].
  apply wp_ret. reflexivity.
Qed.

Lemma calm_RegisterCancelListener t rc s :
  pending_ok s → (∀ p, t = Some p → is_Some (pw_records s !! p)) → keeps calm (RegisterCancelListener before t rc) s.
Proof.
  intros Hs Ht. unfold RegisterCancelListener. destruct t as [t|], rc as [rc|]; try apply (keeps_ret _).
  destruct (Ht t eq_refl) as [x Hx]. apply wp_bind. eapply wp_tabled_record; [done|exact Hx|]. intros y Hy.
  destruct (GetPendingWantRecordByCode before s (k_code y)) as [p|] eqn:Hf; [|apply wp_ret; reflexivity].
  destruct (find_code_tabled _ _ _ Hf) as [k Hk]. destruct (po_tabled _ Hs _ _ Hk) as (x2 & Hx2 & _).
  eapply wp_the_pending; [exact Hx2|]. destruct (p_canceled x2); [apply wp_ret; reflexivity|]. by apply calm_upd_pending.
Qed.

Lemma calm_UnregisterCancelListener t rc s :
  pending_ok s → (∀ p, t = Some p → is_Some (pw_records s !! p)) → keeps calm (UnregisterCancelListener before t rc) s.
Proof.
  intros Hs Ht. unfold UnregisterCancelListener. destruct t as [t|], rc as [rc|]; try apply (keeps_ret _).
  destruct (Ht t eq_refl) as [x Hx]. apply wp_bind. eapply wp_tabled_record; [done|exact Hx|]. intros y Hy.
  destruct (GetPendingWantRecordByCode before s (k_code y)) as [p|]; [|apply wp_ret; reflexivity]. by apply calm_upd_pending.
Qed.

(** * Canceling *)

(** The record is canceled, its listeners hear of it, and it leaves the map. *)
Definition canceled p x y s : PendingWants :=
  s <| pw_records := <[p := x <| p_canceled := true |>]> (pw_records s) |>
    <| wantRecords_ ::= delete (p_key x) |>
    <| pw_trace ::= λ t, t ++ ((λ r, PwSendCancel r (k_requestCode y)) <$> p_cancelCallbacks x) |>.

Lemma wp_send_cancels k y l s (Q : unit → PendingWants → Prop) :
  pw_keys s !! k = Some y →
  Q tt (s <| pw_trace ::= λ t, t ++ ((λ r, PwSendCancel r (k_requestCode y)) <$> l) |>) →
  wp (for_each (λ r, y' ← the_key k; emit (PwSendCancel r (k_requestCode y'))) l) Q s.
Proof.
  revert s. induction l as [|r l IH]; intros s Hy HQ; cbn [for_each].
  - apply wp_ret. revert HQ. unfold update. cbn. rewrite app_nil_r. by destruct s.
  - apply wp_bind. eapply wp_the_key; [exact Hy|]. apply wp_modify. apply IH; [done|].
    revert HQ. unfold update. cbn. by rewrite <- (assoc_L (++)).
Qed.

Lemma wp_CancelWantSenderLocked p x y s (Q : unit → PendingWants → Prop) :
  pw_records s !! p = Some x → pw_keys s !! p_key x = Some y → Q tt (canceled p x y s) → wp (CancelWantSenderLocked p true) Q s.
Proof.
  intros Hx Hy HQ. unfold CancelWantSenderLocked, MakeWantSenderCanceledLocked, SetCanceled.
  apply wp_bind, wp_bind, wp_modify. eapply wp_the_pending.
  { pendings_cbn. by rewrite lookup_alter_eq, Hx. }
  eapply wp_send_cancels; [exact Hy|]. eapply wp_the_pending; [pendings_cbn; by rewrite lookup_alter_eq, Hx|].
  apply wp_modify. revert HQ. unfold canceled, update. cbn. by rewrite (alter_known _ p x).
Qed.

Lemma canceled_moves p x y s : pw_records s !! p = Some x → pw_keys s !! p_key x = Some y →
  pending_moves s (canceled p x y s).
Proof.
  intros Hx Hy [Ht Ho Hk Hw Hf Hc]. constructor.
  - constructor; unfold canceled; pendings_cbn.
    + intros k q [Hne H]%lookup_delete_Some. destruct (Ht k q H) as (x2 & Hx2 & E1 & E2). exists x2.
      rewrite lookup_insert_ne; [done|]. intros <-. assert (x2 = x) as -> by congruence. by destruct Hne.
    + intros k1 k2 y1 y2 [q1 [_ H1]%lookup_delete_Some] [q2 [_ H2]%lookup_delete_Some]. apply Ho; by eexists.
    + intros q x2 [[<- <-]|[_ H]]%lookup_insert_Some; [by eexists|eauto].
    + intros p1 p2 x1 x2 [[<- <-]|[N1 H1]]%lookup_insert_Some [[<- <-]|[N2 H2]]%lookup_insert_Some E; try done; eauto.
    + intros q Hq. destruct (Hf q Hq) as (H1 & H2 & H3). split_and!; [|done|].
      * rewrite lookup_insert_ne; [done|]. intros <-. congruence.
      * by apply lookup_delete_None; right.
    + exact Hc.
  - intros q z H. unfold canceled. pendings_cbn. rewrite lookup_insert. case_decide as E; [subst q|by exists z].
    assert (z = x) as -> by congruence. by eexists.
  - intros k z H. by exists z.
Qed.

(** * Making a sender *)

(** A new key and a new record, under the next code. *)
Definition made (uid caller : Z) (token : option RRef) y s : PendingWants :=
  let k := pw_next s in let p := Pos.succ k in let code := wrap_i32 (pw_id s + 1) in
  s <| pw_records ::= insert p (mkPending uid caller token false k []) |>
    <| pw_keys ::= insert k (y <| k_code := code |>) |>
    <| wantRecords_ ::= insert k p |> <| pw_next := Pos.succ p |> <| pw_id := code |>.

Lemma made_moves uid caller token y s :
  (∀ k y', is_Some (wantRecords_ s !! k) → pw_keys s !! k = Some y' → identity y' ≠ identity y) →
  pending_moves s (made uid caller token y s).
Proof.
  intros Hnew. set (k0 := pw_next s). set (p0 := Pos.succ k0). set (y0 := y <| k_code := wrap_i32 (pw_id s + 1) |>).
  assert (identity y0 = identity y) as Ey by done.
  intros [Ht Ho Hk Hw Hf Hc].
  destruct (Hf p0 ltac:(unfold p0, k0; lia)) as (F1 & _). destruct (Hf k0 ltac:(unfold k0; lia)) as (_ & F2 & F3).
  assert (∀ q, wantRecords_ s !! q ≠ Some p0) as F4 by (intros q Hq; destruct (Ht _ _ Hq) as (? & ? & _); congruence).
  assert (∀ q x, pw_records s !! q = Some x → p_key x ≠ k0) as F5.
  { intros q x Hq <-. destruct (Hk _ _ Hq) as [? ?]. congruence. }
  constructor; [|intros p x Hp|].
  - constructor; unfold made; pendings_cbn; fold k0 p0 y0.
    + intros k p [[<- <-]|[_ H]]%lookup_insert_Some; [eexists; by rewrite lookup_insert_eq|].
      destruct (Ht k p H) as (x & Hx & ? & ?). exists x. rewrite lookup_insert_ne; [done|]. intros <-. congruence.
    + intros k1 k2 y1 y2 [q1 H1] [q2 H2].
      intros [[<- <-]|[N1 Hy1]]%lookup_insert_Some [[<- <-]|[N2 Hy2]]%lookup_insert_Some E; [done|..];
        rewrite ?(lookup_insert_ne _ k0 k1), ?(lookup_insert_ne _ k0 k2) in * by done.
      * by destruct (Hnew k2 y2 ltac:(by eexists) Hy2).
      * by destruct (Hnew k1 y1 ltac:(by eexists) Hy1).
      * by eapply (Ho k1 k2 y1 y2); [by eexists|by eexists|..].
    + intros p x [[<- <-]|[_ H]]%lookup_insert_Some; cbn; [rewrite lookup_insert_eq; by eexists|].
      rewrite lookup_insert_ne; [eauto|]. intros E. by apply (F5 p x).
    + intros p1 p2 x1 x2 [[<- <-]|[N1 H1]]%lookup_insert_Some [[<- <-]|[N2 H2]]%lookup_insert_Some; cbn; try done.
      * intros E. by destruct (F5 p2 x2).
      * intros E. by destruct (F5 p1 x1).
      * eauto.
    + intros q Hq. unfold p0, k0 in *. rewrite !lookup_insert_ne by lia. apply Hf. lia.
    + unfold few_keys, p0, k0. pendings_cbn. intros Hn. destruct (Hc ltac:(unfold few_keys; lia)) as (H1 & H2 & H3).
      assert (wrap_i32 (pw_id s + 1) = pw_id s + 1) as Ew by (apply wrap_i32_id; unfold INT_MAX in *; lia).
      assert (∀ k y1, pw_keys s !! k = Some y1 → k_code y1 ≠ k_code y0) as Hlt.
      { intros k y1 Hy1. specialize (H2 k y1 Hy1). change (k_code y0) with (wrap_i32 (pw_id s + 1)). lia. }
      split; [lia|]. split.
      * intros k y1 [[<- <-]|[_ H]]%lookup_insert_Some; [done|]. specialize (H2 _ _ H). lia.
      * intros k1 k2 y1 y2 [[<- <-]|[_ Hy1]]%lookup_insert_Some [[<- <-]|[_ Hy2]]%lookup_insert_Some E; [done|..|eauto].
        -- by destruct (Hlt _ _ Hy2).
        -- by destruct (Hlt _ _ Hy1).
  - exists x. unfold made. pendings_cbn. fold k0 p0. rewrite lookup_insert_ne; [done|]. intros <-. congruence.
  - intros k y1 Hy1. exists y1. unfold made. pendings_cbn. fold k0.
    rewrite lookup_insert_ne; [done|]. intros <-. congruence.
Qed.

(** The four things that asking for a sender can do. *)
Lemma wp_GetWantSenderLocked caller uid info token s (Q : option PRef → PendingWants → Prop) :
  pending_ok s →
  (∀ k p y, wantRecords_ s !! k = Some p → pw_keys s !! k = Some y → identity y = identity (make_key info) →
     if has_flag (ws_flags info) CANCEL_PRESENT_FLAG
     then ∀ x, pw_records s !! p = Some x → p_key x = k → Q None (canceled p x y s)
     else ∀ s', calm s s' → (has_flag (ws_flags info) UPDATE_PRESENT_FLAG = false → s' = s) → pw_trace s' = pw_trace s → Q (Some p) s') →
  (GetPendingWantRecordByKey before json_dump s (make_key info) = None →
     if has_flag (ws_flags info) NO_BUILD_FLAG then Q None s
     else Q (Some (Pos.succ (pw_next s))) (made uid caller token (make_key info) s)) →
  wp (GetWantSenderLocked before json_dump caller uid info token) Q s.
Proof.
  intros Hs Hfound Hnew. unfold GetWantSenderLocked. cbv zeta. apply wp_bind, wp_gets. cbv beta delta [id].
  destruct (GetPendingWantRecordByKey before json_dump s (make_key info)) as [p|] eqn:Hf.
  - apply (GetPendingWantRecordByKey_Some _ _ _ Hs) in Hf as (k & y & Hk & Hy & E).
    specialize (Hfound k p y Hk Hy E). destruct (po_tabled _ Hs _ _ Hk) as (x & Hx & Ex & _).
    destruct (has_flag (ws_flags info) CANCEL_PRESENT_FLAG); cbn [negb].
    + specialize (Hfound x Hx Ex). rewrite <- Ex in Hy.
      assert (wp (CancelWantSenderLocked p true) (λ _ s', s' = canceled p x y s) s) as HC by by eapply wp_CancelWantSenderLocked.
      unfold CancelWantSenderLocked in HC. unfold wp, mbind, ST_bind in HC |- *. destruct (MakeWantSenderCanceledLocked p s) as [[[] s1]| |]; [|done..].
      destruct (the_pending p s1) as [[x1 s2]| |]; [|done..]. cbn in HC |- *. by rewrite HC.
    + eapply wp_the_pending; [exact Hx|]. apply wp_bind.
      destruct (last (ws_allWants info)) as [i|] eqn:Hlast; [|by apply wp_ret, wp_ret, Hfound].
      destruct (has_flag (ws_flags info) UPDATE_PRESENT_FLAG) eqn:Hu; [|by apply wp_ret, wp_ret, Hfound].
      apply (wp_mono _ (λ _ s', calm s s' ∧ pw_trace s' = pw_trace s)); [|intros [] s' [C Ht]; apply wp_ret; by apply (Hfound s' C)].
      assert (identity (y <| k_requestWant := wi_want i |> <| k_requestResolvedType := wi_resolvedTypes i |>
                 <| k_allWantsInfos := ws_allWants info |>) = identity y) as Ei.
      { rewrite E. revert E. unfold make_key. rewrite Hlast. unfold identity, update. cbn. intros [= -> -> -> -> _ _ _ -> ->]. done. }
      rewrite Ex. apply wp_bind. eapply wp_mono; [eapply wp_and; [apply calm_upd_key|by apply (wp_modify _ (λ _ s', pw_trace s' = pw_trace s))]|].
      { intros y2 Hy2. assert (y2 = y) as -> by congruence. by rewrite Ei. }
      intros [] s1 [C1 T1]. eapply wp_mono; [eapply wp_and; [by apply calm_upd_pending|by apply (wp_modify _ (λ _ s', pw_trace s' = pw_trace s1))]|].
      intros [] s2 [C2 T2]. split; [by transitivity s1|congruence].
  - specialize (Hnew eq_refl). destruct (has_flag (ws_flags info) NO_BUILD_FLAG); cbn [negb]; [by apply wp_ret|].
    destruct (po_fresh _ Hs (pw_next s) ltac:(lia)) as (_ & _ & Hk0).
    unfold take_ref at 1. apply wp_bind, wp_bind, wp_gets, wp_bind, wp_modify, wp_ret, wp_bind, wp_modify.
    unfold take_ref. apply wp_bind, wp_bind, wp_gets, wp_bind, wp_modify, wp_ret, wp_bind, wp_modify.
    apply wp_bind, wp_modify. unfold PendingRecordIdCreate. apply wp_bind, wp_bind, wp_modify, wp_gets.
    apply wp_bind, wp_modify, wp_bind, wp_modify, wp_ret. revert Hnew. unfold made, update, emplace. cbn. rewrite Hk0.
    by rewrite !(alter_known _ _ _ (<[_ := _]> _) (lookup_insert_eq _ _ _)), !insert_insert_eq.
Qed.

Lemma keeps_calm_moves {A} (m : ST PendingWants A) s : keeps calm m s → keeps pending_moves m s.
Proof. intros H. eapply wp_mono; [exact H|]. intros. by apply calm_moves. Qed.

Lemma keeps_GetWantSenderLocked caller uid info token s :
  pending_ok s → keeps pending_moves (GetWantSenderLocked before json_dump caller uid info token) s.
Proof.
  intros Hs. apply wp_GetWantSenderLocked; [done|..].
  - intros k p y Hk Hy _. destruct (has_flag _ _).
    + intros x Hx Ex. apply canceled_moves; [done|by rewrite Ex].
    + intros s' C _ _. by apply calm_moves.
  - intros Hf. destruct (has_flag _ _); [reflexivity|]. apply made_moves. by apply GetPendingWantRecordByKey_None.
Qed.

Lemma keeps_CancelWantSenderLocked p s :
  pending_ok s → is_Some (pw_records s !! p) → keeps pending_moves (CancelWantSenderLocked p true) s.
Proof.
  intros Hs [x Hx]. destruct (po_key _ Hs _ _ Hx) as [y Hy]. eapply wp_CancelWantSenderLocked; [exact Hx|exact Hy|].
  by apply canceled_moves.
Qed.

(** * Sending *)

(** A key for several abilities names at least one. *)
Definition sendable s p : Prop :=
  ∀ y, key_of s p = Some y → k_type y = START_ABILITIES → k_allWantsInfos y ≠ [].

#[export] Instance sendable_dec s p : Decision (sendable s p).
Proof.
  destruct (key_of s p) as [y|] eqn:E; [|left; unfold sendable; congruence].
  destruct (decide (k_type y = START_ABILITIES → k_allWantsInfos y ≠ [])) as [H|H].
  - left. unfold sendable. rewrite E. by intros ? [= <-].
  - right. intros Hs. by apply H, Hs.
Defined.

Section with_answers.
Context (StartAbility : Want → ErrCode) (StartRemoteAbility : Want → option ErrCode) (PublishCommonEvent : Want → bool).

Lemma calm_send_now x y info s :
  (k_type y = START_ABILITIES → k_allWantsInfos y ≠ []) →
  keeps calm (send_now StartAbility StartRemoteAbility PublishCommonEvent x y info) s.
Proof.
  intros Hsend. unfold send_now. cbv zeta. apply (keeps_bind _).
  - destruct (_ || _).
    { apply (keeps_bind _); [apply calm_DeviceIdDetermine|]. intros. apply (keeps_ret _). }
    destruct (k_type y =? START_ABILITIES) eqn:Hty.
    { apply Z.eqb_eq in Hty. specialize (Hsend Hty). apply wp_bind. unfold set_back_want.
      destruct (last (k_allWantsInfos y)) as [i|] eqn:Hl; [|by apply last_None in Hl].
      eapply wp_deref; [done|]. apply (keeps_bind _); [apply calm_start_all|]. intros. apply (keeps_ret _). }
    destruct (k_type y =? SEND_COMMON_EVENT); [|apply (keeps_ret _)].
    apply (keeps_bind _); [apply calm_PendingWantPublishCommonEvent|]. intros. apply (keeps_ret _).
  - intros [res fin] s2 _ _. apply (keeps_bind _); [|intros; apply (keeps_ret _)].
    destruct fin; [|apply (keeps_ret _)]. destruct (decide _); [apply (keeps_ret _)|apply calm_pending_emit].
Qed.

Lemma keeps_SenderInner p info s :
  pending_ok s → is_Some (pw_records s !! p) → sendable s p →
  keeps pending_moves (SenderInner StartAbility StartRemoteAbility PublishCommonEvent p info) s.
Proof.
  intros Hs [x Hx] Hsend. destruct (key_of_record _ _ _ Hs Hx) as (y & Hy & Ey). unfold SenderInner.
  eapply wp_the_pending; [exact Hx|]. destruct (p_canceled x); [apply wp_ret; reflexivity|].
  eapply wp_the_key; [exact Hy|]. apply (keeps_bind _).
  { destruct (has_flag _ _); [|apply (keeps_ret _)]. apply keeps_CancelWantSenderLocked; [done|by eexists]. }
  intros _ s1 _ M1. apply keeps_calm_moves, calm_send_now. intros Hty. by apply Hsend.
Qed.
End with_answers.

Lemma keeps_ClearPendingWantRecordTask b u s : keeps pending_moves (ClearPendingWantRecordTask b u) s.
Proof.
  apply wp_modify. intros [Ht Ho Hk Hw Hf Hc]. constructor; pendings_cbn; [constructor; pendings_cbn; try done| |].
  - intros k p [H _]%map_lookup_filter_Some. eauto.
  - intros k1 k2 y1 y2 [q1 [H1 _]%map_lookup_filter_Some] [q2 [H2 _]%map_lookup_filter_Some]. apply Ho; by eexists.
  - intros q Hq. destruct (Hf q Hq) as (? & ? & H). split_and!; [done..|]. apply map_lookup_filter_None. by left.
  - intros p x H. by exists x.
  - intros k y H. by exists y.
Qed.

(** * The transition system *)

Inductive PendingEvent :=
  | PvGetWantSender (isSaCall : bool) (callingUid uid : Z) (apl : string) (info : WantSenderInfo) (token : option RRef)
  | PvSendWantSender (start : Want → ErrCode) (remote : Want → option ErrCode) (publish : Want → bool)
      (target : option PRef) (info : SenderInfo)
  | PvCancelWantSender (isSaCall : bool) (apl : string) (sender : option PRef)
  | PvRegisterCancelListener (sender : option PRef) (receiver : option Receiver)
  | PvUnregisterCancelListener (sender : option PRef) (receiver : option Receiver)
  | PvGetPendingWantUid (target : option PRef)
  | PvClearPendingWantRecord (bundleName : string) (uid : Z)
  | PvClearPendingWantRecordTask (bundleName : string) (uid : Z).

(** A sender is a record of this manager. *)
Definition known_sender s (t : option PRef) : Prop :=
  match t with Some p => is_Some (pw_records s !! p) | None => True end.
#[export] Instance known_sender_dec s t : Decision (known_sender s t).
Proof. destruct t; cbn; apply _. Defined.

Definition pending_event_ok s (e : PendingEvent) : Prop :=
  match e with
  | PvSendWantSender _ _ _ t _ => known_sender s t ∧ match t with Some p => sendable s p | None => True end
  | PvCancelWantSender _ _ t | PvRegisterCancelListener t _ | PvUnregisterCancelListener t _
  | PvGetPendingWantUid t => known_sender s t
  | _ => True
  end.
#[export] Instance pending_event_ok_dec s e : Decision (pending_event_ok s e).
Proof. destruct e as [|? ? ? [p|]| | | | | |]; cbn; apply _. Defined.

Definition run_pending (e : PendingEvent) : ST PendingWants unit :=
  match e with
  | PvGetWantSender sa cu u apl info token => _ ← GetWantSender before json_dump sa cu u apl info token; mret tt
  | PvSendWantSender SA SR PE t info => _ ← SendWantSender SA SR PE t info; mret tt
  | PvCancelWantSender sa apl t => CancelWantSender sa apl t
  | PvRegisterCancelListener t rc => RegisterCancelListener before t rc
  | PvUnregisterCancelListener t rc => UnregisterCancelListener before t rc
  | PvGetPendingWantUid t => _ ← GetPendingWantUid before t; mret tt
  | PvClearPendingWantRecord b u => ClearPendingWantRecord b u
  | PvClearPendingWantRecordTask b u => ClearPendingWantRecordTask b u
  end.

Definition pending_initial : PendingWants := mkPendings ∅ ∅ ∅ 1 0 [].
Definition pending_step : relation PendingWants := event_step run_pending pending_event_ok.
Definition pending_reachable : PendingWants → Prop := rtc pending_step pending_initial.

Lemma pending_ok_initial : pending_ok pending_initial.
Proof. constructor; intros *; cbn; rewrite ?lookup_empty; try done. Qed.

Lemma keeps_run_pending e s : pending_ok s → pending_event_ok s e → keeps pending_moves (run_pending e) s.
Proof.
  intros Hs He. assert (∀ t p, known_sender s t → t = Some p → is_Some (pw_records s !! p)) as Hk by (intros t p Ht ->; done).
  destruct e; cbn [run_pending pending_event_ok] in *.
  - apply (keeps_bind _); [|intros; apply (keeps_ret _)]. unfold GetWantSender. destruct (_ && _); [apply (keeps_ret _)|].
    by apply keeps_GetWantSenderLocked.
  - apply (keeps_bind _); [|intros; apply (keeps_ret _)]. unfold SendWantSender. destruct target as [p|]; [|apply (keeps_ret _)].
    destruct He. by apply keeps_SenderInner.
  - unfold CancelWantSender. destruct sender as [p|]; [|apply (keeps_ret _)]. destruct (negb _); [apply (keeps_ret _)|].
    by apply keeps_CancelWantSenderLocked.
  - apply keeps_calm_moves, calm_RegisterCancelListener; eauto.
  - apply keeps_calm_moves, calm_UnregisterCancelListener; eauto.
  - apply keeps_calm_moves, (keeps_bind _); [|intros; apply (keeps_ret _)]. apply calm_query; eauto.
  - apply keeps_calm_moves, calm_pending_emit.
  - apply keeps_ClearPendingWantRecordTask.
Qed.

Lemma pending_steps_move s s' : pending_ok s → rtc pending_step s s' → moved s s'.
Proof.
  intros Hs H. destruct (rtc_keeps run_pending pending_event_ok pending_ok pending_moves s s') as [E _]; [|done..|by apply E].
  intros e s0 H0 He. eapply wp_mono; [by apply keeps_run_pending|]. intros [] s1 E1. split; [done|apply (pm_ok _ _ (E1 H0))].
Qed.

Lemma pending_reachable_ok s : pending_reachable s → pending_ok s.
Proof. intros H. exact (pm_ok _ _ (pending_steps_move _ _ pending_ok_initial H)). Qed.
End pending_run.
