(* ===== verification/PendingWantClaims.v ===== *)
(** What [PendingWantManager] guarantees, and where it does not do what it means
    to. *)

From S2P Require Import Prelude CppString Want CallContainer AbilityRecord PendingWant PendingWantRun.
From Stdlib Require Import Ascii.

#[local] Open Scope stdpp_scope.
#[local] Open Scope Z_scope.

Implicit Types (s : PendingWants) (p : PRef) (k : KRef) (x : PendingWantRecord) (y : PendingWantKey).

(** * Small runs, for the instances *)

Definition by_address (k1 k2 : KRef) : bool := Pos.ltb k1 k2.
(** Enough of a text to tell wants apart. *)
Definition demo_dump (j : WantJson) : string := wj_abilityName j +:+ wj_parameters j.

Definition demo_want (ability note : string) : Want :=
  mkWant (mkOperation ability "" "com.demo" "" "" [] 0 "") (<["note" := VString note]> ∅).
Definition demo_sender (flags : Z) (note : string) : WantSenderInfo :=
  mkSenderInfo START_ABILITY "com.demo" "who" 1 [mkWantsInfo (demo_want "Main" note) ""] flags 100.
Definition accepts (w : Want) : ErrCode := ERR_OK.
Definition nowhere (w : Want) : option ErrCode := None.
Definition published (w : Want) : bool := true.

Definition pending_after (es : list PendingEvent) : PendingWants :=
  after_events (run_pending by_address demo_dump) pending_event_ok es pending_initial.

Lemma pending_after_reachable es :
  bool_decide (is_Some (run_events (run_pending by_address demo_dump) pending_event_ok es pending_initial)) = true →
  pending_reachable by_address demo_dump (pending_after es).
Proof. apply after_events_steps. Qed.

(** A sender (record 2, key 1) that may be used once, and one that may be used often. *)
Definition p_once : PendingWants := pending_after [PvGetWantSender false 7 7 "normal" (demo_sender ONE_TIME_FLAG "a") None].
Definition p_often : PendingWants := pending_after [PvGetWantSender false 7 7 "normal" (demo_sender 0 "a") None].

Lemma p_once_reachable : pending_reachable by_address demo_dump p_once.
Proof. apply pending_after_reachable. vm_compute. reflexivity. Qed.
Lemma p_often_reachable : pending_reachable by_address demo_dump p_often.
Proof. apply pending_after_reachable. vm_compute. reflexivity. Qed.

Section claims.
Context (before : KRef → KRef → bool) (json_dump : WantJson → string).

#[local] Abbreviation ident := (identity json_dump).
#[local] Abbreviation reachable := (pending_reachable before json_dump).

(** * One sender for what is asked in the same way *)

(** The map, seen as a function of what is asked for. *)
Definition asked s i p : Prop := ∃ k y, wantRecords_ s !! k = Some p ∧ pw_keys s !! k = Some y ∧ ident y = i.

(** What asking for a sender has to do, by whether there is one. *)
Record asks (caller uid : Z) (info : WantSenderInfo) (token : option RRef) s (r : option PRef) s' : Prop := {
  as_others j p : j ≠ ident (make_key info) → asked s' j p ↔ asked s j p;
  as_found p : asked s (ident (make_key info)) p →
    if has_flag (ws_flags info) CANCEL_PRESENT_FLAG
    then r = None ∧ (∀ q, ¬ asked s' (ident (make_key info)) q) ∧
         ∃ x, pw_records s !! p = Some x ∧ pw_records s' !! p = Some (x <| p_canceled := true |>) ∧
              pw_trace s' = pw_trace s ++ ((λ rc, PwSendCancel rc (ws_requestCode info)) <$> p_cancelCallbacks x)
    else r = Some p ∧ (∀ q, asked s' (ident (make_key info)) q ↔ q = p) ∧ pw_trace s' = pw_trace s;
  as_new : (∀ p, ¬ asked s (ident (make_key info)) p) →
    if has_flag (ws_flags info) NO_BUILD_FLAG then r = None ∧ s' = s
    else ∃ p k, r = Some p ∧ (∀ q, asked s' (ident (make_key info)) q ↔ q = p) ∧ pw_records s !! p = None ∧
         pw_records s' !! p = Some (mkPending uid caller token false k []) ∧ pw_trace s' = pw_trace s;
}.

Lemma asked_calm s s' i p : calm json_dump s s' → asked s' i p ↔ asked s i p.
Proof.
  intros C. pose proof (cl_tabled _ _ _ C) as E. unfold asked. rewrite E. split; intros (k & y & Hk & Hy & Hi).
  - destruct (calm_key _ _ _ _ _ C Hy) as (y0 & ? & ? & _). exists k, y0. split_and!; [done..|congruence].
  - destruct (calm_key _ _ _ _ _ (calm_sym _ _ _ C) Hy) as (y0 & ? & ? & _). exists k, y0. split_and!; [done..|congruence].
Qed.

Lemma asked_once s i p q : pending_ok json_dump s → asked s i p → asked s i q → p = q.
Proof.
  intros Hs (k1 & y1 & Hk1 & Hy1 & E1) (k2 & y2 & Hk2 & Hy2 & E2).
  assert (k1 = k2) as -> by (eapply (po_once _ _ Hs k1 k2 y1 y2); [by eexists|by eexists|done..|congruence]). congruence.
Qed.

Lemma asked_canceled s k p x y j q :
  pending_ok json_dump s → wantRecords_ s !! k = Some p → pw_keys s !! k = Some y → p_key x = k →
  asked (canceled p x y s) j q ↔ asked s j q ∧ j ≠ ident y.
Proof.
  intros Hs Hk Hy Ek. unfold asked, canceled. pendings_cbn. rewrite Ek. split.
  - intros (k' & y' & [Hne Hk']%lookup_delete_Some & Hy' & E). split; [by exists k', y'|].
    intros ->. apply Hne. eapply (po_once _ _ Hs k k' y y'); [by eexists|by eexists|done..].
  - intros [(k' & y' & Hk' & Hy' & E) Hne]. exists k', y'. split; [|done]. rewrite lookup_delete_ne; [done|].
    intros <-. congruence.
Qed.

Lemma asked_made s caller uid token y j q :
  pending_ok json_dump s → 
  asked (made uid caller token y s) j q ↔ asked s j q ∨ (j = ident y ∧ q = Pos.succ (pw_next s)).
Proof.
  intros Hs. destruct (po_fresh _ _ Hs (pw_next s) ltac:(lia)) as (_ & Hky & Hkw). unfold asked, made. pendings_cbn. split.
  - intros (k' & y' & [[<- <-]|[N Hk']]%lookup_insert_Some & Hy' & E).
    + rewrite lookup_insert_eq in Hy'. injection Hy' as <-. right. by split.
    + rewrite lookup_insert_ne in Hy' by done. left. by exists k', y'.
  - intros [(k' & y' & Hk' & Hy' & E)|[-> ->]].
    + exists k', y'. rewrite !lookup_insert_ne by (intros <-; congruence). done.
    + exists (pw_next s). rewrite !lookup_insert_eq. by eexists.
Qed.

(** C31: Senders are shared: whatever the order of the keys' addresses is, asking
    for a sender that was asked for before in the same way (bundle, type, who,
    code, want, resolved type, flags and user) finds that one and no other. With
    CANCEL_PRESENT_FLAG it is canceled, its listeners are told once each in order,
    and null is returned; otherwise it is returned itself. Asking for one that is
    not there makes a record for this caller, and with NO_BUILD_FLAG does nothing.
    Nothing that was asked for differently is touched. *)
Theorem GetWantSender_refines caller uid info token s :
  reachable s →
  ∃ r s', GetWantSenderLocked before json_dump caller uid info token s = Returned (r, s') ∧ asks caller uid info token s r s'.
Proof.
  intros Hr. apply pending_reachable_ok in Hr as Hs. apply wp_run. apply wp_GetWantSenderLocked; [done|..].
  - intros k p y Hk Hy E. assert (asked s (ident (make_key info)) p) as Hp by (exists k, y; done).
    destruct (has_flag (ws_flags info) CANCEL_PRESENT_FLAG) eqn:Hc.
    + intros x Hx Ex. constructor.
      * intros j q Hj. rewrite asked_canceled by done. rewrite E. tauto.
      * intros q Hq. rewrite Hc. assert (q = p) as -> by by eapply asked_once. split; [done|]. split.
        -- intros q0. rewrite asked_canceled, E by done. tauto.
        -- exists x. split; [done|]. unfold canceled. pendings_cbn. rewrite lookup_insert_eq. split; [done|].
           assert (k_requestCode y = ws_requestCode info) as ->; [|done].
           revert E. unfold identity, make_key. destruct (last _); intros [=]; done.
      * intros Hno. by destruct (Hno p).
    + intros s' C _ Ht. constructor.
      * intros j q _. by apply asked_calm.
      * intros q Hq. rewrite Hc. assert (q = p) as -> by by eapply asked_once. split; [done|]. split; [|done].
        intros q0. rewrite asked_calm by done. split; [intros; by eapply asked_once|by intros ->].
      * intros Hno. by destruct (Hno p).
  - intros Hf. assert (∀ p, ¬ asked s (ident (make_key info)) p) as Hno.
    { intros p Hp. assert (GetPendingWantRecordByKey before json_dump s (make_key info) = Some p); [|congruence].
      by apply GetPendingWantRecordByKey_Some. }
    destruct (has_flag (ws_flags info) NO_BUILD_FLAG) eqn:Hb.
    + constructor; [done|by intros p Hp; destruct (Hno p)|]. by rewrite Hb.
    + destruct (po_fresh _ _ Hs (Pos.succ (pw_next s)) ltac:(lia)) as (Hp0 & _). constructor.
      * intros j q Hj. rewrite asked_made by done. naive_solver.
      * by intros p Hp; destruct (Hno p).
      * intros _. rewrite Hb. exists (Pos.succ (pw_next s)), (pw_next s). split; [done|]. split; [|split; [done|]].
        -- intros q. rewrite asked_made by done. naive_solver.
        -- unfold made. pendings_cbn. by rewrite lookup_insert_eq.
Qed.

(** * Senders that are not to be used any more *)

Lemma SenderInner_canceled SA SR PE p x info s :
  pw_records s !! p = Some x → p_canceled x = true → SenderInner SA SR PE p info s = Returned (START_CANCELED, s).
Proof. intros Hx Hc. unfold SenderInner, the_pending, mbind, ST_bind. cbn. rewrite Hx. cbn. by rewrite Hc. Qed.

Lemma canceled_stays SA SR PE p x info s s' :
  pending_ok json_dump s → rtc (pending_step before json_dump) s s' → pw_records s !! p = Some x → p_canceled x = true →
  SenderInner SA SR PE p info s' = Returned (START_CANCELED, s').
Proof.
  intros Hs Hst Hx Hc. destruct (pm_records _ _ _ (pending_steps_move _ _ _ _ Hs Hst) _ _ Hx) as (x' & Hx' & _ & _ & H).
  eapply SenderInner_canceled; [exact Hx'|auto].
Qed.

(** C30: A one-time sender sends at most once: its first send returns and cancels
    it before anything is started, so whatever happens afterwards, and whatever
    the ability manager would answer, every later send is answered with
    START_CANCELED and starts, publishes and reports nothing. *)
Theorem one_time_sends_once SA SR PE p x y info s :
  reachable s → pw_records s !! p = Some x → p_canceled x = false → pw_keys s !! p_key x = Some y →
  has_flag (k_flags y) ONE_TIME_FLAG = true → sendable s p →
  ∃ e s1, SenderInner SA SR PE p info s = Returned (e, s1) ∧
    ∀ s2 SA' SR' PE' info', rtc (pending_step before json_dump) s1 s2 →
      SenderInner SA' SR' PE' p info' s2 = Returned (START_CANCELED, s2).
Proof.
  intros Hr Hx Hc Hy Hf Hsend. apply pending_reachable_ok in Hr as Hs.
  assert (wp (SenderInner SA SR PE p info) (λ _ s1, pending_ok json_dump s1 ∧
    ∃ x1, pw_records s1 !! p = Some x1 ∧ p_canceled x1 = true) s) as H.
  { pose proof (canceled_moves json_dump p x y s Hx Hy Hs) as [Ok _ _].
    unfold SenderInner. eapply wp_the_pending; [exact Hx|]. rewrite Hc. eapply wp_the_key; [exact Hy|].
    rewrite Hf. apply wp_bind. eapply wp_CancelWantSenderLocked; [exact Hx|exact Hy|].
    assert (∀ s1, calm json_dump (canceled p x y s) s1 → pending_ok json_dump s1 ∧
      ∃ x1, pw_records s1 !! p = Some x1 ∧ p_canceled x1 = true) as Hend.
    { intros s1 C. split; [apply (pm_ok _ _ _ (calm_moves _ _ _ C Ok))|].
      assert (pw_records (canceled p x y s) !! p = Some (x <| p_canceled := true |>)) as H1.
      { unfold canceled. pendings_cbn. apply lookup_insert_eq. }
      destruct (calm_record _ _ _ _ _ (calm_sym _ _ _ C) H1) as (x1 & Hx1 & [= _ E _]). exists x1. split; [done|]. by rewrite <- E. }
    eapply wp_mono; [apply (calm_send_now json_dump SA SR PE x y info (canceled p x y s))|by intros e s1 C; apply Hend].
    intros Hty. apply Hsend; [|done]. unfold key_of. by rewrite Hx. }
  apply wp_run in H as (e & s1 & E & Ok1 & x1 & Hx1 & Hc1). exists e, s1. split; [done|]. intros. by eapply canceled_stays.
Qed.

(** * Replacing the extra data of a sender *)

(** UPDATE_PRESENT_FLAG, which is to replace the extra data of a sender that
    is there, never does: whatever is called, the want of a sender keeps its text,
    parameters included, and its operation and resolved type; and a request with
    the flag whose want has another text, and that nobody has asked for yet, makes
    a second sender and leaves every key of the others exactly as it is. *)
Theorem update_never_replaces caller uid info token s s' :
  reachable s → rtc (pending_step before json_dump) s s' →
  (∀ k y, pw_keys s !! k = Some y →
     ∃ y', pw_keys s' !! k = Some y' ∧ Want_ToString json_dump (k_requestWant y') = Want_ToString json_dump (k_requestWant y) ∧
       operation_ (k_requestWant y') = operation_ (k_requestWant y) ∧
       k_requestResolvedType y' = k_requestResolvedType y) ∧
  (has_flag (ws_flags info) UPDATE_PRESENT_FLAG = true → has_flag (ws_flags info) NO_BUILD_FLAG = false →
   (∀ k y, pw_keys s' !! k = Some y →
      Want_ToString json_dump (k_requestWant y) ≠ Want_ToString json_dump (k_requestWant (make_key info))) →
   ∃ p s2, GetWantSenderLocked before json_dump caller uid info token s' = Returned (Some p, s2) ∧
     pw_records s' !! p = None ∧ ∀ k y, pw_keys s' !! k = Some y → pw_keys s2 !! k = Some y).
Proof.
  intros Hr Hst. apply pending_reachable_ok in Hr as Hs. pose proof (pending_steps_move _ _ _ _ Hs Hst) as [Hs' _ Hk]. split.
  - intros k y Hy. destruct (Hk k y Hy) as (y' & Hy' & E & _). exists y'. split; [done|]. unfold identity in E.
    injection E. intros. done.
  - intros _ Hb Hnew.
    assert (wp (GetWantSenderLocked before json_dump caller uid info token) (λ r s2, ∃ p, r = Some p ∧
      pw_records s' !! p = None ∧ ∀ k y, pw_keys s' !! k = Some y → pw_keys s2 !! k = Some y) s') as H.
    { apply wp_GetWantSenderLocked; [done|..].
      - intros k p y _ Hy E. exfalso. apply (Hnew k y Hy). unfold identity in E. by injection E.
      - intros _. rewrite Hb. exists (Pos.succ (pw_next s')). split; [done|].
        destruct (po_fresh _ _ Hs' (Pos.succ (pw_next s')) ltac:(lia)) as (H1 & _). split; [done|].
        destruct (po_fresh _ _ Hs' (pw_next s') ltac:(lia)) as (_ & H2 & _).
        intros k y Hy. unfold made. pendings_cbn. rewrite lookup_insert_ne; [done|]. intros <-. congruence. }
    apply wp_run in H as (r & s2 & E & p & -> & H1 & H2). by exists p, s2.
Qed.

(** * Clearing *)

(** A sender whose bundle is uninstalled leaves the map but is not canceled: its
    owner can still send it, as often as he likes. *)
Theorem cleared_still_sends SA SR PE b u k p x y info s :
  reachable s → wantRecords_ s !! k = Some p → pw_records s !! p = Some x → pw_keys s !! k = Some y →
  has_bundle s b u p = true → k_type y = START_ABILITY → has_flag (k_flags y) ONE_TIME_FLAG = false →
  si_finishedReceiver info = None → el_deviceId (GetElement (sent_want y)) = "" →
  ∃ s1 s2, ClearPendingWantRecordTask b u s = Returned (tt, s1) ∧ wantRecords_ s1 !! k = None ∧
    SenderInner SA SR PE p info s1 = Returned (SA (sent_want y), s2) ∧
    pw_trace s2 = pw_trace s ++ [PwStartAbility (sent_want y) (p_callerToken x) (-1) (p_callerUid x)].
Proof.
  intros Hr Hk Hx Hy Hb Hty Hf Hrc Hdev. apply pending_reachable_ok in Hr as Hs.
  destruct (po_tabled _ _ Hs _ _ Hk) as (x0 & Hx0 & Ex & Hc). assert (x0 = x) as -> by congruence.
  set (s1 := s <| wantRecords_ ::= filter (λ e, has_bundle s b u e.2 = false) |>).
  exists s1, (s1 <| pw_trace ::= λ t, t ++ [PwStartAbility (sent_want y) (p_callerToken x) (-1) (p_callerUid x)] |>).
  split; [done|]. split; [|split; [|done]].
  - unfold s1. pendings_cbn. apply map_lookup_filter_None. right. intros q Hq. rewrite Hk in Hq. injection Hq as <-. cbn. by rewrite Hb.
  - assert (wp (SenderInner SA SR PE p info) (λ e s2, e = SA (sent_want y) ∧
      s2 = s1 <| pw_trace ::= λ t, t ++ [PwStartAbility (sent_want y) (p_callerToken x) (-1) (p_callerUid x)] |>) s1) as H.
    { unfold SenderInner. eapply wp_the_pending; [exact Hx|]. rewrite Hc, Ex. eapply wp_the_key; [exact Hy|]. rewrite Hf.
      apply wp_bind, wp_ret. unfold send_now, PendingWantStartAbility, DeviceIdDetermine. cbv zeta. rewrite Hty, Hdev, Hrc.
      apply wp_bind, wp_bind, wp_bind, wp_modify, wp_ret, wp_ret, wp_bind, wp_ret, wp_ret. done. }
    by apply wp_run in H as (e & s2 & E & -> & ->).
Qed.
End claims.

Lemma GetWantSender_refines_witness :
  ∃ r s', GetWantSenderLocked by_address demo_dump 7 7 (demo_sender CANCEL_PRESENT_FLAG "a") None p_often = Returned (r, s') ∧
    asks demo_dump 7 7 (demo_sender CANCEL_PRESENT_FLAG "a") None p_often r s'.
Proof. exact (GetWantSender_refines by_address demo_dump 7 7 _ None p_often p_often_reachable). Defined.

Lemma one_time_sends_once_witness :
  ∃ e s1, SenderInner accepts nowhere published 2 (mkSender 0 None "") p_once = Returned (e, s1) ∧
    SenderInner accepts nowhere published 2 (mkSender 0 None "") s1 = Returned (START_CANCELED, s1).
Proof.
  destruct (lookup_is_some (pw_records p_once !! 2%positive)) as [x Hx]; [vm_compute; reflexivity|].
  destruct (lookup_is_some (pw_keys p_once !! 1%positive)) as [y Hy]; [vm_compute; reflexivity|].
  destruct (one_time_sends_once by_address demo_dump accepts nowhere published 2 x y (mkSender 0 None "") p_once) as (e & s1 & E & H).
  - exact p_once_reachable.
  - exact Hx.
  - apply (lookup_field p_canceled _ _ _ Hx). vm_compute. reflexivity.
  - rewrite (lookup_field p_key _ _ 1%positive Hx); [exact Hy|]. vm_compute. reflexivity.
  - apply (lookup_field (λ y, has_flag (k_flags y) ONE_TIME_FLAG) _ _ _ Hy). vm_compute. reflexivity.
  - apply (bool_decide_eq_true (sendable p_once 2)). vm_compute. reflexivity.
  - exists e, s1. split; [exact E|]. apply H. apply rtc_refl.
Defined.

Lemma update_never_replaces_witness :
  ∃ p s2, GetWantSenderLocked by_address demo_dump 7 7 (demo_sender UPDATE_PRESENT_FLAG "b") None p_often = Returned (Some p, s2) ∧
    pw_records p_often !! p = None.
Proof.
  destruct (update_never_replaces by_address demo_dump 7 7 (demo_sender UPDATE_PRESENT_FLAG "b") None p_often p_often
    p_often_reachable (rtc_refl _ _)) as [_ H].
  destruct H as (p & s2 & E & Hp & _); [reflexivity|reflexivity| |exists p, s2; exact (conj E Hp)].
  apply (bool_decide_eq_true (map_Forall (λ _ y, Want_ToString demo_dump (k_requestWant y) ≠
    Want_ToString demo_dump (k_requestWant (make_key (demo_sender UPDATE_PRESENT_FLAG "b")))) (pw_keys p_often))).
  vm_compute. reflexivity.
Defined.

(** A sender for several abilities that names none is made, and dereferences the
    end of its empty list when it is sent. *)
Definition p_nothing : PendingWants := pending_after
  [PvGetWantSender false 7 7 "normal" (mkSenderInfo START_ABILITIES "com.demo" "who" 1 [] 0 100) None].

Example empty_start_throws :
  SenderInner accepts nowhere published 2 (mkSender 0 None "") p_nothing = Thrown.
Proof. vm_compute. reflexivity. Qed.

(** [REPLACE_ELEMENT], the enumerator after [CONSTANT_FLAG], has the bit of it. *)
Example REPLACE_ELEMENT_is_constant : has_flag (CONSTANT_FLAG + 1) CONSTANT_FLAG = true.
Proof. reflexivity. Qed.
