(* ===== verification/UserTables.v ===== *)
(** The managers of the ability manager service, one of each kind for every user
    (the maps [connectManagers_], [missionListManagers_], [dataAbilityManagers_]
    and [pendingWantManagers_] of
    services/abilitymgr/src/ability_manager_service.cpp with their locks left out).

    The four maps are used in the same way, so they are one type here, [Table]:
    the manager objects that have been made, which of them is filed for a user,
    and which is the current one. An object outlives its entry, because posted
    tasks and the current pointer hold it. [UserManager] is what the service knows
    of a kind of managers: how one is made, how it moves, and what holds of it all
    the time; a table of managers keeps that, whatever the users do. *)

From S2P Require Import Prelude.

#[local] Open Scope stdpp_scope.
#[local] Open Scope Z_scope.

#[global] Abbreviation MgrRef := positive (only parsing).

Record Table (G : Type) := mkTable {
  t_objects : gmap MgrRef G;
  t_filed : gmap Z MgrRef;
  t_current : option MgrRef;
}.
Arguments mkTable {_} _ _ _.
Arguments t_objects {_} _.
Arguments t_filed {_} _.
Arguments t_current {_} _.

#[export] Instance Table_eta G : Eta (Table G) := λ t, mkTable (t_objects t) (t_filed t) (t_current t).

Ltac table_cbn := unfold update in *; cbn [t_objects t_filed t_current] in *.

(** The interface. *)
Class UserManager (G : Type) := {
  mgr_fresh : Z → G;              (* a new manager of a user *)
  mgr_step : relation G;          (* one of its handlers, or its surroundings *)
  mgr_ok : G → Prop;
}.

Class UserManagerLaws (G : Type) `{!UserManager G} := {
  mgr_fresh_ok u : mgr_ok (mgr_fresh u);
  mgr_step_ok g g' : mgr_step g g' → mgr_ok g → mgr_ok g';
}.

Section tables.
Context {G : Type}.
Implicit Types (t : Table G) (m : MgrRef) (u : Z).

Definition no_managers : Table G := mkTable ∅ ∅ None.

(** [InitConnectManager] and its like, when the user has a manager and when it
    gets the new one [g], at [m]. *)
Definition table_init (g : G) m u (switchUser : bool) t : Table G :=
  match t_filed t !! u with
  | Some m' => if switchUser then t <| t_current := Some m' |> else t
  | None =>
      let t := t <| t_objects ::= insert m g |> <| t_filed ::= insert u m |> in
      if switchUser then t <| t_current := Some m |> else t
  end.

Definition table_erase u t : Table G := t <| t_filed ::= delete u |>.

(** [GetConnectManagerByUserId] and its like. *)
Definition table_of_user t u : option MgrRef := t_filed t !! u.

Definition table_put m (g : G) t : Table G := t <| t_objects ::= insert m g |>.

(** Every entry has its object, objects are older than [next], and nobody shares
    an entry. *)
Record table_wf (next : positive) t : Prop := {
  tw_filed u m : t_filed t !! u = Some m → is_Some (t_objects t !! m);
  tw_current m : t_current t = Some m → is_Some (t_objects t !! m);
  tw_old m : is_Some (t_objects t !! m) → (m < next)%positive;
  tw_own u1 u2 m : t_filed t !! u1 = Some m → t_filed t !! u2 = Some m → u1 = u2;
}.

(** The current manager is the one filed for [u]. *)
Definition current_of u t : Prop := ∃ m, t_filed t !! u = Some m ∧ t_current t = Some m.

Lemma no_managers_wf next : table_wf next no_managers.
Proof. constructor; table_cbn; intros *; rewrite ?lookup_empty; [done..| |done]. by intros [? ?]. Qed.

Lemma table_wf_later next next' t : (next ≤ next')%positive → table_wf next t → table_wf next' t.
Proof. intros Hn [H1 H2 H3 H4]. constructor; [done..| |done]. intros m Hm. specialize (H3 m Hm). lia. Qed.

Lemma table_init_wf next g u sw t : table_wf next t → table_wf (Pos.succ next) (table_init g next u sw t).
Proof.
  intros Hwf. unfold table_init. destruct (t_filed t !! u) as [m'|] eqn:E.
  - apply (table_wf_later next); [lia|]. destruct Hwf as [H1 H2 H3 H4]. destruct sw; constructor; table_cbn; eauto.
    intros m [= <-]. by apply (H1 u).
  - destruct Hwf as [H1 H2 H3 H4].
    assert (∀ m, is_Some (t_objects t !! m) → is_Some (<[next := g]> (t_objects t) !! m)) as Hin.
    { intros m Hm. rewrite lookup_insert. by case_decide. }
    assert (∀ v m, <[u := next]> (t_filed t) !! v = Some m → v = u ∧ m = next ∨ v ≠ u ∧ t_filed t !! v = Some m) as Hf.
    { intros v m [[-> <-]|[? ?]]%lookup_insert_Some; auto. }
    assert (∀ v m, <[u := next]> (t_filed t) !! v = Some m → is_Some (<[next := g]> (t_objects t) !! m)) as H1'.
    { intros v m [[-> ->]|[_ Hv]]%Hf; [by rewrite lookup_insert_eq|]. by eapply Hin, H1. }
    assert (∀ m, is_Some (<[next := g]> (t_objects t) !! m) → (m < Pos.succ next)%positive) as H3'.
    { intros m [x [[<- _]|[_ Hx]]%lookup_insert_Some]; [lia|]. assert (m < next)%positive by (apply H3; by exists x). lia. }
    assert (∀ v m, t_filed t !! v = Some m → m ≠ next) as Hold.
    { intros v m Hv ->. assert (next < next)%positive by eauto. lia. }
    destruct sw; constructor; table_cbn; [done| |done| |done| |done|].
    + intros m [= <-]. exists g. apply lookup_insert_eq.
    + intros v1 v2 m [[-> ->]|[_ A]]%Hf [[-> ?]|[_ B]]%Hf; try done; [by apply Hold in B|subst; by apply Hold in A|eauto].
    + intros m Hm. eauto.
    + intros v1 v2 m [[-> ->]|[_ A]]%Hf [[-> ?]|[_ B]]%Hf; try done; [by apply Hold in B|subst; by apply Hold in A|eauto].
Qed.

Lemma table_init_current g m u t : current_of u (table_init g m u true t).
Proof.
  unfold table_init, current_of. destruct (t_filed t !! u) as [m'|] eqn:E; table_cbn.
  - by exists m'.
  - exists m. split; [|done]. apply lookup_insert_eq.
Qed.

Lemma table_init_keeps_current g m u v t :
  current_of v t → current_of v (table_init g m u false t).
Proof.
  intros (c & Hc & Hcur). unfold table_init, current_of. destruct (t_filed t !! u) eqn:E; [by exists c|]. table_cbn.
  exists c. split; [|done]. rewrite lookup_insert_ne; congruence.
Qed.

Lemma table_erase_wf next u t : table_wf next t → table_wf next (table_erase u t).
Proof.
  intros [H1 H2 H3 H4]. unfold table_erase. constructor; table_cbn; [|done..|].
  - intros v m [_ H]%lookup_delete_Some. eauto.
  - intros v1 v2 m [_ A]%lookup_delete_Some [_ B]%lookup_delete_Some. eauto.
Qed.

Lemma table_erase_current u v t : u ≠ v → current_of v t → current_of v (table_erase u t).
Proof. intros Hne (c & Hc & Hcur). exists c. split; [|done]. unfold table_erase. table_cbn. by rewrite lookup_delete_ne. Qed.

Lemma table_put_wf next m g t : is_Some (t_objects t !! m) → table_wf next t → table_wf next (table_put m g t).
Proof.
  intros Hm [H1 H2 H3 H4].
  assert (∀ n, is_Some (<[m := g]> (t_objects t) !! n) ↔ is_Some (t_objects t !! n)) as Hiff.
  { intros n. rewrite lookup_insert. case_decide; subst; naive_solver. }
  unfold table_put. constructor; table_cbn; [intros u n ?|intros n ?|intros n ?|done]; rewrite ?Hiff in *; eauto.
Qed.

(** What does not concern a manager leaves it. *)
Lemma table_init_object next g u sw t m x :
  table_wf next t → t_objects t !! m = Some x → t_objects (table_init g next u sw t) !! m = Some x.
Proof.
  intros Hwf Hm. unfold table_init. destruct (t_filed t !! u); [by destruct sw|].
  assert (m ≠ next) as Hne by (intros ->; assert (next < next)%positive by (eapply tw_old; eauto); lia).
  destruct sw; table_cbn; by rewrite lookup_insert_ne.
Qed.

Lemma table_init_filed g m u sw t v c : t_filed t !! v = Some c → t_filed (table_init g m u sw t) !! v = Some c.
Proof.
  intros Hv. unfold table_init. destruct (t_filed t !! u) eqn:E; [by destruct sw|].
  destruct sw; table_cbn; rewrite lookup_insert_ne; congruence.
Qed.
End tables.

(** ** What every manager of a table keeps *)

Section all.
Context {G : Type} (P : G → Prop).

Definition table_all (t : Table G) : Prop := ∀ m g, t_objects t !! m = Some g → P g.

Lemma table_all_none : table_all no_managers.
Proof. intros m g. cbn. by rewrite lookup_empty. Qed.

Lemma table_all_put m g t : P g → table_all t → table_all (table_put m g t).
Proof. intros Hg H n x. unfold table_put. table_cbn. intros [[_ <-]|[_ Hx]]%lookup_insert_Some; eauto. Qed.

Lemma table_all_init g m u sw t : P g → table_all t → table_all (table_init g m u sw t).
Proof.
  intros Hg H. unfold table_init. destruct (t_filed t !! u); [by destruct sw|].
  destruct sw; by apply (table_all_put m g).
Qed.

Lemma table_all_erase u t : table_all t → table_all (table_erase u t).
Proof. done. Qed.
End all.
