(* ===== verification/UserService.v ===== *)
(** Users: [UserController] (services/abilitymgr/src/user_controller.cpp,
    user_event_handler.cpp) and what [AbilityManagerService]
    (ability_manager_service.cpp) does when a user is started, switched to or
    stopped.

    This is where the managers meet. The service has one manager of each kind for
    every user ([UserTables]), whose states are those of the models of the
    managers; all mission list managers share one [MissionInfoMgr], which is
    loaded for one user at a time. So a mission list manager runs on the shared
    infos ([run_list]), whoever they belong to.

    Starting and stopping users is asked by one client, the account service, one
    call at a time. [IsOsAccountExists] and the bundle manager's
    [ImplicitQueryInfoByPriority] are parameters; [AppScheduler], the display
    manager and the task data directory are reached through effects. The launcher
    that a switch starts is an effect too: its start is a request like any other,
    and a step of its own for the manager it reaches. *)

From S2P Require Import Prelude CppString Want MissionData MissionInfo CallContainer AbilityRecord.
From S2P Require Import MissionList MissionMoves InfosInterface MissionListManager.
From S2P Require Import ServiceRecord ConnectManager ConnectRun DataAbility DataAbilityRun.
From S2P Require Import PendingWant PendingWantRun UserTables.

#[local] Open Scope stdpp_scope.
#[local] Open Scope Z_scope.

#[global] Abbreviation URef := positive (only parsing).   (* a UserItem *)

(** * Data *)

Definition USER_ID_NO_HEAD : Z := 0.
Definition USER_ID_DEFAULT : Z := 100.
Definition MAIN_USER_ID : Z := 100.
Definition U0_USER_ID : Z := 0.
Definition USER_SWITCH_TIMEOUT : Z := 3 * 1000.
Definition SWITCH_ACCOUNT_TRY : Z := 3.
Definition HIGHEST_PRIORITY_ABILITY_ENTITY : string := "flag.home.intent.from.system".

Inductive UserState := STATE_BOOTING | STATE_STARTED | STATE_STOPPING | STATE_SHUTDOWN.
#[export] Instance UserState_eq_dec : EqDecision UserState.
Proof. solve_decision. Defined.

Record UserItem := mkUserItem {
  u_userId : Z;
  u_curState : UserState;
  u_lastState : UserState;
}.

Definition new_user_item (id : Z) : UserItem := mkUserItem id STATE_BOOTING STATE_BOOTING.

Definition SetState (st : UserState) (u : UserItem) : UserItem :=
  if decide (u_curState u = st) then u else mkUserItem (u_userId u) st (u_curState u).

(** [make_shared<UserEvent>()] sets every field to zero. *)
Record UserEvent := mkUserEvent {
  ue_oldUserId : Z;
  ue_newUserId : Z;
  ue_userItem : option URef;
}.

Definition EVENT_SYSTEM_USER_START : Z := 10.
Definition EVENT_SYSTEM_USER_CURRENT : Z := 20.
Definition EVENT_REPORT_USER_SWITCH : Z := 30.
Definition EVENT_CONTINUE_USER_SWITCH : Z := 40.
Definition EVENT_USER_SWITCH_TIMEOUT : Z := 50.
Definition EVENT_REPORT_USER_SWITCH_DONE : Z := 60.

(** An event of [UserEventHandler] that waits for its time. *)
Record QueuedEvent := mkQueued { qe_id : Z; qe_data : UserEvent; qe_due : Z }.

Inductive ServiceEffect :=
  | AmsStartFreezingScreen
  | AmsStopFreezingScreen
  | AmsKillProcessesByUserId (userId : Z)
  | AmsRemoveUserDir (userId : Z)
  | AmsStartAbility (w : Want) (userId : Z)
  | AmsStopUserDone (userId ret : Z).

Record Service (I : Type) := mkService {
  ams_lists : Table (MLM I);
  ams_connects : Table Connects;
  ams_datas : Table Datas;
  ams_pendings : Table PendingWants;
  ams_infos : I;                       (* the one MissionInfoMgr *)
  ams_next : positive;
  ams_now : string;                    (* what GetCurrentTime answers *)
  currentUserId_ : Z;
  uc_items : gmap URef UserItem;
  userItems_ : gmap Z URef;
  eventHandler_ : bool;
  uc_events : list QueuedEvent;        (* in the order of their times *)
  uc_clock : Z;                        (* in milliseconds *)
  ams_trace : list ServiceEffect;
}.
Arguments mkService {_} _ _ _ _ _ _ _ _ _ _ _ _ _ _.
Arguments ams_lists {_} _.
Arguments ams_connects {_} _.
Arguments ams_datas {_} _.
Arguments ams_pendings {_} _.
Arguments ams_infos {_} _.
Arguments ams_next {_} _.
Arguments ams_now {_} _.
Arguments currentUserId_ {_} _.
Arguments uc_items {_} _.
Arguments userItems_ {_} _.
Arguments eventHandler_ {_} _.
Arguments uc_events {_} _.
Arguments uc_clock {_} _.
Arguments ams_trace {_} _.

#[export] Instance Service_eta I : Eta (Service I) := λ s,
  mkService (ams_lists s) (ams_connects s) (ams_datas s) (ams_pendings s) (ams_infos s) (ams_next s) (ams_now s)
    (currentUserId_ s) (uc_items s) (userItems_ s) (eventHandler_ s) (uc_events s) (uc_clock s) (ams_trace s).

Section service.
Context {I : Type} `{!MissionInfos I}.
(** [MissionInfoMgr::Init], which loads the infos of a user. *)
Context (infos_init : Z → I → outcome I).
(** The application manager's answer to a load by one of a manager's records. *)
Context (app_load : MgrRef → RRef → Z).
Context (IsOsAccountExists : Z → bool).
(** Name and bundle of the ability and of the extension that have the highest
    priority for a user, at each attempt to ask. *)
Context (ImplicitQueryInfoByPriority : Want → Z → nat → option ((string * string) * (string * string))).

#[local] Abbreviation M A := (ST (Service I) A).

Definition ams_emit (e : ServiceEffect) : M unit := modify (λ s, s <| ams_trace ::= λ t, t ++ [e] |>).
Definition ams_ref : M positive :=
  p ← gets ams_next; _ ← modify (λ s, s <| ams_next ::= Pos.succ |>); mret p.
Definition the_item (r : URef) : M UserItem := x ← gets (λ s, uc_items s !! r); deref x.

(** A handler of a manager, by its object. *)
Definition run_list {A} (m : MgrRef) (h : ST (MLM I) A) : M A := λ s,
  match t_objects (ams_lists s) !! m with
  | None => Thrown
  | Some g =>
      match h (g <| mlm_infos := ams_infos s |>) with
      | Returned (a, g') => Returned (a, s <| ams_lists ::= table_put m g' |> <| ams_infos := mlm_infos g' |>)
      | Thrown => Thrown
      | OutOfFuel => OutOfFuel
      end
  end.

Definition run_connects {A} (m : MgrRef) (h : ST Connects A) : M A := λ s,
  match t_objects (ams_connects s) !! m with
  | None => Thrown
  | Some c =>
      match h c with
      | Returned (a, c') => Returned (a, s <| ams_connects ::= table_put m c' |>)
      | Thrown => Thrown
      | OutOfFuel => OutOfFuel
      end
  end.

Definition load_infos (userId : Z) : M unit := λ s,
  match infos_init userId (ams_infos s) with
  | Returned i => Returned (tt, s <| ams_infos := i |>)
  | Thrown => Thrown
  | OutOfFuel => OutOfFuel
  end.

(** * Managers of a user *)

Definition InitConnectManager (userId : Z) (switchUser : bool) : M unit :=
  m ← ams_ref; modify (λ s, s <| ams_connects ::= table_init (init_connects userId true) m userId switchUser |>).

Definition InitMissionListManager (userId : Z) (switchUser : bool) : M unit :=
  s ← gets id;
  match table_of_user (ams_lists s) userId with
  | Some m =>
      if switchUser then
        _ ← load_infos userId;
        modify (λ s, s <| ams_lists ::= λ t, t <| t_current := Some m |> |>)
      else mret tt
  | None =>
      m ← ams_ref;
      _ ← load_infos userId;     (* MissionListManager::Init *)
      modify (λ s, s <| ams_lists ::= table_init (Init userId (ams_now s) (ams_infos s)) m userId switchUser |>)
  end.

Definition InitDataAbilityManager (userId : Z) (switchUser : bool) : M unit :=
  m ← ams_ref; modify (λ s, s <| ams_datas ::= table_init data_initial m userId switchUser |>).

Definition InitPendWantManager (userId : Z) (switchUser : bool) : M unit :=
  m ← ams_ref; modify (λ s, s <| ams_pendings ::= table_init pending_initial m userId switchUser |>).

Definition SwitchManagers (userId : Z) (switchUser : bool) : M unit :=
  _ ← InitConnectManager userId switchUser;
  _ ← (if negb (userId =? U0_USER_ID) then InitMissionListManager userId switchUser else mret tt);
  _ ← InitDataAbilityManager userId switchUser;
  InitPendWantManager userId switchUser.

Definition UserStarted (userId : Z) : M unit :=
  _ ← InitConnectManager userId false;
  _ ← InitMissionListManager userId false;
  _ ← InitDataAbilityManager userId false;
  InitPendWantManager userId false.

Definition ClearUserData (userId : Z) : M unit :=
  modify (λ s, s <| ams_lists ::= table_erase userId |> <| ams_connects ::= table_erase userId |>
                 <| ams_datas ::= table_erase userId |> <| ams_pendings ::= table_erase userId |>).

Definition PauseOldMissionListManager (userId : Z) : M unit :=
  s ← gets id;
  match table_of_user (ams_lists s) userId with
  | None => mret tt
  | Some m => run_list m PauseManager
  end.

Definition PauseOldUser (userId : Z) : M unit := PauseOldMissionListManager userId.

Definition PauseOldConnectManager (userId : Z) : M unit :=
  if userId =? U0_USER_ID then mret tt
  else
    s ← gets id;
    match table_of_user (ams_connects s) userId with
    | None => mret tt
    | Some m => run_connects m StopAllExtensions
    end.

Definition GetCurrentUserId : M Z := gets currentUserId_.
Definition GetUserId : M Z := GetCurrentUserId.

Definition GetValidUserId (callingUid userId : Z) : M Z :=
  if userId =? -1 then
    let validUserId := Z.quot callingUid 200000 in
    if validUserId =? U0_USER_ID then GetUserId else mret validUserId
  else mret userId.

Definition JudgeMultiUserConcurrency (userId : Z) : M bool :=
  if userId =? U0_USER_ID then mret true
  else cur ← GetUserId; mret (userId =? cur).

(** The loop of [StartHighestPriorityAbility]: how it ends, if it does; when the
    system boots it asks until it gets an answer. *)
Fixpoint query_highest (fuel : nat) (w : Want) (userId : Z) (isBoot : bool) (attemptNums : Z) (n : nat)
    : outcome (option ((string * string) * (string * string))) :=
  match fuel with
  | O => OutOfFuel
  | S fuel =>
      match ImplicitQueryInfoByPriority w userId n with
      | Some infos => Returned (Some infos)
      | None =>
          if negb isBoot && (SWITCH_ACCOUNT_TRY <? attemptNums + 1) then Returned None
          else query_highest fuel w userId isBoot (if isBoot then attemptNums else attemptNums + 1) (S n)
      end
  end.

Definition SetElementName (bundleName abilityName : string) (w : Want) : Want :=
  mkWant (set_op_element (SetAbilityName abilityName (SetBundleName bundleName (GetElement w))) (operation_ w))
    (parameters_ w).

Context (fuel : nat).

Definition StartHighestPriorityAbility (isBoot : bool) : M unit :=
  userId ← GetUserId;
  let want := WantAddEntity HIGHEST_PRIORITY_ABILITY_ENTITY emptyWant in
  found ← (λ s, r ← query_highest fuel want userId isBoot 0 0; Returned (r, s));
  match found with
  | None => mret tt
  | Some ((abilityBundle, abilityName), (extensionBundle, extensionName)) =>
      if String.eqb abilityName "" && String.eqb extensionName "" then mret tt
      else
        ams_emit (AmsStartAbility
          (if negb (String.eqb abilityName "") then SetElementName abilityBundle abilityName emptyWant
           else SetElementName extensionBundle extensionName emptyWant) userId)
  end.

(** The other services are connected by then. *)
Definition StartSystemAbilityByUser (userId : Z) (isBoot : bool) : M unit := StartHighestPriorityAbility isBoot.

Definition StartUserApps (userId : Z) (isBoot : bool) : M unit :=
  s ← gets id;
  _ ← match t_current (ams_lists s) with
      | None => mret tt
      | Some m =>
          started ← run_list m IsStarted;
          if started : bool then run_list m (ResumeManager (app_load m)) else mret tt
      end;
  StartSystemAbilityByUser userId isBoot.

Definition SwitchToUser (oldUserId userId : Z) : M unit :=
  _ ← SwitchManagers userId true;
  _ ← PauseOldUser oldUserId;
  let isBoot := oldUserId =? U0_USER_ID in
  _ ← StartUserApps userId isBoot;
  PauseOldConnectManager oldUserId.

Definition StartFreezingScreen : M unit := ams_emit AmsStartFreezingScreen.
Definition StopFreezingScreen : M unit := ams_emit AmsStopFreezingScreen.

(** * UserController *)

Definition GetUserItem (userId : Z) : M (option URef) := gets (λ s, userItems_ s !! userId).

Definition IsCurrentUser (userId : Z) : M bool :=
  oldUserId ← GetCurrentUserId;
  if oldUserId =? userId then userItem ← GetUserItem userId; mret (bool_decide (is_Some userItem))
  else mret false.

Definition GetOrCreateUserItem (userId : Z) : M URef :=
  it ← GetUserItem userId;
  match it with
  | Some r => mret r
  | None =>
      r ← ams_ref;
      _ ← modify (λ s, s <| uc_items ::= insert r (new_user_item userId) |>);
      _ ← modify (λ s, s <| userItems_ ::= insert userId r |>);
      mret r
  end.

Definition SetCurrentUserId (userId : Z) : M unit := modify (λ s, s <| currentUserId_ := userId |>).

Definition MoveUserToForeground (oldUserId newUserId : Z) : M unit := SwitchToUser oldUserId newUserId.

(** [it->second] of the end of the map is undefined. *)
Definition UserBootDone (item : URef) : M unit :=
  u ← the_item item;
  it ← GetUserItem (u_userId u);
  match it with
  | Some _ => mret tt
  | None =>
      second ← deref it;
      if negb (bool_decide (item = second)) then mret tt
      else
        _ ← modify (λ s, s <| uc_items ::= alter (SetState STATE_STARTED) item |>);
        UserStarted (u_userId u)
  end.

(** ** Events *)

(** [EventHandler::SendEvent] and [RemoveEvent]: events come in the order of
    their times, and of being sent. *)
Definition SendEvent (id : Z) (data : UserEvent) (delay : Z) : M unit :=
  modify (λ s, let due := uc_clock s + delay in
    s <| uc_events ::= insert_before (λ e, due <? qe_due e) (mkQueued id data due) |>).
Definition RemoveEvent (id : Z) : M unit :=
  modify (λ s, s <| uc_events ::= List.filter (λ e, negb (qe_id e =? id)) |>).

Definition with_handler (m : M unit) : M unit :=
  handler ← gets eventHandler_; if handler : bool then m else mret tt.

Definition SendSystemUserStart (userId : Z) : M unit :=
  with_handler (SendEvent EVENT_SYSTEM_USER_START (mkUserEvent 0 userId None) 0).
Definition SendSystemUserCurrent (oldUserId newUserId : Z) : M unit :=
  with_handler (SendEvent EVENT_SYSTEM_USER_CURRENT (mkUserEvent oldUserId newUserId None) 0).
Definition SendReportUserSwitch (oldUserId newUserId : Z) (usrItem : option URef) : M unit :=
  with_handler (
    _ ← RemoveEvent EVENT_REPORT_USER_SWITCH;
    SendEvent EVENT_REPORT_USER_SWITCH (mkUserEvent oldUserId newUserId usrItem) 0).
Definition SendUserSwitchTimeout (oldUserId newUserId : Z) (usrItem : option URef) : M unit :=
  with_handler (
    _ ← RemoveEvent EVENT_USER_SWITCH_TIMEOUT;
    SendEvent EVENT_USER_SWITCH_TIMEOUT (mkUserEvent oldUserId newUserId usrItem) USER_SWITCH_TIMEOUT).
Definition SendContinueUserSwitch (oldUserId newUserId : Z) (usrItem : option URef) : M unit :=
  with_handler (
    _ ← RemoveEvent EVENT_USER_SWITCH_TIMEOUT;
    SendEvent EVENT_CONTINUE_USER_SWITCH (mkUserEvent oldUserId newUserId usrItem) 0).
Definition SendUserSwitchDone (userId : Z) : M unit :=
  with_handler (
    _ ← RemoveEvent EVENT_REPORT_USER_SWITCH_DONE;
    SendEvent EVENT_REPORT_USER_SWITCH_DONE (mkUserEvent 0 userId None) 0).

(** These notify nobody yet. *)
Definition HandleSystemUserStart (userId : Z) : M unit := mret tt.
Definition HandleSystemUserCurrent (oldUserId newUserId : Z) : M unit := mret tt.
Definition HandleReportUserSwitch (oldUserId newUserId : Z) (usrItem : option URef) : M unit := mret tt.
Definition HandleUserSwitchDone (userId : Z) : M unit := mret tt.

Definition HandleUserSwitchTimeout (oldUserId newUserId : Z) (usrItem : option URef) : M unit :=
  SendContinueUserSwitch oldUserId newUserId usrItem.
Definition HandleContinueUserSwitch (oldUserId newUserId : Z) (usrItem : option URef) : M unit :=
  _ ← StopFreezingScreen; SendUserSwitchDone newUserId.

Definition ProcessEvent (eventId : Z) (d : UserEvent) : M unit :=
  if eventId =? EVENT_SYSTEM_USER_START then HandleSystemUserStart (ue_newUserId d)
  else if eventId =? EVENT_SYSTEM_USER_CURRENT then HandleSystemUserCurrent (ue_oldUserId d) (ue_newUserId d)
  else if eventId =? EVENT_REPORT_USER_SWITCH then
    HandleReportUserSwitch (ue_oldUserId d) (ue_newUserId d) (ue_userItem d)
  else if eventId =? EVENT_CONTINUE_USER_SWITCH then
    HandleContinueUserSwitch (ue_oldUserId d) (ue_newUserId d) (ue_userItem d)
  else if eventId =? EVENT_USER_SWITCH_TIMEOUT then
    HandleUserSwitchTimeout (ue_oldUserId d) (ue_newUserId d) (ue_userItem d)
  else if eventId =? EVENT_REPORT_USER_SWITCH_DONE then HandleUserSwitchDone (ue_newUserId d)
  else mret tt.

(** The handler's thread takes the first event, when it is due. *)
Definition deliver : M bool :=
  s ← gets id;
  match uc_events s with
  | [] => mret false
  | e :: rest =>
      if uc_clock s <? qe_due e then mret false
      else
        _ ← modify (λ s, s <| uc_events := rest |>);
        _ ← ProcessEvent (qe_id e) (qe_data e);
        mret true
  end.

(** ** Starting and stopping *)

Definition StartUser (userId : Z) (isForeground : bool) : M Z :=
  if (userId <? 0) || (userId =? USER_ID_NO_HEAD) then mret (-1)
  else
    current ← IsCurrentUser userId;
    if current : bool then mret 0
    else if negb (IsOsAccountExists userId) then mret (-1)
    else
      cur ← GetCurrentUserId;
      _ ← (if isForeground && negb (cur =? USER_ID_NO_HEAD) then StartFreezingScreen else mret tt);
      oldUserId ← GetCurrentUserId;
      userItem ← GetOrCreateUserItem userId;
      u ← the_item userItem;
      let state := u_curState u in
      if bool_decide (state = STATE_STOPPING) || bool_decide (state = STATE_SHUTDOWN) then mret (-1)
      else
        _ ← (if isForeground then SetCurrentUserId userId else mret tt);
        _ ← (if decide (state = STATE_BOOTING) then SendSystemUserStart userId else mret tt);
        _ ← (if isForeground then
               _ ← SendSystemUserCurrent oldUserId userId;
               _ ← SendReportUserSwitch oldUserId userId (Some userItem);
               SendUserSwitchTimeout oldUserId userId (Some userItem)
             else mret tt);
        _ ← UserBootDone userItem;
        _ ← (if isForeground then MoveUserToForeground oldUserId userId else mret tt);
        mret 0.

Definition StopUser (userId : Z) : M Z :=
  if (userId <? 0) || (userId =? USER_ID_NO_HEAD) || (userId =? USER_ID_DEFAULT) then mret (-1)
  else
    current ← IsCurrentUser userId;
    if current : bool then mret 0
    else if negb (IsOsAccountExists userId) then mret (-1)
    else
      _ ← ams_emit (AmsKillProcessesByUserId userId);
      _ ← ams_emit (AmsRemoveUserDir userId);
      _ ← ClearUserData userId;
      mret 0.

(** * The service *)

Definition AmsStartUser (isSaCall : bool) (userId : Z) : M ErrCode :=
  if negb isSaCall then mret CHECK_PERMISSION_FAILED
  else ret ← StartUser userId true; mret (if decide (ret = 0) then ERR_OK else AppResult ret).

Definition AmsStopUser (isSaCall : bool) (userId : Z) (callback : bool) : M ErrCode :=
  if negb isSaCall then mret CHECK_PERMISSION_FAILED
  else
    ret ← StopUser userId;
    _ ← (if callback then ams_emit (AmsStopUserDone userId ret) else mret tt);
    mret ERR_OK.

(** [AbilityManagerService::Init], after which it serves. *)
Definition AmsInit : M unit :=
  _ ← modify (λ s, s <| eventHandler_ := true |>);
  let userId := MAIN_USER_ID in
  _ ← InitConnectManager userId true;
  _ ← InitDataAbilityManager userId true;
  _ ← InitPendWantManager userId true;
  _ ← InitMissionListManager userId true;
  SwitchManagers U0_USER_ID false.

(** The service as it is constructed; [i] is the unloaded [MissionInfoMgr]. *)
Definition new_service (i : I) : Service I :=
  mkService no_managers no_managers no_managers no_managers i 1 "" 0 ∅ ∅ false [] 0 [].
End service.
