(* ===== verification/UserPause.v ===== *)
(** What pausing and resuming a mission list manager comes to, for the service
    that switches between users: pausing sends every active ability to the
    background and snapshots its mission in the shared infos; resuming leaves the
    infos alone. *)

From S2P Require Import Prelude CppString Want MissionData MissionInfo CallContainer AbilityRecord.
From S2P Require Import StoreShape MissionList MissionMoves MissionPlaces MissionTargets.
From S2P Require Import InfosInterface MissionListManager ManagerFrames ManagerSafety ManagerEvents.

#[local] Open Scope stdpp_scope.
#[local] Open Scope Z_scope.

Implicit Types (s : Store) (r : RRef).

(** Only the record [r] changes, and of it neither the mission id, nor whether it
    is private, nor what [P] looks at. *)
Record only (P : AbilityRecord → AbilityState) r s s' : Prop := {
  on_others r' : r' ≠ r → st_records s' !! r' = st_records s !! r';
  on_this a : st_records s !! r = Some a → ∃ a', st_records s' !! r = Some a' ∧
    r_missionId a' = r_missionId a ∧ r_isDlp a' = r_isDlp a ∧ P a' = P a;
}.

#[export] Instance only_preorder P r : PreOrder (only P r).
Proof.
  split; [intros s; constructor; eauto|]. intros s1 s2 s3 [O1 T1] [O2 T2]. constructor.
  - intros r' Hr. by rewrite O2, O1.
  - intros a Ha. destruct (T1 a Ha) as (a1 & H1 & <- & <- & <-). by apply T2.
Qed.

Lemma only_upd P r f s :
  (∀ a, r_missionId (f a) = r_missionId a ∧ r_isDlp (f a) = r_isDlp a ∧ P (f a) = P a) →
  keeps (only P r) (upd_record r f) s.
Proof.
  intros Hf. apply wp_modify. constructor; store_cbn.
  - intros r' Hr. by rewrite lookup_alter_ne.
  - intros a Ha. exists (f a). by rewrite lookup_alter_eq, Ha.
Qed.

Lemma only_records P r s s' : st_records s' = st_records s → only P r s s'.
Proof. intros E. constructor; rewrite E; eauto. Qed.

Lemma only_emit P r e s : keeps (only P r) (emit e) s.
Proof. by apply wp_modify, only_records. Qed.

Lemma only_next_event P r s :
  (∀ a e, P (a <| r_eventId := e |>) = P a) → keeps (only P r) (next_event r) s.
Proof.
  intros HP. unfold next_event. apply (keeps_bind _); [by apply wp_modify, only_records|].
  intros [] s1 _ _. apply keeps_gets. apply (keeps_bind _); [by apply only_upd|]. intros. apply (keeps_ret _).
Qed.

Lemma known_only P r s s' : only P r s s' → known_record s r → known_record s' r.
Proof. intros [_ T] [a Ha]. destruct (T a Ha) as (b & ? & _). by exists b. Qed.

Lemma only_post_timeout P r t s :
  (∀ a e, P (a <| r_eventId := e |>) = P a) → known_record s r → keeps (only P r) (post_timeout r t) s.
Proof.
  intros HP Hk. unfold post_timeout. apply keeps_read; [done|]. intros a _. destruct (is_debug a); [apply (keeps_ret _)|].
  apply (keeps_bind _); [by apply only_next_event|]. intros. apply only_emit.
Qed.

(** [BackgroundAbility] leaves its ability BACKGROUNDING. *)
Lemma wp_BackgroundAbility r a s Q :
  st_records s !! r = Some a →
  (∀ s' a', (∀ r', r' ≠ r → st_records s' !! r' = st_records s !! r') → st_records s' !! r = Some a' →
     r_missionId a' = r_missionId a → r_isDlp a' = r_isDlp a → r_state a' = BACKGROUNDING → Q tt s') →
  wp (BackgroundAbility r) Q s.
Proof.
  intros Ha HQ. assert (known_record s r) as Hk by by exists a.
  set (any := λ _ : AbilityRecord, INITIAL).
  unfold BackgroundAbility.
  assert (∀ (s1 : Store), only any r s s1 →
    wp (_ ← upd_record r (λ a, a <| r_state := BACKGROUNDING |>); deal_transaction r BACKGROUND) Q s1) as K2.
  { intros s1 O1. destruct (on_this _ _ _ _ O1 a Ha) as (a1 & H1 & E1 & E2 & _).
    apply wp_bind, wp_modify. eapply wp_read.
    { store_cbn. by rewrite lookup_alter_eq, H1. }
    assert (∀ s2, st_records s2 = alter (λ a, a <| r_state := BACKGROUNDING |>) r (st_records s1) → Q tt s2) as HQ'.
    { intros s2 E. apply (HQ s2 (a1 <| r_state := BACKGROUNDING |>)); [|by rewrite E, lookup_alter_eq, H1|done..].
      intros r' Hr. rewrite E, lookup_alter_ne by done. by apply O1. }
    destruct (r_dealScheduler _); [apply wp_modify|apply wp_ret]; by apply HQ'. }
  apply wp_bind. eapply (keeps_wp (only any r)); [by apply only_post_timeout|]. intros [] s1 _ O1.
  destruct (known_only _ _ _ _ O1 Hk) as [b Hb]. eapply wp_read; [done|]. apply wp_bind.
  eapply (keeps_wp (only any r)); [|intros [] s2 _ O2; apply K2; by transitivity s1].
  destruct (_ || _); [|apply (keeps_ret _)]. unfold SaveAbilityState. apply keeps_read; [by exists b|].
  intros c _. destruct (r_dealScheduler c); [apply only_emit|apply (keeps_ret _)].
Qed.

(** * Pausing *)

Ltac mlm_cbn := store_cbn;
  cbn [mlm_store mlm_infos waittingAbilityQueue_ listenerController_ mlm_userId mlm_now st_records].

Definition snapshot_of {I} `{!MissionInfos I} s (i : I) r : I :=
  match st_records s !! r with
  | Some a => infos_snapshot (r_missionId a) r (r_isDlp a) i
  | None => i
  end.

(** The records in [l] went to the background, the others are as they were. *)
Definition paused (l : list RRef) s s' : Prop :=
  ∀ r a, st_records s !! r = Some a → ∃ a', st_records s' !! r = Some a' ∧
    r_missionId a' = r_missionId a ∧ r_isDlp a' = r_isDlp a ∧
    (r ∈ l → r_state a' = BACKGROUNDING) ∧ (r ∉ l → a' = a).

Lemma paused_app l1 l2 s1 s2 s3 : paused l1 s1 s2 → paused l2 s2 s3 → paused (l1 ++ l2) s1 s3.
Proof.
  intros P1 P2 r a Ha. destruct (P1 r a Ha) as (b & Hb & I1 & D1 & B1 & N1).
  destruct (P2 r b Hb) as (c & Hc & I2 & D2 & B2 & N2). exists c. split; [done|]. split; [congruence|]. split; [congruence|].
  split; intros Hin.
  - destruct (decide (r ∈ l2)) as [|Hn]; [by apply B2|]. rewrite (N2 Hn). apply B1. set_solver.
  - rewrite N2 by set_solver. apply N1. set_solver.
Qed.

Lemma snapshot_paused {I} `{!MissionInfos I} l s s' (i : I) r :
  paused l s s' → known_record s r → snapshot_of s' i r = snapshot_of s i r.
Proof.
  intros P [a Ha]. unfold snapshot_of. destruct (P r a Ha) as (b & -> & -> & -> & _). by rewrite Ha.
Qed.

Section pause.
Context {I : Type} `{!MissionInfos I, !MissionInfosLaws I}.
Context (app_load : RRef → Z) (GenerateAbilityRequest : Want → option AbilityRequest).
Context (launcher_name : string → bool).
Implicit Types (g : MLM I).

#[local] Abbreviation good := (good GenerateAbilityRequest launcher_name).
#[local] Abbreviation calm := (calm GenerateAbilityRequest launcher_name).

Lemma wp_notify e Q g :
  (∀ g', st_records (mlm_store g') = st_records (mlm_store g) → mlm_infos g' = mlm_infos g → Q tt g') → wp (notify e) Q g.
Proof.
  intros HQ. unfold notify. apply wp_bind, wp_gets. destruct (listenerController_ g); [|by apply wp_ret, HQ].
  apply wp_st, wp_modify. by apply HQ.
Qed.

Lemma wp_pause_one r a Q g :
  st_records (mlm_store g) !! r = Some a →
  (∀ g', paused [r] (mlm_store g) (mlm_store g') → mlm_infos g' = snapshot_of (mlm_store g) (mlm_infos g) r → Q tt g') →
  wp (_ ← st (upd_record r (λ a, a <| r_isSwitchingPause := true |>)); MoveToBackgroundTask r) Q g.
Proof.
  intros Ha HQ. apply wp_bind, wp_st, wp_modify. unfold MoveToBackgroundTask. apply wp_bind, wp_st, wp_modify.
  unfold UpdateMissionSnapshot. apply wp_bind. eapply wp_st_record.
  { mlm_cbn. by rewrite !lookup_alter_eq, Ha. }
  apply wp_bind, wp_modify. apply wp_notify. mlm_cbn. intros g1 E1 E2. apply wp_st.
  eapply wp_BackgroundAbility.
  { rewrite E1. by rewrite !lookup_alter_eq, Ha. }
  intros s' a' Ho Ht Hid Hdlp Hst. apply HQ.
  - intros r' b Hb. mlm_cbn. destruct (decide (r' = r)) as [->|Hne].
    + simplify_eq. exists a'. split_and!; [done..| |]; [done|]. intros []. by left.
    + exists b. split_and!; [|done..| |done]; [by rewrite Ho, E1, !lookup_alter_ne|]. by intros ->%list_elem_of_singleton.
  - mlm_cbn. rewrite E2. unfold snapshot_of. by rewrite Ha.
Qed.

Lemma wp_pause_all l Q g :
  (∀ r, r ∈ l → known_record (mlm_store g) r) →
  (∀ g', paused l (mlm_store g) (mlm_store g') →
     mlm_infos g' = foldl (snapshot_of (mlm_store g)) (mlm_infos g) l → Q tt g') →
  wp (for_each (λ r,
    _ ← st (upd_record r (λ a, a <| r_isSwitchingPause := true |>)); MoveToBackgroundTask r) l) Q g.
Proof.
  revert g. induction l as [|r l IH]; intros g Hk HQ.
  { apply wp_ret, HQ; [|done]. intros r a Ha. exists a. split_and!; [done..| |done]. by intros ?%not_elem_of_nil. }
  destruct (Hk r) as [a Ha]; [by left|]. cbn [for_each]. apply wp_bind. eapply wp_pause_one; [done|].
  intros g1 P1 E1. apply IH.
  { intros r' Hr'. destruct (Hk r') as [b Hb]; [by right|]. destruct (P1 r' b Hb) as (c & Hc & _). by exists c. }
  intros g2 P2 E2. apply HQ; [by apply (paused_app [r] l _ (mlm_store g1))|].
  rewrite E2, E1. cbn [foldl]. generalize (snapshot_of (mlm_store g) (mlm_infos g) r).
  assert (∀ x, x ∈ l → known_record (mlm_store g) x) as Hl by (intros x Hx; apply Hk; by right). clear - P1 Hl.
  induction l as [|x l IH]; intros i; cbn [foldl]; [done|]. rewrite (snapshot_paused [r] (mlm_store g)) by (done || apply Hl; by left).
  apply IH. intros y Hy. apply Hl. by right.
Qed.

(** The shared infos get a snapshot of every active ability; the abilities go to
    the background, and none is active any more. *)
Lemma wp_PauseManager Q g :
  good g →
  (∀ g', calm g g' → paused (GetAllForegroundAbilities (mlm_store g)) (mlm_store g) (mlm_store g') →
     mlm_infos g' = foldl (snapshot_of (mlm_store g)) (mlm_infos g) (GetAllForegroundAbilities (mlm_store g)) →
     Q tt g') →
  wp PauseManager Q g.
Proof.
  intros Hg HQ. set (l := GetAllForegroundAbilities (mlm_store g)) in *.
  assert (wp PauseManager (λ _ g', calm g g') g) as Hc by by apply (calm_PauseManager GenerateAbilityRequest launcher_name).
  assert (wp PauseManager (λ _ g', paused l (mlm_store g) (mlm_store g') ∧
    mlm_infos g' = foldl (snapshot_of (mlm_store g)) (mlm_infos g) l) g) as Hp.
  { unfold PauseManager. apply wp_store. apply wp_pause_all; [|by intros].
    intros r. by apply (foreground_known GenerateAbilityRequest launcher_name). }
  eapply wp_mono; [exact (wp_and _ _ _ _ Hc Hp)|]. intros [] g' (? & ? & ?). by apply HQ.
Qed.

Lemma paused_inactive s s' :
  same_shape s s' → paused (GetAllForegroundAbilities s) s s' → GetAllForegroundAbilities s' = [].
Proof.
  intros Hs Hp. apply elem_of_nil_inv. intros r Hr.
  unfold GetAllForegroundAbilities in Hr. apply list_elem_of_bind in Hr as (l & Hr & Hl).
  unfold GetForegroundAbilities in Hr. apply list_elem_of_omap in Hr as (m & Hm & Hr).
  rewrite (same_shape_record_of _ _ _ Hs) in Hr. destruct (record_of s m) as [r'|] eqn:Hrm; [|done].
  cbn [mbind option_bind] in Hr. destruct (st_records s' !! r') as [a'|] eqn:Ha'; [|done].
  cbn [mbind option_bind] in Hr. destruct (IsActiveState a') eqn:Hact; [|done]. simplify_eq.
  destruct (lookup_shape record_shape _ (st_records s) r a' (eq_sym (ss_records _ _ Hs)) Ha') as (a & Ha & _).
  destruct (Hp r a Ha) as (b & Hb & _ & _ & Hin & Hout). simplify_eq.
  destruct (decide (r ∈ GetAllForegroundAbilities s)) as [Hl1|Hl1].
  { apply Hin in Hl1. unfold IsActiveState, IsAbilityState in Hact. by rewrite Hl1 in Hact. }
  rewrite (Hout Hl1) in Hact. apply Hl1. unfold GetAllForegroundAbilities. apply list_elem_of_bind. exists l. split.
  - unfold GetForegroundAbilities. apply list_elem_of_omap. exists m.
    rewrite <- (same_shape_missions_of _ _ _ Hs). split; [done|]. rewrite Hrm. cbn [mbind option_bind].
    rewrite Ha. cbn [mbind option_bind]. by rewrite Hact.
  - destruct Hs. revert Hl. unfold current_then. congruence.
Qed.

(** * Resuming *)

(** Code that does not touch the infos. *)
Definition leaves_infos {A} (c : ST (MLM I) A) : Prop := ∀ g a g', c g = Returned (a, g') → mlm_infos g' = mlm_infos g.

Lemma untouched_bind {A B} (c : ST (MLM I) A) (f : A → ST (MLM I) B) :
  leaves_infos c → (∀ a, leaves_infos (f a)) → leaves_infos (c ≫= f).
Proof.
  intros Hc Hf g b g'. unfold mbind, ST_bind. destruct (c g) as [[a g1]| |] eqn:E; [|done..].
  intros H%Hf. by rewrite H, (Hc _ _ _ E).
Qed.
Lemma untouched_ret {A} (a : A) : leaves_infos (mret a).
Proof. by intros g b g' [= _ ->]. Qed.
Lemma leaves_st {A} (c : ST Store A) : leaves_infos (st c).
Proof. intros g a g'. unfold st. destruct (c (mlm_store g)) as [[? ?]| |]; [|done..]. by intros [= _ <-]. Qed.

Lemma BackToLauncher_infos : leaves_infos (BackToLauncher app_load).
Proof.
  unfold BackToLauncher. apply untouched_bind; [by intros g a g' [= _ ->]|]. intros s.
  destruct (ListGetLauncherRoot _ _); [|apply untouched_ret]. apply untouched_bind; [apply leaves_st|]. intros a.
  destruct (negb _); [apply untouched_ret|]. destruct (lock_mission _ _); [|apply untouched_ret].
  apply untouched_bind; [by intros g b g' [= _ <-]|]. intros _.
  apply untouched_bind; [apply leaves_st|]. intros _. apply untouched_bind; [apply leaves_st|]. intros _. apply leaves_st.
Qed.
End pause.
