(* ===== verification/UserServiceRun.v ===== *)
(** The service of [UserService] as a transition system: its own handlers, the
    handlers of every manager it has made, and the invariant of all it reaches. *)

From S2P Require Import Prelude CppString Want MissionData MissionInfo CallContainer AbilityRecord.
From S2P Require Import StoreShape MissionList MissionMoves MissionPlaces MissionTargets.
From S2P Require Import InfosInterface MissionListManager ManagerFrames ManagerSafety ManagerEvents ManagerRun.
From S2P Require Import ServiceRecord ConnectManager ConnectShape ConnectSafety ConnectRun.
From S2P Require Import DataAbility DataAbilityRun PendingWant PendingWantRun.
From S2P Require Import UserTables UserPause UserService.

#[local] Open Scope stdpp_scope.
#[local] Open Scope Z_scope.

Implicit Types (m : MgrRef) (u : Z).

(** * The managers, through the interface *)

#[export] Instance connects_manager restartMax : UserManager Connects := {|
  mgr_fresh u := init_connects u true; mgr_step := connect_step restartMax; mgr_ok := consistent []; |}.
#[export] Instance datas_manager restartMax load : UserManager Datas := {|
  mgr_fresh u := data_initial; mgr_step := data_step restartMax load; mgr_ok := data_ok; |}.
#[export] Instance pendings_manager before json : UserManager PendingWants := {|
  mgr_fresh u := pending_initial; mgr_step := pending_step before json; mgr_ok := pending_ok json; |}.

#[export] Instance connects_laws restartMax : @UserManagerLaws Connects (connects_manager restartMax).
Proof.
  split; [intros; apply sound_init|]. intros s s' H Hs. by apply (adv_ok _ _ (advance_step_connect _ _ _ H Hs)).
Qed.
#[export] Instance datas_laws restartMax load : @UserManagerLaws Datas (datas_manager restartMax load).
Proof.
  split; [intros; apply data_ok_initial|]. intros s s' H Hs.
  exact (ev_ok _ _ (data_steps_evolve restartMax load s s' Hs (rtc_once _ _ H))).
Qed.
#[export] Instance pendings_laws before json : @UserManagerLaws PendingWants (pendings_manager before json).
Proof.
  split; [intros; apply pending_ok_initial|]. intros s s' H Hs.
  exact (pm_ok _ _ _ (pending_steps_move before json s s' Hs (rtc_once _ _ H))).
Qed.

(** * What holds all the time *)

(** Whether the screen is frozen, by what the display manager was told. *)
Definition screen_frozen (t : list ServiceEffect) : bool :=
  foldl (λ b e, match e with AmsStartFreezingScreen => true | AmsStopFreezingScreen => false | _ => b end) false t.

Definition ends_switch (e : QueuedEvent) : bool :=
  (qe_id e =? EVENT_CONTINUE_USER_SWITCH) || (qe_id e =? EVENT_USER_SWITCH_TIMEOUT).

Definition due_before (a b : QueuedEvent) : Prop := qe_due a ≤ qe_due b.
#[export] Instance due_before_trans : Transitive due_before.
Proof. intros a b c. unfold due_before. lia. Qed.

(** The user whose managers are the current ones: the main user until somebody
    has been started. *)
Definition active_user {I} (s : Service I) : Z :=
  if currentUserId_ s =? USER_ID_NO_HEAD then MAIN_USER_ID else currentUserId_ s.

(** What a mission list manager keeps, apart from the infos it shares. *)
Section invariant.
Context {I : Type} `{!MissionInfos I, !MissionInfosLaws I}.
Context (GenerateAbilityRequest : Want → option AbilityRequest) (launcher_name : string → bool).
Context (json_dump : WantJson → string).
Implicit Types (s : Service I) (g : MLM I).

#[local] Abbreviation good := (good GenerateAbilityRequest launcher_name).
#[local] Abbreviation infos_ok := (infos_ok GenerateAbilityRequest launcher_name).
#[local] Abbreviation good_request := (good_request GenerateAbilityRequest launcher_name).

Record list_ok g : Prop := {
  lo_tidy : tidy launcher_name (mlm_store g);
  lo_listener : listenerController_ g = true;
  lo_queue : Forall good_request (waittingAbilityQueue_ g);
}.

Lemma good_list_ok g : good g ↔ list_ok g ∧ infos_ok (mlm_infos g).
Proof. split; [intros []; split; [by constructor|done]|]. intros [[] ?]. by constructor. Qed.

(** The managers. *)
Record managers_ok s : Prop := {
  mo_lists : table_wf (ams_next s) (ams_lists s);
  mo_connects : table_wf (ams_next s) (ams_connects s);
  mo_datas : table_wf (ams_next s) (ams_datas s);
  mo_pendings : table_wf (ams_next s) (ams_pendings s);
  mo_list_ok : table_all list_ok (ams_lists s);
  mo_connect_ok : table_all (consistent []) (ams_connects s);
  mo_data_ok : table_all data_ok (ams_datas s);
  mo_pending_ok : table_all (pending_ok json_dump) (ams_pendings s);
  mo_infos : infos_ok (ams_infos s);
}.

(** The current managers are those of the user. *)
Record serves u s : Prop := {
  sv_lists : current_of u (ams_lists s);
  sv_connects : current_of u (ams_connects s);
  sv_datas : current_of u (ams_datas s);
  sv_pendings : current_of u (ams_pendings s);
}.

(** The users, all of which are booting, and the events about them. *)
Record users_ok s : Prop := {
  uo_items u r : userItems_ s !! u = Some r → uc_items s !! r = Some (new_user_item u);
  uo_old r : is_Some (uc_items s !! r) → (r < ams_next s)%positive;
  uo_current : currentUserId_ s ≠ USER_ID_NO_HEAD → is_Some (userItems_ s !! currentUserId_ s);
  uo_handler : eventHandler_ s = true;
  uo_sorted : StronglySorted due_before (uc_events s);
  uo_due e : e ∈ uc_events s → qe_due e ≤ uc_clock s + USER_SWITCH_TIMEOUT;
}.

(** A frozen screen has an event that will release it. *)
Definition releasing s : Prop :=
  screen_frozen (ams_trace s) = true → ∃ e, e ∈ uc_events s ∧ ends_switch e = true.

Record service_ok s : Prop := {
  so_managers : managers_ok s;
  so_serves : serves (active_user s) s;
  so_users : users_ok s;
  so_releasing : releasing s;
}.

(** * What does not concern a user *)

(** A user's manager in a table is the one it was, and in the state it was. *)
Definition table_same {G} v (t t' : Table G) : Prop :=
  t_filed t' !! v = t_filed t !! v ∧ ∀ m, t_filed t !! v = Some m → t_objects t' !! m = t_objects t !! m.

#[export] Instance table_same_preorder {G} v : PreOrder (@table_same G v).
Proof.
  split; [done|]. intros t1 t2 t3 [F1 O1] [F2 O2]. split; [congruence|]. intros m Hm.
  rewrite O2 by congruence. by apply O1.
Qed.

Lemma table_same_init {G} v (g : G) next u sw t :
  table_wf next t → u ≠ v → table_same v t (table_init g next u sw t).
Proof.
  intros Hwf Hne. split.
  - unfold table_init. destruct (t_filed t !! u); [by destruct sw|]. destruct sw; table_cbn; by rewrite lookup_insert_ne.
  - intros m Hm. destruct (tw_filed _ _ Hwf v m Hm) as [x Hx]. rewrite Hx. by apply table_init_object.
Qed.

Lemma table_same_erase {G} v u (t : Table G) : u ≠ v → table_same v t (table_erase u t).
Proof. intros Hne. split; [|done]. unfold table_erase. table_cbn. by rewrite lookup_delete_ne. Qed.

Lemma table_same_put {G} v u m (g : G) next t :
  table_wf next t → t_filed t !! u = Some m → u ≠ v → table_same v t (table_put m g t).
Proof.
  intros Hwf Hu Hne. split; [done|]. intros n Hn. unfold table_put. table_cbn. rewrite lookup_insert_ne; [done|].
  intros ->. destruct Hne. by apply (tw_own _ _ Hwf u v n).
Qed.

Record user_same v s s' : Prop := {
  us_lists : table_same v (ams_lists s) (ams_lists s');
  us_connects : table_same v (ams_connects s) (ams_connects s');
  us_datas : table_same v (ams_datas s) (ams_datas s');
  us_pendings : table_same v (ams_pendings s) (ams_pendings s');
}.

#[export] Instance user_same_preorder v : PreOrder (user_same v).
Proof. split; [by constructor|]. intros s1 s2 s3 [] []. constructor; by etransitivity. Qed.

(** A handler of the service that sees to the managers of the users [us]. *)
Record moved_on (us : list Z) s s' : Prop := {
  mv_ok : managers_ok s';
  mv_next : (ams_next s ≤ ams_next s')%positive;
  mv_user : currentUserId_ s' = currentUserId_ s;
  mv_items : uc_items s' = uc_items s;
  mv_userItems : userItems_ s' = userItems_ s;
  mv_handler : eventHandler_ s' = eventHandler_ s;
  mv_events : uc_events s' = uc_events s;
  mv_clock : uc_clock s' = uc_clock s;
  mv_frozen : screen_frozen (ams_trace s') = screen_frozen (ams_trace s);
  mv_same v : v ∉ us → user_same v s s';
}.

Definition manages us s s' : Prop := managers_ok s → moved_on us s s'.

#[export] Instance manages_preorder us : PreOrder (manages us).
Proof.
  split; [intros s H; constructor; done|]. intros s1 s2 s3 H12 H23 H1. destruct (H12 H1), (H23 (mv_ok _ _ _ (H12 H1))).
  constructor; [done|lia|congruence..|]. intros v Hv. transitivity s2; auto.
Qed.

(** The current managers stay, too. *)
Definition runs us s s' : Prop := manages us s s' ∧ ∀ u, serves u s → serves u s'.

#[export] Instance runs_preorder us : PreOrder (runs us).
Proof.
  split; [intros s; by split|]. intros s1 s2 s3 [H12 S12] [H23 S23]. split; [by transitivity s2|auto].
Qed.

(** * Running a manager *)

Lemma good_shared s m g :
  managers_ok s → t_objects (ams_lists s) !! m = Some g → good (g <| mlm_infos := ams_infos s |>).
Proof.
  intros H Hm. apply good_list_ok. split; [|apply (mo_infos _ H)]. destruct (mo_list_ok _ H m g Hm). by constructor.
Qed.

(** The service after a mission list manager has moved on the shared infos. *)
Definition with_list m g s : Service I := s <| ams_lists ::= table_put m g |> <| ams_infos := mlm_infos g |>.

Lemma with_list_managers m g s :
  managers_ok s → is_Some (t_objects (ams_lists s) !! m) → good g → managers_ok (with_list m g s).
Proof.
  intros [] Hm [Hg Hi]%good_list_ok. constructor; try done.
  - by apply table_put_wf.
  - by apply table_all_put.
Qed.

Lemma with_list_runs us u m g s :
  managers_ok s → t_filed (ams_lists s) !! u = Some m → u ∈ us → good g → runs us s (with_list m g s).
Proof.
  intros Hs Hm Hu Hg. assert (is_Some (t_objects (ams_lists s) !! m)) as Ho by (by apply (tw_filed _ _ (mo_lists _ Hs) u)).
  split; [|by intros v []; constructor]. intros _. constructor; [by apply with_list_managers|done..|].
  intros v Hv. constructor; try done. eapply table_same_put; [apply Hs|done|]. by intros ->.
Qed.

Lemma keeps_run_list {A} us u m (h : ST (MLM I) A) s :
  managers_ok s → t_filed (ams_lists s) !! u = Some m → u ∈ us →
  (∀ g, good g → keeps (safe GenerateAbilityRequest launcher_name) h g) → keeps (runs us) (run_list m h) s.
Proof.
  intros Hs Hm Hu Hh. destruct (tw_filed _ _ (mo_lists _ Hs) u m Hm) as [g Hg].
  pose proof (good_shared _ _ _ Hs Hg) as Hgood. specialize (Hh _ Hgood).
  unfold keeps, wp, run_list in *. rewrite Hg. destruct (h _) as [[a g']| |]; [|done..].
  apply (with_list_runs us u); [done..|]. by apply (safe_good _ _ _ _ Hh).
Qed.

Lemma keeps_run_connects {A} us u m (h : ST Connects A) s :
  managers_ok s → t_filed (ams_connects s) !! u = Some m → u ∈ us →
  (∀ c, consistent [] c → keeps advance h c) → keeps (runs us) (run_connects m h) s.
Proof.
  intros Hs Hm Hu Hh. destruct (tw_filed _ _ (mo_connects _ Hs) u m Hm) as [c Hc].
  pose proof (mo_connect_ok _ Hs m c Hc) as Hgood. specialize (Hh _ Hgood).
  unfold keeps, wp, run_connects in *. rewrite Hc. destruct (h c) as [[a c']| |]; [|done..].
  assert (is_Some (t_objects (ams_connects s) !! m)) as Ho by by exists c.
  split; [|by intros v []; constructor]. intros _. constructor; try done.
  - destruct Hs. constructor; try done; [by apply table_put_wf|]. apply table_all_put; [by apply Hh|done].
  - intros v Hv. constructor; try done. eapply table_same_put; [apply Hs|done|]. by intros ->.
Qed.
End invariant.

(** * The handlers *)

Section handlers.
Context {I : Type} `{!MissionInfos I, !MissionInfosLaws I}.
Context (infos_init : Z → I → outcome I).
Context (app_load : MgrRef → RRef → Z).
Context (IsOsAccountExists : Z → bool).
Context (ImplicitQueryInfoByPriority : Want → Z → nat → option ((string * string) * (string * string))).
Context (fuel : nat).
Context (GenerateAbilityRequest : Want → option AbilityRequest) (launcher_name : string → bool).
Context (json_dump : WantJson → string).
Implicit Types (s : Service I) (g : MLM I).

#[local] Abbreviation good := (good GenerateAbilityRequest launcher_name).
#[local] Abbreviation infos_ok := (infos_ok GenerateAbilityRequest launcher_name).
#[local] Abbreviation managers_ok := (managers_ok GenerateAbilityRequest launcher_name json_dump).
#[local] Abbreviation runs := (runs GenerateAbilityRequest launcher_name json_dump).
#[local] Abbreviation manages := (manages GenerateAbilityRequest launcher_name json_dump).

(** What is stored of a user can be read, and is what was saved there; the bundle
    manager answers in the end. *)
Context (stored_ok : ∀ u i, infos_ok i → ∃ i', infos_init u i = Returned i' ∧ infos_ok i').
Context (bms_ready : ∀ w u, ∃ n, (n < fuel)%nat ∧ is_Some (ImplicitQueryInfoByPriority w u n)).

Lemma keeps_PauseOldUser us u s : managers_ok s → u ∈ us → keeps (runs us) (PauseOldUser u) s.
Proof.
  intros Hs Hu. unfold PauseOldUser, PauseOldMissionListManager. apply keeps_gets. cbv beta delta [id].
  destruct (table_of_user (ams_lists s) u) as [m|] eqn:E; [|apply (keeps_ret _)].
  apply (keeps_run_list _ _ _ us u); [done..|]. intros g Hg. by apply keeps_calm_safe, calm_PauseManager.
Qed.

Lemma keeps_PauseOldConnectManager us u s :
  managers_ok s → u ∈ us → keeps (runs us) (PauseOldConnectManager u) s.
Proof.
  intros Hs Hu. unfold PauseOldConnectManager. destruct (_ =? _); [apply (keeps_ret _)|].
  apply keeps_gets. cbv beta delta [id].
  destruct (table_of_user (ams_connects s) u) as [m|] eqn:E; [|apply (keeps_ret _)].
  apply (keeps_run_connects _ _ _ us u); [done..|]. intros c Hc. by apply keeps_StopAllExtensions.
Qed.

Lemma query_highest_returns w u isBoot k f a n :
  (n ≤ k < n + f)%nat → is_Some (ImplicitQueryInfoByPriority w u k) →
  ∃ r, query_highest ImplicitQueryInfoByPriority f w u isBoot a n = Returned r.
Proof.
  revert a n. induction f as [|f IH]; intros a n Hk Hs; [lia|]. cbn [query_highest].
  destruct (ImplicitQueryInfoByPriority w u n) as [x|] eqn:E; [by eexists|].
  destruct (negb isBoot && _); [by eexists|]. apply IH; [|done].
  destruct (decide (n = k)) as [->|]; [by destruct Hs; congruence|lia].
Qed.

(** An effect that does not concern the screen. *)
Lemma keeps_other_effect us e s :
  (∀ t, screen_frozen (t ++ [e]) = screen_frozen t) → keeps (runs us) (ams_emit e) s.
Proof.
  intros He. apply wp_modify. split; [|by intros v []; constructor]. intros []. constructor; try done. apply He.
Qed.

Lemma keeps_StartHighestPriorityAbility us isBoot s :
  keeps (runs us) (StartHighestPriorityAbility ImplicitQueryInfoByPriority fuel isBoot) s.
Proof.
  unfold StartHighestPriorityAbility, GetUserId, GetCurrentUserId. apply keeps_gets. cbv zeta.
  set (w := WantAddEntity _ _). destruct (bms_ready w (currentUserId_ s)) as (k & Hk & Hs).
  destruct (query_highest_returns w (currentUserId_ s) isBoot k fuel 0 0) as [r Hr]; [lia|done|].
  unfold keeps. apply wp_bind. unfold wp. rewrite Hr. cbn [mbind outcome_bind].
  destruct r as [[[ab an] [eb en]]|]; [|apply (keeps_ret _)]. destruct (_ && _); [apply (keeps_ret _)|].
  apply keeps_other_effect. intros t. unfold screen_frozen. by rewrite foldl_app.
Qed.

Lemma keeps_StartUserApps us u v isBoot s :
  managers_ok s → current_of u (ams_lists s) → u ∈ us →
  keeps (runs us) (StartUserApps app_load ImplicitQueryInfoByPriority fuel v isBoot) s.
Proof.
  intros Hs (m & Hf & Hc) Hu. unfold StartUserApps. apply keeps_gets. cbv beta delta [id]. rewrite Hc.
  apply (keeps_bind _); [|intros; apply keeps_StartHighestPriorityAbility].
  assert (∀ s', runs us s s' → managers_ok s') as Hok by (intros s' [H _]; by apply (H Hs)).
  apply (keeps_bind _).
  - apply (keeps_run_list _ _ _ us u); [done..|]. intros g Hg. unfold IsStarted. apply wp_store. by apply wp_ret.
  - intros started s1 Hrun R1. destruct started; [|apply (keeps_ret _)].
    apply (keeps_run_list _ _ _ us u); [by apply Hok| |done|].
    + unfold run_list in Hrun. destruct (t_objects _ !! m); [|done]. destruct (IsStarted _) as [[? ?]| |]; by simplify_eq.
    + intros g Hg. by apply keeps_BackToLauncher.
Qed.

(** [SwitchManagers] for a user that has applications. *)
Lemma wp_load_infos u s Q :
  managers_ok s → (∀ i, infos_init u (ams_infos s) = Returned i → infos_ok i → Q tt (s <| ams_infos := i |>)) →
  wp (load_infos infos_init u) Q s.
Proof.
  intros Hs HQ. destruct (stored_ok u _ (mo_infos _ _ _ _ Hs)) as (i & E & Hi). unfold wp, load_infos. rewrite E. by apply HQ.
Qed.

(** ** Making and choosing managers *)

Lemma wp_ams_ref Q s : Q (ams_next s) (s <| ams_next ::= Pos.succ |>) → wp ams_ref Q s.
Proof. intros H. unfold ams_ref. by apply wp_bind, wp_gets, wp_bind, wp_modify, wp_ret. Qed.

Lemma managers_later s : managers_ok s → managers_ok (s <| ams_next ::= Pos.succ |>).
Proof. intros []. constructor; try done; (eapply table_wf_later; [|done]; unfold update; cbn [ams_next]; lia). Qed.

Lemma managers_infos s i : managers_ok s → infos_ok i → managers_ok (s <| ams_infos := i |>).
Proof. intros [] Hi. by constructor. Qed.

Ltac init_one := intros []; constructor; try done; unfold update; cbn [ams_next ams_lists ams_connects ams_datas ams_pendings];
  first [by apply table_init_wf | (eapply table_wf_later; [|done]; lia) | apply table_all_init; [|done]].

Lemma managers_init_connects u sw s : managers_ok s →
  managers_ok (s <| ams_next ::= Pos.succ |> <| ams_connects ::= table_init (init_connects u true) (ams_next s) u sw |>).
Proof. init_one. apply sound_init. Qed.
Lemma managers_init_datas u sw s : managers_ok s →
  managers_ok (s <| ams_next ::= Pos.succ |> <| ams_datas ::= table_init data_initial (ams_next s) u sw |>).
Proof. init_one. apply data_ok_initial. Qed.
Lemma managers_init_pendings u sw s : managers_ok s →
  managers_ok (s <| ams_next ::= Pos.succ |> <| ams_pendings ::= table_init pending_initial (ams_next s) u sw |>).
Proof. init_one. apply pending_ok_initial. Qed.
Lemma managers_init_lists g u sw s : managers_ok s → list_ok GenerateAbilityRequest launcher_name g →
  managers_ok (s <| ams_next ::= Pos.succ |> <| ams_lists ::= table_init g (ams_next s) u sw |>).
Proof. intros H Hg. revert H. init_one. done. Qed.

(** Making managers for [u] takes nobody's manager away, and changes who is
    current only to [u]. *)
Definition stays {G} u (sw : bool) (t t' : Table G) : Prop :=
  ∀ v, sw = false ∨ v = u → current_of v t → current_of v t'.

Record chosen u sw s s' : Prop := {
  ch_manages : manages [u] s s';
  ch_lists : stays u sw (ams_lists s) (ams_lists s');
  ch_connects : stays u sw (ams_connects s) (ams_connects s');
  ch_datas : stays u sw (ams_datas s) (ams_datas s');
  ch_pendings : stays u sw (ams_pendings s) (ams_pendings s');
}.

#[local] Instance chosen_preorder u sw : PreOrder (chosen u sw).
Proof.
  split; [intros s; constructor; [done|by intros ? ? ?..]|]. intros s1 s2 s3 [] [].
  constructor; [by transitivity s2|intros v Hv Hc; eauto..].
Qed.

Lemma stays_init {G} (g : G) m u sw t : stays u sw t (table_init g m u sw t).
Proof.
  intros v Hv Hc. destruct sw; [|by apply table_init_keeps_current]. destruct Hv as [Hv|Hv]; [done|subst v].
  apply table_init_current.
Qed.

(** The users' side does not see it, nor do other users. *)
Ltac chosen_one s H := constructor;
  [intros _; constructor; [done|unfold update; cbn [ams_next]; lia|done..|];
   let v := fresh "v" in let Hv := fresh "Hv" in intros v Hv; constructor; try done;
   apply table_same_init; [apply H|by intros ->; apply Hv; left]
  |try (by intros ?); apply stays_init..].

Lemma wp_InitConnectManager u sw s Q :
  managers_ok s →
  (∀ s', chosen u sw s s' → ams_infos s' = ams_infos s → (sw = true → current_of u (ams_connects s')) → Q tt s') →
  wp (InitConnectManager u sw) Q s.
Proof.
  intros H HQ. apply wp_bind, wp_ams_ref, wp_modify. pose proof (managers_init_connects u sw s H) as Hok.
  apply HQ; [|done|by intros ->; apply table_init_current]. chosen_one s H.
Qed.

Lemma wp_InitDataAbilityManager u sw s Q :
  managers_ok s →
  (∀ s', chosen u sw s s' → ams_infos s' = ams_infos s → (sw = true → current_of u (ams_datas s')) → Q tt s') →
  wp (InitDataAbilityManager u sw) Q s.
Proof.
  intros H HQ. apply wp_bind, wp_ams_ref, wp_modify. pose proof (managers_init_datas u sw s H) as Hok.
  apply HQ; [|done|by intros ->; apply table_init_current]. chosen_one s H.
Qed.

Lemma wp_InitPendWantManager u sw s Q :
  managers_ok s →
  (∀ s', chosen u sw s s' → ams_infos s' = ams_infos s → (sw = true → current_of u (ams_pendings s')) → Q tt s') →
  wp (InitPendWantManager u sw) Q s.
Proof.
  intros H HQ. apply wp_bind, wp_ams_ref, wp_modify. pose proof (managers_init_pendings u sw s H) as Hok.
  apply HQ; [|done|by intros ->; apply table_init_current]. chosen_one s H.
Qed.

Lemma chosen_infos u sw s i : infos_ok i → chosen u sw s (s <| ams_infos := i |>).
Proof. intros Hi. constructor; try (by intros ? ? ?). intros H. constructor; try done. by apply managers_infos. Qed.

Lemma wp_InitMissionListManager u sw s Q :
  managers_ok s →
  (∀ s', chosen u sw s s' →
     (sw = true → current_of u (ams_lists s') ∧ infos_init u (ams_infos s) = Returned (ams_infos s')) → Q tt s') →
  wp (InitMissionListManager infos_init u sw) Q s.
Proof.
  intros H HQ. apply wp_bind, wp_gets. cbv beta delta [id]. unfold table_of_user.
  destruct (t_filed (ams_lists s) !! u) as [m|] eqn:E.
  - destruct sw; [|by apply wp_ret, HQ]. apply wp_bind, wp_load_infos; [done|]. intros i Ei Hi. apply wp_modify.
    assert (managers_ok (s <| ams_infos := i |> <| ams_lists ::= λ t, t <| t_current := Some m |> |>)) as Hok.
    { pose proof (managers_infos _ i H Hi) as H1. destruct H1. constructor; try done.
      destruct mo_lists0 as [F C O W]. constructor; try done. table_cbn. intros n [= <-]. by apply (F u). }
    apply HQ.
    + transitivity (s <| ams_infos := i |>); [by apply chosen_infos|].
      constructor; try (by intros ? ? ?); [|intros v; unfold update; cbn [ams_lists]].
      * intros _. constructor; done.
      * destruct 1 as [Hv|Hv]; [done|subst v]. intros _. by exists m.
    + intros _. split; [by exists m|done].
  - apply wp_bind, wp_ams_ref, wp_bind. set (s1 := s <| ams_next ::= Pos.succ |>).
    assert (managers_ok s1) as H1 by by apply managers_later. apply wp_load_infos; [done|]. intros i Ei Hi. apply wp_modify.
    set (g := Init u _ _). assert (list_ok GenerateAbilityRequest launcher_name g) as Hg.
    { by apply good_list_ok, good_init. }
    pose proof (managers_init_lists g u sw (s <| ams_infos := i |>) (managers_infos _ _ H Hi) Hg) as Hok.
    apply HQ; [|intros ->; split; [apply table_init_current|done]].
    transitivity (s <| ams_infos := i |>); [by apply chosen_infos|]. subst s1. chosen_one s H.
Qed.

Lemma chosen_ok u sw s s' : managers_ok s → chosen u sw s s' → managers_ok s'.
Proof. intros H []. by apply mv_ok with (1 := ch_manages0 H). Qed.

(** [SwitchManagers] leaves a user with applications served. *)
Lemma wp_SwitchManagers u s Q :
  managers_ok s → u ≠ U0_USER_ID →
  (∀ s', manages [u] s s' → serves u s' → infos_init u (ams_infos s) = Returned (ams_infos s') → Q tt s') →
  wp (SwitchManagers infos_init u true) Q s.
Proof.
  intros H Hu HQ. apply wp_bind, wp_InitConnectManager; [done|]. intros s1 C1 I1 S1.
  assert (managers_ok s1) as H1 by by eapply chosen_ok. destruct (Z.eqb_spec u U0_USER_ID) as [|_]; [done|]. cbn [negb].
  apply wp_bind, wp_InitMissionListManager; [done|]. intros s2 C2 S2. assert (managers_ok s2) as H2 by by eapply chosen_ok.
  destruct (S2 eq_refl) as [S2' I2].
  apply wp_bind, wp_InitDataAbilityManager; [done|]. intros s3 C3 I3 S3. assert (managers_ok s3) as H3 by by eapply chosen_ok.
  apply wp_InitPendWantManager; [done|]. intros s4 C4 I4 S4. apply HQ; [| |by rewrite I4, I3, <- I2, I1].
  - transitivity s1; [apply C1|]. transitivity s2; [apply C2|]. transitivity s3; [apply C3|apply C4].
  - constructor.
    + apply C4, C3, S2'; auto.
    + apply C4, C3, C2, S1; auto.
    + apply C4, S3; auto.
    + by apply S4.
Qed.

(** The user without a screen only gets managers. *)
Lemma keeps_SwitchManagers_U0 s :
  managers_ok s → keeps (chosen U0_USER_ID false) (SwitchManagers infos_init U0_USER_ID false) s.
Proof.
  intros H. apply wp_bind, wp_InitConnectManager; [done|]. intros s1 C1 _ _. assert (managers_ok s1) as H1 by by eapply chosen_ok.
  cbn [negb Z.eqb]. apply wp_bind, wp_ret.
  apply wp_bind, wp_InitDataAbilityManager; [done|]. intros s2 C2 _ _. assert (managers_ok s2) as H2 by by eapply chosen_ok.
  apply wp_InitPendWantManager; [done|]. intros s3 C3 _ _. transitivity s1; [done|]. by transitivity s2.
Qed.

(** * Switching *)

(** The launcher of the new user changes no infos and nobody else's missions. *)
Definition apart (mu : MgrRef) s s' : Prop :=
  ams_infos s' = ams_infos s ∧ ∀ m, m ≠ mu → t_objects (ams_lists s') !! m = t_objects (ams_lists s) !! m.

Lemma run_list_apart {A} m (h : ST (MLM I) A) s a s' :
  leaves_infos h → run_list m h s = Returned (a, s') → apart m s s' ∧ t_current (ams_lists s') = t_current (ams_lists s).
Proof.
  intros Hl. unfold run_list. destruct (t_objects _ !! m) as [g|]; [|done].
  destruct (h _) as [[b g']| |] eqn:E; [|done..]. intros [= _ <-]. apply Hl in E. split; [split; [done|]|done].
  intros n Hn. unfold update, table_put. table_cbn. cbn [ams_lists]. table_cbn. by rewrite lookup_insert_ne.
Qed.

Lemma StartHighestPriorityAbility_apart m isBoot s b s' :
  StartHighestPriorityAbility ImplicitQueryInfoByPriority fuel isBoot s = Returned (b, s') → apart m s s'.
Proof.
  unfold StartHighestPriorityAbility, GetUserId, GetCurrentUserId, gets, mbind, ST_bind. cbv zeta.
  destruct (query_highest _ _ _ _ _ _ _) as [[[[ab an] [eb en]]|]| |]; cbn [mbind outcome_bind]; [|by intros [= _ <-]|done..].
  destruct (_ && _); intros [= _ <-]; by split.
Qed.

Lemma StartUserApps_apart m v isBoot s b s' :
  t_current (ams_lists s) = Some m →
  StartUserApps app_load ImplicitQueryInfoByPriority fuel v isBoot s = Returned (b, s') → apart m s s'.
Proof.
  intros Hc. unfold StartUserApps, gets, mbind, ST_bind. cbv beta delta [id]. rewrite Hc.
  destruct (run_list m IsStarted s) as [[started s1]| |] eqn:E1; [|done..].
  apply run_list_apart in E1 as [[I1 O1] _]; [|by intros g a g' [= _ <-]].
  destruct started.
  - destruct (run_list m _ s1) as [[[] s2]| |] eqn:E2; [|done..].
    apply run_list_apart in E2 as [[I2 O2] _]; [|apply BackToLauncher_infos].
    intros [I3 O3]%(StartHighestPriorityAbility_apart m). split; [congruence|]. intros n Hn. by rewrite O3, O2, O1.
  - intros [I3 O3]%(StartHighestPriorityAbility_apart m). split; [congruence|]. intros n Hn. by rewrite O3, O1.
Qed.

(** The missions of the old user are paused, and snapshots of them are taken in
    the infos that are loaded by then. *)
Definition old_user_paused old i1 s s' : Prop :=
  match t_filed (ams_lists s) !! old with
  | None => ams_infos s' = i1
  | Some m => ∀ g, t_objects (ams_lists s) !! m = Some g →
      let active := GetAllForegroundAbilities (mlm_store g) in
      ams_infos s' = foldl (snapshot_of (mlm_store g)) i1 active ∧
      ∃ g', t_objects (ams_lists s') !! m = Some g' ∧ paused active (mlm_store g) (mlm_store g') ∧
        GetAllForegroundAbilities (mlm_store g') = []
  end.

Lemma wp_PauseOldUser old s Q :
  managers_ok s →
  (∀ s', runs [old] s s' → old_user_paused old (ams_infos s) s s' → t_filed (ams_lists s') = t_filed (ams_lists s) →
    Q tt s') →
  wp (PauseOldUser old) Q s.
Proof.
  intros H HQ. unfold PauseOldUser, PauseOldMissionListManager. apply wp_bind, wp_gets. cbv beta delta [id].
  unfold table_of_user. destruct (t_filed (ams_lists s) !! old) as [m|] eqn:Em.
  - destruct (tw_filed _ _ (mo_lists _ _ _ _ H) old m Em) as [g Hg]. pose proof (good_shared _ _ _ _ _ _ H Hg) as Hgood.
    pose proof (wp_PauseManager GenerateAbilityRequest launcher_name) as HP. unfold wp at 1. unfold run_list. rewrite Hg.
    assert (wp PauseManager (λ _ g', good g' ∧ paused (GetAllForegroundAbilities (mlm_store g)) (mlm_store g) (mlm_store g') ∧
       same_shape (mlm_store g) (mlm_store g') ∧
       mlm_infos g' = foldl (snapshot_of (mlm_store g)) (ams_infos s) (GetAllForegroundAbilities (mlm_store g)))
       (g <| mlm_infos := ams_infos s |>)) as Hw.
    { apply HP; [done|]. intros g' C P E. split; [by eapply calm_good|]. split_and!; [done|apply C|done]. }
    unfold wp in Hw. destruct (PauseManager _) as [[[] g']| |]; [|done..]. destruct Hw as (Hg' & P & Sh & E).
    apply HQ; [by apply (with_list_runs _ _ _ [old] old); [..|left|]| |done]. unfold old_user_paused. rewrite Em. intros g0 Hg0. simplify_eq.
    split; [done|]. exists g'. split_and!; [|done|by eapply paused_inactive].
    unfold update, table_put. cbn [ams_lists]. table_cbn. apply lookup_insert_eq.
  - apply wp_ret, HQ; [done| |done]. unfold old_user_paused. by rewrite Em.
Qed.

Lemma wp_SwitchToUser old u s Q :
  managers_ok s → u ≠ U0_USER_ID → old ≠ u →
  (∀ s' i1, manages [old; u] s s' → serves u s' → infos_init u (ams_infos s) = Returned i1 →
     old_user_paused old i1 s s' → Q tt s') →
  wp (SwitchToUser infos_init app_load ImplicitQueryInfoByPriority fuel old u) Q s.
Proof.
  intros H Hu Hne HQ. apply wp_bind, wp_SwitchManagers; [done..|]. intros s1 M1 S1 I1.
  assert (managers_ok s1) as H1 by by apply M1. assert (manages [old; u] s s1) as M1'.
  { intros Hs. destruct (M1 Hs). constructor; try done. intros v Hv. apply mv_same0. set_solver. }
  assert (∀ s2, runs [old; u] s1 s2 → managers_ok s2 ∧ serves u s2) as Hr by (intros s2 [R S]; split; [by apply R|by apply S]).
  apply wp_bind, wp_PauseOldUser; [done|]. intros s2 R2' P2 C2. assert (runs [old; u] s1 s2) as R2.
  { destruct R2' as [R S]. split; [|done]. intros Hs. destruct (R Hs). constructor; try done. intros v Hv. apply mv_same0. set_solver. }
  destruct (Hr s2 R2) as [H2 S2]. destruct (sv_lists _ _ S2) as (mu & Fu & Cu).
  apply wp_bind. eapply (keeps_wp _ _); [apply (keeps_StartUserApps [old; u] u); [done|apply S2|by right; left]|].
  intros [] s3 E3 R3. apply (StartUserApps_apart mu) in E3 as [I3 O3]; [|done].
  assert (runs [old; u] s1 s3) as R3' by by transitivity s2. destruct (Hr s3 R3') as [H3 S3].
  eapply (keeps_wp _ _); [apply (keeps_PauseOldConnectManager [old; u]); [done|by left]|].
  intros [] s4 E4 R4. assert (runs [old; u] s1 s4) as R4' by by transitivity s3.
  apply (HQ s4 (ams_infos s1)); [transitivity s1; [done|]; apply R4'|by apply Hr|done|].
  assert (ams_infos s4 = ams_infos s3 ∧ ams_lists s4 = ams_lists s3) as [I4 L4].
  { revert E4. unfold PauseOldConnectManager. destruct (_ =? _); [by intros [_ ->]%ret_inv|].
    unfold gets, mbind, ST_bind. cbv beta delta [id]. destruct (table_of_user _ _); [|by intros [_ ->]%ret_inv].
    unfold run_connects. destruct (t_objects _ !! _); [|done]. destruct (StopAllExtensions _) as [[? ?]| |]; [|done..].
    by intros [_ ->]%ret_inv. }
  assert (user_same old s s1) as [[Fold Oold] _ _ _] by (apply (M1 H); set_solver).
  unfold old_user_paused in *. rewrite <- Fold. destruct (t_filed (ams_lists s1) !! old) as [m|] eqn:Em; [|congruence].
  assert (m ≠ mu) as Hm.
  { intros ->. apply Hne. apply (tw_own _ _ (mo_lists _ _ _ _ H2) old u mu); [|done].
    by rewrite C2. }
  intros g Hg. rewrite <- Oold in Hg by congruence. destruct (P2 g Hg) as (E2 & g' & Hg' & Pa & In). split; [congruence|].
  exists g'. split_and!; [|done..]. by rewrite L4, O3.
Qed.
End handlers.
