(* ===== verification/UserSwitch.v ===== *)
(** Starting and stopping users, and the events of a switch: what the handlers of
    [UserController] come to in a consistent service. *)

From S2P Require Import Prelude CppString Want MissionData MissionInfo CallContainer AbilityRecord.
From S2P Require Import StoreShape MissionList MissionMoves MissionPlaces MissionTargets.
From S2P Require Import InfosInterface MissionListManager ManagerFrames ManagerSafety ManagerEvents ManagerRun.
From S2P Require Import ServiceRecord ConnectManager ConnectShape ConnectSafety ConnectRun.
From S2P Require Import DataAbility DataAbilityRun PendingWant PendingWantRun.
From S2P Require Import UserTables UserPause UserService UserServiceRun.

#[local] Open Scope stdpp_scope.
#[local] Open Scope Z_scope.

(** Field by field, leaving the finite maps alone. *)
Ltac ams_cbn := unfold update in *;
  cbn [ams_lists ams_connects ams_datas ams_pendings ams_infos ams_next ams_now currentUserId_ uc_items userItems_
       eventHandler_ uc_events uc_clock ams_trace] in *.

Section switch.
Context {I : Type} `{!MissionInfos I, !MissionInfosLaws I}.
Context (infos_init : Z → I → outcome I).
Context (app_load : MgrRef → RRef → Z).
Context (IsOsAccountExists : Z → bool).
Context (ImplicitQueryInfoByPriority : Want → Z → nat → option ((string * string) * (string * string))).
Context (fuel : nat).
Context (GenerateAbilityRequest : Want → option AbilityRequest) (launcher_name : string → bool).
Context (json_dump : WantJson → string).
Implicit Types (s : Service I) (g : MLM I) (u : Z).

#[local] Abbreviation infos_ok := (infos_ok GenerateAbilityRequest launcher_name).
#[local] Abbreviation managers_ok := (managers_ok GenerateAbilityRequest launcher_name json_dump).
#[local] Abbreviation service_ok := (service_ok GenerateAbilityRequest launcher_name json_dump).
#[local] Abbreviation manages := (manages GenerateAbilityRequest launcher_name json_dump).
#[local] Abbreviation StartUser :=
  (StartUser infos_init app_load IsOsAccountExists ImplicitQueryInfoByPriority fuel).
#[local] Abbreviation StopUser := (StopUser IsOsAccountExists).

Context (stored_ok : ∀ u i, infos_ok i → ∃ i', infos_init u i = Returned i' ∧ infos_ok i').
Context (bms_ready : ∀ w u, ∃ n, (n < fuel)%nat ∧ is_Some (ImplicitQueryInfoByPriority w u n)).

(** * Events *)

(** The queue with one more event, and without some. *)
Definition posted (id : Z) (d : UserEvent) (due : Z) s : Service I :=
  s <| uc_events ::= insert_before (λ e, due <? qe_due e) (mkQueued id d due) |>.
Definition removed (id : Z) s : Service I := s <| uc_events ::= List.filter (λ e, negb (qe_id e =? id)) |>.

Lemma elem_of_removed e id s : e ∈ uc_events (removed id s) ↔ qe_id e ≠ id ∧ e ∈ uc_events s.
Proof.
  unfold removed. ams_cbn. rewrite !list_elem_of_In, filter_In, negb_true_iff, Z.eqb_neq. tauto.
Qed.

Lemma users_posted id d due s :
  users_ok s → due ≤ uc_clock s + USER_SWITCH_TIMEOUT → users_ok (posted id d due s).
Proof.
  intros [] Hd. unfold posted. constructor; ams_cbn; try done.
  - apply insert_before_sorted; [apply _|unfold due_before; cbn [qe_due]..|done]; intros x _ Hx; lia.
  - intros e [->|He]%elem_of_insert_before; [done|auto].
Qed.

Lemma users_removed id s : users_ok s → users_ok (removed id s).
Proof.
  intros []. constructor; try done.
  - eapply StronglySorted_sublist; [|exact uo_sorted]. unfold removed. ams_cbn. clear.
    induction (uc_events s) as [|e l IH]; [done|]. cbn [List.filter].
    destruct (negb _); [by apply sublist_skip|by apply sublist_cons].
  - intros e [_ He]%elem_of_removed. by apply uo_due.
Qed.

Lemma wp_handler m Q s : users_ok s → wp m Q s → wp (with_handler m) Q s.
Proof. intros H Hm. apply wp_bind, wp_gets. by rewrite (uo_handler _ H). Qed.

Lemma wp_SendEvent id d delay Q s : Q tt (posted id d (uc_clock s + delay) s) → wp (SendEvent id d delay) Q s.
Proof. by intros H. Qed.

(** ** A frozen screen *)

Lemma screen_frozen_snoc t e :
  screen_frozen (t ++ [e]) =
  match e with AmsStartFreezingScreen => true | AmsStopFreezingScreen => false | _ => screen_frozen t end.
Proof. unfold screen_frozen. by rewrite foldl_app. Qed.

(** * What is about users and events leaves the managers *)

Record aside s s' : Prop := {
  as_lists : ams_lists s' = ams_lists s;
  as_connects : ams_connects s' = ams_connects s;
  as_datas : ams_datas s' = ams_datas s;
  as_pendings : ams_pendings s' = ams_pendings s;
  as_infos : ams_infos s' = ams_infos s;
  as_next : (ams_next s ≤ ams_next s')%positive;
  as_clock : uc_clock s' = uc_clock s;
}.

#[export] Instance aside_preorder : PreOrder aside.
Proof. split; [intros s; constructor; done|]. intros s1 s2 s3 [] []. constructor; [congruence..|lia|congruence]. Qed.

Lemma aside_managers s s' : aside s s' → managers_ok s → managers_ok s'.
Proof.
  intros [E1 E2 E3 E4 E5 En _] []. constructor; rewrite ?E1, ?E2, ?E3, ?E4, ?E5; try done; by eapply table_wf_later.
Qed.

Lemma aside_user v s s' : aside s s' → user_same v s s'.
Proof. intros [E1 E2 E3 E4 _ _ _]. by constructor; rewrite ?E1, ?E2, ?E3, ?E4. Qed.

Lemma aside_serves u s s' : aside s s' → serves u s → serves u s'.
Proof. intros [E1 E2 E3 E4 _ _ _] []. by constructor; rewrite ?E1, ?E2, ?E3, ?E4. Qed.

Lemma aside_posted id d due s : aside s (posted id d due s).
Proof. by constructor. Qed.
Lemma aside_removed id s : aside s (removed id s).
Proof. by constructor. Qed.

(** * Starting a user *)

Lemma wp_StartFreezing s Q :
  users_ok s →
  (∀ s', aside s s' → users_ok s' → currentUserId_ s' = currentUserId_ s → uc_events s' = uc_events s →
     userItems_ s' = userItems_ s →
     (currentUserId_ s ≠ USER_ID_NO_HEAD → screen_frozen (ams_trace s') = true) → Q tt s') →
  wp (if true && negb (currentUserId_ s =? USER_ID_NO_HEAD) then StartFreezingScreen else mret tt) Q s.
Proof.
  intros H HQ. cbn [andb]. destruct (Z.eqb_spec (currentUserId_ s) USER_ID_NO_HEAD) as [E|E]; cbn [negb].
  - by apply wp_ret, HQ.
  - unfold StartFreezingScreen. apply wp_modify, HQ; [by constructor|by destruct H|done..|].
    intros _. ams_cbn. apply screen_frozen_snoc.
Qed.

Lemma wp_GetOrCreateUserItem u s Q :
  users_ok s →
  (∀ r s', aside s s' → users_ok s' → currentUserId_ s' = currentUserId_ s → uc_events s' = uc_events s →
     ams_trace s' = ams_trace s → userItems_ s' !! u = Some r → Q r s') →
  wp (GetOrCreateUserItem u) Q s.
Proof.
  intros H HQ. apply wp_bind, wp_gets. destruct (userItems_ s !! u) as [r|] eqn:E; [by apply wp_ret, HQ|].
  apply wp_bind, wp_ams_ref, wp_bind, wp_modify, wp_bind, wp_modify, wp_ret.
  assert (uc_items s !! ams_next s = None) as Hfresh.
  { apply eq_None_not_Some. intros Ho%(uo_old _ H). lia. }
  apply HQ; [constructor; ams_cbn; (done || lia)| |done..|ams_cbn; apply lookup_insert_eq].
  destruct H. constructor; ams_cbn; try done.
  - intros v r. intros [[<- <-]|[Hne Hv]]%lookup_insert_Some; [by apply lookup_insert_eq|].
    rewrite lookup_insert_ne; [by apply uo_items|]. intros Heq. apply uo_items in Hv. congruence.
  - intros r [x [[<- _]|[_ Hr]]%lookup_insert_Some]; [lia|]. assert (r < ams_next s)%positive by (apply uo_old; by exists x). lia.
  - intros Hc. rewrite lookup_insert. case_decide; [done|]. by apply uo_current.
Qed.

(** The events of a switch. *)
Definition announce (oldUserId userId : Z) (item : URef) : ST (Service I) unit :=
  _ ← SendSystemUserStart userId;
  _ ← SendSystemUserCurrent oldUserId userId;
  _ ← SendReportUserSwitch oldUserId userId (Some item);
  SendUserSwitchTimeout oldUserId userId (Some item).

Lemma wp_send id d s Q :
  users_ok s →
  (∀ s', aside s s' → users_ok s' → currentUserId_ s' = currentUserId_ s → ams_trace s' = ams_trace s →
     userItems_ s' = userItems_ s →
     (∀ e, e ∈ uc_events s' ↔ e = mkQueued id d (uc_clock s) ∨ e ∈ uc_events s) → Q tt s') →
  wp (with_handler (SendEvent id d 0)) Q s.
Proof.
  intros H HQ. apply wp_handler; [done|]. apply wp_SendEvent. rewrite Z.add_0_r.
  apply HQ; [apply aside_posted| |done..|].
  - apply users_posted; [done|]. unfold USER_SWITCH_TIMEOUT. lia.
  - intros e. unfold posted. ams_cbn. apply elem_of_insert_before.
Qed.

Lemma wp_announce old u r s Q :
  users_ok s →
  (∀ s', aside s s' → users_ok s' → currentUserId_ s' = currentUserId_ s → ams_trace s' = ams_trace s →
     userItems_ s' = userItems_ s →
     mkQueued EVENT_USER_SWITCH_TIMEOUT (mkUserEvent old u (Some r)) (uc_clock s + USER_SWITCH_TIMEOUT) ∈ uc_events s' →
     mkQueued EVENT_SYSTEM_USER_START (mkUserEvent 0 u None) (uc_clock s) ∈ uc_events s' →
     Q tt s') →
  wp (announce old u r) Q s.
Proof.
  intros H HQ. apply wp_bind, wp_send; [done|]. intros s1 A1 H1 U1 T1 I1 E1.
  apply wp_bind, wp_send; [done|]. intros s2 A2 H2 U2 T2 I2 E2.
  apply wp_bind, wp_handler; [done|]. apply wp_bind, wp_modify. fold (removed EVENT_REPORT_USER_SWITCH s2).
  apply wp_SendEvent. set (s3 := posted _ _ _ (removed EVENT_REPORT_USER_SWITCH s2)).
  assert (users_ok s3) as H3.
  { apply users_posted; [by apply users_removed|]. unfold USER_SWITCH_TIMEOUT. lia. }
  assert (aside s s3) as A3.
  { transitivity s1; [done|]. transitivity s2; [done|]. transitivity (removed EVENT_REPORT_USER_SWITCH s2);
      [apply aside_removed|apply aside_posted]. }
  unfold SendUserSwitchTimeout. apply wp_handler; [done|]. apply wp_bind, wp_modify. fold (removed EVENT_USER_SWITCH_TIMEOUT s3).
  apply wp_SendEvent.
  apply HQ.
  - transitivity s3; [done|]. transitivity (removed EVENT_USER_SWITCH_TIMEOUT s3); [apply aside_removed|apply aside_posted].
  - apply users_posted; [by apply users_removed|]. change (uc_clock (removed EVENT_USER_SWITCH_TIMEOUT s3)) with (uc_clock s3). lia.
  - change (currentUserId_ s2 = currentUserId_ s). congruence.
  - change (ams_trace s2 = ams_trace s). congruence.
  - change (userItems_ s2 = userItems_ s). congruence.
  - unfold posted at 1. ams_cbn. apply elem_of_insert_before. left. f_equal.
    change (uc_clock (removed EVENT_USER_SWITCH_TIMEOUT s3)) with (uc_clock s3). by rewrite (as_clock _ _ A3).
  - unfold posted at 1. ams_cbn. apply elem_of_insert_before. right. apply elem_of_removed. split; [done|].
    unfold s3, posted at 1. ams_cbn. apply elem_of_insert_before. right. apply elem_of_removed. split; [done|].
    apply E2. right. apply E1. by left.
Qed.

(** The user item is filed, so this returns at once. *)
Lemma wp_UserBootDone u r s Q :
  users_ok s → userItems_ s !! u = Some r → Q tt s → wp (UserBootDone infos_init r) Q s.
Proof.
  intros H Hr HQ. unfold UserBootDone. eapply wp_read; [by apply (uo_items _ H)|]. apply wp_bind, wp_gets. cbn [u_userId new_user_item].
  rewrite Hr. by apply wp_ret.
Qed.

(** What a switch comes to. *)
Record switched u s s' : Prop := {
  sw_ok : service_ok s';
  sw_user : currentUserId_ s' = u;
  sw_infos : ∃ i, infos_init u (ams_infos s) = Returned i ∧ old_user_paused (currentUserId_ s) i s s';
  sw_same v : v ≠ currentUserId_ s → v ≠ u → user_same v s s';
  sw_frozen : currentUserId_ s ≠ USER_ID_NO_HEAD → screen_frozen (ams_trace s') = true;
  sw_timeout : ∃ e, e ∈ uc_events s' ∧ qe_id e = EVENT_USER_SWITCH_TIMEOUT ∧ qe_due e = uc_clock s + USER_SWITCH_TIMEOUT ∧
    ue_oldUserId (qe_data e) = currentUserId_ s ∧ ue_newUserId (qe_data e) = u;
  sw_announced : mkQueued EVENT_SYSTEM_USER_START (mkUserEvent 0 u None) (uc_clock s) ∈ uc_events s';
  sw_clock : uc_clock s' = uc_clock s;
}.

Lemma wp_StartUser u s Q :
  service_ok s → 0 < u → currentUserId_ s ≠ u → IsOsAccountExists u = true →
  (∀ s', switched u s s' → Q 0 s') → wp (StartUser u true) Q s.
Proof.
  intros Hs Hu Hc Ha HQ. pose proof (so_users _ _ _ _ Hs) as Hus. unfold UserService.StartUser.
  destruct (Z.ltb_spec u 0) as [|_]; [lia|]. destruct (Z.eqb_spec u USER_ID_NO_HEAD) as [E|_]; [unfold USER_ID_NO_HEAD in E; lia|].
  cbn [orb]. unfold IsCurrentUser, GetCurrentUserId. apply wp_bind, wp_bind, wp_gets.
  destruct (Z.eqb_spec (currentUserId_ s) u) as [|_]; [done|]. apply wp_ret. rewrite Ha. cbn [negb].
  apply wp_bind, wp_gets, wp_bind, wp_StartFreezing; [done|]. intros s1 A1 U1 C1 E1 I1 F1.
  apply wp_bind, wp_gets, wp_bind, wp_GetOrCreateUserItem; [done|]. intros r s2 A2 U2 C2 E2 T2 I2.
  eapply wp_read; [by apply (uo_items _ U2)|]. cbv zeta. cbn [u_curState new_user_item].
  cbn [bool_decide decide_rel]. rewrite !bool_decide_eq_false_2 by done. cbn [orb].
  apply wp_bind, wp_modify. set (s3 := s2 <| currentUserId_ := u |>).
  assert (users_ok s3) as U3. { destruct U2. constructor; done. }
  rewrite C1. set (old := currentUserId_ s).
  assert (wp (announce old u r) (λ _ s4, wp (_ ← UserBootDone infos_init r;
    _ ← MoveUserToForeground infos_init app_load ImplicitQueryInfoByPriority fuel old u; mret 0) Q s4) s3) as K.
  { apply wp_announce; [done|]. intros s4 A4 U4 C4 T4 I4 Q4 S4.
    apply wp_bind, (wp_UserBootDone u); [done|by rewrite I4|].
    assert (aside s s4) as A. { transitivity s1; [done|]. transitivity s2; [done|]. transitivity s3; [by constructor|done]. }
    apply wp_bind. unfold MoveUserToForeground.
    apply (wp_SwitchToUser _ _ IsOsAccountExists _ _ GenerateAbilityRequest launcher_name json_dump); [done..| | | |].
    { eapply aside_managers; [done|apply Hs]. }
    { unfold U0_USER_ID. lia. }
    { done. }
    intros s' i1 M S Ei P. apply wp_ret, HQ.
    assert (managers_ok s4) as M4 by (eapply aside_managers; [done|apply Hs]). specialize (M M4).
    assert (currentUserId_ s' = u) as Cu by (rewrite (mv_user _ _ _ _ _ _ M), C4; done).
    assert (active_user s' = u) as Au.
    { unfold active_user. rewrite Cu. destruct (Z.eqb_spec u USER_ID_NO_HEAD) as [E|]; [unfold USER_ID_NO_HEAD in E; lia|done]. }
    constructor.
    - constructor; [apply M|by rewrite Au| |].
      + destruct M, U4. constructor; rewrite ?mv_items, ?mv_userItems, ?mv_user, ?mv_handler, ?mv_events, ?mv_clock; try done.
        intros x Hx%uo_old. lia.
      + intros _. rewrite (mv_events _ _ _ _ _ _ M). eexists. split; [exact Q4|done].
    - done.
    - exists i1. rewrite <- (as_infos _ _ A). split; [done|]. revert P. unfold old_user_paused. by rewrite (as_lists _ _ A).
    - intros v Hv1 Hv2. transitivity s4; [by apply aside_user|]. apply (mv_same _ _ _ _ _ _ M). set_solver.
    - intros Hn. rewrite (mv_frozen _ _ _ _ _ _ M), T4. change (screen_frozen (ams_trace s2) = true). rewrite T2. by apply F1.
    - eexists. split; [rewrite (mv_events _ _ _ _ _ _ M); exact Q4|]. split; [done|]. split; [|done].
      cbn [qe_due]. change (uc_clock s3) with (uc_clock s2). by rewrite (as_clock _ _ A2), (as_clock _ _ A1).
    - rewrite (mv_events _ _ _ _ _ _ M). revert S4. change (uc_clock s3) with (uc_clock s2).
      by rewrite (as_clock _ _ A2), (as_clock _ _ A1).
    - by rewrite (mv_clock _ _ _ _ _ _ M), (as_clock _ _ A). }
  unfold announce in K. rewrite decide_True by done.
  revert K. unfold wp, mbind, ST_bind.
  destruct (SendSystemUserStart u s3) as [[[] s5]| |]; [|by intros []..].
  repeat match goal with |- match ?x with _ => _ end → _ => destruct x as [[? ?]| |] end; done.
Qed.

(** Every call of the client returns, whatever the user. *)
Lemma keeps_StartUser u s : service_ok s → keeps (λ _ s', service_ok s') (StartUser u true) s.
Proof.
  intros Hs. unfold keeps.
  destruct (decide (0 < u)) as [Hu|Hu].
  - destruct (decide (currentUserId_ s = u)) as [Hc|Hc].
    + unfold UserService.StartUser. destruct (_ || _); [by apply wp_ret|].
      unfold IsCurrentUser, GetCurrentUserId. apply wp_bind, wp_bind, wp_gets.
      destruct (Z.eqb_spec (currentUserId_ s) u) as [_|]; [|done]. apply wp_bind, wp_gets, wp_ret.
      rewrite bool_decide_eq_true_2; [by apply wp_ret|].
      rewrite <- Hc. apply (uo_current _ (so_users _ _ _ _ Hs)). unfold USER_ID_NO_HEAD. lia.
    + destruct (IsOsAccountExists u) eqn:Ha; [apply wp_StartUser; [done..|]; by intros s' []|].
      unfold UserService.StartUser. destruct (_ || _); [by apply wp_ret|].
      unfold IsCurrentUser, GetCurrentUserId. apply wp_bind, wp_bind, wp_gets.
      destruct (Z.eqb_spec (currentUserId_ s) u) as [|_]; [done|]. apply wp_ret. rewrite Ha. by apply wp_ret.
  - unfold UserService.StartUser.
    assert ((u <? 0) || (u =? USER_ID_NO_HEAD) = true) as ->; [|by apply wp_ret].
    apply orb_true_iff. unfold USER_ID_NO_HEAD. lia.
Qed.

(** * Stopping a user *)

Record stopped u s s' : Prop := {
  sp_ok : service_ok s';
  sp_lists : t_filed (ams_lists s') !! u = None;
  sp_connects : t_filed (ams_connects s') !! u = None;
  sp_datas : t_filed (ams_datas s') !! u = None;
  sp_pendings : t_filed (ams_pendings s') !! u = None;
  sp_same v : v ≠ u → user_same v s s';
  sp_serves v : v ≠ u → serves v s → serves v s';
  sp_told : ams_trace s' = ams_trace s ++ [AmsKillProcessesByUserId u; AmsRemoveUserDir u];
}.

Lemma wp_StopUser u s Q :
  service_ok s → 0 < u → u ≠ USER_ID_DEFAULT → u ≠ currentUserId_ s → IsOsAccountExists u = true →
  (∀ s', stopped u s s' → Q 0 s') → wp (StopUser u) Q s.
Proof.
  intros Hs Hu Hd Hc Ha HQ. unfold UserService.StopUser.
  assert ((u <? 0) || (u =? USER_ID_NO_HEAD) || (u =? USER_ID_DEFAULT) = false) as ->.
  { rewrite !orb_false_iff. unfold USER_ID_NO_HEAD, USER_ID_DEFAULT in *. lia. }
  unfold IsCurrentUser, GetCurrentUserId. apply wp_bind, wp_bind, wp_gets.
  destruct (Z.eqb_spec (currentUserId_ s) u) as [|_]; [done|]. apply wp_ret. rewrite Ha. cbn [negb].
  apply wp_bind, wp_modify, wp_bind, wp_modify, wp_bind, wp_modify, wp_ret. apply HQ.
  assert (u ≠ active_user s) as Hact.
  { unfold active_user. destruct (_ =? _); [done|done]. }
  match goal with |- stopped u s ?x => set (s' := x) end.
  assert (ams_lists s' = table_erase u (ams_lists s)) as E1 by done.
  assert (ams_connects s' = table_erase u (ams_connects s)) as E2 by done.
  assert (ams_datas s' = table_erase u (ams_datas s)) as E3 by done.
  assert (ams_pendings s' = table_erase u (ams_pendings s)) as E4 by done.
  assert (ams_trace s' = (ams_trace s ++ [AmsKillProcessesByUserId u]) ++ [AmsRemoveUserDir u]) as E5 by done.
  assert (ams_infos s' = ams_infos s ∧ ams_next s' = ams_next s ∧ currentUserId_ s' = currentUserId_ s ∧
    uc_items s' = uc_items s ∧ userItems_ s' = userItems_ s ∧ eventHandler_ s' = eventHandler_ s ∧
    uc_events s' = uc_events s ∧ uc_clock s' = uc_clock s) as (F1 & F2 & F3 & F4 & F5 & F6 & F7 & F8) by done.
  clearbody s'. destruct Hs as [Hm Hv Hus Hr].
  constructor; [|rewrite ?E1, ?E2, ?E3, ?E4; apply lookup_delete_eq..| | |].
  - constructor.
    + destruct Hm. constructor; rewrite ?E1, ?E2, ?E3, ?E4, ?F1, ?F2; try done; by apply table_erase_wf.
    + unfold active_user. rewrite F3. destruct Hv. constructor; rewrite ?E1, ?E2, ?E3, ?E4; by apply table_erase_current.
    + destruct Hus. by constructor; rewrite ?F2, ?F3, ?F4, ?F5, ?F6, ?F7, ?F8.
    + unfold releasing. rewrite E5, F7, !screen_frozen_snoc. exact Hr.
  - intros v Hne. constructor; rewrite ?E1, ?E2, ?E3, ?E4; by apply table_same_erase.
  - intros v Hne []. constructor; rewrite ?E1, ?E2, ?E3, ?E4; by apply table_erase_current.
  - by rewrite E5, <- app_assoc.
Qed.

Lemma keeps_StopUser u s : service_ok s → keeps (λ _ s', service_ok s') (StopUser u) s.
Proof.
  intros Hs. unfold keeps.
  destruct ((u <? 0) || (u =? USER_ID_NO_HEAD) || (u =? USER_ID_DEFAULT)) eqn:E.
  { unfold UserService.StopUser. rewrite E. by apply wp_ret. }
  destruct (decide (u = currentUserId_ s)) as [Hc|Hc].
  - unfold UserService.StopUser. rewrite E. unfold IsCurrentUser, GetCurrentUserId. apply wp_bind, wp_bind, wp_gets.
    destruct (Z.eqb_spec (currentUserId_ s) u) as [_|]; [|done]. apply wp_bind, wp_gets, wp_ret.
    rewrite bool_decide_eq_true_2; [by apply wp_ret|]. rewrite Hc. apply (uo_current _ (so_users _ _ _ _ Hs)).
    rewrite <- Hc. rewrite !orb_false_iff in E. lia.
  - destruct (IsOsAccountExists u) eqn:Ha.
    + apply orb_false_iff in E as [[E1 E2]%orb_false_iff E3]. unfold USER_ID_NO_HEAD in E2.
      apply wp_StopUser; [done|lia|lia|done..|]. by intros s' [].
    + unfold UserService.StopUser. rewrite E. unfold IsCurrentUser, GetCurrentUserId. apply wp_bind, wp_bind, wp_gets.
      destruct (Z.eqb_spec (currentUserId_ s) u) as [|_]; [done|]. apply wp_ret. rewrite Ha. by apply wp_ret.
Qed.

(** * The handler's thread *)

(** How much work an event is, and what its handler sends. *)
Definition weight (e : QueuedEvent) : nat :=
  if qe_id e =? EVENT_USER_SWITCH_TIMEOUT then 3 else if qe_id e =? EVENT_CONTINUE_USER_SWITCH then 2 else 1.
Definition work (l : list QueuedEvent) : nat := sum_list_with weight l.

Lemma work_removed id s : (work (uc_events (removed id s)) ≤ work (uc_events s))%nat.
Proof.
  unfold removed, work. ams_cbn. induction (uc_events s) as [|e l IH]; [done|]. cbn [List.filter sum_list_with].
  destruct (negb _); cbn [sum_list_with]; lia.
Qed.

Lemma work_posted id d due s :
  work (uc_events (posted id d due s)) = (weight (mkQueued id d due) + work (uc_events s))%nat.
Proof. unfold posted, work. ams_cbn. by rewrite insert_before_perm. Qed.

(** What the handler of an event does. *)
Record handled e s s' : Prop := {
  hd_ok : service_ok s';
  hd_aside : aside s s';
  hd_user : currentUserId_ s' = currentUserId_ s;
  hd_work : (work (uc_events s') < weight e + work (uc_events s))%nat;
  hd_due x : x ∈ uc_events s' → x ∈ uc_events s ∨ qe_due x ≤ uc_clock s;
}.

Definition taken s (rest : list QueuedEvent) : Service I := s <| uc_events := rest |>.

Lemma users_taken e rest s : users_ok s → uc_events s = e :: rest → users_ok (taken s rest).
Proof.
  intros [] E. constructor; try done; unfold taken; ams_cbn.
  - rewrite E in uo_sorted. by apply StronglySorted_inv in uo_sorted as [].
  - intros x Hx. apply uo_due. rewrite E. by right.
Qed.

Lemma ok_aside s s' :
  service_ok s → aside s s' → users_ok s' → currentUserId_ s' = currentUserId_ s → releasing s' → service_ok s'.
Proof.
  intros [] A U C R. constructor; [by eapply aside_managers| |done..].
  unfold active_user. rewrite C. by eapply aside_serves.
Qed.

Lemma wp_ProcessEvent e rest s Q :
  service_ok s → uc_events s = e :: rest →
  (∀ s', handled e (taken s rest) s' → Q tt s') → wp (ProcessEvent (qe_id e) (qe_data e)) Q (taken s rest).
Proof.
  intros Hs E HQ. pose proof (users_taken _ _ _ (so_users _ _ _ _ Hs) E) as Hu.
  set (s0 := taken s rest) in *. assert (aside s s0) as A0 by by constructor.
  (* nobody is told *)
  assert (qe_id e ≠ EVENT_CONTINUE_USER_SWITCH → qe_id e ≠ EVENT_USER_SWITCH_TIMEOUT → Q tt s0) as Hnone.
  { intros H1 H2. apply HQ. constructor; [|done|done| |].
    - apply (ok_aside s); [done..|]. intros Hf. destruct (so_releasing _ _ _ _ Hs Hf) as (x & Hx & Hends).
      exists x. split; [|done]. rewrite E in Hx. apply elem_of_cons in Hx as [->|Hx]; [|done].
      unfold ends_switch in Hends. apply orb_true_iff in Hends. lia.
    - unfold weight. repeat destruct (_ =? _); lia.
    - by left. }
  unfold ProcessEvent.
  destruct (Z.eqb_spec (qe_id e) EVENT_SYSTEM_USER_START) as [Hid|_]; [apply wp_ret, Hnone; by rewrite Hid|].
  destruct (Z.eqb_spec (qe_id e) EVENT_SYSTEM_USER_CURRENT) as [Hid|_]; [apply wp_ret, Hnone; by rewrite Hid|].
  destruct (Z.eqb_spec (qe_id e) EVENT_REPORT_USER_SWITCH) as [Hid|_]; [apply wp_ret, Hnone; by rewrite Hid|].
  destruct (Z.eqb_spec (qe_id e) EVENT_CONTINUE_USER_SWITCH) as [Hid|Hnc].
  { unfold HandleContinueUserSwitch. apply wp_bind, wp_modify. set (s1 := s0 <| ams_trace ::= _ |>).
    assert (users_ok s1) as U1 by by destruct Hu. assert (aside s0 s1) as A1 by by constructor.
    apply wp_handler; [done|]. apply wp_bind, wp_modify. fold (removed EVENT_REPORT_USER_SWITCH_DONE s1).
    apply wp_SendEvent, HQ. constructor.
    - apply (ok_aside s); [done|..]; [| |done|].
      + transitivity s0; [done|]. transitivity s1; [done|].
        etransitivity; [apply (aside_removed EVENT_REPORT_USER_SWITCH_DONE)|apply aside_posted].
      + apply users_posted; [by apply users_removed|]. unfold USER_SWITCH_TIMEOUT. lia.
      + intros Hf. exfalso. revert Hf. unfold posted, removed, s1. ams_cbn. by rewrite screen_frozen_snoc.
    - transitivity s1; [done|]. etransitivity; [apply (aside_removed EVENT_REPORT_USER_SWITCH_DONE)|apply aside_posted].
    - done.
    - rewrite work_posted. pose proof (work_removed EVENT_REPORT_USER_SWITCH_DONE s1) as Hw.
      change (uc_events s1) with (uc_events s0) in Hw. unfold weight. rewrite Hid. cbn. lia.
    - unfold posted at 1. ams_cbn. intros x [->|[_ Hx]%elem_of_removed]%elem_of_insert_before; [|by left].
      right. cbn [qe_due]. change (uc_clock (removed EVENT_REPORT_USER_SWITCH_DONE s1)) with (uc_clock s0). unfold update. lia. }
  destruct (Z.eqb_spec (qe_id e) EVENT_USER_SWITCH_TIMEOUT) as [Hid|Hnt].
  { unfold HandleUserSwitchTimeout, SendContinueUserSwitch. apply wp_handler; [done|]. apply wp_bind, wp_modify.
    fold (removed EVENT_USER_SWITCH_TIMEOUT s0). apply wp_SendEvent, HQ. constructor.
    - apply (ok_aside s); [done|..]; [| |done|].
      + transitivity s0; [done|]. etransitivity; [apply (aside_removed EVENT_USER_SWITCH_TIMEOUT)|apply aside_posted].
      + apply users_posted; [by apply users_removed|]. unfold USER_SWITCH_TIMEOUT. lia.
      + intros _. eexists. unfold posted. ams_cbn. split; [apply elem_of_insert_before; by left|done].
    - etransitivity; [apply (aside_removed EVENT_USER_SWITCH_TIMEOUT)|apply aside_posted].
    - done.
    - rewrite work_posted. pose proof (work_removed EVENT_USER_SWITCH_TIMEOUT s0) as Hw.
      unfold weight. rewrite Hid. cbn. lia.
    - unfold posted at 1. ams_cbn. intros x [->|[_ Hx]%elem_of_removed]%elem_of_insert_before; [|by left].
      right. cbn [qe_due]. change (uc_clock (removed EVENT_USER_SWITCH_TIMEOUT s0)) with (uc_clock s0). lia. }
  destruct (_ =? EVENT_REPORT_USER_SWITCH_DONE); by apply wp_ret, Hnone.
Qed.

Lemma wp_deliver s Q :
  service_ok s →
  ((uc_events s = [] ∨ ∃ e rest, uc_events s = e :: rest ∧ uc_clock s < qe_due e) → Q false s) →
  (∀ e rest s', uc_events s = e :: rest → qe_due e ≤ uc_clock s → handled e (taken s rest) s' → Q true s') →
  wp deliver Q s.
Proof.
  intros Hs Hf Ht. unfold deliver. apply wp_bind, wp_gets. cbv beta delta [id].
  destruct (uc_events s) as [|e rest] eqn:E; [apply wp_ret, Hf; by left|].
  destruct (Z.ltb_spec (uc_clock s) (qe_due e)) as [Hlt|Hle]; [apply wp_ret, Hf; right; by eauto|].
  apply wp_bind, wp_modify, wp_bind. apply (wp_ProcessEvent e rest); [done..|]. intros s' H. apply wp_ret. by eapply Ht.
Qed.

Lemma keeps_deliver s : service_ok s → keeps (λ _ s', service_ok s') deliver s.
Proof. intros Hs. apply wp_deliver; [done|done|]. by intros e rest s' _ _ []. Qed.

(** Time passes. *)
Definition tick (d : Z) s : Service I := s <| uc_clock ::= Z.add d |>.

Lemma ok_tick d s : 0 ≤ d → service_ok s → service_ok (tick d s).
Proof.
  intros Hd [Hm Hv Hu Hr]. constructor; [by destruct Hm|by destruct Hv| |done].
  destruct Hu. constructor; try done. unfold tick. ams_cbn. intros e He. specialize (uo_due e He). lia.
Qed.

(** The thread until nothing is due. *)
Fixpoint drain (n : nat) : ST (Service I) unit :=
  match n with
  | O => λ _, OutOfFuel
  | S n => again ← deliver; if again : bool then drain n else mret tt
  end.

Lemma wp_drain n s :
  service_ok s → (∀ e, e ∈ uc_events s → qe_due e ≤ uc_clock s) → (work (uc_events s) < n)%nat →
  wp (drain n) (λ _ s', service_ok s' ∧ aside s s' ∧ currentUserId_ s' = currentUserId_ s ∧ uc_events s' = []) s.
Proof.
  revert s. induction n as [|n IH]; intros s Hs Hdue Hw; [lia|]. cbn [drain]. apply wp_bind, wp_deliver; [done|..].
  - intros [E|(e & rest & E & Hlt)]; [by apply wp_ret|]. specialize (Hdue e). rewrite E in Hdue.
    exfalso. assert (qe_due e ≤ uc_clock s); [apply Hdue; by left|lia].
  - intros e rest s' E Hd H. destruct H as [H1 H2 H3 H4 H5]. assert (aside s s') as A by (transitivity (taken s rest); [by constructor|done]).
    eapply wp_mono; [apply IH; [done| |]|].
    + intros x Hx. rewrite (as_clock _ _ A). destruct (H5 x Hx) as [Hin|Hin]; [|done]. apply Hdue. rewrite E. by right.
    + change (uc_events (taken s rest)) with rest in H4. rewrite E in Hw. unfold work in Hw. cbn in Hw. fold (work rest) in Hw. lia.
    + intros [] s2 (? & ? & ? & ?). split_and!; [done|by transitivity s'|by rewrite H3 in *|done].
Qed.
End switch.
