(* ===== verification/UserSession.v ===== *)
(** The service as a transition system: the calls of its client, the events of its
    own handler and the handlers of all its managers, from the state in which
    [AmsInit] leaves it; that it stays consistent; and a small device for the
    instances of the theorems. *)

From S2P Require Import Prelude CppString Want MissionData MissionInfo CallContainer AbilityRecord StoreShape.
From S2P Require Import MissionList MissionMoves MissionPlaces MissionTargets InfosInterface MissionListManager.
From S2P Require Import ManagerFrames ManagerSafety ManagerEvents ManagerRun ManagerDemo ServiceRecord.
From S2P Require Import ConnectManager ConnectShape ConnectSafety ConnectRun DataAbility DataAbilityRun PendingWant.
From S2P Require Import PendingWantRun UserTables UserService UserPause UserServiceRun UserSwitch.

#[local] Open Scope stdpp_scope.
#[local] Open Scope Z_scope.

(** * A table whose managers move *)

Inductive table_step {G} `{!UserManager G} (t : Table G) : Table G → Prop :=
  | table_moves m g g' : t_objects t !! m = Some g → mgr_step g g' → table_step t (table_put m g' t).

Lemma table_step_ok {G} `{!UserManager G, !UserManagerLaws G} next (t t' : Table G) :
  table_step t t' → table_wf next t → table_all mgr_ok t →
  table_wf next t' ∧ table_all mgr_ok t' ∧ ∀ u, current_of u t → current_of u t'.
Proof.
  intros [m g g' Hm Hs] Hwf Hall. split; [apply table_put_wf; [by exists g|done]|]. split; [|done].
  apply table_all_put; [|done]. eapply mgr_step_ok; [done|]. by eapply Hall.
Qed.

(** The calls of the client, and the handler's thread. *)
Inductive ServiceEvent :=
  | SeStartUser (isSaCall : bool) (userId : Z)
  | SeStopUser (isSaCall : bool) (userId : Z) (callback : bool)
  | SeDeliver.

Section session.
Context {I : Type} `{!MissionInfos I, !MissionInfosLaws I}.
Context (infos_init : Z → I → outcome I).
Context (app_load app_terminate : MgrRef → RRef → Z) (callee : MgrRef → RRef → option Z).
Context (IsOsAccountExists : Z → bool).
Context (ImplicitQueryInfoByPriority : Want → Z → nat → option ((string * string) * (string * string))).
Context (fuel : nat).
Context (GenerateAbilityRequest : Want → option AbilityRequest) (launcher_name : string → bool).
Context (JudgeAbilityVisibleControl : AbilityInfo → ErrCode) (restartMax : Z) (indeterminate_locked : bool).
Context (data_load : RRef → Z) (before : KRef → KRef → bool) (json_dump : WantJson → string).
Implicit Types (s : Service I) (g : MLM I) (u : Z).

#[local] Abbreviation infos_ok := (infos_ok GenerateAbilityRequest launcher_name).
#[local] Abbreviation managers_ok := (managers_ok GenerateAbilityRequest launcher_name json_dump).
#[local] Abbreviation service_ok := (service_ok GenerateAbilityRequest launcher_name json_dump).

Definition run_service (e : ServiceEvent) : ST (Service I) unit :=
  match e with
  | SeStartUser sa u =>
      _ ← AmsStartUser infos_init app_load IsOsAccountExists ImplicitQueryInfoByPriority fuel sa u; mret tt
  | SeStopUser sa u cb => _ ← AmsStopUser IsOsAccountExists sa u cb; mret tt
  | SeDeliver => _ ← deliver; mret tt
  end.

(** The handlers of a mission list manager run on the shared infos; so does
    whatever happens around it. *)
Definition list_step (m : MgrRef) : relation (MLM I) :=
  step (app_load m) (app_terminate m) (callee m) GenerateAbilityRequest JudgeAbilityVisibleControl restartMax
    indeterminate_locked launcher_name.

#[local] Existing Instances connects_manager datas_manager pendings_manager.
#[local] Abbreviation connects_step := (@table_step Connects (connects_manager restartMax)).
#[local] Abbreviation datas_step := (@table_step Datas (datas_manager restartMax data_load)).
#[local] Abbreviation pendings_step := (@table_step PendingWants (pendings_manager before json_dump)).

Inductive service_step s : Service I → Prop :=
  | service_event e s' : run_service e s = Returned (tt, s') → service_step s s'
  | service_tick d : 0 ≤ d → service_step s (tick d s)
  | service_time now : service_step s (s <| ams_now := now |>)
  | service_list m g g' :
      t_objects (ams_lists s) !! m = Some g → list_step m (g <| mlm_infos := ams_infos s |>) g' →
      service_step s (with_list m g' s)
  | service_connects t : connects_step (ams_connects s) t → service_step s (s <| ams_connects := t |>)
  | service_datas t : datas_step (ams_datas s) t → service_step s (s <| ams_datas := t |>)
  | service_pendings t : pendings_step (ams_pendings s) t → service_step s (s <| ams_pendings := t |>).

(** The service serves after [AmsInit]; [i] is the unloaded [MissionInfoMgr]. *)
Definition service_reachable (i : I) s : Prop :=
  ∃ s0, AmsInit infos_init (new_service i) = Returned (tt, s0) ∧ rtc service_step s0 s.

Context (stored_ok : ∀ u i, infos_ok i → ∃ i', infos_init u i = Returned i' ∧ infos_ok i').
Context (bms_ready : ∀ w u, ∃ n, (n < fuel)%nat ∧ is_Some (ImplicitQueryInfoByPriority w u n)).

(** ** The handlers *)

Lemma keeps_service e s : service_ok s → keeps (λ _ s', service_ok s') (run_service e) s.
Proof.
  intros Hs. unfold keeps. destruct e as [sa u|sa u cb|]; cbn [run_service]; apply wp_bind.
  - unfold AmsStartUser. destruct sa; [|by apply wp_ret]. apply wp_bind.
    eapply (keeps_wp (λ _ s', service_ok s')); [by eapply keeps_StartUser|]. intros r s' _ Hs'. by apply wp_ret.
  - unfold AmsStopUser. destruct sa; [|by apply wp_ret]. apply wp_bind.
    eapply (keeps_wp (λ _ s', service_ok s')); [by eapply keeps_StopUser|]. intros r s' _ Hs'. apply wp_bind.
    destruct cb; [|by apply wp_ret]. apply wp_modify, wp_ret.
    apply (ok_aside _ _ _ s'); [done|by constructor|by destruct (so_users _ _ _ _ Hs')|done|].
    intros Hf. ams_cbn. rewrite screen_frozen_snoc in Hf. by apply (so_releasing _ _ _ _ Hs').
  - eapply (keeps_wp (λ _ s', service_ok s')); [by eapply keeps_deliver|]. done.
Qed.

(** What moves managers only. *)
Lemma ok_managers s s' :
  service_ok s → managers_ok s' → (serves (active_user s) s → serves (active_user s) s') →
  ams_next s' = ams_next s → currentUserId_ s' = currentUserId_ s → uc_items s' = uc_items s →
  userItems_ s' = userItems_ s → eventHandler_ s' = eventHandler_ s → uc_events s' = uc_events s →
  uc_clock s' = uc_clock s → ams_trace s' = ams_trace s → service_ok s'.
Proof.
  intros [Hm Hv Hu Hr] Hm' Hv' E1 E2 E3 E4 E5 E6 E7 E8. constructor; [done| | |].
  - unfold active_user. rewrite E2. by apply Hv'.
  - destruct Hu. by constructor; rewrite ?E1, ?E2, ?E3, ?E4, ?E5, ?E6, ?E7.
  - unfold releasing. by rewrite E6, E8.
Qed.

Lemma ok_step s s' : service_step s s' → service_ok s → service_ok s'.
Proof.
  intros [e s1 Hr|d Hd|now|m g g' Hg Hst|t Ht|t Ht|t Ht] Hs; pose proof (so_managers _ _ _ _ Hs) as Hm.
  - pose proof (keeps_service e s Hs) as Hk. unfold keeps, wp in Hk. by rewrite Hr in Hk.
  - by apply ok_tick.
  - apply (ok_managers s); [done|by destruct Hm|by intros []|done..].
  - apply (ok_managers s); [done| |by intros []|done..]. apply with_list_managers; [done|by exists g|].
    eapply good_step; [exact Hst|]. by eapply good_shared.
  - destruct (table_step_ok (ams_next s) _ _ Ht) as (H1 & H2 & H3); [apply Hm..|].
    apply (ok_managers s); [done|by destruct Hm; constructor|intros []; constructor; ams_cbn; auto|done..].
  - destruct (table_step_ok (ams_next s) _ _ Ht) as (H1 & H2 & H3); [apply Hm..|].
    apply (ok_managers s); [done|by destruct Hm; constructor|intros []; constructor; ams_cbn; auto|done..].
  - destruct (table_step_ok (ams_next s) _ _ Ht) as (H1 & H2 & H3); [apply Hm..|].
    apply (ok_managers s); [done|by destruct Hm; constructor|intros []; constructor; ams_cbn; auto|done..].
Qed.

(** ** The start *)

(** The managers of the main user, and the loaded infos. *)
Definition booting (i : I) : Service I :=
  mkService (table_init (Init 100 "" i) 4 100 true no_managers)
    (table_init (init_connects 100 true) 1 100 true no_managers) (table_init data_initial 2 100 true no_managers)
    (table_init pending_initial 3 100 true no_managers) i 5 "" 0 ∅ ∅ true [] 0 [].

Lemma wp_AmsInit_booting i0 i Q :
  infos_init 100 i0 = Returned i →
  wp (SwitchManagers infos_init U0_USER_ID false) Q (booting i) → wp (AmsInit infos_init) Q (new_service i0).
Proof.
  intros E HQ. unfold new_service. apply wp_bind, wp_modify. ams_cbn.
  apply wp_bind, wp_bind, wp_ams_ref, wp_modify. ams_cbn.
  apply wp_bind, wp_bind, wp_ams_ref, wp_modify. ams_cbn.
  apply wp_bind, wp_bind, wp_ams_ref, wp_modify. ams_cbn.
  apply wp_bind, wp_bind, wp_gets. cbv beta delta [id]. cbn [ams_lists].
  change (table_of_user (@no_managers (MLM I)) MAIN_USER_ID) with (@None MgrRef). cbv iota.
  apply wp_bind, wp_ams_ref. ams_cbn. apply wp_bind. unfold wp at 1, load_infos. cbn [ams_infos].
  unfold MAIN_USER_ID. rewrite E. apply wp_modify. ams_cbn. exact HQ.
Qed.

Lemma managers_booting i : infos_ok i → managers_ok (booting i).
Proof.
  intros Hi.
  assert (∀ G (g : G) k, (Pos.succ k ≤ 5)%positive → table_wf 5 (table_init g k 100 true no_managers)) as Hwf.
  { intros G g k Hk. eapply table_wf_later; [exact Hk|]. apply table_init_wf, no_managers_wf. }
  unfold booting. constructor; cbn [ams_lists ams_connects ams_datas ams_pendings ams_infos ams_next]; try (apply Hwf; lia).
  - apply table_all_init; [by apply good_list_ok, good_init|apply table_all_none].
  - apply table_all_init; [apply sound_init|apply table_all_none].
  - apply table_all_init; [apply data_ok_initial|apply table_all_none].
  - apply table_all_init; [apply pending_ok_initial|apply table_all_none].
  - done.
Qed.

Lemma service_init i0 i :
  infos_init 100 i0 = Returned i → infos_ok i → wp (AmsInit infos_init) (λ _ s, service_ok s) (new_service i0).
Proof.
  intros E Hi. apply (wp_AmsInit_booting i0 i); [done|]. pose proof (managers_booting i Hi) as Hm.
  eapply (keeps_wp _); [by apply (keeps_SwitchManagers_U0 infos_init GenerateAbilityRequest launcher_name json_dump)|].
  intros [] s _ [M SL SC SD SP]. specialize (M Hm).
  assert (currentUserId_ s = 0) as Ec by (by rewrite (mv_user _ _ _ _ _ _ M)).
  constructor.
  - apply M.
  - unfold active_user. rewrite Ec. cbn [Z.eqb USER_ID_NO_HEAD]. unfold MAIN_USER_ID.
    constructor; [apply SL|apply SC|apply SD|apply SP]; solve [by left|apply table_init_current].
  - destruct M. constructor; rewrite ?mv_items, ?mv_userItems, ?mv_user, ?mv_handler, ?mv_events; try done.
    + intros x [y Hy]. change ((∅ : gmap URef UserItem) !! x = Some y) in Hy. by rewrite lookup_empty in Hy.
    + constructor.
    + by intros x ?%not_elem_of_nil.
  - intros Hf. by rewrite (mv_frozen _ _ _ _ _ _ M) in Hf.
Qed.

Lemma ok_steps s s' : rtc service_step s s' → service_ok s → service_ok s'.
Proof. induction 1 as [|s1 s2 s3 H1 _ IH]; [done|]. intros Hs. by eapply IH, ok_step. Qed.

Lemma service_reachable_ok i0 s :
  (∃ i, infos_init 100 i0 = Returned i ∧ infos_ok i) → service_reachable i0 s → service_ok s.
Proof.
  intros (i & E & Hi) (s0 & H0 & Hst). apply (ok_steps s0); [done|].
  destruct (wp_run _ _ _ (service_init i0 i E Hi)) as ([] & s1 & E1 & Hok).
  rewrite E1 in H0. apply ret_inv in H0 as [_ ->]. exact Hok.
Qed.
End session.

(** * Services that fail less

    A loading of the infos that fails, and a bundle manager that does not answer, can
    be replaced by ones that succeed: whatever returned before still returns the same. *)

Definition refines {S A} (c c' : ST S A) : Prop := ∀ s r, c s = Returned r → c' s = Returned r.

Lemma refines_refl {S A} (c : ST S A) : refines c c.
Proof. by intros s r. Qed.
Lemma refines_bind {S A B} (c c' : ST S A) (k k' : A → ST S B) :
  refines c c' → (∀ x, refines (k x) (k' x)) → refines (c ≫= k) (c' ≫= k').
Proof.
  intros Hc Hk s r. unfold mbind, ST_bind. destruct (c s) as [[x s1]| |] eqn:E; [|done..]. rewrite (Hc _ _ E). apply Hk.
Qed.

Ltac refines_step :=
  lazymatch goal with |- refines ?c ?c' =>
    tryif constr_eq c c' then apply refines_refl else
    lazymatch c with
    | _ ≫= _ => apply refines_bind; [|intros ?]
    | match _ with _ => _ end => case_match
    | _ => eassumption
    end
  end.
Ltac refines_steps := repeat refines_step.

Section failing_less.
Context {I : Type} `{!MissionInfos I, !MissionInfosLaws I}.
Context (infos_init infos_init' : Z → I → outcome I).
Context (app_load app_terminate : MgrRef → RRef → Z) (callee : MgrRef → RRef → option Z).
Context (IsOsAccountExists : Z → bool).
Context (query query' : Want → Z → nat → option ((string * string) * (string * string))) (fuel fuel' : nat).
Context (Hinit : ∀ u i i', infos_init u i = Returned i' → infos_init' u i = Returned i').
Context (Hquery : ∀ w u isBoot a r, query_highest query fuel w u isBoot a 0 = Returned r → query_highest query' fuel' w u isBoot a 0 = Returned r).

Lemma refines_load u : refines (load_infos infos_init u) (load_infos infos_init' u).
Proof using Hinit. intros s r. unfold load_infos. destruct (infos_init u _) eqn:E; [|done..]. by rewrite (Hinit _ _ _ E). Qed.
#[local] Hint Resolve refines_load : core.

Lemma refines_lists u sw : refines (InitMissionListManager infos_init u sw) (InitMissionListManager infos_init' u sw).
Proof using Hinit. unfold InitMissionListManager. pose proof (refines_load u). refines_steps. Qed.
Lemma refines_SwitchManagers u sw : refines (SwitchManagers infos_init u sw) (SwitchManagers infos_init' u sw).
Proof using Hinit. unfold SwitchManagers. pose proof (refines_lists u sw). refines_steps. Qed.
Lemma refines_UserBootDone r : refines (UserBootDone infos_init r) (UserBootDone infos_init' r).
Proof using Hinit. unfold UserBootDone, UserStarted. refines_steps. all: apply refines_lists. Qed.
Lemma refines_AmsInit : refines (AmsInit infos_init) (AmsInit infos_init').
Proof using Hinit. unfold AmsInit. pose proof (refines_lists MAIN_USER_ID true). pose proof (refines_SwitchManagers U0_USER_ID false). refines_steps. Qed.

Lemma refines_highest isBoot :
  refines (S := Service I) (StartHighestPriorityAbility query fuel isBoot) (StartHighestPriorityAbility query' fuel' isBoot).
Proof using Hquery.
  unfold StartHighestPriorityAbility. apply refines_bind; [apply refines_refl|]. intros u. apply refines_bind; [|intros; apply refines_refl].
  intros s r. unfold mbind, outcome_bind. destruct (query_highest query _ _ _ _ _ _) eqn:E; [|done..]. by rewrite (Hquery _ _ _ _ _ E).
Qed.
Lemma refines_SwitchToUser old u :
  refines (SwitchToUser infos_init app_load query fuel old u) (SwitchToUser infos_init' app_load query' fuel' old u).
Proof using Hinit Hquery.
  unfold SwitchToUser, StartUserApps, StartSystemAbilityByUser. pose proof (refines_SwitchManagers u true).
  pose proof (refines_highest (old =? U0_USER_ID)). refines_steps.
Qed.
Lemma refines_StartUser u fg :
  refines (StartUser infos_init app_load IsOsAccountExists query fuel u fg) (StartUser infos_init' app_load IsOsAccountExists query' fuel' u fg).
Proof using Hinit Hquery.
  unfold StartUser, MoveUserToForeground. refines_steps; first [apply refines_UserBootDone|apply refines_SwitchToUser].
Qed.
Lemma refines_service e :
  refines (run_service infos_init app_load IsOsAccountExists query fuel e) (run_service infos_init' app_load IsOsAccountExists query' fuel' e).
Proof using Hinit Hquery.
  destruct e; cbn [run_service]; [|apply refines_refl..]. apply refines_bind; [|intros; apply refines_refl].
  unfold AmsStartUser. pose proof (refines_StartUser userId true). refines_steps.
Qed.
End failing_less.

(** Whatever fails, the service stays consistent, if the infos that are loaded hold no
    launcher. *)
Section reachable.
Context {I : Type} `{!MissionInfos I, !MissionInfosLaws I}.
Context (infos_init : Z → I → outcome I).
Context (app_load app_terminate : MgrRef → RRef → Z) (callee : MgrRef → RRef → option Z).
Context (IsOsAccountExists : Z → bool).
Context (ImplicitQueryInfoByPriority : Want → Z → nat → option ((string * string) * (string * string))).
Context (fuel : nat).
Context (GenerateAbilityRequest : Want → option AbilityRequest) (launcher_name : string → bool).
Context (JudgeAbilityVisibleControl : AbilityInfo → ErrCode) (restartMax : Z) (indeterminate_locked : bool).
Context (data_load : RRef → Z) (before : KRef → KRef → bool) (json_dump : WantJson → string).

Definition init_anyway (u : Z) (i : I) : outcome I := match infos_init u i with Returned i' => Returned i' | _ => Returned i end.
Definition query_anyway (w : Want) (u : Z) (n : nat) : option ((string * string) * (string * string)) :=
  if decide (n < fuel)%nat then ImplicitQueryInfoByPriority w u n else Some (("", ""), ("", ""))%string.

Lemma query_anyway_answers w u isBoot a r :
  query_highest ImplicitQueryInfoByPriority fuel w u isBoot a 0 = Returned r → query_highest query_anyway (S fuel) w u isBoot a 0 = Returned r.
Proof.
  assert (∀ f n a, (n + f = fuel)%nat → query_highest ImplicitQueryInfoByPriority f w u isBoot a n = Returned r →
    query_highest query_anyway (S f) w u isBoot a n = Returned r) as H; [|by apply H].
  clear a. induction f as [|f IH]; intros n a Hn; [done|]. cbn [query_highest]. unfold query_anyway at 1. rewrite decide_True by lia.
  destruct (ImplicitQueryInfoByPriority w u n); [done|]. case_match; [done|]. apply IH. lia.
Qed.

(** Loading keeps the infos without launchers, when it succeeds. *)
Definition load_keeps : Prop := ∀ u i i', infos_ok GenerateAbilityRequest launcher_name i → infos_init u i = Returned i' → infos_ok GenerateAbilityRequest launcher_name i'.

Lemma AmsInit_loads i0 s : AmsInit infos_init (new_service i0) = Returned (tt, s) → ∃ i, infos_init 100 i0 = Returned i.
Proof.
  unfold AmsInit. intros H. apply ST_bind_Returned in H as ([] & s1 & [= <-] & H).
  do 3 apply ST_bind_Returned in H as ([] & ? & [= <-] & H).
  apply ST_bind_Returned in H as ([] & s2 & H & _). unfold InitMissionListManager in H.
  apply ST_bind_Returned in H as (s3 & ? & [= <- <-] & H).
  change (table_of_user (ams_lists _) MAIN_USER_ID) with (table_of_user (@no_managers (MLM I)) MAIN_USER_ID) in H.
  change (table_of_user (@no_managers (MLM I)) MAIN_USER_ID) with (@None MgrRef) in H. cbv iota in H.
  apply ST_bind_Returned in H as (m & ? & [= <- <-] & H). apply ST_bind_Returned in H as ([] & s3 & H & _).
  unfold load_infos, MAIN_USER_ID in H. match type of H with context [infos_init _ (ams_infos ?x)] => change (ams_infos x) with i0 in H end.
  destruct (infos_init 100 i0) as [i| |]; [by exists i|done..].
Qed.

Lemma service_reachable_consistent i0 s :
  load_keeps → (∀ i, infos_init 100 i0 = Returned i → infos_ok GenerateAbilityRequest launcher_name i) →
  service_reachable infos_init app_load app_terminate callee IsOsAccountExists ImplicitQueryInfoByPriority fuel
    GenerateAbilityRequest launcher_name JudgeAbilityVisibleControl restartMax indeterminate_locked data_load before json_dump i0 s →
  service_ok GenerateAbilityRequest launcher_name json_dump s.
Proof.
  intros Hk Hb (s0 & H0 & Hst). destruct (AmsInit_loads _ _ H0) as [i Ei].
  assert (∀ u i i', infos_init u i = Returned i' → init_anyway u i = Returned i') as Hinit by (intros u j i' E; unfold init_anyway; by rewrite E).
  apply (service_reachable_ok init_anyway app_load app_terminate callee IsOsAccountExists query_anyway (S fuel)
    GenerateAbilityRequest launcher_name JudgeAbilityVisibleControl restartMax indeterminate_locked data_load before json_dump
    ) with (i0 := i0).
  - intros u j Hj. unfold init_anyway. destruct (infos_init u j) as [i'| |] eqn:E; eexists; (split; [done|]); [by eapply Hk|done..].
  - intros w u. exists fuel. split; [lia|]. unfold query_anyway. rewrite decide_False by lia. by eexists.
  - exists i. split; [by apply Hinit|by apply Hb].
  - exists s0. split; [by apply (refines_AmsInit infos_init)|]. clear H0. induction Hst as [s|s1 s2 s3 H1 _ IH]; [constructor|].
    eapply rtc_l; [|exact IH]. destruct H1; [|by econstructor..]. eapply service_event.
    apply (refines_service infos_init init_anyway app_load IsOsAccountExists ImplicitQueryInfoByPriority query_anyway fuel (S fuel) Hinit query_anyway_answers).
    eassumption.
Qed.
End reachable.

(** * A small device with three accounts, for the instances of the theorems about
    users: it boots, the main user is started and opens an application, and then
    another user is switched to. *)

(** Every account has one saved mission. *)
Definition users_init (u : Z) (i : Infos) : outcome Infos :=
  match MissionInfo.Init (Some true) u i with
  | Returned (_, i') => Returned i'
  | Thrown => Thrown
  | OutOfFuel => OutOfFuel
  end.

Definition users_load (m : MgrRef) (r : RRef) : Z := 0.
Definition users_callee (m : MgrRef) (r : RRef) : option Z := None.
Definition accounts (u : Z) : bool := (100 <=? u) && (u <=? 102).
Definition users_query (w : Want) (u : Z) (n : nat) : option ((string * string) * (string * string)) :=
  Some (("com.ohos.launcher", "Main"), ("", ""))%string.
Definition users_json (w : WantJson) : string := "".
Definition data_load_ok (r : RRef) : Z := 0.
Definition keys_before (a b : KRef) : bool := Pos.ltb a b.

#[local] Abbreviation infos_ok := (infos_ok no_request is_launcher_name).

Definition unloaded : Infos := mkMIM 1 ∅ [] None None.

Definition saved_infos (u : Z) (i : Infos) : Infos := match users_init u i with Returned i' => i' | _ => i end.

Lemma users_init_loads u i :
  users_init u i = Returned (saved_infos u i) ∧ missionInfoList_ (saved_infos u i) = [demo_info 7 "2022-01-01" true] ∧
  is_Some (taskDataPersistenceMgr_ (saved_infos u i)).
Proof. unfold saved_infos, users_init, MissionInfo.Init. destruct i as [c mp l [b|] h]; cbn; split_and!; (done || by eexists). Qed.

Lemma users_stored_ok u i : ∃ i', users_init u i = Returned i' ∧ infos_ok i'.
Proof.
  destruct (users_init_loads u i) as (E & El & Et). exists (saved_infos u i). split; [done|]. split; [done|].
  intros n w (x & Hx & <- & <-). rewrite El in Hx. apply list_elem_of_singleton in Hx as ->. split; [reflexivity|]. done.
Qed.

Lemma users_stored (u : Z) (i : Infos) : infos_ok i → ∃ i', users_init u i = Returned i' ∧ infos_ok i'.
Proof. intros _. apply users_stored_ok. Qed.

Lemma users_ready (w : Want) (u : Z) : ∃ n, (n < 5)%nat ∧ is_Some (users_query w u n).
Proof. exists O. split; [lia|by eexists]. Qed.

#[local] Abbreviation users_step :=
  (service_step users_init users_load users_load users_callee accounts users_query 5 no_request is_launcher_name
    visible_ok 3 false data_load_ok keys_before users_json).
Definition users_reachable : Service Infos → Prop :=
  service_reachable users_init users_load users_load users_callee accounts users_query 5 no_request is_launcher_name
    visible_ok 3 false data_load_ok keys_before users_json unloaded.
#[local] Abbreviation run_users := (run_service users_init users_load accounts users_query 5).

(** What happens on the device. *)
Inductive DemoEvent :=
  | DemoService (e : ServiceEvent)
  | DemoTick (d : nat)
  | DemoList (m : MgrRef) (e : Event).

Definition demo_event (e : DemoEvent) (s : Service Infos) : option (Service Infos) :=
  match e with
  | DemoService e => match run_users e s with Returned (_, s') => Some s' | _ => None end
  | DemoTick d => Some (tick (Z.of_nat d) s)
  | DemoList m e =>
      g ← t_objects (ams_lists s) !! m;
      let g := g <| mlm_infos := ams_infos s |> in
      if event_okb g e then
        match demo_run e g with Returned (_, g') => Some (with_list m g' s) | _ => None end
      else None
  end.

Fixpoint demo_events (es : list DemoEvent) (s : Service Infos) : option (Service Infos) :=
  match es with
  | [] => Some s
  | e :: es' => s' ← demo_event e s; demo_events es' s'
  end.

Lemma demo_event_step e s s' : demo_event e s = Some s' → users_step s s'.
Proof.
  destruct e as [e|d|m e]; cbn [demo_event].
  - destruct (run_users e s) as [[[] s1]| |] eqn:E; [|done..]. intros [= <-]. eapply service_event. exact E.
  - intros [= <-]. apply service_tick. lia.
  - destruct (t_objects (ams_lists s) !! m) as [g|] eqn:Eg; [|done]. cbn [mbind option_bind].
    destruct (event_okb _ e) eqn:Eok; [|done].
    destruct (demo_run e _) as [[[] g1]| |] eqn:E; [|done..]. intros [= <-].
    eapply service_list; [exact Eg|]. eapply step_event; [by apply event_okb_ok|exact E].
Qed.

Lemma demo_events_steps es s s' : demo_events es s = Some s' → rtc users_step s s'.
Proof.
  revert s. induction es as [|e es IH]; intros s; cbn [demo_events]; [by intros [= <-]|].
  destruct (demo_event e s) as [s1|] eqn:E; [|done]. cbn [mbind option_bind]. intros H.
  eapply rtc_l; [by eapply demo_event_step|]. by apply IH.
Qed.

Definition booted : Service Infos :=
  match AmsInit users_init (new_service unloaded) with Returned (_, s) => s | _ => new_service unloaded end.

Definition after_demo (es : list DemoEvent) : Service Infos := default booted (demo_events es booted).

Lemma booted_ok : AmsInit users_init (new_service unloaded) = Returned (tt, booted).
Proof. vm_compute. reflexivity. Qed.

Lemma after_demo_reachable es :
  bool_decide (is_Some (demo_events es booted)) = true → users_reachable (after_demo es).
Proof.
  intros H. apply bool_decide_eq_true in H as [s Hs]. exists booted. split; [exact booted_ok|].
  unfold after_demo. rewrite Hs. by eapply demo_events_steps.
Qed.

(** The main user's mission list manager is object 4: its launcher and an
    application come to the foreground. *)
Definition main_started : Service Infos := after_demo [DemoService (SeStartUser true 100)].
Definition main_busy : Service Infos :=
  after_demo (DemoService (SeStartUser true 100) :: (DemoList 4 <$> evs_main)).
Definition other_user : Service Infos :=
  after_demo (DemoService (SeStartUser true 100) :: (DemoList 4 <$> evs_main) ++ [DemoService (SeStartUser true 101)]).

Lemma main_started_reachable : users_reachable main_started.
Proof. apply after_demo_reachable. vm_compute. reflexivity. Qed.
Lemma main_busy_reachable : users_reachable main_busy.
Proof. apply after_demo_reachable. vm_compute. reflexivity. Qed.
Lemma other_user_reachable : users_reachable other_user.
Proof. apply after_demo_reachable. vm_compute. reflexivity. Qed.

Lemma users_boot : ∃ i, users_init 100 unloaded = Returned i ∧ infos_ok i.
Proof. apply users_stored_ok. Qed.
