(* ===== verification/UserClaims.v ===== *)
(** What holds of users and of the managers of a running service. *)

From S2P Require Import Prelude CppString Want MissionData MissionInfo CallContainer AbilityRecord.
From S2P Require Import StoreShape MissionList MissionMoves MissionPlaces MissionTargets.
From S2P Require Import InfosInterface MissionListManager ManagerFrames ManagerSafety ManagerEvents ManagerRun.
From S2P Require Import ManagerDemo.
From S2P Require Import ServiceRecord ConnectManager ConnectShape ConnectSafety ConnectRun.
From S2P Require Import DataAbility DataAbilityRun PendingWant PendingWantRun.
From S2P Require Import UserTables UserPause UserService UserServiceRun UserSwitch UserSession.

#[local] Open Scope stdpp_scope.
#[local] Open Scope Z_scope.

Section claims.
Context {I : Type} `{!MissionInfos I, !MissionInfosLaws I}.
Context (infos_init : Z → I → outcome I).
Context (app_load app_terminate : MgrRef → RRef → Z) (callee : MgrRef → RRef → option Z).
Context (IsOsAccountExists : Z → bool).
Context (ImplicitQueryInfoByPriority : Want → Z → nat → option ((string * string) * (string * string))).
Context (fuel : nat).
Context (GenerateAbilityRequest : Want → option AbilityRequest) (launcher_name : string → bool).
Context (JudgeAbilityVisibleControl : AbilityInfo → ErrCode) (restartMax : Z) (indeterminate_locked : bool).
Context (data_load : RRef → Z) (before : KRef → KRef → bool) (json_dump : WantJson → string).
Context (unloaded : I).
Implicit Types (s : Service I) (u : Z).

#[local] Abbreviation infos_ok := (infos_ok GenerateAbilityRequest launcher_name).
#[local] Abbreviation service_ok := (service_ok GenerateAbilityRequest launcher_name json_dump).
#[local] Abbreviation run_service :=
  (run_service infos_init app_load IsOsAccountExists ImplicitQueryInfoByPriority fuel).
#[local] Abbreviation StartUser :=
  (StartUser infos_init app_load IsOsAccountExists ImplicitQueryInfoByPriority fuel).
#[local] Abbreviation StopUser := (StopUser IsOsAccountExists).
#[local] Abbreviation reachable :=
  (service_reachable infos_init app_load app_terminate callee IsOsAccountExists ImplicitQueryInfoByPriority fuel
    GenerateAbilityRequest launcher_name JudgeAbilityVisibleControl restartMax indeterminate_locked
    data_load before json_dump unloaded).

(** C2: whatever users are started and stopped, and whatever the managers of all
    users do, the service stays consistent: the current managers are those of the
    current user, managers are not shared between users and each keeps its own
    invariant, every filed user item exists, the events are in order and due in
    at most three seconds, and a frozen screen has an event that will release it.
    All that is asked for is that loading the stored infos of a user, when it succeeds,
    brings no mission of a launcher. Calls of the client and events leave such a state
    when they return; they return if the infos of every user can be loaded and the
    bundle manager answers one of the first [fuel] questions: the start of a user when
    the system boots asks it until it does. *)
Theorem service_consistent s :
  load_keeps infos_init GenerateAbilityRequest launcher_name → (∀ i, infos_init 100 unloaded = Returned i → infos_ok i) → reachable s →
  service_ok s ∧ ∀ e, (∀ s', run_service e s = Returned (tt, s') → service_ok s') ∧
    ((∀ u i, infos_ok i → ∃ i', infos_init u i = Returned i') →
     (∀ w u, ∃ n, (n < fuel)%nat ∧ is_Some (ImplicitQueryInfoByPriority w u n)) → ∃ s', run_service e s = Returned (tt, s')).
Proof.
  intros Hk Hb Hr. split; [by eapply service_reachable_consistent|]. intros e. split.
  - intros s' E. eapply service_reachable_consistent; [done|done|]. destruct Hr as (s0 & H0 & H). exists s0. split; [done|].
    eapply rtc_r; [exact H|]. by eapply service_event.
  - intros Hl Hq. assert (service_ok s) as Hs by by eapply service_reachable_consistent.
    assert (∀ u i, infos_ok i → ∃ i', infos_init u i = Returned i' ∧ infos_ok i') as Hst.
    { intros u i Hi. destruct (Hl u i Hi) as [i' E]. exists i'. split; [done|]. by eapply Hk. }
    destruct (wp_run _ _ _ (keeps_service infos_init app_load IsOsAccountExists ImplicitQueryInfoByPriority fuel
      _ _ _ Hst Hq e s Hs)) as ([] & s' & E & _). by exists s'.
Qed.

(** What follows is about services that do not fail: the stored infos of every user can
    be loaded, also by the manager as it is constructed, and hold no launcher; the bundle
    manager answers in the end. *)
Context (stored_ok : ∀ u i, infos_ok i → ∃ i', infos_init u i = Returned i' ∧ infos_ok i').
Context (boot_ok : ∃ i, infos_init 100 unloaded = Returned i ∧ infos_ok i).
Context (bms_ready : ∀ w u, ∃ n, (n < fuel)%nat ∧ is_Some (ImplicitQueryInfoByPriority w u n)).

Lemma reachable_ok s : reachable s → service_ok s.
Proof. by apply service_reachable_ok. Qed.

Lemma StartUser_switched s u :
  reachable s → 0 < u → currentUserId_ s ≠ u → IsOsAccountExists u = true →
  ∃ s', StartUser u true s = Returned (0, s') ∧
    switched infos_init GenerateAbilityRequest launcher_name json_dump u s s'.
Proof.
  intros Hs%reachable_ok Hu Hc Ha.
  assert (wp (StartUser u true) (λ a s', a = 0 ∧
    switched infos_init GenerateAbilityRequest launcher_name json_dump u s s') s) as Hw.
  { by apply (wp_StartUser infos_init app_load IsOsAccountExists ImplicitQueryInfoByPriority fuel
      GenerateAbilityRequest launcher_name json_dump stored_ok bms_ready). }
  destruct (wp_run _ _ _ Hw) as (a & s' & E & -> & H). by exists s'.
Qed.

(** C26: starting a user with an account makes it the current user and its
    managers the current ones; afterwards no mission of the user before has an
    active ability, the managers of all other users are as they were, and an event
    that ends the switch is due in three seconds. *)
Theorem StartUser_switches s u :
  reachable s → 0 < u → currentUserId_ s ≠ u → IsOsAccountExists u = true →
  ∃ s', StartUser u true s = Returned (0, s') ∧ currentUserId_ s' = u ∧ serves u s' ∧
    (∀ m g, t_filed (ams_lists s) !! currentUserId_ s = Some m → t_objects (ams_lists s') !! m = Some g →
       GetAllForegroundAbilities (mlm_store g) = []) ∧
    (∀ v, v ≠ currentUserId_ s → v ≠ u → user_same v s s') ∧
    (currentUserId_ s ≠ USER_ID_NO_HEAD → screen_frozen (ams_trace s') = true) ∧
    ∃ e, e ∈ uc_events s' ∧ ends_switch e = true ∧ qe_due e = uc_clock s + USER_SWITCH_TIMEOUT.
Proof.
  intros Hr Hu Hc Ha. destruct (StartUser_switched s u Hr Hu Hc Ha) as (s' & E & H). exists s'. split; [done|].
  apply reachable_ok in Hr. destruct H as [Hok Hcu (i & Ei & Hp) Hsame Hf (e & He & Hid & Hdue & _) _ _].
  split_and!; [done| |  |done|done|].
  - pose proof (so_serves _ _ _ _ Hok) as Hsv. unfold active_user in Hsv. rewrite Hcu in Hsv.
    destruct (Z.eqb_spec u USER_ID_NO_HEAD) as [E0|]; [unfold USER_ID_NO_HEAD in E0; lia|done].
  - intros m g Hm Hg. unfold old_user_paused in Hp. rewrite Hm in Hp.
    destruct (tw_filed _ _ (mo_lists _ _ _ _ (so_managers _ _ _ _ Hr)) _ _ Hm) as [g0 Hg0].
    destruct (Hp g0 Hg0) as (_ & g' & Hg' & _ & Hin). by simplify_eq.
  - exists e. split; [done|]. split; [|done]. unfold ends_switch. by rewrite Hid.
Qed.

(** The infos of the new user are loaded before the missions of the old user
    are paused, so the snapshots of the old user's abilities are taken in the
    infos of the new user, under the same mission ids. *)
Theorem StartUser_snapshots_cross s u m g :
  reachable s → 0 < u → currentUserId_ s ≠ u → IsOsAccountExists u = true →
  t_filed (ams_lists s) !! currentUserId_ s = Some m → t_objects (ams_lists s) !! m = Some g →
  ∃ s' i, StartUser u true s = Returned (0, s') ∧ infos_init u (ams_infos s) = Returned i ∧
    ams_infos s' = foldl (snapshot_of (mlm_store g)) i (GetAllForegroundAbilities (mlm_store g)).
Proof.
  intros Hr Hu Hc Ha Hm Hg. destruct (StartUser_switched s u Hr Hu Hc Ha) as (s' & E & H).
  destruct H as [_ _ (i & Ei & Hp) _ _ _ _ _]. exists s', i. split_and!; [done..|].
  unfold old_user_paused in Hp. rewrite Hm in Hp. by destruct (Hp g Hg).
Qed.

(** C27: a frozen screen is released: three seconds later the handler's thread
    comes to rest, with no event left and the screen released, and nothing else
    of the service has changed. *)
Theorem screen_released s n :
  reachable s → (work (uc_events s) < n)%nat →
  ∃ s', drain n (tick USER_SWITCH_TIMEOUT s) = Returned (tt, s') ∧
    uc_events s' = [] ∧ screen_frozen (ams_trace s') = false ∧
    currentUserId_ s' = currentUserId_ s ∧ ∀ v, user_same v s s'.
Proof.
  intros Hs%reachable_ok Hn.
  assert (0 ≤ USER_SWITCH_TIMEOUT) as H0 by (unfold USER_SWITCH_TIMEOUT; lia).
  pose proof (ok_tick _ _ _ USER_SWITCH_TIMEOUT s H0 Hs) as Ht.
  assert (∀ e, e ∈ uc_events (tick USER_SWITCH_TIMEOUT s) → qe_due e ≤ uc_clock (tick USER_SWITCH_TIMEOUT s)) as Hdue.
  { intros e He. pose proof (uo_due _ (so_users _ _ _ _ Hs) e He). unfold tick. ams_cbn. lia. }
  destruct (wp_run _ _ _ (wp_drain IsOsAccountExists _ _ _ n _ Ht Hdue Hn)) as ([] & s' & E & Hs' & A & C & Ev).
  exists s'. split_and!; [done|done| |done|].
  - destruct (screen_frozen (ams_trace s')) eqn:Hf; [|done].
    destruct (so_releasing _ _ _ _ Hs' Hf) as (e & He & _). rewrite Ev in He. by apply not_elem_of_nil in He.
  - intros v. apply (aside_user v) in A. destruct A. by constructor.
Qed.

(** A user never leaves the state BOOTING, however often it was started:
    [UserBootDone] returns when it finds the item filed. So each switch to a user
    announces again that the user starts. *)
Theorem user_starts_again s u r :
  reachable s → userItems_ s !! u = Some r →
  uc_items s !! r = Some (new_user_item u) ∧
  (0 < u → currentUserId_ s ≠ u → IsOsAccountExists u = true →
   ∃ s', StartUser u true s = Returned (0, s') ∧
     mkQueued EVENT_SYSTEM_USER_START (mkUserEvent 0 u None) (uc_clock s) ∈ uc_events s').
Proof.
  intros Hr Hi. split.
  - apply reachable_ok in Hr. by apply (uo_items _ (so_users _ _ _ _ Hr)).
  - intros Hu Hc Ha. destruct (StartUser_switched s u Hr Hu Hc Ha) as (s' & E & H). exists s'. split; [done|]. apply H.
Qed.

(** Stopping a user takes its managers out of service and nobody else's, has
    its processes killed and its directory removed, and leaves the current
    managers current; the current user is not stopped, yet the answer is the
    same. *)
Theorem StopUser_clears s u :
  reachable s → 0 < u → u ≠ USER_ID_DEFAULT → IsOsAccountExists u = true →
  if decide (u = currentUserId_ s) then StopUser u s = Returned (0, s)
  else ∃ s', StopUser u s = Returned (0, s') ∧
    t_filed (ams_lists s') !! u = None ∧ t_filed (ams_connects s') !! u = None ∧
    t_filed (ams_datas s') !! u = None ∧ t_filed (ams_pendings s') !! u = None ∧
    (∀ v, v ≠ u → user_same v s s') ∧ serves (active_user s) s' ∧
    ams_trace s' = ams_trace s ++ [AmsKillProcessesByUserId u; AmsRemoveUserDir u].
Proof.
  intros Hs%reachable_ok Hu Hd Ha. case_decide as Hc.
  - unfold UserService.StopUser.
    assert ((u <? 0) || (u =? USER_ID_NO_HEAD) || (u =? USER_ID_DEFAULT) = false) as ->.
    { rewrite !orb_false_iff. unfold USER_ID_NO_HEAD, USER_ID_DEFAULT in *. lia. }
    unfold IsCurrentUser, GetCurrentUserId, GetUserItem, gets, mbind, ST_bind. rewrite Hc, Z.eqb_refl.
    rewrite bool_decide_eq_true_2; [done|]. apply (uo_current _ (so_users _ _ _ _ Hs)). unfold USER_ID_NO_HEAD. lia.
  - assert (wp (StopUser u) (λ a s', a = 0 ∧ stopped GenerateAbilityRequest launcher_name json_dump u s s') s) as Hw.
    { by apply (wp_StopUser _ GenerateAbilityRequest launcher_name json_dump). }
    destruct (wp_run _ _ _ Hw) as (a & s' & E & -> & H). exists s'. destruct H as [_ H1 H2 H3 H4 H5 H6 H7].
    split_and!; try done. apply H6; [|apply (so_serves _ _ _ _ Hs)].
    unfold active_user. destruct (_ =? _); [by apply not_eq_sym|by apply not_eq_sym].
Qed.
End claims.

(** * On the small device of [UserSession] *)

(** A theorem on the device, which meets the assumptions. *)
#[local] Abbreviation on_device T :=
  (T users_init users_load users_load users_callee accounts users_query 5%nat no_request is_launcher_name visible_ok 3
    false data_load_ok keys_before users_json unloaded users_stored users_boot users_ready) (only parsing).

#[local] Abbreviation DemoStartUser := (StartUser users_init users_load accounts users_query 5).

Lemma service_consistent_witness :
  users_reachable other_user ∧ ∀ e, ∃ s', run_service users_init users_load accounts users_query 5 e other_user = Returned (tt, s').
Proof.
  split; [exact other_user_reachable|]. intros e.
  assert (∀ u i, ∃ i', users_init u i = Returned i') as Hl by (intros u i; destruct (users_stored_ok u i) as (i' & E & _); by exists i').
  destruct (service_consistent users_init users_load users_load users_callee accounts users_query 5%nat no_request is_launcher_name
    visible_ok 3 false data_load_ok keys_before users_json unloaded other_user) as [_ H].
  - intros u i i' _ E. destruct (users_stored_ok u i) as (j & E' & Hj). congruence.
  - intros i E. destruct (users_stored_ok 100 unloaded) as (j & E' & Hj). congruence.
  - exact other_user_reachable.
  - destruct (H e) as [_ He]. apply He; [intros u i _; apply Hl|exact users_ready].
Defined.

Lemma StartUser_switches_witness :
  currentUserId_ main_busy = 100 ∧
  ∃ s', DemoStartUser 101 true main_busy = Returned (0, s') ∧ currentUserId_ s' = 101 ∧ serves 101 s' ∧
    screen_frozen (ams_trace s') = true.
Proof.
  split; [vm_compute; reflexivity|].
  destruct (on_device StartUser_switches main_busy 101 main_busy_reachable) as (s' & E & C & S & _ & _ & F & _).
  - reflexivity.
  - vm_compute. discriminate.
  - vm_compute. reflexivity.
  - exists s'. split; [exact E|]. split; [exact C|]. split; [exact S|]. apply F. vm_compute. discriminate.
Defined.

Lemma StartUser_snapshots_cross_witness :
  ∃ s' i (g : MLM Infos), DemoStartUser 101 true main_busy = Returned (0, s') ∧ users_init 101 (ams_infos main_busy) = Returned i ∧
    GetAllForegroundAbilities (mlm_store g) = [7%positive; 4%positive] ∧
    ams_infos s' = snapshot_of (mlm_store g) (snapshot_of (mlm_store g) i 7) 4.
Proof.
  destruct (lookup_is_some (t_objects (ams_lists main_busy) !! 4%positive)) as [g Hg]; [vm_compute; reflexivity|].
  destruct (on_device StartUser_snapshots_cross main_busy 101 4%positive g main_busy_reachable) as (s' & i & E & Ei & H).
  - reflexivity.
  - vm_compute. discriminate.
  - vm_compute. reflexivity.
  - vm_compute. reflexivity.
  - exact Hg.
  - assert (GetAllForegroundAbilities (mlm_store g) = [7%positive; 4%positive]) as Ha.
    { apply (lookup_field (λ g, GetAllForegroundAbilities (mlm_store g)) _ _ _ Hg). vm_compute. reflexivity. }
    exists s', i, g. split; [exact E|]. split; [exact Ei|]. split; [exact Ha|]. rewrite Ha in H. exact H.
Defined.

Lemma screen_released_witness :
  screen_frozen (ams_trace other_user) = true ∧
  ∃ s', drain 20 (tick USER_SWITCH_TIMEOUT other_user) = Returned (tt, s') ∧ screen_frozen (ams_trace s') = false.
Proof.
  split; [vm_compute; reflexivity|].
  destruct (on_device screen_released other_user 20 other_user_reachable) as (s' & E & _ & F & _).
  - vm_compute. lia.
  - exists s'. split; [exact E|exact F].
Defined.

Lemma user_starts_again_witness :
  ∃ r s', userItems_ other_user !! 100 = Some r ∧ uc_items other_user !! r = Some (new_user_item 100) ∧
    DemoStartUser 100 true other_user = Returned (0, s') ∧
    mkQueued EVENT_SYSTEM_USER_START (mkUserEvent 0 100 None) 0 ∈ uc_events s'.
Proof.
  destruct (lookup_is_some (userItems_ other_user !! 100)) as [r Hr]; [vm_compute; reflexivity|].
  destruct (on_device user_starts_again other_user 100 r other_user_reachable Hr) as [H1 H2].
  destruct H2 as (s' & E & H).
  - reflexivity.
  - vm_compute. discriminate.
  - vm_compute. reflexivity.
  - exists r, s'. split; [exact Hr|]. split; [exact H1|]. split; [exact E|].
    replace (uc_clock other_user) with 0 in H by (vm_compute; reflexivity). exact H.
Defined.

Lemma StopUser_clears_witness :
  StopUser accounts 101 other_user = Returned (0, other_user) ∧
  ∃ s', StopUser accounts 102 other_user = Returned (0, s') ∧ serves 101 s'.
Proof.
  split.
  - pose proof (on_device StopUser_clears other_user 101 other_user_reachable eq_refl ltac:(discriminate) eq_refl) as H.
    rewrite decide_True in H by (vm_compute; reflexivity). exact H.
  - pose proof (on_device StopUser_clears other_user 102 other_user_reachable eq_refl ltac:(discriminate) eq_refl) as H.
    rewrite decide_False in H by (vm_compute; discriminate). destruct H as (s' & E & _ & _ & _ & _ & _ & S & _).
    exists s'. split; [exact E|]. replace (active_user other_user) with 101 in S by (vm_compute; reflexivity). exact S.
Defined.
