(* ===== verification/StdMap.v ===== *)
(** [std::map] as the list of its entries in the order of the keys: where the code
    walks over a map, the order in which it does matters. *)

From S2P Require Import Prelude.

#[local] Open Scope stdpp_scope.
#[local] Open Scope Z_scope.

(** [operator<] of the keys. *)
Class StdLess (K : Type) := std_less : K → K → bool.

#[export] Instance Z_less : StdLess Z := Z.ltb.
#[export] Instance positive_less : StdLess positive := Pos.ltb.

Class StdLessLaws (K : Type) `{!StdLess K} := {
  less_irrefl k : std_less k k = false;
  less_trans k1 k2 k3 : std_less k1 k2 = true → std_less k2 k3 = true → std_less k1 k3 = true;
  less_total k1 k2 : k1 ≠ k2 → std_less k1 k2 = true ∨ std_less k2 k1 = true;
}.

#[export] Instance Z_less_laws : StdLessLaws Z.
Proof. split; unfold std_less, Z_less; intros; lia. Qed.
#[export] Instance positive_less_laws : StdLessLaws positive.
Proof. split; unfold std_less, positive_less; intros *; rewrite ?Pos.ltb_lt, ?Pos.ltb_ge; lia. Qed.

Section std_map.
Context {K V : Type} `{!EqDecision K, !StdLess K}.
Implicit Types (m : list (K * V)) (k : K).

Definition map_find k m : option V := snd <$> List.find (λ e, bool_decide (e.1 = k)) m.

(** [emplace] keeps the entry that is there. *)
Definition map_emplace k (v : V) m : list (K * V) :=
  match map_find k m with
  | Some _ => m
  | None => insert_before (λ e, std_less k e.1) (k, v) m
  end.

Definition map_erase k m : list (K * V) := List.filter (λ e, negb (bool_decide (e.1 = k))) m.

Definition keys m : list K := fst <$> m.
Definition values m : list V := snd <$> m.

(** Keys are in order, so each occurs once. *)
Definition map_sorted m : Prop := StronglySorted (λ a b, std_less a b = true) (keys m).

Lemma map_find_elem k v m : map_find k m = Some v → (k, v) ∈ m.
Proof.
  unfold map_find. destruct (List.find _ m) as [[k' v']|] eqn:E; [|done]. intros [= <-].
  apply find_Some_elem in E as [Hin Hk]. apply bool_decide_eq_true in Hk. by cbn in Hk; subst.
Qed.

Lemma map_find_None k m : map_find k m = None ↔ k ∉ keys m.
Proof.
  unfold map_find, keys. destruct (List.find _ m) as [[k' v']|] eqn:E; cbn.
  - apply find_Some_elem in E as [Hin Hk]. apply bool_decide_eq_true in Hk. cbn in Hk. subst. split; [done|].
    intros []. apply list_elem_of_fmap. by exists (k, v').
  - split; [|done]. intros _ Hin. apply list_elem_of_fmap in Hin as ([k' v] & -> & Hin).
    by apply (find_None_elem _ _ _ E), bool_decide_eq_false in Hin.
Qed.

Lemma map_find_is_Some k m : is_Some (map_find k m) ↔ k ∈ keys m.
Proof.
  rewrite <- not_eq_None_Some, map_find_None. split; [|tauto]. intros H. destruct (decide (k ∈ keys m)); tauto.
Qed.

Lemma elem_keys k v m : (k, v) ∈ m → k ∈ keys m.
Proof. intros H. apply list_elem_of_fmap. by exists (k, v). Qed.

Lemma values_app m1 m2 : values (m1 ++ m2) = values m1 ++ values m2.
Proof. apply fmap_app. Qed.
Lemma elem_values v m : v ∈ values m ↔ ∃ k, (k, v) ∈ m.
Proof.
  unfold values. rewrite list_elem_of_fmap. split; [by intros ([k v'] & -> & H); exists k|].
  intros [k H]. by exists (k, v).
Qed.

Lemma NoDup_find k v m : NoDup (keys m) → (k, v) ∈ m → map_find k m = Some v.
Proof.
  intros Hnd Hin. destruct (map_find k m) as [v'|] eqn:E.
  - apply map_find_elem in E. f_equal. revert Hnd Hin E. induction m as [|[k1 v1] m IH]; cbn; [by intros _ ?%not_elem_of_nil|].
    intros [Hn Hnd]%NoDup_cons [?|Hin]%elem_of_cons [?|E]%elem_of_cons; simplify_eq; [done| | |by apply IH];
      exfalso; apply Hn; by eapply elem_keys.
  - apply map_find_None in E. by apply elem_keys in Hin.
Qed.

(** ** Insertion and removal *)

Lemma elem_emplace x k v m : x ∈ map_emplace k v m → x = (k, v) ∨ x ∈ m.
Proof.
  unfold map_emplace. destruct (map_find k m); [by right|]. by rewrite elem_of_insert_before.
Qed.

Lemma emplace_fresh k v m : map_find k m = None → map_emplace k v m ≡ₚ (k, v) :: m.
Proof. intros E. unfold map_emplace. rewrite E. apply insert_before_perm. Qed.

Lemma emplace_there k v m : k ∈ keys m → map_emplace k v m = m.
Proof. intros [v' E]%map_find_is_Some. unfold map_emplace. by rewrite E. Qed.

Lemma elem_of_emplace x k v m : map_find k m = None → x ∈ map_emplace k v m ↔ x = (k, v) ∨ x ∈ m.
Proof. intros E. by rewrite (emplace_fresh _ _ _ E), elem_of_cons. Qed.

Lemma keys_emplace k v m j : j ∈ keys (map_emplace k v m) ↔ j = k ∨ j ∈ keys m.
Proof.
  destruct (map_find k m) as [v'|] eqn:E.
  - rewrite emplace_there by (apply map_find_is_Some; by exists v'). split; [tauto|]. intros [->|?]; [|done].
    apply map_find_is_Some. by exists v'.
  - unfold keys. rewrite (emplace_fresh _ _ _ E). csimpl. apply elem_of_cons.
Qed.

Lemma NoDup_emplace k v m : NoDup (keys m) → NoDup (keys (map_emplace k v m)).
Proof.
  intros Hnd. destruct (map_find k m) as [v'|] eqn:E.
  - by rewrite emplace_there by (apply map_find_is_Some; by exists v').
  - unfold keys. rewrite (emplace_fresh _ _ _ E). csimpl. constructor; [|done]. by apply map_find_None in E.
Qed.

Lemma sorted_emplace `{!StdLessLaws K} k v m : map_sorted m → map_sorted (map_emplace k v m).
Proof.
  unfold map_sorted, keys. intros Hs. unfold map_emplace. destruct (map_find k m) eqn:E; [done|].
  apply map_find_None in E. unfold keys in E. induction m as [|[k1 v1] m IH]; cbn in *; [repeat constructor|].
  apply not_elem_of_cons in E as [Hne Hn]. apply StronglySorted_inv in Hs as [Hs Hf].
  destruct (std_less k k1) eqn:L; csimpl.
  - constructor; [by constructor|]. constructor; [done|]. eapply Forall_impl; [exact Hf|]. intros x. by apply less_trans.
  - constructor; [by apply IH|]. assert (std_less k1 k = true) as L1 by (destruct (less_total k k1 Hne); congruence).
    rewrite insert_before_perm. csimpl. by constructor.
Qed.

Lemma elem_of_erase x k m : x ∈ map_erase k m ↔ x.1 ≠ k ∧ x ∈ m.
Proof.
  unfold map_erase. rewrite !list_elem_of_In, filter_In, negb_true_iff, bool_decide_eq_false. tauto.
Qed.

Lemma keys_erase j k m : j ∈ keys (map_erase k m) ↔ j ≠ k ∧ j ∈ keys m.
Proof.
  unfold keys. rewrite !list_elem_of_fmap. split.
  - intros (x & -> & [Hne Hin]%elem_of_erase). split; [done|]. by exists x.
  - intros (Hne & x & -> & Hin). exists x. split; [done|]. by apply elem_of_erase.
Qed.

Lemma erase_sublist k m : map_erase k m `sublist_of` m.
Proof.
  unfold map_erase. induction m as [|x m IH]; [done|]. cbn. destruct (negb _); [by apply sublist_skip|by apply sublist_cons].
Qed.

Lemma NoDup_erase k m : NoDup (keys m) → NoDup (keys (map_erase k m)).
Proof. intros Hnd. apply (sublist_NoDup _ (keys m)); [done|]. apply fmap_sublist, erase_sublist. Qed.

Lemma sorted_erase k m : map_sorted m → map_sorted (map_erase k m).
Proof. apply StronglySorted_sublist, fmap_sublist, erase_sublist. Qed.

Lemma map_find_erase k m : map_find k (map_erase k m) = None.
Proof. apply map_find_None. rewrite keys_erase. tauto. Qed.

(** ** Changes in place *)

Definition map_change (f : K → V → V) m : list (K * V) := (λ e, (e.1, f e.1 e.2)) <$> m.

(** [m[k] = f(m[k])] for a key that is there. *)
Definition map_alter (f : V → V) (k : K) m : list (K * V) := map_change (λ j v, if bool_decide (j = k) then f v else v) m.

Lemma map_find_change f k m : map_find k (map_change f m) = f k <$> map_find k m.
Proof.
  induction m as [|[j v] m IH]; [done|]. unfold map_find, map_change in *. csimpl.
  destruct (decide (j = k)) as [->|Hne].
  - rewrite (bool_decide_eq_true_2 (k = k)) by done. done.
  - rewrite (bool_decide_eq_false_2 (j = k)) by done. exact IH.
Qed.

Lemma keys_change f m : keys (map_change f m) = keys m.
Proof. unfold keys, map_change. rewrite <- list_fmap_compose. by apply list_fmap_ext. Qed.

Lemma map_find_alter f j k m : map_find k (map_alter f j m) = if bool_decide (k = j) then f <$> map_find k m else map_find k m.
Proof.
  unfold map_alter. rewrite map_find_change. destruct (bool_decide (k = j)); [done|]. by destruct (map_find k m).
Qed.
Lemma keys_alter f k m : keys (map_alter f k m) = keys m.
Proof. apply keys_change. Qed.

Lemma map_find_emplace j k v m :
  map_find k (map_emplace j v m) = if bool_decide (j = k) then Some (default v (map_find k m)) else map_find k m.
Proof.
  unfold map_emplace. destruct (map_find j m) as [w|] eqn:E.
  - case_bool_decide; [subst; by rewrite E|done].
  - assert (∀ P, map_find k (insert_before P (j, v) m) = if bool_decide (j = k) then Some v else map_find k m) as H.
    { intros P. induction m as [|[i w] m IH]; unfold map_find in *; csimpl; [by destruct (bool_decide (j = k))|].
      csimpl in E. destruct (bool_decide (i = j)) eqn:Eij; [done|]. destruct (P (i, w)); csimpl.
      - by destruct (bool_decide (j = k)).
      - destruct (bool_decide (i = k)) eqn:Eik; [|by apply IH]. rewrite bool_decide_eq_false in Eij. rewrite bool_decide_eq_true in Eik.
        rewrite bool_decide_eq_false_2 by congruence. done. }
    rewrite H. case_bool_decide; [subst; by rewrite E|done].
Qed.

Lemma map_find_erase_ne j k m : j ≠ k → map_find k (map_erase j m) = map_find k m.
Proof.
  intros Hne. induction m as [|[i w] m IH]; [done|]. unfold map_find, map_erase in *. csimpl.
  destruct (bool_decide (i = j)) eqn:E1; csimpl.
  - rewrite bool_decide_eq_true in E1. rewrite bool_decide_eq_false_2 by congruence. exact IH.
  - by destruct (bool_decide (i = k)).
Qed.
End std_map.
