(* ===== verification/DataObs.v ===== *)
(** [DataObsMgrService] and [DataObsMgrInner] (services/dataobsmgr/src/dataobs_mgr_service.cpp,
    dataobs_mgr_inner.cpp): who watches the data behind a uri, and is told when it
    changes.

    A request is checked and posted as a task to the handler of the service, which runs
    them one after the other. Who asks to register an observer, or tells of a change, is
    answered at once; who asks to unregister one waits until the task has run, unless
    the request is refused, and others may ask in the meantime. [Answered] in the trace
    is the answer that a caller gets. A proxy is made for each call that carries an observer:
    two of them are the same observer when they have the same remote object. Which proxy
    stands for the object of a dead observer is up to the IPC library. *)

From S2P Require Import Prelude CppString StdMap.

#[local] Open Scope stdpp_scope.
#[local] Open Scope Z_scope.

(** * Data *)

Record Observer := mkObserver { ob_proxy : positive; ob_object : option positive }.
#[export] Instance Observer_eq_dec : EqDecision Observer.
Proof. solve_decision. Defined.

Inductive ObsErr :=
  | NO_ERROR | DATA_OBSERVER_IS_NULL | DATAOBS_SERVICE_HANDLER_IS_NULL | DATAOBS_SERVICE_TASK_LIMMIT
  | DATAOBS_SERVICE_OBS_LIMMIT | DATAOBS_SERVICE_POST_TASK_FAILED | NO_OBS_FOR_URI | OBS_EXIST.

Inductive ObsTask :=
  | RegisterTask (uri : string) (ob : Observer)
  | UnregisterTask (uri : string) (ob : Observer) (caller : positive)   (* who waits for it *)
  | NotifyTask (uri : string)
  | DiedTask (object : positive).

Inductive ObsEffect :=
  | Changed (ob : Observer) | Watched (object : positive) | Unwatched (object : positive)
  | Answered (caller : positive) (e : ObsErr).

Record DataObs := mkDataObs {
  obs_handler : bool;                       (* [handler_] of the service is not null *)
  inner_handler : bool;                     (* nor is that of [DataObsMgrInner] *)
  taskCount_ : Z;
  obsmap_ : list (string * list Observer);
  recipientMap_ : list positive;            (* its keys *)
  obs_tasks : list ObsTask;                 (* posted and not run yet *)
  obs_trace : list ObsEffect;
}.
#[export] Instance DataObs_eta : Eta DataObs := λ x, mkDataObs (obs_handler x) (inner_handler x) (taskCount_ x) (obsmap_ x)
  (recipientMap_ x) (obs_tasks x) (obs_trace x).
Definition new_dataobs : DataObs := mkDataObs false false 0 [] [] [] [].

Definition taskCount_max : Z := 50.
Definition obs_max : nat := 50.

#[local] Abbreviation DM := (ST DataObs).
#[local] Instance uri_less : StdLess string := str_ltb.

Section service.
Context (iface_cast : positive → Observer).

Definition obs_emit (e : ObsEffect) : DM unit := modify (λ s, s <| obs_trace ::= λ t, t ++ [e] |>).
Definition SetHandler : DM unit := modify (λ s, s <| inner_handler := true |>).
Definition AtomicAddTaskCount : DM unit := modify (λ s, s <| taskCount_ ::= λ c, wrap_i32 (c + 1) |>).
Definition AtomicSubTaskCount : DM unit := modify (λ s, s <| taskCount_ ::= λ c, wrap_i32 (c - 1) |>).
Definition CheckNeedLimmit : DM bool := gets (λ s, taskCount_max <=? taskCount_ s).
Definition GetObsListFromMap (uri : string) : DM (option (list Observer)) := gets (λ s, map_find uri (obsmap_ s)).
Definition CheckRegisteFull (uri : string) : DM bool :=
  obslist ← GetObsListFromMap uri;
  mret (match obslist with Some l => (obs_max <=? length l)%nat | None => false end).

Definition AddObsDeathRecipient (dataObserver : Observer) : DM unit :=
  match ob_object dataObserver with
  | None => mret tt
  | Some object =>
      there ← gets (λ s, bool_decide (object ∈ recipientMap_ s));
      if there : bool then mret tt
      else _ ← obs_emit (Watched object); modify (λ s, s <| recipientMap_ ::= cons object |>)
  end.
Definition RemoveObsDeathRecipient (dataObserver : Observer) : DM unit :=
  match ob_object dataObserver with
  | None => mret tt
  | Some object =>
      there ← gets (λ s, bool_decide (object ∈ recipientMap_ s));
      if there : bool then _ ← obs_emit (Unwatched object); modify (λ s, s <| recipientMap_ ::= list_erase_val object |>)
      else mret tt
  end.
Definition ObsExistInMap (dataObserver : Observer) : DM bool :=
  gets (λ s, existsb (λ e : string * list Observer, bool_decide (dataObserver ∈ e.2)) (obsmap_ s)).

Definition same_object (ob x : Observer) : bool := bool_decide (ob_object x = ob_object ob).

(** * The tasks *)

(** An observer that is there already is not counted off. *)
Definition HandleRegisterObserver (uri : string) (dataObserver : Observer) : DM ObsErr :=
  obslist ← GetObsListFromMap uri;
  let l := default [] obslist in
  if existsb (same_object dataObserver) l then mret OBS_EXIST
  else
    _ ← AddObsDeathRecipient dataObserver;
    _ ← (if obslist is Some _ then modify (λ s, s <| obsmap_ ::= map_erase uri |>) else mret tt);
    _ ← modify (λ s, s <| obsmap_ ::= map_emplace uri (l ++ [dataObserver]) |>);
    _ ← AtomicSubTaskCount;
    mret NO_ERROR.

Definition HandleUnregisterObserver (uri : string) (dataObserver : Observer) : DM ObsErr :=
  obslist ← GetObsListFromMap uri;
  match obslist with
  | None => _ ← AtomicSubTaskCount; mret NO_OBS_FOR_URI
  | Some l =>
      match List.find (same_object dataObserver) l with
      | None => _ ← AtomicSubTaskCount; mret NO_OBS_FOR_URI
      | Some removeObs =>
          let l := list_remove_all removeObs l in
          _ ← modify (λ s, s <| obsmap_ ::= map_erase uri |>);
          _ ← match l with [] => mret tt | _ => modify (λ s, s <| obsmap_ ::= map_emplace uri l |>) end;
          there ← ObsExistInMap removeObs;
          _ ← (if negb there then RemoveObsDeathRecipient removeObs else mret tt);
          _ ← AtomicSubTaskCount;
          mret NO_ERROR
      end
  end.

Definition HandleNotifyChange (uri : string) : DM ObsErr :=
  obslist ← GetObsListFromMap uri;
  match obslist with
  | None => _ ← AtomicSubTaskCount; mret NO_OBS_FOR_URI
  | Some l => _ ← for_each (λ ob, obs_emit (Changed ob)) l; _ ← AtomicSubTaskCount; mret NO_ERROR
  end.

(** The loop erases the entry it stands on when its list has become empty, and goes on
    from it: that is not defined. *)
Fixpoint remove_from_lists (ob : Observer) (l : list (string * list Observer)) : outcome (list (string * list Observer)) :=
  match l with
  | [] => Returned []
  | (uri, obs) :: l' =>
      if bool_decide (ob ∈ obs) then
        match list_remove_all ob obs with
        | [] => Thrown
        | obs' => rest ← remove_from_lists ob l'; Returned ((uri, obs') :: rest)
        end
      else rest ← remove_from_lists ob l'; Returned ((uri, obs) :: rest)
  end.
Definition RemoveObsFromMap (ob : Observer) : DM unit :=
  m ← gets obsmap_;
  m ← (λ s, match remove_from_lists ob m with Returned m => Returned (m, s) | Thrown => Thrown | OutOfFuel => OutOfFuel end);
  _ ← modify (λ s, s <| obsmap_ := m |>);
  RemoveObsDeathRecipient ob.
Definition HandleCallBackDiedTask (object : positive) : DM unit := RemoveObsFromMap (iface_cast object).
Definition OnCallBackDied (object : positive) : DM unit :=
  there ← gets inner_handler;
  if there : bool then modify (λ s, s <| obs_tasks ::= λ l, l ++ [DiedTask object] |>) else mret tt.

Definition run_task (t : ObsTask) : DM unit :=
  match t with
  | RegisterTask uri ob => _ ← HandleRegisterObserver uri ob; mret tt
  | UnregisterTask uri ob caller => _ ← HandleUnregisterObserver uri ob; obs_emit (Answered caller NO_ERROR)
  | NotifyTask uri => _ ← HandleNotifyChange uri; mret tt
  | DiedTask object => HandleCallBackDiedTask object
  end.
(** The handler takes the oldest task. *)
Definition run_next : DM unit :=
  l ← gets obs_tasks;
  match l with
  | [] => mret tt
  | t :: l' => _ ← modify (λ s, s <| obs_tasks := l' |>); run_task t
  end.

(** * The service

    [posted] is whether the handler takes the task. *)

(** [OnStart] makes the handler of the service, if it gets an event runner; nothing
    gives one to the inner manager. *)
Definition OnStart (made : bool) : DM unit :=
  there ← gets obs_handler;
  if there : bool then mret tt
  else if negb made then mret tt
  else modify (λ s, s <| obs_handler := true |>).

(** [PostTask], and [PostSyncTask], which comes back when the task has run. *)
Definition post (posted : bool) (t : ObsTask) : DM bool :=
  if posted then _ ← modify (λ s, s <| obs_tasks ::= λ l, l ++ [t] |>); mret true else mret false.

Definition RegisterObserver (uri : string) (dataObserver : option Observer) (posted : bool) : DM ObsErr :=
  match dataObserver with
  | None => mret DATA_OBSERVER_IS_NULL
  | Some ob =>
      handler ← gets obs_handler;
      if negb handler then mret DATAOBS_SERVICE_HANDLER_IS_NULL
      else
        limit ← CheckNeedLimmit;
        if limit : bool then mret DATAOBS_SERVICE_TASK_LIMMIT
        else
          full ← CheckRegisteFull uri;
          if full : bool then mret DATAOBS_SERVICE_OBS_LIMMIT
          else
            _ ← AtomicAddTaskCount;
            ret ← post posted (RegisterTask uri ob);
            if ret : bool then mret NO_ERROR else _ ← AtomicSubTaskCount; mret DATAOBS_SERVICE_POST_TASK_FAILED
  end.

(** [None]: the caller waits. *)
Definition UnregisterObserver (uri : string) (dataObserver : option Observer) (caller : positive) (posted : bool) : DM (option ObsErr) :=
  match dataObserver with
  | None => mret (Some DATA_OBSERVER_IS_NULL)
  | Some ob =>
      handler ← gets obs_handler;
      if negb handler then mret (Some DATAOBS_SERVICE_HANDLER_IS_NULL)
      else
        limit ← CheckNeedLimmit;
        if limit : bool then mret (Some DATAOBS_SERVICE_TASK_LIMMIT)
        else
          _ ← AtomicAddTaskCount;
          ret ← post posted (UnregisterTask uri ob caller);
          if ret : bool then mret None else _ ← AtomicSubTaskCount; mret (Some DATAOBS_SERVICE_POST_TASK_FAILED)
  end.

Definition NotifyChange (uri : string) (posted : bool) : DM ObsErr :=
  handler ← gets obs_handler;
  if negb handler then mret DATAOBS_SERVICE_HANDLER_IS_NULL
  else
    limit ← CheckNeedLimmit;
    if limit : bool then mret DATAOBS_SERVICE_TASK_LIMMIT
    else
      _ ← AtomicAddTaskCount;
      ret ← post posted (NotifyTask uri);
      if ret : bool then mret NO_ERROR else _ ← AtomicSubTaskCount; mret DATAOBS_SERVICE_POST_TASK_FAILED.

(** * The steps *)

Inductive ObsEvent :=
  | ObsStart (made : bool)
  | ObsRegister (uri : string) (ob : option Observer) (caller : positive) (posted : bool)
  | ObsUnregister (uri : string) (ob : option Observer) (caller : positive) (posted : bool)
  | ObsNotify (uri : string) (caller : positive) (posted : bool)
  | ObsDied (object : positive)
  | ObsRun.

(** What a request answers goes to its caller. *)
Definition obs_event (e : ObsEvent) : DM unit :=
  match e with
  | ObsStart made => OnStart made
  | ObsRegister uri ob caller posted => e ← RegisterObserver uri ob posted; obs_emit (Answered caller e)
  | ObsUnregister uri ob caller posted =>
      e ← UnregisterObserver uri ob caller posted;
      if e is Some e then obs_emit (Answered caller e) else mret tt
  | ObsNotify uri caller posted => e ← NotifyChange uri posted; obs_emit (Answered caller e)
  | ObsDied object => OnCallBackDied object
  | ObsRun => run_next
  end.
Definition obs_step : relation DataObs := event_step obs_event (λ _ _, True).
Definition obs_reachable (s : DataObs) : Prop := rtc obs_step new_dataobs s.

(** * Who watches what *)

Definition objects_of : list Observer → list (option positive) := fmap ob_object.
Definition watching (m : list (string * list Observer)) (uri : string) : list (option positive) :=
  objects_of (default [] (map_find uri m)).

(** What a task does to the watchers, whom it tells, and whom it answers. *)
Definition task_watching (t : ObsTask) (W : string → list (option positive)) (u : string) : list (option positive) :=
  match t with
  | RegisterTask uri ob =>
      if decide (u = uri ∧ ob_object ob ∉ W u) then W u ++ [ob_object ob] else W u
  | UnregisterTask uri ob _ => if decide (u = uri) then list_remove_all (ob_object ob) (W u) else W u
  | NotifyTask _ | DiedTask _ => W u
  end.
Definition task_told (t : ObsTask) (W : string → list (option positive)) : list (option positive) :=
  match t with NotifyTask uri => W uri | _ => [] end.
Definition task_answers (t : ObsTask) : list (positive * ObsErr) :=
  match t with UnregisterTask _ _ caller => [(caller, NO_ERROR)] | _ => [] end.
Definition told_of (e : ObsEffect) : option (option positive) :=
  match e with Changed ob => Some (ob_object ob) | _ => None end.
Definition answer_of (e : ObsEffect) : option (positive * ObsErr) :=
  match e with Answered caller e => Some (caller, e) | _ => None end.

(** The request of an event: its task, which observer it is about, its caller and
    whether the handler takes its task. *)
Definition request_of (e : ObsEvent) : option (option ObsTask * positive * bool) :=
  match e with
  | ObsRegister uri ob caller posted => Some (RegisterTask uri <$> ob, caller, posted)
  | ObsUnregister uri ob caller posted => Some ((λ ob, UnregisterTask uri ob caller) <$> ob, caller, posted)
  | ObsNotify uri caller posted => Some (Some (NotifyTask uri), caller, posted)
  | _ => None
  end.
(** No room for one more watcher. *)
Definition no_room (t : ObsTask) (W : string → list (option positive)) : bool :=
  match t with RegisterTask uri _ => (50 <=? length (W uri))%nat | _ => false end.
(** What the request comes to with [n] tasks counted: the task that is posted, and what
    the caller is told at once. *)
Definition request_result (up : bool) (n : Z) (W : string → list (option positive)) (r : option ObsTask * positive * bool)
    : option ObsTask * list (positive * ObsErr) :=
  let '(t, caller, posted) := r in
  match t with
  | None => (None, [(caller, DATA_OBSERVER_IS_NULL)])
  | Some t =>
      if negb up then (None, [(caller, DATAOBS_SERVICE_HANDLER_IS_NULL)])
      else if 50 <=? n then (None, [(caller, DATAOBS_SERVICE_TASK_LIMMIT)])
      else if no_room t W then (None, [(caller, DATAOBS_SERVICE_OBS_LIMMIT)])
      else if negb posted then (None, [(caller, DATAOBS_SERVICE_POST_TASK_FAILED)])
      else (Some t, match t with UnregisterTask _ _ _ => [] | _ => [(caller, NO_ERROR)] end)
  end.

(** A duplicate: the one task that is not counted off. *)
Definition duplicate (t : ObsTask) (W : string → list (option positive)) : bool :=
  match t with RegisterTask uri ob => bool_decide (ob_object ob ∈ W uri) | _ => false end.

(** * The shape of the map *)

Definition map_ok (m : list (string * list Observer)) : Prop :=
  NoDup (keys m) ∧ ∀ e, e ∈ m → e.2 ≠ [] ∧ NoDup (objects_of e.2).

Lemma map_ok_find m uri l : map_ok m → map_find uri m = Some l → l ≠ [] ∧ NoDup (objects_of l).
Proof. intros [_ Hm] H%map_find_elem. exact (Hm _ H). Qed.
Lemma map_ok_erase m uri : map_ok m → map_ok (map_erase uri m).
Proof. intros [Hk Hm]. split; [by apply NoDup_erase|]. intros e [_ He]%elem_of_erase. by apply Hm. Qed.
Lemma map_ok_emplace m uri l :
  map_ok m → l ≠ [] → NoDup (objects_of l) → map_ok (map_emplace uri l m).
Proof.
  intros [Hk Hm] Hne Hnd. split; [by apply NoDup_emplace|]. intros e [->|He]%elem_emplace; [done|by apply Hm].
Qed.

Lemma watching_erase m uri u : watching (map_erase uri m) u = if decide (u = uri) then [] else watching m u.
Proof.
  unfold watching. destruct (decide (u = uri)) as [->|Hne]; [by rewrite map_find_erase|]. by rewrite map_find_erase_ne.
Qed.
Lemma watching_put m uri l u :
  map_find uri m = None → watching (map_emplace uri l m) u = if decide (u = uri) then objects_of l else watching m u.
Proof.
  intros Hn. unfold watching. rewrite map_find_emplace. destruct (decide (u = uri)) as [->|Hne].
  - rewrite bool_decide_eq_true_2 by done. by rewrite Hn.
  - by rewrite bool_decide_eq_false_2 by congruence.
Qed.

Lemma same_object_existsb ob l : existsb (same_object ob) l = bool_decide (ob_object ob ∈ objects_of l).
Proof.
  apply Bool.eq_iff_eq_true. rewrite existsb_exists, bool_decide_eq_true. unfold objects_of, same_object.
  rewrite list_elem_of_fmap. setoid_rewrite bool_decide_eq_true. split.
  - intros (x & Hx & E). exists x. by rewrite list_elem_of_In.
  - intros (x & E & Hx). exists x. by rewrite <- list_elem_of_In.
Qed.

(** Removing the entry that was found removes its object, which no other entry has. *)
Lemma objects_of_remove ob l :
  NoDup (objects_of l) → ob ∈ l → objects_of (list_remove_all ob l) = list_remove_all (ob_object ob) (objects_of l).
Proof.
  intros Hnd Hin. unfold list_remove_all, objects_of.
  assert (∀ x, x ∈ l → ob_object x = ob_object ob → x = ob) as Hinj.
  { revert Hnd Hin. clear. induction l as [|y l IH]; intros Hnd Hin x Hx E; [by apply not_elem_of_nil in Hx|].
    apply NoDup_cons in Hnd as [Hy Hnd]. fold (objects_of l) in Hy.
    apply elem_of_cons in Hin as [->|Hin]; apply elem_of_cons in Hx as [->|Hx]; [done| | |by apply IH]; exfalso; apply Hy;
      [rewrite <- E|rewrite E]; by apply list_elem_of_fmap_2. }
  clear Hnd Hin. induction l as [|y l IH]; [done|]. rewrite filter_cons, fmap_cons, filter_cons.
  rewrite <- IH by (intros x Hx; apply Hinj; by right).
  destruct (decide (y ≠ ob)) as [Hne|Heq%dec_stable]; destruct (decide (ob_object y ≠ ob_object ob)) as [Hneo|Heqo%dec_stable]; [done| | |done].
  - exfalso. apply Hne, Hinj; [by left|done].
  - subst. done.
Qed.
Lemma watching_NoDup m u : map_ok m → NoDup (watching m u).
Proof.
  intros Hm. unfold watching. destruct (map_find u m) eqn:E; [by eapply map_ok_find|]. constructor.
Qed.
Lemma find_same_object ob l : List.find (same_object ob) l = None ↔ ob_object ob ∉ objects_of l.
Proof.
  rewrite find_None_iff. unfold objects_of, same_object. rewrite list_elem_of_fmap. setoid_rewrite bool_decide_eq_false. naive_solver.
Qed.
Lemma objects_of_nil l : objects_of l = [] ↔ l = [].
Proof. unfold objects_of. by destruct l. Qed.

(** * The tasks keep to it *)

Lemma wp_bind_eq {A B} (m : DM A) (f : A → DM B) Q s a s' : m s = Returned (a, s') → wp (f a) Q s' → wp (m ≫= f) Q s.
Proof. intros E H. apply wp_bind. unfold wp at 1. by rewrite E. Qed.
Lemma tell_all l s : for_each (λ ob, obs_emit (Changed ob)) l s = Returned (tt, s <| obs_trace ::= λ t, t ++ (Changed <$> l) |>).
Proof.
  revert s. induction l as [|x l IH]; intros s; [destruct s; cbn; by rewrite app_nil_r|].
  cbn. unfold mbind, ST_bind. cbn. unfold obs_emit at 1, modify at 1. rewrite IH. destruct s; cbn. by rewrite <- app_assoc.
Qed.

Definition recipients_ok (s : DataObs) : Prop :=
  NoDup (recipientMap_ s) ∧ ∀ o, o ∈ recipientMap_ s → ∃ u, Some o ∈ watching (obsmap_ s) u.

(** Who is told of a change, and who is answered. *)
Definition says (effs : list ObsEffect) (told : list (option positive)) (answers : list (positive * ObsErr)) : Prop :=
  omap told_of effs = told ∧ omap answer_of effs = answers.
Lemma says_nil : says [] [] [].
Proof. done. Qed.
#[local] Hint Resolve says_nil : core.

(** Only the death watches change, and nobody is told anything. *)
Definition rewatched (s s' : DataObs) : Prop :=
  ∃ effs r, s' = s <| obs_trace := obs_trace s ++ effs |> <| recipientMap_ := r |> ∧ says effs [] [] ∧ NoDup r.

Lemma AddObsDeathRecipient_spec ob s :
  NoDup (recipientMap_ s) →
  wp (AddObsDeathRecipient ob)
    (λ _ s', rewatched s s' ∧ ∀ o, o ∈ recipientMap_ s' → o ∈ recipientMap_ s ∨ ob_object ob = Some o) s.
Proof.
  intros Hnd. unfold AddObsDeathRecipient. destruct s as [h ih c m rm ts tr]. cbn in Hnd |- *.
  destruct (ob_object ob) as [o|] eqn:Eo; [apply wp_bind, wp_gets; cbn; destruct (bool_decide_reflect (o ∈ rm)) as [Hin|Hin]|].
  - split; [exists [], rm; by rewrite app_nil_r|]. cbn. tauto.
  - split; [exists [Watched o], (o :: rm); by repeat constructor|]. cbn. intros x [->|?]%elem_of_cons; auto.
  - split; [exists [], rm; by rewrite app_nil_r|]. cbn. tauto.
Qed.

Lemma RemoveObsDeathRecipient_spec ob s :
  NoDup (recipientMap_ s) →
  wp (RemoveObsDeathRecipient ob)
    (λ _ s', rewatched s s' ∧ ∀ o, o ∈ recipientMap_ s' → o ∈ recipientMap_ s ∧ ob_object ob ≠ Some o) s.
Proof.
  intros Hnd. unfold RemoveObsDeathRecipient. destruct s as [h ih c m rm ts tr]. cbn in Hnd |- *.
  destruct (ob_object ob) as [o|] eqn:Eo; [apply wp_bind, wp_gets; cbn; destruct (bool_decide_reflect (o ∈ rm)) as [Hin|Hin]|].
  - split; [exists [Unwatched o], (list_erase_val o rm); split_and!; [done..|]; rewrite list_erase_val_nodup by done; by apply NoDup_list_remove_all|].
    cbn -[list_erase_val]. rewrite list_erase_val_nodup by done. intros x [? ?]%elem_of_list_remove_all. split; [done|congruence].
  - split; [exists [], rm; by rewrite app_nil_r|]. cbn. intros x Hx. split; [done|]. congruence.
  - split; [exists [], rm; by rewrite app_nil_r|]. cbn. done.
Qed.

Definition ran (t : ObsTask) (answers : list (positive * ObsErr)) (s s' : DataObs) : Prop :=
  obs_handler s' = obs_handler s ∧ inner_handler s' = inner_handler s ∧ obs_tasks s' = obs_tasks s ∧
  taskCount_ s' = (if duplicate t (watching (obsmap_ s)) then taskCount_ s else wrap_i32 (taskCount_ s - 1)) ∧
  map_ok (obsmap_ s') ∧ recipients_ok s' ∧
  (∀ u, watching (obsmap_ s') u = task_watching t (watching (obsmap_ s)) u) ∧
  ∃ effs, obs_trace s' = obs_trace s ++ effs ∧ says effs (task_told t (watching (obsmap_ s))) answers.

Lemma HandleRegisterObserver_ran uri ob s :
  map_ok (obsmap_ s) → recipients_ok s → wp (HandleRegisterObserver uri ob) (λ _, ran (RegisterTask uri ob) [] s) s.
Proof.
  intros Hm [Hnd Hr]. unfold HandleRegisterObserver. apply wp_bind, wp_gets. rewrite same_object_existsb.
  change (objects_of (default [] (map_find uri (obsmap_ s)))) with (watching (obsmap_ s) uri).
  destruct (bool_decide_reflect (ob_object ob ∈ watching (obsmap_ s) uri)) as [Hin|Hin].
  - apply wp_ret. unfold ran. split_and!; try done.
    + cbn. by rewrite bool_decide_eq_true_2.
    + intros u. cbn. rewrite decide_False; [done|]. intros [-> H]. done.
    + exists []. by rewrite app_nil_r.
  - apply wp_bind. eapply wp_mono; [by apply AddObsDeathRecipient_spec|]. cbn beta.
    intros [] s1 ((effs & r & -> & Hno & Hnd1) & Hr1).
    set (m1 := if map_find uri (obsmap_ s) is Some _ then map_erase uri (obsmap_ s) else obsmap_ s).
    assert (map_find uri m1 = None) as Hnone.
    { unfold m1. destruct (map_find uri (obsmap_ s)) eqn:E; [by rewrite map_find_erase|done]. }
    assert (∀ u, u ≠ uri → watching m1 u = watching (obsmap_ s) u) as Hw.
    { intros u Hu. unfold m1. destruct (map_find uri (obsmap_ s)); [|done]. rewrite watching_erase. by rewrite decide_False. }
    assert (map_ok m1) as Hm1 by (unfold m1; destruct (map_find uri (obsmap_ s)); [by apply map_ok_erase|done]).
    set (l := default [] (map_find uri (obsmap_ s)) ++ [ob]).
    assert (objects_of l = watching (obsmap_ s) uri ++ [ob_object ob]) as Hl by (unfold objects_of, l; by rewrite fmap_app).
    assert (NoDup (objects_of l)) as Hndl.
    { rewrite Hl. apply NoDup_app. split; [by apply watching_NoDup|]. split; [|apply NoDup_singleton].
      intros x Hx ->%list_elem_of_singleton. done. }
    eapply (wp_bind_eq _ _ _ _ tt (s <| obs_trace := obs_trace s ++ effs |> <| recipientMap_ := r |> <| obsmap_ := m1 |>)).
    { unfold m1. destruct (map_find uri (obsmap_ s)); [done|]. by destruct s. }
    apply wp_bind, wp_modify, wp_bind, wp_modify, wp_ret. unfold ran. split_and!; try done.
    + cbn. by rewrite bool_decide_eq_false_2.
    + cbn. apply map_ok_emplace; [done| |done]. unfold l. by destruct (default [] _).
    + split; [done|]. intros o Ho. change (∃ u, Some o ∈ watching (map_emplace uri l m1) u). destruct (Hr1 o Ho) as [Ho1|Ho1].
      * destruct (Hr o Ho1) as [u Hu]. exists u. rewrite watching_put by done. destruct (decide (u = uri)) as [->|Hne].
        -- rewrite Hl. apply elem_of_app. by left.
        -- by rewrite Hw.
      * exists uri. rewrite watching_put, decide_True by done. rewrite Hl, Ho1. apply elem_of_app. right. by left.
    + intros u. change (watching (map_emplace uri l m1) u = task_watching (RegisterTask uri ob) (watching (obsmap_ s)) u).
      rewrite watching_put by done. cbn [task_watching]. destruct (decide (u = uri)) as [->|Hne].
      * by rewrite decide_True, Hl.
      * rewrite decide_False by tauto. by apply Hw.
    + exists effs. done.
Qed.

Lemma HandleNotifyChange_ran uri s :
  map_ok (obsmap_ s) → recipients_ok s → wp (HandleNotifyChange uri) (λ _, ran (NotifyTask uri) [] s) s.
Proof.
  intros Hm Hr. unfold HandleNotifyChange. apply wp_bind, wp_gets.
  destruct (map_find uri (obsmap_ s)) as [l|] eqn:E.
  - eapply wp_bind_eq; [apply tell_all|]. apply wp_bind, wp_modify, wp_ret. unfold ran. split_and!; try done.
    exists (Changed <$> l). split; [done|]. cbn. unfold watching. rewrite E. cbn. clear. unfold says. induction l as [|x l [IH1 IH2]]; [done|]. cbn. rewrite IH1, IH2. done.
  - apply wp_bind, wp_modify, wp_ret. unfold ran. split_and!; try done.
    exists []. rewrite app_nil_r. split; [done|]. cbn. unfold watching. by rewrite E.
Qed.

Lemma HandleUnregisterObserver_ran uri ob caller s :
  map_ok (obsmap_ s) → recipients_ok s → wp (HandleUnregisterObserver uri ob) (λ _, ran (UnregisterTask uri ob caller) [] s) s.
Proof.
  intros Hm Hr. unfold HandleUnregisterObserver. apply wp_bind, wp_gets.
  assert (ob_object ob ∉ watching (obsmap_ s) uri → wp (_ ← AtomicSubTaskCount; mret NO_OBS_FOR_URI) (λ _, ran (UnregisterTask uri ob caller) [] s) s) as Hskip.
  { intros Hn. apply wp_bind, wp_modify, wp_ret. unfold ran. split_and!; try done.
    - cbn. intros u. case_decide; [|done]. subst. by rewrite list_remove_all_not_in.
    - exists []. by rewrite app_nil_r. }
  destruct (map_find uri (obsmap_ s)) as [l|] eqn:E; [|apply Hskip; unfold watching; rewrite E; by apply not_elem_of_nil].
  destruct (List.find (same_object ob) l) as [x|] eqn:Ex; [|apply Hskip; unfold watching; rewrite E; by apply find_same_object].
  apply find_Some_elem in Ex as [Hx Hobj%bool_decide_eq_true].
  destruct (map_ok_find _ _ _ Hm E) as [_ Hndl]. set (l1 := list_remove_all x l).
  set (m1 := match l1 with [] => map_erase uri (obsmap_ s) | _ => map_emplace uri l1 (map_erase uri (obsmap_ s)) end).
  assert (objects_of l1 = list_remove_all (ob_object ob) (watching (obsmap_ s) uri)) as Hl1.
  { unfold l1. rewrite objects_of_remove by done. unfold watching. by rewrite E, Hobj. }
  assert (∀ u, watching m1 u = task_watching (UnregisterTask uri ob caller) (watching (obsmap_ s)) u) as Hw.
  { intros u. cbn. unfold m1. destruct l1 as [|y l2] eqn:El1.
    - rewrite watching_erase. case_decide; [subst; by rewrite <- Hl1|done].
    - rewrite watching_put by apply map_find_erase. case_decide; [subst; by rewrite <- Hl1|]. rewrite watching_erase.
      by rewrite decide_False. }
  assert (map_ok m1) as Hm1.
  { unfold m1. assert (NoDup (objects_of l1)) as Hnd1 by (rewrite Hl1; by apply NoDup_list_remove_all, watching_NoDup).
    destruct l1 eqn:El1; [by apply map_ok_erase|]. apply map_ok_emplace; [by apply map_ok_erase|done|done]. }
  apply wp_bind, wp_modify.
  eapply (wp_bind_eq _ _ _ _ tt (s <| obsmap_ := m1 |>)).
  { unfold m1. fold l1. destruct s, l1; done. }
  apply wp_bind, wp_gets.
  set (there := existsb (λ e : string * list Observer, bool_decide (x ∈ e.2)) (obsmap_ (s <| obsmap_ := m1 |>))).
  assert (there = true → ∃ u, ob_object x ∈ watching m1 u) as Hthere.
  { intros (e & He & Hxe%bool_decide_eq_true)%existsb_exists. exists e.1. unfold watching. destruct e as [u obs].
    rewrite (NoDup_find u obs m1); [by apply list_elem_of_fmap_2|by apply Hm1|by apply list_elem_of_In]. }
  assert (∀ o, o ∈ recipientMap_ s → (ob_object x = Some o → there = true) → ∃ u, Some o ∈ watching m1 u) as Hkeep.
  { intros o Ho Hto. destruct Hr as [_ Hr]. destruct (Hr o Ho) as [u Hu].
    destruct (decide (ob_object x = Some o)) as [Eo|Hne]; [rewrite <- Eo; by apply Hthere, Hto|].
    exists u. rewrite Hw. cbn. case_decide; [|done]. subst u. apply elem_of_list_remove_all. split; [congruence|done]. }
  apply wp_bind. eapply (wp_mono _ (λ _ s', rewatched (s <| obsmap_ := m1 |>) s' ∧ ∀ o, o ∈ recipientMap_ s' → ∃ u, Some o ∈ watching m1 u)).
  - destruct there; cbn [negb].
    + apply wp_ret. split; [exists [], (recipientMap_ s); split_and!; [destruct s; cbn; by rewrite app_nil_r|done|apply Hr]|].
      intros o Ho. by apply Hkeep.
    + eapply wp_mono; [apply RemoveObsDeathRecipient_spec, Hr|]. cbn beta. intros [] s2 [Hs2 Ho2]. split; [done|].
      intros o Ho. destruct (Ho2 o Ho) as [Ho1 Hne]. by apply Hkeep.
  - cbn beta. intros [] s2 [(effs & r & -> & Hno & Hnd2) Hr2]. apply wp_bind, wp_modify, wp_ret. unfold ran. split_and!; try done.
    exists effs. done.
Qed.

(** * Every event keeps the service in shape *)

Definition obs_ok (s : DataObs) : Prop :=
  inner_handler s = false ∧ map_ok (obsmap_ s) ∧ recipients_ok s ∧ (∀ o, DiedTask o ∉ obs_tasks s) ∧
  Z.of_nat (length (obs_tasks s)) ≤ taskCount_ s ≤ taskCount_max ∧ (taskCount_ s ≠ 0 → obs_handler s = true).

(** The count of the tasks that is owed to no task. *)
Definition leaked (s : DataObs) : Z := taskCount_ s - Z.of_nat (length (obs_tasks s)).

(** The state after a request. *)
Definition answered (a : positive * ObsErr) : ObsEffect := Answered a.1 a.2.
Definition requested (r : option ObsTask * positive * bool) (s : DataObs) : DataObs :=
  let '(t, answers) := request_result (obs_handler s) (taskCount_ s) (watching (obsmap_ s)) r in
  s <| taskCount_ ::= λ n, if t is Some _ then n + 1 else n |> <| obs_tasks ::= λ l, l ++ option_list t |>
    <| obs_trace ::= λ l, l ++ (answered <$> answers) |>.

(** A request posts its task or is refused; the handler runs the oldest task. *)
Definition obs_next (e : ObsEvent) (s s' : DataObs) : Prop :=
  match e with
  | ObsStart made => s' = s <| obs_handler := obs_handler s || made |>
  | ObsRun =>
      match obs_tasks s with
      | [] => s' = s
      | t :: l =>
          obs_handler s' = obs_handler s ∧ obs_tasks s' = l ∧
          (∀ u, watching (obsmap_ s') u = task_watching t (watching (obsmap_ s)) u) ∧
          (∃ effs, obs_trace s' = obs_trace s ++ effs ∧ says effs (task_told t (watching (obsmap_ s))) (task_answers t)) ∧
          leaked s' = leaked s + (if duplicate t (watching (obsmap_ s)) then 1 else 0)
      end
  | _ => if request_of e is Some r then s' = requested r s else s' = s
  end.

Lemma new_dataobs_ok : obs_ok new_dataobs.
Proof.
  unfold obs_ok. split_and!; try done; [split; [constructor|by intros ? ?%not_elem_of_nil]..|by intros ? ?%not_elem_of_nil].
Qed.

Lemma requested_leaked r s : leaked (requested r s) = leaked s.
Proof.
  unfold requested. destruct (request_result _ _ _ r) as [[t|] ans]; destruct s; unfold leaked; cbn; [rewrite length_app; cbn; lia|].
  by rewrite app_nil_r.
Qed.
Lemma requested_handler r s : obs_handler (requested r s) = obs_handler s.
Proof. unfold requested. by destruct (request_result _ _ _ r) as [[t|] ans]. Qed.
Lemma obs_next_grows e s s' : obs_next e s s' → leaked s ≤ leaked s' ∧ (obs_handler s = true → obs_handler s' = true).
Proof.
  destruct e; cbn; try (intros ->; rewrite ?requested_leaked, ?requested_handler; done).
  - intros ->. split; [done|]. by intros ->.
  - destruct (obs_tasks s) as [|t l]; [by intros ->|]. intros (-> & _ & _ & _ & ->). split; [destruct (duplicate _ _); lia|done].
Qed.

Lemma requested_ok e r s : request_of e = Some r → obs_ok s → obs_ok (requested r s).
Proof.
  intros He (Hi & Hm & Hr & Hd & Hn & Hh). unfold requested. destruct r as [[[t|] caller] posted].
  2: { destruct s. unfold obs_ok. cbn in *. rewrite app_nil_r. split_and!; (done || apply Hn). }
  assert (∀ o, t ≠ DiedTask o) as Ht by (intros o ->; destruct e as [|? [?|]|? [?|]| | |]; cbn in He; simplify_eq).
  assert (∀ ans, obs_ok (s <| taskCount_ ::= λ n, n |> <| obs_tasks ::= λ l, l ++ [] |> <| obs_trace ::= λ l, l ++ ans |>)) as Hsame.
  { intros ans. destruct s. unfold obs_ok. cbn in *. rewrite app_nil_r. split_and!; (done || apply Hn). }
  unfold request_result. destruct (obs_handler s) eqn:Eh; cbn [negb]; [|apply Hsame].
  destruct (50 <=? taskCount_ s) eqn:En; [apply Hsame|]. apply Z.leb_gt in En.
  destruct (no_room _ _); [apply Hsame|]. destruct posted; cbn [negb]; [|apply Hsame].
  destruct s as [h ih c m rm ts tr]. unfold obs_ok, taskCount_max in *. cbn in *. split_and!; try done.
  - intros o [Ho|Ho%list_elem_of_singleton]%elem_of_app; [by eapply Hd|]. by apply (Ht o).
  - rewrite length_app. cbn. lia.
  - lia.
Qed.

Lemma full_spec uri s : CheckRegisteFull uri s = Returned ((50 <=? length (watching (obsmap_ s) uri))%nat, s).
Proof.
  unfold CheckRegisteFull, GetObsListFromMap, gets, watching, objects_of, mbind, ST_bind, mret, ST_ret. rewrite length_fmap.
  by destruct (map_find _ _).
Qed.
Lemma request_spec e r s : obs_ok s → request_of e = Some r → obs_event e s = Returned (tt, requested r s).
Proof.
  intros (_ & _ & _ & _ & Hn & _) He. unfold taskCount_max in Hn.
  assert (wrap_i32 (wrap_i32 (taskCount_ s + 1) - 1) = taskCount_ s ∧ (taskCount_ s < 50 → wrap_i32 (taskCount_ s + 1) = taskCount_ s + 1))
    as [Hback Hinc].
  { rewrite (wrap_i32_id (taskCount_ s + 1)), wrap_i32_id by (unfold INT_MAX; lia). lia. }
  destruct e as [|uri [ob|] caller posted|uri [ob|] caller posted|uri caller posted| |]; try done; injection He as <-;
    cbn [obs_event]; unfold requested, request_result, RegisterObserver, UnregisterObserver, NotifyChange, CheckNeedLimmit, AtomicAddTaskCount,
    AtomicSubTaskCount, post, obs_emit, no_room, taskCount_max, mbind, ST_bind, gets, modify, mret, ST_ret; cbn [fmap option_fmap option_map].
  all: try (destruct s; cbn; by rewrite app_nil_r).
  all: destruct (obs_handler s) eqn:Eh; cbn [negb]; [|destruct s; cbn in *; by rewrite Eh, app_nil_r].
  all: destruct (50 <=? taskCount_ s) eqn:Ec; [destruct s; cbn in *; by rewrite Eh, app_nil_r|]; apply Z.leb_gt, Hinc in Ec.
  - rewrite full_spec. destruct (50 <=? _)%nat; [destruct s; cbn in *; by rewrite Eh, app_nil_r|].
    destruct posted, s; cbn in *; [by rewrite Ec|by rewrite Hback, app_nil_r].
  - destruct posted, s; cbn in *; [by rewrite Ec, app_nil_r|by rewrite Hback, app_nil_r].
  - destruct posted, s; cbn in *; [by rewrite Ec|by rewrite Hback, app_nil_r].
Qed.

Lemma run_next_spec s : obs_ok s → wp (run_next) (λ _ s', obs_ok s' ∧ obs_next ObsRun s s') s.
Proof.
  intros Hok. pose proof Hok as (Hi & Hm & Hr & Hd & Hn & Hh). unfold run_next. apply wp_bind, wp_gets. unfold obs_next.
  destruct (obs_tasks s) as [|t l] eqn:Et; [done|]. apply wp_bind, wp_modify.
  set (s1 := s <| obs_tasks := l |>).
  assert (wp (run_task t) (λ _, ran t (task_answers t) s1) s1) as Hran.
  { destruct t as [uri ob|uri ob caller|uri|o]; [..|exfalso; apply (Hd o); by left]; cbn [run_task]; apply wp_bind.
    - eapply wp_mono; [by apply HandleRegisterObserver_ran|]. intros r s2 H. exact H.
    - eapply wp_mono; [by apply (HandleUnregisterObserver_ran uri ob caller)|].
      intros r s2 (H1 & H2 & H3 & H4 & H5 & H6 & H7 & effs & H8 & H9 & H10). apply wp_modify. unfold ran. split_and!; try done.
      exists (effs ++ [Answered caller NO_ERROR]). unfold says. rewrite !omap_app, H9, H10. split; [|done].
      destruct s2; cbn in *. by rewrite H8, <- app_assoc.
    - eapply wp_mono; [by apply HandleNotifyChange_ran|]. intros r s2 H. exact H. }
  eapply wp_mono; [exact Hran|]. cbn beta. intros [] s2 (Hh2 & Hi2 & Ht2 & Hc2 & Hm2 & Hr2 & Hw2 & Htr2).
  change (obs_tasks s1) with l in Ht2. change (obsmap_ s1) with (obsmap_ s) in *. change (taskCount_ s1) with (taskCount_ s) in Hc2.
  change (obs_handler s1) with (obs_handler s) in Hh2. change (inner_handler s1) with (inner_handler s) in Hi2.
  cbn in Hn. unfold taskCount_max in *. rewrite wrap_i32_id in Hc2 by (unfold INT_MAX; lia).
  split; [split_and!|split_and!]; try done.
  - by rewrite Hi2.
  - rewrite Ht2. intros o Ho. apply (Hd o). by right.
  - rewrite Ht2, Hc2. destruct (duplicate _ _); lia.
  - rewrite Hc2. unfold taskCount_max. destruct (duplicate _ _); lia.
  - intros _. rewrite Hh2. apply Hh. lia.
  - unfold leaked. rewrite Hc2, Ht2, Et. cbn [length]. destruct (duplicate _ _); lia.
Qed.

Lemma obs_event_spec e s : obs_ok s → wp (obs_event e) (λ _ s', obs_ok s' ∧ obs_next e s s') s.
Proof.
  intros Hok. pose proof Hok as (Hi & Hm & Hr & Hd & Hn & Hh). destruct (request_of e) as [r|] eqn:Er.
  { unfold wp. rewrite (request_spec e r s Hok Er). split; [by eapply requested_ok|]. destruct e; try done; unfold obs_next; by rewrite Er. }
  destruct e as [made| | | |o|]; try done; cbn [obs_event].
  - unfold OnStart. apply wp_bind, wp_gets. destruct (obs_handler s) eqn:Eh.
    + apply wp_ret. split; [done|]. cbn. rewrite Eh. destruct s; cbn in *. by rewrite Eh.
    + destruct made; cbn [negb].
      * apply wp_modify. split; [unfold obs_ok; split_and!; done || apply Hn|]. cbn. by rewrite Eh.
      * apply wp_ret. split; [done|]. cbn. rewrite Eh. destruct s; cbn in *. by rewrite Eh.
  - unfold OnCallBackDied. apply wp_bind, wp_gets. rewrite Hi. by apply wp_ret.
  - by apply run_next_spec.
Qed.

Lemma obs_steps_ok s s' : obs_ok s → rtc obs_step s s' → leaked s ≤ leaked s' ∧ (obs_handler s = true → obs_handler s' = true) ∧ obs_ok s'.
Proof.
  intros Hok H. induction H as [s|s1 s2 s3 Hst _ IH]; [done|]. destruct Hst as [e s1 s2 _ He].
  destruct (wp_run _ _ _ (obs_event_spec e s1 Hok)) as ([] & s2' & E & Hok2 & Hn). rewrite He in E. simplify_eq.
  destruct (IH Hok2) as (Hl & Hh & Hok3). apply obs_next_grows in Hn as [Hl1 Hh1]. split_and!; [lia|auto|done].
Qed.
Lemma observers_ok s : obs_reachable s → obs_ok s.
Proof. intros H. eapply obs_steps_ok; [apply new_dataobs_ok|exact H]. Qed.
End service.

(** C19: the data observers refine the map from uris to the lists of the objects that
    watch them, and the queue of the requests for it. In every state the service reaches
    every event returns. A request posts its task, changes no list, and is answered at
    once with NO_ERROR, or not yet when it is an unregistration, exactly when it names an
    observer, the service has started, fewer than 50 tasks are counted, the uri of a
    registration has fewer than 50 watchers and the handler takes the task; else it
    changes nothing and its caller is told the first of these that fails. The handler
    runs the tasks in the order they were posted: a registration appends the object
    unless it watches already; an unregistration takes it away, and then the caller that
    waited is answered; a change is told exactly to the watchers of the uri, each once
    and in the order in which they came. Only the death of objects that watch something
    is watched. *)
Theorem observers_refine (iface_cast : positive → Observer) s e :
  obs_reachable iface_cast s →
  (∀ u, NoDup (watching (obsmap_ s) u)) ∧ (∀ o, o ∈ recipientMap_ s → ∃ u, Some o ∈ watching (obsmap_ s) u) ∧
  ∃ s', obs_event iface_cast e s = Returned (tt, s') ∧
    match e with
    | ObsStart made => s' = s <| obs_handler := obs_handler s || made |>
    | ObsDied _ => s' = s
    | ObsRun =>
        match obs_tasks s with
        | [] => s' = s
        | t :: l =>
            obs_tasks s' = l ∧ (∀ u, watching (obsmap_ s') u = task_watching t (watching (obsmap_ s)) u) ∧
            ∃ effs, obs_trace s' = obs_trace s ++ effs ∧ says effs (task_told t (watching (obsmap_ s))) (task_answers t)
        end
    | ObsRegister _ _ _ _ | ObsUnregister _ _ _ _ | ObsNotify _ _ _ =>
        ∃ r, request_of e = Some r ∧ s' = requested r s
    end.
Proof.
  intros Hok%observers_ok. pose proof Hok as (_ & Hm & Hr & _). split; [intros u; by apply watching_NoDup|]. split; [apply Hr|].
  destruct (wp_run _ _ _ (obs_event_spec iface_cast e s Hok)) as ([] & s' & E & _ & Hn). exists s'. split; [done|].
  unfold obs_next in Hn. destruct e; [done|by eexists..|done|]. destruct (obs_tasks s) as [|t l]; tauto.
Qed.

Lemma observers_refine_witness :
  let s := after_events (obs_event (λ o, mkObserver o (Some o))) (λ _ _, True) [ObsStart true] new_dataobs in
  ∃ s', obs_event (λ o, mkObserver o (Some o)) (ObsUnregister "x" (Some (mkObserver 1 (Some 2%positive))) 7 true) s = Returned (tt, s') ∧
    obs_tasks s' = [UnregisterTask "x" (mkObserver 1 (Some 2%positive)) 7] ∧ obs_trace s' = [].
Proof.
  intros s. destruct (observers_refine (λ o, mkObserver o (Some o)) s (ObsUnregister "x" (Some (mkObserver 1 (Some 2%positive))) 7 true))
    as (_ & _ & s' & E & Hr); [apply after_events_steps; vm_compute; reflexivity|].
  destruct Hr as (r & Er & ->). eexists. split; [exact E|]. injection Er as <-. vm_compute. split; reflexivity.
Defined.

(** C23: a registration of an object that watches the uri already is never counted off.
    In every state the count of the tasks exceeds the number of the tasks that wait by at
    least 0 and at most 50, grows by one exactly when such a registration is run, and
    never shrinks; after 50 of them every request is refused, for ever. *)
Theorem duplicates_block (iface_cast : positive → Observer) s s' :
  obs_reachable iface_cast s → rtc (obs_step iface_cast) s s' →
  0 ≤ leaked s ≤ leaked s' ∧ leaked s' ≤ taskCount_max ∧
  (∀ t l s1, obs_tasks s = t :: l → obs_event iface_cast ObsRun s = Returned (tt, s1) →
     leaked s1 = leaked s + (if duplicate t (watching (obsmap_ s)) then 1 else 0)) ∧
  (leaked s = taskCount_max → ∀ uri ob caller posted,
     RegisterObserver uri (Some ob) posted s' = Returned (DATAOBS_SERVICE_TASK_LIMMIT, s') ∧
     UnregisterObserver uri (Some ob) caller posted s' = Returned (Some DATAOBS_SERVICE_TASK_LIMMIT, s') ∧
     NotifyChange uri posted s' = Returned (DATAOBS_SERVICE_TASK_LIMMIT, s')).
Proof.
  intros Hok%observers_ok Hs. destruct (obs_steps_ok _ _ _ Hok Hs) as (Hl & _ & Hok').
  pose proof Hok as (_ & _ & _ & _ & Hn & _). pose proof Hok' as (_ & _ & _ & _ & Hn' & Hh'). unfold leaked in *. split_and!; [lia..| |].
  - intros t l s1 Et Hrun. destruct (wp_run _ _ _ (obs_event_spec iface_cast ObsRun s Hok)) as ([] & s2 & E & _ & Hx).
    rewrite Hrun in E. simplify_eq. cbn in Hx. rewrite Et in *. unfold leaked in Hx. rewrite Et in Hx. apply Hx.
  - intros Hfull uri ob caller posted. assert (taskCount_ s' = 50) as Hc by (unfold taskCount_max in *; lia).
    unfold RegisterObserver, UnregisterObserver, NotifyChange, CheckNeedLimmit, gets, mbind, ST_bind. rewrite Hh' by lia. cbn. by rewrite Hc.
Qed.

(** One object registers 51 times. *)
Definition registrations (n : nat) : list ObsEvent :=
  ObsStart true :: concat (replicate n [ObsRegister "x" (Some (mkObserver 1 (Some 2%positive))) 7 true; ObsRun]).

Lemma duplicates_block_witness :
  let s := after_events (obs_event (λ o, mkObserver o (Some o))) (λ _ _, True) (registrations 51) new_dataobs in
  leaked s = 50 ∧ NotifyChange "x" true s = Returned (DATAOBS_SERVICE_TASK_LIMMIT, s).
Proof.
  intros s. assert (leaked s = 50) as Hl by (vm_compute; reflexivity). split; [exact Hl|].
  apply (duplicates_block (λ o, mkObserver o (Some o)) s s); [apply after_events_steps; vm_compute; reflexivity|constructor|exact Hl|..].
  - exact (mkObserver 1 None).
  - exact 7%positive.
Defined.
