(* ===== verification/AppRecords.v ===== *)
(** The records of the application manager: [AbilityRunningRecord],
    [ModuleRunningRecord] and [AppRunningRecord]
    (services/appmgr/src/ability_running_record.cpp, module_running_record.cpp,
    app_running_record.cpp, app_lifecycle_deal.cpp).

    A running application has a record per process, which has the modules that run
    in it, which have their abilities. All are objects on the heap of the state
    [Apps]; maps are in the order of their keys ([StdMap]), a token being its
    address. [AppLifeCycleDeal], which holds the client of the process, belongs to
    one process: [a_deal] says whether it has been made and whether it has a client,
    [m_deal] whether a module has been given the one of its process.

    Functions that two of the classes have in common carry the prefix [Module] for
    modules. What is sent to a process, to the callbacks of the ability manager and
    to observers goes to the trace. *)

From S2P Require Import Prelude CppString Want AbilityRecord StdMap.
From Stdlib Require Import Ascii.

#[local] Open Scope stdpp_scope.
#[local] Open Scope Z_scope.

#[export] Instance string_less : StdLess string := str_ltb.

#[global] Abbreviation Token := positive (only parsing).
#[global] Abbreviation Client := positive (only parsing).    (* an IAppScheduler *)
#[global] Abbreviation AppRef := positive (only parsing).
#[global] Abbreviation ModRef := positive (only parsing).
#[global] Abbreviation AbRef := positive (only parsing).
#[global] Abbreviation RenderRef := positive (only parsing).
#[global] Abbreviation CallbackRef := positive (only parsing).

(** * Data *)

Inductive ApplicationState :=
  | APP_STATE_CREATE | APP_STATE_READY | APP_STATE_FOREGROUND | APP_STATE_BACKGROUND | APP_STATE_TERMINATED.
#[export] Instance ApplicationState_eq_dec : EqDecision ApplicationState.
Proof. solve_decision. Defined.

Inductive AbilityState :=
  | ABILITY_STATE_CREATE | ABILITY_STATE_READY | ABILITY_STATE_FOREGROUND | ABILITY_STATE_BACKGROUND
  | ABILITY_STATE_TERMINATED | ABILITY_STATE_CONNECTED | ABILITY_STATE_DISCONNECTED.
#[export] Instance AppAbilityState_eq_dec : EqDecision AbilityState.
Proof. solve_decision. Defined.

Inductive ModuleRecordState := UNKNOWN_STATE | INITIALIZED_STATE | RUNNING_STATE.
#[export] Instance ModuleRecordState_eq_dec : EqDecision ModuleRecordState.
Proof. solve_decision. Defined.

Record ApplicationInfo := mkApplication {
  api_name : string;
  api_bundleName : string;
  api_uid : Z;
  api_process : string;
  api_singleton : bool;
  api_accessTokenId : Z;
}.

Record AbilityInfo := mkAbility {
  abi_name : string;
  abi_moduleName : string;
  abi_process : string;
  abi_applicationName : string;
  abi_type : AbilityType;
  abi_launchMode : LaunchMode;
  abi_isBackup : bool;                 (* extensionAbilityType *)
  abi_applicationInfo : ApplicationInfo;
}.

Record HapModuleInfo := mkHap {
  hap_moduleName : string;
  hap_process : string;
  hap_isStageBasedModel : bool;
}.

Record BundleInfo := mkBundle {
  bi_name : string;
  bi_uid : Z;
  bi_appId : string;
  bi_jointUserId : string;
  bi_applicationInfo : ApplicationInfo;
  bi_hapModuleInfos : list HapModuleInfo;
}.

Record AbilityRunningRecord := mkAbilityRun {
  b_info : AbilityInfo;
  b_token : Token;
  b_state : AbilityState;
  b_eventId : Z;
  b_preToken : option Token;
  b_ownerUserId : Z;
  b_isSingleUser : bool;
  b_isTerminating : bool;
  b_visibility : Z;
  b_perceptibility : Z;
  b_connectionState : Z;
}.

Record ModuleRunningRecord := mkModule {
  m_app : ApplicationInfo;
  m_handler : bool;
  m_info : HapModuleInfo;
  m_state : ModuleRecordState;
  m_inner : bool;
  m_deal : bool;
  m_abilities : list (Token * AbRef);
  m_terminate : list (Token * AbRef);
}.

Record AppRunningRecord := mkAppRecord {
  a_info : ApplicationInfo;
  a_recordId : Z;
  a_processName : string;
  a_signCode : string;
  a_jointUserId : string;
  a_state : ApplicationState;
  a_pid : Z;                            (* of the PriorityObject *)
  a_uid : Z;
  a_eventId : Z;
  a_foregrounding : list Token;
  a_inner : bool;
  a_handler : bool;
  a_deal : option (option Client);
  a_appInfos : list (string * ApplicationInfo);
  a_hapModules : list (string * list ModRef);
  a_isKeepAlive : bool;
  a_isNewMission : bool;
  a_restartCount : Z;
  a_isSpecified : bool;
  a_want : Want;
  a_moduleName : string;
  a_isDebug : bool;
  a_isTerminating : bool;
  a_isKilling : bool;
  a_render : option RenderRef;
}.

Record RenderRecord := mkRender {
  rd_pid : Z;
  rd_hostPid : Z;
  rd_renderParam : string;
  rd_ipcFd : Z;
  rd_sharedFd : Z;
  rd_host : AppRef;
  rd_scheduler : option Client;
}.

Record AppTaskInfo := mkTaskInfo { ti_name : string; ti_processName : string; ti_pid : Z; ti_recordId : Z }.

(** What the callbacks are told of a process. *)
Record AppProcessData := mkProcessData {
  pd_appDatas : list (string * Z);
  pd_processName : string;
  pd_pid : Z;
  pd_appState : ApplicationState;
}.

Inductive AppMsg :=
  | ScheduleLaunchApplication (app : option ApplicationInfo) (processName : string) (pid recordId uid : Z)
  | ScheduleAbilityStage (h : HapModuleInfo)
  | ScheduleLaunchAbility (i : AbilityInfo) (token : Token)
  | ScheduleTerminateApplication
  | ScheduleForegroundApplication
  | ScheduleBackgroundApplication
  | ScheduleCleanAbility (token : Token)
  | ScheduleProcessSecurityExit
  | ScheduleAcceptWant (w : Want) (moduleName : string).

Inductive AppEffect :=
  | ToApp (c : Client) (m : AppMsg)
  | AppAddDeathRecipient (c : Client)
  | AppRemoveDeathRecipient (c : Client)
  | OnAppStateChangedTo (cb : CallbackRef) (d : AppProcessData)
  | OnAbilityRequestDoneTo (cb : CallbackRef) (token : Token) (state : AbilityState)
  | ObserveAbility (token : Token) (state : Z) (isAbility : bool)
  | ObserveApp (recordId : Z) (state : ApplicationState)
  | ObserveProcessCreated (recordId : Z)
  | ObserveProcessDied (recordId : Z)
  | OnAcceptWantResponseTo (w : Want) (flag : string)
  | OnTimeoutResponseTo (w : Want)
  | SpawnProcess (procName bundleName : string) (uid flags : Z)
  | SpawnRender (renderParam : string)
  | KillSignal (pid : Z)
  | RemoveUriPermission (accessTokenId : Z)
  | NotifyBrowserFd (ipcFd sharedFd : Z)
  | PublishAppStatus (bundleName event : string).

Definition TERMINATE_ABILITY_TIMEOUT_MSG : Z := 0.
Definition TERMINATE_APPLICATION_TIMEOUT_MSG : Z := 1.
Definition ADD_ABILITY_STAGE_INFO_TIMEOUT_MSG : Z := 2.
Definition START_SPECIFIED_ABILITY_TIMEOUT_MSG : Z := 3.
Definition START_PROCESS_SPECIFIED_ABILITY_TIMEOUT_MSG : Z := 4.
Definition RESTART_RESIDENT_PROCESS_MAX_TIMES : Z := 15.
Definition ABILITY_OWNER_USERID : string := "AbilityMS_Owner_UserId".

(** The heap, [AppRunningManager], [AppProcessManager], the events of
    [AMSEventHandler] that wait for their time, and its posted tasks, which restart
    a process. *)
Record Apps := mkApps {
  am_apps : gmap AppRef AppRunningRecord;
  am_modules : gmap ModRef ModuleRunningRecord;
  am_abilities : gmap AbRef AbilityRunningRecord;
  am_renders : gmap RenderRef RenderRecord;
  am_next : positive;
  am_created : Z;                           (* calls of AppRecordId::Create *)
  appRunningRecordMap_ : list (Z * AppRef);
  recentAppList_ : list AppTaskInfo;
  appEventId_ : Z;
  am_events : list (Z * Z);
  am_restarts : list AppRef;
  appStateCallbacks_ : list CallbackRef;
  startSpecifiedAbilityResponse_ : bool;
  am_trace : list AppEffect;
}.

#[export] Instance AbilityRunningRecord_eta : Eta AbilityRunningRecord := λ b,
  mkAbilityRun (b_info b) (b_token b) (b_state b) (b_eventId b) (b_preToken b) (b_ownerUserId b) (b_isSingleUser b)
    (b_isTerminating b) (b_visibility b) (b_perceptibility b) (b_connectionState b).
#[export] Instance ModuleRunningRecord_eta : Eta ModuleRunningRecord := λ m,
  mkModule (m_app m) (m_handler m) (m_info m) (m_state m) (m_inner m) (m_deal m) (m_abilities m) (m_terminate m).
#[export] Instance AppRunningRecord_eta : Eta AppRunningRecord := λ a,
  mkAppRecord (a_info a) (a_recordId a) (a_processName a) (a_signCode a) (a_jointUserId a) (a_state a) (a_pid a)
    (a_uid a) (a_eventId a) (a_foregrounding a) (a_inner a) (a_handler a) (a_deal a) (a_appInfos a) (a_hapModules a)
    (a_isKeepAlive a) (a_isNewMission a) (a_restartCount a) (a_isSpecified a) (a_want a) (a_moduleName a)
    (a_isDebug a) (a_isTerminating a) (a_isKilling a) (a_render a).
#[export] Instance RenderRecord_eta : Eta RenderRecord := λ r,
  mkRender (rd_pid r) (rd_hostPid r) (rd_renderParam r) (rd_ipcFd r) (rd_sharedFd r) (rd_host r) (rd_scheduler r).
#[export] Instance Apps_eta : Eta Apps := λ s,
  mkApps (am_apps s) (am_modules s) (am_abilities s) (am_renders s) (am_next s) (am_created s) (appRunningRecordMap_ s)
    (recentAppList_ s) (appEventId_ s) (am_events s) (am_restarts s) (appStateCallbacks_ s)
    (startSpecifiedAbilityResponse_ s) (am_trace s).

#[local] Abbreviation M A := (ST Apps A).

Definition app_emit (e : AppEffect) : M unit := modify (λ s, s <| am_trace ::= λ t, t ++ [e] |>).
Definition app_ref : M positive := p ← gets am_next; _ ← modify (λ s, s <| am_next ::= Pos.succ |>); mret p.
Definition the_app (a : AppRef) : M AppRunningRecord := x ← gets (λ s, am_apps s !! a); deref x.
Definition the_module (m : ModRef) : M ModuleRunningRecord := x ← gets (λ s, am_modules s !! m); deref x.
Definition the_ability (b : AbRef) : M AbilityRunningRecord := x ← gets (λ s, am_abilities s !! b); deref x.
Definition upd_app (a : AppRef) (f : AppRunningRecord → AppRunningRecord) : M unit :=
  modify (λ s, s <| am_apps ::= alter f a |>).
Definition upd_module (m : ModRef) (f : ModuleRunningRecord → ModuleRunningRecord) : M unit :=
  modify (λ s, s <| am_modules ::= alter f m |>).
Definition upd_run (b : AbRef) (f : AbilityRunningRecord → AbilityRunningRecord) : M unit :=
  modify (λ s, s <| am_abilities ::= alter f b |>).

(** [AppLifeCycleDeal]: what it is asked to schedule goes to its client, if any. *)
Definition to_client (a : AppRunningRecord) (m : AppMsg) : M unit :=
  match a_deal a with
  | Some (Some c) => app_emit (ToApp c m)
  | _ => mret tt
  end.
(** The same through a pointer that is not looked at first. *)
Definition deal_schedule (a : AppRunningRecord) (m : AppMsg) : M unit := _ ← deref (a_deal a); to_client a m.

(** [EventHandler]. *)
Definition post_event (msg param : Z) : M unit := modify (λ s, s <| am_events ::= λ l, l ++ [(msg, param)] |>).
Definition HasInnerEvent (msg : Z) : M bool := gets (λ s, existsb (λ e, e.1 =? msg) (am_events s)).
Definition RemoveEvent (msg : Z) : M unit :=
  modify (λ s, s <| am_events ::= List.filter (λ e, negb (e.1 =? msg)) |>).
Definition RemoveEventOf (msg param : Z) : M unit :=
  modify (λ s, s <| am_events ::= List.filter (λ e, negb ((e.1 =? msg) && (e.2 =? param))) |>).

(** * What the callbacks and observers are told (app_mgr_service_inner.cpp) *)

Definition WrapAppProcessData (a : AppRunningRecord) (st : ApplicationState) : AppProcessData :=
  mkProcessData ((λ i, (api_name i, api_uid i)) <$> values (a_appInfos a)) (a_processName a) (a_pid a) st.

Definition OnAppStateChanged (ar : AppRef) (st : ApplicationState) : M unit :=
  a ← the_app ar;
  cbs ← gets appStateCallbacks_;
  _ ← for_each (λ cb, app_emit (OnAppStateChangedTo cb (WrapAppProcessData a st))) cbs;
  app_emit (ObserveApp (a_recordId a) st).

Definition OnAbilityStateChanged (br : AbRef) (st : AbilityState) : M unit :=
  b ← the_ability br;
  cbs ← gets appStateCallbacks_;
  for_each (λ cb, app_emit (OnAbilityRequestDoneTo cb (b_token b) st)) cbs.

Definition state_number (st : AbilityState) : Z :=
  match st with
  | ABILITY_STATE_CREATE => 0 | ABILITY_STATE_READY => 1 | ABILITY_STATE_FOREGROUND => 2 | ABILITY_STATE_BACKGROUND => 3
  | ABILITY_STATE_TERMINATED => 4 | ABILITY_STATE_CONNECTED => 6 | ABILITY_STATE_DISCONNECTED => 7
  end.

(** * ModuleRunningRecord *)

Section module.
Implicit Types (token : Token) (mr : ModRef) (br : AbRef).

Definition GetModuleName (m : ModuleRunningRecord) : string := hap_moduleName (m_info m).

Definition ModuleGetAbilityRunningRecordByToken (m : ModuleRunningRecord) token : option AbRef :=
  map_find token (m_abilities m).
Definition ModuleGetAbilityByTerminateLists (m : ModuleRunningRecord) token : option AbRef :=
  map_find token (m_terminate m).

Definition new_ability (token : Token) (i : AbilityInfo) (app : ApplicationInfo) (want : option Want) : AbilityRunningRecord :=
  mkAbilityRun i token ABILITY_STATE_CREATE 0 None
    (match want with Some w => GetIntParam ABILITY_OWNER_USERID (-1) w | None => -1 end) (api_singleton app) false 0 0 0.

Definition AddAbility mr token (i : AbilityInfo) (want : option Want) : M unit :=
  m ← the_module mr;
  match ModuleGetAbilityRunningRecordByToken m token with
  | Some _ => mret tt
  | None =>
      br ← app_ref;
      _ ← modify (λ s, s <| am_abilities ::= insert br (new_ability token i (m_app m) want) |>);
      upd_module mr (λ m, m <| m_abilities ::= map_emplace token br |>)
  end.

Definition ModuleIsLastAbilityRecord (m : ModuleRunningRecord) token : bool :=
  (length (m_abilities m) =? 1)%nat && bool_decide (is_Some (map_find token (m_abilities m))).

Definition same_ability (abilityName : string) (ownerUserId : Z) (b : AbilityRunningRecord) : bool :=
  String.eqb (abi_name (b_info b)) abilityName &&
  (if bool_decide (abi_type (b_info b) = PAGE) && bool_decide (abi_launchMode (b_info b) = SINGLETON)
   then b_ownerUserId b =? ownerUserId else true).

(** By name. *)
Definition ModuleGetAbilityRunningRecord (m : ModuleRunningRecord) (abilityName : string) (ownerUserId : Z)
    : M (option AbRef) :=
  find_m (λ br, b ← the_ability br; mret (same_ability abilityName ownerUserId b)) (values (m_abilities m)).

(** By event. *)
Definition ModuleGetAbilityRunningRecordOfEvent (m : ModuleRunningRecord) (eventId : Z) : M (option AbRef) :=
  let is_it br := b ← the_ability br; mret (b_eventId b =? eventId) in
  x ← find_m is_it (values (m_abilities m));
  match x with
  | Some br => mret (Some br)
  | None => find_m is_it (values (m_terminate m))
  end.

Definition ModuleClearAbility mr token : M unit :=
  m ← the_module mr;
  match ModuleGetAbilityRunningRecordByToken m token with
  | None => mret tt
  | Some _ => upd_module mr (λ m, m <| m_abilities ::= map_erase token |>)
  end.

Definition ModuleOnAbilityStateChanged mr br (st : AbilityState) : M unit :=
  m ← the_module mr;
  _ ← upd_run br (λ b, b <| b_state := st |>);
  if m_inner m then OnAbilityStateChanged br st else mret tt.

Definition ModuleSendEvent mr (msg : Z) br : M unit :=
  m ← the_module mr;
  if negb (m_handler m) then mret tt
  else
    _ ← modify (λ s, s <| appEventId_ ::= Z.succ |>);
    id ← gets appEventId_;
    _ ← upd_run br (λ b, b <| b_eventId := id |>);
    post_event msg id.
End module.

(** * AppRunningRecord *)

Section app.
Implicit Types (token : Token) (ar : AppRef) (mr : ModRef) (br : AbRef).

Definition GetAllModuleRecord (a : AppRunningRecord) : list ModRef := concat (values (a_hapModules a)).

Definition SetApplicationClient ar (thread : option Client) : M unit :=
  _ ← upd_app ar (λ a, a <| a_deal := Some thread |>);
  a ← the_app ar;
  for_each (λ mr, upd_module mr (λ m, m <| m_deal := true |>)) (GetAllModuleRecord a).

Definition GetAppInfoList (a : AppRunningRecord) : list ApplicationInfo := values (a_appInfos a).
Definition GetApplicationClient (a : AppRunningRecord) : option Client := mjoin (a_deal a).

(** The merge of the maps of all modules; the first entry of a token stays. *)
Definition GetAbilities (a : AppRunningRecord) : M (list (Token * AbRef)) := λ s,
  let of_module acc mr :=
    match am_modules s !! mr with
    | Some m => foldl (λ acc e, map_emplace e.1 e.2 acc) acc (m_abilities m)
    | None => acc
    end in
  Returned (foldl of_module [] (GetAllModuleRecord a), s).

(** The first module that has the token, among its abilities or among those that
    end. *)
Definition module_of (has : ModuleRunningRecord → bool) (a : AppRunningRecord) : M (option ModRef) :=
  find_m (λ mr, m ← the_module mr; mret (has m)) (GetAllModuleRecord a).
Definition GetModuleRunningRecordByToken ar token : M (option ModRef) :=
  a ← the_app ar; module_of (λ m, bool_decide (is_Some (ModuleGetAbilityRunningRecordByToken m token))) a.
Definition GetModuleRunningRecordByTerminateLists ar token : M (option ModRef) :=
  a ← the_app ar; module_of (λ m, bool_decide (is_Some (ModuleGetAbilityByTerminateLists m token))) a.

Definition GetAbilityRunningRecordByToken ar token : M (option AbRef) :=
  x ← GetModuleRunningRecordByToken ar token;
  match x with
  | None => mret None
  | Some mr => m ← the_module mr; mret (ModuleGetAbilityRunningRecordByToken m token)
  end.
Definition GetAbilityByTerminateLists ar token : M (option AbRef) :=
  x ← GetModuleRunningRecordByTerminateLists ar token;
  match x with
  | None => mret None
  | Some mr => m ← the_module mr; mret (ModuleGetAbilityByTerminateLists m token)
  end.

(** By name. *)
Definition GetAbilityRunningRecord ar (abilityName moduleName : string) (ownerUserId : Z) : M (option AbRef) :=
  a ← the_app ar;
  first_m (λ mr,
    m ← the_module mr;
    if negb (String.eqb moduleName "") && negb (String.eqb (GetModuleName m) moduleName) then mret None
    else ModuleGetAbilityRunningRecord m abilityName ownerUserId) (GetAllModuleRecord a).

(** By event. *)
Definition GetAbilityRunningRecordOfEvent ar (eventId : Z) : M (option AbRef) :=
  a ← the_app ar;
  first_m (λ mr, m ← the_module mr; ModuleGetAbilityRunningRecordOfEvent m eventId) (GetAllModuleRecord a).

(** Of the first list that has it; a list that has become empty goes, with the
    info of its bundle. *)
Fixpoint remove_module mr (mods : list (string * list ModRef)) : option (string * list ModRef) :=
  match mods with
  | [] => None
  | (k, l) :: mods' => if bool_decide (mr ∈ l) then Some (k, erase_first (λ x, bool_decide (x = mr)) l) else remove_module mr mods'
  end.

Definition RemoveModuleRecord ar mr : M unit :=
  a ← the_app ar;
  match remove_module mr (a_hapModules a) with
  | None => mret tt
  | Some (k, []) => upd_app ar (λ a, a <| a_appInfos ::= map_erase k |> <| a_hapModules ::= map_erase k |>)
  | Some (k, l) =>
      upd_app ar (λ a, a <| a_hapModules ::= fmap (λ e, if bool_decide (e.1 = k) then (k, l) else e) |>)
  end.

Definition ClearAbility ar token : M unit :=
  x ← GetModuleRunningRecordByToken ar token;
  match x with
  | None => mret tt
  | Some mr =>
      _ ← ModuleClearAbility mr token;
      m ← the_module mr;
      match m_abilities m with [] => RemoveModuleRecord ar mr | _ => mret tt end
  end.

Definition SendEvent ar (msg : Z) : M unit :=
  a ← the_app ar;
  if negb (a_handler a) then mret tt
  else if a_isDebug a then mret tt
  else
    _ ← modify (λ s, s <| appEventId_ ::= Z.succ |>);
    id ← gets appEventId_;
    _ ← upd_app ar (λ a, a <| a_eventId := id |>);
    post_event msg id.

Definition LaunchApplication_ ar : M unit :=
  a ← the_app ar;
  match a_deal a with
  | Some (Some c) =>
      app_emit (ToApp c (ScheduleLaunchApplication (map_find (api_bundleName (a_info a)) (a_appInfos a)) (a_processName a)
        (a_pid a) (a_recordId a) (a_uid a)))
  | _ => mret tt
  end.

(** The first module that has not been announced, which is marked so. *)
Definition GetTheModuleInfoNeedToUpdated ar (bundleName : string) : M (option HapModuleInfo) :=
  a ← the_app ar;
  match map_find bundleName (a_hapModules a) with
  | None => mret None
  | Some l =>
      x ← find_m (λ mr, m ← the_module mr; mret (bool_decide (m_state m = INITIALIZED_STATE))) l;
      match x with
      | None => mret None
      | Some mr => m ← the_module mr; _ ← upd_module mr (λ m, m <| m_state := RUNNING_STATE |>); mret (Some (m_info m))
      end
  end.

Definition AddAbilityStage ar : M unit :=
  a ← the_app ar;
  if negb (a_isNewMission a) then mret tt
  else
    x ← GetTheModuleInfoNeedToUpdated ar (api_bundleName (a_info a));
    match x with
    | None => mret tt
    | Some h => _ ← SendEvent ar ADD_ABILITY_STAGE_INFO_TIMEOUT_MSG; deal_schedule a (ScheduleAbilityStage h)
    end.

Definition AddAbilityStageBySpecifiedAbility ar (bundleName : string) : M unit :=
  x ← GetTheModuleInfoNeedToUpdated ar bundleName;
  match x with
  | None => mret tt
  | Some h =>
      a ← the_app ar;
      _ ← (if a_handler a then mret tt else deref None);
      waits ← HasInnerEvent START_PROCESS_SPECIFIED_ABILITY_TIMEOUT_MSG;
      _ ← (if waits : bool then mret tt else SendEvent ar ADD_ABILITY_STAGE_INFO_TIMEOUT_MSG);
      deal_schedule a (ScheduleAbilityStage h)
  end.

Definition AppScheduleAcceptWant ar (moduleName : string) : M unit :=
  _ ← SendEvent ar START_SPECIFIED_ABILITY_TIMEOUT_MSG;
  a ← the_app ar;
  deal_schedule a (ScheduleAcceptWant (a_want a) moduleName).

Definition AppAddAbilityStageDone ar : M unit :=
  a ← the_app ar;
  _ ← (if a_handler a then mret tt else deref None);
  _ ← RemoveEvent START_PROCESS_SPECIFIED_ABILITY_TIMEOUT_MSG;
  _ ← RemoveEvent ADD_ABILITY_STAGE_INFO_TIMEOUT_MSG;
  if a_isSpecified a then AppScheduleAcceptWant ar (a_moduleName a) else AddAbilityStage ar.

(** [ModuleRunningRecord::LaunchAbility]; the client is that of the process. *)
Definition ModuleLaunchAbility ar mr br : M unit :=
  m ← the_module mr;
  b ← the_ability br;
  if negb (bool_decide (is_Some (map_find (b_token b) (m_abilities m)))) then mret tt
  else
    _ ← (if m_deal m then mret tt else deref None);
    a ← the_app ar;
    match GetApplicationClient a with
    | None => mret tt
    | Some c =>
        _ ← app_emit (ToApp c (ScheduleLaunchAbility (b_info b) (b_token b)));
        upd_run br (λ b, b <| b_state := ABILITY_STATE_READY |>)
    end.

Definition ModuleLaunchPendingAbilities ar mr : M unit :=
  m ← the_module mr;
  for_each (λ br,
    b ← the_ability br;
    if decide (b_state b = ABILITY_STATE_CREATE) then ModuleLaunchAbility ar mr br else mret tt) (values (m_abilities m)).

Definition LaunchAbility ar br : M unit :=
  a ← the_app ar;
  match a_deal a with
  | None => mret tt
  | Some _ =>
      b ← the_ability br;
      x ← GetModuleRunningRecordByToken ar (b_token b);
      match x with None => mret tt | Some mr => ModuleLaunchAbility ar mr br end
  end.

Definition ScheduleTerminate ar : M unit :=
  _ ← SendEvent ar TERMINATE_APPLICATION_TIMEOUT_MSG;
  a ← the_app ar;
  to_client a ScheduleTerminateApplication.

Definition LaunchPendingAbilities ar : M unit :=
  a ← the_app ar;
  for_each (λ mr,
    _ ← upd_module mr (λ m, m <| m_deal := bool_decide (is_Some (a_deal a)) |>);
    ModuleLaunchPendingAbilities ar mr) (GetAllModuleRecord a).

Definition schedule ar (msg : AppMsg) : M unit := a ← the_app ar; to_client a msg.
Definition ScheduleForegroundRunning ar : M unit := schedule ar ScheduleForegroundApplication.
Definition ScheduleBackgroundRunning ar : M unit := schedule ar ScheduleBackgroundApplication.
Definition AppScheduleProcessSecurityExit ar : M unit := schedule ar ScheduleProcessSecurityExit.

Definition GetModuleRecordByModuleName (a : AppRunningRecord) (bundleName moduleName : string) : M (option ModRef) :=
  match map_find bundleName (a_hapModules a) with
  | None => mret None
  | Some l => find_m (λ mr, m ← the_module mr; mret (String.eqb (GetModuleName m) moduleName)) l
  end.

Definition new_module (a : AppRunningRecord) (app : ApplicationInfo) (h : HapModuleInfo) : ModuleRunningRecord :=
  mkModule app (a_handler a) h INITIALIZED_STATE (a_inner a) (bool_decide (is_Some (a_deal a))) [] [].

(** The ability comes with its token, or not at all. *)
Definition AddModule ar (app : ApplicationInfo) (ability : option (AbilityInfo * Token)) (h : HapModuleInfo)
    (want : option Want) : M unit :=
  a ← the_app ar;
  let bundle := api_bundleName app in
  mr ← match map_find bundle (a_hapModules a) with
       | Some l =>
           x ← GetModuleRecordByModuleName a bundle (hap_moduleName h);
           match x with
           | Some mr => mret mr
           | None =>
               mr ← app_ref;
               _ ← modify (λ s, s <| am_modules ::= insert mr (new_module a app h) |>);
               _ ← upd_app ar (λ a, a <| a_hapModules ::= fmap (λ e, if bool_decide (e.1 = bundle) then (e.1, e.2 ++ [mr]) else e) |>);
               mret mr
           end
       | None =>
           mr ← app_ref;
           _ ← modify (λ s, s <| am_modules ::= insert mr (new_module a app h) |>);
           _ ← upd_app ar (λ a, a <| a_hapModules ::= map_emplace bundle [mr] |> <| a_appInfos ::= map_emplace bundle app |>);
           mret mr
       end;
  match ability with
  | None => mret tt
  | Some (i, token) => AddAbility mr token i want
  end.

Definition AddModules ar (app : ApplicationInfo) (hs : list HapModuleInfo) : M unit :=
  for_each (λ h, AddModule ar app None h None) hs.

Definition StateChangedNotifyObserver ar br (state : Z) (isAbility : bool) : M unit :=
  b ← the_ability br;
  if isAbility && bool_decide (abi_type (b_info b) = EXTENSION) then mret tt
  else
    a ← the_app ar;
    if a_inner a then app_emit (ObserveAbility (b_token b) state isAbility) else mret tt.

(** ** The states of abilities *)

Definition AbilityForeground ar br : M unit :=
  b ← the_ability br;
  if negb (bool_decide (b_state b = ABILITY_STATE_READY)) && negb (bool_decide (b_state b = ABILITY_STATE_BACKGROUND))
  then mret tt
  else
    a ← the_app ar;
    match a_state a with
    | APP_STATE_READY | APP_STATE_BACKGROUND =>
        _ ← match a_foregrounding a with [] => ScheduleForegroundRunning ar | _ => mret tt end;
        upd_app ar (λ a, a <| a_foregrounding ::= λ l, l ++ [b_token b] |>)
    | APP_STATE_FOREGROUND =>
        x ← GetModuleRunningRecordByToken ar (b_token b);
        mr ← deref x;
        _ ← ModuleOnAbilityStateChanged mr br ABILITY_STATE_FOREGROUND;
        _ ← StateChangedNotifyObserver ar br (state_number ABILITY_STATE_FOREGROUND) true;
        if a_inner a then OnAppStateChanged ar (a_state a) else mret tt
    | _ => mret tt
    end.

Definition is_foreground_page (b : AbilityRunningRecord) : bool :=
  bool_decide (b_state b = ABILITY_STATE_FOREGROUND) && bool_decide (abi_type (b_info b) = PAGE).

Definition AbilityBackground ar br : M unit :=
  b ← the_ability br;
  if negb (bool_decide (b_state b = ABILITY_STATE_FOREGROUND)) then mret tt
  else
    x ← GetModuleRunningRecordByToken ar (b_token b);
    mr ← deref x;
    _ ← ModuleOnAbilityStateChanged mr br ABILITY_STATE_BACKGROUND;
    _ ← StateChangedNotifyObserver ar br (state_number ABILITY_STATE_BACKGROUND) true;
    a ← the_app ar;
    if decide (a_state a = APP_STATE_FOREGROUND) then
      l ← GetAbilities a;
      y ← find_m (λ br, b ← the_ability br; mret (is_foreground_page b)) (values l);
      match y with None => ScheduleBackgroundRunning ar | Some _ => mret tt end
    else mret tt.

Definition UpdateAbilityState_ ar token (st : AbilityState) : M unit :=
  x ← GetAbilityRunningRecordByToken ar token;
  match x with
  | None => mret tt
  | Some br =>
      b ← the_ability br;
      if decide (st = b_state b) then mret tt
      else
        match st with
        | ABILITY_STATE_FOREGROUND => AbilityForeground ar br
        | ABILITY_STATE_BACKGROUND => AbilityBackground ar br
        | _ => mret tt
        end
  end.

(** The loop ends with the list it goes through: a token is taken off after it
    has been handled. *)
Fixpoint pop_foregrounding ar (l : list Token) : M unit :=
  match l with
  | [] => mret tt
  | token :: l' =>
      x ← GetAbilityRunningRecordByToken ar token;
      y ← GetModuleRunningRecordByToken ar token;
      mr ← deref y;
      br ← deref x;
      _ ← ModuleOnAbilityStateChanged mr br ABILITY_STATE_FOREGROUND;
      _ ← StateChangedNotifyObserver ar br (state_number ABILITY_STATE_FOREGROUND) true;
      _ ← upd_app ar (λ a, a <| a_foregrounding := l' |>);
      pop_foregrounding ar l'
  end.
Definition PopForegroundingAbilityTokens ar : M unit := a ← the_app ar; pop_foregrounding ar (a_foregrounding a).

(** ** The end of abilities *)

(** [appRunningRecord_] of a module is never set, so its process is not cleared
    when it has no client yet. *)
Definition ModuleTerminateAbility ar mr token (isForce : bool) : M unit :=
  m ← the_module mr;
  match ModuleGetAbilityRunningRecordByToken m token with
  | None => mret tt
  | Some br =>
      _ ← upd_module mr (λ m, m <| m_terminate ::= map_emplace token br |> <| m_abilities ::= map_erase token |>);
      _ ← ModuleSendEvent mr TERMINATE_ABILITY_TIMEOUT_MSG br;
      b ← the_ability br;
      if negb isForce && negb (bool_decide (b_state b = ABILITY_STATE_BACKGROUND)) then mret tt
      else if m_deal m then schedule ar (ScheduleCleanAbility token)
      else mret tt
  end.

Definition AppTerminateAbility ar token (isForce : bool) : M unit :=
  x ← GetModuleRunningRecordByToken ar token;
  match x with
  | None => mret tt
  | Some mr =>
      y ← GetAbilityRunningRecordByToken ar token;
      _ ← match y with
          | None => mret tt
          | Some br => StateChangedNotifyObserver ar br (state_number ABILITY_STATE_TERMINATED) true
          end;
      ModuleTerminateAbility ar mr token isForce
  end.

Definition ModuleAbilityTerminated mr token : M unit :=
  m ← the_module mr;
  if negb (m_handler m) then mret tt
  else
    match ModuleGetAbilityByTerminateLists m token with
    | None => mret tt
    | Some br =>
        b ← the_ability br;
        _ ← RemoveEventOf TERMINATE_ABILITY_TIMEOUT_MSG (b_eventId b);
        upd_module mr (λ m, m <| m_terminate ::= map_erase token |>)
    end.

Definition AppAbilityTerminated ar token : M unit :=
  x ← GetModuleRunningRecordByTerminateLists ar token;
  match x with
  | None => mret tt
  | Some mr =>
      _ ← ModuleAbilityTerminated mr token;
      m ← the_module mr;
      _ ← match m_abilities m with [] => RemoveModuleRecord ar mr | _ => mret tt end;
      a ← the_app ar;
      match GetAllModuleRecord a with [] => ScheduleTerminate ar | _ => mret tt end
  end.

Definition with_live_client (f : Client → AppEffect) ar : M unit :=
  a ← the_app ar;
  match GetApplicationClient a with Some c => app_emit (f c) | None => mret tt end.
Definition RegisterAppDeathRecipient ar : M unit := with_live_client AppAddDeathRecipient ar.
Definition RemoveAppDeathRecipient ar : M unit := with_live_client AppRemoveDeathRecipient ar.

Definition SetAppMgrServiceInner ar : M unit :=
  _ ← upd_app ar (λ a, a <| a_inner := true |>);
  a ← the_app ar;
  for_each (λ mr, upd_module mr (λ m, m <| m_inner := true |>)) (GetAllModuleRecord a).

Definition IsLastAbilityRecord ar token : M bool :=
  x ← GetModuleRunningRecordByToken ar token;
  match x with
  | None => mret false
  | Some mr =>
      a ← the_app ar;
      if (length (GetAllModuleRecord a) =? 1)%nat then m ← the_module mr; mret (ModuleIsLastAbilityRecord m token)
      else mret false
  end.

Definition AppScheduleAcceptWantDone ar : M unit :=
  a ← the_app ar;
  _ ← (if a_handler a then mret tt else deref None);
  RemoveEventOf START_SPECIFIED_ABILITY_TIMEOUT_MSG (a_eventId a).

Definition AppApplicationTerminated ar : M unit :=
  a ← the_app ar;
  if negb (a_handler a) then mret tt else RemoveEventOf TERMINATE_APPLICATION_TIMEOUT_MSG (a_eventId a).
End app.
