(* ===== verification/AppManager.v ===== *)
(** [AppRunningManager], which files the processes by their record ids, and
    [AppProcessManager], the list of recent applications
    (services/appmgr/src/app_running_manager.cpp, app_process_manager.cpp).

    A record that is in the map is there: pointers of the map are never null. What
    the regular expression of [ClipStringContent] matches is worked out below. *)

From S2P Require Import Prelude CppString Want AbilityRecord StdMap AppRecords.
From Stdlib Require Import Ascii.

#[local] Open Scope stdpp_scope.
#[local] Open Scope Z_scope.

#[local] Abbreviation M A := (ST Apps A).

(** * [ClipStringContent] with the rule [[a-zA-Z.]+[-_#]{1}] *)

Definition rule_char (c : ascii) : bool :=
  let n := Ascii.N_of_ascii c in
  ((65 <=? n) && (n <=? 90) || (97 <=? n) && (n <=? 122) || (n =? 46))%N.
Definition rule_end (c : ascii) : bool := bool_decide (c = "-"%char) || bool_decide (c = "_"%char) || bool_decide (c = "#"%char).

(** What follows a match of the rule at the start of the string: the characters of
    the first class are not in the second one, so the run of them is maximal. *)
Fixpoint after_run (some : bool) (s : string) : option string :=
  match s with
  | EmptyString => None
  | String c s' => if rule_char c then after_run true s' else if some && rule_end c then Some s' else None
  end.

(** [regex_search] takes the first position where the rule matches. *)
Fixpoint clip (before s : string) : option string :=
  match after_run false s with
  | Some suffix => Some (before +:+ suffix)
  | None => match s with EmptyString => None | String c s' => clip (before +:+ String c EmptyString) s' end
  end.

(** The string is not assigned when nothing matches. *)
Definition ClipStringContent (source : string) : string := default "" (clip "" source).

(** * AppRunningManager *)

(** [++] of an [atomic_int] wraps around. *)
Section manager.
Context (uninitialized_uid : Z).   (* mainUid_ has no initial value *)
Implicit Types (ar : AppRef) (token : Token) (br : AbRef).

Definition new_app (info : ApplicationInfo) (recordId : Z) (processName signCode jointUserId : string) : AppRunningRecord :=
  mkAppRecord info recordId processName signCode jointUserId APP_STATE_CREATE 0 uninitialized_uid 0 [] false false None
    [] [] false false RESTART_RESIDENT_PROCESS_MAX_TIMES false emptyWant "" false false false None.

Definition Manager_CreateAppRunningRecord (info : ApplicationInfo) (processName : string) (b : BundleInfo)
    : M (option AppRef) :=
  if String.eqb processName "" then mret None
  else
    _ ← modify (λ s, s <| am_created ::= Z.succ |>);
    recordId ← gets (λ s, wrap_i32 (am_created s));
    ar ← app_ref;
    _ ← modify (λ s, s <| am_apps ::= insert ar
          (new_app info recordId processName (ClipStringContent (bi_appId b)) (bi_jointUserId b)) |>);
    _ ← modify (λ s, s <| appRunningRecordMap_ ::= map_emplace recordId ar |>);
    mret (Some ar).

(** A search through the map. *)
Definition find_app (f : AppRef → M bool) : M (option AppRef) :=
  l ← gets appRunningRecordMap_; find_m f (values l).
Definition find_app_by (f : AppRunningRecord → bool) : M (option AppRef) :=
  find_app (λ ar, a ← the_app ar; mret (f a)).

Definition same_process (signCode processName jointUserId : string) (a : AppRunningRecord) : bool :=
  String.eqb (a_signCode a) signCode && String.eqb (a_processName a) processName &&
  String.eqb (a_jointUserId a) jointUserId && negb (a_isTerminating a) && negb (a_isKilling a).

Definition runs_app (appName processName : string) (uid : Z) (a : AppRunningRecord) : bool :=
  String.eqb (a_processName a) processName && negb (a_isTerminating a) && negb (a_isKilling a) &&
  existsb (λ i, String.eqb (api_name i) appName && (api_uid i =? uid)) (GetAppInfoList a).

Definition CheckAppRunningRecordIsExist (appName processName : string) (uid : Z) (b : BundleInfo) : M (option AppRef) :=
  if String.eqb (bi_jointUserId b) "" then find_app_by (runs_app appName processName uid)
  else find_app_by (same_process (ClipStringContent (bi_appId b)) processName (bi_jointUserId b)).

Definition GetAppRunningRecordByPid (pid : Z) : M (option AppRef) := find_app_by (λ a, a_pid a =? pid).

Definition GetAppRunningRecordByAbilityToken token : M (option AppRef) :=
  find_app (λ ar, x ← GetAbilityRunningRecordByToken ar token; mret (bool_decide (is_Some x))).
Definition GetTerminatingAppRunningRecord token : M (option AppRef) :=
  find_app (λ ar, x ← GetAbilityByTerminateLists ar token; mret (bool_decide (is_Some x))).

(** The processes that [test] selects are asked to exit; their pids. *)
Fixpoint exit_loop (test : AppRunningRecord → bool) (killing : bool) (l : list AppRef) (pids : list Z) : M (list Z) :=
  match l with
  | [] => mret pids
  | ar :: l' =>
      a ← the_app ar;
      if test a && (0 <? a_pid a) then
        _ ← (if killing : bool then upd_app ar (λ a, a <| a_isKilling := true |>) else mret tt);
        _ ← AppScheduleProcessSecurityExit ar;
        exit_loop test killing l' (pids ++ [a_pid a])
      else exit_loop test killing l' pids
  end.
Definition exit_processes (test : AppRunningRecord → bool) (killing : bool) : M (list Z) :=
  l ← gets appRunningRecordMap_; exit_loop test killing (values l) [].

Definition ProcessExitByBundleName (bundleName : string) : M (list Z) :=
  exit_processes (λ a, negb (a_isKeepAlive a) &&
    existsb (λ i, String.eqb (api_bundleName i) bundleName) (GetAppInfoList a)) false.

(** The account of a uid, by the account service. *)
Definition GetPidsByUserId (GetOsAccountLocalIdFromUid : Z → option Z) (userId : Z) : M (list Z) :=
  exit_processes (λ a, bool_decide (GetOsAccountLocalIdFromUid (a_uid a) = Some userId)) false.

Definition ProcessExitByBundleNameAndUid (bundleName : string) (uid : Z) : M (list Z) :=
  exit_processes (λ a, existsb (λ i, String.eqb (api_bundleName i) bundleName && (api_uid i =? uid)) (GetAppInfoList a)) true.

Definition Manager_OnRemoteDied (remote : Client) : M (option AppRef) :=
  x ← find_app_by (λ a, bool_decide (GetApplicationClient a = Some remote));
  match x with
  | None => mret None
  | Some ar =>
      _ ← SetApplicationClient ar None;
      _ ← modify (λ s, s <| appRunningRecordMap_ ::= List.filter (λ e, negb (bool_decide (e.2 = ar))) |>);
      mret (Some ar)
  end.

Definition RemoveAppRunningRecordById (recordId : Z) : M unit :=
  modify (λ s, s <| appRunningRecordMap_ ::= map_erase recordId |>).

Definition ClearAppRunningRecordMap : M unit := modify (λ s, s <| appRunningRecordMap_ := [] |>).

(** Of the ability with the event. *)
Definition Manager_GetAbilityRunningRecord (eventId : Z) : M (option AbRef) :=
  l ← gets appRunningRecordMap_;
  first_m (λ ar, GetAbilityRunningRecordOfEvent ar eventId) (values l).
Definition GetAppRunningRecord (eventId : Z) : M (option AppRef) := find_app_by (λ a, a_eventId a =? eventId).

Definition HandleTerminateTimeOut (eventId : Z) : M unit :=
  x ← Manager_GetAbilityRunningRecord eventId;
  match x with
  | None => mret tt
  | Some br =>
      b ← the_ability br;
      y ← GetTerminatingAppRunningRecord (b_token b);
      match y with None => mret tt | Some ar => AppAbilityTerminated ar (b_token b) end
  end.

Definition Manager_HandleAbilityAttachTimeOut token : M unit :=
  x ← GetAppRunningRecordByAbilityToken token;
  match x with
  | None => mret tt
  | Some ar =>
      y ← GetAbilityRunningRecordByToken ar token;
      _ ← match y with Some br => upd_run br (λ b, b <| b_isTerminating := true |>) | None => mret tt end;
      last ← IsLastAbilityRecord ar token;
      _ ← (if last : bool then upd_app ar (λ a, a <| a_isTerminating := true |>) else mret tt);
      AppTerminateAbility ar token true
  end.

Definition Manager_PrepareTerminate token : M unit :=
  x ← GetAppRunningRecordByAbilityToken token;
  match x with
  | None => mret tt
  | Some ar =>
      last ← IsLastAbilityRecord ar token;
      if last : bool then upd_app ar (λ a, a <| a_isTerminating := true |>) else mret tt
  end.

Definition Manager_TerminateAbility token : M unit :=
  x ← GetAppRunningRecordByAbilityToken token;
  match x with
  | None => mret tt
  | Some ar =>
      last ← IsLastAbilityRecord ar token;
      a ← the_app ar;
      _ ← (if last && negb (a_isKeepAlive a) then upd_app ar (λ a, a <| a_isTerminating := true |>) else mret tt);
      AppTerminateAbility ar token false
  end.

Fixpoint foreground_loop (l : list AppRef) (acc : list (string * Z)) : M (list (string * Z)) :=
  match l with
  | [] => mret acc
  | ar :: l' =>
      a ← the_app ar;
      foreground_loop l'
        (if decide (a_state a = APP_STATE_FOREGROUND) then acc ++ [(api_bundleName (a_info a), a_uid a)] else acc)
  end.
Definition GetForegroundApplications : M (list (string * Z)) :=
  l ← gets appRunningRecordMap_; foreground_loop (values l) [].

(** Of the processes with a render process that [test] selects, the first. *)
Definition app_of_render (test : RenderRecord → bool) : M (option AppRef) :=
  find_app (λ ar,
    a ← the_app ar;
    match a_render a with
    | None => mret false
    | Some rr => x ← gets (λ s, am_renders s !! rr); r ← deref x; mret (test r)
    end).
Definition GetAppRunningRecordByRenderPid (pid : Z) : M (option AppRef) := app_of_render (λ r, rd_pid r =? pid).
Definition OnRemoteRenderDied (remote : Client) : M unit :=
  x ← app_of_render (λ r, bool_decide (rd_scheduler r = Some remote));
  match x with None => mret tt | Some ar => upd_app ar (λ a, a <| a_render := None |>) end.
End manager.

(** * AppProcessManager

    The entries are objects, and none is pushed twice. *)

Section recent.
Definition has_record (recordId : Z) (t : AppTaskInfo) : bool := ti_recordId t =? recordId.

Definition AddAppToRecentList (appName processName : string) (pid recordId : Z) : M unit :=
  modify (λ s, s <| recentAppList_ ::= λ l, mkTaskInfo appName processName pid recordId :: l |>).
Definition GetAppTaskInfoById (recordId : Z) : M (option AppTaskInfo) :=
  gets (λ s, List.find (has_record recordId) (recentAppList_ s)).
Definition PushAppFront (recordId : Z) : M unit :=
  x ← GetAppTaskInfoById recordId;
  match x with
  | None => mret tt
  | Some t => modify (λ s, s <| recentAppList_ ::= λ l, t :: erase_first (has_record recordId) l |>)
  end.
Definition RemoveAppFromRecentListById (recordId : Z) : M unit :=
  modify (λ s, s <| recentAppList_ ::= erase_first (has_record recordId) |>).

Definition is_task (appName processName : string) (t : AppTaskInfo) : bool :=
  String.eqb (ti_name t) appName && String.eqb (ti_processName t) processName.
Definition GetAppTaskInfoByProcessName (appName processName : string) : M (option AppTaskInfo) :=
  gets (λ s, List.find (is_task appName processName) (recentAppList_ s)).
End recent.
