(* ===== verification/AppService.v ===== *)
(** The application manager: [AppMgrServiceInner]
    (services/appmgr/src/app_mgr_service_inner.cpp). Its calls are posted to one
    event handler, so each is one step.

    The bundle manager, the spawner and the kernel are parameters: which bundle and
    module an ability is in, the pid of the process that is spawned for a record
    (or that spawning failed), which of some processes are alive when they were
    asked to exit and given a second, and what sending a signal answers. Their
    clients are there ([CheckRemoteClient]). Permissions are checked by the access
    token kit; a check is an argument of the call. *)

From S2P Require Import Prelude CppString Want AbilityRecord StdMap AppRecords AppManager.
From Stdlib Require Import Ascii.

#[local] Open Scope stdpp_scope.
#[local] Open Scope Z_scope.

#[local] Abbreviation M A := (ST Apps A).

Definition COLD_START : string := "coldStart".
Definition DEBUG_APP : string := "debugApp".
Definition BASE_USER_RANGE : Z := 200000.
Definition FLAG_COLD_START : Z := 0.
Definition FLAG_BACKUP_EXTENSION : Z := 1.

Inductive AppErr :=
  | APP_OK | APP_INVALID_VALUE | APP_ALREADY_EXIST_RENDER | APP_PERMISSION (err : Z) | APP_KILL (result : Z).
#[export] Instance AppErr_eq_dec : EqDecision AppErr.
Proof. solve_decision. Defined.

(** What [LoadAbility] is given, apart from tokens. *)
Definition CheckLoadabilityConditions (token : option Token) (ability : option AbilityInfo) (app : option ApplicationInfo) : bool :=
  match token, ability, app with
  | Some _, Some i, Some a =>
      negb (String.eqb (abi_name i) "") && negb (String.eqb (api_name a) "") &&
      String.eqb (abi_applicationName i) (api_name a)
  | _, _, _ => false
  end.

Definition MakeProcessName_ (app : ApplicationInfo) (h : HapModuleInfo) : string :=
  if negb (String.eqb (api_process app) "") then api_process app
  else if hap_isStageBasedModel h && negb (String.eqb (hap_process h) "") then hap_process h
  else api_bundleName app.
Definition MakeProcessName (i : AbilityInfo) (app : ApplicationInfo) (h : HapModuleInfo) : string :=
  if negb (String.eqb (abi_process i) "") then abi_process i else MakeProcessName_ app h.

Definition GetUserIdByUid (uid : Z) : Z := Z.quot uid BASE_USER_RANGE.

Section service.
Context (uninitialized_uid : Z) (APPSPAWN_COLD_BOOT : Z).
Context (GetBundleInfo : string → Z → option BundleInfo) (GetHapModuleInfo : AbilityInfo → Z → option HapModuleInfo).
Context (GetBundleInfos : Z → option (list BundleInfo)) (GetBundleGidsByUid : string → Z → bool).
Context (GetUidByBundleName : string → Z → Z).
Context (spawn : Z → option Z) (nweb_spawn : RenderRef → option Z).
Context (survivors : list Z → list Z) (kill : Z → Z).
Context (GetOsAccountLocalIdFromUid : Z → option Z).
Implicit Types (ar : AppRef) (token : Token) (br : AbRef).

Definition BuildStartFlags (w : Want) (i : AbilityInfo) : Z :=
  let flags := if GetBoolParam COLD_START false w then Z.shiftl APPSPAWN_COLD_BOOT FLAG_COLD_START else 0 in
  if abi_isBackup i then Z.lor flags (Z.shiftl APPSPAWN_COLD_BOOT FLAG_BACKUP_EXTENSION) else flags.

Definition GetBundleAndHapInfo (i : AbilityInfo) (app : ApplicationInfo) : option (BundleInfo * HapModuleInfo) :=
  let userId := GetUserIdByUid (api_uid app) in
  b ← GetBundleInfo (api_bundleName app) userId; h ← GetHapModuleInfo i userId; Some (b, h).

(** * Processes *)

Definition is_bundle (bundleName : string) (uid : Z) (b : BundleInfo) : bool :=
  String.eqb (bi_name b) bundleName && (bi_uid b =? uid).

Definition StartProcess (appName processName : string) (startFlags : Z) ar (uid : Z) (bundleName : string) : M unit :=
  match GetBundleInfos (GetUserIdByUid uid) with
  | None => mret tt
  | Some bundleInfos =>
      match List.find (is_bundle bundleName uid) bundleInfos with
      | None => mret tt
      | Some b =>
          if negb (GetBundleGidsByUid bundleName uid) then mret tt
          else
            a ← the_app ar;
            _ ← app_emit (SpawnProcess processName bundleName (bi_uid b) startFlags);
            match spawn (a_recordId a) with
            | None => RemoveAppRunningRecordById (a_recordId a)
            | Some pid =>
                _ ← upd_app ar (λ a, a <| a_pid := pid |> <| a_uid := bi_uid b |>);
                _ ← SetAppMgrServiceInner ar;
                _ ← OnAppStateChanged ar APP_STATE_CREATE;
                _ ← AddAppToRecentList appName (a_processName a) pid (a_recordId a);
                app_emit (ObserveProcessCreated (a_recordId a))
            end
      end
  end.

Definition SetPreToken ar token (preToken : option Token) : M unit :=
  match preToken with
  | None => mret tt
  | Some p =>
      x ← GetAbilityRunningRecordByToken ar token;
      match x with None => mret tt | Some br => upd_run br (λ b, b <| b_preToken := Some p |>) end
  end.

Definition want_debug (w : Want) : bool := GetBoolParam DEBUG_APP false w || GetBoolParam COLD_START false w.

Definition CreateAppRunningRecord token (preToken : option Token) (app : ApplicationInfo) (i : AbilityInfo)
    (processName : string) (b : BundleInfo) (h : HapModuleInfo) (want : option Want) : M (option AppRef) :=
  x ← Manager_CreateAppRunningRecord uninitialized_uid app processName b;
  match x with
  | None => mret None
  | Some ar =>
      _ ← upd_app ar (λ a, a <| a_handler := true |>);
      _ ← AddModule ar app (Some (i, token)) h want;
      _ ← match want with Some w => upd_app ar (λ a, a <| a_isDebug := want_debug w |>) | None => mret tt end;
      _ ← SetPreToken ar token preToken;
      mret (Some ar)
  end.

Definition is_singleton_started ar (i : AbilityInfo) (want : option Want) : M bool :=
  if decide (abi_launchMode i = SINGLETON) then
    let ownerUserId := match want with Some w => GetIntParam ABILITY_OWNER_USERID (-1) w | None => -1 end in
    x ← GetAbilityRunningRecord ar (abi_name i) (abi_moduleName i) ownerUserId;
    mret (bool_decide (is_Some x))
  else mret false.

Definition StartAbility token (preToken : option Token) (i : AbilityInfo) ar (h : HapModuleInfo) (want : option Want) : M unit :=
  started ← is_singleton_started ar i want;
  if started : bool then mret tt
  else
    x ← GetAbilityRunningRecordByToken ar token;
    match x, preToken with
    | Some br, Some p => upd_run br (λ b, b <| b_preToken := Some p |>)
    | _, _ =>
        let app := abi_applicationInfo i in
        _ ← AddModule ar app (Some (i, token)) h want;
        a ← the_app ar;
        y ← GetModuleRecordByModuleName a (api_bundleName app) (hap_moduleName h);
        match y with
        | None => mret tt
        | Some mr =>
            m ← the_module mr;
            match ModuleGetAbilityRunningRecordByToken m token with
            | None => mret tt
            | Some br =>
                _ ← match preToken with Some p => upd_run br (λ b, b <| b_preToken := Some p |>) | None => mret tt end;
                a ← the_app ar;
                if decide (a_state a = APP_STATE_CREATE) then mret tt else LaunchAbility ar br
            end
        end
    end.

Definition LoadAbility (token preToken : option Token) (ability : option AbilityInfo) (app : option ApplicationInfo)
    (want : option Want) : M unit :=
  if negb (CheckLoadabilityConditions token ability app) then mret tt
  else
    match token, ability, app with
    | Some token, Some i, Some app =>
        match GetBundleAndHapInfo i app with
        | None => mret tt
        | Some (b, h) =>
            let processName := MakeProcessName i app h in
            x ← CheckAppRunningRecordIsExist (api_name app) processName (api_uid app) b;
            match x with
            | Some ar => StartAbility token preToken i ar h want
            | None =>
                y ← CreateAppRunningRecord token preToken app i processName b h want;
                match y with
                | None => mret tt
                | Some ar =>
                    let startFlags := match want with Some w => BuildStartFlags w i | None => 0 end in
                    StartProcess (abi_applicationName i) processName startFlags ar (api_uid app) (api_bundleName app)
                end
            end
        end
    | _, _, _ => mret tt
    end.

(** ** What a process reports *)

Definition LaunchApplication ar : M unit :=
  a ← the_app ar;
  if negb (bool_decide (a_state a = APP_STATE_CREATE)) then mret tt
  else
    _ ← LaunchApplication_ ar;
    _ ← upd_app ar (λ a, a <| a_state := APP_STATE_READY |>);
    if a_isKeepAlive a then AddAbilityStage ar
    else if a_isSpecified a then AddAbilityStageBySpecifiedAbility ar (api_bundleName (a_info a))
    else LaunchPendingAbilities ar.

Definition AttachApplication (pid : Z) (app : option Client) : M unit :=
  if pid <=? 0 then mret tt
  else
    match app with
    | None => mret tt
    | Some c =>
        x ← GetAppRunningRecordByPid pid;
        match x with
        | None => mret tt
        | Some ar =>
            _ ← SetApplicationClient ar (Some c);
            a ← the_app ar;
            _ ← (if decide (a_state a = APP_STATE_CREATE) then LaunchApplication ar else mret tt);
            RegisterAppDeathRecipient ar
        end
    end.

Definition GetAppRunningRecordByAppRecordId (recordId : Z) : M (option AppRef) :=
  gets (λ s, map_find recordId (appRunningRecordMap_ s)).

Definition with_record (recordId : Z) (f : AppRef → M unit) : M unit :=
  x ← GetAppRunningRecordByAppRecordId recordId;
  match x with None => mret tt | Some ar => f ar end.

Definition AddAbilityStageDone (recordId : Z) : M unit := with_record recordId AppAddAbilityStageDone.

Definition ApplicationForegrounded (recordId : Z) : M unit := with_record recordId (λ ar,
  _ ← PopForegroundingAbilityTokens ar;
  a ← the_app ar;
  _ ← (if decide (a_state a = APP_STATE_READY ∨ a_state a = APP_STATE_BACKGROUND) then
         _ ← upd_app ar (λ a, a <| a_state := APP_STATE_FOREGROUND |>);
         OnAppStateChanged ar APP_STATE_FOREGROUND
       else mret tt);
  PushAppFront recordId).

Definition ApplicationBackgrounded (recordId : Z) : M unit := with_record recordId (λ ar,
  a ← the_app ar;
  if decide (a_state a = APP_STATE_FOREGROUND) then
    _ ← upd_app ar (λ a, a <| a_state := APP_STATE_BACKGROUND |>);
    OnAppStateChanged ar APP_STATE_BACKGROUND
  else mret tt).

Definition ApplicationTerminated (recordId : Z) : M unit := with_record recordId (λ ar,
  _ ← AppApplicationTerminated ar;
  a ← the_app ar;
  if a_isKeepAlive a then mret tt
  else if negb (bool_decide (a_state a = APP_STATE_BACKGROUND)) then mret tt
  else
    _ ← upd_app ar (λ a, a <| a_state := APP_STATE_TERMINATED |>);
    _ ← RemoveAppDeathRecipient ar;
    _ ← OnAppStateChanged ar APP_STATE_TERMINATED;
    _ ← RemoveAppRunningRecordById recordId;
    _ ← RemoveAppFromRecentListById recordId;
    app_emit (ObserveProcessDied recordId)).

(** ** Killing *)

(** The processes that are left, when some are. *)
Definition WaitForRemoteProcessExit (pids : list Z) : M (bool * list Z) :=
  let rest := survivors pids in mret (match rest with [] => true | _ => false end, rest).

Definition KillProcessByPid (pid : Z) : M Z :=
  if 0 <? pid then _ ← app_emit (KillSignal pid); mret (kill pid) else mret (-1).

(** Up to the first signal that cannot be sent. *)
Fixpoint kill_all (pids : list Z) (result : Z) : M Z :=
  match pids with
  | [] => mret result
  | pid :: pids' => r ← KillProcessByPid pid; if r <? 0 then mret r else kill_all pids' r
  end.

Definition kill_pids (pids : list Z) : M (bool * Z) :=
  match pids with
  | [] => mret (false, 0)
  | _ =>
      '(exited, rest) ← WaitForRemoteProcessExit pids;
      if exited : bool then mret (true, 0) else r ← kill_all rest 0; mret (true, r)
  end.

Definition PACKAGE_RESTARTED : string := "usual.event.PACKAGE_RESTARTED".

Definition KillApplication (permission : Z) (bundleName : string) : M AppErr :=
  if negb (permission =? 0) then mret (APP_PERMISSION permission)
  else
    pids ← ProcessExitByBundleName bundleName;
    '(some, r) ← kill_pids pids;
    if r <? 0 then mret (APP_KILL r)
    else
      _ ← (if some : bool then app_emit (PublishAppStatus bundleName PACKAGE_RESTARTED) else mret tt);
      mret (if r =? 0 then APP_OK else APP_KILL r).

Definition kill_bundle (bundleName : string) (uid : Z) : M AppErr :=
  pids ← ProcessExitByBundleNameAndUid bundleName uid;
  '(_, r) ← kill_pids pids;
  mret (if r =? 0 then APP_OK else APP_KILL r).

Definition KillApplicationByUid (permission : Z) (bundleName : string) (uid : Z) : M AppErr :=
  if negb (permission =? 0) then mret (APP_PERMISSION permission) else kill_bundle bundleName uid.
Definition KillApplicationByUserIdLocked (bundleName : string) (userId : Z) : M AppErr :=
  kill_bundle bundleName (GetUidByBundleName bundleName userId).
Definition KillApplicationByUserId (permission : Z) (bundleName : string) (userId : Z) : M AppErr :=
  if negb (permission =? 0) then mret (APP_PERMISSION permission) else KillApplicationByUserIdLocked bundleName userId.

Definition KillProcessesByUserId (userId : Z) : M unit :=
  pids ← GetPidsByUserId GetOsAccountLocalIdFromUid userId; _ ← kill_pids pids; mret tt.

Definition KillProcessByAbilityToken token : M unit :=
  x ← GetAppRunningRecordByAbilityToken token;
  match x with
  | None => mret tt
  | Some ar =>
      a ← the_app ar;
      if a_isKeepAlive a then mret tt
      else if 0 <? a_pid a then
        _ ← AppScheduleProcessSecurityExit ar;
        '(exited, _) ← WaitForRemoteProcessExit [a_pid a];
        if exited : bool then mret tt else _ ← KillProcessByPid (a_pid a); mret tt
      else mret tt
  end.

Definition KillApplicationByRecord ar : M unit :=
  a ← the_app ar;
  _ ← upd_app ar (λ a, a <| a_isTerminating := true |>);
  _ ← AppScheduleProcessSecurityExit ar;
  '(exited, _) ← WaitForRemoteProcessExit [a_pid a];
  if exited : bool then mret tt else _ ← KillProcessByPid (a_pid a); mret tt.

(** * Abilities *)

Definition TerminateAbility (token : option Token) : M unit :=
  match token with
  | None => mret tt
  | Some token =>
      x ← GetAppRunningRecordByAbilityToken token;
      match x with None => mret tt | Some _ => Manager_TerminateAbility token end
  end.

Definition service_report (st : AbilityState) : bool :=
  match st with
  | ABILITY_STATE_CREATE | ABILITY_STATE_TERMINATED | ABILITY_STATE_CONNECTED | ABILITY_STATE_DISCONNECTED => true
  | _ => false
  end.

Definition UpdateAbilityState (token : option Token) (st : AbilityState) : M unit :=
  match token with
  | None => mret tt
  | Some token =>
      x ← GetAppRunningRecordByAbilityToken token;
      match x with
      | None => mret tt
      | Some ar =>
          y ← GetAbilityRunningRecordByToken ar token;
          match y with
          | None => mret tt
          | Some br =>
              b ← the_ability br;
              if decide (st = b_state b) then mret tt
              else if bool_decide (abi_type (b_info b) = SERVICE) && service_report st then
                StateChangedNotifyObserver ar br (state_number st) true
              else if decide (st = ABILITY_STATE_FOREGROUND ∨ st = ABILITY_STATE_BACKGROUND) then
                UpdateAbilityState_ ar token st
              else mret tt
          end
      end
  end.

Definition UpdateExtensionState (token : option Token) (st : Z) : M unit :=
  match token with
  | None => mret tt
  | Some token =>
      x ← GetAppRunningRecordByAbilityToken token;
      match x with
      | None => mret tt
      | Some ar =>
          y ← GetAbilityRunningRecordByToken ar token;
          match y with None => mret tt | Some br => StateChangedNotifyObserver ar br st false end
      end
  end.

Definition AbilityBehaviorAnalysis (token preToken : option Token) (visibility perceptibility connectionState : Z) : M unit :=
  match token with
  | None => mret tt
  | Some token =>
      x ← GetAppRunningRecordByAbilityToken token;
      match x with
      | None => mret tt
      | Some ar =>
          y ← GetAbilityRunningRecordByToken ar token;
          match y with
          | None => mret tt
          | Some br =>
              _ ← match preToken with Some p => upd_run br (λ b, b <| b_preToken := Some p |>) | None => mret tt end;
              upd_run br (λ b, b <| b_visibility := visibility |> <| b_perceptibility := perceptibility |>
                <| b_connectionState := connectionState |>)
          end
      end
  end.

Definition AbilityTerminated (token : option Token) : M unit :=
  match token with
  | None => mret tt
  | Some token =>
      x ← GetTerminatingAppRunningRecord token;
      match x with None => mret tt | Some ar => AppAbilityTerminated ar token end
  end.

Definition HandleAbilityAttachTimeOut (token : option Token) : M unit :=
  match token with None => mret tt | Some token => Manager_HandleAbilityAttachTimeOut token end.
Definition PrepareTerminate (token : option Token) : M unit :=
  match token with None => mret tt | Some token => Manager_PrepareTerminate token end.

(** * Recent applications *)

Definition RemoveAppFromRecentList (appName processName : string) : M unit :=
  x ← GetAppTaskInfoByProcessName appName processName;
  match x with
  | None => mret tt
  | Some t =>
      let remove := modify (λ s, s <| recentAppList_ ::= erase_first (is_task appName processName) |>) in
      y ← GetAppRunningRecordByPid (ti_pid t);
      match y with
      | None => remove
      | Some ar =>
          a ← the_app ar;
          if a_isKeepAlive a then mret tt
          else
            _ ← AppScheduleProcessSecurityExit ar;
            '(exited, _) ← WaitForRemoteProcessExit [ti_pid t];
            if exited : bool then remove
            else r ← KillProcessByPid (ti_pid t); if r <? 0 then mret tt else remove
      end
  end.

(** The processes of the list are asked to exit. *)
Fixpoint pids_loop (l : list AppTaskInfo) (pids : list Z) : M (list Z) :=
  match l with
  | [] => mret pids
  | t :: l' =>
      x ← GetAppRunningRecordByPid (ti_pid t);
      match x with
      | None => pids_loop l' pids
      | Some ar => _ ← AppScheduleProcessSecurityExit ar; pids_loop l' (pids ++ [ti_pid t])
      end
  end.
Definition GetAllPids : M (list Z) := l ← gets recentAppList_; pids_loop l [].

(** It returns when there is a process. *)
Definition ClearRecentAppList : M unit :=
  pids ← GetAllPids;
  match pids with
  | _ :: _ => mret tt
  | [] => modify (λ s, s <| recentAppList_ := [] |>)
  end.

(** * Deaths and timeouts *)

Definition ClearAppRunningData ar (containsApp : bool) : M unit :=
  a ← the_app ar;
  _ ← (if containsApp then RemoveAppRunningRecordById (a_recordId a) else mret tt);
  _ ← app_emit (RemoveUriPermission (api_accessTokenId (a_info a)));
  l ← GetAbilities a;
  _ ← for_each (λ br, StateChangedNotifyObserver ar br (state_number ABILITY_STATE_TERMINATED) true) (values l);
  _ ← RemoveAppFromRecentListById (a_recordId a);
  _ ← app_emit (ObserveProcessDied (a_recordId a));
  _ ← match a_render a with
      | None => mret tt
      | Some rr =>
          x ← gets (λ s, am_renders s !! rr);
          r ← deref x;
          if 0 <? rd_pid r then _ ← KillProcessByPid (rd_pid r); mret tt else mret tt
      end;
  if a_isKeepAlive a then
    _ ← upd_app ar (λ a, a <| a_restartCount ::= Z.pred |>);
    if 0 <? Z.pred (a_restartCount a) then modify (λ s, s <| am_restarts ::= λ l, l ++ [ar] |>) else mret tt
  else mret tt.

Definition OnRemoteDied (remote : Client) (isRenderProcess : bool) : M unit :=
  if isRenderProcess then OnRemoteRenderDied remote
  else
    x ← Manager_OnRemoteDied remote;
    match x with None => mret tt | Some ar => ClearAppRunningData ar false end.

Definition HandleTerminateApplicationTimeOut (eventId : Z) : M unit :=
  x ← GetAppRunningRecord eventId;
  match x with
  | None => mret tt
  | Some ar =>
      _ ← upd_app ar (λ a, a <| a_state := APP_STATE_TERMINATED |>);
      _ ← RemoveAppDeathRecipient ar;
      _ ← OnAppStateChanged ar APP_STATE_TERMINATED;
      a ← the_app ar;
      r ← (if 0 <? a_pid a then KillProcessByPid (a_pid a) else mret 0);
      if r <? 0 then mret tt
      else
        _ ← RemoveAppRunningRecordById (a_recordId a);
        _ ← RemoveAppFromRecentListById (a_recordId a);
        app_emit (ObserveProcessDied (a_recordId a))
  end.

Definition tell_timeout ar : M unit :=
  a ← the_app ar;
  response ← gets startSpecifiedAbilityResponse_;
  if a_isSpecified a && response then app_emit (OnTimeoutResponseTo (a_want a)) else mret tt.

Definition HandleAddAbilityStageTimeOut (eventId : Z) : M unit :=
  x ← GetAppRunningRecord eventId;
  match x with None => mret tt | Some ar => _ ← tell_timeout ar; KillApplicationByRecord ar end.
Definition HandleStartSpecifiedAbilityTimeOut (eventId : Z) : M unit :=
  x ← GetAppRunningRecord eventId;
  match x with None => mret tt | Some ar => _ ← tell_timeout ar; KillApplicationByRecord ar end.

Definition HandleTimeOut (msg param : Z) : M unit :=
  if msg =? TERMINATE_ABILITY_TIMEOUT_MSG then HandleTerminateTimeOut param
  else if msg =? TERMINATE_APPLICATION_TIMEOUT_MSG then HandleTerminateApplicationTimeOut param
  else if (msg =? START_PROCESS_SPECIFIED_ABILITY_TIMEOUT_MSG) || (msg =? ADD_ABILITY_STAGE_INFO_TIMEOUT_MSG) then
    HandleAddAbilityStageTimeOut param
  else if msg =? START_SPECIFIED_ABILITY_TIMEOUT_MSG then HandleStartSpecifiedAbilityTimeOut param
  else mret tt.

(** * Resident processes *)

Definition StartEmptyResidentProcess (b : BundleInfo) (processName : string) (restartCount : Z) : M unit :=
  let app := bi_applicationInfo b in
  x ← Manager_CreateAppRunningRecord uninitialized_uid app processName b;
  match x with
  | None => mret tt
  | Some ar =>
      _ ← StartProcess (api_name app) processName 0 ar (api_uid app) (api_bundleName app);
      let isStageBased := match last (bi_hapModuleInfos b) with Some h => hap_isStageBasedModel h | None => false end in
      _ ← upd_app ar (λ a, a <| a_isKeepAlive := true |> <| a_isNewMission := isStageBased |>);
      _ ← (if 0 <? restartCount then upd_app ar (λ a, a <| a_restartCount := restartCount |>) else mret tt);
      _ ← upd_app ar (λ a, a <| a_handler := true |>);
      AddModules ar app (bi_hapModuleInfos b)
  end.

Definition StartResidentProcess (infos : list BundleInfo) (restartCount : Z) : M unit :=
  for_each (λ b,
    let app := bi_applicationInfo b in
    let processName := if String.eqb (api_process app) "" then api_bundleName app else api_process app in
    x ← CheckAppRunningRecordIsExist (api_name app) processName (api_uid app) b;
    match x with
    | Some _ => mret tt
    | None => StartEmptyResidentProcess b processName restartCount
    end) infos.

Definition LoadResidentProcess (ownCall : bool) (infos : list BundleInfo) : M unit :=
  if negb ownCall then mret tt else StartResidentProcess infos (-1).

Definition RestartResidentProcess (callerUid : Z) ar : M unit :=
  a ← the_app ar;
  match GetBundleInfo (api_bundleName (a_info a)) (GetUserIdByUid callerUid) with
  | None => mret tt
  | Some b => StartResidentProcess [b] (a_restartCount a)
  end.

(** * SPECIFIED abilities *)

Definition SetSpecifiedAbilityFlagAndWant ar (flag : bool) (w : Want) (moduleName : string) : M unit :=
  upd_app ar (λ a, a <| a_isSpecified := flag |> <| a_want := w |> <| a_moduleName := moduleName |>).

Definition StartSpecifiedAbility (w : Want) (i : AbilityInfo) : M unit :=
  let app := abi_applicationInfo i in
  match GetBundleAndHapInfo i app with
  | None => mret tt
  | Some (b, h) =>
      let processName := MakeProcessName i app h in
      x ← CheckAppRunningRecordIsExist (api_name app) processName (api_uid app) b;
      match x with
      | None =>
          y ← Manager_CreateAppRunningRecord uninitialized_uid app processName b;
          match y with
          | None => mret tt
          | Some ar =>
              _ ← upd_app ar (λ a, a <| a_handler := true |>);
              _ ← SendEvent ar START_PROCESS_SPECIFIED_ABILITY_TIMEOUT_MSG;
              _ ← StartProcess (api_name app) processName (BuildStartFlags w i) ar (api_uid app) (api_bundleName app);
              _ ← SetSpecifiedAbilityFlagAndWant ar true w (hap_moduleName h);
              AddModules ar app [h]
          end
      | Some ar =>
          _ ← SetSpecifiedAbilityFlagAndWant ar true w (hap_moduleName h);
          a ← the_app ar;
          y ← GetModuleRecordByModuleName a (api_bundleName app) (hap_moduleName h);
          match y with
          | None =>
              _ ← AddModules ar app [h];
              AddAbilityStageBySpecifiedAbility ar (api_bundleName app)
          | Some _ => AppScheduleAcceptWant ar (hap_moduleName h)
          end
      end
  end.

Definition ScheduleAcceptWantDone (recordId : Z) (w : Want) (flag : string) : M unit :=
  with_record recordId (λ ar,
    _ ← AppScheduleAcceptWantDone ar;
    response ← gets startSpecifiedAbilityResponse_;
    if response : bool then app_emit (OnAcceptWantResponseTo w flag) else mret tt).

(** * Render processes *)

Definition CreateRenderRecord (hostPid : Z) (renderParam : string) (ipcFd sharedFd : Z) ar : M (option RenderRef) :=
  if (hostPid <=? 0) || String.eqb renderParam "" || (ipcFd <=? 0) || (sharedFd <=? 0) then mret None
  else
    rr ← app_ref;
    _ ← modify (λ s, s <| am_renders ::= insert rr (mkRender 0 hostPid renderParam ipcFd sharedFd ar None) |>);
    mret (Some rr).

Definition StartRenderProcessImpl (rr : RenderRef) ar : M (AppErr * option Z) :=
  x ← gets (λ s, am_renders s !! rr);
  r ← deref x;
  _ ← app_emit (SpawnRender (rd_renderParam r));
  match nweb_spawn rr with
  | None => mret (APP_INVALID_VALUE, None)
  | Some pid =>
      _ ← upd_app ar (λ a, a <| a_render := Some rr |>);
      _ ← modify (λ s, s <| am_renders ::= alter (λ r, r <| rd_pid := pid |>) rr |>);
      mret (APP_OK, Some pid)
  end.

Definition StartRenderProcess (hostPid : Z) (renderParam : string) (ipcFd sharedFd : Z) : M (AppErr * option Z) :=
  if (hostPid <=? 0) || String.eqb renderParam "" || (ipcFd <=? 0) || (sharedFd <=? 0) then mret (APP_INVALID_VALUE, None)
  else
    x ← GetAppRunningRecordByPid hostPid;
    match x with
    | None => mret (APP_INVALID_VALUE, None)
    | Some ar =>
        a ← the_app ar;
        match a_render a with
        | Some rr =>
            y ← gets (λ s, am_renders s !! rr);
            r ← deref y;
            mret (APP_ALREADY_EXIST_RENDER, Some (rd_pid r))
        | None =>
            y ← CreateRenderRecord hostPid renderParam ipcFd sharedFd ar;
            match y with
            | None => mret (APP_INVALID_VALUE, None)
            | Some rr => StartRenderProcessImpl rr ar
            end
        end
    end.

Definition AttachRenderProcess (pid : Z) (scheduler : option Client) : M unit :=
  if pid <=? 0 then mret tt
  else
    match scheduler with
    | None => mret tt
    | Some c =>
        x ← GetAppRunningRecordByRenderPid pid;
        match x with
        | None => mret tt
        | Some ar =>
            a ← the_app ar;
            match a_render a with
            | None => mret tt
            | Some rr =>
                _ ← modify (λ s, s <| am_renders ::= alter (λ r, r <| rd_scheduler := Some c |>) rr |>);
                _ ← app_emit (AppAddDeathRecipient c);
                y ← gets (λ s, am_renders s !! rr);
                r ← deref y;
                app_emit (NotifyBrowserFd (rd_ipcFd r) (rd_sharedFd r))
            end
        end
    end.

Definition RegisterAppStateCallback (ownCall : bool) (callback : option CallbackRef) : M unit :=
  match ownCall, callback with
  | true, Some cb => modify (λ s, s <| appStateCallbacks_ ::= λ l, l ++ [cb] |>)
  | _, _ => mret tt
  end.
Definition RegisterStartSpecifiedAbilityResponse (ownCall response : bool) : M unit :=
  if response && ownCall then modify (λ s, s <| startSpecifiedAbilityResponse_ := true |>) else mret tt.

Definition AppOnStop : M unit := ClearAppRunningRecordMap.
End service.

Definition new_apps : Apps := mkApps ∅ ∅ ∅ ∅ 1 0 [] [] 0 [] [] [] false [].
