(* ===== verification/AppShape.v ===== *)
(** The invariant of the application manager's records, and what every operation
    leaves: the frame of the proofs about [AppService]. *)

From S2P Require Import Prelude CppString Want AbilityRecord StdMap AppRecords AppManager.

#[local] Open Scope stdpp_scope.
#[local] Open Scope Z_scope.

Implicit Types (s : Apps) (ar : AppRef) (mr : ModRef) (br : AbRef) (token : Token).
Implicit Types (a : AppRunningRecord) (m : ModuleRunningRecord) (b : AbilityRunningRecord).

(** Field by field, leaving the finite maps alone. *)
Ltac apps_cbn := unfold update in *;
  cbn [am_apps am_modules am_abilities am_renders am_next am_created appRunningRecordMap_ recentAppList_ appEventId_
       am_events am_restarts appStateCallbacks_ startSpecifiedAbilityResponse_ am_trace] in *.

Ltac arec_cbn := unfold update in *;
  cbn [a_info a_recordId a_processName a_signCode a_jointUserId a_state a_pid a_uid a_eventId a_foregrounding a_inner
       a_handler a_deal a_appInfos a_hapModules a_isKeepAlive a_isNewMission a_restartCount a_isSpecified a_want
       a_moduleName a_isDebug a_isTerminating a_isKilling a_render] in *.

(** * The invariant *)

(** The lists of modules, one for each bundle, and their infos. *)
Record app_ok s a : Prop := {
  ok_modules mr : mr ∈ GetAllModuleRecord a → is_Some (am_modules s !! mr);
  ok_lists k l : (k, l) ∈ a_hapModules a → l ≠ [];
  ok_bundles k : k ∈ keys (a_hapModules a) ↔ k ∈ keys (a_appInfos a);
  ok_bundles_once : NoDup (keys (a_hapModules a));
  ok_deal mr m : mr ∈ GetAllModuleRecord a → am_modules s !! mr = Some m → is_Some (a_deal a) → m_deal m = true;
  ok_render rr : a_render a = Some rr → is_Some (am_renders s !! rr);
}.

(** The abilities of a module are there, under their tokens. *)
Record module_ok s m : Prop := {
  ok_abilities token br : (token, br) ∈ m_abilities m → ∃ b, am_abilities s !! br = Some b ∧ b_token b = token;
  ok_terminate token br : (token, br) ∈ m_terminate m → ∃ b, am_abilities s !! br = Some b ∧ b_token b = token;
  ok_tokens : NoDup (keys (m_abilities m));
  ok_terminate_tokens : NoDup (keys (m_terminate m));
}.

(** The records filed under their ids, and the recent applications, unless so many
    processes have been started that the ids have come round. *)
Record tables_ok s : Prop := {
  tb_map id ar : (id, ar) ∈ appRunningRecordMap_ s → ∃ a, am_apps s !! ar = Some a ∧ a_recordId a = id;
  tb_once : NoDup (keys (appRunningRecordMap_ s));
  tb_ids : 0 ≤ am_created s ≤ INT_MAX → ∀ ar a, am_apps s !! ar = Some a → 0 < a_recordId a ≤ am_created s;
  tb_recent : 0 ≤ am_created s ≤ INT_MAX → NoDup (ti_recordId <$> recentAppList_ s);
  tb_recent_ids : 0 ≤ am_created s ≤ INT_MAX → ∀ t, t ∈ recentAppList_ s → ti_recordId t ≤ am_created s;
  tb_created : 0 ≤ am_created s;
  tb_restarts ar : ar ∈ am_restarts s → is_Some (am_apps s !! ar);
}.

Record apps_ok s : Prop := {
  ao_apps ar a : am_apps s !! ar = Some a → app_ok s a;
  ao_modules mr m : am_modules s !! mr = Some m → module_ok s m;
  ao_tables : tables_ok s;
  ao_new_app ar : is_Some (am_apps s !! ar) → (ar < am_next s)%positive;
  ao_new_module mr : is_Some (am_modules s !! mr) → (mr < am_next s)%positive;
  ao_new_ability br : is_Some (am_abilities s !! br) → (br < am_next s)%positive;
  ao_new_render rr : is_Some (am_renders s !! rr) → (rr < am_next s)%positive;
}.

(** * What operations leave *)

(** No record comes or goes while one of them is worked on. It keeps its id, and its
    event handler, its way to its process and to the service once it has them. *)
Definition app_stays a a' : Prop :=
  a_recordId a' = a_recordId a ∧ (is_Some (a_deal a) → is_Some (a_deal a')) ∧
  (a_handler a = true → a_handler a' = true) ∧ (a_inner a = true → a_inner a' = true).

#[export] Instance app_stays_preorder : PreOrder app_stays.
Proof.
  split; [by intros a|]. intros a1 a2 a3 (E1 & D1 & H1 & I1) (E2 & D2 & H2 & I2).
  split_and!; [congruence|auto..].
Qed.

Record evolves s s' : Prop := {
  ev_ok : apps_ok s → apps_ok s';
  ev_apps ar a : am_apps s !! ar = Some a → ∃ a', am_apps s' !! ar = Some a' ∧ app_stays a a';
  ev_no_new ar : is_Some (am_apps s' !! ar) → is_Some (am_apps s !! ar);
  ev_modules mr m : am_modules s !! mr = Some m →
    ∃ m', am_modules s' !! mr = Some m' ∧ (m_deal m = true → m_deal m' = true);
  ev_abilities br b : am_abilities s !! br = Some b → ∃ b', am_abilities s' !! br = Some b' ∧ b_token b' = b_token b;
  ev_created : am_created s' = am_created s;
  ev_recent t : t ∈ recentAppList_ s' → t ∈ recentAppList_ s;
  ev_renders rr : is_Some (am_renders s !! rr) → is_Some (am_renders s' !! rr);
}.

#[export] Instance evolves_preorder : PreOrder evolves.
Proof.
  split.
  - intros s. constructor; [done| |done| | |done|done|done]; intros x y Hy; by exists y.
  - intros s1 s2 s3 [K1 A1 N1 M1 B1 C1 R1 Q1] [K2 A2 N2 M2 B2 C2 R2 Q2]. constructor; [auto| |auto| | |congruence|auto|auto].
    + intros ar a Ha. destruct (A1 _ _ Ha) as (a2 & H2 & St2). destruct (A2 _ _ H2) as (a3 & H3 & St3).
      exists a3. split; [done|by transitivity a2].
    + intros mr m Hm. destruct (M1 _ _ Hm) as (m2 & H2 & D2). destruct (M2 _ _ H2) as (m3 & H3 & D3).
      exists m3. auto.
    + intros br b Hb. destruct (B1 _ _ Hb) as (b2 & H2 & E2). destruct (B2 _ _ H2) as (b3 & H3 & E3).
      exists b3. split; [done|congruence].
Qed.

(** ** References that are there *)

Definition known_app s ar : Prop := is_Some (am_apps s !! ar).
Definition known_module s mr : Prop := is_Some (am_modules s !! mr).
Definition known_run s br : Prop := is_Some (am_abilities s !! br).

Definition known_render s rr : Prop := is_Some (am_renders s !! rr).

Lemma known_render_evolves s s' rr : evolves s s' → known_render s rr → known_render s' rr.
Proof. intros H. apply H. Qed.
Lemma known_app_evolves s s' ar : evolves s s' → known_app s ar → known_app s' ar.
Proof. intros H [a Ha]. destruct (ev_apps _ _ H ar a Ha) as (a' & ? & _). by exists a'. Qed.
Lemma known_module_evolves s s' mr : evolves s s' → known_module s mr → known_module s' mr.
Proof. intros H [m Hm]. destruct (ev_modules _ _ H mr m Hm) as (m' & ? & _). by exists m'. Qed.
Lemma known_run_evolves s s' br : evolves s s' → known_run s br → known_run s' br.
Proof. intros H [b Hb]. destruct (ev_abilities _ _ H br b Hb) as (b' & ? & _). by exists b'. Qed.

Create HintDb apps.
#[export] Hint Resolve known_app_evolves known_module_evolves known_run_evolves known_render_evolves : apps.

Lemma all_modules_known s ar a mr :
  apps_ok s → am_apps s !! ar = Some a → mr ∈ GetAllModuleRecord a → known_module s mr.
Proof. intros H Ha. apply (ok_modules _ _ (ao_apps _ H _ _ Ha)). Qed.

Lemma ability_known s mr m token br :
  apps_ok s → am_modules s !! mr = Some m → (token, br) ∈ m_abilities m ∨ (token, br) ∈ m_terminate m →
  ∃ b, am_abilities s !! br = Some b ∧ b_token b = token.
Proof. intros H Hm. destruct (ao_modules _ H _ _ Hm). intros []; eauto. Qed.

Lemma filed_app_known s id ar : apps_ok s → (id, ar) ∈ appRunningRecordMap_ s → known_app s ar.
Proof. intros H Hin. destruct (tb_map _ (ao_tables _ H) _ _ Hin) as (a & Ha & _). by exists a. Qed.

Lemma elem_all_modules a mr : mr ∈ GetAllModuleRecord a ↔ ∃ k l, (k, l) ∈ a_hapModules a ∧ mr ∈ l.
Proof.
  unfold GetAllModuleRecord. rewrite list_elem_of_In, in_concat. split.
  - intros (l & Hl & Hmr). apply list_elem_of_In, elem_values in Hl as (k & Hk). apply list_elem_of_In in Hmr. by exists k, l.
  - intros (k & l & Hk & Hmr). exists l. split; apply list_elem_of_In; [|done]. apply elem_values. by exists k.
Qed.

(** * Steps that keep the frame *)

(** What is not the heap or the tables. *)
Lemma evolves_aside s s' :
  am_apps s' = am_apps s → am_modules s' = am_modules s → am_abilities s' = am_abilities s → am_renders s' = am_renders s →
  am_next s' = am_next s → (tables_ok s → tables_ok s') → am_created s' = am_created s →
  (∀ t, t ∈ recentAppList_ s' → t ∈ recentAppList_ s) → evolves s s'.
Proof.
  intros E1 E2 E3 E4 E5 Ht Hc Hr.
  constructor; rewrite ?E1, ?E2, ?E3, ?E4;
    [|intros ar a Ha; by exists a|done|intros mr m Hm; by exists m|intros br b Hb; by exists b|done..].
  intros H. destruct H as [H1 H2 H3 H4 H5 H6 H7].
  constructor; rewrite ?E1, ?E2, ?E3, ?E4, ?E5; [| |by apply Ht|assumption..].
  - intros ar a Ha. destruct (H1 _ _ Ha). by constructor; rewrite ?E2, ?E4.
  - intros mr m Hm. destruct (H2 _ _ Hm). by constructor; rewrite ?E3.
Qed.

Lemma keeps_app_emit e s : keeps evolves (app_emit e) s.
Proof. apply wp_modify, evolves_aside; try done. by intros []. Qed.

(** The events of the handler, and their number. *)
Lemma keeps_am_events f s : keeps evolves (modify (λ s, s <| am_events ::= f |>)) s.
Proof. apply wp_modify, evolves_aside; try done. by intros []. Qed.
Lemma keeps_event_number f s : keeps evolves (modify (λ s, s <| appEventId_ ::= f |>)) s.
Proof. apply wp_modify, evolves_aside; try done. by intros []. Qed.

(** A record that keeps its modules. *)
Lemma evolves_upd_app ar f s :
  (∀ a, am_apps s !! ar = Some a → app_stays a (f a) ∧ (app_ok s a → app_ok s (f a))) →
  evolves s (s <| am_apps ::= alter f ar |>).
Proof.
  intros Hf. constructor; apps_cbn; [| | |intros mr m Hm; by exists m|by eauto|done..].
  - intros H. assert (∀ ar0, is_Some (alter f ar (am_apps s) !! ar0) → is_Some (am_apps s !! ar0)) as Hold.
    { intros ar0. rewrite lookup_alter. case_decide; [subst; by rewrite fmap_is_Some|done]. }
    assert (∀ ar0 a0, alter f ar (am_apps s) !! ar0 = Some a0 →
      ∃ a1, am_apps s !! ar0 = Some a1 ∧ app_stays a1 a0 ∧ (app_ok s a1 → app_ok s a0)) as Hof.
    { intros ar0 a0. rewrite lookup_alter. case_decide; [subst|intros Ha; by exists a0].
      rewrite fmap_Some. intros (a1 & Ha & ->). exists a1. split; [done|by apply Hf]. }
    destruct H as [H1 H2 [T1 T2 T3 T4 T5 T6 T7] H4 H5 H6 H7]. constructor; apps_cbn; try done; [| | |].
    + intros ar0 a0 (a1 & Ha & _ & Hok)%Hof. destruct (Hok (H1 _ _ Ha)). by constructor.
    + intros mr m Hm. destruct (H2 _ _ Hm). by constructor.
    + constructor; try done; apps_cbn.
      * intros id ar0 Hin. destruct (T1 _ _ Hin) as (a0 & Ha & Hid). rewrite lookup_alter.
        case_decide; [subst; rewrite Ha; exists (f a0)|by exists a0]. split; [done|]. by destruct (Hf _ Ha) as [(-> & _) _].
      * intros Hc ar0 a0 (a1 & Ha & (-> & _) & _)%Hof. by eapply T3.
      * intros ar0 Hin. rewrite lookup_alter. destruct (T7 _ Hin) as [a0 Ha]. case_decide; [subst; rewrite Ha|]; by eauto.
    + intros ar0 Hin. by apply H4, Hold.
  - intros ar0 a Ha. rewrite lookup_alter. case_decide; [subst; rewrite Ha|by exists a].
    exists (f a). split; [done|]. by apply Hf.
  - intros ar0. rewrite lookup_alter. case_decide; [subst; by rewrite fmap_is_Some|done].
Qed.

(** What [app_ok] looks at. *)
Definition plain (f : AppRunningRecord → AppRunningRecord) : Prop := ∀ a,
  a_recordId (f a) = a_recordId a ∧ a_deal (f a) = a_deal a ∧ (a_handler a = true → a_handler (f a) = true) ∧
  (a_inner a = true → a_inner (f a) = true) ∧ a_hapModules (f a) = a_hapModules a ∧ a_appInfos (f a) = a_appInfos a ∧
  (a_render (f a) = a_render a ∨ a_render (f a) = None).

Lemma keeps_upd_plain ar f s : plain f → keeps evolves (upd_app ar f) s.
Proof.
  intros Hf. apply wp_modify, evolves_upd_app. intros a Ha.
  destruct (Hf a) as (E1 & E2 & E3 & E4 & E5 & E6 & E7). split; [unfold app_stays; by rewrite E1, E2|].
  intros []. unfold GetAllModuleRecord in *. constructor; unfold GetAllModuleRecord; rewrite ?E2, ?E5, ?E6; try done.
  intros rr. destruct E7 as [->| ->]; [by apply ok_render0|done].
Qed.

Lemma evolves_upd_run br f s : (∀ b, b_token (f b) = b_token b) → evolves s (s <| am_abilities ::= alter f br |>).
Proof.
  intros Hf.
  assert (∀ br0 b, am_abilities s !! br0 = Some b → ∃ b', alter f br (am_abilities s) !! br0 = Some b' ∧ b_token b' = b_token b) as Hb.
  { intros br0 b Hb. rewrite lookup_alter. case_decide; [subst; rewrite Hb; by exists (f b)|by exists b]. }
  constructor; apps_cbn; [|intros ar a Ha; by exists a|done|intros mr m Hm; by exists m|done..].
  intros [H1 H2 H3 H4 H5 H6 H7]. constructor; apps_cbn; try done.
  - intros ar a Ha. destruct (H1 _ _ Ha). by constructor.
  - intros mr m Hm. destruct (H2 _ _ Hm) as [A1 A2 A3 A4]. constructor; apps_cbn; [..|done|done].
    + intros token br0 Hin. destruct (A1 _ _ Hin) as (b & B1 & <-). by apply Hb.
    + intros token br0 Hin. destruct (A2 _ _ Hin) as (b & B1 & <-). by apply Hb.
  - by destruct H3.
  - intros br0. rewrite lookup_alter. case_decide; [subst; rewrite fmap_is_Some|]; apply H6.
Qed.
Definition same_token (f : AbilityRunningRecord → AbilityRunningRecord) : Prop := ∀ b, b_token (f b) = b_token b.
Lemma keeps_upd_run br f s : same_token f → keeps evolves (upd_run br f) s.
Proof. intros Hf. by apply wp_modify, evolves_upd_run. Qed.

Lemma evolves_upd_module mr f s :
  (∀ m, am_modules s !! mr = Some m → (m_deal m = true → m_deal (f m) = true) ∧ (module_ok s m → module_ok s (f m))) →
  evolves s (s <| am_modules ::= alter f mr |>).
Proof.
  intros Hf.
  assert (∀ mr0, is_Some (alter f mr (am_modules s) !! mr0) ↔ is_Some (am_modules s !! mr0)) as Hold.
  { intros mr0. rewrite lookup_alter. case_decide; [subst; by rewrite fmap_is_Some|done]. }
  constructor; apps_cbn; [|intros ar a Ha; by exists a|done| |intros br b Hb; by exists b|done..].
  { intros [H1 H2 H3 H4 H5 H6 H7]. constructor; apps_cbn; try done.
  - intros ar a Ha. destruct (H1 _ _ Ha). constructor; apps_cbn; try done; [intros mr0 Hin; by apply Hold, ok_modules0|].
    intros mr0 m0 Hin. rewrite lookup_alter. case_decide; [subst|by apply ok_deal0].
    rewrite fmap_Some. intros (m & Hm & ->) Hd. apply (Hf _ Hm). by eapply ok_deal0.
  - intros mr0 m0. rewrite lookup_alter. case_decide; [subst|].
    + rewrite fmap_Some. intros (m & Hm & ->). destruct (proj2 (Hf _ Hm) (H2 _ _ Hm)). by constructor.
    + intros Hm. destruct (H2 _ _ Hm). by constructor.
  - by destruct H3.
  - intros mr0 Hin. by apply H5, Hold. }
  intros mr0 m Hm. rewrite lookup_alter. case_decide; [subst; rewrite Hm|by exists m].
  exists (f m). split; [done|]. by apply Hf.
Qed.

(** A module that keeps its abilities. *)
Definition plain_module (f : ModuleRunningRecord → ModuleRunningRecord) : Prop := ∀ m,
  (m_deal m = true → m_deal (f m) = true) ∧ m_abilities (f m) = m_abilities m ∧ m_terminate (f m) = m_terminate m.
Lemma keeps_upd_module_plain mr f s : plain_module f → keeps evolves (upd_module mr f) s.
Proof.
  intros Hf. apply wp_modify, evolves_upd_module. intros m _. destruct (Hf m) as (Hd & E1 & E2). split; [done|].
  intros []. by constructor; rewrite ?E1, ?E2.
Qed.
