(* ===== verification/AppReads.v ===== *)
(** What the searches of the application manager find: each reads the records only,
    and is a pure function of them. *)

From S2P Require Import Prelude CppString Want AbilityRecord StdMap AppRecords AppManager AppShape.

#[local] Open Scope stdpp_scope.
#[local] Open Scope Z_scope.

Implicit Types (s : Apps) (ar : AppRef) (mr : ModRef) (br : AbRef) (token : Token).
Implicit Types (a : AppRunningRecord) (m : ModuleRunningRecord) (b : AbilityRunningRecord).

(** * Pointers that are there *)

Lemma run_app s ar a : am_apps s !! ar = Some a → the_app ar s = Returned (a, s).
Proof. intros Ha. unfold the_app, gets, mbind, ST_bind, deref. cbn. by rewrite Ha. Qed.
Lemma run_module s mr m : am_modules s !! mr = Some m → the_module mr s = Returned (m, s).
Proof. intros Hm. unfold the_module, gets, mbind, ST_bind, deref. cbn. by rewrite Hm. Qed.
Lemma run_run s br b : am_abilities s !! br = Some b → the_ability br s = Returned (b, s).
Proof. intros Hb. unfold the_ability, gets, mbind, ST_bind, deref. cbn. by rewrite Hb. Qed.

(** Code that only reads, and what it answers. *)
Definition answers {A} (c : ST Apps A) s (P : A → Prop) : Prop := wp c (λ x s', s' = s ∧ P x) s.

Lemma wp_answers {A B} (c : ST Apps A) (k : A → ST Apps B) s P Q :
  answers c s P → (∀ x, P x → wp (k x) Q s) → wp (c ≫= k) Q s.
Proof. intros Hc Hk. apply wp_bind. eapply wp_mono; [exact Hc|]. intros x s' [-> HP]. by apply Hk. Qed.

Lemma keeps_answers {A B} (R : relation Apps) (c : ST Apps A) (k : A → ST Apps B) s P :
  answers c s P → (∀ x, P x → keeps R (k x) s) → keeps R (c ≫= k) s.
Proof. apply wp_answers. Qed.

Lemma answers_run {A} (c : ST Apps A) s x (P : A → Prop) : c s = Returned (x, s) → P x → answers c s P.
Proof. intros Hc HP. unfold answers, wp. by rewrite Hc. Qed.

Lemma answers_app s ar : known_app s ar → answers (the_app ar) s (λ a, am_apps s !! ar = Some a).
Proof. intros [a Ha]. by eapply answers_run; [apply run_app|]. Qed.
Lemma answers_module s mr : known_module s mr → answers (the_module mr) s (λ m, am_modules s !! mr = Some m).
Proof. intros [m Hm]. by eapply answers_run; [apply run_module|]. Qed.
Lemma answers_ability s br : known_run s br → answers (the_ability br) s (λ b, am_abilities s !! br = Some b).
Proof. intros [b Hb]. by eapply answers_run; [apply run_run|]. Qed.

Lemma bind_run {A B} (c : ST Apps A) (k : A → ST Apps B) s x s' : c s = Returned (x, s') → (c ≫= k) s = k x s'.
Proof. intros Hc. unfold mbind, ST_bind. by rewrite Hc. Qed.

Lemma find_m_pure {A} (f : A → ST Apps bool) (g : A → bool) l s :
  (∀ x, x ∈ l → f x s = Returned (g x, s)) → find_m f l s = Returned (List.find g l, s).
Proof.
  intros Hf. assert (wp (find_m f l) (λ x s', x = List.find g l ∧ s' = s) s) as (x & s' & -> & -> & ->)%wp_run; [|done].
  by apply (wp_find_pure f g).
Qed.

Lemma first_m_answers {A B} (f : A → ST Apps (option B)) l s (P : B → Prop) :
  (∀ x, x ∈ l → answers (f x) s (λ r, ∀ y, r = Some y → P y)) → answers (first_m f l) s (λ r, ∀ y, r = Some y → P y).
Proof.
  induction l as [|x l IH]; intros Hf; [by apply wp_ret|]. cbn [first_m]. eapply wp_answers; [apply Hf; by left|].
  intros [y|] Hy; [apply wp_ret; split; [done|exact Hy]|]. apply IH. intros z Hz. apply Hf. by right.
Qed.

Lemma find_m_answers {A} (f : A → ST Apps bool) l s :
  (∀ x, x ∈ l → answers (f x) s (λ _, True)) → answers (find_m f l) s (λ r, ∀ x, r = Some x → x ∈ l).
Proof.
  induction l as [|x l IH]; intros Hf; [by apply wp_ret|]. cbn [find_m]. eapply wp_answers; [apply Hf; by left|].
  intros [] _; [apply wp_ret; split; [done|]; intros ? [= <-]; by left|].
  eapply wp_mono; [apply IH; intros z Hz; apply Hf; by right|]. intros r s' [-> Hr]. split; [done|].
  intros z Hz. right. by apply Hr.
Qed.

(** * Modules and abilities of a token *)

Definition at_module s (has : ModuleRunningRecord → bool) mr : bool :=
  match am_modules s !! mr with Some m => has m | None => false end.
Definition module_holding s (has : ModuleRunningRecord → bool) a : option ModRef :=
  List.find (at_module s has) (GetAllModuleRecord a).
Definition has_token token (m : ModuleRunningRecord) : bool :=
  bool_decide (is_Some (ModuleGetAbilityRunningRecordByToken m token)).
Definition has_ending token (m : ModuleRunningRecord) : bool :=
  bool_decide (is_Some (ModuleGetAbilityByTerminateLists m token)).
Definition ability_in s (find : ModuleRunningRecord → option AbRef) (x : option ModRef) : option AbRef :=
  mr ← x; m ← am_modules s !! mr; find m.
Definition ability_of s token a : option AbRef :=
  ability_in s (λ m, ModuleGetAbilityRunningRecordByToken m token) (module_holding s (has_token token) a).
Definition ending_of s token a : option AbRef :=
  ability_in s (λ m, ModuleGetAbilityByTerminateLists m token) (module_holding s (has_ending token) a).

Section one_app.
Context s ar a (Hok : apps_ok s) (Ha : am_apps s !! ar = Some a).

Lemma run_module_of has : module_of has a s = Returned (module_holding s has a, s).
Proof.
  apply find_m_pure. intros mr Hmr. destruct (all_modules_known _ _ _ _ Hok Ha Hmr) as [m Hm].
  rewrite (bind_run _ _ _ _ _ (run_module _ _ _ Hm)). unfold at_module. by rewrite Hm.
Qed.

Lemma holding_spec has mr :
  module_holding s has a = Some mr → mr ∈ GetAllModuleRecord a ∧ ∃ m, am_modules s !! mr = Some m ∧ has m = true.
Proof.
  intros [Hin Hat]%find_Some_elem. split; [done|]. unfold at_module in Hat.
  destruct (am_modules s !! mr) as [m|]; [by exists m|done].
Qed.

Lemma run_module_by_token token : GetModuleRunningRecordByToken ar token s = Returned (module_holding s (has_token token) a, s).
Proof. unfold GetModuleRunningRecordByToken. rewrite (bind_run _ _ _ _ _ (run_app _ _ _ Ha)). apply run_module_of. Qed.
Lemma run_module_ending token :
  GetModuleRunningRecordByTerminateLists ar token s = Returned (module_holding s (has_ending token) a, s).
Proof. unfold GetModuleRunningRecordByTerminateLists. rewrite (bind_run _ _ _ _ _ (run_app _ _ _ Ha)). apply run_module_of. Qed.

Lemma run_ability_by_token token : GetAbilityRunningRecordByToken ar token s = Returned (ability_of s token a, s).
Proof.
  unfold GetAbilityRunningRecordByToken, ability_of, ability_in. rewrite (bind_run _ _ _ _ _ (run_module_by_token token)).
  destruct (module_holding s (has_token token) a) as [mr|] eqn:E; [|done]. destruct (holding_spec _ _ E) as (_ & m & Hm & _).
  rewrite (bind_run _ _ _ _ _ (run_module _ _ _ Hm)). cbn. by rewrite Hm.
Qed.
Lemma run_ability_ending token : GetAbilityByTerminateLists ar token s = Returned (ending_of s token a, s).
Proof.
  unfold GetAbilityByTerminateLists, ending_of, ability_in. rewrite (bind_run _ _ _ _ _ (run_module_ending token)).
  destruct (module_holding s (has_ending token) a) as [mr|] eqn:E; [|done]. destruct (holding_spec _ _ E) as (_ & m & Hm & _).
  rewrite (bind_run _ _ _ _ _ (run_module _ _ _ Hm)). cbn. by rewrite Hm.
Qed.

(** The ability that a token gives has the token, in a module of the process. *)
Lemma ability_of_spec token br : ability_of s token a = Some br →
  ∃ mr m b, module_holding s (has_token token) a = Some mr ∧ mr ∈ GetAllModuleRecord a ∧ am_modules s !! mr = Some m ∧
    map_find token (m_abilities m) = Some br ∧ am_abilities s !! br = Some b ∧ b_token b = token.
Proof.
  unfold ability_of, ability_in. destruct (module_holding _ _ _) as [mr|] eqn:E; [|done].
  destruct (holding_spec _ _ E) as (Hmr & m & Hm & _). cbn. rewrite Hm. cbn. intros Hbr.
  destruct (ability_known _ _ _ token br Hok Hm) as (b & Hb & Htok); [left; by apply map_find_elem|].
  by exists mr, m, b.
Qed.
Lemma ending_of_spec token br : ending_of s token a = Some br →
  ∃ mr m b, module_holding s (has_ending token) a = Some mr ∧ mr ∈ GetAllModuleRecord a ∧ am_modules s !! mr = Some m ∧
    map_find token (m_terminate m) = Some br ∧ am_abilities s !! br = Some b ∧ b_token b = token.
Proof.
  unfold ending_of, ability_in. destruct (module_holding _ _ _) as [mr|] eqn:E; [|done].
  destruct (holding_spec _ _ E) as (Hmr & m & Hm & _). cbn. rewrite Hm. cbn. intros Hbr.
  destruct (ability_known _ _ _ token br Hok Hm) as (b & Hb & Htok); [right; by apply map_find_elem|].
  by exists mr, m, b.
Qed.

(** A module that has the token is found with its ability. *)
Lemma ability_of_found token : is_Some (module_holding s (has_token token) a) → is_Some (ability_of s token a).
Proof.
  intros [mr E]. unfold ability_of, ability_in. rewrite E. destruct (holding_spec _ _ E) as (_ & m & Hm & Hhas).
  cbn. rewrite Hm. cbn. by apply bool_decide_eq_true in Hhas.
Qed.
End one_app.

(** * Searches of the map *)

Definition at_app s (f : AppRunningRecord → bool) ar : bool :=
  match am_apps s !! ar with Some a => f a | None => false end.
(** The first process, in the order of the ids, that satisfies a test. *)
Definition app_by s (f : AppRunningRecord → bool) : option AppRef := List.find (at_app s f) (values (appRunningRecordMap_ s)).

Lemma value_known s ar : apps_ok s → ar ∈ values (appRunningRecordMap_ s) → known_app s ar.
Proof. intros Hok [id Hin]%elem_values. by eapply filed_app_known. Qed.

Lemma run_find_app_by s f : apps_ok s → find_app_by f s = Returned (app_by s f, s).
Proof.
  intros Hok. unfold find_app_by, find_app. rewrite (bind_run _ _ s _ s eq_refl). apply find_m_pure.
  intros ar Har. destruct (value_known _ _ Hok Har) as [a Ha]. rewrite (bind_run _ _ _ _ _ (run_app _ _ _ Ha)).
  unfold at_app. by rewrite Ha.
Qed.

Lemma run_find_app s (f : AppRef → ST Apps bool) g : apps_ok s →
  (∀ ar a, am_apps s !! ar = Some a → f ar s = Returned (g a, s)) → find_app f s = Returned (app_by s g, s).
Proof.
  intros Hok Hf. unfold find_app. rewrite (bind_run _ _ s _ s eq_refl). apply find_m_pure.
  intros ar Har. destruct (value_known _ _ Hok Har) as [a Ha]. rewrite (Hf _ _ Ha). unfold at_app. by rewrite Ha.
Qed.

Lemma app_by_spec s f ar : app_by s f = Some ar →
  ar ∈ values (appRunningRecordMap_ s) ∧ ∃ a, am_apps s !! ar = Some a ∧ f a = true.
Proof.
  intros [Hin Hat]%find_Some_elem. split; [done|]. unfold at_app in Hat. destruct (am_apps s !! ar) as [a|]; [by exists a|done].
Qed.

Lemma run_app_by_token s token : apps_ok s →
  GetAppRunningRecordByAbilityToken token s = Returned (app_by s (λ a, bool_decide (is_Some (ability_of s token a))), s).
Proof.
  intros Hok. apply run_find_app; [done|]. intros ar a Ha. by rewrite (bind_run _ _ _ _ _ (run_ability_by_token _ _ _ Hok Ha token)).
Qed.
Lemma run_app_ending s token : apps_ok s →
  GetTerminatingAppRunningRecord token s = Returned (app_by s (λ a, bool_decide (is_Some (ending_of s token a))), s).
Proof.
  intros Hok. apply run_find_app; [done|]. intros ar a Ha. by rewrite (bind_run _ _ _ _ _ (run_ability_ending _ _ _ Hok Ha token)).
Qed.

Definition at_render s (test : RenderRecord → bool) a : bool :=
  match a_render a with None => false | Some rr => match am_renders s !! rr with Some r => test r | None => false end end.
Lemma run_app_of_render s test : apps_ok s → app_of_render test s = Returned (app_by s (at_render s test), s).
Proof.
  intros Hok. apply run_find_app; [done|]. intros ar a Ha. rewrite (bind_run _ _ _ _ _ (run_app _ _ _ Ha)). unfold at_render.
  destruct (a_render a) as [rr|] eqn:E; [|done]. destruct (ok_render _ _ (ao_apps _ Hok _ _ Ha) _ E) as [r Hr].
  rewrite (bind_run _ _ s _ s eq_refl). cbn. rewrite Hr. done.
Qed.

(** * The other searches *)

Section by_name.
Context s ar (Hok : apps_ok s) (Har : known_app s ar).

Lemma module_values_known mr m br :
  am_modules s !! mr = Some m → br ∈ values (m_abilities m) ∨ br ∈ values (m_terminate m) → known_run s br.
Proof.
  intros Hm [[token Hin]%elem_values|[token Hin]%elem_values].
  - destruct (ability_known _ _ _ token br Hok Hm) as (b & Hb & _); [by left|]. by exists b.
  - destruct (ability_known _ _ _ token br Hok Hm) as (b & Hb & _); [by right|]. by exists b.
Qed.

Lemma answers_member a mr : am_apps s !! ar = Some a → mr ∈ GetAllModuleRecord a →
  answers (the_module mr) s (λ m, am_modules s !! mr = Some m).
Proof. intros Ha Hmr. apply answers_module. exact (all_modules_known _ _ _ _ Hok Ha Hmr). Qed.

Lemma find_abilities (f : AbilityRunningRecord → bool) l : (∀ br, br ∈ l → known_run s br) →
  answers (find_m (λ br, b ← the_ability br; mret (f b)) l) s (λ r, ∀ br, r = Some br → known_run s br).
Proof.
  intros Hl. eapply wp_mono; [apply find_m_answers|].
  - intros br Hbr. eapply wp_answers; [by apply answers_ability, Hl|]. intros b _. by apply wp_ret.
  - intros r s' [-> Hr]. split; [done|]. intros br ->. by apply Hl, Hr.
Qed.

Lemma answers_ability_by_name abilityName moduleName ownerUserId :
  answers (GetAbilityRunningRecord ar abilityName moduleName ownerUserId) s (λ r, ∀ br, r = Some br → known_run s br).
Proof.
  unfold GetAbilityRunningRecord. eapply wp_answers; [by apply answers_app|]. intros a Ha. apply first_m_answers.
  intros mr Hmr. eapply wp_answers; [by apply (answers_member a)|]. intros m Hm.
  case_match; [by apply wp_ret|]. apply find_abilities. intros br Hbr. apply (module_values_known mr m); [done|by left].
Qed.

Lemma answers_ability_of_event eventId :
  answers (GetAbilityRunningRecordOfEvent ar eventId) s (λ r, ∀ br, r = Some br → known_run s br).
Proof.
  unfold GetAbilityRunningRecordOfEvent. eapply wp_answers; [by apply answers_app|]. intros a Ha. apply first_m_answers.
  intros mr Hmr. eapply wp_answers; [by apply (answers_member a)|]. intros m Hm.
  unfold ModuleGetAbilityRunningRecordOfEvent. eapply wp_answers.
  { apply find_abilities. intros br Hbr. apply (module_values_known mr m); [done|by left]. }
  intros [br|] Hbr; [by apply wp_ret|]. apply find_abilities. intros br1 Hbr1. apply (module_values_known mr m); [done|by right].
Qed.

Lemma answers_module_by_name a bundleName moduleName : am_apps s !! ar = Some a →
  answers (GetModuleRecordByModuleName a bundleName moduleName) s
    (λ r, ∀ mr, r = Some mr → mr ∈ GetAllModuleRecord a).
Proof.
  intros Ha. unfold GetModuleRecordByModuleName. destruct (map_find bundleName (a_hapModules a)) as [l|] eqn:E; [|by apply wp_ret].
  assert (∀ mr, mr ∈ l → mr ∈ GetAllModuleRecord a) as Hl.
  { intros mr Hmr. apply elem_all_modules. exists bundleName, l. split; [by apply map_find_elem|done]. }
  eapply wp_mono; [apply find_m_answers|].
  - intros mr Hmr. eapply wp_answers; [by apply (answers_member a); [|apply Hl]|]. intros m _. by apply wp_ret.
  - intros r s' [-> Hr]. split; [done|]. intros mr ->. by apply Hl, Hr.
Qed.

Lemma answers_is_last token : answers (IsLastAbilityRecord ar token) s (λ _, True).
Proof.
  destruct Har as [a Ha]. unfold IsLastAbilityRecord. apply (wp_answers _ _ _ (λ x, x = module_holding s (has_token token) a)).
  { by eapply answers_run; [by apply run_module_by_token|]. }
  intros x ->.
  destruct (module_holding _ _ _) as [mr|] eqn:E; [|by apply wp_ret].
  eapply wp_answers; [by apply answers_app; exists a|]. intros a' Ha'. case_match; [|by apply wp_ret].
  destruct (holding_spec _ _ _ _ E) as (_ & m & Hm & _).
  eapply wp_answers; [by apply answers_module; exists m|]. intros m' _. by apply wp_ret.
Qed.

(** The abilities of a process. *)
Lemma answers_abilities a : (∀ mr, mr ∈ GetAllModuleRecord a → known_module s mr) →
  answers (GetAbilities a) s (λ l, ∀ br, br ∈ values l → known_run s br).
Proof.
  intros Ha. unfold GetAbilities, answers, wp. split; [done|].
  assert (∀ l, (∀ mr, mr ∈ l → known_module s mr) → ∀ acc, (∀ br, br ∈ values acc → known_run s br) → ∀ br,
    br ∈ values (foldl (λ acc mr, match am_modules s !! mr with
      | Some m => foldl (λ acc e, map_emplace e.1 e.2 acc) acc (m_abilities m) | None => acc end) acc l) → known_run s br) as H.
  { induction l as [|mr l IH]; intros Hl acc Hacc; [done|]. cbn [foldl]. apply IH; [intros; apply Hl; by right|].
    destruct (am_modules s !! mr) as [m|] eqn:Hm; [|done].
    assert (∀ br, br ∈ values (m_abilities m) → known_run s br) as Hin.
    { intros br Hbr. apply (module_values_known mr m); [done|by left]. }
    revert acc Hacc Hin. induction (m_abilities m) as [|[k v] es IH2]; intros acc Hacc Hin; [done|]. cbn [foldl].
    apply IH2; [|intros br Hbr; apply Hin; by right].
    intros br [k1 [E|Hk]%elem_emplace]%elem_values.
    - cbn in E. simplify_eq. apply Hin. by left.
    - apply Hacc, elem_values. by exists k1. }
  intros br. apply H; [done|]. by intros ? ?%not_elem_of_nil.
Qed.
End by_name.
