(* ===== verification/AppFrames.v ===== *)
(** What the operations of the records leave ([AppRecords]): they return, and keep to
    the frame [evolves] of [AppShape]. *)

From S2P Require Import Prelude CppString Want AbilityRecord StdMap AppRecords AppManager AppShape AppReads.

#[local] Open Scope stdpp_scope.
#[local] Open Scope Z_scope.

Implicit Types (s : Apps) (ar : AppRef) (mr : ModRef) (br : AbRef) (token : Token).
Implicit Types (a : AppRunningRecord) (m : ModuleRunningRecord) (b : AbilityRunningRecord).

(** * Automation *)

Lemma evolves_ok s s' : evolves s s' → apps_ok s → apps_ok s'.
Proof. by intros []. Qed.
Lemma lookup_known_app s ar a : am_apps s !! ar = Some a → known_app s ar.
Proof. by intros; exists a. Qed.
Lemma lookup_known_module s mr m : am_modules s !! mr = Some m → known_module s mr.
Proof. by intros; exists m. Qed.
Lemma lookup_known_run s br b : am_abilities s !! br = Some b → known_run s br.
Proof. by intros; exists b. Qed.

(** The process of a record has attached; a record has its event handler. *)
Definition attached s ar : Prop := ∃ a, am_apps s !! ar = Some a ∧ is_Some (a_deal a).
Definition handled s ar : Prop := ∃ a, am_apps s !! ar = Some a ∧ a_handler a = true.

Lemma attached_evolves s s' ar : evolves s s' → attached s ar → attached s' ar.
Proof.
  intros H (a & Ha & Hd). destruct (ev_apps _ _ H _ _ Ha) as (a' & Ha' & (_ & Hd' & _)). exists a'. auto.
Qed.
Lemma handled_evolves s s' ar : evolves s s' → handled s ar → handled s' ar.
Proof.
  intros H (a & Ha & Hd). destruct (ev_apps _ _ H _ _ Ha) as (a' & Ha' & (_ & _ & Hd' & _)). exists a'. auto.
Qed.
Lemma attached_deal s ar a : attached s ar → am_apps s !! ar = Some a → is_Some (a_deal a).
Proof. intros (a' & Ha' & Hd) Ha. by simplify_eq. Qed.
Lemma handled_handler s ar a : handled s ar → am_apps s !! ar = Some a → a_handler a = true.
Proof. intros (a' & Ha' & Hd) Ha. by simplify_eq. Qed.

#[export] Hint Resolve evolves_ok lookup_known_app lookup_known_module lookup_known_run : apps.
#[export] Hint Resolve attached_evolves handled_evolves all_modules_known : apps.
#[export] Hint Resolve keeps_app_emit keeps_am_events keeps_event_number : apps.

#[export] Hint Resolve keeps_upd_plain keeps_upd_run keeps_upd_module_plain : apps.
#[export] Hint Extern 1 (plain _) => (intros ?; cbn; tauto) : apps.
#[export] Hint Extern 1 (same_token _) => (intros ?; reflexivity) : apps.
#[export] Hint Extern 1 (plain_module _) => (intros ?; cbn; tauto) : apps.
#[export] Hint Unfold post_event RemoveEvent RemoveEventOf : apps.

Lemma evolves_then {A} (c : ST Apps A) s s1 : evolves s s1 → keeps evolves c s1 → wp c (λ _ s2, evolves s s2) s1.
Proof. intros H Hc. eapply wp_mono; [exact Hc|]. intros x s2 H2. by transitivity s1. Qed.

(** One step of code that keeps to the frame. *)
Ltac app_step :=
  lazymatch goal with
  | |- keeps evolves (mret _) _ => apply (keeps_ret evolves)
  | |- keeps evolves (the_app ?ar ≫= _) _ => eapply keeps_answers;
      [apply answers_app; solve [eauto 10 with apps]|cbv beta; let a := fresh "a" in let H := fresh "Ha" in intros a H]
  | |- keeps evolves (the_module ?mr ≫= _) _ => eapply keeps_answers;
      [apply answers_module; solve [eauto 10 with apps]|cbv beta; let m := fresh "m" in let H := fresh "Hm" in intros m H]
  | |- keeps evolves (the_ability ?br ≫= _) _ => eapply keeps_answers;
      [apply answers_ability; solve [eauto 10 with apps]|cbv beta; let b := fresh "b" in let H := fresh "Hb" in intros b H]
  | |- keeps evolves (gets _ ≫= _) _ => apply keeps_gets
  | |- keeps evolves (_ ≫= _) _ =>
      apply (keeps_bind evolves); [|let x := fresh "x" in let s1 := fresh "s" in let H := fresh "Hev" in
        let H2 := fresh "Hok" in intros x s1 _ H; assert (apps_ok s1) as H2 by eauto 3 with apps]
  | |- keeps evolves (match ?x with _ => _ end) _ => destruct x eqn:?
  | |- keeps evolves _ _ => solve [eauto 12 with apps]
  end.
Ltac app_steps := repeat app_step.

(** * Messages and reports *)

Section reports.
Context (s : Apps) (Hok : apps_ok s).

Lemma keeps_to_client a msg : keeps evolves (to_client a msg) s.
Proof. unfold to_client. app_steps. Qed.
Lemma keeps_deal_schedule a msg : is_Some (a_deal a) → keeps evolves (deal_schedule a msg) s.
Proof. intros [d Hd]. unfold deal_schedule. apply wp_bind. eapply wp_deref; [done|]. apply keeps_to_client. Qed.

Lemma keeps_tell_callbacks (f : CallbackRef → AppEffect) l : keeps evolves (for_each (λ cb, app_emit (f cb)) l) s.
Proof. apply (keeps_for_each_from evolves). intros cb s' _ _. apply keeps_app_emit. Qed.
End reports.
#[export] Hint Resolve keeps_to_client keeps_deal_schedule keeps_tell_callbacks : apps.

Section records.
Context (s : Apps) (Hok : apps_ok s) (ar : AppRef) (Har : known_app s ar).

Lemma keeps_schedule msg : keeps evolves (schedule ar msg) s.
Proof using Hok Har. unfold schedule. app_steps. Qed.
Lemma keeps_tell_app_state st : keeps evolves (OnAppStateChanged ar st) s.
Proof using Hok Har. unfold OnAppStateChanged. app_steps. Qed.
Lemma keeps_OnAbilityStateChanged br st : known_run s br → keeps evolves (OnAbilityStateChanged br st) s.
Proof using Hok. intros Hbr. unfold OnAbilityStateChanged. app_steps. Qed.
Lemma keeps_StateChangedNotifyObserver br st isAbility :
  known_run s br → keeps evolves (StateChangedNotifyObserver ar br st isAbility) s.
Proof using Hok Har. intros Hbr. unfold StateChangedNotifyObserver. app_steps. Qed.
Lemma keeps_with_live_client f : keeps evolves (with_live_client f ar) s.
Proof using Hok Har. unfold with_live_client. app_steps. Qed.
Lemma keeps_LaunchApplication_ : keeps evolves (LaunchApplication_ ar) s.
Proof using Hok Har. unfold LaunchApplication_. app_steps. Qed.
Lemma keeps_AppApplicationTerminated : keeps evolves (AppApplicationTerminated ar) s.
Proof using Hok Har. unfold AppApplicationTerminated, RemoveEventOf. app_steps. Qed.
End records.
#[export] Hint Resolve keeps_schedule keeps_tell_app_state keeps_OnAbilityStateChanged
  keeps_StateChangedNotifyObserver keeps_with_live_client keeps_LaunchApplication_ keeps_AppApplicationTerminated : apps.

Section records2.
Context (s : Apps) (Hok : apps_ok s) (ar : AppRef) (Har : known_app s ar).

Lemma keeps_app_SendEvent msg : keeps evolves (SendEvent ar msg) s.
Proof using Hok Har. unfold SendEvent, post_event. app_steps. Qed.
Lemma keeps_ModuleSendEvent mr msg br : known_module s mr → known_run s br → keeps evolves (ModuleSendEvent mr msg br) s.
Proof using Hok. intros Hmr Hbr. unfold ModuleSendEvent, post_event. app_steps. Qed.
Lemma keeps_ModuleOnAbilityStateChanged mr br st :
  known_module s mr → known_run s br → keeps evolves (ModuleOnAbilityStateChanged mr br st) s.
Proof using Hok. intros Hmr Hbr. unfold ModuleOnAbilityStateChanged. app_steps. Qed.

End records2.
#[export] Hint Resolve keeps_app_SendEvent keeps_ModuleSendEvent keeps_ModuleOnAbilityStateChanged : apps.

(** * Searches by token *)

(** A module that has been given the way to the process. *)
Definition dealt s mr : Prop := ∃ m, am_modules s !! mr = Some m ∧ m_deal m = true.
Lemma dealt_evolves s s' mr : evolves s s' → dealt s mr → dealt s' mr.
Proof. intros H (m & Hm & Hd). destruct (ev_modules _ _ H _ _ Hm) as (m' & Hm' & Hd'). exists m'. auto. Qed.
Lemma dealt_known s mr : dealt s mr → known_module s mr.
Proof. intros (m & Hm & _). by exists m. Qed.
#[export] Hint Resolve dealt_evolves dealt_known : apps.

Definition one_of s ar mr : Prop := ∃ a, am_apps s !! ar = Some a ∧ mr ∈ GetAllModuleRecord a.
Lemma one_of_known s ar mr : apps_ok s → one_of s ar mr → known_module s mr.
Proof. intros Hok (a & Ha & Hmr). by eapply all_modules_known. Qed.
Lemma one_of_dealt s ar mr : apps_ok s → one_of s ar mr → attached s ar → dealt s mr.
Proof.
  intros Hok (a & Ha & Hmr) (a' & Ha' & Hd). simplify_eq. destruct (all_modules_known _ _ _ _ Hok Ha Hmr) as [m Hm].
  exists m. split; [done|]. by apply (ok_deal _ _ (ao_apps _ Hok _ _ Ha) mr).
Qed.
#[export] Hint Resolve one_of_known one_of_dealt : apps.

Section searches.
Context (s : Apps) (Hok : apps_ok s) (ar : AppRef) (Har : known_app s ar).

Lemma answers_module_by_token token : answers (GetModuleRunningRecordByToken ar token) s
  (λ x, ∀ mr, x = Some mr → one_of s ar mr ∧ ∃ m, am_modules s !! mr = Some m ∧ has_token token m = true).
Proof using Hok Har.
  destruct Har as [a Ha]. eapply answers_run; [by apply (run_module_by_token _ _ a)|]. intros mr Hmr.
  destruct (holding_spec _ _ _ _ Hmr) as (Hin & m & Hm & Hhas). split; [by exists a|by exists m].
Qed.
Lemma answers_module_ending token : answers (GetModuleRunningRecordByTerminateLists ar token) s
  (λ x, ∀ mr, x = Some mr → one_of s ar mr ∧ ∃ m, am_modules s !! mr = Some m ∧ has_ending token m = true).
Proof using Hok Har.
  destruct Har as [a Ha]. eapply answers_run; [by apply (run_module_ending _ _ a)|]. intros mr Hmr.
  destruct (holding_spec _ _ _ _ Hmr) as (Hin & m & Hm & Hhas). split; [by exists a|by exists m].
Qed.
Lemma answers_ability_by_token token : answers (GetAbilityRunningRecordByToken ar token) s
  (λ x, ∀ br, x = Some br → known_run s br).
Proof using Hok Har.
  destruct Har as [a Ha]. eapply answers_run; [by apply (run_ability_by_token _ _ a)|]. intros br Hbr.
  destruct (ability_of_spec _ _ Hok _ _ Hbr) as (mr & m & b & _ & _ & _ & _ & Hb & _). by exists b.
Qed.
End searches.

Lemma run_known_of s mr m token br :
  apps_ok s → am_modules s !! mr = Some m → map_find token (m_abilities m) = Some br → known_run s br.
Proof.
  intros Hok Hm E%map_find_elem. destruct (ability_known _ _ _ _ _ Hok Hm (or_introl E)) as (b & Hb & _). by exists b.
Qed.
Lemma ending_known_of s mr m token br :
  apps_ok s → am_modules s !! mr = Some m → map_find token (m_terminate m) = Some br → known_run s br.
Proof.
  intros Hok Hm E%map_find_elem. destruct (ability_known _ _ _ _ _ Hok Hm (or_intror E)) as (b & Hb & _). by exists b.
Qed.
#[export] Hint Resolve run_known_of ending_known_of : apps.

(** * Launching *)

Section launching.
Context (s : Apps) (Hok : apps_ok s) (ar : AppRef) (Har : known_app s ar).

Lemma keeps_ModuleLaunchAbility mr br : dealt s mr → known_run s br → keeps evolves (ModuleLaunchAbility ar mr br) s.
Proof using Hok Har.
  intros Hmr Hbr. unfold ModuleLaunchAbility. do 3 app_step; [app_steps|].
  assert (m_deal m = true) as -> by (by destruct Hmr as (m' & ? & ?); simplify_eq). app_steps.
Qed.
End launching.
#[export] Hint Resolve keeps_ModuleLaunchAbility : apps.

Section launching2.
Context (s : Apps) (Hok : apps_ok s) (ar : AppRef) (Har : known_app s ar).

Lemma keeps_ModuleLaunchPendingAbilities mr : dealt s mr → keeps evolves (ModuleLaunchPendingAbilities ar mr) s.
Proof using Hok Har.
  intros Hmr. unfold ModuleLaunchPendingAbilities. app_step. apply (keeps_for_each_from evolves). intros br s' Hbr Hev.
  assert (known_run s br) by (eapply module_values_known; [done..|by left]). assert (apps_ok s') by eauto with apps. app_steps.
Qed.

Lemma keeps_LaunchAbility br : known_run s br → keeps evolves (LaunchAbility ar br) s.
Proof using Hok Har.
  intros Hbr. unfold LaunchAbility. do 3 app_step. eapply keeps_answers; [by apply answers_module_by_token|].
  intros [mr|] Hx; [|app_steps]. destruct (Hx _ eq_refl) as [H1 _]. assert (attached s ar) by (exists a; eauto). app_steps.
Qed.

End launching2.
#[export] Hint Resolve keeps_ModuleLaunchPendingAbilities keeps_LaunchAbility : apps.

Lemma wp_dealt mr s' : known_module s' mr →
  wp (upd_module mr (λ m, m <| m_deal := true |>)) (λ _ s1, evolves s' s1 ∧ dealt s1 mr) s'.
Proof.
  intros [m Hm]. apply wp_and; [by apply keeps_upd_module_plain|]. apply wp_modify. exists (m <| m_deal := true |>).
  apps_cbn. rewrite lookup_alter, decide_True, Hm by done. done.
Qed.

Lemma keeps_LaunchPendingAbilities s ar :
  apps_ok s → known_app s ar → attached s ar → keeps evolves (LaunchPendingAbilities ar) s.
Proof.
  intros Hok Har Hatt. unfold LaunchPendingAbilities. app_step. apply (keeps_for_each_from evolves). intros mr s' Hmr Hev.
  assert (apps_ok s') by eauto with apps. assert (is_Some (a_deal a)) as Hd by (by eapply attached_deal).
  rewrite bool_decide_true by done. apply wp_bind. eapply wp_mono; [apply wp_dealt; eauto with apps|].
  intros _ s1 [Hev1 Hd1]. apply evolves_then; [done|]. apply keeps_ModuleLaunchPendingAbilities; eauto with apps.
Qed.

#[export] Hint Resolve keeps_LaunchPendingAbilities : apps.

(** * Modules and their stages *)

Lemma keeps_GetTheModuleInfoNeedToUpdated {A} s ar bundleName (k : option HapModuleInfo → ST Apps A) :
  apps_ok s → known_app s ar → (∀ x s', apps_ok s' → evolves s s' → keeps evolves (k x) s') →
  keeps evolves (GetTheModuleInfoNeedToUpdated ar bundleName ≫= k) s.
Proof.
  intros Hok Har Hk. apply (keeps_bind evolves); [|intros x s' _ Hev; apply Hk; eauto with apps].
  unfold GetTheModuleInfoNeedToUpdated. app_step. app_step; [|app_steps].
  assert (∀ mr, mr ∈ l → known_module s mr) as Hl.
  { intros mr Hmr. eapply all_modules_known; [done..|]. apply elem_all_modules. exists bundleName, l.
    split; [by apply map_find_elem|done]. }
  eapply keeps_answers; [apply find_m_answers|].
  - intros mr Hmr. eapply wp_answers; [by apply answers_module, Hl|]. intros m _. by apply wp_ret.
  - intros [mr|] Hx; [|app_steps]. assert (known_module s mr) by (by apply Hl, Hx). app_steps.
Qed.

Lemma keeps_AddAbilityStage s ar : apps_ok s → known_app s ar → attached s ar → keeps evolves (AddAbilityStage ar) s.
Proof.
  intros Hok Har Hatt. unfold AddAbilityStage. app_step. app_step; [app_steps|].
  apply keeps_GetTheModuleInfoNeedToUpdated; [done..|]. intros [h|] s' Hok' Hev; [|app_steps].
  assert (is_Some (a_deal a)) by (by eapply attached_deal). app_steps.
Qed.

Lemma keeps_AddAbilityStageBySpecifiedAbility s ar bundleName : apps_ok s → known_app s ar → attached s ar → handled s ar →
  keeps evolves (AddAbilityStageBySpecifiedAbility ar bundleName) s.
Proof.
  intros Hok Har Hatt Hh. unfold AddAbilityStageBySpecifiedAbility.
  apply keeps_GetTheModuleInfoNeedToUpdated; [done..|]. intros [h|] s' Hok' Hev; [|app_steps]. app_step.
  assert (is_Some (a_deal a)) by (eapply attached_deal; [|eassumption]; eauto with apps).
  assert (a_handler a = true) as -> by (eapply handled_handler; [|eassumption]; eauto with apps).
  app_step; [app_steps|]. unfold HasInnerEvent. app_steps.
Qed.

Lemma keeps_AppScheduleAcceptWant s ar moduleName : apps_ok s → known_app s ar → attached s ar →
  keeps evolves (AppScheduleAcceptWant ar moduleName) s.
Proof.
  intros Hok Har Hatt. unfold AppScheduleAcceptWant. app_step; [app_steps|]. app_step.
  assert (is_Some (a_deal a)) by (eapply attached_deal; [|eassumption]; eauto with apps). app_steps.
Qed.
#[export] Hint Resolve keeps_AddAbilityStage keeps_AddAbilityStageBySpecifiedAbility keeps_AppScheduleAcceptWant : apps.

Lemma keeps_AppAddAbilityStageDone s ar : apps_ok s → known_app s ar → attached s ar → handled s ar →
  keeps evolves (AppAddAbilityStageDone ar) s.
Proof.
  intros Hok Har Hatt Hh. unfold AppAddAbilityStageDone, RemoveEvent. app_step.
  assert (a_handler a = true) as -> by (by eapply handled_handler). app_steps.
Qed.
Lemma keeps_AppScheduleAcceptWantDone s ar : apps_ok s → known_app s ar → handled s ar →
  keeps evolves (AppScheduleAcceptWantDone ar) s.
Proof.
  intros Hok Har Hh. unfold AppScheduleAcceptWantDone, RemoveEventOf. app_step.
  assert (a_handler a = true) as -> by (by eapply handled_handler). app_steps.
Qed.
#[export] Hint Resolve keeps_AppAddAbilityStageDone keeps_AppScheduleAcceptWantDone : apps.
