(* ===== verification/AppModules.v ===== *)
(** Modules and abilities that come and go: what [AddModule], [RemoveModuleRecord],
    [SetApplicationClient] and the terminations leave of [apps_ok]. *)

From S2P Require Import Prelude CppString Want AbilityRecord StdMap AppRecords AppManager AppShape AppReads AppFrames.

#[local] Open Scope stdpp_scope.
#[local] Open Scope Z_scope.

Implicit Types (s : Apps) (ar : AppRef) (mr : ModRef) (br : AbRef) (token : Token).
Implicit Types (a : AppRunningRecord) (m : ModuleRunningRecord) (b : AbilityRunningRecord).

(** * New objects *)

(** More of the heap, at the address that is next. *)
Definition more {V} (next : positive) (old new : gmap positive V) : Prop :=
  old ⊆ new ∧ ∀ p, is_Some (new !! p) → is_Some (old !! p) ∨ p = next.

Lemma more_refl {V} next (old : gmap positive V) : more next old old.
Proof. split; [done|auto]. Qed.
Lemma more_insert {V} next (old : gmap positive V) v :
  (∀ p, is_Some (old !! p) → (p < next)%positive) → more next old (<[next := v]> old).
Proof.
  intros Hnew. split.
  - apply insert_subseteq. apply eq_None_not_Some. intros H%Hnew. lia.
  - intros p. rewrite lookup_insert. case_decide; auto.
Qed.

Lemma apps_ok_more s ms bs rs :
  more (am_next s) (am_modules s) ms → more (am_next s) (am_abilities s) bs → more (am_next s) (am_renders s) rs →
  (∀ m, ms !! am_next s = Some m → am_modules s !! am_next s = None → m_abilities m = [] ∧ m_terminate m = []) →
  apps_ok s →
  apps_ok (s <| am_next ::= Pos.succ |> <| am_modules := ms |> <| am_abilities := bs |> <| am_renders := rs |>).
Proof.
  intros [M1 M2] [B1 B2] [R1 R2] Hm [H1 H2 H3 H4 H5 H6 H7]. constructor; apps_cbn.
  - intros ar a Ha. destruct (H1 _ _ Ha) as [A1 A2 A3 A4 A5 A6]. constructor; apps_cbn; try done.
    + intros mr [m Hmr]%A1. exists m. by eapply lookup_weaken.
    + intros mr m Hin Hmr. destruct (A1 _ Hin) as [m0 Hm0].
      rewrite (lookup_weaken _ _ _ _ Hm0 M1) in Hmr. simplify_eq. by apply (A5 mr).
    + intros rr [r Hr]%A6. exists r. by eapply lookup_weaken.
  - intros mr m Hmr. destruct (am_modules s !! mr) as [m0|] eqn:E.
    + rewrite (lookup_weaken _ _ _ _ E M1) in Hmr. simplify_eq. destruct (H2 _ _ E) as [A1 A2 A3 A4].
      constructor; apps_cbn; try done.
      * intros token br Hin. destruct (A1 _ _ Hin) as (b & Hb & ?). exists b. split; [by eapply lookup_weaken|done].
      * intros token br Hin. destruct (A2 _ _ Hin) as (b & Hb & ?). exists b. split; [by eapply lookup_weaken|done].
    + destruct (M2 mr) as [[x Hx]| ->]; [by exists m|congruence|]. destruct (Hm _ Hmr E) as [E1 E2].
      constructor; rewrite ?E1, ?E2; try (by intros ? ? ?%not_elem_of_nil); constructor.
  - by destruct H3.
  - intros ar Har. specialize (H4 _ Har). lia.
  - intros mr [Hmr| ->]%M2; [specialize (H5 _ Hmr)|]; lia.
  - intros br [Hbr| ->]%B2; [specialize (H6 _ Hbr)|]; lia.
  - intros rr [Hrr| ->]%R2; [specialize (H7 _ Hrr)|]; lia.
Qed.

Lemma evolves_more s s' ms bs rs :
  more (am_next s) (am_modules s) ms → more (am_next s) (am_abilities s) bs → more (am_next s) (am_renders s) rs →
  (∀ m, ms !! am_next s = Some m → am_modules s !! am_next s = None → m_abilities m = [] ∧ m_terminate m = []) →
  s' = s <| am_next ::= Pos.succ |> <| am_modules := ms |> <| am_abilities := bs |> <| am_renders := rs |> → evolves s s'.
Proof.
  intros M B R Hm ->. constructor.
  - by apply apps_ok_more.
  - intros ar a Ha. by exists a.
  - done.
  - intros mr m Hmr. exists m. split; [|done]. apps_cbn. destruct M. by eapply lookup_weaken.
  - intros br b Hb. exists b. split; [|done]. apps_cbn. destruct B. by eapply lookup_weaken.
  - done.
  - done.
  - intros rr [r Hr]. exists r. apps_cbn. destruct R. by eapply lookup_weaken.
Qed.

Lemma apps_eta s : mkApps (am_apps s) (am_modules s) (am_abilities s) (am_renders s) (am_next s) (am_created s)
  (appRunningRecordMap_ s) (recentAppList_ s) (appEventId_ s) (am_events s) (am_restarts s) (appStateCallbacks_ s)
  (startSpecifiedAbilityResponse_ s) (am_trace s) = s.
Proof. by destruct s. Qed.

Lemma wp_new_module {A} s m (k : ModRef → ST Apps A) Q : apps_ok s → m_abilities m = [] → m_terminate m = [] →
  (∀ s', evolves s s' → am_apps s' = am_apps s → am_modules s' !! am_next s = Some m → am_modules s !! am_next s = None →
     wp (k (am_next s)) Q s') →
  wp (mr ← app_ref; _ ← modify (λ s, s <| am_modules ::= insert mr m |>); k mr) Q s.
Proof.
  intros Hok E1 E2 HQ. unfold app_ref. apply wp_bind, wp_bind, wp_gets, wp_bind, wp_modify, wp_ret, wp_bind, wp_modify.
  apply HQ; [|done|apps_cbn; apply lookup_insert_eq|apply eq_None_not_Some; intros H%(ao_new_module _ Hok); lia].
  apply (evolves_more _ _ (<[am_next s := m]> (am_modules s)) (am_abilities s) (am_renders s)).
  - apply more_insert, Hok.
  - apply more_refl.
  - apply more_refl.
  - intros m'. rewrite lookup_insert_eq. intros [= <-] _. done.
  - done.
Qed.

Lemma wp_new_ability {A} s b (k : AbRef → ST Apps A) Q : apps_ok s →
  (∀ s', evolves s s' → am_modules s' = am_modules s → am_abilities s' !! am_next s = Some b → wp (k (am_next s)) Q s') →
  wp (br ← app_ref; _ ← modify (λ s, s <| am_abilities ::= insert br b |>); k br) Q s.
Proof.
  intros Hok HQ. unfold app_ref. apply wp_bind, wp_bind, wp_gets, wp_bind, wp_modify, wp_ret, wp_bind, wp_modify.
  apply HQ; [|done|apps_cbn; apply lookup_insert_eq].
  apply (evolves_more _ _ (am_modules s) (<[am_next s := b]> (am_abilities s)) (am_renders s)); [apply more_refl| |apply more_refl| |done].
  - apply more_insert, Hok.
  - intros m' Hm' Hn. congruence.
Qed.

Lemma wp_new_render {A} s r (k : RenderRef → ST Apps A) Q : apps_ok s →
  (∀ s', evolves s s' → am_renders s' !! am_next s = Some r → wp (k (am_next s)) Q s') →
  wp (rr ← app_ref; _ ← modify (λ s, s <| am_renders ::= insert rr r |>); k rr) Q s.
Proof.
  intros Hok HQ. unfold app_ref. apply wp_bind, wp_bind, wp_gets, wp_bind, wp_modify, wp_ret, wp_bind, wp_modify.
  apply HQ; [|apps_cbn; apply lookup_insert_eq].
  apply (evolves_more _ _ (am_modules s) (am_abilities s) (<[am_next s := r]> (am_renders s))); [apply more_refl|apply more_refl| | |done].
  - apply more_insert, Hok.
  - intros m' Hm' Hn. congruence.
Qed.

(** * Modules of a process *)

Lemma app_ok_modules s a a' :
  app_ok s a → a_deal a' = a_deal a → a_render a' = a_render a →
  (∀ k l, (k, l) ∈ a_hapModules a' → l ≠ [] ∧ ∀ mr, mr ∈ l → mr ∈ GetAllModuleRecord a ∨
     ∃ m, am_modules s !! mr = Some m ∧ (is_Some (a_deal a) → m_deal m = true)) →
  NoDup (keys (a_hapModules a')) → (∀ k, k ∈ keys (a_hapModules a') ↔ k ∈ keys (a_appInfos a')) →
  app_ok s a'.
Proof.
  intros [A1 A2 A3 A4 A5 A6] E1 E2 Hm Hnd Hk. constructor; rewrite ?E1, ?E2; try done.
  - intros mr (k & l & Hl & Hmr)%elem_all_modules. destruct (proj2 (Hm _ _ Hl) mr Hmr) as [Hin|(m & -> & _)]; [by apply A1|by eexists].
  - intros k l Hl. by apply (Hm k l).
  - intros mr m (k & l & Hl & Hmr)%elem_all_modules. destruct (proj2 (Hm _ _ Hl) mr Hmr) as [Hin|(m' & -> & Hd)].
    + by apply A5.
    + by intros [= <-].
Qed.

(** A module is taken off the first list that has it. *)
Lemma remove_module_spec mr mods k l : remove_module mr mods = Some (k, l) →
  ∃ l0, (k, l0) ∈ mods ∧ mr ∈ l0 ∧ l = erase_first (λ x, bool_decide (x = mr)) l0.
Proof.
  induction mods as [|[k0 l0] mods IH]; [done|]. cbn. case_bool_decide.
  - intros [= <- <-]. exists l0. split; [by left|done].
  - intros (l1 & H1 & H2 & ->)%IH. exists l1. split; [by right|done].
Qed.

Definition put_list (k : string) (l : list ModRef) (e : string * list ModRef) : string * list ModRef :=
  if bool_decide (e.1 = k) then (k, l) else e.
Lemma keys_put k l (mods : list (string * list ModRef)) : keys (put_list k l <$> mods) = keys mods.
Proof.
  unfold keys. rewrite <- list_fmap_compose. apply list_fmap_ext. intros i [k0 l0] _. cbn. unfold put_list. cbn.
  by case_bool_decide; subst.
Qed.
Lemma elem_put k l (mods : list (string * list ModRef)) k' l' : (k', l') ∈ put_list k l <$> mods → (k' = k ∧ l' = l) ∨ (k', l') ∈ mods.
Proof.
  intros ([k0 l0] & E & Hin)%list_elem_of_fmap. unfold put_list in E. cbn in E. case_bool_decide; simplify_eq; auto.
Qed.

Lemma keeps_RemoveModuleRecord s ar mr : apps_ok s → known_app s ar → keeps evolves (RemoveModuleRecord ar mr) s.
Proof.
  intros Hok Har. unfold RemoveModuleRecord. app_step. destruct (remove_module mr (a_hapModules a)) as [[k l]|] eqn:E; [|app_steps].
  destruct (remove_module_spec _ _ _ _ E) as (l0 & Hl0 & Hmr & ->).
  assert (∀ k' l', (k', l') ∈ a_hapModules a → l' ≠ [] ∧ ∀ mr0, mr0 ∈ l' → mr0 ∈ GetAllModuleRecord a) as Hold.
  { intros k' l' Hin. split; [by eapply ok_lists; [by eapply ao_apps|]|]. intros mr0 Hmr0. apply elem_all_modules. by exists k', l'. }
  pose proof (ao_apps _ Hok _ _ Ha) as Ho.
  destruct (erase_first _ l0) as [|mr1 l1] eqn:El.
  - apply wp_modify, evolves_upd_app. intros a' Ha'. simplify_eq. split; [by split_and!|].
    intros _. eapply (app_ok_modules _ a); [done..| | |]; arec_cbn.
    + intros k' l' [_ Hin]%elem_of_erase. destruct (Hold _ _ Hin). auto.
    + apply NoDup_erase, Ho.
    + intros k'. rewrite !keys_erase, (ok_bundles _ _ Ho). done.
  - apply wp_modify, evolves_upd_app. intros a' Ha'. simplify_eq. split; [by split_and!|].
    intros _. eapply (app_ok_modules _ a); [done..| | |]; arec_cbn; change (fmap _ ?l) with (put_list k (mr1 :: l1) <$> l).
    + intros k' l' [[-> ->]|Hin]%elem_put.
      * split; [done|]. intros mr0 Hmr0. left. rewrite <- El in Hmr0. apply (Hold k l0 Hl0). by eapply elem_of_erase_first.
      * destruct (Hold _ _ Hin). auto.
    + rewrite keys_put. apply Ho.
    + intros k'. rewrite keys_put. apply Ho.
Qed.
#[export] Hint Resolve keeps_RemoveModuleRecord : apps.

(** * Abilities of a module *)

Lemma keeps_upd_module_abilities s mr f : apps_ok s →
  (∀ m, am_modules s !! mr = Some m → m_deal (f m) = m_deal m ∧ module_ok s (f m)) → keeps evolves (upd_module mr f) s.
Proof.
  intros Hok Hf. apply wp_modify, evolves_upd_module. intros m Hm. destruct (Hf m Hm) as [E Ho]. by rewrite E.
Qed.

Lemma module_ok_sub s m m' : module_ok s m →
  (∀ token br, (token, br) ∈ m_abilities m' ∨ (token, br) ∈ m_terminate m' →
     (token, br) ∈ m_abilities m ∨ (token, br) ∈ m_terminate m ∨ ∃ b, am_abilities s !! br = Some b ∧ b_token b = token) →
  NoDup (keys (m_abilities m')) → NoDup (keys (m_terminate m')) → module_ok s m'.
Proof.
  intros [M1 M2 M3 M4] Hin N1 N2. constructor; [..|done|done]; intros token br Hx.
  - destruct (Hin token br) as [H|[H|H]]; [by left|by apply M1|by apply M2|done].
  - destruct (Hin token br) as [H|[H|H]]; [by right|by apply M1|by apply M2|done].
Qed.

Ltac mod_cbn := unfold update in *;
  cbn [m_app m_handler m_info m_state m_inner m_deal m_abilities m_terminate] in *.

Lemma keeps_AddAbility s mr token i want : apps_ok s → known_module s mr → keeps evolves (AddAbility mr token i want) s.
Proof.
  intros Hok Hmr. unfold AddAbility. app_step. app_step; [app_steps|].
  apply wp_new_ability; [done|]. intros s1 Hev Hms Hb. apply evolves_then; [done|].
  assert (apps_ok s1) as Hok1 by eauto with apps. apply keeps_upd_module_abilities; [done|]. intros m1 Hm1. split; [done|].
  pose proof (ao_modules _ Hok1 _ _ Hm1) as Ho. apply (module_ok_sub _ m1); [done|..]; mod_cbn.
  - intros token0 br0 [[?|?]%elem_emplace|?]; [|by auto|by auto]. simplify_eq. right. right. by eexists.
  - apply NoDup_emplace, Ho.
  - apply Ho.
Qed.
#[export] Hint Resolve keeps_AddAbility : apps.

Definition grow_list (k : string) mr (e : string * list ModRef) : string * list ModRef :=
  if bool_decide (e.1 = k) then (e.1, e.2 ++ [mr]) else e.
Lemma keys_grow k mr (mods : list (string * list ModRef)) : keys (grow_list k mr <$> mods) = keys mods.
Proof.
  unfold keys. rewrite <- list_fmap_compose. apply list_fmap_ext. intros i [k0 l0] _. cbn. unfold grow_list. cbn.
  by case_bool_decide; subst.
Qed.
Lemma elem_grow k mr (mods : list (string * list ModRef)) k' l' : (k', l') ∈ grow_list k mr <$> mods →
  ∃ l0, (k', l0) ∈ mods ∧ (l' = l0 ∨ l' = l0 ++ [mr]).
Proof.
  intros ([k0 l0] & E & Hin)%list_elem_of_fmap. unfold grow_list in E. cbn in E. case_bool_decide; simplify_eq; eauto.
Qed.

(** The module to which [AddModule] adds the ability. *)
Definition module_for (a : AppRunningRecord) ar (app : ApplicationInfo) (h : HapModuleInfo) : ST Apps ModRef :=
  let bundle := api_bundleName app in
  match map_find bundle (a_hapModules a) with
  | Some l =>
      x ← GetModuleRecordByModuleName a bundle (hap_moduleName h);
      match x with
      | Some mr => mret mr
      | None =>
          mr ← app_ref;
          _ ← modify (λ s, s <| am_modules ::= insert mr (new_module a app h) |>);
          _ ← upd_app ar (λ a, a <| a_hapModules ::= fmap (grow_list bundle mr) |>);
          mret mr
      end
  | None =>
      mr ← app_ref;
      _ ← modify (λ s, s <| am_modules ::= insert mr (new_module a app h) |>);
      _ ← upd_app ar (λ a, a <| a_hapModules ::= map_emplace bundle [mr] |> <| a_appInfos ::= map_emplace bundle app |>);
      mret mr
  end.

Lemma wp_module_for s ar a app h : apps_ok s → am_apps s !! ar = Some a →
  wp (module_for a ar app h) (λ mr s', evolves s s' ∧ known_module s' mr) s.
Proof.
  intros Hok Ha. pose proof (ao_apps _ Hok _ _ Ha) as Ho. unfold module_for.
  assert (∀ k l, (k, l) ∈ a_hapModules a → l ≠ [] ∧ ∀ mr, mr ∈ l → mr ∈ GetAllModuleRecord a) as Hold.
  { intros k l Hl. split; [by eapply ok_lists|]. intros mr Hmr. apply elem_all_modules. by exists k, l. }
  assert (∀ f, (∀ s1 mr, apps_ok s1 → am_apps s1 !! ar = Some a → am_modules s1 !! mr = Some (new_module a app h) →
      app_stays a (f mr a) ∧ app_ok s1 (f mr a)) →
    wp (mr ← app_ref; _ ← modify (λ s, s <| am_modules ::= insert mr (new_module a app h) |>); _ ← upd_app ar (f mr); mret mr)
      (λ mr s', evolves s s' ∧ known_module s' mr) s) as Hnew.
  { intros f Hf. apply wp_new_module; [done..|]. intros s1 Hev E1 Hm _. apply wp_bind, wp_modify, wp_ret.
    assert (apps_ok s1) as Hok1 by eauto with apps. rewrite <- E1 in Ha.
    split; [|by exists (new_module a app h)]. etransitivity; [exact Hev|]. apply evolves_upd_app. intros a' Ha'. simplify_eq.
    destruct (Hf s1 (am_next s)); auto. }
  assert (∀ s1 mr, am_modules s1 !! mr = Some (new_module a app h) →
    ∃ m, am_modules s1 !! mr = Some m ∧ (is_Some (a_deal a) → m_deal m = true)) as Hin.
  { intros s1 mr Hm. eexists. split; [done|]. intros Hd. by apply bool_decide_eq_true. }
  destruct (map_find _ _) as [l|] eqn:El.
  - eapply wp_answers; [by apply (answers_module_by_name _ ar)|]. intros [mr|] Hx.
    + apply wp_ret. split; [done|]. eapply all_modules_known; [done..|]. by apply Hx.
    + apply (Hnew (λ mr a, a <| a_hapModules ::= fmap (grow_list (api_bundleName app) mr) |>)).
      intros s1 mr Hok1 Ha1 Hm. split; [by split_and!|].
      eapply (app_ok_modules _ a); [by eapply ao_apps|done..| | |]; arec_cbn.
      * intros k l' (l0 & Hl0 & Hl')%elem_grow. destruct (Hold _ _ Hl0) as [Hne Hl]. destruct Hl' as [-> | ->]; [by auto|].
        split; [by destruct l0|]. intros mr0 [?| ->%list_elem_of_singleton]%elem_of_app; [by auto|]. eauto.
      * rewrite keys_grow. apply Ho.
      * intros k. rewrite keys_grow. apply Ho.
  - apply (Hnew (λ mr a, a <| a_hapModules ::= map_emplace (api_bundleName app) [mr] |> <| a_appInfos ::= map_emplace (api_bundleName app) app |>)).
    intros s1 mr Hok1 Ha1 Hm. split; [by split_and!|].
    eapply (app_ok_modules _ a); [by eapply ao_apps|done..| | |]; arec_cbn.
    + intros k l [?|Hl]%elem_emplace; simplify_eq; [|destruct (Hold _ _ Hl); by auto].
      split; [done|]. intros mr0 ->%list_elem_of_singleton. eauto.
    + apply NoDup_emplace, Ho.
    + intros k. rewrite !keys_emplace. by rewrite (ok_bundles _ _ Ho).
Qed.

Lemma keeps_AddModule s ar app ability h want : apps_ok s → known_app s ar → keeps evolves (AddModule ar app ability h want) s.
Proof.
  intros Hok Har. unfold AddModule. app_step. apply wp_bind. eapply wp_mono; [by apply wp_module_for|]. cbv beta.
  intros mr s1 [Hev Hmr]. apply evolves_then; [done|]. assert (apps_ok s1) by eauto with apps. destruct ability as [[i token]|]; app_steps.
Qed.
#[export] Hint Resolve keeps_AddModule : apps.

Lemma keeps_AddModules s ar app hs : apps_ok s → known_app s ar → keeps evolves (AddModules ar app hs) s.
Proof.
  intros Hok Har. apply (keeps_for_each_from evolves). intros h s' _ Hev. apply keeps_AddModule; eauto with apps.
Qed.
#[export] Hint Resolve keeps_AddModules : apps.
