(* ===== verification/AppStates.v ===== *)
(** The states of abilities, their terminations and the client of a process: the
    frame of the larger operations of [AppRunningRecord]; and the tables: new
    processes, the map of their records and the recent list. *)

From S2P Require Import Prelude CppString Want AbilityRecord StdMap AppRecords AppManager AppShape AppReads.
From S2P Require Import AppFrames AppModules.

#[local] Open Scope stdpp_scope.
#[local] Open Scope Z_scope.

Implicit Types (s : Apps) (ar : AppRef) (mr : ModRef) (br : AbRef) (token : Token).
Implicit Types (a : AppRunningRecord) (m : ModuleRunningRecord) (b : AbilityRunningRecord).

(** * The client of a process *)

Definition deal_all (l : list ModRef) (ms : gmap ModRef ModuleRunningRecord) : gmap ModRef ModuleRunningRecord :=
  foldl (λ ms mr, alter (λ m, m <| m_deal := true |>) mr ms) ms l.

Lemma run_deal_all l s :
  for_each (λ mr, upd_module mr (λ m, m <| m_deal := true |>)) l s = Returned (tt, s <| am_modules ::= deal_all l |>).
Proof.
  revert s. induction l as [|mr l IH]; intros s; [cbn; by destruct s|]. cbn [for_each].
  rewrite (bind_run _ _ s tt (s <| am_modules ::= alter (λ m, m <| m_deal := true |>) mr |>) eq_refl). rewrite IH. done.
Qed.

Lemma evolves_deal_all l s : evolves s (s <| am_modules ::= deal_all l |>).
Proof.
  revert s. induction l as [|mr l IH]; intros s; [destruct s; cbn; reflexivity|].
  transitivity (s <| am_modules ::= alter (λ m, m <| m_deal := true |>) mr |>); [|exact (IH (s <| am_modules ::= alter (λ m, m <| m_deal := true |>) mr |>))].
  apply evolves_upd_module. intros m Hm. split; [done|]. intros []. by constructor.
Qed.

Lemma deal_all_dealt l ms mr m :
  deal_all l ms !! mr = Some m → (mr ∈ l ∨ ∀ m0, ms !! mr = Some m0 → m_deal m0 = true) → m_deal m = true.
Proof.
  revert ms. induction l as [|mr0 l IH]; intros ms Hm Hor; cbn in Hm.
  - destruct Hor as [?%not_elem_of_nil|H]; [done|by apply H].
  - eapply IH; [exact Hm|]. destruct Hor as [[->|Hin]%elem_of_cons|H]; [right|by left|right].
    + intros m0. rewrite lookup_alter, decide_True by done. by intros (m1 & _ & ->)%fmap_Some.
    + intros m0. rewrite lookup_alter. case_decide; [|by apply H]. by intros (m1 & _ & ->)%fmap_Some.
Qed.

Lemma wp_SetApplicationClient s ar thread : apps_ok s → known_app s ar →
  wp (SetApplicationClient ar thread) (λ _ s', evolves s s' ∧ attached s' ar) s.
Proof.
  intros Hok [a Ha]. unfold SetApplicationClient. apply wp_bind, wp_modify.
  set (f := λ a, a <| a_deal := Some thread |>).
  assert (am_apps (s <| am_apps ::= alter f ar |>) !! ar = Some (f a)) as Ha1.
  { apps_cbn. by rewrite lookup_alter, decide_True, Ha by done. }
  apply wp_bind. unfold wp at 1. rewrite (run_app _ _ _ Ha1). unfold wp. rewrite run_deal_all.
  change (GetAllModuleRecord (f a)) with (GetAllModuleRecord a).
  set (l := GetAllModuleRecord a). split; [|by exists (f a)].
  change (_ <| am_apps ::= _ |> <| am_modules ::= _ |>) with (s <| am_modules ::= deal_all l |> <| am_apps ::= alter f ar |>).
  etransitivity; [apply (evolves_deal_all l)|]. apply evolves_upd_app. intros a0 Ha0. apps_cbn.
  assert (a0 = a) as -> by congruence. split; [by split_and!|]. intros [A1 A2 A3 A4 A5 A6]. constructor; try done.
  intros mr m Hmr Hm _. apps_cbn. eapply deal_all_dealt; [exact Hm|by left].
Qed.

Lemma keeps_SetAppMgrServiceInner s ar : apps_ok s → known_app s ar → keeps evolves (SetAppMgrServiceInner ar) s.
Proof.
  intros Hok Har. unfold SetAppMgrServiceInner. app_step; [app_steps|]. app_step.
  apply (keeps_for_each_from evolves). intros mr s' _ _. app_steps.
Qed.
#[export] Hint Resolve keeps_SetAppMgrServiceInner : apps.

(** * Terminations *)

Lemma keeps_ModuleTerminateAbility s ar mr token isForce : apps_ok s → known_app s ar → known_module s mr →
  keeps evolves (ModuleTerminateAbility ar mr token isForce) s.
Proof.
  intros Hok Har Hmr. unfold ModuleTerminateAbility. app_step. app_step; [|app_steps].
  assert (known_run s p) as Hp by (by eapply run_known_of). app_step; [|app_steps].
  apply keeps_upd_module_abilities; [done|]. intros m1 Hm1. assert (m1 = m) as -> by congruence. split; [done|].
  pose proof (ao_modules _ Hok _ _ Hm1) as Ho. apply (module_ok_sub _ m); [done|..]; mod_cbn.
  - intros token0 br0 [[_ ?]%elem_of_erase|[?|?]%elem_emplace]; [by auto| |by auto]. simplify_eq. left. by apply map_find_elem.
  - apply NoDup_erase, Ho.
  - apply NoDup_emplace, Ho.
Qed.
#[export] Hint Resolve keeps_ModuleTerminateAbility : apps.

Lemma keeps_AppTerminateAbility s ar token isForce : apps_ok s → known_app s ar →
  keeps evolves (AppTerminateAbility ar token isForce) s.
Proof.
  intros Hok Har. unfold AppTerminateAbility. eapply keeps_answers; [by apply answers_module_by_token|].
  intros [mr|] Hx; [|app_steps]. destruct (Hx _ eq_refl) as [Hone _].
  eapply keeps_answers; [by apply answers_ability_by_token|]. intros y Hy.
  assert (∀ br, y = Some br → known_run s br) by done. app_steps.
Qed.
#[export] Hint Resolve keeps_AppTerminateAbility : apps.

Lemma keeps_ModuleAbilityTerminated s mr token : apps_ok s → known_module s mr → keeps evolves (ModuleAbilityTerminated mr token) s.
Proof.
  intros Hok Hmr. unfold ModuleAbilityTerminated, RemoveEventOf. app_step. app_step; [app_steps|]. app_step; [|app_steps].
  assert (known_run s p) as Hp by (by eapply ending_known_of). app_step. app_step; [app_steps|].
  apply keeps_upd_module_abilities; [done|]. intros m1 Hm1. split; [done|].
  pose proof (ao_modules _ Hok0 _ _ Hm1) as Ho. apply (module_ok_sub _ m1); [done|..]; mod_cbn.
  - intros token0 br0 [?|[_ ?]%elem_of_erase]; auto.
  - apply Ho.
  - apply NoDup_erase, Ho.
Qed.
#[export] Hint Resolve keeps_ModuleAbilityTerminated : apps.

Lemma keeps_ScheduleTerminate s ar : apps_ok s → known_app s ar → keeps evolves (ScheduleTerminate ar) s.
Proof. intros Hok Har. unfold ScheduleTerminate. app_steps. Qed.
#[export] Hint Resolve keeps_ScheduleTerminate : apps.

Lemma keeps_AppAbilityTerminated s ar token : apps_ok s → known_app s ar → keeps evolves (AppAbilityTerminated ar token) s.
Proof.
  intros Hok Har. unfold AppAbilityTerminated. eapply keeps_answers; [by apply answers_module_ending|].
  intros [mr|] Hx; [|app_steps]. destruct (Hx _ eq_refl) as [Hone _]. assert (known_module s mr) by eauto with apps. app_steps.
Qed.
#[export] Hint Resolve keeps_AppAbilityTerminated : apps.

(** * The states of abilities *)

(** Where the abilities are does not change. *)
Definition settles s s' : Prop := evolves s s' ∧ am_modules s' = am_modules s ∧
  ∀ ar a, am_apps s !! ar = Some a → ∃ a', am_apps s' !! ar = Some a' ∧ a_hapModules a' = a_hapModules a.

#[export] Instance settles_preorder : PreOrder settles.
Proof.
  split.
  - intros s. split_and!; [reflexivity|done|]. intros ar a Ha. by exists a.
  - intros s1 s2 s3 (E1 & M1 & A1) (E2 & M2 & A2). split_and!; [by transitivity s2|congruence|].
    intros ar a Ha. destruct (A1 _ _ Ha) as (a2 & Ha2 & Eq2). destruct (A2 _ _ Ha2) as (a3 & Ha3 & Eq3).
    exists a3. split; [done|congruence].
Qed.

(** An ability of the token is in the process. *)
Definition holds s ar token : Prop := ∃ a, am_apps s !! ar = Some a ∧ is_Some (module_holding s (has_token token) a).
Lemma holds_settles s s' ar token : settles s s' → holds s ar token → holds s' ar token.
Proof.
  intros (_ & Em & Ha') (a & Ha & Hh). destruct (Ha' _ _ Ha) as (a' & H' & E). exists a'. split; [done|].
  unfold module_holding, GetAllModuleRecord, at_module. by rewrite E, Em.
Qed.

Lemma settles_aside s s' : evolves s s' → am_modules s' = am_modules s → am_apps s' = am_apps s → settles s s'.
Proof. intros He Em Ea. split_and!; [done..|]. rewrite Ea. intros ar a Ha. by exists a. Qed.

Lemma settles_emit e s : keeps settles (app_emit e) s.
Proof. eapply wp_mono; [apply wp_and; [apply (keeps_app_emit e)|]|]; [by apply (wp_modify _ (λ _ s', am_modules s' = am_modules s ∧ am_apps s' = am_apps s))|].
  intros _ s' (He & Em & Ea). by apply settles_aside. Qed.
Lemma settles_upd_run br f s : same_token f → keeps settles (upd_run br f) s.
Proof.
  intros Hf. eapply wp_mono; [apply wp_and; [by apply (keeps_upd_run br f)|]|];
    [by apply (wp_modify _ (λ _ s', am_modules s' = am_modules s ∧ am_apps s' = am_apps s))|].
  intros _ s' (He & Em & Ea). by apply settles_aside.
Qed.
Lemma settles_upd_app ar f s : plain f → keeps settles (upd_app ar f) s.
Proof.
  intros Hf. apply (wp_mono _ (λ _ s', evolves s s' ∧ am_modules s' = am_modules s ∧ am_apps s' = alter f ar (am_apps s)));
    [apply wp_and; [by apply keeps_upd_plain|by apply wp_modify]|].
  intros _ s' (He & Em & Ea). split_and!; [done..|]. rewrite Ea. intros ar0 a Ha. rewrite lookup_alter.
  case_decide; [subst; rewrite Ha|by exists a]. exists (f a). split; [done|]. apply Hf.
Qed.

Lemma settles_OnAbilityStateChanged s br st : known_run s br → keeps settles (OnAbilityStateChanged br st) s.
Proof.
  intros Hbr. unfold OnAbilityStateChanged. eapply keeps_answers; [by apply answers_ability|]. intros b _.
  apply keeps_gets, (keeps_for_each_from settles). intros cb s' _ _. apply settles_emit.
Qed.

Lemma settles_ModuleOnAbilityStateChanged s mr br st :
  known_module s mr → known_run s br → keeps settles (ModuleOnAbilityStateChanged mr br st) s.
Proof.
  intros Hmr Hbr. unfold ModuleOnAbilityStateChanged. eapply keeps_answers; [by apply answers_module|]. intros m _.
  apply (keeps_bind settles); [by apply settles_upd_run|]. intros _ s1 _ [Hev _].
  destruct (m_inner m); [|apply (keeps_ret settles)]. apply settles_OnAbilityStateChanged. eauto with apps.
Qed.

Lemma settles_StateChangedNotifyObserver s ar br st isAbility :
  known_app s ar → known_run s br → keeps settles (StateChangedNotifyObserver ar br st isAbility) s.
Proof.
  intros Har Hbr. unfold StateChangedNotifyObserver. eapply keeps_answers; [by apply answers_ability|]. intros b _.
  case_match; [apply (keeps_ret settles)|]. eapply keeps_answers; [by apply answers_app|]. intros a _.
  case_match; [apply settles_emit|apply (keeps_ret settles)].
Qed.

(** The tokens that wait for the process to be in the foreground must still be those
    of its abilities: the loop follows the pointers without a look. *)
Lemma settles_pop_foregrounding s ar l : apps_ok s → known_app s ar → (∀ token, token ∈ l → holds s ar token) →
  keeps settles (pop_foregrounding ar l) s.
Proof.
  revert s. induction l as [|token l IH]; intros s Hok Har Hl; [apply (keeps_ret settles)|]. cbn [pop_foregrounding].
  destruct (Hl token) as (a & Ha & Hh); [by left|].
  eapply keeps_answers; [eapply (answers_run _ _ _ (λ x, ∃ br, x = Some br ∧ known_run s br)); [by apply (run_ability_by_token _ _ a)|]|].
  { destruct (ability_of_found _ _ _ Hh) as [br Hbr]. exists br. split; [done|].
    destruct (ability_of_spec _ _ Hok _ _ Hbr) as (? & ? & b & _ & _ & _ & _ & Hb & _). by exists b. }
  intros x (br & -> & Hbr). destruct Hh as [mr Hmr].
  eapply keeps_answers; [eapply (answers_run _ _ _ (λ x, x = Some mr)); [by rewrite (run_module_by_token _ _ a), Hmr|done]|].
  intros y ->. apply wp_bind. eapply wp_deref; [done|]. apply wp_bind. eapply wp_deref; [done|].
  destruct (holding_spec _ _ _ _ Hmr) as (_ & m & Hm & _).
  apply (keeps_bind settles); [apply settles_ModuleOnAbilityStateChanged; eauto with apps|]. intros _ s1 _ S1.
  apply (keeps_bind settles); [apply settles_StateChangedNotifyObserver; destruct S1; eauto with apps|]. intros _ s2 _ S2.
  apply (keeps_bind settles); [apply settles_upd_app; intros a0; cbn; tauto|]. intros _ s3 _ S3.
  assert (settles s s3) as Hs by (transitivity s1; [done|by transitivity s2]).
  apply IH; [destruct Hs; eauto with apps..|]. intros token' Hin. eapply holds_settles; [done|]. apply Hl. by right.
Qed.

Lemma keeps_PopForegroundingAbilityTokens s ar : apps_ok s → known_app s ar →
  (∀ a token, am_apps s !! ar = Some a → token ∈ a_foregrounding a → holds s ar token) →
  keeps evolves (PopForegroundingAbilityTokens ar) s.
Proof.
  intros Hok Har Hl. unfold PopForegroundingAbilityTokens. app_step. eapply wp_mono; [apply settles_pop_foregrounding; eauto|].
  by intros _ s' [? _].
Qed.

(** The ability of a token that has been found. *)
Lemma keeps_AbilityForeground s ar br token : apps_ok s → known_app s ar → holds s ar token →
  (∀ b, am_abilities s !! br = Some b → b_token b = token) → known_run s br → keeps evolves (AbilityForeground ar br) s.
Proof.
  intros Hok Har (a0 & Ha0 & mr & Hmr) Htok Hbr. unfold AbilityForeground, ScheduleForegroundRunning. app_step.
  app_step; [app_steps|]. app_step. assert (a0 = a) as -> by congruence. rewrite (Htok b Hb).
  app_step; [app_steps|app_steps| |app_steps|app_steps].
  eapply keeps_answers; [eapply (answers_run _ _ _ (λ x, x = Some mr)); [by rewrite (run_module_by_token _ _ a), Hmr|done]|].
  intros y ->. apply wp_bind. eapply wp_deref; [done|]. destruct (holding_spec _ _ _ _ Hmr) as (_ & m & Hm & _).
  change (wp ?c _ ?s) with (keeps evolves c s). app_steps.
Qed.

Lemma keeps_AbilityBackground s ar br token : apps_ok s → known_app s ar → holds s ar token →
  (∀ b, am_abilities s !! br = Some b → b_token b = token) → known_run s br → keeps evolves (AbilityBackground ar br) s.
Proof.
  intros Hok Har (a0 & Ha0 & mr & Hmr) Htok Hbr. unfold AbilityBackground, ScheduleBackgroundRunning. app_step.
  app_step; [app_steps|]. rewrite (Htok b Hb).
  eapply keeps_answers; [eapply (answers_run _ _ _ (λ x, x = Some mr)); [by rewrite (run_module_by_token _ _ a0), Hmr|done]|].
  intros y ->. apply wp_bind. eapply wp_deref; [done|]. destruct (holding_spec _ _ _ _ Hmr) as (_ & m & Hm & _).
  change (wp ?c _ ?s) with (keeps evolves c s). app_step; [app_steps|]. app_step; [app_steps|]. app_step. app_step; [|app_steps].
  eapply keeps_answers; [apply answers_abilities; eauto with apps|]. intros l Hl.
  eapply keeps_answers; [by apply (find_abilities _ is_foreground_page)|]. intros y _. app_steps.
Qed.

Lemma keeps_UpdateAbilityState_ s ar token st : apps_ok s → known_app s ar → keeps evolves (UpdateAbilityState_ ar token st) s.
Proof.
  intros Hok [a Ha]. unfold UpdateAbilityState_.
  eapply keeps_answers; [eapply (answers_run _ _ _ (λ x, x = ability_of s token a)); [by apply (run_ability_by_token _ _ a)|done]|].
  intros x ->. destruct (ability_of s token a) as [br|] eqn:E; [|app_steps].
  destruct (ability_of_spec _ _ Hok _ _ E) as (mr & m & b & Hmr & _ & _ & _ & Hb & Htok).
  assert (holds s ar token) as Hh by (exists a; eauto).
  app_step. app_step; [app_steps|]. app_step; try (apply (keeps_ret evolves)).
  - apply (keeps_AbilityForeground _ _ _ token); eauto with apps. intros b1 Hb1. congruence.
  - apply (keeps_AbilityBackground _ _ _ token); eauto with apps. intros b1 Hb1. congruence.
Qed.
#[export] Hint Resolve keeps_UpdateAbilityState_ : apps.

(** * The tables of the application manager: new processes, the map of their records,
    the recent list, and the frame of the operations of [AppManager]. *)

(** * Between calls *)

(** Every record has its event handler. *)
Definition session s : Prop := apps_ok s ∧ ∀ ar a, am_apps s !! ar = Some a → a_handler a = true.
(** While a process is started, its own may not have it yet. *)
Definition session_but ar s : Prop :=
  apps_ok s ∧ known_app s ar ∧ ∀ ar' a, am_apps s !! ar' = Some a → ar' ≠ ar → a_handler a = true.

Lemma handler_evolves s s' ar a' : evolves s s' → am_apps s' !! ar = Some a' →
  ∃ a, am_apps s !! ar = Some a ∧ (a_handler a = true → a_handler a' = true).
Proof.
  intros H Ha'. destruct (ev_no_new _ _ H ar) as [a Ha]; [by exists a'|]. exists a. split; [done|].
  destruct (ev_apps _ _ H _ _ Ha) as (a1 & Ha1 & (_ & _ & Hh & _)). by simplify_eq.
Qed.

Lemma session_evolves s s' : evolves s s' → session s → session s'.
Proof.
  intros H [Hok Hh]. split; [by eauto with apps|]. intros ar a' Ha'. destruct (handler_evolves _ _ _ _ H Ha') as (a & Ha & Hi). eauto.
Qed.
Lemma session_but_evolves ar s s' : evolves s s' → session_but ar s → session_but ar s'.
Proof.
  intros H (Hok & Hk & Hh). split_and!; [eauto with apps..|]. intros ar' a' Ha' Hne.
  destruct (handler_evolves _ _ _ _ H Ha') as (a & Ha & Hi). eauto.
Qed.
Lemma session_handled s ar : session s → known_app s ar → handled s ar.
Proof. intros [_ H] [a Ha]. exists a. eauto. Qed.
Lemma session_ok s : session s → apps_ok s.
Proof. by intros []. Qed.
Lemma session_closed ar s : session_but ar s → handled s ar → session s.
Proof.
  intros (Hok & _ & H) (a & Ha & Hh). split; [done|]. intros ar' a' Ha'. destruct (decide (ar' = ar)) as [->|]; [congruence|by apply (H ar')].
Qed.
#[export] Hint Resolve session_evolves session_but_evolves session_handled session_ok : apps.

Lemma wp_session {A} (c : ST Apps A) s : session s → keeps evolves c s → wp c (λ _ s', session s') s.
Proof. intros Hs Hc. eapply wp_mono; [exact Hc|]. intros x s' H. by apply (session_evolves s). Qed.

(** * A new record *)

Definition not_recent s ar : Prop := 0 ≤ am_created s ≤ INT_MAX →
  ∀ a, am_apps s !! ar = Some a → a_recordId a ∉ (ti_recordId <$> recentAppList_ s).
Lemma not_recent_evolves s s' ar : known_app s ar → evolves s s' → not_recent s ar → not_recent s' ar.
Proof.
  intros [a Ha] H Hn Hc a' Ha' (t & Et & Ht)%list_elem_of_fmap. rewrite (ev_created _ _ H) in Hc.
  destruct (ev_apps _ _ H _ _ Ha) as (a1 & Ha1 & (E & _)). simplify_eq. apply (Hn Hc _ Ha).
  rewrite <- E, Et. apply list_elem_of_fmap. exists t. split; [done|]. by apply (ev_recent _ _ H).
Qed.

Section creation.
Context (uninitialized_uid : Z).

Lemma wp_create s info processName (bi : BundleInfo) : session s →
  wp (Manager_CreateAppRunningRecord uninitialized_uid info processName bi) (λ x s',
    match x with
    | None => s' = s
    | Some ar => session_but ar s' ∧ not_recent s' ar ∧
        am_apps s' = <[ar := new_app uninitialized_uid info (wrap_i32 (Z.succ (am_created s))) processName
          (ClipStringContent (bi_appId bi)) (bi_jointUserId bi)]> (am_apps s) ∧ am_apps s !! ar = None
    end) s.
Proof.
  intros [Hok Hh]. unfold Manager_CreateAppRunningRecord, app_ref. destruct (String.eqb processName ""); [by apply wp_ret|].
  apply wp_bind, wp_modify, wp_bind, wp_gets, wp_bind, wp_bind, wp_gets, wp_bind, wp_modify, wp_ret.
  apply wp_bind, wp_modify, wp_bind, wp_modify, wp_ret. apps_cbn. cbv beta iota.
  set (id := wrap_i32 _). set (a := new_app _ _ _ _ _ _). set (ar := am_next s).
  assert (am_apps s !! ar = None) as Hnew by (apply eq_None_not_Some; intros H%(ao_new_app _ Hok); subst ar; lia).
  assert (∀ ar' a', <[ar := a]> (am_apps s) !! ar' = Some a' → (ar' = ar ∧ a' = a) ∨ (ar' ≠ ar ∧ am_apps s !! ar' = Some a')) as Hin.
  { intros ar' a'. rewrite lookup_insert. case_decide; [|by auto]. intros [= <-]. by left. }
  assert (∀ ar', is_Some (<[ar := a]> (am_apps s) !! ar') → (ar' < Pos.succ ar)%positive) as Hlt.
  { intros ar' [a' [[-> _]|[_ Ha']]%Hin]; [lia|]. assert (is_Some (am_apps s !! ar')) as H%(ao_new_app _ Hok) by (by exists a'). subst ar. lia. }
  destruct Hok as [H1 H2 H3 H4 H5 H6 H7]. split_and!; [| |done|done].
  - split_and!; [|exists a; apps_cbn; apply lookup_insert_eq|].
    + constructor; apps_cbn.
      * intros ar' a' [[-> ->]|[_ Ha']]%Hin.
        { constructor; cbn; [by intros ? ?%not_elem_of_nil|by intros ? ? ?%not_elem_of_nil|done|constructor|by intros ? ? ?%not_elem_of_nil|done]. }
        destruct (H1 _ _ Ha'). by constructor.
      * intros mr m Hm. destruct (H2 _ _ Hm). by constructor.
      * destruct H3 as [T1 T2 T3 T4 T5 T6 T7]. constructor; apps_cbn.
        -- intros id' ar' [E|Hx]%elem_emplace; [simplify_eq; exists a; split; [apply lookup_insert_eq|done]|].
           destruct (T1 _ _ Hx) as (a' & Ha' & E). exists a'. split; [|done]. rewrite lookup_insert_ne; [done|congruence].
        -- by apply NoDup_emplace.
        -- intros Hc ar' a' [[-> ->]|[_ Ha']]%Hin.
           ++ cbn. subst id. rewrite wrap_i32_id; lia.
           ++ assert (0 < a_recordId a' ≤ am_created s) by (apply (T3 ltac:(lia) ar'); done). lia.
        -- intros Hc. apply T4. lia.
        -- intros Hc t Ht. assert (ti_recordId t ≤ am_created s) by (apply T5; [lia|done]). lia.
        -- lia.
        -- intros ar' Hr. destruct (T7 _ Hr) as [a' Ha']. exists a'. rewrite lookup_insert_ne; [done|congruence].
      * intros ar' Har'. by apply Hlt.
      * intros mr Hmr. specialize (H5 _ Hmr). lia.
      * intros br Hbr. specialize (H6 _ Hbr). lia.
      * intros rr Hrr. specialize (H7 _ Hrr). lia.
    + apps_cbn. intros ar' a' [[-> _]|[_ Ha']]%Hin Hne; [done|eauto].
  - unfold not_recent. apps_cbn. intros Hc a' Ha' (t & Et & Ht)%list_elem_of_fmap. rewrite lookup_insert_eq in Ha'.
    injection Ha' as <-. destruct H3 as [T1 T2 T3 T4 T5 T6 T7]. specialize (T5 ltac:(lia) t Ht).
    cbn in Et. subst id. rewrite wrap_i32_id in Et; lia.
Qed.

(** The tables and what has been sent. *)
Lemma wp_create_files s info processName (bi : BundleInfo) : processName ≠ "" →
  wp (Manager_CreateAppRunningRecord uninitialized_uid info processName bi) (λ x s', x ≠ None ∧
    (∀ ar, x = Some ar →
       appRunningRecordMap_ s' = map_emplace (wrap_i32 (Z.succ (am_created s))) ar (appRunningRecordMap_ s)) ∧
    am_trace s' = am_trace s ∧ appStateCallbacks_ s' = appStateCallbacks_ s ∧ recentAppList_ s' = recentAppList_ s) s.
Proof.
  intros Hne. unfold Manager_CreateAppRunningRecord, app_ref. rewrite (proj2 (String.eqb_neq _ _) Hne).
  apply wp_bind, wp_modify, wp_bind, wp_gets, wp_bind, wp_bind, wp_gets, wp_bind, wp_modify, wp_ret.
  apply wp_bind, wp_modify, wp_bind, wp_modify, wp_ret. split_and!; try done. by intros ar [= <-].
Qed.
End creation.

(** * The tables *)

Lemma keeps_map_filter P s : keeps evolves (modify (λ s, s <| appRunningRecordMap_ ::= List.filter P |>)) s.
Proof.
  apply wp_modify, evolves_aside; try done. intros []. constructor; apps_cbn; try done.
  - intros id ar. rewrite list_elem_of_In, filter_In, <- list_elem_of_In. intros [Hin _]. by apply tb_map.
  - eapply sublist_NoDup; [exact tb_once|]. apply fmap_sublist. clear. induction (appRunningRecordMap_ s) as [|x l IH]; [done|].
    cbn. destruct (P x); [by apply sublist_skip|by apply sublist_cons].
Qed.
Lemma keeps_RemoveAppRunningRecordById recordId s : keeps evolves (RemoveAppRunningRecordById recordId) s.
Proof. apply keeps_map_filter. Qed.

Lemma keeps_recent (f : list AppTaskInfo → list AppTaskInfo) s :
  (∀ t, t ∈ f (recentAppList_ s) → t ∈ recentAppList_ s) →
  (NoDup (ti_recordId <$> recentAppList_ s) → NoDup (ti_recordId <$> f (recentAppList_ s))) →
  keeps evolves (modify (λ s, s <| recentAppList_ ::= f |>)) s.
Proof.
  intros Hf Hn. apply wp_modify, evolves_aside; try done. intros []. constructor; apps_cbn; try done; auto.
Qed.

Lemma keeps_recent_erase P s : keeps evolves (modify (λ s, s <| recentAppList_ ::= erase_first P |>)) s.
Proof.
  apply keeps_recent; [intros t; apply elem_of_erase_first|]. intros H. eapply sublist_NoDup; [exact H|].
  apply fmap_sublist, erase_first_sublist.
Qed.
Lemma keeps_RemoveAppFromRecentListById recordId s : keeps evolves (RemoveAppFromRecentListById recordId) s.
Proof. apply keeps_recent_erase. Qed.

Lemma keeps_PushAppFront recordId s : keeps evolves (PushAppFront recordId) s.
Proof.
  unfold PushAppFront, GetAppTaskInfoById. apply keeps_gets. destruct (List.find _ _) as [t|] eqn:E; [|apply (keeps_ret evolves)].
  destruct (find_Some_elem _ _ _ E) as [Hin Ht]. apply (keeps_recent (λ l, t :: erase_first (has_record recordId) l)).
  - intros t' [->|Ht']%elem_of_cons; [done|]. by eapply elem_of_erase_first.
  - intros Hn. rewrite (erase_first_perm _ _ _ E) in Hn. exact Hn.
Qed.
#[export] Hint Resolve keeps_map_filter keeps_RemoveAppRunningRecordById keeps_RemoveAppFromRecentListById keeps_PushAppFront keeps_recent_erase : apps.

Lemma keeps_restart ar s : known_app s ar → keeps evolves (modify (λ s, s <| am_restarts ::= λ l, l ++ [ar] |>)) s.
Proof.
  intros Har. apply wp_modify, evolves_aside; try done. intros []. constructor; apps_cbn; try done.
  intros ar'. rewrite elem_of_app, list_elem_of_singleton. intros [?| ->]; [by apply tb_restarts|done].
Qed.
#[export] Hint Resolve keeps_restart : apps.
Lemma keeps_restarts ar s : keeps evolves (modify (λ s, s <| am_restarts ::= list_erase_val ar |>)) s.
Proof.
  apply wp_modify, evolves_aside; try done. intros []. constructor; apps_cbn; try done.
  intros ar' Hin. apply tb_restarts. by eapply elem_of_erase_first.
Qed.
Lemma keeps_callbacks f s : keeps evolves (modify (λ s, s <| appStateCallbacks_ ::= f |>)) s.
Proof. apply wp_modify, evolves_aside; try done. by intros []. Qed.
Lemma keeps_response x s : keeps evolves (modify (λ s, s <| startSpecifiedAbilityResponse_ := x |>)) s.
Proof. apply wp_modify, evolves_aside; try done. by intros []. Qed.

(** A render process, of its record and of its host. *)
Lemma keeps_alter_render rr f s : keeps evolves (modify (λ s, s <| am_renders ::= alter f rr |>)) s.
Proof.
  apply wp_modify.
  assert (∀ rr0, is_Some (alter f rr (am_renders s) !! rr0) ↔ is_Some (am_renders s !! rr0)) as H.
  { intros rr0. rewrite lookup_alter. case_decide; [subst; by rewrite fmap_is_Some|done]. }
  constructor; apps_cbn;
    [|intros ar a Ha; by exists a|done|intros mr m Hm; by exists m|intros br b Hb; by exists b|done|done|intros; by apply H].
  intros [H1 H2 H3 H4 H5 H6 H7]. constructor; apps_cbn; try done.
  - intros ar a Ha. destruct (H1 _ _ Ha). constructor; apps_cbn; try done. intros rr0 Hr. by apply H, ok_render.
  - intros mr m Hm. destruct (H2 _ _ Hm). by constructor.
  - by destruct H3.
  - intros rr0 Hr%H. by apply H7.
Qed.
Lemma keeps_upd_render ar rr s : apps_ok s → known_render s rr → keeps evolves (upd_app ar (λ a, a <| a_render := Some rr |>)) s.
Proof.
  intros Hok Hr. apply wp_modify, evolves_upd_app. intros a Ha. split; [by split_and!|]. intros []. constructor; try done.
  by intros rr0 [= <-].
Qed.
