(* ===== verification/AppRun.v ===== *)
(** The calls of the application manager ([AppService]) return, and keep its
    invariant: the operations of the running manager and the service, one by one. *)

From S2P Require Import Prelude CppString Want AbilityRecord StdMap AppRecords AppManager AppService.
From S2P Require Import AppShape AppReads AppFrames AppModules AppStates.

#[local] Open Scope stdpp_scope.
#[local] Open Scope Z_scope.

Implicit Types (s : Apps) (ar : AppRef) (mr : ModRef) (br : AbRef) (token : Token).
Implicit Types (a : AppRunningRecord) (m : ModuleRunningRecord) (b : AbilityRunningRecord).

(** * Searches of the map *)

Definition finds_known s (c : ST Apps (option AppRef)) : Prop := answers c s (λ x, ∀ ar, x = Some ar → known_app s ar).

Lemma known_app_by s f ar : app_by s f = Some ar → known_app s ar.
Proof. intros (_ & a & Ha & _)%app_by_spec. by exists a. Qed.
Lemma finds_app_by s f : apps_ok s → finds_known s (find_app_by f).
Proof. intros Hok. eapply answers_run; [by apply run_find_app_by|]. intros ar. apply known_app_by. Qed.
Lemma finds_by_token s token : apps_ok s → finds_known s (GetAppRunningRecordByAbilityToken token).
Proof. intros Hok. eapply answers_run; [by apply run_app_by_token|]. intros ar. apply known_app_by. Qed.
Lemma finds_ending s token : apps_ok s → finds_known s (GetTerminatingAppRunningRecord token).
Proof. intros Hok. eapply answers_run; [by apply run_app_ending|]. intros ar. apply known_app_by. Qed.
Lemma finds_app_of_render s test : apps_ok s → finds_known s (app_of_render test).
Proof. intros Hok. eapply answers_run; [by apply run_app_of_render|]. intros ar. apply known_app_by. Qed.
Lemma finds_existing s appName processName uid bi : apps_ok s →
  finds_known s (CheckAppRunningRecordIsExist appName processName uid bi).
Proof. intros Hok. unfold CheckAppRunningRecordIsExist. case_match; by apply finds_app_by. Qed.
Lemma finds_by_id s recordId : apps_ok s → finds_known s (GetAppRunningRecordByAppRecordId recordId).
Proof.
  intros Hok. apply wp_gets. split; [done|]. intros ar E%map_find_elem. by eapply filed_app_known.
Qed.
#[export] Hint Resolve finds_app_by finds_by_token finds_ending finds_app_of_render finds_existing finds_by_id : apps.

(** Nothing is done when no process is found. *)
Lemma keeps_found {A} s (c : ST Apps (option AppRef)) (k : option AppRef → ST Apps A) :
  finds_known s c → keeps evolves (k None) s → (∀ ar, known_app s ar → keeps evolves (k (Some ar)) s) →
  keeps evolves (c ≫= k) s.
Proof. intros Hc Hn Hk. eapply keeps_answers; [exact Hc|]. intros [ar|] Hx; [|done]. by apply Hk, Hx. Qed.

(** [app_step] with the searches. *)
Ltac found_step := apply keeps_found; [solve [unfold GetAppRunningRecordByPid, GetAppRunningRecord; eauto with apps]
  |apply (keeps_ret evolves)|let ar := fresh "ar" in let H := fresh "Har" in intros ar H].

(** * The running manager *)

Lemma keeps_exit_loop test killing l pids s : apps_ok s → (∀ ar, ar ∈ l → known_app s ar) →
  keeps evolves (exit_loop test killing l pids) s.
Proof.
  revert pids s. induction l as [|ar l IH]; intros pids s Hok Hl; cbn [exit_loop]; [app_steps|].
  assert (known_app s ar) by (apply Hl; by left).
  assert (∀ s' pids, evolves s s' → keeps evolves (exit_loop test killing l pids) s') as IH'.
  { intros s' pids' Hev. apply IH; [by eauto with apps|]. intros ar' Hin. eapply known_app_evolves; [done|]. apply Hl. by right. }
  app_step. case_match; [|by apply IH'].
  apply (keeps_bind evolves); [destruct killing; app_steps|]. intros _ s1 _ H1.
  apply (keeps_bind evolves); [apply keeps_schedule; eauto with apps|]. intros _ s2 _ H2. apply IH'. by transitivity s1.
Qed.
Lemma keeps_exit_processes test killing s : apps_ok s → keeps evolves (exit_processes test killing) s.
Proof. intros Hok. apply keeps_gets, keeps_exit_loop; [done|]. intros ar. by apply value_known. Qed.
#[export] Hint Resolve keeps_exit_processes : apps.

Lemma keeps_HandleTerminateTimeOut s eventId : apps_ok s → keeps evolves (HandleTerminateTimeOut eventId) s.
Proof.
  intros Hok. unfold HandleTerminateTimeOut, Manager_GetAbilityRunningRecord.
  eapply (keeps_answers _ _ _ _ (λ x, ∀ br, x = Some br → known_run s br)).
  { apply wp_bind, wp_gets, first_m_answers. intros ar Har. apply answers_ability_of_event; [done|]. by apply value_known. }
  intros [br|] Hx; [|app_steps]. assert (known_run s br) by by apply Hx. app_step. found_step. app_steps.
Qed.

Lemma keeps_OnRemoteRenderDied s remote : apps_ok s → keeps evolves (OnRemoteRenderDied remote) s.
Proof. intros Hok. unfold OnRemoteRenderDied. found_step. app_steps. Qed.

Section by_ability.
Context (s : Apps) (Hok : apps_ok s) (token : Token).

Lemma keeps_Manager_PrepareTerminate : keeps evolves (Manager_PrepareTerminate token) s.
Proof using Hok.
  unfold Manager_PrepareTerminate. found_step. eapply keeps_answers; [by apply answers_is_last|]. intros last _. app_steps.
Qed.
Lemma keeps_Manager_TerminateAbility : keeps evolves (Manager_TerminateAbility token) s.
Proof using Hok.
  unfold Manager_TerminateAbility. found_step. eapply keeps_answers; [by apply answers_is_last|]. intros last _. app_steps.
Qed.
Lemma keeps_Manager_HandleAbilityAttachTimeOut : keeps evolves (Manager_HandleAbilityAttachTimeOut token) s.
Proof using Hok.
  unfold Manager_HandleAbilityAttachTimeOut. found_step. eapply keeps_answers; [by apply answers_ability_by_token|].
  intros y Hy. assert (∀ br, y = Some br → known_run s br) by done. app_step; [app_steps|].
  eapply keeps_answers; [apply answers_is_last; eauto with apps|]. intros last _. app_steps.
Qed.
End by_ability.
#[export] Hint Resolve keeps_HandleTerminateTimeOut keeps_OnRemoteRenderDied keeps_Manager_PrepareTerminate
  keeps_Manager_TerminateAbility keeps_Manager_HandleAbilityAttachTimeOut : apps.

(** * What a process reports *)

Lemma keeps_LaunchApplication s ar : session s → known_app s ar → attached s ar → keeps evolves (LaunchApplication ar) s.
Proof.
  intros Hs Har Hatt. assert (apps_ok s) by eauto with apps. assert (handled s ar) by eauto with apps.
  unfold LaunchApplication. app_steps.
Qed.

Lemma keeps_AttachApplication s pid app : session s → keeps evolves (AttachApplication pid app) s.
Proof.
  intros Hs. assert (apps_ok s) as Hok by eauto with apps. unfold AttachApplication, RegisterAppDeathRecipient.
  app_step; [app_steps|]. app_step; [|app_steps]. found_step.
  apply wp_bind. eapply wp_mono; [by apply wp_SetApplicationClient|]. intros _ s1 [Hev Hatt]. apply evolves_then; [done|].
  assert (session s1) by eauto with apps. assert (apps_ok s1) by eauto with apps. app_step.
  app_step; [|app_steps]. case_decide; [|app_steps]. apply keeps_LaunchApplication; eauto with apps.
Qed.

(** The record of the id, if any. *)
Lemma keeps_with_record s recordId f : apps_ok s →
  (∀ ar, known_app s ar → (recordId, ar) ∈ appRunningRecordMap_ s → keeps evolves (f ar) s) →
  keeps evolves (with_record recordId f) s.
Proof.
  intros Hok Hf. unfold with_record, GetAppRunningRecordByAppRecordId. apply keeps_gets.
  destruct (map_find recordId _) as [ar|] eqn:E; [|apply (keeps_ret evolves)]. apply map_find_elem in E.
  apply Hf; [by eapply filed_app_known|done].
Qed.

Lemma keeps_ApplicationForegrounded s recordId : apps_ok s →
  (∀ ar a token, (recordId, ar) ∈ appRunningRecordMap_ s → am_apps s !! ar = Some a → token ∈ a_foregrounding a →
     holds s ar token) →
  keeps evolves (ApplicationForegrounded recordId) s.
Proof.
  intros Hok Hh. apply keeps_with_record; [done|]. intros ar Har Hin.
  app_step; [apply keeps_PopForegroundingAbilityTokens; eauto|]. app_step. app_step; [|app_steps]. case_decide; app_steps.
Qed.

Lemma keeps_ApplicationBackgrounded s recordId : apps_ok s → keeps evolves (ApplicationBackgrounded recordId) s.
Proof. intros Hok. apply keeps_with_record; [done|]. intros ar Har _. app_step. case_decide; app_steps. Qed.
Lemma keeps_ApplicationTerminated s recordId : apps_ok s → keeps evolves (ApplicationTerminated recordId) s.
Proof.
  intros Hok. apply keeps_with_record; [done|]. intros ar Har _. unfold RemoveAppDeathRecipient. app_steps.
Qed.

(** * Abilities *)

Section abilities.
Context (s : Apps) (Hok : apps_ok s) (token : option Token).

Lemma keeps_app_TerminateAbility : keeps evolves (TerminateAbility token) s.
Proof using Hok. unfold TerminateAbility. app_step; [|app_steps]. found_step. app_steps. Qed.
Lemma keeps_AbilityTerminated : keeps evolves (AbilityTerminated token) s.
Proof using Hok. unfold AbilityTerminated. app_step; [|app_steps]. found_step. app_steps. Qed.
Lemma keeps_HandleAbilityAttachTimeOut : keeps evolves (HandleAbilityAttachTimeOut token) s.
Proof using Hok. unfold HandleAbilityAttachTimeOut. app_steps. Qed.
Lemma keeps_PrepareTerminate : keeps evolves (PrepareTerminate token) s.
Proof using Hok. unfold PrepareTerminate. app_steps. Qed.

Lemma keeps_UpdateAbilityState st : keeps evolves (UpdateAbilityState token st) s.
Proof using Hok.
  unfold UpdateAbilityState. app_step; [|app_steps]. found_step.
  eapply keeps_answers; [by apply answers_ability_by_token|]. intros [br|] Hx; [|app_steps].
  assert (known_run s br) by by apply Hx. app_step. case_decide; [app_steps|]. app_step; [app_steps|]. case_decide; app_steps.
Qed.
Lemma keeps_UpdateExtensionState st : keeps evolves (UpdateExtensionState token st) s.
Proof using Hok.
  unfold UpdateExtensionState. app_step; [|app_steps]. found_step.
  eapply keeps_answers; [by apply answers_ability_by_token|]. intros [br|] Hx; [|app_steps].
  assert (known_run s br) by by apply Hx. app_steps.
Qed.
Lemma keeps_AbilityBehaviorAnalysis preToken v p c : keeps evolves (AbilityBehaviorAnalysis token preToken v p c) s.
Proof using Hok.
  unfold AbilityBehaviorAnalysis. app_step; [|app_steps]. found_step.
  eapply keeps_answers; [by apply answers_ability_by_token|]. intros [br|] Hx; app_steps.
Qed.
End abilities.
