(* ===== verification/AppStarts.v ===== *)
(** The calls of the application manager that start, kill and bury processes
    ([AppService]) return, and keep its invariant. *)

From S2P Require Import Prelude CppString Want AbilityRecord StdMap AppRecords AppManager AppService.
From S2P Require Import AppShape AppReads AppFrames AppModules AppStates AppRun.

#[local] Open Scope stdpp_scope.
#[local] Open Scope Z_scope.

Implicit Types (s : Apps) (ar : AppRef) (mr : ModRef) (br : AbRef) (token : Token).
Implicit Types (a : AppRunningRecord) (m : ModuleRunningRecord) (b : AbilityRunningRecord).

(** * Killing *)

Section kills.
Context (survivors : list Z → list Z) (kill : Z → Z).

Lemma keeps_KillProcessByPid s pid : keeps evolves (KillProcessByPid kill pid) s.
Proof. unfold KillProcessByPid. case_match; [|apply (keeps_ret evolves)]. apply (keeps_bind evolves); [apply keeps_app_emit|]. by intros; apply (keeps_ret evolves). Qed.

Lemma keeps_kill_all s pids result : keeps evolves (kill_all kill pids result) s.
Proof.
  revert s result. induction pids as [|pid pids IH]; intros s result; cbn [kill_all]; [apply (keeps_ret evolves)|].
  apply (keeps_bind evolves); [apply keeps_KillProcessByPid|]. intros r s1 _ _. case_match; [apply (keeps_ret evolves)|apply IH].
Qed.

Lemma keeps_kill_pids s pids : keeps evolves (kill_pids survivors kill pids) s.
Proof.
  unfold kill_pids, WaitForRemoteProcessExit. destruct pids as [|pid pids]; [apply (keeps_ret evolves)|].
  apply wp_bind, wp_ret. destruct (survivors _) as [|p l]; [apply (keeps_ret evolves)|].
  apply (keeps_bind evolves); [apply keeps_kill_all|]. intros r s1 _ _. apply (keeps_ret evolves).
Qed.

Lemma keeps_wait {A} s pids (k : bool * list Z → ST Apps A) :
  (∀ x, keeps evolves (k x) s) → keeps evolves (WaitForRemoteProcessExit survivors pids ≫= k) s.
Proof. intros Hk. apply wp_bind, wp_ret, Hk. Qed.
End kills.
#[export] Hint Resolve keeps_KillProcessByPid keeps_kill_pids : apps.

Section kills2.
Context (survivors : list Z → list Z) (kill : Z → Z) (s : Apps) (Hok : apps_ok s).

Lemma keeps_KillApplication permission bundleName : keeps evolves (KillApplication survivors kill permission bundleName) s.
Proof using Hok. unfold KillApplication, ProcessExitByBundleName. app_steps. Qed.
Lemma keeps_kill_bundle bundleName uid : keeps evolves (kill_bundle survivors kill bundleName uid) s.
Proof using Hok. unfold kill_bundle, ProcessExitByBundleNameAndUid. app_steps. Qed.
Lemma keeps_KillProcessesByUserId account userId : keeps evolves (KillProcessesByUserId survivors kill account userId) s.
Proof using Hok. unfold KillProcessesByUserId, GetPidsByUserId. app_steps. Qed.

Lemma keeps_KillProcessByAbilityToken token : keeps evolves (KillProcessByAbilityToken survivors kill token) s.
Proof using Hok.
  unfold KillProcessByAbilityToken, AppScheduleProcessSecurityExit. found_step. app_step. app_step; [app_steps|].
  app_step; [|app_steps]. app_step; [app_steps|]. apply keeps_wait. intros y. app_steps.
Qed.
Lemma keeps_KillApplicationByRecord ar : known_app s ar → keeps evolves (KillApplicationByRecord survivors kill ar) s.
Proof using Hok.
  intros Har. unfold KillApplicationByRecord, AppScheduleProcessSecurityExit. app_step. app_step; [app_steps|].
  app_step; [app_steps|]. apply keeps_wait. intros y. app_steps.
Qed.

Lemma keeps_RemoveAppFromRecentList appName processName :
  keeps evolves (RemoveAppFromRecentList survivors kill appName processName) s.
Proof using Hok.
  unfold RemoveAppFromRecentList, AppScheduleProcessSecurityExit, GetAppTaskInfoByProcessName. app_step. app_step; [|app_steps].
  apply keeps_found; [by apply finds_app_by|app_steps|]. intros ar Har. app_step. app_step; [app_steps|].
  app_step; [app_steps|]. apply keeps_wait. intros y. app_steps.
Qed.
End kills2.

Lemma keeps_pids_loop l pids s : apps_ok s → keeps evolves (pids_loop l pids) s.
Proof.
  revert pids s. induction l as [|t l IH]; intros pids s Hok; cbn [pids_loop]; [app_steps|].
  apply keeps_found; [by apply finds_app_by|by apply IH|]. intros ar Har. unfold AppScheduleProcessSecurityExit.
  app_step; [app_steps|]. by apply IH.
Qed.
Lemma keeps_clear_recent s : keeps evolves (modify (λ s, s <| recentAppList_ := [] |>)) s.
Proof. apply (keeps_recent (λ _, [])); [by intros t ?%not_elem_of_nil|intros _; constructor]. Qed.
Lemma keeps_ClearRecentAppList s : apps_ok s → keeps evolves ClearRecentAppList s.
Proof.
  intros Hok. unfold ClearRecentAppList, GetAllPids. app_step; [apply keeps_gets; by apply keeps_pids_loop|].
  app_step; [apply keeps_clear_recent|app_steps].
Qed.

(** * Deaths and timeouts *)

Section deaths.
Context (survivors : list Z → list Z) (kill : Z → Z).

Lemma keeps_ClearAppRunningData s ar containsApp : apps_ok s → known_app s ar →
  keeps evolves (ClearAppRunningData kill ar containsApp) s.
Proof.
  intros Hok Har. unfold ClearAppRunningData. app_step.
  assert (∀ rr, a_render a = Some rr → known_render s rr) as Hr by apply (ao_apps _ Hok _ _ Ha).
  app_step; [app_steps|]. app_step; [app_steps|].
  eapply keeps_answers; [apply answers_abilities; eauto with apps|]. cbv beta. intros l Hl.
  app_step.
  { apply (keeps_for_each_from evolves). intros br s' Hbr Hev'. apply keeps_StateChangedNotifyObserver; eauto with apps. }
  do 2 (app_step; [app_steps|]). app_step; [|app_steps].
  destruct (a_render a) as [rr|]; [|app_steps]. assert (known_render s4 rr) as [r Hrr] by eauto 8 with apps.
  apply keeps_gets. apply wp_bind. eapply wp_deref; [exact Hrr|]. change (wp ?c _ ?s) with (keeps evolves c s). app_steps.
Qed.
End deaths.
#[export] Hint Resolve keeps_ClearAppRunningData keeps_KillApplicationByRecord : apps.

Section deaths2.
Context (survivors : list Z → list Z) (kill : Z → Z) (s : Apps) (Hok : apps_ok s).

Lemma keeps_OnRemoteDied remote isRender : keeps evolves (OnRemoteDied kill remote isRender) s.
Proof using Hok.
  unfold OnRemoteDied, Manager_OnRemoteDied. case_match; [by apply keeps_OnRemoteRenderDied|].
  apply wp_bind. eapply wp_answers; [by apply finds_app_by|]. intros [ar|] Hx; [|apply wp_ret; apply (keeps_ret evolves)].
  assert (known_app s ar) as Har by by apply Hx. apply wp_bind. eapply wp_mono; [by apply wp_SetApplicationClient|].
  intros _ s1 [Hev _]. apply wp_bind. eapply wp_mono; [apply keeps_map_filter|]. intros [] s2 Hev2. apply wp_ret.
  assert (evolves s s2) by by transitivity s1. apply evolves_then; [done|]. apply keeps_ClearAppRunningData; eauto with apps.
Qed.

Lemma keeps_HandleTerminateApplicationTimeOut eventId : keeps evolves (HandleTerminateApplicationTimeOut kill eventId) s.
Proof using Hok. unfold HandleTerminateApplicationTimeOut, RemoveAppDeathRecipient. found_step. app_steps. Qed.

Lemma keeps_tell_timeout ar : known_app s ar → keeps evolves (tell_timeout ar) s.
Proof using Hok. intros Har. unfold tell_timeout. app_steps. Qed.
End deaths2.
#[export] Hint Resolve keeps_HandleTerminateApplicationTimeOut keeps_tell_timeout : apps.

Lemma keeps_HandleTimeOut survivors kill s msg param : apps_ok s → keeps evolves (HandleTimeOut survivors kill msg param) s.
Proof.
  intros Hok. unfold HandleTimeOut, HandleAddAbilityStageTimeOut, HandleStartSpecifiedAbilityTimeOut.
  do 2 (app_step; [app_steps|]). app_step; [found_step; app_steps|]. app_step; [found_step; app_steps|app_steps].
Qed.

(** * Starting a process *)

Lemma wp_AddAppToRecentList s ar a appName processName pid : session_but ar s → not_recent s ar → am_apps s !! ar = Some a →
  wp (AddAppToRecentList appName processName pid (a_recordId a)) (λ _ s', session_but ar s') s.
Proof.
  intros (Hok & Har & Hh) Hn Ha. apply wp_modify. split_and!; [|done|done]. destruct Hok as [H1 H2 [T1 T2 T3 T4 T5 T6 T7] H4 H5 H6 H7].
  constructor; apps_cbn; try done.
  - intros ar' a' Ha'. destruct (H1 _ _ Ha'). by constructor.
  - intros mr m Hm. destruct (H2 _ _ Hm). by constructor.
  - constructor; apps_cbn; try done.
    + intros Hc. csimpl. constructor; [by apply Hn|by apply T4].
    + intros Hc t [->|Ht]%elem_of_cons; [|by apply T5]. cbn. by eapply T3.
Qed.

Section starts.
Context (uninitialized_uid : Z) (APPSPAWN_COLD_BOOT : Z).
Context (GetBundleInfo : string → Z → option BundleInfo) (GetHapModuleInfo : AbilityInfo → Z → option HapModuleInfo).
Context (GetBundleInfos : Z → option (list BundleInfo)) (GetBundleGidsByUid : string → Z → bool).
Context (spawn : Z → option Z).

Lemma wp_StartProcess s ar appName processName flags uid bundleName : session_but ar s → not_recent s ar →
  wp (StartProcess GetBundleInfos GetBundleGidsByUid spawn appName processName flags ar uid bundleName)
    (λ _ s', session_but ar s' ∧ (handled s ar → handled s' ar)) s.
Proof.
  intros Hs Hn. assert (∀ s', evolves s s' → session_but ar s' ∧ (handled s ar → handled s' ar)) as Hev by (split; eauto with apps).
  unfold StartProcess. destruct (GetBundleInfos _) as [bundles|]; [|apply wp_ret, Hev; reflexivity].
  destruct (List.find _ _) as [bi|]; [|apply wp_ret, Hev; reflexivity].
  case_match; [apply wp_ret, Hev; reflexivity|]. pose proof Hs as (Hok & Har & _).
  eapply wp_answers; [by apply answers_app|]. cbv beta. intros a Ha. apply wp_bind. eapply wp_mono; [apply keeps_app_emit|]. intros [] s1 E1.
  destruct (spawn _) as [pid|]; [|eapply wp_mono; [apply keeps_RemoveAppRunningRecordById|]; intros [] s2 E2; apply Hev; by transitivity s1].
  apply wp_bind. eapply wp_mono; [apply keeps_upd_plain; intros ?; cbn; tauto|]. intros [] s2 E2.
  apply wp_bind. eapply wp_mono; [apply keeps_SetAppMgrServiceInner; eauto with apps|]. intros [] s3 E3.
  apply wp_bind. eapply wp_mono; [apply keeps_tell_app_state; eauto with apps|]. intros [] s4 E4.
  assert (evolves s s4) as E by (transitivity s1; [done|]; transitivity s2; [done|]; by transitivity s3).
  destruct (ev_apps _ _ E _ _ Ha) as (a4 & Ha4 & (Eid & _ & Hh4 & _)). rewrite <- Eid.
  assert (session_but ar s4) by eauto with apps. assert (not_recent s4 ar) by by eapply not_recent_evolves.
  apply wp_bind. eapply wp_mono; [apply wp_and; [by apply wp_AddAppToRecentList|by apply (wp_modify _ (λ _ s', am_apps s' = am_apps s4))]|].
  cbv beta. intros [] s5 [Hs5 Ea]. eapply wp_mono; [apply keeps_app_emit|]. intros [] s6 E6. split; [eauto with apps|].
  intros (a' & Ha' & Hh). simplify_eq. eapply handled_evolves; [exact E6|]. exists a4. rewrite Ea. auto.
Qed.

Lemma keeps_SetPreToken s ar token preToken : apps_ok s → known_app s ar → keeps evolves (SetPreToken ar token preToken) s.
Proof.
  intros Hok Har. unfold SetPreToken. app_step; [|app_steps]. eapply keeps_answers; [by apply answers_ability_by_token|].
  intros [br|] _; app_steps.
Qed.

(** A record with the modules of the ability, or none. *)
Lemma wp_CreateAppRunningRecord s token preToken app i processName bi h want : session s →
  wp (CreateAppRunningRecord uninitialized_uid token preToken app i processName bi h want) (λ x s',
    match x with None => session s' | Some ar => session_but ar s' ∧ handled s' ar ∧ not_recent s' ar end) s.
Proof.
  intros Hs. unfold CreateAppRunningRecord. apply wp_bind. eapply wp_mono; [by apply wp_create|]. cbv beta.
  intros [ar|] s1; [|intros ->; by apply wp_ret]. intros (Hs1 & Hn1 & _).
  set (f := λ a, a <| a_handler := true |>).
  apply wp_bind. apply (wp_mono _ (λ _ s2, evolves s1 s2 ∧ handled s2 ar)).
  { apply wp_and; [apply keeps_upd_plain; intros ?; cbn; tauto|]. apply wp_modify. destruct Hs1 as (_ & [a Ha] & _).
    exists (f a). apps_cbn. by rewrite lookup_alter, decide_True, Ha by done. }
  intros [] s2 [E2 Hh2]. assert (session_but ar s2) as Hs2 by eauto with apps. pose proof Hs2 as (Hok2 & Har2 & _).
  assert (not_recent s2 ar) as Hn2 by (eapply not_recent_evolves; [|done..]; apply Hs1).
  apply wp_bind. eapply wp_mono; [apply keeps_AddModule; eauto with apps|]. intros [] s3 E3.
  apply wp_bind. eapply wp_mono; [apply (evolves_then _ s2 s3); [done|]; destruct want; app_steps; eauto with apps|]. intros [] s4 E4.
  apply wp_bind. eapply wp_mono; [apply (evolves_then _ s2 s4); [done|]; apply keeps_SetPreToken; eauto with apps|]. intros [] s5 E5.
  apply wp_ret. split_and!; [eauto with apps..|]. by eapply not_recent_evolves.
Qed.
End starts.
#[export] Hint Resolve keeps_SetPreToken : apps.

(** Up to an invariant of the session, a step that keeps to the frame. *)
Lemma wp_session_bind {A B} (c : ST Apps A) (k : A → ST Apps B) s Q : session s → keeps evolves c s →
  (∀ x s', session s' → evolves s s' → wp (k x) Q s') → wp (c ≫= k) Q s.
Proof. intros Hs Hc Hk. apply wp_bind. eapply wp_mono; [exact Hc|]. cbv beta. intros x s' H. apply Hk; eauto with apps. Qed.

Lemma wp_found_session {A} (c : ST Apps (option AppRef)) (k : option AppRef → ST Apps A) s : session s → finds_known s c →
  wp (k None) (λ _ s', session s') s → (∀ ar, known_app s ar → wp (k (Some ar)) (λ _ s', session s') s) →
  wp (c ≫= k) (λ _ s', session s') s.
Proof. intros Hs Hc Hn Hk. eapply wp_answers; [exact Hc|]. intros [ar|] Hx; [|done]. by apply Hk, Hx. Qed.

Section starts2.
Context (uninitialized_uid : Z) (APPSPAWN_COLD_BOOT : Z).
Context (GetBundleInfo : string → Z → option BundleInfo) (GetHapModuleInfo : AbilityInfo → Z → option HapModuleInfo).
Context (GetBundleInfos : Z → option (list BundleInfo)) (GetBundleGidsByUid : string → Z → bool).
Context (spawn : Z → option Z).

Lemma answers_is_singleton_started s ar i want : apps_ok s → known_app s ar → answers (is_singleton_started ar i want) s (λ _, True).
Proof.
  intros Hok Har. unfold is_singleton_started. case_decide; [|by apply wp_ret].
  eapply wp_answers; [by apply answers_ability_by_name|]. intros x _. by apply wp_ret.
Qed.

Lemma keeps_app_StartAbility s token preToken i ar h want : apps_ok s → known_app s ar →
  keeps evolves (StartAbility token preToken i ar h want) s.
Proof.
  intros Hok Har. unfold StartAbility. eapply keeps_answers; [by apply answers_is_singleton_started|]. intros started _.
  app_step; [app_steps|]. eapply keeps_answers; [by apply answers_ability_by_token|]. cbv beta. intros x _.
  assert (∀ h want, keeps evolves (
    let app := abi_applicationInfo i in
    _ ← AddModule ar app (Some (i, token)) h want;
    a ← the_app ar;
    y ← GetModuleRecordByModuleName a (api_bundleName app) (hap_moduleName h);
    match y with
    | None => mret tt
    | Some mr =>
        m ← the_module mr;
        match ModuleGetAbilityRunningRecordByToken m token with
        | None => mret tt
        | Some br =>
            _ ← match preToken with Some p => upd_run br (λ b, b <| b_preToken := Some p |>) | None => mret tt end;
            a ← the_app ar;
            if decide (a_state a = APP_STATE_CREATE) then mret tt else LaunchAbility ar br
        end
    end) s) as Hadd.
  { intros h0 want0. cbv zeta. app_step; [app_steps|]. app_step.
    eapply keeps_answers; [apply (answers_module_by_name _ ar); eauto with apps|]. intros [mr|] Hy; [|app_steps].
    assert (known_module s0 mr) by (eapply all_modules_known; [done..|]; by apply Hy). app_step. app_step; [|app_steps].
    assert (known_run s0 p) by (by eapply run_known_of). app_step; [app_steps|]. app_step. case_decide; [app_steps|].
    apply keeps_LaunchAbility; eauto with apps. }
  destruct x as [br|]; [|apply Hadd]. destruct preToken as [p|]; [app_steps|apply Hadd].
Qed.

Lemma wp_LoadAbility s (token : option Token) preToken ability app want : session s →
  wp (LoadAbility uninitialized_uid APPSPAWN_COLD_BOOT GetBundleInfo GetHapModuleInfo GetBundleInfos GetBundleGidsByUid spawn
    token preToken ability app want) (λ _ s', session s') s.
Proof.
  intros Hs. unfold LoadAbility. case_match; [by apply wp_ret|]. destruct token as [token|]; [|by apply wp_ret].
  destruct ability as [i|]; [|by apply wp_ret]. destruct app as [app|]; [|by apply wp_ret].
  destruct (GetBundleAndHapInfo _ _ i app) as [[bi h]|]; [|by apply wp_ret].
  apply wp_found_session; [done|eauto with apps| |].
  - apply wp_bind. eapply wp_mono; [by apply wp_CreateAppRunningRecord|]. cbv beta. intros [ar|] s1; [|intros H1; by apply wp_ret].
    intros (H1 & Hh & Hn). eapply wp_mono; [by apply wp_StartProcess|]. cbv beta. intros [] s2 [H2 Hh2].
    apply (session_closed ar); auto.
  - intros ar Har. apply wp_session; [done|]. apply keeps_app_StartAbility; eauto with apps.
Qed.

Lemma wp_StartEmptyResidentProcess s bi processName restartCount : session s →
  wp (StartEmptyResidentProcess uninitialized_uid GetBundleInfos GetBundleGidsByUid spawn bi processName restartCount)
    (λ _ s', session s') s.
Proof.
  intros Hs. unfold StartEmptyResidentProcess. apply wp_bind. eapply wp_mono; [by apply wp_create|]. cbv beta.
  intros [ar|] s1; [|intros ->; by apply wp_ret]. intros (H1 & Hn1 & _).
  apply wp_bind. eapply wp_mono; [by apply wp_StartProcess|]. cbv beta. intros [] s2 [H2 _]. pose proof H2 as (Hok2 & Har2 & _).
  set (last_stage := match last _ with Some h => _ | None => _ end).
  apply wp_bind. eapply wp_mono; [apply keeps_upd_plain; intros ?; cbn; tauto|]. intros [] s3 E3.
  apply wp_bind. eapply wp_mono; [apply (evolves_then _ s2 s3); [done|]; app_steps|]. intros [] s4 E4.
  apply wp_bind. apply (wp_mono _ (λ _ s5, evolves s2 s5 ∧ handled s5 ar)).
  { apply wp_and; [apply evolves_then; [done|]; apply keeps_upd_plain; intros ?; cbn; tauto|]. apply wp_modify.
    destruct (known_app_evolves _ _ _ E4 Har2) as [a Ha]. exists (a <| a_handler := true |>). apps_cbn.
    by rewrite lookup_alter, decide_True, Ha by done. }
  intros [] s5 [E5 Hh5]. assert (session s5) by (apply (session_closed ar); eauto with apps).
  apply wp_session; [done|]. apply keeps_AddModules; eauto with apps.
Qed.

Lemma wp_StartResidentProcess s infos restartCount : session s →
  wp (StartResidentProcess uninitialized_uid GetBundleInfos GetBundleGidsByUid spawn infos restartCount) (λ _ s', session s') s.
Proof.
  intros Hs. apply wp_for_each; [done|]. intros bi s1 _ H1. apply wp_found_session; [done|eauto with apps| |].
  - by apply wp_StartEmptyResidentProcess.
  - intros ar _. by apply wp_ret.
Qed.

Lemma wp_RestartResidentProcess s callerUid ar : session s → known_app s ar →
  wp (RestartResidentProcess uninitialized_uid GetBundleInfo GetBundleInfos GetBundleGidsByUid spawn callerUid ar)
    (λ _ s', session s') s.
Proof.
  intros Hs Har. unfold RestartResidentProcess. eapply wp_answers; [by apply answers_app|]. intros a _.
  case_match; [by apply wp_StartResidentProcess|by apply wp_ret].
Qed.
End starts2.
