(* ===== verification/AppSpares.v ===== *)
(** What a call does not touch: the records of other processes, and what has been
    sent, stated for code that returns ([leaves]). *)

From S2P Require Import Prelude CppString Want AbilityRecord StdMap AppRecords AppManager AppService.
From S2P Require Import AppShape AppReads AppFrames.

#[local] Open Scope stdpp_scope.
#[local] Open Scope Z_scope.

Implicit Types (s : Apps) (ar : AppRef) (mr : ModRef) (br : AbRef) (token : Token).

(** The record of one process stays as it is. *)
Definition spares ar s s' : Prop :=
  (ar < am_next s)%positive → am_apps s' !! ar = am_apps s !! ar ∧ (ar < am_next s')%positive.

#[export] Instance spares_preorder ar : PreOrder (spares ar).
Proof.
  split; [by intros s|]. intros s1 s2 s3 H1 H2 H. destruct (H1 H) as [E1 L1]. destruct (H2 L1) as [E2 L2]. split; [congruence|done].
Qed.

(** The way to the process stays what it is. *)
Definition same_deal ar s s' : Prop := ∀ a, am_apps s !! ar = Some a → ∃ a', am_apps s' !! ar = Some a' ∧ a_deal a' = a_deal a.
#[export] Instance same_deal_preorder ar : PreOrder (same_deal ar).
Proof.
  split; [intros s a Ha; by exists a|]. intros s1 s2 s3 A1 A2 a Ha. destruct (A1 _ Ha) as (a2 & Ha2 & E2).
  destruct (A2 _ Ha2) as (a3 & Ha3 & E3). exists a3. split; [done|congruence].
Qed.

(** Nothing is sent or reported, and the process stays in its state. *)
Definition dormant ar s s' : Prop := am_trace s' = am_trace s ∧
  ∀ a, am_apps s !! ar = Some a → ∃ a', am_apps s' !! ar = Some a' ∧ a_state a' = a_state a.
#[export] Instance dormant_preorder ar : PreOrder (dormant ar).
Proof.
  split; [intros s; split; [done|]; intros a Ha; by exists a|]. intros s1 s2 s3 [T1 A1] [T2 A2]. split; [congruence|].
  intros a Ha. destruct (A1 _ Ha) as (a2 & Ha2 & E2). destruct (A2 _ Ha2) as (a3 & Ha3 & E3). exists a3. split; [done|congruence].
Qed.

Create HintDb leaves.
#[export] Hint Extern 1 (PreOrder _) => exact _ : leaves.

Lemma leaves_read {A} (R : relation Apps) `{!PreOrder R} (f : Apps → option A) s : leaves R (x ← gets f; deref x) s.
Proof. apply leaves_bind; [exact _|by apply leaves_gets|]. intros x s' _. by apply leaves_deref. Qed.


(** A relation that allows what is done to the heap for one process. *)
Class Allows (R : relation Apps) ar : Prop := {
  allows_app f s : (∀ a, a_state (f a) = a_state a ∧ a_deal (f a) = a_deal a) → R s (s <| am_apps ::= alter f ar |>);
  allows_modules f s : R s (s <| am_modules ::= f |>);
  allows_abilities f s : R s (s <| am_abilities ::= f |>);
  allows_next s : R s (s <| am_next ::= Pos.succ |>);
}.
(** And what is told. *)
Class Tells (R : relation Apps) : Prop := {
  tells_emit e s : R s (s <| am_trace ::= λ t, t ++ [e] |>);
  tells_events f s : R s (s <| am_events ::= f |>);
  tells_number f s : R s (s <| appEventId_ ::= f |>);
  tells_recent f s : R s (s <| recentAppList_ ::= f |>);
  tells_map f s : R s (s <| appRunningRecordMap_ ::= f |>);
}.

#[export] Hint Extern 1 (Allows _ _) => eassumption || exact _ : leaves.
#[export] Hint Extern 1 (Tells _) => exact _ : leaves.

Ltac leave_modify := apply leaves_modify; first
  [apply allows_app; intros ?; split_and!; done|eapply allows_modules; exact _|eapply allows_abilities; exact _|eapply allows_next; exact _
  |apply tells_emit; exact _|apply tells_events; exact _|apply tells_number; exact _|apply tells_recent; exact _|apply tells_map; exact _].
Ltac leave_step :=
  lazymatch goal with
  | |- leaves _ (mret _) _ => apply leaves_ret; exact _
  | |- leaves _ (gets _) _ => apply leaves_gets; exact _
  | |- leaves _ (deref _) _ => apply leaves_deref; exact _
  | |- leaves _ (the_app _) _ => apply (leaves_read _)
  | |- leaves _ (the_module _) _ => apply (leaves_read _)
  | |- leaves _ (the_ability _) _ => apply (leaves_read _)
  | |- leaves _ (_ ≫= _) _ => apply leaves_bind; [exact _| |let x := fresh "x" in let s' := fresh "s" in intros x s' _]
  | |- leaves _ (for_each _ _) _ => apply leaves_for_each; [exact _|intros ? ? _]
  | |- leaves _ (find_m _ _) _ => apply leaves_find; [exact _|intros ? ?]
  | |- leaves _ (first_m _ _) _ => apply leaves_first; [exact _|intros ? ?]
  | |- leaves _ (modify _) _ => leave_modify
  | |- leaves _ (match ?x with _ => _ end) _ => destruct x
  | |- leaves _ _ _ => solve [eauto with leaves]
  end.
Ltac leave_steps := repeat leave_step.

(** Searches leave everything as it is. *)
Section searches.
Context (R : relation Apps) `{!PreOrder R}.

Lemma leaves_module_by_token ar token s : leaves R (GetModuleRunningRecordByToken ar token) s.
Proof using All. unfold GetModuleRunningRecordByToken, module_of. leave_steps. Qed.
Lemma leaves_module_by_name a bundleName moduleName s : leaves R (GetModuleRecordByModuleName a bundleName moduleName) s.
Proof using All. unfold GetModuleRecordByModuleName. leave_steps. Qed.
Lemma leaves_ability_by_name ar abilityName moduleName owner s : leaves R (GetAbilityRunningRecord ar abilityName moduleName owner) s.
Proof using All. unfold GetAbilityRunningRecord, ModuleGetAbilityRunningRecord. leave_steps. Qed.
End searches.
#[export] Hint Resolve leaves_module_by_token leaves_module_by_name leaves_ability_by_name : leaves.

Section searches2.
Context (R : relation Apps) `{!PreOrder R}.

Lemma leaves_ability_by_token ar token s : leaves R (GetAbilityRunningRecordByToken ar token) s.
Proof using All. unfold GetAbilityRunningRecordByToken. leave_steps. Qed.
Lemma leaves_is_singleton_started ar i want s : leaves R (is_singleton_started ar i want) s.
Proof using All. unfold is_singleton_started. leave_steps. Qed.
Lemma leaves_existing appName processName uid bi s : leaves R (CheckAppRunningRecordIsExist appName processName uid bi) s.
Proof using All. unfold CheckAppRunningRecordIsExist, find_app_by, find_app. leave_steps. Qed.
End searches2.
#[export] Hint Resolve leaves_ability_by_token leaves_is_singleton_started leaves_existing : leaves.

(** * Steps *)

#[export] Instance spares_allows ar ar' : TCEq (bool_decide (ar = ar')) false → Allows (spares ar) ar'.
Proof.
  intros E%TCEq_eq%bool_decide_eq_false. split; [intros f s _ H|intros f s H|intros f s H|intros s H]; apps_cbn; split; try done; [|lia].
  by rewrite lookup_alter_ne by done.
Qed.
#[export] Instance spares_tells ar : Tells (spares ar).
Proof. split; intros *; intros H; by split. Qed.
#[export] Instance dormant_allows ar : Allows (dormant ar) ar.
Proof.
  split; intros *; [intros Hf|..]; (split; [done|]); intros a Ha; apps_cbn; try by exists a.
  rewrite lookup_alter, decide_True, Ha by done. exists (f a). split; [done|apply Hf].
Qed.
#[export] Instance same_deal_allows ar : Allows (same_deal ar) ar.
Proof.
  split; intros *; [intros Hf|..]; intros a Ha; apps_cbn; try by exists a.
  rewrite lookup_alter, decide_True, Ha by done. exists (f a). split; [done|apply Hf].
Qed.
#[export] Instance same_deal_tells ar : Tells (same_deal ar).
Proof. split; intros *; intros a Ha; by exists a. Qed.

Section quiet.
Context (R : relation Apps) `{!PreOrder R} (ar : AppRef) `{!Allows R ar}.

Lemma leaves_AddAbility mr token i want s : leaves R (AddAbility mr token i want) s.
Proof using All. unfold AddAbility, app_ref, upd_module. leave_steps. Qed.
Lemma leaves_SetPreToken token preToken s : leaves R (SetPreToken ar token preToken) s.
Proof using All. unfold SetPreToken, upd_run. leave_steps. Qed.
Lemma leaves_deal mr s : leaves R (upd_module mr (λ m, m <| m_inner := true |>)) s.
Proof using All. unfold upd_module. leave_steps. Qed.
End quiet.
#[export] Hint Resolve leaves_AddAbility leaves_SetPreToken : leaves.

Section quiet2.
Context (R : relation Apps) `{!PreOrder R} (ar : AppRef) `{!Allows R ar}.

Lemma leaves_AddModule app ability h want s : leaves R (AddModule ar app ability h want) s.
Proof using All. unfold AddModule, app_ref, upd_app. leave_steps. Qed.
Lemma leaves_SetAppMgrServiceInner s : leaves R (SetAppMgrServiceInner ar) s.
Proof using All. unfold SetAppMgrServiceInner, upd_app, upd_module. leave_steps. Qed.
End quiet2.
#[export] Hint Resolve leaves_AddModule leaves_SetAppMgrServiceInner : leaves.

Section telling.
Context (R : relation Apps) `{!PreOrder R, !Tells R}.

Lemma leaves_emit e s : leaves R (app_emit e) s.
Proof using All. unfold app_emit. leave_steps. Qed.
Lemma leaves_to_client a m s : leaves R (to_client a m) s.
Proof using All. unfold to_client, app_emit. leave_steps. Qed.
Lemma leaves_deal_schedule a m s : leaves R (deal_schedule a m) s.
Proof using All. unfold deal_schedule, to_client, app_emit. leave_steps. Qed.
Lemma leaves_OnAppStateChanged ar st s : leaves R (OnAppStateChanged ar st) s.
Proof using All. unfold OnAppStateChanged, app_emit. leave_steps. Qed.

Context (ar : AppRef) `{!Allows R ar}.

Lemma leaves_SendEvent msg s : leaves R (SendEvent ar msg) s.
Proof using All. unfold SendEvent, post_event, upd_app. leave_steps. Qed.
Lemma leaves_ModuleLaunchAbility mr br s : leaves R (ModuleLaunchAbility ar mr br) s.
Proof using All. unfold ModuleLaunchAbility, app_emit, upd_run. leave_steps. Qed.
End telling.
#[export] Hint Resolve leaves_emit leaves_to_client leaves_deal_schedule leaves_OnAppStateChanged leaves_SendEvent
  leaves_ModuleLaunchAbility : leaves.

Section telling2.
Context (R : relation Apps) `{!PreOrder R, !Tells R} (ar : AppRef) `{!Allows R ar}.

Lemma leaves_LaunchAbility br s : leaves R (LaunchAbility ar br) s.
Proof using All. unfold LaunchAbility. leave_steps. Qed.
Lemma leaves_StartAbility token preToken i h want s : leaves R (StartAbility token preToken i ar h want) s.
Proof using All.
  unfold StartAbility. pose proof leaves_LaunchAbility. unfold upd_run. leave_steps.
Qed.
Lemma leaves_StartProcess bundles gids spawn appName processName flags uid bundleName s :
  leaves R (StartProcess bundles gids spawn appName processName flags ar uid bundleName) s.
Proof using All. unfold StartProcess, AddAppToRecentList, RemoveAppRunningRecordById, upd_app. leave_steps. Qed.
Lemma leaves_AddAbilityStageBySpecifiedAbility bundleName s : leaves R (AddAbilityStageBySpecifiedAbility ar bundleName) s.
Proof using All.
  unfold AddAbilityStageBySpecifiedAbility, GetTheModuleInfoNeedToUpdated, HasInnerEvent, upd_module. leave_steps.
Qed.
Lemma leaves_AppScheduleAcceptWant moduleName s : leaves R (AppScheduleAcceptWant ar moduleName) s.
Proof using All. unfold AppScheduleAcceptWant. leave_steps. Qed.
Lemma leaves_AddModules app hs s : leaves R (AddModules ar app hs) s.
Proof using PreOrder0 Allows0. unfold AddModules. leave_steps. Qed.
Lemma leaves_SetSpecified flag w moduleName s : leaves R (SetSpecifiedAbilityFlagAndWant ar flag w moduleName) s.
Proof using All. unfold SetSpecifiedAbilityFlagAndWant, upd_app. leave_steps. Qed.
End telling2.
#[export] Hint Resolve leaves_StartAbility leaves_StartProcess leaves_AddAbilityStageBySpecifiedAbility
  leaves_AppScheduleAcceptWant leaves_AddModules leaves_SetSpecified : leaves.

(** ** A new process is not one that was there *)

Lemma leaves_create ar uid0 info processName bi s :
  leaves (spares ar) (Manager_CreateAppRunningRecord uid0 info processName bi) s ∧
  ∀ x s', Manager_CreateAppRunningRecord uid0 info processName bi s = Returned (x, s') → x = None ∨ x = Some (am_next s).
Proof.
  unfold Manager_CreateAppRunningRecord, app_ref. destruct (String.eqb processName ""); [split; [apply leaves_ret; exact _|intros x s' [= <- _]; by left]|].
  split; intros x s' [= <- <-]; [|by right]. intros H. apps_cbn. split; [|lia]. rewrite lookup_insert_ne; [done|]. lia.
Qed.

Lemma spares_other ar ar' : ar ≠ ar' → Allows (spares ar) ar'.
Proof. intros H. apply spares_allows. by rewrite bool_decide_false. Qed.

Section starts.
Context (uninitialized_uid : Z) (APPSPAWN_COLD_BOOT : Z).
Context (GetBundleInfo : string → Z → option BundleInfo) (GetHapModuleInfo : AbilityInfo → Z → option HapModuleInfo).
Context (GetBundleInfos : Z → option (list BundleInfo)) (GetBundleGidsByUid : string → Z → bool).
Context (spawn : Z → option Z).
Context (s : Apps) (ar : AppRef) (Hlt : (ar < am_next s)%positive).

(** A process other than the one that a new ability would join. *)
Context (Hother : ∀ appName processName uid bi s' ar',
  CheckAppRunningRecordIsExist appName processName uid bi s = Returned (Some ar', s') → ar ≠ ar').

Lemma spares_created {A} info processName bi s1 (k : option AppRef → ST Apps A) :
  (ar < am_next s1)%positive → (∀ s2, leaves (spares ar) (k None) s2) →
  (∀ ar' s2, Allows (spares ar) ar' → leaves (spares ar) (k (Some ar')) s2) →
  leaves (spares ar) (Manager_CreateAppRunningRecord uninitialized_uid info processName bi ≫= k) s1.
Proof.
  intros Hlt1 Hn Hk. destruct (leaves_create ar uninitialized_uid info processName bi s1) as [Hl Hx].
  apply leaves_bind; [exact _|done|]. intros x s2 Hr. destruct (Hx _ _ Hr) as [-> | ->]; [apply Hn|].
  apply Hk, spares_other. lia.
Qed.

Lemma spares_LoadAbility (token : option Token) preToken ability app want :
  leaves (spares ar) (LoadAbility uninitialized_uid APPSPAWN_COLD_BOOT GetBundleInfo GetHapModuleInfo GetBundleInfos
    GetBundleGidsByUid spawn token preToken ability app want) s.
Proof using Hlt Hother.
  unfold LoadAbility. case_match; [leave_steps|]. destruct token as [token|]; [|leave_steps].
  destruct ability as [i|]; [|leave_steps]. destruct app as [app|]; [|leave_steps].
  destruct (GetBundleAndHapInfo _ _ i app) as [[bi h]|]; [|leave_steps].
  apply leaves_bind; [exact _|leave_steps|]. intros x s' Hx.
  assert ((ar < am_next s')%positive) as Hlt' by (by apply (leaves_existing (spares ar) _ _ _ _ _ _ _ Hx)).
  destruct x as [ar'|].
  - assert (Allows (spares ar) ar') by (apply spares_other; by eapply Hother). leave_steps.
  - unfold CreateAppRunningRecord. apply leaves_bind; [exact _| |intros [ar'|] s2 Hr; [|leave_steps]].
    + apply spares_created; [done|intros; leave_steps|]. intros ar' s2 Ha. unfold upd_app. leave_steps.
    + assert (ar ≠ ar') as Hne.
      { revert Hr. rewrite ST_bind_Returned. intros (x & s3 & Hc & Hr).
        destruct (proj2 (leaves_create ar uninitialized_uid app _ bi s') _ _ Hc) as [-> | ->]; [by injection Hr|].
        rewrite ST_bind_Returned in Hr. destruct Hr as (_ & s4 & _ & Hr).
        rewrite ST_bind_Returned in Hr. destruct Hr as (_ & s5 & _ & Hr).
        rewrite ST_bind_Returned in Hr. destruct Hr as (_ & s6 & _ & Hr).
        rewrite ST_bind_Returned in Hr. destruct Hr as (_ & s7 & _ & [= <- _]). lia. }
      assert (Allows (spares ar) ar') by by apply spares_other. leave_steps.
Qed.

Lemma spares_StartSpecifiedAbility w i :
  leaves (spares ar) (StartSpecifiedAbility uninitialized_uid APPSPAWN_COLD_BOOT GetBundleInfo GetHapModuleInfo GetBundleInfos
    GetBundleGidsByUid spawn w i) s.
Proof using Hlt Hother.
  unfold StartSpecifiedAbility. destruct (GetBundleAndHapInfo _ _ i _) as [[bi h]|]; [|leave_steps].
  apply leaves_bind; [exact _|leave_steps|]. intros x s' Hx.
  assert ((ar < am_next s')%positive) as Hlt' by (by apply (leaves_existing (spares ar) _ _ _ _ _ _ _ Hx)).
  destruct x as [ar'|].
  - assert (Allows (spares ar) ar') by (apply spares_other; by eapply Hother). leave_steps.
  - apply spares_created; [done|intros; leave_steps|]. intros ar' s2 Ha. unfold upd_app. leave_steps.
Qed.
End starts.
