(* ===== verification/AppSession.v ===== *)
(** The application manager as a transition system: its calls, what processes report,
    deaths and timeouts are events, each of them one step of its event handler.

    [app_event_comes] says which can happen: a timeout that waits, a restart that was
    posted. Three events follow a pointer without a look: [app_event_safe] says when
    it is there; the others return, these throw. At the end a small device, for the
    instances of theorems. *)

From S2P Require Import Prelude CppString Want AbilityRecord StdMap AppRecords AppManager AppService AppShape.
From S2P Require Import AppReads AppFrames AppModules AppStates AppRun AppStarts AppSpares.

#[local] Open Scope stdpp_scope.
#[local] Open Scope Z_scope.

Implicit Types (s : Apps) (ar : AppRef) (mr : ModRef) (br : AbRef).
Implicit Types (a : AppRunningRecord) (m : ModuleRunningRecord) (b : AbilityRunningRecord).

(** The process that a new ability would join. *)
Definition existing s (appName processName : string) (uid : Z) (bi : BundleInfo) : option AppRef :=
  app_by s (if String.eqb (bi_jointUserId bi) "" then runs_app appName processName uid
            else same_process (ClipStringContent (bi_appId bi)) processName (bi_jointUserId bi)).

Lemma run_existing s appName processName uid bi : apps_ok s →
  CheckAppRunningRecordIsExist appName processName uid bi s = Returned (existing s appName processName uid bi, s).
Proof. intros Hok. unfold CheckAppRunningRecordIsExist, existing. case_match; by apply run_find_app_by. Qed.

Definition attached_now s ar : bool :=
  match am_apps s !! ar with Some a => bool_decide (is_Some (a_deal a)) | None => false end.
Lemma attached_now_spec s ar : attached_now s ar = true → attached s ar.
Proof. unfold attached_now. destruct (am_apps s !! ar) as [a|] eqn:E; [|done]. intros H%bool_decide_eq_true. by exists a. Qed.

(** What an event is. *)
Inductive AppEvent :=
  | ELoadAbility (token preToken : option Token) (ability : option AbilityInfo) (app : option ApplicationInfo) (want : option Want)
  | EAttachApplication (pid : Z) (app : option Client)
  | EAddAbilityStageDone (recordId : Z)
  | EApplicationForegrounded (recordId : Z)
  | EApplicationBackgrounded (recordId : Z)
  | EApplicationTerminated (recordId : Z)
  | EAbilityCleaned (token : option Token)
  | EUpdateAbilityState (token : option Token) (st : AbilityState)
  | EUpdateExtensionState (token : option Token) (st : Z)
  | EAbilityBehaviorAnalysis (token preToken : option Token) (visibility perceptibility connectionState : Z)
  | ETerminateAbility (token : option Token)
  | EPrepareTerminate (token : option Token)
  | EAbilityAttachTimeOut (token : option Token)
  | EKillApplication (permission : Z) (bundleName : string)
  | EKillApplicationByUid (permission : Z) (bundleName : string) (uid : Z)
  | EKillApplicationByUserId (permission : Z) (bundleName : string) (userId : Z)
  | EKillProcessesByUserId (userId : Z)
  | EKillProcessByAbilityToken (token : Token)
  | EClearRecentAppList
  | ERemoveAppFromRecentList (appName processName : string)
  | ERemoteDied (remote : Client) (isRenderProcess : bool)
  | ETimeOut (msg param : Z)
  | ELoadResidentProcess (ownCall : bool) (infos : list BundleInfo)
  | ERestart (callerUid : Z) (ar : AppRef)
  | EStartSpecifiedAbility (w : Want) (i : AbilityInfo)
  | EScheduleAcceptWantDone (recordId : Z) (w : Want) (flag : string)
  | EStartRenderProcess (hostPid : Z) (renderParam : string) (ipcFd sharedFd : Z)
  | EAttachRenderProcess (pid : Z) (scheduler : option Client)
  | ERegisterAppStateCallback (ownCall : bool) (callback : option CallbackRef)
  | ERegisterResponse (ownCall response : bool).

Section session.
Context (uninitialized_uid : Z) (APPSPAWN_COLD_BOOT : Z).
Context (GetBundleInfo : string → Z → option BundleInfo) (GetHapModuleInfo : AbilityInfo → Z → option HapModuleInfo).
Context (GetBundleInfos : Z → option (list BundleInfo)) (GetBundleGidsByUid : string → Z → bool).
Context (GetUidByBundleName : string → Z → Z).
Context (spawn : Z → option Z) (nweb_spawn : RenderRef → option Z).
Context (survivors : list Z → list Z) (kill : Z → Z).
Context (GetOsAccountLocalIdFromUid : Z → option Z).

Definition app_event (e : AppEvent) : ST Apps unit :=
  match e with
  | ELoadAbility token preToken ability app want =>
      LoadAbility uninitialized_uid APPSPAWN_COLD_BOOT GetBundleInfo GetHapModuleInfo GetBundleInfos GetBundleGidsByUid spawn
        token preToken ability app want
  | EAttachApplication pid app => AttachApplication pid app
  | EAddAbilityStageDone recordId => AddAbilityStageDone recordId
  | EApplicationForegrounded recordId => ApplicationForegrounded recordId
  | EApplicationBackgrounded recordId => ApplicationBackgrounded recordId
  | EApplicationTerminated recordId => ApplicationTerminated recordId
  | EAbilityCleaned token => AbilityTerminated token
  | EUpdateAbilityState token st => UpdateAbilityState token st
  | EUpdateExtensionState token st => UpdateExtensionState token st
  | EAbilityBehaviorAnalysis token preToken v p c => AbilityBehaviorAnalysis token preToken v p c
  | ETerminateAbility token => TerminateAbility token
  | EPrepareTerminate token => PrepareTerminate token
  | EAbilityAttachTimeOut token => HandleAbilityAttachTimeOut token
  | EKillApplication permission bundleName => _ ← KillApplication survivors kill permission bundleName; mret tt
  | EKillApplicationByUid permission bundleName uid => _ ← KillApplicationByUid survivors kill permission bundleName uid; mret tt
  | EKillApplicationByUserId permission bundleName userId =>
      _ ← KillApplicationByUserId GetUidByBundleName survivors kill permission bundleName userId; mret tt
  | EKillProcessesByUserId userId => KillProcessesByUserId survivors kill GetOsAccountLocalIdFromUid userId
  | EKillProcessByAbilityToken token => KillProcessByAbilityToken survivors kill token
  | EClearRecentAppList => ClearRecentAppList
  | ERemoveAppFromRecentList appName processName => RemoveAppFromRecentList survivors kill appName processName
  | ERemoteDied remote isRenderProcess => OnRemoteDied kill remote isRenderProcess
  | ETimeOut msg param =>
      _ ← modify (λ s, s <| am_events ::= erase_first (λ e, (e.1 =? msg) && (e.2 =? param)) |>);
      HandleTimeOut survivors kill msg param
  | ELoadResidentProcess ownCall infos =>
      LoadResidentProcess uninitialized_uid GetBundleInfos GetBundleGidsByUid spawn ownCall infos
  | ERestart callerUid ar =>
      _ ← modify (λ s, s <| am_restarts ::= list_erase_val ar |>);
      RestartResidentProcess uninitialized_uid GetBundleInfo GetBundleInfos GetBundleGidsByUid spawn callerUid ar
  | EStartSpecifiedAbility w i =>
      StartSpecifiedAbility uninitialized_uid APPSPAWN_COLD_BOOT GetBundleInfo GetHapModuleInfo GetBundleInfos
        GetBundleGidsByUid spawn w i
  | EScheduleAcceptWantDone recordId w flag => ScheduleAcceptWantDone recordId w flag
  | EStartRenderProcess hostPid renderParam ipcFd sharedFd =>
      _ ← StartRenderProcess nweb_spawn hostPid renderParam ipcFd sharedFd; mret tt
  | EAttachRenderProcess pid scheduler => AttachRenderProcess pid scheduler
  | ERegisterAppStateCallback ownCall callback => RegisterAppStateCallback ownCall callback
  | ERegisterResponse ownCall response => RegisterStartSpecifiedAbilityResponse ownCall response
  end.

(** The process that a SPECIFIED ability would be started in. *)
Definition specified_app s (i : AbilityInfo) : option AppRef :=
  let app := abi_applicationInfo i in
  match GetBundleAndHapInfo GetBundleInfo GetHapModuleInfo i app with
  | None => None
  | Some (b, h) => existing s (api_name app) (MakeProcessName i app h) (api_uid app) b
  end.

Definition tokens_there s ar : bool :=
  match am_apps s !! ar with
  | None => true
  | Some a => forallb (λ token, bool_decide (is_Some (module_holding s (has_token token) a))) (a_foregrounding a)
  end.

(** Whether a module of the process's bundle waits to be announced. *)
Definition stage_waits s a : bool :=
  match map_find (api_bundleName (a_info a)) (a_hapModules a) with
  | None => false
  | Some l => existsb (λ mr, bool_decide (m_state <$> am_modules s !! mr = Some INITIALIZED_STATE)) l
  end.
(** A stage that is done is followed by a message to the process, or by nothing. *)
Definition stage_safe s ar : bool :=
  match am_apps s !! ar with
  | None => true
  | Some a => bool_decide (is_Some (a_deal a)) || negb (a_isSpecified a) && negb (a_isNewMission a && stage_waits s a)
  end.

(** A timeout comes of an event that waits, a restart of one that was posted. *)
Definition app_event_comes s (e : AppEvent) : bool :=
  match e with
  | ETimeOut msg param => bool_decide ((msg, param) ∈ am_events s)
  | ERestart _ ar => bool_decide (ar ∈ am_restarts s)
  | _ => true
  end.

(** The three events that follow a pointer without a look find it. *)
Definition app_event_safe s (e : AppEvent) : bool :=
  match e with
  | EAddAbilityStageDone recordId =>
      match map_find recordId (appRunningRecordMap_ s) with Some ar => stage_safe s ar | None => true end
  | EApplicationForegrounded recordId =>
      match map_find recordId (appRunningRecordMap_ s) with Some ar => tokens_there s ar | None => true end
  | EStartSpecifiedAbility _ i => match specified_app s i with Some ar => attached_now s ar | None => true end
  | _ => true
  end.

(** ** The events return when they are safe *)

(** What [AppAddAbilityStageDone] does once it has cancelled the two timeouts. *)
Lemma after_stage_timeouts s ar a : am_apps s !! ar = Some a → a_handler a = true →
  ∃ s2, evolves s s2 ∧ am_apps s2 = am_apps s ∧ am_modules s2 = am_modules s ∧
    AppAddAbilityStageDone ar s = (if a_isSpecified a then AppScheduleAcceptWant ar (a_moduleName a) else AddAbilityStage ar) s2.
Proof.
  intros Ha Hh. eexists. split; [|split; [|split]]; cycle 3.
  - unfold AppAddAbilityStageDone. rewrite (bind_run _ _ _ _ _ (run_app _ _ _ Ha)), Hh. reflexivity.
  - apply evolves_aside; try done. by intros [].
  - done.
  - done.
Qed.

(** The search for a module that waits to be announced. *)
Lemma stage_search s ar a l : apps_ok s → am_apps s !! ar = Some a → map_find (api_bundleName (a_info a)) (a_hapModules a) = Some l →
  wp (find_m (λ mr, m ← the_module mr; mret (bool_decide (m_state m = INITIALIZED_STATE))) l)
    (λ x s', s' = s ∧ (is_Some x ↔ stage_waits s a = true) ∧ ∀ mr, x = Some mr → known_module s mr) s.
Proof.
  intros Hok Ha El. unfold stage_waits. rewrite El.
  assert (∀ mr, mr ∈ l → known_module s mr) as Hl.
  { intros mr Hmr. eapply all_modules_known; [done..|]. apply elem_all_modules. eexists _, l. split; [by apply map_find_elem|done]. }
  eapply (wp_find_pure _ (λ mr, bool_decide (m_state <$> am_modules s !! mr = Some INITIALIZED_STATE))).
  - intros mr Hmr. destruct (Hl _ Hmr) as [m Hm]. rewrite (bind_run _ _ _ _ _ (run_module _ _ _ Hm)), Hm. cbn.
    unfold mret, ST_ret. f_equal. f_equal. apply bool_decide_ext. split; [by intros ->|by intros [= ->]].
  - split; [done|]. split; [|intros mr [Hin _]%find_Some_elem; by apply Hl].
    rewrite find_is_Some_iff, existsb_exists. by setoid_rewrite list_elem_of_In.
Qed.

Lemma keeps_as {A} (c c' : ST Apps A) s s2 : c s = c' s2 → evolves s s2 → keeps evolves c' s2 → keeps evolves c s.
Proof. unfold keeps, wp. intros -> E. destruct (c' s2) as [[x s']| |]; [|done..]. by transitivity s2. Qed.

Lemma keeps_stage_done s ar : apps_ok s → known_app s ar → handled s ar → stage_safe s ar = true →
  keeps evolves (AppAddAbilityStageDone ar) s.
Proof.
  intros Hok [a Ha] Hh Hsafe. unfold stage_safe in Hsafe. rewrite Ha in Hsafe.
  destruct (bool_decide_reflect (is_Some (a_deal a))) as [Hd|_].
  { apply keeps_AppAddAbilityStageDone; [done|by exists a|by exists a|done]. }
  cbn [orb] in Hsafe. apply andb_true_iff in Hsafe as [Hspec%negb_true_iff Hw%negb_true_iff].
  destruct (after_stage_timeouts s ar a) as (s2 & E2 & Ea & Em & Er); [done|by eapply handled_handler|].
  rewrite Hspec in Er. eapply (keeps_as _ _ _ _ Er E2).
  assert (apps_ok s2) as Hok2 by eauto with apps. assert (am_apps s2 !! ar = Some a) as Ha2 by by rewrite Ea.
  assert (stage_waits s2 a = stage_waits s a) as Hw2 by (unfold stage_waits; by rewrite Em).
  unfold AddAbilityStage. apply wp_bind. unfold wp at 1. rewrite (run_app _ _ _ Ha2). cbn iota.
  destruct (a_isNewMission a); cbn [negb]; [|by apply wp_ret]. cbn [andb] in Hw.
  unfold GetTheModuleInfoNeedToUpdated. apply wp_bind, wp_bind. unfold wp at 1. rewrite (run_app _ _ _ Ha2). cbn iota.
  destruct (map_find _ _) as [l|] eqn:El; [|by apply wp_ret, wp_ret].
  apply wp_bind. eapply wp_mono; [by apply (stage_search _ ar a)|]. cbv beta. intros x s' (-> & Hx & _).
  destruct x as [mr|]; [|by apply wp_ret, wp_ret]. exfalso. assert (stage_waits s2 a = true) by by apply Hx. congruence.
Qed.

Lemma keeps_AddAbilityStageDone s recordId : session s →
  (∀ ar, (recordId, ar) ∈ appRunningRecordMap_ s → stage_safe s ar = true) → keeps evolves (AddAbilityStageDone recordId) s.
Proof.
  intros Hs Hatt. assert (apps_ok s) by eauto with apps. apply keeps_with_record; [done|]. intros ar Har Hin.
  apply keeps_stage_done; eauto with apps.
Qed.

Lemma keeps_ScheduleAcceptWantDone s recordId w flag : session s → keeps evolves (ScheduleAcceptWantDone recordId w flag) s.
Proof.
  intros Hs. assert (apps_ok s) by eauto with apps. apply keeps_with_record; [done|]. intros ar Har _.
  app_step; [apply keeps_AppScheduleAcceptWantDone; eauto with apps|]. app_steps.
Qed.

Lemma wp_StartSpecifiedAbility s w i : session s → (∀ ar, specified_app s i = Some ar → attached s ar) →
  wp (StartSpecifiedAbility uninitialized_uid APPSPAWN_COLD_BOOT GetBundleInfo GetHapModuleInfo GetBundleInfos
        GetBundleGidsByUid spawn w i) (λ _ s', session s') s.
Proof.
  intros Hs Hatt. unfold StartSpecifiedAbility, specified_app in *. assert (apps_ok s) as Hok by eauto with apps.
  destruct (GetBundleAndHapInfo _ _ i _) as [[bi h]|]; [|by apply wp_ret].
  eapply wp_answers; [eapply answers_run; [by apply run_existing|]; exact (eq_refl (existing s _ _ _ _))|].
  intros x Hx. destruct x as [ar|].
  - assert (attached s ar) as Ha by (by apply Hatt).
    assert (known_app s ar) as Har by (destruct Ha as (a & ? & _); by exists a).
    apply wp_session; [done|]. unfold SetSpecifiedAbilityFlagAndWant. app_step; [app_steps|]. app_step.
    eapply keeps_answers; [by apply (answers_module_by_name _ ar)|]. intros [mr|] _; [app_steps|].
    app_step; [app_steps|]. apply keeps_AddAbilityStageBySpecifiedAbility; eauto 6 with apps.
  - apply wp_bind. eapply wp_mono; [by apply wp_create|]. cbv beta. intros [ar|] s1; [|intros ->; by apply wp_ret].
    intros (H1 & Hn1 & _). set (f := λ a, a <| a_handler := true |>).
    apply wp_bind. apply (wp_mono _ (λ _ s2, evolves s1 s2 ∧ handled s2 ar)).
    { apply wp_and; [apply keeps_upd_plain; intros ?; cbn; tauto|]. apply wp_modify. destruct H1 as (_ & [a Ha] & _).
      exists (f a). apps_cbn. by rewrite lookup_alter, decide_True, Ha by done. }
    intros [] s2 [E2 Hh2]. assert (session_but ar s2) as H2 by eauto with apps. pose proof H1 as (_ & Har1 & _). pose proof H2 as (Hok2 & Har2 & _).
    apply wp_bind. eapply wp_mono; [by apply keeps_app_SendEvent|]. intros [] s3 E3.
    assert (not_recent s3 ar) by (eapply (not_recent_evolves s1); [done|by transitivity s2|done]).
    apply wp_bind. eapply wp_mono; [apply wp_StartProcess; eauto with apps|]. cbv beta. intros [] s4 [H4 Hh4].
    assert (session s4) as Hs4 by (apply (session_closed ar); eauto with apps). pose proof H4 as (_ & Har4 & _).
    apply wp_session; [done|]. assert (apps_ok s4) by eauto with apps. unfold SetSpecifiedAbilityFlagAndWant. app_steps.
Qed.

Lemma wp_render s hostPid renderParam ipcFd sharedFd : session s →
  wp (StartRenderProcess nweb_spawn hostPid renderParam ipcFd sharedFd) (λ _ s', session s') s.
Proof.
  intros Hs. assert (apps_ok s) as Hok by eauto with apps. unfold StartRenderProcess. case_match; [by apply wp_ret|].
  apply wp_found_session; [done|by apply finds_app_by|by apply wp_ret|]. intros ar Har.
  eapply wp_answers; [by apply answers_app|]. cbv beta. intros a Ha. destruct (a_render a) as [rr|] eqn:Er.
  - destruct (ok_render _ _ (ao_apps _ Hok _ _ Ha) _ Er) as [r Hr]. apply wp_bind, wp_gets, wp_bind. eapply wp_deref; [done|]. by apply wp_ret.
  - unfold CreateRenderRecord. case_match; [by apply wp_bind, wp_ret, wp_ret|].
    apply wp_bind, wp_new_render; [done|]. intros s1 E1 Hr. apply wp_ret. unfold StartRenderProcessImpl.
    assert (session s1) as H1 by eauto with apps. assert (apps_ok s1) as Hok1 by eauto with apps.
    apply wp_bind, wp_gets, wp_bind. eapply wp_deref; [exact Hr|]. apply (wp_session_bind _ _ _ _ H1); [apply keeps_app_emit|].
    intros [] s2 H2 E2. destruct (nweb_spawn _) as [pid|]; [|by apply wp_ret].
    apply (wp_session_bind _ _ _ _ H2).
    { apply keeps_upd_render; [eauto with apps|]. eapply known_render_evolves; [exact E2|]. by eexists. }
    intros [] s3 H3 E3. apply (wp_session_bind _ _ _ _ H3); [apply keeps_alter_render|]. intros [] s4 H4 _. by apply wp_ret.
Qed.

Lemma keeps_AttachRenderProcess s pid scheduler : apps_ok s → keeps evolves (AttachRenderProcess pid scheduler) s.
Proof.
  intros Hok. unfold AttachRenderProcess, GetAppRunningRecordByRenderPid. app_step; [app_steps|]. app_step; [|app_steps].
  found_step. app_step. destruct (a_render a) as [rr|] eqn:Er; [|app_steps].
  pose proof (ok_render _ _ (ao_apps _ Hok _ _ Ha) _ Er) as Hr. app_step; [apply keeps_alter_render|]. app_step; [app_steps|].
  assert (known_render s1 rr) as [r Hr1] by eauto with apps. apply keeps_gets. apply wp_bind. eapply wp_deref; [exact Hr1|]. apply keeps_app_emit.
Qed.

Lemma run_then {A} (c : ST Apps A) s : wp c (λ _ s', session s') s → wp (_ ← c; mret tt) (λ _ s', session s') s.
Proof. intros Hc. apply wp_bind. eapply wp_mono; [exact Hc|]. intros x s' H. by apply wp_ret. Qed.

(** Between calls the service is consistent, and a call that may happen returns. *)
Lemma session_step s e : session s → app_event_comes s e = true → app_event_safe s e = true → wp (app_event e) (λ _ s', session s') s.
Proof.
  intros Hs Hc He. assert (apps_ok s) as Hok by eauto with apps. destruct e; cbn [app_event app_event_comes app_event_safe] in *.
  1: by apply wp_LoadAbility.
  1: by apply wp_session, keeps_AttachApplication.
  1: { apply wp_session, keeps_AddAbilityStageDone; [done..|]. intros ar Hin.
       by rewrite (NoDup_find _ _ _ (tb_once _ (ao_tables _ Hok)) Hin) in He. }
  1: { apply wp_session, keeps_ApplicationForegrounded; [done..|]. intros ar a token Hin Ha Ht.
       rewrite (NoDup_find _ _ _ (tb_once _ (ao_tables _ Hok)) Hin) in He. unfold tokens_there in He. rewrite Ha in He.
       exists a. split; [done|]. rewrite forallb_forall in He. eapply bool_decide_eq_true, He. by apply list_elem_of_In. }
  1: by apply wp_session, keeps_ApplicationBackgrounded.
  1: by apply wp_session, keeps_ApplicationTerminated.
  1: by apply wp_session, keeps_AbilityTerminated.
  1: by apply wp_session, keeps_UpdateAbilityState.
  1: by apply wp_session, keeps_UpdateExtensionState.
  1: by apply wp_session, keeps_AbilityBehaviorAnalysis.
  1: by apply wp_session, keeps_app_TerminateAbility.
  1: by apply wp_session, keeps_PrepareTerminate.
  1: by apply wp_session, keeps_HandleAbilityAttachTimeOut.
  1: by apply run_then, wp_session, keeps_KillApplication.
  1: { apply run_then, wp_session; [done|]. unfold KillApplicationByUid. case_match; [apply (keeps_ret evolves)|by apply keeps_kill_bundle]. }
  1: { apply run_then, wp_session; [done|]. unfold KillApplicationByUserId, KillApplicationByUserIdLocked.
       case_match; [apply (keeps_ret evolves)|by apply keeps_kill_bundle]. }
  1: by apply wp_session, keeps_KillProcessesByUserId.
  1: by apply wp_session, keeps_KillProcessByAbilityToken.
  1: by apply wp_session, keeps_ClearRecentAppList.
  1: by apply wp_session, keeps_RemoveAppFromRecentList.
  1: by apply wp_session, keeps_OnRemoteDied.
  1: { apply wp_session; [done|]. apply (keeps_bind evolves); [apply keeps_am_events|]. intros [] s1 _ E1. apply keeps_HandleTimeOut. eauto with apps. }
  1: { unfold LoadResidentProcess. case_match; [by apply wp_ret|]. by apply wp_StartResidentProcess. }
  1: { apply bool_decide_eq_true in Hc. apply (wp_session_bind _ _ _ _ Hs); [apply keeps_restarts|]. intros [] s1 H1 E1.
       apply wp_RestartResidentProcess; [done|]. eapply known_app_evolves; [done|]. by apply (tb_restarts _ (ao_tables _ Hok)). }
  1: { apply wp_StartSpecifiedAbility; [done|]. intros ar Har. rewrite Har in He. by apply attached_now_spec. }
  1: by apply wp_session, keeps_ScheduleAcceptWantDone.
  1: by apply run_then, wp_render.
  1: by apply wp_session, keeps_AttachRenderProcess.
  1: { apply wp_session; [done|]. unfold RegisterAppStateCallback. destruct ownCall, callback; try apply (keeps_ret evolves). apply keeps_callbacks. }
  1: { apply wp_session; [done|]. unfold RegisterStartSpecifiedAbilityResponse. case_match; [apply keeps_response|apply (keeps_ret evolves)]. }
Qed.
(** ** The reports that follow a null pointer: a SPECIFIED ability started in a process
    that has not attached, a process that has not attached and reports that a stage is
    added, and a process in the foreground one of whose waiting abilities is gone. *)

Lemma throws_bind {A B} (c : ST Apps A) (k : A → ST Apps B) s :
  c s = Thrown ∨ (∃ x s', c s = Returned (x, s') ∧ k x s' = Thrown) → (c ≫= k) s = Thrown.
Proof. unfold mbind, ST_bind. intros [-> |(x & s' & -> & H)]; done. Qed.

(** After code that returns. *)
Lemma throws_after {A B} (c : ST Apps A) (k : A → ST Apps B) s Q :
  wp c Q s → (∀ x s', Q x s' → k x s' = Thrown) → (c ≫= k) s = Thrown.
Proof. intros (x & s' & E & HQ)%wp_run H. apply throws_bind. right. exists x, s'. auto. Qed.

(** The process has no way to it yet. *)
Definition unattached s ar : Prop := ∃ a, am_apps s !! ar = Some a ∧ a_deal a = None.

Lemma unattached_same s s' ar : same_deal ar s s' → unattached s ar → unattached s' ar.
Proof. intros H (a & Ha & E). destruct (H _ Ha) as (a' & Ha' & E'). exists a'. split; [done|congruence]. Qed.

(** Code that keeps to the frame, and leaves the way to the process as it is. *)
Lemma wp_unattached {A} (c : ST Apps A) s ar : keeps evolves c s → leaves (same_deal ar) c s → unattached s ar →
  wp c (λ _ s', evolves s s' ∧ unattached s' ar) s.
Proof.
  intros (x & s' & E & H)%wp_run Hl Hu. unfold wp. rewrite E. split; [done|]. eapply unattached_same; [by eapply Hl|done].
Qed.

Section unattached.
Context (s : Apps) (ar : AppRef) (Hok : apps_ok s) (Hu : unattached s ar).

Lemma known_unattached : known_app s ar.
Proof using Hu. destruct Hu as (a & Ha & _). by exists a. Qed.

Lemma throws_deal_schedule a msg : am_apps s !! ar = Some a → deal_schedule a msg s = Thrown.
Proof using Hu. intros Ha. destruct Hu as (a' & Ha' & E). simplify_eq. unfold deal_schedule. apply throws_bind. left. by rewrite E. Qed.

Lemma throws_AppScheduleAcceptWant moduleName : AppScheduleAcceptWant ar moduleName s = Thrown.
Proof using All.
  pose proof known_unattached as Har. unfold AppScheduleAcceptWant.
  eapply throws_after; [apply (wp_unattached _ _ ar); [by apply keeps_app_SendEvent|leave_steps|done]|]. intros [] s1 [E1 (a & Ha & Ed)].
  rewrite (bind_run _ _ _ _ _ (run_app _ _ _ Ha)). unfold deal_schedule. apply throws_bind. left. by rewrite Ed.
Qed.
End unattached.

(** A module of the bundle that has not been announced. *)
Definition unannounced s ar (bundleName : string) : Prop :=
  ∃ a l mr m, am_apps s !! ar = Some a ∧ map_find bundleName (a_hapModules a) = Some l ∧ mr ∈ l ∧
    am_modules s !! mr = Some m ∧ m_state m = INITIALIZED_STATE.

Lemma find_m_some {A} (f : A → ST Apps bool) l s Q :
  (∀ x, x ∈ l → ∃ y : bool, f x s = Returned (y, s)) → (∃ x, x ∈ l ∧ f x s = Returned (true, s)) →
  (∀ x, x ∈ l → Q (Some x) s) → wp (find_m f l) Q s.
Proof.
  induction l as [|x l IH]; intros Hf (y & Hy & Ey) HQ; [by apply not_elem_of_nil in Hy|]. cbn [find_m].
  destruct (Hf x) as [b Eb]; [by left|]. apply wp_bind. unfold wp at 1. rewrite Eb. destruct b; [apply wp_ret, HQ; by left|].
  apply IH; [intros z Hz; apply Hf; by right| |intros z Hz; apply HQ; by right].
  exists y. split; [|done]. apply elem_of_cons in Hy as [->|]; [congruence|done].
Qed.

Lemma throws_AddAbilityStageBySpecifiedAbility s ar bundleName : apps_ok s → unattached s ar → handled s ar →
  unannounced s ar bundleName → AddAbilityStageBySpecifiedAbility ar bundleName s = Thrown.
Proof.
  intros Hok Hu Hh (a & l & mr & m & Ha & El & Hin & Hm & Est). unfold AddAbilityStageBySpecifiedAbility.
  assert (∀ mr, mr ∈ l → known_module s mr) as Hl.
  { intros mr0 Hmr. eapply all_modules_known; [done..|]. apply elem_all_modules. exists bundleName, l. split; [by apply map_find_elem|done]. }
  apply (throws_after _ _ _ (λ x s1, is_Some x ∧ evolves s s1 ∧ unattached s1 ar)).
  { unfold GetTheModuleInfoNeedToUpdated. apply wp_bind. unfold wp at 1. rewrite (run_app _ _ _ Ha). cbn iota. rewrite El.
    apply wp_bind, find_m_some.
    - intros mr0 Hmr. destruct (Hl _ Hmr) as [m0 Hm0]. eexists. by rewrite (bind_run _ _ _ _ _ (run_module _ _ _ Hm0)).
    - exists mr. split; [done|]. by rewrite (bind_run _ _ _ _ _ (run_module _ _ _ Hm)), bool_decide_true.
    - intros mr0 Hmr. destruct (Hl _ Hmr) as [m0 Hm0]. apply wp_bind. unfold wp at 1. rewrite (run_module _ _ _ Hm0).
      apply wp_bind. eapply wp_mono; [apply (wp_unattached _ _ ar); [apply keeps_upd_module_plain; intros ?; cbn; tauto| |done]|].
      + unfold upd_module. leave_steps.
      + intros [] s1 [E1 U1]. apply wp_ret. split_and!; eauto. }
  intros x s1 ([h ->] & E1 & U1). destruct U1 as (a1 & Ha1 & Ed1). rewrite (bind_run _ _ _ _ _ (run_app _ _ _ Ha1)).
  assert (a_handler a1 = true) as -> by (eapply handled_handler; [|eassumption]; eauto with apps).
  rewrite (bind_run _ _ s1 tt s1 eq_refl). unfold HasInnerEvent. rewrite (bind_run _ _ s1 _ s1 eq_refl).
  assert (apps_ok s1) as Hok1 by eauto with apps. assert (known_app s1 ar) by by exists a1.
  eapply (throws_after _ _ _ (λ _ s2, evolves s1 s2)); [change (keeps evolves (if existsb (λ e, e.1 =? START_PROCESS_SPECIFIED_ABILITY_TIMEOUT_MSG) (am_events s1) then mret tt else SendEvent ar ADD_ABILITY_STAGE_INFO_TIMEOUT_MSG) s1); app_steps|].
  intros [] s2 _. unfold deal_schedule. apply throws_bind. left. by rewrite Ed1.
Qed.

(** ** A new module is one that has not been announced *)

Lemma map_find_grow k mr (mods : list (string * list ModRef)) l :
  map_find k mods = Some l → map_find k (grow_list k mr <$> mods) = Some (l ++ [mr]).
Proof.
  unfold map_find. induction mods as [|[k0 l0] mods IH]; [done|]. rewrite fmap_cons. unfold grow_list at 1. cbn [List.find fst snd].
  destruct (decide (k0 = k)) as [->|Hne].
  - rewrite !bool_decide_true by done. cbn. congruence.
  - rewrite !bool_decide_false by done. exact IH.
Qed.
Lemma map_find_emplace_new {K V} `{!EqDecision K, !StdLess K} (k : K) (v : V) l :
  NoDup (keys l) → map_find k l = None → map_find k (map_emplace k v l) = Some v.
Proof.
  intros Hn E. apply NoDup_find; [by apply NoDup_emplace|]. apply elem_of_emplace; [done|by left].
Qed.

Lemma wp_AddModule_unannounced s ar a app h : apps_ok s → am_apps s !! ar = Some a →
  GetModuleRecordByModuleName a (api_bundleName app) (hap_moduleName h) s = Returned (None, s) →
  wp (AddModule ar app None h None) (λ _ s', unannounced s' ar (api_bundleName app)) s.
Proof.
  intros Hok Ha E. unfold AddModule. apply wp_bind. unfold wp at 1. rewrite (run_app _ _ _ Ha). cbn iota.
  assert (∀ f, (∀ mr, ∃ l, map_find (api_bundleName app) (a_hapModules (f mr a)) = Some l ∧ mr ∈ l) →
    wp (mr ← app_ref; _ ← modify (λ s, s <| am_modules ::= insert mr (new_module a app h) |>); _ ← upd_app ar (f mr); mret mr)
      (λ _ s', unannounced s' ar (api_bundleName app)) s) as Hnew.
  { intros f Hf. apply wp_new_module; [done..|]. intros s1 _ E1 Hm _. apply wp_bind, wp_modify, wp_ret.
    destruct (Hf (am_next s)) as (l & Hl & Hin). exists (f (am_next s) a), l, (am_next s), (new_module a app h).
    split_and!; [|exact Hl|exact Hin|exact Hm|reflexivity]. apps_cbn. by rewrite E1, lookup_alter, decide_True, Ha by done. }
  apply wp_bind. destruct (map_find (api_bundleName app) (a_hapModules a)) as [l|] eqn:El.
  - apply wp_bind. unfold wp at 1. rewrite E. cbn iota.
    eapply wp_mono; [apply (Hnew (λ mr a, a <| a_hapModules ::= fmap (grow_list (api_bundleName app) mr) |>))|intros; by apply wp_ret].
    intros mr. exists (l ++ [mr]). split; [by apply map_find_grow|]. apply elem_of_app. right. by apply list_elem_of_singleton.
  - eapply wp_mono; [apply (Hnew (λ mr a, a <| a_hapModules ::= map_emplace (api_bundleName app) [mr] |> <| a_appInfos ::= map_emplace (api_bundleName app) app |>))|intros; by apply wp_ret].
    intros mr. exists [mr]. split; [|by apply list_elem_of_singleton]. arec_cbn. apply map_find_emplace_new; [|done].
    apply (ao_apps _ Hok _ _ Ha).
Qed.

(** ** The three crashes *)

Lemma throws_StartSpecifiedAbility s w i ar : session s →
  specified_app s i = Some ar → unattached s ar →
  StartSpecifiedAbility uninitialized_uid APPSPAWN_COLD_BOOT GetBundleInfo GetHapModuleInfo GetBundleInfos
    GetBundleGidsByUid spawn w i s = Thrown.
Proof.
  intros Hs Hex Hu. assert (apps_ok s) as Hok by eauto with apps. unfold specified_app in Hex. unfold StartSpecifiedAbility.
  destruct (GetBundleAndHapInfo _ _ i _) as [[bi h]|]; [|done].
  rewrite (bind_run _ _ _ _ _ (run_existing _ _ _ _ _ Hok)), Hex. unfold SetSpecifiedAbilityFlagAndWant.
  eapply throws_after; [apply (wp_unattached _ _ ar); [apply keeps_upd_plain; intros ?; cbn; tauto|unfold upd_app; leave_steps|done]|].
  intros [] s1 [E1 U1]. assert (apps_ok s1) as Hok1 by eauto with apps. assert (session s1) as Hs1 by eauto with apps.
  pose proof U1 as (a & Ha & Ed). rewrite (bind_run _ _ _ _ _ (run_app _ _ _ Ha)).
  pose proof (answers_module_by_name _ ar Hok1 a (api_bundleName (abi_applicationInfo i)) (hap_moduleName h) Ha) as Hy.
  apply wp_run in Hy as (y & s1' & Ey & -> & _). rewrite (bind_run _ _ _ _ _ Ey).
  destruct y as [mr|]; [by apply throws_AppScheduleAcceptWant|].
  assert (known_app s1 ar) by by exists a.
  apply (throws_after _ _ _ (λ _ s2, evolves s1 s2 ∧ unattached s2 ar ∧ unannounced s2 ar (api_bundleName (abi_applicationInfo i)))).
  { apply wp_and; [by apply keeps_AddModules|]. apply wp_and.
    - eapply wp_mono; [apply (wp_unattached _ _ ar); [by apply keeps_AddModules|leave_steps|done]|]. by intros x s2 [_ ?].
    - unfold AddModules. cbn [for_each]. apply wp_bind. eapply wp_mono; [by apply (wp_AddModule_unannounced _ _ a)|].
      intros x s2 H2. by apply wp_ret. }
  intros [] s2 (E2 & U2 & A2). apply throws_AddAbilityStageBySpecifiedAbility; eauto with apps.
Qed.
Lemma throws_pop_foregrounding s ar l : apps_ok s → known_app s ar → (∃ token, token ∈ l ∧ ¬ holds s ar token) →
  pop_foregrounding ar l s = Thrown.
Proof.
  revert s. induction l as [|token l IH]; intros s Hok [a Ha] (token0 & Hin & Hno); [by apply not_elem_of_nil in Hin|].
  cbn [pop_foregrounding]. rewrite (bind_run _ _ _ _ _ (run_ability_by_token _ _ _ Hok Ha token)).
  rewrite (bind_run _ _ _ _ _ (run_module_by_token _ _ _ Hok Ha token)).
  destruct (module_holding s (has_token token) a) as [mr|] eqn:Emr; [|apply throws_bind; by left].
  assert (holds s ar token) as Hh by (exists a; eauto). destruct (ability_of_found s a token) as [br Ebr]; [by rewrite Emr|].
  rewrite (bind_run _ _ s mr s eq_refl), Ebr, (bind_run _ _ s br s eq_refl).
  destruct (ability_of_spec _ _ Hok _ _ Ebr) as (mr' & m & b & Emr' & _ & Hm & _ & Hb & _). simplify_eq.
  eapply (throws_after _ _ _ (λ _ s1, settles s s1)); [apply settles_ModuleOnAbilityStateChanged; eexists; done|]. intros [] s1 S1.
  eapply (throws_after _ _ _ (λ _ s2, settles s1 s2)).
  { destruct S1. apply settles_StateChangedNotifyObserver; [by eapply known_app_evolves; [|exists a]|by eapply known_run_evolves; [|exists b]]. }
  intros [] s2 S2. eapply (throws_after _ _ _ (λ _ s3, settles s2 s3)); [apply settles_upd_app; intros a0; cbn; tauto|].
  intros [] s3 S3. assert (settles s s3) as Hs by (transitivity s1; [done|by transitivity s2]).
  apply IH; [destruct Hs; eauto with apps|eapply known_app_evolves; [apply Hs|by exists a]|]. exists token0.
  apply elem_of_cons in Hin as [->|Hin]; [done|]. split; [done|]. intros (a3 & Ha3 & H3). apply Hno.
  destruct Hs as (_ & Em & Ea). destruct (Ea _ _ Ha) as (a3' & Ha3' & Eq). simplify_eq. exists a. split; [done|].
  unfold module_holding, GetAllModuleRecord, at_module in *. by rewrite <- Eq, <- Em.
Qed.

Lemma throws_ApplicationForegrounded s recordId ar : session s → map_find recordId (appRunningRecordMap_ s) = Some ar →
  tokens_there s ar = false → ApplicationForegrounded recordId s = Thrown.
Proof.
  intros [Hok _] E Ht. unfold ApplicationForegrounded, with_record, GetAppRunningRecordByAppRecordId.
  rewrite (bind_run _ _ s _ s eq_refl), E. apply throws_bind. left. unfold tokens_there in Ht.
  destruct (am_apps s !! ar) as [a|] eqn:Ha; [|done]. unfold PopForegroundingAbilityTokens.
  rewrite (bind_run _ _ _ _ _ (run_app _ _ _ Ha)). apply throws_pop_foregrounding; [done|by exists a|].
  assert (¬ Forall (λ token, holds s ar token) (a_foregrounding a)) as Hno.
  { intros HF. rewrite Forall_forall in HF. apply not_true_iff_false in Ht. apply Ht, forallb_forall. intros token Hin.
    apply list_elem_of_In in Hin. destruct (HF _ Hin) as (a' & Ha' & H'). simplify_eq. by apply bool_decide_eq_true. }
  assert (∀ token, Decision (holds s ar token)) as Hdec.
  { intros token. destruct (decide (is_Some (module_holding s (has_token token) a))) as [H|H]; [left; by exists a|].
    right. intros (a' & Ha' & H'). by simplify_eq. }
  apply (not_Forall_Exists _) in Hno. apply Exists_exists in Hno as (token & Hin & Hn). by exists token.
Qed.

Lemma throws_AddAbilityStage s ar a : apps_ok s → am_apps s !! ar = Some a → a_deal a = None → a_isNewMission a = true →
  stage_waits s a = true → AddAbilityStage ar s = Thrown.
Proof.
  intros Hok Ha Hd Hnew Hw. unfold AddAbilityStage. rewrite (bind_run _ _ _ _ _ (run_app _ _ _ Ha)), Hnew. cbn [negb].
  assert (unattached s ar) as Hu by by exists a.
  apply (throws_after _ _ _ (λ x s1, is_Some x ∧ evolves s s1)).
  - unfold GetTheModuleInfoNeedToUpdated. apply wp_bind. unfold wp at 1. rewrite (run_app _ _ _ Ha). cbn iota.
    destruct (map_find _ _) as [l|] eqn:El; [|unfold stage_waits in Hw; by rewrite El in Hw].
    apply wp_bind. eapply wp_mono; [by apply (stage_search _ ar a)|]. cbv beta. intros x s' (-> & Hx & Hk).
    destruct (proj2 Hx Hw) as [mr ->]. destruct (Hk mr eq_refl) as [m Hm]. apply wp_bind. unfold wp at 1. rewrite (run_module _ _ _ Hm).
    apply wp_bind. eapply wp_mono; [apply keeps_upd_module_plain; intros ?; cbn; tauto|]. intros [] s1 E1. apply wp_ret. split; [by eexists|done].
  - intros x s1 [[h ->] E1]. assert (apps_ok s1) by eauto with apps. assert (known_app s1 ar) by (eapply known_app_evolves; [done|by exists a]).
    eapply throws_after; [by apply keeps_app_SendEvent|]. intros [] s2 _. unfold deal_schedule. apply throws_bind. left. by rewrite Hd.
Qed.

Lemma throws_AddAbilityStageDone s recordId ar : session s → map_find recordId (appRunningRecordMap_ s) = Some ar →
  stage_safe s ar = false → AddAbilityStageDone recordId s = Thrown.
Proof.
  intros Hs E Hsafe. assert (apps_ok s) as Hok by eauto with apps. unfold AddAbilityStageDone, with_record, GetAppRunningRecordByAppRecordId.
  rewrite (bind_run _ _ s _ s eq_refl), E. unfold stage_safe in Hsafe. destruct (am_apps s !! ar) as [a|] eqn:Ha; [|done].
  apply orb_false_iff in Hsafe as [Hd%bool_decide_eq_false Hsafe]. apply eq_None_not_Some in Hd.
  assert (a_handler a = true) as Hh by (by eapply Hs). destruct (after_stage_timeouts s ar a Ha Hh) as (s2 & E2 & Ea & Em & ->).
  assert (apps_ok s2) as Hok2 by eauto with apps. assert (am_apps s2 !! ar = Some a) as Ha2 by by rewrite Ea.
  destruct (a_isSpecified a); [apply throws_AppScheduleAcceptWant; [done|by exists a]|]. cbn [negb andb] in Hsafe.
  apply negb_false_iff, andb_true_iff in Hsafe as [Hnew Hw]. apply (throws_AddAbilityStage s2 ar a); try done. unfold stage_waits. by rewrite Em.
Qed.

(** An event that is not safe throws. *)
Lemma unsafe_throws s e : session s → app_event_safe s e = false → app_event e s = Thrown.
Proof.
  intros Hs. destruct e; cbn [app_event_safe app_event]; try done.
  - destruct (map_find _ _) as [ar|] eqn:E; [|done]. by apply (throws_AddAbilityStageDone s recordId ar).
  - destruct (map_find _ _) as [ar|] eqn:E; [|done]. by apply (throws_ApplicationForegrounded s recordId ar).
  - destruct (specified_app s i) as [ar|] eqn:E; [|done]. intros Hno. apply (throws_StartSpecifiedAbility s w i ar); [done|done|].
    unfold attached_now in Hno. assert (known_app s ar) as [a Ha].
    { unfold specified_app in E. destruct (GetBundleAndHapInfo _ _ i _) as [[bi h]|]; [|done].
      apply app_by_spec in E as (_ & a & Ha & _). by exists a. }
    rewrite Ha in Hno. apply bool_decide_eq_false in Hno. exists a. split; [done|]. by apply eq_None_not_Some.
Qed.

(** What an event that comes does. *)
Lemma session_event s e : session s → app_event_comes s e = true →
  if app_event_safe s e then ∃ s', app_event e s = Returned (tt, s') ∧ session s' else app_event e s = Thrown.
Proof.
  intros Hs Hc. destruct (app_event_safe s e) eqn:He; [|by apply unsafe_throws].
  destruct (wp_run _ _ _ (session_step s e Hs Hc He)) as ([] & s' & E & H'). by exists s'.
Qed.

(** ** What can be reached *)

#[local] Abbreviation app_step := (event_step app_event (λ s e, app_event_comes s e = true)).
Definition app_reachable (s : Apps) : Prop := rtc app_step new_apps s.

Lemma session_new : session new_apps.
Proof.
  assert (∀ A (p : positive) (x : A), (∅ : gmap positive A) !! p ≠ Some x) as Hno by (intros A p x; by rewrite lookup_empty).
  split; [|intros ar a Ha; by apply Hno in Ha].
  constructor; try (intros p x Hx; by apply Hno in Hx); try (intros p [x Hx]; by apply Hno in Hx).
  constructor.
  - intros id ar Hin. by apply not_elem_of_nil in Hin.
  - constructor.
  - intros _ ar a Ha. by apply Hno in Ha.
  - intros _. constructor.
  - intros _ t Ht. by apply not_elem_of_nil in Ht.
  - done.
  - intros ar Hin. by apply not_elem_of_nil in Hin.
Qed.

Lemma app_reachable_session s : app_reachable s → session s.
Proof.
  assert (∀ s1 s2, rtc app_step s1 s2 → session s1 → session s2) as H.
  { intros s1 s2 H. induction H as [|s1 s2 s3 H1 _ IH]; [done|]. intros Hs. apply IH. destruct H1 as [e s1 s2 He Hr].
    pose proof (session_event s1 e Hs He) as H. destruct (app_event_safe s1 e); [|congruence]. destruct H as (s' & E & H').
    rewrite Hr in E. by injection E as <-. }
  intros Hr. exact (H _ _ Hr session_new).
Qed.
End session.

(** * A small device, for the instances of the theorems about the application manager:
    one application with two abilities, whose processes can always be spawned, and
    the same when the bundle manager has no answer. *)

Definition demo_app : ApplicationInfo := mkApplication "com.a" "com.a" 20010001 "" false 7.
Definition demo_ability (name : string) (mode : LaunchMode) : AbilityInfo :=
  mkAbility name "entry" "" "com.a" PAGE mode false demo_app.
Definition demo_hap : HapModuleInfo := mkHap "entry" "" true.
Definition demo_bundle : BundleInfo := mkBundle "com.a" 20010001 "com.a_XYZ" "" demo_app [demo_hap].

Definition demo_GetBundleInfo (name : string) (userId : Z) : option BundleInfo := Some demo_bundle.
Definition demo_GetHapModuleInfo (i : AbilityInfo) (userId : Z) : option HapModuleInfo := Some demo_hap.
Definition demo_GetBundleInfos (userId : Z) : option (list BundleInfo) := Some [demo_bundle].
Definition no_GetBundleInfos (userId : Z) : option (list BundleInfo) := None.
Definition demo_gids (name : string) (uid : Z) : bool := true.
Definition demo_uid (name : string) (userId : Z) : Z := 20010001.
Definition demo_spawn (recordId : Z) : option Z := Some (100 + recordId).
Definition demo_nweb (rr : RenderRef) : option Z := Some 900.
Definition demo_survivors (pids : list Z) : list Z := [].
Definition demo_kill (pid : Z) : Z := 0.
Definition demo_account (uid : Z) : option Z := Some 100.

Definition demo_event (infos : Z → option (list BundleInfo)) : AppEvent → ST Apps unit :=
  app_event (-1) 0 demo_GetBundleInfo demo_GetHapModuleInfo infos demo_gids demo_uid demo_spawn demo_nweb demo_survivors
    demo_kill demo_account.
Definition demo_ok : Apps → AppEvent → Prop :=
  λ s e, app_event_comes s e = true.
#[export] Instance demo_ok_dec s e : Decision (demo_ok s e).
Proof. unfold demo_ok. apply _. Defined.
Definition demo_reachable (infos : Z → option (list BundleInfo)) : Apps → Prop :=
  app_reachable (-1) 0 demo_GetBundleInfo demo_GetHapModuleInfo infos demo_gids demo_uid demo_spawn demo_nweb demo_survivors
    demo_kill demo_account.

Definition after (infos : Z → option (list BundleInfo)) (es : list AppEvent) : Apps :=
  after_events (demo_event infos) demo_ok es new_apps.

Lemma after_reachable infos es :
  bool_decide (is_Some (run_events (demo_event infos) demo_ok es new_apps)) = true → demo_reachable infos (after infos es).
Proof. apply after_events_steps. Qed.

(** The abilities are loaded under the tokens 11 and 12; the client of the first
    process is 50. *)
Definition load_ability (token : Token) (name : string) (mode : LaunchMode) : AppEvent :=
  ELoadAbility (Some token) None (Some (demo_ability name mode)) (Some demo_app) None.
Definition registered : list AppEvent := [ERegisterAppStateCallback true (Some 1%positive)].
Definition loaded : list AppEvent := registered ++ [load_ability 11 "Main" STANDARD].
Definition attached_events : list AppEvent := loaded ++ [EAttachApplication 101 (Some 50%positive)].
Definition foregrounding : list AppEvent := attached_events ++ [EUpdateAbilityState (Some 11%positive) ABILITY_STATE_FOREGROUND].
