(* ===== verification/AppLoad.v ===== *)
(** The first ability of a process: what loading it files and starts, what happens
    when the process attaches, and what is left when it could not be started. *)

From S2P Require Import Prelude CppString Want AbilityRecord StdMap AppRecords AppManager AppService.
From S2P Require Import AppShape AppReads AppFrames AppModules AppStates AppRun AppStarts AppSession AppSpares.

#[local] Open Scope stdpp_scope.
#[local] Open Scope Z_scope.

Implicit Types (s : Apps) (ar : AppRef) (mr : ModRef) (br : AbRef) (token : Token).
Implicit Types (a : AppRunningRecord) (m : ModuleRunningRecord) (b : AbilityRunningRecord).

Lemma wp_the_app s ar a Q : am_apps s !! ar = Some a → Q a s → wp (the_app ar) Q s.
Proof. intros Ha HQ. unfold wp. by rewrite (run_app _ _ _ Ha). Qed.
Lemma wp_the_module s mr m Q : am_modules s !! mr = Some m → Q m s → wp (the_module mr) Q s.
Proof. intros Hm HQ. unfold wp. by rewrite (run_module _ _ _ Hm). Qed.
Lemma wp_the_ability s br b Q : am_abilities s !! br = Some b → Q b s → wp (the_ability br) Q s.
Proof. intros Hb HQ. unfold wp. by rewrite (run_run _ _ _ Hb). Qed.

Lemma map_find_one {K V} `{!EqDecision K} (k : K) (v : V) : map_find k [(k, v)] = Some v.
Proof. unfold map_find. cbn. by rewrite bool_decide_true. Qed.

(** * The record of a new process *)

(** One process with one module that has one ability, and where they are. *)
Record single s ar mr br a m b : Prop := {
  sg_app : am_apps s !! ar = Some a;
  sg_module : am_modules s !! mr = Some m;
  sg_ability : am_abilities s !! br = Some b;
  sg_modules : a_hapModules a = [(api_bundleName (a_info a), [mr])];
  sg_infos : a_appInfos a = [(api_bundleName (a_info a), a_info a)];
  sg_abilities : m_abilities m = [(b_token b, br)];
}.

Lemma single_module s ar mr br a m b : single s ar mr br a m b → GetAllModuleRecord a = [mr].
Proof. intros [_ _ _ Em _ _]. unfold GetAllModuleRecord. by rewrite Em. Qed.

Lemma single_token s ar mr br a m b : single s ar mr br a m b → ability_of s (b_token b) a = Some br.
Proof.
  intros H. pose proof (single_module _ _ _ _ _ _ _ H) as Em. destruct H as [_ Hm _ _ _ Ea].
  assert (has_token (b_token b) m = true) as Hh.
  { apply bool_decide_eq_true. unfold ModuleGetAbilityRunningRecordByToken. rewrite Ea, map_find_one. by eexists. }
  unfold ability_of, module_holding, ability_in. rewrite Em. cbn [List.find]. unfold at_module. rewrite Hm, Hh. cbn. rewrite Hm. cbn.
  unfold ModuleGetAbilityRunningRecordByToken. by rewrite Ea, map_find_one.
Qed.

(** ** Filing it *)

(** What is not the heap stays, and so do the records of other processes. *)
Definition only ar s s' : Prop :=
  appRunningRecordMap_ s' = appRunningRecordMap_ s ∧ am_trace s' = am_trace s ∧ appStateCallbacks_ s' = appStateCallbacks_ s ∧
  recentAppList_ s' = recentAppList_ s ∧ am_created s' = am_created s ∧
  ∀ ar', ar' ≠ ar → am_apps s' !! ar' = am_apps s !! ar'.
#[export] Instance only_preorder ar : PreOrder (only ar).
Proof.
  split; [intros s; unfold only; by split_and!|]. intros s1 s2 s3 (A1 & A2 & A3 & A4 & A5 & A6) (B1 & B2 & B3 & B4 & B5 & B6).
  split_and!; [congruence..|]. intros ar' Hne. by rewrite B6, A6.
Qed.
#[export] Instance only_allows ar : Allows (only ar) ar.
Proof. split; intros; unfold only; split_and!; try done. intros ar' Hne. apps_cbn. by rewrite lookup_alter_ne. Qed.

Lemma wp_first_module s ar a app h : apps_ok s → am_apps s !! ar = Some a → a_hapModules a = [] → a_appInfos a = [] →
  wp (module_for a ar app h) (λ mr s', evolves s s' ∧
    am_apps s' !! ar = Some (a <| a_hapModules := [(api_bundleName app, [mr])] |> <| a_appInfos := [(api_bundleName app, app)] |>) ∧
    am_modules s' !! mr = Some (new_module a app h)) s.
Proof.
  intros Hok Ha Em Ei. apply (wp_mono _ (λ mr s', (evolves s s' ∧ known_module s' mr) ∧
    am_apps s' !! ar = Some (a <| a_hapModules := [(api_bundleName app, [mr])] |> <| a_appInfos := [(api_bundleName app, app)] |>) ∧
    am_modules s' !! mr = Some (new_module a app h))); [|by intros mr s' [[? _] ?]].
  apply wp_and; [by apply wp_module_for|]. unfold module_for. rewrite Em. cbn [map_find List.find fmap option_fmap option_map].
  apply wp_new_module; [done..|]. intros s1 _ E1 Hm _. apply wp_bind, wp_modify, wp_ret. split; [|exact Hm].
  apps_cbn. rewrite E1, lookup_alter, decide_True, Ha by done. cbn [fmap option_fmap option_map]. f_equal. arec_cbn. by rewrite Em, Ei.
Qed.

Lemma wp_first_ability s mr m token i want : apps_ok s → am_modules s !! mr = Some m → m_abilities m = [] →
  wp (AddAbility mr token i want) (λ _ s', am_apps s' = am_apps s ∧ ∃ br,
    am_modules s' !! mr = Some (m <| m_abilities := [(token, br)] |>) ∧
    am_abilities s' !! br = Some (new_ability token i (m_app m) want)) s.
Proof.
  intros Hok Hm Em. unfold AddAbility. apply wp_bind. eapply wp_the_module; [done|].
  unfold ModuleGetAbilityRunningRecordByToken. rewrite Em. cbn [map_find List.find fmap option_fmap option_map].
  apply wp_bind. unfold app_ref. apply wp_bind, wp_gets, wp_bind, wp_modify, wp_ret, wp_bind, wp_modify, wp_modify. split; [done|].
  exists (am_next s). apps_cbn. rewrite lookup_insert_eq, lookup_alter, decide_True, Hm by done. split; [|done].
  cbn [fmap option_fmap option_map]. mod_cbn. by rewrite Em.
Qed.

Lemma wp_first_AddModule s ar a app i token h want : apps_ok s → am_apps s !! ar = Some a →
  a_hapModules a = [] → a_appInfos a = [] →
  wp (AddModule ar app (Some (i, token)) h want) (λ _ s', ∃ mr br,
    am_apps s' !! ar = Some (a <| a_hapModules := [(api_bundleName app, [mr])] |> <| a_appInfos := [(api_bundleName app, app)] |>) ∧
    am_modules s' !! mr = Some ((new_module a app h) <| m_abilities := [(token, br)] |>) ∧
    am_abilities s' !! br = Some (new_ability token i app want)) s.
Proof.
  intros Hok Ha Em Ei. unfold AddModule. apply wp_bind. eapply wp_the_app; [done|]. apply wp_bind.
  eapply wp_mono; [by apply wp_first_module|]. cbv beta. intros mr s1 (E1 & Ha1 & Hm1).
  eapply wp_mono; [apply (wp_first_ability _ _ (new_module a app h) token i want); [by eauto with apps|done|done]|]. cbv beta.
  intros [] s2 (Eq & br & Hm2 & Hb2). exists mr, br. rewrite Eq. auto.
Qed.

(** The changes between the record of the process and its start. *)
Lemma single_upd_app s ar mr br a m b f : single s ar mr br a m b →
  a_hapModules (f a) = a_hapModules a → a_appInfos (f a) = a_appInfos a → a_info (f a) = a_info a →
  single (s <| am_apps ::= alter f ar |>) ar mr br (f a) m b.
Proof.
  intros [Ha Hm Hb Em Ei Eb] E1 E2 E3. constructor; rewrite ?E1, ?E2, ?E3; try done. apps_cbn. by rewrite lookup_alter, decide_True, Ha by done.
Qed.

Lemma single_upd_run s ar mr br a m b f : single s ar mr br a m b → b_token (f b) = b_token b →
  single (s <| am_abilities ::= alter f br |>) ar mr br a m (f b).
Proof.
  intros [Ha Hm Hb Em Ei Eb] E. constructor; rewrite ?E; try done. apps_cbn. by rewrite lookup_alter, decide_True, Hb by done.
Qed.

Section load.
Context (uninitialized_uid : Z).

(** What [CreateAppRunningRecord] files. *)
Record filed s ar mr br a m b token app i processName (bi : BundleInfo) id : Prop := {
  fl_single : single s ar mr br a m b;
  fl_info : a_info a = app;
  fl_id : a_recordId a = id;
  fl_process : a_processName a = processName;
  fl_sign : a_signCode a = ClipStringContent (bi_appId bi);
  fl_joint : a_jointUserId a = bi_jointUserId bi;
  fl_state : a_state a = APP_STATE_CREATE;
  fl_pid : a_pid a = 0;
  fl_deal : a_deal a = None;
  fl_keep : a_isKeepAlive a = false;
  fl_specified : a_isSpecified a = false;
  fl_alive : a_isTerminating a = false ∧ a_isKilling a = false;
  fl_module : m_deal m = false;
  fl_token : b_token b = token;
  fl_ability : b_info b = i;
  fl_ability_state : b_state b = ABILITY_STATE_CREATE;
}.

Lemma wp_first_app_record s token preToken app i processName bi h want : session s → processName ≠ "" →
  wp (CreateAppRunningRecord uninitialized_uid token preToken app i processName bi h want) (λ x s',
    ∃ ar mr br a m b, x = Some ar ∧ filed s' ar mr br a m b token app i processName bi (wrap_i32 (Z.succ (am_created s))) ∧
      (∀ ar', ar' ≠ ar → am_apps s' !! ar' = am_apps s !! ar') ∧ am_apps s !! ar = None ∧
      appRunningRecordMap_ s' = map_emplace (wrap_i32 (Z.succ (am_created s))) ar (appRunningRecordMap_ s) ∧
      am_trace s' = am_trace s ∧ appStateCallbacks_ s' = appStateCallbacks_ s ∧ recentAppList_ s' = recentAppList_ s) s.
Proof.
  intros Hs Hne. unfold CreateAppRunningRecord. apply wp_bind.
  eapply wp_mono; [apply wp_and; [by apply wp_create|by apply wp_create_files]|]. cbv beta.
  intros x s1 (Hx & Hsome & Em & Et & Ec & Er). destruct x as [ar|]; [|done]. destruct Hx as (Hs1 & Hn1 & Ea & Hnew).
  specialize (Em _ eq_refl).
  set (id := wrap_i32 _) in *. set (a0 := new_app _ _ _ _ _ _) in *. set (f := λ a, a <| a_handler := true |>).
  apply wp_bind. eapply wp_mono; [apply wp_and; [apply (keeps_upd_plain ar f); intros ?; cbn; tauto|]; apply (wp_leaves (only ar));
    [unfold upd_app; leave_steps|apply (wp_modify _ (λ _ s2, am_apps s2 !! ar = Some (f a0)))]|].
  { apps_cbn. by rewrite Ea, alter_insert_eq, lookup_insert_eq. }
  intros [] s2 (E2 & O2 & Ha2). assert (apps_ok s2) as Hok2 by (destruct Hs1; eauto with apps).
  apply wp_bind. eapply wp_mono; [apply wp_and; [apply keeps_AddModule; [done|by eexists]|]; apply (wp_leaves (only ar));
    [leave_steps|by apply (wp_first_AddModule _ ar (f a0))]|].
  cbv beta. intros [] s3 (E3 & O3 & mr & br & Ha3 & Hm3 & Hb3). assert (apps_ok s3) as Hok3 by eauto with apps.
  set (a1 := _ <| a_appInfos := _ |>) in Ha3. set (m := _ <| m_abilities := _ |>) in Hm3.
  assert (single s3 ar mr br a1 m (new_ability token i app want)) as S3 by by constructor.
  apply wp_bind. apply (wp_mono _ (λ _ s4, evolves s3 s4 ∧ only ar s3 s4 ∧ ∃ a, single s4 ar mr br a m (new_ability token i app want) ∧
    ∃ d, a = a1 <| a_isDebug := d |>)).
  { apply wp_and; [destruct want; [apply keeps_upd_plain; intros ?; cbn; tauto|apply (keeps_ret evolves)]|].
    apply (wp_leaves (only ar)); [unfold upd_app; leave_steps|]. destruct want as [w|]; [|apply wp_ret; exists a1; split; [done|]; by exists (a_isDebug a1)].
    apply wp_modify. exists (a1 <| a_isDebug := want_debug w |>). split; [|by eexists]. by apply (single_upd_app _ _ _ _ a1). }
  intros [] s4 (E4 & O4 & a2 & S4 & d & Ea2). assert (apps_ok s4) as Hok4 by eauto with apps.
  apply wp_bind. apply (wp_mono _ (λ _ s5, only ar s4 s5 ∧ ∃ b, single s5 ar mr br a2 m b ∧ b_token b = token ∧ b_info b = i ∧
    b_state b = ABILITY_STATE_CREATE)).
  { apply (wp_leaves (only ar)); [leave_steps|]. unfold SetPreToken. destruct preToken as [p|]; [|apply wp_ret; by eexists].
    apply wp_bind. unfold wp at 1. rewrite (run_ability_by_token _ _ _ Hok4 (sg_app _ _ _ _ _ _ _ S4)).
    rewrite (single_token _ _ _ _ _ _ _ S4 : ability_of _ token _ = _). cbn iota. apply wp_modify. eexists. split; [by apply single_upd_run|done]. }
  intros [] s5 (O5 & b & S5 & Eb & Ei & Es). apply wp_ret. exists ar, mr, br, a2, m, b.
  assert (only ar s1 s5) as (M1 & T1 & C1 & R1 & _ & A1) by (transitivity s2; [done|]; transitivity s3; [done|]; by transitivity s4).
  split_and!; try done; [by constructor; subst a2|..].
  - intros ar' Hne'. by rewrite A1, Ea, lookup_insert_ne by congruence.
  - by rewrite M1, Em.
  - congruence.
  - congruence.
  - congruence.
Qed.
End load.

(** * The start of the process, and its attachment *)

(** A single process in view: its objects, what has been sent so far, the callbacks,
    and everything that stays as it is. *)
Record view (cbs : list CallbackRef) (mp : list (Z * AppRef)) (base : gmap AppRef AppRunningRecord) ar mr br
    a m b (t : list AppEffect) s : Prop := {
  vw_single : single s ar mr br a m b;
  vw_trace : am_trace s = t;
  vw_callbacks : appStateCallbacks_ s = cbs;
  vw_map : appRunningRecordMap_ s = mp;
  vw_others ar' : ar' ≠ ar → am_apps s !! ar' = base !! ar';
}.

Section view.
Context (cbs : list CallbackRef) (mp : list (Z * AppRef)) (base : gmap AppRef AppRunningRecord) (ar : AppRef) (mr : ModRef) (br : AbRef).
#[local] Abbreviation seen := (view cbs mp base ar mr br).

Lemma single_heap s s' a m b : single s ar mr br a m b →
  am_apps s' = am_apps s → am_modules s' = am_modules s → am_abilities s' = am_abilities s → single s' ar mr br a m b.
Proof. intros [] E1 E2 E3. by constructor; rewrite ?E1, ?E2, ?E3. Qed.

Lemma view_emit a m b t e s Q : seen a m b t s → (∀ s', seen a m b (t ++ [e]) s' → Q tt s') → wp (app_emit e) Q s.
Proof.
  intros [Hs Ht Hc Hm Ho] HQ. apply wp_modify, HQ. constructor; [by apply (single_heap s)|apps_cbn; congruence|done..].
Qed.
Lemma view_emits {A} (f : A → AppEffect) l a m b t s Q :
  seen a m b t s → (∀ s', seen a m b (t ++ (f <$> l)) s' → Q tt s') → wp (for_each (λ x, app_emit (f x)) l) Q s.
Proof.
  revert t s. induction l as [|x l IH]; intros t s Hv HQ; [apply wp_ret, HQ; by rewrite fmap_nil, app_nil_r|].
  cbn [for_each]. apply wp_bind, (view_emit a m b t); [done|]. intros s1 H1. apply (IH _ _ H1). intros s2.
  rewrite <- app_assoc. apply HQ.
Qed.
Lemma view_upd_app f a m b t s Q : seen a m b t s →
  a_hapModules (f a) = a_hapModules a → a_appInfos (f a) = a_appInfos a → a_info (f a) = a_info a →
  (∀ s', seen (f a) m b t s' → Q tt s') → wp (upd_app ar f) Q s.
Proof.
  intros [Hs Ht Hc Hm Ho] E1 E2 E3 HQ. apply wp_modify, HQ. constructor; [by apply single_upd_app|done..|].
  intros ar' Hne. apps_cbn. rewrite lookup_alter_ne by done. by apply Ho.
Qed.
Lemma view_upd_module f a m b t s Q : seen a m b t s → m_abilities (f m) = m_abilities m →
  (∀ s', seen a (f m) b t s' → Q tt s') → wp (upd_module mr f) Q s.
Proof.
  intros [[Ha Hm Hb Em Ei Eb] Ht Hc Hmp Ho] E HQ. apply wp_modify, HQ. constructor; [|done..].
  constructor; rewrite ?E; try done. apps_cbn. by rewrite lookup_alter, decide_True, Hm by done.
Qed.
Lemma view_upd_run f a m b t s Q : seen a m b t s → b_token (f b) = b_token b →
  (∀ s', seen a m (f b) t s' → Q tt s') → wp (upd_run br f) Q s.
Proof. intros [Hs Ht Hc Hm Ho] E HQ. apply wp_modify, HQ. constructor; [by apply single_upd_run|done..]. Qed.

Lemma view_the_app a m b t s Q : seen a m b t s → Q a s → wp (the_app ar) Q s.
Proof. intros [[] _ _ _ _]. by apply wp_the_app. Qed.
Lemma view_the_module a m b t s Q : seen a m b t s → Q m s → wp (the_module mr) Q s.
Proof. intros [[] _ _ _ _]. by apply wp_the_module. Qed.
Lemma view_the_ability a m b t s Q : seen a m b t s → Q b s → wp (the_ability br) Q s.
Proof. intros [[] _ _ _ _]. by apply wp_the_ability. Qed.
Lemma view_modules a m b t s : seen a m b t s → GetAllModuleRecord a = [mr].
Proof. intros [Hs _ _ _ _]. by eapply single_module. Qed.

(** What the callbacks and the observers are told of a state of the process. *)
Definition told a (st : ApplicationState) : list AppEffect :=
  ((λ cb, OnAppStateChangedTo cb (WrapAppProcessData a st)) <$> cbs) ++ [ObserveApp (a_recordId a) st].

Lemma view_OnAppStateChanged a m b t s st Q : seen a m b t s → (∀ s', seen a m b (t ++ told a st) s' → Q tt s') →
  wp (OnAppStateChanged ar st) Q s.
Proof.
  intros Hv HQ. unfold OnAppStateChanged. apply wp_bind, (view_the_app a m b t); [done|]. apply wp_bind, wp_gets.
  rewrite (vw_callbacks _ _ _ _ _ _ _ _ _ _ _ Hv). apply wp_bind, (view_emits _ _ a m b t); [done|]. intros s1 H1.
  apply (view_emit a m b _ _ _ _ H1). intros s2. rewrite <- app_assoc. apply HQ.
Qed.

Lemma view_SetAppMgrServiceInner a m b t s Q : seen a m b t s →
  (∀ s', seen (a <| a_inner := true |>) (m <| m_inner := true |>) b t s' → Q tt s') → wp (SetAppMgrServiceInner ar) Q s.
Proof.
  intros Hv HQ. unfold SetAppMgrServiceInner. apply wp_bind, (view_upd_app _ a m b t); [done..|]. intros s1 H1.
  apply wp_bind, (view_the_app _ _ _ _ _ _ H1). rewrite (view_modules _ _ _ _ _ H1). cbn [for_each].
  apply wp_bind, (view_upd_module _ _ _ _ _ _ _ H1); [done|]. intros s2 H2. by apply wp_ret, HQ.
Qed.

Lemma view_SetApplicationClient a m b t s c Q : seen a m b t s →
  (∀ s', seen (a <| a_deal := Some c |>) (m <| m_deal := true |>) b t s' → Q tt s') → wp (SetApplicationClient ar c) Q s.
Proof.
  intros Hv HQ. unfold SetApplicationClient. apply wp_bind, (view_upd_app _ a m b t); [done..|]. intros s1 H1.
  apply wp_bind, (view_the_app _ _ _ _ _ _ H1). rewrite (view_modules _ _ _ _ _ H1). cbn [for_each].
  apply wp_bind, (view_upd_module _ _ _ _ _ _ _ H1); [done|]. intros s2 H2. by apply wp_ret, HQ.
Qed.

(** ** The spawn *)

Section spawn.
Context (GetBundleInfos : Z → option (list BundleInfo)) (GetBundleGidsByUid : string → Z → bool) (spawn : Z → option Z).

Definition started a pid (uid : Z) : AppRunningRecord := a <| a_pid := pid |> <| a_uid := uid |> <| a_inner := true |>.

Lemma view_StartProcess a m b t s appName processName flags uid bundleName bundles bi pid Q :
  seen a m b t s → GetBundleInfos (GetUserIdByUid uid) = Some bundles → List.find (is_bundle bundleName uid) bundles = Some bi →
  GetBundleGidsByUid bundleName uid = true → spawn (a_recordId a) = Some pid →
  (∀ s', seen (started a pid (bi_uid bi)) (m <| m_inner := true |>) b
     (t ++ [SpawnProcess processName bundleName (bi_uid bi) flags] ++ told (started a pid (bi_uid bi)) APP_STATE_CREATE ++
      [ObserveProcessCreated (a_recordId a)]) s' → Q tt s') →
  wp (StartProcess GetBundleInfos GetBundleGidsByUid spawn appName processName flags ar uid bundleName) Q s.
Proof.
  intros Hv E1 E2 E3 E4 HQ. unfold StartProcess. rewrite E1, E2, E3. cbn [negb].
  apply wp_bind, (view_the_app _ _ _ _ _ _ Hv). apply wp_bind, (view_emit _ _ _ _ _ _ _ Hv). intros s1 H1. rewrite E4.
  apply wp_bind, (view_upd_app _ _ _ _ _ _ _ H1); [done..|]. intros s2 H2.
  apply wp_bind, (view_SetAppMgrServiceInner _ _ _ _ _ _ H2). intros s3 H3.
  apply wp_bind, (view_OnAppStateChanged _ _ _ _ _ _ _ H3). intros s4 H4.
  apply wp_bind, wp_modify. assert (∀ l, seen (started a pid (bi_uid bi)) (m <| m_inner := true |>) b
    ((t ++ [SpawnProcess processName bundleName (bi_uid bi) flags]) ++ told (started a pid (bi_uid bi)) APP_STATE_CREATE)
    (s4 <| recentAppList_ ::= l |>)) as H5 by (intros l; destruct H4; constructor; [by apply (single_heap s4)|done..]).
  apply (view_emit _ _ _ _ _ _ _ (H5 _)). intros s6 H6. apply HQ. by rewrite !app_assoc.
Qed.
End spawn.

(** ** The attachment *)

Definition launched a (c : Client) : AppRunningRecord := a <| a_deal := Some (Some c) |> <| a_state := APP_STATE_READY |>.

Lemma view_ModuleLaunchAbility a m b t s c Q : seen a m b t s → m_deal m = true → a_deal a = Some (Some c) →
  (∀ s', seen a m (b <| b_state := ABILITY_STATE_READY |>) (t ++ [ToApp c (ScheduleLaunchAbility (b_info b) (b_token b))]) s' → Q tt s') →
  wp (ModuleLaunchAbility ar mr br) Q s.
Proof.
  intros Hv Em Ea HQ. unfold ModuleLaunchAbility. apply wp_bind, (view_the_module _ _ _ _ _ _ Hv).
  apply wp_bind, (view_the_ability _ _ _ _ _ _ Hv). destruct (vw_single _ _ _ _ _ _ _ _ _ _ _ Hv) as [_ _ _ _ _ Eab].
  rewrite Eab, map_find_one, bool_decide_true by done. cbn [negb]. rewrite Em. apply wp_bind, wp_ret.
  apply wp_bind, (view_the_app _ _ _ _ _ _ Hv). unfold GetApplicationClient. rewrite Ea. cbn [mjoin option_join].
  apply wp_bind, (view_emit _ _ _ _ _ _ _ Hv). intros s1 H1. by apply (view_upd_run _ _ _ _ _ _ _ H1).
Qed.

Lemma view_LaunchPendingAbilities a m b t s c Q : seen a m b t s → a_deal a = Some (Some c) → b_state b = ABILITY_STATE_CREATE →
  (∀ s', seen a (m <| m_deal := true |>) (b <| b_state := ABILITY_STATE_READY |>)
     (t ++ [ToApp c (ScheduleLaunchAbility (b_info b) (b_token b))]) s' → Q tt s') →
  wp (LaunchPendingAbilities ar) Q s.
Proof.
  intros Hv Ea Eb HQ. unfold LaunchPendingAbilities. apply wp_bind, (view_the_app _ _ _ _ _ _ Hv).
  rewrite (view_modules _ _ _ _ _ Hv), Ea. cbn [for_each]. rewrite bool_decide_true by done.
  apply wp_bind, wp_bind, (view_upd_module _ _ _ _ _ _ _ Hv); [done|]. intros s1 H1. unfold ModuleLaunchPendingAbilities.
  apply wp_bind, (view_the_module _ _ _ _ _ _ H1). destruct (vw_single _ _ _ _ _ _ _ _ _ _ _ H1) as [_ _ _ _ _ Eab].
  rewrite Eab. cbn [values fmap list_fmap snd for_each]. apply wp_bind, wp_bind, (view_the_ability _ _ _ _ _ _ H1).
  rewrite decide_True by done. apply (view_ModuleLaunchAbility _ _ _ _ _ c _ H1); [done..|]. intros s2 H2. by apply wp_ret, wp_ret, HQ.
Qed.

(** The process of a record in CREATE attaches, and is told to launch. *)
Lemma view_AttachApplication a m b t s pid c Q : seen a m b t s → apps_ok s → 0 < pid → app_by s (λ a, a_pid a =? pid) = Some ar →
  a_pid a = pid → a_state a = APP_STATE_CREATE → a_isKeepAlive a = false → a_isSpecified a = false → b_state b = ABILITY_STATE_CREATE →
  (∀ s', seen (launched a c) (m <| m_deal := true |> <| m_deal := true |>) (b <| b_state := ABILITY_STATE_READY |>)
     (t ++ [ToApp c (ScheduleLaunchApplication (Some (a_info a)) (a_processName a) (a_pid a) (a_recordId a) (a_uid a));
            ToApp c (ScheduleLaunchAbility (b_info b) (b_token b)); AppAddDeathRecipient c]) s' → Q tt s') →
  wp (AttachApplication pid (Some c)) Q s.
Proof.
  intros Hv Hok Hpid Hby Epid Est Ek Esp Eb HQ. unfold AttachApplication. rewrite (proj2 (Z.leb_gt _ _)) by done.
  unfold GetAppRunningRecordByPid. apply wp_bind. unfold wp at 1. rewrite run_find_app_by, Hby by done. cbn iota.
  apply wp_bind, (view_SetApplicationClient _ _ _ _ _ _ _ Hv). intros s1 H1.
  apply wp_bind, (view_the_app _ _ _ _ _ _ H1). rewrite decide_True by done.
  unfold LaunchApplication, LaunchApplication_. apply wp_bind, wp_bind, (view_the_app _ _ _ _ _ _ H1).
  rewrite bool_decide_true by done. cbn [negb]. apply wp_bind, wp_bind, (view_the_app _ _ _ _ _ _ H1).
  arec_cbn. apply (view_emit _ _ _ _ _ _ _ H1). intros s2 H2.
  apply wp_bind, (view_upd_app _ _ _ _ _ _ _ H2); [done..|]. intros s3 H3. arec_cbn. rewrite Ek, Esp.
  apply (view_LaunchPendingAbilities _ _ _ _ _ c _ H3); [done..|]. intros s4 H4.
  unfold RegisterAppDeathRecipient, with_live_client. apply wp_bind, (view_the_app _ _ _ _ _ _ H4).
  unfold GetApplicationClient. arec_cbn. cbn [mjoin option_join]. apply (view_emit _ _ _ _ _ _ _ H4). intros s5 H5. apply HQ.
  destruct (vw_single _ _ _ _ _ _ _ _ _ _ _ Hv) as [_ _ _ _ Ei _].
  assert (map_find (api_bundleName (a_info a)) (a_appInfos a) = Some (a_info a)) as Ef by by rewrite Ei, map_find_one.
  rewrite Ef in H5.
  rewrite <- !app_assoc in H5. exact H5.
Qed.
End view.

(** * Loading the first ability of a process *)

Section first_load.
Context (uninitialized_uid : Z) (APPSPAWN_COLD_BOOT : Z).
Context (GetBundleInfo : string → Z → option BundleInfo) (GetHapModuleInfo : AbilityInfo → Z → option HapModuleInfo).
Context (GetBundleInfos : Z → option (list BundleInfo)) (GetBundleGidsByUid : string → Z → bool).
Context (spawn : Z → option Z).
Context (s : Apps) (token : Token) (preToken : option Token) (i : AbilityInfo) (app : ApplicationInfo) (want : option Want).
Context (bi : BundleInfo) (h : HapModuleInfo).

Definition start_flags : Z := match want with Some w => BuildStartFlags APPSPAWN_COLD_BOOT w i | None => 0 end.

Context (Hs : session s) (Hcond : CheckLoadabilityConditions (Some token) (Some i) (Some app) = true).
Context (Hbundle : GetBundleAndHapInfo GetBundleInfo GetHapModuleInfo i app = Some (bi, h)).
Context (Hprocess : MakeProcessName i app h ≠ "").
Context (Hnone : existing s (api_name app) (MakeProcessName i app h) (api_uid app) bi = None).

Definition load : ST Apps unit :=
  LoadAbility uninitialized_uid APPSPAWN_COLD_BOOT GetBundleInfo GetHapModuleInfo GetBundleInfos GetBundleGidsByUid spawn
    (Some token) preToken (Some i) (Some app) want.

(** Up to the start of the process. *)
Lemma wp_load_first Q :
  (∀ ar mr br a m b s1, filed s1 ar mr br a m b token app i (MakeProcessName i app h) bi (wrap_i32 (Z.succ (am_created s))) →
     view (appStateCallbacks_ s) (map_emplace (wrap_i32 (Z.succ (am_created s))) ar (appRunningRecordMap_ s)) (am_apps s)
       ar mr br a m b (am_trace s) s1 → am_apps s !! ar = None →
     wp (StartProcess GetBundleInfos GetBundleGidsByUid spawn (abi_applicationName i) (MakeProcessName i app h) start_flags ar
           (api_uid app) (api_bundleName app)) Q s1) →
  wp load Q s.
Proof using Hs Hcond Hbundle Hprocess Hnone.
  intros HQ. unfold load, LoadAbility. rewrite Hcond. cbn [negb]. rewrite Hbundle. apply wp_bind. unfold wp at 1.
  rewrite (run_existing _ _ _ _ _ (session_ok _ Hs)), Hnone. apply wp_bind.
  eapply wp_mono; [by apply (wp_first_app_record _ s token preToken app i _ bi h want)|]. cbv beta.
  intros x s1 (ar & mr & br & a & m & b & -> & Hf & Ho & Hn & Em & Et & Ec & _). apply (HQ ar mr br a m b); [done| |done].
  constructor; try done. by destruct Hf.
Qed.

(** The process that was found is the only one that the test selects. *)
Lemma find_unique {A} (P : A → bool) l x : x ∈ l → P x = true → (∀ y, y ∈ l → P y = true → y = x) → List.find P l = Some x.
Proof.
  intros Hin Hx Hu. destruct (List.find P l) as [y|] eqn:E.
  - apply find_Some_elem in E as [Hy Py]. f_equal. by apply Hu.
  - by rewrite (find_None_elem _ _ _ E Hin) in Hx.
Qed.

Lemma fresh_id : 0 ≤ am_created s < INT_MAX → map_find (wrap_i32 (Z.succ (am_created s))) (appRunningRecordMap_ s) = None.
Proof using Hs.
  intros Hc. rewrite wrap_i32_id by (unfold INT_MAX in *; lia). apply map_find_None. intros (x & Ex & Hin)%list_elem_of_fmap.
  destruct x as [id ar]. destruct Hs as [Hok _]. destruct (tb_map _ (ao_tables _ Hok) _ _ Hin) as (a & Ha & Eid).
  assert (0 < a_recordId a ≤ am_created s) by (apply (tb_ids _ (ao_tables _ Hok) ltac:(lia) ar); done). cbn in Ex. lia.
Qed.

Lemma app_by_new s1 f ar a : 0 ≤ am_created s < INT_MAX →
  appRunningRecordMap_ s1 = map_emplace (wrap_i32 (Z.succ (am_created s))) ar (appRunningRecordMap_ s) →
  (∀ ar', ar' ≠ ar → am_apps s1 !! ar' = am_apps s !! ar') → am_apps s1 !! ar = Some a → f a = true →
  app_by s f = None → app_by s1 f = Some ar.
Proof using Hs.
  intros Hc Em Ho Ha Hf Hn. unfold app_by. apply find_unique.
  - rewrite Em. apply elem_values. eexists. apply elem_of_emplace; [by apply fresh_id|by left].
  - unfold at_app. by rewrite Ha.
  - intros ar' [id Hin]%elem_values Hat. rewrite Em in Hin. apply elem_of_emplace in Hin; [|by apply fresh_id].
    destruct Hin as [[= _ ->]|Hin]; [done|]. destruct (decide (ar' = ar)) as [|Hne]; [done|]. exfalso.
    unfold at_app in Hat. rewrite Ho in Hat by done. unfold app_by in Hn.
    assert (at_app s f ar' = false) as E by (eapply find_None_elem; [exact Hn|]; apply elem_values; by exists id).
    unfold at_app in E. destruct (am_apps s !! ar'); congruence.
Qed.

(** A record of the application is one that further abilities of it join. *)
Lemma existing_new s1 ar mr br a m b id : filed s1 ar mr br a m b token app i (MakeProcessName i app h) bi id →
  0 ≤ am_created s < INT_MAX →
  appRunningRecordMap_ s1 = map_emplace (wrap_i32 (Z.succ (am_created s))) ar (appRunningRecordMap_ s) →
  (∀ ar', ar' ≠ ar → am_apps s1 !! ar' = am_apps s !! ar') →
  existing s1 (api_name app) (MakeProcessName i app h) (api_uid app) bi = Some ar.
Proof using Hs Hnone.
  intros [Hsg Ei Eid Ep Esg Ej Est Epi Ed Ek Esp [Et Eki] Em Eto Eab Ebs] Hc Emap Ho. unfold existing in *.
  apply (app_by_new _ _ _ a); try done; [by destruct Hsg|]. destruct Hsg as [_ _ _ _ Einf _]. destruct (String.eqb (bi_jointUserId bi) "").
  - unfold runs_app, GetAppInfoList. rewrite Ep, Et, Eki, Einf, Ei, String.eqb_refl. cbn. by rewrite String.eqb_refl, Z.eqb_refl.
  - unfold same_process. by rewrite Ep, Et, Eki, Esg, Ej, !String.eqb_refl.
Qed.

(** ** Started, and attached *)

Context (bundles : list BundleInfo) (bi' : BundleInfo) (pid : Z).
Context (Hc : 0 ≤ am_created s < INT_MAX).
Context (Hbundles : GetBundleInfos (GetUserIdByUid (api_uid app)) = Some bundles).
Context (Hfound : List.find (is_bundle (api_bundleName app) (api_uid app)) bundles = Some bi').
Context (Hgids : GetBundleGidsByUid (api_bundleName app) (api_uid app) = true).
Context (Hspawn : spawn (Z.succ (am_created s)) = Some pid).

Definition spawned (callbacks : list CallbackRef) : list AppEffect :=
  [SpawnProcess (MakeProcessName i app h) (api_bundleName app) (bi_uid bi') start_flags] ++
  ((λ cb, OnAppStateChangedTo cb (mkProcessData [(api_name app, api_uid app)] (MakeProcessName i app h) pid APP_STATE_CREATE)) <$> callbacks) ++
  [ObserveApp (Z.succ (am_created s)) APP_STATE_CREATE; ObserveProcessCreated (Z.succ (am_created s))].

Lemma wp_load_started : wp load (λ _ s1, ∃ ar mr br a m b s0,
  filed s0 ar mr br a m b token app i (MakeProcessName i app h) bi (Z.succ (am_created s)) ∧
  view (appStateCallbacks_ s) (map_emplace (Z.succ (am_created s)) ar (appRunningRecordMap_ s)) (am_apps s) ar mr br
    (started a pid (bi_uid bi')) (m <| m_inner := true |>) b (am_trace s ++ spawned (appStateCallbacks_ s)) s1) s.
Proof using All.
  assert (wrap_i32 (Z.succ (am_created s)) = Z.succ (am_created s)) as Ew by (apply wrap_i32_id; unfold INT_MAX in *; lia).
  apply wp_load_first. rewrite Ew. intros ar mr br a m b s0 Hf Hv _. pose proof Hf as [Hsg Ei Eid Ep _ _ _ _ _ _ _ _ _ _ _ _].
  eapply view_StartProcess; [exact Hv|exact Hbundles|exact Hfound|exact Hgids|rewrite Eid; exact Hspawn|].
  intros s1 H1. exists ar, mr, br, a, m, b, s0. split; [done|]. rewrite Eid in H1. unfold spawned.
  assert (told (appStateCallbacks_ s) (started a pid (bi_uid bi')) APP_STATE_CREATE =
    ((λ cb, OnAppStateChangedTo cb (mkProcessData [(api_name app, api_uid app)] (MakeProcessName i app h) pid APP_STATE_CREATE)) <$> appStateCallbacks_ s) ++
    [ObserveApp (Z.succ (am_created s)) APP_STATE_CREATE]) as Et.
  { unfold told, WrapAppProcessData, started. arec_cbn. destruct Hsg as [_ _ _ _ Einf _]. rewrite Einf, Ei, Ep, Eid. done. }
  rewrite Et, <- app_assoc in H1. exact H1.
Qed.

Lemma wp_load_attached c : 0 < pid → app_by s (λ a, a_pid a =? pid) = None →
  wp (_ ← load; AttachApplication pid (Some c)) (λ _ s2, ∃ ar a,
    map_find (Z.succ (am_created s)) (appRunningRecordMap_ s2) = Some ar ∧ am_apps s2 !! ar = Some a ∧
    a_state a = APP_STATE_READY ∧ a_pid a = pid ∧ GetApplicationClient a = Some c ∧
    am_trace s2 = am_trace s ++ spawned (appStateCallbacks_ s) ++
      [ToApp c (ScheduleLaunchApplication (Some app) (MakeProcessName i app h) pid (Z.succ (am_created s)) (bi_uid bi'));
       ToApp c (ScheduleLaunchAbility i token); AppAddDeathRecipient c]) s.
Proof using All.
  intros Hpid Hno.
  assert (wrap_i32 (Z.succ (am_created s)) = Z.succ (am_created s)) as Ew by (apply wrap_i32_id; unfold INT_MAX in *; lia).
  apply wp_bind. eapply wp_mono; [apply wp_and; [by apply wp_LoadAbility|apply wp_load_started]|]. cbv beta.
  intros x s1 (Hs1 & ar & mr & br & a & m & b & s0 & Hf & Hv).
  pose proof Hf as [Hsg Ei Eid Ep _ _ Est _ _ Ek Esp _ _ Eto Eab Ebs].
  assert (app_by s1 (λ a, a_pid a =? pid) = Some ar) as Hby.
  { destruct Hv as [Hsg1 _ _ Em Ho]. apply (app_by_new s1 _ _ (started a pid (bi_uid bi')) Hc); try done; [by rewrite Ew|by destruct Hsg1|].
    apply Z.eqb_refl. }
  eapply view_AttachApplication; [exact Hv|by apply session_ok|done..|].
  intros s2 H2. exists ar. eexists. destruct H2 as [Hsg2 Et _ Em _]. rewrite Em.
  split_and!; [|apply Hsg2|done..|].
  - apply NoDup_find; [apply NoDup_emplace, Hs|]. rewrite elem_of_emplace; [by left|]. rewrite <- Ew. by apply fresh_id.
  - rewrite Et. unfold started. arec_cbn. rewrite Ei, Ep, Eid, Eab, Eto, <- app_assoc. done.
Qed.
End first_load.

(** * A process that has not been started *)

Lemma dormant_StartAbility s ar a token preToken i h want : am_apps s !! ar = Some a → a_state a = APP_STATE_CREATE →
  leaves (dormant ar) (StartAbility token preToken i ar h want) s.
Proof.
  intros Ha Est.
  assert (∀ s' s'', dormant ar s s' → dormant ar s' s'' → ∀ a'', am_apps s'' !! ar = Some a'' → a_state a'' = APP_STATE_CREATE) as Hst.
  { intros s' s'' H1 H2 a'' Ha''. assert (dormant ar s s'') as [_ H] by by transitivity s'.
    destruct (H _ Ha) as (a1 & Ha1 & E). simplify_eq. congruence. }
  unfold StartAbility. apply leaves_bind; [exact _|leave_steps|]. intros started s1 H1%(leaves_is_singleton_started (dormant ar)).
  destruct started; [leave_steps|]. apply leaves_bind; [exact _|leave_steps|]. intros x s2 H2%(leaves_ability_by_token (dormant ar)).
  assert (dormant ar s s2) as H12 by by transitivity s1.
  assert (∀ h want, leaves (dormant ar) (
    _ ← AddModule ar (abi_applicationInfo i) (Some (i, token)) h want;
    a ← the_app ar;
    y ← GetModuleRecordByModuleName a (api_bundleName (abi_applicationInfo i)) (hap_moduleName h);
    match y with
    | None => mret tt
    | Some mr =>
        m ← the_module mr;
        match ModuleGetAbilityRunningRecordByToken m token with
        | None => mret tt
        | Some br =>
            _ ← match preToken with Some p => upd_run br (λ b, b <| b_preToken := Some p |>) | None => mret tt end;
            a ← the_app ar;
            if decide (a_state a = APP_STATE_CREATE) then mret tt else LaunchAbility ar br
        end
    end) s2) as Hadd.
  { intros h0 want0. apply leaves_bind; [exact _|leave_steps|]. intros [] s3 H3%(leaves_AddModule (dormant ar) ar).
    apply leaves_bind; [exact _|leave_steps|]. intros a3 s4 H4%(leaves_read (dormant ar) (λ s, am_apps s !! ar)).
    apply leaves_bind; [exact _|leave_steps|]. intros [mr|] s5 H5%(leaves_module_by_name (dormant ar)); [|leave_steps].
    apply leaves_bind; [exact _|leave_steps|]. intros m s6 H6%(leaves_read (dormant ar) (λ s, am_modules s !! mr)).
    destruct (ModuleGetAbilityRunningRecordByToken m token) as [br|]; [|leave_steps].
    apply leaves_bind; [exact _|unfold upd_run; leave_steps|]. intros [] s7 H7.
    assert (dormant ar s6 s7) as H67.
    { revert H7. assert (leaves (dormant ar) (match preToken with Some p => upd_run br (λ b, b <| b_preToken := Some p |>) | None => mret tt end) s6)
        as Hl by (unfold upd_run; leave_steps). apply Hl. }
    unfold the_app. intros x' s9 (a8 & s8 & Hr & Hrest)%ST_bind_Returned.
    assert (s8 = s7 ∧ am_apps s7 !! ar = Some a8) as [-> Ha8].
    { revert Hr. unfold gets, mbind, ST_bind, deref. destruct (am_apps s7 !! ar) as [a8'|]; [|done]. by intros [= -> ->]. }
    assert (a_state a8 = APP_STATE_CREATE) as E8.
    { eapply (Hst s2 s7); [done| |done]. transitivity s3; [done|]. transitivity s4; [done|]. transitivity s5; [done|]. by transitivity s6. }
    rewrite decide_True in Hrest by done. injection Hrest as <- <-. reflexivity. }
  destruct x as [br|]; [|apply Hadd]. destruct preToken as [p|]; [unfold upd_run; leave_steps|apply Hadd].
Qed.
