(* ===== verification/AppDeath.v ===== *)
(** The death of a process: what [OnRemoteDied] forgets, and which processes it lets
    be started again. *)

From S2P Require Import Prelude CppString Want AbilityRecord StdMap AppRecords AppManager AppService AppShape.
From S2P Require Import AppReads AppFrames AppModules AppStates AppRun AppStarts AppSpares AppLoad.
From S2P Require Import AppSession.

#[local] Open Scope stdpp_scope.
#[local] Open Scope Z_scope.

Implicit Types (s : Apps) (ar : AppRef) (mr : ModRef) (br : AbRef) (token : Token).
Implicit Types (a : AppRunningRecord) (m : ModuleRunningRecord) (b : AbilityRunningRecord).

(** Only messages are sent. *)
Definition calm s s' : Prop := am_apps s' = am_apps s ∧ appRunningRecordMap_ s' = appRunningRecordMap_ s ∧
  recentAppList_ s' = recentAppList_ s ∧ am_restarts s' = am_restarts s.
#[export] Instance calm_preorder : PreOrder calm.
Proof.
  split; [by intros s|]. intros s1 s2 s3 (A1 & A2 & A3 & A4) (B1 & B2 & B3 & B4). unfold calm. split_and!; congruence.
Qed.

Lemma app_calm_emit e s : leaves calm (app_emit e) s.
Proof. by apply leaves_modify. Qed.
Lemma calm_notify ar br st isAbility s : leaves calm (StateChangedNotifyObserver ar br st isAbility) s.
Proof. pose proof app_calm_emit. unfold StateChangedNotifyObserver. leave_steps. Qed.
Lemma calm_kill kill pid s : leaves calm (KillProcessByPid kill pid) s.
Proof. pose proof app_calm_emit. unfold KillProcessByPid. leave_steps. Qed.

(** Code that keeps to the frame and is calm. *)
Lemma wp_calm {A} (c : ST Apps A) s : leaves calm c s → keeps evolves c s → wp c (λ _ s', calm s s' ∧ evolves s s') s.
Proof. intros Hl Hk. by apply (wp_leaves calm). Qed.

Definition restarts_of a : bool := a_isKeepAlive a && (0 <? Z.pred (a_restartCount a)).

Lemma wp_ClearAppRunningData kill s ar a : apps_ok s → am_apps s !! ar = Some a →
  wp (ClearAppRunningData kill ar false) (λ _ s',
    (∃ a', am_apps s' !! ar = Some a' ∧ a_deal a' = a_deal a) ∧ (∀ ar', ar' ≠ ar → am_apps s' !! ar' = am_apps s !! ar') ∧
    appRunningRecordMap_ s' = appRunningRecordMap_ s ∧
    recentAppList_ s' = erase_first (has_record (a_recordId a)) (recentAppList_ s) ∧
    am_restarts s' = am_restarts s ++ (if restarts_of a then [ar] else [])) s.
Proof.
  intros Hok Ha. assert (∀ rr, a_render a = Some rr → known_render s rr) as Hr by apply (ao_apps _ Hok _ _ Ha).
  unfold ClearAppRunningData. apply wp_bind, (wp_the_app _ _ a); [done|]. apply wp_bind, wp_ret.
  apply wp_bind. eapply wp_mono; [apply wp_calm; [apply app_calm_emit|apply keeps_app_emit]|]. intros [] s1 [C1 E1].
  eapply wp_answers; [apply answers_abilities; eauto with apps|]. cbv beta. intros l Hl. assert (apps_ok s1) by eauto with apps.
  apply wp_bind. eapply wp_mono; [apply wp_calm|].
  { apply leaves_for_each; [exact _|]. intros br s' _. apply calm_notify. }
  { apply (keeps_for_each_from evolves). intros br s' Hbr Hev'. apply keeps_StateChangedNotifyObserver; eauto with apps. }
  intros [] s2 [C2 E2]. assert (calm s s2) as C02 by by transitivity s1.
  apply wp_bind, wp_modify. set (s3 := s2 <| recentAppList_ ::= _ |>).
  assert (am_apps s3 = am_apps s ∧ appRunningRecordMap_ s3 = appRunningRecordMap_ s ∧
    recentAppList_ s3 = erase_first (has_record (a_recordId a)) (recentAppList_ s) ∧ am_restarts s3 = am_restarts s) as (A3 & M3 & R3 & T3).
  { destruct C02 as (Q1 & Q2 & Q3 & Q4). subst s3. apps_cbn. by rewrite Q3. }
  assert (evolves s s3) as E3 by (transitivity s1; [done|]; transitivity s2; [done|]; apply keeps_RemoveAppFromRecentListById).
  clearbody s3. apply wp_bind. eapply wp_mono; [apply wp_calm; [apply app_calm_emit|apply keeps_app_emit]|]. intros [] s4 [C4 E4].
  apply wp_bind. apply (wp_mono _ (λ _ s5, calm s4 s5 ∧ True)).
  { destruct (a_render a) as [rr|]; [|by apply wp_ret]. assert (known_render s4 rr) as [r Hrr] by eauto 8 with apps.
    apply wp_bind, wp_gets, wp_bind. eapply wp_deref; [exact Hrr|]. case_match; [|by apply wp_ret].
    apply wp_bind. eapply wp_mono; [apply wp_calm; [apply calm_kill|apply keeps_KillProcessByPid]|]. intros x s5 [C5 _]. by apply wp_ret. }
  intros [] s5 [C5 _]. assert (calm s3 s5) as (A5 & M5 & R5 & T5) by by transitivity s4.
  rewrite A3 in A5. rewrite M3 in M5. rewrite R3 in R5. rewrite T3 in T5. clear -Ha A5 M5 R5 T5. unfold restarts_of.
  destruct (a_isKeepAlive a); cbn [andb].
  - apply wp_bind, wp_modify. assert (am_apps (s5 <| am_apps ::= alter (λ a, a <| a_restartCount ::= Z.pred |>) ar |>) !! ar =
      Some (a <| a_restartCount ::= Z.pred |>)) as Ha6 by (apps_cbn; by rewrite A5, lookup_alter, decide_True, Ha by done).
    set (s6 := s5 <| am_apps ::= _ |>) in *.
    assert (∀ ar', ar' ≠ ar → am_apps s6 !! ar' = am_apps s !! ar') as Ho.
    { intros ar' Hne. subst s6. apps_cbn. by rewrite A5, lookup_alter_ne. }
    assert (appRunningRecordMap_ s6 = appRunningRecordMap_ s5 ∧ recentAppList_ s6 = recentAppList_ s5 ∧ am_restarts s6 = am_restarts s5)
      as (M6 & R6 & T6) by done. clearbody s6.
    case_match; [apply wp_modify|apply wp_ret]; (split_and!; [by eexists|done|apps_cbn; congruence..|]); apps_cbn; rewrite ?T6, T5, ?app_nil_r; done.
  - apply wp_ret. rewrite A5, app_nil_r. split_and!; [by exists a|done..].
Qed.

Lemma wp_OnRemoteDied kill s ar a remote : apps_ok s → am_apps s !! ar = Some a →
  app_by s (λ a, bool_decide (GetApplicationClient a = Some remote)) = Some ar →
  wp (OnRemoteDied kill remote false) (λ _ s',
    (∃ a', am_apps s' !! ar = Some a' ∧ GetApplicationClient a' = None) ∧ (∀ ar', ar' ≠ ar → am_apps s' !! ar' = am_apps s !! ar') ∧
    appRunningRecordMap_ s' = List.filter (λ e, negb (bool_decide (e.2 = ar))) (appRunningRecordMap_ s) ∧
    recentAppList_ s' = erase_first (has_record (a_recordId a)) (recentAppList_ s) ∧
    am_restarts s' = am_restarts s ++ (if restarts_of a then [ar] else [])) s.
Proof.
  intros Hok Ha Hby. unfold OnRemoteDied, Manager_OnRemoteDied. apply wp_bind, wp_bind. unfold wp at 1.
  rewrite run_find_app_by, Hby by done. cbn iota. assert (known_app s ar) by by exists a.
  set (f := λ a, a <| a_deal := Some None |>).
  apply wp_bind. apply (wp_mono _ (λ _ s1, evolves s s1 ∧ am_apps s1 = alter f ar (am_apps s) ∧
    appRunningRecordMap_ s1 = appRunningRecordMap_ s ∧ recentAppList_ s1 = recentAppList_ s ∧ am_restarts s1 = am_restarts s)).
  { apply wp_and; [eapply wp_mono; [by apply wp_SetApplicationClient|]; by intros x s1 [? _]|]. unfold SetApplicationClient. apply wp_bind, wp_modify.
    apply wp_bind. eapply (wp_the_app _ _ (f a)); [apps_cbn; by rewrite lookup_alter, decide_True, Ha by done|].
    unfold wp. rewrite run_deal_all. done. }
  intros [] s1 (E1 & A1 & M1 & R1 & T1). apply wp_bind.
  apply (wp_mono _ (λ _ s2, evolves s1 s2 ∧ am_apps s2 = am_apps s1 ∧ recentAppList_ s2 = recentAppList_ s1 ∧ am_restarts s2 = am_restarts s1 ∧
    appRunningRecordMap_ s2 = List.filter (λ e, negb (bool_decide (e.2 = ar))) (appRunningRecordMap_ s1))).
  { apply wp_and; [apply keeps_map_filter|by apply wp_modify]. }
  intros [] s2 (E2 & A2 & R2 & T2 & M2). apply wp_ret.
  assert (am_apps s2 !! ar = Some (f a)) as Ha2 by (rewrite A2, A1, lookup_alter, decide_True, Ha; done).
  eapply wp_mono; [apply (wp_ClearAppRunningData _ _ _ (f a)); [eauto with apps|exact Ha2]|]. cbv beta.
  intros [] s' ((a' & Ha' & Ed) & Ho & M' & R' & T'). split_and!.
  - exists a'. split; [done|]. unfold GetApplicationClient. by rewrite Ed.
  - intros ar' Hne. by rewrite Ho, A2, A1, lookup_alter_ne.
  - by rewrite M', M2, M1.
  - by rewrite R', R2, R1.
  - by rewrite T', T2, T1.
Qed.

(** An entry that is taken off is gone when ids occur once. *)
Lemma NoDup_erase_id (l : list AppTaskInfo) id :
  NoDup (ti_recordId <$> l) → id ∉ (ti_recordId <$> erase_first (has_record id) l).
Proof.
  induction l as [|t l IH]; cbn [erase_first]; intros Hn; [by intros ?%not_elem_of_nil|].
  apply NoDup_cons in Hn as [Ht Hn]. unfold has_record at 1. destruct (Z.eqb_spec (ti_recordId t) id) as [E|E].
  - by rewrite <- E.
  - rewrite fmap_cons. intros [?|Hin]%elem_of_cons; [congruence|]. by apply IH.
Qed.
