(* ===== verification/AppClip.v ===== *)
(** [AppRunningManager::ClipStringContent] against what its regular expression says:
    the first match of [[a-zA-Z.]+[-_#]{1}] is cut out. *)

From S2P Require Import Prelude CppString StdMap AppRecords AppManager.
From Stdlib Require Import Ascii.

#[local] Open Scope stdpp_scope.
#[local] Open Scope Z_scope.

(** * The rule *)

Fixpoint all_chars (P : ascii → bool) (s : string) : bool :=
  match s with EmptyString => true | String c s' => P c && all_chars P s' end.

(** [[a-zA-Z.]+[-_#]{1}]. *)
Definition rule_matches (w : string) : Prop :=
  ∃ run c, w = run +:+ String c "" ∧ run ≠ "" ∧ all_chars rule_char run = true ∧ rule_end c = true.

(** [w] is the match that [regex_search] finds: none starts before it. *)
Definition first_match (s pre w suf : string) : Prop :=
  s = pre +:+ w +:+ suf ∧ rule_matches w ∧
  ∀ pre' w' suf', s = pre' +:+ w' +:+ suf' → rule_matches w' → (String.length pre ≤ String.length pre')%nat.

Lemma rule_end_not_char c : rule_end c = true → rule_char c = false.
Proof.
  unfold rule_end. intros H. destruct (bool_decide (c = "-"%char)) eqn:E1; [by apply bool_decide_eq_true in E1 as ->|].
  destruct (bool_decide (c = "_"%char)) eqn:E2; [by apply bool_decide_eq_true in E2 as ->|].
  cbn in H. by apply bool_decide_eq_true in H as ->.
Qed.

Lemma after_run_match b s suf : after_run b s = Some suf ↔
  ∃ run c, s = run +:+ String c suf ∧ (b = true ∨ run ≠ "") ∧ all_chars rule_char run = true ∧ rule_end c = true.
Proof.
  revert b. induction s as [|d s IH]; intros b; cbn.
  - split; [done|]. intros (run & c & E & _). by destruct run.
  - destruct (rule_char d) eqn:Ed.
    + rewrite IH. split.
      * intros (run & c & -> & _ & H1 & H2). exists (String d run), c. split_and!; [done|by right| |done]. cbn. by rewrite Ed.
      * intros (run & c & E & Hor & H1 & H2). destruct run as [|d' run]; cbn in E; injection E as -> ->.
        { by rewrite (rule_end_not_char _ H2) in Ed. }
        exists run, c. split_and!; [done|by left| |done]. cbn in H1. by destruct (andb_prop _ _ H1).
    + split.
      * intros H. destruct (b && rule_end d) eqn:Eb; [|done]. apply andb_prop in Eb as [-> He]. injection H as ->.
        exists "", d. split_and!; [done|by left|done..].
      * intros (run & c & E & Hor & H1 & H2). destruct run as [|d' run]; cbn in E; injection E as -> ->.
        { destruct Hor as [-> |?]; [|done]. by rewrite H2. }
        cbn in H1. by rewrite Ed in H1.
Qed.

Lemma after_run_here s suf : after_run false s = Some suf ↔ ∃ w, s = w +:+ suf ∧ rule_matches w.
Proof.
  rewrite after_run_match. split.
  - intros (run & c & -> & [?|?] & H1 & H2); [done|]. exists (run +:+ String c ""). split; [by rewrite app_assoc_str|].
    by exists run, c.
  - intros (w & -> & run & c & -> & Hne & H1 & H2). exists run, c. rewrite app_assoc_str. split_and!; auto.
Qed.

Lemma first_match_here s w suf : s = w +:+ suf → rule_matches w → first_match s "" w suf.
Proof. intros -> Hw. split_and!; [done..|]. intros. cbn. lia. Qed.

(** When nothing matches at the start, matches are those of the rest. *)
Lemma first_match_later c s pre w suf : after_run false (String c s) = None →
  first_match (String c s) pre w suf ↔ ∃ pre', pre = String c pre' ∧ first_match s pre' w suf.
Proof.
  intros Hn.
  assert (∀ pre w suf, String c s = pre +:+ w +:+ suf → rule_matches w → ∃ pre', pre = String c pre' ∧ s = pre' +:+ w +:+ suf) as Hlater.
  { intros pre0 w0 suf0 E Hw. destruct pre0 as [|d pre0].
    - assert (after_run false (String c s) = Some suf0) as H by (apply after_run_here; by exists w0). by rewrite H in Hn.
    - cbn in E. injection E as -> ->. by exists pre0. }
  split.
  - intros (E & Hw & Hmin). destruct (Hlater _ _ _ E Hw) as (pre0 & -> & ->). exists pre0. split; [done|]. split_and!; [done..|].
    intros pre1 w1 suf1 E1 Hw1. specialize (Hmin (String c pre1) w1 suf1). cbn in Hmin. rewrite E1 in Hmin. specialize (Hmin eq_refl Hw1). lia.
  - intros (pre0 & -> & -> & Hw & Hmin). split_and!; [done..|]. intros pre1 w1 suf1 E1 Hw1.
    destruct (Hlater _ _ _ E1 Hw1) as (pre2 & -> & E2). cbn. specialize (Hmin _ _ _ E2 Hw1). lia.
Qed.

Lemma clip_first before s r : clip before s = Some r ↔ ∃ pre w suf, first_match s pre w suf ∧ r = before +:+ pre +:+ suf.
Proof.
  revert before. induction s as [|c s IH]; intros before; cbn [clip].
  - destruct (after_run false "") as [suf|] eqn:E; [done|]. split; [done|]. intros (pre & w & suf & (Es & (run & c & -> & _) & _) & _).
    destruct pre, run; done.
  - destruct (after_run false (String c s)) as [suf|] eqn:E.
    + pose proof E as (w & Es & Hw)%after_run_here. split.
      * intros [= <-]. exists "", w, suf. split; [by apply first_match_here|done].
      * intros (pre & w' & suf' & (E' & Hw' & Hmin) & ->). specialize (Hmin "" w suf Es Hw).
        destruct pre as [|d pre]; [|cbn in Hmin; lia]. cbn in E'.
        assert (after_run false (String c s) = Some suf') as H by (apply after_run_here; by exists w').
        rewrite H in E. by injection E as ->.
    + rewrite IH. split.
      * intros (pre & w & suf & Hf & ->). exists (String c pre), w, suf. rewrite first_match_later by done. split; [by exists pre|].
        rewrite !app_assoc_str. done.
      * intros (pre & w & suf & Hf & ->). rewrite first_match_later in Hf by done. destruct Hf as (pre' & -> & Hf).
        exists pre', w, suf. split; [done|]. rewrite !app_assoc_str. done.
Qed.

(** What a search looks for is there when anything matches anywhere. *)
Lemma match_first s : (∃ pre w suf, s = pre +:+ w +:+ suf ∧ rule_matches w) → ∃ pre w suf, first_match s pre w suf.
Proof.
  induction s as [|c s IH]; intros (pre & w & suf & E & Hw).
  - destruct Hw as (run & c & -> & _). by destruct pre, run.
  - destruct (after_run false (String c s)) as [suf'|] eqn:Ea.
    + apply after_run_here in Ea as (w' & Es & Hw'). exists "", w', suf'. by apply first_match_here.
    + destruct pre as [|d pre].
      { assert (after_run false (String c s) = Some suf) as H by (apply after_run_here; by exists w). by rewrite H in Ea. }
      cbn in E. injection E as -> ->. destruct IH as (pre1 & w1 & suf1 & Hf); [by exists pre, w, suf|].
      exists (String d pre1), w1, suf1. rewrite first_match_later by done. by exists pre1.
Qed.

(** C33: ClipStringContent cuts the leftmost match of its regular expression out of
    the text and keeps what is before and after it; a text without a match gives the
    empty text. *)
Theorem ClipStringContent_regex source :
  (∀ pre w suf, first_match source pre w suf → ClipStringContent source = pre +:+ suf) ∧
  ((∀ pre w suf, source = pre +:+ w +:+ suf → ¬ rule_matches w) → ClipStringContent source = "") ∧
  ((∃ pre w suf, source = pre +:+ w +:+ suf ∧ rule_matches w) →
     ∃ pre w suf, first_match source pre w suf ∧ ClipStringContent source = pre +:+ suf).
Proof.
  unfold ClipStringContent.
  assert (∀ pre w suf, first_match source pre w suf → clip "" source = Some (pre +:+ suf)) as H.
  { intros pre w suf Hf. apply clip_first. by exists pre, w, suf. }
  split_and!.
  - intros pre w suf Hf. by rewrite (H _ _ _ Hf).
  - intros Hn. destruct (clip "" source) as [r|] eqn:E; [|done]. apply clip_first in E as (pre & w & suf & (Es & Hw & _) & _).
    exfalso. by eapply Hn.
  - intros (pre & w & suf & Hf)%match_first. exists pre, w, suf. split; [done|]. by rewrite (H _ _ _ Hf).
Qed.

Example clip_app_id : ClipStringContent "com.example.app_BNtg4JBClbl92Rgc3jm" = "BNtg4JBClbl92Rgc3jm".
Proof. reflexivity. Qed.
