(* ===== verification/AppClaims.v ===== *)
(** What holds of the application manager. *)

From S2P Require Import Prelude CppString Want AbilityRecord StdMap AppRecords AppManager AppService.
From S2P Require Import AppShape AppReads AppFrames AppModules AppStates AppRun AppStarts AppSession.
From S2P Require Import AppSpares AppDeath AppLoad.

#[local] Open Scope stdpp_scope.
#[local] Open Scope Z_scope.

Section claims.
Context (uninitialized_uid : Z) (APPSPAWN_COLD_BOOT : Z).
Context (GetBundleInfo : string → Z → option BundleInfo) (GetHapModuleInfo : AbilityInfo → Z → option HapModuleInfo).
Context (GetBundleInfos : Z → option (list BundleInfo)) (GetBundleGidsByUid : string → Z → bool).
Context (GetUidByBundleName : string → Z → Z).
Context (spawn : Z → option Z) (nweb_spawn : RenderRef → option Z).
Context (survivors : list Z → list Z) (kill : Z → Z).
Context (GetOsAccountLocalIdFromUid : Z → option Z).
Implicit Types (s : Apps) (ar : AppRef) (token : Token).

#[local] Abbreviation reachable :=
  (app_reachable uninitialized_uid APPSPAWN_COLD_BOOT GetBundleInfo GetHapModuleInfo GetBundleInfos GetBundleGidsByUid
    GetUidByBundleName spawn nweb_spawn survivors kill GetOsAccountLocalIdFromUid).
#[local] Abbreviation event :=
  (app_event uninitialized_uid APPSPAWN_COLD_BOOT GetBundleInfo GetHapModuleInfo GetBundleInfos GetBundleGidsByUid
    GetUidByBundleName spawn nweb_spawn survivors kill GetOsAccountLocalIdFromUid).
#[local] Abbreviation safe := (app_event_safe GetBundleInfo GetHapModuleInfo).
#[local] Abbreviation bundle_of := (GetBundleAndHapInfo GetBundleInfo GetHapModuleInfo).

Lemma reachable_session s : reachable s → session s.
Proof. apply app_reachable_session. Qed.

(** C3: whatever the clients, the processes and the timeouts do, the records of the
    application manager stay consistent: every pointer of a table or a list is to a
    record, a record is filed under its own id, an ability is filed under its token
    once, no list of modules is empty, the modules of an attached process have its
    client, and every record has its event handler. Every call, report, death and
    timeout that comes returns, except the three that follow a pointer without a look:
    they return exactly when it is there, and otherwise throw. These are a SPECIFIED
    ability started in a process that has not attached, a process that has not
    attached and says that a stage is added when a message to it is due, and a
    process in the foreground when the module of an ability that waits for it is gone. *)
Theorem apps_consistent s :
  reachable s → session s ∧ ∀ e, app_event_comes s e = true →
    if safe s e then ∃ s', event e s = Returned (tt, s') ∧ session s' else event e s = Thrown.
Proof.
  intros Hs%reachable_session. split; [done|]. intros e He. by apply session_event.
Qed.

(** C4: an ability whose application has no process is launched in a new one: the
    load spawns a process, tells the callbacks and the observers of it, and when the
    process attaches it is told, in this order, to launch the application and the
    ability, each once; then its death is watched. *)
Theorem first_ability_launched s token preToken i app want bi h bundles bi' pid c :
  reachable s → 0 ≤ am_created s < INT_MAX →
  CheckLoadabilityConditions (Some token) (Some i) (Some app) = true →
  bundle_of i app = Some (bi, h) → MakeProcessName i app h ≠ "" →
  existing s (api_name app) (MakeProcessName i app h) (api_uid app) bi = None →
  GetBundleInfos (GetUserIdByUid (api_uid app)) = Some bundles →
  List.find (is_bundle (api_bundleName app) (api_uid app)) bundles = Some bi' →
  GetBundleGidsByUid (api_bundleName app) (api_uid app) = true →
  spawn (Z.succ (am_created s)) = Some pid → 0 < pid → app_by s (λ a, a_pid a =? pid) = None →
  let id := Z.succ (am_created s) in
  let process := MakeProcessName i app h in
  ∃ s1 s2 ar a, event (ELoadAbility (Some token) preToken (Some i) (Some app) want) s = Returned (tt, s1) ∧
    event (EAttachApplication pid (Some c)) s1 = Returned (tt, s2) ∧
    map_find id (appRunningRecordMap_ s2) = Some ar ∧ am_apps s2 !! ar = Some a ∧
    a_state a = APP_STATE_READY ∧ a_pid a = pid ∧ GetApplicationClient a = Some c ∧
    am_trace s2 = am_trace s ++
      ([SpawnProcess process (api_bundleName app) (bi_uid bi') (start_flags APPSPAWN_COLD_BOOT i want)] ++
       ((λ cb, OnAppStateChangedTo cb (mkProcessData [(api_name app, api_uid app)] process pid APP_STATE_CREATE)) <$> appStateCallbacks_ s) ++
       [ObserveApp id APP_STATE_CREATE; ObserveProcessCreated id]) ++
      [ToApp c (ScheduleLaunchApplication (Some app) process pid id (bi_uid bi'));
       ToApp c (ScheduleLaunchAbility i token); AppAddDeathRecipient c].
Proof.
  intros Hr Hc Hcond Hb Hne Hnone E1 E2 E3 E4 Hpid Hfresh id process. pose proof (reachable_session _ Hr) as Hs.
  destruct (wp_run _ _ _ (wp_load_attached uninitialized_uid APPSPAWN_COLD_BOOT GetBundleInfo GetHapModuleInfo GetBundleInfos
    GetBundleGidsByUid spawn s token preToken i app want bi h Hs Hcond Hb Hne Hnone bundles bi' pid Hc E1 E2 E3 E4 c Hpid Hfresh))
    as ([] & s2 & Hrun & ar & a & Hw).
  apply ST_bind_Returned in Hrun as ([] & s1 & H1 & H2). exists s1, s2, ar, a. split; [exact H1|]. split; [exact H2|exact Hw].
Qed.

(** A process that is being terminated or killed is left alone: an ability that
    is loaded, or a SPECIFIED one that is started, never goes into it, and its record
    stays as it is. *)
Theorem ending_process_left_alone s e ar a :
  reachable s → am_apps s !! ar = Some a → a_isTerminating a || a_isKilling a = true → safe s e = true →
  match e with ELoadAbility _ _ _ _ _ | EStartSpecifiedAbility _ _ => True | _ => False end →
  ∃ s', event e s = Returned (tt, s') ∧ am_apps s' !! ar = Some a.
Proof.
  intros Hr Ha Hend He Hkind. pose proof (reachable_session _ Hr) as Hs. pose proof (session_ok _ Hs) as Hok.
  destruct (wp_run _ _ _ (session_step uninitialized_uid APPSPAWN_COLD_BOOT GetBundleInfo GetHapModuleInfo GetBundleInfos
    GetBundleGidsByUid GetUidByBundleName spawn nweb_spawn survivors kill GetOsAccountLocalIdFromUid s e Hs ltac:(by destruct e) He))
    as ([] & s' & E & H'). exists s'. split; [done|].
  assert ((ar < am_next s)%positive) as Hlt by (apply (ao_new_app _ Hok); by exists a).
  assert (∀ appName processName uid bi s1 ar', CheckAppRunningRecordIsExist appName processName uid bi s = Returned (Some ar', s1) →
    ar ≠ ar') as Hother.
  { intros appName processName uid bi s1 ar' Hx ->. rewrite run_existing in Hx by done. injection Hx as Hx _.
    apply app_by_spec in Hx as (_ & a' & Ha' & Hf). simplify_eq.
    assert (a_isTerminating a = false ∧ a_isKilling a = false) as [E1 E2]; [|by rewrite E1, E2 in Hend].
    destruct (String.eqb _ ""); [unfold runs_app in Hf|unfold same_process in Hf]; bool_to_prop; done. }
  destruct e; try done.
  - by destruct (spares_LoadAbility _ _ _ _ _ _ _ s ar Hlt Hother _ _ _ _ _ _ _ E Hlt) as [-> _].
  - by destruct (spares_StartSpecifiedAbility _ _ _ _ _ _ _ s ar Hlt Hother _ _ _ _ E Hlt) as [-> _].
Qed.

(** C32: when a process dies its record leaves the map and the recent list, its
    client is dropped and no other record changes; it is put down to be started
    again exactly when it is kept alive and has restarts left. *)
Theorem OnRemoteDied_forgets s ar a remote :
  reachable s → 0 ≤ am_created s ≤ INT_MAX → am_apps s !! ar = Some a →
  app_by s (λ a, bool_decide (GetApplicationClient a = Some remote)) = Some ar →
  ∃ s', event (ERemoteDied remote false) s = Returned (tt, s') ∧
    (∀ id ar', (id, ar') ∈ appRunningRecordMap_ s' ↔ (id, ar') ∈ appRunningRecordMap_ s ∧ ar' ≠ ar) ∧
    (a_recordId a ∉ (ti_recordId <$> recentAppList_ s')) ∧
    (∃ a', am_apps s' !! ar = Some a' ∧ GetApplicationClient a' = None) ∧
    (∀ ar', ar' ≠ ar → am_apps s' !! ar' = am_apps s !! ar') ∧
    am_restarts s' = am_restarts s ++ (if a_isKeepAlive a && (1 <? a_restartCount a) then [ar] else []).
Proof.
  intros Hr Hc Ha Hby. pose proof (reachable_session _ Hr) as Hs. pose proof (session_ok _ Hs) as Hok.
  destruct (wp_run _ _ _ (wp_OnRemoteDied kill s ar a remote Hok Ha Hby)) as ([] & s' & E & Hd & Ho & Hm & Hrec & Hre).
  exists s'. split; [exact E|]. split_and!; try done.
  - intros id ar'. rewrite Hm, list_elem_of_In, filter_In, <- list_elem_of_In, negb_true_iff, bool_decide_eq_false. done.
  - rewrite Hrec. intros (t & Et & Ht)%list_elem_of_fmap. pose proof (tb_recent _ (ao_tables _ Hok) Hc) as Hn.
    apply (NoDup_erase_id _ (a_recordId a) Hn). apply list_elem_of_fmap. by exists t.
  - rewrite Hre. unfold restarts_of. replace (0 <? Z.pred (a_restartCount a)) with (1 <? a_restartCount a); [done|].
    destruct (Z.ltb_spec 1 (a_restartCount a)), (Z.ltb_spec 0 (Z.pred (a_restartCount a))); lia.
Qed.

(** A SPECIFIED ability that is started while the process it is to run in has
    not attached makes the service follow the null pointer to the client of the
    process. *)
Theorem specified_before_attach s w i ar :
  reachable s → specified_app GetBundleInfo GetHapModuleInfo s i = Some ar → attached_now s ar = false →
  event (EStartSpecifiedAbility w i) s = Thrown.
Proof.
  intros Hr Hex Hno. pose proof (reachable_session _ Hr) as Hs. apply unsafe_throws; [done|]. cbn. by rewrite Hex.
Qed.

(** A process that reports that it is in the foreground after one of the
    abilities that wait for it has been terminated makes the service follow the null
    pointer to the module of that ability. *)
Theorem foregrounded_after_terminate s recordId ar a token :
  reachable s → map_find recordId (appRunningRecordMap_ s) = Some ar → am_apps s !! ar = Some a → token ∈ a_foregrounding a →
  module_holding s (has_token token) a = None → event (EApplicationForegrounded recordId) s = Thrown.
Proof.
  intros Hr Hid Ha Hin Hno. pose proof (reachable_session _ Hr) as Hs. apply unsafe_throws; [done|]. cbn. rewrite Hid.
  unfold tokens_there. rewrite Ha. apply not_true_iff_false. intros H. rewrite forallb_forall in H.
  specialize (H token). rewrite <- list_elem_of_In in H. specialize (H Hin). apply bool_decide_eq_true in H as [mr H]. congruence.
Qed.

(** When the bundle manager does not know the bundle as a process is to be
    started, the record of the process stays although nothing runs: the next ability
    of the application joins it, and is neither spawned nor launched. *)
Theorem unspawned_process_blocks s token preToken i app want bi h token2 preToken2 i2 want2 h2 :
  reachable s → 0 ≤ am_created s < INT_MAX →
  CheckLoadabilityConditions (Some token) (Some i) (Some app) = true →
  CheckLoadabilityConditions (Some token2) (Some i2) (Some app) = true →
  bundle_of i app = Some (bi, h) → bundle_of i2 app = Some (bi, h2) →
  MakeProcessName i app h ≠ "" → MakeProcessName i2 app h2 = MakeProcessName i app h →
  existing s (api_name app) (MakeProcessName i app h) (api_uid app) bi = None →
  GetBundleInfos (GetUserIdByUid (api_uid app)) = None ∨ GetBundleGidsByUid (api_bundleName app) (api_uid app) = false →
  ∃ s1 s2 ar a, event (ELoadAbility (Some token) preToken (Some i) (Some app) want) s = Returned (tt, s1) ∧
    event (ELoadAbility (Some token2) preToken2 (Some i2) (Some app) want2) s1 = Returned (tt, s2) ∧
    am_trace s2 = am_trace s ∧ am_apps s2 !! ar = Some a ∧ a_state a = APP_STATE_CREATE ∧
    map_find (Z.succ (am_created s)) (appRunningRecordMap_ s1) = Some ar.
Proof.
  intros Hr Hc Hc1 Hc2 Hb1 Hb2 Hne Hsame Hnone Hfail. pose proof (reachable_session _ Hr) as Hs.
  assert (wrap_i32 (Z.succ (am_created s)) = Z.succ (am_created s)) as Ew by (apply wrap_i32_id; unfold INT_MAX in *; lia).
  assert (wp (load uninitialized_uid APPSPAWN_COLD_BOOT GetBundleInfo GetHapModuleInfo GetBundleInfos GetBundleGidsByUid spawn
    token preToken i app want) (λ _ s1, session s1 ∧ ∃ ar a, existing s1 (api_name app) (MakeProcessName i app h) (api_uid app) bi = Some ar ∧
      am_apps s1 !! ar = Some a ∧ a_state a = APP_STATE_CREATE ∧ am_trace s1 = am_trace s ∧
      map_find (Z.succ (am_created s)) (appRunningRecordMap_ s1) = Some ar) s)
    as ([] & s1 & Er1 & Hs1 & ar & a & Hex & Ha & Est & Et & Ef)%wp_run.
  { apply wp_and; [by apply wp_LoadAbility|]. eapply wp_load_first; [done..|]. intros ar mr br a m b s1 Hf [Hsg Ht _ Em Ho] _.
    assert (∀ Q, Q tt s1 → wp (StartProcess GetBundleInfos GetBundleGidsByUid spawn (abi_applicationName i) (MakeProcessName i app h)
      (start_flags APPSPAWN_COLD_BOOT i want) ar (api_uid app) (api_bundleName app)) Q s1) as Hno.
    { intros Q HQ. unfold StartProcess. destruct Hfail as [-> | Hg]; [by apply wp_ret|].
      destruct (GetBundleInfos _); [|by apply wp_ret]. destruct (List.find _ _); [|by apply wp_ret]. rewrite Hg. by apply wp_ret. }
    apply Hno. exists ar, a. split_and!; [|apply Hsg|apply Hf|done|].
    - eapply existing_new; done.
    - rewrite Em, Ew. apply NoDup_find; [apply NoDup_emplace, Hs|]. rewrite elem_of_emplace; [by left|]. rewrite <- Ew. by apply fresh_id. }
  destruct (wp_run _ _ _ (wp_LoadAbility uninitialized_uid APPSPAWN_COLD_BOOT GetBundleInfo GetHapModuleInfo GetBundleInfos
    GetBundleGidsByUid spawn s1 (Some token2) preToken2 (Some i2) (Some app) want2 Hs1)) as ([] & s2 & Er2 & _).
  assert (dormant ar s1 s2) as [Ht2 Hst2].
  { revert Er2. unfold LoadAbility. rewrite Hc2. cbn [negb]. rewrite Hb2, Hsame. rewrite (bind_run _ _ _ _ _ (run_existing _ _ _ _ _ (session_ok _ Hs1))), Hex.
    by apply (dormant_StartAbility s1 ar a). }
  destruct (Hst2 _ Ha) as (a2 & Ha2 & Est2). exists s1, s2, ar, a2. split_and!; [exact Er1|exact Er2|congruence|done|congruence|done].
Qed.
End claims.

(** * Instances *)

Lemma apps_consistent_witness : ∃ s, s = after demo_GetBundleInfos foregrounding ∧ appRunningRecordMap_ s ≠ [] ∧ session s ∧
  ∃ s', demo_event demo_GetBundleInfos (EApplicationForegrounded 1) s = Returned (tt, s') ∧ session s'.
Proof.
  exists (after demo_GetBundleInfos foregrounding). split; [reflexivity|]. split; [vm_compute; congruence|].
  assert (demo_reachable demo_GetBundleInfos (after demo_GetBundleInfos foregrounding)) as Hr
    by (apply after_reachable; vm_compute; reflexivity).
  destruct (apps_consistent _ _ _ _ _ _ _ _ _ _ _ _ _ Hr) as [Hs He]. split; [exact Hs|].
  specialize (He (EApplicationForegrounded 1) eq_refl). vm_compute (app_event_safe _ _ _ _) in He. exact He.
Defined.

Lemma first_ability_launched_witness : ∃ s1 s2 ar a,
  demo_event demo_GetBundleInfos (load_ability 11 "Main" STANDARD) (after demo_GetBundleInfos registered) = Returned (tt, s1) ∧
  demo_event demo_GetBundleInfos (EAttachApplication 101 (Some 50%positive)) s1 = Returned (tt, s2) ∧
  map_find 1 (appRunningRecordMap_ s2) = Some ar ∧ am_apps s2 !! ar = Some a ∧ a_state a = APP_STATE_READY.
Proof.
  assert (demo_reachable demo_GetBundleInfos (after demo_GetBundleInfos registered)) as Hr
    by (apply after_reachable; vm_compute; reflexivity).
  destruct (first_ability_launched _ _ _ _ _ _ _ _ _ _ _ _ _ 11 None (demo_ability "Main" STANDARD) demo_app None
    demo_bundle demo_hap [demo_bundle] demo_bundle 101 50 Hr) as (s1 & s2 & ar & a & H1 & H2 & H3 & H4 & H5 & _).
  1: { vm_compute. split; congruence. }
  1-9: by vm_compute.
  1: { vm_compute. reflexivity. }
  exists s1, s2, ar, a. split; [exact H1|]. split; [exact H2|]. split; [exact H3|]. split; [exact H4|exact H5].
Defined.

Lemma ending_process_left_alone_witness : ∃ ar a s',
  am_apps (after demo_GetBundleInfos (attached_events ++ [EPrepareTerminate (Some 11%positive)])) !! ar = Some a ∧ a_isTerminating a = true ∧
  demo_event demo_GetBundleInfos (load_ability 12 "Second" STANDARD)
    (after demo_GetBundleInfos (attached_events ++ [EPrepareTerminate (Some 11%positive)])) = Returned (tt, s') ∧
  am_apps s' !! ar = Some a.
Proof.
  set (s := after _ _).
  assert (demo_reachable demo_GetBundleInfos s) as Hr by (apply after_reachable; vm_compute; reflexivity).
  destruct (lookup_is_some (am_apps s !! 1%positive)) as [a Ha]; [vm_compute; reflexivity|].
  assert (a_isTerminating a = true) as Ht by (apply (lookup_field _ _ _ _ Ha); vm_compute; reflexivity).
  destruct (ending_process_left_alone _ _ _ _ _ _ _ _ _ _ _ _ s (load_ability 12 "Second" STANDARD) 1 a Hr Ha) as (s' & H1 & H2).
  - rewrite Ht. reflexivity.
  - vm_compute. reflexivity.
  - exact I.
  - exists 1%positive, a, s'. split; [exact Ha|]. split; [exact Ht|]. split; [exact H1|exact H2].
Defined.

Lemma OnRemoteDied_forgets_witness : ∃ s', demo_event demo_GetBundleInfos (ERemoteDied 50 false) (after demo_GetBundleInfos foregrounding)
  = Returned (tt, s') ∧ (∀ id ar', (id, ar') ∈ appRunningRecordMap_ s' ↔
      (id, ar') ∈ appRunningRecordMap_ (after demo_GetBundleInfos foregrounding) ∧ ar' ≠ 1%positive).
Proof.
  set (s := after _ _).
  assert (demo_reachable demo_GetBundleInfos s) as Hr by (apply after_reachable; vm_compute; reflexivity).
  destruct (lookup_is_some (am_apps s !! 1%positive)) as [a Ha]; [vm_compute; reflexivity|].
  destruct (OnRemoteDied_forgets _ _ _ _ _ _ _ _ _ _ _ _ s 1 a 50 Hr) as (s' & H1 & H2 & _).
  - vm_compute. split; congruence.
  - exact Ha.
  - vm_compute. reflexivity.
  - exists s'. split; [exact H1|exact H2].
Defined.

Lemma specified_before_attach_witness :
  demo_event demo_GetBundleInfos (EStartSpecifiedAbility emptyWant (demo_ability "Special" SPECIFIED))
    (after demo_GetBundleInfos [EStartSpecifiedAbility emptyWant (demo_ability "Special" SPECIFIED)]) = Thrown.
Proof.
  apply (specified_before_attach _ _ _ _ _ _ _ _ _ _ _ _ _ _ _ 1%positive).
  - apply after_reachable. vm_compute. reflexivity.
  - vm_compute. reflexivity.
  - vm_compute. reflexivity.
Defined.

Lemma foregrounded_after_terminate_witness :
  demo_event demo_GetBundleInfos (EApplicationForegrounded 1)
    (after demo_GetBundleInfos (foregrounding ++ [ETerminateAbility (Some 11%positive)])) = Thrown.
Proof.
  set (s := after _ _). destruct (lookup_is_some (am_apps s !! 1%positive)) as [a Ha]; [vm_compute; reflexivity|].
  apply (foregrounded_after_terminate _ _ _ _ _ _ _ _ _ _ _ _ _ 1 1%positive a 11).
  - apply after_reachable. vm_compute. reflexivity.
  - vm_compute. reflexivity.
  - exact Ha.
  - assert (a_foregrounding a = [11%positive]) as E by (apply (lookup_field _ _ _ _ Ha); vm_compute; reflexivity).
    rewrite E. left.
  - apply (lookup_field (module_holding s (has_token 11)) _ _ _ Ha). vm_compute. reflexivity.
Defined.

Lemma unspawned_process_blocks_witness : ∃ s1 s2,
  demo_event no_GetBundleInfos (load_ability 11 "Main" STANDARD) (after no_GetBundleInfos registered) = Returned (tt, s1) ∧
  demo_event no_GetBundleInfos (load_ability 12 "Second" STANDARD) s1 = Returned (tt, s2) ∧
  am_trace s2 = am_trace (after no_GetBundleInfos registered).
Proof.
  assert (demo_reachable no_GetBundleInfos (after no_GetBundleInfos registered)) as Hr
    by (apply after_reachable; vm_compute; reflexivity).
  destruct (unspawned_process_blocks _ _ _ _ _ _ _ _ _ _ _ _ _ 11 None (demo_ability "Main" STANDARD) demo_app None
    demo_bundle demo_hap 12 None (demo_ability "Second" STANDARD) None demo_hap Hr) as (s1 & s2 & ar & a & H1 & H2 & H3 & _).
  1: { vm_compute. split; congruence. }
  1: by vm_compute.
  1: by vm_compute.
  1: by vm_compute.
  1: by vm_compute.
  1: by vm_compute.
  1: by vm_compute.
  1: by vm_compute.
  1: left; reflexivity.
  exists s1, s2. split; [exact H1|]. split; [exact H2|exact H3].
Defined.
