(* ===== verification/FormLimiter.v ===== *)
(** [FormRefreshLimiter] (form_runtime/services/src/form_refresh_limiter.cpp): how
    often timers have refreshed a form since the limits were last reset, and which
    forms are to be refreshed once more when they are. *)

From S2P Require Import Prelude StdMap.

#[local] Open Scope stdpp_scope.
#[local] Open Scope Z_scope.

(** * Data *)

Record LimitInfo := mkLimit { refreshCount : Z; isReported : bool; remindFlag : bool }.
#[export] Instance LimitInfo_eta : Eta LimitInfo := λ x, mkLimit (refreshCount x) (isReported x) (remindFlag x).
#[export] Instance LimitInfo_eq_dec : EqDecision LimitInfo.
Proof. solve_decision. Defined.

Definition LIMIT_COUNT : Z := 50.
Definition new_limit : LimitInfo := mkLimit 0 false false.

#[global] Abbreviation Limiter := (list (Z * LimitInfo)) (only parsing).   (* limiterMap_ *)

(** * Operations *)

Definition AddItem (formId : Z) (m : Limiter) : Limiter := map_emplace formId new_limit m.
Definition DeleteItem (formId : Z) (m : Limiter) : Limiter := map_erase formId m.
Definition ResetLimit (m : Limiter) : Limiter := map_change (λ _ _, new_limit) m.

(** Sets [isReported] when the count stands at the limit and has not been reported. *)
Definition report_limit (i : LimitInfo) : LimitInfo :=
  if (refreshCount i =? LIMIT_COUNT) && negb (isReported i) then i <| isReported := true |> else i.

Definition IsEnableRefresh (formId : Z) (m : Limiter) : bool * Limiter :=
  match map_find formId m with
  | None => (false, m)
  | Some i => (refreshCount i <? LIMIT_COUNT, map_alter report_limit formId m)
  end.

(** -1 for a form that is not there. *)
Definition GetRefreshCount (formId : Z) (m : Limiter) : Z :=
  match map_find formId m with Some i => refreshCount i | None => -1 end.

Definition Increase (formId : Z) (m : Limiter) : Limiter :=
  map_alter (λ i, report_limit (i <| refreshCount ::= λ c, wrap_i32 (c + 1) |>)) formId m.

Definition MarkRemind (formId : Z) (m : Limiter) : Limiter :=
  map_alter (λ i, if LIMIT_COUNT <=? refreshCount i then i <| remindFlag := true |> else i) formId m.

Definition GetRemindList (m : Limiter) : list Z := (filter (λ e, remindFlag e.2 = true) m).*1.

Definition GetRemindListAndResetLimit (m : Limiter) : list Z * Limiter := (GetRemindList m, ResetLimit m).

Definition GetItemCount (m : Limiter) : Z := Z.of_nat (length m).

(** * What a history of operations amounts to *)

Inductive LimiterOp :=
  | LAdd (formId : Z) | LDelete (formId : Z) | LReset | LIsEnable (formId : Z) | LIncrease (formId : Z)
  | LMark (formId : Z).

Definition limiter_step (m : Limiter) (o : LimiterOp) : Limiter :=
  match o with
  | LAdd f => AddItem f m
  | LDelete f => DeleteItem f m
  | LReset => (GetRemindListAndResetLimit m).2
  | LIsEnable f => (IsEnableRefresh f m).2
  | LIncrease f => Increase f m
  | LMark f => MarkRemind f m
  end.

(** What is promised of one form, from the history alone: whether it is there, how
    often it was refreshed since it was added or the limits were reset, and whether
    it was asked to be reminded since when the limit was reached. *)
Definition limit_spec (f : Z) (x : option (nat * bool)) (o : LimiterOp) : option (nat * bool) :=
  match o with
  | LAdd g => if bool_decide (g = f) then Some (default (0%nat, false) x) else x
  | LDelete g => if bool_decide (g = f) then None else x
  | LReset => (λ _, (0%nat, false)) <$> x
  | LIsEnable _ => x
  | LIncrease g => if bool_decide (g = f) then (λ p, (S p.1, p.2)) <$> x else x
  | LMark g => if bool_decide (g = f) then (λ p, (p.1, p.2 || (50 <=? p.1)%nat)) <$> x else x
  end.
Definition limit_history (f : Z) (h : list LimiterOp) : option (nat * bool) := foldl (limit_spec f) None h.
Definition limiter_run (h : list LimiterOp) : Limiter := foldl limiter_step [] h.

(** * Lemmas *)

Section limiter.
Implicit Types (m : Limiter) (f g : Z) (i : LimitInfo).

Lemma limiter_step_nodup m o : NoDup (keys m) → NoDup (keys (limiter_step m o)).
Proof.
  intros H. destruct o; cbn [limiter_step GetRemindListAndResetLimit snd]; unfold ResetLimit, IsEnableRefresh, Increase, MarkRemind;
    rewrite ?keys_change, ?keys_alter; try done.
  - by apply NoDup_emplace.
  - by apply NoDup_erase.
  - destruct (map_find _ _); cbn [snd]; by rewrite ?keys_alter.
Qed.

(** What the record of a form says of its history. *)
Definition limit_agrees (n : nat) (i : option LimitInfo) (x : option (nat * bool)) : Prop :=
  match i, x with
  | None, None => True
  | Some i, Some (c, r) => refreshCount i = Z.of_nat c ∧ remindFlag i = r ∧ (c ≤ n)%nat
  | _, _ => False
  end.

Lemma agrees_report n i c r : limit_agrees n (Some i) (Some (c, r)) → limit_agrees n (Some (report_limit i)) (Some (c, r)).
Proof. intros (H1 & H2 & H3). unfold report_limit. by destruct (_ && _). Qed.

Lemma limiter_step_agrees n m o f x : Z.of_nat n < INT_MAX → limit_agrees n (map_find f m) x →
  limit_agrees (S n) (map_find f (limiter_step m o)) (limit_spec f x o).
Proof.
  intros Hn H.
  assert (limit_agrees (S n) (map_find f m) x) as H'.
  { destruct (map_find f m), x as [[c r]|]; cbn in *; try done. destruct H as (? & ? & ?). split_and!; [done..|lia]. }
  destruct o as [g|g| |g|g|g]; cbn [limiter_step GetRemindListAndResetLimit snd limit_spec].
  - unfold AddItem. rewrite map_find_emplace. destruct (bool_decide (g = f)); [|done].
    destruct (map_find f m), x as [[c r]|]; try done. cbn. split_and!; [done..|lia].
  - unfold DeleteItem. case_bool_decide as E; [subst; by rewrite map_find_erase|by rewrite map_find_erase_ne].
  - unfold ResetLimit. rewrite map_find_change. destruct (map_find f m), x as [[c r]|]; try done. cbn. split_and!; [done..|lia].
  - unfold IsEnableRefresh. destruct (map_find g m) eqn:E; [|done]. cbn [snd]. rewrite map_find_alter. case_bool_decide; [|done].
    subst. rewrite E in *. destruct x as [[c r]|]; [|done]. by apply agrees_report.
  - unfold Increase. rewrite map_find_alter. rewrite (bool_decide_ext (f = g) (g = f)) by done.
    destruct (bool_decide (g = f)); [|done]. destruct (map_find f m) as [i|], x as [[c r]|]; try done.
    cbn [fmap option_fmap option_map fst snd]. apply agrees_report. destruct H as (H1 & H2 & H3). split_and!; [|done|lia].
    change (wrap_i32 (refreshCount i + 1) = Z.of_nat (S c)). rewrite H1, wrap_i32_id; unfold INT_MAX in *; lia.
  - unfold MarkRemind. rewrite map_find_alter. rewrite (bool_decide_ext (f = g) (g = f)) by done.
    destruct (bool_decide (g = f)); [|done]. destruct (map_find f m) as [i|], x as [[c r]|]; try done.
    destruct H' as (H1 & H2 & H3). cbn [fmap option_fmap option_map fst snd]. unfold LIMIT_COUNT.
    destruct (50 <=? refreshCount i) eqn:E1, (50 <=? c)%nat eqn:E2; cbn; rewrite ?H1, ?H2, ?orb_true_r, ?orb_false_r;
      split_and!; try done; rewrite ?Nat.leb_le, ?Nat.leb_gt in E2; lia.
Qed.

Lemma limiter_run_agrees h f : Z.of_nat (length h) ≤ INT_MAX → NoDup (keys (limiter_run h)) ∧
  limit_agrees (length h) (map_find f (limiter_run h)) (limit_history f h).
Proof.
  unfold limiter_run, limit_history. induction h as [|o h IH] using rev_ind; [split; [constructor|done]|].
  rewrite length_app, !foldl_snoc. cbn [length]. intros Hn. destruct IH as [IH1 IH2]; [lia|]. split; [by apply limiter_step_nodup|].
  rewrite Nat.add_1_r. apply limiter_step_agrees; [lia|done].
Qed.
End limiter.

(** * The limit *)

(** C18: whatever the operations were, the limiter answers from what happened to
    the form since it was added or the limits were reset: a timer may refresh it
    exactly while it was refreshed fewer than fifty times, its count is the number of
    those refreshes, or -1 when it is not there, and it is among the forms that a
    reset reminds of exactly when it was marked after the fiftieth. *)
Theorem limiter_refines h f : Z.of_nat (length h) ≤ INT_MAX →
  (IsEnableRefresh f (limiter_run h)).1 = match limit_history f h with Some (c, _) => (c <? 50)%nat | None => false end ∧
  GetRefreshCount f (limiter_run h) = match limit_history f h with Some (c, _) => Z.of_nat c | None => -1 end ∧
  (f ∈ (GetRemindListAndResetLimit (limiter_run h)).1 ↔ ∃ c, limit_history f h = Some (c, true)) ∧
  GetRefreshCount f (GetRemindListAndResetLimit (limiter_run h)).2 = match limit_history f h with Some _ => 0 | None => -1 end.
Proof.
  intros Hn. destruct (limiter_run_agrees h f Hn) as [Hnd Ha]. unfold IsEnableRefresh, GetRefreshCount.
  cbn [GetRemindListAndResetLimit fst snd]. unfold ResetLimit, GetRemindList. rewrite map_find_change.
  assert (f ∈ (filter (λ e, remindFlag e.2 = true) (limiter_run h)).*1 ↔ ∃ i, map_find f (limiter_run h) = Some i ∧ remindFlag i = true) as Hr.
  { rewrite list_elem_of_fmap. split.
    - intros ([g i] & -> & [Hf Hin]%list_elem_of_filter). exists i. split; [by apply NoDup_find|done].
    - intros (i & E & Hf). exists (f, i). split; [done|]. apply list_elem_of_filter. split; [done|]. by apply map_find_elem. }
  rewrite Hr. destruct (map_find f (limiter_run h)) as [i|], (limit_history f h) as [[c r]|]; try done; cbn [fst fmap option_fmap option_map].
  - destruct Ha as (H1 & H2 & H3). split_and!; [|done| |done].
    + rewrite H1. unfold LIMIT_COUNT. destruct (Z.ltb_spec (Z.of_nat c) 50), (Nat.ltb_spec c 50); lia.
    + split; [intros (? & [= <-] & E); exists c; congruence|intros (? & [= _ ->]); by exists i].
  - split_and!; try done. split; [by intros (? & ? & _)|by intros (? & ?)].
Qed.

Lemma limiter_refines_witness :
  let h := LAdd 7 :: repeat (LIncrease 7) 50 ++ [LMark 7] in
  (IsEnableRefresh 7 (limiter_run h)).1 = false ∧ 7 ∈ (GetRemindListAndResetLimit (limiter_run h)).1.
Proof.
  intros h. destruct (limiter_refines h 7) as (H1 & _ & H3 & _); [vm_compute; congruence|]. split.
  - rewrite H1. vm_compute. reflexivity.
  - apply H3. exists 50%nat. vm_compute. reflexivity.
Defined.
