(* ===== verification/FormTimer.v ===== *)
(** [FormTimerMgr] (form_runtime/services/src/form_timer_mgr.cpp): the timers that
    refresh forms - every so often, at a time of the day, or once after a while - and
    the alarms of the time service that drive them.

    A handler is one step, and the clock stands still within it. The time service,
    the want agents and the accounts are not under src/: what they answer is a
    parameter, and what they are asked goes to the trace. A want agent is the want
    it was made with. [long] has 64 bits. *)

From S2P Require Import Prelude StdMap FormLimiter.

#[local] Open Scope stdpp_scope.
#[local] Open Scope Z_scope.

(** * Data *)

Definition INT64_MAX : Z := 9223372036854775807.
Definition LONG_MAX : Z := INT64_MAX.
Definition wrap_i64 (z : Z) : Z := (z + 9223372036854775808) `mod` 18446744073709551616 - 9223372036854775808.
Definition wrap_u64 (z : Z) : Z := z `mod` 18446744073709551616.

Definition MIN_PERIOD : Z := 1800000.
Definition MAX_PERIOD : Z := 604800000.
Definition MIN_TIME : Z := 0.
Definition MAX_HOUR : Z := 23.
Definition MAX_MINUTE : Z := 59.
Definition MAX_SECOND : Z := 60.
Definition MIN_PER_HOUR : Z := 60.
Definition HOUR_PER_DAY : Z := 24.
Definition MS_PER_DAY : Z := 86400000.
Definition MS_PER_SECOND : Z := 1000.
Definition TIME_1000000 : Z := 1000000.
Definition ABS_TIME : Z := 5000.
Definition ABS_REFRESH_MS : Z := 2500.
Definition MIN_NEXT_TIME : Z := 300.
Definition MIN_TIME_SPEED : Z := 1.
Definition MAX_TIME_SPEED : Z := 1000.
Definition TYPE_RESET_LIMIT : Z := 1.
Definition TYPE_STATIC_UPDATE : Z := 2.
Definition TYPE_DYNAMIC_UPDATE : Z := 3.
Definition SHIFT_BIT_LENGTH : Z := 32.

Inductive UpdateType :=
  | TYPE_INTERVAL_CHANGE | TYPE_ATTIME_CHANGE | TYPE_INTERVAL_TO_ATTIME | TYPE_ATTIME_TO_INTERVAL | TYPE_INTERVAL_ONCE.

Record FormTimer := mkFormTimer {
  t_formId : Z;
  t_userId : Z;
  t_period : Z;
  t_hour : Z;
  t_min : Z;
  t_isUpdateAt : bool;
  t_refreshTime : Z;
  t_isEnable : bool;
  t_isCountTimer : bool;
}.
#[export] Instance FormTimer_eta : Eta FormTimer := λ x, mkFormTimer (t_formId x) (t_userId x) (t_period x) (t_hour x)
  (t_min x) (t_isUpdateAt x) (t_refreshTime x) (t_isEnable x) (t_isCountTimer x).

(** The constructors of [FormTimer]. *)
Definition noFormTimer : FormTimer := mkFormTimer (-1) (-1) (-1) (-1) (-1) false INT64_MAX true false.
Definition countFormTimer (id : Z) (countTimer : bool) (uId : Z) : FormTimer :=
  mkFormTimer id uId (-1) (-1) (-1) false INT64_MAX true countTimer.
Definition intervalFormTimer (id repeatTime uId : Z) : FormTimer :=
  mkFormTimer id uId repeatTime (-1) (-1) false INT64_MAX true true.
Definition atFormTimer (id hourTime minTime uId : Z) : FormTimer :=
  mkFormTimer id uId (-1) hourTime minTime true INT64_MAX true false.

Record UpdateAtItem := mkAtItem { updateAtTime : Z; refreshTask : FormTimer }.
#[export] Instance UpdateAtItem_eta : Eta UpdateAtItem := λ x, mkAtItem (updateAtTime x) (refreshTask x).
Definition noUpdateAtItem : UpdateAtItem := mkAtItem (-1) noFormTimer.

Record DynamicRefreshItem := mkDynamic { dy_formId : Z; dy_settedTime : Z; dy_userId : Z }.
#[export] Instance DynamicRefreshItem_eta : Eta DynamicRefreshItem := λ x, mkDynamic (dy_formId x) (dy_settedTime x) (dy_userId x).

Record FormTimerCfg := mkTimerCfg { enableUpdate : bool; updateDuration : Z; updateAtHour : Z; updateAtMin : Z }.

(** The parameters of a timer's want that the receiver reads, each if it is there. *)
Record TimerWant := mkTimerWant {
  tw_type : option Z;
  tw_wakeup : option Z;
  tw_left : option Z;
  tw_right : option Z;
}.

Inductive TimerEffect :=
  | GetAgent (w : TimerWant) (userId : option Z)
  | CancelAgent (w : TimerWant)
  | CreateTimer
  | StartTimer (id time : Z)
  | StopTimer (id : Z)
  | DestroyTimer (id : Z)
  | RegisterInterval (period : Z)
  | ShutdownInterval
  | RefreshForm (formId : Z) (isTimer : bool) (userId : option Z).

Record FormTimers := mkTimers {
  refreshLimiter_ : Limiter;
  intervalTimerTasks_ : list (Z * FormTimer);
  updateAtTimerTasks_ : list UpdateAtItem;
  dynamicRefreshTasks_ : list DynamicRefreshItem;
  timeSpeed_ : Z;
  intervalTimer_ : bool;
  updateAtTimerId_ : Z;
  dynamicAlarmTimerId_ : Z;
  limiterTimerId_ : Z;
  currentUpdateAtWantAgent : option TimerWant;
  currentDynamicWantAgent : option TimerWant;
  currentLimiterWantAgent : option TimerWant;
  dynamicWakeUpTime_ : Z;
  atTimerWakeUpTime_ : Z;
  ft_trace : list TimerEffect;
}.
#[export] Instance FormTimers_eta : Eta FormTimers := λ x, mkTimers (refreshLimiter_ x) (intervalTimerTasks_ x) (updateAtTimerTasks_ x)
  (dynamicRefreshTasks_ x) (timeSpeed_ x) (intervalTimer_ x) (updateAtTimerId_ x) (dynamicAlarmTimerId_ x) (limiterTimerId_ x)
  (currentUpdateAtWantAgent x) (currentDynamicWantAgent x) (currentLimiterWantAgent x) (dynamicWakeUpTime_ x) (atTimerWakeUpTime_ x)
  (ft_trace x).

Definition new_timers : FormTimers :=
  mkTimers [] [] [] [] 1 false 0 0 0 None None None INT64_MAX LONG_MAX [].

(** What the clocks say: [CLOCK_REALTIME] in nanoseconds, the steady clock in
    milliseconds, the hour and minute of the local time if there is one, and the
    milliseconds since the epoch of an hour, minute and second of this day. *)
Record Clock := mkClock {
  ck_nanoseconds : Z;
  ck_steady : Z;
  ck_localtime : option (Z * Z);
  ck_mktime : Z → Z → Z → Z;
}.
Definition GetCurrentNanosecond (ck : Clock) : Z := ck_nanoseconds ck.
Definition GetCurrentMillisecond (ck : Clock) : Z := Z.quot (ck_nanoseconds ck) 1000000.
Definition GetMillisecondFromTm (ck : Clock) (hour min sec : Z) : Z := ck_mktime ck hour min sec.

#[local] Abbreviation M := (ST FormTimers).

Definition timer_emit (e : TimerEffect) : M unit := modify (λ s, s <| ft_trace ::= λ t, t ++ [e] |>).

(** An operation of the limiter. *)
Definition with_limiter {A} (f : Limiter → A * Limiter) : M A := λ s,
  Returned ((f (refreshLimiter_ s)).1, s <| refreshLimiter_ := (f (refreshLimiter_ s)).2 |>).

Section timers.
(** Whether an agent can be made, the id of a new timer and whether it starts, after
    what was asked so far; and who is active. *)
Context (agent_made : list TimerEffect → bool) (timer_id : list TimerEffect → Z) (timer_starts : list TimerEffect → bool).
Context (QueryActiveOsAccountIds : list TimerEffect → option (list Z)).

(** ** Calls of the time service *)

Definition GetWantAgent (w : TimerWant) (userId : option Z) : M (option TimerWant) :=
  made ← gets (λ s, agent_made (ft_trace s));
  _ ← timer_emit (GetAgent w userId);
  mret (if made : bool then Some w else None).

Definition create_timer : M Z :=
  id ← gets (λ s, timer_id (ft_trace s)); _ ← timer_emit CreateTimer; mret id.
Definition start_timer (id time : Z) : M bool :=
  ok ← gets (λ s, timer_starts (ft_trace s)); _ ← timer_emit (StartTimer id (wrap_u64 time)); mret ok.
Definition destroy_timer (id : Z) : M unit := _ ← timer_emit (StopTimer id); timer_emit (DestroyTimer id).
Definition cancel (a : option TimerWant) : M unit :=
  match a with Some w => timer_emit (CancelAgent w) | None => mret tt end.

(** ** The alarm of the times of the day *)

Definition GetUpdateAtWantAgent (time userId : Z) : M (option TimerWant) :=
  GetWantAgent (mkTimerWant (Some TYPE_STATIC_UPDATE) (Some time) None None) (Some userId).

Definition ClearUpdateAtTimerResource : M unit :=
  id ← gets updateAtTimerId_;
  _ ← (if negb (id =? 0) then _ ← destroy_timer id; modify (λ s, s <| updateAtTimerId_ := 0 |>) else mret tt);
  a ← gets currentUpdateAtWantAgent;
  _ ← cancel a;
  modify (λ s, s <| currentUpdateAtWantAgent := None |>).

(** The next time of the day after [nowTime], or the first one. *)
Definition FindNextAtTimerItem (nowTime : Z) (l : list UpdateAtItem) : option UpdateAtItem :=
  match l with
  | [] => None
  | first :: _ => Some (default first (List.find (λ i, nowTime <? updateAtTime i) l))
  end.

Definition UpdateAtTimerAlarm (ck : Clock) : M bool :=
  match ck_localtime ck with
  | None => mret false
  | Some (hour, min) =>
      let nowAtTime := hour * MIN_PER_HOUR + min in
      let currentTime := GetCurrentMillisecond ck in
      tasks ← gets updateAtTimerTasks_;
      match FindNextAtTimerItem nowAtTime tasks with
      | None =>
          if negb (Nat.eqb (length tasks) 0) then mret true
          else
            _ ← ClearUpdateAtTimerResource;
            _ ← modify (λ s, s <| atTimerWakeUpTime_ := LONG_MAX |>);
            mret true
      | Some found =>
          let selectTime := GetMillisecondFromTm ck (t_hour (refreshTask found)) (t_min (refreshTask found)) 0 in
          let late := selectTime <? currentTime in
          let nextWakeUpTime := if late then updateAtTime found + HOUR_PER_DAY * MIN_PER_HOUR else updateAtTime found in
          let selectTime := if late then selectTime + MS_PER_DAY else selectTime in
          wakeUp ← gets atTimerWakeUpTime_;
          if nextWakeUpTime =? wakeUp then mret true
          else
            x ← GetUpdateAtWantAgent (updateAtTime found) (t_userId (refreshTask found));
            match x with
            | None => mret false
            | Some wantAgent =>
                _ ← modify (λ s, s <| atTimerWakeUpTime_ := nextWakeUpTime |>);
                current ← gets currentUpdateAtWantAgent;
                _ ← match current with Some _ => ClearUpdateAtTimerResource | None => mret tt end;
                _ ← modify (λ s, s <| currentUpdateAtWantAgent := Some wantAgent |>);
                id ← create_timer;
                _ ← modify (λ s, s <| updateAtTimerId_ := id |>);
                start_timer id (ck_steady ck + (selectTime - currentTime))
            end
      end
  end.

(** ** The alarm that resets the limits *)

Definition GetLimiterWantAgent : M (option TimerWant) :=
  GetWantAgent (mkTimerWant (Some TYPE_RESET_LIMIT) None None None) None.

Definition drop_limiter_timer : M unit :=
  id ← gets limiterTimerId_;
  if negb (id =? 0) then _ ← destroy_timer id; modify (λ s, s <| limiterTimerId_ := 0 |>) else mret tt.

Definition ClearLimiterTimerResource : M unit :=
  _ ← drop_limiter_timer;
  a ← gets currentLimiterWantAgent;
  _ ← cancel a;
  modify (λ s, s <| currentLimiterWantAgent := None |>).

Definition UpdateLimiterAlarm (ck : Clock) : M bool :=
  _ ← drop_limiter_timer;
  match ck_localtime ck with
  | None => mret false
  | Some _ =>
      let limiterWakeUpTime := GetMillisecondFromTm ck MAX_HOUR MAX_MINUTE MAX_SECOND in
      x ← GetLimiterWantAgent;
      match x with
      | None => mret false
      | Some wantAgent =>
          current ← gets currentLimiterWantAgent;
          _ ← match current with Some _ => ClearLimiterTimerResource | None => mret tt end;
          _ ← modify (λ s, s <| currentLimiterWantAgent := Some wantAgent |>);
          id ← create_timer;
          _ ← modify (λ s, s <| limiterTimerId_ := id |>);
          start_timer id limiterWakeUpTime
      end
  end.

(** ** The alarm of the refreshes that were asked for *)

(** The time travels as two [int]s, the high and the low half. *)
Definition dynamic_want (nextTime : Z) : TimerWant :=
  mkTimerWant (Some TYPE_DYNAMIC_UPDATE) None (Some (wrap_i32 (Z.shiftr nextTime SHIFT_BIT_LENGTH))) (Some (wrap_i32 nextTime)).
Definition GetDynamicWantAgent (nextTime userId : Z) : M (option TimerWant) := GetWantAgent (dynamic_want nextTime) (Some userId).

Definition ClearDynamicResource : M unit :=
  id ← gets dynamicAlarmTimerId_;
  _ ← (if negb (id =? 0) then _ ← destroy_timer id; modify (λ s, s <| dynamicAlarmTimerId_ := 0 |>) else mret tt);
  a ← gets currentDynamicWantAgent;
  _ ← cancel a;
  modify (λ s, s <| currentDynamicWantAgent := None |>).

(** [CompareDynamicRefreshItem] puts the latest time first. [std::sort] may order
    equal times in any way; here it keeps their order. *)
Definition CompareDynamicRefreshItem (a b : DynamicRefreshItem) : bool := dy_settedTime b <? dy_settedTime a.
Definition sort_dynamic : M unit :=
  modify (λ s, s <| dynamicRefreshTasks_ ::= list_sort CompareDynamicRefreshItem |>).

Definition UpdateDynamicAlarm : M bool :=
  tasks ← gets dynamicRefreshTasks_;
  match tasks with
  | [] =>
      _ ← ClearDynamicResource;
      _ ← modify (λ s, s <| dynamicWakeUpTime_ := INT64_MAX |>);
      mret true
  | firstTask :: _ =>
      wakeUp ← gets dynamicWakeUpTime_;
      if wakeUp =? dy_settedTime firstTask then mret true
      else
        _ ← modify (λ s, s <| dynamicWakeUpTime_ := dy_settedTime firstTask |>);
        x ← GetDynamicWantAgent (dy_settedTime firstTask) (dy_userId firstTask);
        match x with
        | None => mret false
        | Some wantAgent =>
            current ← gets currentDynamicWantAgent;
            _ ← match current with Some _ => ClearDynamicResource | None => mret tt end;
            _ ← modify (λ s, s <| currentDynamicWantAgent := Some wantAgent |>);
            id ← create_timer;
            _ ← modify (λ s, s <| dynamicAlarmTimerId_ := id |>);
            _ ← start_timer id (dy_settedTime firstTask);
            mret true
        end
  end.

(** ** Timers *)

Definition EnsureInitIntervalTimer : M unit :=
  there ← gets intervalTimer_;
  if there : bool then mret tt
  else
    speed ← gets timeSpeed_;
    _ ← modify (λ s, s <| intervalTimer_ := true |>);
    timer_emit (RegisterInterval (Z.quot MIN_PERIOD speed)).

Definition ClearIntervalTimer : M unit :=
  there ← gets intervalTimer_;
  if there : bool then _ ← timer_emit ShutdownInterval; modify (λ s, s <| intervalTimer_ := false |>) else mret tt.

(** Before the first item with a later time; the front is looked at first. *)
Definition AddUpdateAtItem (atItem : UpdateAtItem) : M unit :=
  modify (λ s, s <| updateAtTimerTasks_ ::= insert_before (λ i, updateAtTime atItem <? updateAtTime i) atItem |>).

Definition AddUpdateAtTimer (ck : Clock) (task : FormTimer) : M bool :=
  tasks ← gets updateAtTimerTasks_;
  if existsb (λ i, t_formId (refreshTask i) =? t_formId task) tasks then mret true
  else
    _ ← AddUpdateAtItem (mkAtItem (t_hour task * MIN_PER_HOUR + t_min task) task);
    ok ← UpdateLimiterAlarm ck;
    if negb ok then mret false
    else
      ok ← UpdateAtTimerAlarm ck;
      if negb ok then mret false
      else _ ← with_limiter (λ m, (tt, AddItem (t_formId task) m)); mret true.

Definition AddIntervalTimer (ck : Clock) (task : FormTimer) : M bool :=
  _ ← EnsureInitIntervalTimer;
  tasks ← gets intervalTimerTasks_;
  match map_find (t_formId task) tasks with
  | Some _ => mret true
  | None =>
      _ ← modify (λ s, s <| intervalTimerTasks_ ::= map_emplace (t_formId task) task |>);
      ok ← UpdateLimiterAlarm ck;
      if negb ok then mret false
      else _ ← with_limiter (λ m, (tt, AddItem (t_formId task) m)); mret true
  end.

Definition valid_time (hour min : Z) : bool :=
  (MIN_TIME <=? hour) && (hour <=? MAX_HOUR) && (MIN_TIME <=? min) && (min <=? MAX_MINUTE).

Definition AddFormTimer (ck : Clock) (task : FormTimer) : M bool :=
  if t_isUpdateAt task then
    if valid_time (t_hour task) (t_min task) then AddUpdateAtTimer ck task else mret false
  else
    speed ← gets timeSpeed_;
    if (Z.quot MIN_PERIOD speed <=? t_period task) && (t_period task <=? Z.quot MAX_PERIOD speed) &&
       (Z.rem (t_period task) (Z.quot MIN_PERIOD speed) =? 0)
    then AddIntervalTimer ck task else mret false.

Definition AddFormTimer_interval (ck : Clock) (formId updateDuration userId : Z) : M bool :=
  speed ← gets timeSpeed_; AddFormTimer ck (intervalFormTimer formId (Z.quot updateDuration speed) userId).
Definition AddFormTimer_at (ck : Clock) (formId updateAtHour updateAtMin userId : Z) : M bool :=
  AddFormTimer ck (atFormTimer formId (wrap_i32 updateAtHour) (wrap_i32 updateAtMin) userId).

(** ** The next refresh *)

Definition SetIntervalEnableFlag (formId : Z) (flag : bool) : M unit :=
  modify (λ s, s <| intervalTimerTasks_ ::= map_alter (λ t, t <| t_isEnable := flag |>) formId |>).
(** The same without the mutex. *)
Definition SetEnableFlag (formId : Z) (flag : bool) : M unit := SetIntervalEnableFlag formId flag.

Definition is_dynamic (formId userId : Z) (i : DynamicRefreshItem) : bool :=
  (dy_formId i =? formId) && (dy_userId i =? userId).

(** The first item of the form gets the new time, or one is added. *)
Fixpoint set_dynamic (formId userId time : Z) (l : list DynamicRefreshItem) : list DynamicRefreshItem :=
  match l with
  | [] => [mkDynamic formId time userId]
  | i :: l' => if is_dynamic formId userId i then i <| dy_settedTime := time |> :: l' else i :: set_dynamic formId userId time l'
  end.

Definition next_refresh_time (ck : Clock) (nextGapTime speed : Z) : Z :=
  wrap_i64 (ck_steady ck + Z.quot (wrap_i64 (nextGapTime * MS_PER_SECOND)) speed).

Definition SetNextRefreshTime (ck : Clock) (formId nextGapTime userId : Z) : M bool :=
  if nextGapTime <? MIN_NEXT_TIME then mret false
  else
    speed ← gets timeSpeed_;
    _ ← modify (λ s, s <| dynamicRefreshTasks_ ::= set_dynamic formId userId (next_refresh_time ck nextGapTime speed) |>);
    _ ← sort_dynamic;
    ok ← UpdateDynamicAlarm;
    if negb ok then mret false
    else
      ok ← UpdateLimiterAlarm ck;
      if negb ok then mret false
      else
        _ ← with_limiter (λ m, (tt, AddItem formId m));
        _ ← SetEnableFlag formId false;
        mret true.

(** ** Changes of a timer *)

Definition valid_duration (d : Z) : bool :=
  negb ((d <? MIN_PERIOD) || (MAX_PERIOD <? d) || negb (Z.rem d MIN_PERIOD =? 0)).

Definition UpdateIntervalValue (formId : Z) (cfg : FormTimerCfg) : M bool :=
  if negb (valid_duration (updateDuration cfg)) then mret false
  else
    tasks ← gets intervalTimerTasks_;
    match map_find formId tasks with
    | None => mret false
    | Some _ =>
        speed ← gets timeSpeed_;
        _ ← modify (λ s, s <| intervalTimerTasks_ ::=
              map_alter (λ t, t <| t_period := Z.quot (updateDuration cfg) speed |>) formId |>);
        mret true
    end.

Definition has_timer (formId : Z) (i : UpdateAtItem) : bool := t_formId (refreshTask i) =? formId.

(** Takes the first item of the form out of the list. Without one, the item is a
    new one, whose form id is -1. *)
Definition take_at_item (formId : Z) : M UpdateAtItem :=
  tasks ← gets updateAtTimerTasks_;
  _ ← modify (λ s, s <| updateAtTimerTasks_ ::= erase_first (has_timer formId) |>);
  mret (default noUpdateAtItem (List.find (has_timer formId) tasks)).

Definition UpdateAtTimerValue (ck : Clock) (formId : Z) (cfg : FormTimerCfg) : M bool :=
  if negb (valid_time (updateAtHour cfg) (updateAtMin cfg)) then mret false
  else
    changed ← take_at_item formId;
    if t_formId (refreshTask changed) =? 0 then mret false
    else
      let task := (refreshTask changed) <| t_hour := updateAtHour cfg |> <| t_min := updateAtMin cfg |> in
      _ ← AddUpdateAtItem (mkAtItem (updateAtHour cfg * MIN_PER_HOUR + updateAtMin cfg) task);
      UpdateAtTimerAlarm ck.

Definition IntervalToAtTimer (ck : Clock) (formId : Z) (cfg : FormTimerCfg) : M bool :=
  if negb (valid_time (updateAtHour cfg) (updateAtMin cfg)) then mret false
  else
    tasks ← gets intervalTimerTasks_;
    match map_find formId tasks with
    | None => mret false
    | Some t =>
        _ ← modify (λ s, s <| intervalTimerTasks_ ::= map_erase formId |>);
        AddUpdateAtTimer ck (t <| t_isUpdateAt := true |> <| t_hour := updateAtHour cfg |> <| t_min := updateAtMin cfg |>)
    end.

Definition AtTimerToIntervalTimer (ck : Clock) (formId : Z) (cfg : FormTimerCfg) : M bool :=
  if negb (valid_duration (updateDuration cfg)) then mret false
  else
    target ← take_at_item formId;
    ok ← UpdateAtTimerAlarm ck;
    if negb ok then mret false
    else if t_formId (refreshTask target) =? 0 then mret false
    else AddIntervalTimer ck ((refreshTask target) <| t_isUpdateAt := false |> <| t_period := updateDuration cfg |>
           <| t_refreshTime := INT64_MAX |>).

Definition UpdateFormTimer (ck : Clock) (formId : Z) (type : UpdateType) (cfg : FormTimerCfg) : M bool :=
  if negb (enableUpdate cfg) then mret false
  else
    match type with
    | TYPE_INTERVAL_CHANGE => UpdateIntervalValue formId cfg
    | TYPE_ATTIME_CHANGE => UpdateAtTimerValue ck formId cfg
    | TYPE_INTERVAL_TO_ATTIME => IntervalToAtTimer ck formId cfg
    | TYPE_ATTIME_TO_INTERVAL => AtTimerToIntervalTimer ck formId cfg
    | TYPE_INTERVAL_ONCE => mret false
    end.

(** ** The end of a timer *)

Definition DeleteIntervalTimer (formId : Z) : M bool :=
  tasks ← gets intervalTimerTasks_;
  _ ← modify (λ s, s <| intervalTimerTasks_ ::= map_erase formId |>);
  rest ← gets intervalTimerTasks_;
  _ ← match rest with [] => ClearIntervalTimer | _ => mret tt end;
  mret (bool_decide (is_Some (map_find formId tasks))).

Definition DeleteUpdateAtTimer (ck : Clock) (formId : Z) : M bool :=
  _ ← modify (λ s, s <| updateAtTimerTasks_ ::= erase_first (has_timer formId) |>);
  UpdateAtTimerAlarm ck.

(** The iterator of this loop, and of the one of [GetDynamicItem], does not move: it
    ends at once, at the first item, or never. *)
Fixpoint delete_dynamic (fuel : nat) (formId : Z) (l : list DynamicRefreshItem) : M unit :=
  match fuel with
  | O => λ _, OutOfFuel
  | S fuel =>
      match l with
      | [] => mret tt
      | i :: l' =>
          if dy_formId i =? formId then
            _ ← modify (λ s, s <| dynamicRefreshTasks_ := l' |>);
            match l' with [] => mret tt | next :: _ => SetIntervalEnableFlag (dy_formId next) true end
          else delete_dynamic fuel formId l
      end
  end.

Definition DeleteDynamicItem (fuel : nat) (formId : Z) : M bool :=
  l ← gets dynamicRefreshTasks_;
  _ ← delete_dynamic fuel formId l;
  _ ← sort_dynamic;
  UpdateDynamicAlarm.

Fixpoint get_dynamic (fuel : nat) (formId : Z) (l : list DynamicRefreshItem) : M (option DynamicRefreshItem) :=
  match fuel with
  | O => λ _, OutOfFuel
  | S fuel =>
      match l with
      | [] => mret None
      | i :: _ => if dy_formId i =? formId then mret (Some i) else get_dynamic fuel formId l
      end
  end.
Definition GetDynamicItem (fuel : nat) (formId : Z) : M (option DynamicRefreshItem) :=
  l ← gets dynamicRefreshTasks_; get_dynamic fuel formId l.

Definition RemoveFormTimer (fuel : nat) (ck : Clock) (formId : Z) : M bool :=
  there ← DeleteIntervalTimer formId;
  gone ← (if there : bool then mret true else DeleteUpdateAtTimer ck formId);
  if negb gone then mret false
  else
    ok ← DeleteDynamicItem fuel formId;
    if negb ok then mret false
    else _ ← with_limiter (λ m, (tt, DeleteItem formId m)); mret true.

Definition GetIntervalTimer (formId : Z) : M (option FormTimer) := gets (λ s, map_find formId (intervalTimerTasks_ s)).
Definition GetUpdateAtTimer (formId : Z) : M (option UpdateAtItem) :=
  gets (λ s, List.find (has_timer formId) (updateAtTimerTasks_ s)).

(** ** Refreshes *)

Definition IsActiveUser (userId : Z) : M bool :=
  ids ← gets (λ s, QueryActiveOsAccountIds (ft_trace s));
  mret (match ids with Some l => bool_decide (userId ∈ l) | None => false end).

(** The refresh itself is [FormProviderMgr::RefreshForm], on another thread. *)
Definition ExecTimerTask (t : FormTimer) : M unit :=
  active ← IsActiveUser (t_userId t);
  timer_emit (RefreshForm (t_formId t) (t_isCountTimer t) (if active : bool then Some (t_userId t) else None)).

Definition interval_due (now : Z) (t : FormTimer) : bool :=
  (t_refreshTime t =? INT64_MAX) || (t_period t <=? wrap_i64 (now - t_refreshTime t)) ||
  (Z.abs (wrap_i64 (wrap_i64 (now - t_refreshTime t) - t_period t)) <? ABS_TIME).

Fixpoint interval_loop (now : Z) (l : list (Z * FormTimer)) : M (list (Z * FormTimer) * list FormTimer) :=
  match l with
  | [] => mret ([], [])
  | (k, t) :: l' =>
      go ← (if interval_due now t && t_isEnable t then with_limiter (IsEnableRefresh (t_formId t)) else mret false);
      let t' := if go : bool then t <| t_refreshTime := now |> else t in
      '(rest, due) ← interval_loop now l';
      mret ((k, t') :: rest, if go : bool then t' :: due else due)
  end.

Definition OnIntervalTimeOut (ck : Clock) : M unit :=
  let currentTime := Z.quot (GetCurrentNanosecond ck) TIME_1000000 in
  tasks ← gets intervalTimerTasks_;
  '(tasks, updateList) ← interval_loop currentTime tasks;
  _ ← modify (λ s, s <| intervalTimerTasks_ := tasks |>);
  for_each ExecTimerTask updateList.

Definition OnUpdateAtTrigger (ck : Clock) (updateTime : Z) : M bool :=
  tasks ← gets updateAtTimerTasks_;
  let updateList := List.filter (λ i, (updateAtTime i =? updateTime) && t_isEnable (refreshTask i)) tasks in
  ok ← UpdateAtTimerAlarm ck;
  if negb ok then mret false
  else _ ← for_each (λ i, ExecTimerTask (refreshTask i)) updateList; mret true.

Fixpoint dynamic_loop (updateTime markedTime : Z) (l : list DynamicRefreshItem)
    : M (list DynamicRefreshItem * list FormTimer) :=
  match l with
  | [] => mret ([], [])
  | i :: l' =>
      if (dy_settedTime i <=? updateTime) || (dy_settedTime i <=? markedTime) then
        go ← with_limiter (IsEnableRefresh (dy_formId i));
        _ ← SetIntervalEnableFlag (dy_formId i) true;
        '(rest, due) ← dynamic_loop updateTime markedTime l';
        mret (rest, if go : bool then countFormTimer (dy_formId i) true (dy_userId i) :: due else due)
      else
        '(rest, due) ← dynamic_loop updateTime markedTime l';
        mret (i :: rest, due)
  end.

Definition OnDynamicTimeTrigger (ck : Clock) (updateTime : Z) : M bool :=
  tasks ← gets dynamicRefreshTasks_;
  '(tasks, updateList) ← dynamic_loop updateTime (ck_steady ck + ABS_REFRESH_MS) tasks;
  _ ← modify (λ s, s <| dynamicRefreshTasks_ := tasks |>);
  _ ← sort_dynamic;
  ok ← UpdateDynamicAlarm;
  if negb ok then mret false else _ ← for_each ExecTimerTask updateList; mret true.

Definition GetRemindTasks (ck : Clock) : M (option (list FormTimer)) :=
  remindList ← with_limiter GetRemindListAndResetLimit;
  let remindTasks := (λ id, countFormTimer id false 0) <$> remindList in
  ok ← UpdateLimiterAlarm ck;
  mret (if negb ok then None else match remindTasks with [] => None | _ => Some remindTasks end).

Definition HandleResetLimiter (ck : Clock) : M bool :=
  x ← GetRemindTasks ck;
  _ ← match x with Some remindTasks => for_each ExecTimerTask remindTasks | None => mret tt end;
  mret true.

Definition HandleSystemTimeChanged (ck : Clock) : M bool :=
  tasks ← gets updateAtTimerTasks_;
  _ ← match tasks with
      | [] => mret false
      | _ => _ ← modify (λ s, s <| atTimerWakeUpTime_ := LONG_MAX |>); UpdateAtTimerAlarm ck
      end;
  _ ← UpdateLimiterAlarm ck;
  mret true.

Definition SetTimeSpeed (ck : Clock) (timeSpeed : Z) : M unit :=
  _ ← modify (λ s, s <| timeSpeed_ := timeSpeed |>);
  _ ← HandleResetLimiter ck;
  ClearIntervalTimer.

(** ** Common events *)

Inductive CommonEvent :=
  | FMS_TIME_SPEED (code : Z)
  | TIME_CHANGED
  | ACTION_UPDATEATTIMER (w : TimerWant).

(** The two halves are put together again: the low one with its sign. *)
Definition dynamic_time (w : TimerWant) : Z :=
  Z.lor (wrap_i64 (Z.shiftl (default (-1) (tw_left w)) SHIFT_BIT_LENGTH)) (default (-1) (tw_right w)).

Definition OnReceiveEvent (ck : Clock) (e : CommonEvent) : M unit :=
  match e with
  | FMS_TIME_SPEED code => SetTimeSpeed ck (Z.max MIN_TIME_SPEED (Z.min code MAX_TIME_SPEED))
  | TIME_CHANGED => _ ← HandleSystemTimeChanged ck; mret tt
  | ACTION_UPDATEATTIMER w =>
      let type := default TYPE_STATIC_UPDATE (tw_type w) in
      if type =? TYPE_RESET_LIMIT then _ ← HandleResetLimiter ck; mret tt
      else if type =? TYPE_STATIC_UPDATE then
        let updateTime := default (-1) (tw_wakeup w) in
        if updateTime <? 0 then mret tt else _ ← OnUpdateAtTrigger ck updateTime; mret tt
      else if type =? TYPE_DYNAMIC_UPDATE then
        if dynamic_time w <=? 0 then mret tt else _ ← OnDynamicTimeTrigger ck (dynamic_time w); mret tt
      else mret tt
  end.
End timers.
