(* ===== verification/FormTimerRun.v ===== *)
(** What the handlers of [FormTimerMgr] keep: the lists of timers stay in order, the
    times valid, and the alarm of the refreshes that were asked for stands at the
    first item of their list. *)

From S2P Require Import Prelude StdMap FormLimiter FormTimer.

#[local] Open Scope stdpp_scope.
#[local] Open Scope Z_scope.

(** Computes the fields of an updated state. *)
Ltac timers_cbn := unfold update in *;
  cbn [refreshLimiter_ intervalTimerTasks_ updateAtTimerTasks_ dynamicRefreshTasks_ timeSpeed_ intervalTimer_ updateAtTimerId_
    dynamicAlarmTimerId_ limiterTimerId_ currentUpdateAtWantAgent currentDynamicWantAgent currentLimiterWantAgent dynamicWakeUpTime_
    atTimerWakeUpTime_ ft_trace] in *.

(** * What an alarm leaves alone *)

Definition aside (s s' : FormTimers) : Prop :=
  refreshLimiter_ s' = refreshLimiter_ s ∧ intervalTimerTasks_ s' = intervalTimerTasks_ s ∧
  updateAtTimerTasks_ s' = updateAtTimerTasks_ s ∧ dynamicRefreshTasks_ s' = dynamicRefreshTasks_ s ∧
  timeSpeed_ s' = timeSpeed_ s ∧ dynamicWakeUpTime_ s' = dynamicWakeUpTime_ s.
#[export] Instance aside_preorder : PreOrder aside.
Proof. split; [by repeat split|]. unfold aside. intros s1 s2 s3 H1 H2. split_hyps. split_and!; congruence. Qed.

Create HintDb timers.

(** One step of code that keeps aside. *)
Ltac aside_step := lazymatch goal with
  | |- keeps _ (mret _) _ => apply keeps_ret, _
  | |- keeps _ (modify _) _ => by repeat split
  | |- keeps _ (gets _ ≫= _) _ => apply keeps_gets
  | |- keeps _ (gets _) _ => by repeat split
  | |- keeps _ (mbind _ _) _ => apply keeps_bind; [apply _| |intros ? ? _ _]
  | |- keeps _ (match ?x with _ => _ end) _ => destruct x
  | |- keeps _ (let _ := _ in _) _ => cbv zeta
  end.
Ltac aside_steps := repeat first [solve [auto 1 with timers nocore] | aside_step].

Section alarms.
Context (agent_made : list TimerEffect → bool) (timer_id : list TimerEffect → Z) (timer_starts : list TimerEffect → bool).
Context (QueryActiveOsAccountIds : list TimerEffect → option (list Z)).
Implicit Types (s : FormTimers) (ck : Clock).

Lemma aside_emit e s : keeps aside (timer_emit e) s.
Proof. unfold timer_emit. aside_steps. Qed.
#[local] Hint Resolve aside_emit : timers.
Lemma aside_GetWantAgent w u s : keeps aside (GetWantAgent agent_made w u) s.
Proof. unfold GetWantAgent. aside_steps. Qed.
Lemma aside_create s : keeps aside (create_timer timer_id) s.
Proof. unfold create_timer. aside_steps. Qed.
Lemma aside_start id time s : keeps aside (start_timer timer_starts id time) s.
Proof. unfold start_timer. aside_steps. Qed.
Lemma aside_destroy id s : keeps aside (destroy_timer id) s.
Proof. unfold destroy_timer. aside_steps. Qed.
Lemma aside_cancel a s : keeps aside (cancel a) s.
Proof. unfold cancel. aside_steps. Qed.
#[local] Hint Resolve aside_GetWantAgent aside_create aside_start aside_destroy aside_cancel : timers.

Lemma aside_ClearUpdateAtTimerResource s : keeps aside ClearUpdateAtTimerResource s.
Proof. unfold ClearUpdateAtTimerResource. aside_steps. Qed.
Lemma aside_drop_limiter_timer s : keeps aside drop_limiter_timer s.
Proof. unfold drop_limiter_timer. aside_steps. Qed.
Lemma aside_ClearDynamicResource s : keeps aside ClearDynamicResource s.
Proof. unfold ClearDynamicResource. aside_steps. Qed.
#[local] Hint Resolve aside_ClearUpdateAtTimerResource aside_drop_limiter_timer aside_ClearDynamicResource : timers.
Lemma aside_ClearLimiterTimerResource s : keeps aside ClearLimiterTimerResource s.
Proof. unfold ClearLimiterTimerResource. aside_steps. Qed.
#[local] Hint Resolve aside_ClearLimiterTimerResource : timers.

Lemma aside_UpdateAtTimerAlarm ck s : keeps aside (UpdateAtTimerAlarm agent_made timer_id timer_starts ck) s.
Proof. unfold UpdateAtTimerAlarm, GetUpdateAtWantAgent. aside_steps. Qed.
Lemma aside_UpdateLimiterAlarm ck s : keeps aside (UpdateLimiterAlarm agent_made timer_id timer_starts ck) s.
Proof. unfold UpdateLimiterAlarm, GetLimiterWantAgent. aside_steps. Qed.
Lemma aside_EnsureInitIntervalTimer s : keeps aside EnsureInitIntervalTimer s.
Proof. unfold EnsureInitIntervalTimer. aside_steps. Qed.
Lemma aside_ClearIntervalTimer s : keeps aside ClearIntervalTimer s.
Proof. unfold ClearIntervalTimer. aside_steps. Qed.
Lemma aside_ExecTimerTask t s : keeps aside (ExecTimerTask QueryActiveOsAccountIds t) s.
Proof. unfold ExecTimerTask, IsActiveUser. aside_steps. Qed.
Lemma aside_refreshes {A} (f : A → FormTimer) l s : keeps aside (for_each (λ x, ExecTimerTask QueryActiveOsAccountIds (f x)) l) s.
Proof. apply keeps_for_each_from; [apply _|]. intros. apply aside_ExecTimerTask. Qed.
End alarms.
#[export] Hint Resolve aside_UpdateAtTimerAlarm aside_UpdateLimiterAlarm aside_EnsureInitIntervalTimer aside_ClearIntervalTimer
  aside_ExecTimerTask aside_ClearDynamicResource aside_emit aside_create aside_start aside_cancel aside_GetWantAgent : timers.

(** * The invariant *)

Definition at_ids (l : list UpdateAtItem) : list Z := filter (λ f, f ≠ -1) ((λ i, t_formId (refreshTask i)) <$> l).

Record at_ok (l : list UpdateAtItem) : Prop := {
  at_sorted : StronglySorted (λ a b, updateAtTime a ≤ updateAtTime b) l;
  at_times i : i ∈ l → valid_time (t_hour (refreshTask i)) (t_min (refreshTask i)) = true ∧
    updateAtTime i = t_hour (refreshTask i) * MIN_PER_HOUR + t_min (refreshTask i);
  at_unique : NoDup (at_ids l);
}.

Record interval_ok (l : list (Z * FormTimer)) : Prop := {
  iv_keys : map_sorted l;
  iv_tasks k t : (k, t) ∈ l → t_formId t = k ∧ 0 < t_period t ≤ MAX_PERIOD;
}.

Definition later_first (a b : DynamicRefreshItem) : Prop := dy_settedTime b ≤ dy_settedTime a.

Record timers_but (s : FormTimers) : Prop := {
  tm_interval : interval_ok (intervalTimerTasks_ s);
  tm_at : at_ok (updateAtTimerTasks_ s);
  tm_dynamic : StronglySorted later_first (dynamicRefreshTasks_ s);
  tm_speed : 1 ≤ timeSpeed_ s ≤ 1000;
}.

(** When the alarm of the refreshes that were asked for goes off. *)
Definition dynamic_wake (l : list DynamicRefreshItem) : Z :=
  match l with [] => INT64_MAX | i :: _ => dy_settedTime i end.

Definition timers_ok (s : FormTimers) : Prop :=
  timers_but s ∧ dynamicWakeUpTime_ s = dynamic_wake (dynamicRefreshTasks_ s).

Lemma timers_but_aside s s' : aside s s' → timers_but s → timers_but s'.
Proof. unfold aside. intros (_ & E1 & E2 & E3 & E4 & _) [H1 H2 H3 H4]. constructor; [rewrite E1|rewrite E2|rewrite E3|rewrite E4]; done. Qed.
Lemma timers_ok_aside s s' : aside s s' → timers_ok s → timers_ok s'.
Proof. intros H [H1 H2]. split; [by eapply timers_but_aside|].
  by destruct H as (_ & _ & _ & -> & _ & ->). Qed.

Lemma new_timers_ok : timers_ok new_timers.
Proof.
  split; [|done]. constructor; [constructor|constructor| |cbn; lia]; try (by intros *; rewrite ?elem_of_nil); apply SSorted_nil || constructor.
Qed.

(** ** Lists *)

Lemma at_ids_perm l l' : l ≡ₚ l' → at_ids l ≡ₚ at_ids l'.
Proof. intros H. unfold at_ids. by rewrite H. Qed.

Lemma elem_of_at_ids f l : f ∈ at_ids l ↔ f ≠ -1 ∧ ∃ i, i ∈ l ∧ t_formId (refreshTask i) = f.
Proof.
  unfold at_ids. rewrite list_elem_of_filter, list_elem_of_fmap. naive_solver.
Qed.

Lemma at_ids_sublist l l' : l `sublist_of` l' → NoDup (at_ids l') → NoDup (at_ids l).
Proof.
  intros H Hn. eapply sublist_NoDup; [exact Hn|]. clear Hn. unfold at_ids. induction H as [|i l l' H IH|i l l' H IH]; csimpl; [done| |].
  - rewrite !filter_cons. destruct (decide _); [by constructor|done].
  - rewrite filter_cons. destruct (decide _); [by constructor|done].
Qed.

Lemma at_ok_sublist l l' : l `sublist_of` l' → at_ok l' → at_ok l.
Proof.
  intros H [H1 H2 H3]. constructor; [by eapply StronglySorted_sublist| |by eapply at_ids_sublist].
  intros i Hi. apply H2. by eapply elem_of_sublist.
Qed.

Lemma at_ok_insert i l : at_ok l → valid_time (t_hour (refreshTask i)) (t_min (refreshTask i)) = true →
  updateAtTime i = t_hour (refreshTask i) * MIN_PER_HOUR + t_min (refreshTask i) →
  t_formId (refreshTask i) = -1 ∨ t_formId (refreshTask i) ∉ at_ids l →
  at_ok (insert_before (λ j, updateAtTime i <? updateAtTime j) i l).
Proof.
  intros [H1 H2 H3] Hv Ht Hid. constructor.
  - apply insert_before_sorted; [intros ? ? ?; lia| | |done]; cbn; intros x _; rewrite ?Z.ltb_lt, ?Z.ltb_ge; lia.
  - intros j. rewrite elem_of_insert_before. intros [->|Hj]; [done|by apply H2].
  - rewrite (at_ids_perm _ (i :: l)) by apply insert_before_perm. unfold at_ids in *. csimpl.
    rewrite filter_cons. destruct (decide _); [|done]. constructor; [|done]. by destruct Hid.
Qed.

Lemma interval_ok_alter f k l : interval_ok l → (∀ t, t_formId (f t) = t_formId t ∧ (0 < t_period t ≤ MAX_PERIOD → 0 < t_period (f t) ≤ MAX_PERIOD)) →
  interval_ok (map_alter f k l).
Proof.
  intros [H1 H2] Hf. constructor; [unfold map_sorted; by rewrite keys_alter|].
  intros j t ([j' t'] & E & Hin)%list_elem_of_fmap. cbn in E. destruct (H2 _ _ Hin) as [Ha Hb].
  case_bool_decide; simplify_eq; [|done]. destruct (Hf t'). split; [congruence|auto].
Qed.

Lemma interval_ok_emplace t l : interval_ok l → 0 < t_period t ≤ MAX_PERIOD → interval_ok (map_emplace (t_formId t) t l).
Proof.
  intros [H1 H2] Hp. constructor; [by apply sorted_emplace|]. intros k t' [[= -> ->]|H]%elem_emplace; [done|by apply H2].
Qed.

Lemma interval_ok_erase k l : interval_ok l → interval_ok (map_erase k l).
Proof. intros [H1 H2]. constructor; [by apply sorted_erase|]. intros j t [_ H]%elem_of_erase. by apply H2. Qed.

Lemma later_first_trans : Transitive later_first.
Proof. intros a b c. unfold later_first. lia. Qed.

Lemma sort_dynamic_sorted l : StronglySorted later_first (list_sort CompareDynamicRefreshItem l).
Proof.
  apply list_sort_sorted; [apply later_first_trans|..]; unfold CompareDynamicRefreshItem, later_first; intros; bool_to_prop; lia.
Qed.

(** * The handlers *)

Section handlers.
Context (agent_made : list TimerEffect → bool) (timer_id : list TimerEffect → Z) (timer_starts : list TimerEffect → bool).
Context (QueryActiveOsAccountIds : list TimerEffect → option (list Z)).
Implicit Types (s : FormTimers) (ck : Clock).

#[local] Abbreviation at_alarm := (UpdateAtTimerAlarm agent_made timer_id timer_starts).
#[local] Abbreviation dynamic_alarm := (UpdateDynamicAlarm agent_made timer_id timer_starts).
#[local] Abbreviation limiter_alarm := (UpdateLimiterAlarm agent_made timer_id timer_starts).
#[local] Abbreviation ok_after m s := (wp m (λ _, timers_ok) s).

Lemma ok_keeps {A} (m : ST FormTimers A) s : keeps aside m s → timers_ok s → ok_after m s.
Proof. intros H Hs. eapply keeps_wp; [exact H|]. intros a s' _ Ha. by eapply timers_ok_aside. Qed.

(** Code that keeps aside, and what follows it. *)
Lemma ok_bind_aside {A B} (m : ST FormTimers A) (f : A → ST FormTimers B) Q s :
  keeps aside m s → timers_ok s → (∀ a s', aside s s' → timers_ok s' → wp (f a) Q s') → wp (m ≫= f) Q s.
Proof.
  intros H Hs Hf. apply wp_bind. eapply keeps_wp; [exact H|]. intros a s' _ Ha. apply Hf; [done|]. by eapply timers_ok_aside.
Qed.

Lemma ok_bind {A B} (m : ST FormTimers A) (f : A → ST FormTimers B) s :
  ok_after m s → (∀ a s', timers_ok s' → ok_after (f a) s') → ok_after (m ≫= f) s.
Proof. intros H Hf. apply wp_bind. eapply wp_mono; [exact H|]. apply Hf. Qed.

Lemma ok_modify {B} (g : FormTimers → FormTimers) (f : unit → ST FormTimers B) Q s :
  wp (f tt) Q (g s) → wp (modify g ≫= f) Q s.
Proof. intros H. by apply wp_bind, wp_modify. Qed.

Lemma ok_limiter {A} (f : Limiter → A * Limiter) s : timers_ok s → ok_after (with_limiter f) s.
Proof. by intros [[H1 H2 H3 H4] H5]. Qed.

Lemma wp_dynamic_alarm s : timers_but s →
  wp dynamic_alarm (λ _ s', timers_ok s') s.
Proof.
  intros Hs. unfold UpdateDynamicAlarm. apply wp_bind, wp_gets. destruct (dynamicRefreshTasks_ s) as [|i l] eqn:El.
  - apply wp_bind. eapply keeps_wp; [apply aside_ClearDynamicResource|]. intros _ s' _ Ha. apply ok_modify, wp_ret.
    pose proof Ha as (_ & _ & _ & E & _). destruct (timers_but_aside _ _ Ha Hs) as [H1 H2 H3 H4]. split; [by constructor|]. timers_cbn.
    by rewrite E, El.
  - apply wp_bind, wp_gets. destruct (Z.eqb_spec (dynamicWakeUpTime_ s) (dy_settedTime i)) as [E|Hne].
    + apply wp_ret. split; [done|]. by rewrite El.
    + apply ok_modify. set (s1 := s <| dynamicWakeUpTime_ := _ |>).
      assert (timers_ok s1) as H1. { destruct Hs as [H1 H2 H3 H4]. split; [by constructor|]. subst s1. timers_cbn. by rewrite El. }
      clearbody s1. apply ok_keeps; [|done]. unfold GetDynamicWantAgent. aside_steps.
Qed.
#[local] Hint Resolve wp_dynamic_alarm : core.

Lemma ok_set_interval g s : timers_ok s → interval_ok (g (intervalTimerTasks_ s)) → timers_ok (s <| intervalTimerTasks_ ::= g |>).
Proof. intros [[H1 H2 H3 H4] H5] H. split; [by constructor|done]. Qed.
Lemma ok_set_at g s : timers_ok s → at_ok (g (updateAtTimerTasks_ s)) → timers_ok (s <| updateAtTimerTasks_ ::= g |>).
Proof. intros [[H1 H2 H3 H4] H5] H. split; [by constructor|done]. Qed.

Lemma ok_sort_dynamic s : timers_ok s → wp sort_dynamic (λ _ s', timers_but s') s.
Proof. intros [[H1 H2 H3 H4] _]. apply wp_modify. constructor; try done. apply sort_dynamic_sorted. Qed.

(** What follows a change of the list of refreshes that were asked for. *)
Lemma ok_sorted {B} (k : bool → ST FormTimers B) g s : timers_ok s →
  (∀ ok s', timers_ok s' → ok_after (k ok) s') →
  ok_after (_ ← modify (λ s, s <| dynamicRefreshTasks_ ::= g |>); _ ← sort_dynamic; ok ← dynamic_alarm; k ok) s.
Proof.
  intros [[H1 H2 H3 H4] H5] Hk. apply ok_modify, wp_bind, wp_modify, wp_bind.
  eapply wp_mono; [apply wp_dynamic_alarm|intros ok s'; apply Hk]. constructor; try done. apply sort_dynamic_sorted.
Qed.

Lemma ok_SetIntervalEnableFlag f b s : timers_ok s → ok_after (SetIntervalEnableFlag f b) s.
Proof.
  intros Hs. apply wp_modify, ok_set_interval; [done|]. apply interval_ok_alter; [apply Hs|done].
Qed.

Lemma ok_SetNextRefreshTime ck f gap u s :
  timers_ok s → ok_after (SetNextRefreshTime agent_made timer_id timer_starts ck f gap u) s.
Proof.
  intros Hs. unfold SetNextRefreshTime. destruct (gap <? MIN_NEXT_TIME); [by apply wp_ret|].
  apply wp_bind, wp_gets, ok_sorted; [done|]. intros ok s1 H1. destruct (negb ok); [by apply wp_ret|].
  apply ok_bind_aside; [aside_steps|done|]. intros ok' s2 _ H2. destruct (negb ok'); [by apply wp_ret|].
  apply ok_bind; [by apply ok_limiter|]. intros _ s3 H3. apply ok_bind; [by apply ok_SetIntervalEnableFlag|].
  intros _ s4 H4. by apply wp_ret.
Qed.

Lemma valid_period speed d : 1 ≤ speed ≤ 1000 → MIN_PERIOD ≤ d ≤ MAX_PERIOD → 0 < Z.quot d speed ≤ MAX_PERIOD.
Proof.
  intros Hs Hd. unfold MIN_PERIOD in *. rewrite Z.quot_div_nonneg by lia. split; [apply Z.div_str_pos; lia|].
  assert (d `div` speed ≤ d `div` 1) by (apply Z.div_le_compat_l; lia). rewrite Z.div_1_r in *. lia.
Qed.

Lemma valid_duration_range d : valid_duration d = true → MIN_PERIOD ≤ d ≤ MAX_PERIOD.
Proof. unfold valid_duration. rewrite negb_true_iff. intros H. bool_to_prop. lia. Qed.

Lemma ok_AddIntervalTimer ck t s : timers_ok s → 0 < t_period t ≤ MAX_PERIOD →
  ok_after (AddIntervalTimer agent_made timer_id timer_starts ck t) s.
Proof.
  intros Hs Hp. unfold AddIntervalTimer. apply ok_bind_aside; [aside_steps|done|]. intros _ s1 _ H1.
  apply wp_bind, wp_gets. destruct (map_find _ _); [by apply wp_ret|]. apply ok_modify.
  apply ok_bind_aside; [aside_steps|apply ok_set_interval; [done|apply interval_ok_emplace; [apply H1|done]]|].
  intros ok s' _ Hs'. destruct (negb ok); [by apply wp_ret|]. apply ok_bind; [by apply ok_limiter|]. intros. by apply wp_ret.
Qed.

Lemma at_ok_add t l : at_ok l → valid_time (t_hour t) (t_min t) = true → t_formId t = -1 ∨ t_formId t ∉ at_ids l →
  at_ok (insert_before (λ j, t_hour t * MIN_PER_HOUR + t_min t <? updateAtTime j) (mkAtItem (t_hour t * MIN_PER_HOUR + t_min t) t) l).
Proof. intros Hl Hv Hid. by apply (at_ok_insert (mkAtItem _ t)). Qed.

Lemma ok_AddUpdateAtTimer ck t s : timers_ok s → valid_time (t_hour t) (t_min t) = true →
  ok_after (AddUpdateAtTimer agent_made timer_id timer_starts ck t) s.
Proof.
  intros Hs Hv. unfold AddUpdateAtTimer. apply wp_bind, wp_gets.
  destruct (existsb _ _) eqn:Hex; [by apply wp_ret|]. apply ok_modify.
  apply ok_bind_aside; [aside_steps|apply ok_set_at; [done|apply at_ok_add; [apply Hs|done|]]|].
  - right. intros (_ & i & Hi & E)%elem_of_at_ids. apply not_true_iff_false in Hex. apply Hex, existsb_exists.
    exists i. split; [by apply list_elem_of_In|]. by apply Z.eqb_eq.
  - intros ok s1 _ H1. destruct (negb ok); [by apply wp_ret|]. apply ok_bind_aside; [aside_steps|done|].
    intros ok' s2 _ H2. destruct (negb ok'); [by apply wp_ret|]. apply ok_bind; [by apply ok_limiter|]. intros. by apply wp_ret.
Qed.

Lemma ok_AddFormTimer ck t s : timers_ok s → ok_after (AddFormTimer agent_made timer_id timer_starts ck t) s.
Proof.
  intros Hs. unfold AddFormTimer. destruct (t_isUpdateAt t).
  - destruct (valid_time _ _) eqn:E; [by apply ok_AddUpdateAtTimer|by apply wp_ret].
  - apply wp_bind, wp_gets. destruct (_ && _) eqn:E; [|by apply wp_ret]. bool_to_prop. apply ok_AddIntervalTimer; [done|].
    assert (0 < Z.quot MIN_PERIOD (timeSpeed_ s)) by (apply valid_period; [apply Hs|done]).
    assert (Z.quot MAX_PERIOD (timeSpeed_ s) ≤ MAX_PERIOD) by (apply valid_period; [apply Hs|done]). lia.
Qed.

Lemma ok_UpdateIntervalValue f cfg s : timers_ok s → ok_after (UpdateIntervalValue f cfg) s.
Proof.
  intros Hs. unfold UpdateIntervalValue. destruct (valid_duration _) eqn:E; [|by apply wp_ret]. apply wp_bind, wp_gets.
  destruct (map_find _ _); [|by apply wp_ret]. apply wp_bind, wp_gets, ok_modify, wp_ret, ok_set_interval; [done|].
  apply interval_ok_alter; [apply Hs|]. intros t. split; [done|]. intros _. apply valid_period; [apply Hs|]. by apply valid_duration_range.
Qed.

(** Taking an item out leaves no other of its form. *)
Lemma wp_take_at_item f Q s : timers_ok s →
  (∀ s', timers_ok s' → ∀ i, t_formId (refreshTask i) = -1 ∨ t_formId (refreshTask i) ∉ at_ids (updateAtTimerTasks_ s') → Q i s') →
  wp (take_at_item f) Q s.
Proof.
  intros Hs HQ. unfold take_at_item. apply wp_bind, wp_gets, ok_modify, wp_ret. apply HQ.
  { apply ok_set_at; [done|]. eapply at_ok_sublist; [apply erase_first_sublist|apply Hs]. }
  timers_cbn. destruct (List.find _ _) as [i|] eqn:E; [|by left]. cbn [from_option id]. pose proof E as [Hin Hf]%find_Some_elem.
  destruct (decide (t_formId (refreshTask i) = -1)) as [?|Hne]; [by left|]. right. intros Hi.
  assert (updateAtTimerTasks_ s ≡ₚ i :: erase_first (has_timer f) (updateAtTimerTasks_ s)) as Hp by (by apply erase_first_perm).
  pose proof (at_unique _ (tm_at _ (proj1 Hs))) as Hnd. rewrite (at_ids_perm _ _ Hp) in Hnd. unfold at_ids in Hnd, Hi. csimpl in Hnd.
  rewrite filter_cons_True in Hnd by done. by apply NoDup_cons in Hnd as [? _].
Qed.

Lemma ok_UpdateAtTimerValue ck f cfg s :
  timers_ok s → ok_after (UpdateAtTimerValue agent_made timer_id timer_starts ck f cfg) s.
Proof.
  intros Hs. unfold UpdateAtTimerValue. destruct (valid_time _ _) eqn:E; [|by apply wp_ret]. apply wp_bind, wp_take_at_item; [done|].
  intros s' Hs' i Hi. destruct (_ =? 0); [by apply wp_ret|]. cbv zeta. apply ok_modify, ok_keeps; [aside_steps|].
  apply ok_set_at; [done|]. apply (at_ok_insert (mkAtItem _ _)); [apply Hs'|done..].
Qed.

Lemma ok_IntervalToAtTimer ck f cfg s : timers_ok s → ok_after (IntervalToAtTimer agent_made timer_id timer_starts ck f cfg) s.
Proof.
  intros Hs. unfold IntervalToAtTimer. destruct (valid_time _ _) eqn:E; [|by apply wp_ret]. apply wp_bind, wp_gets.
  destruct (map_find _ _); [|by apply wp_ret]. apply ok_modify, ok_AddUpdateAtTimer; [|done].
  apply ok_set_interval; [done|]. apply interval_ok_erase, Hs.
Qed.

Lemma ok_AtTimerToIntervalTimer ck f cfg s :
  timers_ok s → ok_after (AtTimerToIntervalTimer agent_made timer_id timer_starts ck f cfg) s.
Proof.
  intros Hs. unfold AtTimerToIntervalTimer. destruct (valid_duration _) eqn:E; [|by apply wp_ret].
  apply wp_bind, wp_take_at_item; [done|]. intros s1 H1 i _. apply ok_bind_aside; [aside_steps|done|]. intros ok s' _ Hs'.
  destruct (negb ok); [by apply wp_ret|]. destruct (_ =? 0); [by apply wp_ret|]. apply ok_AddIntervalTimer; [done|].
  apply valid_duration_range in E. change (0 < updateDuration cfg ≤ MAX_PERIOD). unfold MIN_PERIOD in E. lia.
Qed.

Lemma ok_UpdateFormTimer ck f ty cfg s : timers_ok s → ok_after (UpdateFormTimer agent_made timer_id timer_starts ck f ty cfg) s.
Proof.
  intros Hs. unfold UpdateFormTimer. destruct (enableUpdate cfg); [|by apply wp_ret]. cbn [negb].
  destruct ty; [by apply ok_UpdateIntervalValue|by apply ok_UpdateAtTimerValue|by apply ok_IntervalToAtTimer
    |by apply ok_AtTimerToIntervalTimer|by apply wp_ret].
Qed.

Lemma ok_DeleteIntervalTimer f s : timers_ok s → ok_after (DeleteIntervalTimer f) s.
Proof.
  intros Hs. unfold DeleteIntervalTimer. apply wp_bind, wp_gets, ok_modify, wp_bind, wp_gets.
  apply ok_keeps; [aside_steps|]. apply ok_set_interval; [done|]. apply interval_ok_erase, Hs.
Qed.

Lemma ok_DeleteUpdateAtTimer ck f s : timers_ok s → ok_after (DeleteUpdateAtTimer agent_made timer_id timer_starts ck f) s.
Proof.
  intros Hs. unfold DeleteUpdateAtTimer. apply ok_modify, ok_keeps; [aside_steps|]. apply ok_set_at; [done|].
  eapply at_ok_sublist; [apply erase_first_sublist|apply Hs].
Qed.

(** ** Loops *)

(** What a timer that goes off refreshes: it is due, enabled and under the limit. *)
Definition goes (now : Z) (m : Limiter) (t : FormTimer) : bool :=
  interval_due now t && t_isEnable t && (IsEnableRefresh (t_formId t) m).1.

(** Asking the limiter does not change its answers. *)
Definition same_limits (m m' : Limiter) : Prop :=
  ∀ f, (IsEnableRefresh f m').1 = (IsEnableRefresh f m).1 ∧ GetRefreshCount f m' = GetRefreshCount f m.
#[export] Instance same_limits_preorder : PreOrder same_limits.
Proof. split; [by intros m f|]. intros m1 m2 m3 H1 H2 f. destruct (H1 f), (H2 f). split; congruence. Qed.

Lemma same_limits_IsEnable g m : same_limits m (IsEnableRefresh g m).2.
Proof.
  intros f. unfold IsEnableRefresh, GetRefreshCount. destruct (map_find g m) as [i|] eqn:E; [|done]. cbn [snd].
  rewrite map_find_alter. case_bool_decide; [|by destruct (map_find f m)]. subst. rewrite E. cbn [fmap option_fmap option_map fst].
  assert (refreshCount (report_limit i) = refreshCount i) as -> by (unfold report_limit; by destruct (_ && _)). done.
Qed.

Lemma goes_same now m m' t : same_limits m m' → goes now m' t = goes now m t.
Proof. intros H. unfold goes. by rewrite (proj1 (H _)). Qed.

Definition refreshed_at (now : Z) (m : Limiter) (t : FormTimer) : FormTimer :=
  if goes now m t then t <| t_refreshTime := now |> else t.

Lemma run_interval_loop now l s : ∃ m', same_limits (refreshLimiter_ s) m' ∧
  interval_loop now l s = Returned ((prod_map id (refreshed_at now (refreshLimiter_ s)) <$> l,
    refreshed_at now (refreshLimiter_ s) <$> List.filter (goes now (refreshLimiter_ s)) (values l)), s <| refreshLimiter_ := m' |>).
Proof.
  revert s. induction l as [|[k t] l IH]; intros s.
  - exists (refreshLimiter_ s). split; [reflexivity|]. by destruct s.
  - cbn [interval_loop]. unfold values. csimpl. fold (values l).
    assert (∃ m1, same_limits (refreshLimiter_ s) m1 ∧
      (if interval_due now t && t_isEnable t then with_limiter (IsEnableRefresh (t_formId t)) else mret false) s =
      Returned (goes now (refreshLimiter_ s) t, s <| refreshLimiter_ := m1 |>)) as (m1 & Hm1 & E1).
    { unfold goes. destruct (interval_due now t && t_isEnable t).
      - exists (IsEnableRefresh (t_formId t) (refreshLimiter_ s)).2. split; [apply same_limits_IsEnable|done].
      - exists (refreshLimiter_ s). split; [reflexivity|]. by destruct s. }
    unfold mbind, ST_bind at 1. rewrite E1. destruct (IH (s <| refreshLimiter_ := m1 |>)) as (m2 & Hm2 & E2). timers_cbn.
    unfold mbind, ST_bind. rewrite E2. exists m2. split; [by etransitivity|].
    assert (∀ x, refreshed_at now m1 x = refreshed_at now (refreshLimiter_ s) x) as Hr by (intros x; unfold refreshed_at; by rewrite (goes_same _ _ _ _ Hm1)).
    assert (List.filter (goes now m1) (values l) = List.filter (goes now (refreshLimiter_ s)) (values l)) as ->.
    { apply filter_ext. intros x. by apply goes_same. }
    rewrite (list_fmap_ext _ (refreshed_at now (refreshLimiter_ s)) _) by (intros; apply Hr).
    rewrite (list_fmap_ext (prod_map id (refreshed_at now m1)) (prod_map id (refreshed_at now (refreshLimiter_ s))) _)
      by (intros ? [??] _; unfold prod_map; cbn [fst snd]; by rewrite Hr).
    assert (refreshed_at now (refreshLimiter_ s) t = if goes now (refreshLimiter_ s) t then t <| t_refreshTime := now |> else t) as Ht by done.
    unfold prod_map at 2. cbn [fst snd id]. rewrite Ht. destruct (goes now (refreshLimiter_ s) t) eqn:Eg; csimpl; rewrite ?Ht; done.
Qed.

Lemma interval_ok_map (g : FormTimer → FormTimer) l : interval_ok l →
  (∀ t, t_formId (g t) = t_formId t ∧ (0 < t_period t ≤ MAX_PERIOD → 0 < t_period (g t) ≤ MAX_PERIOD)) → interval_ok (prod_map id g <$> l).
Proof.
  intros [H1 H2] Hg. constructor.
  - unfold map_sorted, keys. rewrite <- list_fmap_compose. by rewrite (list_fmap_ext _ fst) by (by intros ? [] _).
  - intros k t' ([k' t] & E & Hin)%list_elem_of_fmap. unfold prod_map in E. cbn in E. simplify_eq. destruct (H2 _ _ Hin), (Hg t).
    split; [congruence|auto].
Qed.

Lemma ok_OnIntervalTimeOut ck s : timers_ok s → ok_after (OnIntervalTimeOut QueryActiveOsAccountIds ck) s.
Proof.
  intros Hs. unfold OnIntervalTimeOut. apply wp_bind, wp_gets, wp_bind.
  destruct (run_interval_loop (GetCurrentNanosecond ck `quot` TIME_1000000) (intervalTimerTasks_ s) s) as (m' & _ & E).
  unfold wp. rewrite E. apply ok_modify, ok_keeps; [apply (aside_refreshes _ id)|].
  destruct Hs as [[H1 H2 H3 H4] H5]. split; [|done]. constructor; try done. timers_cbn.
  apply interval_ok_map; [done|]. intros t. unfold refreshed_at. by destruct (goes _ _ _).
Qed.

Lemma ok_OnUpdateAtTrigger ck u s :
  timers_ok s → ok_after (OnUpdateAtTrigger agent_made timer_id timer_starts QueryActiveOsAccountIds ck u) s.
Proof.
  intros Hs. unfold OnUpdateAtTrigger. apply wp_bind, wp_gets. cbv zeta. apply ok_bind_aside; [aside_steps|done|]. intros ok s1 _ H1.
  destruct (negb ok); [by apply wp_ret|]. apply ok_bind_aside; [apply aside_refreshes|done|]. intros. by apply wp_ret.
Qed.

(** The items whose time has come leave the list, and the interval timers of their
    forms are enabled. *)
Definition is_up (updateTime markedTime : Z) (i : DynamicRefreshItem) : bool :=
  (dy_settedTime i <=? updateTime) || (dy_settedTime i <=? markedTime).
Definition enable_all (ids : list Z) (l : list (Z * FormTimer)) : list (Z * FormTimer) :=
  foldl (λ l f, map_alter (λ t, t <| t_isEnable := true |>) f l) l ids.

Lemma interval_ok_enable ids l : interval_ok l → interval_ok (enable_all ids l).
Proof. revert l. induction ids as [|f ids IH]; intros l Hl; [done|]. cbn. apply IH. by apply interval_ok_alter. Qed.

Definition may_refresh (m : Limiter) (i : DynamicRefreshItem) : bool := (IsEnableRefresh (dy_formId i) m).1.

Lemma run_dynamic_loop u mk l s : ∃ m', same_limits (refreshLimiter_ s) m' ∧
  dynamic_loop u mk l s = Returned ((List.filter (λ i, negb (is_up u mk i)) l,
    (λ i, countFormTimer (dy_formId i) true (dy_userId i)) <$> List.filter (λ i, is_up u mk i && may_refresh (refreshLimiter_ s) i) l),
    s <| refreshLimiter_ := m' |> <| intervalTimerTasks_ ::= enable_all (dy_formId <$> List.filter (is_up u mk) l) |>).
Proof.
  revert s. induction l as [|i l IH]; intros s.
  - exists (refreshLimiter_ s). split; [reflexivity|]. by destruct s.
  - cbn [dynamic_loop]. csimpl. unfold is_up at 1 3 5. fold (is_up u mk i). destruct (is_up u mk i) eqn:Eu; csimpl.
    + unfold mbind, ST_bind, with_limiter at 1, SetIntervalEnableFlag, modify.
      set (m1 := (IsEnableRefresh (dy_formId i) (refreshLimiter_ s)).2).
      assert (same_limits (refreshLimiter_ s) m1) as H1 by apply same_limits_IsEnable.
      set (s1 := s <| refreshLimiter_ := m1 |> <| intervalTimerTasks_ ::= map_alter (λ t, t <| t_isEnable := true |>) (dy_formId i) |>).
      destruct (IH s1) as (m2 & H2 & E2). change (refreshLimiter_ s1) with m1 in *.
      change (s <| refreshLimiter_ := m1 |> <| intervalTimerTasks_ ::= _ |>) with s1. rewrite E2.
      exists m2. split; [by etransitivity|].
      rewrite (filter_ext (λ i, is_up u mk i && may_refresh m1 i) (λ i, is_up u mk i && may_refresh (refreshLimiter_ s) i))
        by (intros x; unfold may_refresh; by rewrite (proj1 (H1 _))).
      change (IsEnableRefresh (dy_formId i) (refreshLimiter_ s)).1 with (may_refresh (refreshLimiter_ s) i).
      by destruct (may_refresh (refreshLimiter_ s) i).
    + destruct (IH s) as (m2 & H2 & E2). exists m2. split; [done|]. unfold mbind, ST_bind. by rewrite E2.
Qed.

Lemma ok_OnDynamicTimeTrigger ck u s :
  timers_ok s → ok_after (OnDynamicTimeTrigger agent_made timer_id timer_starts QueryActiveOsAccountIds ck u) s.
Proof.
  intros Hs. unfold OnDynamicTimeTrigger. apply wp_bind, wp_gets, wp_bind.
  destruct (run_dynamic_loop u (ck_steady ck + ABS_REFRESH_MS) (dynamicRefreshTasks_ s) s) as (m' & _ & E).
  unfold wp at 1. rewrite E. apply (ok_sorted _ (λ _, _)).
  - destruct Hs as [[H1 H2 H3 H4] H5]. split; [|done]. constructor; try done. by apply interval_ok_enable.
  - intros ok s1 H1. destruct (negb ok); [by apply wp_ret|]. apply ok_bind_aside; [apply (aside_refreshes _ id)|done|]. intros. by apply wp_ret.
Qed.

Lemma ok_HandleResetLimiter ck s :
  timers_ok s → ok_after (HandleResetLimiter agent_made timer_id timer_starts QueryActiveOsAccountIds ck) s.
Proof.
  intros Hs. unfold HandleResetLimiter, GetRemindTasks. apply ok_bind.
  - apply ok_bind; [by apply ok_limiter|]. intros l s1 H1. apply ok_bind_aside; [aside_steps|done|]. intros. by apply wp_ret.
  - intros x s1 H1. apply ok_bind_aside; [|done|intros; by apply wp_ret]. destruct x; [apply (aside_refreshes _ id)|apply keeps_ret, _].
Qed.

Lemma ok_HandleSystemTimeChanged ck s : timers_ok s → ok_after (HandleSystemTimeChanged agent_made timer_id timer_starts ck) s.
Proof. intros Hs. apply ok_keeps; [|done]. unfold HandleSystemTimeChanged. aside_steps. Qed.

Lemma ok_SetTimeSpeed ck speed s : timers_ok s → 1 ≤ speed ≤ 1000 →
  ok_after (SetTimeSpeed agent_made timer_id timer_starts QueryActiveOsAccountIds ck speed) s.
Proof.
  intros [[H1 H2 H3 H4] H5] Hsp. unfold SetTimeSpeed. apply ok_modify, ok_bind.
  - apply ok_HandleResetLimiter. split; [by constructor|done].
  - intros ? s' Hs'. apply ok_keeps; [aside_steps|done].
Qed.

Lemma ok_OnReceiveEvent ck e s :
  timers_ok s → ok_after (OnReceiveEvent agent_made timer_id timer_starts QueryActiveOsAccountIds ck e) s.
Proof.
  intros Hs. unfold OnReceiveEvent. destruct e as [code| |w].
  - apply ok_SetTimeSpeed; [done|]. unfold MIN_TIME_SPEED, MAX_TIME_SPEED. lia.
  - apply ok_bind; [by apply ok_HandleSystemTimeChanged|]. intros. by apply wp_ret.
  - cbv zeta. destruct (_ =? TYPE_RESET_LIMIT).
    { apply ok_bind; [by apply ok_HandleResetLimiter|]. intros. by apply wp_ret. }
    destruct (_ =? TYPE_STATIC_UPDATE).
    { destruct (_ <? 0); [by apply wp_ret|]. apply ok_bind; [by apply ok_OnUpdateAtTrigger|]. intros. by apply wp_ret. }
    destruct (_ =? TYPE_DYNAMIC_UPDATE); [|by apply wp_ret].
    destruct (_ <=? 0); [by apply wp_ret|]. apply ok_bind; [by apply ok_OnDynamicTimeTrigger|]. intros. by apply wp_ret.
Qed.

(** ** Removal *)

(** The loop of [DeleteDynamicItem] ends when the list is empty or the form is its
    first. *)
Definition removable (f : Z) (l : list DynamicRefreshItem) : bool :=
  match l with [] => true | i :: _ => dy_formId i =? f end.

Lemma ok_DeleteDynamicItem fuel f s : timers_ok s → removable f (dynamicRefreshTasks_ s) = true →
  ok_after (DeleteDynamicItem agent_made timer_id timer_starts (S fuel) f) s.
Proof.
  intros Hs Hr. unfold DeleteDynamicItem. apply wp_bind, wp_gets, wp_bind.
  assert (∀ s', timers_but s' → wp (_ ← sort_dynamic; dynamic_alarm) (λ _, timers_ok) s') as Hrest.
  { intros s' [H1 H2 H3 H4]. apply wp_bind, wp_modify, wp_dynamic_alarm. constructor; try done. apply sort_dynamic_sorted. }
  assert (timers_but s) as Hb by apply Hs.
  destruct (dynamicRefreshTasks_ s) as [|i l] eqn:El; cbn [delete_dynamic]; [by apply wp_ret, Hrest|].
  cbn in Hr. rewrite Hr. apply wp_bind, wp_modify.
  destruct Hb as [H1 H2 H3 H4]. rewrite El in H3. apply StronglySorted_inv in H3 as [H3 _].
  destruct l as [|j l]; [apply wp_ret, Hrest; by constructor|]. apply wp_modify, Hrest. constructor; try done. by apply interval_ok_alter.
Qed.

Lemma stuck_delete_dynamic fuel f s i l : dynamicRefreshTasks_ s = i :: l → dy_formId i ≠ f →
  DeleteDynamicItem agent_made timer_id timer_starts fuel f s = OutOfFuel.
Proof.
  intros El Hne. unfold DeleteDynamicItem, mbind, ST_bind, gets. rewrite El.
  assert (∀ s', delete_dynamic fuel f (i :: l) s' = OutOfFuel) as H; [|by rewrite H].
  induction fuel as [|fuel IH]; intros s'; [done|]. cbn. by apply Z.eqb_neq in Hne as ->.
Qed.

Lemma run_get_dynamic fuel f i l s : get_dynamic (S fuel) f (i :: l) s =
  if dy_formId i =? f then Returned (Some i, s) else get_dynamic fuel f (i :: l) s.
Proof. cbn. by destruct (dy_formId i =? f). Qed.
End handlers.
