(* ===== verification/FormTimerClaims.v ===== *)
(** The timers of forms as a transition system, and what holds of them. *)

From S2P Require Import Prelude StdMap FormLimiter FormTimer FormTimerRun.

#[local] Open Scope stdpp_scope.
#[local] Open Scope Z_scope.

(** * The transition system *)

Inductive TimerEvent :=
  | TAddInterval (ck : Clock) (formId updateDuration userId : Z)
  | TAddAt (ck : Clock) (formId hour min userId : Z)
  | TUpdate (ck : Clock) (formId : Z) (type : UpdateType) (cfg : FormTimerCfg)
  | TSetNext (ck : Clock) (formId gap userId : Z)
  | TRemove (ck : Clock) (formId : Z)
  | TIncrease (formId : Z)
  | TMarkRemind (formId : Z)
  | TIsEnable (formId : Z)
  | TIntervalTimeOut (ck : Clock)
  | TCommonEvent (ck : Clock) (e : CommonEvent).

Section claims.
Context (agent_made : list TimerEffect → bool) (timer_id : list TimerEffect → Z) (timer_starts : list TimerEffect → bool).
Context (QueryActiveOsAccountIds : list TimerEffect → option (list Z)).
Implicit Types (s : FormTimers) (ck : Clock) (f : Z).

#[local] Abbreviation M := (ST FormTimers).
Definition ignore {A} (m : M A) : M unit := _ ← m; mret tt.

(** The loop of [DeleteDynamicItem] ends in its first round or never. *)
Definition timer_event (e : TimerEvent) : M unit :=
  match e with
  | TAddInterval ck f d u => ignore (AddFormTimer_interval agent_made timer_id timer_starts ck f d u)
  | TAddAt ck f h m u => ignore (AddFormTimer_at agent_made timer_id timer_starts ck f h m u)
  | TUpdate ck f ty cfg => ignore (UpdateFormTimer agent_made timer_id timer_starts ck f ty cfg)
  | TSetNext ck f gap u => ignore (SetNextRefreshTime agent_made timer_id timer_starts ck f gap u)
  | TRemove ck f => ignore (RemoveFormTimer agent_made timer_id timer_starts 1 ck f)
  | TIncrease f => with_limiter (λ m, (tt, Increase f m))
  | TMarkRemind f => with_limiter (λ m, (tt, MarkRemind f m))
  | TIsEnable f => ignore (with_limiter (IsEnableRefresh f))
  | TIntervalTimeOut ck => OnIntervalTimeOut QueryActiveOsAccountIds ck
  | TCommonEvent ck e => OnReceiveEvent agent_made timer_id timer_starts QueryActiveOsAccountIds ck e
  end.

Definition timer_reachable s : Prop := rtc (event_step timer_event (λ _ _, True)) new_timers s.

(** The events that return. *)
Definition may_happen s (e : TimerEvent) : bool :=
  match e with TRemove _ f => removable f (dynamicRefreshTasks_ s) | _ => true end.

Lemma ok_ignore {A} (m : M A) s : wp m (λ _, timers_ok) s → wp (ignore m) (λ _, timers_ok) s.
Proof. intros H. unfold ignore. apply wp_bind. eapply wp_mono; [exact H|]. intros. by apply wp_ret. Qed.

Lemma ok_drop_item f s : timers_ok s → wp (_ ← with_limiter (λ m, (tt, DeleteItem f m)); mret true) (λ _, timers_ok) s.
Proof. intros Hs. apply ok_bind; [by apply ok_limiter|]. intros. by apply wp_ret. Qed.

Lemma ok_RemoveFormTimer fuel ck f s : timers_ok s → removable f (dynamicRefreshTasks_ s) = true →
  wp (RemoveFormTimer agent_made timer_id timer_starts (S fuel) ck f) (λ _, timers_ok) s.
Proof.
  intros Hs Hr. unfold RemoveFormTimer. apply wp_bind.
  assert (∀ s', timers_ok s' → removable f (dynamicRefreshTasks_ s') = true → ∀ gone, wp (if negb gone then mret false else
    ok ← DeleteDynamicItem agent_made timer_id timer_starts (S fuel) f;
    if negb ok then mret false else _ ← with_limiter (λ m, (tt, DeleteItem f m)); mret true) (λ _, timers_ok) s') as Hrest.
  { intros s' Hs' Hr' gone. destruct (negb gone); [by apply wp_ret|]. apply ok_bind; [by apply ok_DeleteDynamicItem|].
    intros ok s1 H1. destruct (negb ok); [by apply wp_ret|]. by apply ok_drop_item. }
  eapply wp_mono; [apply wp_and; [apply (ok_DeleteIntervalTimer f s Hs)|]|].
  - unfold DeleteIntervalTimer. instantiate (1 := λ _ s', dynamicRefreshTasks_ s' = dynamicRefreshTasks_ s).
    apply wp_bind, wp_gets, ok_modify, wp_bind, wp_gets. apply wp_bind.
    eapply (keeps_wp aside); [|intros a s' _ Ha; apply wp_ret; apply Ha]. aside_steps.
  - cbv beta. intros there s1 [H1 E1]. rewrite <- E1 in Hr. apply wp_bind. destruct there.
    + apply wp_ret. by apply Hrest.
    + eapply wp_mono; [apply wp_and; [apply (ok_DeleteUpdateAtTimer agent_made timer_id timer_starts ck f s1 H1)|]|].
      * unfold DeleteUpdateAtTimer. instantiate (1 := λ _ s', dynamicRefreshTasks_ s' = dynamicRefreshTasks_ s1).
        apply ok_modify. eapply keeps_wp; [apply aside_UpdateAtTimerAlarm|]. intros a s' _ Ha. apply Ha.
      * cbv beta. intros gone s2 [H2 E2]. rewrite <- E2 in Hr. by apply Hrest.
Qed.

Lemma ok_event e s : timers_ok s → may_happen s e = true → wp (timer_event e) (λ _, timers_ok) s.
Proof.
  intros Hs He. destruct e; cbn [timer_event].
  - apply ok_ignore. unfold AddFormTimer_interval. by apply wp_bind, wp_gets, ok_AddFormTimer.
  - by apply ok_ignore, ok_AddFormTimer.
  - by apply ok_ignore, ok_UpdateFormTimer.
  - by apply ok_ignore, ok_SetNextRefreshTime.
  - by apply ok_ignore, ok_RemoveFormTimer.
  - by apply ok_limiter.
  - by apply ok_limiter.
  - by apply ok_ignore, ok_limiter.
  - by apply ok_OnIntervalTimeOut.
  - by apply ok_OnReceiveEvent.
Qed.

(** A removal that is stuck does not return; one that gives up before keeps the
    lists. *)
Lemma timers_ok_event e s s' : timers_ok s → timer_event e s = Returned (tt, s') → timers_ok s'.
Proof.
  intros Hs E. destruct (may_happen s e) eqn:He.
  { pose proof (ok_event e s Hs He) as H. unfold wp in H. by rewrite E in H. }
  destruct e as [| | | |ck f| | | | |]; try done. cbn in He, E.
  unfold ignore in E. apply ST_bind_Returned in E as (r & s1 & E & [= ->]). unfold RemoveFormTimer in E.
  apply ST_bind_Returned in E as (there & s1 & E1 & E). apply ST_bind_Returned in E as (gone & s2 & E2 & E).
  pose proof (ok_DeleteIntervalTimer f s Hs) as H1. unfold wp in H1. rewrite E1 in H1.
  assert (timers_ok s2) as H2.
  { destruct there; [by injection E2 as <- <-|]. pose proof (ok_DeleteUpdateAtTimer agent_made timer_id timer_starts ck f s1 H1) as H2.
    unfold wp in H2. by rewrite E2 in H2. }
  destruct gone; [|by injection E as <- <-]. cbn [negb] in E. apply ST_bind_Returned in E as (ok & s3 & E3 & E).
  destruct (removable f (dynamicRefreshTasks_ s2)) eqn:Hr.
  - pose proof (ok_DeleteDynamicItem agent_made timer_id timer_starts 0 f s2 H2 Hr) as H3. unfold wp in H3. rewrite E3 in H3.
    destruct ok; [|by injection E as <- <-]. pose proof (ok_drop_item f s3 H3) as H4. unfold wp in H4. cbn [negb] in E. by rewrite E in H4.
  - destruct (dynamicRefreshTasks_ s2) as [|i l] eqn:El; [done|]. cbn in Hr. apply Z.eqb_neq in Hr.
    by rewrite (stuck_delete_dynamic _ _ _ _ _ _ _ _ El Hr) in E3.
Qed.

Lemma reachable_timers s : timer_reachable s → timers_ok s.
Proof.
  unfold timer_reachable. assert (∀ s1, rtc (event_step timer_event (λ _ _, True)) s1 s → timers_ok s1 → timers_ok s) as H.
  { intros s1 H. induction H as [|s1 s2 s3 [e s1' s2' _ E] _ IH]; [done|]. intros H1. apply IH. by eapply timers_ok_event. }
  intros Hs. apply (H _ Hs), new_timers_ok.
Qed.

(** ** The alarm of the refreshes that were asked for *)

(** The timers that were started, and when one of them goes off unless it was stopped. *)
Definition started (t : list TimerEffect) : list Z := omap (λ e, match e with StartTimer id _ => Some id | _ => None end) t.
Definition running (id : Z) (t : list TimerEffect) : option Z :=
  foldl (λ r e, match e with
    | StartTimer i time => if i =? id then Some time else r
    | StopTimer i => if i =? id then None else r
    | _ => r
    end) None t.
(** There is an alarm exactly when a refresh was asked for, and it is for the first item
    of the list. INT64_MAX is what the service notes down when it has no alarm. *)
Definition dynamic_alarm_stands s : Prop :=
  match dynamicRefreshTasks_ s with
  | [] => dynamicAlarmTimerId_ s = 0 ∧ currentDynamicWantAgent s = None
  | i :: _ => dy_settedTime i ≠ INT64_MAX →
      running (dynamicAlarmTimerId_ s) (ft_trace s) = Some (wrap_u64 (dy_settedTime i)) ∧
      currentDynamicWantAgent s = Some (dynamic_want (dy_settedTime i))
  end.

Section alarm_stands.
Hypothesis (made : ∀ t, agent_made t = true).
Hypothesis (fresh : ∀ t, timer_id t ≠ 0 ∧ (timer_id t ∉ started t)).
Implicit Types (t : list TimerEffect) (att lim dyn wake id time : Z) (a : option TimerWant).

Definition apart att lim dyn t : Prop :=
  (∀ id, id = att ∨ id = lim ∨ id = dyn → id ≠ 0 → id ∈ started t) ∧ (dyn ≠ 0 → att ≠ dyn ∧ lim ≠ dyn).
Definition stands att lim dyn a wake t : Prop := apart att lim dyn t ∧
  match a with
  | None => dyn = 0 ∧ wake = INT64_MAX
  | Some w => w = dynamic_want wake ∧ dyn ≠ 0 ∧ running dyn t = Some (wrap_u64 wake)
  end.
Definition alarms_ok s : Prop :=
  stands (updateAtTimerId_ s) (limiterTimerId_ s) (dynamicAlarmTimerId_ s) (currentDynamicWantAgent s) (dynamicWakeUpTime_ s) (ft_trace s).

Lemma started_snoc t e : started (t ++ [e]) = started t ++ match e with StartTimer id _ => [id] | _ => [] end.
Proof. unfold started. rewrite omap_app. by destruct e. Qed.
Lemma running_snoc id t e : running id (t ++ [e]) =
  match e with
  | StartTimer i time => if i =? id then Some time else running id t
  | StopTimer i => if i =? id then None else running id t
  | _ => running id t
  end.
Proof. unfold running. by rewrite foldl_app. Qed.

Definition silent (e : TimerEffect) : bool := match e with StartTimer _ _ | StopTimer _ => false | _ => true end.
Lemma apart_snoc att lim dyn t e : apart att lim dyn t → apart att lim dyn (t ++ [e]).
Proof. intros [H1 H2]. split; [|done]. intros id Hid Hne. rewrite started_snoc, elem_of_app. left. by apply H1. Qed.
Lemma stands_silent att lim dyn a wake t e : silent e = true → stands att lim dyn a wake t → stands att lim dyn a wake (t ++ [e]).
Proof. intros He [H1 H2]. split; [by apply apart_snoc|]. destruct a; [|done]. rewrite running_snoc. by destruct e. Qed.
Lemma stands_swap att lim dyn a wake t : stands att lim dyn a wake t → stands lim att dyn a wake t.
Proof. intros [[H1 H2] H3]. split; [split|done]; [intros id Hid; apply H1; tauto|tauto]. Qed.
Lemma stands_stop att lim dyn a wake t : stands att lim dyn a wake t → stands 0 lim dyn a wake (t ++ [StopTimer att]).
Proof.
  intros [[H1 H2] H3]. split; [split|].
  - intros id [->|Hid] Hne; [done|]. rewrite started_snoc, app_nil_r. apply H1; tauto.
  - intros Hd. split; [by intros <-|by apply H2].
  - destruct a; [|done]. destruct H3 as (-> & Hd & Hr). split_and!; [done..|]. rewrite running_snoc.
    assert ((att =? dyn) = false) as -> by (apply Z.eqb_neq, H2, Hd). done.
Qed.
Lemma apart_start att lim dyn t id time : id ≠ 0 → id ∉ started t → apart att lim dyn t →
  apart id lim dyn (t ++ [StartTimer id time]) ∧ (dyn ≠ 0 → id ≠ dyn).
Proof.
  intros H0 Hn [H1 H2]. assert (dyn ≠ 0 → id ≠ dyn) as Hd by (intros Hd ->; apply Hn, H1; tauto). split; [|done]. split.
  - intros j Hj Hne. rewrite started_snoc, elem_of_app, list_elem_of_singleton. destruct Hj as [->|Hj]; [by right|]. left. apply H1; tauto.
  - intros Hdyn. split; [by apply Hd|by apply H2].
Qed.
Lemma stands_start att lim dyn a wake t id time : id ≠ 0 → id ∉ started t → stands att lim dyn a wake t →
  stands id lim dyn a wake (t ++ [StartTimer id time]).
Proof.
  intros H0 Hn [H1 H2]. destruct (apart_start att lim dyn t id time H0 Hn H1) as [H3 H4]. split; [done|]. destruct a; [|done].
  destruct H2 as (-> & Hd & Hr). split_and!; [done..|]. rewrite running_snoc. apply H4, Z.eqb_neq in Hd as ->. done.
Qed.

(** ** Code that keeps it *)

(** All but the alarm of the refreshes keeps what it is about; a change of their list keeps
    the alarms at least, and then the alarm is set anew. *)
Definition kept s s' : Prop := alarms_ok s → alarms_ok s'.
Definition holds s s' : Prop :=
  kept s s' ∧ dynamicRefreshTasks_ s' = dynamicRefreshTasks_ s ∧ currentDynamicWantAgent s' = currentDynamicWantAgent s.
Definition neat s : Prop := alarms_ok s ∧ (dynamicRefreshTasks_ s = [] → currentDynamicWantAgent s = None).
Definition keeps_neat s s' : Prop := neat s → neat s'.
#[local] Instance kept_preorder : PreOrder kept.
Proof. split; [by intros s H|]. intros s1 s2 s3 H1 H2 H. by apply H2, H1. Qed.
#[local] Instance holds_preorder : PreOrder holds.
Proof. split; [by intros s|]. intros s1 s2 s3 (H1 & H2 & H3) (H4 & H5 & H6). split_and!; [by etransitivity|congruence..]. Qed.
#[local] Instance keeps_neat_preorder : PreOrder keeps_neat.
Proof. split; [by intros s H|]. intros s1 s2 s3 H1 H2 H. by apply H2, H1. Qed.
Lemma holds_kept {A} (m : M A) s : leaves holds m s → leaves kept m s.
Proof. intros H a s' E. by apply (H a s' E). Qed.
Lemma holds_neat {A} (m : M A) s : leaves holds m s → leaves keeps_neat m s.
Proof. intros H a s' E [H1 H2]. destruct (H a s' E) as (H3 & H4 & H5). split; [by apply H3|]. by rewrite H4, H5. Qed.

Create HintDb alarms.
Ltac al_step := lazymatch goal with
  | |- leaves _ (mret _) _ => apply leaves_ret, _
  | |- leaves holds (modify _) _ => apply leaves_modify; split; [intros Hal; exact Hal|split; reflexivity]
  | |- leaves _ (modify _) _ => apply leaves_modify; intros Hal; exact Hal
  | |- leaves _ (gets _) _ => apply leaves_gets, _
  | |- leaves _ (mbind _ _) _ => apply leaves_bind; [apply _| |intros ? ? _]
  | |- leaves _ (for_each _ _) _ => apply leaves_for_each; [apply _|intros]
  | |- leaves _ (match ?x with _ => _ end) _ => destruct x
  | |- leaves _ (let _ := _ in _) _ => cbv zeta
  end.
Ltac al_leaf := first [solve [auto 1 with alarms nocore] | apply holds_kept; solve [auto 1 with alarms nocore] | apply holds_neat; solve [auto 1 with alarms nocore]].
Ltac al_steps := repeat first [al_leaf | al_step].

Lemma al_emit e s : silent e = true → leaves holds (timer_emit e) s.
Proof. intros He. apply leaves_modify. split; [|done]. intros H. by apply stands_silent. Qed.
Lemma al_cancel a s : leaves holds (cancel a) s.
Proof. unfold cancel. destruct a; [by apply al_emit|apply leaves_ret, _]. Qed.
Lemma al_limiter {A} (f : Limiter → A * Limiter) s : leaves holds (with_limiter f) s.
Proof. intros a s' [= <- <-]. split; [|done]. intros H. exact H. Qed.
#[local] Hint Resolve al_cancel al_limiter : alarms.
Lemma al_agent w u s : leaves holds (GetWantAgent agent_made w u) s.
Proof. unfold GetWantAgent. al_steps. by apply al_emit. Qed.
Lemma al_exec (x : FormTimer) s : leaves holds (ExecTimerTask QueryActiveOsAccountIds x) s.
Proof. unfold ExecTimerTask, IsActiveUser. al_steps. by apply al_emit. Qed.
#[local] Hint Resolve al_agent al_exec : alarms.

Lemma al_stop_at s : leaves holds (id ← gets updateAtTimerId_;
  if negb (id =? 0) then _ ← destroy_timer id; modify (λ s, s <| updateAtTimerId_ := 0 |>) else mret tt) s.
Proof.
  intros a s'. unfold mbind, ST_bind, gets. destruct (negb _); [|by intros [= <- <-]]. intros [= <- <-]. split; [|done]. intros H.
  apply (stands_silent 0 _ _ _ _ _ (DestroyTimer (updateAtTimerId_ s))); [done|]. by apply stands_stop.
Qed.
Lemma al_stop_limiter s : leaves holds drop_limiter_timer s.
Proof.
  unfold drop_limiter_timer. intros a s'. unfold mbind, ST_bind, gets. destruct (negb _); [|by intros [= <- <-]]. intros [= <- <-]. split; [|done]. intros H.
  apply (stands_silent _ 0 _ _ _ _ (DestroyTimer (limiterTimerId_ s))); [done|]. by apply stands_swap, stands_stop, stands_swap.
Qed.
Lemma al_start_at time s : leaves holds (id ← create_timer timer_id; _ ← modify (λ s, s <| updateAtTimerId_ := id |>);
  start_timer timer_starts id time) s.
Proof.
  intros a s'. unfold create_timer, start_timer, timer_emit, mbind, ST_bind, gets, modify. intros [= <- <-]. split; [|done]. intros H.
  destruct (fresh (ft_trace s)) as [H0 Hn]. apply (stands_start (updateAtTimerId_ s)); [done| |by apply stands_silent].
  by rewrite started_snoc, app_nil_r.
Qed.
Lemma al_start_limiter time s : leaves holds (id ← create_timer timer_id; _ ← modify (λ s, s <| limiterTimerId_ := id |>);
  start_timer timer_starts id time) s.
Proof.
  intros a s'. unfold create_timer, start_timer, timer_emit, mbind, ST_bind, gets, modify. intros [= <- <-]. split; [|done]. intros H.
  destruct (fresh (ft_trace s)) as [H0 Hn]. apply stands_swap, (stands_start (limiterTimerId_ s)); [done| |by apply stands_swap, stands_silent].
  by rewrite started_snoc, app_nil_r.
Qed.
#[local] Hint Resolve al_stop_at al_stop_limiter al_start_at al_start_limiter : alarms.

(** The agent of the refreshes is not that of the times of the day, nor that of the limits. *)
Lemma al_clear_at s : leaves holds ClearUpdateAtTimerResource s.
Proof.
  assert (∀ s, leaves holds (_ ← (id ← gets updateAtTimerId_;
    if negb (id =? 0) then _ ← destroy_timer id; modify (λ s, s <| updateAtTimerId_ := 0 |>) else mret tt);
    a ← gets currentUpdateAtWantAgent; _ ← cancel a; modify (λ s, s <| currentUpdateAtWantAgent := None |>)) s) as H by (intros; al_steps).
  intros a s' E. apply (H s a s'). exact E.
Qed.
Lemma al_clear_limiter s : leaves holds ClearLimiterTimerResource s.
Proof. unfold ClearLimiterTimerResource. al_steps. Qed.
#[local] Hint Resolve al_clear_at al_clear_limiter : alarms.
Lemma al_at_alarm ck s : leaves holds (UpdateAtTimerAlarm agent_made timer_id timer_starts ck) s.
Proof. unfold UpdateAtTimerAlarm, GetUpdateAtWantAgent. al_steps. Qed.
Lemma al_limiter_alarm ck s : leaves holds (UpdateLimiterAlarm agent_made timer_id timer_starts ck) s.
Proof. unfold UpdateLimiterAlarm, GetLimiterWantAgent. al_steps. Qed.
#[local] Hint Resolve al_at_alarm al_limiter_alarm : alarms.

(** The alarm itself. *)
Definition undressed s s' : Prop := apart (updateAtTimerId_ s) (limiterTimerId_ s) (dynamicAlarmTimerId_ s) (ft_trace s) →
  apart (updateAtTimerId_ s') (limiterTimerId_ s') 0 (ft_trace s') ∧ dynamicAlarmTimerId_ s' = 0 ∧ currentDynamicWantAgent s' = None ∧
  dynamicWakeUpTime_ s' = dynamicWakeUpTime_ s.
Lemma clear_dynamic s : wp ClearDynamicResource (λ _ s', undressed s s') s.
Proof.
  unfold ClearDynamicResource, destroy_timer, timer_emit. apply wp_bind, wp_gets, wp_bind.
  assert (∀ s1 : FormTimers, undressed s (s1 <| currentDynamicWantAgent := None |>) →
    wp (a ← gets currentDynamicWantAgent; _ ← cancel a; modify (λ s, s <| currentDynamicWantAgent := None |>)) (λ _ s', undressed s s') s1) as Hrest.
  { intros s1 H1. apply wp_bind, wp_gets. unfold cancel, timer_emit. destruct (currentDynamicWantAgent s1); [|by apply wp_bind, wp_ret, wp_modify].
    apply wp_bind, wp_modify, wp_modify. intros (H2 & H3 & _ & H4)%H1. split_and!; [by apply apart_snoc|done..]. }
  destruct (Z.eqb_spec (dynamicAlarmTimerId_ s) 0) as [E|Hne]; cbn [negb].
  - apply wp_ret, Hrest. unfold undressed, update. cbn. rewrite E. done.
  - apply wp_bind, wp_bind, wp_modify, wp_modify, wp_modify, Hrest. intros [H1 H2]. split_and!; [|done..]. do 2 apply apart_snoc.
    split; [|done]. intros id [->|[->| ->]] Hid; [apply H1; tauto|apply H1; tauto|done].
Qed.
Lemma run_dynamic_alarm s : alarms_ok s → wp (UpdateDynamicAlarm agent_made timer_id timer_starts) (λ _, neat) s.
Proof.
  intros H. unfold UpdateDynamicAlarm. apply wp_bind, wp_gets. destruct (dynamicRefreshTasks_ s) as [|i l] eqn:El.
  { apply wp_bind. eapply wp_mono; [apply clear_dynamic|]. cbv beta. intros _ s1 H1. apply wp_bind, wp_modify, wp_ret.
    destruct (H1 (proj1 H)) as (H2 & H3 & H4 & _). unfold neat, alarms_ok, stands, update. cbn. by rewrite H3, H4. }
  apply wp_bind, wp_gets. destruct (_ =? _) eqn:Ew; [apply wp_ret; split; [done|by rewrite El]|]. apply wp_bind, wp_modify, wp_bind.
  unfold GetDynamicWantAgent, GetWantAgent, timer_emit. apply wp_bind, wp_gets. rewrite made. apply wp_bind, wp_modify, wp_ret, wp_bind, wp_gets, wp_bind.
  set (s1 := update ft_trace _ _). assert (apart (updateAtTimerId_ s1) (limiterTimerId_ s1) (dynamicAlarmTimerId_ s1) (ft_trace s1)) as H1
    by (apply apart_snoc, H).
  assert (dynamicWakeUpTime_ s1 = dy_settedTime i ∧ currentDynamicWantAgent s1 = currentDynamicWantAgent s ∧ dynamicAlarmTimerId_ s1 = dynamicAlarmTimerId_ s)
    as (Hw & Ha & Hd) by done. assert (dynamicRefreshTasks_ s1 ≠ []) as Hl by (change (dynamicRefreshTasks_ s1) with (dynamicRefreshTasks_ s); by rewrite El).
  clearbody s1.
  apply (wp_mono _ (λ _ s2, apart (updateAtTimerId_ s2) (limiterTimerId_ s2) 0 (ft_trace s2) ∧ dynamicWakeUpTime_ s2 = dy_settedTime i ∧
    dynamicRefreshTasks_ s2 ≠ [])).
  { destruct (currentDynamicWantAgent s1) as [w|].
    - eapply (keeps_wp aside); [apply aside_ClearDynamicResource|].
      intros [] s2 E2 (_ & _ & _ & Et & _). pose proof (clear_dynamic s1) as H2. unfold wp in H2. rewrite E2 in H2.
      destruct (H2 H1) as (H3 & _ & _ & H4). split_and!; [done|congruence|by rewrite Et].
    - apply wp_ret. split; [|done]. destruct H as [_ H]. rewrite <- Ha in H. rewrite Hd in H1. by rewrite (proj1 H) in H1. }
  cbv beta. intros _ s2 (H2 & Hw2 & Hl2). apply wp_bind, wp_modify, wp_bind. unfold create_timer, start_timer, timer_emit.
  apply wp_bind, wp_gets, wp_bind, wp_modify, wp_ret, wp_bind, wp_modify, wp_bind, wp_bind, wp_gets, wp_bind, wp_modify, wp_ret, wp_ret.
  split; [|by intros ?%Hl2]. unfold alarms_ok, update. cbn. destruct (fresh (ft_trace s2)) as [H0 Hn]. set (id := timer_id (ft_trace s2)) in *.
  assert (id ∉ started (ft_trace s2 ++ [CreateTimer])) as Hn' by by rewrite started_snoc, app_nil_r. split.
  - destruct H2 as [H2 _]. split.
    + intros j Hj Hne. rewrite started_snoc, elem_of_app, list_elem_of_singleton, started_snoc, app_nil_r.
      destruct Hj as [->|[->| ->]]; [left; apply H2; tauto|left; apply H2; tauto|by right].
    + intros _. split; intros Eid; apply Hn; rewrite <- Eid; (apply H2; [tauto|congruence]).
  - rewrite Hw2. split_and!; [done..|]. by rewrite running_snoc, Z.eqb_refl.
Qed.
Lemma al_dynamic_alarm {A B} (m : M A) (k : bool → M B) s : leaves kept m s → (∀ ok s', leaves keeps_neat (k ok) s') →
  leaves keeps_neat (_ ← m; _ ← sort_dynamic; ok ← UpdateDynamicAlarm agent_made timer_id timer_starts; k ok) s.
Proof.
  intros Hm Hk a s' (x & s1 & E1 & (y & s2 & [= <- <-] & (ok & s3 & E3 & E)%ST_bind_Returned)%ST_bind_Returned)%ST_bind_Returned [Ha _].
  match type of E3 with _ ?s2 = _ => pose proof (run_dynamic_alarm s2 (Hm _ _ E1 Ha)) as H3 end.
  unfold wp in H3. rewrite E3 in H3. by apply (Hk ok s3 a s' E).
Qed.

Lemma al_ensure s : leaves holds EnsureInitIntervalTimer s.
Proof. unfold EnsureInitIntervalTimer. al_steps. by apply al_emit. Qed.
Lemma al_clear_interval s : leaves holds ClearIntervalTimer s.
Proof. unfold ClearIntervalTimer. al_steps. by apply al_emit. Qed.
#[local] Hint Resolve al_ensure al_clear_interval : alarms.
Lemma al_add_interval ck (x : FormTimer) s : leaves holds (AddIntervalTimer agent_made timer_id timer_starts ck x) s.
Proof. unfold AddIntervalTimer. al_steps. Qed.
Lemma al_add_at ck (x : FormTimer) s : leaves holds (AddUpdateAtTimer agent_made timer_id timer_starts ck x) s.
Proof. unfold AddUpdateAtTimer, AddUpdateAtItem. al_steps. Qed.
#[local] Hint Resolve al_add_interval al_add_at : alarms.
Lemma al_reset ck s : leaves holds (HandleResetLimiter agent_made timer_id timer_starts QueryActiveOsAccountIds ck) s.
Proof. unfold HandleResetLimiter, GetRemindTasks. al_steps. Qed.
#[local] Hint Resolve al_reset : alarms.
Lemma al_interval_loop now l s : leaves holds (interval_loop now l) s.
Proof. revert s. induction l as [|[k t] l IH]; intros s; cbn [interval_loop]; al_steps. Qed.
Lemma al_dynamic_loop u mk l s : leaves holds (dynamic_loop u mk l) s.
Proof. revert s. induction l as [|i l IH]; intros s; cbn [dynamic_loop]; unfold SetIntervalEnableFlag; al_steps. Qed.
Lemma al_delete_dynamic fuel f l s : leaves kept (delete_dynamic fuel f l) s.
Proof. revert s. induction fuel as [|fuel IH]; intros s; [done|]. cbn [delete_dynamic]. unfold SetIntervalEnableFlag. al_steps. Qed.
#[local] Hint Resolve al_interval_loop al_dynamic_loop al_delete_dynamic : alarms.

Lemma al_DeleteDynamicItem fuel f s : leaves keeps_neat (DeleteDynamicItem agent_made timer_id timer_starts fuel f) s.
Proof.
  unfold DeleteDynamicItem. apply leaves_bind; [apply _|apply leaves_gets, _|]. intros l s1 _ a s' E.
  apply (al_dynamic_alarm (delete_dynamic fuel f l) mret s1 (al_delete_dynamic fuel f l s1) (λ ok s', leaves_ret _ ok s') a s').
  revert E. unfold mbind, ST_bind, mret, ST_ret. destruct (delete_dynamic fuel f l s1) as [[? s2]| |]; [|done..].
  destruct (sort_dynamic s2) as [[? s3]| |]; [|done..]. by destruct (UpdateDynamicAlarm _ _ _ s3) as [[]| |].
Qed.
#[local] Hint Resolve al_DeleteDynamicItem : alarms.

Lemma al_event e s : leaves keeps_neat (timer_event e) s.
Proof.
  destruct e as [ck f d u|ck f h m u|ck f ty cfg|ck f gap u|ck f|f|f|f|ck|ck e]; cbn [timer_event]; unfold ignore; al_steps.
  - unfold AddFormTimer_interval, AddFormTimer. al_steps.
  - unfold AddFormTimer_at, AddFormTimer. al_steps.
  - unfold UpdateFormTimer, UpdateIntervalValue, UpdateAtTimerValue, IntervalToAtTimer, AtTimerToIntervalTimer, take_at_item, AddUpdateAtItem. al_steps.
  - unfold SetNextRefreshTime, SetEnableFlag, SetIntervalEnableFlag. destruct (_ <? _); [apply leaves_ret, _|].
    apply leaves_bind; [apply _|apply leaves_gets, _|]. intros speed s1 _. apply al_dynamic_alarm; [al_steps|]. intros ok s2. al_steps.
  - unfold RemoveFormTimer, DeleteIntervalTimer, DeleteUpdateAtTimer. al_steps.
  - unfold OnIntervalTimeOut. al_steps.
  - unfold OnReceiveEvent, SetTimeSpeed, HandleSystemTimeChanged, OnUpdateAtTrigger. destruct e; al_steps.
    unfold OnDynamicTimeTrigger. apply leaves_bind; [apply _|apply leaves_gets, _|]. intros l s1 _.
    apply leaves_bind; [apply _|apply holds_neat, al_dynamic_loop|]. intros [l' due] s2 _. apply al_dynamic_alarm; [al_steps|]. intros ok s3. al_steps.
Qed.

Lemma reachable_neat s : timer_reachable s → neat s.
Proof.
  unfold timer_reachable. assert (∀ s1, rtc (event_step timer_event (λ _ _, True)) s1 s → neat s1 → neat s) as H.
  { intros s1 H. induction H as [|s1 s2 s3 [e s1' s2' _ E] _ IH]; [done|]. intros H1. apply IH. by apply (al_event e s1' tt s2' E). }
  intros Hs. apply (H _ Hs). split; [|done]. split; [split; [by intros id [->|[->| ->]]|done]|done].
Qed.
Lemma reachable_alarm_stands s : timer_reachable s → dynamic_alarm_stands s.
Proof.
  intros Hs. destruct (reachable_timers s Hs) as [_ Hw]. destruct (reachable_neat s Hs) as [[_ Ha] Hn]. unfold dynamic_alarm_stands, dynamic_wake in *.
  rewrite Hw in Ha. destruct (dynamicRefreshTasks_ s) as [|i l].
  - specialize (Hn eq_refl). rewrite Hn in *. by destruct Ha.
  - intros Hi. destruct (currentDynamicWantAgent s) as [w|]; [|by destruct Ha]. by destruct Ha as (-> & _ & Hr).
Qed.
End alarm_stands.

(** ** The invariant *)

(** C15: whatever the clients, the clocks and the time service do, the interval
    timers are in the order of their forms with a period of at most a week, the times
    of the day are in order, valid and one for each form, and the moment that the service
    has noted down for the refreshes that were asked for is that of the first of their
    list; every event returns, except the removal of a form while the first of these
    refreshes is another form's. When agents can be made and the time service gives each
    timer an id of its own, the alarm stands too: without refreshes there is no timer and
    no agent for them; with some (of which the first is not for INT64_MAX, that stands
    for no alarm) the timer of this alarm was started for the moment of the first of the
    list and not stopped since, and its agent carries that moment. *)
Theorem timers_consistent s : timer_reachable s →
  timers_ok s ∧ (∀ e, may_happen s e = true → ∃ s', timer_event e s = Returned (tt, s') ∧ timers_ok s') ∧
  ((∀ t, agent_made t = true) → (∀ t, timer_id t ≠ 0 ∧ (timer_id t ∉ started t)) → dynamic_alarm_stands s).
Proof.
  intros Hr. pose proof (reachable_timers s Hr) as Hs. split_and!; [done| |intros Hm Hf; by apply reachable_alarm_stands].
  intros e He. destruct (wp_run _ _ _ (ok_event e s Hs He)) as ([] & s' & E & H'). by exists s'.
Qed.

(** A form cannot be removed while the first of the refreshes that were asked
    for is another form's: the loop that looks for its own never moves on, however
    long it runs. *)
Theorem RemoveFormTimer_hangs fuel s ck f i l t : dynamicRefreshTasks_ s = i :: l → dy_formId i ≠ f →
  map_find f (intervalTimerTasks_ s) = Some t →
  RemoveFormTimer agent_made timer_id timer_starts fuel ck f s = OutOfFuel ∧
  GetDynamicItem fuel f s = OutOfFuel.
Proof.
  intros El Hne Hf. split.
  - unfold RemoveFormTimer, mbind at 1, ST_bind at 1.
    assert (wp (DeleteIntervalTimer f) (λ there s1, there = true ∧ dynamicRefreshTasks_ s1 = i :: l) s) as (? & s1 & E1 & -> & El1)%wp_run.
    { unfold DeleteIntervalTimer. apply wp_bind, wp_gets, ok_modify, wp_bind, wp_gets, wp_bind.
      eapply (keeps_wp aside); [|intros a s' _ Ha; apply wp_ret; split; [|by rewrite <- El; apply Ha]]; [aside_steps|].
      rewrite Hf. done. }
    rewrite E1. cbv beta iota. unfold mbind, ST_bind, mret, ST_ret. cbn [negb]. by rewrite (stuck_delete_dynamic _ _ _ _ _ _ _ _ El1 Hne).
  - unfold GetDynamicItem, mbind, ST_bind, gets. rewrite El. induction fuel as [|fuel IH]; [done|].
    rewrite run_get_dynamic. by apply Z.eqb_neq in Hne as ->.
Qed.

(** ** Times of the day *)

(** The clock of a day of 24 hours that began at [midnight], not at the very start
    of a minute. *)
Record regular (ck : Clock) (midnight hour min : Z) : Prop := {
  rg_local : ck_localtime ck = Some (hour, min);
  rg_day : 0 ≤ hour * 60 + min < 1440;
  rg_now : midnight + (hour * 60 + min) * 60000 < GetCurrentMillisecond ck < midnight + (hour * 60 + min + 1) * 60000;
  rg_mktime h m sec : ck_mktime ck h m sec = midnight + h * 3600000 + m * 60000 + sec * 1000;
}.

(** When the time of the day of an item comes next. *)
Definition is_late ck (i : UpdateAtItem) : bool :=
  GetMillisecondFromTm ck (t_hour (refreshTask i)) (t_min (refreshTask i)) 0 <? GetCurrentMillisecond ck.
Definition next_at ck (i : UpdateAtItem) : Z :=
  GetMillisecondFromTm ck (t_hour (refreshTask i)) (t_min (refreshTask i)) 0 + (if is_late ck i then MS_PER_DAY else 0).
Definition wake_of ck (i : UpdateAtItem) : Z := updateAtTime i + (if is_late ck i then 1440 else 0).

Lemma regular_at ck midnight hour min l i : regular ck midnight hour min → at_ok l → i ∈ l →
  0 ≤ updateAtTime i < 1440 ∧ is_late ck i = (updateAtTime i <=? hour * 60 + min) ∧
  next_at ck i = midnight + (updateAtTime i + if updateAtTime i <=? hour * 60 + min then 1440 else 0) * 60000.
Proof.
  intros [H1 _ H2 H3] Hl Hi. destruct (at_times _ Hl i Hi) as [Hv Hu]. unfold valid_time, MIN_TIME, MAX_HOUR, MAX_MINUTE, MIN_PER_HOUR in *.
  bool_to_prop. unfold next_at, is_late, GetMillisecondFromTm. rewrite H3.
  assert ((midnight + t_hour (refreshTask i) * 3600000 + t_min (refreshTask i) * 60000 + 0 * 1000 <? GetCurrentMillisecond ck) =
    (updateAtTime i <=? hour * 60 + min)) as E.
  { destruct (Z.ltb_spec (midnight + t_hour (refreshTask i) * 3600000 + t_min (refreshTask i) * 60000 + 0 * 1000) (GetCurrentMillisecond ck)),
      (Z.leb_spec (updateAtTime i) (hour * 60 + min)); lia. }
  rewrite E. unfold MS_PER_DAY. split_and!; [lia|lia|done|]. destruct (_ <=? _); lia.
Qed.

Lemma find_next_first ck midnight hour min l found : regular ck midnight hour min → at_ok l →
  FindNextAtTimerItem (hour * 60 + min) l = Some found → found ∈ l ∧ ∀ i, i ∈ l → next_at ck found ≤ next_at ck i.
Proof.
  intros Hck Hl E. destruct l as [|first l]; [done|]. set (l0 := first :: l) in *.
  assert (default first (List.find (λ i, hour * 60 + min <? updateAtTime i) l0) = found) as <- by (by injection E).
  clear E. pose proof (at_sorted _ Hl) as Hs.
  destruct (List.find (λ i, hour * 60 + min <? updateAtTime i) l0) as [i|] eqn:Ef; cbn [from_option id].
  - pose proof Ef as [Hin Hp]%find_Some_elem. split; [done|]. intros j Hj. bool_to_prop.
    destruct (regular_at _ _ _ _ _ _ Hck Hl Hin) as (B1 & _ & ->), (regular_at _ _ _ _ _ _ Hck Hl Hj) as (B2 & _ & ->).
    assert ((updateAtTime i <=? hour * 60 + min) = false) as -> by lia.
    destruct (Z.leb_spec (updateAtTime j) (hour * 60 + min)) as [|Hlt]; [lia|].
    assert (updateAtTime i ≤ updateAtTime j); [|lia].
    clear -Hs Ef Hj Hlt. induction Hs as [|a l' Hs IH Ha]; [done|]. cbn in Ef. rewrite Forall_forall in Ha.
    destruct (_ <? _) eqn:Ea; [simplify_eq|].
    + apply elem_of_cons in Hj as [->|Hj]; [lia|by apply Ha].
    + bool_to_prop. apply elem_of_cons in Hj as [->|Hj]; [lia|by apply IH].
  - assert (first ∈ l0) as Hin by left. split; [done|]. intros j Hj.
    pose proof (find_None_elem _ _ _ Ef Hin) as H1. pose proof (find_None_elem _ _ _ Ef Hj) as H2. cbv beta in H1, H2. bool_to_prop.
    destruct (regular_at _ _ _ _ _ _ Hck Hl Hin) as (B1 & _ & ->), (regular_at _ _ _ _ _ _ Hck Hl Hj) as (B2 & _ & ->).
    destruct (Z.leb_spec (updateAtTime first) (hour * 60 + min)); [|lia]. destruct (Z.leb_spec (updateAtTime j) (hour * 60 + min)); [|lia].
    assert (updateAtTime first ≤ updateAtTime j); [|lia]. apply elem_of_cons in Hj as [->|Hj]; [lia|].
    apply StronglySorted_inv in Hs as [_ Ha]. rewrite Forall_forall in Ha. by apply Ha.
Qed.

(** A list with an item has a next one. *)
Lemma find_next_some now l : l ≠ [] → ∃ found, FindNextAtTimerItem now l = Some found.
Proof. destruct l; [done|]. intros _. cbn [FindNextAtTimerItem]. eauto. Qed.

(** C16: on a day of 24 hours, not at the very start of a minute, and when the services
    do what they are asked, the setting of the alarm of the times of the day returns true
    and picks the item whose time of the day comes first from now on, at most a day
    ahead. Unless the service has noted down the minute of this moment already - today's,
    or tomorrow's as 1440 and more - it notes it down, makes the want that tells the time
    of the day and, last, starts a timer for exactly that moment. If it has, nothing at
    all is done, whether the alarm for that minute still stands or, as in
    [at_alarm_not_renewed], has rung. *)
Theorem UpdateAtTimerAlarm_next s ck midnight hour min :
  timer_reachable s → regular ck midnight hour min → updateAtTimerTasks_ s ≠ [] →
  (∀ t, agent_made t = true) → (∀ t, timer_starts t = true) →
  ∃ s' found, UpdateAtTimerAlarm agent_made timer_id timer_starts ck s = Returned (true, s') ∧
    found ∈ updateAtTimerTasks_ s ∧ (∀ i, i ∈ updateAtTimerTasks_ s → next_at ck found ≤ next_at ck i) ∧
    GetCurrentMillisecond ck ≤ next_at ck found ≤ GetCurrentMillisecond ck + MS_PER_DAY ∧
    (if decide (atTimerWakeUpTime_ s = wake_of ck found) then s' = s
     else atTimerWakeUpTime_ s' = wake_of ck found ∧
     currentUpdateAtWantAgent s' = Some (mkTimerWant (Some TYPE_STATIC_UPDATE) (Some (updateAtTime found)) None None) ∧
     last (ft_trace s') = Some (StartTimer (updateAtTimerId_ s')
       (wrap_u64 (ck_steady ck + (next_at ck found - GetCurrentMillisecond ck))))).
Proof.
  intros [Hs _]%reachable_timers Hck Hne Hag Hst. pose proof (tm_at _ Hs) as Hat.
  destruct (find_next_some (hour * 60 + min) _ Hne) as [found Ef].
  destruct (find_next_first _ _ _ _ _ _ Hck Hat Ef) as [Hin Hmin].
  destruct (regular_at _ _ _ _ _ _ Hck Hat Hin) as (B1 & Hlate & Hnext).
  assert (wp (UpdateAtTimerAlarm agent_made timer_id timer_starts ck) (λ r s', r = true ∧
    (if decide (atTimerWakeUpTime_ s = wake_of ck found) then s' = s
     else atTimerWakeUpTime_ s' = wake_of ck found ∧
     currentUpdateAtWantAgent s' = Some (mkTimerWant (Some TYPE_STATIC_UPDATE) (Some (updateAtTime found)) None None) ∧
     last (ft_trace s') = Some (StartTimer (updateAtTimerId_ s')
       (wrap_u64 (ck_steady ck + (next_at ck found - GetCurrentMillisecond ck))))) ) s) as (? & s' & E & -> & H)%wp_run.
  { unfold UpdateAtTimerAlarm. rewrite (rg_local _ _ _ _ Hck). cbv zeta. apply wp_bind, wp_gets. unfold MIN_PER_HOUR at 1.
    rewrite Ef. fold (is_late ck found). apply wp_bind, wp_gets.
    assert ((if is_late ck found then updateAtTime found + HOUR_PER_DAY * MIN_PER_HOUR else updateAtTime found) = wake_of ck found) as ->
      by (unfold wake_of, HOUR_PER_DAY, MIN_PER_HOUR; destruct (is_late ck found); lia).
    assert ((if is_late ck found then GetMillisecondFromTm ck (t_hour (refreshTask found)) (t_min (refreshTask found)) 0 + MS_PER_DAY
      else GetMillisecondFromTm ck (t_hour (refreshTask found)) (t_min (refreshTask found)) 0) = next_at ck found) as ->
      by (unfold next_at; destruct (is_late ck found); lia).
    destruct (Z.eqb_spec (wake_of ck found) (atTimerWakeUpTime_ s)) as [Ew|Hne2]; [apply wp_ret; split; [done|by rewrite decide_True]|].
    unfold GetUpdateAtWantAgent, GetWantAgent, timer_emit. apply wp_bind, wp_bind, wp_gets. rewrite Hag. apply ok_modify, wp_ret, ok_modify.
    set (s1 := _ <| atTimerWakeUpTime_ := _ |>). assert (atTimerWakeUpTime_ s1 = wake_of ck found) as Hw by done. clearbody s1.
    apply wp_bind, wp_gets, wp_bind.
    eapply (wp_mono _ (λ _ s2, atTimerWakeUpTime_ s2 = wake_of ck found)).
    { destruct (currentUpdateAtWantAgent s1); [|by apply wp_ret]. unfold ClearUpdateAtTimerResource, destroy_timer, cancel, timer_emit.
      apply wp_bind, wp_gets, wp_bind. destruct (negb _); [apply ok_modify, wp_modify|apply wp_ret]; cbv beta; apply wp_bind, wp_gets, wp_bind;
        (destruct (currentUpdateAtWantAgent _); [apply wp_modify|apply wp_ret]); by apply wp_modify. }
    cbv beta. intros _ s2 Hw2. apply ok_modify. unfold create_timer, start_timer, timer_emit.
    apply wp_bind, wp_bind, wp_gets, ok_modify, wp_ret, ok_modify, wp_bind, wp_gets. rewrite Hst. apply ok_modify, wp_ret.
    split; [done|]. rewrite decide_False by congruence. split; [done|]. split; [done|]. timers_cbn. by rewrite last_snoc. }
  exists s', found. split; [done|]. split; [done|]. split; [done|]. split; [|done].
  destruct Hck as [_ Hday Hnow _]. unfold MS_PER_DAY. rewrite Hnext. destruct (Z.leb_spec (updateAtTime found) (hour * 60 + min)); lia.
Qed.

(** What a trigger does once the alarm is believed to stand. *)
Definition is_refresh (e : TimerEffect) : Prop := match e with RefreshForm _ _ _ => True | _ => False end.

Lemma only_refreshes {A} (g : A → FormTimer) l s : wp (for_each (λ x, ExecTimerTask QueryActiveOsAccountIds (g x)) l)
  (λ _ s', ∃ es, s' = s <| ft_trace ::= λ t, t ++ es |> ∧ Forall is_refresh es ∧
    omap (λ e, match e with RefreshForm f _ _ => Some f | _ => None end) es = t_formId ∘ g <$> l) s.
Proof.
  revert s. induction l as [|x l IH]; intros s; cbn [for_each].
  - apply wp_ret. exists []. split; [|done]. destruct s. unfold update. cbn. by rewrite app_nil_r.
  - apply wp_bind. unfold ExecTimerTask, IsActiveUser at 1, timer_emit at 1. apply wp_bind, wp_bind, wp_gets, wp_ret, wp_modify.
    eapply wp_mono; [apply IH|]. cbv beta. intros _ s' (es & -> & Hes & Hf).
    eexists (RefreshForm _ _ _ :: es). split; [|split; [by constructor|by cbn; rewrite Hf]].
    timers_cbn. by rewrite <- app_assoc.
Qed.

(** When all times of the day are the same, the alarm stands at that time of
    the next day and goes off, the forms are refreshed but no alarm is set again: the
    service takes the one that has just gone off for the next one. *)
Theorem at_alarm_not_renewed s ck midnight hour min u :
  timer_reachable s → regular ck midnight hour min → u = hour * 60 + min → updateAtTimerTasks_ s ≠ [] →
  (∀ i, i ∈ updateAtTimerTasks_ s → updateAtTime i = u) → atTimerWakeUpTime_ s = u + 1440 →
  ∃ s' es, OnUpdateAtTrigger agent_made timer_id timer_starts QueryActiveOsAccountIds ck u s = Returned (true, s') ∧
    ft_trace s' = ft_trace s ++ es ∧ Forall is_refresh es ∧
    omap (λ e, match e with RefreshForm f _ _ => Some f | _ => None end) es =
      (λ i, t_formId (refreshTask i)) <$> List.filter (λ i, t_isEnable (refreshTask i)) (updateAtTimerTasks_ s) ∧
    atTimerWakeUpTime_ s' = u + 1440.
Proof.
  intros [Hs _]%reachable_timers Hck Hu Hne Hall Hw. pose proof (tm_at _ Hs) as Hat.
  assert (wp (OnUpdateAtTrigger agent_made timer_id timer_starts QueryActiveOsAccountIds ck u) (λ r s', r = true ∧ ∃ es,
    ft_trace s' = ft_trace s ++ es ∧ Forall is_refresh es ∧
    omap (λ e, match e with RefreshForm f _ _ => Some f | _ => None end) es =
      (λ i, t_formId (refreshTask i)) <$> List.filter (λ i, t_isEnable (refreshTask i)) (updateAtTimerTasks_ s) ∧
    atTimerWakeUpTime_ s' = u + 1440) s) as (? & s' & E & -> & es & H)%wp_run; [|by exists s', es].
  unfold OnUpdateAtTrigger. apply wp_bind, wp_gets. cbv zeta. apply wp_bind.
  unfold UpdateAtTimerAlarm. rewrite (rg_local _ _ _ _ Hck). cbv zeta. apply wp_bind, wp_gets. unfold MIN_PER_HOUR at 1.
  destruct (find_next_some (hour * 60 + min) _ Hne) as [found Ef]. rewrite Ef.
  destruct (find_next_first _ _ _ _ _ _ Hck Hat Ef) as [Hin _]. fold (is_late ck found).
  destruct (regular_at _ _ _ _ _ _ Hck Hat Hin) as (_ & -> & _). rewrite (Hall _ Hin), <- Hu, Z.leb_refl.
  apply wp_bind, wp_gets. change (HOUR_PER_DAY * MIN_PER_HOUR) with 1440. rewrite Hw, Z.eqb_refl. apply wp_ret. cbn [negb].
  apply wp_bind. eapply wp_mono; [apply only_refreshes|]. cbv beta. intros _ s' (es & -> & Hes & Hf). apply wp_ret.
  split; [done|]. exists es. split; [done|]. split; [done|]. split; [|done]. rewrite Hf. unfold compose. f_equal.
  apply filter_ext_in. intros i Hi. rewrite (Hall i) by (by apply list_elem_of_In). by rewrite Z.eqb_refl.
Qed.

(** ** Refreshes that were asked for *)

Lemma testbit_wrap_i32 z i : 0 ≤ i → Z.testbit (wrap_i32 z) i = Z.testbit z (Z.min i 31).
Proof.
  intros Hi. unfold wrap_i32.
  assert (0 ≤ z `mod` 4294967296 < 4294967296) as Hm by (apply Z.mod_pos_bound; lia).
  assert (∀ j, 0 ≤ j < 32 → Z.testbit (z `mod` 4294967296) j = Z.testbit z j) as Hlow
    by (intros; change 4294967296 with (2 ^ 32); apply Z.mod_pow2_bits_low; lia).
  assert (Z.testbit z 31 = (2147483648 <=? z `mod` 4294967296)) as H31.
  { rewrite <- Hlow by lia. rewrite Z.testbit_odd, Z.shiftr_div_pow2 by lia. change (2 ^ 31) with 2147483648.
    destruct (Z.leb_spec 2147483648 (z `mod` 4294967296)).
    - replace ((z `mod` 4294967296) `div` 2147483648) with 1; [done|]. apply Z.div_unique with (z `mod` 4294967296 - 2147483648); lia.
    - rewrite Z.div_small by lia. done. }
  assert ((z + 2147483648) `mod` 4294967296 - 2147483648 =
    if 2147483648 <=? z `mod` 4294967296 then z `mod` 4294967296 - 4294967296 else z `mod` 4294967296) as ->.
  { rewrite <- (Z.add_mod_idemp_l z) by lia. destruct (Z.leb_spec 2147483648 (z `mod` 4294967296)).
    - replace (z `mod` 4294967296 + 2147483648) with (z `mod` 4294967296 - 2147483648 + 1 * 4294967296) by lia.
      rewrite Z_mod_plus_full, Z.mod_small by lia. lia.
    - rewrite Z.mod_small by lia. lia. }
  destruct (Z.leb_spec 2147483648 (z `mod` 4294967296)) as [Hb|Hb].
  - destruct (Z.le_gt_cases 32 i).
    + replace (Z.min i 31) with 31 by lia. rewrite H31. apply Z.bits_above_log2_neg; [lia|].
      apply Z.le_lt_trans with (Z.log2 4294967295); [apply Z.log2_le_mono; lia|]. change (Z.log2 4294967295) with 31. lia.
    + replace (z `mod` 4294967296 - 4294967296) with (z `mod` 4294967296 + -1 * 2 ^ 32) by lia.
      rewrite <- (Z.mod_pow2_bits_low _ 32 i) by lia. rewrite Z_mod_plus_full. rewrite Z.mod_pow2_bits_low by lia.
      rewrite Hlow by lia. f_equal. lia.
  - destruct (Z.le_gt_cases 32 i).
    + replace (Z.min i 31) with 31 by lia. rewrite H31. apply Z.bits_above_log2; [lia|].
      apply Z.le_lt_trans with (Z.log2 4294967295); [apply Z.log2_le_mono; lia|]. change (Z.log2 4294967295) with 31. lia.
    + rewrite Hlow by lia. f_equal. lia.
Qed.

(** The wake-up time that an alarm carries as two ints comes out of them as it
    went in when bit 31 of it is clear. When it is set - for 25 of every 50 days that
    the device has been running - the sign of the low half fills the high one: the
    time is negative, and the receiver drops the alarm. *)
Theorem dynamic_time_roundtrip s ck t : 0 ≤ t ≤ INT64_MAX →
  dynamic_time (dynamic_want t) = (if Z.testbit t 31 then wrap_i32 t else t) ∧
  (Z.testbit t 31 = true → timer_event (TCommonEvent ck (ACTION_UPDATEATTIMER (dynamic_want t))) s = Returned (tt, s)).
Proof.
  intros Ht. unfold INT64_MAX in Ht.
  assert (wrap_i32 (Z.shiftr t 32) = Z.shiftr t 32 ∧ wrap_i64 (Z.shiftl (Z.shiftr t 32) 32) = Z.shiftl (Z.shiftr t 32) 32) as [E1 E2].
  { rewrite Z.shiftl_mul_pow2, Z.shiftr_div_pow2 by lia. change (2 ^ 32) with 4294967296.
    assert (0 ≤ t `div` 4294967296 < 2147483648) by (split; [apply Z.div_pos; lia|apply Z.div_lt_upper_bound; lia]).
    split; [apply wrap_i32_id; unfold INT_MAX; lia|]. unfold wrap_i64. rewrite Z.mod_small; lia. }
  assert (dynamic_time (dynamic_want t) = if Z.testbit t 31 then wrap_i32 t else t) as Ed.
  { unfold dynamic_time, dynamic_want, SHIFT_BIT_LENGTH. cbn [tw_left tw_right from_option id]. rewrite E1, E2. apply Z.bits_inj'. intros i Hi.
    rewrite Z.lor_spec, Z.shiftl_spec, testbit_wrap_i32 by lia.
    assert (Z.testbit (if Z.testbit t 31 then wrap_i32 t else t) i = if Z.testbit t 31 then Z.testbit t (Z.min i 31) else Z.testbit t i) as ->
      by (destruct (Z.testbit t 31); [by apply testbit_wrap_i32|done]).
    destruct (Z.le_gt_cases 32 i).
    - rewrite Z.shiftr_spec by lia. replace (i - 32 + 32) with i by lia. replace (Z.min i 31) with 31 by lia.
      destruct (Z.testbit t 31), (Z.testbit t i); done.
    - rewrite Z.testbit_neg_r by lia. replace (Z.min i 31) with i by lia. by destruct (Z.testbit t 31). }
  split; [done|]. intros Hb. rewrite Hb in Ed. cbn [timer_event OnReceiveEvent]. cbv zeta. change (tw_type (dynamic_want t)) with (Some TYPE_DYNAMIC_UPDATE).
  cbn [from_option id]. rewrite Ed.
  assert ((wrap_i32 t <=? 0) = true) as ->; [|done]. apply Z.leb_le.
  assert (Z.testbit (wrap_i32 t) 31 = true) as Hn by (rewrite testbit_wrap_i32 by lia; by rewrite Z.min_id).
  destruct (Z.le_gt_cases (wrap_i32 t) 0); [done|]. pose proof (wrap_i32_range t) as Hr. unfold INT_MAX in Hr.
  rewrite Z.bits_above_log2 in Hn; [done|lia|]. apply Z.log2_lt_pow2; [lia|]. change (2 ^ 31) with 2147483648. lia.
Qed.

(** The alarm of the limits leaves the one of the refreshes alone. *)
Definition calm_dynamic s s' : Prop :=
  dynamicAlarmTimerId_ s' = dynamicAlarmTimerId_ s ∧ currentDynamicWantAgent s' = currentDynamicWantAgent s ∧
  dynamicWakeUpTime_ s' = dynamicWakeUpTime_ s ∧ dynamicRefreshTasks_ s' = dynamicRefreshTasks_ s.
#[local] Instance calm_dynamic_preorder : PreOrder calm_dynamic.
Proof. split; [by repeat split|]. intros s1 s2 s3 (?&?&?&?) (?&?&?&?). split_and!; congruence. Qed.

Lemma calm_UpdateLimiterAlarm ck s : keeps calm_dynamic (UpdateLimiterAlarm agent_made timer_id timer_starts ck) s.
Proof.
  unfold UpdateLimiterAlarm, drop_limiter_timer, ClearLimiterTimerResource, GetLimiterWantAgent, GetWantAgent, create_timer, start_timer,
    destroy_timer, cancel, drop_limiter_timer, destroy_timer, timer_emit. repeat aside_step.
Qed.

Lemma limiter_alarm_works ck s hm : ck_localtime ck = Some hm → (∀ t, agent_made t = true) → (∀ t, timer_starts t = true) →
  wp (UpdateLimiterAlarm agent_made timer_id timer_starts ck) (λ ok _, ok = true) s.
Proof.
  intros Hck Hag Hst. unfold UpdateLimiterAlarm. rewrite Hck. apply wp_bind.
  eapply (keeps_wp calm_dynamic); [unfold drop_limiter_timer, destroy_timer, timer_emit; repeat aside_step|]. intros _ s1 _ _. cbv zeta.
  apply wp_bind. unfold GetLimiterWantAgent, GetWantAgent, timer_emit. apply wp_bind, wp_gets. rewrite Hag. apply ok_modify, wp_ret.
  apply wp_bind, wp_gets, wp_bind. set (s2 := update ft_trace _ s1). clearbody s2.
  eapply (keeps_wp calm_dynamic).
  { unfold ClearLimiterTimerResource, drop_limiter_timer, destroy_timer, cancel, timer_emit. repeat aside_step. }
  intros _ s3 _ _. apply ok_modify. unfold create_timer, start_timer, timer_emit.
  apply wp_bind, wp_bind, wp_gets, ok_modify, wp_ret, ok_modify, wp_bind, wp_gets. rewrite Hst. by apply ok_modify, wp_ret.
Qed.

Lemma set_dynamic_new f u t l : (∀ i, i ∈ l → is_dynamic f u i = false) → set_dynamic f u t l = l ++ [mkDynamic f t u].
Proof. induction l as [|i l IH]; intros H; [done|]. cbn. rewrite (H i) by left. by rewrite IH by (intros j Hj; apply H; by right). Qed.

Lemma head_is_latest i l : StronglySorted later_first (i :: l) → ∀ j, j ∈ i :: l → dy_settedTime j ≤ dy_settedTime i.
Proof.
  intros [_ H]%StronglySorted_inv j [->|Hj]%elem_of_cons; [lia|]. rewrite Forall_forall in H. by apply H.
Qed.

(** The alarm for the refreshes that were asked for stands at the latest of
    them. So a refresh that is asked for while a later one waits gets no alarm of
    its own: the time at which the service wakes up stays that of the later one. *)
Theorem early_refresh_waits s ck hm f gap u :
  timer_reachable s → ck_localtime ck = Some hm → (∀ t, agent_made t = true) → (∀ t, timer_starts t = true) →
  MIN_NEXT_TIME ≤ gap → dynamicRefreshTasks_ s ≠ [] → (∀ i, i ∈ dynamicRefreshTasks_ s → is_dynamic f u i = false) →
  next_refresh_time ck gap (timeSpeed_ s) ≤ dynamicWakeUpTime_ s →
  ∃ s', SetNextRefreshTime agent_made timer_id timer_starts ck f gap u s = Returned (true, s') ∧
    mkDynamic f (next_refresh_time ck gap (timeSpeed_ s)) u ∈ dynamicRefreshTasks_ s' ∧
    (∀ i, i ∈ dynamicRefreshTasks_ s' → dy_settedTime i ≤ dynamicWakeUpTime_ s') ∧
    dynamicWakeUpTime_ s' = dynamicWakeUpTime_ s ∧ dynamicAlarmTimerId_ s' = dynamicAlarmTimerId_ s ∧
    currentDynamicWantAgent s' = currentDynamicWantAgent s.
Proof.
  intros [[H1 H2 H3 H4] Hwake]%reachable_timers Hck Hag Hst Hgap Hne Hnew Hle.
  set (item := mkDynamic f (next_refresh_time ck gap (timeSpeed_ s)) u).
  set (l' := list_sort CompareDynamicRefreshItem (dynamicRefreshTasks_ s ++ [item])).
  assert (l' ≡ₚ item :: dynamicRefreshTasks_ s) as Hp by (unfold l'; by rewrite list_sort_perm, Permutation_app_comm).
  assert (∀ i, i ∈ l' → dy_settedTime i ≤ dynamicWakeUpTime_ s) as Hall.
  { intros i. rewrite Hp, elem_of_cons. intros [->|Hi]; [done|]. rewrite Hwake. destruct (dynamicRefreshTasks_ s) as [|i0 l]; [done|].
    by apply head_is_latest with l. }
  assert (∃ j l1, l' = j :: l1 ∧ dy_settedTime j = dynamicWakeUpTime_ s) as (j & l1 & El & Ej).
  { pose proof (sort_dynamic_sorted (dynamicRefreshTasks_ s ++ [item])) as Hs. fold l' in Hs.
    destruct l' as [|j l1]; [by apply Permutation_nil in Hp|]. exists j, l1. split; [done|].
    apply Z.le_antisymm; [apply Hall; left|]. rewrite Hwake. destruct (dynamicRefreshTasks_ s) as [|i0 l]; [done|].
    apply (head_is_latest _ _ Hs). rewrite Hp. right. left. }
  assert (wp (SetNextRefreshTime agent_made timer_id timer_starts ck f gap u) (λ r s', r = true ∧ dynamicRefreshTasks_ s' = l' ∧
    dynamicWakeUpTime_ s' = dynamicWakeUpTime_ s ∧ dynamicAlarmTimerId_ s' = dynamicAlarmTimerId_ s ∧
    currentDynamicWantAgent s' = currentDynamicWantAgent s) s) as (? & s' & E & -> & El' & Ew & Ei & Ea)%wp_run.
  { unfold SetNextRefreshTime. assert ((gap <? MIN_NEXT_TIME) = false) as -> by (apply Z.ltb_ge; lia). apply wp_bind, wp_gets, ok_modify.
    unfold sort_dynamic. apply ok_modify, wp_bind. unfold UpdateDynamicAlarm. apply wp_bind, wp_gets.
    set (s1 := update dynamicRefreshTasks_ (list_sort _) _).
    assert (dynamicRefreshTasks_ s1 = j :: l1) as E1. { rewrite <- El. unfold l'. unfold s1. timers_cbn. by rewrite set_dynamic_new. }
    assert (calm_dynamic (s <| dynamicRefreshTasks_ := l' |>) s1) as Hc by (split_and!; [done..|timers_cbn; congruence]).
    clearbody s1. rewrite E1. apply wp_bind, wp_gets.
    assert ((dynamicWakeUpTime_ s1 =? dy_settedTime j) = true) as ->.
    { destruct Hc as (_ & _ & -> & _). timers_cbn. apply Z.eqb_eq. congruence. }
    apply wp_ret. cbn [negb]. apply wp_bind.
    eapply wp_mono; [apply wp_and; [apply (limiter_alarm_works ck s1 hm Hck Hag Hst)|apply (calm_UpdateLimiterAlarm ck s1)]|].
    cbv beta. intros ok s2 [-> Hc2]. cbn [negb]. assert (calm_dynamic (s <| dynamicRefreshTasks_ := l' |>) s2) as (A1 & A2 & A3 & A4) by by etransitivity.
    apply wp_bind. unfold with_limiter, wp at 1. apply wp_bind. apply wp_modify, wp_ret. timers_cbn. split_and!; [done|..]; congruence. }
  exists s'. rewrite El', Ew. split_and!; try done. rewrite Hp. left.
Qed.

(** ** Every so often *)

Definition refreshed_forms (t : list TimerEffect) : list Z := omap (λ e, match e with RefreshForm f _ _ => Some f | _ => None end) t.

Lemma interval_due_spec now t : 0 ≤ now < 2 ^ 62 → 0 < t_period t ≤ MAX_PERIOD →
  t_refreshTime t = INT64_MAX ∨ 0 ≤ t_refreshTime t < 2 ^ 62 →
  interval_due now t = true ↔ t_refreshTime t = INT64_MAX ∨ t_period t - 5000 < now - t_refreshTime t.
Proof.
  change (2 ^ 62) with 4611686018427387904. intros Hn Hp Hr. unfold interval_due, MAX_PERIOD, ABS_TIME in *.
  rewrite !orb_true_iff, Z.eqb_eq. destruct Hr as [->|Hr]; [tauto|].
  assert (∀ z, -9223372036854775808 ≤ z < 9223372036854775808 → wrap_i64 z = z) as Hw
    by (intros z Hz; unfold wrap_i64; rewrite Z.mod_small; lia).
  rewrite !Hw by lia. rewrite Z.leb_le, Z.ltb_lt. unfold INT64_MAX. lia.
Qed.

Lemma keys_of_values l : interval_ok l → t_formId <$> values l = keys l.
Proof.
  intros [_ H]. unfold values, keys. rewrite <- list_fmap_compose. apply list_fmap_ext. intros j [k t] Hj.
  apply (H k t). by eapply list_elem_of_lookup_2.
Qed.

Lemma refreshed_id now m t : t_formId (refreshed_at now m t) = t_formId t.
Proof. unfold refreshed_at. by destruct (goes now m t). Qed.

Lemma map_find_prod {V} (g : V → V) (k : Z) (l : list (Z * V)) : map_find k (prod_map id g <$> l) = g <$> map_find k l.
Proof. rewrite <- (map_find_change (λ _, g)). done. Qed.

(** C17: each time the interval timer goes off exactly those forms are refreshed
    whose timer is enabled, is new or was last refreshed at least its period less five
    seconds ago, and that the limiter lets pass; each once, in the order of their ids,
    and it is these timers that start anew. *)
Theorem OnIntervalTimeOut_refreshes s ck : timer_reachable s → let now := Z.quot (ck_nanoseconds ck) 1000000 in
  0 ≤ now < 2 ^ 62 →
  (∀ f t, map_find f (intervalTimerTasks_ s) = Some t → t_refreshTime t = INT64_MAX ∨ 0 ≤ t_refreshTime t < 2 ^ 62) →
  ∃ s' fs, OnIntervalTimeOut QueryActiveOsAccountIds ck s = Returned (tt, s') ∧
    refreshed_forms (ft_trace s') = refreshed_forms (ft_trace s) ++ fs ∧ StronglySorted Z.lt fs ∧
    (∀ f, f ∈ fs ↔ ∃ t, map_find f (intervalTimerTasks_ s) = Some t ∧ t_isEnable t = true ∧
      (t_refreshTime t = INT64_MAX ∨ t_period t - 5000 < now - t_refreshTime t) ∧ (IsEnableRefresh f (refreshLimiter_ s)).1 = true) ∧
    (∀ f t, map_find f (intervalTimerTasks_ s) = Some t → map_find f (intervalTimerTasks_ s') =
      Some (if bool_decide (f ∈ fs) then t <| t_refreshTime := now |> else t)).
Proof.
  intros [[Hi _ _ _] _]%reachable_timers now Hnow Hrange.
  set (l := intervalTimerTasks_ s) in *. set (m := refreshLimiter_ s).
  set (fs := t_formId <$> List.filter (goes now m) (values l)).
  assert (NoDup (keys l)) as Hnd.
  { pose proof (iv_keys _ Hi) as Hs. unfold map_sorted in Hs. clear -Hs. induction Hs as [|k ks Hs IH Hk]; constructor; [|done].
    intros Hin. rewrite Forall_forall in Hk. specialize (Hk k Hin). by rewrite less_irrefl in Hk. }
  assert (∀ f, f ∈ fs ↔ ∃ t, map_find f l = Some t ∧ goes now m t = true) as Hfs.
  { intros f. unfold fs. rewrite list_elem_of_fmap. split.
    - intros (t & -> & Ht). rewrite list_elem_of_In, filter_In, <- list_elem_of_In in Ht. destruct Ht as [[k Hin]%elem_values Hg].
      exists t. split; [|done]. rewrite (proj1 (iv_tasks _ Hi _ _ Hin)). by apply NoDup_find.
    - intros (t & Hf & Hg). pose proof (map_find_elem _ _ _ Hf) as Hin. exists t. split; [symmetry; apply (iv_tasks _ Hi _ _ Hin)|].
      rewrite list_elem_of_In, filter_In, <- list_elem_of_In. split; [|done]. apply elem_values. by exists f. }
  destruct (run_interval_loop now l s) as (m' & _ & E). fold m in E.
  assert (wp (OnIntervalTimeOut QueryActiveOsAccountIds ck) (λ _ s', refreshed_forms (ft_trace s') = refreshed_forms (ft_trace s) ++ fs ∧
    intervalTimerTasks_ s' = prod_map id (refreshed_at now m) <$> l) s) as ([] & s' & E' & Ht & El)%wp_run.
  { unfold OnIntervalTimeOut. change (GetCurrentNanosecond ck `quot` TIME_1000000) with now. cbv zeta. apply wp_bind, wp_gets, wp_bind.
    fold l. unfold wp at 1. rewrite E. apply ok_modify. eapply wp_mono; [apply (only_refreshes id)|]. cbv beta.
    intros _ s' (es & -> & _ & Hes). timers_cbn. split; [|done]. unfold refreshed_forms. rewrite omap_app, Hes. f_equal.
    unfold fs. rewrite <- list_fmap_compose. apply list_fmap_ext. intros ? t _. apply refreshed_id. }
  exists s', fs. split; [done|]. split; [done|]. split; [|split].
  - apply StronglySorted_sublist with (keys l).
    + unfold fs. rewrite <- (keys_of_values _ Hi). apply fmap_sublist. clear. induction (values l) as [|t ts IH]; [done|]. cbn.
      destruct (goes now m t); by constructor.
    + pose proof (iv_keys _ Hi) as Hs. unfold map_sorted in Hs. clear -Hs.
      induction Hs as [|k ks Hs IH Hk]; constructor; [done|]. eapply Forall_impl; [exact Hk|]. intros j. apply Z.ltb_lt.
  - intros f. rewrite Hfs. split; intros (t & Hf & H); exists t; (split; [done|]);
      pose proof (map_find_elem _ _ _ Hf) as Hin; destruct (iv_tasks _ Hi _ _ Hin) as [Hk Hp];
      unfold goes in *; rewrite Hk in *.
    + bool_to_prop. split; [done|]. split; [|done]. apply interval_due_spec; [done|done|by eapply Hrange|done].
    + destruct H as (H1 & H2 & H3). rewrite H1, H3, !andb_true_r. apply interval_due_spec; [done|done|by eapply Hrange|done].
  - intros f t Hf. rewrite El, map_find_prod, Hf. cbn. f_equal. unfold refreshed_at. case_bool_decide as Hin.
    + apply Hfs in Hin as (t' & Ht' & Hg). simplify_eq. by rewrite Hg.
    + destruct (goes now m t) eqn:Hg; [|done]. destruct Hin. apply Hfs. by exists t.
Qed.

(** A change of the time of the day of a form that has none makes a timer for the
    form -1. *)
Lemma update_missing_form s cfg f : valid_time (updateAtHour cfg) (updateAtMin cfg) = true →
  List.find (has_timer f) (updateAtTimerTasks_ s) = None → enableUpdate cfg = true →
  ∀ ck, wp (UpdateFormTimer agent_made timer_id timer_starts ck f TYPE_ATTIME_CHANGE cfg) (λ _ s', -1 ∈ (λ i, t_formId (refreshTask i)) <$> updateAtTimerTasks_ s') s.
Proof.
  intros Hv Hn He ck. unfold UpdateFormTimer. rewrite He. cbn [negb]. unfold UpdateAtTimerValue. rewrite Hv. cbn [negb].
  unfold take_at_item. apply wp_bind, wp_bind, wp_gets, ok_modify, wp_ret. rewrite Hn. cbn [from_option id].
  change (t_formId (refreshTask noUpdateAtItem) =? 0) with false. cbv zeta. apply ok_modify.
  eapply keeps_wp; [apply aside_UpdateAtTimerAlarm|]. intros ok s' _ (_ & _ & -> & _). timers_cbn. apply list_elem_of_fmap.
  eexists. split; [|apply elem_of_insert_before; by left]. done.
Qed.
End claims.

(** * Instances *)

(** Day [d] of a clock without summer time, [ms] milliseconds after midnight. *)
Definition demo_clock (d ms : Z) : Clock := mkClock ((d * 86400000 + ms) * 1000000) (d * 86400000 + ms)
  (Some (ms `div` 3600000, (ms `div` 60000) `mod` 60)) (λ h m sec, d * 86400000 + h * 3600000 + m * 60000 + sec * 1000).
Definition always (_ : list TimerEffect) : bool := true.
Definition numbered (t : list TimerEffect) : Z := Z.of_nat (length t) + 1.
Definition demo_users (_ : list TimerEffect) : option (list Z) := Some [100].
Definition demo_timer_event := timer_event always numbered always demo_users.
Definition timers_after (es : list TimerEvent) : FormTimers := after_events demo_timer_event (λ _ _, True) es new_timers.

Lemma timers_after_reachable es :
  bool_decide (is_Some (run_events demo_timer_event (λ _ _, True) es new_timers)) = true →
  timer_reachable always numbered always demo_users (timers_after es).
Proof. apply after_events_steps. Qed.

Definition clock_of (h m ms : Z) : Z := h * 3600000 + m * 60000 + ms.
Lemma demo_regular d h m ms : 0 ≤ h < 24 → 0 ≤ m < 60 → 0 < ms < 60000 → 0 ≤ d →
  regular (demo_clock d (clock_of h m ms)) (d * 86400000) h m.
Proof.
  intros Hh Hm Hms Hd. unfold clock_of. constructor; [|lia| |done].
  - unfold demo_clock. cbn [ck_localtime]. do 2 f_equal.
    + symmetry. apply Z.div_unique with (m * 60000 + ms); lia.
    + assert ((h * 3600000 + m * 60000 + ms) `div` 60000 = h * 60 + m) as -> by (symmetry; apply Z.div_unique with ms; lia).
      symmetry. apply Z.mod_unique with h; lia.
  - unfold GetCurrentMillisecond, demo_clock. cbn [ck_nanoseconds]. rewrite Z.quot_mul by lia. lia.
Qed.

(** Form 7 is to be refreshed at ten; the alarm of the first day has gone off. *)
Definition at_ten : list TimerEvent := [
  TAddAt (demo_clock 1 (clock_of 9 0 5)) 7 10 0 100;
  TCommonEvent (demo_clock 1 (clock_of 10 0 5)) (ACTION_UPDATEATTIMER (mkTimerWant (Some 2) (Some 600) None None))].

(** A time service that gives each timer an id of its own. *)
Definition issued (t : list TimerEffect) : Z := 1 + foldr Z.max 0 (started t).
Lemma issued_fresh t : issued t ≠ 0 ∧ (issued t ∉ started t).
Proof.
  unfold issued. assert (0 ≤ foldr Z.max 0 (started t) ∧ ∀ id, id ∈ started t → id ≤ foldr Z.max 0 (started t)) as [H0 Hall].
  { induction (started t) as [|j l [IH1 IH2]]; [split; [done|by intros id ?%not_elem_of_nil]|]. cbn. split; [lia|].
    intros id [->|Hid]%elem_of_cons; [lia|]. specialize (IH2 id Hid). lia. }
  split; [lia|]. intros Hin%Hall. lia.
Qed.
Definition asked_twice : FormTimers := after_events (timer_event always issued always demo_users) (λ _ _, True)
  [TAddInterval (demo_clock 1 5) 8 1800000 100; TSetNext (demo_clock 1 5) 7 600 100; TSetNext (demo_clock 1 10) 8 900 100] new_timers.
Lemma timers_consistent_witness : (∃ s', timer_event always issued always demo_users (TRemove (demo_clock 1 20) 8) asked_twice = Returned (tt, s')) ∧
  dynamic_alarm_stands asked_twice ∧ dy_formId <$> dynamicRefreshTasks_ asked_twice = [8; 7].
Proof.
  assert (timer_reachable always issued always demo_users asked_twice) as Hr by (apply after_events_steps; vm_compute; reflexivity).
  destruct (timers_consistent always issued always demo_users asked_twice Hr) as (_ & H & Hal). split; [|split].
  - destruct (H (TRemove (demo_clock 1 20) 8)) as (s' & E & _); [vm_compute; reflexivity|]. exists s'. exact E.
  - exact (Hal (λ _, eq_refl) issued_fresh).
  - vm_compute. reflexivity.
Defined.

Lemma UpdateAtTimerAlarm_next_witness : ∃ s' found,
  UpdateAtTimerAlarm always numbered always (demo_clock 1 (clock_of 11 30 7)) (timers_after at_ten) = Returned (true, s') ∧
  found ∈ updateAtTimerTasks_ (timers_after at_ten).
Proof.
  destruct (UpdateAtTimerAlarm_next always numbered always demo_users (timers_after at_ten) (demo_clock 1 (clock_of 11 30 7))
    86400000 11 30) as (s' & found & H1 & H2 & _).
  - apply timers_after_reachable. vm_compute. reflexivity.
  - apply (demo_regular 1); lia.
  - vm_compute. discriminate.
  - reflexivity.
  - reflexivity.
  - exists s', found. split; [exact H1|exact H2].
Defined.

Lemma at_alarm_not_renewed_witness : ∃ s' es,
  OnUpdateAtTrigger always numbered always demo_users (demo_clock 2 (clock_of 10 0 5)) 600 (timers_after at_ten) = Returned (true, s') ∧
  ft_trace s' = ft_trace (timers_after at_ten) ++ es ∧ Forall is_refresh es.
Proof.
  destruct (at_alarm_not_renewed always numbered always demo_users (timers_after at_ten) (demo_clock 2 (clock_of 10 0 5))
    172800000 10 0 600) as (s' & es & H1 & H2 & H3 & _).
  - apply timers_after_reachable. vm_compute. reflexivity.
  - apply (demo_regular 2); lia.
  - reflexivity.
  - vm_compute. discriminate.
  - assert (∀ l, forallb (λ i, updateAtTime i =? 600) l = true → ∀ i, i ∈ l → updateAtTime i = 600) as Hall.
    { intros l Hl i Hi. rewrite forallb_forall in Hl. apply Z.eqb_eq, Hl, list_elem_of_In, Hi. }
    apply Hall. vm_compute. reflexivity.
  - vm_compute. reflexivity.
  - exists s', es. split; [exact H1|]. split; [exact H2|exact H3].
Defined.

(** Twenty-five days of running, and fifty. *)
Lemma dynamic_time_roundtrip_witness : dynamic_time (dynamic_want 2160000000) < 0 ∧ dynamic_time (dynamic_want 4320000000) = 4320000000.
Proof.
  destruct (dynamic_time_roundtrip always numbered always demo_users new_timers (demo_clock 1 5) 2160000000) as [H1 _]; [unfold INT64_MAX; lia|].
  destruct (dynamic_time_roundtrip always numbered always demo_users new_timers (demo_clock 1 5) 4320000000) as [H2 _]; [unfold INT64_MAX; lia|].
  split; [rewrite H1; vm_compute; reflexivity|]. rewrite H2. vm_compute. reflexivity.
Defined.

(** Form 7 asks for a refresh in ten minutes; form 8 has an interval timer too. *)
Definition asked : list TimerEvent := [
  TAddInterval (demo_clock 1 5) 8 1800000 100; TSetNext (demo_clock 1 5) 7 600 100].

Lemma early_refresh_waits_witness : ∃ s',
  SetNextRefreshTime always numbered always (demo_clock 1 10) 8 300 100 (timers_after asked) = Returned (true, s') ∧
  dynamicAlarmTimerId_ s' = dynamicAlarmTimerId_ (timers_after asked).
Proof.
  destruct (early_refresh_waits always numbered always demo_users (timers_after asked) (demo_clock 1 10) (0, 0) 8 300 100)
    as (s' & H1 & _ & _ & _ & H2 & _).
  - apply timers_after_reachable. vm_compute. reflexivity.
  - vm_compute. reflexivity.
  - reflexivity.
  - reflexivity.
  - unfold MIN_NEXT_TIME. lia.
  - vm_compute. discriminate.
  - assert (∀ l, forallb (λ i, negb (is_dynamic 8 100 i)) l = true → ∀ i, i ∈ l → is_dynamic 8 100 i = false) as Hall.
    { intros l Hl i Hi. rewrite forallb_forall in Hl. apply negb_true_iff, Hl, list_elem_of_In, Hi. }
    apply Hall. vm_compute. reflexivity.
  - vm_compute. discriminate.
  - exists s'. split; [exact H1|exact H2].
Defined.

Lemma RemoveFormTimer_hangs_witness :
  timer_reachable always numbered always demo_users (timers_after asked) ∧
  ∀ fuel, RemoveFormTimer always numbered always fuel (demo_clock 1 10) 8 (timers_after asked) = OutOfFuel.
Proof.
  split; [apply timers_after_reachable; vm_compute; reflexivity|]. intros fuel.
  destruct (lookup_is_some (head (dynamicRefreshTasks_ (timers_after asked)))) as [i Hi]; [vm_compute; reflexivity|].
  destruct (lookup_is_some (map_find 8 (intervalTimerTasks_ (timers_after asked)))) as [t Ht]; [vm_compute; reflexivity|].
  apply (RemoveFormTimer_hangs always numbered always fuel (timers_after asked) (demo_clock 1 10) 8 i
    (tail (dynamicRefreshTasks_ (timers_after asked))) t).
  - destruct (dynamicRefreshTasks_ (timers_after asked)); [discriminate|]. cbn in Hi. injection Hi as ->. reflexivity.
  - apply Z.eqb_neq, negb_true_iff. apply (lookup_field (λ i, negb (dy_formId i =? 8)) _ _ _ Hi). vm_compute. reflexivity.
  - exact Ht.
Defined.

Lemma OnIntervalTimeOut_refreshes_witness : ∃ s' fs,
  OnIntervalTimeOut demo_users (demo_clock 1 1800010) (timers_after [TAddInterval (demo_clock 1 5) 8 1800000 100]) = Returned (tt, s') ∧ 8 ∈ fs ∧
  refreshed_forms (ft_trace s') = refreshed_forms (ft_trace (timers_after [TAddInterval (demo_clock 1 5) 8 1800000 100])) ++ fs.
Proof.
  set (s := timers_after _).
  assert (∀ l : list (Z * FormTimer), forallb (λ e, t_refreshTime e.2 =? INT64_MAX) l = true → ∀ f t, map_find f l = Some t → t_refreshTime t = INT64_MAX) as Hall.
  { intros l Hl f t Hf%map_find_elem. rewrite forallb_forall in Hl. apply Z.eqb_eq, (Hl (f, t)), list_elem_of_In, Hf. }
  destruct (OnIntervalTimeOut_refreshes always numbered always demo_users s (demo_clock 1 1800010)) as (s' & fs & H1 & H2 & _ & H3 & _).
  - apply timers_after_reachable. vm_compute. reflexivity.
  - vm_compute. split; congruence.
  - intros f t Hf. left. revert Hf. apply Hall. vm_compute. reflexivity.
  - exists s', fs. split; [exact H1|]. split; [|exact H2]. apply H3.
    destruct (lookup_is_some (map_find 8 (intervalTimerTasks_ s))) as [t Ht]; [vm_compute; reflexivity|].
    exists t. split; [exact Ht|]. split; [|split; [left; apply (Hall (intervalTimerTasks_ s) ltac:(vm_compute; reflexivity) 8 t Ht)|vm_compute; reflexivity]].
    apply (lookup_field t_isEnable _ _ _ Ht). vm_compute. reflexivity.
Defined.
