(* ===== verification/FormInfos.v ===== *)
(** [FormInfoMgr] and [BundleFormInfo] (form_runtime/services/src/form_info_mgr.cpp):
    the forms that the bundles offer, those of their packages and those added by the
    running applications, in memory and in the key-value store.

    The bundle manager and the profiles of extensions are not under src/: what they
    answer is a parameter. *)

From S2P Require Import Prelude.

#[local] Open Scope stdpp_scope.
#[local] Open Scope Z_scope.

(** * Data *)

Inductive FormErr :=
  | ERR_OK
  | FORM_COMMON_CODE | FORM_PERMISSION_DENY_BUNDLE | FORM_GET_INFO_FAILED | FORM_GET_BUNDLE_FAILED
  | FORM_INVALID_PARAM | FORM_INVALID_FORM_ID | FORM_CFG_NOT_MATCH_ID | FORM_NOT_EXIST_ID
  | FORM_BIND_PROVIDER_FAILED | FORM_MAX_SYSTEM_FORMS | FORM_OPERATION_NOT_SELF | FORM_PROVIDER_DEL_FAIL
  | FORM_MAX_FORMS_PER_CLIENT | FORM_MAX_SYSTEM_TEMP_FORMS | FORM_NO_SUCH_MODULE | FORM_NO_SUCH_ABILITY
  | FORM_NO_SUCH_DIMENSION | FORM_MAX_REFRESH | FORM_GET_BMS_FAILED | FORM_GET_HOST_FAILED.
#[export] Instance FormErr_eq_dec : EqDecision FormErr.
Proof. solve_decision. Defined.
Definition failed (e : FormErr) : bool := negb (bool_decide (e = ERR_OK)).

(** What is read of [FormInfo]; the window of a form is only copied. *)
#[global] Abbreviation FormWindow := Z (only parsing).
Record FormInfo := mkFormInfo {
  fo_name : string;
  fo_bundleName : string;
  fo_moduleName : string;
  fo_abilityName : string;
  fo_isStatic : bool;
  fo_defaultFlag : bool;
  fo_defaultDimension : Z;
  fo_supportDimensions : list Z;
  fo_updateEnabled : bool;
  fo_updateDuration : Z;
  fo_scheduledUpdateTime : string;
  fo_formVisibleNotify : bool;
  fo_jsComponentName : string;
  fo_src : string;
  fo_window : FormWindow;
}.
#[export] Instance FormInfo_eta : Eta FormInfo := λ x, mkFormInfo (fo_name x) (fo_bundleName x) (fo_moduleName x) (fo_abilityName x)
  (fo_isStatic x) (fo_defaultFlag x) (fo_defaultDimension x) (fo_supportDimensions x) (fo_updateEnabled x) (fo_updateDuration x)
  (fo_scheduledUpdateTime x) (fo_formVisibleNotify x) (fo_jsComponentName x) (fo_src x) (fo_window x).
#[export] Instance FormInfo_eq_dec : EqDecision FormInfo.
Proof. solve_decision. Defined.

(** What is read of [BundleInfo]. *)
Record HapModuleInfo := mkHapModule { hm_moduleName : string; hm_abilities : list string; hm_extensions : list string }.
Record AbilityInfo := mkAbilityInfo { ai_name : string; ai_moduleName : string; ai_isModuleJson : bool }.
Record ModuleInfo := mkModuleInfo { mi_moduleName : string; mi_moduleSourceDir : string }.
Record ExtensionInfo := mkExtension { ei_name : string; ei_is_form : bool }.
Record BundleInfo := mkBundleInfo {
  bi_name : string;
  bi_uid : Z;
  bi_accessTokenId : Z;
  bi_versionCode : Z;
  bi_versionName : string;
  bi_compatibleVersion : Z;
  bi_moduleNames : list string;
  bi_abilityInfos : list AbilityInfo;
  bi_moduleInfos : list ModuleInfo;
  bi_hapModuleInfos : list HapModuleInfo;
  bi_extensionInfos : list ExtensionInfo;
}.

(** [FormInfoStorage]: the forms of one user. *)
Record FormInfoStorage := mkInfoStorage { is_userId : Z; is_formInfos : list FormInfo }.
#[export] Instance FormInfoStorage_eta : Eta FormInfoStorage := λ x, mkInfoStorage (is_userId x) (is_formInfos x).
#[export] Instance FormInfoStorage_eq_dec : EqDecision FormInfoStorage.
Proof. solve_decision. Defined.

Inductive InfoEffect := InfoPut (bundleName : string) (l : list FormInfoStorage) | InfoDelete (bundleName : string).

(** [bundleFormInfoMap_] is a hash map of pointers that are never null; the value of a
    bundle is its [formInfoStorages_]. *)
Record FormInfos := mkInfos {
  bundleFormInfoMap_ : gmap string (list FormInfoStorage);
  info_store : gmap string (list FormInfoStorage);
  info_trace : list InfoEffect;
}.
#[export] Instance FormInfos_eta : Eta FormInfos := λ x, mkInfos (bundleFormInfoMap_ x) (info_store x) (info_trace x).
Definition new_infos : FormInfos := mkInfos ∅ ∅ [].

(** The bundle manager, if it is there, and what the profiles of an extension say;
    [FormInfo::IsValid]; the active account; the store; and the caller. *)
Class BundleEnv := {
  bms_there : bool;
  bms_GetBundleInfo : string → Z → option BundleInfo;
  bms_GetFormsInfoByModule : string → string → option (list FormInfo);
  bms_GetBundleNameForUid : Z → option string;
  bms_CheckIsSystemAppByUid : Z → bool;
  bms_GetUidByBundleName : string → Z → Z;
  client_GetResConfigFile : ExtensionInfo → option (list string);
  profile_forms : ExtensionInfo → string → option (list FormInfo);
  form_info_valid : FormInfo → bool;
  account_id : Z;
  info_kv_ok : list InfoEffect → bool;
  caller_may_query : bool;            (* a system ability, or one with the permission *)
  caller_token : Z;
}.

#[local] Abbreviation IM := (ST FormInfos).

Section infos.
Context `{!BundleEnv}.

(** * The store *)

Definition info_do (e : InfoEffect) (f : gmap string (list FormInfoStorage) → gmap string (list FormInfoStorage)) : IM FormErr :=
  ok ← gets (λ s, info_kv_ok (info_trace s));
  _ ← modify (λ s, s <| info_trace ::= λ t, t ++ [e] |>);
  if ok : bool then _ ← modify (λ s, s <| info_store ::= f |>); mret ERR_OK else mret FORM_COMMON_CODE.

Definition RemoveBundleFormInfos (bundleName : string) : IM FormErr :=
  if String.eqb bundleName "" then mret FORM_INVALID_PARAM else info_do (InfoDelete bundleName) (delete bundleName).
(** Deleted and put again. *)
Definition UpdateBundleFormInfos (bundleName : string) (l : list FormInfoStorage) : IM FormErr :=
  if String.eqb bundleName "" then mret FORM_INVALID_PARAM
  else
    ret ← info_do (InfoDelete bundleName) (delete bundleName);
    if failed ret then mret ret else info_do (InfoPut bundleName l) <[bundleName := l]>.
Definition LoadFormInfos : IM (option (gmap string (list FormInfoStorage))) := gets (λ s,
  if info_kv_ok (info_trace s) then Some (info_store s) else None).

Definition UpdateFormInfoStorageLocked (bundleName : string) (l : list FormInfoStorage) : IM FormErr :=
  match l with [] => RemoveBundleFormInfos bundleName | _ => UpdateBundleFormInfos bundleName l end.

(** * The forms of a package ([FormInfoHelper]) *)

Definition LoadStageFormConfigInfo (b : BundleInfo) : list FormInfo :=
  concat ((λ e, if ei_is_form e then concat ((λ p, default [] (profile_forms e p)) <$> default [] (client_GetResConfigFile e)) else [])
    <$> bi_extensionInfos b).
Definition LoadAbilityFormConfigInfo (b : BundleInfo) : list FormInfo :=
  if bms_there then concat ((λ m, default [] (bms_GetFormsInfoByModule (bi_name b) (hm_moduleName m))) <$> bi_hapModuleInfos b) else [].
Definition LoadFormConfigInfoByBundleName (bundleName : string) (userId : Z) : FormErr + list FormInfo :=
  if String.eqb bundleName "" then inl FORM_INVALID_PARAM
  else if negb bms_there then inl FORM_GET_BMS_FAILED
  else match bms_GetBundleInfo bundleName userId with
       | None => inl FORM_GET_INFO_FAILED
       | Some b => inr (LoadAbilityFormConfigInfo b ++ LoadStageFormConfigInfo b)
       end.

(** * One bundle ([BundleFormInfo]): the storages it is left with *)

Definition of_user (userId : Z) (i : FormInfoStorage) : bool := is_userId i =? userId.

Definition static_updated (formInfos : list FormInfo) (userId : Z) (l : list FormInfoStorage) : list FormInfoStorage :=
  let dynamic := concat ((λ i, List.filter (λ f, negb (fo_isStatic f)) (is_formInfos i)) <$> List.filter (of_user userId) l) in
  let rest := List.filter (λ i, negb (of_user userId i)) l in
  match formInfos ++ dynamic with [] => rest | all => rest ++ [mkInfoStorage userId all] end.

Definition same_info (f g : FormInfo) : bool := String.eqb (fo_name f) (fo_name g) && String.eqb (fo_moduleName f) (fo_moduleName g).

(** [None] when there is such a form. *)
Fixpoint add_dynamic (f : FormInfo) (userId : Z) (l : list FormInfoStorage) : option (list FormInfoStorage) :=
  match l with
  | [] => Some [mkInfoStorage userId [f]]
  | i :: l' =>
      if of_user userId i then
        if existsb (λ g, same_info g f) (is_formInfos i) then None else Some (i <| is_formInfos ::= λ fs, fs ++ [f] |> :: l')
      else cons i <$> add_dynamic f userId l'
  end.

(** [None] when there is no such form, or it is of the package. *)
Fixpoint remove_dynamic (moduleName formName : string) (userId : Z) (l : list FormInfoStorage) : option (list FormInfoStorage) :=
  let is_it f := String.eqb (fo_name f) formName && String.eqb (fo_moduleName f) moduleName in
  match l with
  | [] => None
  | i :: l' =>
      if of_user userId i then
        match List.find is_it (is_formInfos i) with
        | Some f => if fo_isStatic f then None else Some (i <| is_formInfos ::= erase_first is_it |> :: l')
        | None => cons i <$> remove_dynamic moduleName formName userId l'
        end
      else cons i <$> remove_dynamic moduleName formName userId l'
  end.

(** Of the first storage of the user. *)
Fixpoint remove_all_dynamic (userId : Z) (l : list FormInfoStorage) : list FormInfoStorage :=
  match l with
  | [] => []
  | i :: l' => if of_user userId i then i <| is_formInfos ::= List.filter fo_isStatic |> :: l' else i :: remove_all_dynamic userId l'
  end.

(** * All bundles *)

Definition set_bundle (bundleName : string) (l : list FormInfoStorage) : IM unit :=
  modify (λ s, s <| bundleFormInfoMap_ ::= <[bundleName := l]> |>).
Definition get_bundle (bundleName : string) : IM (option (list FormInfoStorage)) := gets (λ s, bundleFormInfoMap_ s !! bundleName).

Definition FormInfoMgr_Start : IM FormErr :=
  loaded ← LoadFormInfos;
  match loaded with
  | None => mret FORM_COMMON_CODE
  | Some m => _ ← modify (λ s, s <| bundleFormInfoMap_ ::= λ m0, m ∪ m0 |>); mret ERR_OK
  end.

(** A new bundle goes into the map when it has forms and they are stored. *)
Definition UpdateStaticFormInfos (bundleName : string) (userId : Z) : IM FormErr :=
  if String.eqb bundleName "" then mret FORM_INVALID_PARAM
  else
    bundle ← get_bundle bundleName;
    match LoadFormConfigInfoByBundleName bundleName userId with
    | inl errCode => mret errCode
    | inr formInfos =>
        let l := static_updated formInfos userId (default [] bundle) in
        _ ← (if bundle is Some _ then set_bundle bundleName l else mret tt);
        errCode ← UpdateFormInfoStorageLocked bundleName l;
        if failed errCode then mret errCode
        else match l with [] => mret ERR_OK | _ => _ ← set_bundle bundleName l; mret ERR_OK end
    end.

Definition Remove (bundleName : string) (userId : Z) : IM FormErr :=
  if String.eqb bundleName "" then mret FORM_INVALID_PARAM
  else
    bundle ← get_bundle bundleName;
    match bundle with
    | None => mret ERR_OK
    | Some l =>
        let l := List.filter (λ i, negb (of_user userId i)) l in
        _ ← set_bundle bundleName l;
        errCode ← UpdateFormInfoStorageLocked bundleName l;
        _ ← match l with [] => modify (λ s, s <| bundleFormInfoMap_ ::= delete bundleName |>) | _ => mret tt end;
        mret errCode
    end.

Definition IsCaller (bundleName : string) : bool :=
  bms_there && match bms_GetBundleInfo bundleName account_id with Some b => bi_accessTokenId b =? caller_token | None => false end.
Definition CheckBundlePermission : bool := caller_may_query.

(** The forms of the active user of a bundle that satisfy [P]. *)
Definition get_forms (bundleName : string) (P : FormInfo → bool) : IM (FormErr + list FormInfo) :=
  if String.eqb bundleName "" then mret (inl FORM_INVALID_PARAM)
  else if negb CheckBundlePermission && negb (IsCaller bundleName) then mret (inl FORM_PERMISSION_DENY_BUNDLE)
  else
    bundle ← get_bundle bundleName;
    mret (match bundle with
          | None => inl FORM_GET_BUNDLE_FAILED
          | Some l => inr (concat ((λ i, List.filter P (is_formInfos i)) <$> List.filter (of_user account_id) l))
          end).
Definition GetFormsInfoByBundle (bundleName : string) : IM (FormErr + list FormInfo) := get_forms bundleName (λ _, true).
Definition GetFormsInfoByModule (bundleName moduleName : string) : IM (FormErr + list FormInfo) :=
  get_forms bundleName (λ f, String.eqb (fo_moduleName f) moduleName).

Fixpoint CheckDynamicFormInfo (f : FormInfo) (l : list HapModuleInfo) : FormErr + FormInfo :=
  match l with
  | [] => inl FORM_NO_SUCH_MODULE
  | m :: l' =>
      if negb (String.eqb (fo_moduleName f) (hm_moduleName m)) then CheckDynamicFormInfo f l'
      else if bool_decide (fo_abilityName f ∈ hm_abilities m) then inr (f <| fo_src := "" |>)
      else if bool_decide (fo_abilityName f ∈ hm_extensions m) then
        inr (f <| fo_src := "./js/" +:+ fo_name f +:+ "/pages/index/index" |>)
      else inl FORM_NO_SUCH_ABILITY
  end.

(** The bundle of a form that has none yet is made, stored and let go. *)
Definition AddDynamicFormInfo (f : FormInfo) (userId : Z) : IM FormErr :=
  if negb bms_there then mret FORM_GET_BMS_FAILED
  else match bms_GetBundleInfo (fo_bundleName f) userId with
       | None => mret FORM_GET_INFO_FAILED
       | Some b =>
           match CheckDynamicFormInfo f (bi_hapModuleInfos b) with
           | inl errCode => mret errCode
           | inr f =>
               bundle ← get_bundle (fo_bundleName f);
               match add_dynamic f userId (default [] bundle) with
               | None => mret FORM_INVALID_PARAM
               | Some l =>
                   _ ← (if bundle is Some _ then set_bundle (fo_bundleName f) l else mret tt);
                   UpdateFormInfoStorageLocked (fo_bundleName f) l
               end
           end
       end.

Definition RemoveDynamicFormInfo (bundleName moduleName formName : string) (userId : Z) : IM FormErr :=
  bundle ← get_bundle bundleName;
  match bundle with
  | None => mret FORM_INVALID_PARAM
  | Some l =>
      match remove_dynamic moduleName formName userId l with
      | None => mret FORM_INVALID_PARAM
      | Some l => _ ← set_bundle bundleName l; UpdateFormInfoStorageLocked bundleName l
      end
  end.

(** The number of removed forms that decides whether to store is never counted. *)
Definition RemoveAllDynamicFormsInfo (bundleName : string) (userId : Z) : IM FormErr :=
  bundle ← get_bundle bundleName;
  match bundle with
  | None => mret FORM_INVALID_PARAM
  | Some l =>
      let numRemoved := 0 in
      let l := remove_all_dynamic userId l in
      _ ← set_bundle bundleName l;
      if 0 <? numRemoved then UpdateFormInfoStorageLocked bundleName l else mret ERR_OK
  end.
End infos.
