(* ===== verification/FormRecords.v ===== *)
(** What the form manager (form_runtime/services) keeps of forms and of the hosts
    that show them: [FormRecord], [FormItemInfo], [FormDBInfo], [FormHostRecord], the
    data a provider sends; the state of all its tables; and what it relies on. *)

From S2P Require Import Prelude CppString StdMap FormLimiter FormTimer FormInfos.

#[local] Open Scope stdpp_scope.
#[local] Open Scope Z_scope.

(** * Data *)

(** ** The data of a form *)

Inductive Json :=
  | JNull | JBoolean (b : bool) | JInteger (z : Z) | JText (s : string)
  | JArray (l : list Json) | JObject (l : list (string * Json)).

(** [empty()], [items()] and [operator[](key) = value] of [nlohmann::json]. *)
Definition json_empty (j : Json) : bool :=
  match j with JNull | JArray [] | JObject [] => true | _ => false end.
Definition json_items (j : Json) : list (string * Json) :=
  match j with
  | JObject l => l
  | JArray l => imap (λ i v, (pretty (Z.of_nat i), v)) l
  | JNull => []
  | _ => [("", j)]
  end.
Fixpoint object_set (k : string) (v : Json) (l : list (string * Json)) : list (string * Json) :=
  match l with
  | [] => [(k, v)]
  | (k', v') :: l' =>
      if decide (k = k') then (k, v) :: l' else if str_ltb k k' then (k, v) :: l else (k', v') :: object_set k v l'
  end.
Definition json_set (k : string) (v : Json) (j : Json) : outcome Json :=
  match j with
  | JNull => Returned (JObject [(k, v)])
  | JObject l => Returned (JObject (object_set k v l))
  | _ => Thrown
  end.
Fixpoint json_set_all (l : list (string * Json)) (j : Json) : outcome Json :=
  match l with
  | [] => Returned j
  | (k, v) :: l' => j ← json_set k v j; json_set_all l' j
  end.

#[global] Abbreviation Images := (gmap string (positive * Z)) (only parsing).
Definition IMAGE_DATA_STATE_NO_OPERATION : Z := 0.
Definition IMAGE_DATA_STATE_ADDED : Z := 1.

Record FormProviderData := mkProviderData {
  jsonFormProviderData_ : Json;
  imageDataMap_ : Images;
  imageDataState_ : Z;
}.
#[export] Instance FormProviderData_eta : Eta FormProviderData := λ x,
  mkProviderData (jsonFormProviderData_ x) (imageDataMap_ x) (imageDataState_ x).
Definition no_data : FormProviderData := mkProviderData JNull ∅ IMAGE_DATA_STATE_NO_OPERATION.

Definition MergeData (addJsonData : Json) (d : FormProviderData) : outcome FormProviderData :=
  if json_empty addJsonData then Returned d
  else if json_empty (jsonFormProviderData_ d) then Returned (d <| jsonFormProviderData_ := addJsonData |>)
  else j ← json_set_all (json_items addJsonData) (jsonFormProviderData_ d); Returned (d <| jsonFormProviderData_ := j |>).

Definition SetImageDataMap (m : Images) (d : FormProviderData) : FormProviderData :=
  d <| imageDataMap_ := m |>
    <| imageDataState_ := if bool_decide (m = ∅) then IMAGE_DATA_STATE_NO_OPERATION else IMAGE_DATA_STATE_ADDED |>.
Definition SetImageDataState (state : Z) (d : FormProviderData) : FormProviderData := d <| imageDataState_ := state |>.

(** [FormProviderInfo]; the upgrade flag of a new one is not initialised and read by
    nothing before it is set. *)
Record FormProviderInfo := mkProviderInfo { jsBindingData_ : FormProviderData; upgradeFlg_ : bool }.
#[export] Instance FormProviderInfo_eta : Eta FormProviderInfo := λ x, mkProviderInfo (jsBindingData_ x) (upgradeFlg_ x).
Definition no_info : FormProviderInfo := mkProviderInfo no_data false.

(** ** A form *)


(** [needFreeInstall], which nothing reads, is left out. *)
Record FormRecord := mkForm {
  fr_formId : Z;
  fr_isInited : bool;
  fr_needRefresh : bool;
  fr_versionUpgrade : bool;
  fr_isCountTimerRefresh : bool;
  fr_packageName : string;
  fr_bundleName : string;
  fr_moduleName : string;
  fr_abilityName : string;
  fr_formName : string;
  fr_specification : Z;
  fr_isEnableUpdate : bool;
  fr_isVisible : bool;
  fr_updateDuration : Z;
  fr_updateAtHour : Z;
  fr_updateAtMin : Z;
  fr_formProviderInfo : FormProviderInfo;
  fr_hapSourceDirs : list string;
  fr_jsFormCodePath : string;
  fr_formTempFlg : bool;
  fr_formUserUids : list Z;
  fr_formVisibleNotify : bool;
  fr_formVisibleNotifyState : Z;
  fr_userId : Z;
  fr_formSrc : string;
  fr_formWindow : FormWindow;
  fr_versionCode : Z;
  fr_versionName : string;
  fr_compatibleVersion : Z;
  fr_icon : string;
}.
#[export] Instance FormRecord_eta : Eta FormRecord := λ x, mkForm (fr_formId x) (fr_isInited x) (fr_needRefresh x)
  (fr_versionUpgrade x) (fr_isCountTimerRefresh x) (fr_packageName x) (fr_bundleName x) (fr_moduleName x) (fr_abilityName x)
  (fr_formName x) (fr_specification x) (fr_isEnableUpdate x) (fr_isVisible x) (fr_updateDuration x) (fr_updateAtHour x)
  (fr_updateAtMin x) (fr_formProviderInfo x) (fr_hapSourceDirs x) (fr_jsFormCodePath x) (fr_formTempFlg x) (fr_formUserUids x)
  (fr_formVisibleNotify x) (fr_formVisibleNotifyState x) (fr_userId x) (fr_formSrc x) (fr_formWindow x) (fr_versionCode x)
  (fr_versionName x) (fr_compatibleVersion x) (fr_icon x).

(** A new [FormRecord]: its id and its specification are not initialised, -1 and 0
    stand for them; every use sets or ignores them. *)
Definition new_form : FormRecord :=
  mkForm (-1) false false false false "" "" "" "" "" 0 false false 0 (-1) (-1) no_info [] "" false [] false 0 0 "" 0
    0 "" 0 "".

(** What a host asks for, filled in from the configuration of the form. *)
Record FormItemInfo := mkItem {
  fi_formId : Z;
  fi_packageName : string;
  fi_providerBundleName : string;
  fi_hostBundleName : string;
  fi_moduleName : string;
  fi_abilityName : string;
  fi_formName : string;
  fi_specificationId : Z;
  fi_updateFlag : bool;
  fi_updateDuration : Z;
  fi_scheduledUpdateTime : string;
  fi_hapSourceDirs : list string;
  fi_temporaryFlag : bool;
  fi_formVisibleNotify : bool;
  fi_formSrc : string;
  fi_formWindow : FormWindow;
  fi_versionCode : Z;
  fi_versionName : string;
  fi_compatibleVersion : Z;
  fi_icon : string;
  fi_jsComponentName : string;
  fi_abilityModuleName : string;
  fi_moduleInfoMap : gmap string string;
  fi_deviceId : string;
}.
#[export] Instance FormItemInfo_eta : Eta FormItemInfo := λ x, mkItem (fi_formId x) (fi_packageName x) (fi_providerBundleName x)
  (fi_hostBundleName x) (fi_moduleName x) (fi_abilityName x) (fi_formName x) (fi_specificationId x) (fi_updateFlag x)
  (fi_updateDuration x) (fi_scheduledUpdateTime x) (fi_hapSourceDirs x) (fi_temporaryFlag x) (fi_formVisibleNotify x) (fi_formSrc x)
  (fi_formWindow x) (fi_versionCode x) (fi_versionName x) (fi_compatibleVersion x) (fi_icon x) (fi_jsComponentName x)
  (fi_abilityModuleName x) (fi_moduleInfoMap x) (fi_deviceId x).
Definition new_item : FormItemInfo :=
  mkItem (-1) "" "" "" "" "" "" 0 false 0 "" [] false false "" 0 0 "" 0 "" "" "" ∅ "".

Definition GetHapSourceByModuleName (moduleName : string) (i : FormItemInfo) : string := default "" (fi_moduleInfoMap i !! moduleName).
Definition IsValidItem (i : FormItemInfo) : bool :=
  negb (String.eqb (fi_providerBundleName i) "" || String.eqb (fi_moduleName i) "" || String.eqb (fi_abilityName i) "" ||
        String.eqb (fi_formName i) "").
Definition IsMatch (i : FormItemInfo) (r : FormRecord) : bool :=
  String.eqb (fr_bundleName r) (fi_providerBundleName i) && String.eqb (fr_moduleName r) (fi_moduleName i) &&
  String.eqb (fr_abilityName r) (fi_abilityName i) && String.eqb (fr_formName r) (fi_formName i) &&
  (fr_specification r =? fi_specificationId i).
Definition AddModuleInfo (moduleName dir : string) (i : FormItemInfo) : FormItemInfo :=
  i <| fi_moduleInfoMap ::= emplace moduleName dir |>.

(** ** A form in the database *)

Record FormDBInfo := mkDBInfo {
  db_formId : Z;
  db_userId : Z;
  db_formName : string;
  db_bundleName : string;
  db_moduleName : string;
  db_abilityName : string;
  db_formUserUids : list Z;
}.
#[export] Instance FormDBInfo_eta : Eta FormDBInfo := λ x, mkDBInfo (db_formId x) (db_userId x) (db_formName x) (db_bundleName x)
  (db_moduleName x) (db_abilityName x) (db_formUserUids x).
#[export] Instance FormDBInfo_eq_dec : EqDecision FormDBInfo.
Proof. solve_decision. Defined.

Definition FormDBInfo_of (formId : Z) (r : FormRecord) : FormDBInfo :=
  mkDBInfo formId (fr_userId r) (fr_formName r) (fr_bundleName r) (fr_moduleName r) (fr_abilityName r) (fr_formUserUids r).
Definition Contains_uid (uId : Z) (d : FormDBInfo) : bool := bool_decide (uId ∈ db_formUserUids d).
Definition Remove_uid (uId : Z) (d : FormDBInfo) : FormDBInfo := d <| db_formUserUids ::= list_erase_val uId |>.
(** [operator==], and [Compare] of every field. *)
Definition same_form (a b : FormDBInfo) : bool := db_formId a =? db_formId b.
Definition Compare (a b : FormDBInfo) : bool := bool_decide (a = b).

(** ** A host *)

Record FormHostRecord := mkHost {
  fh_callerUid : Z;
  fh_clientStub : option positive;
  fh_clientImpl : bool;                (* [clientImpl_] is not null *)
  fh_deathRecipient : bool;            (* nor is [deathRecipient_] *)
  fh_forms : gmap Z bool;
  fh_enableUpdateMap : gmap Z bool;
  fh_needRefresh : gmap Z bool;
  fh_hostBundleName : string;
}.
#[export] Instance FormHostRecord_eta : Eta FormHostRecord := λ x, mkHost (fh_callerUid x) (fh_clientStub x) (fh_clientImpl x)
  (fh_deathRecipient x) (fh_forms x) (fh_enableUpdateMap x) (fh_needRefresh x) (fh_hostBundleName x).
Definition new_host : FormHostRecord := mkHost 0 None false false ∅ ∅ ∅ "".

Definition AddForm_host (formId : Z) (h : FormHostRecord) : FormHostRecord :=
  match fh_forms h !! formId with Some _ => h | None => h <| fh_forms ::= <[formId := true]> |> end.
Definition DelForm (formId : Z) (h : FormHostRecord) : FormHostRecord := h <| fh_forms ::= delete formId |>.
Definition IsEmpty (h : FormHostRecord) : bool := bool_decide (fh_forms h = ∅).
Definition Contains (formId : Z) (h : FormHostRecord) : bool := bool_decide (is_Some (fh_forms h !! formId)).
Definition SetEnableRefresh (formId : Z) (flag : bool) (h : FormHostRecord) : FormHostRecord :=
  if Contains formId h then h <| fh_forms ::= <[formId := flag]> |> else h.
Definition IsEnableRefresh (formId : Z) (h : FormHostRecord) : bool := default false (fh_forms h !! formId).
Definition SetEnableUpdate_host (formId : Z) (flag : bool) (h : FormHostRecord) : FormHostRecord :=
  if Contains formId h then h <| fh_enableUpdateMap ::= <[formId := flag]> |> else h.
(** The end of [enableUpdateMap_] is told by comparing with that of [forms_]; the
    standard does not say that ends of different maps are equal, the library's are. *)
Definition IsEnableUpdate (formId : Z) (h : FormHostRecord) : bool := default false (fh_enableUpdateMap h !! formId).
Definition SetNeedRefresh_host (formId : Z) (flag : bool) (h : FormHostRecord) : FormHostRecord :=
  h <| fh_needRefresh ::= <[formId := flag]> |>.
Definition IsNeedRefresh (formId : Z) (h : FormHostRecord) : bool := default false (fh_needRefresh h !! formId).
(** Whether a comparison of a token with [GetClientStub()] holds. *)
Definition is_client (callerToken : option positive) (h : FormHostRecord) : bool := bool_decide (callerToken = fh_clientStub h).

(** * What the form manager does to others *)

(** What a connection to a provider is for; its [OnAbilityConnectDone] posts a task
    that calls the provider. *)
Inductive Connection :=
  | AcquireConnection (formId : Z) (info : FormItemInfo)
  | DeleteConnection (formId : Z)
  | BatchDeleteConnection (formIds : list Z)
  | RefreshConnection (formId : Z) (recreate : bool)
  | MsgEventConnection (formId : Z)
  | CastTempConnection (formId : Z)
  | EventNotifyConnection (formIds : list Z) (type : Z)
  | AcquireStateConnection (provider : string).

Inductive FormEffect :=
  | ConnectServiceAbility (bundle ability : string) (c : Connection)
  | HostAcquired (client : option positive) (formId : Z) (r : FormRecord)
  | HostUpdated (client : positive) (formId : Z) (r : FormRecord)
  | HostUninstalled (client : positive) (formIds : list Z)
  | HostState (client : positive) (state : Z)
  | AddDeathRecipient (client : positive)
  | RemoveDeathRecipient (client : positive)
  | KvPut (d : FormDBInfo)
  | KvDelete (formId : Z)
  | ModuleRemovable (bundle module : string)
  | ModuleNotRemovable (bundle module : string)
  | ReportEvent (formId : Z) (userId : Z).

(** What the code under the state relies on: whether a connection is started, whether
    the key-value store does what it is asked and whether the screen is on, after what
    was done so far; the hash of the time; the JSON text of the library; the numeric
    value of an error code; and what the timers rely on. *)
Class FormEnv := {
  env_connected : list FormEffect → bool;
  env_kv_ok : list FormEffect → bool;
  env_screen_on : list FormEffect → bool;
  env_time_hash : list FormEffect → Z;
  env_json_dump : Json → string;
  env_json_parse : string → option Json;
  env_common_code : Z;
  env_agent_made : list TimerEffect → bool;
  env_timer_id : list TimerEffect → Z;
  env_timer_starts : list TimerEffect → bool;
  env_active_accounts : list TimerEffect → option (list Z);
}.

(** * The state *)

Record Forms := mkForms {
  formRecords_ : list (Z * FormRecord);
  clientRecords_ : list FormHostRecord;
  tempForms_ : list Z;
  formStateRecord_ : list (string * FormHostRecord);
  udidHash_ : Z;
  cacheData_ : gmap Z string;
  cacheImageMap_ : gmap Z Images;
  formDBInfos_ : list FormDBInfo;
  kv_store : gmap Z FormDBInfo;        (* the database, by the decimal form ids *)
  form_timers : FormTimers;
  form_infos : FormInfos;
  forms_trace : list FormEffect;
}.
#[export] Instance Forms_eta : Eta Forms := λ x, mkForms (formRecords_ x) (clientRecords_ x) (tempForms_ x) (formStateRecord_ x)
  (udidHash_ x) (cacheData_ x) (cacheImageMap_ x) (formDBInfos_ x) (kv_store x) (form_timers x)
  (form_infos x) (forms_trace x).
Definition new_forms : Forms := mkForms [] [] [] [] 0 ∅ ∅ [] ∅ new_timers new_infos [].

#[global] Abbreviation FM := (ST Forms) (only parsing).

#[export] Instance string_less : StdLess string := str_ltb.

Definition form_emit (e : FormEffect) : FM unit := modify (λ s, s <| forms_trace ::= λ t, t ++ [e] |>).

(** Code of a part of the state. *)
Definition zoom {S T A} (get : S → T) (set : T → S → S) (m : ST T A) : ST S A := λ s,
  match m (get s) with
  | Returned (a, t) => Returned (a, set t s)
  | Thrown => Thrown
  | OutOfFuel => OutOfFuel
  end.
Definition on_timers {A} : ST FormTimers A → FM A := zoom form_timers (λ t s, s <| form_timers := t |>).
Definition on_infos {A} : ST FormInfos A → FM A := zoom form_infos (λ i s, s <| form_infos := i |>).
(** An operation of the limiter. *)
Definition on_limiter {A} (f : Limiter → A * Limiter) : FM A := on_timers (with_limiter f).

(** ** Calls of a host *)

Definition OnAcquire (id : Z) (r : FormRecord) (h : FormHostRecord) : FM unit :=
  if fh_clientImpl h then form_emit (HostAcquired (fh_clientStub h) id r) else mret tt.

Definition OnUpdate (id : Z) (r : FormRecord) (h : FormHostRecord) : FM unit :=
  match fh_clientStub h with
  | Some client => if fh_clientImpl h && negb (id <? 0) then form_emit (HostUpdated client id r) else mret tt
  | None => mret tt
  end.

Definition OnFormUninstalled (formIds : list Z) (h : FormHostRecord) : FM unit :=
  match fh_clientStub h, formIds with
  | Some client, _ :: _ => if fh_clientImpl h then form_emit (HostUninstalled client formIds) else mret tt
  | _, _ => mret tt
  end.

Definition OnAcquireState (state : Z) (h : FormHostRecord) : FM unit :=
  match fh_clientStub h with
  | Some client => if fh_clientImpl h then form_emit (HostState client state) else mret tt
  | None => mret tt
  end.

(** The record itself is erased after it, its fields are not looked at again. *)
Definition CleanResource (h : FormHostRecord) : FM unit :=
  match fh_clientStub h with
  | Some client => if fh_deathRecipient h then form_emit (RemoveDeathRecipient client) else mret tt
  | None => mret tt
  end.

Definition CreateRecord (info : FormItemInfo) (callback : positive) (callingUid : Z) : FM FormHostRecord :=
  _ ← form_emit (AddDeathRecipient callback);
  mret (mkHost callingUid (Some callback) true true ∅ ∅ ∅ (fi_hostBundleName info)).

(** ** Calls of a provider ([FormProviderMgr]) *)

Section provider.
Context `{!FormEnv}.

(** [FormAmsHelper::ConnectServiceAbility]. *)
Definition connect (bundle ability : string) (c : Connection) : FM FormErr :=
  ok ← gets (λ s, env_connected (forms_trace s));
  _ ← form_emit (ConnectServiceAbility bundle ability c);
  mret (if ok : bool then ERR_OK else FORM_BIND_PROVIDER_FAILED).

Definition NotifyProviderFormDelete (formId : Z) (r : FormRecord) : FM FormErr :=
  if String.eqb (fr_abilityName r) "" then mret FORM_INVALID_PARAM
  else if String.eqb (fr_bundleName r) "" then mret FORM_INVALID_PARAM
  else connect (fr_bundleName r) (fr_abilityName r) (DeleteConnection formId).

Definition NotifyProviderFormsBatchDelete (bundleName abilityName : string) (formIds : list Z) : FM FormErr :=
  if String.eqb abilityName "" then mret FORM_INVALID_PARAM
  else if String.eqb bundleName "" then mret FORM_INVALID_PARAM
  else connect bundleName abilityName (BatchDeleteConnection formIds).
End provider.
