(* ===== verification/FormData.v ===== *)
(** [FormDataMgr] (form_runtime/services/src/form_data_mgr.cpp) and [FormCacheMgr]
    (form_cache_mgr.cpp): the records of the forms, of the hosts that show them, of
    temporary forms, and the data of the forms that is kept for them.

    An operation is one step, as the locks of its tables make it. *)

From Stdlib Require Import Ascii.
From S2P Require Import Prelude CppString StdMap FormLimiter FormTimer FormInfos FormRecords.

#[local] Open Scope stdpp_scope.
#[local] Open Scope Z_scope.

Definition MAX_FORMS : Z := 512.
Definition MAX_RECORD_PER_APP : Z := 256.
Definition MAX_TEMP_FORMS : Z := 256.
Definition TIME_CONVERSION : Z := 1800000.
Definition MIN_CONFIG_DURATION : Z := 1.
Definition MAX_CONFIG_DURATION : Z := 336.
Definition UPDATE_AT_CONFIG_COUNT : Z := 2.
Definition INVALID_UDID_HASH : Z := 0.

(** Code that may throw. *)
Definition lift_outcome {S A} (x : outcome A) : ST S A := λ s,
  match x with Returned a => Returned (a, s) | Thrown => Thrown | OutOfFuel => OutOfFuel end.

(** * The cache of form data *)

Section cache.
Implicit Types (s : Forms).

(** The data and the images, either may be empty. *)
Definition GetData (formId : Z) : FM (option (string * Images)) := gets (λ s,
  let data := default "" (cacheData_ s !! formId) in
  let imageMap : Images := default ∅ (cacheImageMap_ s !! formId) in
  if String.eqb data "" && bool_decide (imageMap = ∅) then None else Some (data, imageMap)).

Definition AddData (formId : Z) (data : string) (imageMap : Images) : FM bool :=
  _ ← modify (λ s, s <| cacheData_ ::= <[formId := data]> |> <| cacheImageMap_ ::= <[formId := imageMap]> |>);
  mret true.

Definition DeleteData (formId : Z) : FM bool :=
  _ ← modify (λ s, s <| cacheData_ ::= delete formId |> <| cacheImageMap_ ::= delete formId |>);
  mret true.

Definition UpdateData (formId : Z) (data : string) : FM bool :=
  there ← gets (λ s, cacheData_ s !! formId);
  match there with
  | None => mret false
  | Some _ => _ ← modify (λ s, s <| cacheData_ ::= <[formId := data]> |>); mret true
  end.

Definition IsExist (formId : Z) : FM bool := gets (λ s, bool_decide (is_Some (cacheData_ s !! formId))).
End cache.

(** * The configuration of updates *)

(** [FormUtil::StringSplit] at colons: the tokens of [std::sregex_token_iterator]
    between the matches, of which the last is left out when it is empty; a text without
    a match is one token, also when it is empty. *)
Fixpoint split_colons (fuel : nat) (s : string) : list string :=
  match fuel with
  | O => []
  | S fuel =>
      match str_break ":"%char s with
      | None => if String.eqb s "" then [] else [s]
      | Some (l, r) => l :: split_colons fuel r
      end
  end.
Definition StringSplit (s : string) : list string := if String.eqb s "" then [s] else split_colons (S (String.length s)) s.

(** [std::stoi] skips white space first. *)
Fixpoint skip_spaces (s : string) : string :=
  match s with
  | String c s' => if (nat_of_ascii c =? 32)%nat || ((9 <=? nat_of_ascii c)%nat && (nat_of_ascii c <=? 13)%nat) then skip_spaces s' else s
  | "" => ""
  end.
Definition std_stoi (s : string) : outcome Z :=
  match stoi (skip_spaces s) with Some z => Returned z | None => Thrown end.

Definition interval_of_config (configDuration : Z) : Z :=
  if configDuration <=? MIN_CONFIG_DURATION then MIN_PERIOD
  else if MAX_CONFIG_DURATION <=? configDuration then MAX_PERIOD
  else configDuration * TIME_CONVERSION.

(** The hour and the minute, when there are both and they are valid. *)
Definition time_of_config (configAtTime : string) : outcome (option (Z * Z)) :=
  if String.eqb configAtTime "" then Returned None
  else match StringSplit configAtTime with
       | [h; m] =>
           hour ← std_stoi h; min ← std_stoi m;
           Returned (if (hour <? MIN_TIME) || (MAX_HOUR <? hour) || (min <? MIN_TIME) || (MAX_MINUTE <? min) then None
                     else Some (hour, min))
       | _ => Returned None
       end.

Definition ParseIntervalConfig (r : FormRecord) (configDuration : Z) : FormRecord :=
  r <| fr_updateDuration := interval_of_config configDuration |>.

Definition ParseAtTimerConfig (r : FormRecord) (info : FormItemInfo) : outcome FormRecord :=
  let r := r <| fr_isEnableUpdate := false |> <| fr_updateDuration := 0 |> in
  at_time ← time_of_config (fi_scheduledUpdateTime info);
  Returned (match at_time with
            | None => r
            | Some (hour, min) =>
                r <| fr_updateAtHour := hour |> <| fr_updateAtMin := min |> <| fr_isEnableUpdate := true |>
            end).

Definition ParseUpdateConfig (r : FormRecord) (info : FormItemInfo) : outcome FormRecord :=
  if 0 <? fi_updateDuration info then Returned (ParseIntervalConfig r (fi_updateDuration info))
  else ParseAtTimerConfig r info.

(** What is taken from the item; the other fields are those of a new record. *)
Definition record_of_item (info : FormItemInfo) (userId : Z) : FormRecord :=
  mkForm (fi_formId info) false false false false (fi_packageName info) (fi_providerBundleName info) (fi_moduleName info)
    (fi_abilityName info) (fi_formName info) (fi_specificationId info) (fi_updateFlag info) false 0 (-1) (-1) no_info []
    (GetHapSourceByModuleName (fi_moduleName info) info) (fi_temporaryFlag info) [] (fi_formVisibleNotify info) 0 userId
    (fi_formSrc info) (fi_formWindow info) (fi_versionCode info) (fi_versionName info) (fi_compatibleVersion info) (fi_icon info).
Definition CreateFormRecord (info : FormItemInfo) (callingUid userId : Z) : outcome FormRecord :=
  let r := record_of_item info userId in
  r ← (if fr_isEnableUpdate r then ParseUpdateConfig r info else Returned r);
  Returned (r <| fr_formUserUids := [callingUid] |> <| fr_hapSourceDirs := fi_hapSourceDirs info |>).

(** * Ids *)

Definition low_word (z : Z) : Z := Z.land (wrap_u64 z) 4294967295.

Definition FindMatchedFormId (formId : Z) : FM Z := gets (λ s,
  if negb (Z.land (wrap_u64 formId) 18446744069414584320 =? 0) then formId
  else default formId (fst <$> List.find (λ e, low_word e.1 =? low_word formId) (formRecords_ s))).

(** The id of the hardware is not asked for: the hash stays what it is. *)
Definition GenerateUdidHash : FM bool :=
  udid ← gets udidHash_;
  if negb (udid =? INVALID_UDID_HASH) then mret true
  else _ ← modify (λ s, s <| udidHash_ := Z.shiftl (Z.land 0 16777215) 32 |>); mret true.

Definition GetUdidHash : FM Z := gets udidHash_.
Definition SetUdidHash (udidHash : Z) : FM unit := modify (λ s, s <| udidHash_ := udidHash |>).

Section ids.
Context `{!FormEnv}.

Definition GenerateFormId : FM Z := gets (λ s,
  if udidHash_ s <? 0 then env_common_code
  else wrap_i64 (Z.lor (wrap_u64 (udidHash_ s)) (Z.land (env_time_hash (forms_trace s)) 2147483647))).
End ids.

(** * The records of the forms *)

Definition ExistTempForm (formId : Z) : FM bool := gets (λ s, bool_decide (formId ∈ tempForms_ s)).
Definition ExistFormRecord (formId : Z) : FM bool := gets (λ s, bool_decide (is_Some (map_find formId (formRecords_ s)))).

Definition AllotFormRecord (formInfo : FormItemInfo) (callingUid userId : Z) : FM FormRecord :=
  there ← ExistTempForm (fi_formId formInfo);
  _ ← (if fi_temporaryFlag formInfo && negb there then modify (λ s, s <| tempForms_ ::= λ l, l ++ [fi_formId formInfo] |>)
       else mret tt);
  records ← gets formRecords_;
  match map_find (fi_formId formInfo) records with
  | Some record => mret record
  | None =>
      record ← lift_outcome (CreateFormRecord formInfo callingUid userId);
      _ ← modify (λ s, s <| formRecords_ ::= map_emplace (fi_formId formInfo) record |>);
      mret record
  end.

Definition DeleteFormRecord (formId : Z) : FM bool :=
  _ ← modify (λ s, s <| formRecords_ ::= map_erase formId |>); mret true.

Definition DeleteTempForm (formId : Z) : FM bool :=
  there ← ExistTempForm formId;
  if negb there then mret false
  else _ ← modify (λ s, s <| tempForms_ ::= list_erase_val formId |>); mret true.

Definition CheckTempEnoughForm : FM FormErr := gets (λ s,
  if MAX_TEMP_FORMS <=? Z.of_nat (length (tempForms_ s)) then FORM_MAX_SYSTEM_TEMP_FORMS else ERR_OK).

Fixpoint check_enough (callingUid currentUserId formsInSystem callingUidFormCounts : Z) (l : list (Z * FormRecord)) : FormErr :=
  match l with
  | [] => ERR_OK
  | (_, record) :: l' =>
      if (fr_userId record =? currentUserId) && negb (fr_formTempFlg record) then
        if MAX_FORMS <=? formsInSystem + 1 then FORM_MAX_SYSTEM_FORMS
        else if bool_decide (callingUid ∈ fr_formUserUids record) then
          if MAX_RECORD_PER_APP <=? callingUidFormCounts + 1 then FORM_MAX_FORMS_PER_CLIENT
          else check_enough callingUid currentUserId (formsInSystem + 1) (callingUidFormCounts + 1) l'
        else check_enough callingUid currentUserId (formsInSystem + 1) callingUidFormCounts l'
      else check_enough callingUid currentUserId formsInSystem callingUidFormCounts l'
  end.
Definition CheckEnoughForm (callingUid currentUserId : Z) : FM FormErr :=
  gets (λ s, check_enough callingUid currentUserId 0 0 (formRecords_ s)).

Definition IsCallingUidValid (callingUid : Z) (formUserUids : list Z) : bool := bool_decide (callingUid ∈ formUserUids).

(** [itFormRecord->second] of a form, if there is one, is changed. *)
Definition change_record (f : FormRecord → FormRecord) (formId : Z) : FM bool :=
  there ← ExistFormRecord formId;
  if negb there then mret false
  else _ ← modify (λ s, s <| formRecords_ ::= map_alter f formId |>); mret true.

Definition add_uid (uid : Z) (l : list Z) : list Z := if bool_decide (uid ∈ l) then l else l ++ [uid].

Definition ModifyFormTempFlg (formId : Z) (formTempFlg : bool) : FM bool :=
  change_record (λ r, r <| fr_formTempFlg := formTempFlg |>) formId.
Definition AddFormUserUid (formId formUserUid : Z) : FM bool :=
  change_record (λ r, r <| fr_formUserUids ::= add_uid formUserUid |>) formId.
Definition DeleteFormUserUid (formId uid : Z) : FM bool :=
  change_record (λ r, r <| fr_formUserUids ::= list_erase_val uid |>) formId.
Definition UpdateFormRecord (formId : Z) (formRecord : FormRecord) : FM bool := change_record (λ _, formRecord) formId.
Definition SetNeedRefresh (formId : Z) (needRefresh : bool) : FM bool :=
  change_record (λ r, r <| fr_needRefresh := needRefresh |>) formId.
Definition SetCountTimerRefresh (formId : Z) (countTimerRefresh : bool) : FM bool :=
  change_record (λ r, r <| fr_isCountTimerRefresh := countTimerRefresh |>) formId.
Definition SetEnableUpdate (formId : Z) (enableUpdate : bool) : FM bool :=
  change_record (λ r, r <| fr_isEnableUpdate := enableUpdate |>) formId.
Definition SetUpdateInfo (formId : Z) (enableUpdate : bool) (updateDuration updateAtHour updateAtMin : Z) : FM bool :=
  change_record (λ r, r <| fr_isEnableUpdate := enableUpdate |> <| fr_updateDuration := updateDuration |>
    <| fr_updateAtHour := updateAtHour |> <| fr_updateAtMin := updateAtMin |>) formId.
Definition SetFormCacheInited (formId : Z) (isInited : bool) : FM bool :=
  change_record (λ r, r <| fr_isInited := isInited |> <| fr_needRefresh := negb isInited |>) formId.
Definition SetVersionUpgrade (formId : Z) (versionUpgrade : bool) : FM bool :=
  change_record (λ r, r <| fr_versionUpgrade := versionUpgrade |>) formId.
Definition SetRecordVisible (matchedFormId : Z) (isVisible : bool) : FM FormErr :=
  ok ← change_record (λ r, r <| fr_isVisible := isVisible |>) matchedFormId;
  mret (if ok : bool then ERR_OK else FORM_INVALID_FORM_ID).

Definition GetFormRecord (formId : Z) : FM (option FormRecord) := gets (λ s, map_find formId (formRecords_ s)).
Definition GetFormRecord_of (bundleName : string) : FM (list FormRecord) :=
  gets (λ s, List.filter (λ r, String.eqb bundleName (fr_bundleName r)) (values (formRecords_ s))).
Definition HasFormUserUids (formId : Z) : FM bool :=
  record ← GetFormRecord formId;
  mret (match record with Some r => match fr_formUserUids r with [] => false | _ => true end | None => false end).

(** ** The configured forms of a provider *)

Definition IsSameForm (record : FormRecord) (formInfo : FormInfo) : bool :=
  String.eqb (fr_bundleName record) (fo_bundleName formInfo) && String.eqb (fr_moduleName record) (fo_moduleName formInfo) &&
  String.eqb (fr_abilityName record) (fo_abilityName formInfo) && String.eqb (fr_formName record) (fo_name formInfo) &&
  bool_decide (fr_specification record ∈ fo_supportDimensions formInfo).
Definition GetUpdatedForm (record : FormRecord) (targetForms : list FormInfo) : option FormInfo :=
  List.find (IsSameForm record) targetForms.

(** ** Removal of forms *)

Definition CleanRemovedFormRecords (removedForms : list Z) : FM unit :=
  modify (λ s, s <| formRecords_ ::= List.filter (λ e, negb (bool_decide (e.1 ∈ removedForms))) |>).

Definition remove_temps (removed : list Z) : FM unit :=
  modify (λ s, s <| tempForms_ ::= List.filter (λ i, negb (bool_decide (i ∈ removed))) |>).

(** [std::set<int64_t>] as the list of its elements in order. *)
Fixpoint set_emplace (z : Z) (l : list Z) : list Z :=
  match l with
  | [] => [z]
  | x :: l' => if z =? x then l else if z <? x then z :: l else x :: set_emplace z l'
  end.
Definition set_of (l : list Z) : list Z := foldr set_emplace [] l.

(** Adds what it removes to [removedForms]. *)
Definition CleanRemovedTempFormRecords (bundleName : string) (userId : Z) (removedForms : list Z) : FM (list Z) :=
  let gone := λ e : Z * FormRecord, fr_formTempFlg e.2 && String.eqb bundleName (fr_bundleName e.2) && (userId =? fr_userId e.2) in
  records ← gets formRecords_;
  let removedTempForms := (λ e, fr_formId e.2) <$> List.filter gone records in
  _ ← modify (λ s, s <| formRecords_ ::= List.filter (λ e, negb (gone e)) |>);
  match removedTempForms with
  | [] => mret removedForms
  | _ => _ ← remove_temps removedTempForms; mret (foldr set_emplace removedForms removedTempForms)
  end.

Definition GetReCreateFormRecordsByBundleName (bundleName : string) : FM (list Z) :=
  gets (λ s, set_of (fr_formId <$> List.filter (λ r, String.eqb bundleName (fr_bundleName r)) (values (formRecords_ s)))).

Definition DeleteFormsByUserId (userId : Z) : FM (list Z) :=
  records ← gets formRecords_;
  let gone := List.filter (λ e : Z * FormRecord, userId =? fr_userId e.2) records in
  _ ← modify (λ s, s <| formRecords_ ::= List.filter (λ e, negb (userId =? fr_userId e.2)) |>);
  let removedTempForms := (λ e, fr_formId e.2) <$> List.filter (λ e, fr_formTempFlg e.2) gone in
  _ ← match removedTempForms with [] => mret tt | _ => remove_temps removedTempForms end;
  mret ((λ e, fr_formId e.2) <$> gone).

Definition ClearFormRecords : FM unit := modify (λ s, s <| formRecords_ := [] |> <| tempForms_ := [] |>).

(** * The hosts *)

Definition set_clients (l : list FormHostRecord) : FM unit := modify (λ s, s <| clientRecords_ := l |>).

Definition CreateHostRecord (info : FormItemInfo) (callerToken : option positive) (callingUid : Z) : FM (option FormHostRecord) :=
  match callerToken with
  | None => mret None
  | Some callback => h ← CreateRecord info callback callingUid; mret (Some h)
  end.

Definition AllotFormHostRecord (info : FormItemInfo) (callerToken : option positive) (formId callingUid : Z) : FM bool :=
  clients ← gets clientRecords_;
  match List.find (is_client callerToken) clients with
  | Some h => _ ← set_clients (replace_first (is_client callerToken) (AddForm_host formId h) clients); mret true
  | None =>
      created ← CreateHostRecord info callerToken callingUid;
      match created with
      | Some h => _ ← set_clients (clients ++ [AddForm_host formId h]); mret true
      | None => mret false
      end
  end.

Definition GetFormHostRecord (formId : Z) : FM (option FormHostRecord) := gets (λ s, List.find (Contains formId) (clientRecords_ s)).
Definition GetMatchedHostClient (callerToken : option positive) : FM (option FormHostRecord) :=
  gets (λ s, List.find (is_client callerToken) (clientRecords_ s)).

Definition DeleteHostRecord (callerToken : option positive) (formId : Z) : FM bool :=
  clients ← gets clientRecords_;
  match List.find (is_client callerToken) clients with
  | None => mret true
  | Some h =>
      let h := DelForm formId h in
      _ ← (if IsEmpty h then _ ← CleanResource h; set_clients (erase_first (is_client callerToken) clients)
           else set_clients (replace_first (is_client callerToken) h clients));
      mret true
  end.

(** The ids of [removed] that the host has, each counted once as it is deleted at once. *)
Fixpoint del_forms (removed : list Z) (h : FormHostRecord) : FormHostRecord * list Z :=
  match removed with
  | [] => (h, [])
  | formId :: removed' =>
      if Contains formId h then let '(h', ids) := del_forms removed' (DelForm formId h) in (h', formId :: ids)
      else del_forms removed' h
  end.

(** [matchedIds] is one list for all hosts. *)
Fixpoint clean_hosts (removed matchedIds : list Z) (l : list FormHostRecord) : FM (list FormHostRecord) :=
  match l with
  | [] => mret []
  | h :: l' =>
      let '(h', ids) := del_forms removed h in
      _ ← OnFormUninstalled (matchedIds ++ ids) h';
      rest ← clean_hosts removed (matchedIds ++ ids) l';
      mret (h' :: rest)
  end.
Definition CleanHostRemovedForms (removedFormIds : list Z) : FM unit :=
  clients ← gets clientRecords_;
  clients ← clean_hosts removedFormIds [] clients;
  set_clients clients.

Definition IsEnableRefresh_form (formId : Z) : FM bool := gets (λ s, existsb (IsEnableRefresh formId) (clientRecords_ s)).
Definition IsEnableUpdate_form (formId : Z) : FM bool := gets (λ s, existsb (IsEnableUpdate formId) (clientRecords_ s)).

Definition UpdateHostNeedRefresh (formId : Z) (needRefresh : bool) : FM unit :=
  modify (λ s, s <| clientRecords_ ::=
    fmap (λ h, if Contains formId h then SetNeedRefresh_host formId needRefresh h else h) |>).

Fixpoint update_hosts (formId : Z) (r : FormRecord) (l : list FormHostRecord) : FM (list FormHostRecord * bool) :=
  match l with
  | [] => mret ([], false)
  | h :: l' =>
      let enableRefresh := fr_isVisible r || IsEnableUpdate formId h || IsEnableRefresh formId h in
      _ ← (if enableRefresh then OnUpdate formId r h else mret tt);
      '(rest, updated) ← update_hosts formId r l';
      mret ((if enableRefresh then SetNeedRefresh_host formId false h else h) :: rest, enableRefresh || updated)
  end.
Definition UpdateHostForm (formId : Z) (formRecord : FormRecord) : FM bool :=
  clients ← gets clientRecords_;
  '(clients, isUpdated) ← update_hosts formId formRecord clients;
  _ ← set_clients clients;
  mret isUpdated.

Definition IsFormCached (r : FormRecord) : FM bool := if fr_versionUpgrade r then mret false else IsExist (fr_formId r).

(** One form of [HandleUpdateHostFormFlag]: the host record and the form if it is to
    be refreshed. *)
Definition update_flag (flag isOnlyEnableUpdate : bool) (formId : Z) (h : FormHostRecord) : FM (FormHostRecord * option Z) :=
  if formId <=? 0 then mret (h, None)
  else
    matched ← FindMatchedFormId formId;
    if negb (Contains matched h) then mret (h, None)
    else
      let h := if isOnlyEnableUpdate then SetEnableRefresh matched false (SetEnableUpdate_host matched flag h)
               else SetEnableRefresh matched flag h in
      if negb flag then mret (h, None)
      else
        record ← GetFormRecord matched;
        match record with
        | None => mret (h, None)
        | Some r =>
            if fr_needRefresh r then mret (h, Some matched)
            else if negb (IsNeedRefresh matched h) then mret (h, None)
            else
              cached ← IsFormCached r;
              if cached : bool then _ ← OnUpdate matched r h; mret (SetNeedRefresh_host matched false h, None)
              else mret (h, Some matched)
        end.
Fixpoint HandleUpdateHostFormFlag (formIds : list Z) (flag isOnlyEnableUpdate : bool) (h : FormHostRecord)
    : FM (FormHostRecord * list Z) :=
  match formIds with
  | [] => mret (h, [])
  | formId :: formIds' =>
      '(h, refresh) ← update_flag flag isOnlyEnableUpdate formId h;
      '(h, rest) ← HandleUpdateHostFormFlag formIds' flag isOnlyEnableUpdate h;
      mret (h, match refresh with Some id => id :: rest | None => rest end)
  end.
Definition UpdateHostFormFlag (formIds : list Z) (callerToken : option positive) (flag isOnlyEnableUpdate : bool)
    : FM (FormErr * list Z) :=
  clients ← gets clientRecords_;
  match List.find (is_client callerToken) clients with
  | None => mret (FORM_OPERATION_NOT_SELF, [])
  | Some h =>
      '(h, refreshForms) ← HandleUpdateHostFormFlag formIds flag isOnlyEnableUpdate h;
      _ ← set_clients (replace_first (is_client callerToken) h clients);
      mret (ERR_OK, refreshForms)
  end.

Definition ClearHostDataByUId (uId : Z) : FM unit :=
  clients ← gets clientRecords_;
  _ ← for_each CleanResource (List.filter (λ h, fh_callerUid h =? uId) clients);
  set_clients (List.filter (λ h, negb (fh_callerUid h =? uId)) clients).

Fixpoint find_matched (formIds : list Z) (h : FormHostRecord) : FM (list Z) :=
  match formIds with
  | [] => mret []
  | formId :: formIds' =>
      matched ← FindMatchedFormId formId;
      rest ← find_matched formIds' h;
      mret (if Contains matched h then matched :: rest else rest)
  end.
Definition NotifyFormsVisible (formIds : list Z) (isVisible : bool) (callerToken : option positive) : FM FormErr :=
  match formIds, callerToken with
  | [], _ | _, None => mret FORM_INVALID_PARAM
  | _, _ =>
      clients ← gets clientRecords_;
      foundFormIds ← match List.find (is_client callerToken) clients with Some h => find_matched formIds h | None => mret [] end;
      match foundFormIds with
      | [] => mret FORM_OPERATION_NOT_SELF
      | _ => _ ← for_each (λ id, _ ← SetRecordVisible id isVisible; mret tt) foundFormIds; mret ERR_OK
      end
  end.

(** ** A host that died *)

Section died.
Context `{!FormEnv}.

Definition HandleHostDiedForTempForms (h : FormHostRecord) : FM (list Z) :=
  temps ← gets tempForms_;
  _ ← modify (λ s, s <| tempForms_ := List.filter (λ f, negb (Contains f h)) temps |>);
  mret (List.filter (λ f, Contains f h) temps).

(** The records of the temporary forms go one by one. *)
Definition drop_temp_records (recordTempForms : list Z) : FM unit :=
  records ← gets formRecords_;
  for_each (λ e : Z * FormRecord,
    if bool_decide (e.1 ∈ recordTempForms) then
      _ ← DeleteFormRecord e.1; _ ← NotifyProviderFormDelete e.1 e.2; mret tt
    else mret tt) records.

Definition HandleHostDied (remoteHost : option positive) : FM unit :=
  clients ← gets clientRecords_;
  recordTempForms ← match List.find (is_client remoteHost) clients with
                    | Some h =>
                        ids ← HandleHostDiedForTempForms h;
                        _ ← CleanResource h;
                        _ ← set_clients (erase_first (is_client remoteHost) clients);
                        mret ids
                    | None => mret []
                    end;
  _ ← drop_temp_records recordTempForms;
  states ← gets formStateRecord_;
  match List.find (λ e, is_client remoteHost e.2) states with
  | Some (provider, h) => _ ← CleanResource h; modify (λ s, s <| formStateRecord_ ::= map_erase provider |>)
  | None => mret tt
  end.
End died.

(** ** The state of a form, asked for by a host *)

Definition CreateFormStateRecord (provider : string) (info : FormItemInfo) (callerToken : option positive) (callingUid : Z) : FM bool :=
  states ← gets formStateRecord_;
  match map_find provider states with
  | Some _ =>
      _ ← modify (λ s, s <| formStateRecord_ ::= map_alter (λ h, h <| fh_clientStub := callerToken |>) provider |>);
      mret true
  | None =>
      created ← CreateHostRecord info callerToken callingUid;
      match created with
      | Some h => _ ← modify (λ s, s <| formStateRecord_ ::= map_emplace provider h |>); mret true
      | None => mret false
      end
  end.

Definition AcquireFormStateBack (state : Z) (provider : string) : FM FormErr :=
  states ← gets formStateRecord_;
  match map_find provider states with
  | None => mret FORM_GET_HOST_FAILED
  | Some h =>
      _ ← OnAcquireState state h;
      _ ← CleanResource h;
      _ ← modify (λ s, s <| formStateRecord_ ::= map_erase provider |>);
      mret ERR_OK
  end.

(** * Forms without a host *)

(** The two fields of [FormIdKey] that are set. *)
Record FormIdKey := mkIdKey { key_bundleName : string; key_abilityName : string }.
#[export] Instance FormIdKey_eq_dec : EqDecision FormIdKey.
Proof. solve_decision. Defined.

(** [operator<] of [FormIdKey] holds between any two different keys, so it is no
    order, and what a [std::map] or [std::set] of them does once it is given a second
    key is not defined: [Thrown] stands for it. *)
Definition id_less (a b : FormIdKey) : bool := negb (bool_decide (a = b)).
Definition IdMap : Type := list (FormIdKey * list Z).
Definition id_map_add (k : FormIdKey) (formId : Z) (m : IdMap) : outcome IdMap :=
  match m with
  | [] => Returned [(k, [formId])]
  | [(k', ids)] => if id_less k k' then Thrown else Returned [(k', set_emplace formId ids)]
  | _ => Thrown
  end.
Definition id_set_add (k : FormIdKey) (l : list FormIdKey) : outcome (list FormIdKey) :=
  match l with
  | [] => Returned [k]
  | [k'] => if id_less k k' then Thrown else Returned l
  | _ => Thrown
  end.

(** [std::map<int64_t, bool>]. *)
Definition FoundForms : Type := list (Z * bool).

Record NoHost := mkNoHost { nh_forms : IdMap; nh_found : FoundForms }.
#[export] Instance NoHost_eta : Eta NoHost := λ x, mkNoHost (nh_forms x) (nh_found x).

Definition add_no_host (r : FormRecord) (formId : Z) (n : NoHost) : outcome NoHost :=
  m ← id_map_add (mkIdKey (fr_bundleName r) (fr_abilityName r)) formId (nh_forms n); Returned (n <| nh_forms := m |>).
Definition add_found (formId : Z) (b : bool) (n : NoHost) : NoHost := n <| nh_found ::= map_emplace formId b |>.

Fixpoint no_host_temp (uid : Z) (l : list (Z * FormRecord)) (n : NoHost) : outcome (list (Z * FormRecord) * NoHost) :=
  match l with
  | [] => Returned ([], n)
  | (id, r) :: l' =>
      '(r, n) ← (if fr_formTempFlg r then
                   if bool_decide (uid ∈ fr_formUserUids r) then
                     let r := r <| fr_formUserUids ::= list_erase_val uid |> in
                     match fr_formUserUids r with
                     | [] => n ← add_no_host r (fr_formId r) n; Returned (r, n)
                     | _ => Returned (r, n)
                     end
                   else Returned (r, add_found (fr_formId r) false n)
                 else Returned (r, n));
      '(rest, n) ← no_host_temp uid l' n;
      Returned ((id, r) :: rest, n)
  end.
Definition GetNoHostTempForms (uid : Z) : FM NoHost :=
  records ← gets formRecords_;
  '(records, n) ← lift_outcome (no_host_temp uid records (mkNoHost [] []));
  _ ← modify (λ s, s <| formRecords_ := records |>);
  mret n.

(** Whether a record is looked at: its user and its users' uids. *)
Definition invalid_temp (userId callingUid : Z) (matchedFormIds : list Z) (id : Z) (r : FormRecord) : bool :=
  (userId =? fr_userId r) && fr_formTempFlg r && bool_decide (callingUid ∈ fr_formUserUids r) &&
  negb (bool_decide (id ∈ matchedFormIds)).
Fixpoint no_host_invalid_temp (userId callingUid : Z) (matchedFormIds : list Z) (l : list (Z * FormRecord)) (n : NoHost)
    : outcome (list (Z * FormRecord) * NoHost) :=
  match l with
  | [] => Returned ([], n)
  | (id, r) :: l' =>
      '(r, n) ← (if invalid_temp userId callingUid matchedFormIds id r then
                   let r := r <| fr_formUserUids ::= list_erase_val callingUid |> in
                   match fr_formUserUids r with
                   | [] => n ← add_no_host r id n; Returned (r, n)
                   | _ => Returned (r, add_found id false n)
                   end
                 else Returned (r, n));
      '(rest, n) ← no_host_invalid_temp userId callingUid matchedFormIds l' n;
      Returned ((id, r) :: rest, n)
  end.
Definition GetNoHostInvalidTempForms (userId callingUid : Z) (matchedFormIds : list Z) : FM NoHost :=
  records ← gets formRecords_;
  '(records, n) ← lift_outcome (no_host_invalid_temp userId callingUid matchedFormIds records (mkNoHost [] []));
  _ ← modify (λ s, s <| formRecords_ := records |>);
  mret n.

(** [removedFormsMap.insert(foundFormsMap.begin(), foundFormsMap.end())]. *)
Definition insert_found (found removed : FoundForms) : FoundForms := foldl (λ m e, map_emplace e.1 e.2 m) removed found.
Definition found_true (found : FoundForms) (ids : list Z) : FoundForms := foldl (λ m id, map_emplace id true m) found ids.

Section no_host.
Context `{!FormEnv}.

Definition BatchDeleteNoHostTempForms (n : NoHost) : FM FoundForms :=
  _ ← for_each (λ e : FormIdKey * list Z,
         _ ← NotifyProviderFormsBatchDelete (key_bundleName e.1) (key_abilityName e.1) e.2;
         for_each (λ id, _ ← DeleteFormRecord id; _ ← DeleteTempForm id; mret tt) e.2) (nh_forms n);
  mret (foldl (λ m e, found_true m e.2) (nh_found n) (nh_forms n)).

Definition DeleteInvalidTempForms (userId callingUid : Z) (matchedFormIds : list Z) (removedFormsMap : FoundForms) : FM FoundForms :=
  n ← GetNoHostInvalidTempForms userId callingUid matchedFormIds;
  found ← BatchDeleteNoHostTempForms n;
  mret (insert_found found removedFormsMap).
End no_host.

Fixpoint clear_invalid (callingUid : Z) (removed : FoundForms) (l : list FormHostRecord) : FM (list FormHostRecord) :=
  match l with
  | [] => mret []
  | h :: l' =>
      if negb (fh_callerUid h =? callingUid) then rest ← clear_invalid callingUid removed l'; mret (h :: rest)
      else
        let h := foldl (λ h e, DelForm e.1 h) h removed in
        if IsEmpty h then _ ← CleanResource h; clear_invalid callingUid removed l'
        else rest ← clear_invalid callingUid removed l'; mret (h :: rest)
  end.
Definition ClearHostDataByInvalidForms (callingUid : Z) (removedFormsMap : FoundForms) : FM unit :=
  clients ← gets clientRecords_;
  clients ← clear_invalid callingUid removedFormsMap clients;
  set_clients clients.
