(* ===== verification/FormStore.v ===== *)
(** [FormDbCache] (form_runtime/services/src/form_db_cache.cpp) over [FormStorageMgr]
    (form_storage_mgr.cpp): the forms that outlive a restart, as a list in memory and
    as entries of a key-value store. *)

From S2P Require Import Prelude CppString StdMap FormLimiter FormTimer FormInfos FormRecords FormData.

#[local] Open Scope stdpp_scope.
#[local] Open Scope Z_scope.

Section store.
Context `{!FormEnv}.

(** * The key-value store

    A key is the decimal form id and a value the text of the form, as which each is
    written here. An operation the store does not do changes nothing. *)

Definition kv_do (e : FormEffect) (f : gmap Z FormDBInfo → gmap Z FormDBInfo) : FM FormErr :=
  ok ← gets (λ s, env_kv_ok (forms_trace s));
  _ ← form_emit e;
  if ok : bool then _ ← modify (λ s, s <| kv_store ::= f |>); mret ERR_OK else mret FORM_COMMON_CODE.

Definition SaveStorageFormInfo (d : FormDBInfo) : FM FormErr := kv_do (KvPut d) <[db_formId d := d]>.
Definition DeleteStorageFormInfo (formId : Z) : FM FormErr := kv_do (KvDelete formId) (delete formId).
(** What the save says is not looked at. *)
Definition ModifyStorageFormInfo (d : FormDBInfo) : FM FormErr :=
  ret ← DeleteStorageFormInfo (db_formId d);
  if failed ret then mret ret else _ ← SaveStorageFormInfo d; mret ret.

(** The entries in the order of their keys. *)
Definition stored_forms (m : gmap Z FormDBInfo) : list FormDBInfo := (in_order (λ a b, str_ltb (pretty a) (pretty b)) m).*2.
Definition LoadFormData : FM (option (list FormDBInfo)) := gets (λ s,
  if env_kv_ok (forms_trace s) then Some (stored_forms (kv_store s)) else None).

(** * The list in memory *)

Definition Start : FM unit :=
  loaded ← LoadFormData;
  match loaded with
  | None => mret tt
  | Some l => modify (λ s, s <| formDBInfos_ ::= λ l0, l0 ++ l |>)
  end.

Definition SaveFormInfoNolock (d : FormDBInfo) : FM FormErr :=
  l ← gets formDBInfos_;
  match List.find (λ x, same_form x d) l with
  | Some x =>
      if negb (Compare x d) then
        _ ← modify (λ s, s <| formDBInfos_ := replace_first (λ x, same_form x d) d l |>);
        ModifyStorageFormInfo d
      else mret ERR_OK
  | None =>
      _ ← modify (λ s, s <| formDBInfos_ := l ++ [d] |>);
      SaveStorageFormInfo d
  end.
(** [SaveFormInfo] is the same under the lock. *)
Definition SaveFormInfo (d : FormDBInfo) : FM FormErr := SaveFormInfoNolock d.

Definition has_id (formId : Z) (d : FormDBInfo) : bool := db_formId d =? formId.

Definition DeleteFormInfo (formId : Z) : FM FormErr :=
  _ ← modify (λ s, s <| formDBInfos_ ::= erase_first (has_id formId) |>);
  DeleteStorageFormInfo formId.

(** The forms that satisfy [P] go, each once the store has deleted it. *)
Fixpoint delete_stored (P : FormDBInfo → bool) (l : list FormDBInfo) : FM (list FormDBInfo * list FormDBInfo) :=
  match l with
  | [] => mret ([], [])
  | d :: l' =>
      if P d then
        ret ← DeleteStorageFormInfo (db_formId d);
        '(kept, removed) ← delete_stored P l';
        mret (if failed ret then (d :: kept, removed) else (kept, d :: removed))
      else '(kept, removed) ← delete_stored P l'; mret (d :: kept, removed)
  end.
Definition delete_db (P : FormDBInfo → bool) : FM (list FormDBInfo) :=
  l ← gets formDBInfos_;
  '(kept, removed) ← delete_stored P l;
  _ ← modify (λ s, s <| formDBInfos_ := kept |>);
  mret removed.

Definition DeleteFormInfoByBundleName (bundleName : string) (userId : Z) : FM (list FormDBInfo) :=
  delete_db (λ d, String.eqb bundleName (db_bundleName d) && (userId =? db_userId d)).
Definition DeleteDBFormsByUserId (userId : Z) : FM unit := _ ← delete_db (λ d, userId =? db_userId d); mret tt.

Definition GetAllFormInfo : FM (list FormDBInfo) := gets formDBInfos_.
Definition GetDBRecord (formId : Z) : FM (option FormDBInfo) := gets (λ s, List.find (has_id formId) (formDBInfos_ s)).
(** What [GetDBRecord] fills in of a new [FormRecord]. *)
Definition record_of (d : FormDBInfo) : FormRecord := new_form
  <| fr_userId := db_userId d |> <| fr_formName := db_formName d |> <| fr_bundleName := db_bundleName d |>
  <| fr_moduleName := db_moduleName d |> <| fr_abilityName := db_abilityName d |> <| fr_formUserUids := db_formUserUids d |>.

Definition UpdateDBRecord (formId : Z) (r : FormRecord) : FM FormErr := SaveFormInfo (FormDBInfo_of formId r).

Definition GetMatchCount (bundleName moduleName : string) : FM Z := gets (λ s,
  Z.of_nat (length (List.filter (λ d, String.eqb (db_bundleName d) bundleName && String.eqb (db_moduleName d) moduleName)
    (formDBInfos_ s)))).

(** [FormBmsHelper]. *)
Definition NotifyModuleRemovable (bundleName moduleName : string) : FM unit := form_emit (ModuleRemovable bundleName moduleName).
Definition NotifyModuleNotRemovable (bundleName moduleName : string) : FM unit := form_emit (ModuleNotRemovable bundleName moduleName).
Definition release_module (bundleName moduleName : string) : FM unit :=
  matchCount ← GetMatchCount bundleName moduleName;
  if matchCount =? 0 then NotifyModuleRemovable bundleName moduleName else mret tt.

(** * Forms without a host *)

(** The uid goes from the element of the list itself, which is then saved. *)
Definition drop_uid (uid : Z) (i : nat) (d : FormDBInfo) (n : NoHost) : FM NoHost :=
  let d := Remove_uid uid d in
  _ ← modify (λ s, s <| formDBInfos_ ::= <[i := d]> |>);
  match db_formUserUids d with
  | [] =>
      m ← lift_outcome (id_map_add (mkIdKey (db_bundleName d) (db_abilityName d)) (db_formId d) (nh_forms n));
      mret (n <| nh_forms := m |>)
  | _ =>
      _ ← SaveFormInfoNolock d;
      _ ← NotifyModuleNotRemovable (db_bundleName d) (db_moduleName d);
      mret (add_found (db_formId d) false n)
  end.

(** The elements from the [i]-th on, of which [P] tells which are looked at. *)
Fixpoint no_host_db (P : FormDBInfo → bool) (uid : Z) (count i : nat) (n : NoHost) : FM NoHost :=
  match count with
  | O => mret n
  | S count =>
      d ← gets (λ s, formDBInfos_ s !! i);
      n ← match d with
          | Some d => if P d then drop_uid uid i d n else mret n
          | None => mret n
          end;
      no_host_db P uid count (S i) n
  end.

Definition GetNoHostDBForms (uid : Z) : FM NoHost :=
  l ← gets formDBInfos_; no_host_db (Contains_uid uid) uid (length l) 0 (mkNoHost [] []).

Definition invalid_db (userId callingUid : Z) (matchedFormIds : list Z) (d : FormDBInfo) : bool :=
  (userId =? db_userId d) && Contains_uid callingUid d && negb (bool_decide (db_formId d ∈ matchedFormIds)).
Definition GetNoHostInvalidDBForms (userId callingUid : Z) (matchedFormIds : list Z) : FM NoHost :=
  l ← gets formDBInfos_; no_host_db (invalid_db userId callingUid matchedFormIds) callingUid (length l) 0 (mkNoHost [] []).

(** A form of a batch is deleted; the modules of the forms are collected. *)
Definition delete_batched (id : Z) (modules : list FormIdKey) : FM (list FormIdKey) :=
  dbInfo ← GetDBRecord id;
  modules ← match dbInfo with
            | Some d =>
                modules ← lift_outcome (id_set_add (mkIdKey (db_bundleName d) (db_moduleName d)) modules);
                _ ← DeleteFormInfo id;
                mret modules
            | None => mret modules
            end;
  _ ← DeleteFormRecord id;
  mret modules.
Fixpoint delete_batch (ids : list Z) (modules : list FormIdKey) : FM (list FormIdKey) :=
  match ids with
  | [] => mret modules
  | id :: ids' => modules ← delete_batched id modules; delete_batch ids' modules
  end.

Fixpoint batch_delete_db (l : IdMap) (modules : list FormIdKey) : FM (list FormIdKey) :=
  match l with
  | [] => mret modules
  | (k, ids) :: l' =>
      _ ← NotifyProviderFormsBatchDelete (key_bundleName k) (key_abilityName k) ids;
      modules ← delete_batch ids modules;
      batch_delete_db l' modules
  end.
Definition BatchDeleteNoHostDBForms (n : NoHost) : FM FoundForms :=
  modules ← batch_delete_db (nh_forms n) [];
  _ ← for_each (λ k, release_module (key_bundleName k) (key_abilityName k)) modules;
  mret (foldl (λ m e, found_true m e.2) (nh_found n) (nh_forms n)).

Definition DeleteInvalidDBForms (userId callingUid : Z) (matchedFormIds : list Z) (removedFormsMap : FoundForms) : FM FoundForms :=
  n ← GetNoHostInvalidDBForms userId callingUid matchedFormIds;
  _ ← for_each (λ e : Z * bool, _ ← DeleteFormUserUid e.1 callingUid; mret tt) (nh_found n);
  found ← BatchDeleteNoHostDBForms n;
  mret (insert_found found removedFormsMap).
End store.
