(* ===== verification/FormProvider.v ===== *)
(** [FormProviderMgr] (form_runtime/services/src/form_provider_mgr.cpp): what goes to
    the provider of a form and what comes back from it. Built with [SUPPORT_POWER]. *)

From S2P Require Import Prelude CppString StdMap FormLimiter FormTimer FormInfos FormRecords FormData.

#[local] Open Scope stdpp_scope.
#[local] Open Scope Z_scope.

Definition DEFAULT_USER_ID : Z := 0.
Definition MAX_FORM_DATA_SIZE : Z := 1024.

(** The parameters of a refresh that are read. *)
Record RefreshWant := mkRefresh { rw_userId : option Z; rw_isTimer : bool; rw_recreate : bool }.

Section provider.
Context `{!FormEnv}.

Definition GetDataString (d : FormProviderData) : string :=
  if json_empty (jsonFormProviderData_ d) then "" else env_json_dump (jsonFormProviderData_ d).

Definition IncreaseTimerRefreshCount (formId : Z) : FM unit :=
  record ← GetFormRecord formId;
  match record with
  | None => mret tt
  | Some r =>
      if fr_isCountTimerRefresh r then
        _ ← SetCountTimerRefresh formId false;
        on_limiter (λ m, (tt, Increase formId m))
      else mret tt
  end.

Definition ConnectAmsForRefresh (formId : Z) (r : FormRecord) (recreate isTimerRefresh : bool) : FM FormErr :=
  go ← (if isTimerRefresh then on_limiter (FormLimiter.IsEnableRefresh formId) else mret true);
  if negb go then mret FORM_PROVIDER_DEL_FAIL
  else
    errorCode ← connect (fr_bundleName r) (fr_abilityName r) (RefreshConnection formId recreate);
    if failed errorCode then mret FORM_BIND_PROVIDER_FAILED
    else
      _ ← (if fr_isCountTimerRefresh r then IncreaseTimerRefreshCount formId else mret tt);
      mret ERR_OK.

Definition GetFormAbilityInfo (r : FormRecord) : FormRecord :=
  new_form <| fr_bundleName := fr_bundleName r |> <| fr_abilityName := fr_abilityName r |>.

Definition IsNeedToFresh (r : FormRecord) (formId : Z) (isVisibleToFresh : bool) : FM bool :=
  isEnableRefresh ← IsEnableRefresh_form formId;
  if isEnableRefresh : bool then mret true
  else if isVisibleToFresh then mret (fr_isVisible r)
  else IsEnableUpdate_form formId.

Definition RefreshForm (formId : Z) (want : RefreshWant) (isVisibleToFresh : bool) : FM FormErr :=
  record ← GetFormRecord formId;
  match record with
  | None => mret FORM_NOT_EXIST_ID
  | Some r =>
      if negb (default DEFAULT_USER_ID (rw_userId want) =? fr_userId r) then
        _ ← SetNeedRefresh formId true; mret FORM_OPERATION_NOT_SELF
      else
        let isTimerRefresh := rw_isTimer want in
        _ ← (if isTimerRefresh then SetCountTimerRefresh formId true else mret true);
        screenOn ← gets (λ s, env_screen_on (forms_trace s));
        if negb screenOn then _ ← SetNeedRefresh formId true; mret ERR_OK
        else
          needRefresh ← IsNeedToFresh r formId isVisibleToFresh;
          if negb needRefresh then _ ← SetNeedRefresh formId true; mret ERR_OK
          else
            ConnectAmsForRefresh formId
              (GetFormAbilityInfo r <| fr_isInited := fr_isInited r |> <| fr_versionUpgrade := fr_versionUpgrade r |>
                 <| fr_isCountTimerRefresh := isTimerRefresh |>)
              (rw_recreate want) isTimerRefresh
  end.

(** The data of a provider that was connected to acquire it. *)
Definition AcquireForm (formId : Z) (info : FormProviderInfo) : FM FormErr :=
  if formId <=? 0 then mret FORM_INVALID_PARAM
  else
    record ← GetFormRecord formId;
    match record with
    | None => mret FORM_NOT_EXIST_ID
    | Some r =>
        host ← GetFormHostRecord formId;
        match host with
        | None => mret FORM_COMMON_CODE
        | Some clientHost =>
            if fr_isInited r then
              cached ← IsFormCached r;
              _ ← (if cached : bool then
                     _ ← (if Contains formId clientHost then OnAcquire formId (r <| fr_formProviderInfo := info |>) clientHost else mret tt);
                     mret ERR_OK
                   else RefreshForm formId (mkRefresh None false false) true);
              mret ERR_OK
            else
              let r := r <| fr_isInited := true |> <| fr_needRefresh := false |> in
              _ ← SetFormCacheInited formId true;
              _ ← (if Contains formId clientHost then OnAcquire formId (r <| fr_formProviderInfo := info |>) clientHost else mret tt);
              let jsonData := GetDataString (jsBindingData_ info) in
              _ ← (if Z.of_nat (String.length jsonData) <=? MAX_FORM_DATA_SIZE
                   then AddData formId jsonData (imageDataMap_ (jsBindingData_ info)) else mret true);
              mret ERR_OK
        end
    end.

(** The record with the new data: merged with what the record has, or instead of it
    after an upgrade. *)
Definition merge_update (r : FormRecord) (d : FormProviderData) : outcome FormRecord :=
  if fr_versionUpgrade r then
    Returned (r <| fr_formProviderInfo := mkProviderInfo d true |>)
  else
    data ← MergeData (jsonFormProviderData_ d) (jsBindingData_ (fr_formProviderInfo r));
    let data := SetImageDataMap (imageDataMap_ d) (SetImageDataState (imageDataState_ d) data) in
    Returned (r <| fr_formProviderInfo ::= λ i, i <| jsBindingData_ := data |> |>).

Definition UpdateForm (formId : Z) (r : FormRecord) (d : FormProviderData) : FM FormErr :=
  r ← lift_outcome (merge_update r d);
  let r := r <| fr_isInited := true |> <| fr_needRefresh := false |> in
  _ ← SetFormCacheInited formId true;
  _ ← UpdateHostNeedRefresh formId true;
  screenOn ← gets (λ s, env_screen_on (forms_trace s));
  _ ← (if screenOn : bool then
         updated ← UpdateHostForm formId r;
         if updated : bool then _ ← SetVersionUpgrade formId false; mret tt else mret tt
       else mret tt);
  let jsonData := GetDataString (jsBindingData_ (fr_formProviderInfo r)) in
  _ ← (if Z.of_nat (String.length jsonData) <=? MAX_FORM_DATA_SIZE then AddData formId jsonData (imageDataMap_ d)
       else DeleteData formId);
  mret ERR_OK.

Definition UpdateForm_info (formId : Z) (info : FormProviderInfo) : FM FormErr :=
  record ← GetFormRecord formId;
  match record with
  | None => mret FORM_NOT_EXIST_ID
  | Some r => UpdateForm formId r (jsBindingData_ info)
  end.

Definition MessageEvent (formId : Z) (r : FormRecord) : FM FormErr :=
  screenOn ← gets (λ s, env_screen_on (forms_trace s));
  if negb screenOn then mret FORM_COMMON_CODE
  else connect (fr_bundleName r) (fr_abilityName r) (MsgEventConnection formId).

Definition AcquireFormStateBack_provider (state : Z) (provider : string) : FM FormErr :=
  _ ← AcquireFormStateBack state provider; mret ERR_OK.
End provider.
