(* ===== verification/FormAdapter.v ===== *)
(** [FormMgrAdapter] (form_runtime/services/src/form_mgr_adapter.cpp): what hosts and
    providers ask of the form manager, over its tables, the database, the timers and
    the providers.

    A handler is one step; its caller is given by its uid and, where the code takes
    one, its token. *)

From Stdlib Require Import Ascii.
From S2P Require Import Prelude CppString StdMap FormLimiter FormTimer FormInfos FormRecords FormData FormStore FormProvider.

#[local] Open Scope stdpp_scope.
#[local] Open Scope Z_scope.

Definition UID_CALLINGUID_TRANSFORM_DIVISOR : Z := 200000.
Definition MAX_LAYOUT : nat := 8.
Definition SEC_PER_MIN : Z := 60.
Definition FORM_VISIBLE : Z := 1.
Definition NAME_DELIMITER : string := "::".
Definition ABS_CODE_PATH : string := "/data/app/el1/bundle/public".
Definition LOCAL_BUNDLES : string := "/data/bundles".

(** What is read of the want of a form. *)
Record FormWant := mkFormWant {
  fw_bundleName : string;
  fw_abilityName : string;
  fw_deviceId : string;
  fw_moduleName : string;
  fw_formName : string;
  fw_dimension : option Z;
  fw_temporary : bool;
  fw_message : bool;
}.

Definition GetCurrentUserId (callingUid : Z) : Z := Z.quot callingUid UID_CALLINGUID_TRANSFORM_DIVISOR.

(** [std::regex_replace] of a text without special characters. *)
Fixpoint replace_all (fuel : nat) (p q s : string) : string :=
  match fuel with
  | O => s
  | S fuel =>
      match str_index p s with
      | None => s
      | Some n => str_take n s +:+ q +:+ replace_all fuel p q (str_drop (n + String.length p) s)
      end
  end.

(** A removal of timers ends in its first round or never. *)
Definition REMOVE_FUEL : nat := 1.

Section adapter.
Context `{!FormEnv, !BundleEnv}.

(** ** The timers of a form *)

Definition remove_timer (ck : Clock) (formId : Z) : FM bool :=
  on_timers (RemoveFormTimer env_agent_made env_timer_id env_timer_starts REMOVE_FUEL ck formId).

Definition AddFormTimer_record (ck : Clock) (r : FormRecord) : FM FormErr :=
  if negb (fr_isEnableUpdate r) || fr_formTempFlg r then mret ERR_OK
  else if 0 <? fr_updateDuration r then
    ret ← on_timers (AddFormTimer_interval env_agent_made env_timer_id env_timer_starts ck (fr_formId r) (fr_updateDuration r) (fr_userId r));
    mret (if ret : bool then ERR_OK else FORM_COMMON_CODE)
  else if (0 <=? fr_updateAtHour r) && (0 <=? fr_updateAtMin r) then
    ret ← on_timers (AddFormTimer_at env_agent_made env_timer_id env_timer_starts ck (fr_formId r) (fr_updateAtHour r) (fr_updateAtMin r)
                       (fr_userId r));
    mret (if ret : bool then ERR_OK else FORM_COMMON_CODE)
  else mret ERR_OK.

(** ** The configuration of a form *)

Definition GetBundleInfo (w : FormWant) : FormErr + (BundleInfo * string) :=
  if String.eqb (fw_bundleName w) "" || String.eqb (fw_abilityName w) "" || String.eqb (fw_moduleName w) "" then inl FORM_INVALID_PARAM
  else if negb bms_there then inl FORM_GET_BMS_FAILED
  else match bms_GetBundleInfo (fw_bundleName w) account_id with
       | None => inl FORM_GET_INFO_FAILED
       | Some b =>
           if negb (bool_decide (fw_moduleName w ∈ bi_moduleNames b)) then inl FORM_NO_SUCH_MODULE
           else inr (b, fw_bundleName w +:+ fw_moduleName w)
       end.

Definition GetFormInfo (w : FormWant) : FM (FormErr + FormInfo) :=
  if String.eqb (fw_bundleName w) "" || String.eqb (fw_abilityName w) "" || String.eqb (fw_moduleName w) ""
  then mret (inl FORM_INVALID_PARAM)
  else
    formInfos ← on_infos (GetFormsInfoByModule (fw_bundleName w) (fw_moduleName w));
    mret (match formInfos with
          | inl _ => inl FORM_GET_INFO_FAILED
          | inr l =>
              let wanted f := if String.eqb (fw_formName w) "" then fo_defaultFlag f else String.eqb (fo_name f) (fw_formName w) in
              match List.find wanted l with
              | Some f => inr (f <| fo_moduleName := fw_moduleName w |>)
              | None => inl FORM_GET_INFO_FAILED
              end
          end).

Definition IsDimensionValid (f : FormInfo) (dimensionId : Z) : bool := bool_decide (dimensionId ∈ take MAX_LAYOUT (fo_supportDimensions f)).

(** The abilities of the form's name, then the modules. *)
Definition item_of_ability (f : FormInfo) (i : FormItemInfo) (a : AbilityInfo) : FormItemInfo :=
  if String.eqb (ai_name a) (fo_abilityName f) then
    let i := i <| fi_abilityModuleName := ai_moduleName a |> in
    if negb (ai_isModuleJson a) then i <| fi_formSrc := "" |> else i
  else i.
Definition item_of_module (f : FormInfo) (i : FormItemInfo) (m : ModuleInfo) : FormItemInfo :=
  let i := if String.eqb (fo_moduleName f) (mi_moduleName m) then i <| fi_hapSourceDirs ::= λ l, l ++ [mi_moduleSourceDir m] |> else i in
  AddModuleInfo (mi_moduleName m)
    (replace_all (S (String.length (mi_moduleSourceDir m))) ABS_CODE_PATH LOCAL_BUNDLES (mi_moduleSourceDir m)) i.
Definition CreateFormItemInfo (callingUid : Z) (b : BundleInfo) (f : FormInfo) : FormErr + FormItemInfo :=
  if negb bms_there then inl FORM_GET_BMS_FAILED
  else match bms_GetBundleNameForUid callingUid with
       | None => inl FORM_GET_INFO_FAILED
       | Some hostBundleName =>
           let i := new_item
             <| fi_providerBundleName := bi_name b |> <| fi_versionCode := bi_versionCode b |>
             <| fi_versionName := bi_versionName b |> <| fi_compatibleVersion := bi_compatibleVersion b |>
             <| fi_hostBundleName := hostBundleName |> <| fi_abilityName := fo_abilityName f |>
             <| fi_moduleName := fo_moduleName f |> <| fi_formName := fo_name f |> <| fi_updateFlag := fo_updateEnabled f |>
             <| fi_updateDuration := fo_updateDuration f |> <| fi_scheduledUpdateTime := fo_scheduledUpdateTime f |>
             <| fi_jsComponentName := fo_jsComponentName f |> <| fi_formVisibleNotify := fo_formVisibleNotify f |>
             <| fi_formSrc := fo_src f |> <| fi_formWindow := fo_window f |> in
           let i := foldl (item_of_ability f) i (bi_abilityInfos b) in
           inr (foldl (item_of_module f) i (bi_moduleInfos b))
       end.

Definition GetFormItemInfo (callingUid : Z) (w : FormWant) (b : BundleInfo) (f : FormInfo) : FormErr + FormItemInfo :=
  let dimensionId := default (fo_defaultDimension f) (fw_dimension w) in
  if negb (IsDimensionValid f dimensionId) then inl FORM_NO_SUCH_DIMENSION
  else match CreateFormItemInfo callingUid b f with
       | inl ret => inl ret
       | inr i => inr (i <| fi_specificationId := dimensionId |> <| fi_temporaryFlag := fw_temporary w |>)
       end.

Definition GetFormConfigInfo (callingUid : Z) (w : FormWant) : FM (FormErr + FormItemInfo) :=
  match GetBundleInfo w with
  | inl errCode => mret (inl errCode)
  | inr (b, packageName) =>
      formInfo ← GetFormInfo w;
      mret (match formInfo with
            | inl errCode => inl errCode
            | inr f =>
                if negb (form_info_valid f) then inl FORM_GET_INFO_FAILED
                else match GetFormItemInfo callingUid w b f with
                     | inl errCode => inl errCode
                     | inr i => inr (i <| fi_packageName := packageName |>)
                     end
            end)
  end.

(** ** Adding a form *)

Definition AcquireProviderFormInfoAsync (formId : Z) (info : FormItemInfo) : FM FormErr :=
  if formId <=? 0 then mret FORM_INVALID_PARAM
  else connect (fi_providerBundleName info) (fi_abilityName info) (AcquireConnection formId info).

(** The answer for the host: the data of the form and the record it is about. *)
Definition FormJsInfo : Type := option (string * Images) * Z * FormRecord.

Definition AddNewFormRecord (ck : Clock) (callingUid : Z) (callerToken : option positive) (info : FormItemInfo) (formId : Z)
    : FM (FormErr * option FormJsInfo) :=
  let newInfo := info <| fi_formId := formId |> in
  allotted ← AllotFormHostRecord newInfo callerToken formId callingUid;
  if negb allotted then mret (FORM_COMMON_CODE, None)
  else
    formRecord ← AllotFormRecord newInfo callingUid (GetCurrentUserId callingUid);
    errorCode ← AcquireProviderFormInfoAsync formId newInfo;
    if failed errorCode then mret (errorCode, None)
    else
      let js : FormJsInfo := (None, formId, formRecord) in
      errorCode ← (if negb (fi_temporaryFlag newInfo) then UpdateDBRecord formId formRecord else mret ERR_OK);
      if failed errorCode then mret (errorCode, Some js)
      else
        ret ← AddFormTimer_record ck formRecord;
        mret (ret, Some js).

Definition AddExistFormRecord (ck : Clock) (callingUid : Z) (callerToken : option positive) (info : FormItemInfo) (record : FormRecord)
    (formId : Z) : FM (FormErr * option FormJsInfo) :=
  isCreated ← AllotFormHostRecord info callerToken formId callingUid;
  if negb isCreated then mret (FORM_COMMON_CODE, None)
  else
    there ← IsExist (fr_formId record);
    let acquire := fr_needRefresh record || negb there in
    errorCode ← (if acquire then _ ← SetFormCacheInited formId false; AcquireProviderFormInfoAsync formId info else mret ERR_OK);
    if failed errorCode then mret (errorCode, None)
    else
      _ ← AddFormUserUid formId callingUid;
      let newRecord := (if acquire then record <| fr_isInited := false |> else record) <| fr_formUserUids ::= add_uid callingUid |> in
      cached ← GetData formId;
      let js : FormJsInfo := (cached, formId, record) in
      errorCode ← AddFormTimer_record ck newRecord;
      if failed errorCode then mret (errorCode, Some js)
      else
        ret ← (if negb (fr_formTempFlg newRecord) then UpdateDBRecord formId newRecord else mret ERR_OK);
        mret (ret, Some js).

Definition PaddingUDIDHash (formId : Z) : FM Z :=
  udidHash ← GetUdidHash;
  mret (if Z.land (wrap_u64 formId) 18446744069414584320 =? 0 then wrap_i64 (Z.lor (wrap_u64 udidHash) (wrap_u64 formId)) else formId).

Definition AllotFormById (ck : Clock) (callingUid : Z) (callerToken : option positive) (info : FormItemInfo)
    : FM (FormErr * option FormJsInfo) :=
  formId ← PaddingUDIDHash (fi_formId info);
  record ← GetFormRecord formId;
  let currentUserId := GetCurrentUserId callingUid in
  let usable userId uids := (userId =? currentUserId) || IsCallingUidValid callingUid uids in
  let find_in_db : FM (FormErr * option FormJsInfo) :=
    dbRecord ← GetDBRecord formId;
    if match dbRecord with Some d => usable (db_userId d) (db_formUserUids d) | None => false end
    then AddNewFormRecord ck callingUid callerToken info formId
    else
      let delRecord := new_form <| fr_bundleName := fi_providerBundleName info |> <| fr_abilityName := fi_abilityName info |> in
      _ ← NotifyProviderFormDelete formId delRecord;
      mret (FORM_NOT_EXIST_ID, None) in
  match record with
  | Some r =>
      if fr_formTempFlg r then mret (FORM_COMMON_CODE, None)
      else if usable (fr_userId r) (fr_formUserUids r) then
        if negb (IsMatch info r) then mret (FORM_CFG_NOT_MATCH_ID, None)
        else AddExistFormRecord ck callingUid callerToken info r formId
      else find_in_db
  | None => find_in_db
  end.

Definition AllotFormByInfo (ck : Clock) (callingUid : Z) (callerToken : option positive) (info : FormItemInfo)
    : FM (FormErr * option FormJsInfo) :=
  newFormId ← GenerateFormId;
  if newFormId <? 0 then mret (FORM_COMMON_CODE, None)
  else AddNewFormRecord ck callingUid callerToken info newFormId.

Definition AddForm (ck : Clock) (callingUid : Z) (callerToken : option positive) (formId : Z) (w : FormWant)
    : FM (FormErr * option FormJsInfo) :=
  if (formId <? 0) || bool_decide (callerToken = None) then mret (FORM_INVALID_PARAM, None)
  else if fw_temporary w && (0 <? formId) then mret (FORM_INVALID_PARAM, None)
  else
    checkCode ← (if fw_temporary w then CheckTempEnoughForm
                 else if formId =? 0 then CheckEnoughForm callingUid (GetCurrentUserId callingUid) else mret ERR_OK);
    if failed checkCode then mret (checkCode, None)
    else
      config ← GetFormConfigInfo callingUid w;
      match config with
      | inl errCode => mret (errCode, None)
      | inr item =>
          let item := item <| fi_formId := formId |> in
          if negb (IsValidItem item) then mret (FORM_GET_INFO_FAILED, None)
          else
            _ ← GenerateUdidHash;
            let item := item <| fi_deviceId := fw_deviceId w |> in
            if 0 <? formId then AllotFormById ck callingUid callerToken item
            else AllotFormByInfo ck callingUid callerToken item
      end.

(** ** Deleting a form *)

Definition owns (userId uid recordUserId : Z) (uids : list Z) : bool := (userId =? recordUserId) && bool_decide (uid ∈ uids).

Definition HandleDeleteFormCache (ck : Clock) (d : FormDBInfo) (uid formId : Z) : FM FormErr :=
  let dbRecord := record_of (Remove_uid uid d) in
  match fr_formUserUids dbRecord with
  | [] =>
      result ← NotifyProviderFormDelete formId dbRecord;
      if failed result then mret result
      else
        _ ← DeleteFormRecord formId;
        result ← DeleteFormInfo formId;
        if failed result then mret result
        else
          _ ← release_module (fr_bundleName dbRecord) (fr_moduleName dbRecord);
          _ ← DeleteData formId;
          removed ← remove_timer ck formId;
          mret (if removed : bool then ERR_OK else FORM_COMMON_CODE)
  | _ =>
      result ← UpdateDBRecord formId dbRecord;
      if failed result then mret result
      else
        _ ← NotifyModuleNotRemovable (fr_bundleName dbRecord) (fr_moduleName dbRecord);
        _ ← DeleteFormUserUid formId uid;
        mret ERR_OK
  end.

Definition HandleDeleteForm (ck : Clock) (callingUid : Z) (callerToken : option positive) (formId : Z) : FM FormErr :=
  dbRecord ← GetDBRecord formId;
  match dbRecord with
  | None => mret FORM_NOT_EXIST_ID
  | Some d =>
      let userId := GetCurrentUserId callingUid in
      if negb (owns userId callingUid (db_userId d) (db_formUserUids d)) then mret FORM_OPERATION_NOT_SELF
      else
        result ← HandleDeleteFormCache ck d callingUid formId;
        if failed result then mret result
        else
          _ ← DeleteHostRecord callerToken formId;
          _ ← form_emit (ReportEvent formId userId);
          mret ERR_OK
  end.

Definition HandleDeleteTempForm (uid : Z) (callerToken : option positive) (formId : Z) : FM FormErr :=
  record ← GetFormRecord formId;
  match record with
  | None => mret FORM_OPERATION_NOT_SELF
  | Some r =>
      if negb (fr_formTempFlg r && owns (GetCurrentUserId uid) uid (fr_userId r) (fr_formUserUids r)) then mret FORM_OPERATION_NOT_SELF
      else
        _ ← DeleteFormUserUid formId uid;
        more ← HasFormUserUids formId;
        result ← (if negb more then
                    result ← NotifyProviderFormDelete formId r;
                    if failed result then _ ← AddFormUserUid formId uid; mret result
                    else _ ← DeleteTempForm formId; _ ← DeleteFormRecord formId; _ ← DeleteData formId; mret ERR_OK
                  else mret ERR_OK);
        if failed result then mret result
        else _ ← DeleteHostRecord callerToken formId; mret ERR_OK
  end.

Definition DeleteForm (ck : Clock) (callingUid : Z) (callerToken : option positive) (formId : Z) : FM FormErr :=
  if (formId <=? 0) || bool_decide (callerToken = None) then mret FORM_INVALID_PARAM
  else
    matchedFormId ← FindMatchedFormId formId;
    temp ← ExistTempForm matchedFormId;
    if temp : bool then HandleDeleteTempForm callingUid callerToken matchedFormId
    else HandleDeleteForm ck callingUid callerToken matchedFormId.

(** ** Releasing a form *)

Definition HandleReleaseForm (ck : Clock) (callingUid : Z) (callerToken : option positive) (formId : Z) : FM FormErr :=
  there ← ExistFormRecord formId;
  if negb there then mret FORM_NOT_EXIST_ID
  else
    hostRecord ← GetMatchedHostClient callerToken;
    if negb (match hostRecord with Some h => Contains formId h | None => false end) then mret FORM_OPERATION_NOT_SELF
    else
      _ ← DeleteFormUserUid formId callingUid;
      more ← HasFormUserUids formId;
      if negb more then
        _ ← DeleteFormRecord formId;
        removed ← remove_timer ck formId;
        mret (if removed : bool then ERR_OK else FORM_COMMON_CODE)
      else mret ERR_OK.

Definition ReleaseForm (ck : Clock) (callingUid : Z) (callerToken : option positive) (formId : Z) (delCache : bool) : FM FormErr :=
  if (formId <=? 0) || bool_decide (callerToken = None) then mret FORM_INVALID_PARAM
  else
    matchedFormId ← FindMatchedFormId formId;
    temp ← ExistTempForm matchedFormId;
    if temp : bool then HandleDeleteTempForm callingUid callerToken matchedFormId
    else
      dbRecord ← GetDBRecord matchedFormId;
      match dbRecord with
      | None => mret FORM_NOT_EXIST_ID
      | Some d =>
          if negb (owns (GetCurrentUserId callingUid) callingUid (db_userId d) (db_formUserUids d)) then mret FORM_OPERATION_NOT_SELF
          else
            result ← (if delCache then HandleReleaseForm ck callingUid callerToken matchedFormId else mret ERR_OK);
            if failed result then mret result
            else
              _ ← DeleteHostRecord callerToken matchedFormId;
              removed ← remove_timer ck matchedFormId;
              mret (if removed : bool then ERR_OK else FORM_COMMON_CODE)
      end.

(** ** Invalid forms *)

Fixpoint match_all (formIds : list Z) : FM (list Z) :=
  match formIds with
  | [] => mret []
  | formId :: formIds' => matched ← FindMatchedFormId formId; rest ← match_all formIds'; mret (set_emplace matched rest)
  end.

(** The timers of the forms that are gone. *)
Definition remove_timers (ck : Clock) (removed : FoundForms) : FM unit :=
  for_each (λ e : Z * bool, if e.2 then _ ← remove_timer ck e.1; mret tt else mret tt) removed.

(** The result and the number of deleted forms. *)
Definition DeleteInvalidForms (ck : Clock) (callingUid : Z) (callerToken : option positive) (formIds : list Z) : FM (FormErr * Z) :=
  match callerToken with
  | None => mret (FORM_INVALID_PARAM, 0)
  | Some _ =>
      matchedFormIds ← match_all formIds;
      let userId := GetCurrentUserId callingUid in
      removed ← DeleteInvalidDBForms userId callingUid matchedFormIds [];
      removed ← DeleteInvalidTempForms userId callingUid matchedFormIds removed;
      _ ← match removed with
          | [] => mret tt
          | _ => _ ← ClearHostDataByInvalidForms callingUid removed; remove_timers ck removed
          end;
      mret (ERR_OK, Z.of_nat (length removed))
  end.

(** ** Turning a temporary form into a normal one *)

Definition HandleCastTempForm (formId : Z) (r : FormRecord) : FM FormErr :=
  connect (fr_bundleName r) (fr_abilityName r) (CastTempConnection formId).

Definition CastTempForm (ck : Clock) (callingUid : Z) (callerToken : option positive) (formId : Z) : FM FormErr :=
  if (formId <=? 0) || bool_decide (callerToken = None) then mret FORM_INVALID_PARAM
  else
    matchedFormId ← FindMatchedFormId formId;
    there ← ExistFormRecord matchedFormId;
    temp ← ExistTempForm matchedFormId;
    if negb there || negb temp then mret FORM_NOT_EXIST_ID
    else
      hostRecord ← GetMatchedHostClient callerToken;
      if negb (match hostRecord with Some h => Contains matchedFormId h | None => false end) then mret FORM_OPERATION_NOT_SELF
      else
        checkCode ← CheckEnoughForm callingUid (GetCurrentUserId callingUid);
        if failed checkCode then mret checkCode
        else
          record ← GetFormRecord matchedFormId;
          match record with
          | None => mret FORM_NOT_EXIST_ID
          | Some r =>
              code ← HandleCastTempForm matchedFormId r;
              if failed code then mret code
              else
                ok ← DeleteTempForm matchedFormId;
                if negb ok then mret FORM_NOT_EXIST_ID
                else
                  ok ← ModifyFormTempFlg matchedFormId false;
                  if negb ok then mret FORM_NOT_EXIST_ID
                  else
                    ok ← AddFormUserUid matchedFormId callingUid;
                    if negb ok then mret FORM_NOT_EXIST_ID
                    else
                      record ← GetFormRecord matchedFormId;
                      match record with
                      | None => mret FORM_NOT_EXIST_ID
                      | Some r =>
                          errorCode ← UpdateDBRecord matchedFormId r;
                          if failed errorCode then mret errorCode else AddFormTimer_record ck r
                      end
          end.

(** ** Data and events of a form *)

(** Whether the caller is the bundle. *)
Definition is_bundle (callingUid : Z) (bundleName : string) : bool :=
  bms_GetUidByBundleName bundleName (GetCurrentUserId callingUid) =? callingUid.

Definition UpdateForm_adapter (callingUid formId : Z) (bundleName : string) (d : FormProviderData) : FM FormErr :=
  if (formId <=? 0) || String.eqb bundleName "" then mret FORM_INVALID_PARAM
  else if negb bms_there then mret FORM_GET_BMS_FAILED
  else if negb (is_bundle callingUid bundleName) then mret FORM_INVALID_PARAM
  else
    matchedFormId ← FindMatchedFormId formId;
    record ← GetFormRecord matchedFormId;
    match record with
    | None => mret FORM_NOT_EXIST_ID
    | Some r =>
        if negb (GetCurrentUserId callingUid =? fr_userId r) then mret FORM_NOT_EXIST_ID
        else if negb (String.eqb (fr_bundleName r) bundleName) then mret FORM_INVALID_PARAM
        else UpdateForm matchedFormId r d
    end.

Definition own_form (callerToken : option positive) (formId : Z) (none : FormErr) (k : FM FormErr) : FM FormErr :=
  host ← GetMatchedHostClient callerToken;
  match host with
  | None => mret none
  | Some h => if negb (Contains formId h) then mret FORM_OPERATION_NOT_SELF else k
  end.

Definition RequestForm (callingUid : Z) (callerToken : option positive) (formId : Z) (want : RefreshWant) : FM FormErr :=
  if (formId <=? 0) || bool_decide (callerToken = None) then mret FORM_INVALID_PARAM
  else
    matchedFormId ← FindMatchedFormId formId;
    there ← ExistFormRecord matchedFormId;
    if negb there then mret FORM_NOT_EXIST_ID
    else own_form callerToken matchedFormId FORM_INVALID_PARAM
           (RefreshForm matchedFormId (mkRefresh (Some (GetCurrentUserId callingUid)) (rw_isTimer want) (rw_recreate want)) true).

Definition MessageEvent_adapter (callingUid : Z) (callerToken : option positive) (formId : Z) (w : FormWant) : FM FormErr :=
  if formId <=? 0 then mret FORM_INVALID_PARAM
  else if bool_decide (callerToken = None) then mret FORM_INVALID_PARAM
  else if negb (fw_message w) then mret FORM_INVALID_PARAM
  else
    matchedFormId ← FindMatchedFormId formId;
    record ← GetFormRecord matchedFormId;
    match record with
    | None => mret FORM_NOT_EXIST_ID
    | Some r =>
        own_form callerToken matchedFormId FORM_COMMON_CODE
          (errCode ← MessageEvent matchedFormId r;
           if failed errCode then mret errCode
           else
             temp ← ExistTempForm matchedFormId;
             _ ← (if negb temp then form_emit (ReportEvent matchedFormId (GetCurrentUserId callingUid)) else mret tt);
             mret ERR_OK)
    end.

Definition HandleUpdateFormFlag (callingUid : Z) (formIds : list Z) (callerToken : option positive) (flag isOnlyEnableUpdate : bool)
    : FM FormErr :=
  if bool_decide (formIds = []) || bool_decide (callerToken = None) then mret FORM_INVALID_PARAM
  else
    '(errCode, refreshForms) ← UpdateHostFormFlag formIds callerToken flag isOnlyEnableUpdate;
    _ ← (if negb (failed errCode) then
           for_each (λ id, _ ← RefreshForm id (mkRefresh (Some (GetCurrentUserId callingUid)) false false) false; mret tt) refreshForms
         else mret tt);
    mret errCode.
Definition EnableUpdateForm (callingUid : Z) (formIds : list Z) (callerToken : option positive) : FM FormErr :=
  HandleUpdateFormFlag callingUid formIds callerToken true false.
Definition DisableUpdateForm (callingUid : Z) (formIds : list Z) (callerToken : option positive) : FM FormErr :=
  HandleUpdateFormFlag callingUid formIds callerToken false false.
Definition NotifyFormsEnableUpdate (callingUid : Z) (formIds : list Z) (isEnableUpdate : bool) (callerToken : option positive)
    : FM FormErr :=
  HandleUpdateFormFlag callingUid formIds callerToken isEnableUpdate true.
Definition NotifyFormsVisible_adapter (formIds : list Z) (isVisible : bool) (callerToken : option positive) : FM FormErr :=
  NotifyFormsVisible formIds isVisible callerToken.

(** ** The next refresh that a provider asks for *)

Definition GetBundleName (callingUid : Z) : option string :=
  if negb bms_there then None
  else if negb (bms_CheckIsSystemAppByUid callingUid) then None
  else match bms_GetBundleNameForUid callingUid with
       | Some b => if String.eqb b "" then None else Some b
       | None => None
       end.

Definition SetNextRefreshtTimeLocked (ck : Clock) (formId nextTime userId : Z) : FM FormErr :=
  timerRefreshedCount ← gets (λ s, GetRefreshCount formId (refreshLimiter_ (form_timers s)));
  if LIMIT_COUNT <=? timerRefreshedCount then
    _ ← on_limiter (λ m, (tt, MarkRemind formId m));
    mret FORM_MAX_REFRESH
  else
    ok ← on_timers (SetNextRefreshTime env_agent_made env_timer_id env_timer_starts ck formId (wrap_i64 (nextTime * SEC_PER_MIN)) userId);
    mret (if ok : bool then ERR_OK else FORM_COMMON_CODE).

Definition SetNextRefreshTime_adapter (ck : Clock) (callingUid formId nextTime : Z) : FM FormErr :=
  if formId <=? 0 then mret FORM_INVALID_PARAM
  else match GetBundleName callingUid with
  | None => mret FORM_GET_BUNDLE_FAILED
  | Some bundleName =>
      let userId := GetCurrentUserId callingUid in
      if negb (is_bundle callingUid bundleName) then mret FORM_INVALID_PARAM
      else
        matchedFormId ← FindMatchedFormId formId;
        record ← GetFormRecord matchedFormId;
        match record with
        | None => mret FORM_NOT_EXIST_ID
        | Some r =>
            if negb (userId =? fr_userId r) then mret FORM_OPERATION_NOT_SELF
            else if negb (String.eqb bundleName (fr_bundleName r)) then mret FORM_OPERATION_NOT_SELF
            else SetNextRefreshtTimeLocked ck matchedFormId nextTime userId
        end
  end.

(** ** Offered forms *)

Definition AddFormInfo (callingUid : Z) (f : FormInfo) : FM FormErr :=
  match GetBundleName callingUid with
  | None => mret FORM_GET_BUNDLE_FAILED
  | Some bundleName =>
      on_infos (AddDynamicFormInfo (f <| fo_bundleName := bundleName |> <| fo_isStatic := false |>) (GetCurrentUserId callingUid))
  end.
Definition RemoveFormInfo (callingUid : Z) (moduleName formName : string) : FM FormErr :=
  match GetBundleName callingUid with
  | None => mret FORM_GET_BUNDLE_FAILED
  | Some bundleName => on_infos (RemoveDynamicFormInfo bundleName moduleName formName (GetCurrentUserId callingUid))
  end.

(** ** Forms that come into view *)

Definition CheckIsSystemAppByBundleName (bundleName : string) : bool :=
  match bms_GetBundleInfo bundleName account_id with
  | Some b => bms_CheckIsSystemAppByUid (bi_uid b)
  | None => false
  end.

Definition EventMaps : Type := list (string * list Z).
(** [None] when the provider is not to be told. *)
Definition CreateHandleEventMap (formId : Z) (r : FormRecord) (m : EventMaps) : option EventMaps :=
  if negb (fr_formVisibleNotify r) then None
  else
    let providerKey := fr_bundleName r +:+ NAME_DELIMITER +:+ fr_abilityName r in
    Some (match map_find providerKey m with
          | None => map_emplace providerKey [formId] m
          | Some _ => map_alter (λ l, l ++ [formId]) providerKey m
          end).

Definition HandleEventNotify (providerKey : string) (formIds : list Z) (formVisibleType : Z) : FM FormErr :=
  let '(bundleName, abilityName) :=
    match str_index NAME_DELIMITER providerKey with
    | Some position => (str_take position providerKey, str_drop (position + String.length NAME_DELIMITER) providerKey)
    | None => (providerKey, str_drop 1 providerKey)
    end in
  connect bundleName abilityName (EventNotifyConnection formIds formVisibleType).

(** [SetFormDataString] and [SetImageDataMap] of the record. *)
Definition with_cached (data : string) (imageMap : Images) (r : FormRecord) : FormRecord :=
  let text := if String.eqb data "" then "{}" else data in
  r <| fr_formProviderInfo ::= λ i, i <| jsBindingData_ ::= λ d,
    SetImageDataMap imageMap (match env_json_parse text with Some j => d <| jsonFormProviderData_ := j |> | None => d end) |> |>.

(** The record of a form whose host is the caller. *)
Definition UpdateProviderInfoToHost (formId : Z) (callerToken : option positive) (formVisibleType : Z) : FM (option FormRecord) :=
  record ← GetFormRecord formId;
  match record with
  | None => mret None
  | Some r =>
      host ← GetMatchedHostClient callerToken;
      match host with
      | None => mret None
      | Some h =>
          if negb (Contains formId h) then mret None
          else
            let r := r <| fr_formVisibleNotifyState := formVisibleType |> in
            ok ← UpdateFormRecord formId r;
            if negb ok then mret None
            else if fr_needRefresh r && (formVisibleType =? FORM_VISIBLE) then
              cached ← GetData formId;
              match cached with
              | Some (data, imageMap) =>
                  let r := with_cached data imageMap r in
                  _ ← OnUpdate formId r h;
                  mret (Some r)
              | None => mret (Some r)
              end
            else mret (Some r)
      end
  end.

Fixpoint visible_forms (formIds : list Z) (callerToken : option positive) (formVisibleType : Z) (m : EventMaps) : FM EventMaps :=
  match formIds with
  | [] => mret m
  | formId :: formIds' =>
      m ← (if formId <=? 0 then mret m
           else
             matchedFormId ← FindMatchedFormId formId;
             record ← UpdateProviderInfoToHost matchedFormId callerToken formVisibleType;
             mret (match record with
                   | Some r => if CheckIsSystemAppByBundleName (fr_bundleName r)
                               then default m (CreateHandleEventMap matchedFormId r m) else m
                   | None => m
                   end));
      visible_forms formIds' callerToken formVisibleType m
  end.
Definition NotifyWhetherVisibleForms (formIds : list Z) (callerToken : option positive) (formVisibleType : Z) : FM FormErr :=
  if bool_decide (callerToken = None) then mret FORM_INVALID_PARAM
  else if negb bms_there then mret FORM_GET_BMS_FAILED
  else
    eventMaps ← visible_forms formIds callerToken formVisibleType [];
    _ ← for_each (λ e : string * list Z, _ ← HandleEventNotify e.1 e.2 formVisibleType; mret tt) eventMaps;
    mret ERR_OK.

(** ** The state of a form *)

Definition state_provider (callingUid : Z) (w : FormWant) : string :=
  fw_bundleName w +:+ "::" +:+ fw_abilityName w +:+ "::" +:+ fw_moduleName w +:+ "::" +:+ fw_formName w +:+ "::" +:+
  pretty (default 1 (fw_dimension w)) +:+ "::" +:+ pretty callingUid.

Definition AcquireFormStateCheck (callingUid : Z) (w : FormWant) : FM (FormErr + string) :=
  if String.eqb (fw_bundleName w) "" || String.eqb (fw_abilityName w) "" || String.eqb (fw_moduleName w) "" ||
     String.eqb (fw_formName w) "" then mret (inl FORM_INVALID_PARAM)
  else
    formInfos ← on_infos (GetFormsInfoByModule (fw_bundleName w) (fw_moduleName w));
    mret (match formInfos with
          | inl errCode => inl errCode
          | inr l =>
              if existsb (λ f, String.eqb (fo_abilityName f) (fw_abilityName w) && String.eqb (fo_name f) (fw_formName w) &&
                               IsDimensionValid f (default 1 (fw_dimension w))) l
              then inr (state_provider callingUid w) else inl FORM_INVALID_PARAM
          end).

Definition AcquireFormState (callingUid : Z) (callerToken : option positive) (w : FormWant) : FM FormErr :=
  if bool_decide (callerToken = None) then mret FORM_INVALID_PARAM
  else
    check ← AcquireFormStateCheck callingUid w;
    match check with
    | inl errCode => mret errCode
    | inr provider =>
        _ ← CreateFormStateRecord provider new_item callerToken callingUid;
        connect (fw_bundleName w) (fw_abilityName w) (AcquireStateConnection provider)
    end.
End adapter.
