(* ===== verification/FormEvents.v ===== *)
(** [FormSysEventReceiver] (form_runtime/services/src/form_sys_event_receiver.cpp):
    what the form manager does when bundles are installed, removed or cleared and users
    removed, and the steps the whole form manager takes.

    An event posts a task; the task is one step. *)

From S2P Require Import Prelude CppString StdMap FormLimiter FormTimer FormInfos FormRecords FormData FormStore FormProvider FormAdapter.

#[local] Open Scope stdpp_scope.
#[local] Open Scope Z_scope.

Section events.
Context `{!FormEnv, !BundleEnv}.

(** * Timers of an updated form *)

(** A new [FormTimerCfg] is disabled, with no duration and no time. *)
Definition no_timer_cfg : FormTimerCfg := mkTimerCfg false 0 (-1) (-1).

Definition GetTimerCfg (updateEnabled : bool) (duration : Z) (configUpdateAt : string) : outcome FormTimerCfg :=
  if negb updateEnabled then Returned no_timer_cfg
  else if 0 <? duration then Returned (mkTimerCfg true (interval_of_config duration) (-1) (-1))
  else
    at_time ← time_of_config configUpdateAt;
    Returned (match at_time with Some (hour, min) => mkTimerCfg true 0 hour min | None => no_timer_cfg end).

(** [None] when nothing changes. *)
Definition update_type (r : FormRecord) (cfg : FormTimerCfg) : option UpdateType :=
  if 0 <? fr_updateDuration r then
    if 0 <? updateDuration cfg then
      if fr_updateDuration r =? updateDuration cfg then None else Some TYPE_INTERVAL_CHANGE
    else Some TYPE_INTERVAL_TO_ATTIME
  else if 0 <? updateDuration cfg then Some TYPE_ATTIME_TO_INTERVAL
  else if (fr_updateAtHour r =? updateAtHour cfg) && (fr_updateAtMin r =? updateAtMin cfg) then None
  else Some TYPE_ATTIME_CHANGE.

Definition HandleTimerUpdate (ck : Clock) (formId : Z) (r : FormRecord) (cfg : FormTimerCfg) : FM unit :=
  let set_info := SetUpdateInfo formId true (updateDuration cfg) (updateAtHour cfg) (updateAtMin cfg) in
  match fr_isEnableUpdate r, enableUpdate cfg with
  | false, false => mret tt
  | true, false => _ ← SetEnableUpdate formId false; _ ← remove_timer ck formId; mret tt
  | false, true =>
      _ ← set_info;
      _ ← on_timers (if 0 <? updateDuration cfg
                     then AddFormTimer_interval env_agent_made env_timer_id env_timer_starts ck formId (updateDuration cfg) (fr_userId r)
                     else AddFormTimer_at env_agent_made env_timer_id env_timer_starts ck formId (updateAtHour cfg) (updateAtMin cfg)
                            (fr_userId r));
      mret tt
  | true, true =>
      match update_type r cfg with
      | None => mret tt
      | Some type =>
          _ ← set_info;
          _ ← on_timers (UpdateFormTimer env_agent_made env_timer_id env_timer_starts ck formId type cfg);
          mret tt
      end
  end.

(** * Bundles *)

Definition ProviderFormUpdated (ck : Clock) (formId : Z) (r : FormRecord) (targetForms : list FormInfo) : FM bool :=
  match GetUpdatedForm r targetForms with
  | None => mret false
  | Some f =>
      _ ← SetNeedRefresh formId true;
      _ ← DeleteData formId;
      _ ← NotifyModuleNotRemovable (fr_bundleName r) (fr_moduleName r);
      cfg ← lift_outcome (GetTimerCfg (fo_updateEnabled f) (fo_updateDuration f) (fo_scheduledUpdateTime f));
      _ ← HandleTimerUpdate ck formId r cfg;
      _ ← SetVersionUpgrade formId true;
      mret true
  end.

(** The forms that are gone and those that were updated. *)
Fixpoint update_forms (ck : Clock) (targetForms : list FormInfo) (l : list FormRecord) : FM (list Z * list Z) :=
  match l with
  | [] => mret ([], [])
  | r :: l' =>
      let formId := fr_formId r in
      updated ← ProviderFormUpdated ck formId r targetForms;
      if updated : bool then '(removed, ups) ← update_forms ck targetForms l'; mret (removed, formId :: ups)
      else
        _ ← (if fr_formTempFlg r then _ ← DeleteTempForm formId; mret tt else _ ← DeleteFormInfo formId; mret tt);
        _ ← DeleteFormRecord formId;
        '(removed, ups) ← update_forms ck targetForms l';
        mret (formId :: removed, ups)
  end.

Definition HandleProviderUpdated (ck : Clock) (bundleName : string) (userId : Z) : FM unit :=
  formInfos ← GetFormRecord_of bundleName;
  match formInfos with
  | [] => mret tt
  | _ =>
      if negb bms_there then mret tt
      else
        targetForms ← on_infos (GetFormsInfoByBundle bundleName);
        match targetForms with
        | inl _ => mret tt
        | inr targetForms =>
            '(removedForms, updatedForms) ← update_forms ck targetForms formInfos;
            _ ← match removedForms with [] => mret tt | _ => CleanHostRemovedForms removedForms end;
            _ ← for_each (λ id, _ ← remove_timer ck id; mret tt) removedForms;
            for_each (λ id, _ ← RefreshForm id (mkRefresh (Some userId) false false) true; mret tt) updatedForms
        end
  end.

Definition HandleProviderRemoved (ck : Clock) (bundleName : string) (userId : Z) : FM unit :=
  removedDBForm ← DeleteFormInfoByBundleName bundleName userId;
  _ ← for_each (λ d, release_module (db_bundleName d) (db_moduleName d)) removedDBForm;
  let removedForms := set_of (db_formId <$> removedDBForm) in
  _ ← CleanRemovedFormRecords removedForms;
  removedForms ← CleanRemovedTempFormRecords bundleName userId removedForms;
  _ ← CleanHostRemovedForms removedForms;
  for_each (λ id, _ ← remove_timer ck id; mret tt) removedForms.

Definition HandleBundleFormInfoChanged (bundleName : string) (userId : Z) : FM unit :=
  _ ← on_infos (UpdateStaticFormInfos bundleName userId); mret tt.
Definition HandleBundleFormInfoRemoved (bundleName : string) (userId : Z) : FM unit :=
  _ ← on_infos (Remove bundleName userId); mret tt.

(** * Cleared data *)

Definition ReCreateForm (formId : Z) : FM unit :=
  record ← GetFormRecord formId;
  match record with
  | None => mret tt
  | Some r =>
      _ ← DeleteData formId;
      let reCreateRecord := new_form
        <| fr_bundleName := fr_bundleName r |> <| fr_abilityName := fr_abilityName r |> <| fr_formName := fr_formName r |>
        <| fr_specification := fr_specification r |> <| fr_formTempFlg := fr_formTempFlg r |> <| fr_isInited := fr_isInited r |>
        <| fr_versionUpgrade := fr_versionUpgrade r |> in
      _ ← ConnectAmsForRefresh formId reCreateRecord true false;
      mret tt
  end.

(** A form of a batch whose provider could not be told has its uid again. *)
Definition restore_uid (uid id : Z) : FM unit :=
  dbInfo ← GetDBRecord id;
  match dbInfo with
  | Some d => _ ← SaveFormInfo (d <| db_formUserUids ::= λ l, l ++ [uid] |>); mret tt
  | None => mret tt
  end.
Fixpoint clear_batches (uid : Z) (l : IdMap) (modules : list FormIdKey) (removed : FoundForms) : FM (list FormIdKey * FoundForms) :=
  match l with
  | [] => mret (modules, removed)
  | (k, ids) :: l' =>
      result ← NotifyProviderFormsBatchDelete (key_bundleName k) (key_abilityName k) ids;
      if failed result then _ ← for_each (restore_uid uid) ids; clear_batches uid l' modules removed
      else modules ← delete_batch ids modules; clear_batches uid l' modules (found_true removed ids)
  end.
Definition BatchDeleteNoHostDBForms_of (uid : Z) (n : NoHost) : FM FoundForms :=
  '(modules, removed) ← clear_batches uid (nh_forms n) [] (nh_found n);
  _ ← for_each (λ k, release_module (key_bundleName k) (key_abilityName k)) modules;
  mret removed.

Definition ClearFormDBRecordData (uid : Z) (removedFormsMap : FoundForms) : FM FoundForms :=
  n ← GetNoHostDBForms uid;
  _ ← for_each (λ e : Z * bool, _ ← DeleteFormUserUid e.1 uid; mret tt) (nh_found n);
  found ← BatchDeleteNoHostDBForms_of uid n;
  mret (insert_found found removedFormsMap).

Fixpoint clear_temp_batches (uid : Z) (l : IdMap) (found : FoundForms) : FM FoundForms :=
  match l with
  | [] => mret found
  | (k, ids) :: l' =>
      result ← NotifyProviderFormsBatchDelete (key_bundleName k) (key_abilityName k) ids;
      if failed result then _ ← for_each (λ id, _ ← AddFormUserUid id uid; mret tt) ids; clear_temp_batches uid l' found
      else
        _ ← for_each (λ id, _ ← DeleteFormRecord id; _ ← DeleteTempForm id; mret tt) ids;
        clear_temp_batches uid l' (found_true found ids)
  end.
Definition ClearTempFormRecordData (uid : Z) (removedFormsMap : FoundForms) : FM FoundForms :=
  n ← GetNoHostTempForms uid;
  found ← clear_temp_batches uid (nh_forms n) (nh_found n);
  mret (insert_found found removedFormsMap).

Definition HandleFormHostDataCleared (ck : Clock) (uid : Z) : FM unit :=
  removed ← ClearFormDBRecordData uid [];
  removed ← ClearTempFormRecordData uid removed;
  _ ← ClearHostDataByUId uid;
  remove_timers ck removed.

Definition HandleBundleDataCleared (ck : Clock) (bundleName : string) (userId : Z) : FM unit :=
  _ ← on_infos (RemoveAllDynamicFormsInfo bundleName userId);
  reCreateForms ← GetReCreateFormRecordsByBundleName bundleName;
  _ ← for_each ReCreateForm reCreateForms;
  if negb bms_there then mret tt else HandleFormHostDataCleared ck (bms_GetUidByBundleName bundleName userId).

(** * Users *)

Definition HandleUserIdRemoved (ck : Clock) (userId : Z) : FM unit :=
  removedFormIds ← DeleteFormsByUserId userId;
  _ ← DeleteDBFormsByUserId userId;
  for_each (λ id, _ ← remove_timer ck id; mret tt) removedFormIds.

(** * Events *)

Inductive SysEvent :=
  | PACKAGE_CHANGED (bundleName : string) (userId : Z)        (* and [PACKAGE_ADDED] *)
  | PACKAGE_REMOVED (bundleName : string) (userId : Z)
  | ABILITY_UPDATED (bundleName : string) (userId : Z)
  | PACKAGE_DATA_CLEARED (bundleName : string) (userId : Z)
  | USER_REMOVED (userId : Z).

Definition OnReceiveSysEvent (ck : Clock) (e : SysEvent) : FM unit :=
  match e with
  | PACKAGE_CHANGED "" _ | PACKAGE_REMOVED "" _ | ABILITY_UPDATED "" _ | PACKAGE_DATA_CLEARED "" _ => mret tt
  | PACKAGE_CHANGED bundleName userId =>
      _ ← HandleBundleFormInfoChanged bundleName userId; HandleProviderUpdated ck bundleName userId
  | PACKAGE_REMOVED bundleName userId =>
      _ ← HandleBundleFormInfoRemoved bundleName userId; HandleProviderRemoved ck bundleName userId
  | ABILITY_UPDATED bundleName userId => HandleProviderUpdated ck bundleName userId
  | PACKAGE_DATA_CLEARED bundleName userId => HandleBundleDataCleared ck bundleName userId
  | USER_REMOVED userId => if userId =? -1 then mret tt else HandleUserIdRemoved ck userId
  end.

(** * The steps of the form manager *)

Inductive FormEvent :=
  | EAdd (uid : Z) (token : option positive) (formId : Z) (w : FormWant)
  | EDelete (uid : Z) (token : option positive) (formId : Z)
  | ERelease (uid : Z) (token : option positive) (formId : Z) (delCache : bool)
  | ECast (uid : Z) (token : option positive) (formId : Z)
  | EDeleteInvalid (uid : Z) (token : option positive) (formIds : list Z)
  | EUpdate (uid formId : Z) (bundleName : string) (d : FormProviderData)
  | ERequest (uid : Z) (token : option positive) (formId : Z) (want : RefreshWant)
  | EMessage (uid : Z) (token : option positive) (formId : Z) (w : FormWant)
  | EFlag (uid : Z) (formIds : list Z) (token : option positive) (flag isOnlyEnableUpdate : bool)
  | EVisible (formIds : list Z) (isVisible : bool) (token : option positive)
  | ENotifyVisible (formIds : list Z) (token : option positive) (type : Z)
  | ENextRefresh (uid formId nextTime : Z)
  | EAcquired (formId : Z) (info : FormProviderInfo)
  | EUpdated (formId : Z) (info : FormProviderInfo)
  | ERefresh (formId : Z) (want : RefreshWant) (isVisibleToFresh : bool)
  | EAcquireState (uid : Z) (token : option positive) (w : FormWant)
  | EStateBack (state : Z) (provider : string)
  | EAddInfo (uid : Z) (f : FormInfo)
  | ERemoveInfo (uid : Z) (moduleName formName : string)
  | EHostDied (token : option positive)
  | ESystem (e : SysEvent)
  | EInterval
  | EAlarm (e : CommonEvent).

Definition ignore_result {A} (m : FM A) : FM unit := _ ← m; mret tt.
Definition form_event (ck : Clock) (e : FormEvent) : FM unit :=
  match e with
  | EAdd uid token formId w => ignore_result (AddForm ck uid token formId w)
  | EDelete uid token formId => ignore_result (DeleteForm ck uid token formId)
  | ERelease uid token formId delCache => ignore_result (ReleaseForm ck uid token formId delCache)
  | ECast uid token formId => ignore_result (CastTempForm ck uid token formId)
  | EDeleteInvalid uid token formIds => ignore_result (DeleteInvalidForms ck uid token formIds)
  | EUpdate uid formId bundleName d => ignore_result (UpdateForm_adapter uid formId bundleName d)
  | ERequest uid token formId want => ignore_result (RequestForm uid token formId want)
  | EMessage uid token formId w => ignore_result (MessageEvent_adapter uid token formId w)
  | EFlag uid formIds token flag only => ignore_result (HandleUpdateFormFlag uid formIds token flag only)
  | EVisible formIds isVisible token => ignore_result (NotifyFormsVisible_adapter formIds isVisible token)
  | ENotifyVisible formIds token type => ignore_result (NotifyWhetherVisibleForms formIds token type)
  | ENextRefresh uid formId nextTime => ignore_result (SetNextRefreshTime_adapter ck uid formId nextTime)
  | EAcquired formId info => ignore_result (AcquireForm formId info)
  | EUpdated formId info => ignore_result (UpdateForm_info formId info)
  | ERefresh formId want visible => ignore_result (RefreshForm formId want visible)
  | EAcquireState uid token w => ignore_result (AcquireFormState uid token w)
  | EStateBack state provider => ignore_result (AcquireFormStateBack_provider state provider)
  | EAddInfo uid f => ignore_result (AddFormInfo uid f)
  | ERemoveInfo uid moduleName formName => ignore_result (RemoveFormInfo uid moduleName formName)
  | EHostDied token => HandleHostDied token
  | ESystem e => OnReceiveSysEvent ck e
  | EInterval => on_timers (OnIntervalTimeOut env_active_accounts ck)
  | EAlarm e => on_timers (OnReceiveEvent env_agent_made env_timer_id env_timer_starts env_active_accounts ck e)
  end.
End events.
