(* ===== verification/FormDataRun.v ===== *)
(** The invariant [forms_ok] of the form manager, and that the operations of
    [FormDataMgr] and [FormDbCache] keep it. *)

From S2P Require Import Prelude CppString StdMap FormLimiter FormTimer FormTimerRun FormTimerClaims FormInfos.
From S2P Require Import FormRecords FormData FormStore.

#[local] Open Scope stdpp_scope.
#[local] Open Scope Z_scope.

(** * What every step of the form manager keeps: the tables of forms and hosts are
    keyed, the configured updates are ones the timers take, and no record holds data
    of its provider. *)

(** * Partial specifications

    [wlp m Q s]: if [m] returns from [s], then in a state that satisfies [Q]. *)

Section wlp.
Context {S : Type}.

Definition wlp {A} (m : ST S A) (Q : A → S → Prop) (s : S) : Prop := ∀ a s', m s = Returned (a, s') → Q a s'.

Lemma wlp_ret {A} (a : A) Q s : Q a s → wlp (mret a) Q s.
Proof. by intros H b s' [= <- <-]. Qed.
Lemma wlp_gets {A} (f : S → A) Q s : Q (f s) s → wlp (gets f) Q s.
Proof. by intros H b s' [= <- <-]. Qed.
Lemma wlp_modify f Q s : Q tt (f s) → wlp (modify f) Q s.
Proof. by intros H b s' [= <- <-]. Qed.
Lemma wlp_bind {A B} (m : ST S A) (f : A → ST S B) Q s : wlp m (λ a s', wlp (f a) Q s') s → wlp (m ≫= f) Q s.
Proof. intros H b s' (a & s1 & E1 & E2)%ST_bind_Returned. by eapply H. Qed.
Lemma wlp_mono {A} (m : ST S A) (P Q : A → S → Prop) s : wlp m P s → (∀ a s', P a s' → Q a s') → wlp m Q s.
Proof. intros H HPQ a s' E. by apply HPQ, H. Qed.
Lemma wlp_lift {A} (x : outcome A) Q s : (∀ a, x = Returned a → Q a s) → wlp (lift_outcome x) Q s.
Proof. intros H a s'. unfold lift_outcome. destruct x; [|done..]. intros [= <- <-]. by apply H. Qed.
Lemma wlp_for_each {A} (I : S → Prop) (f : A → ST S unit) l s :
  I s → (∀ x s', x ∈ l → I s' → wlp (f x) (λ _, I) s') → wlp (for_each f l) (λ _, I) s.
Proof.
  revert s. induction l as [|x l IH]; intros s Hs H; cbn [for_each]; [by apply wlp_ret|].
  apply wlp_bind. eapply wlp_mono; [apply H; [left|done]|]. intros [] s' Hs'. apply IH; [done|]. intros y s'' Hy. apply H. by right.
Qed.
Lemma wlp_wp {A} (m : ST S A) Q s : wp m Q s → wlp m Q s.
Proof. intros H a s' E. unfold wp in H. by rewrite E in H. Qed.
End wlp.

Lemma wlp_zoom {S T A} (get : S → T) set (m : ST T A) Q s :
  wlp m (λ a t, Q a (set t s)) (get s) → wlp (zoom get set m) Q s.
Proof.
  intros H a s'. unfold zoom. destruct (m (get s)) as [[b t]| |] eqn:E; [|done..]. intros [= <- <-]. by apply H.
Qed.

(** * The invariant *)

Record record_ok (id : Z) (r : FormRecord) : Prop := {
  rc_id : fr_formId r = id;
  rc_uids : NoDup (fr_formUserUids r);
  rc_config : fr_isEnableUpdate r = true →
    valid_duration (fr_updateDuration r) = true ∨
    fr_updateDuration r = 0 ∧ valid_time (fr_updateAtHour r) (fr_updateAtMin r) = true;
  rc_info : fr_formProviderInfo r = no_info;
}.

Record forms_ok (s : Forms) : Prop := {
  fm_sorted : map_sorted (formRecords_ s);
  fm_records id r : (id, r) ∈ formRecords_ s → record_ok id r;
  fm_temps : NoDup (tempForms_ s);
  fm_hosts : NoDup (fh_clientStub <$> clientRecords_ s);
  fm_stubs h : h ∈ clientRecords_ s → is_Some (fh_clientStub h);
  fm_db : NoDup (db_formId <$> formDBInfos_ s);
  fm_store id d : kv_store s !! id = Some d → db_formId d = id;
  fm_timers : timers_ok (form_timers s);
}.

Implicit Types (s : Forms) (r : FormRecord) (h : FormHostRecord) (id formId uid : Z).

(** Code that keeps it. *)
#[global] Abbreviation keeps_forms m s := (wlp m (λ _, forms_ok) s).

Lemma kf_bind {A B} (m : FM A) (f : A → FM B) s :
  keeps_forms m s → (∀ a s', forms_ok s' → keeps_forms (f a) s') → keeps_forms (m ≫= f) s.
Proof. intros H Hf. apply wlp_bind. eapply wlp_mono; [exact H|]. apply Hf. Qed.
Lemma kf_for_each {A} (f : A → FM unit) l s :
  forms_ok s → (∀ x s', x ∈ l → forms_ok s' → keeps_forms (f x) s') → keeps_forms (for_each f l) s.
Proof. apply wlp_for_each. Qed.

(** ** One table at a time *)

Lemma ok_records g s : forms_ok s → map_sorted (g (formRecords_ s)) → (∀ id r, (id, r) ∈ g (formRecords_ s) → record_ok id r) →
  forms_ok (s <| formRecords_ ::= g |>).
Proof. intros [] ??. by constructor. Qed.
Lemma ok_temps g s : forms_ok s → NoDup (g (tempForms_ s)) → forms_ok (s <| tempForms_ ::= g |>).
Proof. intros [] ?. by constructor. Qed.
Lemma ok_clients g s : forms_ok s → NoDup (fh_clientStub <$> g (clientRecords_ s)) →
  (∀ h, h ∈ g (clientRecords_ s) → is_Some (fh_clientStub h)) → forms_ok (s <| clientRecords_ ::= g |>).
Proof. intros [] ??. by constructor. Qed.
Lemma ok_db g s : forms_ok s → NoDup (db_formId <$> g (formDBInfos_ s)) → forms_ok (s <| formDBInfos_ ::= g |>).
Proof. intros [] ?. by constructor. Qed.
Lemma ok_store g s : forms_ok s → (∀ id d, g (kv_store s) !! id = Some d → db_formId d = id) → forms_ok (s <| kv_store ::= g |>).
Proof. intros [] ?. by constructor. Qed.
Lemma ok_timers t s : forms_ok s → timers_ok t → forms_ok (s <| form_timers := t |>).
Proof. intros [] ?. by constructor. Qed.

(** The tables that are not looked at. *)
Definition tables_eq s s' : Prop :=
  formRecords_ s' = formRecords_ s ∧ tempForms_ s' = tempForms_ s ∧ clientRecords_ s' = clientRecords_ s ∧
  formDBInfos_ s' = formDBInfos_ s ∧ kv_store s' = kv_store s ∧ form_timers s' = form_timers s.
Lemma ok_tables s s' : tables_eq s s' → forms_ok s → forms_ok s'.
Proof. intros (E1 & E2 & E3 & E4 & E5 & E6) []. constructor; rewrite ?E1, ?E2, ?E3, ?E4, ?E5, ?E6; done. Qed.
Lemma kf_other {A} (m : FM A) s : (∀ a s', m s = Returned (a, s') → tables_eq s s') → forms_ok s → keeps_forms m s.
Proof. intros H Hs a s' E. eapply ok_tables; [by eapply H|done]. Qed.

Lemma NoDup_filter_fun {A} (P : A → bool) (l : list A) : NoDup l → NoDup (List.filter P l).
Proof.
  intros H. induction H as [|x l Hx H IH]; cbn; [constructor|]. destruct (P x); [|done]. constructor; [|done].
  rewrite list_elem_of_In, filter_In, <- list_elem_of_In. tauto.
Qed.
Lemma filter_fun_sublist {A} (P : A → bool) (l : list A) : List.filter P l `sublist_of` l.
Proof. induction l as [|x l IH]; cbn; [done|]. destruct (P x); [by apply sublist_skip|by apply sublist_cons]. Qed.
Lemma elem_of_filter_fun {A} (P : A → bool) (l : list A) x : x ∈ List.filter P l ↔ P x = true ∧ x ∈ l.
Proof. rewrite !list_elem_of_In, filter_In. tauto. Qed.

Lemma ok_records_filter P s : forms_ok s → forms_ok (s <| formRecords_ ::= List.filter P |>).
Proof.
  intros Hs. apply ok_records; [done| |].
  - eapply StronglySorted_sublist; [apply fmap_sublist, filter_fun_sublist|apply Hs].
  - intros id r [_ H]%elem_of_filter_fun. by apply Hs.
Qed.
Lemma ok_temps_filter P s : forms_ok s → forms_ok (s <| tempForms_ ::= List.filter P |>).
Proof. intros Hs. apply ok_temps; [done|]. apply NoDup_filter_fun, Hs. Qed.

Lemma elem_of_map_change {V} (f : Z → V → V) (m : list (Z * V)) k v :
  (k, v) ∈ map_change f m ↔ ∃ v0, (k, v0) ∈ m ∧ v = f k v0.
Proof.
  unfold map_change. rewrite list_elem_of_fmap. split.
  - intros ([k0 v0] & [= -> ->] & H). by exists v0.
  - intros (v0 & H & ->). by exists (k, v0).
Qed.
Lemma ok_records_change f s : forms_ok s → (∀ id r, (id, r) ∈ formRecords_ s → record_ok id r → record_ok id (f id r)) →
  forms_ok (s <| formRecords_ ::= map_change f |>).
Proof.
  intros Hs Hf. apply ok_records; [done| |].
  - unfold map_sorted. rewrite keys_change. apply Hs.
  - intros id r (r0 & Hin & ->)%elem_of_map_change. apply Hf; [done|]. by apply Hs.
Qed.

Lemma record_at s id r : forms_ok s → map_find id (formRecords_ s) = Some r → record_ok id r.
Proof. intros Hs H%map_find_elem. by apply Hs. Qed.

(** ** Primitive operations *)

Lemma kf_emit e s : forms_ok s → keeps_forms (form_emit e) s.
Proof. intros Hs. apply wlp_modify. eapply (ok_tables s); [by repeat split|done]. Qed.
Lemma kf_on_infos {A} (m : ST FormInfos A) s : forms_ok s → keeps_forms (on_infos m) s.
Proof. intros Hs. apply wlp_zoom. intros a t _. eapply (ok_tables s); [by repeat split|done]. Qed.
Lemma kf_on_timers {A} (m : ST FormTimers A) s :
  (∀ t, timers_ok t → wlp m (λ _, timers_ok) t) → forms_ok s → keeps_forms (on_timers m) s.
Proof. intros H Hs. apply wlp_zoom. eapply wlp_mono; [apply H, Hs|]. intros a t Ht. by apply ok_timers. Qed.
Lemma kf_on_limiter {A} (f : Limiter → A * Limiter) s : forms_ok s → keeps_forms (on_limiter f) s.
Proof. apply kf_on_timers. intros t Ht. apply wlp_wp. by apply ok_limiter. Qed.

Lemma kf_change_record f id s : forms_ok s →
  (∀ r, (id, r) ∈ formRecords_ s → record_ok id r → record_ok id (f r)) → keeps_forms (change_record f id) s.
Proof.
  intros Hs Hf. unfold change_record. apply wlp_bind, wlp_gets. destruct (negb _); [by apply wlp_ret|].
  apply wlp_bind, wlp_modify, wlp_ret. apply ok_records_change; [done|]. intros k r Hin Hr. case_bool_decide; [subst|done]. by apply Hf.
Qed.

Create HintDb forms.
#[export] Hint Resolve kf_emit kf_on_infos kf_on_limiter : forms.
#[export] Hint Extern 3 (wlp _ _ _) => (apply wlp_gets; assumption) : forms.

(** One step of code that keeps the invariant. *)
Ltac kf_step := lazymatch goal with
  | |- wlp (mret _) _ _ => apply wlp_ret; try assumption
  | |- wlp (gets _ ≫= _) _ _ => apply wlp_bind, wlp_gets; cbv zeta beta
  | |- wlp (gets _) _ _ => apply wlp_gets; try assumption
  | |- wlp (lift_outcome _ ≫= _) _ _ => apply wlp_bind, wlp_lift; intros; cbv zeta beta
  | |- wlp (_ ≫= _) _ _ => apply kf_bind; [|intros; cbv zeta beta]
  | |- wlp (for_each _ _) _ _ => apply kf_for_each; [|intros; cbv zeta beta]
  | |- wlp (let '_ := ?x in _) _ _ => destruct x
  | |- wlp (if ?b then _ else _) _ _ => destruct b
  | |- wlp (match ?x with _ => _ end) _ _ => destruct x
  | |- wlp _ _ _ => eauto with forms
  | |- forms_ok _ => eauto with forms
  end.
Ltac kf_steps := cbv zeta; repeat kf_step.


(** Code of what the invariant does not look at. *)
Lemma kf_aside (f : Forms → Forms) s : (∀ s, tables_eq s (f s)) → forms_ok s → keeps_forms (modify f) s.
Proof. intros H Hs. apply wlp_modify. by eapply ok_tables. Qed.
#[export] Hint Extern 2 (wlp (modify _) _ _) => apply kf_aside; [intros; by repeat split|assumption] : forms.

(** * The cache and the ids *)

Lemma kf_AddData id d m s : forms_ok s → keeps_forms (AddData id d m) s.
Proof. intros. unfold AddData. kf_steps. Qed.
Lemma kf_DeleteData id s : forms_ok s → keeps_forms (DeleteData id) s.
Proof. intros. unfold DeleteData. kf_steps. Qed.
Lemma kf_GenerateUdidHash s : forms_ok s → keeps_forms GenerateUdidHash s.
Proof. intros. unfold GenerateUdidHash. kf_steps. Qed.
#[export] Hint Resolve kf_AddData kf_DeleteData kf_GenerateUdidHash : forms.

(** * Calls of hosts and providers *)

Lemma kf_CleanResource h s : forms_ok s → keeps_forms (CleanResource h) s.
Proof. intros. unfold CleanResource. kf_steps. Qed.
Lemma kf_OnUpdate id r h s : forms_ok s → keeps_forms (OnUpdate id r h) s.
Proof. intros. unfold OnUpdate. kf_steps. Qed.
Lemma kf_OnAcquire id r h s : forms_ok s → keeps_forms (OnAcquire id r h) s.
Proof. intros. unfold OnAcquire. kf_steps. Qed.
Lemma kf_OnFormUninstalled l h s : forms_ok s → keeps_forms (OnFormUninstalled l h) s.
Proof. intros. unfold OnFormUninstalled. kf_steps. Qed.
Lemma kf_OnAcquireState st h s : forms_ok s → keeps_forms (OnAcquireState st h) s.
Proof. intros. unfold OnAcquireState. kf_steps. Qed.
Lemma kf_connect `{!FormEnv} b a c s : forms_ok s → keeps_forms (connect b a c) s.
Proof. intros. unfold connect. kf_steps. Qed.
#[export] Hint Resolve kf_CleanResource kf_OnUpdate kf_OnAcquire kf_OnFormUninstalled kf_OnAcquireState kf_connect : forms.
Lemma kf_NotifyProviderFormDelete `{!FormEnv} id r s : forms_ok s → keeps_forms (NotifyProviderFormDelete id r) s.
Proof. intros. unfold NotifyProviderFormDelete. kf_steps. Qed.
Lemma kf_NotifyBatch `{!FormEnv} b a l s : forms_ok s → keeps_forms (NotifyProviderFormsBatchDelete b a l) s.
Proof. intros. unfold NotifyProviderFormsBatchDelete. kf_steps. Qed.
#[export] Hint Resolve kf_NotifyProviderFormDelete kf_NotifyBatch : forms.

(** * The records *)

Lemma add_uid_nodup uid l : NoDup l → NoDup (add_uid uid l).
Proof.
  intros H. unfold add_uid. case_bool_decide as Hin; [done|]. apply NoDup_app. split; [done|]. split; [|apply NoDup_singleton].
  by intros x Hx ->%list_elem_of_singleton.
Qed.
Lemma erase_val_nodup {A} `{!EqDecision A} (x : A) l : NoDup l → NoDup (list_erase_val x l).
Proof. intros H. eapply sublist_NoDup; [done|apply erase_first_sublist]. Qed.

(** The changes of a record that leave its configuration alone. *)
Ltac change_steps := intros ?; apply kf_change_record; [assumption|]; intros ? _ []; by constructor.
Lemma kf_ModifyFormTempFlg id b s : forms_ok s → keeps_forms (ModifyFormTempFlg id b) s.
Proof. change_steps. Qed.
Lemma kf_AddFormUserUid id uid s : forms_ok s → keeps_forms (AddFormUserUid id uid) s.
Proof. intros. apply kf_change_record; [done|]. intros r _ []. constructor; try done. by apply add_uid_nodup. Qed.
Lemma kf_DeleteFormUserUid id uid s : forms_ok s → keeps_forms (DeleteFormUserUid id uid) s.
Proof. intros. apply kf_change_record; [done|]. intros r _ []. constructor; try done. by apply erase_val_nodup. Qed.
Lemma kf_SetNeedRefresh id b s : forms_ok s → keeps_forms (SetNeedRefresh id b) s.
Proof. change_steps. Qed.
Lemma kf_SetCountTimerRefresh id b s : forms_ok s → keeps_forms (SetCountTimerRefresh id b) s.
Proof. change_steps. Qed.
Lemma kf_SetFormCacheInited id b s : forms_ok s → keeps_forms (SetFormCacheInited id b) s.
Proof. change_steps. Qed.
Lemma kf_SetVersionUpgrade id b s : forms_ok s → keeps_forms (SetVersionUpgrade id b) s.
Proof. change_steps. Qed.
Lemma kf_SetRecordVisible id b s : forms_ok s → keeps_forms (SetRecordVisible id b) s.
Proof. intros. unfold SetRecordVisible. apply kf_bind; [|intros; by apply wlp_ret]. revert H. change_steps. Qed.
Lemma kf_disable id s : forms_ok s → keeps_forms (SetEnableUpdate id false) s.
Proof. change_steps. Qed.
Lemma kf_SetUpdateInfo id d hour min s : forms_ok s → valid_duration d = true ∨ d = 0 ∧ valid_time hour min = true →
  keeps_forms (SetUpdateInfo id true d hour min) s.
Proof. intros. apply kf_change_record; [done|]. intros r _ []. by constructor. Qed.
Lemma kf_DeleteFormRecord id s : forms_ok s → keeps_forms (DeleteFormRecord id) s.
Proof. intros. unfold DeleteFormRecord. apply wlp_bind, wlp_modify, wlp_ret. by apply ok_records_filter. Qed.
Lemma kf_DeleteTempForm id s : forms_ok s → keeps_forms (DeleteTempForm id) s.
Proof.
  intros. unfold DeleteTempForm. kf_steps. apply wlp_modify, ok_temps; [done|]. apply erase_val_nodup. by apply fm_temps.
Qed.
#[export] Hint Resolve kf_ModifyFormTempFlg kf_AddFormUserUid kf_DeleteFormUserUid kf_SetNeedRefresh kf_SetCountTimerRefresh
  kf_SetFormCacheInited kf_SetVersionUpgrade kf_SetRecordVisible kf_disable kf_DeleteFormRecord kf_DeleteTempForm : forms.

Lemma kf_remove_temps l s : forms_ok s → keeps_forms (remove_temps l) s.
Proof. intros. by apply wlp_modify, ok_temps_filter. Qed.
Lemma kf_CleanRemovedFormRecords l s : forms_ok s → keeps_forms (CleanRemovedFormRecords l) s.
Proof. intros. by apply wlp_modify, ok_records_filter. Qed.
#[export] Hint Resolve kf_remove_temps kf_CleanRemovedFormRecords : forms.
#[export] Hint Extern 1 (wlp (modify (λ s, s <| formRecords_ ::= List.filter _ |>)) _ _) =>
  apply wlp_modify; by apply ok_records_filter : forms.
Lemma kf_CleanRemovedTempFormRecords b u l s : forms_ok s → keeps_forms (CleanRemovedTempFormRecords b u l) s.
Proof. intros. unfold CleanRemovedTempFormRecords. kf_steps. Qed.
Lemma kf_DeleteFormsByUserId u s : forms_ok s → keeps_forms (DeleteFormsByUserId u) s.
Proof. intros. unfold DeleteFormsByUserId. kf_steps. Qed.
#[export] Hint Resolve kf_CleanRemovedTempFormRecords kf_DeleteFormsByUserId : forms.

(** ** A new record *)

Lemma interval_of_config_valid d : valid_duration (interval_of_config d) = true.
Proof.
  unfold interval_of_config, valid_duration, MIN_CONFIG_DURATION, MAX_CONFIG_DURATION, MIN_PERIOD, MAX_PERIOD, TIME_CONVERSION.
  destruct (d <=? 1) eqn:E1; [done|]. destruct (336 <=? d) eqn:E2; [done|].
  rewrite !negb_orb, !andb_true_iff, !negb_true_iff, negb_false_iff.
  rewrite Z.rem_mul by lia. lia.
Qed.
Lemma time_of_config_valid t hour min : time_of_config t = Returned (Some (hour, min)) → valid_time hour min = true.
Proof.
  unfold time_of_config, valid_time. destruct (String.eqb t ""); [done|]. destruct (StringSplit t) as [|x [|y [|]]]; try done.
  unfold mbind, outcome_bind. destruct (std_stoi x) as [h'| |]; [|done..]. destruct (std_stoi y) as [m'| |]; [|done..].
  destruct (_ || _) eqn:E; [done|]. intros [= <- <-]. lia.
Qed.

Lemma CreateFormRecord_ok i uid u r : CreateFormRecord i uid u = Returned r → record_ok (fi_formId i) r.
Proof.
  unfold CreateFormRecord. set (r0 := record_of_item i u).
  assert (fr_formId r0 = fi_formId i ∧ fr_formProviderInfo r0 = no_info) as [E1 E2] by done. clearbody r0. cbv zeta.
  destruct (fr_isEnableUpdate r0) eqn:En.
  - unfold ParseUpdateConfig. destruct (0 <? fi_updateDuration i).
    + rewrite outcome_bind_Returned. intros [= <-]. constructor; cbn; [done|apply NoDup_singleton| |done]. intros _. left.
      apply interval_of_config_valid.
    + unfold ParseAtTimerConfig. destruct (time_of_config _) as [[[hour min]|]| |] eqn:E; try done;
        rewrite !outcome_bind_Returned; intros [= <-]; constructor; cbn; try done; try apply NoDup_singleton.
      intros _. right. split; [done|]. by eapply time_of_config_valid.
  - rewrite outcome_bind_Returned. intros [= <-]. constructor; cbn; try done; [apply NoDup_singleton|]. congruence.
Qed.

Lemma kf_AllotFormRecord i uid u s : forms_ok s → keeps_forms (AllotFormRecord i uid u) s.
Proof.
  intros Hs. unfold AllotFormRecord. apply wlp_bind, wlp_gets. apply kf_bind.
  { case_bool_decide as Hin; destruct (fi_temporaryFlag i); cbn [andb negb]; try by apply wlp_ret.
    apply wlp_modify, ok_temps; [done|]. apply NoDup_app. split; [by apply fm_temps|]. split; [|apply NoDup_singleton].
    by intros x Hx ->%list_elem_of_singleton. }
  intros ? s1 H1. apply wlp_bind, wlp_gets. destruct (map_find _ _) as [r|] eqn:E; [by apply wlp_ret|].
  apply wlp_bind, wlp_lift. intros r Hr%CreateFormRecord_ok. apply wlp_bind, wlp_modify, wlp_ret. apply ok_records; [done| |].
  - apply sorted_emplace, H1.
  - intros id r' [[= -> ->]|Hin]%elem_emplace; [done|by apply H1].
Qed.
#[export] Hint Resolve kf_AllotFormRecord : forms.

(** * The hosts *)

Definition clients_ok (l : list FormHostRecord) : Prop :=
  NoDup (fh_clientStub <$> l) ∧ ∀ o, o ∈ fh_clientStub <$> l → is_Some o.
Lemma ok_clients_ok s : forms_ok s → clients_ok (clientRecords_ s).
Proof. intros []. split; [done|]. intros o (h & -> & Hh)%list_elem_of_fmap. auto. Qed.
Lemma clients_ok_sublist l l' : fh_clientStub <$> l' `sublist_of` fh_clientStub <$> l → clients_ok l → clients_ok l'.
Proof. intros Hl [H1 H2]. split; [by eapply sublist_NoDup|]. intros o Ho. apply H2. by eapply elem_of_submseteq; [|apply sublist_submseteq]. Qed.
Lemma clients_ok_eq l l' : fh_clientStub <$> l' = fh_clientStub <$> l → clients_ok l → clients_ok l'.
Proof. intros E. apply clients_ok_sublist. by rewrite E. Qed.
Lemma kf_set_clients l s : forms_ok s → clients_ok l → keeps_forms (set_clients l) s.
Proof.
  intros Hs [H1 H2]. apply wlp_modify. apply (ok_clients (λ _, l)); [done..|]. intros h Hh. apply H2. by apply list_elem_of_fmap_2.
Qed.

Lemma stubs_replace P h h0 l : List.find P l = Some h0 → fh_clientStub h = fh_clientStub h0 →
  fh_clientStub <$> replace_first P h l = fh_clientStub <$> l.
Proof.
  intros Hf E. induction l as [|x l IH]; [done|]. cbn in *. destruct (P x); [by simplify_eq/=; rewrite E|]. csimpl. by rewrite IH.
Qed.
Lemma stub_AddForm_host id h : fh_clientStub (AddForm_host id h) = fh_clientStub h.
Proof. unfold AddForm_host. by destruct (_ !! _). Qed.

Lemma kf_CreateHostRecord i token uid s : forms_ok s → keeps_forms (CreateHostRecord i token uid) s.
Proof. intros. unfold CreateHostRecord, CreateRecord. kf_steps. Qed.

Lemma kf_AllotFormHostRecord i token id uid s : forms_ok s → keeps_forms (AllotFormHostRecord i token id uid) s.
Proof.
  intros Hs. unfold AllotFormHostRecord. apply wlp_bind, wlp_gets. pose proof (ok_clients_ok s Hs) as Hc.
  destruct (List.find _ _) as [h|] eqn:E.
  - apply kf_bind; [|intros; by apply wlp_ret]. apply kf_set_clients; [done|]. eapply clients_ok_eq; [|exact Hc].
    eapply stubs_replace; [exact E|]. apply stub_AddForm_host.
  - destruct token as [t|]; [|by apply wlp_bind, wlp_ret, wlp_ret]. cbn [CreateHostRecord]. unfold CreateRecord.
    apply wlp_bind, wlp_bind, wlp_bind, wlp_modify, wlp_ret, wlp_ret. cbv beta.
    apply kf_bind; [|intros; by apply wlp_ret]. apply kf_set_clients; [by eapply (ok_tables s); [repeat split|]|].
    destruct Hc as [H1 H2]. split.
    + rewrite fmap_app. apply NoDup_app. split; [done|]. split; [|apply NoDup_singleton].
      intros o Ho ->%list_elem_of_singleton. rewrite stub_AddForm_host in Ho. cbn in Ho.
      apply list_elem_of_fmap in Ho as (h & Eh & Hh). pose proof (find_None_elem _ _ _ E Hh) as Hne. unfold is_client in Hne.
      by rewrite Eh, bool_decide_true in Hne.
    + intros o. rewrite fmap_app, elem_of_app. intros [Ho| ->%list_elem_of_singleton]; [by apply H2|]. by rewrite stub_AddForm_host; eexists.
Qed.

Lemma kf_DeleteHostRecord token id s : forms_ok s → keeps_forms (DeleteHostRecord token id) s.
Proof.
  intros Hs. unfold DeleteHostRecord. apply wlp_bind, wlp_gets. pose proof (ok_clients_ok s Hs) as Hc.
  destruct (List.find _ _) as [h|] eqn:E; [|by apply wlp_ret]. cbv zeta. kf_steps; apply kf_set_clients; try done.
  - eapply clients_ok_sublist; [|exact Hc]. apply fmap_sublist, erase_first_sublist.
  - eapply clients_ok_eq; [|exact Hc]. by eapply stubs_replace.
Qed.
#[export] Hint Resolve kf_CreateHostRecord kf_AllotFormHostRecord kf_DeleteHostRecord : forms.

Lemma stub_del_forms removed h : fh_clientStub (del_forms removed h).1 = fh_clientStub h.
Proof.
  revert h. induction removed as [|id removed IH]; intros h; [done|]. cbn. destruct (Contains id h); [|apply IH].
  specialize (IH (DelForm id h)). by destruct (del_forms removed (DelForm id h)).
Qed.

(** Code that gives the hosts again, with other fields. *)
Lemma kf_clean_hosts removed m l s : forms_ok s →
  wlp (clean_hosts removed m l) (λ l' s', forms_ok s' ∧ fh_clientStub <$> l' = fh_clientStub <$> l) s.
Proof.
  revert m s. induction l as [|h l IH]; intros m s Hs; cbn [clean_hosts]; [by apply wlp_ret|].
  pose proof (stub_del_forms removed h) as E. destruct (del_forms removed h) as [h' ids]. cbn in E.
  apply wlp_bind. eapply wlp_mono; [by apply kf_OnFormUninstalled|]. intros ? s1 H1. apply wlp_bind.
  eapply wlp_mono; [by apply IH|]. intros l' s2 [H2 E2]. apply wlp_ret. split; [done|]. csimpl. by rewrite E, E2.
Qed.
Lemma kf_CleanHostRemovedForms removed s : forms_ok s → keeps_forms (CleanHostRemovedForms removed) s.
Proof.
  intros Hs. unfold CleanHostRemovedForms. apply wlp_bind, wlp_gets, wlp_bind. eapply wlp_mono; [by apply kf_clean_hosts|].
  intros l s1 [H1 E]. apply kf_set_clients; [done|]. eapply clients_ok_eq; [exact E|]. by apply ok_clients_ok.
Qed.

Lemma kf_update_hosts id r l s : forms_ok s →
  wlp (update_hosts id r l) (λ x s', forms_ok s' ∧ fh_clientStub <$> x.1 = fh_clientStub <$> l) s.
Proof.
  revert s. induction l as [|h l IH]; intros s Hs; cbn [update_hosts]; [by apply wlp_ret|]. cbv zeta.
  generalize (fr_isVisible r || IsEnableUpdate id h || IsEnableRefresh id h). intros b. apply wlp_bind.
  eapply wlp_mono; [instantiate (1 := λ _, forms_ok); by destruct b; kf_steps|].
  intros ? s1 H1. apply wlp_bind. eapply wlp_mono; [by apply IH|]. intros [l' u] s2 [H2 E2]. apply wlp_ret. split; [done|].
  csimpl. cbn [fst] in E2. rewrite E2. by destruct b.
Qed.
Lemma kf_UpdateHostForm id r s : forms_ok s → keeps_forms (UpdateHostForm id r) s.
Proof.
  intros Hs. unfold UpdateHostForm. apply wlp_bind, wlp_gets, wlp_bind. eapply wlp_mono; [by apply kf_update_hosts|].
  intros [l u] s1 [H1 E]. apply kf_bind; [|intros; by apply wlp_ret]. apply kf_set_clients; [done|]. eapply clients_ok_eq; [exact E|].
  by apply ok_clients_ok.
Qed.
Lemma kf_UpdateHostNeedRefresh id b s : forms_ok s → keeps_forms (UpdateHostNeedRefresh id b) s.
Proof.
  intros Hs. apply (kf_set_clients ((λ h, if Contains id h then SetNeedRefresh_host id b h else h) <$> clientRecords_ s) s Hs).
  eapply clients_ok_eq; [|by apply ok_clients_ok]. rewrite <- list_fmap_compose. apply list_fmap_ext. intros _ h _. cbn.
  by destruct (Contains id h).
Qed.
#[export] Hint Resolve kf_CleanHostRemovedForms kf_UpdateHostForm kf_UpdateHostNeedRefresh : forms.

Lemma kf_update_flag flag only id h s : forms_ok s →
  wlp (update_flag flag only id h) (λ x s', forms_ok s' ∧ fh_clientStub x.1 = fh_clientStub h) s.
Proof.
  intros Hs. unfold update_flag. destruct (id <=? 0); [by apply wlp_ret|]. apply wlp_bind, wlp_gets. set (m := if negb _ then id else _).
  destruct (negb (Contains m h)); [by apply wlp_ret|]. cbv zeta. set (h1 := if only then _ else _).
  assert (fh_clientStub h1 = fh_clientStub h) as E1.
  { subst h1. unfold SetEnableRefresh, SetEnableUpdate_host. by destruct only; repeat case_match. }
  clearbody h1. destruct (negb flag); [by apply wlp_ret|]. apply wlp_bind, wlp_gets.
  destruct (map_find m (formRecords_ s)) as [r|]; [|by apply wlp_ret]. destruct (fr_needRefresh r); [by apply wlp_ret|].
  destruct (negb (IsNeedRefresh m h1)); [by apply wlp_ret|]. apply wlp_bind. eapply wlp_mono.
  { instantiate (1 := λ _, forms_ok). unfold IsFormCached, IsExist. kf_steps. }
  intros [] s1 H1; [|by apply wlp_ret]. apply wlp_bind. eapply wlp_mono; [by apply kf_OnUpdate|]. intros ? s2 H2. by apply wlp_ret.
Qed.
Lemma kf_HandleUpdateHostFormFlag ids flag only h s : forms_ok s →
  wlp (HandleUpdateHostFormFlag ids flag only h) (λ x s', forms_ok s' ∧ fh_clientStub x.1 = fh_clientStub h) s.
Proof.
  revert h s. induction ids as [|id ids IH]; intros h s Hs; cbn [HandleUpdateHostFormFlag]; [by apply wlp_ret|].
  apply wlp_bind. eapply wlp_mono; [by apply kf_update_flag|]. intros [h1 o] s1 [H1 E1]. cbn [fst] in E1. apply wlp_bind.
  eapply wlp_mono; [by apply IH|]. intros [h2 l] s2 [H2 E2]. cbn [fst] in E2. apply wlp_ret. split; [done|]. cbn. congruence.
Qed.
Lemma kf_UpdateHostFormFlag ids token flag only s : forms_ok s → keeps_forms (UpdateHostFormFlag ids token flag only) s.
Proof.
  intros Hs. unfold UpdateHostFormFlag. apply wlp_bind, wlp_gets. destruct (List.find _ _) as [h|] eqn:E; [|by apply wlp_ret].
  apply wlp_bind. eapply wlp_mono; [by apply kf_HandleUpdateHostFormFlag|]. intros [h1 l] s1 [H1 E1]. cbn [fst] in E1.
  apply kf_bind; [|intros; by apply wlp_ret]. apply kf_set_clients; [done|]. eapply clients_ok_eq; [by eapply stubs_replace|].
  by apply ok_clients_ok.
Qed.
#[export] Hint Resolve kf_UpdateHostFormFlag : forms.

Lemma kf_ClearHostDataByUId uid s : forms_ok s → keeps_forms (ClearHostDataByUId uid) s.
Proof.
  intros Hs. unfold ClearHostDataByUId. apply wlp_bind, wlp_gets. apply kf_bind; [by kf_steps|]. intros ? s1 H1.
  apply kf_set_clients; [done|]. eapply clients_ok_sublist; [apply fmap_sublist, filter_fun_sublist|by apply ok_clients_ok].
Qed.

Lemma kf_clear_invalid uid removed l s : forms_ok s →
  wlp (clear_invalid uid removed l) (λ l' s', forms_ok s' ∧ fh_clientStub <$> l' `sublist_of` fh_clientStub <$> l) s.
Proof.
  revert s. induction l as [|h l IH]; intros s Hs; cbn [clear_invalid]; [by apply wlp_ret|].
  destruct (negb _); [apply wlp_bind; eapply wlp_mono; [by apply IH|]; intros l' s1 [H1 E1]; apply wlp_ret; split; [done|];
    csimpl; by apply sublist_skip|].
  cbv zeta. set (h' := foldl _ h removed). assert (fh_clientStub h' = fh_clientStub h) as E.
  { subst h'. clear. revert h. induction removed as [|e removed IH]; intros h; [done|]. cbn. by rewrite IH. }
  clearbody h'. destruct (IsEmpty h').
  - apply wlp_bind. eapply wlp_mono; [by apply kf_CleanResource|]. intros ? s1 H1. eapply wlp_mono; [by apply IH|].
    intros l' s2 [H2 E2]. split; [done|]. csimpl. by apply sublist_cons.
  - apply wlp_bind. eapply wlp_mono; [by apply IH|]. intros l' s1 [H1 E1]. apply wlp_ret. split; [done|]. csimpl. rewrite E.
    by apply sublist_skip.
Qed.
Lemma kf_ClearHostDataByInvalidForms uid removed s : forms_ok s → keeps_forms (ClearHostDataByInvalidForms uid removed) s.
Proof.
  intros Hs. unfold ClearHostDataByInvalidForms. apply wlp_bind, wlp_gets, wlp_bind. eapply wlp_mono; [by apply kf_clear_invalid|].
  intros l s1 [H1 E]. apply kf_set_clients; [done|]. eapply clients_ok_sublist; [exact E|]. by apply ok_clients_ok.
Qed.
#[export] Hint Resolve kf_ClearHostDataByUId kf_ClearHostDataByInvalidForms : forms.

(** * Died hosts, states, forms without a host *)

Lemma kf_HandleHostDied `{!FormEnv} token s : forms_ok s → keeps_forms (HandleHostDied token) s.
Proof.
  intros Hs. unfold HandleHostDied. apply wlp_bind, wlp_gets. apply kf_bind.
  - destruct (List.find _ _) as [h|] eqn:E; [|by apply wlp_ret]. unfold HandleHostDiedForTempForms.
    apply kf_bind; [|intros ids s1 H1; apply kf_bind; [by apply kf_CleanResource|]; intros ? s2 H2; apply kf_bind; [|intros; by apply wlp_ret]].
    + apply wlp_bind, wlp_gets, wlp_bind, wlp_modify, wlp_ret. exact (ok_temps_filter _ s Hs).
    + apply kf_set_clients; [done|]. eapply clients_ok_sublist; [apply fmap_sublist, erase_first_sublist|]. by apply ok_clients_ok.
  - intros ids s1 H1. unfold drop_temp_records. kf_steps.
Qed.

Lemma kf_CreateFormStateRecord p i token uid s : forms_ok s → keeps_forms (CreateFormStateRecord p i token uid) s.
Proof. intros. unfold CreateFormStateRecord. kf_steps. Qed.
Lemma kf_AcquireFormStateBack st p s : forms_ok s → keeps_forms (AcquireFormStateBack st p) s.
Proof. intros. unfold AcquireFormStateBack. kf_steps. Qed.
Lemma kf_NotifyFormsVisible ids b token s : forms_ok s → keeps_forms (NotifyFormsVisible ids b token) s.
Proof.
  intros Hs. assert (∀ l h s, forms_ok s → keeps_forms (find_matched l h) s) as Hf.
  { intros l h. induction l as [|id l IH]; intros s1 H1; cbn [find_matched]; [by apply wlp_ret|]. kf_steps. }
  unfold NotifyFormsVisible. destruct ids; [by apply wlp_ret|]. destruct token; [|by apply wlp_ret]. kf_steps.
Qed.
#[export] Hint Resolve kf_HandleHostDied kf_CreateFormStateRecord kf_AcquireFormStateBack kf_NotifyFormsVisible : forms.

(** The records of a round over the temporary forms: the same, some with a uid less. *)
Definition uids_less (a b : Z * FormRecord) : Prop := a.1 = b.1 ∧ (record_ok a.1 b.2 → record_ok a.1 a.2).
Lemma ok_uids_less l s : forms_ok s → Forall2 uids_less l (formRecords_ s) → forms_ok (s <| formRecords_ := l |>).
Proof.
  intros Hs Hl. apply (ok_records (λ _, l)); [done| |].
  - assert (keys l = keys (formRecords_ s)) as E; [|unfold map_sorted; rewrite E; apply Hs].
    clear Hs. unfold keys. induction Hl as [|a b l l' [E _] _ IH]; [done|]. csimpl. by rewrite E, IH.
  - intros id r Hin. apply list_elem_of_lookup_1 in Hin as [i Hi]. destruct (Forall2_lookup_l _ _ _ _ _ Hl Hi) as ([id' r'] & Hi' & [E H]).
    cbn in *. subst id'. apply H. apply Hs. by eapply list_elem_of_lookup_2.
Qed.
Lemma uids_less_refl a : uids_less a a.
Proof. by split. Qed.
Lemma uids_less_erase id r uid : uids_less (id, r <| fr_formUserUids ::= list_erase_val uid |>) (id, r).
Proof. split; [done|]. intros []. constructor; try done. by apply erase_val_nodup. Qed.
#[local] Hint Resolve uids_less_refl uids_less_erase : core.

Lemma no_host_temp_less uid l n l' n' : no_host_temp uid l n = Returned (l', n') → Forall2 uids_less l' l.
Proof.
  revert n l'. induction l as [|[id r] l IH]; intros n l'; cbn; [by intros [= <- <-]|].
  unfold mbind, outcome_bind at 1. match goal with |- context [match ?x with Returned _ => _ | _ => _ end] => destruct x as [[r1 n1]| |] eqn:E1 end;
    [|done..]. destruct (no_host_temp uid l n1) as [[l1 n2]| |] eqn:E2; cbn; [|done..]. intros [= <- <-].
  constructor; [|by eapply IH]. destruct (fr_formTempFlg r); [|by injection E1 as <- _]. destruct (bool_decide _); [|by injection E1 as <- _].
  cbv zeta in E1. destruct (fr_formUserUids _); [|by injection E1 as <- _]. by destruct (add_no_host _ _ n) as [n3| |]; [injection E1 as <- _|..].
Qed.
Lemma no_host_invalid_less u uid ids l n l' n' : no_host_invalid_temp u uid ids l n = Returned (l', n') → Forall2 uids_less l' l.
Proof.
  revert n l'. induction l as [|[id r] l IH]; intros n l'; cbn; [by intros [= <- <-]|].
  unfold mbind, outcome_bind at 1. match goal with |- context [match ?x with Returned _ => _ | _ => _ end] => destruct x as [[r1 n1]| |] eqn:E1 end;
    [|done..]. destruct (no_host_invalid_temp u uid ids l n1) as [[l1 n2]| |] eqn:E2; cbn; [|done..]. intros [= <- <-].
  constructor; [|by eapply IH]. destruct (invalid_temp u uid ids id r); [|by injection E1 as <- _].
  cbv zeta in E1. destruct (fr_formUserUids _); [|by injection E1 as <- _]. by destruct (add_no_host _ _ n) as [n3| |]; [injection E1 as <- _|..].
Qed.

Lemma kf_GetNoHostTempForms uid s : forms_ok s → keeps_forms (GetNoHostTempForms uid) s.
Proof.
  intros Hs. unfold GetNoHostTempForms. apply wlp_bind, wlp_gets, wlp_bind, wlp_lift. intros [l n] E.
  apply wlp_bind, wlp_modify, wlp_ret. apply ok_uids_less; [done|]. by eapply no_host_temp_less.
Qed.
Lemma kf_GetNoHostInvalidTempForms u uid ids s : forms_ok s → keeps_forms (GetNoHostInvalidTempForms u uid ids) s.
Proof.
  intros Hs. unfold GetNoHostInvalidTempForms. apply wlp_bind, wlp_gets, wlp_bind, wlp_lift. intros [l n] E.
  apply wlp_bind, wlp_modify, wlp_ret. apply ok_uids_less; [done|]. by eapply no_host_invalid_less.
Qed.
#[export] Hint Resolve kf_GetNoHostTempForms kf_GetNoHostInvalidTempForms : forms.
Lemma kf_DeleteInvalidTempForms `{!FormEnv} u uid ids found s : forms_ok s → keeps_forms (DeleteInvalidTempForms u uid ids found) s.
Proof. intros. unfold DeleteInvalidTempForms, BatchDeleteNoHostTempForms. kf_steps. Qed.
#[export] Hint Resolve kf_DeleteInvalidTempForms : forms.

(** * The database *)

Section store.
Context `{!FormEnv}.

Lemma kf_SaveStorageFormInfo d s : forms_ok s → keeps_forms (SaveStorageFormInfo d) s.
Proof.
  intros. unfold SaveStorageFormInfo, kv_do. kf_steps. apply wlp_modify, ok_store; [done|]. intros id d'. rewrite lookup_insert.
  case_decide; [by intros [= <-]|by apply fm_store].
Qed.
Lemma kf_DeleteStorageFormInfo id s : forms_ok s → keeps_forms (DeleteStorageFormInfo id) s.
Proof.
  intros. unfold DeleteStorageFormInfo, kv_do. kf_steps. apply wlp_modify, ok_store; [done|]. intros k d' [_ Hk]%lookup_delete_Some.
  by eapply fm_store.
Qed.
#[local] Hint Resolve kf_SaveStorageFormInfo kf_DeleteStorageFormInfo : forms.
Lemma kf_ModifyStorageFormInfo d s : forms_ok s → keeps_forms (ModifyStorageFormInfo d) s.
Proof. intros. unfold ModifyStorageFormInfo. kf_steps. Qed.
#[local] Hint Resolve kf_ModifyStorageFormInfo : forms.

Lemma ids_replace d x l : List.find (λ y, same_form y d) l = Some x → db_formId <$> replace_first (λ y, same_form y d) d l = db_formId <$> l.
Proof.
  induction l as [|y l IH]; [done|]. cbn. destruct (same_form y d) eqn:E; [|intros Hx; csimpl; by rewrite IH].
  intros _. csimpl. f_equal. unfold same_form in E. lia.
Qed.
Lemma kf_SaveFormInfo d s : forms_ok s → keeps_forms (SaveFormInfo d) s.
Proof.
  intros Hs. unfold SaveFormInfo, SaveFormInfoNolock. apply wlp_bind, wlp_gets. destruct (List.find _ _) as [x|] eqn:E.
  - kf_steps. apply wlp_modify. apply (ok_db (λ _, _)); [done|]. rewrite (ids_replace _ _ _ E). apply Hs.
  - kf_steps. apply wlp_modify. apply (ok_db (λ _, _)); [done|]. rewrite fmap_app. apply NoDup_app. split; [apply Hs|].
    split; [|apply NoDup_singleton]. intros i Hi ->%list_elem_of_singleton. apply list_elem_of_fmap in Hi as (y & Ey & Hy).
    pose proof (find_None_elem _ _ _ E Hy) as Hne. unfold same_form in Hne. lia.
Qed.
#[local] Hint Resolve kf_SaveFormInfo : forms.
Lemma kf_UpdateDBRecord id r s : forms_ok s → keeps_forms (UpdateDBRecord id r) s.
Proof. apply kf_SaveFormInfo. Qed.
Lemma kf_DeleteFormInfo id s : forms_ok s → keeps_forms (DeleteFormInfo id) s.
Proof.
  intros Hs. unfold DeleteFormInfo. kf_steps. apply wlp_modify, ok_db; [done|].
  eapply sublist_NoDup; [exact (fm_db _ Hs)|]. apply fmap_sublist, erase_first_sublist.
Qed.
Lemma kf_release_module b m s : forms_ok s → keeps_forms (release_module b m) s.
Proof. intros. unfold release_module, NotifyModuleRemovable. kf_steps. Qed.
Lemma kf_NotifyModuleNotRemovable b m s : forms_ok s → keeps_forms (NotifyModuleNotRemovable b m) s.
Proof. apply kf_emit. Qed.
#[local] Hint Resolve kf_DeleteFormInfo kf_release_module kf_NotifyModuleNotRemovable : forms.

Lemma kf_delete_stored P l s : forms_ok s → wlp (delete_stored P l) (λ x s', forms_ok s' ∧ x.1 `sublist_of` l) s.
Proof.
  revert s. induction l as [|d l IH]; intros s Hs; cbn [delete_stored]; [by apply wlp_ret|]. destruct (P d).
  - apply wlp_bind. eapply wlp_mono; [by apply kf_DeleteStorageFormInfo|]. intros ret s1 H1. apply wlp_bind.
    eapply wlp_mono; [by apply IH|]. intros [kept gone] s2 [H2 E2]. apply wlp_ret. split; [done|]. cbn [fst] in *.
    destruct (failed ret); cbn [fst]; [by apply sublist_skip|by apply sublist_cons].
  - apply wlp_bind. eapply wlp_mono; [by apply IH|]. intros [kept gone] s2 [H2 E2]. apply wlp_ret. split; [done|]. by apply sublist_skip.
Qed.
Lemma kf_delete_db P s : forms_ok s → keeps_forms (delete_db P) s.
Proof.
  intros Hs. unfold delete_db. apply wlp_bind, wlp_gets, wlp_bind. eapply wlp_mono; [by apply kf_delete_stored|]. intros [kept gone] s1 [H1 E].
  apply wlp_bind, wlp_modify, wlp_ret. apply (ok_db (λ _, kept)); [done|]. eapply sublist_NoDup; [exact (fm_db _ Hs)|]. by apply fmap_sublist.
Qed.

Lemma kf_drop_uid uid i d n s : forms_ok s → formDBInfos_ s !! i = Some d → keeps_forms (drop_uid uid i d n) s.
Proof.
  intros Hs Hi. unfold drop_uid. cbv zeta. apply kf_bind.
  - apply wlp_modify, ok_db; [done|]. rewrite list_fmap_insert. rewrite list_insert_id; [apply Hs|]. by rewrite list_lookup_fmap, Hi.
  - intros ? s1 H1. destruct (db_formUserUids _); kf_steps.
Qed.
Lemma kf_no_host_db P uid count i n s : forms_ok s → keeps_forms (no_host_db P uid count i n) s.
Proof.
  revert i n s. induction count as [|count IH]; intros i n s Hs; cbn [no_host_db]; [by apply wlp_ret|].
  apply wlp_bind, wlp_gets. apply kf_bind; [|intros ? s1 H1; by apply IH]. destruct (formDBInfos_ s !! i) as [d|] eqn:E; [|by apply wlp_ret].
  destruct (P d); [by apply kf_drop_uid|by apply wlp_ret].
Qed.
Lemma kf_GetNoHostDBForms uid s : forms_ok s → keeps_forms (GetNoHostDBForms uid) s.
Proof. intros. unfold GetNoHostDBForms. apply wlp_bind, wlp_gets. by apply kf_no_host_db. Qed.
Lemma kf_GetNoHostInvalidDBForms u uid ids s : forms_ok s → keeps_forms (GetNoHostInvalidDBForms u uid ids) s.
Proof. intros. unfold GetNoHostInvalidDBForms. apply wlp_bind, wlp_gets. by apply kf_no_host_db. Qed.

Lemma kf_delete_batch ids ms s : forms_ok s → keeps_forms (delete_batch ids ms) s.
Proof.
  revert ms s. induction ids as [|id ids IH]; intros ms s Hs; cbn [delete_batch]; [by apply wlp_ret|].
  apply kf_bind; [|intros; by apply IH]. unfold delete_batched. kf_steps.
Qed.
Lemma kf_batch_delete_db l ms s : forms_ok s → keeps_forms (batch_delete_db l ms) s.
Proof.
  revert ms s. induction l as [|[k ids] l IH]; intros ms s Hs; cbn [batch_delete_db]; [by apply wlp_ret|].
  kf_steps. by apply kf_delete_batch.
Qed.
#[local] Hint Resolve kf_delete_db kf_GetNoHostInvalidDBForms kf_batch_delete_db : forms.
Lemma kf_DeleteInvalidDBForms u uid ids found s : forms_ok s → keeps_forms (DeleteInvalidDBForms u uid ids found) s.
Proof. intros. unfold DeleteInvalidDBForms, BatchDeleteNoHostDBForms. kf_steps. Qed.
Lemma kf_DeleteFormInfoByBundleName b u s : forms_ok s → keeps_forms (DeleteFormInfoByBundleName b u) s.
Proof. apply kf_delete_db. Qed.
Lemma kf_DeleteDBFormsByUserId u s : forms_ok s → keeps_forms (DeleteDBFormsByUserId u) s.
Proof. intros. unfold DeleteDBFormsByUserId. kf_steps. Qed.
End store.
#[export] Hint Resolve kf_SaveFormInfo kf_UpdateDBRecord kf_DeleteFormInfo kf_release_module kf_NotifyModuleNotRemovable
  kf_GetNoHostDBForms kf_DeleteInvalidDBForms kf_DeleteFormInfoByBundleName kf_DeleteDBFormsByUserId kf_delete_batch : forms.
