(* ===== verification/FormRun.v ===== *)
(** Every handler of the form manager keeps the invariant; the form manager as a
    transition system; and a small world for the instances of its theorems. *)

From S2P Require Import Prelude CppString StdMap FormLimiter FormTimer FormTimerRun FormTimerClaims FormInfos.
From S2P Require Import FormRecords FormData FormStore FormProvider FormAdapter FormEvents FormDataRun.

#[local] Open Scope stdpp_scope.
#[local] Open Scope Z_scope.

Section run.
Context `{!FormEnv, !BundleEnv}.
Implicit Types (s : Forms) (r : FormRecord) (h : FormHostRecord) (id formId uid : Z) (ck : Clock).

(** * The timers *)

Lemma timer_wlp {A} (m : ST FormTimers A) e t :
  timer_event env_agent_made env_timer_id env_timer_starts env_active_accounts e = ignore m → timers_ok t → wlp m (λ _, timers_ok) t.
Proof.
  intros E Ht a t' Em. eapply (timers_ok_event env_agent_made env_timer_id env_timer_starts env_active_accounts e); [exact Ht|].
  rewrite E. unfold ignore. apply ST_bind_Returned. by exists a, t'.
Qed.
Lemma kf_timer {A} (m : ST FormTimers A) e s :
  timer_event env_agent_made env_timer_id env_timer_starts env_active_accounts e = ignore m → forms_ok s → keeps_forms (on_timers m) s.
Proof. intros E. apply kf_on_timers. intros t. by eapply timer_wlp. Qed.

Lemma kf_remove_timer ck id s : forms_ok s → keeps_forms (remove_timer ck id) s.
Proof. by apply (kf_timer _ (TRemove ck id)). Qed.
Lemma kf_add_interval ck id d u s : forms_ok s →
  keeps_forms (on_timers (AddFormTimer_interval env_agent_made env_timer_id env_timer_starts ck id d u)) s.
Proof. by apply (kf_timer _ (TAddInterval ck id d u)). Qed.
Lemma kf_add_at ck id hour min u s : forms_ok s →
  keeps_forms (on_timers (AddFormTimer_at env_agent_made env_timer_id env_timer_starts ck id hour min u)) s.
Proof. by apply (kf_timer _ (TAddAt ck id hour min u)). Qed.
Lemma kf_update_timer ck id ty cfg s : forms_ok s →
  keeps_forms (on_timers (UpdateFormTimer env_agent_made env_timer_id env_timer_starts ck id ty cfg)) s.
Proof. by apply (kf_timer _ (TUpdate ck id ty cfg)). Qed.
Lemma kf_next_refresh ck id t u s : forms_ok s →
  keeps_forms (on_timers (SetNextRefreshTime env_agent_made env_timer_id env_timer_starts ck id t u)) s.
Proof. by apply (kf_timer _ (TSetNext ck id t u)). Qed.
#[local] Hint Resolve kf_remove_timer kf_add_interval kf_add_at kf_update_timer kf_next_refresh : forms.

Lemma kf_AddFormTimer_record ck r s : forms_ok s → keeps_forms (AddFormTimer_record ck r) s.
Proof. intros. unfold AddFormTimer_record. kf_steps. Qed.
Lemma kf_remove_timers ck l s : forms_ok s → keeps_forms (remove_timers ck l) s.
Proof. intros. unfold remove_timers. kf_steps. Qed.
#[local] Hint Resolve kf_AddFormTimer_record kf_remove_timers : forms.

(** * Providers *)

Lemma kf_ConnectAmsForRefresh id r re t s : forms_ok s → keeps_forms (ConnectAmsForRefresh id r re t) s.
Proof. intros. unfold ConnectAmsForRefresh, IncreaseTimerRefreshCount. kf_steps. Qed.
#[local] Hint Resolve kf_ConnectAmsForRefresh : forms.
Lemma kf_RefreshForm id w v s : forms_ok s → keeps_forms (RefreshForm id w v) s.
Proof. intros. unfold RefreshForm, IsNeedToFresh. kf_steps. Qed.
#[local] Hint Resolve kf_RefreshForm : forms.
Lemma kf_IsFormCached r s : forms_ok s → keeps_forms (IsFormCached r) s.
Proof. intros. unfold IsFormCached. kf_steps. Qed.
#[local] Hint Resolve kf_IsFormCached : forms.
Lemma kf_AcquireForm id i s : forms_ok s → keeps_forms (AcquireForm id i) s.
Proof. intros. unfold AcquireForm. kf_steps. Qed.
Lemma kf_UpdateForm id r d s : forms_ok s → keeps_forms (UpdateForm id r d) s.
Proof. intros. unfold UpdateForm. kf_steps. Qed.
#[local] Hint Resolve kf_AcquireForm kf_UpdateForm : forms.
Lemma kf_MessageEvent id r s : forms_ok s → keeps_forms (MessageEvent id r) s.
Proof. intros. unfold MessageEvent. kf_steps. Qed.
#[local] Hint Resolve kf_MessageEvent : forms.

(** * Hosts *)

Lemma kf_GetFormConfigInfo uid w s : forms_ok s → keeps_forms (GetFormConfigInfo uid w) s.
Proof. intros. unfold GetFormConfigInfo, GetFormInfo. kf_steps. Qed.
Lemma kf_AddNewFormRecord ck uid token i id s : forms_ok s → keeps_forms (AddNewFormRecord ck uid token i id) s.
Proof. intros. unfold AddNewFormRecord, AcquireProviderFormInfoAsync. kf_steps. Qed.
Lemma kf_AddExistFormRecord ck uid token i r id s : forms_ok s → keeps_forms (AddExistFormRecord ck uid token i r id) s.
Proof. intros. unfold AddExistFormRecord, AcquireProviderFormInfoAsync. kf_steps. Qed.
#[local] Hint Resolve kf_GetFormConfigInfo kf_AddNewFormRecord kf_AddExistFormRecord : forms.
Lemma kf_AddForm ck uid token id w s : forms_ok s → keeps_forms (AddForm ck uid token id w) s.
Proof. intros. unfold AddForm, AllotFormById, AllotFormByInfo, PaddingUDIDHash. kf_steps. Qed.

Lemma kf_HandleDeleteFormCache ck d uid id s : forms_ok s → keeps_forms (HandleDeleteFormCache ck d uid id) s.
Proof. intros. unfold HandleDeleteFormCache. kf_steps. Qed.
#[local] Hint Resolve kf_HandleDeleteFormCache : forms.
Lemma kf_HandleDeleteTempForm uid token id s : forms_ok s → keeps_forms (HandleDeleteTempForm uid token id) s.
Proof. intros. unfold HandleDeleteTempForm, HasFormUserUids. kf_steps. Qed.
#[local] Hint Resolve kf_HandleDeleteTempForm : forms.
Lemma kf_DeleteForm ck uid token id s : forms_ok s → keeps_forms (DeleteForm ck uid token id) s.
Proof. intros. unfold DeleteForm, HandleDeleteForm. kf_steps. Qed.
Lemma kf_ReleaseForm ck uid token id b s : forms_ok s → keeps_forms (ReleaseForm ck uid token id b) s.
Proof. intros. unfold ReleaseForm, HandleReleaseForm, HasFormUserUids. kf_steps. Qed.
Lemma kf_match_all l s : forms_ok s → keeps_forms (match_all l) s.
Proof. revert s. induction l as [|id l IH]; intros s Hs; cbn [match_all]; kf_steps. Qed.
#[local] Hint Resolve kf_match_all : forms.
Lemma kf_DeleteInvalidForms ck uid token l s : forms_ok s → keeps_forms (DeleteInvalidForms ck uid token l) s.
Proof. intros. unfold DeleteInvalidForms. kf_steps. Qed.
Lemma kf_CastTempForm ck uid token id s : forms_ok s → keeps_forms (CastTempForm ck uid token id) s.
Proof. intros. unfold CastTempForm, HandleCastTempForm. kf_steps. Qed.

Lemma kf_own_form token id none k s : (∀ s, forms_ok s → keeps_forms k s) → forms_ok s → keeps_forms (own_form token id none k) s.
Proof. intros. unfold own_form. kf_steps. Qed.
Lemma kf_UpdateForm_adapter uid id b d s : forms_ok s → keeps_forms (UpdateForm_adapter uid id b d) s.
Proof. intros. unfold UpdateForm_adapter. kf_steps. Qed.
Lemma kf_RequestForm uid token id w s : forms_ok s → keeps_forms (RequestForm uid token id w) s.
Proof. intros. unfold RequestForm, own_form. kf_steps. Qed.
Lemma kf_MessageEvent_adapter uid token id w s : forms_ok s → keeps_forms (MessageEvent_adapter uid token id w) s.
Proof. intros. unfold MessageEvent_adapter, own_form. kf_steps. Qed.
Lemma kf_HandleUpdateFormFlag uid l token b c s : forms_ok s → keeps_forms (HandleUpdateFormFlag uid l token b c) s.
Proof. intros. unfold HandleUpdateFormFlag. kf_steps. Qed.
Lemma kf_SetNextRefreshTime_adapter ck uid id t s : forms_ok s → keeps_forms (SetNextRefreshTime_adapter ck uid id t) s.
Proof. intros. unfold SetNextRefreshTime_adapter, SetNextRefreshtTimeLocked. kf_steps. Qed.
Lemma kf_AddFormInfo uid f s : forms_ok s → keeps_forms (AddFormInfo uid f) s.
Proof. intros. unfold AddFormInfo. kf_steps. Qed.
Lemma kf_RemoveFormInfo uid m n s : forms_ok s → keeps_forms (RemoveFormInfo uid m n) s.
Proof. intros. unfold RemoveFormInfo. kf_steps. Qed.

(** The record goes back with another state of its visibility. *)
Lemma kf_UpdateProviderInfoToHost id token ty s : forms_ok s → keeps_forms (UpdateProviderInfoToHost id token ty) s.
Proof.
  intros Hs. unfold UpdateProviderInfoToHost. apply wlp_bind, wlp_gets. destruct (map_find id _) as [r|] eqn:E; [|by apply wlp_ret].
  pose proof (record_at _ _ _ Hs E) as Hr. apply wlp_bind, wlp_gets. destruct (List.find _ _) as [h|]; [|by apply wlp_ret].
  destruct (negb (Contains id h)); [by apply wlp_ret|]. cbv zeta.
  assert (record_ok id (r <| fr_formVisibleNotifyState := ty |>)) as Hr' by (destruct Hr; by constructor).
  set (r' := r <| fr_formVisibleNotifyState := ty |>) in *. clearbody r'.
  apply kf_bind; [by apply kf_change_record|]. intros ok s1 H1. kf_steps.
Qed.
#[local] Hint Resolve kf_UpdateProviderInfoToHost : forms.
Lemma kf_visible_forms l token ty m s : forms_ok s → keeps_forms (visible_forms l token ty m) s.
Proof. revert m s. induction l as [|id l IH]; intros m s Hs; cbn [visible_forms]; kf_steps. Qed.
#[local] Hint Resolve kf_visible_forms : forms.
Lemma kf_NotifyWhetherVisibleForms l token ty s : forms_ok s → keeps_forms (NotifyWhetherVisibleForms l token ty) s.
Proof. intros. unfold NotifyWhetherVisibleForms, HandleEventNotify. kf_steps. Qed.
Lemma kf_AcquireFormState uid token w s : forms_ok s → keeps_forms (AcquireFormState uid token w) s.
Proof. intros. unfold AcquireFormState, AcquireFormStateCheck. kf_steps. Qed.

(** * The system *)

Definition cfg_ok (cfg : FormTimerCfg) : Prop := enableUpdate cfg = true →
  valid_duration (updateDuration cfg) = true ∨ updateDuration cfg = 0 ∧ valid_time (updateAtHour cfg) (updateAtMin cfg) = true.
Lemma GetTimerCfg_ok b d t cfg : GetTimerCfg b d t = Returned cfg → cfg_ok cfg.
Proof.
  unfold GetTimerCfg, cfg_ok. destruct b; cbn [negb]; [|by intros [= <-]]. destruct (0 <? d).
  - intros [= <-] _. left. apply interval_of_config_valid.
  - destruct (time_of_config t) as [[[hour min]|]| |] eqn:E; try done; rewrite outcome_bind_Returned; intros [= <-]; [|done].
    intros _. right. split; [done|]. by eapply time_of_config_valid.
Qed.
Lemma kf_HandleTimerUpdate ck id r cfg s : cfg_ok cfg → forms_ok s → keeps_forms (HandleTimerUpdate ck id r cfg) s.
Proof.
  unfold cfg_ok. intros Hc Hs. unfold HandleTimerUpdate. cbv zeta. destruct (fr_isEnableUpdate r), (enableUpdate cfg); [| |specialize (Hc eq_refl)|].
  - destruct (update_type r cfg); [|by apply wlp_ret]. apply kf_bind; [by apply kf_SetUpdateInfo; auto|]. intros. kf_steps.
  - kf_steps.
  - apply kf_bind; [by apply kf_SetUpdateInfo|]. intros. destruct (0 <? updateDuration cfg); kf_steps.
  - kf_steps.
Qed.
Lemma kf_ProviderFormUpdated ck id r l s : forms_ok s → keeps_forms (ProviderFormUpdated ck id r l) s.
Proof. intros. unfold ProviderFormUpdated. kf_steps. apply kf_HandleTimerUpdate; [by eapply GetTimerCfg_ok|done]. Qed.
#[local] Hint Resolve kf_ProviderFormUpdated : forms.
Lemma kf_update_forms ck l rs s : forms_ok s → keeps_forms (update_forms ck l rs) s.
Proof. revert s. induction rs as [|r rs IH]; intros s Hs; cbn [update_forms]; kf_steps. Qed.
#[local] Hint Resolve kf_update_forms : forms.
Lemma kf_HandleProviderUpdated ck b u s : forms_ok s → keeps_forms (HandleProviderUpdated ck b u) s.
Proof. intros. unfold HandleProviderUpdated. kf_steps. Qed.
Lemma kf_HandleProviderRemoved ck b u s : forms_ok s → keeps_forms (HandleProviderRemoved ck b u) s.
Proof. intros. unfold HandleProviderRemoved. kf_steps. Qed.
Lemma kf_clear_batches uid l ms found s : forms_ok s → keeps_forms (clear_batches uid l ms found) s.
Proof. revert ms found s. induction l as [|[k ids] l IH]; intros ms found s Hs; cbn [clear_batches]; unfold restore_uid; kf_steps. Qed.
Lemma kf_clear_temp_batches uid l found s : forms_ok s → keeps_forms (clear_temp_batches uid l found) s.
Proof. revert found s. induction l as [|[k ids] l IH]; intros found s Hs; cbn [clear_temp_batches]; kf_steps. Qed.
#[local] Hint Resolve kf_clear_batches kf_clear_temp_batches : forms.
Lemma kf_HandleFormHostDataCleared ck uid s : forms_ok s → keeps_forms (HandleFormHostDataCleared ck uid) s.
Proof.
  intros. unfold HandleFormHostDataCleared, ClearFormDBRecordData, ClearTempFormRecordData, BatchDeleteNoHostDBForms_of. kf_steps.
Qed.
#[local] Hint Resolve kf_HandleFormHostDataCleared : forms.
Lemma kf_HandleBundleDataCleared ck b u s : forms_ok s → keeps_forms (HandleBundleDataCleared ck b u) s.
Proof. intros. unfold HandleBundleDataCleared, ReCreateForm. kf_steps. Qed.
Lemma kf_HandleUserIdRemoved ck u s : forms_ok s → keeps_forms (HandleUserIdRemoved ck u) s.
Proof. intros. unfold HandleUserIdRemoved. kf_steps. Qed.
#[local] Hint Resolve kf_HandleProviderUpdated kf_HandleProviderRemoved kf_HandleBundleDataCleared kf_HandleUserIdRemoved : forms.
Lemma kf_OnReceiveSysEvent ck e s : forms_ok s → keeps_forms (OnReceiveSysEvent ck e) s.
Proof. intros. destruct e as [[] u|[] u|[] u|[] u|u]; cbn [OnReceiveSysEvent]; unfold HandleBundleFormInfoChanged, HandleBundleFormInfoRemoved; kf_steps. Qed.

(** * Every event *)

#[local] Hint Resolve kf_AddForm kf_DeleteForm kf_ReleaseForm kf_CastTempForm kf_DeleteInvalidForms kf_UpdateForm_adapter kf_RequestForm
  kf_MessageEvent_adapter kf_HandleUpdateFormFlag kf_NotifyWhetherVisibleForms kf_SetNextRefreshTime_adapter kf_AcquireFormState
  kf_AddFormInfo kf_RemoveFormInfo kf_OnReceiveSysEvent : forms.
Lemma kf_form_event ck e s : forms_ok s → keeps_forms (form_event ck e) s.
Proof.
  intros Hs. destruct e; cbn [form_event]; unfold ignore_result; try (by kf_steps).
  - unfold UpdateForm_info. kf_steps.
  - unfold AcquireFormStateBack_provider. kf_steps.
  - apply kf_on_timers; [|done]. intros t Ht. by apply wlp_wp, ok_OnIntervalTimeOut.
  - apply kf_on_timers; [|done]. intros t Ht. by apply wlp_wp, ok_OnReceiveEvent.
Qed.

(** * The transition system *)

(** The database of an earlier run is loaded first. *)
Definition form_start (m : gmap Z FormDBInfo) : Forms :=
  match Start (new_forms <| kv_store := m |>) with Returned (_, s) => s | _ => new_forms end.
Definition form_step : relation Forms := event_step (λ e : Clock * FormEvent, form_event e.1 e.2) (λ _ _, True).
Definition form_reachable (m : gmap Z FormDBInfo) s : Prop :=
  (∀ id d, m !! id = Some d → db_formId d = id) ∧ rtc form_step (form_start m) s.

Lemma NoDup_stored m : (∀ id d, m !! id = Some d → db_formId d = id) → NoDup (db_formId <$> stored_forms m).
Proof.
  intros Hm. unfold stored_forms, in_order. rewrite list_sort_perm. rewrite <- list_fmap_compose.
  replace ((db_formId ∘ snd) <$> map_to_list m) with ((map_to_list m).*1); [apply NoDup_fst_map_to_list|].
  apply list_fmap_ext. intros i [id d] Hi. cbn. symmetry. apply Hm, elem_of_map_to_list. by eapply list_elem_of_lookup_2.
Qed.

Lemma form_start_ok m : (∀ id d, m !! id = Some d → db_formId d = id) → forms_ok (form_start m).
Proof.
  intros Hm. assert (forms_ok (new_forms <| kv_store := m |>)) as Hn.
  { constructor; cbn; try constructor; try done; try set_solver; try apply new_timers_ok. all: fail. }
  unfold form_start, Start, LoadFormData, gets, modify, mbind, ST_bind. cbn.
  destruct (env_kv_ok []); [|exact Hn]. apply (ok_db (λ l, l ++ stored_forms m)) in Hn; [exact Hn|cbn; by apply NoDup_stored].
Qed.

Lemma form_reachable_ok m s : form_reachable m s → forms_ok s.
Proof.
  intros [Hm Hr]. apply form_start_ok in Hm. revert Hm. induction Hr as [s|s1 s2 s3 [[ck e] s1' s2' _ E] _ IH]; [done|].
  intros Hs. apply IH. by apply (kf_form_event ck e s1' Hs tt).
Qed.
End run.

(** * A small world for the form manager: one bundle that offers two forms, hosts of one
    user, services that do what they are asked. *)

(** Everything works; the hash of the time counts what was done. *)
Definition demo_forms : FormEnv := {|
  env_connected _ := true;
  env_kv_ok _ := true;
  env_screen_on _ := true;
  env_time_hash l := 4096 + Z.of_nat (length l);
  env_json_dump _ := "{data}";
  env_json_parse _ := None;
  env_common_code := 2097152;
  env_agent_made := always;
  env_timer_id := numbered;
  env_timer_starts := always;
  env_active_accounts := demo_users;
|}.

Definition clock_card : FormInfo :=
  mkFormInfo "card" "com.clock" "entry" "Clock" true true 2 [2; 3] true 2 "" false "" "" 0.
Definition alarm_card : FormInfo :=
  mkFormInfo "alarm" "com.clock" "entry" "Alarm" true false 2 [2] true 0 "7:30" false "" "" 0.
Definition clock_bundle : BundleInfo :=
  mkBundleInfo "com.clock" 20010001 55 1 "1.0" 1 ["entry"] [mkAbilityInfo "Clock" "entry" true; mkAbilityInfo "Alarm" "entry" true]
    [mkModuleInfo "entry" "/data/app/el1/bundle/public/com.clock/entry"] [mkHapModule "entry" ["Clock"; "Alarm"] []] [].

Definition demo_bundles : BundleEnv := {|
  bms_there := true;
  bms_GetBundleInfo b _ := if String.eqb b "com.clock" then Some clock_bundle else None;
  bms_GetFormsInfoByModule b _ := if String.eqb b "com.clock" then Some [clock_card; alarm_card] else None;
  bms_GetBundleNameForUid uid := Some (if uid =? 20010001 then "com.clock" else "com.launcher");
  bms_CheckIsSystemAppByUid _ := true;
  bms_GetUidByBundleName b _ := if String.eqb b "com.clock" then 20010001 else 20010002;
  client_GetResConfigFile _ := None;
  profile_forms _ _ := None;
  form_info_valid _ := true;
  account_id := 100;
  info_kv_ok _ := true;
  caller_may_query := true;
  caller_token := 55;
|}.

#[local] Existing Instance demo_forms.
#[local] Existing Instance demo_bundles.

Definition morning : Clock := demo_clock 1 (clock_of 9 0 5).
Definition card_want : FormWant := mkFormWant "com.clock" "Clock" "" "entry" "card" (Some 2) false false.
Definition alarm_want : FormWant := mkFormWant "com.clock" "Alarm" "" "entry" "alarm" None false false.

Definition demo_run (e : Clock * FormEvent) : ST Forms unit := form_event e.1 e.2.
Definition forms_after (es : list FormEvent) : Forms := after_events demo_run (λ _ _, True) (pair morning <$> es) (form_start ∅).

Lemma forms_after_reachable es :
  bool_decide (is_Some (run_events demo_run (λ _ _, True) (pair morning <$> es) (form_start ∅))) = true → form_reachable ∅ (forms_after es).
Proof. intros Hes. split; [done|]. by apply after_events_steps. Qed.

(** The bundle is installed, and a host of uid 20010002 adds both forms. *)
Definition installed : list FormEvent := [ESystem (PACKAGE_CHANGED "com.clock" 100)].
Definition two_cards : list FormEvent :=
  installed ++ [EAdd 20010002 (Some 1%positive) 0 card_want; EAdd 20010002 (Some 1%positive) 0 alarm_want].

Definition the_forms : Forms := Eval vm_compute in forms_after two_cards.
