(* ===== verification/FormClaims.v ===== *)
(** What holds of the tables of the form manager, and of the timers of its forms. *)

From S2P Require Import Prelude CppString StdMap FormLimiter FormTimer FormTimerRun FormTimerClaims FormInfos FormRecords FormData FormStore FormProvider FormAdapter FormEvents FormDataRun FormRun.

#[local] Open Scope stdpp_scope.
#[local] Open Scope Z_scope.

Section reachable.
Context `{!FormEnv, !BundleEnv}.
Implicit Types (s : Forms) (r : FormRecord) (h : FormHostRecord) (id formId uid : Z) (ck : Clock).

(** C7: whatever hosts, providers, timers, bundles and users do, and whatever
    the key-value store, the connections and the clocks answer, the tables of the form
    manager stay well formed: a record is filed under its own id, its users are
    different and the update it was configured with is one that the timers take; no
    record keeps data of its provider; a temporary form is listed once; a host has a
    client, and no two the same; the forms of the database are different and each is
    stored under its own id; and the timers are in order. *)
Theorem forms_consistent m s : form_reachable m s → forms_ok s.
Proof. apply form_reachable_ok. Qed.

(** ** Timers of configured forms *)

Definition timed id (t : FormTimers) : bool :=
  bool_decide (is_Some (map_find id (intervalTimerTasks_ t))) || existsb (has_timer id) (updateAtTimerTasks_ t).

(** A speed divides the shortest period, so the longest as well. *)
Lemma speed_period d speed : 1 ≤ speed ≤ 1000 → (speed | MIN_PERIOD) → valid_duration d = true →
  Z.quot MIN_PERIOD speed ≤ Z.quot d speed ≤ Z.quot MAX_PERIOD speed ∧ Z.rem (Z.quot d speed) (Z.quot MIN_PERIOD speed) = 0.
Proof.
  unfold valid_duration. rewrite negb_true_iff, !orb_false_iff, negb_false_iff, Z.eqb_eq, !Z.ltb_ge.
  intros Hspeed [k Hk] [[Hmin Hmax] Hrem]. split; [by split; apply Z.quot_le_mono; lia|].
  apply Z.rem_divide in Hrem as [j ->]; [|by unfold MIN_PERIOD]. rewrite Hk, Z.mul_assoc, !Z.quot_mul by lia.
  apply Z.rem_mul. unfold MIN_PERIOD in Hk. lia.
Qed.

Lemma timed_eq id t t' : intervalTimerTasks_ t' = intervalTimerTasks_ t → updateAtTimerTasks_ t' = updateAtTimerTasks_ t →
  timed id t' = timed id t.
Proof. intros E1 E2. unfold timed. by rewrite E1, E2. Qed.
Lemma timed_aside id t t' : aside t t' → timed id t' = timed id t.
Proof. intros (_ & E1 & E2 & _). by apply timed_eq. Qed.

(** Alarms after a timer is filed. *)
Lemma timed_bind {A B} id (m : ST FormTimers A) (k : A → ST FormTimers B) t : (∀ t, keeps aside m t) → timed id t = true →
  (∀ a t', timed id t' = true → wp (k a) (λ _ t'', timed id t'' = true) t') → wp (m ≫= k) (λ _ t', timed id t' = true) t.
Proof.
  intros Hm Ht Hk. apply wp_bind. eapply keeps_wp; [apply Hm|]. intros a t' _ Ha. apply Hk. by rewrite (timed_aside id _ _ Ha).
Qed.
Lemma timed_limiter id (f : Limiter → unit * Limiter) t : timed id t = true →
  wp (_ ← with_limiter f; mret true) (λ _ t', timed id t' = true) t.
Proof. intros Ht. apply wp_bind. unfold with_limiter. apply wp_ret. by rewrite <- Ht. Qed.

Lemma map_find_emplace_same {V} id (v : V) l : is_Some (map_find id (map_emplace id v l)).
Proof. rewrite map_find_emplace, bool_decide_eq_true_2 by done. by eexists. Qed.

Lemma AddIntervalTimer_timed ck task t :
  wp (AddIntervalTimer env_agent_made env_timer_id env_timer_starts ck task) (λ _ t', timed (t_formId task) t' = true) t.
Proof.
  unfold AddIntervalTimer. apply wp_bind. eapply keeps_wp; [apply aside_EnsureInitIntervalTimer|]. intros _ t1 _ _. apply wp_bind, wp_gets.
  destruct (map_find (t_formId task) (intervalTimerTasks_ t1)) eqn:E; [apply wp_ret; unfold timed; by rewrite E|].
  apply wp_bind, wp_modify. apply timed_bind; [intros; apply aside_UpdateLimiterAlarm| |].
  - unfold timed, update. cbn. apply orb_true_iff. left. by apply bool_decide_eq_true, map_find_emplace_same.
  - intros [] t2 Ht; [by apply timed_limiter|by apply wp_ret].
Qed.

Lemma AddUpdateAtTimer_timed ck task t :
  wp (AddUpdateAtTimer env_agent_made env_timer_id env_timer_starts ck task) (λ _ t', timed (t_formId task) t' = true) t.
Proof.
  unfold AddUpdateAtTimer. apply wp_bind, wp_gets. destruct (existsb _ _) eqn:E.
  { apply wp_ret. unfold timed, has_timer. rewrite E. apply orb_true_r. }
  apply wp_bind, wp_modify. apply timed_bind; [intros; apply aside_UpdateLimiterAlarm| |].
  - unfold timed, update. cbn. apply orb_true_iff. right. apply existsb_exists. eexists. rewrite <- list_elem_of_In, elem_of_insert_before.
    split; [by left|]. apply Z.eqb_refl.
  - intros [] t2 Ht; [|by apply wp_ret]. apply timed_bind; [intros; apply aside_UpdateAtTimerAlarm|done|].
    intros [] t3 Ht3; [by apply timed_limiter|by apply wp_ret].
Qed.

Lemma interval_timed ck id d u t : timers_ok t → valid_duration d = true → (timeSpeed_ t | MIN_PERIOD) →
  wp (AddFormTimer_interval env_agent_made env_timer_id env_timer_starts ck id d u) (λ _ t', timed id t' = true) t.
Proof.
  intros Ht Hd Hs. unfold AddFormTimer_interval, AddFormTimer. apply wp_bind, wp_gets. cbn [t_isUpdateAt t_period intervalFormTimer].
  apply wp_bind, wp_gets. destruct (speed_period d (timeSpeed_ t)) as [[H1 H2] H3]; [apply Ht|done|done|].
  rewrite (proj2 (Z.leb_le _ _) H1), (proj2 (Z.leb_le _ _) H2), (proj2 (Z.eqb_eq _ _) H3). cbn [andb].
  apply (AddIntervalTimer_timed ck (intervalFormTimer id _ u)).
Qed.

Lemma valid_time_wrap hour min : valid_time hour min = true → wrap_i32 hour = hour ∧ wrap_i32 min = min.
Proof.
  unfold valid_time. intros Hv. bool_to_prop. unfold MIN_TIME, MAX_HOUR, MAX_MINUTE in *. split; apply wrap_i32_id; unfold INT_MAX; lia.
Qed.
Lemma at_timed ck id hour min u t : valid_time hour min = true →
  wp (AddFormTimer_at env_agent_made env_timer_id env_timer_starts ck id hour min u) (λ _ t', timed id t' = true) t.
Proof.
  intros Hv. unfold AddFormTimer_at, AddFormTimer. cbn [t_isUpdateAt t_hour t_min atFormTimer].
  destruct (valid_time_wrap hour min Hv) as [-> ->].
  rewrite Hv. apply (AddUpdateAtTimer_timed ck (atFormTimer id hour min u)).
Qed.

Lemma wp_on_timers {A} (m : ST FormTimers A) Q s :
  wp m (λ a t, Q a (s <| form_timers := t |>)) (form_timers s) → wp (on_timers m) Q s.
Proof. unfold wp, on_timers, zoom. by destruct (m (form_timers s)) as [[a t]| |]. Qed.

(** C12: a record that asks for updates and is not of a temporary form gets its
    timer, of its period or of its time of the day, whatever the alarms answer, as long
    as the speed of the timers divides the shortest period: what the configuration of
    a form was read as is always something the timers accept. *)
Theorem enabled_form_timed m s ck id r : form_reachable m s → map_find id (formRecords_ s) = Some r →
  fr_isEnableUpdate r = true → fr_formTempFlg r = false → (timeSpeed_ (form_timers s) | MIN_PERIOD) →
  ∃ e s', AddFormTimer_record ck r s = Returned (e, s') ∧ timed id (form_timers s') = true ∧ forms_ok s'.
Proof.
  intros Hs%form_reachable_ok Hr Hu Ht Hspeed. pose proof (record_at _ _ _ Hs Hr) as [Hid _ Hc _].
  assert (wp (AddFormTimer_record ck r) (λ _ s', timed id (form_timers s') = true) s) as (e & s' & E & H')%wp_run.
  { unfold AddFormTimer_record. rewrite Hu, Ht, Hid. cbn [negb orb]. destruct (Hc Hu) as [Hd|[-> Hv]].
    - assert (0 < fr_updateDuration r) as -> %Z.ltb_lt by (apply valid_duration_range in Hd; unfold MIN_PERIOD in Hd; lia).
      apply wp_bind, wp_on_timers. eapply wp_mono; [by apply interval_timed, Hspeed; [apply Hs|]|]. intros ok t H'. by apply wp_ret.
    - cbn [Z.ltb Z.compare]. assert ((0 <=? fr_updateAtHour r) && (0 <=? fr_updateAtMin r) = true) as ->.
      { unfold valid_time, MIN_TIME in Hv. by destruct (0 <=? fr_updateAtHour r), (0 <=? fr_updateAtMin r), (fr_updateAtHour r <=? _). }
      apply wp_bind, wp_on_timers. eapply wp_mono; [by apply at_timed|]. intros ok t H'. by apply wp_ret. }
  exists e, s'. split_and!; [done..|]. by apply (kf_AddFormTimer_record ck r s Hs e).
Qed.
End reachable.

(** At a speed of seven, a form that is to be refreshed every hour gets no timer: its
    period is rounded down, and so is the shortest one, of which it is then no multiple. *)
Lemma speed_seven_rejects : valid_duration 3600000 = true ∧
  AddFormTimer always numbered always morning (intervalFormTimer 8 (Z.quot 3600000 7) 100) (new_timers <| timeSpeed_ := 7 |>)
  = Returned (false, new_timers <| timeSpeed_ := 7 |>).
Proof. split; vm_compute; reflexivity. Qed.

(** * Instances *)

#[local] Existing Instance demo_forms.
#[local] Existing Instance demo_bundles.

Lemma forms_consistent_witness : forms_ok (forms_after two_cards) ∧ keys (formRecords_ (forms_after two_cards)) = [4096; 4099].
Proof.
  split; [|vm_compute; reflexivity]. apply (forms_consistent ∅), forms_after_reachable. vm_compute. reflexivity.
Defined.

Lemma enabled_form_timed_witness : ∃ e s', timed 4099 (form_timers s') = true ∧ forms_ok s' ∧
  AddFormTimer_record morning (default new_form (map_find 4099 (formRecords_ (forms_after two_cards)))) (forms_after two_cards) = Returned (e, s').
Proof.
  destruct (enabled_form_timed ∅ (forms_after two_cards) morning 4099
    (default new_form (map_find 4099 (formRecords_ (forms_after two_cards))))) as (e & s' & E & Ht & Hs).
  - apply forms_after_reachable. vm_compute. reflexivity.
  - vm_compute. reflexivity.
  - vm_compute. reflexivity.
  - vm_compute. reflexivity.
  - exists MIN_PERIOD. vm_compute. reflexivity.
  - exists e, s'. by split_and!.
Defined.
