(* ===== verification/FormReturns.v ===== *)
(** Which handlers of the form manager return: all but those that may ask for the
    timer of a form to be removed while the refreshes that were asked for are in the
    way, and those that gather the forms of several providers. *)

From S2P Require Import Prelude CppString StdMap FormLimiter FormTimer FormTimerRun FormTimerClaims FormInfos FormRecords FormData FormStore FormProvider FormAdapter FormEvents FormDataRun FormRun.

#[local] Open Scope stdpp_scope.
#[local] Open Scope Z_scope.

Create HintDb returns.

(** * Code that returns

    [Q] is what is known of the timers; the rest of the state plays no part in it. *)

Class KeptByTimers `{!FormEnv} (Q : FormTimers → Prop) := {
  kept_limiter {A} (f : Limiter → A * Limiter) t : Q t → wp (with_limiter f) (λ _, Q) t;
  kept_interval ck id d u t : Q t → wp (AddFormTimer_interval env_agent_made env_timer_id env_timer_starts ck id d u) (λ _, Q) t;
  kept_at ck id hour min u t : Q t → wp (AddFormTimer_at env_agent_made env_timer_id env_timer_starts ck id hour min u) (λ _, Q) t;
}.

Section returns.
Context `{!FormEnv, !BundleEnv} (Q : FormTimers → Prop) `{!KeptByTimers Q}.
Implicit Types (s : Forms) (r : FormRecord) (h : FormHostRecord) (id formId uid : Z) (ck : Clock).

#[local] Abbreviation fine s := (Q (form_timers s)).
#[local] Abbreviation returns m s := (wp m (λ _ s', Q (form_timers s')) s).

Lemma rt_bind {A B} (m : FM A) (f : A → FM B) s : returns m s → (∀ a s', fine s' → returns (f a) s') → returns (m ≫= f) s.
Proof. intros Hm Hf. apply wp_bind. eapply wp_mono; [exact Hm|]. apply Hf. Qed.
Lemma rt_for_each {A} (f : A → FM unit) l s : fine s → (∀ x s', x ∈ l → fine s' → returns (f x) s') → returns (for_each f l) s.
Proof. intros Hs Hf. by apply (wp_for_each (λ s, Q (form_timers s))). Qed.
Lemma rt_modify (f : Forms → Forms) s : (∀ s, form_timers (f s) = form_timers s) → fine s → returns (modify f) s.
Proof. intros Hf Hs. apply wp_modify. by rewrite Hf. Qed.
Lemma rt_emit e s : fine s → returns (form_emit e) s.
Proof. by apply rt_modify. Qed.
Lemma rt_on_timers {A} (m : ST FormTimers A) s : wp m (λ _, Q) (form_timers s) → returns (on_timers m) s.
Proof. unfold wp, on_timers, zoom. by destruct (m (form_timers s)) as [[a t]| |]. Qed.
Lemma rt_on_limiter {A} (f : Limiter → A * Limiter) s : fine s → returns (on_limiter f) s.
Proof. intros Hs. by apply rt_on_timers, kept_limiter. Qed.
Lemma rt_on_infos {A} (m : ST FormInfos A) s : (∀ i, ∃ a i', m i = Returned (a, i')) → fine s → returns (on_infos m) s.
Proof. intros Hm Hs. unfold wp, on_infos, zoom. by destruct (Hm (form_infos s)) as (a & i' & ->). Qed.

#[local] Hint Resolve rt_emit rt_on_limiter : returns.
#[local] Hint Extern 2 (wp (modify _) _ _) => apply rt_modify; [intros; reflexivity|assumption] : returns.
#[local] Hint Extern 3 (wp (gets _) _ _) => (apply wp_gets; assumption) : returns.

(** One step of code that returns. *)
Ltac rt_step := lazymatch goal with
  | |- wp (mret _) _ _ => apply wp_ret; try assumption
  | |- wp (gets _ ≫= _) _ _ => apply wp_bind, wp_gets; cbv zeta beta
  | |- wp (_ ≫= _) _ _ => apply rt_bind; [|intros; cbv zeta beta]
  | |- wp (for_each _ _) _ _ => apply rt_for_each; [|intros; cbv zeta beta]
  | |- wp (let '_ := ?x in _) _ _ => destruct x
  | |- wp (if ?b then _ else _) _ _ => destruct b
  | |- wp (match ?x with _ => _ end) _ _ => destruct x
  | |- wp _ _ _ => eauto with returns
  | |- Q _ => eauto with returns
  end.
Ltac rt_steps := cbv zeta; repeat rt_step.

(** ** The tables *)

Lemma rt_change_record f id s : fine s → returns (change_record f id) s.
Proof. intros. unfold change_record, ExistFormRecord. rt_steps. Qed.
#[local] Hint Resolve rt_change_record : returns.
#[local] Hint Extern 4 (wp (SetNeedRefresh _ _) _ _) => apply rt_change_record; assumption : returns.
#[local] Hint Extern 4 (wp (SetCountTimerRefresh _ _) _ _) => apply rt_change_record; assumption : returns.
#[local] Hint Extern 4 (wp (SetFormCacheInited _ _) _ _) => apply rt_change_record; assumption : returns.
#[local] Hint Extern 4 (wp (SetVersionUpgrade _ _) _ _) => apply rt_change_record; assumption : returns.
#[local] Hint Extern 4 (wp (UpdateFormRecord _ _) _ _) => apply rt_change_record; assumption : returns.
#[local] Hint Extern 4 (wp (ModifyFormTempFlg _ _) _ _) => apply rt_change_record; assumption : returns.
#[local] Hint Extern 4 (wp (AddFormUserUid _ _) _ _) => apply rt_change_record; assumption : returns.
#[local] Hint Extern 4 (wp (DeleteFormUserUid _ _) _ _) => apply rt_change_record; assumption : returns.

Lemma rt_SetRecordVisible id b s : fine s → returns (SetRecordVisible id b) s.
Proof. intros. unfold SetRecordVisible. rt_steps. Qed.
Lemma rt_DeleteFormRecord id s : fine s → returns (DeleteFormRecord id) s.
Proof. intros. unfold DeleteFormRecord. rt_steps. Qed.
Lemma rt_DeleteTempForm id s : fine s → returns (DeleteTempForm id) s.
Proof. intros. unfold DeleteTempForm, ExistTempForm. rt_steps. Qed.
Lemma rt_AddData id d im s : fine s → returns (AddData id d im) s.
Proof. intros. unfold AddData. rt_steps. Qed.
Lemma rt_DeleteData id s : fine s → returns (DeleteData id) s.
Proof. intros. unfold DeleteData. rt_steps. Qed.
Lemma rt_IsFormCached r s : fine s → returns (IsFormCached r) s.
Proof. intros. unfold IsFormCached, IsExist. rt_steps. Qed.
Lemma rt_GenerateUdidHash s : fine s → returns GenerateUdidHash s.
Proof. intros. unfold GenerateUdidHash. rt_steps. Qed.
#[local] Hint Resolve rt_SetRecordVisible rt_DeleteFormRecord rt_DeleteTempForm rt_AddData rt_DeleteData rt_IsFormCached
  rt_GenerateUdidHash : returns.

(** ** Hosts *)

Lemma rt_OnAcquire id r h s : fine s → returns (OnAcquire id r h) s.
Proof. intros. unfold OnAcquire. rt_steps. Qed.
Lemma rt_OnUpdate id r h s : fine s → returns (OnUpdate id r h) s.
Proof. intros. unfold OnUpdate. rt_steps. Qed.
Lemma rt_OnFormUninstalled l h s : fine s → returns (OnFormUninstalled l h) s.
Proof. intros. unfold OnFormUninstalled. rt_steps. Qed.
Lemma rt_OnAcquireState st h s : fine s → returns (OnAcquireState st h) s.
Proof. intros. unfold OnAcquireState. rt_steps. Qed.
Lemma rt_CleanResource h s : fine s → returns (CleanResource h) s.
Proof. intros. unfold CleanResource. rt_steps. Qed.
Lemma rt_CreateRecord i c uid s : fine s → returns (CreateRecord i c uid) s.
Proof. intros. unfold CreateRecord. rt_steps. Qed.
Lemma rt_set_clients l s : fine s → returns (set_clients l) s.
Proof. intros. unfold set_clients. rt_steps. Qed.
#[local] Hint Resolve rt_OnAcquire rt_OnUpdate rt_OnFormUninstalled rt_OnAcquireState rt_CleanResource rt_CreateRecord rt_set_clients : returns.

Lemma rt_CreateHostRecord i t uid s : fine s → returns (CreateHostRecord i t uid) s.
Proof. intros. unfold CreateHostRecord. rt_steps. Qed.
#[local] Hint Resolve rt_CreateHostRecord : returns.
Lemma rt_AllotFormHostRecord i t id uid s : fine s → returns (AllotFormHostRecord i t id uid) s.
Proof. intros. unfold AllotFormHostRecord. rt_steps. Qed.
Lemma rt_DeleteHostRecord t id s : fine s → returns (DeleteHostRecord t id) s.
Proof. intros. unfold DeleteHostRecord. rt_steps. Qed.
Lemma rt_clean_hosts removed matched l s : fine s → returns (clean_hosts removed matched l) s.
Proof. revert matched s. induction l as [|h l IH]; intros matched s Hs; cbn [clean_hosts]; rt_steps. Qed.
#[local] Hint Resolve rt_AllotFormHostRecord rt_DeleteHostRecord rt_clean_hosts : returns.
Lemma rt_CleanHostRemovedForms l s : fine s → returns (CleanHostRemovedForms l) s.
Proof. intros. unfold CleanHostRemovedForms. rt_steps. Qed.
Lemma rt_update_hosts id r l s : fine s → returns (update_hosts id r l) s.
Proof. revert s. induction l as [|h l IH]; intros s Hs; cbn [update_hosts]; rt_steps. Qed.
#[local] Hint Resolve rt_CleanHostRemovedForms rt_update_hosts : returns.
Lemma rt_UpdateHostForm id r s : fine s → returns (UpdateHostForm id r) s.
Proof. intros. unfold UpdateHostForm. rt_steps. Qed.
Lemma rt_UpdateHostNeedRefresh id b s : fine s → returns (UpdateHostNeedRefresh id b) s.
Proof. intros. unfold UpdateHostNeedRefresh. rt_steps. Qed.
Lemma rt_update_flag b c id h s : fine s → returns (update_flag b c id h) s.
Proof. intros. unfold update_flag, FindMatchedFormId, GetFormRecord. rt_steps. Qed.
#[local] Hint Resolve rt_UpdateHostForm rt_UpdateHostNeedRefresh rt_update_flag : returns.
Lemma rt_HandleUpdateHostFormFlag l b c h s : fine s → returns (HandleUpdateHostFormFlag l b c h) s.
Proof. revert h s. induction l as [|id l IH]; intros h s Hs; cbn [HandleUpdateHostFormFlag]; rt_steps. Qed.
#[local] Hint Resolve rt_HandleUpdateHostFormFlag : returns.
Lemma rt_UpdateHostFormFlag l t b c s : fine s → returns (UpdateHostFormFlag l t b c) s.
Proof. intros. unfold UpdateHostFormFlag. rt_steps. Qed.
Lemma rt_find_matched l h s : fine s → returns (find_matched l h) s.
Proof. revert s. induction l as [|id l IH]; intros s Hs; cbn [find_matched]; unfold FindMatchedFormId; rt_steps. Qed.
#[local] Hint Resolve rt_UpdateHostFormFlag rt_find_matched : returns.
Lemma rt_NotifyFormsVisible l b t s : fine s → returns (NotifyFormsVisible l b t) s.
Proof. intros. unfold NotifyFormsVisible. rt_steps. Qed.
Lemma rt_CreateFormStateRecord p i t uid s : fine s → returns (CreateFormStateRecord p i t uid) s.
Proof. intros. unfold CreateFormStateRecord. rt_steps. Qed.
Lemma rt_AcquireFormStateBack st p s : fine s → returns (AcquireFormStateBack st p) s.
Proof. intros. unfold AcquireFormStateBack. rt_steps. Qed.
#[local] Hint Resolve rt_NotifyFormsVisible rt_CreateFormStateRecord rt_AcquireFormStateBack : returns.

(** ** Providers *)

Lemma rt_connect b a c s : fine s → returns (connect b a c) s.
Proof. intros. unfold connect. rt_steps. Qed.
#[local] Hint Resolve rt_connect : returns.
Lemma rt_NotifyProviderFormDelete id r s : fine s → returns (NotifyProviderFormDelete id r) s.
Proof. intros. unfold NotifyProviderFormDelete. rt_steps. Qed.
#[local] Hint Resolve rt_NotifyProviderFormDelete : returns.
Lemma rt_HandleHostDied t s : fine s → returns (HandleHostDied t) s.
Proof. intros. unfold HandleHostDied, HandleHostDiedForTempForms, drop_temp_records. rt_steps. Qed.
Lemma rt_ConnectAmsForRefresh id r re t s : fine s → returns (ConnectAmsForRefresh id r re t) s.
Proof. intros. unfold ConnectAmsForRefresh, IncreaseTimerRefreshCount, GetFormRecord. rt_steps. Qed.
#[local] Hint Resolve rt_HandleHostDied rt_ConnectAmsForRefresh : returns.
Lemma rt_RefreshForm id w v s : fine s → returns (RefreshForm id w v) s.
Proof. intros. unfold RefreshForm, IsNeedToFresh, GetFormRecord, IsEnableRefresh_form, IsEnableUpdate_form. rt_steps. Qed.
#[local] Hint Resolve rt_RefreshForm : returns.
Lemma rt_AcquireForm id i s : fine s → returns (AcquireForm id i) s.
Proof. intros. unfold AcquireForm, GetFormRecord, GetFormHostRecord. rt_steps. Qed.
Lemma rt_MessageEvent id r s : fine s → returns (MessageEvent id r) s.
Proof. intros. unfold MessageEvent. rt_steps. Qed.
#[local] Hint Resolve rt_AcquireForm rt_MessageEvent : returns.

(** ** The offered forms *)

Definition answers {A} (m : ST FormInfos A) : Prop := ∀ i, wp m (λ _ _, True) i.
Lemma rt_answers {A} (m : ST FormInfos A) s : answers m → fine s → returns (on_infos m) s.
Proof. intros Hm Hs. apply rt_on_infos; [|done]. intros i. destruct (wp_run _ _ _ (Hm i)) as (a & i' & E & _). by eauto. Qed.

Lemma an_bind {A B} (m : ST FormInfos A) (f : A → ST FormInfos B) i : answers m → (∀ a i', wp (f a) (λ _ _, True) i') →
  wp (m ≫= f) (λ _ _, True) i.
Proof. intros Hm Hf. apply wp_bind. eapply wp_mono; [apply Hm|]. intros a i' _. apply Hf. Qed.
Ltac an_steps := intros ?; repeat lazymatch goal with
  | |- wp (mret _) _ _ => exact I
  | |- wp (modify _) _ _ => exact I
  | |- wp (gets _) _ _ => exact I
  | |- wp (gets _ ≫= _) _ _ => apply wp_bind, wp_gets; cbv zeta beta
  | |- wp (_ ≫= _) _ _ => apply an_bind; [intros ?|intros; cbv zeta beta]
  | |- wp (match ?x with _ => _ end) _ _ => destruct x
  | |- wp (if ?b then _ else _) _ _ => destruct b
  | |- wp (let '_ := ?x in _) _ _ => destruct x
  | |- True => exact I
  end.
Lemma an_get_forms b P : answers (get_forms b P).
Proof. unfold get_forms, get_bundle. an_steps. Qed.
Lemma an_store b l : answers (UpdateFormInfoStorageLocked b l).
Proof. unfold UpdateFormInfoStorageLocked, RemoveBundleFormInfos, UpdateBundleFormInfos, info_do. an_steps. Qed.
Ltac an_all := an_steps; try apply an_store.
Lemma an_AddDynamic f u : answers (AddDynamicFormInfo f u).
Proof. unfold AddDynamicFormInfo, get_bundle, set_bundle. an_all. Qed.
Lemma an_RemoveDynamic b m f u : answers (RemoveDynamicFormInfo b m f u).
Proof. unfold RemoveDynamicFormInfo, get_bundle, set_bundle. an_all. Qed.
Lemma an_Remove b u : answers (Remove b u).
Proof. unfold Remove, get_bundle, set_bundle. an_all. Qed.

(** ** The handlers *)

Lemma rt_AddFormTimer_record ck r s : fine s → returns (AddFormTimer_record ck r) s.
Proof.
  intros Hs. unfold AddFormTimer_record. destruct (_ || _); [by apply wp_ret|]. destruct (_ <? _).
  - apply rt_bind; [by apply rt_on_timers, kept_interval|]. intros. by apply wp_ret.
  - destruct (_ && _); [|by apply wp_ret]. apply rt_bind; [by apply rt_on_timers, kept_at|]. intros. by apply wp_ret.
Qed.
Lemma rt_GetFormInfo w s : fine s → returns (GetFormInfo w) s.
Proof.
  intros Hs. unfold GetFormInfo. destruct (_ || _); [by apply wp_ret|]. apply rt_bind; [apply rt_answers; [apply an_get_forms|done]|].
  intros. by apply wp_ret.
Qed.
Lemma rt_CheckEnoughForm uid u s : fine s → returns (CheckEnoughForm uid u) s.
Proof. intros. unfold CheckEnoughForm. rt_steps. Qed.
Lemma rt_kv e f s : fine s → returns (kv_do e f) s.
Proof. intros. unfold kv_do. rt_steps. Qed.
#[local] Hint Resolve rt_AddFormTimer_record rt_GetFormInfo rt_CheckEnoughForm rt_kv : returns.
Lemma rt_SaveFormInfo d s : fine s → returns (SaveFormInfo d) s.
Proof. intros. unfold SaveFormInfo, SaveFormInfoNolock, ModifyStorageFormInfo, SaveStorageFormInfo, DeleteStorageFormInfo. rt_steps. Qed.
Lemma rt_DeleteFormInfo id s : fine s → returns (DeleteFormInfo id) s.
Proof. intros. unfold DeleteFormInfo, DeleteStorageFormInfo. rt_steps. Qed.
Lemma rt_UpdateDBRecord id r s : fine s → returns (UpdateDBRecord id r) s.
Proof. intros. by apply rt_SaveFormInfo. Qed.
Lemma rt_release_module b m s : fine s → returns (release_module b m) s.
Proof. intros. unfold release_module, GetMatchCount, NotifyModuleRemovable. rt_steps. Qed.
#[local] Hint Resolve rt_SaveFormInfo rt_DeleteFormInfo rt_UpdateDBRecord rt_release_module : returns.

Lemma rt_CastTempForm ck uid t id s : fine s → returns (CastTempForm ck uid t id) s.
Proof.
  intros. unfold CastTempForm, HandleCastTempForm, FindMatchedFormId, ExistFormRecord, ExistTempForm, GetFormRecord, GetMatchedHostClient.
  rt_steps.
Qed.
Lemma rt_RequestForm uid t id w s : fine s → returns (RequestForm uid t id w) s.
Proof. intros. unfold RequestForm, own_form, FindMatchedFormId, ExistFormRecord, GetMatchedHostClient. rt_steps. Qed.
Lemma rt_MessageEvent_adapter uid t id w s : fine s → returns (MessageEvent_adapter uid t id w) s.
Proof. intros. unfold MessageEvent_adapter, own_form, FindMatchedFormId, GetFormRecord, GetMatchedHostClient, ExistTempForm. rt_steps. Qed.
Lemma rt_HandleUpdateFormFlag uid l t b c s : fine s → returns (HandleUpdateFormFlag uid l t b c) s.
Proof. intros. unfold HandleUpdateFormFlag. rt_steps. Qed.
Lemma rt_UpdateProviderInfoToHost id t ty s : fine s → returns (UpdateProviderInfoToHost id t ty) s.
Proof. intros. unfold UpdateProviderInfoToHost, GetFormRecord, GetMatchedHostClient, GetData. rt_steps. Qed.
#[local] Hint Resolve rt_UpdateProviderInfoToHost : returns.
Lemma rt_visible_forms l t ty m s : fine s → returns (visible_forms l t ty m) s.
Proof. revert m s. induction l as [|id l IH]; intros m s Hs; cbn [visible_forms]; unfold FindMatchedFormId; rt_steps. Qed.
#[local] Hint Resolve rt_visible_forms : returns.
Lemma rt_NotifyWhetherVisibleForms l t ty s : fine s → returns (NotifyWhetherVisibleForms l t ty) s.
Proof. intros. unfold NotifyWhetherVisibleForms, HandleEventNotify. rt_steps. Qed.
Lemma rt_AcquireFormState uid t w s : fine s → returns (AcquireFormState uid t w) s.
Proof.
  intros. unfold AcquireFormState, AcquireFormStateCheck. rt_steps. apply rt_answers; [apply an_get_forms|done].
Qed.
Lemma rt_AddFormInfo uid f s : fine s → returns (AddFormInfo uid f) s.
Proof. intros. unfold AddFormInfo. rt_steps. apply rt_answers; [apply an_AddDynamic|done]. Qed.
Lemma rt_RemoveFormInfo uid m f s : fine s → returns (RemoveFormInfo uid m f) s.
Proof. intros. unfold RemoveFormInfo. rt_steps. apply rt_answers; [apply an_RemoveDynamic|done]. Qed.

(** ** Data of a provider *)

(** With nothing in the record, there is nothing to merge with. *)
Lemma merge_no_info r d : fr_formProviderInfo r = no_info → ∃ r', merge_update r d = Returned r'.
Proof.
  intros Hr. unfold merge_update. destruct (fr_versionUpgrade r); [by eexists|]. rewrite Hr. unfold MergeData.
  destruct (json_empty (jsonFormProviderData_ d)); by eexists.
Qed.
Lemma rt_UpdateForm id r d s : fr_formProviderInfo r = no_info → fine s → returns (UpdateForm id r d) s.
Proof.
  intros Hr Hs. destruct (merge_no_info r d Hr) as [r' E]. unfold UpdateForm. apply wp_bind. unfold wp at 1, lift_outcome. rewrite E.
  cbv zeta. rt_steps.
Qed.
Lemma rt_UpdateForm_info id i s : forms_ok s → fine s → returns (UpdateForm_info id i) s.
Proof.
  intros Hok Hs. unfold UpdateForm_info, GetFormRecord. apply wp_bind, wp_gets. destruct (map_find id _) as [r|] eqn:E; [|by apply wp_ret].
  apply rt_UpdateForm; [|done]. by eapply rc_info, record_at.
Qed.
Lemma rt_UpdateForm_adapter uid id b d s : forms_ok s → fine s → returns (UpdateForm_adapter uid id b d) s.
Proof.
  intros Hok Hs. unfold UpdateForm_adapter, FindMatchedFormId, GetFormRecord.
  do 3 (match goal with |- wp (if ?x then _ else _) _ _ => destruct x end; [by apply wp_ret|]). apply wp_bind, wp_gets, wp_bind, wp_gets.
  destruct (map_find _ _) as [r|] eqn:E; [|by apply wp_ret].
  do 2 (match goal with |- wp (if ?x then _ else _) _ _ => destruct x end; [by apply wp_ret|]).
  apply rt_UpdateForm; [|done]. by eapply rc_info, record_at.
Qed.

(** ** Adding a form *)

Definition time_read (t : string) : Prop := ∃ x, time_of_config t = Returned x.

(** Every offered form has a time that can be read. *)
Definition times_read (i : FormInfos) : Prop := ∀ b l st f, bundleFormInfoMap_ i !! b = Some l → st ∈ l → f ∈ is_formInfos st →
  time_read (fo_scheduledUpdateTime f).

Lemma CreateFormRecord_returns i uid u : time_read (fi_scheduledUpdateTime i) → ∃ r, CreateFormRecord i uid u = Returned r.
Proof.
  intros [x E]. unfold CreateFormRecord. cbv zeta. cbn [fr_isEnableUpdate record_of_item]. destruct (fi_updateFlag i); [|by eexists].
  unfold ParseUpdateConfig. destruct (_ <? _); [by eexists|]. unfold ParseAtTimerConfig. cbv zeta. rewrite E.
  unfold mbind at 2. cbn [outcome_bind]. destruct x as [[hour min]|]; by eexists.
Qed.
Lemma rt_AllotFormRecord i uid u s : time_read (fi_scheduledUpdateTime i) → fine s → returns (AllotFormRecord i uid u) s.
Proof.
  intros Ht Hs. destruct (CreateFormRecord_returns i uid u Ht) as [r E]. unfold AllotFormRecord, ExistTempForm. apply wp_bind, wp_gets.
  apply rt_bind; [rt_steps|]. intros _ s1 H1. apply wp_bind, wp_gets. destruct (map_find _ _); [by apply wp_ret|].
  apply wp_bind. unfold wp at 1, lift_outcome. rewrite E. rt_steps.
Qed.
Lemma rt_AddNewFormRecord ck uid t i id s : time_read (fi_scheduledUpdateTime i) → fine s → returns (AddNewFormRecord ck uid t i id) s.
Proof.
  intros Ht Hs. unfold AddNewFormRecord, AcquireProviderFormInfoAsync. cbv zeta. apply rt_bind; [rt_steps|]. intros ok s1 H1.
  destruct (negb ok); [by apply wp_ret|]. apply rt_bind; [by apply rt_AllotFormRecord|]. intros r s2 H2. rt_steps.
Qed.
Lemma rt_AddExistFormRecord ck uid t i r id s : fine s → returns (AddExistFormRecord ck uid t i r id) s.
Proof. intros. unfold AddExistFormRecord, AcquireProviderFormInfoAsync, IsExist, GetData. rt_steps. Qed.

Lemma sched_modules f l i : fi_scheduledUpdateTime (foldl (item_of_module f) i l) = fi_scheduledUpdateTime i.
Proof.
  revert i. induction l as [|m l IH]; intros i; [done|]. cbn [foldl]. rewrite IH. unfold item_of_module. cbv zeta.
  by destruct (String.eqb _ _).
Qed.
Lemma sched_abilities f l i : fi_scheduledUpdateTime (foldl (item_of_ability f) i l) = fi_scheduledUpdateTime i.
Proof.
  revert i. induction l as [|a l IH]; intros i; [done|]. cbn [foldl]. rewrite IH. unfold item_of_ability. cbv zeta.
  destruct (String.eqb _ _); [|done]. by destruct (negb _).
Qed.
Lemma GetFormItemInfo_sched uid w b f i : GetFormItemInfo uid w b f = inr i → fi_scheduledUpdateTime i = fo_scheduledUpdateTime f.
Proof.
  unfold GetFormItemInfo, CreateFormItemInfo. cbv zeta. destruct (negb (IsDimensionValid _ _)); [done|]. destruct (negb bms_there); [done|].
  destruct (bms_GetBundleNameForUid uid); [|done]. intros [= <-].
  cbn [fi_scheduledUpdateTime].
  by rewrite sched_modules, sched_abilities.
Qed.
Lemma get_forms_offered b P i l i' : get_forms b P i = Returned (inr l, i') →
  i' = i ∧ ∀ f, f ∈ l → ∃ sts st, bundleFormInfoMap_ i !! b = Some sts ∧ st ∈ sts ∧ f ∈ is_formInfos st.
Proof.
  unfold get_forms. destruct (String.eqb b ""); [done|]. destruct (_ && _); [done|]. unfold get_bundle, mbind, ST_bind, gets.
  destruct (bundleFormInfoMap_ i !! b) as [sts|]; [|done]. intros [= <- <-]. split; [done|]. intros f.
  rewrite list_elem_of_In, in_concat. intros (x & Hx & Hf). rewrite <- list_elem_of_In in Hx. rewrite <- list_elem_of_In in Hf.
  apply list_elem_of_fmap in Hx as (st & -> & Hst). apply elem_of_filter_fun in Hst as [_ Hst]. apply elem_of_filter_fun in Hf as [_ Hf].
  by exists sts, st.
Qed.
Lemma GetFormInfo_offered w s f s' : GetFormInfo w s = Returned (inr f, s') → times_read (form_infos s) →
  s' = s ∧ time_read (fo_scheduledUpdateTime f).
Proof.
  unfold GetFormInfo. destruct (_ || _); [done|]. intros (x & s1 & E1 & E2)%ST_bind_Returned Ht. destruct x as [|l]; [done|].
  cbv zeta in E2. destruct (List.find _ l) as [g|] eqn:Eg; [|done]. injection E2 as <- <-. apply find_Some_elem in Eg as [Hg _].
  unfold on_infos, zoom, GetFormsInfoByModule in E1. destruct (get_forms _ _ _) as [[y i]| |] eqn:Ef; [|done..]. injection E1 as -> <-.
  destruct (get_forms_offered _ _ _ _ _ Ef) as [-> Hl]. destruct (Hl g Hg) as (sts & st & Hs & Hst & Hf). split; [by destruct s|].
  change (time_read (fo_scheduledUpdateTime g)). exact (Ht _ _ _ _ Hs Hst Hf).
Qed.
Lemma GetFormConfigInfo_readable uid w s : times_read (form_infos s) → fine s →
  wp (GetFormConfigInfo uid w) (λ x s', fine s' ∧ ∀ i, x = inr i → time_read (fi_scheduledUpdateTime i)) s.
Proof.
  intros Ht Hs. unfold GetFormConfigInfo. destruct (GetBundleInfo w) as [e|[b p]]; [by apply wp_ret|]. apply wp_bind.
  destruct (wp_run _ _ _ (rt_GetFormInfo w s Hs)) as (x & s1 & E & H1). unfold wp at 1. rewrite E. apply wp_ret. split; [done|].
  intros i. destruct x as [|f]; [done|]. destruct (negb (form_info_valid f)); [done|].
  destruct (GetFormItemInfo uid w b f) as [|j] eqn:Ej; [done|]. intros [= <-]. apply GetFormInfo_offered in E as [_ Hf]; [|done].
  unfold update. cbn. by rewrite (GetFormItemInfo_sched _ _ _ _ _ Ej).
Qed.
Lemma rt_AddForm ck uid t id w s : times_read (form_infos s) → fine s → returns (AddForm ck uid t id w) s.
Proof.
  intros Ht Hs. unfold AddForm. destruct (_ || _); [by apply wp_ret|]. destruct (_ && _); [by apply wp_ret|].
  apply wp_bind. assert (∀ P, (∀ x, P x s) → wp (if fw_temporary w then CheckTempEnoughForm
    else if id =? 0 then CheckEnoughForm uid (GetCurrentUserId uid) else mret ERR_OK) P s) as Hcheck.
  { intros P HP. destruct (fw_temporary w); [by apply wp_gets|]. destruct (id =? 0); [by apply wp_gets|by apply wp_ret]. }
  apply Hcheck. intros code. destruct (failed code); [by apply wp_ret|]. apply wp_bind.
  eapply wp_mono; [by apply GetFormConfigInfo_readable|]. intros [e|i] s1 [H1 Hi]; [by apply wp_ret|]. specialize (Hi i eq_refl).
  destruct (negb _); [by apply wp_ret|]. apply rt_bind; [by apply rt_GenerateUdidHash|]. intros _ s2 H2. cbv zeta. destruct (0 <? id).
  - unfold AllotFormById, PaddingUDIDHash, GetUdidHash, GetFormRecord, GetDBRecord. cbv zeta.
    repeat (apply wp_bind, wp_gets || rt_step); try (by apply rt_AddExistFormRecord); by apply rt_AddNewFormRecord.
  - unfold AllotFormByInfo, GenerateFormId. apply wp_bind, wp_gets. destruct (_ <? 0); [by apply wp_ret|]. by apply rt_AddNewFormRecord.
Qed.

(** ** Removals *)

Context (kept_remove : ∀ ck id s, Q (form_timers s) → returns (remove_timer ck id) s).

Lemma rt_DeleteForm ck uid t id s : fine s → returns (DeleteForm ck uid t id) s.
Proof.
  intros. unfold DeleteForm, HandleDeleteForm, HandleDeleteTempForm, HandleDeleteFormCache, HasFormUserUids, FindMatchedFormId, ExistTempForm,
    GetDBRecord, GetFormRecord, NotifyModuleNotRemovable. rt_steps.
Qed.
Lemma rt_ReleaseForm ck uid t id b s : fine s → returns (ReleaseForm ck uid t id b) s.
Proof.
  intros. unfold ReleaseForm, HandleReleaseForm, HandleDeleteTempForm, HasFormUserUids, FindMatchedFormId, ExistTempForm, ExistFormRecord,
    GetMatchedHostClient, GetDBRecord, GetFormRecord. rt_steps.
Qed.
Lemma rt_delete_stored P l s : fine s → returns (delete_stored P l) s.
Proof. revert s. induction l as [|d l IH]; intros s Hs; cbn [delete_stored]; unfold DeleteStorageFormInfo; rt_steps. Qed.
Lemma rt_delete_db P s : fine s → returns (delete_db P) s.
Proof. intros. unfold delete_db. apply wp_bind, wp_gets. apply rt_bind; [by apply rt_delete_stored|]. intros [] s1 Hs1. rt_steps. Qed.
Lemma rt_HandleProviderRemoved ck b u s : fine s → returns (HandleProviderRemoved ck b u) s.
Proof.
  intros. unfold HandleProviderRemoved, DeleteFormInfoByBundleName, CleanRemovedFormRecords, CleanRemovedTempFormRecords, remove_temps.
  apply rt_bind; [by apply rt_delete_db|]. intros l s1 Hs1. rt_steps.
Qed.
Lemma rt_HandleUserIdRemoved ck u s : fine s → returns (HandleUserIdRemoved ck u) s.
Proof.
  intros. unfold HandleUserIdRemoved, DeleteFormsByUserId, DeleteDBFormsByUserId, remove_temps. rt_steps. by apply rt_delete_db.
Qed.
Lemma rt_Remove b u s : fine s → returns (HandleBundleFormInfoRemoved b u) s.
Proof. intros. unfold HandleBundleFormInfoRemoved. apply rt_bind; [by apply rt_answers; [apply an_Remove|]|]. intros. by apply wp_ret. Qed.
End returns.

(** * The timers *)

Section calm.
Context `{!FormEnv, !BundleEnv}.
Implicit Types (s : Forms) (t : FormTimers) (id : Z) (ck : Clock).

#[export] Instance timers_ok_kept : KeptByTimers timers_ok.
Proof.
  split.
  - intros A f t. apply ok_limiter.
  - intros ck id d u t Ht. unfold AddFormTimer_interval. by apply wp_bind, wp_gets, ok_AddFormTimer.
  - intros ck id hour min u t Ht. by apply ok_AddFormTimer.
Qed.

(** Nobody has asked for a refresh. *)
Definition calm t : Prop := timers_ok t ∧ dynamicRefreshTasks_ t = [].

Definition same_asked t t' : Prop := dynamicRefreshTasks_ t' = dynamicRefreshTasks_ t.
#[local] Instance same_asked_preorder : PreOrder same_asked.
Proof. split; [done|]. unfold same_asked. intros t1 t2 t3 E1 E2. by rewrite E2. Qed.
Lemma asked_aside {A} (m : ST FormTimers A) t : keeps aside m t → keeps same_asked m t.
Proof. intros Hm. eapply keeps_wp; [exact Hm|]. intros a t' _ Ha. apply Ha. Qed.
Lemma asked_limiter {A} (f : Limiter → A * Limiter) t : keeps same_asked (with_limiter f) t.
Proof. by repeat split. Qed.
Lemma asked_AddFormTimer ck x t : keeps same_asked (AddFormTimer env_agent_made env_timer_id env_timer_starts ck x) t.
Proof.
  unfold AddFormTimer, AddIntervalTimer, AddUpdateAtTimer, AddUpdateAtItem.
  repeat first [solve [apply asked_aside; auto 1 with timers nocore] | apply asked_limiter | aside_step].
Qed.
Lemma calm_keeps {A} (m : ST FormTimers A) t : calm t → wp m (λ _, timers_ok) t → keeps same_asked m t → wp m (λ _, calm) t.
Proof.
  intros [_ Ht] Hok Hk. eapply wp_mono; [apply (wp_and _ _ _ _ Hok Hk)|]. intros a t' [Ht' E]. split; [done|]. by rewrite E.
Qed.
#[export] Instance calm_kept : KeptByTimers calm.
Proof.
  split.
  - intros A f t Ht. apply calm_keeps; [done|apply ok_limiter, Ht|apply asked_limiter].
  - intros ck id d u t Ht. unfold AddFormTimer_interval. apply wp_bind, wp_gets. apply calm_keeps; [done|apply ok_AddFormTimer, Ht|apply asked_AddFormTimer].
  - intros ck id hour min u t Ht. apply calm_keeps; [done|apply ok_AddFormTimer, Ht|apply asked_AddFormTimer].
Qed.

#[local] Abbreviation empty_after m t := (wp m (λ _ t', dynamicRefreshTasks_ t' = []) t).
Lemma empty_keeps {A B} (m : ST FormTimers A) (k : A → ST FormTimers B) t : keeps same_asked m t → dynamicRefreshTasks_ t = [] →
  (∀ a t', dynamicRefreshTasks_ t' = [] → empty_after (k a) t') → empty_after (m ≫= k) t.
Proof. intros Hm Ht Hk. apply wp_bind. eapply keeps_wp; [exact Hm|]. intros a t' _ E. apply Hk. by rewrite E. Qed.
Lemma empty_DeleteDynamicItem id t : dynamicRefreshTasks_ t = [] →
  empty_after (DeleteDynamicItem env_agent_made env_timer_id env_timer_starts REMOVE_FUEL id) t.
Proof.
  intros Ht. unfold DeleteDynamicItem. apply wp_bind, wp_gets. rewrite Ht. cbn [delete_dynamic REMOVE_FUEL]. apply wp_bind, wp_ret.
  apply wp_bind, wp_modify. unfold UpdateDynamicAlarm. apply wp_bind, wp_gets. unfold update at 1. cbn [dynamicRefreshTasks_]. rewrite Ht.
  cbn [list_sort]. apply empty_keeps; [apply asked_aside, aside_ClearDynamicResource| |]; [unfold update; cbn; by rewrite Ht|].
  intros _ t' Ht'. apply wp_bind, wp_modify, wp_ret. exact Ht'.
Qed.
Lemma empty_RemoveFormTimer ck id t : dynamicRefreshTasks_ t = [] →
  empty_after (RemoveFormTimer env_agent_made env_timer_id env_timer_starts REMOVE_FUEL ck id) t.
Proof.
  intros Ht. unfold RemoveFormTimer, DeleteIntervalTimer, DeleteUpdateAtTimer. apply empty_keeps; [|done|].
  { repeat first [solve [apply asked_aside; auto 1 with timers nocore] | aside_step]. }
  intros there t1 H1. apply empty_keeps; [|done|].
  { repeat first [solve [apply asked_aside; auto 1 with timers nocore] | aside_step]. }
  intros gone t2 H2. destruct (negb gone); [by apply wp_ret|]. apply wp_bind. eapply wp_mono; [by apply empty_DeleteDynamicItem|].
  intros ok t3 H3. destruct (negb ok); [by apply wp_ret|]. apply empty_keeps; [apply asked_limiter|done|]. intros. by apply wp_ret.
Qed.
Lemma calm_remove ck id s : calm (form_timers s) → wp (remove_timer ck id) (λ _ s', calm (form_timers s')) s.
Proof.
  intros [Hok Ht]. apply rt_on_timers. apply (wp_and _ (λ _, timers_ok) (λ _ t', dynamicRefreshTasks_ t' = [])).
  - apply ok_RemoveFormTimer; [done|]. by rewrite Ht.
  - by apply empty_RemoveFormTimer.
Qed.

(** * Every request *)

(** When it is known that an event returns: the removals while nobody has asked for a
    refresh; the addition of a form when the offered forms have times that can be read.
    Cleared data and updated bundles are left out: the first may have the forms of
    several providers to gather, the second read the times of new forms. *)
Definition may_return s (e : FormEvent) : Prop :=
  match e with
  | EDelete _ _ _ | ERelease _ _ _ _ | ESystem (PACKAGE_REMOVED _ _) | ESystem (USER_REMOVED _) => dynamicRefreshTasks_ (form_timers s) = []
  | EAdd _ _ _ _ => times_read (form_infos s)
  | EDeleteInvalid _ _ _ | ESystem _ => False
  | _ => True
  end.

#[local] Abbreviation returns m s := (∃ a s', m s = Returned (a, s')).
Lemma returns_of {A} (Q : FormTimers → Prop) (m : FM A) s : wp m (λ _ s', Q (form_timers s')) s → returns (ignore_result m) s.
Proof. intros (a & s' & E & _)%wp_run. exists tt, s'. unfold ignore_result. apply ST_bind_Returned. by exists a, s'. Qed.
Lemma returns_unit (Q : FormTimers → Prop) (m : FM unit) s : wp m (λ _ s', Q (form_timers s')) s → returns m s.
Proof. intros (a & s' & E & _)%wp_run. by exists a, s'. Qed.

Lemma rt_next_refresh ck uid id n s : timers_ok (form_timers s) →
  wp (SetNextRefreshTime_adapter ck uid id n) (λ _ s', timers_ok (form_timers s')) s.
Proof.
  intros Hs. unfold SetNextRefreshTime_adapter, FindMatchedFormId, GetFormRecord, SetNextRefreshtTimeLocked.
  destruct (id <=? 0); [by apply wp_ret|]. destruct (GetBundleName uid) as [b|]; [|by apply wp_ret]. cbv zeta.
  destruct (negb _); [by apply wp_ret|]. apply wp_bind, wp_gets, wp_bind, wp_gets. destruct (map_find _ _) as [r|]; [|by apply wp_ret].
  do 2 (match goal with |- wp (if ?x then _ else _) _ _ => destruct x end; [by apply wp_ret|]). apply wp_bind, wp_gets.
  destruct (_ <=? _); (apply (rt_bind timers_ok); [|intros; by apply wp_ret]).
  - by apply (rt_on_limiter timers_ok).
  - apply rt_on_timers. by apply ok_SetNextRefreshTime.
Qed.
Lemma calm_for_each ck (l : list Z) s : calm (form_timers s) →
  wp (for_each (λ id, _ ← remove_timer ck id; mret tt) l) (λ _ s', calm (form_timers s')) s.
Proof.
  intros Hs. apply (rt_for_each calm); [done|]. intros id s' _ Hs'. apply (rt_bind calm); [by apply calm_remove|]. intros. by apply wp_ret.
Qed.
Lemma system_returns ck e s : forms_ok s → may_return s (ESystem e) → returns (OnReceiveSysEvent ck e) s.
Proof.
  intros Hs He. pose proof (fm_timers s Hs) as Ht. destruct e as [|b u| | |u]; cbn [may_return] in He; [done| |done|done|]; cbn [OnReceiveSysEvent].
  - apply (returns_unit calm). destruct b; [apply wp_ret; by split|]. apply (rt_bind calm); [by apply (rt_Remove calm)|].
    intros _ s1 H1. by apply (rt_HandleProviderRemoved calm calm_remove).
  - apply (returns_unit calm). destruct (u =? -1); [apply wp_ret; by split|]. by apply (rt_HandleUserIdRemoved calm calm_remove).
Qed.
Lemma event_returns ck e s : forms_ok s → may_return s e → returns (form_event ck e) s.
Proof.
  intros Hs He. pose proof (fm_timers s Hs) as Ht. destruct e; cbn [form_event]; cbn [may_return] in He.
  - apply (returns_of timers_ok). by apply (rt_AddForm timers_ok).
  - apply (returns_of calm). by apply (rt_DeleteForm calm calm_remove).
  - apply (returns_of calm). by apply (rt_ReleaseForm calm calm_remove).
  - apply (returns_of timers_ok). by apply (rt_CastTempForm timers_ok).
  - done.
  - apply (returns_of timers_ok). by apply (rt_UpdateForm_adapter timers_ok).
  - apply (returns_of timers_ok). by apply (rt_RequestForm timers_ok).
  - apply (returns_of timers_ok). by apply (rt_MessageEvent_adapter timers_ok).
  - apply (returns_of timers_ok). by apply (rt_HandleUpdateFormFlag timers_ok).
  - apply (returns_of timers_ok). by apply (rt_NotifyFormsVisible timers_ok).
  - apply (returns_of timers_ok). by apply (rt_NotifyWhetherVisibleForms timers_ok).
  - apply (returns_of timers_ok). by apply rt_next_refresh.
  - apply (returns_of timers_ok). by apply (rt_AcquireForm timers_ok).
  - apply (returns_of timers_ok). by apply (rt_UpdateForm_info timers_ok).
  - apply (returns_of timers_ok). by apply (rt_RefreshForm timers_ok).
  - apply (returns_of timers_ok). by apply (rt_AcquireFormState timers_ok).
  - apply (returns_of timers_ok), (rt_bind timers_ok); [by apply (rt_AcquireFormStateBack timers_ok)|]. intros. by apply wp_ret.
  - apply (returns_of timers_ok). by apply (rt_AddFormInfo timers_ok).
  - apply (returns_of timers_ok). by apply (rt_RemoveFormInfo timers_ok).
  - apply (returns_unit timers_ok). by apply (rt_HandleHostDied timers_ok).
  - by apply system_returns.
  - apply (returns_unit timers_ok), rt_on_timers. by apply ok_OnIntervalTimeOut.
  - apply (returns_unit timers_ok), rt_on_timers. by apply ok_OnReceiveEvent.
Qed.

(** C10: in every state that can be reached the requests of [may_return] return and
    leave a well-formed state: casting, updating, requesting, messages, flags,
    visibility, acquiring, the state of a form, offering and withdrawing forms, the death
    of a host, each refresh and each alarm always, whatever data a provider sends; adding
    a form if the times of the day of the offered forms can be read; deleting and
    releasing a form, and the removal of a package or of a user, if no refresh is asked
    for at a moment of its own (else the removal of its timer may not end,
    [RemoveFormTimer_hangs]). Nothing is said of the deletion of invalid forms, of
    cleared data, of changed packages and of updated abilities. *)
Theorem requests_return m s ck e : form_reachable m s → may_return s e → ∃ s', form_event ck e s = Returned (tt, s') ∧ forms_ok s'.
Proof.
  intros Hs%form_reachable_ok He. destruct (event_returns ck e s Hs He) as ([] & s' & E). exists s'. split; [done|].
  by apply (kf_form_event ck e s Hs tt).
Qed.
End calm.

(** * Instances *)

#[local] Existing Instance demo_forms.
#[local] Existing Instance demo_bundles.

Lemma demo_times : times_read (form_infos (forms_after two_cards)).
Proof.
  intros b l st f Hl Hst Hf.
  assert (bundleFormInfoMap_ (form_infos (forms_after two_cards)) = {["com.clock" := [mkInfoStorage 100 [clock_card; alarm_card]]]}) as E
    by (vm_compute; reflexivity).
  rewrite E in Hl. apply lookup_singleton_Some in Hl as [_ <-]. apply list_elem_of_singleton in Hst as ->. cbn in Hf.
  apply elem_of_cons in Hf as [->|Hf]; [by eexists|]. apply list_elem_of_singleton in Hf as ->. eexists. vm_compute. reflexivity.
Qed.

(** Another host adds a form, and data that is no object comes for the first one. *)
Lemma requests_return_witness :
  (∃ s', form_event morning (EAdd 20010003 (Some 2%positive) 0 card_want) (forms_after two_cards) = Returned (tt, s') ∧ forms_ok s') ∧
  (∃ s', form_event morning (EUpdate 20010001 4096 "com.clock" (mkProviderData (JText "now") ∅ 0)) (forms_after two_cards) =
         Returned (tt, s') ∧ forms_ok s').
Proof.
  assert (form_reachable ∅ (forms_after two_cards)) as Hr by (apply forms_after_reachable; vm_compute; reflexivity).
  split; apply (requests_return ∅); [exact Hr|exact demo_times|exact Hr|exact I].
Defined.
