(* ===== verification/FormHosts.v ===== *)
(** Which host shows which form: the records of the hosts refine a set of pairs of a
    client and a form. *)

From S2P Require Import Prelude CppString StdMap FormLimiter FormTimer FormTimerRun FormTimerClaims FormInfos FormRecords FormData FormStore FormProvider FormAdapter FormEvents FormDataRun FormRun.

#[local] Open Scope stdpp_scope.
#[local] Open Scope Z_scope.

(** * The abstract state *)

Definition host_pairs (h : FormHostRecord) : gset (positive * Z) :=
  match fh_clientStub h with Some t => set_map (pair t) (dom (fh_forms h)) | None => ∅ end.
Definition hosting (l : list FormHostRecord) : gset (positive * Z) := ⋃ (host_pairs <$> l).

(** ** Operations *)

Inductive HostOp :=
  | HAllot (info : FormItemInfo) (client : positive) (formId uid : Z)
  | HDelete (client : positive) (formId : Z)
  | HDied (client : positive)
  | HGone (formIds : list Z)
  | HFlag (formIds : list Z) (client : positive) (flag isOnlyEnableUpdate : bool)
  | HNeedRefresh (formId : Z) (needRefresh : bool)
  | HUpdate (formId : Z) (r : FormRecord).

Definition host_op `{!FormEnv} (o : HostOp) : FM unit :=
  match o with
  | HAllot info t id uid => ignore_result (AllotFormHostRecord info (Some t) id uid)
  | HDelete t id => ignore_result (DeleteHostRecord (Some t) id)
  | HDied t => HandleHostDied (Some t)
  | HGone ids => CleanHostRemovedForms ids
  | HFlag ids t flag only => ignore_result (UpdateHostFormFlag ids (Some t) flag only)
  | HNeedRefresh id b => UpdateHostNeedRefresh id b
  | HUpdate id r => ignore_result (UpdateHostForm id r)
  end.

Definition host_spec (o : HostOp) (H : gset (positive * Z)) : gset (positive * Z) :=
  match o with
  | HAllot _ t id _ => {[(t, id)]} ∪ H
  | HDelete t id => H ∖ {[(t, id)]}
  | HDied t => filter (λ p, p.1 ≠ t) H
  | HGone ids => filter (λ p, p.2 ∉ ids) H
  | HFlag _ _ _ _ | HNeedRefresh _ _ | HUpdate _ _ => H
  end.

(** * The pairs of the records *)

Section pairs.
Implicit Types (h : FormHostRecord) (l : list FormHostRecord) (t : positive) (id : Z).

Lemma elem_host_pairs t id h : (t, id) ∈ host_pairs h ↔ fh_clientStub h = Some t ∧ id ∈ dom (fh_forms h).
Proof. unfold host_pairs. destruct (fh_clientStub h) as [t'|]; set_solver. Qed.
Lemma elem_hosting p l : p ∈ hosting l ↔ ∃ h, h ∈ l ∧ p ∈ host_pairs h.
Proof.
  unfold hosting. rewrite elem_of_union_list. split.
  - intros (X & (h & -> & Hh)%list_elem_of_fmap & Hp). by exists h.
  - intros (h & Hh & Hp). exists (host_pairs h). split; [|done]. by apply list_elem_of_fmap_2.
Qed.
Lemma hosting_cons h l : hosting (h :: l) = host_pairs h ∪ hosting l.
Proof. done. Qed.
Lemma hosting_perm l l' : l ≡ₚ l' → hosting l = hosting l'.
Proof. intros E. apply leibniz_equiv. intros p. rewrite !elem_hosting. by setoid_rewrite E. Qed.

(** Other fields play no part. *)
Definition same_host h h' : Prop := fh_clientStub h' = fh_clientStub h ∧ dom (fh_forms h') = dom (fh_forms h).
#[export] Instance same_host_preorder : PreOrder same_host.
Proof. split; [by split|]. intros h1 h2 h3 [E1 E2] [E3 E4]. split; congruence. Qed.
Lemma same_host_pairs h h' : same_host h h' → host_pairs h' = host_pairs h.
Proof. intros [E1 E2]. unfold host_pairs. by rewrite E1, E2. Qed.
Lemma hosting_same l l' : Forall2 same_host l l' → hosting l' = hosting l.
Proof. induction 1 as [|h h' l l' Hh _ IH]; [done|]. by rewrite !hosting_cons, (same_host_pairs _ _ Hh), IH. Qed.

Lemma replace_first_perm {A} (P : A → bool) (y x : A) (l : list A) : List.find P l = Some x → replace_first P y l ≡ₚ y :: erase_first P l.
Proof.
  induction l as [|z l IH]; [done|]. cbn. destruct (P z); [done|]. intros Hx. rewrite (IH Hx). apply Permutation_swap.
Qed.

(** The record of a client is the only one with pairs of the client. *)
Lemma client_pairs t h l : clients_ok l → List.find (is_client (Some t)) l = Some h →
  fh_clientStub h = Some t ∧ hosting l = host_pairs h ∪ hosting (erase_first (is_client (Some t)) l) ∧
  ∀ id, (t, id) ∉ hosting (erase_first (is_client (Some t)) l).
Proof.
  intros [Hnd _] Hf. pose proof (erase_first_perm _ _ _ Hf) as Hp. apply find_Some_elem in Hf as [Hh Ht].
  apply bool_decide_eq_true in Ht. split; [done|]. split; [by rewrite (hosting_perm _ _ Hp)|]. intros id (h' & Hh' & Hid)%elem_hosting.
  apply elem_host_pairs in Hid as [E _]. rewrite Hp in Hnd. csimpl in Hnd. apply NoDup_cons in Hnd as [[] _].
  apply list_elem_of_fmap. exists h'. by rewrite E, <- Ht.
Qed.
Lemma no_client_pairs t id l : List.find (is_client (Some t)) l = None → (t, id) ∉ hosting l.
Proof.
  intros Hf (h & Hh & [E _]%elem_host_pairs)%elem_hosting. pose proof (find_None_elem _ _ _ Hf Hh) as Hc. unfold is_client in Hc.
  by rewrite E, bool_decide_true in Hc.
Qed.

Lemma pairs_AddForm t id h : fh_clientStub h = Some t → host_pairs (AddForm_host id h) = {[(t, id)]} ∪ host_pairs h.
Proof.
  intros E. unfold AddForm_host. destruct (fh_forms h !! id) eqn:Ef.
  - assert ((t, id) ∈ host_pairs h) by (apply elem_host_pairs; split; [done|]; by apply elem_of_dom_2 with b). set_solver.
  - unfold host_pairs, update. cbn. rewrite E, dom_insert_L, set_map_union_L, set_map_singleton_L. done.
Qed.
Lemma pairs_DelForm t id h : fh_clientStub h = Some t → host_pairs (DelForm id h) = host_pairs h ∖ {[(t, id)]}.
Proof.
  intros E. apply leibniz_equiv. intros [t' id']. rewrite elem_of_difference, !elem_host_pairs. unfold DelForm, update. cbn.
  rewrite E, dom_delete_L. set_solver.
Qed.
Lemma pairs_del_forms ids h : host_pairs (del_forms ids h).1 = filter (λ p, p.2 ∉ ids) (host_pairs h).
Proof.
  revert h. induction ids as [|id ids IH]; intros h; cbn [del_forms].
  { apply leibniz_equiv. intros p. rewrite elem_of_filter. cbn. set_solver. }
  destruct (Contains id h) eqn:Ec.
  - specialize (IH (DelForm id h)). destruct (del_forms ids (DelForm id h)) as [h' l']. cbn in *. rewrite IH.
    destruct (fh_clientStub h) as [t|] eqn:E; [rewrite (pairs_DelForm t) by done|].
    + apply leibniz_equiv. intros [t' id']. rewrite !elem_of_filter, elem_of_difference, !elem_host_pairs, E. set_solver.
    + unfold host_pairs, DelForm, update. cbn. rewrite E. set_solver.
  - rewrite IH. apply leibniz_equiv. intros [t' id']. rewrite !elem_of_filter, !elem_host_pairs. cbn.
    apply bool_decide_eq_false in Ec. rewrite <- elem_of_dom in Ec. set_solver.
Qed.
Lemma IsEmpty_pairs h : IsEmpty h = true → host_pairs h = ∅.
Proof. unfold IsEmpty, host_pairs. intros ->%bool_decide_eq_true. destruct (fh_clientStub h); set_solver. Qed.
End pairs.

(** * The operations *)

Section refinement.
Context `{!FormEnv}.
Implicit Types (s : Forms) (h : FormHostRecord) (l : list FormHostRecord) (t : positive) (id : Z).

(** ** Code that leaves the hosts alone *)

Definition same_clients s s' : Prop := clientRecords_ s' = clientRecords_ s.
#[local] Instance same_clients_preorder : PreOrder same_clients.
Proof. split; [done|]. unfold same_clients. intros s1 s2 s3 E1 E2. by rewrite E2. Qed.

Create HintDb clients.
Ltac sc_step := lazymatch goal with
  | |- keeps _ (mret _) _ => apply keeps_ret, _
  | |- keeps _ (modify _) _ => reflexivity
  | |- keeps _ (gets _ ≫= _) _ => apply keeps_gets
  | |- keeps _ (gets _) _ => reflexivity
  | |- keeps _ (mbind _ _) _ => apply keeps_bind; [apply _| |intros ? ? _ _]
  | |- keeps _ (for_each _ _) _ => apply keeps_for_each_from; [apply _|intros ? ? _ _]
  | |- keeps _ (match ?x with _ => _ end) _ => destruct x
  | |- keeps _ (let _ := _ in _) _ => cbv zeta
  end.
Ltac sc_steps := repeat first [solve [auto 1 with clients nocore] | sc_step].

Lemma sc_OnUpdate id r h s : keeps same_clients (OnUpdate id r h) s.
Proof. unfold OnUpdate, form_emit. sc_steps. Qed.
Lemma sc_OnFormUninstalled ids h s : keeps same_clients (OnFormUninstalled ids h) s.
Proof. unfold OnFormUninstalled, form_emit. sc_steps. Qed.
Lemma sc_CleanResource h s : keeps same_clients (CleanResource h) s.
Proof. unfold CleanResource, form_emit. sc_steps. Qed.
Lemma sc_drop_temp_records ids s : keeps same_clients (drop_temp_records ids) s.
Proof. unfold drop_temp_records, NotifyProviderFormDelete, DeleteFormRecord, connect, form_emit. sc_steps. Qed.
Lemma sc_IsFormCached r s : keeps same_clients (IsFormCached r) s.
Proof. unfold IsFormCached, IsExist. sc_steps. Qed.
#[local] Hint Resolve sc_OnUpdate sc_OnFormUninstalled sc_CleanResource sc_drop_temp_records sc_IsFormCached : clients.

Lemma wp_same {A B} (m : FM A) (k : A → FM B) Q s : keeps same_clients m s →
  (∀ a s', clientRecords_ s' = clientRecords_ s → wp (k a) Q s') → wp (m ≫= k) Q s.
Proof. intros Hm Hk. apply wp_bind. eapply keeps_wp; [exact Hm|]. intros a s' _ E. by apply Hk. Qed.
Lemma wp_same_end {A} (m : FM A) (P : list FormHostRecord → Prop) s : keeps same_clients m s → P (clientRecords_ s) →
  wp m (λ _ s', P (clientRecords_ s')) s.
Proof. intros Hm HP. eapply keeps_wp; [exact Hm|]. intros a s' _ E. by rewrite E. Qed.

(** ** Walks over the hosts *)

Lemma wp_clean_hosts removed m l Q s : (∀ s', clientRecords_ s' = clientRecords_ s → Q ((λ h, (del_forms removed h).1) <$> l) s') →
  wp (clean_hosts removed m l) Q s.
Proof.
  revert m Q s. induction l as [|h l IH]; intros m Q s HQ; cbn [clean_hosts]; [by apply wp_ret, HQ|].
  destruct (del_forms removed h) as [h' ids] eqn:E. apply wp_same; [apply sc_OnFormUninstalled|]. intros _ s1 E1.
  apply wp_bind, IH. intros s2 E2. apply wp_ret. specialize (HQ s2 (eq_trans E2 E1)). csimpl in HQ. by rewrite E in HQ.
Qed.
Lemma hosting_del_forms removed l : hosting ((λ h, (del_forms removed h).1) <$> l) = filter (λ p, p.2 ∉ removed) (hosting l).
Proof.
  induction l as [|h l IH]; [set_solver|]. csimpl. rewrite !hosting_cons, IH, pairs_del_forms. apply leibniz_equiv. intros p.
  rewrite elem_of_union, !elem_of_filter, elem_of_union. tauto.
Qed.

Lemma wp_update_hosts id r l Q s :
  (∀ l' b s', clientRecords_ s' = clientRecords_ s → Forall2 same_host l l' → Q (l', b) s') → wp (update_hosts id r l) Q s.
Proof.
  revert Q s. induction l as [|h l IH]; intros Q s HQ; cbn [update_hosts]; [by apply wp_ret, HQ|]. cbv zeta.
  set (b := _ || _ || _). apply wp_same; [destruct b; sc_steps|]. intros _ s1 E1. apply wp_bind, IH. intros l' b' s2 E2 Hl. apply wp_ret, HQ.
  - by rewrite E2.
  - constructor; [|done]. by destruct b.
Qed.

Lemma same_SetEnableRefresh id b h : same_host h (SetEnableRefresh id b h).
Proof.
  unfold SetEnableRefresh. destruct (Contains id h) eqn:E; [|done]. split; [done|]. unfold update. cbn. apply bool_decide_eq_true in E.
  rewrite dom_insert_L. apply elem_of_dom in E. set_solver.
Qed.
Lemma same_SetEnableUpdate id b h : same_host h (SetEnableUpdate_host id b h).
Proof. unfold SetEnableUpdate_host. by destruct (Contains id h). Qed.

Lemma wp_update_flag flag only id h Q s :
  (∀ h' x s', clientRecords_ s' = clientRecords_ s → same_host h h' → Q (h', x) s') → wp (update_flag flag only id h) Q s.
Proof.
  intros HQ. unfold update_flag. destruct (id <=? 0); [by apply wp_ret, HQ|]. apply wp_bind, wp_gets. cbv beta.
  match goal with |- wp (if negb (Contains ?x h) then _ else _) _ _ => generalize x; intros m end. destruct (negb (Contains m h)); [by apply wp_ret, HQ|]. cbv zeta.
  set (h1 := if only then _ else _). assert (same_host h h1) as H1.
  { subst h1. destruct only; [|apply same_SetEnableRefresh]. etransitivity; [apply same_SetEnableUpdate|apply same_SetEnableRefresh]. }
  clearbody h1. destruct (negb flag); [by apply wp_ret, HQ|]. apply wp_bind, wp_gets. destruct (map_find _ _) as [r|]; [|by apply wp_ret, HQ].
  destruct (fr_needRefresh r); [by apply wp_ret, HQ|]. destruct (negb _); [by apply wp_ret, HQ|].
  apply wp_same; [apply sc_IsFormCached|]. intros [] s1 E1; [|by apply wp_ret, HQ]. apply wp_same; [apply sc_OnUpdate|]. intros _ s2 E2.
  apply wp_ret, HQ; [congruence|]. etransitivity; [exact H1|done].
Qed.
Lemma wp_HandleUpdateHostFormFlag ids flag only h Q s :
  (∀ h' x s', clientRecords_ s' = clientRecords_ s → same_host h h' → Q (h', x) s') → wp (HandleUpdateHostFormFlag ids flag only h) Q s.
Proof.
  revert h Q s. induction ids as [|id ids IH]; intros h Q s HQ; cbn [HandleUpdateHostFormFlag]; [by apply wp_ret, HQ|].
  apply wp_bind, wp_update_flag. intros h1 x s1 E1 H1. apply wp_bind, IH. intros h2 y s2 E2 H2. apply wp_ret, HQ; [congruence|].
  by etransitivity.
Qed.

(** ** Each operation *)

#[local] Abbreviation becomes m X s := (wp m (λ _ s', hosting (clientRecords_ s') = X) s).

Lemma hosting_filter_clients t l X : (∀ id, (t, id) ∉ hosting l) → hosting l ⊆ X → (∀ p, p ∈ X → p.1 ≠ t → p ∈ hosting l) →
  hosting l = filter (λ p, p.1 ≠ t) X.
Proof.
  intros Ht Hl HX. apply leibniz_equiv. intros [t' id]. rewrite elem_of_filter. cbn. split; [|intros [Hne Hp]; by apply HX].
  intros Hp. split; [|by apply Hl]. intros ->. by apply (Ht id).
Qed.

Lemma clients_set l s : clientRecords_ (s <| clientRecords_ := l |>) = l.
Proof. done. Qed.

Lemma AllotFormHostRecord_pairs i t id uid s : clients_ok (clientRecords_ s) →
  becomes (AllotFormHostRecord i (Some t) id uid) ({[(t, id)]} ∪ hosting (clientRecords_ s)) s.
Proof.
  intros Hc. unfold AllotFormHostRecord. apply wp_bind, wp_gets. destruct (List.find _ _) as [h|] eqn:E.
  - apply wp_bind, wp_modify, wp_ret. rewrite clients_set. destruct (client_pairs t h _ Hc E) as (Et & Hh & _).
    rewrite (hosting_perm _ _ (replace_first_perm _ _ _ _ E)), hosting_cons, (pairs_AddForm t) by done. rewrite Hh. set_solver.
  - cbn [CreateHostRecord]. unfold CreateRecord. apply wp_bind, wp_bind, wp_bind, wp_modify, wp_ret, wp_ret. cbv beta.
    apply wp_bind, wp_modify, wp_ret. rewrite clients_set. rewrite (hosting_perm _ (_ :: _) (Permutation_app_comm _ [_])), hosting_cons.
    rewrite (pairs_AddForm t) by done. f_equal. unfold host_pairs. cbn. set_solver.
Qed.

Lemma DeleteHostRecord_pairs t id s : clients_ok (clientRecords_ s) →
  becomes (DeleteHostRecord (Some t) id) (hosting (clientRecords_ s) ∖ {[(t, id)]}) s.
Proof.
  intros Hc. unfold DeleteHostRecord. apply wp_bind, wp_gets. destruct (List.find _ _) as [h|] eqn:E.
  - destruct (client_pairs t h _ Hc E) as (Et & Hh & Hn). cbv zeta. pose proof (pairs_DelForm t id h Et) as Hd. apply wp_bind.
    destruct (IsEmpty (DelForm id h)) eqn:Ee.
    + apply wp_same; [apply sc_CleanResource|]. intros _ s1 E1. apply wp_modify, wp_ret. rewrite clients_set.
      apply IsEmpty_pairs in Ee. rewrite Hh. specialize (Hn id). set_solver.
    + apply wp_modify, wp_ret. rewrite clients_set. rewrite (hosting_perm _ _ (replace_first_perm _ _ _ _ E)), hosting_cons, Hd, Hh.
      specialize (Hn id). set_solver.
  - apply wp_ret. pose proof (no_client_pairs t id _ E). set_solver.
Qed.

Lemma HandleHostDied_pairs t s : clients_ok (clientRecords_ s) →
  becomes (HandleHostDied (Some t)) (filter (λ p, p.1 ≠ t) (hosting (clientRecords_ s))) s.
Proof.
  intros Hc. unfold HandleHostDied. apply wp_bind, wp_gets. apply wp_bind.
  assert (∀ ids s1, hosting (clientRecords_ s1) = filter (λ p, p.1 ≠ t) (hosting (clientRecords_ s)) →
    becomes (_ ← drop_temp_records ids; states ← gets formStateRecord_;
      match List.find (λ e, is_client (Some t) e.2) states with
      | Some (provider, h) => _ ← CleanResource h; modify (λ s, s <| formStateRecord_ ::= map_erase provider |>)
      | None => mret tt
      end) (filter (λ p, p.1 ≠ t) (hosting (clientRecords_ s))) s1) as Hrest.
  { intros ids s1 <-. apply (wp_same_end _ (λ l, hosting l = hosting (clientRecords_ s1))); [sc_steps|done]. }
  destruct (List.find _ _) as [h|] eqn:E.
  - destruct (client_pairs t h _ Hc E) as (Et & Hh & Hn). unfold HandleHostDiedForTempForms.
    apply wp_bind, wp_bind, wp_gets, wp_bind, wp_modify, wp_ret. apply wp_same; [apply sc_CleanResource|]. intros _ s1 E1.
    apply wp_bind, wp_modify, wp_ret, Hrest. rewrite clients_set. apply hosting_filter_clients; [done|set_solver|].
    intros [t' id] Hp Hne. rewrite Hh in Hp. apply elem_of_union in Hp as [[Et' _]%elem_host_pairs|]; [|done]. cbn in Hne. congruence.
  - apply wp_ret, Hrest. apply hosting_filter_clients; [intros id; by apply no_client_pairs|done|done].
Qed.

Lemma UpdateHostFormFlag_pairs ids t flag only s : clients_ok (clientRecords_ s) →
  becomes (UpdateHostFormFlag ids (Some t) flag only) (hosting (clientRecords_ s)) s.
Proof.
  intros Hc. unfold UpdateHostFormFlag. apply wp_bind, wp_gets. destruct (List.find _ _) as [h|] eqn:E; [|by apply wp_ret].
  apply wp_bind, wp_HandleUpdateHostFormFlag. intros h' x s1 E1 Hs. apply wp_bind, wp_modify, wp_ret. rewrite clients_set.
  destruct (client_pairs t h _ Hc E) as (Et & Hh & _).
  by rewrite (hosting_perm _ _ (replace_first_perm _ _ _ _ E)), hosting_cons, (same_host_pairs _ _ Hs), Hh.
Qed.

(** ** The refinement *)

(** C9: the records of the hosts refine the set of pairs of a client and a form
    it shows: allotting a host adds the pair, whether the host is new or known, deleting
    takes it away, a host that dies loses all of its pairs and no other host any, forms
    that are gone are gone from every host, and neither turning updates on and off nor
    an update itself changes who shows what. *)
Theorem hosts_refine o s : forms_ok s →
  ∃ s', host_op o s = Returned (tt, s') ∧ hosting (clientRecords_ s') = host_spec o (hosting (clientRecords_ s)).
Proof.
  intros Hs. assert (wp (host_op o) (λ _ s', hosting (clientRecords_ s') = host_spec o (hosting (clientRecords_ s))) s) as ([] & s' & E)%wp_run;
    [|by exists s'].
  pose proof (ok_clients_ok s Hs) as Hc. destruct o as [i t id uid|t id|t|ids|ids t flag only|id b|id r]; cbn [host_op host_spec];
    unfold ignore_result.
  - apply wp_bind. eapply wp_mono; [by apply AllotFormHostRecord_pairs|]. intros ? s1 E. by apply wp_ret.
  - apply wp_bind. eapply wp_mono; [by apply DeleteHostRecord_pairs|]. intros ? s1 E. by apply wp_ret.
  - by apply HandleHostDied_pairs.
  - apply wp_bind, wp_gets, wp_bind, wp_clean_hosts. intros s1 _. apply wp_modify. rewrite clients_set. apply hosting_del_forms.
  - apply wp_bind. eapply wp_mono; [by apply UpdateHostFormFlag_pairs|]. intros ? s1 E. by apply wp_ret.
  - apply wp_modify. apply hosting_same. unfold update. cbn. apply Forall2_fmap_r, Forall_Forall2_diag, Forall_forall. intros h _.
    cbn. by destruct (Contains id h).
  - apply wp_bind, wp_bind, wp_gets, wp_bind, wp_update_hosts. intros l b s1 _ Hl. apply wp_bind, wp_modify, wp_ret, wp_ret.
    rewrite clients_set. by apply hosting_same.
Qed.
End refinement.

(** * Instances *)

#[local] Existing Instance demo_forms.
#[local] Existing Instance demo_bundles.

Lemma hosts_refine_witness : ∃ s', host_op (HDied 1) (forms_after two_cards) = Returned (tt, s') ∧
  hosting (clientRecords_ s') = filter (λ p, p.1 ≠ 1%positive) (hosting (clientRecords_ (forms_after two_cards))).
Proof.
  assert (forms_ok (forms_after two_cards)) as Hs by (apply (form_reachable_ok ∅), forms_after_reachable; vm_compute; reflexivity).
  exact (hosts_refine (HDied 1) (forms_after two_cards) Hs).
Defined.
