(* ===== verification/FormLife.v ===== *)
(** The life of a form: what adding and deleting one leaves behind. *)

From S2P Require Import Prelude CppString StdMap FormLimiter FormTimer FormTimerRun FormTimerClaims FormInfos FormRecords FormData FormStore FormProvider FormAdapter FormEvents FormDataRun FormRun FormClaims FormReturns FormHosts.

#[local] Open Scope stdpp_scope.
#[local] Open Scope Z_scope.

(** * What a form leaves *)

(** The tables that outlive an operation, and what the removal of a timer depends on. *)
Record Core := mkCore {
  co_records : list (Z * FormRecord);
  co_temps : list Z;
  co_clients : list FormHostRecord;
  co_db : list FormDBInfo;
  co_store : gmap Z FormDBInfo;
  co_asked : list DynamicRefreshItem;
  co_speed : Z;
}.
#[export] Instance Core_eta : Eta Core := λ x, mkCore (co_records x) (co_temps x) (co_clients x) (co_db x) (co_store x) (co_asked x) (co_speed x).
Definition core (s : Forms) : Core := mkCore (formRecords_ s) (tempForms_ s) (clientRecords_ s) (formDBInfos_ s) (kv_store s)
  (dynamicRefreshTasks_ (form_timers s)) (timeSpeed_ (form_timers s)).
Definition same_core (s s' : Forms) : Prop := core s' = core s.
#[export] Instance same_core_preorder : PreOrder same_core.
Proof. split; [done|]. unfold same_core. intros s1 s2 s3 E1 E2. by rewrite E2. Qed.

(** ** Alarms that are set *)

Section alarms.
Context `{!FormEnv} (made : ∀ l, env_agent_made l = true) (starts : ∀ l, env_timer_starts l = true).
Context (ck : Clock) (local : is_Some (ck_localtime ck)).
Implicit Types (t : FormTimers) (id : Z).

Definition same_asked_speed t t' : Prop := dynamicRefreshTasks_ t' = dynamicRefreshTasks_ t ∧ timeSpeed_ t' = timeSpeed_ t.
#[local] Instance same_asked_speed_preorder : PreOrder same_asked_speed.
Proof. split; [by split|]. intros t1 t2 t3 [E1 E2] [E3 E4]. split; congruence. Qed.

(** [m] says that it went well, and asks for no refresh. *)
Definition succeeds (m : ST FormTimers bool) : Prop := ∀ t, wp m (λ b t', b = true ∧ same_asked_speed t t') t.

Lemma su_aside {A} (m : ST FormTimers A) (k : A → ST FormTimers bool) t : keeps aside m t → (∀ a t', wp (k a) (λ b t'', b = true ∧ same_asked_speed t' t'') t') →
  wp (m ≫= k) (λ b t', b = true ∧ same_asked_speed t t') t.
Proof.
  intros Hm Hk. apply wp_bind. eapply keeps_wp; [exact Hm|]. intros a t1 _ Ha. eapply wp_mono; [apply Hk|]. intros b t2 [-> H2].
  split; [done|]. etransitivity; [|exact H2]. split; apply Ha.
Qed.
Lemma su_later (m : ST FormTimers bool) t1 t2 : same_asked_speed t1 t2 → wp m (λ b t', b = true ∧ same_asked_speed t2 t') t2 →
  wp m (λ b t', b = true ∧ same_asked_speed t1 t') t2.
Proof. intros H2 Hm. eapply wp_mono; [exact Hm|]. intros b t3 [-> H3]. split; [done|]. by etransitivity. Qed.
Lemma su_start id time : succeeds (start_timer env_timer_starts id time).
Proof. intros t. unfold start_timer. apply wp_bind, wp_gets, wp_bind, wp_modify, wp_ret. split; [apply starts|done]. Qed.
Lemma su_agent {A} (w : TimerWant) u (k : option TimerWant → ST FormTimers A) Q t : wp (k (Some w)) Q (t <| ft_trace ::= λ l, l ++ [GetAgent w u] |>) →
  wp (GetWantAgent env_agent_made w u ≫= k) Q t.
Proof. intros Hk. unfold GetWantAgent. apply wp_bind, wp_bind, wp_gets, wp_bind, wp_modify, wp_ret. by rewrite made. Qed.

#[local] Hint Resolve aside_ClearLimiterTimerResource aside_ClearUpdateAtTimerResource aside_destroy : timers.
Ltac su_rest := repeat first
  [ apply su_start | apply su_aside; [solve [auto 1 with timers nocore | aside_steps]|intros] ].

Lemma su_limiter_alarm : succeeds (UpdateLimiterAlarm env_agent_made env_timer_id env_timer_starts ck).
Proof.
  intros t. unfold UpdateLimiterAlarm, GetLimiterWantAgent. apply su_aside; [apply aside_drop_limiter_timer|]. intros _ t1.
  destruct local as [hm ->]. cbv zeta. apply su_agent. set (t2 := update ft_trace _ t1). assert (same_asked_speed t1 t2) as H2 by done. clearbody t2.
  apply (su_later _ _ _ H2). su_rest.
Qed.
Lemma su_at_alarm : succeeds (UpdateAtTimerAlarm env_agent_made env_timer_id env_timer_starts ck).
Proof.
  intros t. unfold UpdateAtTimerAlarm, GetUpdateAtWantAgent. destruct local as [[hour min] ->]. cbv zeta. apply wp_bind, wp_gets.
  destruct (FindNextAtTimerItem _ _) as [i|].
  - apply wp_bind, wp_gets. destruct (_ =? _); [by apply wp_ret|]. apply su_agent. set (t2 := update ft_trace _ t).
    assert (same_asked_speed t t2) as H2 by done. clearbody t2.
    apply (su_later _ _ _ H2). su_rest.
  - destruct (negb _); [by apply wp_ret|]. apply su_aside; [apply aside_ClearUpdateAtTimerResource|]. intros _ t1.
    apply wp_bind, wp_modify, wp_ret. split; [done|by split].
Qed.

Lemma su_bind m1 (m2 : bool → ST FormTimers bool) : succeeds m1 → succeeds (m2 true) → succeeds (m1 ≫= m2).
Proof.
  intros H1 H2 t. apply wp_bind. eapply wp_mono; [apply H1|]. intros b t1 [-> E1]. eapply wp_mono; [apply H2|]. intros b t2 [-> E2].
  split; [done|]. by etransitivity.
Qed.
Lemma su_modify f (m : ST FormTimers bool) : (∀ t, same_asked_speed t (f t)) → succeeds m → succeeds (_ ← modify f; m).
Proof.
  intros Hf Hm t. apply wp_bind, wp_modify. eapply wp_mono; [apply Hm|]. intros b t2 [-> E2]. split; [done|]. etransitivity; [apply Hf|exact E2].
Qed.
Lemma su_limited (f : Limiter → unit * Limiter) : succeeds (_ ← with_limiter f; mret true).
Proof. intros t. apply wp_bind. unfold with_limiter. apply wp_ret. split; [done|by split]. Qed.

Lemma su_AddIntervalTimer x : succeeds (AddIntervalTimer env_agent_made env_timer_id env_timer_starts ck x).
Proof.
  intros t. unfold AddIntervalTimer. apply su_aside; [apply aside_EnsureInitIntervalTimer|]. intros _ t1. apply wp_bind, wp_gets.
  destruct (map_find _ _); [by apply wp_ret|]. revert t1. change (succeeds (_ ← modify (λ s, s <| intervalTimerTasks_ ::= map_emplace (t_formId x) x |>);
    ok ← UpdateLimiterAlarm env_agent_made env_timer_id env_timer_starts ck;
    if negb ok then mret false else _ ← with_limiter (λ m, (tt, AddItem (t_formId x) m)); mret true)).
  apply su_modify; [done|]. apply su_bind; [apply su_limiter_alarm|]. apply su_limited.
Qed.
Lemma su_AddUpdateAtTimer x : succeeds (AddUpdateAtTimer env_agent_made env_timer_id env_timer_starts ck x).
Proof.
  intros t. unfold AddUpdateAtTimer. apply wp_bind, wp_gets. destruct (existsb _ _); [by apply wp_ret|]. revert t.
  apply su_modify; [done|]. apply su_bind; [apply su_limiter_alarm|]. cbn [negb]. apply su_bind; [apply su_at_alarm|]. apply su_limited.
Qed.

Lemma su_interval id d u t : valid_duration d = true → 1 ≤ timeSpeed_ t ≤ 1000 → (timeSpeed_ t | MIN_PERIOD) →
  wp (AddFormTimer_interval env_agent_made env_timer_id env_timer_starts ck id d u) (λ b t', b = true ∧ same_asked_speed t t') t.
Proof.
  intros Hd Hr Hs. unfold AddFormTimer_interval, AddFormTimer. apply wp_bind, wp_gets. cbn [t_isUpdateAt t_period intervalFormTimer].
  apply wp_bind, wp_gets. destruct (speed_period d (timeSpeed_ t)) as [[H1 H2] H3]; [done..|].
  rewrite (proj2 (Z.leb_le _ _) H1), (proj2 (Z.leb_le _ _) H2), (proj2 (Z.eqb_eq _ _) H3). cbn [andb]. apply su_AddIntervalTimer.
Qed.
Lemma su_at id hour min u t : valid_time hour min = true →
  wp (AddFormTimer_at env_agent_made env_timer_id env_timer_starts ck id hour min u) (λ b t', b = true ∧ same_asked_speed t t') t.
Proof.
  intros Hv. unfold AddFormTimer_at, AddFormTimer. cbn [t_isUpdateAt t_hour t_min atFormTimer].
  destruct (valid_time_wrap hour min Hv) as [-> ->].
  rewrite Hv. apply su_AddUpdateAtTimer.
Qed.

Lemma su_dynamic id t : dynamicRefreshTasks_ t = [] →
  wp (DeleteDynamicItem env_agent_made env_timer_id env_timer_starts REMOVE_FUEL id) (λ b t', b = true ∧ same_asked_speed t t') t.
Proof.
  intros Ht. unfold DeleteDynamicItem. apply wp_bind, wp_gets. rewrite Ht. cbn [delete_dynamic REMOVE_FUEL]. apply wp_bind, wp_ret.
  apply wp_bind, wp_modify. set (t1 := update dynamicRefreshTasks_ _ t). assert (dynamicRefreshTasks_ t1 = [] ∧ same_asked_speed t t1) as [E1 H1].
  { subst t1. unfold same_asked_speed, update. cbn. by rewrite Ht. }
  clearbody t1. apply (su_later _ _ _ H1). unfold UpdateDynamicAlarm. apply wp_bind, wp_gets. rewrite E1.
  apply su_aside; [apply aside_ClearDynamicResource|]. intros _ t2. apply wp_bind, wp_modify, wp_ret. split; [done|by split].
Qed.
Lemma su_remove id t : dynamicRefreshTasks_ t = [] →
  wp (RemoveFormTimer env_agent_made env_timer_id env_timer_starts REMOVE_FUEL ck id) (λ b t', b = true ∧ same_asked_speed t t') t.
Proof.
  intros Ht. unfold RemoveFormTimer. apply wp_bind.
  assert (wp (DeleteIntervalTimer id) (λ _ t', same_asked_speed t t') t) as Hi.
  { unfold DeleteIntervalTimer. apply wp_bind, wp_gets, wp_bind, wp_modify, wp_bind, wp_gets, wp_bind.
    destruct (intervalTimerTasks_ _); [|by apply wp_ret, wp_ret]. eapply keeps_wp; [apply aside_ClearIntervalTimer|].
    intros _ t1 _ Ha. apply wp_ret. split; apply Ha. }
  eapply wp_mono; [exact Hi|]. intros there t1 H1. apply (su_later _ _ _ H1). apply wp_bind.
  assert (wp (if there : bool then mret true else DeleteUpdateAtTimer env_agent_made env_timer_id env_timer_starts ck id)
    (λ b t', b = true ∧ same_asked_speed t1 t') t1) as Ha.
  { destruct there; [by apply wp_ret|]. clear H1. revert t1. apply su_modify; [done|]. apply su_at_alarm. }
  eapply wp_mono; [exact Ha|]. intros ? t2 [-> H2]. cbn [negb]. apply (su_later _ _ _ H2). apply wp_bind.
  assert (dynamicRefreshTasks_ t2 = []) as E2 by (rewrite (proj1 H2), (proj1 H1); exact Ht).
  eapply wp_mono; [by apply su_dynamic|]. intros ? t3 [-> H3]. cbn [negb]. apply (su_later _ _ _ H3). apply su_limited.
Qed.
End alarms.

(** * When every service does what it is asked *)

Section life.
Context `{!FormEnv, !BundleEnv} (connected : ∀ l, env_connected l = true) (kv : ∀ l, env_kv_ok l = true).
Context (made : ∀ l, env_agent_made l = true) (starts : ∀ l, env_timer_starts l = true).
Context (ck : Clock) (local : is_Some (ck_localtime ck)).
Implicit Types (s : Forms) (r : FormRecord) (h : FormHostRecord) (id formId uid : Z) (i : FormItemInfo) (c : Core).

(** [m] answers [a] and leaves [c]. *)
#[local] Abbreviation leads m a c s := (wp m (λ x s', x = a ∧ core s' = c) s).
Lemma ld_bind {A B} (m : FM A) (k : A → FM B) a c Q s : leads m a c s → (∀ s', core s' = c → wp (k a) Q s') → wp (m ≫= k) Q s.
Proof. intros Hm Hk. apply wp_bind. eapply wp_mono; [exact Hm|]. intros x s' [-> E]. by apply Hk. Qed.

Lemma ld_connect b a x s : leads (connect b a x) ERR_OK (core s) s.
Proof. unfold connect. apply wp_bind, wp_gets, wp_bind, wp_modify, wp_ret. by rewrite connected. Qed.
Lemma ld_NotifyProviderFormDelete id r s : fr_abilityName r ≠ "" → fr_bundleName r ≠ "" →
  leads (NotifyProviderFormDelete id r) ERR_OK (core s) s.
Proof. intros Ha Hb. unfold NotifyProviderFormDelete. apply String.eqb_neq in Ha as ->. apply String.eqb_neq in Hb as ->. apply ld_connect. Qed.
Lemma ld_kv e f s : leads (kv_do e f) ERR_OK ((core s) <| co_store ::= f |>) s.
Proof. unfold kv_do. apply wp_bind, wp_gets, wp_bind, wp_modify. rewrite kv. by apply wp_bind, wp_modify, wp_ret. Qed.

Lemma ld_UpdateDBRecord id r s : List.find (has_id id) (formDBInfos_ s) = None →
  leads (UpdateDBRecord id r) ERR_OK ((core s) <| co_db ::= λ l, l ++ [FormDBInfo_of id r] |> <| co_store ::= <[id := FormDBInfo_of id r]> |>) s.
Proof.
  intros Hf. unfold UpdateDBRecord, SaveFormInfo, SaveFormInfoNolock. apply wp_bind, wp_gets.
  change (λ x, same_form x (FormDBInfo_of id r)) with (has_id id). rewrite Hf. apply wp_bind, wp_modify.
  eapply wp_mono; [apply ld_kv|]. intros ? s1 [-> ->]. done.
Qed.
Lemma ld_DeleteFormInfo id s : leads (DeleteFormInfo id) ERR_OK ((core s) <| co_db ::= erase_first (has_id id) |> <| co_store ::= delete id |>) s.
Proof. unfold DeleteFormInfo. apply wp_bind, wp_modify. eapply wp_mono; [apply ld_kv|]. intros ? s1 [-> ->]. done. Qed.

Lemma ld_on_timers (m : ST FormTimers bool) s : wp m (λ b t', b = true ∧ same_asked_speed (form_timers s) t') (form_timers s) →
  leads (on_timers m) true (core s) s.
Proof.
  intros Hm. apply wp_on_timers. eapply wp_mono; [exact Hm|]. intros b t [-> [E1 E2]]. split; [done|]. unfold core, update. cbn. by rewrite E1, E2.
Qed.

Lemma ld_AddFormTimer_record r s : record_ok (fr_formId r) r → 1 ≤ timeSpeed_ (form_timers s) ≤ 1000 →
  (timeSpeed_ (form_timers s) | MIN_PERIOD) → leads (AddFormTimer_record ck r) ERR_OK (core s) s.
Proof.
  intros [_ _ Hc _] Hr Hs. unfold AddFormTimer_record. destruct (fr_isEnableUpdate r); [|by apply wp_ret]. cbn [negb orb].
  destruct (fr_formTempFlg r); [by apply wp_ret|]. destruct (Hc eq_refl) as [Hd|[-> Hv]].
  - destruct (0 <? fr_updateDuration r) eqn:E.
    + eapply ld_bind; [by apply ld_on_timers, su_interval|]. intros s' E'. by apply wp_ret.
    + apply valid_duration_range in Hd. unfold MIN_PERIOD in Hd. apply Z.ltb_ge in E. lia.
  - cbn [Z.ltb Z.compare]. destruct (_ && _); [|by apply wp_ret].
    eapply ld_bind; [by apply ld_on_timers, su_at|]. intros s' E'. by apply wp_ret.
Qed.
Lemma ld_remove_timer id s : dynamicRefreshTasks_ (form_timers s) = [] → leads (remove_timer ck id) true (core s) s.
Proof. intros Hd. by apply ld_on_timers, su_remove. Qed.

(** ** A new form *)

Lemma ld_AllotFormHostRecord i t id uid s : clients_ok (clientRecords_ s) →
  wp (AllotFormHostRecord i (Some t) id uid) (λ b s', b = true ∧ hosting (clientRecords_ s') = {[(t, id)]} ∪ hosting (clientRecords_ s) ∧
    core s' = (core s) <| co_clients := clientRecords_ s' |>) s.
Proof.
  intros Hc. eapply wp_mono; [apply wp_and; [apply (AllotFormHostRecord_pairs i t id uid s Hc)|]|].
  - instantiate (1 := λ b s', b = true ∧ core s' = (core s) <| co_clients := clientRecords_ s' |>). unfold AllotFormHostRecord.
    apply wp_bind, wp_gets. destruct (List.find _ _) as [h|]; [by apply wp_bind, wp_modify, wp_ret|]. cbn [CreateHostRecord]. unfold CreateRecord.
    apply wp_bind, wp_bind, wp_bind, wp_modify, wp_ret, wp_ret. by apply wp_bind, wp_modify, wp_ret.
  - intros b s' [E1 [E2 E3]]. by split_and!.
Qed.
Lemma ld_AllotFormRecord i uid u r s : fi_temporaryFlag i = false → map_find (fi_formId i) (formRecords_ s) = None →
  CreateFormRecord i uid u = Returned r →
  leads (AllotFormRecord i uid u) r ((core s) <| co_records ::= map_emplace (fi_formId i) r |>) s.
Proof.
  intros Ht Hf Hr. unfold AllotFormRecord, ExistTempForm. apply wp_bind, wp_gets. rewrite Ht. cbn [andb]. apply wp_bind, wp_ret, wp_bind, wp_gets.
  rewrite Hf. apply wp_bind. unfold wp at 1, lift_outcome. rewrite Hr. by apply wp_bind, wp_modify, wp_ret.
Qed.

(** What a new form adds. *)
Definition with_form (t : positive) id r clients c : Core :=
  mkCore (map_emplace id r (co_records c)) (co_temps c) clients (co_db c ++ [FormDBInfo_of id r]) (<[id := FormDBInfo_of id r]> (co_store c))
    (co_asked c) (co_speed c).

Lemma ld_AddNewFormRecord uid t i id r s : clients_ok (clientRecords_ s) → 0 < id → fi_temporaryFlag i = false →
  map_find id (formRecords_ s) = None → List.find (has_id id) (formDBInfos_ s) = None →
  1 ≤ timeSpeed_ (form_timers s) ≤ 1000 → (timeSpeed_ (form_timers s) | MIN_PERIOD) →
  CreateFormRecord (i <| fi_formId := id |>) uid (GetCurrentUserId uid) = Returned r →
  wp (AddNewFormRecord ck uid (Some t) i id) (λ x s', x = (ERR_OK, Some (None, id, r)) ∧
    hosting (clientRecords_ s') = {[(t, id)]} ∪ hosting (clientRecords_ s) ∧ core s' = with_form t id r (clientRecords_ s') (core s)) s.
Proof.
  intros Hc Hid Ht Hf Hdb Hsp Hdiv Hr. unfold AddNewFormRecord. cbv zeta. apply wp_bind.
  eapply wp_mono; [by apply ld_AllotFormHostRecord|]. intros ? s1 (-> & Hh & E1). cbn [negb].
  pose proof (CreateFormRecord_ok _ _ _ _ Hr) as Hok. set (j := update fi_formId _ i) in *.
  assert (fi_formId j = id ∧ fi_temporaryFlag j = false) as [Hj Htj] by done. clearbody j. rewrite Hj in Hok.
  eapply ld_bind; [apply ld_AllotFormRecord; [done| |exact Hr]|].
  { rewrite Hj. by injection E1 as ->. }
  intros s2 E2. rewrite E1 in E2. unfold AcquireProviderFormInfoAsync. rewrite (proj2 (Z.leb_gt _ _) Hid).
  eapply ld_bind; [apply ld_connect|]. intros s3 E3. rewrite E2 in E3. change (failed ERR_OK) with false. cbv iota zeta.
  rewrite Htj. cbn [negb].
  assert (formDBInfos_ s3 = formDBInfos_ s) as Edb by (change (co_db (core s3) = formDBInfos_ s); by rewrite E3).
  eapply ld_bind; [apply ld_UpdateDBRecord; by rewrite Edb|]. intros s4 E4. rewrite E3 in E4. change (failed ERR_OK) with false. cbv iota.
  assert (timeSpeed_ (form_timers s4) = timeSpeed_ (form_timers s)) as Es by (change (co_speed (core s4) = timeSpeed_ (form_timers s)); by rewrite E4).
  assert (clientRecords_ s4 = clientRecords_ s1) as Ec by (change (co_clients (core s4) = clientRecords_ s1); by rewrite E4).
  assert (fr_formId r = id) as Hrid by apply Hok.
  eapply ld_bind; [apply ld_AddFormTimer_record; [by rewrite Hrid|by rewrite Es..]|]. intros s5 E5. apply wp_ret.
  assert (clientRecords_ s5 = clientRecords_ s4) as Ec' by (change (co_clients (core s5) = clientRecords_ s4); by rewrite E5).
  split; [done|]. rewrite E5, Ec', E4, Ec. rewrite Hj. by split.
Qed.

(** ** Its deletion *)

Lemma erase_emplaced {V} id (v : V) m : map_find id m = None → map_erase id (map_emplace id v m) = m.
Proof.
  intros Hf. unfold map_emplace. rewrite Hf. apply map_find_None in Hf. unfold map_erase.
  assert (List.filter (λ e : Z * V, negb (bool_decide (e.1 = id))) m = m) as Hm.
  { induction m as [|[k w] m IH]; [done|]. unfold keys in Hf. csimpl in Hf. apply not_elem_of_cons in Hf as [Hne Hf]. cbn.
    rewrite bool_decide_eq_false_2 by congruence. cbn. by rewrite IH. }
  rewrite <- Hm at 2. clear Hm Hf. generalize (λ e : Z * V, std_less id e.1). intros P. induction m as [|[k w] m IH]; cbn; [by rewrite bool_decide_eq_true_2|].
  destruct (P (k, w)); cbn; [by rewrite bool_decide_eq_true_2|]. by rewrite IH.
Qed.
Lemma erase_last {A} (P : A → bool) x l : List.find P l = None → P x = true → erase_first P (l ++ [x]) = l.
Proof. intros Hf Hx. induction l as [|y l IH]; cbn in *; [by rewrite Hx|]. destruct (P y); [done|]. by rewrite IH. Qed.
Lemma find_last {A} (P : A → bool) x l : List.find P l = None → P x = true → List.find P (l ++ [x]) = Some x.
Proof. intros Hf Hx. induction l as [|y l IH]; cbn in *; [by rewrite Hx|]. destruct (P y); [done|]. by rewrite IH. Qed.

Lemma CreateFormRecord_user i uid u r : CreateFormRecord i uid u = Returned r →
  fr_userId r = u ∧ fr_formUserUids r = [uid] ∧ fr_bundleName r = fi_providerBundleName i ∧ fr_abilityName r = fi_abilityName i.
Proof.
  unfold CreateFormRecord. cbv zeta. cbn [fr_isEnableUpdate record_of_item]. destruct (fi_updateFlag i); [|by intros [= <-]].
  unfold ParseUpdateConfig, ParseAtTimerConfig. destruct (_ <? _); [by intros [= <-]|]. cbv zeta.
  destruct (time_of_config _) as [[[hour min]|]| |]; [by intros [= <-]..|done|done].
Qed.

Lemma DeleteHostRecord_core t id s : wp (DeleteHostRecord t id) (λ _ s', core s' = (core s) <| co_clients := clientRecords_ s' |>) s.
Proof.
  unfold DeleteHostRecord, CleanResource. apply wp_bind, wp_gets. destruct (List.find _ _) as [h|]; [|by apply wp_ret]. cbv zeta.
  apply wp_bind. destruct (IsEmpty _); [|by apply wp_modify, wp_ret]. apply wp_bind.
  destruct (fh_clientStub _); [destruct (fh_deathRecipient _)|]; (apply wp_modify || apply wp_ret); by apply wp_modify.
Qed.

(** No other form is matched in its place. *)
Definition fresh_id id s : Prop :=
  0 < id ∧ (∀ e, e ∈ formRecords_ s → low_word e.1 ≠ low_word id) ∧ List.find (has_id id) (formDBInfos_ s) = None ∧
  kv_store s !! id = None ∧ (id ∉ tempForms_ s) ∧ ∀ t, (t, id) ∉ hosting (clientRecords_ s).
Lemma fresh_absent id s : fresh_id id s → map_find id (formRecords_ s) = None.
Proof.
  intros (_ & Hl & _). destruct (map_find id (formRecords_ s)) as [r|] eqn:E; [|done]. apply map_find_elem in E. by destruct (Hl _ E).
Qed.
Lemma FindMatched_fresh id s s1 r : fresh_id id s → formRecords_ s1 = map_emplace id r (formRecords_ s) →
  ∀ Q, Q id s1 → wp (FindMatchedFormId id) Q s1.
Proof.
  intros (_ & Hl & _) E Q HQ. unfold FindMatchedFormId. apply wp_gets. destruct (negb _); [done|]. rewrite E.
  destruct (List.find _ _) as [e|] eqn:Ef; [|done]. apply find_Some_elem in Ef as [Hin He]. apply Z.eqb_eq in He.
  apply elem_emplace in Hin as [->|Hin]; [done|]. by destruct (Hl _ Hin).
Qed.

Lemma ld_release_module b m s : leads (release_module b m) tt (core s) s.
Proof. unfold release_module, GetMatchCount. apply wp_bind, wp_gets. by destruct (_ =? 0). Qed.

Lemma ld_HandleDeleteFormCache d uid id s : db_formUserUids d = [uid] → db_abilityName d ≠ "" → db_bundleName d ≠ "" →
  dynamicRefreshTasks_ (form_timers s) = [] →
  leads (HandleDeleteFormCache ck d uid id) ERR_OK ((core s) <| co_records ::= map_erase id |> <| co_db ::= erase_first (has_id id) |>
    <| co_store ::= delete id |>) s.
Proof.
  intros Hu Ha Hb Hd. unfold HandleDeleteFormCache. cbv zeta.
  assert (fr_formUserUids (record_of (Remove_uid uid d)) = []) as ->.
  { change (list_erase_val uid (db_formUserUids d) = []). rewrite Hu. unfold list_erase_val. cbn. by rewrite bool_decide_eq_true_2. }
  eapply ld_bind; [apply ld_NotifyProviderFormDelete; [exact Ha|exact Hb]|]. intros s1 E1. change (failed ERR_OK) with false. cbv iota.
  apply wp_bind. unfold DeleteFormRecord. apply wp_bind, wp_modify, wp_ret.
  eapply ld_bind; [apply ld_DeleteFormInfo|]. intros s2 E2. change (failed ERR_OK) with false. cbv iota.
  eapply ld_bind; [apply ld_release_module|]. intros s3 E3. apply wp_bind. unfold DeleteData. apply wp_bind, wp_modify, wp_ret.
  set (s4 := update cacheImageMap_ _ _). assert (core s4 = core s3) as E4 by done. clearbody s4.
  assert (core s4 = (core s) <| co_records ::= map_erase id |> <| co_db ::= erase_first (has_id id) |> <| co_store ::= delete id |>) as E5.
  { rewrite E4, E3, E2. change (core (update formRecords_ (map_erase id) s1)) with ((core s1) <| co_records ::= map_erase id |>). by rewrite E1. }
  eapply ld_bind; [apply ld_remove_timer|].
  { change (co_asked (core s4) = []). rewrite E5. exact Hd. }
  intros s6 E6. apply wp_ret. by rewrite E6.
Qed.

Lemma DeleteForm_with_form uid t id r s s1 : fresh_id id s → fr_userId r = GetCurrentUserId uid → fr_formUserUids r = [uid] →
  fr_abilityName r ≠ "" → fr_bundleName r ≠ "" → dynamicRefreshTasks_ (form_timers s) = [] → clients_ok (clientRecords_ s1) →
  hosting (clientRecords_ s1) = {[(t, id)]} ∪ hosting (clientRecords_ s) → core s1 = with_form t id r (clientRecords_ s1) (core s) →
  wp (DeleteForm ck uid (Some t) id) (λ e s2, e = ERR_OK ∧ hosting (clientRecords_ s2) = hosting (clientRecords_ s) ∧
    core s2 = (core s) <| co_clients := clientRecords_ s2 |>) s1.
Proof.
  intros Hf Hu Huids Ha Hb Hd Hc Hh E1. pose proof Hf as (Hid & _ & Hdb & Hkv & Htemp & Hn). unfold DeleteForm.
  rewrite (proj2 (Z.leb_gt _ _) Hid), bool_decide_eq_false_2 by done. cbn [orb]. apply wp_bind.
  apply (FindMatched_fresh id s s1 r Hf); [by injection E1|]. unfold ExistTempForm. apply wp_bind, wp_gets.
  assert (tempForms_ s1 = tempForms_ s) as -> by by injection E1. rewrite bool_decide_eq_false_2 by done.
  unfold HandleDeleteForm, GetDBRecord. apply wp_bind, wp_gets.
  assert (formDBInfos_ s1 = formDBInfos_ s ++ [FormDBInfo_of id r]) as -> by by injection E1.
  rewrite find_last by (done || apply Z.eqb_refl). cbv zeta. unfold owns. cbn [db_userId db_formUserUids FormDBInfo_of].
  rewrite Hu, Huids, Z.eqb_refl, bool_decide_eq_true_2 by set_solver. cbn [andb negb].
  eapply ld_bind; [apply ld_HandleDeleteFormCache; [exact Huids|exact Ha|exact Hb|]|].
  { change (co_asked (core s1) = []). rewrite E1. exact Hd. }
  intros s2 E2. change (failed ERR_OK) with false. cbv iota.
  assert (clientRecords_ s2 = clientRecords_ s1) as Ec2 by (change (co_clients (core s2) = clientRecords_ s1); by rewrite E2).
  apply wp_bind. eapply wp_mono; [apply wp_and; [apply (DeleteHostRecord_pairs t id s2); by rewrite Ec2|apply DeleteHostRecord_core]|].
  intros b s3 [Hh3 E3]. apply wp_bind, wp_modify, wp_ret. split; [done|].
  assert (clientRecords_ s3 = co_clients (core s3)) as Ec3 by done. split.
  - change (hosting (clientRecords_ s3) = hosting (clientRecords_ s)). rewrite Hh3, Ec2, Hh. specialize (Hn t). set_solver.
  - change (core s3 = (core s) <| co_clients := clientRecords_ s3 |>). rewrite E3, E2, E1. unfold with_form, update. cbn.
    pose proof (erase_emplaced id r _ (fresh_absent _ _ Hf)) as Ee. unfold map_erase in Ee. rewrite Ee, erase_last by (done || apply Z.eqb_refl). by rewrite delete_insert_id.
Qed.

(** The generated id: the hash of the hardware is always zero. *)
Lemma generated_id z : wrap_i64 (Z.lor (wrap_u64 0) (Z.land z 2147483647)) = Z.land z 2147483647 ∧ 0 ≤ Z.land z 2147483647.
Proof.
  change (wrap_u64 0) with 0. rewrite Z.lor_0_l. change 2147483647 with (Z.ones 31). rewrite Z.land_ones by lia.
  pose proof (Z.mod_pos_bound z (2 ^ 31)). split; [|lia]. unfold wrap_i64. rewrite Z.mod_small; lia.
Qed.

Lemma AddForm_new uid t w i s : forms_ok s → fw_temporary w = false → udidHash_ s = 0 → (timeSpeed_ (form_timers s) | MIN_PERIOD) →
  check_enough uid (GetCurrentUserId uid) 0 0 (formRecords_ s) = ERR_OK →
  GetFormConfigInfo uid w s = Returned (inr i, s) → IsValidItem i = true → fi_temporaryFlag i = false →
  time_read (fi_scheduledUpdateTime i) → fresh_id (Z.land (env_time_hash (forms_trace s)) 2147483647) s →
  let id := Z.land (env_time_hash (forms_trace s)) 2147483647 in
  ∃ r s1, AddForm ck uid (Some t) 0 w s = Returned ((ERR_OK, Some (None, id, r)), s1) ∧
    CreateFormRecord (i <| fi_formId := 0 |> <| fi_deviceId := fw_deviceId w |> <| fi_formId := id |>) uid (GetCurrentUserId uid) = Returned r ∧
    hosting (clientRecords_ s1) = {[(t, id)]} ∪ hosting (clientRecords_ s) ∧ core s1 = with_form t id r (clientRecords_ s1) (core s).
Proof.
  intros Hs Ht Hudid Hdiv Hn Hw Hv Hti Hread Hf. cbv zeta. set (id := Z.land _ _) in *.
  set (j := update fi_deviceId _ (update fi_formId _ i)).
  pose (j' := j <| fi_formId := id |>). destruct (CreateFormRecord_returns j' uid (GetCurrentUserId uid) Hread) as [r Hr]. subst j'.
  assert (wp (AddForm ck uid (Some t) 0 w) (λ x s1, x = (ERR_OK, Some (None, id, r)) ∧
    hosting (clientRecords_ s1) = {[(t, id)]} ∪ hosting (clientRecords_ s) ∧ core s1 = with_form t id r (clientRecords_ s1) (core s)) s)
    as (x & s1 & E & -> & Hh & Ec)%wp_run. 2: { exists r, s1. by split_and!. }
  unfold AddForm. rewrite bool_decide_eq_false_2 by done. cbn [Z.ltb Z.compare orb]. rewrite Ht. cbn [andb]. change (0 =? 0) with true. cbv iota.
  unfold CheckEnoughForm. apply wp_bind, wp_gets. rewrite Hn. change (failed ERR_OK) with false. cbv iota.
  apply wp_bind. unfold wp at 1. rewrite Hw. cbv zeta. change (IsValidItem (i <| fi_formId := 0 |>)) with (IsValidItem i). rewrite Hv. cbn [negb].
  unfold GenerateUdidHash. apply wp_bind, wp_bind, wp_gets. rewrite Hudid. change (negb (0 =? INVALID_UDID_HASH)) with false. cbv iota.
  apply wp_bind, wp_modify, wp_ret. change (Z.shiftl (Z.land 0 16777215) 32) with 0. unfold AllotFormByInfo, GenerateFormId. apply wp_bind, wp_gets.
  destruct (generated_id (env_time_hash (forms_trace s))) as [Eid Hge]. fold id in Eid, Hge. cbv beta.
  match goal with |- wp (if ?x <? 0 then _ else _) _ _ => replace x with id by (symmetry; exact Eid) end.
  rewrite (proj2 (Z.ltb_ge _ _) Hge). pose proof Hf as (Hid & _ & Hdb & _).
  pose (s0 := s <| udidHash_ := 0 |>).
  assert (clients_ok (clientRecords_ s0)) as Hc by exact (ok_clients_ok s Hs).
  assert (map_find id (formRecords_ s0) = None) as Hfind by exact (fresh_absent id s Hf).
  refine (wp_mono _ _ _ _ (ld_AddNewFormRecord uid t j id r s0 Hc Hid Hti Hfind Hdb (tm_speed _ (proj1 (fm_timers s Hs))) Hdiv Hr) _).
  by intros x s1 (-> & Hh & Ec).
Qed.

(** C8: adding a new form and deleting it again leaves the forms as they were.
    What is asked for: the state is well formed, the form of the request and the item
    that is offered for it are not temporary, the item is found, is valid and has a time
    of the day that can be read, the generated id is new and not salted, the numbers of
    forms are below their limits, no form has a refresh asked for at a moment of its own
    (with one the removal may not end, [RemoveFormTimer_hangs]), the time speed divides
    the shortest period, and the store, the connections, the agents, the timers and the
    local time do what they are asked. Then both calls succeed, the host shows the form
    in between, and the records, the temporary forms, the database in memory and in the
    store and who shows what are those of before. *)
Theorem AddForm_DeleteForm uid t w i s : forms_ok s → fw_temporary w = false → udidHash_ s = 0 →
  dynamicRefreshTasks_ (form_timers s) = [] → (timeSpeed_ (form_timers s) | MIN_PERIOD) →
  check_enough uid (GetCurrentUserId uid) 0 0 (formRecords_ s) = ERR_OK →
  GetFormConfigInfo uid w s = Returned (inr i, s) → IsValidItem i = true → fi_temporaryFlag i = false →
  time_read (fi_scheduledUpdateTime i) → fresh_id (Z.land (env_time_hash (forms_trace s)) 2147483647) s →
  let id := Z.land (env_time_hash (forms_trace s)) 2147483647 in
  ∃ r s1 s2, AddForm ck uid (Some t) 0 w s = Returned ((ERR_OK, Some (None, id, r)), s1) ∧ (t, id) ∈ hosting (clientRecords_ s1) ∧
    DeleteForm ck uid (Some t) id s1 = Returned (ERR_OK, s2) ∧ core s2 = (core s) <| co_clients := clientRecords_ s2 |> ∧
    hosting (clientRecords_ s2) = hosting (clientRecords_ s).
Proof.
  intros Hs Ht Hudid Hd Hdiv Hn Hw Hv Hti Hread Hf. cbv zeta. destruct (AddForm_new uid t w i s) as (r & s1 & E1 & Hr & Hh & Ec); [done..|].
  set (id := Z.land _ _) in *. exists r, s1.
  destruct (CreateFormRecord_user _ _ _ _ Hr) as (Hu & Huids & Hb & Ha).
  assert (fr_abilityName r ≠ "" ∧ fr_bundleName r ≠ "") as [Hna Hnb].
  { rewrite Hb, Ha. unfold IsValidItem in Hv. rewrite negb_true_iff, !orb_false_iff, !String.eqb_neq in Hv. tauto. }
  assert (clients_ok (clientRecords_ s1)) as Hc1.
  { apply ok_clients_ok. exact (kf_AddForm ck uid (Some t) 0 w s Hs _ _ E1). }
  destruct (wp_run _ _ _ (DeleteForm_with_form uid t id r s s1 Hf Hu Huids Hna Hnb Hd Hc1 Hh Ec)) as (e & s2 & E2 & -> & Hh2 & Ec2).
  exists s2. split_and!; [done| |done..]. rewrite Hh. set_solver.
Qed.
End life.

(** * Instances *)

#[local] Existing Instance demo_forms.
#[local] Existing Instance demo_bundles.

Definition card_item : FormItemInfo :=
  match GetFormConfigInfo 20010002 card_want (forms_after installed) with Returned (inr i, _) => i | _ => new_item end.

Lemma AddForm_DeleteForm_witness : ∃ r s1 s2,
  AddForm morning 20010002 (Some 1%positive) 0 card_want (forms_after installed) = Returned ((ERR_OK, Some (None, 4096, r)), s1) ∧
  (1%positive, 4096) ∈ hosting (clientRecords_ s1) ∧ DeleteForm morning 20010002 (Some 1%positive) 4096 s1 = Returned (ERR_OK, s2) ∧
  formRecords_ s2 = [] ∧ hosting (clientRecords_ s2) = ∅.
Proof.
  destruct (@AddForm_DeleteForm demo_forms demo_bundles (λ _, eq_refl) (λ _, eq_refl) (λ _, eq_refl) (λ _, eq_refl) morning ltac:(by eexists) 20010002 1%positive card_want
    card_item (forms_after installed)) as (r & s1 & s2 & E1 & H1 & E2 & Ec & H2).
  - apply (form_reachable_ok ∅), forms_after_reachable. vm_compute. reflexivity.
  - reflexivity.
  - vm_compute. reflexivity.
  - vm_compute. reflexivity.
  - exists MIN_PERIOD. vm_compute. reflexivity.
  - vm_compute. reflexivity.
  - vm_compute. reflexivity.
  - vm_compute. reflexivity.
  - vm_compute. reflexivity.
  - eexists. vm_compute. reflexivity.
  - split; [vm_compute; reflexivity|].
    assert (formRecords_ (forms_after installed) = [] ∧ tempForms_ (forms_after installed) = [] ∧ clientRecords_ (forms_after installed) = [])
      as (-> & -> & ->) by (vm_compute; done).
    split; [intros e He; by apply elem_of_nil in He|]. split; [vm_compute; reflexivity|]. split; [vm_compute; reflexivity|].
    split; [apply not_elem_of_nil|]. intros t. apply not_elem_of_empty.
  - exists r, s1, s2. split; [exact E1|]. split; [exact H1|]. split; [exact E2|]. split.
    + change (co_records (core s2) = []). rewrite Ec. vm_compute. reflexivity.
    + rewrite H2. vm_compute. reflexivity.
Defined.
