(* ===== verification/FormRefusals.v ===== *)
(** What the form manager refuses and what it keeps of the data it is sent: the limits
    on the number of forms, the forms of others, the data of an update. *)

From S2P Require Import Prelude CppString StdMap FormLimiter FormTimer FormTimerRun FormTimerClaims FormInfos FormRecords FormData FormStore FormProvider FormAdapter FormEvents FormDataRun FormRun FormClaims FormReturns.

#[local] Open Scope stdpp_scope.
#[local] Open Scope Z_scope.

Section refusals.
Context `{!FormEnv, !BundleEnv}.
Implicit Types (s : Forms) (r : FormRecord) (h : FormHostRecord) (id formId uid u : Z) (i : FormItemInfo) (ck : Clock).

(** * The limits *)

Definition is_of u (e : Z * FormRecord) : bool := (fr_userId e.2 =? u) && negb (fr_formTempFlg e.2).
Definition is_own uid u (e : Z * FormRecord) : bool := is_of u e && bool_decide (uid ∈ fr_formUserUids e.2).
Definition how_many {A} (P : A → bool) (l : list A) : Z := Z.of_nat (length (List.filter P l)).

Lemma how_many_cons {A} (P : A → bool) x l : how_many P (x :: l) = (if P x then 1 else 0) + how_many P l.
Proof. unfold how_many. cbn. destruct (P x); cbn; lia. Qed.
Lemma how_many_nonneg {A} (P : A → bool) l : 0 ≤ how_many P l.
Proof. unfold how_many. lia. Qed.
Lemma how_many_insert {A} (P Q : A → bool) x l : how_many P (insert_before Q x l) = how_many P (x :: l).
Proof. induction l as [|y l IH]; [done|]. cbn [insert_before]. destruct (Q y); [done|]. rewrite how_many_cons, IH, !how_many_cons. lia. Qed.
Lemma how_many_emplace P id r (l : list (Z * FormRecord)) : how_many P (map_emplace id r l) ≤ how_many P l + 1.
Proof.
  unfold map_emplace. destruct (map_find id l); [lia|]. rewrite how_many_insert, how_many_cons. destruct (P (id, r)); lia.
Qed.

(** Refused at the limit, whichever of the two is met first. *)
Lemma check_enough_spec uid u n k l : n < MAX_FORMS → k < MAX_RECORD_PER_APP →
  let code := check_enough uid u n k l in
  (code = ERR_OK ↔ n + how_many (is_of u) l < MAX_FORMS ∧ k + how_many (is_own uid u) l < MAX_RECORD_PER_APP) ∧
  (code = ERR_OK ∨ code = FORM_MAX_SYSTEM_FORMS ∨ code = FORM_MAX_FORMS_PER_CLIENT).
Proof.
  cbv zeta. revert n k. induction l as [|[id r] l IH]; intros n k Hn Hk; cbn [check_enough].
  { change (how_many (is_of u) []) with 0. change (how_many (is_own uid u) []) with 0. split; [|by left]. split; [lia|done]. }
  pose proof (how_many_nonneg (is_of u) l) as H1. pose proof (how_many_nonneg (is_own uid u) l) as H2. rewrite !how_many_cons.
  change (is_own uid u (id, r)) with (is_of u (id, r) && bool_decide (uid ∈ fr_formUserUids r)).
  change ((fr_userId r =? u) && negb (fr_formTempFlg r)) with (is_of u (id, r)). destruct (is_of u (id, r)); cbn [andb].
  - destruct (MAX_FORMS <=? n + 1) eqn:E; [apply Z.leb_le in E; split; [split; [done|lia]|tauto]|]. apply Z.leb_gt in E.
    destruct (bool_decide _).
    + destruct (MAX_RECORD_PER_APP <=? k + 1) eqn:E'; [apply Z.leb_le in E'; split; [split; [done|lia]|tauto]|]. apply Z.leb_gt in E'.
      destruct (IH (n + 1) (k + 1) E E') as [IH1 IH2]. split; [|done]. rewrite IH1. lia.
    + destruct (IH (n + 1) k E Hk) as [IH1 IH2]. split; [|done]. rewrite IH1. lia.
  - destruct (IH n k Hn Hk) as [IH1 IH2]. split; [|done]. rewrite IH1. lia.
Qed.

(** ** Code that leaves the records of the forms *)

Definition same_records s s' : Prop := formRecords_ s' = formRecords_ s ∧ tempForms_ s' = tempForms_ s.
#[local] Instance same_records_preorder : PreOrder same_records.
Proof. split; [done|]. intros s1 s2 s3 [E1 T1] [E2 T2]. split; congruence. Qed.

Create HintDb records.
Ltac sr_step := lazymatch goal with
  | |- leaves _ (mret _) _ => apply leaves_ret, _
  | |- leaves _ (modify _) _ => apply leaves_modify; split; reflexivity
  | |- leaves _ (gets _) _ => apply leaves_gets, _
  | |- leaves _ (mbind _ _) _ => apply leaves_bind; [apply _| |intros ? ? _]
  | |- leaves _ (for_each _ _) _ => apply leaves_for_each; [apply _|intros]
  | |- leaves _ (match ?x with _ => _ end) _ => destruct x
  | |- leaves _ (let _ := _ in _) _ => cbv zeta
  end.
Ltac sr_steps := repeat first [solve [auto 1 with records nocore] | sr_step].

Lemma sr_zoom {T A} (get : Forms → T) set (m : ST T A) s : (∀ t s, same_records s (set t s)) →
  leaves same_records (zoom get set m) s.
Proof. intros Hset a s'. unfold zoom. destruct (m (get s)) as [[b t]| |]; [|done..]. intros [= <- <-]. apply Hset. Qed.
Lemma sr_timers {A} (m : ST FormTimers A) s : leaves same_records (on_timers m) s.
Proof. by apply sr_zoom. Qed.
Lemma sr_infos {A} (m : ST FormInfos A) s : leaves same_records (on_infos m) s.
Proof. by apply sr_zoom. Qed.
#[local] Hint Resolve sr_timers sr_infos : records.
Lemma sr_AllotFormHostRecord j t id uid s : leaves same_records (AllotFormHostRecord j t id uid) s.
Proof. unfold AllotFormHostRecord, CreateHostRecord, CreateRecord, set_clients, form_emit. sr_steps. Qed.
Lemma sr_acquire id j s : leaves same_records (AcquireProviderFormInfoAsync id j) s.
Proof. unfold AcquireProviderFormInfoAsync, connect, form_emit. sr_steps. Qed.
Lemma sr_UpdateDBRecord id r s : leaves same_records (UpdateDBRecord id r) s.
Proof.
  unfold UpdateDBRecord, SaveFormInfo, SaveFormInfoNolock, ModifyStorageFormInfo, SaveStorageFormInfo, DeleteStorageFormInfo, kv_do, form_emit.
  sr_steps.
Qed.
Lemma sr_AddFormTimer_record ck r s : leaves same_records (AddFormTimer_record ck r) s.
Proof. unfold AddFormTimer_record. sr_steps. Qed.
Lemma sr_GetFormConfigInfo uid w s : leaves same_records (GetFormConfigInfo uid w) s.
Proof. unfold GetFormConfigInfo, GetFormInfo. sr_steps. Qed.
Lemma sr_GenerateUdidHash s : leaves same_records GenerateUdidHash s.
Proof. unfold GenerateUdidHash. sr_steps. Qed.

(** At most one record and one temporary form more. *)
Definition one_record s s' : Prop := formRecords_ s' = formRecords_ s ∨ ∃ id r, formRecords_ s' = map_emplace id r (formRecords_ s).
Definition one_temp s s' : Prop := tempForms_ s' = tempForms_ s ∨ ∃ id, tempForms_ s' = tempForms_ s ++ [id].
Definition one_more s s' : Prop := one_record s s' ∧ one_temp s s'.

Lemma one_more_same s s' : same_records s s' → one_more s s'.
Proof. intros [E T]. split; by left. Qed.
Lemma one_more_around s0 s s' s1 : same_records s0 s → one_more s s' → same_records s' s1 → one_more s0 s1.
Proof. intros [E T] [H1 H2] [E' T']. unfold one_more, one_record, one_temp. rewrite E', T', <- E, <- T. by split. Qed.

Lemma om_AllotFormRecord j uid u s x s' : AllotFormRecord j uid u s = Returned (x, s') → one_more s s'.
Proof.
  unfold AllotFormRecord, ExistTempForm. intros (b & s0 & [= <- <-] & E)%ST_bind_Returned. apply ST_bind_Returned in E as ([] & s1 & E1 & E).
  assert (formRecords_ s1 = formRecords_ s ∧ one_temp s s1) as [E1' Ht].
  { destruct (_ && _) in E1; injection E1 as <-; (split; [done|]); [right; by eexists|by left]. }
  unfold mbind, ST_bind, gets in E. destruct (map_find _ _) as [r|]; [injection E as <- <-; split; [by left|done]|].
  unfold lift_outcome in E. destruct (CreateFormRecord j uid u) as [r| |]; [|done..]. injection E as <- <-. split; [|done]. right.
  exists (fi_formId j), r. by rewrite <- E1'.
Qed.
Lemma om_AddNewFormRecord ck uid t j id s x s' : AddNewFormRecord ck uid t j id s = Returned (x, s') → one_more s s'.
Proof.
  unfold AddNewFormRecord. cbv zeta. intros (ok & s1 & E1 & E)%ST_bind_Returned. apply sr_AllotFormHostRecord in E1.
  destruct (negb ok); [injection E as <- <-; by apply one_more_same|]. apply ST_bind_Returned in E as (r & s2 & E2 & E). apply om_AllotFormRecord in E2.
  assert (same_records s2 s') as E3; [|by eapply one_more_around].
  revert E. generalize (r : FormRecord). intros r'. match goal with |- ?m s2 = _ → _ => cut (leaves same_records m s2); [intros Hl; apply Hl|] end.
  apply leaves_bind; [apply _|apply sr_acquire|]. intros e s3 _. destruct (failed e); [apply leaves_ret, _|]. cbv zeta.
  apply leaves_bind; [apply _|destruct (negb _); [apply sr_UpdateDBRecord|apply leaves_ret, _]|]. intros e' s4 _.
  destruct (failed e'); [apply leaves_ret, _|]. apply leaves_bind; [apply _|apply sr_AddFormTimer_record|]. intros. apply leaves_ret, _.
Qed.

(** ** The codes that name a limit *)

Definition limit_code (e : FormErr) : Prop :=
  e = FORM_MAX_SYSTEM_FORMS ∨ e = FORM_MAX_FORMS_PER_CLIENT ∨ e = FORM_MAX_SYSTEM_TEMP_FORMS.
#[local] Instance limit_code_dec e : Decision (limit_code e).
Proof. unfold limit_code. apply _. Defined.

(** Every answer of the code is one of [P]. *)
Definition yields {A} (P : A → Prop) (m : FM A) : Prop := ∀ s a s', m s = Returned (a, s') → P a.
Lemma yields_ret {A} (P : A → Prop) a : P a → yields P (mret a).
Proof. by intros HP s b s' [= <- _]. Qed.
Lemma yields_bind {A B} (P : B → Prop) (m : FM A) k : (∀ a, yields P (k a)) → yields P (m ≫= k).
Proof. intros Hk s b s' (a & s1 & _ & E)%ST_bind_Returned. by eapply Hk. Qed.
Lemma yields_then {A B} (Q : A → Prop) (P : B → Prop) (m : FM A) k : yields Q m → (∀ a, Q a → yields P (k a)) → yields P (m ≫= k).
Proof. intros Hm Hk s b s' (a & s1 & E1 & E)%ST_bind_Returned. eapply Hk; [by eapply Hm|done]. Qed.

Ltac yields_steps := repeat lazymatch goal with
  | |- yields _ (mret _) => apply yields_ret; try by (repeat case_match; intros [?|[?|?]])
  | |- yields _ (mbind _ _) => apply yields_bind; intros ?
  | |- yields _ (match ?x with _ => _ end) => destruct x
  | |- yields _ (let _ := _ in _) => cbv zeta
  end.
#[local] Abbreviation unlimited := (λ e, ¬ limit_code e).
#[local] Abbreviation unlimited_answer := (λ x : FormErr * option FormJsInfo, ¬ limit_code x.1).

Definition unlimited_or {A} (x : FormErr + A) : Prop := match x with inl e => ¬ limit_code e | inr _ => True end.
Lemma ul_GetBundleInfo w : unlimited_or (GetBundleInfo w).
Proof. unfold GetBundleInfo. repeat case_match; try done; by intros [?|[?|?]]. Qed.
Lemma ul_GetFormItemInfo uid w b f : unlimited_or (GetFormItemInfo uid w b f).
Proof.
  unfold GetFormItemInfo. destruct (negb _); [by intros [?|[?|?]]|]. cut (unlimited_or (CreateFormItemInfo uid b f)); [by destruct (CreateFormItemInfo _ _ _)|].
  unfold CreateFormItemInfo. repeat case_match; try done; by intros [?|[?|?]].
Qed.
Lemma yl_GetFormInfo w : yields unlimited_or (GetFormInfo w).
Proof. unfold GetFormInfo. yields_steps. all: unfold unlimited_or; repeat case_match; simplify_eq; try done; by intros [?|[?|?]]. Qed.
Lemma yl_GetFormConfigInfo uid w : yields unlimited_or (GetFormConfigInfo uid w).
Proof.
  unfold GetFormConfigInfo. pose proof (ul_GetBundleInfo w) as Hb. destruct (GetBundleInfo w) as [e|[b name]]; [by apply yields_ret|].
  apply (yields_then unlimited_or); [apply yl_GetFormInfo|]. intros [e|f] Hf; apply yields_ret; [done|].
  destruct (negb _); [by intros [?|[?|?]]|]. pose proof (ul_GetFormItemInfo uid w b f) as Hi. by destruct (GetFormItemInfo _ _ _ _).
Qed.
Lemma yl_kv_do op m : yields unlimited (kv_do op m).
Proof. unfold kv_do. yields_steps. Qed.
Lemma yl_SaveStorageFormInfo d : yields unlimited (SaveStorageFormInfo d).
Proof. unfold SaveStorageFormInfo. yields_steps. apply yl_kv_do. Qed.
Lemma yl_UpdateDBRecord id r : yields unlimited (UpdateDBRecord id r).
Proof.
  unfold UpdateDBRecord, SaveFormInfo, SaveFormInfoNolock. yields_steps; [|apply yl_SaveStorageFormInfo].
  unfold ModifyStorageFormInfo. apply (yields_then unlimited); [unfold DeleteStorageFormInfo; yields_steps; apply yl_kv_do|].
  intros e He. destruct (failed e); [by apply yields_ret|]. apply yields_bind. intros ?. by apply yields_ret.
Qed.
Lemma yl_AddFormTimer ck r : yields unlimited (AddFormTimer_record ck r).
Proof. unfold AddFormTimer_record. yields_steps. Qed.
Lemma yl_AddNewFormRecord ck uid t j id : yields unlimited_answer (AddNewFormRecord ck uid t j id).
Proof.
  unfold AddNewFormRecord. cbv zeta. apply yields_bind. intros ok. destruct (negb ok); [yields_steps|]. apply yields_bind. intros r.
  apply (yields_then unlimited). { unfold AcquireProviderFormInfoAsync, connect. yields_steps. }
  intros e He. destruct (failed e); [by apply yields_ret|]. apply (yields_then unlimited).
  { destruct (negb _); [apply yl_UpdateDBRecord|yields_steps]. }
  intros e' He'. destruct (failed e'); [by apply yields_ret|]. apply (yields_then unlimited); [apply yl_AddFormTimer|]. intros. by apply yields_ret.
Qed.

(** What a new form that is let in leaves. *)
Lemma let_in ck uid t w s code x s' :
  (if fw_temporary w then CheckTempEnoughForm else CheckEnoughForm uid (GetCurrentUserId uid)) s = Returned (code, s) →
  code = ERR_OK → AddForm ck uid (Some t) 0 w s = Returned (x, s') → one_more s s' ∧ ¬ limit_code x.1.
Proof.
  unfold AddForm. rewrite bool_decide_eq_false_2 by done. cbn [Z.ltb Z.compare orb]. rewrite andb_false_r. change (0 =? 0) with true. cbv iota.
  intros Ec -> E. apply ST_bind_Returned in E as (code & s0 & E0 & E). rewrite Ec in E0. injection E0 as <- <-.
  change (failed ERR_OK) with false in E. cbv iota in E.
  apply ST_bind_Returned in E as (config & s1 & E1 & E). pose proof (yl_GetFormConfigInfo _ _ _ _ _ E1) as Hc. apply sr_GetFormConfigInfo in E1.
  destruct config as [e|i]; [injection E as <- <-; split; [by apply one_more_same|done]|]. cbv zeta in E.
  destruct (negb _); [injection E as <- <-; split; [by apply one_more_same|by intros [?|[?|?]]]|].
  apply ST_bind_Returned in E as (b & s2 & E2 & E). apply sr_GenerateUdidHash in E2. assert (same_records s s2) as E12 by by transitivity s1.
  unfold AllotFormByInfo in E. apply ST_bind_Returned in E as (id & s3 & [= <- <-] & E).
  destruct (_ <? 0); [injection E as <- <-; split; [by apply one_more_same|by intros [?|[?|?]]]|].
  split; [|by eapply yl_AddNewFormRecord]. eapply (one_more_around s s2 s'); [done|by eapply om_AddNewFormRecord|done].
Qed.

(** C11: a host that asks for a new form is refused with a code that names a limit, and
    nothing changes, exactly when the limit is met: 256 temporary forms for a temporary
    one, 512 forms of the user or 256 of them of the host for another. A request that
    is not refused so may fail for another reason; whatever becomes of it the numbers
    are within the limits afterwards. *)
Theorem AddForm_limits ck uid t w s :
  let u := GetCurrentUserId uid in
  let users s := how_many (is_of u) (formRecords_ s) in
  let own s := how_many (is_own uid u) (formRecords_ s) in
  let temps s := Z.of_nat (length (tempForms_ s)) in
  if (if fw_temporary w then 256 <=? temps s else (512 <=? users s) || (256 <=? own s))
  then ∃ e, AddForm ck uid (Some t) 0 w s = Returned ((e, None), s) ∧ limit_code e
  else ∀ x s', AddForm ck uid (Some t) 0 w s = Returned (x, s') → ¬ limit_code x.1 ∧
    if fw_temporary w then temps s' ≤ 256 else users s' ≤ 512 ∧ own s' ≤ 256.
Proof.
  cbv zeta. set (u := GetCurrentUserId uid).
  assert (∀ code, (if fw_temporary w then CheckTempEnoughForm else CheckEnoughForm uid u) s = Returned (code, s) → limit_code code →
    AddForm ck uid (Some t) 0 w s = Returned ((code, None), s)) as Hover.
  { intros code E Hl. unfold AddForm. rewrite bool_decide_eq_false_2 by done. cbn [Z.ltb Z.compare orb]. rewrite andb_false_r.
    change (0 =? 0) with true. cbv iota. fold u. unfold mbind, ST_bind. rewrite E. unfold failed.
    rewrite bool_decide_eq_false_2; [done|]. intros ->. by destruct Hl as [?|[?|?]]. }
  pose proof (let_in ck uid t w s) as Hin. fold u in Hin. destruct (fw_temporary w).
  - unfold CheckTempEnoughForm, gets in *. change MAX_TEMP_FORMS with 256 in *. destruct (256 <=? _) eqn:E.
    + eexists. split; [by apply Hover; [|right; right]|right; by right].
    + intros x s' Ex. destruct (Hin _ x s' eq_refl eq_refl Ex) as [[_ Ht] Hx]. split; [done|]. apply Z.leb_gt in E.
      destruct Ht as [->|[id ->]]; [lia|]. rewrite length_app. cbn. lia.
  - destruct (check_enough_spec uid u 0 0 (formRecords_ s)) as [Hcode Hcodes]; [done..|]. rewrite !Z.add_0_l in Hcode.
    unfold CheckEnoughForm, gets in *. change MAX_FORMS with 512 in *. change MAX_RECORD_PER_APP with 256 in *.
    set (code := check_enough _ _ _ _ _) in *. destruct (_ || _) eqn:E.
    + exists code. assert (limit_code code) as Hl; [|split; [by apply Hover|done]].
      destruct Hcodes as [Ec|[Ec|Ec]]; [|by left|by right; left]. apply Hcode in Ec. lia.
    + apply orb_false_iff in E as [E1%Z.leb_gt E2%Z.leb_gt]. intros x s' Ex.
      destruct (Hin _ x s' eq_refl (proj2 Hcode (conj E1 E2)) Ex) as [[Hr _] Hx]. split; [done|]. destruct Hr as [->|(id & r & ->)]; [lia|].
      pose proof (how_many_emplace (is_of u) id r (formRecords_ s)). pose proof (how_many_emplace (is_own uid u) id r (formRecords_ s)). lia.
Qed.

(** * Forms of others *)

Lemma padded_id id : 0 < id < 2 ^ 63 →
  (if Z.land (wrap_u64 id) 18446744069414584320 =? 0 then wrap_i64 (Z.lor (wrap_u64 0) (wrap_u64 id)) else id) = id.
Proof.
  intros Hid. destruct (_ =? 0); [|done]. unfold wrap_u64, wrap_i64. rewrite (Z.mod_small id), Z.mod_0_l, Z.lor_0_l by lia.
  rewrite Z.mod_small; lia.
Qed.
Lemma AllotFormById_foreign ck uid t i s0 s Q : let id := fi_formId i in 0 < id < 2 ^ 63 →
  (∀ r, map_find id (formRecords_ s) = Some r → fr_formTempFlg r = false ∧ fr_userId r ≠ GetCurrentUserId uid ∧ (uid ∉ fr_formUserUids r)) →
  (∀ d, List.find (has_id id) (formDBInfos_ s) = Some d → db_userId d ≠ GetCurrentUserId uid ∧ (uid ∉ db_formUserUids d)) →
  String.eqb (fi_providerBundleName i) "" = false → String.eqb (fi_abilityName i) "" = false → s0 = s <| udidHash_ := 0 |> →
  (∀ s', tables_eq s s' →
    forms_trace s' = forms_trace s ++ [ConnectServiceAbility (fi_providerBundleName i) (fi_abilityName i) (DeleteConnection id)] →
    Q (FORM_NOT_EXIST_ID, None) s') →
  wp (AllotFormById ck uid t i) Q s0.
Proof.
  cbv zeta. intros Hid Hr Hdb Hb Ha -> HQ. unfold AllotFormById, PaddingUDIDHash, GetUdidHash. apply wp_bind, wp_bind, wp_gets, wp_ret.
  change (udidHash_ (s <| udidHash_ := 0 |>)) with 0. rewrite padded_id by done. unfold GetFormRecord. apply wp_bind, wp_gets.
  change (formRecords_ (s <| udidHash_ := 0 |>)) with (formRecords_ s). cbv zeta. unfold IsCallingUidValid.
  set (find_in_db := mbind _ _). assert (wp find_in_db Q (s <| udidHash_ := 0 |>)) as Hdbs.
  { subst find_in_db. unfold GetDBRecord. apply wp_bind, wp_gets. change (formDBInfos_ (s <| udidHash_ := 0 |>)) with (formDBInfos_ s).
    set (usable := match List.find _ _ with Some _ => _ | None => _ end). assert (usable = false) as ->.
    { subst usable. destruct (List.find _ _) as [d|]; [|done]. destruct (Hdb d eq_refl) as [Hu Hn]. apply Z.eqb_neq in Hu as ->.
      by rewrite bool_decide_eq_false_2. }
    apply wp_bind. unfold NotifyProviderFormDelete, connect.
    match goal with |- context[String.eqb (fr_abilityName ?r) ""] => change (fr_abilityName r) with (fi_abilityName i); change (fr_bundleName r) with (fi_providerBundleName i) end.
    rewrite Ha, Hb. apply wp_bind, wp_gets, wp_bind, wp_modify, wp_ret, wp_ret. apply HQ; [by repeat split|done]. }
  destruct (map_find _ _) as [r|]; [|exact Hdbs]. destruct (Hr r eq_refl) as (-> & Hu & Hn). apply Z.eqb_neq in Hu as ->.
  by rewrite bool_decide_eq_false_2.
Qed.

(** A host that asks for a form by the id of one it may not use, since
    neither the user nor the host is one of the form, is told that there is no such
    form, and none of the tables changes; but the provider it names is told first that
    the form with this id is deleted. *)
Theorem AddForm_foreign ck uid t id w i s : 0 < id < 2 ^ 63 → fw_temporary w = false → udidHash_ s = 0 →
  GetFormConfigInfo uid w s = Returned (inr i, s) → IsValidItem i = true →
  (∀ r, map_find id (formRecords_ s) = Some r → fr_formTempFlg r = false ∧ fr_userId r ≠ GetCurrentUserId uid ∧ (uid ∉ fr_formUserUids r)) →
  (∀ d, List.find (has_id id) (formDBInfos_ s) = Some d → db_userId d ≠ GetCurrentUserId uid ∧ (uid ∉ db_formUserUids d)) →
  ∃ s', AddForm ck uid (Some t) id w s = Returned ((FORM_NOT_EXIST_ID, None), s') ∧ tables_eq s s' ∧
    forms_trace s' = forms_trace s ++ [ConnectServiceAbility (fi_providerBundleName i) (fi_abilityName i) (DeleteConnection id)].
Proof.
  intros Hid Ht Hudid Hw Hv Hr Hdb.
  assert (wp (AddForm ck uid (Some t) id w) (λ x s', x = (FORM_NOT_EXIST_ID, None) ∧ tables_eq s s' ∧
    forms_trace s' = forms_trace s ++ [ConnectServiceAbility (fi_providerBundleName i) (fi_abilityName i) (DeleteConnection id)]) s)
    as (x & s' & E & -> & H')%wp_run; [|by exists s'].
  unfold AddForm. rewrite bool_decide_eq_false_2 by done. rewrite (proj2 (Z.ltb_ge id 0)) by lia. cbn [orb]. rewrite Ht. cbn [andb].
  rewrite (proj2 (Z.eqb_neq id 0)) by lia. apply wp_bind, wp_ret. change (failed ERR_OK) with false. cbv iota.
  apply wp_bind. unfold wp at 1. rewrite Hw. cbv zeta. change (IsValidItem (i <| fi_formId := id |>)) with (IsValidItem i).
  pose proof Hv as Hnames. unfold IsValidItem in Hnames. rewrite negb_true_iff, !orb_false_iff in Hnames. destruct Hnames as [[[Hb _] Ha] _].
  rewrite Hv. cbn [negb].
  unfold GenerateUdidHash. apply wp_bind, wp_bind, wp_gets. rewrite Hudid. change (negb (0 =? INVALID_UDID_HASH)) with false. cbv iota.
  apply wp_bind, wp_modify, wp_ret. change (Z.shiftl (Z.land 0 16777215) 32) with 0. rewrite (proj2 (Z.ltb_lt 0 id)) by lia.
  pose (j := i <| fi_formId := id |> <| fi_deviceId := fw_deviceId w |>).
  refine (AllotFormById_foreign ck uid (Some t) j _ s _ Hid Hr Hdb Hb Ha eq_refl _). intros s' E1 E2. by split_and!.
Qed.

(** * The data of an update *)

(** What is kept of the data of a form. *)
Definition same_data s s' : Prop := cacheData_ s' = cacheData_ s ∧ cacheImageMap_ s' = cacheImageMap_ s.
#[local] Instance same_data_preorder : PreOrder same_data.
Proof. split; [by split|]. intros s1 s2 s3 [E1 E2] [E3 E4]. split; congruence. Qed.
(** A record that is shown and has no data. *)
Definition shown id s : Prop := ∃ r, map_find id (formRecords_ s) = Some r ∧ fr_isInited r = true ∧ fr_needRefresh r = false.
Definition keeps_shown id s s' : Prop := same_data s s' ∧ (shown id s → shown id s').
#[local] Instance keeps_shown_preorder id : PreOrder (keeps_shown id).
Proof. split; [by split|]. intros s1 s2 s3 [E1 H1] [E2 H2]. split; [by etransitivity|tauto]. Qed.

Ltac ks_step := lazymatch goal with
  | |- leaves _ (mret _) _ => apply leaves_ret, _
  | |- leaves _ (modify _) _ => apply leaves_modify; by split
  | |- leaves _ (gets _) _ => apply leaves_gets, _
  | |- leaves _ (mbind _ _) _ => apply leaves_bind; [apply _| |intros ? ? _]
  | |- leaves _ (match ?x with _ => _ end) _ => destruct x
  | |- leaves _ (let _ := _ in _) _ => cbv zeta
  end.
Lemma ks_OnUpdate f id r h s : leaves (keeps_shown f) (OnUpdate id r h) s.
Proof. unfold OnUpdate, form_emit. repeat ks_step. Qed.
Lemma ks_update_hosts f id r l s : leaves (keeps_shown f) (update_hosts id r l) s.
Proof.
  revert s. induction l as [|h l IH]; intros s; cbn [update_hosts]; [apply leaves_ret, _|]. cbv zeta.
  apply leaves_bind; [apply _|destruct (_ || _ || _); [apply ks_OnUpdate|apply leaves_ret, _]|]. intros _ s1 _.
  apply leaves_bind; [apply _|apply IH|]. intros [rest b] s2 _. apply leaves_ret, _.
Qed.
Lemma ks_UpdateHostForm f id r s : leaves (keeps_shown f) (UpdateHostForm id r) s.
Proof.
  unfold UpdateHostForm, set_clients. apply leaves_bind; [apply _|apply leaves_gets, _|]. intros l s1 _.
  apply leaves_bind; [apply _|apply ks_update_hosts|]. intros [l' b] s2 _. repeat ks_step.
Qed.
Lemma change_record_shown (f : FormRecord → FormRecord) id s b s' : change_record f id s = Returned (b, s') →
  same_data s s' ∧ formRecords_ s' = map_alter f id (formRecords_ s).
Proof.
  unfold change_record, ExistFormRecord, mbind, ST_bind, gets. destruct (bool_decide _) eqn:E; [by intros [= <- <-]|].
  intros [= <- <-]. split; [done|]. apply bool_decide_eq_false, eq_None_not_Some, map_find_None in E. symmetry. unfold map_alter, map_change.
  assert (∀ l : list (Z * FormRecord), id ∉ keys l → (λ e, (e.1, (λ j v, if bool_decide (j = id) then f v else v) e.1 e.2)) <$> l = l) as Hl; [|by apply Hl].
  intros l. induction l as [|[k v] l IH]; [done|]. unfold keys. csimpl. intros [Hne Hn]%not_elem_of_cons.
  rewrite bool_decide_eq_false_2 by congruence. f_equal. by apply IH.
Qed.
Lemma ks_SetVersionUpgrade id b s : leaves (keeps_shown id) (SetVersionUpgrade id b) s.
Proof.
  intros x s' [Hd Hr]%change_record_shown. split; [done|]. intros (r & Hf & H1 & H2). exists (r <| fr_versionUpgrade := b |>).
  split_and!; [|done..]. rewrite Hr, map_find_alter, bool_decide_eq_true_2 by done. by rewrite Hf.
Qed.

Lemma merged_text r d r' : fr_formProviderInfo r = no_info → merge_update r d = Returned r' →
  GetDataString (jsBindingData_ (fr_formProviderInfo r')) = GetDataString d.
Proof.
  intros Hr. unfold merge_update. destruct (fr_versionUpgrade r); [by intros [= <-]|]. rewrite Hr. unfold MergeData, GetDataString.
  destruct (json_empty (jsonFormProviderData_ d)) eqn:E; intros [= <-]; [done|].
  match goal with |- (if json_empty ?x then _ else _) = _ => change x with (jsonFormProviderData_ d) end. by rewrite E.
Qed.

(** C13: data that a provider sends for a form takes the place of what was kept:
    whatever was sent before, afterwards the cache holds exactly the text and the
    images of this update, or nothing when the text is longer than 1024 characters; the
    form is shown and wants no refresh, and other forms keep their data. The merge with
    earlier data that the code goes through never has any to merge with. *)
Theorem update_replaces m s id r (i : FormProviderInfo) : form_reachable m s → map_find id (formRecords_ s) = Some r →
  let text := GetDataString (jsBindingData_ i) in
  let fits := Z.of_nat (String.length text) <=? MAX_FORM_DATA_SIZE in
  ∃ s', UpdateForm_info id i s = Returned (ERR_OK, s') ∧
    cacheData_ s' = (if fits then <[id := text]> (cacheData_ s) else delete id (cacheData_ s)) ∧
    cacheImageMap_ s' = (if fits then <[id := imageDataMap_ (jsBindingData_ i)]> (cacheImageMap_ s) else delete id (cacheImageMap_ s)) ∧
    shown id s'.
Proof.
  intros Hs%form_reachable_ok Hr. cbv zeta. pose proof (rc_info _ _ (record_at _ _ _ Hs Hr)) as Hi.
  destruct (wp_run _ _ _ (rt_UpdateForm_info timers_ok id i s Hs (fm_timers s Hs))) as (e & s' & E & _). exists s'. pose proof E as E0.
  unfold UpdateForm_info, GetFormRecord, mbind at 1, ST_bind at 1, gets at 1 in E. rewrite Hr in E. unfold UpdateForm in E.
  apply ST_bind_Returned in E as (r' & s1 & E1 & E). unfold lift_outcome in E1. destruct (merge_update r _) as [r1| |] eqn:Em; [|done..].
  injection E1 as -> <-. apply merged_text in Em; [|done]. cbv zeta in E. change (jsBindingData_ (fr_formProviderInfo (r' <| fr_isInited := true |> <| fr_needRefresh := false |>)))
    with (jsBindingData_ (fr_formProviderInfo r')) in E. rewrite Em in E.
  apply ST_bind_Returned in E as (b & s2 & E2 & E). apply change_record_shown in E2 as [[Ed1 Ed2] Erec].
  assert (shown id s2) as Hsh.
  { exists (r <| fr_isInited := true |> <| fr_needRefresh := false |>). split_and!; [|done..]. rewrite Erec, map_find_alter, bool_decide_eq_true_2 by done. by rewrite Hr. }
  apply ST_bind_Returned in E as ([] & s3 & [= <-] & E). apply ST_bind_Returned in E as (on & s4 & [= <- <-] & E).
  set (s3 := update clientRecords_ _ s2) in *. assert (same_data s2 s3 ∧ shown id s3) as [[Ed3 Ed4] Hsh3] by done. clearbody s3.
  apply ST_bind_Returned in E as ([] & s5 & E5 & E).
  assert (keeps_shown id s3 s5) as [[Ed5 Ed6] Hsh5].
  { revert E5. match goal with |- ?m s3 = _ → _ => cut (leaves (keeps_shown id) m s3); [intros Hl; apply Hl|] end.
    destruct (env_screen_on _); [|apply leaves_ret, _]. apply leaves_bind; [apply _|apply ks_UpdateHostForm|]. intros [] s6 _; [|apply leaves_ret, _].
    apply leaves_bind; [apply _|apply ks_SetVersionUpgrade|]. intros. apply leaves_ret, _. }
  specialize (Hsh5 Hsh3). apply ST_bind_Returned in E as (b' & s6 & E6 & E). injection E as <- <-. split; [exact E0|]. clear E0.
  rewrite <- Ed1, <- Ed2, <- Ed3, <- Ed4, <- Ed5, <- Ed6. revert E6. destruct (_ <=? _); unfold AddData, DeleteData, mbind, ST_bind, modify; intros [= <- <-]; by split_and!.
Qed.
End refusals.

(** * Instances *)

#[local] Existing Instance demo_forms.
#[local] Existing Instance demo_bundles.

Definition foreign_item : FormItemInfo :=
  match GetFormConfigInfo 40010002 card_want (forms_after two_cards) with Returned (inr i, _) => i | _ => new_item end.
Lemma AddForm_foreign_witness : ∃ s', AddForm morning 40010002 (Some 2%positive) 4096 card_want (forms_after two_cards) =
    Returned ((FORM_NOT_EXIST_ID, None), s') ∧ tables_eq (forms_after two_cards) s' ∧
  forms_trace s' = forms_trace (forms_after two_cards) ++ [ConnectServiceAbility "com.clock" "Clock" (DeleteConnection 4096)].
Proof.
  apply (AddForm_foreign morning 40010002 2%positive 4096 card_want foreign_item).
  - lia.
  - reflexivity.
  - vm_compute. reflexivity.
  - vm_compute. reflexivity.
  - vm_compute. reflexivity.
  - intros r Hr. vm_compute in Hr. injection Hr as <-. split; [reflexivity|]. split; [discriminate|]. cbn. set_solver.
  - intros d Hd. vm_compute in Hd. injection Hd as <-. split; [discriminate|]. cbn. set_solver.
Defined.

Definition first_data : FormProviderInfo := mkProviderInfo (mkProviderData (JObject [("hour", JInteger 9)]) ∅ 0) false.
Lemma update_replaces_witness : ∃ s', UpdateForm_info 4096 first_data (forms_after two_cards) = Returned (ERR_OK, s') ∧
  cacheData_ s' !! 4096 = Some "{data}" ∧ shown 4096 s'.
Proof.
  destruct (update_replaces ∅ (forms_after two_cards) 4096 (default new_form (map_find 4096 (formRecords_ (forms_after two_cards)))) first_data)
    as (s' & E & Hd & _ & Hs).
  - apply forms_after_reachable. vm_compute. reflexivity.
  - vm_compute. reflexivity.
  - exists s'. split; [exact E|]. split; [|exact Hs]. rewrite Hd. vm_compute. reflexivity.
Defined.
