(* ===== verification/FormStored.v ===== *)
(** What the form manager has stored: the forms of the database and the forms that the
    bundles offer, in memory and in the key-value store. *)

From S2P Require Import Prelude CppString StdMap FormLimiter FormTimer FormTimerRun FormTimerClaims FormInfos FormRecords FormData FormStore FormProvider FormAdapter FormEvents FormDataRun FormRun.

#[local] Open Scope stdpp_scope.
#[local] Open Scope Z_scope.

(** * Forms without a host *)

Section no_host.
Context `{!FormEnv}.
Implicit Types (s : Forms) (d : FormDBInfo) (l pre suf : list FormDBInfo) (n : NoHost) (id uid : Z).

Definition provider_of d : FormIdKey := mkIdKey (db_bundleName d) (db_abilityName d).
(** Nobody uses the form once [uid] does not. *)
Definition loses_all uid d : bool := Contains_uid uid d && bool_decide (db_formUserUids (Remove_uid uid d) = []).
Definition one_provider l : Prop := ∀ d d', d ∈ l → d' ∈ l → provider_of d = provider_of d'.

Lemma elem_set_emplace x z (l : list Z) : x ∈ set_emplace z l ↔ x = z ∨ x ∈ l.
Proof.
  induction l as [|y l IH]; cbn [set_emplace]; [by rewrite list_elem_of_singleton, elem_of_nil; tauto|].
  destruct (z =? y) eqn:E1; [apply Z.eqb_eq in E1 as ->; rewrite elem_of_cons; tauto|]. destruct (z <? y); [by rewrite elem_of_cons|].
  rewrite !elem_of_cons, IH. tauto.
Qed.

Lemma Remove_uid_id uid d : Contains_uid uid d = false → Remove_uid uid d = d.
Proof.
  unfold Contains_uid. intros Hn%bool_decide_eq_false. destruct d. unfold Remove_uid, update. cbn -[list_erase_val] in *. by rewrite list_erase_val_not_in.
Qed.

(** The batch of the forms that go. *)
Definition batched l n : Prop :=
  match l with
  | [] => nh_forms n = []
  | d :: _ => ∃ ids, nh_forms n = [(provider_of d, ids)] ∧ ∀ id, id ∈ ids ↔ id ∈ db_formId <$> l
  end.

Lemma batch_add l d n : batched l n → one_provider (l ++ [d]) →
  ∃ m, id_map_add (provider_of d) (db_formId d) (nh_forms n) = Returned m ∧ ∀ n', nh_forms n' = m → batched (l ++ [d]) n'.
Proof.
  intros Hb Hone. destruct l as [|d0 l]; cbn [batched app] in *.
  - rewrite Hb. eexists. split; [done|]. intros n' ->. eexists. split; [done|]. intros id. cbn. rewrite !list_elem_of_singleton. done.
  - destruct Hb as (ids & -> & Hids). cbn [id_map_add]. unfold id_less. rewrite (Hone d d0), bool_decide_eq_true_2 by set_solver. cbn [negb].
    eexists. split; [done|]. intros n' ->. eexists. split; [done|]. intros id. rewrite elem_set_emplace, Hids. csimpl.
    rewrite fmap_app. csimpl. set_solver.
Qed.
Lemma batch_returned l d n m : batched l n → one_provider l → id_map_add (provider_of d) (db_formId d) (nh_forms n) = Returned m →
  one_provider (l ++ [d]).
Proof.
  intros Hb Hone Hm. destruct l as [|d0 l]; cbn [batched] in Hb.
  - intros d1 d2. cbn. by intros ->%list_elem_of_singleton ->%list_elem_of_singleton.
  - destruct Hb as (ids & E & _). rewrite E in Hm. cbn [id_map_add] in Hm. unfold id_less in Hm.
    destruct (decide (provider_of d = provider_of d0)) as [E'|E']; [|by rewrite bool_decide_eq_false_2 in Hm].
    assert (∀ d', d' ∈ (d0 :: l) ++ [d] → provider_of d' = provider_of d0) as Hall.
    { intros d' [Hd| ->%list_elem_of_singleton]%elem_of_app; [apply Hone; [done|by left]|done]. }
    intros d1 d2 H1 H2. by rewrite (Hall _ H1), (Hall _ H2).
Qed.

(** The element is saved over itself, so nothing is. *)
Lemma save_self pre d suf s : formDBInfos_ s = pre ++ d :: suf → NoDup (db_formId <$> formDBInfos_ s) → SaveFormInfoNolock d s = Returned (ERR_OK, s).
Proof.
  intros E Hnd. unfold SaveFormInfoNolock, mbind, ST_bind, gets. destruct (List.find (λ x, same_form x d) (formDBInfos_ s)) as [x|] eqn:Ef.
  - apply find_Some_elem in Ef as [Hx Hid]. unfold same_form in Hid. apply Z.eqb_eq in Hid.
    assert (x = d) as ->; [|unfold Compare; by rewrite bool_decide_eq_true_2].
    rewrite E in Hnd, Hx. apply list_elem_of_lookup in Hx as [k Hk].
    assert ((pre ++ d :: suf) !! length pre = Some d) as Hd by by apply list_lookup_middle.
    assert (k = length pre) as ->.
    { eapply NoDup_lookup; [exact Hnd| |]; rewrite list_lookup_fmap, ?Hk, ?Hd; cbn; [reflexivity|by rewrite Hid]. }
    congruence.
  - assert (d ∈ formDBInfos_ s) as Hd by (rewrite E; set_solver). pose proof (find_None_elem _ _ _ Ef Hd) as Hn. unfold same_form in Hn.
    by rewrite Z.eqb_refl in Hn.
Qed.

Lemma insert_middle {A} (l1 l2 : list A) x y : <[length l1 := y]> (l1 ++ x :: l2) = l1 ++ y :: l2.
Proof. by rewrite <- (Nat.add_0_r (length l1)), insert_app_r. Qed.

Definition gone uid l : list FormDBInfo := List.filter (loses_all uid) l.
Lemma gone_app uid l l' : gone uid (l ++ l') = gone uid l ++ gone uid l'.
Proof. apply List.filter_app. Qed.
Lemma one_provider_app l l' : one_provider (l ++ l') → one_provider l.
Proof. intros Hone d d' Hd Hd'. apply Hone; apply elem_of_app; by left. Qed.

(** One form. *)
Definition drops uid i pre d suf (m : IdMap) n s : Prop := ∃ n' s', drop_uid uid i d n s = Returned (n', s') ∧ nh_forms n' = m ∧
  formDBInfos_ s' = pre ++ Remove_uid uid d :: suf ∧ kv_store s' = kv_store s.
Lemma drop_uid_spec uid i pre d suf n s : i = length pre → formDBInfos_ s = pre ++ d :: suf → NoDup (db_formId <$> formDBInfos_ s) → Contains_uid uid d = true →
  if loses_all uid d then
    match id_map_add (provider_of d) (db_formId d) (nh_forms n) with
    | Returned m => drops uid i pre d suf m n s
    | _ => drop_uid uid i d n s = Thrown
    end
  else drops uid i pre d suf (nh_forms n) n s.
Proof.
  intros -> E Hnd Hc. unfold loses_all, drops. rewrite Hc. cbn [andb]. unfold drop_uid, mbind, ST_bind, modify. cbv beta iota zeta.
  set (s1 := update formDBInfos_ _ s).
  assert (formDBInfos_ s1 = pre ++ Remove_uid uid d :: suf ∧ kv_store s1 = kv_store s) as [E1 Ek].
  { split; [|done]. subst s1. unfold update. cbn. rewrite E. apply insert_middle. }
  clearbody s1. destruct (db_formUserUids (Remove_uid uid d)) as [|u us] eqn:Eu.
  - rewrite bool_decide_eq_true_2 by done. unfold lift_outcome.
    change (mkIdKey (db_bundleName (Remove_uid uid d)) (db_abilityName (Remove_uid uid d))) with (provider_of d).
    change (db_formId (Remove_uid uid d)) with (db_formId d). destruct (id_map_add _ _ _) as [m| |] eqn:Em; [|done|].
    + eexists _, _. split; [done|]. by split_and!.
    + unfold id_map_add in Em. destruct (nh_forms n) as [|[k ids] [|]]; [done| |done]. by destruct (id_less _ _).
  - rewrite bool_decide_eq_false_2 by done. rewrite (save_self pre (Remove_uid uid d) suf s1 E1).
    + eexists _, _. split; [done|]. by split_and!.
    + rewrite E1. rewrite E in Hnd. rewrite fmap_app, fmap_cons in *. exact Hnd.
Qed.

(** The walk, of which [pre] is done. *)
Definition walked uid l n s' s : Prop := formDBInfos_ s' = Remove_uid uid <$> l ∧ kv_store s' = kv_store s ∧ batched (gone uid l) n.

Lemma walk_spec uid pre suf n s : formDBInfos_ s = (Remove_uid uid <$> pre) ++ suf → NoDup (db_formId <$> formDBInfos_ s) →
  batched (gone uid pre) n → one_provider (gone uid pre) →
  (one_provider (gone uid (pre ++ suf)) → ∃ n' s', no_host_db (Contains_uid uid) uid (length suf) (length pre) n s = Returned (n', s') ∧
    walked uid (pre ++ suf) n' s' s) ∧
  (¬ one_provider (gone uid (pre ++ suf)) → no_host_db (Contains_uid uid) uid (length suf) (length pre) n s = Thrown).
Proof.
  revert pre n s. induction suf as [|d suf IH]; intros pre n s E Hnd Hb Hone.
  { rewrite app_nil_r in *. cbn [length no_host_db]. split; [|done]. intros _. by exists n, s. }
  cbn [length no_host_db].
  assert (∀ n1 s1, formDBInfos_ s1 = (Remove_uid uid <$> pre) ++ Remove_uid uid d :: suf → kv_store s1 = kv_store s →
    batched (gone uid (pre ++ [d])) n1 → one_provider (gone uid (pre ++ [d])) →
    (one_provider (gone uid (pre ++ d :: suf)) → ∃ n' s', no_host_db (Contains_uid uid) uid (length suf) (S (length pre)) n1 s1 = Returned (n', s') ∧
      walked uid (pre ++ d :: suf) n' s' s) ∧
    (¬ one_provider (gone uid (pre ++ d :: suf)) → no_host_db (Contains_uid uid) uid (length suf) (S (length pre)) n1 s1 = Thrown)) as Hnext.
  { intros n1 s1 E1 Ek Hb1 Hone1. destruct (IH (pre ++ [d]) n1 s1) as [H1 H2]; [by rewrite E1, fmap_app, <- app_assoc| |done|done|].
    - rewrite E1. rewrite E in Hnd. rewrite fmap_app, fmap_cons in *. exact Hnd.
    - rewrite <- app_assoc in H1, H2. rewrite length_app, Nat.add_comm in H1, H2. split; [|exact H2]. intros Hall.
      destruct (H1 Hall) as (n' & s' & Er & W1 & W2 & W3). exists n', s'. split; [exact Er|]. split_and!; [done|congruence|done]. }
  unfold mbind, ST_bind, gets. rewrite E, list_lookup_middle by (by rewrite length_fmap).
  pose proof (drop_uid_spec uid (length pre) (Remove_uid uid <$> pre) d suf n s ltac:(by rewrite length_fmap) E Hnd) as Hd. rewrite gone_app in Hnext.
  change (gone uid [d]) with (if loses_all uid d then [d] else []) in Hnext. unfold loses_all in *. destruct (Contains_uid uid d) eqn:Hc; cbn [andb] in *.
  - specialize (Hd eq_refl). destruct (bool_decide _) eqn:Hl.
    + assert (gone uid (pre ++ d :: suf) = (gone uid pre ++ [d]) ++ gone uid suf) as Eg.
      { rewrite gone_app. unfold gone at 2. cbn. unfold loses_all at 1. rewrite Hc, Hl. by rewrite <- app_assoc. }
      destruct (id_map_add _ _ _) as [m| |] eqn:Em.
      * destruct Hd as (n1 & s1 & -> & En & E1 & Ek). pose proof (batch_returned _ _ _ _ Hb Hone Em) as Hone1.
        destruct (batch_add _ _ _ Hb Hone1) as (m' & Em' & Hb'). rewrite Em in Em'. injection Em' as <-. apply Hnext; auto.
      * rewrite Hd. split; [|done]. rewrite Eg. intros Hall%one_provider_app. destruct (batch_add _ _ _ Hb Hall) as (m' & Em' & _). congruence.
      * rewrite Hd. split; [|done]. rewrite Eg. intros Hall%one_provider_app. destruct (batch_add _ _ _ Hb Hall) as (m' & Em' & _). congruence.
    + destruct Hd as (n1 & s1 & -> & En & E1 & Ek). rewrite app_nil_r in Hnext. apply Hnext; [done|done| |done].
      destruct (gone uid pre); unfold batched in *; by rewrite En.
  - rewrite app_nil_r in Hnext. apply Hnext; [|done..]. by rewrite E, Remove_uid_id.
Qed.

(** When the data of a host is cleared, the forms it used are gone over in
    memory only: each loses the uid there, the batch for the provider holds exactly the
    forms that nobody is left to use, but nothing is written to the store, since every
    form is compared with itself before it is saved, so the uids are back after a
    restart. When forms of two providers are left without a host, the batches are kept
    in a map whose keys are not ordered. *)
Theorem GetNoHostDBForms_spec uid s : NoDup (db_formId <$> formDBInfos_ s) →
  let left := gone uid (formDBInfos_ s) in
  (one_provider left → ∃ n s', GetNoHostDBForms uid s = Returned (n, s') ∧ formDBInfos_ s' = Remove_uid uid <$> formDBInfos_ s ∧
    kv_store s' = kv_store s ∧ ∀ id, (∃ k ids, (k, ids) ∈ nh_forms n ∧ id ∈ ids) ↔ id ∈ db_formId <$> left) ∧
  (¬ one_provider left → GetNoHostDBForms uid s = Thrown).
Proof.
  intros Hnd. cbv zeta. destruct (walk_spec uid [] (formDBInfos_ s) (mkNoHost [] []) s) as [H1 H2]; [done|done|done|by intros ? ? ?%not_elem_of_nil|].
  split; [|exact H2]. intros Hone. destruct (H1 Hone) as (n & s' & E & Edb & Ek & Hb). exists n, s'. split_and!; [exact E|done|done|].
  intros id. cbn [app] in Hb. destruct (gone uid (formDBInfos_ s)) as [|d l]; cbn [batched] in Hb.
  - rewrite Hb. split; [by intros (k & ids & ?%not_elem_of_nil & _)|by intros ?%not_elem_of_nil].
  - destruct Hb as (ids & -> & Hids). rewrite <- Hids. split.
    + by intros (k & ids' & [= -> ->]%list_elem_of_singleton & Hin).
    + intros Hin. exists (provider_of d), ids. by rewrite list_elem_of_singleton.
Qed.
End no_host.

(** * Offered forms *)

Section offered.
Context `{!BundleEnv}.
Implicit Types (i : FormInfos) (b : string) (u : Z) (l : list FormInfoStorage).

(** What a bundle offers, in memory and in the store: a bundle without an entry offers
    nothing. *)
Definition offered i b : list FormInfoStorage := default [] (bundleFormInfoMap_ i !! b).
Definition stored i b : list FormInfoStorage := default [] (info_store i !! b).
Definition agree i : Prop := ∀ b, offered i b = stored i b.

Inductive InfoOp :=
  | IUpdate (b : string) (u : Z)
  | IRemove (b : string) (u : Z)
  | IAdd (f : FormInfo) (u : Z)
  | IDrop (b moduleName formName : string) (u : Z)
  | IDropAll (b : string) (u : Z).
Definition info_op (o : InfoOp) : ST FormInfos FormErr :=
  match o with
  | IUpdate b u => UpdateStaticFormInfos b u
  | IRemove b u => Remove b u
  | IAdd f u => AddDynamicFormInfo f u
  | IDrop b m n u => RemoveDynamicFormInfo b m n u
  | IDropAll b u => RemoveAllDynamicFormsInfo b u
  end.
Definition op_bundle (o : InfoOp) : string :=
  match o with IUpdate b _ | IRemove b _ | IDrop b _ _ _ | IDropAll b _ => b | IAdd f _ => fo_bundleName f end.
Definition op_user (o : InfoOp) : Z := match o with IUpdate _ u | IRemove _ u | IAdd _ u | IDrop _ _ _ u | IDropAll _ u => u end.
Definition known i b : bool := bool_decide (is_Some (bundleFormInfoMap_ i !! b)).

(** ** What an operation promises

    A bundle offers each user a list of forms. Of the bundle and the user of the
    operation, that offers [l] now: the code of a refusal, or what is offered then. *)
Definition forms_of u l : list FormInfo := concat (is_formInfos <$> List.filter (of_user u) l).
Definition named moduleName formName (f : FormInfo) : bool := String.eqb (fo_name f) formName && String.eqb (fo_moduleName f) moduleName.
Definition promised (is_known : bool) (o : InfoOp) (l : list FormInfo) : FormErr + list FormInfo :=
  match o with
  | IUpdate b u =>
      match LoadFormConfigInfoByBundleName b u with
      | inl e => inl e
      | inr package => inr (package ++ List.filter (λ f, negb (fo_isStatic f)) l)
      end
  | IRemove _ _ => inr []
  | IAdd f u =>
      if negb bms_there then inl FORM_GET_BMS_FAILED
      else match bms_GetBundleInfo (fo_bundleName f) u with
           | None => inl FORM_GET_INFO_FAILED
           | Some bundle =>
               match CheckDynamicFormInfo f (bi_hapModuleInfos bundle) with
               | inl e => inl e
               | inr f => if existsb (named (fo_moduleName f) (fo_name f)) l then inl FORM_INVALID_PARAM else inr (l ++ [f])
               end
           end
  | IDrop _ m n _ =>
      match List.find (named m n) l with
      | Some f => if fo_isStatic f then inl FORM_INVALID_PARAM else inr (erase_first (named m n) l)
      | None => inl FORM_INVALID_PARAM
      end
  | IDropAll _ _ => if is_known then inr (List.filter fo_isStatic l) else inl FORM_INVALID_PARAM
  end.
(** The two changes that only one of memory and store sees. *)
Definition in_memory (is_known : bool) (o : InfoOp) : bool := match o with IAdd _ _ => is_known | _ => true end.
Definition in_store (o : InfoOp) : bool := match o with IDropAll _ _ => false | _ => true end.

(** ** The storages

    A user has at most one storage of a bundle. *)
Definition users_once l : Prop := NoDup (is_userId <$> l).

(** The code, or the storages of the bundle in memory and in the store. *)
Definition op_result i (o : InfoOp) : FormErr + (list FormInfoStorage * list FormInfoStorage) :=
  let l := offered i (op_bundle o) in
  let both l := inr (l, l) in
  match o with
  | IUpdate b u => match LoadFormConfigInfoByBundleName b u with inr fs => both (static_updated fs u l) | inl e => inl e end
  | IRemove b u => both (List.filter (λ x, negb (of_user u x)) l)
  | IAdd f u =>
      if negb bms_there then inl FORM_GET_BMS_FAILED
      else match bms_GetBundleInfo (fo_bundleName f) u with
      | Some bundle =>
          match CheckDynamicFormInfo f (bi_hapModuleInfos bundle) with
          | inr g => match add_dynamic g u l with Some l' => inr (if known i (fo_bundleName f) then l' else l, l') | None => inl FORM_INVALID_PARAM end
          | inl e => inl e
          end
      | None => inl FORM_GET_INFO_FAILED
      end
  | IDrop b m n u => match remove_dynamic m n u l with Some l => both l | None => inl FORM_INVALID_PARAM end
  | IDropAll b u => if known i b then inr (remove_all_dynamic u l, l) else inl FORM_INVALID_PARAM
  end.

(** What an operation on the storages does to the forms of a user. *)
Definition result_ok u l (r : list FormInfoStorage) (fs : list FormInfo) : Prop :=
  users_once r ∧ ∀ u', forms_of u' r = if decide (u' = u) then fs else forms_of u' l.

Lemma forms_of_cons u x l : forms_of u (x :: l) = (if of_user u x then is_formInfos x else []) ++ forms_of u l.
Proof. unfold forms_of. cbn. by destruct (of_user u x). Qed.
Lemma forms_of_app u l l' : forms_of u (l ++ l') = forms_of u l ++ forms_of u l'.
Proof. unfold forms_of. by rewrite List.filter_app, fmap_app, concat_app. Qed.
Lemma of_user_spec u x : of_user u x = bool_decide (is_userId x = u).
Proof. unfold of_user. destruct (Z.eqb_spec (is_userId x) u); [by rewrite bool_decide_true|by rewrite bool_decide_false]. Qed.
Lemma forms_of_none u l : u ∉ is_userId <$> l → forms_of u l = [].
Proof.
  induction l as [|x l IH]; [done|]. csimpl. intros [Hx Hl]%not_elem_of_cons. rewrite forms_of_cons, of_user_spec, bool_decide_false by done.
  by apply IH.
Qed.
Lemma forms_of_others u u' l : forms_of u' (List.filter (λ x, negb (of_user u x)) l) = if decide (u' = u) then [] else forms_of u' l.
Proof.
  induction l as [|x l IH]; [by destruct (decide _)|]. cbn [List.filter]. rewrite forms_of_cons, !of_user_spec in *.
  destruct (bool_decide_reflect (is_userId x = u)) as [Ex|Ex]; cbn [negb]; [|rewrite forms_of_cons, of_user_spec]; rewrite IH;
    destruct (decide (u' = u)) as [->|Hu]; try done.
  - rewrite bool_decide_false by congruence. done.
  - by rewrite bool_decide_false.
Qed.
Lemma users_once_cons x l : users_once (x :: l) ↔ (is_userId x ∉ is_userId <$> l) ∧ users_once l.
Proof. unfold users_once. by rewrite fmap_cons, NoDup_cons. Qed.
Lemma users_once_filter P l : users_once l → users_once (List.filter P l).
Proof.
  induction l as [|x l IH]; [done|]. intros [Hx Hl]%users_once_cons. cbn. destruct (P x); [|by apply IH]. apply users_once_cons.
  split; [|by apply IH]. intros (y & E & [Hy _]%list_elem_of_In%List.filter_In)%list_elem_of_fmap. apply Hx. rewrite E.
  by apply list_elem_of_fmap_2, list_elem_of_In.
Qed.

Lemma Remove_forms u l : users_once l → result_ok u l (List.filter (λ x, negb (of_user u x)) l) [].
Proof. intros Hl. split; [by apply users_once_filter|]. intros u'. apply forms_of_others. Qed.

Lemma concat_filter {A B} (f : A → list B) (P : B → bool) (l : list A) : concat ((λ x, List.filter P (f x)) <$> l) = List.filter P (concat (f <$> l)).
Proof. induction l as [|x l IH]; [done|]. cbn. by rewrite List.filter_app, <- IH. Qed.
Lemma static_forms fs u l : users_once l →
  result_ok u l (static_updated fs u l) (fs ++ List.filter (λ f, negb (fo_isStatic f)) (forms_of u l)).
Proof.
  intros Hl. unfold static_updated. rewrite concat_filter. fold (forms_of u l). cbv zeta. destruct (Remove_forms u l Hl) as [Hn Hr].
  destruct (fs ++ _) as [|f all] eqn:E; [by split|]. split.
  - unfold users_once. rewrite fmap_app. apply NoDup_app. split; [done|]. split; [|apply NoDup_singleton].
    intros v (x & -> & [_ Hx]%list_elem_of_In%List.filter_In)%list_elem_of_fmap Hv%list_elem_of_singleton. unfold of_user in Hx.
    cbn in Hv. by rewrite Hv, Z.eqb_refl in Hx.
  - intros u'. rewrite forms_of_app, Hr, forms_of_cons, of_user_spec. cbn [is_userId is_formInfos].
    destruct (decide (u' = u)) as [->|Hu]; [by rewrite bool_decide_true, app_nil_r|]. rewrite bool_decide_false by congruence. apply app_nil_r.
Qed.

(** One storage is changed, that of the user. *)
Lemma result_head u x l fs : is_userId x = u → users_once (x :: l) → result_ok u (x :: l) (x <| is_formInfos := fs |> :: l) fs.
Proof.
  intros <- [Hx Hl]%users_once_cons. split; [by apply users_once_cons|]. intros u'. rewrite !forms_of_cons, !of_user_spec. cbn.
  destruct (decide (u' = is_userId x)) as [->|Hu].
  - rewrite bool_decide_true, (forms_of_none (is_userId x) l) by done. apply app_nil_r.
  - change (is_userId (x <| is_formInfos := fs |>)) with (is_userId x). by rewrite bool_decide_false by congruence.
Qed.
Lemma result_cons u x l r fs : is_userId x ≠ u → users_once (x :: l) → is_userId <$> r ⊆ u :: (is_userId <$> l) → result_ok u l r fs →
  result_ok u (x :: l) (x :: r) fs.
Proof.
  intros Hu [Hx Hl]%users_once_cons Hids [Hn Hr]. split.
  - apply users_once_cons. split; [|done]. intros Hin%Hids. apply elem_of_cons in Hin. tauto.
  - intros u'. rewrite !forms_of_cons, of_user_spec, Hr. destruct (decide (u' = u)) as [->|]; [by rewrite bool_decide_false|done].
Qed.
Lemma forms_here u x l : is_userId x = u → users_once (x :: l) → forms_of u (x :: l) = is_formInfos x.
Proof. intros <- [Hx _]%users_once_cons. rewrite forms_of_cons, of_user_spec, bool_decide_true, forms_of_none by done. apply app_nil_r. Qed.
Lemma forms_there u x l : is_userId x ≠ u → forms_of u (x :: l) = forms_of u l.
Proof. intros Hu. by rewrite forms_of_cons, of_user_spec, bool_decide_false. Qed.

Lemma add_dynamic_forms f u l : users_once l → let exists_ := existsb (named (fo_moduleName f) (fo_name f)) (forms_of u l) in
  match add_dynamic f u l with
  | None => exists_ = true
  | Some r => exists_ = false ∧ result_ok u l r (forms_of u l ++ [f]) ∧ is_userId <$> r ⊆ u :: (is_userId <$> l)
  end.
Proof.
  cbv zeta. induction l as [|x l IH]; intros Hl; cbn [add_dynamic].
  { split; [done|]. split; [|set_solver]. split; [apply NoDup_singleton|]. intros u'. rewrite forms_of_cons, of_user_spec. cbn.
    destruct (decide (u' = u)) as [->|]; [by rewrite bool_decide_true|by rewrite bool_decide_false by congruence]. }
  rewrite of_user_spec. destruct (bool_decide_reflect (is_userId x = u)) as [Hx|Hx].
  - rewrite (forms_here u x l Hx Hl). change (λ g, same_info g f) with (named (fo_moduleName f) (fo_name f)).
    destruct (existsb (named (fo_moduleName f) (fo_name f)) (is_formInfos x)); [done|]. split; [done|]. split; [|set_solver]. by apply (result_head u x l (is_formInfos x ++ [f])).
  - rewrite (forms_there u x l Hx). pose proof Hl as [_ Hl']%users_once_cons. specialize (IH Hl').
    destruct (add_dynamic f u l) as [r|]; cbn; [|done]. destruct IH as (He & Hr & Hids). split; [done|]. split; [by apply result_cons|set_solver].
Qed.

Lemma remove_dynamic_forms m n u l : users_once l →
  match List.find (named m n) (forms_of u l), remove_dynamic m n u l with
  | Some f, None => fo_isStatic f = true
  | None, None => True
  | Some f, Some r => fo_isStatic f = false ∧ result_ok u l r (erase_first (named m n) (forms_of u l)) ∧ is_userId <$> r = is_userId <$> l
  | None, Some r => False
  end.
Proof.
  induction l as [|x l IH]; intros Hl; cbn [remove_dynamic]; [done|]. rewrite of_user_spec.
  change (λ f, String.eqb (fo_name f) n && String.eqb (fo_moduleName f) m) with (named m n).
  pose proof Hl as [Hnx Hl']%users_once_cons. specialize (IH Hl'). destruct (bool_decide_reflect (is_userId x = u)) as [Hx|Hx].
  - rewrite (forms_here u x l Hx Hl). rewrite Hx in Hnx. rewrite (forms_of_none u l Hnx) in IH. cbn in IH.
    destruct (List.find (named m n) (is_formInfos x)) as [f|]; [|by destruct (remove_dynamic m n u l)].
    destruct (fo_isStatic f) eqn:Ef; [done|]. split; [done|]. split; [|done]. by apply (result_head u x l (erase_first (named m n) (is_formInfos x))).
  - rewrite (forms_there u x l Hx). destruct (List.find _ _) as [f|]; [|by destruct (remove_dynamic m n u l)].
    destruct (remove_dynamic m n u l) as [r|]; cbn; [|done]. destruct IH as (He & Hr & Hids). split; [done|].
    split; [apply result_cons; [done..|by rewrite Hids; set_solver|done]|by rewrite Hids].
Qed.

Lemma remove_all_forms u l : users_once l →
  result_ok u l (remove_all_dynamic u l) (List.filter fo_isStatic (forms_of u l)) ∧ is_userId <$> remove_all_dynamic u l = is_userId <$> l.
Proof.
  induction l as [|x l IH]; intros Hl; cbn [remove_all_dynamic].
  { split; [|done]. split; [done|]. intros u'. by destruct (decide _). }
  rewrite of_user_spec. pose proof Hl as [_ Hl']%users_once_cons. destruct (IH Hl') as [Hr Hids].
  destruct (bool_decide_reflect (is_userId x = u)) as [Hx|Hx].
  - rewrite (forms_here u x l Hx Hl). split; [|done]. by apply (result_head u x l (List.filter fo_isStatic (is_formInfos x))).
  - rewrite (forms_there u x l Hx). split; [apply result_cons; [done..|rewrite Hids; set_solver|done]|]. csimpl. by rewrite Hids.
Qed.

Context (kv : ∀ trace, info_kv_ok trace = true).

Lemma store_bundle b l Q i : b ≠ "" →
  (∀ i', bundleFormInfoMap_ i' = bundleFormInfoMap_ i → (∀ b', stored i' b' = if decide (b' = b) then l else stored i b') → Q ERR_OK i') →
  wp (UpdateFormInfoStorageLocked b l) Q i.
Proof.
  intros Hb HQ. unfold UpdateFormInfoStorageLocked, RemoveBundleFormInfos, UpdateBundleFormInfos. apply String.eqb_neq in Hb as ->.
  unfold info_do. destruct l as [|x l].
  - apply wp_bind, wp_gets, wp_bind, wp_modify. rewrite kv. apply wp_bind, wp_modify, wp_ret, HQ; [done|]. intros b'. unfold stored, update. cbn.
    destruct (decide (b' = b)) as [->|Hne]; [by rewrite lookup_delete_eq|by rewrite lookup_delete_ne].
  - apply wp_bind, wp_bind, wp_gets, wp_bind, wp_modify. rewrite kv. apply wp_bind, wp_modify, wp_ret. change (failed ERR_OK) with false. cbv iota.
    apply wp_bind, wp_gets, wp_bind, wp_modify. rewrite kv. apply wp_bind, wp_modify, wp_ret, HQ; [done|]. intros b'. unfold stored, update. cbn.
    destruct (decide (b' = b)) as [->|Hne]; [by rewrite lookup_insert_eq|by rewrite lookup_insert_ne, lookup_delete_ne].
Qed.

(** The bundle has new storages in memory and in the store; the others are as they were. *)
Definition becomes i i' b (r : list FormInfoStorage * list FormInfoStorage) : Prop := ∀ b',
  offered i' b' = (if decide (b' = b) then r.1 else offered i b') ∧ stored i' b' = (if decide (b' = b) then r.2 else stored i b').
(** What an operation comes to: refused, and nothing changes, or done. *)
Definition comes_to i b (r : FormErr + (list FormInfoStorage * list FormInfoStorage)) (e : FormErr) i' : Prop :=
  match r with inl code => e = code ∧ i' = i | inr r => e = ERR_OK ∧ becomes i i' b r end.

Lemma becomes_same i b : becomes i i b (offered i b, stored i b).
Proof. intros b'. by destruct (decide (b' = b)) as [->|]. Qed.
Lemma offered_set i b l b' : offered (i <| bundleFormInfoMap_ ::= <[b := l]> |>) b' = if decide (b' = b) then l else offered i b'.
Proof.
  unfold offered, update. cbn. destruct (decide (b' = b)) as [->|Hne]; [by rewrite lookup_insert_eq|by rewrite lookup_insert_ne].
Qed.
Lemma offered_known i b l : bundleFormInfoMap_ i !! b = Some l → offered i b = l ∧ known i b = true.
Proof. intros E. unfold offered, known. rewrite E. split; [done|]. by apply bool_decide_eq_true_2. Qed.
Lemma offered_unknown i b : bundleFormInfoMap_ i !! b = None → offered i b = [] ∧ known i b = false.
Proof. intros E. unfold offered, known. rewrite E. split; [done|]. by apply bool_decide_eq_false_2; intros []. Qed.

(** The memory of the bundle is [lm], and [l] is stored. *)
Lemma becomes_store i i1 b lm l Q : b ≠ "" → info_store i1 = info_store i → (∀ b', offered i1 b' = if decide (b' = b) then lm else offered i b') →
  (∀ i', becomes i i' b (lm, l) → bundleFormInfoMap_ i' = bundleFormInfoMap_ i1 → Q ERR_OK i') → wp (UpdateFormInfoStorageLocked b l) Q i1.
Proof.
  intros Hb Es Hoff HQ. apply store_bundle; [done|]. intros i' Em Hst. apply HQ; [|done]. intros b'.
  assert (offered i' b' = offered i1 b') as -> by (unfold offered; by rewrite Em). rewrite Hoff, Hst. split; [done|]. cbn.
  destruct (decide (b' = b)); [done|]. unfold stored. by rewrite Es.
Qed.
Lemma set_and_store i b l : b ≠ "" → wp (_ ← set_bundle b l; UpdateFormInfoStorageLocked b l) (comes_to i b (inr (l, l))) i.
Proof. intros Hb. apply wp_bind, wp_modify, (becomes_store i _ b l); [done|done|intros b'; apply offered_set|]. by intros i' Hi _. Qed.
(** Memory written again with what it holds, or an empty entry dropped. *)
Lemma becomes_memory i i' b r m : becomes i i' b r → (∀ b', default [] (m !! b') = if decide (b' = b) then r.1 else offered i' b') →
  becomes i (i' <| bundleFormInfoMap_ := m |>) b r.
Proof.
  intros Hi Hm b'. destruct (Hi b') as [H1 H2]. split; [|exact H2].
  assert (offered (i' <| bundleFormInfoMap_ := m |>) b' = if decide (b' = b) then r.1 else offered i' b') as -> by apply Hm.
  rewrite H1. by destruct (decide (b' = b)).
Qed.
Lemma insert_memory i b l b' : default [] (<[b := l]> (bundleFormInfoMap_ i) !! b') = if decide (b' = b) then l else offered i b'.
Proof. destruct (decide (b' = b)) as [->|]; [by rewrite lookup_insert_eq|by rewrite lookup_insert_ne]. Qed.
Lemma delete_memory i b b' : default [] (delete b (bundleFormInfoMap_ i) !! b') = if decide (b' = b) then [] else offered i b'.
Proof. destruct (decide (b' = b)) as [->|]; [by rewrite lookup_delete_eq|by rewrite lookup_delete_ne]. Qed.

Lemma becomes_Update b u i : b ≠ "" → wp (UpdateStaticFormInfos b u) (comes_to i b (op_result i (IUpdate b u))) i.
Proof.
  intros Hb. unfold UpdateStaticFormInfos. pose proof Hb as Hb'. apply String.eqb_neq in Hb' as ->. apply wp_bind, wp_gets. cbn [op_result op_bundle].
  destruct (LoadFormConfigInfoByBundleName b u) as [e|fs]; [by apply wp_ret|]. cbv zeta. fold (offered i b).
  set (l := static_updated fs u (offered i b)). clearbody l.
  assert (∀ i' lm, becomes i i' b (lm, l) → (l = [] → lm = []) →
    wp (match l with [] => mret ERR_OK | _ => _ ← set_bundle b l; mret ERR_OK end) (comes_to i b (inr (l, l))) i') as Hend.
  { intros i' lm Hi Hnil. destruct l as [|x l]; [apply wp_ret; split; [done|by rewrite Hnil in Hi]|]. apply wp_bind, wp_modify, wp_ret. split; [done|].
    intros b'. rewrite offered_set. destruct (Hi b') as [H1 H2]. rewrite H1. split; [by destruct (decide (b' = b))|exact H2]. }
  destruct (bundleFormInfoMap_ i !! b) as [sts|] eqn:Eb.
  - apply wp_bind, wp_modify, wp_bind, (becomes_store i _ b l l); [done|done|intros b'; apply offered_set|]. intros i' Hi _. by apply (Hend i' l).
  - apply wp_bind, wp_ret, wp_bind, (becomes_store i i b (offered i b) l); [done|done|intros b'; by destruct (decide (b' = b)) as [->|]|].
    intros i' Hi _. apply (Hend i' (offered i b)); [done|]. intros _. by apply offered_unknown.
Qed.

Lemma becomes_Remove b u i : agree i → b ≠ "" → wp (Remove b u) (comes_to i b (op_result i (IRemove b u))) i.
Proof.
  intros Hag Hb. unfold Remove. pose proof Hb as Hb'. apply String.eqb_neq in Hb' as ->. apply wp_bind, wp_gets. cbn [op_result op_bundle].
  destruct (bundleFormInfoMap_ i !! b) as [sts|] eqn:Eb.
  - destruct (offered_known _ _ _ Eb) as [-> _]. cbv zeta. set (l := List.filter _ sts). clearbody l.
    apply wp_bind, wp_modify, wp_bind, (becomes_store i _ b l l); [done|done|intros b'; apply offered_set|]. intros i' Hi _.
    destruct l as [|x l]; [|by apply wp_bind, wp_ret, wp_ret]. apply wp_bind, wp_modify, wp_ret. split; [done|].
    apply becomes_memory; [done|]. intros b'. apply delete_memory.
  - apply wp_ret. split; [done|]. pose proof (becomes_same i b) as Hi. rewrite <- (Hag b) in Hi. by rewrite (proj1 (offered_unknown _ _ Eb)) in Hi |- *.
Qed.

Lemma CheckDynamic_bundle f ms g : CheckDynamicFormInfo f ms = inr g → fo_bundleName g = fo_bundleName f.
Proof.
  induction ms as [|m ms IH]; cbn; [done|]. destruct (negb _); [done|]. do 2 (destruct (bool_decide _); [by intros [= <-]|]). done.
Qed.
Lemma becomes_Add f u i : fo_bundleName f ≠ "" → wp (AddDynamicFormInfo f u) (comes_to i (fo_bundleName f) (op_result i (IAdd f u))) i.
Proof.
  intros Hb. unfold AddDynamicFormInfo. cbn [op_result op_bundle]. destruct bms_there; cbn [negb]; [|by apply wp_ret].
  destruct (bms_GetBundleInfo _ _) as [bundle|]; [|by apply wp_ret].
  destruct (CheckDynamicFormInfo f (bi_hapModuleInfos bundle)) as [e|g] eqn:Eg; [by apply wp_ret|].
  apply wp_bind, wp_gets. rewrite (CheckDynamic_bundle _ _ _ Eg). fold (offered i (fo_bundleName f)).
  destruct (add_dynamic g u _) as [l|]; [|by apply wp_ret]. destruct (bundleFormInfoMap_ i !! fo_bundleName f) as [sts|] eqn:Eb.
  - destruct (offered_known _ _ _ Eb) as [_ ->]. by apply set_and_store.
  - destruct (offered_unknown _ _ Eb) as [_ ->]. apply wp_bind, wp_ret, (becomes_store i i _ (offered i (fo_bundleName f))); [done|done| |by intros i' Hi _].
    intros b'. by destruct (decide (b' = fo_bundleName f)) as [->|].
Qed.

Lemma becomes_Drop b m n u i : b ≠ "" → wp (RemoveDynamicFormInfo b m n u) (comes_to i b (op_result i (IDrop b m n u))) i.
Proof.
  intros Hb. unfold RemoveDynamicFormInfo. apply wp_bind, wp_gets. cbn [op_result op_bundle].
  destruct (bundleFormInfoMap_ i !! b) as [sts|] eqn:Eb.
  - destruct (offered_known _ _ _ Eb) as [-> _]. destruct (remove_dynamic m n u sts) as [l|]; [by apply set_and_store|by apply wp_ret].
  - destruct (offered_unknown _ _ Eb) as [-> _]. by apply wp_ret.
Qed.

Lemma becomes_DropAll b u i : agree i → wp (RemoveAllDynamicFormsInfo b u) (comes_to i b (op_result i (IDropAll b u))) i.
Proof.
  intros Hag. unfold RemoveAllDynamicFormsInfo. apply wp_bind, wp_gets. cbn [op_result op_bundle].
  destruct (bundleFormInfoMap_ i !! b) as [sts|] eqn:Eb.
  - destruct (offered_known _ _ _ Eb) as [Eo ->]. rewrite Eo. apply wp_bind, wp_modify, wp_ret. split; [done|]. rewrite <- Eo. intros b'.
    rewrite offered_set. split; [done|]. cbn. destruct (decide (b' = b)) as [->|]; [|done]. by rewrite Hag.
  - destruct (offered_unknown _ _ Eb) as [_ ->]. by apply wp_ret.
Qed.

Lemma op_comes_to o i : agree i → op_bundle o ≠ "" → wp (info_op o) (comes_to i (op_bundle o) (op_result i o)) i.
Proof.
  intros Hag Hb. destruct o; [by apply becomes_Update|by apply becomes_Remove|by apply becomes_Add|by apply becomes_Drop|by apply becomes_DropAll].
Qed.

(** The storages hold what the operation promises. *)
Lemma result_promised o i : let l := offered i (op_bundle o) in users_once l →
  match op_result i o, promised (known i (op_bundle o)) o (forms_of (op_user o) l) with
  | inl e, inl e' => e = e'
  | inr (lm, ls), inr fs =>
      (if in_memory (known i (op_bundle o)) o then result_ok (op_user o) l lm fs else lm = l) ∧
      (if in_store o then result_ok (op_user o) l ls fs else ls = l) ∧
      (in_memory (known i (op_bundle o)) o = true → in_store o = true → lm = ls)
  | _, _ => False
  end.
Proof.
  cbv zeta. intros Hl. destruct o as [b u|b u|f u|b m n u|b u]; cbn [op_result promised op_bundle op_user in_memory in_store] in *.
  - destruct (LoadFormConfigInfoByBundleName b u) as [e|fs]; [done|]. split_and!; by try apply static_forms.
  - split_and!; by try apply Remove_forms.
  - destruct (negb bms_there); [done|]. destruct (bms_GetBundleInfo _ _) as [bundle|]; [|done].
    destruct (CheckDynamicFormInfo f (bi_hapModuleInfos bundle)) as [e|g]; [done|].
    pose proof (add_dynamic_forms g u (offered i (fo_bundleName f)) Hl) as Ha. cbv zeta in Ha.
    destruct (add_dynamic g u _) as [r|]; [|by rewrite Ha]. destruct Ha as (-> & Hr & _). split_and!; [|done|]; by destruct (known i (fo_bundleName f)).
  - pose proof (remove_dynamic_forms m n u (offered i b) Hl) as Hr. destruct (remove_dynamic m n u _) as [r|]; destruct (List.find _ _) as [f|]; try done.
    + destruct Hr as (-> & Hr & _). by split_and!.
    + by rewrite Hr.
  - destruct (known i b); [|done]. split_and!; [by apply remove_all_forms|done..].
Qed.


End offered.

(** * Instances *)

#[local] Existing Instance demo_forms.
#[local] Existing Instance demo_bundles.

(** Two forms of one ability. *)
Definition two_clocks : Forms :=
  forms_after (installed ++ [EAdd 20010002 (Some 1%positive) 0 card_want; EAdd 20010002 (Some 1%positive) 0 card_want]).
Lemma GetNoHostDBForms_spec_witness : ∃ n s', GetNoHostDBForms 20010002 two_clocks = Returned (n, s') ∧
  db_formUserUids <$> formDBInfos_ s' = [[]; []] ∧ db_formUserUids <$> (map_to_list (kv_store s')).*2 = [[20010002]; [20010002]].
Proof.
  destruct (GetNoHostDBForms_spec 20010002 two_clocks) as [Hone _].
  - apply (bool_decide_unpack _). vm_compute. exact I.
  - destruct Hone as (n & s' & E & Hdb & Hkv & _).
    + assert (provider_of <$> gone 20010002 (formDBInfos_ two_clocks) = [mkIdKey "com.clock" "Clock"; mkIdKey "com.clock" "Clock"]) as Eg
        by (vm_compute; reflexivity).
      assert (∀ d, d ∈ gone 20010002 (formDBInfos_ two_clocks) → provider_of d = mkIdKey "com.clock" "Clock") as Hall.
      { intros d Hd. apply (list_elem_of_fmap_2 provider_of) in Hd. rewrite Eg in Hd. apply elem_of_cons in Hd as [Hd|Hd]; [exact Hd|]. apply list_elem_of_singleton in Hd. exact Hd. }
      intros d d' Hd Hd'. by rewrite (Hall d Hd), (Hall d' Hd').
    + exists n, s'. split; [exact E|]. rewrite Hdb, Hkv. split; vm_compute; reflexivity.
Defined.

(** With a form of another ability the batches are undefined. *)
Lemma two_providers_undefined : GetNoHostDBForms 20010002 (forms_after two_cards) = Thrown.
Proof. vm_compute. reflexivity. Qed.

Definition extra_card : FormInfo := mkFormInfo "extra" "com.clock" "entry" "Clock" false false 2 [2] false 0 "" false "" "" 0.
